(* ===== verification/_CoqProject ===== *)
-Q . S2P
Prelude.v
Collections.v
Json.v
Action.v
Ids.v
PolicyTypes.v
HardDeny.v
Override.v
Cache.v
Hydration.v
Explain.v
Conditions.v
CondParser.v
CondSound.v
CondRoundtrip.v
CondEval.v
Bundle.v
Pipeline.v
Kernel.v
Records.v
Redaction.v
Receipt.v
ChainSound.v
Segment.v
Compaction.v
EvidenceLog.v
LogSound.v
StateError.v
Lifecycle.v
DispatchQueue.v
Adapters.v
Approvals.v
Rollback.v
Emit.v
RtPipeline.v
RtSound.v
Runtime.v
RtEvidence.v
RtDemo.v
SgrTypes.v
SgrGraph.v
SgrFsm.v
SgrEval.v
SgrKahn.v
SgrTarjan.v
SgrSound.v
SgrAdapters.v
SgrRuntime.v
SgrDemo.v
FsTypes.v
FsStore.v
FsNamespace.v
FsQuery.v
FsQueryParser.v
FsQuerySound.v
FsSound.v
FsMove.v
FsCollect.v
FsProps.v
FsDemo.v
VaultTypes.v
VaultCrypto.v
VaultBroker.v
VaultIdentity.v
VaultOverride.v
VaultSound.v
VaultLife.v
VaultKeys.v
VaultCatalog.v
VaultGrants.v
VaultDemo.v
CapTokens.v
CapsuleRollback.v
CapsuleScheduler.v
ApprovalGate.v
Sandbox.v
Confinement.v
Recovery.v
RecoveryBoot.v
SelfHealing.v
