(* ===== verification/Prelude.v ===== *)
(** * AI-Native Linux: policy-controlled action execution

    Every effect in the system is requested by an action envelope (crate
    [aios-action]) that the Policy Kernel (crate [aios-policy]) allows, denies
    or holds for approval before the Capability Runtime (crate
    [aios-capability-runtime]) executes it, and leaves a receipt in the evidence
    log (crate [aios-evidence]).  The service graph runtime (crate [aios-sgr])
    starts and stops units through the Capability Runtime, and the file system
    (crate [aios-fs]) keeps the versioned objects.  The vault (crate
    [aios-vault]) keeps keys, identities and overrides, and hydrates the
    kernel's subjects.  The sandbox (crate [aios-sandbox]) composes the profile an
    action is confined by, and the recovery coordinator (crate [aios-recovery])
    holds the mode that the others ask for.  This library models these nine
    crates, and proves theorems that cross them.

    ** Parts of the program and the files that model them

    Shared by all: this file; [Collections] (splitting of texts, canonical
    orders, occurrences and sums); [Json] ([serde_json::Value]); [StateError],
    the state and error monad with its logic ([post], [preserves]).

    The envelope ([src/crates/aios-action/src]):
    - [Action]: phases, conditions, the envelope and its operations
      ([phase.rs], [execution.rs], [identity.rs], [request.rs], [trace.rs],
      [envelope.rs]).  [Envelope.transition_to] and [Envelope.add_condition]
      are state passing; [Envelope.step] is a run of them.
    - [Ids]: identifier parsing and content addressing ([id.rs],
      [canonical.rs]).

    The Policy Kernel ([src/crates/aios-policy/src]):
    - [PolicyTypes]: the closed vocabularies and records, constraint
      validation, enrichment snapshots ([precedence.rs], [hard_deny.rs],
      [subject.rs], [constraints.rs], [decision.rs], [snapshot.rs],
      [error.rs]).
    - [HardDeny]: the constitutional hard-deny table ([hard_deny_engine.rs]).
    - [Override]: emergency grants ([override_boundary.rs]); the registry is a
      finite map and [OverrideBoundary.step] a run of its operations.
    - [Cache]: the decision cache ([cache.rs]), over the class [LruCache] that
      states what the crate relies on of [lru::LruCache].
    - [Hydration]: the trait [SubjectHydrator] as a class with its failure
      contract, and the in-memory implementation ([subject_hydration.rs]).
    - [Explain]: the decision log ([explain.rs]).
    - [Conditions], [CondParser], [CondSound], [CondRoundtrip], [CondEval]: the
      conditions language of bundle rules: syntax, parser, its soundness, the
      printer and the round trip, and the evaluator ([conditions.rs],
      [conditions_parser.rs], [conditions_eval.rs]).
    - [Bundle]: signed policy bundles and the loader ([bundle.rs],
      [bundle_loader.rs]).
    - [Pipeline]: the decision pipeline ([pipeline.rs]): hydrated subject, hard
      denies, emergency grants, default deny.
    - [Kernel]: [InMemoryPolicyKernel] ([kernel.rs]): cache lookup, hydration,
      pipeline and write-through; bundle installation and rollback.

    The evidence log ([src/crates/aios-evidence/src]):
    - [Records]: the closed vocabulary of record types with its wire names,
      wire ids and retention classes ([record.rs]).
    - [Redaction]: errors and status codes ([error.rs]) and the redaction of
      payloads ([redaction.rs]).
    - [Receipt]: receipts, their JSON projections, sealing, signing and
      verification ([receipt.rs]), and the receipt chain ([chain.rs]);
      [ChainSound] holds their theorems.  The class [Primitives] stands for the
      encoder, the digest and Ed25519, [SignatureLaws] and [CanonicalLaws] for
      what the crate relies on of them.
    - [Segment]: segments, their seal and the segment chain ([segment.rs],
      [segment_chain.rs]).
    - [Compaction]: the compaction worker ([compaction.rs]) over the class
      [CompactionBackend] and its laws.
    - [EvidenceLog]: the privacy ceiling ([privacy.rs]), the wire form
      ([service/conversions.rs]) and the in-memory log
      ([service/impl_inmemory.rs]), an instance of the backend class;
      [LogSound] holds its invariant and theorems.  [EvidenceLog.step] is a run
      of appends, seals and compaction ticks.

    The Capability Runtime ([src/crates/aios-capability-runtime/src]):
    - [Lifecycle]: the vocabularies, the action context, the transition table
      as a step relation, the dispatch decisions ([status.rs], [dispatch.rs],
      [failure.rs], [error.rs], [context.rs], [dispatcher.rs]).
    - [DispatchQueue]: [f64] as IEEE 754 binary64, token buckets and per-class
      queues ([dispatch_queue.rs]).
    - [Adapters]: signed manifests and their registry ([adapter_manifest.rs],
      [adapter_handle.rs], [adapter_registry.rs]).
    - [Approvals]: approval bindings; the trait [ApprovalBindingSink] as a class
      with laws and the in-memory sink ([approval.rs], [approval_sink.rs]).
    - [Rollback]: rollback strategies and their driver ([rollback_strategy.rs],
      [rollback.rs]).
    - [Emit]: the payloads, the trait [EvidenceSink] as a class with laws, the
      in-memory sink over the receipt chain, the emitter
      ([evidence_payloads.rs], [evidence_emit.rs]).
    - [RtPipeline]: every step and driver of the pipeline and the runtime's
      [submit_action] and [resume_with_binding] ([pipeline.rs], [runtime.rs])
      over one record [World]; [RtSound] proves the step lemmas, [Runtime] the
      theorems about runs, with the runtime under the Policy Kernel of [Kernel]
      (module [Governed]), [RtEvidence] those about the records left behind;
      [RtDemo] the witnesses.
    - Four parts of the crate that the runtime does not call, each one file with
      its operations, theorems and witnesses: [CapTokens], the tree of
      capability tokens ([sel4_cap_model.rs]); [CapsuleRollback], snapshots and
      the rollback engine ([snapshot.rs], [rollback_engine.rs]);
      [CapsuleScheduler], the partition scheduler ([scheduler.rs]);
      [ApprovalGate], the gate for what an AI proposes ([approval_gate.rs]),
      whose calls are interleaved by their critical sections.

    The service graph runtime ([src/crates/aios-sgr/src]):
    - [SgrTypes]: unit ids, states, manifests, errors ([unit.rs], [state.rs],
      [dependency.rs], [error.rs]), the evidence log and emitter
      ([evidence_emit.rs], [evidence_payloads.rs]).
    - [SgrGraph]: the trait [ServiceGraph] as a class with laws ([graph.rs]) and
      the in-memory graph ([in_memory_graph.rs]).
    - [SgrFsm]: the transition table and the driver of a unit ([state_fsm.rs]).
    - [SgrEval]: dependency index, topological sort, batches, cycles, readiness
      and convergence ([evaluator.rs]); [SgrKahn], [SgrTarjan] and [SgrSound] prove
      it correct.
    - [SgrAdapters]: the adapter registry ([adapter.rs],
      [adapter_registry.rs]); [SgrRuntime]: unit life cycles through the
      Capability Runtime ([runtime_adapter.rs]) and pausing for recovery
      ([recovery_adapter.rs]); [SgrDemo]: the witnesses.

    The file system ([src/crates/aios-fs/src]):
    - [FsTypes]: identifiers, records and errors ([id.rs], [object.rs],
      [version.rs], [pointer.rs], [chunk.rs], [transaction.rs], [fs_trait.rs],
      [error.rs]) and its evidence ([evidence_emit.rs]).
    - [FsStore]: the in-memory store ([in_memory.rs]), and the quarantine
      manager and the garbage collector over the traits ([quarantine.rs],
      [gc.rs]).
    - [FsNamespace]: path classes and the mutation gate ([namespace.rs],
      [namespace_policy.rs]), and in its module [ImplSpace] the implementation
      bindings ([impl_space.rs]).
    - [FsQuery], [FsQueryParser]: queries, their evaluation and views, and the
      parser ([query.rs], [query_eval.rs], [query_parser.rs]); [FsQuerySound]
      its theorems.
    - [FsSound], [FsMove], [FsCollect]: the invariant of the store and what each
      operation does; [FsProps] the theorems; [FsDemo] the witnesses.

    The vault ([src/crates/aios-vault/src]):
    - [VaultTypes]: its records and errors ([capability.rs], [key_material.rs],
      [broker.rs], [identity.rs], [override_class.rs], [error.rs]), the shared
      state [VaultState], the environment and the emitter ([evidence_emit.rs],
      [evidence_payloads.rs]).
    - [VaultCrypto]: what is done around the primitives ([crypto/]), which are
      the class [VaultCrypto] with its laws.
    - [VaultBroker]: the capability broker, the audit log and the expiration
      driver ([in_memory_broker.rs], [audit.rs], [lifecycle.rs]).
    - [VaultIdentity]: the identity catalog and the hydrator
      ([identity_catalog.rs], [hydrator.rs]); [VaultOverride]: the override
      broker ([override_broker.rs]) and the adapters to the policy crate
      ([integration.rs]), an instance of the kernel's hydrator class.
    - [VaultSound]: the abstract capability machine and the refinement;
      [VaultLife] the runs, [VaultKeys] the theorems about keys, [VaultCatalog]
      those about identities, [VaultGrants] about overrides and, in its module
      [VaultGoverned], about the kernel and the runtime over a vault;
      [VaultDemo] the witnesses.

    The sandbox ([src/crates/aios-sandbox/src]):
    - [Sandbox]: profiles ([isolation.rs], [network.rs], [gpu.rs],
      [resources.rs], [profile.rs]), their composition ([in_memory_composer.rs])
      and the enforcers ([resource_enforcer.rs], [gpu_enforcer.rs]); the order
      [tighter] on profiles and the theorems.
    - [Confinement]: the AppArmor text of a profile ([confinement_generator.rs])
      and the answer to the Capability Runtime ([runtime_adapter.rs]), which is
      the [sandbox_composer] of [RtPipeline].

    Recovery ([src/crates/aios-recovery/src]):
    - [Recovery]: modes and sub-boundaries ([mode.rs]), the boundary
      ([in_memory_boundary.rs], [boundary.rs], [bundle.rs]) with its emitter
      ([evidence_emit.rs]), and its clients: the guard over [FsNamespace]
      ([recovery_guard.rs]), the hydrator of the Policy Kernel
      ([policy_adapter.rs]), the hook of the runtime ([runtime_adapter.rs]).
    - [RecoveryBoot]: the first-boot driver ([boot.rs], [first_boot.rs]) and the
      kernel pipeline ([kernel.rs], [kernel_pipeline.rs]) over the boundary.
    - [SelfHealing]: healing policies and trackers ([self_healing.rs]), the
      component registry ([registry.rs]), the watchdog ([watchdog.rs]) and the
      driver ([self_healing_driver.rs]), whose commands ([ipc.rs]) a component
      answers, drops or leaves.

    ** How the code is rendered

    A fallible function returns [result E A]; the question mark is [let?].  A
    method that mutates returns the new state, or is a program of the monad of
    [StateError], in which an error keeps the effects that came before it.
    Locks ([Arc<RwLock<..>>]) only serialise the operations, so a shared cell is
    a field of the state and a run is a sequence of steps; traits are classes,
    with their contracts as classes of laws that the in-memory implementations
    fulfil.  Clock reads, fresh ULIDs and the iteration order of a [HashMap] are
    arguments.  Third-party code (BLAKE3, JCS, serde, Ed25519, the LRU map, ULID
    decoding, the parsing of dates) is a parameter, with what the code relies on
    as named hypotheses or class laws; concrete instances are used by the
    witnesses.  Strings are the bytes of UTF-8 text.  Machine integers are [Z]
    with the range tests, saturation and truncation of the source written out.

    ** What the theorems show

    - Decisions: the pipeline refines the precedence ladder wherever no live
      grant speaks (a grant answers ALLOW at its third tier); every envelope is
      decided; a hard deny beats every grant; an ALLOW is only the effect of a
      live grant; the AI self-approval filter never relaxes a decision.
    - Kernel: the kernel always answers and what it answers on a hit and on a
      miss; the rollback stack is the bounded history of displaced bundles;
      bundle flips revoke every grant.  [cached_allow_crosses_subjects] proves
      that the cache key is too coarse: decisions cross subjects.
    - Hard denies, overrides, cache, log, hydration: exact behaviour of each
      operation, invariants of every run, refinement to list specifications.
    - Conditions: the parser terminates and accepts only well-formed
      conditions, reads back everything the printer writes and rejects
      disjunction; the evaluator is a short-circuit conjunction whose errors
      are exactly type errors.
    - Bundles: a bundle is accepted exactly when pinned, trusted, signed and
      well formed, and the two loading paths agree.
    - Envelope: the lifecycle invariant, append-only runs, absorbing terminal
      phases, and exactly the edges of the phase graph.
    - Evidence: every run of the log, one operation after another, passes full
      verification and is append-only; a verified chain is tamper evident below a known link hash;
      what sealing a receipt or a segment guarantees; redaction hides secrets;
      compaction only removes what is past its horizon and authorised.
      [forever_record_ages_out], [interleaved_seals_break_chain_order] and
      [seal_leaves_time_open] prove where the code falls short.
    - Capability Runtime: the status of a submission is the one a pure
      specification computes ([submit_implements_outcome]), every submission
      settles, its evidence is the specified trail where a registry is attached
      and verifies, nothing runs
      that was not allowed, and under the modelled Policy Kernel only on a live
      grant ([executed_only_by_live_grant]); approvals are single use; the
      queue stays within its bounds.
    - Around the runtime: the token tree forges nothing and gains no rights, and
      a cascade revokes all that descends from its target where the right to do
      so was handed down; the snapshot store is a
      map and rollbacks keep to their limits; the scheduler never panics,
      decides as its reference where its bands and guarantees do not compete and
      serves every ready capsule in a round; the
      gate records every decision, each by a policy or a person, and approves
      once per question.  [revocation_spares_the_leaf],
      [second_rollback_applies_the_record], [realtime_starves] and
      [approved_and_denied] are among those that prove where the code falls
      short.
    - Service graph: the sort, the batches and the cycles are exactly those of
      the dependency relation; an acyclic graph that requires no target to be
      healthy comes up; the driver does what
      its specification says from every state; a unit runs only on a live grant
      ([unit_runs_only_by_live_grant], through three crates).
    - File system: objects stay readable through writes, quarantines and
      collection; a write reads back; quarantine moves
      pointers to exactly the documented replacement and collection changes no
      read; mutations are confined to what the gate allows;
      queries print and parse back and views are exact.
      [purged_version_returns] proves that a purge can be undone without its
      data.
    - Vault: the broker refines a capability machine ([serve_refines]), by which
      every capability lives and with which the audit log agrees; what has ended
      is never used again; answers, records and state depend on keys only
      through permitted operations ([keys_stay_inside]); what one capability
      encrypts or signs its counterpart decrypts or verifies; a subject has one
      active session and ended sessions never revive; overrides take a quorum of
      humans and are consumed once; under a kernel that hydrates from the vault
      the runtime executes for registered subjects only
      ([executed_by_registered], through three crates).  [public_key_forges],
      [one_human_makes_a_quorum] and [removed_member_keeps_group] prove where
      the code falls short.

    - Sandbox: the composed profile is the greatest lower bound of its
      contributors and of the rules ([compose_is_greatest_lower_bound]), so that
      its enforcement is the conjunction of theirs ([composed_admits_exactly]);
      the generated text holds exactly the rules of its profile as long as no text
      from outside holds a line break ([generated_rules_exact]);
      [entry_writes_a_rule] and [runtime_sandbox_is_fixed] are among those that
      prove where the code falls short.
    - Recovery: a host is in recovery only between an authorised entry and the
      presentation of its token ([recovery_is_governed]), and so are the
      mutations that belong to recovery ([guarded_mutations]); first boot goes
      through its stages in order and is completed ([first_boot_sound]); only
      kernels a trusted authority signed are promoted, within their rules, and a
      promotion can be taken back ([kernel_slots_governed]).  Healing decides by
      what was seen of a component ([healing_follows_history]) and acts within
      the mode ([healing_governed]).
      [system_boundary_without_recovery], [lost_receipt_wedges_first_boot],
      [rollback_restores_retired] and [silent_component_stops_the_cycle] are
      among those that prove where the code falls short.

    ** Fuel

    The loops of the two parsers take fuel: one more than the length of the text
    still to read, of which each round consumes at least one byte;
    [ParserSound.parse_fuel_total] and [query_fuel_total] show that it always
    suffices, and [CondSound.parse] and [parse_query_string] are total.  The
    printer's digit loop has 20 rounds, enough for the 19 digits of an [i64].
    The driver of a unit has fuel for rereading the unit, of which four rounds
    are enough ([driver_exact]); the evaluator's loops have one round per unit,
    or per unit and edge, proved never to run out.  The walk over the descendants
    of a token has a round per token, the walk to its root sixteen, both proved
    enough ([revoke_cascade_exact], [cap_tree_sound]).  First boot has a turn per
    stage and one more ([first_boot_sound]).

    ** Not modelled, and the plan

    [Debug] and [Display] output that no modelled text contains and the gRPC
    transport are left out, and serde encodings except the projections that are
    hashed or signed; so are the other crates of the repository.  The operations
    of the identity catalog that take two locks are split in their halves, so
    that interference can be stated; elsewhere an operation is one step.  The
    approval gate is modelled by critical sections throughout.
    Next would be the RocksDB backend of the evidence log (key encodings,
    recovery), the service handlers of the Policy Kernel and the verification
    engine (crate [aios-verification]).

    This file holds what the components share: [result] and its notation, the
    [str] methods, lists and options, hint databases and tactics. *)
From Stdlib Require Export Ascii.
From stdpp Require Export prelude gmap strings pretty.

(** ** Notation scope of the development *)
Declare Scope aios_scope.
Delimit Scope aios_scope with aios.
#[global] Open Scope aios_scope.

(** ** Rust's [Result<T, E>] *)
Inductive result (E A : Type) : Type :=
| Ok (a : A)
| Err (e : E).
Arguments Ok {E A} a.
Arguments Err {E A} e.

Definition is_ok {E A} (r : result E A) : bool :=
  match r with Ok _ => true | Err _ => false end.

Definition result_bind {E A B} (r : result E A) (f : A -> result E B) : result E B :=
  match r with Ok a => f a | Err e => Err e end.

(** The [?] operator. *)
Notation "'let?' x ':=' c 'in' k" := (result_bind c (fun x => k))
  (at level 10, x binder, c at level 200, k at level 200,
   format "'[v' 'let?'  x  ':='  c  'in' '//' k ']'") : aios_scope.

Definition map_err {E F A} (f : E -> F) (r : result E A) : result F A :=
  match r with Ok a => Ok a | Err e => Err (f e) end.

Definition ok_or {E A} (o : option A) (e : E) : result E A :=
  match o with Some a => Ok a | None => Err e end.

Lemma result_bind_ok {E A B} (r : result E A) (f : A -> result E B) b :
  result_bind r f = Ok b <-> exists a, r = Ok a /\ f a = Ok b.
Proof. destruct r; simpl; split; [eauto|by intros (?&[= ->]&?)|done|by intros (?&?&?)]. Qed.

Lemma ok_inj {E A} (a b : A) : @Ok E A a = Ok b -> a = b.
Proof. congruence. Qed.

Lemma ok_or_ok {E A} (o : option A) (e : E) a : ok_or o e = Ok a <-> o = Some a.
Proof. destruct o; simpl; naive_solver. Qed.

(** [Iterator::try_fold]: a loop over a list that mutates [b] and may fail. *)
Fixpoint try_fold {E A B} (f : B -> A -> result E B) (b : B) (l : list A) : result E B :=
  match l with
  | [] => Ok b
  | a :: l => result_bind (f b a) (fun b => try_fold f b l)
  end.

(** Instants: [chrono::DateTime<Utc>], as nanoseconds since the epoch.
    [Duration::seconds n] is [seconds n]. *)
Abbreviation DateTime := Z (only parsing).
Definition seconds (n : Z) : Z := (n * 1000000000)%Z.

(** Bounds of the machine integers the sources use. *)
Definition u8_max : Z := 255.
Definition u32_max : Z := 4294967295.
Definition u64_max : Z := 18446744073709551615.
Definition i64_min : Z := (- 9223372036854775808)%Z.
Definition i64_max : Z := 9223372036854775807.

(** [u32::saturating_add], [u64::saturating_add] and [u64] arithmetic that wraps around. *)
Definition u32_saturating_add (a b : Z) : Z := Z.min (a + b) u32_max.
Definition u64_saturating_add (a b : Z) : Z := Z.min (a + b) u64_max.
Definition u64_wrap (z : Z) : Z := (z mod 18446744073709551616)%Z.

(** ** Strings: the [str] methods the sources call

    A Rust [str] is its UTF-8 byte sequence; a Rocq [string] is a byte
    sequence too, so the methods below work on bytes. *)

Fixpoint strip_prefix (p s : string) : option string :=
  match p, s with
  | EmptyString, _ => Some s
  | String a p', String b s' =>
      if Ascii.eqb a b then strip_prefix p' s' else None
  | String _ _, EmptyString => None
  end.

Definition starts_with (p s : string) : bool :=
  match strip_prefix p s with Some _ => true | None => false end.

Definition str_is_empty (s : string) : bool :=
  match s with EmptyString => true | _ => false end.

Fixpoint str_contains (needle hay : string) : bool :=
  starts_with needle hay ||
  match hay with EmptyString => false | String _ h => str_contains needle h end.

(** [ends_with(c)] and [trim_end_matches(c)] for an ASCII character [c]. *)
Fixpoint ends_with_char (c : Ascii.ascii) (s : string) : bool :=
  match s with
  | EmptyString => false
  | String a EmptyString => Ascii.eqb a c
  | String _ s' => ends_with_char c s'
  end.

Fixpoint trim_end_matches (c : Ascii.ascii) (s : string) : string :=
  match s with
  | EmptyString => EmptyString
  | String a s' =>
      match trim_end_matches c s' with
      | EmptyString => if Ascii.eqb a c then EmptyString else String a EmptyString
      | t => String a t
      end
  end.

(** [str]'s [Ord]: lexicographic on bytes. *)
Definition str_lt (a b : string) : bool :=
  match String.compare a b with Lt => true | _ => false end.
Definition str_le (a b : string) : bool :=
  match String.compare a b with Gt => false | _ => true end.

Fixpoint str_all (p : Ascii.ascii -> bool) (s : string) : bool :=
  match s with
  | EmptyString => true
  | String a s' => p a && str_all p s'
  end.

Lemma ascii_eqb_eq a b : Ascii.eqb a b = true <-> a = b.
Proof. apply Ascii.eqb_eq. Qed.

Lemma strip_prefix_Some p s r : strip_prefix p s = Some r <-> s = (p +:+ r)%string.
Proof.
  revert s. induction p as [|a p IH]; intros s; simpl.
  { split; [by intros [= ->]|by intros ->]. }
  destruct s as [|b s]; simpl; [split; by intros|].
  destruct (Ascii.eqb a b) eqn:E.
  - apply ascii_eqb_eq in E as ->. rewrite IH. split; [by intros ->|by intros [= ->]].
  - split; [done|]. intros [= -> _]. by rewrite Ascii.eqb_refl in E.
Qed.

Lemma starts_with_spec p s : starts_with p s = true <-> exists r, s = (p +:+ r)%string.
Proof.
  unfold starts_with. destruct (strip_prefix p s) as [r|] eqn:E.
  - apply strip_prefix_Some in E. naive_solver.
  - split; [done|]. intros [r Hr%strip_prefix_Some]. congruence.
Qed.

Lemma starts_with_app p r : starts_with p (p +:+ r)%string = true.
Proof. apply starts_with_spec. eauto. Qed.

Lemma str_app_cons a s r : (String a s +:+ r)%string = String a (s +:+ r)%string.
Proof. done. Qed.

Lemma str_app_nil_r s : (s +:+ "")%string = s.
Proof. induction s as [|a s IH]; [done|]. by rewrite str_app_cons, IH. Qed.

Lemma str_app_assoc a b c : ((a +:+ b) +:+ c = a +:+ (b +:+ c))%string.
Proof. induction a as [|x a IH]; [done|]. by rewrite !str_app_cons, IH. Qed.

Lemma str_length_app a b :
  String.length (a +:+ b)%string = String.length a + String.length b.
Proof. induction a as [|x a IH]; [done|]. rewrite str_app_cons. simpl. by rewrite IH. Qed.

Lemma str_is_empty_true s : str_is_empty s = true <-> s = EmptyString.
Proof. by destruct s. Qed.

Lemma trim_end_matches_not_ends c s : ends_with_char c (trim_end_matches c s) = false.
Proof.
  induction s as [|a s IH]; [done|]. simpl.
  destruct (trim_end_matches c s) as [|b t] eqn:E; [|done].
  destruct (Ascii.eqb a c) eqn:Ea; [done|]. simpl. done.
Qed.

Lemma trim_end_matches_id c s : ends_with_char c s = false -> trim_end_matches c s = s.
Proof.
  induction s as [|a s IH]; [done|]. intros Hs. simpl.
  destruct s as [|b s]; [simpl in *; by rewrite Hs|].
  rewrite IH by (by simpl in *). done.
Qed.

Lemma str_all_app p a b : str_all p (a +:+ b)%string = str_all p a && str_all p b.
Proof.
  induction a as [|x a IH]; [done|].
  rewrite str_app_cons. simpl. by rewrite IH, andb_assoc.
Qed.

(** ** Options and lists *)

Definition is_some {A} (o : option A) : bool :=
  match o with Some _ => true | None => false end.

Lemma is_some_true {A} (o : option A) : is_some o = true <-> exists a, o = Some a.
Proof. destruct o; simpl; naive_solver. Qed.

(** [Iterator::find]. *)
Fixpoint iter_find {A} (p : A -> bool) (l : list A) : option A :=
  match l with
  | [] => None
  | x :: l => if p x then Some x else iter_find p l
  end.

Lemma iter_find_Some {A} (p : A -> bool) l x :
  iter_find p l = Some x -> x ∈ l /\ p x = true.
Proof.
  induction l as [|y l IH]; simpl; [done|].
  destruct (p y) eqn:E; [intros [= ->]; split; [set_solver|done]|].
  intros H. apply IH in H as [??]. split; [set_solver|done].
Qed.

Lemma iter_find_None {A} (p : A -> bool) l :
  iter_find p l = None <-> forall x, x ∈ l -> p x = false.
Proof.
  induction l as [|y l IH]; simpl; [set_solver|].
  destruct (p y) eqn:E.
  - split; [done|]. intros H. rewrite (H y) in E by set_solver. done.
  - rewrite IH. split; [|set_solver]. intros H x [->|?]%elem_of_cons; auto.
Qed.

Lemma existsb_elem {A} (p : A -> bool) l :
  existsb p l = true <-> exists x, x ∈ l /\ p x = true.
Proof.
  rewrite existsb_exists. setoid_rewrite list_elem_of_In. done.
Qed.

Lemma forallb_elem {A} (p : A -> bool) l :
  forallb p l = true <-> forall x, x ∈ l -> p x = true.
Proof.
  rewrite forallb_forall. setoid_rewrite list_elem_of_In. done.
Qed.

Lemma filter_iff_in {A} (P Q : A -> Prop) `{!forall x, Decision (P x), !forall x, Decision (Q x)} (l : list A) :
  (forall x, x ∈ l -> P x <-> Q x) -> filter P l = filter Q l.
Proof.
  induction l as [|x l IH]; [done|]. intros Hl. rewrite !filter_cons, IH by set_solver.
  apply decide_ext, Hl. set_solver.
Qed.

Lemma filter_all {A} (P : A -> Prop) `{!forall x, Decision (P x)} (l : list A) :
  (forall x, x ∈ l -> P x) -> filter P l = l.
Proof.
  induction l as [|x l IH]; [done|]. intros Hl. rewrite filter_cons, decide_True by set_solver.
  f_equal. apply IH. set_solver.
Qed.

(** ** Hash maps

    A hash map is iterated in an order of its own, which depends on its keys. *)
Class HashOrder := { hash_iter : forall {A}, gmap string A -> list (string * A) }.
Class HashOrderLaws `{HashOrder} : Prop := {
  hash_iter_perm {A} (m : gmap string A) : hash_iter m ≡ₚ map_to_list m;
  hash_iter_keys {A} (m m' : gmap string A) :
    dom m = dom m' -> (hash_iter m).*1 = (hash_iter m').*1;
}.

(** The same for maps whose keys are numbers. *)
Class NumHashOrder := { num_iter : forall {A}, gmap Z A -> list (Z * A) }.
Class NumHashOrderLaws `{NumHashOrder} : Prop := {
  num_iter_perm {A} (m : gmap Z A) : num_iter m ≡ₚ map_to_list m;
}.

(** ** Runs: an invariant of the step relation holds along every run *)
Lemma rtc_invariant {A} (R : relation A) (P : A -> Prop) x y :
  (forall a b, R a b -> P a -> P b) -> P x -> rtc R x y -> P y.
Proof. intros Hs Hx H. induction H; eauto. Qed.

(** ** Automation *)

Create HintDb aios.
Create Rewrite HintDb aios_str.
#[export] Hint Resolve starts_with_app trim_end_matches_not_ends : aios.
#[export] Hint Rewrite @str_app_nil_r str_app_assoc str_length_app : aios_str.

(** [bool_to_prop]: turn the boolean tests of the code into propositions. *)
Ltac bool_to_prop :=
  repeat match goal with
  | H : _ && _ = true |- _ => apply andb_true_iff in H as [??]
  | H : _ || _ = false |- _ => apply orb_false_iff in H as [??]
  | H : negb _ = true |- _ => apply negb_true_iff in H
  | H : negb _ = false |- _ => apply negb_false_iff in H
  | H : bool_decide _ = true |- _ => apply bool_decide_eq_true in H
  | H : bool_decide _ = false |- _ => apply bool_decide_eq_false in H
  | H : (_ <? _)%Z = true |- _ => apply Z.ltb_lt in H
  | H : (_ <? _)%Z = false |- _ => apply Z.ltb_ge in H
  | H : (_ <=? _)%Z = true |- _ => apply Z.leb_le in H
  | H : (_ <=? _)%Z = false |- _ => apply Z.leb_gt in H
  | H : (_ =? _)%Z = true |- _ => apply Z.eqb_eq in H
  | H : (_ =? _)%Z = false |- _ => apply Z.eqb_neq in H
  | H : str_is_empty _ = true |- _ => apply str_is_empty_true in H
  end.

(** [break]: one case split on a [match] or [if] of the goal or a hypothesis;
    [run]: symbolic execution of the model of a function in the context. *)
Ltac break :=
  match goal with
  | H : context [match ?x with _ => _ end] |- _ => destruct x eqn:?; simplify_eq/=
  | |- context [match ?x with _ => _ end] => destruct x eqn:?; simplify_eq/=
  end.
Ltac run := repeat break; bool_to_prop; simplify_eq/=.
