(* ===== verification/Collections.v ===== *)
(** * Texts, sorting and counting

    What the components share about collections: splitting of texts, sorted and
    deduplicated texts, occurrences in a list and sums over a finite map. *)
From stdpp Require Import sorting.
From S2P Require Import Prelude.

(** * Splitting strings

    [str::split] and [str::split_once] on one ASCII character, shared by the
    components that take identifiers and paths apart. *)

(** [str::split(c)]. *)
Fixpoint split_on (c : Ascii.ascii) (s : string) : list string :=
  match s with
  | EmptyString => [""]
  | String a s =>
      if Ascii.eqb a c then "" :: split_on c s
      else match split_on c s with
           | [] => [String a ""]
           | x :: xs => String a x :: xs
           end
  end.

(** [str::split_once(c)]. *)
Fixpoint split_once (c : Ascii.ascii) (s : string) : option (string * string) :=
  match s with
  | EmptyString => None
  | String a s =>
      if Ascii.eqb a c then Some ("", s)
      else '(l, r) ← split_once c s; Some (String a l, r)
  end.

(** [c] does not occur in [s]. *)
Definition free_of (c : Ascii.ascii) (s : string) : bool := str_all (fun a => negb (Ascii.eqb a c)) s.

Fixpoint join_with (c : Ascii.ascii) (l : list string) : string :=
  match l with
  | [] => ""
  | [x] => x
  | x :: xs => x +:+ String c (join_with c xs)
  end.

Section Split.
Variable c : Ascii.ascii.

Lemma split_on_free s : free_of c s = true -> split_on c s = [s].
Proof.
  unfold free_of. induction s as [|a s IH]; simpl; [done|].
  intros [Ha Hs]%andb_true_iff. destruct (Ascii.eqb a c); [done|]. by rewrite IH.
Qed.

Lemma split_on_app s r : free_of c s = true -> split_on c (s +:+ String c r) = s :: split_on c r.
Proof.
  unfold free_of. induction s as [|a s IH]; simpl; [by rewrite Ascii.eqb_refl|].
  intros [Ha Hs]%andb_true_iff. destruct (Ascii.eqb a c); [done|]. by rewrite IH.
Qed.

Lemma split_on_pieces s : Forall (fun x => free_of c x = true) (split_on c s) /\ split_on c s <> [].
Proof.
  induction s as [|a s [IH Hn]]; simpl; [split; [by repeat constructor|done]|].
  destruct (Ascii.eqb a c) eqn:E; [split; [by constructor|done]|].
  destruct (split_on c s) as [|x xs]; [done|]. inversion_clear IH.
  split; [|done]. constructor; [|done]. unfold free_of in *. simpl. by rewrite E.
Qed.

Lemma join_split s : join_with c (split_on c s) = s.
Proof.
  induction s as [|a s IH]; simpl; [done|]. pose proof (split_on_pieces s) as [_ Hn].
  destruct (Ascii.eqb a c) eqn:E.
  - apply ascii_eqb_eq in E as ->. destruct (split_on c s) as [|x xs]; [done|].
    simpl in *. by rewrite IH.
  - destruct (split_on c s) as [|x xs]; [done|]. simpl in *. destruct xs; by rewrite <- IH.
Qed.

Lemma split_join l :
  l <> [] -> Forall (fun x => free_of c x = true) l -> split_on c (join_with c l) = l.
Proof.
  intros Hn Hl. induction Hl as [|x l Hx Hl IH]; [done|]. destruct l as [|y l]; [by apply split_on_free|].
  change (join_with c (x :: y :: l)) with (x +:+ String c (join_with c (y :: l))).
  rewrite split_on_app by done. by rewrite IH.
Qed.

Lemma split_once_app l r : free_of c l = true -> split_once c (l +:+ String c r) = Some (l, r).
Proof.
  unfold free_of. induction l as [|a l IH]; simpl; [by rewrite Ascii.eqb_refl|].
  intros [Ha Hl]%andb_true_iff. destruct (Ascii.eqb a c); [done|]. by rewrite IH.
Qed.

Lemma split_once_Some s l r :
  split_once c s = Some (l, r) <-> s = l +:+ String c r /\ free_of c l = true.
Proof.
  split; [|intros [-> Hl]; by apply split_once_app]. unfold free_of.
  revert l. induction s as [|a s IH]; intros l; simpl; [done|]. destruct (Ascii.eqb a c) eqn:E.
  - apply ascii_eqb_eq in E as ->. by intros [= <- <-].
  - destruct (split_once c s) as [[l' r']|]; simpl; [|done]. intros [= <- <-].
    destruct (IH l' eq_refl) as [-> Hf]. split; [done|]. simpl. by rewrite E.
Qed.
End Split.

(** * Sorting texts

    [sort_unstable] and [dedup] on vectors of texts, as the crates use them for
    canonical orders, and what they keep: the elements, their order and their
    uniqueness. *)

Definition sort_strings (l : list string) : list string := merge_sort String.le l.

(** [Vec::dedup]: runs of equal neighbours are reduced to one. *)
Fixpoint dedup_strings (l : list string) : list string :=
  match l with
  | x :: (y :: _) as t => if String.eqb x y then dedup_strings t else x :: dedup_strings t
  | _ => l
  end.

Definition sorted_unique (l : list string) : list string := dedup_strings (sort_strings l).

Lemma sort_strings_perm l : sort_strings l ≡ₚ l.
Proof. apply merge_sort_Permutation. Qed.
Lemma sort_strings_sorted l : StronglySorted String.le (sort_strings l).
Proof. apply StronglySorted_merge_sort; apply _. Qed.
Lemma sort_strings_unique l l' : StronglySorted String.le l -> l ≡ₚ l' -> sort_strings l' = l.
Proof.
  intros Hl Hp. eapply (StronglySorted_unique String.le); [apply sort_strings_sorted|done|].
  by rewrite sort_strings_perm.
Qed.
Lemma sort_strings_ext l l' : l ≡ₚ l' -> sort_strings l = sort_strings l'.
Proof.
  intros Hp. symmetry. apply sort_strings_unique; [apply sort_strings_sorted|].
  by rewrite sort_strings_perm.
Qed.
Lemma elem_of_sort_strings x l : x ∈ sort_strings l <-> x ∈ l.
Proof. by rewrite sort_strings_perm. Qed.

Lemma elem_of_dedup_strings x l : x ∈ dedup_strings l <-> x ∈ l.
Proof.
  induction l as [|y [|z l] IH]; [done|done|]. cbn [dedup_strings] in *.
  destruct (String.eqb_spec y z) as [->|]; [rewrite IH|rewrite !elem_of_cons, IH];
    rewrite !elem_of_cons; tauto.
Qed.
Lemma dedup_strings_sorted l :
  StronglySorted String.le l -> StronglySorted String.le (dedup_strings l).
Proof.
  induction l as [|y [|z l] IH]; [done|done|]. intros [Hs Hy]%StronglySorted_inv.
  cbn [dedup_strings] in *. specialize (IH Hs). destruct (String.eqb y z); [done|].
  constructor; [done|]. apply Forall_forall. intros x Hx.
  apply (elem_of_dedup_strings x (z :: l)) in Hx. by apply (proj1 (Forall_forall _ _) Hy).
Qed.
Lemma dedup_strings_nodup l : StronglySorted String.le l -> NoDup (dedup_strings l).
Proof.
  induction l as [|y [|z l] IH]; [constructor|by intros; apply NoDup_singleton|].
  intros [Hs Hy]%StronglySorted_inv.
  cbn [dedup_strings] in *. specialize (IH Hs). destruct (String.eqb_spec y z) as [->|Hne]; [done|].
  constructor; [|done]. intros Hin. apply (elem_of_dedup_strings y (z :: l)) in Hin.
  apply Hne. apply StronglySorted_inv in Hs as [_ Hz]. apply elem_of_cons in Hin as [->|Hin]; [done|].
  apply (anti_symm String.le); [by inversion_clear Hy|by apply (proj1 (Forall_forall _ _) Hz)].
Qed.
Lemma elem_of_sorted_unique x l : x ∈ sorted_unique l <-> x ∈ l.
Proof. unfold sorted_unique. by rewrite elem_of_dedup_strings, elem_of_sort_strings. Qed.
Lemma sorted_unique_sorted l : StronglySorted String.le (sorted_unique l).
Proof. apply dedup_strings_sorted, sort_strings_sorted. Qed.
Lemma sorted_unique_nodup l : NoDup (sorted_unique l).
Proof. apply dedup_strings_nodup, sort_strings_sorted. Qed.

(** The canonical list of a set of texts. *)
Lemma sorted_unique_ext l l' : (forall x, x ∈ l <-> x ∈ l') -> sorted_unique l = sorted_unique l'.
Proof.
  intros He. eapply (StronglySorted_unique String.le); [apply sorted_unique_sorted..|].
  apply NoDup_Permutation; [apply sorted_unique_nodup..|]. intros x.
  by rewrite !elem_of_sorted_unique.
Qed.

(** * Counting

    Occurrences in a list and sums over a finite map, with how they change when
    an entry is added, replaced or removed. *)

(** How often [x] occurs in [l]. *)
Definition occ (x : string) (l : list string) : nat := length (filter (fun y => y = x) l).

Lemma occ_app x l k : occ x (l ++ k) = occ x l + occ x k.
Proof. unfold occ. by rewrite filter_app, length_app. Qed.
Lemma occ_cons x y l : occ x (y :: l) = (if decide (y = x) then 1 else 0) + occ x l.
Proof. unfold occ. rewrite filter_cons. by destruct (decide (y = x)). Qed.
Lemma occ_single x y : occ x [y] = if decide (y = x) then 1 else 0.
Proof. rewrite occ_cons. unfold occ. simpl. lia. Qed.
Lemma occ_perm x l k : l ≡ₚ k -> occ x l = occ x k.
Proof. unfold occ. by intros ->. Qed.
Lemma occ_pos x l : 0 < occ x l <-> x ∈ l.
Proof.
  induction l as [|y l IH]; [split; [unfold occ; simpl; lia|by intros ?%elem_of_nil]|].
  rewrite occ_cons, elem_of_cons, <- IH. destruct (decide (y = x)) as [->|].
  - split; [auto|lia].
  - split; [auto|intros [->|]; [done|lia]].
Qed.

(** ** Sums over a map *)
Section Sum.
Context {K A : Type} `{Countable K}.

(** The sum of [f] over the entries of [m]. *)
Definition map_sum (f : K -> A -> nat) (m : gmap K A) : nat :=
  map_fold (fun k a n => f k a + n) 0 m.

Lemma map_sum_empty f : map_sum f ∅ = 0.
Proof. apply map_fold_empty. Qed.

Lemma map_sum_insert f m k a :
  m !! k = None -> map_sum f (<[k := a]> m) = f k a + map_sum f m.
Proof. intros Hk. unfold map_sum. rewrite map_fold_insert_L; [done|intros; lia|done]. Qed.

Lemma map_sum_delete f m k a : m !! k = Some a -> map_sum f m = f k a + map_sum f (delete k m).
Proof. intros Hk. unfold map_sum. rewrite (map_fold_delete_L _ _ k a m); [done|intros; lia|done]. Qed.

(** Replacing the entry of [k] exchanges its term. *)
Lemma map_sum_replace f m k a b :
  m !! k = Some a -> map_sum f (<[k := b]> m) + f k a = f k b + map_sum f m.
Proof.
  intros Hk. rewrite (map_sum_delete f m k a Hk).
  rewrite <- (insert_delete_eq m k b), map_sum_insert by apply lookup_delete_eq. lia.
Qed.

Lemma map_sum_ext f g m :
  (forall k a, m !! k = Some a -> f k a = g k a) -> map_sum f m = map_sum g m.
Proof.
  induction m as [|k a m Hk IH] using map_ind; intros He; [by rewrite !map_sum_empty|].
  rewrite !map_sum_insert by done. rewrite (He k a) by apply lookup_insert_eq.
  rewrite IH; [done|]. intros j b Hj. apply He. rewrite lookup_insert_ne; [done|congruence].
Qed.

Lemma map_sum_le f g m :
  (forall k a, m !! k = Some a -> f k a <= g k a) -> map_sum f m <= map_sum g m.
Proof.
  induction m as [|k a m Hk IH] using map_ind; intros He; [by rewrite !map_sum_empty|].
  rewrite !map_sum_insert by done. specialize (He k a) as Hka. rewrite lookup_insert_eq in Hka.
  specialize (Hka eq_refl). specialize (IH ltac:(intros j b Hj; apply He;
    rewrite lookup_insert_ne; [done|congruence])). lia.
Qed.

Lemma map_sum_lookup_le f m k a : m !! k = Some a -> f k a <= map_sum f m.
Proof. intros Hk. rewrite (map_sum_delete f m k a Hk). lia. Qed.
End Sum.
