(* ===== verification/Json.v ===== *)
(** * JSON payloads

    [serde_json::Value], the type of [Request::target] in
    [crates/aios-action/src/request.rs], with the accessors the Policy Kernel
    calls on it.  An object is the list of its entries (the map's keys are
    distinct, so the first entry of a key is its entry); a number is an
    integer, or a float kept as its text because no modelled code computes
    with one. *)
From S2P Require Import Prelude.

Inductive json : Type :=
| JNull
| JBool (b : bool)
| JInt (z : Z)
| JFloat (repr : string)
| JString (s : string)
| JArray (items : list json)
| JObject (entries : list (string * json)).

Fixpoint assoc {A} (k : string) (l : list (string * A)) : option A :=
  match l with
  | [] => None
  | (k', v) :: l => if String.eqb k k' then Some v else assoc k l
  end.

(** [Value::as_object]. *)
Definition as_object (v : json) : option (list (string * json)) :=
  match v with JObject m => Some m | _ => None end.

(** [Value::get(&str)]: the entry of an object, [None] on anything else. *)
Definition json_get (v : json) (k : string) : option json :=
  m ← as_object v; assoc k m.

Definition as_bool (v : json) : option bool :=
  match v with JBool b => Some b | _ => None end.

Definition as_str (v : json) : option string :=
  match v with JString s => Some s | _ => None end.

(** [Number::as_i64]: an integer outside the range of [i64] gives [None]. *)
Definition as_i64 (v : json) : option Z :=
  match v with
  | JInt z => if (i64_min <=? z)%Z && (z <=? i64_max)%Z then Some z else None
  | _ => None
  end.

Lemma as_i64_range v z : as_i64 v = Some z -> (i64_min <= z <= i64_max)%Z.
Proof. unfold as_i64. intros. run. lia. Qed.

(** Induction on payloads with the hypothesis for every item and every entry. *)
Section JsonInd.
Context (P : json -> Prop).
Context (Hnull : P JNull) (Hbool : forall b, P (JBool b)) (Hint : forall z, P (JInt z))
  (Hfloat : forall r, P (JFloat r)) (Hstring : forall s, P (JString s))
  (Harray : forall items, Forall P items -> P (JArray items))
  (Hobject : forall entries, Forall (fun e => P e.2) entries -> P (JObject entries)).

Fixpoint json_nested_ind (v : json) : P v :=
  match v with
  | JNull => Hnull
  | JBool b => Hbool b
  | JInt z => Hint z
  | JFloat r => Hfloat r
  | JString s => Hstring s
  | JArray items =>
      Harray items
        ((fix go l : Forall P l :=
            match l with
            | [] => Forall_nil_2 _
            | x :: l => Forall_cons_2 _ _ _ (json_nested_ind x) (go l)
            end) items)
  | JObject entries =>
      Hobject entries
        ((fix go l : Forall (fun e => P e.2) l :=
            match l with
            | [] => Forall_nil_2 _
            | e :: l => Forall_cons_2 _ _ _ (json_nested_ind e.2) (go l)
            end) entries)
  end.
End JsonInd.

(** ** Decidable equality *)
Fixpoint json_eqb (v w : json) : bool :=
  match v, w with
  | JNull, JNull => true
  | JBool a, JBool b => Bool.eqb a b
  | JInt a, JInt b => (a =? b)%Z
  | JFloat a, JFloat b | JString a, JString b => String.eqb a b
  | JArray l, JArray k =>
      (fix go l k := match l, k with
                     | [], [] => true
                     | a :: l, b :: k => json_eqb a b && go l k
                     | _, _ => false
                     end) l k
  | JObject l, JObject k =>
      (fix go l k := match l, k with
                     | [], [] => true
                     | (n, a) :: l, (m, b) :: k => String.eqb n m && json_eqb a b && go l k
                     | _, _ => false
                     end) l k
  | _, _ => false
  end.

Lemma json_eqb_eq v w : json_eqb v w = true <-> v = w.
Proof.
  revert w. induction v as [|b|z|r|s|l Hl|l Hl] using json_nested_ind; intros [|b'|z'|r'|s'|l'|l'];
    try done; cbn [json_eqb].
  - rewrite Bool.eqb_true_iff. split; congruence.
  - rewrite Z.eqb_eq. split; congruence.
  - rewrite String.eqb_eq. split; congruence.
  - rewrite String.eqb_eq. split; congruence.
  - revert l'. induction Hl as [|x l Hx _ IH]; intros [|y l']; try done.
    rewrite andb_true_iff, Hx, (IH l'). naive_solver.
  - revert l'. induction Hl as [|[n x] l Hx _ IH]; intros [|[m y] l']; try done. simpl in Hx.
    rewrite !andb_true_iff, String.eqb_eq, Hx, (IH l'). naive_solver.
Qed.

#[global] Instance json_eq_dec : EqDecision json.
Proof.
  intros v w. destruct (json_eqb v w) eqn:E.
  - left. by apply json_eqb_eq.
  - right. intros Heq. apply json_eqb_eq in Heq. congruence.
Defined.
