(* ===== verification/Action.v ===== *)
(** * The action envelope and its lifecycle (crate [aios-action])

    [ActionPhase] is the phase machine of [phase.rs], [Envelope] the
    four-section envelope of [envelope.rs] with the two operations that change
    it, [transition_to] and [add_condition], and the phase/condition
    consistency check; [Ids] is the identifier grammar of [id.rs].

    The wall clock is an argument ([now]).  BLAKE3 and the JCS canonicaliser
    are third-party code and are arguments of the hash functions. *)
From S2P Require Import Prelude Json.

(** ** Lifecycle phase ([phase.rs]) *)
Module ActionPhase.

Inductive t : Type :=
| Pending
| Running
| Succeeded
| Failed
| RolledBack.

#[global] Instance t_eq_dec : EqDecision t.
Proof. solve_decision. Defined.

Definition is_terminal (p : t) : bool :=
  match p with Succeeded | Failed | RolledBack => true | _ => false end.

Definition can_transition_to (self next : t) : bool :=
  match self, next with
  | Pending, (Failed | Running) => true
  | Running, (Succeeded | Failed | RolledBack) => true
  | _, _ => false
  end.

(** The phase graph as a step relation. *)
Inductive step : t -> t -> Prop :=
| step_reject : step Pending Failed
| step_start : step Pending Running
| step_succeed : step Running Succeeded
| step_fail : step Running Failed
| step_roll_back : step Running RolledBack.

Lemma can_transition_step p q : can_transition_to p q = true <-> step p q.
Proof. split; [destruct p, q; (constructor || done) | by destruct 1]. Qed.

End ActionPhase.

(** ** Execution ([execution.rs]) *)
Module ConditionType.

Inductive t : Type :=
| PolicyEvaluated
| PolicyAccepted
| ApprovalRequired
| ApprovalGranted
| ApprovalExpired
| Sandboxed
| Executed
| Verified
| RollbackPossible
| RolledBack
| Idempotent
| Simulated
| DeprecatedFieldUsed.

#[global] Instance t_eq_dec : EqDecision t.
Proof. solve_decision. Defined.

End ConditionType.

Module ConditionStatus.

Inductive t : Type :=
| True_
| False_
| Unknown.

#[global] Instance t_eq_dec : EqDecision t.
Proof. solve_decision. Defined.

End ConditionStatus.

Record Condition : Type := {
  condition_type : ConditionType.t;
  status : ConditionStatus.t;
  observed_at : DateTime;
  message : string;
}.

(** [Condition::now_true]. *)
Definition now_true (now : DateTime) (ct : ConditionType.t) (msg : string) : Condition :=
  {| condition_type := ct; status := ConditionStatus.True_;
     observed_at := now; message := msg |}.

Record Execution : Type := {
  phase : ActionPhase.t;
  phase_changed_at : DateTime;
  started_at : option DateTime;
  ended_at : option DateTime;
  sandbox_profile_id : option string;
  conditions : list Condition;
}.

(** [Execution::pending]. *)
Definition pending (now : DateTime) : Execution :=
  {| phase := ActionPhase.Pending; phase_changed_at := now;
     started_at := None; ended_at := None;
     sandbox_profile_id := None; conditions := [] |}.

(** ** Identity, request, trace ([identity.rs], [request.rs], [trace.rs]) *)
Record Identity : Type := {
  subject_canonical_id : string;
  identity_is_ai : bool;
  session_id : option string;
}.

Inductive DryRunMode : Type := Live | Validate | Simulate.

Record Request : Type := {
  action : string;
  target : json;
  idempotency_key : option string;
  parent_action_id : option string;
  dry_run : DryRunMode;
}.

(** [Request::new]. *)
Definition new_request (a : string) (t : json) : Request :=
  {| action := a; target := t; idempotency_key := None;
     parent_action_id := None; dry_run := Live |}.

Record Trace : Type := {
  trace_id : string;
  span_id : string;
  parent_span_id : option string;
}.

(** ** The envelope ([envelope.rs]) *)
Module Envelope.

Definition SCHEMA_VERSION : string := "aios.action.v1alpha1".

Record t : Type := {
  schema_version : string;
  identity : Identity;
  request : Request;
  execution : Execution;
  trace : Trace;
}.

(** [ActionEnvelope::new]. *)
Definition new (now : DateTime) (i : Identity) (r : Request) (tr : Trace) : t :=
  {| schema_version := SCHEMA_VERSION; identity := i; request := r;
     execution := pending now; trace := tr |}.

Definition with_execution (x : Execution) (env : t) : t :=
  {| schema_version := schema_version env; identity := identity env;
     request := request env; execution := x; trace := trace env |}.

(** The payload of [MonotonicityViolation], as the facts its message prints. *)
Inductive mono_violation : Type :=
| ObservedAtRegresses (prev last : DateTime)
| TrueCannotFlip (ct : ConditionType.t) (new_status : ConditionStatus.t).

Inductive TransitionError : Type :=
| IllegalTransition (from to : ActionPhase.t)
| TerminalPhase
| MonotonicityViolation (why : mono_violation)
| PhaseConditionMismatch (p : ActionPhase.t) (missing : list ConditionType.t).

Definition transition_to (now : DateTime) (next : ActionPhase.t) (env : t)
    : result TransitionError t :=
  let x := execution env in
  if ActionPhase.is_terminal (phase x) then Err TerminalPhase
  else if negb (ActionPhase.can_transition_to (phase x) next)
  then Err (IllegalTransition (phase x) next)
  else
    let new_stamp := if (now <? phase_changed_at x)%Z then phase_changed_at x else now in
    let started :=
      match phase x, next, started_at x with
      | ActionPhase.Pending, ActionPhase.Running, None => Some new_stamp
      | _, _, s => s
      end in
    let ended :=
      if ActionPhase.is_terminal next && negb (is_some (ended_at x))
      then Some new_stamp else ended_at x in
    Ok (with_execution
          {| phase := next; phase_changed_at := new_stamp;
             started_at := started; ended_at := ended;
             sandbox_profile_id := sandbox_profile_id x;
             conditions := conditions x |} env).

(** [conditions.push]. *)
Definition push_condition (c : Condition) (x : Execution) : Execution :=
  {| phase := phase x; phase_changed_at := phase_changed_at x;
     started_at := started_at x; ended_at := ended_at x;
     sandbox_profile_id := sandbox_profile_id x;
     conditions := conditions x ++ [c] |}.

Definition observed_true (ct : ConditionType.t) (c : Condition) : bool :=
  bool_decide (condition_type c = ct) && bool_decide (status c = ConditionStatus.True_).

Definition add_condition (c : Condition) (env : t) : result TransitionError t :=
  let x := execution env in
  let regresses :=
    match last (conditions x) with
    | Some l => if (observed_at c <? observed_at l)%Z
                then Some (ObservedAtRegresses (observed_at c) (observed_at l)) else None
    | None => None
    end in
  match regresses with
  | Some why => Err (MonotonicityViolation why)
  | None =>
      if bool_decide (status c <> ConditionStatus.True_) &&
         existsb (observed_true (condition_type c)) (conditions x)
      then Err (MonotonicityViolation (TrueCannotFlip (condition_type c) (status c)))
      else Ok (with_execution (push_condition c x) env)
  end.

Definition canonical_conditions_for_phase (env : t) : list ConditionType.t :=
  match phase (execution env) with
  | ActionPhase.Pending => []
  | ActionPhase.Running => [ConditionType.PolicyEvaluated; ConditionType.Sandboxed]
  | ActionPhase.Succeeded =>
      [ConditionType.PolicyEvaluated; ConditionType.Sandboxed;
       ConditionType.Executed; ConditionType.Verified]
  | ActionPhase.Failed => [ConditionType.PolicyEvaluated]
  | ActionPhase.RolledBack =>
      [ConditionType.PolicyEvaluated; ConditionType.Sandboxed;
       ConditionType.Executed; ConditionType.RolledBack]
  end.

Definition validate_phase_conditions (env : t) : result TransitionError unit :=
  let missing :=
    List.filter (fun ct => negb (existsb (observed_true ct) (conditions (execution env))))
      (canonical_conditions_for_phase env) in
  match missing with
  | [] => Ok tt
  | _ => Err (PhaseConditionMismatch (phase (execution env)) missing)
  end.

(** *** Runs: any sequence of successful calls *)
Inductive step : t -> t -> Prop :=
| step_transition now next env env' :
    transition_to now next env = Ok env' -> step env env'
| step_condition c env env' :
    add_condition c env = Ok env' -> step env env'.

Definition reachable (env : t) : Prop :=
  exists now i r tr, rtc step (new now i r tr) env.

(** *** The lifecycle invariant *)
Definition stamps_ok (x : Execution) : Prop :=
  match phase x with
  | ActionPhase.Pending => started_at x = None
  | ActionPhase.Failed => forall s, started_at x = Some s -> (s <= phase_changed_at x)%Z
  | _ => exists s, started_at x = Some s /\ (s <= phase_changed_at x)%Z
  end /\
  ended_at x = (if ActionPhase.is_terminal (phase x) then Some (phase_changed_at x) else None).

Definition observed_in_order (cs : list Condition) : Prop :=
  forall i j ci cj, i <= j -> cs !! i = Some ci -> cs !! j = Some cj ->
    (observed_at ci <= observed_at cj)%Z.

Definition truth_is_kept (cs : list Condition) : Prop :=
  forall i j ci cj, i <= j -> cs !! i = Some ci -> cs !! j = Some cj ->
    condition_type ci = condition_type cj ->
    status ci = ConditionStatus.True_ -> status cj = ConditionStatus.True_.

Record lifecycle_ok (x : Execution) : Prop := {
  lc_stamps : stamps_ok x;
  lc_order : observed_in_order (conditions x);
  lc_truth : truth_is_kept (conditions x);
}.

(** *** Lemmas *)

Lemma transition_to_ok now next env env' :
  transition_to now next env = Ok env' ->
  ActionPhase.step (phase (execution env)) next /\
  phase (execution env') = next /\
  phase_changed_at (execution env') = Z.max now (phase_changed_at (execution env)) /\
  conditions (execution env') = conditions (execution env) /\
  sandbox_profile_id (execution env') = sandbox_profile_id (execution env) /\
  identity env' = identity env /\ request env' = request env /\
  trace env' = trace env /\ schema_version env' = schema_version env.
Proof.
  unfold transition_to. intros H.
  destruct (ActionPhase.is_terminal _) eqn:Ht; [done|].
  destruct (ActionPhase.can_transition_to _ _) eqn:Hc; [|done].
  apply ActionPhase.can_transition_step in Hc.
  injection H as <-. simpl. split_and!; try done.
  destruct (Z.ltb_spec now (phase_changed_at (execution env))); lia.
Qed.

Lemma transition_to_stamps now next env env' :
  stamps_ok (execution env) -> transition_to now next env = Ok env' ->
  stamps_ok (execution env').
Proof.
  intros [Hs He] H. pose proof (transition_to_ok _ _ _ _ H) as (Hstep & Hp & Hch & _).
  unfold transition_to in H. destruct (ActionPhase.is_terminal _) eqn:Ht in H; [done|].
  destruct (negb _) in H; [done|]. injection H as <-. simpl in *.
  unfold stamps_ok in *. simpl in *.
  rewrite Ht in He. rewrite He, Hch. simpl. split.
  - destruct Hstep; simpl in *; rewrite ?Hs; naive_solver lia.
  - rewrite andb_true_r. by destruct (ActionPhase.is_terminal next).
Qed.

Lemma add_condition_ok c env env' :
  add_condition c env = Ok env' ->
  execution env' = push_condition c (execution env) /\
  (forall l, last (conditions (execution env)) = Some l ->
     (observed_at l <= observed_at c)%Z) /\
  (status c <> ConditionStatus.True_ ->
   forall d, d ∈ conditions (execution env) ->
     condition_type d = condition_type c -> status d <> ConditionStatus.True_) /\
  identity env' = identity env /\ request env' = request env /\
  trace env' = trace env /\ schema_version env' = schema_version env.
Proof.
  unfold add_condition. intros H. set (cs := conditions (execution env)) in *.
  assert (Hflip : bool_decide (status c <> ConditionStatus.True_) &&
      existsb (observed_true (condition_type c)) cs = false /\
    (forall l, last cs = Some l -> (observed_at l <= observed_at c)%Z) /\
    env' = with_execution (push_condition c (execution env)) env).
  { destruct (last cs) as [l|] eqn:El; [destruct (Z.ltb_spec (observed_at c) (observed_at l))|];
      try done; destruct (_ && _); naive_solver. }
  destruct Hflip as (Hflip & Hlast & ->). simpl. split_and!; try done.
  intros Hne d Hd Hty Htrue.
  rewrite bool_decide_eq_true_2 in Hflip by done. simpl in Hflip.
  assert (existsb (observed_true (condition_type c)) cs = true) as Hex; [|congruence].
  apply existsb_elem. exists d. split; [done|].
  unfold observed_true. by rewrite !bool_decide_eq_true_2.
Qed.

Lemma observed_in_order_last cs l i ci :
  observed_in_order cs -> last cs = Some l -> cs !! i = Some ci ->
  (observed_at ci <= observed_at l)%Z.
Proof.
  intros Ho Hl Hi. rewrite last_lookup in Hl.
  apply (Ho i (pred (length cs))); [|done..].
  apply lookup_lt_Some in Hi. lia.
Qed.

Lemma snoc_lookup_cases {A} (l : list A) x i y :
  (l ++ [x]) !! i = Some y -> l !! i = Some y \/ (i = length l /\ y = x).
Proof. rewrite lookup_snoc_Some. naive_solver. Qed.

Lemma observed_in_order_snoc cs c :
  observed_in_order cs ->
  (forall l, last cs = Some l -> (observed_at l <= observed_at c)%Z) ->
  observed_in_order (cs ++ [c]).
Proof.
  intros Ho Hl i j ci cj Hij [Hi|[-> ->]]%snoc_lookup_cases [Hj|[-> ->]]%snoc_lookup_cases.
  - by apply (Ho i j).
  - destruct (last cs) as [l|] eqn:E.
    + specialize (Hl l eq_refl). pose proof (observed_in_order_last _ _ _ _ Ho E Hi). lia.
    + apply last_None in E as ->. done.
  - apply lookup_lt_Some in Hj. lia.
  - lia.
Qed.

Lemma truth_is_kept_snoc cs c :
  truth_is_kept cs ->
  (status c <> ConditionStatus.True_ ->
   forall d, d ∈ cs -> condition_type d = condition_type c ->
     status d <> ConditionStatus.True_) ->
  truth_is_kept (cs ++ [c]).
Proof.
  intros Ht Hc i j ci cj Hij [Hi|[-> ->]]%snoc_lookup_cases [Hj|[-> ->]]%snoc_lookup_cases Hty Hst.
  - by apply (Ht i j ci cj).
  - destruct (decide (status c = ConditionStatus.True_)) as [|Hne]; [done|].
    exfalso. apply (Hc Hne ci); [by eapply list_elem_of_lookup_2|done..].
  - apply lookup_lt_Some in Hj. lia.
  - done.
Qed.

Lemma lifecycle_ok_new now i r tr : lifecycle_ok (execution (new now i r tr)).
Proof.
  split; [by split|..]; intros ???? _ H; simpl in H; by rewrite lookup_nil in H.
Qed.

Lemma lifecycle_ok_step env env' :
  lifecycle_ok (execution env) -> step env env' -> lifecycle_ok (execution env').
Proof.
  intros [Hs Ho Ht]. destruct 1 as [now next env env' H|c env env' H].
  - pose proof (transition_to_ok _ _ _ _ H) as (_ & _ & _ & Hc & _).
    split; [by eapply transition_to_stamps|by rewrite Hc..].
  - apply add_condition_ok in H as (-> & Hl & Hf & _).
    split; [done| by apply observed_in_order_snoc | by apply truth_is_kept_snoc].
Qed.

Lemma lifecycle_ok_run env env' :
  rtc step env env' -> lifecycle_ok (execution env) -> lifecycle_ok (execution env').
Proof. induction 1; eauto using lifecycle_ok_step. Qed.

Lemma step_frame env env' :
  step env env' ->
  (identity env' = identity env /\ request env' = request env /\
   trace env' = trace env /\ schema_version env' = schema_version env) /\
  (exists cs, conditions (execution env') = conditions (execution env) ++ cs) /\
  (phase_changed_at (execution env) <= phase_changed_at (execution env'))%Z.
Proof.
  destruct 1 as [now next env env' H|c env env' H].
  - apply transition_to_ok in H as (_ & _ & Hch & Hc & _ & Hf). split_and!; try naive_solver.
    + exists []. by rewrite app_nil_r.
    + lia.
  - apply add_condition_ok in H as (-> & _ & _ & Hf). split_and!; naive_solver.
Qed.

Lemma step_terminal env env' :
  step env env' -> ActionPhase.is_terminal (phase (execution env)) = true ->
  phase (execution env') = phase (execution env) /\
  phase_changed_at (execution env') = phase_changed_at (execution env) /\
  started_at (execution env') = started_at (execution env) /\
  ended_at (execution env') = ended_at (execution env).
Proof.
  destruct 1 as [now next env env' H|c env env' H]; intros Ht.
  - unfold transition_to in H. by rewrite Ht in H.
  - by apply add_condition_ok in H as (-> & _).
Qed.

Lemma run_terminal env env' :
  rtc step env env' -> ActionPhase.is_terminal (phase (execution env)) = true ->
  phase (execution env') = phase (execution env) /\
  phase_changed_at (execution env') = phase_changed_at (execution env) /\
  started_at (execution env') = started_at (execution env) /\
  ended_at (execution env') = ended_at (execution env).
Proof.
  induction 1 as [|env env1 env' Hst _ IH]; [done|]. intros Ht.
  pose proof (step_terminal _ _ Hst Ht) as (Hp & ? & ? & ?).
  destruct IH as (? & ? & ? & ?); [by rewrite Hp|]. split_and!; congruence.
Qed.

Lemma existsb_app_mono {A} (p : A -> bool) l l' :
  existsb p l = true -> existsb p (l ++ l') = true.
Proof. rewrite existsb_app. by intros ->. Qed.

Lemma validate_ok_iff env :
  validate_phase_conditions env = Ok tt <->
  forall ct, ct ∈ canonical_conditions_for_phase env ->
    existsb (observed_true ct) (conditions (execution env)) = true.
Proof.
  unfold validate_phase_conditions.
  destruct (List.filter _ _) as [|m ms] eqn:E.
  - split; [|done]. intros _ ct Hct.
    destruct (existsb _ _) eqn:Hx; [done|].
    assert (In ct []) as []; rewrite <-E. apply filter_In.
    rewrite Hx. split; [by apply list_elem_of_In|done].
  - split; [done|]. intros H.
    assert (In m (m :: ms)) as Hm by (by left). rewrite <-E in Hm.
    apply filter_In in Hm as [Hm Hn]. rewrite (H m) in Hn by (by apply list_elem_of_In). done.
Qed.

(** *** Properties *)

(** C40: every envelope reachable from [ActionEnvelope::new] by any sequence of
    successful [transition_to] and [add_condition] calls, at any clock
    readings, satisfies the lifecycle invariant: [started_at] is unset while
    pending and set, not after the last transition, once running, succeeded or
    rolled back; [ended_at] is set exactly in the terminal phases, to the
    instant of the transition that ended it; the condition list is ordered by
    [observed_at]; and a condition type once observed [True] is never observed
    otherwise later. *)
Theorem lifecycle_invariant env : reachable env -> lifecycle_ok (execution env).
Proof.
  intros (now & i & r & tr & H).
  eapply lifecycle_ok_run; eauto using lifecycle_ok_new.
Qed.

(** Along every run the caller-owned and transport-owned sections never
    change, the condition list is append-only, [phase_changed_at] never goes
    back (even when the clock does), and the phase only moves along the edges
    of the phase graph. *)
Theorem run_is_append_only env env' :
  rtc step env env' ->
  (identity env' = identity env /\ request env' = request env /\
   trace env' = trace env /\ schema_version env' = schema_version env) /\
  (exists cs, conditions (execution env') = conditions (execution env) ++ cs) /\
  (phase_changed_at (execution env) <= phase_changed_at (execution env'))%Z /\
  rtc ActionPhase.step (phase (execution env)) (phase (execution env')).
Proof.
  induction 1 as [env|env env1 env' Hst _ (IHf & [cs IHc] & IHt & IHp)].
  { split_and!; [done..|exists []; by rewrite app_nil_r|lia|done]. }
  pose proof (step_frame _ _ Hst) as (Hf & [cs1 Hc] & Ht).
  split_and!; try (naive_solver congruence); try lia.
  - exists (cs1 ++ cs). by rewrite IHc, Hc, app_assoc.
  - destruct Hst as [now next env env1 H|c env env1 H].
    + apply transition_to_ok in H as (Hs & Hp & _). rewrite <-Hp in Hs. by eapply rtc_l.
    + apply add_condition_ok in H as (Hx & _). by rewrite Hx in IHp.
Qed.

(** A terminal phase is absorbing: every later [transition_to] fails with
    [TerminalPhase], and no run changes the phase or any of its three stamps. *)
Theorem terminal_is_absorbing env env' :
  rtc step env env' -> ActionPhase.is_terminal (phase (execution env)) = true ->
  (phase (execution env') = phase (execution env) /\
   phase_changed_at (execution env') = phase_changed_at (execution env) /\
   started_at (execution env') = started_at (execution env) /\
   ended_at (execution env') = ended_at (execution env)) /\
  forall now next, transition_to now next env' = Err TerminalPhase.
Proof.
  intros Hr Ht. pose proof (run_terminal _ _ Hr Ht) as Hk. split; [done|].
  intros now next. unfold transition_to. destruct Hk as (-> & _). by rewrite Ht.
Qed.

(** [transition_to] succeeds exactly on the edges of the phase graph; on
    failure the error says which guard refused it. *)
Theorem transition_to_exact now next env :
  match transition_to now next env with
  | Ok env' => ActionPhase.step (phase (execution env)) next /\ phase (execution env') = next
  | Err TerminalPhase => ActionPhase.is_terminal (phase (execution env)) = true
  | Err (IllegalTransition from to) =>
      from = phase (execution env) /\ to = next /\
      ActionPhase.is_terminal from = false /\ ~ ActionPhase.step from to
  | Err _ => False
  end.
Proof.
  destruct (transition_to now next env) as [env'|err] eqn:E.
  - apply transition_to_ok in E. naive_solver.
  - revert E. unfold transition_to. destruct (ActionPhase.is_terminal _) eqn:Ht; [by intros [= <-]|].
    destruct (ActionPhase.can_transition_to _ _) eqn:Hc; [done|]. intros [= <-].
    split_and!; [done..|]. rewrite <-ActionPhase.can_transition_step. by rewrite Hc.
Qed.

(** The phase/condition consistency check accepts exactly the envelopes in
    which every condition the phase requires is observed [True], and once it
    accepts it accepts for good, until the phase changes. *)
Theorem validate_phase_conditions_exact env :
  (validate_phase_conditions env = Ok tt <->
   forall ct, ct ∈ canonical_conditions_for_phase env ->
     exists c, c ∈ conditions (execution env) /\ condition_type c = ct /\
               status c = ConditionStatus.True_) /\
  (forall c env', validate_phase_conditions env = Ok tt ->
     add_condition c env = Ok env' -> validate_phase_conditions env' = Ok tt).
Proof.
  split.
  - rewrite validate_ok_iff. setoid_rewrite existsb_elem. unfold observed_true.
    setoid_rewrite andb_true_iff. setoid_rewrite bool_decide_eq_true. done.
  - intros c env'. rewrite !validate_ok_iff. intros H Hadd ct Hct.
    apply add_condition_ok in Hadd as (Hx & _).
    unfold canonical_conditions_for_phase in Hct, H. rewrite Hx in *. simpl in *.
    apply existsb_app_mono. by apply H.
Qed.

(** *** Witnesses *)

Definition demo_env : t :=
  new 10 {| subject_canonical_id := "human:lucky"; identity_is_ai := false; session_id := None |}
    (new_request "service.restart" (JObject [("service", JString "nginx")]))
    {| trace_id := "01"; span_id := "02"; parent_span_id := None |}.

Definition demo_running : t :=
  match transition_to 20 ActionPhase.Running demo_env with Ok e => e | Err _ => demo_env end.

(** The clock has gone back to 15 when the action fails: the stamp stays 20. *)
Definition demo_failed : t :=
  match transition_to 15 ActionPhase.Failed demo_running with Ok e => e | Err _ => demo_env end.

Lemma demo_run : rtc step demo_env demo_failed.
Proof.
  eapply rtc_l; [by apply (step_transition 20 ActionPhase.Running _ demo_running)|].
  eapply rtc_l; [by apply (step_transition 15 ActionPhase.Failed _ demo_failed)|]. done.
Defined.

Lemma lifecycle_invariant_witness :
  ended_at (execution demo_failed) = Some 20%Z /\ lifecycle_ok (execution demo_failed).
Proof.
  split; [reflexivity|]. apply lifecycle_invariant.
  eexists _, _, _, _. exact demo_run.
Defined.

Lemma run_is_append_only_witness :
  request demo_failed = request demo_env.
Proof. apply (run_is_append_only demo_env demo_failed demo_run). Defined.

Lemma terminal_is_absorbing_witness :
  transition_to 99 ActionPhase.RolledBack demo_failed = Err TerminalPhase.
Proof. apply (terminal_is_absorbing demo_failed demo_failed); [apply rtc_refl|reflexivity]. Defined.

End Envelope.
