(* ===== verification/Ids.v ===== *)
(** * Prefixed identifiers (crate [aios-action], [id.rs] and [canonical.rs])

    The grammar of the identifiers the other components exchange: a namespace
    prefix ending in an underscore and a body, a ULID for the thirteen rows of
    [define_prefixed_id!] and 32 lowercase hex digits for [TransitionPlanId].
    [Ulid::from_string] and [blake3::hash(..).to_hex()] are third-party code,
    hence arguments. *)
From S2P Require Import Prelude.

Inductive IdError : Type :=
| Empty
| WrongPrefix (expected got : string)
| ColonSeparatorForbidden (input : string)
| InvalidUlidBody (id detail : string)
| InvalidHexBody (id detail : string).

(** [str::strip_suffix] of one ASCII character. *)
Fixpoint strip_suffix_char (c : Ascii.ascii) (s : string) : option string :=
  match s with
  | EmptyString => None
  | String a EmptyString => if Ascii.eqb a c then Some EmptyString else None
  | String a s' => String a <$> strip_suffix_char c s'
  end.

Definition is_lower_hex (a : Ascii.ascii) : bool :=
  let n := Ascii.N_of_ascii a in
  ((48 <=? n) && (n <=? 57) || (97 <=? n) && (n <=? 102))%N.

Definition to_ascii_lowercase_char (a : Ascii.ascii) : Ascii.ascii :=
  let n := Ascii.N_of_ascii a in
  if ((65 <=? n) && (n <=? 90))%N then Ascii.ascii_of_N (n + 32) else a.

Fixpoint to_ascii_lowercase (s : string) : string :=
  match s with
  | EmptyString => EmptyString
  | String a s => String (to_ascii_lowercase_char a) (to_ascii_lowercase s)
  end.

(** [str::get(..n)], on byte strings. *)
Definition get_prefix (n : nat) (s : string) : option string :=
  if Nat.leb n (String.length s) then Some (String.substring 0 n s) else None.

(** The thirteen ULID-bodied namespaces, in the order of the source. *)
Definition ulid_prefixes : list string :=
  ["act_"; "intent_"; "plan_"; "corr_"; "evr_"; "polreq_"; "poldec_"; "appr_";
   "apprq_"; "appb_"; "ovrq_"; "ovr_"; "actrq_"].

Definition TPLAN_PREFIX : string := "tplan_".
Definition TPLAN_BODY_LEN : nat := 32.

Section Parsing.
(** [Ulid::from_string]: the error carries the rendered decode error. *)
Variable ulid_from_string : string -> result string unit.

Definition validate_prefixed_ulid (input expected_prefix : string) : result IdError string :=
  if str_is_empty input then Err Empty
  else if match strip_suffix_char "_"%char expected_prefix with
          | Some stripped => starts_with (stripped +:+ ":") input
          | None => false
          end
  then Err (ColonSeparatorForbidden input)
  else match strip_prefix expected_prefix input with
       | None => Err (WrongPrefix expected_prefix input)
       | Some body =>
           let? _ := map_err (InvalidUlidBody input) (ulid_from_string body) in
           Ok input
       end.
End Parsing.

(** [TransitionPlanId::parse]. *)
Definition tplan_parse (input : string) : result IdError string :=
  if str_is_empty input then Err Empty
  else if starts_with "tplan:" input then Err (ColonSeparatorForbidden input)
  else match strip_prefix TPLAN_PREFIX input with
       | None => Err (WrongPrefix TPLAN_PREFIX input)
       | Some body =>
           if negb (Nat.eqb (String.length body) TPLAN_BODY_LEN)
           then Err (InvalidHexBody input
                       ("expected " +:+ pretty TPLAN_BODY_LEN +:+ "-char lowercase hex body, got "
                        +:+ pretty (String.length body) +:+ " chars"))
           else if negb (str_all is_lower_hex body)
           then Err (InvalidHexBody input "body must be lowercase hex [0-9a-f] only")
           else Ok input
       end.

Section ContentAddress.
(** [blake3::hash(bytes).to_hex()]. *)
Variable blake3_to_hex : string -> string.

Definition blake3_truncated (canonical_bytes : string) : string :=
  to_ascii_lowercase (default "" (get_prefix 32 (blake3_to_hex canonical_bytes))).

(** [TransitionPlanId::from_content]. *)
Definition tplan_from_content (bytes : string) : string :=
  TPLAN_PREFIX +:+ blake3_truncated bytes.
End ContentAddress.

(** ** Lemmas *)

Lemma strip_suffix_char_Some c s r :
  strip_suffix_char c s = Some r <-> s = r +:+ String c "".
Proof.
  revert r. induction s as [|a s IH]; intros r; simpl.
  { split; [done|]. by destruct r. }
  destruct s as [|b s].
  - destruct (Ascii.eqb a c) eqn:E.
    + apply ascii_eqb_eq in E as ->. split; [by intros [= <-]|].
      destruct r as [|x r]; [done|]. rewrite str_app_cons. intros [= _ H]. by destruct r.
    + split; [done|]. destruct r as [|x r]; rewrite ?str_app_cons.
      * intros [= ->]. by rewrite Ascii.eqb_refl in E.
      * intros [= _ H]. by destruct r.
  - split.
    + intros H. destruct (strip_suffix_char c (String b s)) as [t|]; [|done].
      injection H as <-. rewrite str_app_cons. f_equal. by apply IH.
    + destruct r as [|x r]; [by intros [=]|]. rewrite str_app_cons. intros [= -> H].
      by rewrite (proj2 (IH r) H).
Qed.

Lemma app_prefix_cases (p q a b : string) :
  p +:+ a = q +:+ b -> is_Some (strip_prefix p q) \/ is_Some (strip_prefix q p).
Proof.
  revert q. induction p as [|x p IH]; intros q H; [left; by eexists|].
  destruct q as [|y q]; [right; by eexists|].
  rewrite !str_app_cons in H. injection H as -> H. simpl. rewrite Ascii.eqb_refl. by apply IH.
Qed.

Lemma lowercase_hex_id s : str_all is_lower_hex s = true -> to_ascii_lowercase s = s.
Proof.
  induction s as [|a s IH]; [done|]. simpl. intros [Ha Hs]%andb_true_iff.
  rewrite (IH Hs). f_equal.
  destruct a as [[] [] [] [] [] [] [] []]; simpl in *; try done.
Qed.

Lemma substring_0_all p n s : str_all p s = true -> str_all p (String.substring 0 n s) = true.
Proof.
  revert n. induction s as [|a s IH]; intros [|n]; simpl; try done.
  intros [Ha Hs]%andb_true_iff. rewrite Ha. simpl. by apply IH.
Qed.

Lemma substring_0_length n s :
  n <= String.length s -> String.length (String.substring 0 n s) = n.
Proof.
  revert n. induction s as [|a s IH]; intros [|n] H; simpl in *; try lia. by rewrite IH by lia.
Qed.

Lemma validate_prefixed_ulid_ok ulid input stem out :
  validate_prefixed_ulid ulid input (stem +:+ "_") = Ok out <->
  out = input /\ exists body, input = (stem +:+ "_") +:+ body /\ ulid body = Ok tt.
Proof.
  unfold validate_prefixed_ulid.
  rewrite (proj2 (strip_suffix_char_Some _ _ stem)) by done.
  destruct (str_is_empty input) eqn:Ee.
  { apply str_is_empty_true in Ee as ->. split; [done|].
    intros (_ & body & H & _). by destruct stem. }
  destruct (starts_with (stem +:+ ":") input) eqn:Ec.
  { apply starts_with_spec in Ec as [r ->]. split; [done|].
    intros (_ & body & H & _). exfalso. revert H. rewrite !str_app_assoc. clear.
    induction stem as [|x stem IH]; [by intros [=]|].
    rewrite !str_app_cons. intros [= H]. by apply IH. }
  destruct (strip_prefix _ _) as [body|] eqn:Ep.
  - apply strip_prefix_Some in Ep as ->. destruct (ulid body) as [[]|d] eqn:Eu; simpl.
    + split; [intros [= <-]; eauto|by intros [-> _]].
    + split; [done|]. intros (_ & body' & H & Hu).
      assert (strip_prefix (stem +:+ "_") ((stem +:+ "_") +:+ body) = Some body') as Hb
        by (by apply strip_prefix_Some).
      rewrite (proj2 (strip_prefix_Some _ _ body) eq_refl) in Hb. injection Hb as <-. congruence.
  - split; [done|]. intros (_ & body & H%strip_prefix_Some & _). congruence.
Qed.

Lemma ulid_prefixes_stem p : p ∈ ulid_prefixes -> exists stem, p = stem +:+ "_".
Proof.
  unfold ulid_prefixes. rewrite !elem_of_cons, elem_of_nil.
  intros H; destruct_or!; subst; try done;
  match goal with |- exists _, ?p = _ =>
    let r := eval vm_compute in (strip_suffix_char "_"%char p) in
    match r with Some ?s => by exists s end end.
Qed.

Lemma ulid_prefixes_no_prefix p q :
  p ∈ ulid_prefixes -> q ∈ ulid_prefixes -> p <> q -> strip_prefix p q = None.
Proof.
  intros Hp Hq Hne.
  assert (forallb (fun p => forallb (fun q => String.eqb p q ||
    negb (is_some (strip_prefix p q))) ulid_prefixes) ulid_prefixes = true) as H
    by (vm_compute; reflexivity).
  rewrite forallb_elem in H. specialize (H p Hp). rewrite forallb_elem in H.
  specialize (H q Hq). destruct (String.eqb_spec p q); [done|].
  simpl in H. by destruct (strip_prefix p q).
Qed.

(** ** Properties *)

(** For every namespace of the registry the parser accepts exactly the
    strings made of the prefix and a valid ULID body, and returns them
    unchanged; and an identifier of one namespace is never accepted in
    another one. *)
Theorem ulid_id_grammar ulid p input out :
  p ∈ ulid_prefixes ->
  (validate_prefixed_ulid ulid input p = Ok out <->
   out = input /\ exists body, input = p +:+ body /\ ulid body = Ok tt) /\
  (forall q, q ∈ ulid_prefixes -> p <> q ->
     validate_prefixed_ulid ulid input p = Ok out ->
     is_ok (validate_prefixed_ulid ulid input q) = false).
Proof.
  intros Hp. destruct (ulid_prefixes_stem p Hp) as [stem ->].
  split; [apply validate_prefixed_ulid_ok|].
  intros q Hq Hne (_ & body & -> & _)%validate_prefixed_ulid_ok.
  destruct (validate_prefixed_ulid _ _ q) as [o|] eqn:E; [|done]. exfalso.
  destruct (ulid_prefixes_stem q Hq) as [stem' ->].
  apply validate_prefixed_ulid_ok in E as (_ & body' & E & _).
  apply app_prefix_cases in E as [[? E]|[? E]];
    rewrite ulid_prefixes_no_prefix in E by (done || congruence); done.
Qed.

Lemma ulid_id_grammar_witness :
  validate_prefixed_ulid (fun _ => Ok tt) "act_01" "act_" = Ok "act_01" /\
  is_ok (validate_prefixed_ulid (fun _ => Ok tt) "act_01" "actrq_") = false.
Proof.
  split; [reflexivity|].
  apply (ulid_id_grammar (fun _ => Ok tt) "act_" "act_01" "act_01");
    [vm_compute; constructor | by apply (bool_decide_unpack _); vm_compute | done | reflexivity].
Defined.

(** Content addressing round-trips: when the hash renders as 64 lowercase
    hex digits, every id derived by [from_content] is accepted by [parse],
    equal contents give equal ids, and the colon form of any body is refused. *)
Theorem tplan_content_roundtrip (blake3_to_hex : string -> string) bytes :
  (forall b, String.length (blake3_to_hex b) = 64 /\
             str_all is_lower_hex (blake3_to_hex b) = true) ->
  tplan_parse (tplan_from_content blake3_to_hex bytes) =
    Ok (tplan_from_content blake3_to_hex bytes) /\
  forall body, tplan_parse ("tplan:" +:+ body) = Err (ColonSeparatorForbidden ("tplan:" +:+ body)).
Proof.
  intros Hhex. split; [|done].
  destruct (Hhex bytes) as [Hlen Hall].
  assert (blake3_truncated blake3_to_hex bytes =
          String.substring 0 32 (blake3_to_hex bytes)) as Hb.
  { unfold blake3_truncated, get_prefix. rewrite Hlen. simpl default.
    apply lowercase_hex_id. by apply substring_0_all. }
  unfold tplan_parse, tplan_from_content. rewrite Hb.
  rewrite (proj2 (strip_prefix_Some _ _ _) eq_refl).
  rewrite substring_0_length by lia. simpl negb.
  by rewrite (substring_0_all _ _ _ Hall).
Qed.

Definition demo_hex (_ : string) : string :=
  "00112233445566778899aabbccddeeff00112233445566778899aabbccddeeff".

Lemma tplan_content_roundtrip_witness :
  tplan_parse "tplan_00112233445566778899aabbccddeeff" =
    Ok "tplan_00112233445566778899aabbccddeeff".
Proof. apply (tplan_content_roundtrip demo_hex "plan"). intros b. split; reflexivity. Defined.
