(* ===== verification/PolicyTypes.v ===== *)
(** * Data of the Policy Kernel (crate [aios-policy])

    The closed vocabularies and records of [precedence.rs], [hard_deny.rs],
    [subject.rs], [constraints.rs], [decision.rs], [error.rs] and
    [snapshot.rs], and the constraint validator [Constraints::validate]. *)
From S2P Require Import Prelude.

(** ** The precedence ladder ([precedence.rs]) *)
Module RulePrecedence.

Inductive t : Type :=
| InvalidSubject
| HardDeny
| EmergencyOverrideDenylist
| ExplicitScopedDeny
| ExplicitScopedAllow
| AiSelfApprovalUpgrade
| DefaultDeny.

#[global] Instance t_eq_dec : EqDecision t.
Proof. solve_decision. Defined.

(** [RulePrecedence::iter]: declaration order. *)
Definition iter : list t :=
  [InvalidSubject; HardDeny; EmergencyOverrideDenylist; ExplicitScopedDeny;
   ExplicitScopedAllow; AiSelfApprovalUpgrade; DefaultDeny].

End RulePrecedence.

(** ** Hard-deny classes ([hard_deny.rs]) *)
Module HardDenyClass.

Inductive t : Type :=
| SecretRawReadByAi
| RecursiveDeleteRoot
| PolicyLogMutation
| EvidenceLogMutation
| DisablePolicyKernel
| DisableRecoveryPath
| ModifyBootChain
| UntypedShellPrivileged
| AiosFsPointerRollbackOnRecovery
| PrivacyClassDowngrade.

#[global] Instance t_eq_dec : EqDecision t.
Proof. solve_decision. Defined.

End HardDenyClass.

(** ** Subjects ([subject.rs]) *)
Inductive SubjectType : Type :=
| Human | Agent | Application | Service | Device | Workflow | RemoteOperator.

#[global] Instance SubjectType_eq_dec : EqDecision SubjectType.
Proof. solve_decision. Defined.

Record HydratedSubject : Type := {
  canonical_subject_id : string;
  subject_type : SubjectType;
  groups : list string;
  capabilities : list string;
  session_class : string;
  recovery_mode : bool;
  is_ai : bool;
}.

(** ** Errors ([error.rs]) *)
Inductive PolicyError : Type :=
| SubjectUnauthenticated
| EnrichmentUnavailable
| BundleLoad (reason : string)
| SchemaInvalid (detail : string)
| ConstraintsInvalid (detail : string)
| ConditionParse (detail : string)
| ConditionEval (detail : string)
| InvalidPolicyBundle (detail : string)
| BundleSignatureInvalid
| BundleVersionMismatch (expected found : string)
| BundleUnknownAuthority (authority : string).

(** ** Constraints and approvals ([constraints.rs]) *)
Inductive EvidenceGrade : Type := E2 | E3 | E4 | E5.

Inductive NetworkPolicy : Type := LocalhostOnly | LanAllowed | InternetAllowed.

Module SessionClass.
Inductive t : Type := Public | Internal | Confidential | Restricted | Recovery.
End SessionClass.

Inductive ApprovalScope : Type := ExactRequestHash.

Module ApproverClass.

Inductive t : Type :=
| Human | Operator | Agent | Application | Service | Device | Workflow | RemoteOperator.

#[global] Instance t_eq_dec : EqDecision t.
Proof. solve_decision. Defined.

End ApproverClass.

Module Constraints.

Record t : Type := {
  sandbox_profile_id : option string;
  max_runtime_seconds : option Z;
  verification_required : bool;
  dry_run_only : bool;
  require_evidence_grade : option EvidenceGrade;
  require_human_co_signer : bool;
  network_policy : option NetworkPolicy;
  max_concurrent_per_subject : option Z;
  min_subject_session_class : option SessionClass.t;
  vault_capability_required : option string;
  ttl_seconds : Z;
  expires_at : option DateTime;
}.

Definition DEFAULT_TTL_SECONDS : Z := 300.
Definition MAX_TTL_SECONDS : Z := 3600.

(** [Constraints::default]. *)
Definition default_ : t :=
  {| sandbox_profile_id := None; max_runtime_seconds := None;
     verification_required := false; dry_run_only := false;
     require_evidence_grade := None; require_human_co_signer := false;
     network_policy := None; max_concurrent_per_subject := None;
     min_subject_session_class := None; vault_capability_required := None;
     ttl_seconds := DEFAULT_TTL_SECONDS; expires_at := None |}.

Section Validate.
(** The rendering of a [DateTime<Utc>] in an error message (chrono). *)
Variable show_time : DateTime -> string.

Definition validate (now : DateTime) (c : t) : result PolicyError unit :=
  if (ttl_seconds c =? 0)%Z
  then Err (ConstraintsInvalid "ttl_seconds must be non-zero (S2.3 §13.2)")
  else if (MAX_TTL_SECONDS <? ttl_seconds c)%Z
  then Err (ConstraintsInvalid ("ttl_seconds " +:+ pretty (ttl_seconds c) +:+ " exceeds max "
                                +:+ pretty MAX_TTL_SECONDS +:+ " (S2.3 §13.2)"))
  else if match max_runtime_seconds c with Some n => (n =? 0)%Z | None => false end
  then Err (ConstraintsInvalid "max_runtime_seconds = 0 must be expressed as DENY, not constrained ALLOW (S2.3 §10 row 2)")
  else if match max_concurrent_per_subject c with Some n => (n =? 0)%Z | None => false end
  then Err (ConstraintsInvalid "max_concurrent_per_subject = 0 must be expressed as DENY, not constrained ALLOW (S2.3 §10 row 8)")
  else match expires_at c with
       | Some e => if (e <=? now)%Z
                   then Err (ConstraintsInvalid ("expires_at " +:+ show_time e
                                                 +:+ " is not in the future"))
                   else Ok tt
       | None => Ok tt
       end.

(** What the validator promises of the constraints it lets through. *)
Definition in_force (now : DateTime) (c : t) : Prop :=
  (0 <> ttl_seconds c /\ ttl_seconds c <= MAX_TTL_SECONDS)%Z /\
  max_runtime_seconds c <> Some 0%Z /\
  max_concurrent_per_subject c <> Some 0%Z /\
  (forall e, expires_at c = Some e -> (now < e)%Z).
End Validate.

End Constraints.

Record ApprovalRequirement : Type := {
  required : bool;
  approval_scope : ApprovalScope;
  approval_ttl_seconds : Z;
  approver_classes : list ApproverClass.t;
  approval_require_human_co_signer : bool;
}.

(** [ApprovalRequirement::default]. *)
Definition default_approval : ApprovalRequirement :=
  {| required := false; approval_scope := ExactRequestHash;
     approval_ttl_seconds := 0; approver_classes := [];
     approval_require_human_co_signer := false |}.

(** ** Decisions ([decision.rs]) *)
Module Decision.

Inductive t : Type := Unspecified | Allow | RequireApproval | Deny.

#[global] Instance t_eq_dec : EqDecision t.
Proof. solve_decision. Defined.

End Decision.

Record PolicyDecision : Type := {
  policy_decision_id : string;
  action_id : string;
  request_hash : string;
  bundle_version : string;
  enrichment_snapshot_id : string;
  decision : Decision.t;
  reason_code : string;
  reason_message : string;
  constraints : Constraints.t;
  approval : ApprovalRequirement;
  evidence_receipt_id : string;
  evaluated_at : DateTime;
  rules_consulted : Z;
  simulated : bool;
}.

(** [cached.evaluated_at = now]. *)
Definition with_evaluated_at (now : DateTime) (d : PolicyDecision) : PolicyDecision :=
  {| policy_decision_id := policy_decision_id d; action_id := action_id d;
     request_hash := request_hash d; bundle_version := bundle_version d;
     enrichment_snapshot_id := enrichment_snapshot_id d; decision := decision d;
     reason_code := reason_code d; reason_message := reason_message d;
     constraints := constraints d; approval := approval d;
     evidence_receipt_id := evidence_receipt_id d; evaluated_at := now;
     rules_consulted := rules_consulted d; simulated := simulated d |}.

(** ** Enrichment snapshots ([snapshot.rs]) *)
Record ObjectEnrichment : Type := {
  privacy_class : option string;
  policy_tags : list string;
  kind : option string;
  lifecycle_state : option string;
  created_by : option string;
}.

Record AdapterEnrichment : Type := {
  risk_template : option string;
  default_sandbox_profile_id : option string;
}.

Record EnrichmentSnapshot : Type := {
  snapshot_id : string;
  object : ObjectEnrichment;
  adapter : AdapterEnrichment;
}.

(** [Default] of the three records. *)
Definition default_enrichment : EnrichmentSnapshot :=
  {| snapshot_id := "";
     object := {| privacy_class := None; policy_tags := []; kind := None;
                  lifecycle_state := None; created_by := None |};
     adapter := {| risk_template := None; default_sandbox_profile_id := None |} |}.

Section SnapshotId.
(** [serde_jcs::to_vec] of the [(object, adapter)] view and
    [Hasher::finalize().to_hex()]: third-party code. *)
Variable jcs_view : ObjectEnrichment -> AdapterEnrichment -> result string string.
Variable blake3_to_hex : string -> string.

Definition SNAPSHOT_ID_PREFIX : string := "polb_snap_".
Definition ID_HEX_LEN : nat := 32.

Definition compute_id (s : EnrichmentSnapshot) : result PolicyError string :=
  let? canonical :=
    map_err (fun e => InvalidPolicyBundle ("enrichment snapshot canonicalize: " +:+ e))
      (jcs_view (object s) (adapter s)) in
  let hex := blake3_to_hex canonical in
  Ok (SNAPSHOT_ID_PREFIX +:+ String.substring 0 (Nat.min ID_HEX_LEN (String.length hex)) hex).

Definition with_snapshot_id (i : string) (s : EnrichmentSnapshot) : EnrichmentSnapshot :=
  {| snapshot_id := i; object := object s; adapter := adapter s |}.

Definition recompute_id (s : EnrichmentSnapshot) : result PolicyError EnrichmentSnapshot :=
  let? i := compute_id s in Ok (with_snapshot_id i s).

(** [EnrichmentSnapshot::with_fields]. *)
Definition with_fields (o : ObjectEnrichment) (a : AdapterEnrichment)
    : result PolicyError EnrichmentSnapshot :=
  recompute_id {| snapshot_id := ""; object := o; adapter := a |}.
End SnapshotId.

Lemma is_zero_cap_spec (o : option Z) :
  reflect (o = Some 0%Z) (match o with Some n => (n =? 0)%Z | None => false end).
Proof.
  destruct o as [n|]; [|by constructor].
  destruct (Z.eqb_spec n 0) as [->|]; constructor; congruence.
Qed.

(** ** Properties *)

(** The constraint validator accepts exactly the constraints that are in
    force at [now]: a time to live of 1 to 3600 seconds, no zero caps, and an
    expiry, when there is one, strictly in the future; the default constraints
    always pass. *)
Theorem constraints_validate_exact show_time now c :
  (Constraints.validate show_time now c = Ok tt <-> Constraints.in_force now c) /\
  Constraints.validate show_time now Constraints.default_ = Ok tt.
Proof.
  split; [|done]. unfold Constraints.validate, Constraints.in_force.
  destruct (Z.eqb_spec (Constraints.ttl_seconds c) 0) as [E|]; [split; [done|lia]|].
  destruct (Z.ltb_spec Constraints.MAX_TTL_SECONDS (Constraints.ttl_seconds c));
    [split; [done|lia]|].
  destruct (is_zero_cap_spec (Constraints.max_runtime_seconds c)) as [->|Hr]; [naive_solver|].
  destruct (is_zero_cap_spec (Constraints.max_concurrent_per_subject c)) as [->|Hm];
    [naive_solver|].
  destruct (Constraints.expires_at c) as [e|].
  - destruct (Z.leb_spec e now).
    + split; [done|]. intros (_ & _ & _ & Hx). specialize (Hx e eq_refl). lia.
    + split; [|done]. intros _. split_and!; [lia..|done|done|]. by intros ? [= <-].
  - split; [|done]. intros _. by split_and!; [lia..| | |].
Qed.

(** A snapshot id is a content address: it depends on the object and
    adapter fields only, so [recompute_id] after any tampering with the id
    restores the id [with_fields] sealed, and recomputing is idempotent. *)
Theorem snapshot_id_content_addressed jcs blake s i sealed :
  recompute_id jcs blake s = Ok sealed ->
  with_fields jcs blake (object s) (adapter s) = Ok sealed /\
  recompute_id jcs blake (with_snapshot_id i s) = Ok sealed /\
  recompute_id jcs blake sealed = Ok sealed.
Proof.
  unfold with_fields, recompute_id, compute_id. intros H.
  destruct (jcs (object s) (adapter s)) as [c|e] eqn:E; simpl in *; [|done].
  injection H as <-. simpl. by rewrite E.
Qed.

Lemma snapshot_id_content_addressed_witness :
  recompute_id (fun _ _ => Ok "{}") (fun _ => "abcd") (with_snapshot_id "garbage" default_enrichment)
  = Ok (with_snapshot_id "polb_snap_abcd" default_enrichment).
Proof.
  apply (snapshot_id_content_addressed (fun _ _ => Ok "{}") (fun _ => "abcd")
           default_enrichment "garbage").
  vm_compute. reflexivity.
Defined.
