(* ===== verification/HardDeny.v ===== *)
(** * The hard-deny engine (crate [aios-policy], [hard_deny_engine.rs])

    The ten constitutional classes, each with its detector, and the engine
    that runs them in table order.  A [HashSet<String>] is a [gset string];
    the one loop over a set ([protected_roots]) returns as soon as one element
    matches, so its iteration order does not show in its result. *)
From S2P Require Import Prelude Json Action PolicyTypes.


Module HardDenyEngineConfig.

Record t : Type := {
  secret_raw_read_actions : gset string;
  recursive_delete_actions : gset string;
  protected_roots : gset string;
  recovery_partition_prefixes : list string;
  policy_log_mutation_actions : gset string;
  evidence_log_mutation_actions : gset string;
  disable_policy_kernel_actions : gset string;
  disable_recovery_path_actions : gset string;
  modify_boot_chain_actions : gset string;
  untyped_shell_actions : gset string;
  privileged_groups : gset string;
  privileged_capabilities : gset string;
  aiosfs_pointer_rollback_actions : gset string;
  privacy_class_downgrade_actions : gset string;
}.

Definition into_set (items : list string) : gset string := list_to_set items.

Definition spec_defaults : t := {|
  secret_raw_read_actions :=
    into_set ["vault.read_raw"; "secret.read_raw"; "secret.reveal"; "vault.reveal"];
  recursive_delete_actions :=
    into_set ["aiosfs.recursive_delete"; "aiosfs.delete_recursive"; "fs.rm_rf";
              "fs.recursive_delete"];
  protected_roots := into_set ["/"; "/home"; "/root"; "/aios"];
  recovery_partition_prefixes := ["/recovery"; "/boot/recovery"; "/aios/recovery"];
  policy_log_mutation_actions :=
    into_set ["policy.log.delete"; "policy.log.mutate"; "policy.log.truncate";
              "policy.log.rewrite"];
  evidence_log_mutation_actions :=
    into_set ["evidence.log.delete"; "evidence.log.mutate"; "evidence.log.truncate";
              "evidence.log.rewrite"; "evidence.tamper"];
  disable_policy_kernel_actions :=
    into_set ["policy_kernel.disable"; "policy.kernel.disable"; "policy.kernel.stop"];
  disable_recovery_path_actions :=
    into_set ["recovery.disable"; "recovery.path.disable"; "recovery.partition.disable"];
  modify_boot_chain_actions :=
    into_set ["boot.chain.modify"; "boot.loader.modify"; "boot.efi.modify"; "bootloader.modify"];
  untyped_shell_actions :=
    into_set ["shell.exec_untyped"; "shell.untyped"; "shell.exec_free_form"];
  privileged_groups := into_set ["root"; "sudo"; "wheel"; "privileged"; "operators"];
  privileged_capabilities := into_set ["shell.untyped"; "system_admin"; "root_shell"];
  aiosfs_pointer_rollback_actions :=
    into_set ["aiosfs.pointer.rollback"; "aiosfs.pointer.revert"];
  privacy_class_downgrade_actions :=
    into_set ["aiosfs.object.set_privacy_class"; "object.privacy.downgrade";
              "aiosfs.privacy.downgrade"];
|}.

End HardDenyEngineConfig.

Module HardDenyEngine.
Import HardDenyEngineConfig.

(** [HashSet::contains]. *)
Definition contains (s : gset string) (x : string) : bool := bool_decide (x ∈ s).

Definition target_string_field (env : Envelope.t) (key : string) : option string :=
  m ← as_object (target (Envelope.request env));
  v ← assoc key m;
  as_str v.

Definition normalise_path (p : string) : string :=
  if Nat.ltb 1 (String.length p) && ends_with_char "/"%char p
  then trim_end_matches "/"%char p
  else p.

Definition privacy_rank (class : string) : Z :=
  if String.eqb class "PUBLIC" then 0
  else if String.eqb class "INTERNAL" then 1
  else if String.eqb class "CONFIDENTIAL" then 2
  else if String.eqb class "SECRET" then 3
  else if String.eqb class "TOP_SECRET" then 4
  else u8_max.

Section Detectors.
Variable cfg : HardDenyEngineConfig.t.
Variable env : Envelope.t.
Variable subject : HydratedSubject.

Let act : string := action (Envelope.request env).

Definition detect_secret_raw_read_by_ai : bool :=
  is_ai subject && contains (secret_raw_read_actions cfg) act.

Definition detect_recursive_delete_root : bool :=
  if negb (contains (recursive_delete_actions cfg) act) then false
  else match target_string_field env "path" with
       | None => false
       | Some path =>
           let normalised := normalise_path path in
           contains (protected_roots cfg) normalised ||
           existsb (fun root => String.eqb root "/" ||
                                starts_with (root +:+ "/") normalised)
             (elements (protected_roots cfg)) ||
           existsb (fun prefix => String.eqb normalised prefix ||
                                  starts_with (prefix +:+ "/") normalised)
             (recovery_partition_prefixes cfg)
       end.

Definition detect_policy_log_mutation : bool :=
  contains (policy_log_mutation_actions cfg) act.

Definition detect_evidence_log_mutation : bool :=
  contains (evidence_log_mutation_actions cfg) act.

Definition detect_disable_policy_kernel : bool :=
  contains (disable_policy_kernel_actions cfg) act.

Definition detect_disable_recovery_path : bool :=
  contains (disable_recovery_path_actions cfg) act.

Definition detect_modify_boot_chain : bool :=
  contains (modify_boot_chain_actions cfg) act.

Definition detect_untyped_shell_privileged : bool :=
  if negb (contains (untyped_shell_actions cfg) act) then false
  else existsb (contains (privileged_groups cfg)) (groups subject) ||
       existsb (contains (privileged_capabilities cfg)) (capabilities subject).

Definition detect_aios_fs_pointer_rollback_on_recovery : bool :=
  contains (aiosfs_pointer_rollback_actions cfg) act.

Definition detect_privacy_class_downgrade : bool :=
  if negb (contains (privacy_class_downgrade_actions cfg) act) then false
  else match target_string_field env "current_class", target_string_field env "new_class" with
       | Some current, Some new => (privacy_rank new <? privacy_rank current)%Z
       | _, _ => true
       end.

Definition check : option HardDenyClass.t :=
  if detect_secret_raw_read_by_ai then Some HardDenyClass.SecretRawReadByAi
  else if detect_recursive_delete_root then Some HardDenyClass.RecursiveDeleteRoot
  else if detect_policy_log_mutation then Some HardDenyClass.PolicyLogMutation
  else if detect_evidence_log_mutation then Some HardDenyClass.EvidenceLogMutation
  else if detect_disable_policy_kernel then Some HardDenyClass.DisablePolicyKernel
  else if detect_disable_recovery_path then Some HardDenyClass.DisableRecoveryPath
  else if detect_modify_boot_chain then Some HardDenyClass.ModifyBootChain
  else if detect_untyped_shell_privileged then Some HardDenyClass.UntypedShellPrivileged
  else if detect_aios_fs_pointer_rollback_on_recovery
  then Some HardDenyClass.AiosFsPointerRollbackOnRecovery
  else if detect_privacy_class_downgrade then Some HardDenyClass.PrivacyClassDowngrade
  else None.
End Detectors.

Definition variant_name (class : HardDenyClass.t) : string :=
  match class with
  | HardDenyClass.SecretRawReadByAi => "SecretRawReadByAi"
  | HardDenyClass.RecursiveDeleteRoot => "RecursiveDeleteRoot"
  | HardDenyClass.PolicyLogMutation => "PolicyLogMutation"
  | HardDenyClass.EvidenceLogMutation => "EvidenceLogMutation"
  | HardDenyClass.DisablePolicyKernel => "DisablePolicyKernel"
  | HardDenyClass.DisableRecoveryPath => "DisableRecoveryPath"
  | HardDenyClass.ModifyBootChain => "ModifyBootChain"
  | HardDenyClass.UntypedShellPrivileged => "UntypedShellPrivileged"
  | HardDenyClass.AiosFsPointerRollbackOnRecovery => "AiosFsPointerRollbackOnRecovery"
  | HardDenyClass.PrivacyClassDowngrade => "PrivacyClassDowngrade"
  end.

Definition reason_code_for (class : HardDenyClass.t) : string :=
  "HardDeny:" +:+ variant_name class.

Definition reason_message_for (class : HardDenyClass.t) : string :=
  let base :=
    match class with
    | HardDenyClass.SecretRawReadByAi => "raw secret read by AI subject is constitutionally forbidden (S2.3 §6 row 1)"
    | HardDenyClass.RecursiveDeleteRoot => "recursive deletion of a protected root path is constitutionally forbidden (S2.3 §6 row 2)"
    | HardDenyClass.PolicyLogMutation => "mutation of the policy log is constitutionally forbidden (S2.3 §6 row 3)"
    | HardDenyClass.EvidenceLogMutation => "mutation of the evidence log is constitutionally forbidden (S2.3 §6 row 4)"
    | HardDenyClass.DisablePolicyKernel => "disabling the Policy Kernel is constitutionally forbidden (S2.3 §6 row 5)"
    | HardDenyClass.DisableRecoveryPath => "disabling the recovery path is constitutionally forbidden (S2.3 §6 row 6)"
    | HardDenyClass.ModifyBootChain => "modifying the boot chain is constitutionally forbidden (S2.3 §6 row 7)"
    | HardDenyClass.UntypedShellPrivileged => "untyped shell execution as a privileged subject is constitutionally forbidden (S2.3 §6 row 8)"
    | HardDenyClass.AiosFsPointerRollbackOnRecovery => "rolling back recovery-essential AIOS-FS pointers is constitutionally forbidden (S2.3 §6 row 9)"
    | HardDenyClass.PrivacyClassDowngrade => "lowering an object's privacy class is constitutionally forbidden (S2.3 §6 row 10)"
    end in
  match class with
  | HardDenyClass.ModifyBootChain | HardDenyClass.AiosFsPointerRollbackOnRecovery =>
      base +:+ " (override path: recovery-mode operator approval)"
  | _ => base
  end.

Definition has_recovery_override_path (class : HardDenyClass.t) : bool :=
  match class with
  | HardDenyClass.ModifyBootChain | HardDenyClass.AiosFsPointerRollbackOnRecovery => true
  | _ => false
  end.

(** ** Reference definitions for the properties *)

(** The rows of the table in order, and the detector of a row. *)
Definition table : list HardDenyClass.t :=
  [HardDenyClass.SecretRawReadByAi; HardDenyClass.RecursiveDeleteRoot;
   HardDenyClass.PolicyLogMutation; HardDenyClass.EvidenceLogMutation;
   HardDenyClass.DisablePolicyKernel; HardDenyClass.DisableRecoveryPath;
   HardDenyClass.ModifyBootChain; HardDenyClass.UntypedShellPrivileged;
   HardDenyClass.AiosFsPointerRollbackOnRecovery; HardDenyClass.PrivacyClassDowngrade].

Definition detect cfg env subject (class : HardDenyClass.t) : bool :=
  match class with
  | HardDenyClass.SecretRawReadByAi => detect_secret_raw_read_by_ai cfg env subject
  | HardDenyClass.RecursiveDeleteRoot => detect_recursive_delete_root cfg env
  | HardDenyClass.PolicyLogMutation => detect_policy_log_mutation cfg env
  | HardDenyClass.EvidenceLogMutation => detect_evidence_log_mutation cfg env
  | HardDenyClass.DisablePolicyKernel => detect_disable_policy_kernel cfg env
  | HardDenyClass.DisableRecoveryPath => detect_disable_recovery_path cfg env
  | HardDenyClass.ModifyBootChain => detect_modify_boot_chain cfg env
  | HardDenyClass.UntypedShellPrivileged => detect_untyped_shell_privileged cfg env subject
  | HardDenyClass.AiosFsPointerRollbackOnRecovery =>
      detect_aios_fs_pointer_rollback_on_recovery cfg env
  | HardDenyClass.PrivacyClassDowngrade => detect_privacy_class_downgrade cfg env
  end.

(** [extends cfg' cfg]: every closed set of [cfg'] contains that of [cfg]. *)
Record extends (cfg' cfg : HardDenyEngineConfig.t) : Prop := {
  ext_secret : secret_raw_read_actions cfg ⊆ secret_raw_read_actions cfg';
  ext_delete : recursive_delete_actions cfg ⊆ recursive_delete_actions cfg';
  ext_roots : protected_roots cfg ⊆ protected_roots cfg';
  ext_recovery : recovery_partition_prefixes cfg ⊆ recovery_partition_prefixes cfg';
  ext_policy_log : policy_log_mutation_actions cfg ⊆ policy_log_mutation_actions cfg';
  ext_evidence_log : evidence_log_mutation_actions cfg ⊆ evidence_log_mutation_actions cfg';
  ext_kernel : disable_policy_kernel_actions cfg ⊆ disable_policy_kernel_actions cfg';
  ext_path : disable_recovery_path_actions cfg ⊆ disable_recovery_path_actions cfg';
  ext_boot : modify_boot_chain_actions cfg ⊆ modify_boot_chain_actions cfg';
  ext_shell : untyped_shell_actions cfg ⊆ untyped_shell_actions cfg';
  ext_groups : privileged_groups cfg ⊆ privileged_groups cfg';
  ext_caps : privileged_capabilities cfg ⊆ privileged_capabilities cfg';
  ext_pointer : aiosfs_pointer_rollback_actions cfg ⊆ aiosfs_pointer_rollback_actions cfg';
  ext_privacy : privacy_class_downgrade_actions cfg ⊆ privacy_class_downgrade_actions cfg';
}.

(** The privacy ladder, lowest class first. *)
Definition ladder : list string :=
  ["PUBLIC"; "INTERNAL"; "CONFIDENTIAL"; "SECRET"; "TOP_SECRET"].

(** ** Lemmas *)

Lemma privacy_rank_unknown class : class ∉ ladder -> privacy_rank class = u8_max.
Proof.
  unfold ladder, privacy_rank. intros H.
  repeat match goal with |- context [String.eqb ?a ?b] =>
    destruct (String.eqb_spec a b) as [->|]; [set_solver|] end. done.
Qed.

Lemma privacy_rank_ladder i class : ladder !! i = Some class -> privacy_rank class = Z.of_nat i.
Proof. intros H. do 5 (destruct i as [|i]; [injection H as <-; reflexivity|]). done. Qed.

Lemma privacy_rank_bound class : (privacy_rank class <= u8_max)%Z.
Proof. unfold privacy_rank, u8_max. repeat case_match; lia. Qed.

Lemma contains_true s x : contains s x = true <-> x ∈ s.
Proof. apply bool_decide_eq_true. Qed.

Lemma contains_mono s s' x : s ⊆ s' -> contains s x = true -> contains s' x = true.
Proof. rewrite !contains_true. set_solver. Qed.

Lemma existsb_mono {A} (p q : A -> bool) l l' :
  l ⊆ l' -> (forall x, p x = true -> q x = true) ->
  existsb p l = true -> existsb q l' = true.
Proof. intros Hl Hpq. rewrite !existsb_elem. intros (x & Hx & Hp). exists x. eauto. Qed.

#[local] Hint Resolve contains_mono ext_secret ext_delete ext_roots ext_recovery ext_policy_log
  ext_evidence_log ext_kernel ext_path ext_boot ext_shell ext_groups ext_caps ext_pointer
  ext_privacy : aios.

Lemma elements_mono (s s' : gset string) : s ⊆ s' -> elements s ⊆ elements s'.
Proof. intros H x. rewrite !elem_of_elements. apply H. Qed.

Lemma detect_mono cfg cfg' env subject class :
  extends cfg' cfg -> detect cfg env subject class = true ->
  detect cfg' env subject class = true.
Proof.
  intros E. destruct class; simpl; try solve [eauto with aios].
  - unfold detect_secret_raw_read_by_ai. rewrite !andb_true_iff.
    intros [??]. eauto with aios.
  - unfold detect_recursive_delete_root.
    destruct (contains (recursive_delete_actions cfg) _) eqn:Ea; [|done].
    rewrite (contains_mono _ _ _ (ext_delete _ _ E) Ea). simpl.
    destruct (target_string_field env "path") as [p|]; [|done].
    rewrite !orb_true_iff. intros [[H|H]|H].
    + left. left. eauto with aios.
    + left. right. by eapply existsb_mono; [apply elements_mono, ext_roots, E| |exact H].
    + right. by eapply existsb_mono; [apply ext_recovery, E| |exact H].
  - unfold detect_untyped_shell_privileged.
    destruct (contains (untyped_shell_actions cfg) _) eqn:Ea; [|done].
    rewrite (contains_mono _ _ _ (ext_shell _ _ E) Ea). simpl.
    rewrite !orb_true_iff.
    intros [H|H]; [left|right]; (eapply existsb_mono; [set_solver| |exact H]); eauto with aios.
  - unfold detect_privacy_class_downgrade.
    destruct (contains (privacy_class_downgrade_actions cfg) _) eqn:Ea; [|done].
    by rewrite (contains_mono _ _ _ (ext_privacy _ _ E) Ea).
Qed.

Lemma check_find cfg env subject :
  check cfg env subject = iter_find (detect cfg env subject) table.
Proof. done. Qed.

Lemma table_complete class : class ∈ table.
Proof. apply list_elem_of_In. destruct class; simpl; tauto. Qed.

Lemma check_None cfg env subject :
  check cfg env subject = None <-> forall class, detect cfg env subject class = false.
Proof.
  rewrite check_find, iter_find_None. split; [|done].
  intros H class. apply H, table_complete.
Qed.

Lemma check_detects cfg env subject class :
  check cfg env subject = Some class -> detect cfg env subject class = true.
Proof. rewrite check_find. by intros [_ ?]%iter_find_Some. Qed.

(** ** Properties *)

(** The engine fires exactly when some row of the table detects the
    action, it reports a row that does, and it reports the first one: no row
    above the reported one detects it. *)
Theorem check_is_first_match cfg env subject :
  match check cfg env subject with
  | None => forall class, detect cfg env subject class = false
  | Some class =>
      detect cfg env subject class = true /\
      exists above below, table = above ++ class :: below /\
        forall c, c ∈ above -> detect cfg env subject c = false
  end.
Proof.
  destruct (check cfg env subject) as [class|] eqn:E; [|by apply check_None].
  split; [by apply check_detects|]. rewrite check_find in E. revert E.
  generalize (detect cfg env subject) as p. generalize table as l. intros l p.
  induction l as [|c l IH]; simpl; [done|]. destruct (p c) eqn:Ec.
  - intros [= ->]. exists [], l. split; [done|]. set_solver.
  - intros (above & below & -> & H)%IH. exists (c :: above), below. split; [done|].
    intros c' [->|?]%elem_of_cons; auto.
Qed.

(** Enlarging the configured vocabularies never weakens the engine: an
    action denied under a configuration is denied, in the same row, under
    every configuration that extends it. *)
Theorem config_cannot_weaken cfg cfg' env subject :
  extends cfg' cfg ->
  (forall class, detect cfg env subject class = true -> detect cfg' env subject class = true) /\
  (check cfg env subject <> None -> check cfg' env subject <> None).
Proof.
  intros E. split; [intros class; by apply detect_mono|].
  rewrite !check_None. intros Hn Hd. apply Hn. intros class.
  destruct (detect cfg env subject class) eqn:Ed; [|done].
  by rewrite <-(Hd class), (detect_mono _ _ _ _ _ E Ed).
Qed.

(** With the default configuration a recursive delete is denied for every
    string [path] (the protected root [/] covers them all, relative paths
    included), and this row stays silent only when the target carries no
    string [path]. *)
Theorem recursive_delete_covers_every_path env subject :
  contains (recursive_delete_actions spec_defaults) (action (Envelope.request env)) = true ->
  (is_some (target_string_field env "path") = true ->
   check spec_defaults env subject = Some HardDenyClass.RecursiveDeleteRoot) /\
  (detect_recursive_delete_root spec_defaults env = is_some (target_string_field env "path")).
Proof.
  intros Ha.
  assert (detect_recursive_delete_root spec_defaults env =
          is_some (target_string_field env "path")) as Hd.
  { unfold detect_recursive_delete_root. rewrite Ha. simpl.
    destruct (target_string_field env "path") as [p|]; [|done]. simpl.
    apply orb_true_iff. left. apply orb_true_iff. right.
    apply existsb_elem. exists "/". split; [|done].
    apply elem_of_elements. simpl. unfold into_set. set_solver. }
  split; [|done]. intros Hp. unfold check. rewrite Hd, Hp.
  assert (detect_secret_raw_read_by_ai spec_defaults env subject = false) as ->; [|done].
  unfold detect_secret_raw_read_by_ai.
  apply andb_false_iff. right. apply bool_decide_eq_false. intros Hs.
  apply contains_true in Ha. revert Ha Hs.
  generalize (action (Envelope.request env)) as a. intros a. simpl.
  unfold into_set. rewrite !elem_of_list_to_set, !elem_of_cons, !elem_of_nil.
  intros; destruct_or!; congruence.
Qed.

(** The privacy-downgrade row on a target that names both classes: between
    two classes of the ladder it fires exactly on a strictly lower new class,
    from an unknown current class it fires on every known new class, and an
    unknown new class never fires it, whatever the current class is. *)
Theorem privacy_downgrade_exact cfg env current new :
  contains (privacy_class_downgrade_actions cfg) (action (Envelope.request env)) = true ->
  target_string_field env "current_class" = Some current ->
  target_string_field env "new_class" = Some new ->
  (forall i j, ladder !! i = Some current -> ladder !! j = Some new ->
     detect_privacy_class_downgrade cfg env = Nat.ltb j i) /\
  (current ∉ ladder -> new ∈ ladder -> detect_privacy_class_downgrade cfg env = true) /\
  (new ∉ ladder -> detect_privacy_class_downgrade cfg env = false).
Proof.
  intros Ha Hc Hn. unfold detect_privacy_class_downgrade. rewrite Ha, Hc, Hn. simpl.
  split_and!.
  - intros i j Hi Hj. rewrite (privacy_rank_ladder _ _ Hi), (privacy_rank_ladder _ _ Hj).
    destruct (Nat.ltb_spec j i); [apply Z.ltb_lt|apply Z.ltb_ge]; lia.
  - intros Hu [j Hj]%list_elem_of_lookup. apply Z.ltb_lt.
    rewrite (privacy_rank_unknown _ Hu), (privacy_rank_ladder _ _ Hj).
    apply lookup_lt_Some in Hj. change (length ladder) with 5 in Hj. unfold u8_max. lia.
  - intros Hu. apply Z.ltb_ge. rewrite (privacy_rank_unknown _ Hu). apply privacy_rank_bound.
Qed.

(** The reason code of a decision names its class: distinct classes have
    distinct codes, and the message carries the recovery-override suffix for
    exactly the two classes that have an override path. *)
Theorem reason_identifies_class c d :
  (reason_code_for c = reason_code_for d -> c = d) /\
  str_contains "(override path: recovery-mode operator approval)" (reason_message_for c) =
    has_recovery_override_path c.
Proof. split; [destruct c, d; vm_compute; congruence|by destruct c; vm_compute]. Qed.

(** Path normalisation leaves no trailing slash except on the bare root,
    is idempotent, and strips every trailing slash, not only one. *)
Theorem normalise_path_spec p :
  (p <> "/" -> ends_with_char "/"%char (normalise_path p) = false) /\
  normalise_path (normalise_path p) = normalise_path p /\
  normalise_path "/home/lucky///" = "/home/lucky".
Proof.
  assert (Hend : p <> "/" -> ends_with_char "/"%char (normalise_path p) = false).
  { intros Hp. unfold normalise_path.
    destruct (ends_with_char "/"%char p) eqn:E; [|by rewrite andb_false_r].
    destruct (Nat.ltb_spec 1 (String.length p)) as [_|Hl]; [simpl; auto with aios|].
    destruct p as [|a [|b p]]; [done| |cbn in Hl; lia]. simpl in E.
    apply ascii_eqb_eq in E as ->. done. }
  split_and!; [done| |done].
  destruct (decide (p = "/")) as [->|Hp]; [done|].
  unfold normalise_path at 1. by rewrite Hend, andb_false_r.
Qed.

(** ** Witnesses *)

Definition demo_subject : HydratedSubject :=
  {| canonical_subject_id := "agent:dev:01"; subject_type := Agent; groups := ["cognitive-core"];
     capabilities := []; session_class := "INTERNAL"; recovery_mode := false; is_ai := true |}.

Definition demo_envelope (a : string) (tgt : json) : Envelope.t :=
  Envelope.new 0 {| subject_canonical_id := "agent:dev"; identity_is_ai := true; session_id := None |}
    (new_request a tgt) {| trace_id := "01"; span_id := "02"; parent_span_id := None |}.

Lemma config_cannot_weaken_witness :
  check spec_defaults (demo_envelope "evidence.tamper" JNull) demo_subject <> None.
Proof.
  apply (config_cannot_weaken spec_defaults); [by constructor|]. vm_compute. done.
Defined.

Lemma recursive_delete_covers_every_path_witness :
  check spec_defaults (demo_envelope "fs.rm_rf" (JObject [("path", JString "tmp/x")])) demo_subject
  = Some HardDenyClass.RecursiveDeleteRoot.
Proof. apply recursive_delete_covers_every_path; by vm_compute. Defined.

(** Setting [SECRET] to the misspelt class [public] is let through. *)
Lemma privacy_downgrade_exact_witness :
  detect_privacy_class_downgrade spec_defaults
    (demo_envelope "object.privacy.downgrade"
       (JObject [("current_class", JString "SECRET"); ("new_class", JString "public")])) = false.
Proof.
  apply (privacy_downgrade_exact _ _ "SECRET" "public"); [by vm_compute..|].
  unfold ladder. set_solver.
Defined.

End HardDenyEngine.
