(* ===== verification/Override.v ===== *)
(** * Emergency overrides (crate [aios-policy], [override_boundary.rs])

    The registry of override grants.  The map behind the lock is a
    [gmap string EmergencyOverride]; the lock only serialises the operations,
    so a run of the registry is a sequence of them.  The order in which a
    [HashMap] yields its values is unspecified: it is the argument [values],
    of which the proofs assume only that it yields each value of the map.
    The clock and the ULID of a new grant are arguments. *)
From S2P Require Import Prelude PolicyTypes.

Definition MAX_OVERRIDE_TTL_SECONDS : N := 24 * 60 * 60.

Record OverrideScope : Type := {
  scope_rule_id : string;
  scope_action : string;
  scope_subjects : list string;
}.

Record OverrideRequest : Type := {
  granted_by_subject : HydratedSubject;
  req_scope : OverrideScope;
  req_reason : string;
  req_ttl_seconds : N;
  attempted_hard_deny : option HardDenyClass.t;
}.

Record EmergencyOverride : Type := {
  override_id : string;
  granted_by_subject_id : string;
  granted_at : DateTime;
  expires_at : DateTime;
  scope : OverrideScope;
  reason : string;
  revoked : bool;
}.

Definition is_expired_or_revoked (g : EmergencyOverride) (now : DateTime) : bool :=
  revoked g || (expires_at g <=? now)%Z.

Inductive OverrideError : Type :=
| HardDenyCannotBeOverridden (class : HardDenyClass.t)
| HumanOnly (granted_by : string)
| TtlExceeded (requested max : N)
| ScopeInvalid
| TtlZero.

Module OverrideBoundary.

Abbreviation t := (gmap string EmergencyOverride).

(** [OverrideBoundary::new]. *)
Definition new : t := ∅.

(** [i64::try_from(ttl).unwrap_or(i32::MAX)]. *)
Definition ttl_i64 (ttl : N) : Z :=
  if (Z.of_N ttl <=? i64_max)%Z then Z.of_N ttl else 2147483647.

Definition mk_grant (fresh : string) (req : OverrideRequest) (now : DateTime)
    : EmergencyOverride :=
  {| override_id := "ovr_" +:+ fresh;
     granted_by_subject_id := canonical_subject_id (granted_by_subject req);
     granted_at := now;
     expires_at := now + seconds (ttl_i64 (req_ttl_seconds req));
     scope := req_scope req; reason := req_reason req; revoked := false |}.

Definition request_override_at (fresh : string) (req : OverrideRequest) (now : DateTime) (b : t)
    : result OverrideError (EmergencyOverride * t) :=
  match attempted_hard_deny req with
  | Some class => Err (HardDenyCannotBeOverridden class)
  | None =>
      if is_ai (granted_by_subject req)
      then Err (HumanOnly (canonical_subject_id (granted_by_subject req)))
      else if (req_ttl_seconds req =? 0)%N then Err TtlZero
      else if (MAX_OVERRIDE_TTL_SECONDS <? req_ttl_seconds req)%N
      then Err (TtlExceeded (req_ttl_seconds req) MAX_OVERRIDE_TTL_SECONDS)
      else if str_is_empty (scope_action (req_scope req)) then Err ScopeInvalid
      else let grant := mk_grant fresh req now in
           Ok (grant, <[override_id grant := grant]> b)
  end.

(** The predicate of the [find] in [is_overridden_at]. *)
Definition matches (act subject : string) (now : DateTime) (g : EmergencyOverride) : bool :=
  negb (is_expired_or_revoked g now) &&
  String.eqb (scope_action (scope g)) act &&
  (match scope_subjects (scope g) with [] => true | _ => false end ||
   existsb (fun s => String.eqb s subject) (scope_subjects (scope g))).

Definition is_overridden_at (values : t -> list EmergencyOverride)
    (act subject : string) (now : DateTime) (b : t) : option EmergencyOverride :=
  iter_find (matches act subject now) (values b).

Definition with_revoked (g : EmergencyOverride) : EmergencyOverride :=
  {| override_id := override_id g; granted_by_subject_id := granted_by_subject_id g;
     granted_at := granted_at g; expires_at := expires_at g; scope := scope g;
     reason := reason g; revoked := true |}.

Definition revoke (id : string) (b : t) : bool * t :=
  match b !! id with
  | Some g => if negb (revoked g) then (true, <[id := with_revoked g]> b) else (false, b)
  | None => (false, b)
  end.

Definition invalidate_for_bundle_flip (b : t) : nat * t := (size b, ∅).

Definition len (b : t) : nat := size b.

Definition prune_expired (now : DateTime) (b : t) : nat * t :=
  let to_remove :=
    List.filter (fun kg => is_expired_or_revoked kg.2 now) (map_to_list b) in
  (length to_remove, foldr (fun kg m => delete kg.1 m) b to_remove).

(** The assumption on [HashMap] iteration: [values] yields the values of the map. *)
Definition values_ok (values : t -> list EmergencyOverride) : Prop :=
  forall b g, g ∈ values b <-> exists id, b !! id = Some g.

(** A concrete iteration order. *)
Definition values_in_key_order (b : t) : list EmergencyOverride := (map_to_list b).*2.

(** ** Runs of the registry *)
Inductive step : t -> t -> Prop :=
| step_request fresh req now b g b' :
    request_override_at fresh req now b = Ok (g, b') -> step b b'
| step_revoke id b : step b (revoke id b).2
| step_flip b : step b (invalidate_for_bundle_flip b).2
| step_prune now b : step b (prune_expired now b).2.

Definition reachable (b : t) : Prop := rtc step new b.

(** What every recorded grant satisfies. *)
Definition grant_ok (id : string) (g : EmergencyOverride) : Prop :=
  override_id g = id /\ scope_action (scope g) <> "" /\
  (granted_at g < expires_at g <= granted_at g + seconds (Z.of_N MAX_OVERRIDE_TTL_SECONDS))%Z.

(** ** Lemmas *)

Lemma values_in_key_order_ok : values_ok values_in_key_order.
Proof.
  intros b g. unfold values_in_key_order. rewrite list_elem_of_fmap. split.
  - intros ([id g'] & -> & H). exists id. by apply elem_of_map_to_list in H.
  - intros [id H]. exists (id, g). split; [done|]. by apply elem_of_map_to_list.
Qed.

Lemma request_ok fresh req now b g b' :
  request_override_at fresh req now b = Ok (g, b') <->
  (attempted_hard_deny req = None /\ is_ai (granted_by_subject req) = false /\
   (0 < req_ttl_seconds req <= MAX_OVERRIDE_TTL_SECONDS)%N /\
   scope_action (req_scope req) <> "") /\
  g = mk_grant fresh req now /\ b' = <[override_id g := g]> b.
Proof.
  unfold request_override_at.
  destruct (attempted_hard_deny req); [naive_solver|].
  destruct (is_ai (granted_by_subject req)); [naive_solver|].
  destruct (N.eqb_spec (req_ttl_seconds req) 0); [naive_solver lia|].
  destruct (N.ltb_spec MAX_OVERRIDE_TTL_SECONDS (req_ttl_seconds req)); [naive_solver lia|].
  destruct (scope_action (req_scope req)) as [|c s] eqn:Es; simpl; [naive_solver|].
  split; [intros [= <- <-]|by intros (_ & -> & ->)].
  split_and!; try done; lia.
Qed.

Lemma ttl_i64_id ttl : (ttl <= MAX_OVERRIDE_TTL_SECONDS)%N -> ttl_i64 ttl = Z.of_N ttl.
Proof.
  unfold ttl_i64, MAX_OVERRIDE_TTL_SECONDS, i64_max. intros.
  destruct (Z.leb_spec (Z.of_N ttl) 9223372036854775807); lia.
Qed.

Lemma foldr_delete_lookup {A} (l : list (string * A)) (b : gmap string A) id :
  foldr (fun kg m => delete kg.1 m) b l !! id =
  if bool_decide (id ∈ l.*1) then None else b !! id.
Proof.
  induction l as [|[k v] l IH]; [by rewrite bool_decide_eq_false_2 by set_solver|].
  cbn [foldr fst]. rewrite fmap_cons, lookup_delete. cbn [fst].
  destruct (decide (k = id)) as [->|E].
  - rewrite bool_decide_eq_true_2 by set_solver. done.
  - rewrite IH. by rewrite (bool_decide_ext (id ∈ k :: l.*1) (id ∈ l.*1)) by set_solver.
Qed.

Lemma prune_lookup now b id :
  (prune_expired now b).2 !! id =
  match b !! id with
  | Some g => if is_expired_or_revoked g now then None else Some g
  | None => None
  end.
Proof.
  unfold prune_expired. simpl. rewrite foldr_delete_lookup.
  assert (forall g, (id, g) ∈ List.filter (fun kg => is_expired_or_revoked kg.2 now)
    (map_to_list b) <-> b !! id = Some g /\ is_expired_or_revoked g now = true) as Hf.
  { intros g. rewrite list_elem_of_In, filter_In, <-list_elem_of_In, elem_of_map_to_list. done. }
  case_bool_decide as E.
  - apply list_elem_of_fmap in E as ([k g] & -> & E). simpl in *. apply Hf in E as [-> ->]. done.
  - destruct (b !! id) as [g|] eqn:Eb; [|done].
    destruct (is_expired_or_revoked g now) eqn:Ex; [|done].
    exfalso. apply E. apply list_elem_of_fmap. exists (id, g). split; [done|]. by apply Hf.
Qed.

Lemma revoke_lookup id b id' :
  (revoke id b).2 !! id' =
  if decide (id = id') then with_revoked <$> b !! id' else b !! id'.
Proof.
  unfold revoke. destruct (b !! id) as [g|] eqn:E; simpl.
  - destruct (revoked g) eqn:Er; simpl.
    + case_decide; [subst|done]. rewrite E. simpl. f_equal.
      unfold with_revoked. rewrite <-Er. by destruct g.
    + rewrite lookup_insert. case_decide; [subst|done]. by rewrite E.
  - case_decide; [subst|done]. by rewrite E.
Qed.

Lemma step_grant_ok b b' :
  step b b' -> map_Forall grant_ok b -> map_Forall grant_ok b'.
Proof.
  intros H Hall. destruct H as [fresh req now b g b' H|id b|b|now b]; intros k g' Hk.
  - apply request_ok in H as ((_ & _ & Ht & Hs) & -> & ->).
    apply lookup_insert_Some in Hk as [[<- <-]|[_ Hk]]; [|by apply Hall].
    split_and!; cbn [granted_at expires_at mk_grant override_id scope]; [done|done|..];
    rewrite ttl_i64_id by lia; unfold seconds, MAX_OVERRIDE_TTL_SECONDS in *; lia.
  - rewrite revoke_lookup in Hk. case_decide; [subst|by apply Hall].
    apply fmap_Some in Hk as (g0 & Hk & ->). exact (Hall _ _ Hk).
  - cbn in Hk. by rewrite lookup_empty in Hk.
  - rewrite prune_lookup in Hk. destruct (b !! k) as [g0|] eqn:E; [|done].
    destruct (is_expired_or_revoked g0 now); [done|]. injection Hk as <-. by apply Hall.
Qed.

Lemma reachable_grant_ok b : reachable b -> map_Forall grant_ok b.
Proof.
  unfold reachable. assert (map_Forall grant_ok new) as H0 by apply map_Forall_empty.
  revert H0. generalize new. intros b0 H0 Hr. induction Hr; eauto using step_grant_ok.
Qed.

Lemma matches_spec act subject now g :
  matches act subject now g = true <->
  revoked g = false /\ (now < expires_at g)%Z /\ scope_action (scope g) = act /\
  (scope_subjects (scope g) = [] \/ subject ∈ scope_subjects (scope g)).
Proof.
  unfold matches, is_expired_or_revoked.
  rewrite !andb_true_iff, negb_true_iff, orb_false_iff, Z.leb_gt, String.eqb_eq, orb_true_iff,
    existsb_elem.
  assert ((exists x, x ∈ scope_subjects (scope g) /\ String.eqb x subject = true) <->
          subject ∈ scope_subjects (scope g)) as ->.
  { setoid_rewrite String.eqb_eq. naive_solver. }
  destruct (scope_subjects (scope g)); naive_solver.
Qed.

(** ** Properties *)

(** A grant is issued exactly when the request names no hard-deny class,
    the requester is not an AI subject, the time to live is 1 second to 24
    hours and the scope names an action; the issued grant is recorded under its
    id, expires after exactly the requested time, and leaves every other grant
    untouched. *)
Theorem request_override_exact fresh req now b :
  (is_ok (request_override_at fresh req now b) = true <->
   attempted_hard_deny req = None /\ is_ai (granted_by_subject req) = false /\
   (0 < req_ttl_seconds req <= MAX_OVERRIDE_TTL_SECONDS)%N /\
   scope_action (req_scope req) <> "") /\
  (forall g b', request_override_at fresh req now b = Ok (g, b') ->
     b' !! override_id g = Some g /\
     expires_at g = (now + seconds (Z.of_N (req_ttl_seconds req)))%Z /\
     revoked g = false /\
     forall id, id <> override_id g -> b' !! id = b !! id).
Proof.
  split.
  - split.
    + destruct (request_override_at _ _ _ _) as [[g b']|] eqn:E; [|done].
      intros _. by apply request_ok in E as [? _].
    + intros H.
      by rewrite (proj2 (request_ok fresh req now b _ _) (conj H (conj eq_refl eq_refl))).
  - intros g b' ((_ & _ & Ht & _) & -> & ->)%request_ok. split_and!.
    + by rewrite lookup_insert_eq.
    + cbn [expires_at mk_grant]. by rewrite ttl_i64_id by lia.
    + done.
    + intros id Hne. by rewrite lookup_insert_ne.
Qed.

(** Whatever the iteration order of the map, an override found for an
    action and a subject is a recorded grant that names that action and that
    subject (or every subject), is not revoked and has not expired, so that it
    was granted less than 24 hours ago; and none is found only when no
    recorded grant matches. *)
Theorem is_overridden_sound_complete values b act subject now :
  values_ok values -> reachable b ->
  match is_overridden_at values act subject now b with
  | Some g =>
      b !! override_id g = Some g /\ revoked g = false /\
      scope_action (scope g) = act /\ act <> "" /\
      (scope_subjects (scope g) = [] \/ subject ∈ scope_subjects (scope g)) /\
      (now < expires_at g <= granted_at g + seconds (Z.of_N MAX_OVERRIDE_TTL_SECONDS))%Z
  | None => forall id g, b !! id = Some g -> matches act subject now g = false
  end.
Proof.
  intros Hv Hr. unfold is_overridden_at. destruct (iter_find _ _) as [g|] eqn:E.
  - apply iter_find_Some in E as [Hg Hm]. apply Hv in Hg as [id Hg].
    destruct (reachable_grant_ok _ Hr _ _ Hg) as (<- & Ha & Ht).
    apply matches_spec in Hm as (? & ? & <- & ?). split_and!; try done; lia.
  - rewrite iter_find_None in E. intros id g Hg. apply E, Hv. eauto.
Qed.

(** Revocation and bundle flips take effect at once and pruning is
    invisible: after [revoke id] no lookup, at any time, returns a grant of
    that id; after a bundle flip no lookup returns anything; after pruning at
    [now] a grant matches at a time from [now] on exactly when it matched
    before. *)
Theorem revoke_flip_prune values b act subject :
  values_ok values -> map_Forall (fun id g => override_id g = id) b ->
  (forall id t g, is_overridden_at values act subject t (revoke id b).2 = Some g ->
     override_id g <> id) /\
  (forall t, is_overridden_at values act subject t (invalidate_for_bundle_flip b).2 = None) /\
  (forall now t id g, (now <= t)%Z ->
     ((prune_expired now b).2 !! id = Some g /\ matches act subject t g = true <->
      b !! id = Some g /\ matches act subject t g = true)).
Proof.
  intros Hv Hid. split_and!.
  - intros id t g [Hg Hm]%iter_find_Some Hk. apply Hv in Hg as [k Hg].
    apply matches_spec in Hm as (Hr & _). rewrite revoke_lookup in Hg. case_decide; subst.
    + apply fmap_Some in Hg as (g0 & _ & ->). done.
    + by apply Hid in Hg.
  - intros t. apply iter_find_None. intros g [id Hg]%Hv. cbn in Hg.
    by rewrite lookup_empty in Hg.
  - intros now t id g Ht. rewrite prune_lookup.
    destruct (b !! id) as [g0|]; [|done].
    destruct (is_expired_or_revoked g0 now) eqn:Ex; [|done].
    split; [by intros [? _]|]. intros [[= ->] (Hr & He & _)%matches_spec].
    unfold is_expired_or_revoked in Ex. rewrite Hr in Ex. simpl in Ex.
    apply Z.leb_le in Ex. lia.
Qed.

(** ** Witnesses *)

Definition demo_grantor (st : SubjectType) : HydratedSubject :=
  {| canonical_subject_id := "operator:01"; subject_type := st; groups := ["operators"];
     capabilities := []; session_class := "INTERNAL"; recovery_mode := false; is_ai := false |}.

Definition demo_request (st : SubjectType) : OverrideRequest :=
  {| granted_by_subject := demo_grantor st;
     req_scope := {| scope_rule_id := "deny_lan_exposure"; scope_action := "net.expose_lan";
                     scope_subjects := ["human:lucky:01"] |};
     req_reason := "incident"; req_ttl_seconds := 3600; attempted_hard_deny := None |}.

Definition demo_boundary : t :=
  match request_override_at "01" (demo_request Human) 0 new with Ok (_, b) => b | Err _ => new end.

Lemma demo_reachable : reachable demo_boundary.
Proof.
  eapply rtc_l; [|apply rtc_refl].
  apply (step_request "01" (demo_request Human) 0 new (mk_grant "01" (demo_request Human) 0)).
  vm_compute. reflexivity.
Defined.

Lemma is_overridden_sound_complete_witness :
  match is_overridden_at values_in_key_order "net.expose_lan" "human:lucky:01" 5 demo_boundary with
  | Some g => scope_subjects (scope g) = [] \/ "human:lucky:01" ∈ scope_subjects (scope g)
  | None => False
  end.
Proof.
  pose proof (is_overridden_sound_complete values_in_key_order demo_boundary "net.expose_lan"
    "human:lucky:01" 5 values_in_key_order_ok demo_reachable) as H.
  destruct (is_overridden_at _ _ _ _ _) as [g|] eqn:E; [apply H|].
  vm_compute in E. discriminate E.
Defined.

Lemma revoke_flip_prune_witness :
  is_overridden_at values_in_key_order "net.expose_lan" "human:lucky:01" 5
    (invalidate_for_bundle_flip demo_boundary).2 = None.
Proof.
  apply revoke_flip_prune; [apply values_in_key_order_ok|].
  intros id g Hg. apply (reachable_grant_ok _ demo_reachable _ _ Hg).
Defined.

(** The requester check reads [is_ai] only: a service subject, which is not
    human, is issued a grant. *)
Lemma non_human_grant_is_issued :
  is_ok (request_override_at "01" (demo_request Service) 0 new) = true.
Proof. reflexivity. Qed.

End OverrideBoundary.
