(* ===== verification/Cache.v ===== *)
(** * The decision cache (crate [aios-policy], [cache.rs])

    [DecisionCache] wraps the third-party [lru::LruCache].  That crate is an
    interface here: the class [LruCache] has its operations and [LruLaws] its
    documented behaviour, stated on the most-recently-used-first entry list
    that [LruCache::iter] yields.  The theorems are proved against the
    interface; [ListLru] is an implementation that satisfies it. *)
From S2P Require Import Prelude PolicyTypes.

(** ** Association lists keyed by a decidable type *)
Section Keyed.
Context {K V : Type} `{EqDecision K}.

Definition klookup (k : K) (l : list (K * V)) : option V :=
  snd <$> iter_find (fun kv => bool_decide (kv.1 = k)) l.

Definition kremove (k : K) (l : list (K * V)) : list (K * V) :=
  List.filter (fun kv => bool_decide (kv.1 <> k)) l.

Lemma klookup_cons k k' v l :
  klookup k ((k', v) :: l) = if decide (k' = k) then Some v else klookup k l.
Proof.
  unfold klookup. simpl.
  destruct (decide (k' = k)) as [E|E];
    [by rewrite bool_decide_eq_true_2|by rewrite bool_decide_eq_false_2].
Qed.

Lemma klookup_kremove k k' l :
  klookup k (kremove k' l) = if decide (k' = k) then None else klookup k l.
Proof.
  induction l as [|[x v] l IH]; [by case_decide|].
  rewrite klookup_cons. unfold kremove in *. simpl. case_bool_decide as E; simpl in E.
  - rewrite klookup_cons, IH. repeat case_decide; congruence.
  - rewrite IH. repeat case_decide; congruence.
Qed.

Lemma klookup_Some_elem k v l : klookup k l = Some v -> (k, v) ∈ l.
Proof.
  unfold klookup. intros ([k' v'] & H & ->)%fmap_Some.
  apply iter_find_Some in H as [H E]. simpl in E. by apply bool_decide_eq_true in E as ->.
Qed.

Lemma klookup_None k l : klookup k l = None <-> k ∉ l.*1.
Proof.
  induction l as [|[x v] l IH]; [set_solver|].
  rewrite klookup_cons, fmap_cons. simpl. case_decide; set_solver.
Qed.

Lemma klookup_elem k v l : NoDup l.*1 -> (k, v) ∈ l -> klookup k l = Some v.
Proof.
  induction l as [|[x w] l IH]; [set_solver|]. rewrite fmap_cons. simpl.
  intros [Hx Hn]%NoDup_cons Hl. rewrite klookup_cons. apply elem_of_cons in Hl as [E|Hl].
  - injection E as -> ->. by rewrite decide_True.
  - rewrite decide_False; [auto|]. intros ->. apply Hx. apply list_elem_of_fmap. by exists (k, v).
Qed.

Lemma kremove_keys k l : (kremove k l).*1 = List.filter (fun x => bool_decide (x <> k)) l.*1.
Proof.
  unfold kremove. induction l as [|[x v] l IH]; [done|]. simpl.
  case_bool_decide; simpl; [f_equal|]; apply IH.
Qed.

Lemma kremove_NoDup k l : NoDup l.*1 -> NoDup (kremove k l).*1.
Proof.
  rewrite kremove_keys, !NoDup_ListNoDup. apply List.NoDup_filter.
Qed.

Lemma kremove_length k l : length (kremove k l) <= length l.
Proof. apply List.filter_length_le. Qed.

Lemma kremove_notin k l : k ∉ (kremove k l).*1.
Proof.
  rewrite kremove_keys, list_elem_of_In, filter_In. intros [_ H].
  by apply bool_decide_eq_true in H.
Qed.

Lemma kremove_length_lt k l : k ∈ l.*1 -> length (kremove k l) < length l.
Proof.
  induction l as [|[x v] l IH]; [set_solver|]. rewrite fmap_cons. simpl. unfold kremove in *. simpl.
  case_bool_decide as E; simpl in *.
  - intros [->|H]%elem_of_cons; [done|]. apply IH in H. lia.
  - intros _. pose proof (kremove_length k l). unfold kremove in *. lia.
Qed.
End Keyed.

(** ** The interface of [lru::LruCache] *)
Class LruCache (K V : Type) `{EqDecision K} := {
  lru : Type;
  lru_new : nat -> lru;
  lru_cap : lru -> nat;
  lru_get : K -> lru -> option V * lru;
  lru_put : K -> V -> lru -> option V * lru;
  lru_pop : K -> lru -> option V * lru;
  lru_iter : lru -> list (K * V);
}.

Class LruLaws (K V : Type) `{LruCache K V} := {
  lru_iter_new c : lru_iter (lru_new c) = [];
  lru_cap_new c : lru_cap (lru_new c) = c;
  lru_cap_get k l : lru_cap (lru_get k l).2 = lru_cap l;
  lru_cap_put k v l : lru_cap (lru_put k v l).2 = lru_cap l;
  lru_cap_pop k l : lru_cap (lru_pop k l).2 = lru_cap l;
  (** [get] returns the value and moves the entry to the front. *)
  lru_get_value k l : (lru_get k l).1 = klookup k (lru_iter l);
  lru_iter_get k l :
    lru_iter (lru_get k l).2 =
    match klookup k (lru_iter l) with
    | Some v => (k, v) :: kremove k (lru_iter l)
    | None => lru_iter l
    end;
  (** [put] overwrites an entry in place of its key, or evicts the least
      recently used entry of a full cache; the entry becomes the front. *)
  lru_put_value k v l : (lru_put k v l).1 = klookup k (lru_iter l);
  lru_iter_put k v l :
    lru_iter (lru_put k v l).2 =
    (k, v) :: match klookup k (lru_iter l) with
              | Some _ => kremove k (lru_iter l)
              | None => take (lru_cap l - 1) (lru_iter l)
              end;
  lru_pop_value k l : (lru_pop k l).1 = klookup k (lru_iter l);
  lru_iter_pop k l : lru_iter (lru_pop k l).2 = kremove k (lru_iter l);
}.

(** An implementation of the interface. *)
Module ListLru.

Record t (K V : Type) : Type := { cap : nat; entries : list (K * V) }.
Arguments cap {K V}.
Arguments entries {K V}.

Definition get {K V} `{EqDecision K} (k : K) (l : t K V) : option V * t K V :=
  match klookup k (entries l) with
  | Some v => (Some v, {| cap := cap l; entries := (k, v) :: kremove k (entries l) |})
  | None => (None, l)
  end.

Definition put {K V} `{EqDecision K} (k : K) (v : V) (l : t K V) : option V * t K V :=
  (klookup k (entries l),
   {| cap := cap l;
      entries := (k, v) :: match klookup k (entries l) with
                           | Some _ => kremove k (entries l)
                           | None => take (cap l - 1) (entries l)
                           end |}).

Definition pop {K V} `{EqDecision K} (k : K) (l : t K V) : option V * t K V :=
  (klookup k (entries l), {| cap := cap l; entries := kremove k (entries l) |}).

Definition lru_impl (K V : Type) `{EqDecision K} : LruCache K V :=
  {| lru := t K V; lru_new c := {| cap := c; entries := [] |}; lru_cap := cap;
     lru_get := get; lru_put := put; lru_pop := pop; lru_iter := entries |}.

Lemma lru_impl_laws K V `{EqDecision K} : @LruLaws K V _ (lru_impl K V).
Proof.
  split; try done; intros k l; simpl; unfold get; by destruct (klookup k (entries l)).
Qed.

End ListLru.

(** ** [DecisionCache] *)
Record CacheKey : Type := {
  key_request_hash : string;
  key_bundle_version : string;
}.

#[global] Instance CacheKey_eq_dec : EqDecision CacheKey.
Proof. solve_decision. Defined.

Module DecisionCache.

Definition DEFAULT_CAPACITY : nat := 1024.

Section WithLru.
Context {Lru : LruCache CacheKey PolicyDecision}.

Definition new (capacity : nat) : lru :=
  lru_new (match capacity with 0 => DEFAULT_CAPACITY | _ => capacity end).

Definition get (key : CacheKey) (c : lru) : option PolicyDecision * lru := lru_get key c.

Definition put (key : CacheKey) (d : PolicyDecision) (c : lru)
    : option PolicyDecision * lru := lru_put key d c.

Definition of_bundle (v : string) (kv : CacheKey * PolicyDecision) : bool :=
  String.eqb (key_bundle_version kv.1) v.

Definition pop_all (keys : list CacheKey) (c : lru) : lru :=
  foldl (fun c k => (lru_pop k c).2) c keys.

Definition invalidate_for_bundle (v : string) (c : lru) : nat * lru :=
  let to_remove := (List.filter (of_bundle v) (lru_iter c)).*1 in
  (length to_remove, pop_all to_remove c).

Definition len (c : lru) : nat := length (lru_iter c).

(** Runs of a cache. *)
Inductive step : lru -> lru -> Prop :=
| step_get k c : step c (get k c).2
| step_put k d c : step c (put k d c).2
| step_invalidate v c : step c (invalidate_for_bundle v c).2.

(** Keys are distinct and the capacity, which is positive, is respected. *)
Definition wf (c : lru) : Prop :=
  NoDup (lru_iter c).*1 /\ length (lru_iter c) <= lru_cap c /\ 0 < lru_cap c.

Definition peek (k : CacheKey) (c : lru) : option PolicyDecision := klookup k (lru_iter c).

Context {Laws : LruLaws CacheKey PolicyDecision}.

(** *** Lemmas *)

Lemma new_wf n : wf (new n).
Proof.
  unfold wf, new. rewrite lru_iter_new, lru_cap_new.
  split_and!; [constructor|simpl; lia|]. destruct n; unfold DEFAULT_CAPACITY; lia.
Qed.

Lemma get_wf k c : wf c -> wf (get k c).2.
Proof.
  intros (Hn & Hl & Hc). unfold wf, get. rewrite lru_cap_get, lru_iter_get.
  destruct (klookup k (lru_iter c)) as [v|] eqn:E; [|done].
  apply klookup_Some_elem in E.
  assert (k ∈ (lru_iter c).*1) as Hk by (apply list_elem_of_fmap; by exists (k, v)).
  pose proof (kremove_length_lt _ _ Hk). split_and!; [|simpl; lia|done].
  rewrite fmap_cons. constructor; [apply kremove_notin|by apply kremove_NoDup].
Qed.

Lemma put_wf k d c : wf c -> wf (put k d c).2.
Proof.
  intros (Hn & Hl & Hc). unfold wf, put. rewrite lru_cap_put, lru_iter_put.
  destruct (klookup k (lru_iter c)) as [v|] eqn:E; (split_and!; [rewrite fmap_cons|simpl|done]).
  - constructor; [apply kremove_notin|by apply kremove_NoDup].
  - apply klookup_Some_elem in E.
    assert (k ∈ (lru_iter c).*1) as Hk by (apply list_elem_of_fmap; by exists (k, v)).
    pose proof (kremove_length_lt _ _ Hk). lia.
  - apply klookup_None in E. rewrite fmap_take. constructor.
    + intros H. apply E. by eapply subseteq_take.
    + by eapply sublist_NoDup, sublist_take.
  - rewrite length_take. lia.
Qed.

Lemma pop_all_iter ks c :
  lru_iter (pop_all ks c) = foldl (fun l k => kremove k l) (lru_iter c) ks /\
  lru_cap (pop_all ks c) = lru_cap c.
Proof.
  revert c. induction ks as [|k ks IH]; intros c; [done|]. simpl.
  destruct (IH (lru_pop k c).2) as [-> ->]. by rewrite lru_iter_pop, lru_cap_pop.
Qed.

Lemma foldl_kremove_filter (ks : list CacheKey) (l : list (CacheKey * PolicyDecision)) :
  foldl (fun l k => kremove k l) l ks = List.filter (fun kv => bool_decide (kv.1 ∉ ks)) l.
Proof.
  revert l. induction ks as [|k ks IH]; intros l; simpl.
  - symmetry. apply List.forallb_filter_id, forallb_elem. done.
  - rewrite IH. unfold kremove. induction l as [|[x v] l IHl]; [done|]. simpl.
    rewrite <-IHl. clear. repeat case_bool_decide; simpl in *; repeat case_bool_decide; set_solver.
Qed.

Lemma invalidate_iter v c :
  lru_iter (invalidate_for_bundle v c).2 =
    List.filter (fun kv => negb (of_bundle v kv)) (lru_iter c) /\
  lru_cap (invalidate_for_bundle v c).2 = lru_cap c.
Proof.
  unfold invalidate_for_bundle. cbn [snd].
  destruct (pop_all_iter ((List.filter (of_bundle v) (lru_iter c)).*1) c) as [-> ->].
  split; [|done]. rewrite foldl_kremove_filter. apply List.filter_ext_in.
  intros [k d] Hin. unfold of_bundle. simpl. case_bool_decide as E.
  - symmetry. apply negb_true_iff. destruct (String.eqb _ _) eqn:Ev; [|done].
    exfalso. apply E, list_elem_of_fmap. exists (k, d). split; [done|].
    apply list_elem_of_In, filter_In. done.
  - symmetry. apply negb_false_iff.
    apply list_elem_of_fmap in E as ([k' d'] & -> & E).
    by apply list_elem_of_In, filter_In in E as [_ E].
Qed.

Lemma klookup_filter (p : CacheKey -> bool) k (l : list (CacheKey * PolicyDecision)) :
  klookup k (List.filter (fun kv => p kv.1) l) = if p k then klookup k l else None.
Proof.
  induction l as [|[x d] l IH]; [by destruct (p k)|]. simpl.
  destruct (p x) eqn:E; rewrite ?klookup_cons, IH; repeat case_decide; subst;
    rewrite ?E; try done; by destruct (p k).
Qed.

Lemma filter_keys_NoDup p (l : list (CacheKey * PolicyDecision)) :
  NoDup l.*1 -> NoDup (List.filter p l).*1.
Proof.
  induction l as [|[x d] l IH]; [done|]. rewrite fmap_cons. simpl.
  intros [Hx Hn]%NoDup_cons. destruct (p (x, d)); [|auto].
  rewrite fmap_cons. constructor; [|auto]. simpl. intros H. apply Hx.
  apply list_elem_of_fmap in H as (kv & -> & H). apply list_elem_of_fmap. exists kv.
  split; [done|]. by apply list_elem_of_In, filter_In in H as [?%list_elem_of_In _].
Qed.

Lemma step_wf c c' : step c c' -> wf c -> wf c'.
Proof.
  destruct 1; [by apply get_wf|by apply put_wf|].
  unfold wf. destruct (invalidate_iter v c) as [-> ->]. intros (Hn & Hl & Hc).
  split_and!; [by apply filter_keys_NoDup| |done].
  pose proof (List.filter_length_le (fun kv => negb (of_bundle v kv)) (lru_iter c)). lia.
Qed.

(** *** Properties *)

(** In every run from a fresh cache the keys are distinct and the entry
    count never exceeds the configured capacity, which is positive even when
    zero was asked for. *)
Theorem cache_stays_bounded capacity c :
  rtc step (new capacity) c ->
  NoDup (lru_iter c).*1 /\ len c <= lru_cap c /\ 0 < lru_cap c.
Proof.
  intros H. assert (wf c); [|done].
  pose proof (new_wf capacity) as Hw. revert Hw. generalize dependent (new capacity).
  induction 1; eauto using step_wf.
Qed.

(** A cache hit returns the decision last put under that key and a lookup
    changes no entry; a put makes its key hit and changes no other key, except
    that it drops at most the least recently used one, and only when the cache
    is full and the key is new. *)
Theorem cache_get_put k k' d c :
  wf c ->
  (get k c).1 = peek k c /\ (forall k2, peek k2 (get k c).2 = peek k2 c) /\
  peek k (put k d c).2 = Some d /\
  (k' <> k -> peek k' (put k d c).2 = peek k' c \/
     (peek k' (put k d c).2 = None /\ peek k c = None /\ len c = lru_cap c /\
      exists d', last (lru_iter c) = Some (k', d'))).
Proof.
  intros (Hn & Hl & Hc). unfold get, put, peek, len. split_and!.
  - apply lru_get_value.
  - intros k2. rewrite lru_iter_get. destruct (klookup k (lru_iter c)) eqn:E; [|done].
    rewrite klookup_cons, klookup_kremove. repeat case_decide; congruence.
  - rewrite lru_iter_put, klookup_cons. by case_decide.
  - intros Hne. rewrite lru_iter_put, klookup_cons. case_decide; [congruence|].
    destruct (klookup k (lru_iter c)) eqn:E.
    { left. rewrite klookup_kremove. by case_decide. }
    set (l := lru_iter c) in *. set (n := lru_cap c) in *.
    destruct (decide (length l < n)) as [Hlt|Hge].
    { left. by rewrite take_ge by lia. }
    assert (length l = n) as Hfull by lia.
    destruct (klookup k' (take (n - 1) l)) as [d'|] eqn:Et.
    { left. symmetry. apply klookup_elem; [done|].
      apply klookup_Some_elem in Et. by eapply subseteq_take. }
    destruct (klookup k' l) as [d'|] eqn:El; [|by left]. right.
    split_and!; [done..|]. exists d'.
    apply klookup_Some_elem in El. rewrite <-(take_drop (n - 1) l) in El.
    apply elem_of_app in El as [El|El].
    { apply klookup_None in Et. exfalso. apply Et, list_elem_of_fmap. by exists (k', d'). }
    destruct (drop (n - 1) l) as [|x [|y r]] eqn:Ed; [set_solver| |].
    + apply list_elem_of_singleton in El as <-.
      rewrite <-(take_drop (n - 1) l), Ed. by rewrite last_snoc.
    + apply (f_equal length) in Ed. rewrite length_drop in Ed. simpl in Ed. lia.
Qed.

(** Invalidating a bundle version removes exactly its entries: every key
    of that version misses afterwards, every other key is unaffected, and the
    returned count is the number of entries removed. *)
Theorem invalidate_for_bundle_exact v k c :
  peek k (invalidate_for_bundle v c).2 =
    (if String.eqb (key_bundle_version k) v then None else peek k c) /\
  (invalidate_for_bundle v c).1 + len (invalidate_for_bundle v c).2 = len c.
Proof.
  unfold peek, len. destruct (invalidate_iter v c) as [-> _]. split.
  - unfold of_bundle.
    rewrite (klookup_filter (fun k => negb (String.eqb (key_bundle_version k) v))).
    by destruct (String.eqb (key_bundle_version k) v).
  - unfold invalidate_for_bundle. cbn [fst]. rewrite length_fmap.
    apply List.filter_length.
Qed.
End WithLru.

(** *** Witnesses, on [ListLru] *)
#[local] Instance list_lru : LruCache CacheKey PolicyDecision := ListLru.lru_impl _ _.
#[local] Instance list_lru_laws : LruLaws CacheKey PolicyDecision := ListLru.lru_impl_laws _ _.

Definition demo_key (h : string) : CacheKey :=
  {| key_request_hash := h; key_bundle_version := "polb_1" |}.

Definition demo_decision : PolicyDecision :=
  {| policy_decision_id := "poldec_01"; action_id := "act_01"; request_hash := "h";
     bundle_version := "polb_1"; enrichment_snapshot_id := ""; decision := Decision.Deny;
     reason_code := "DefaultDeny"; reason_message := ""; constraints := Constraints.default_;
     approval := default_approval; evidence_receipt_id := ""; evaluated_at := 0;
     rules_consulted := 0; simulated := false |}.

(** A full cache of two entries; "a" is the least recently used. *)
Definition demo_cache : lru :=
  (put (demo_key "b") demo_decision (put (demo_key "a") demo_decision (new 2)).2).2.

Lemma demo_cache_run : rtc step (new 2) demo_cache.
Proof. eapply rtc_l; [apply step_put|]. eapply rtc_l; [apply step_put|]. apply rtc_refl. Defined.

Lemma cache_stays_bounded_witness : len demo_cache <= 2.
Proof. apply (cache_stays_bounded 2 demo_cache demo_cache_run). Defined.

Lemma demo_cache_wf : wf demo_cache.
Proof. apply put_wf, put_wf, new_wf. Qed.

Lemma cache_get_put_witness :
  peek (demo_key "c") (put (demo_key "c") demo_decision demo_cache).2 = Some demo_decision.
Proof. apply (cache_get_put (demo_key "c") (demo_key "a") demo_decision demo_cache demo_cache_wf). Defined.

Lemma invalidate_for_bundle_exact_witness :
  (invalidate_for_bundle "polb_1" demo_cache).1 + len (invalidate_for_bundle "polb_1" demo_cache).2 = 2.
Proof. apply (invalidate_for_bundle_exact "polb_1" (demo_key "a") demo_cache). Defined.

End DecisionCache.
