(* ===== verification/Hydration.v ===== *)
(** * Subject hydration (crate [aios-policy], [subject_hydration.rs])

    The [SubjectHydrator] trait is a class, with the documented failure
    contract as its law; [InMemoryHydrator] is the implementation the crate
    ships.  The clock the implementation reads ([Utc::now()]) is an argument. *)
From S2P Require Import Prelude PolicyTypes.

(** ** The trait *)
Class SubjectHydrator (H : Type) := {
  hydrate : H -> DateTime -> string -> result PolicyError HydratedSubject;
}.

(** Implementations "fail closed with [SubjectUnauthenticated]". *)
Class SubjectHydratorLaws (H : Type) `{SubjectHydrator H} := {
  hydrate_fails_closed h now p e : hydrate h now p = Err e -> e = SubjectUnauthenticated;
}.

(** ** Records *)
Module HydratedRecord.

Record t : Type := {
  subject : HydratedSubject;
  valid_until : option DateTime;
  revoked : bool;
}.

Definition new (s : HydratedSubject) : t :=
  {| subject := s; valid_until := None; revoked := false |}.

Definition mark_revoked (r : t) : t :=
  {| subject := subject r; valid_until := valid_until r; revoked := true |}.

Definition with_expiry (a : DateTime) (r : t) : t :=
  {| subject := subject r; valid_until := Some a; revoked := revoked r |}.

Definition is_currently_valid (now : DateTime) (r : t) : bool :=
  if revoked r then false
  else match valid_until r with None => true | Some t => (now <? t)%Z end.

End HydratedRecord.

(** ** The in-memory hydrator *)
Module InMemoryHydrator.

Record t : Type := { records : gmap string HydratedRecord.t }.

Definition new : t := {| records := ∅ |}.

Definition insert_ (provisional : string) (r : HydratedRecord.t) (h : t) : t :=
  {| records := <[provisional := r]> (records h) |}.

Definition len (h : t) : nat := size (records h).

Definition hydrate_ (h : t) (now : DateTime) (provisional : string)
    : result PolicyError HydratedSubject :=
  let? record := ok_or (records h !! provisional) SubjectUnauthenticated in
  if negb (HydratedRecord.is_currently_valid now record) then Err SubjectUnauthenticated
  else Ok (HydratedRecord.subject record).

#[global] Instance hydrator : SubjectHydrator t := {| hydrate := hydrate_ |}.

Definition fixture (id : string) (ty : SubjectType) (gs : list string) (ai : bool) : HydratedSubject :=
  {| canonical_subject_id := id; subject_type := ty; groups := gs; capabilities := [];
     session_class := "INTERNAL"; recovery_mode := false; is_ai := ai |}.

Definition with_fixtures : t :=
  insert_ "service:systemd" (HydratedRecord.new
    (fixture "service:systemd:01HX3333333333333333333333" Service ["system"] false))
  (insert_ "application:planner" (HydratedRecord.new
    (fixture "application:planner:01HX2222222222222222222222" Application ["apps"] true))
  (insert_ "agent:dev" (HydratedRecord.new
    (fixture "agent:dev:01HX1111111111111111111111" Agent ["cognitive-core"] true))
  (insert_ "human:lucky" (HydratedRecord.new
    (fixture "human:lucky:01HX0000000000000000000000" Human ["operators"] false))
  new))).

(** A record the identity store would accept at [now]. *)
Definition live (now : DateTime) (r : HydratedRecord.t) : Prop :=
  HydratedRecord.revoked r = false /\
  forall t, HydratedRecord.valid_until r = Some t -> (now < t)%Z.

(** *** Lemmas *)

Lemma is_currently_valid_live now r :
  HydratedRecord.is_currently_valid now r = true <-> live now r.
Proof.
  unfold HydratedRecord.is_currently_valid, live.
  destruct (HydratedRecord.revoked r), (HydratedRecord.valid_until r) as [t|];
    rewrite ?Z.ltb_lt; naive_solver.
Qed.

Lemma hydrate_ok h now p s :
  hydrate_ h now p = Ok s <->
  exists r, records h !! p = Some r /\ live now r /\ HydratedRecord.subject r = s.
Proof.
  unfold hydrate_. rewrite result_bind_ok. setoid_rewrite ok_or_ok.
  split; intros (r & Hr & H); exists r; (split; [done|]).
  - destruct (HydratedRecord.is_currently_valid now r) eqn:E; [|done].
    apply is_currently_valid_live in E. by injection H as <-.
  - destruct H as [E%is_currently_valid_live <-]. by rewrite E.
Qed.

#[global] Instance hydrator_laws : SubjectHydratorLaws t.
Proof.
  split. intros h now p e. unfold hydrate. simpl. unfold hydrate_.
  destruct (records h !! p) as [r|]; simpl; [|by intros [= <-]].
  destruct (HydratedRecord.is_currently_valid now r); simpl; [done|by intros [= <-]].
Qed.

(** *** Properties *)

(** Hydration succeeds exactly on a known record that is neither revoked
    nor expired at the instant of the call, and then returns the stored
    subject; every other case is the single error [SubjectUnauthenticated].
    A subject that is rejected at [now] is rejected at every later instant,
    and inserting a record under one id leaves every other id's outcome as it
    was. *)
Theorem hydrate_exact h now p :
  (forall s, hydrate h now p = Ok s <->
     exists r, records h !! p = Some r /\ live now r /\ HydratedRecord.subject r = s) /\
  (forall e, hydrate h now p = Err e -> e = SubjectUnauthenticated) /\
  (forall later, (now <= later)%Z -> is_ok (hydrate h later p) = true ->
     hydrate h later p = hydrate h now p) /\
  (forall q r, q <> p -> hydrate (insert_ q r h) now p = hydrate h now p).
Proof.
  split_and!.
  - intros s. apply hydrate_ok.
  - apply hydrate_fails_closed.
  - intros later Hle Hok. destruct (hydrate h later p) as [s|] eqn:E; [|done].
    symmetry. apply hydrate_ok. apply hydrate_ok in E as (r & Hr & [Hv Ht] & Hs).
    exists r. split_and!; [done| |done]. split; [done|]. intros t H. specialize (Ht t H). lia.
  - intros q r Hne. unfold hydrate. simpl. unfold hydrate_, insert_. simpl.
    by rewrite lookup_insert_ne.
Qed.

(** In the fixture store a subject is flagged as AI exactly when its type
    is an agent or an application, and the four known ids always hydrate. *)
Theorem fixtures_ai_flag now p s :
  hydrate with_fixtures now p = Ok s ->
  p ∈ ["human:lucky"; "agent:dev"; "application:planner"; "service:systemd"] /\
  (is_ai s = true <-> subject_type s = Agent \/ subject_type s = Application).
Proof.
  intros (r & Hr & _ & <-)%hydrate_ok. unfold with_fixtures, insert_ in Hr. simpl in Hr.
  repeat (apply lookup_insert_Some in Hr as [[<- <-]|[_ Hr]]; [simpl; split; [set_solver|naive_solver]|]).
  by rewrite lookup_empty in Hr.
Qed.

Lemma fixtures_ai_flag_witness :
  is_ai (fixture "agent:dev:01HX1111111111111111111111" Agent ["cognitive-core"] true) = true <->
  (Agent = Agent \/ Agent = Application).
Proof.
  apply (fixtures_ai_flag 7 "agent:dev"
           (fixture "agent:dev:01HX1111111111111111111111" Agent ["cognitive-core"] true)).
  vm_compute. reflexivity.
Defined.

End InMemoryHydrator.
