(* ===== verification/Explain.v ===== *)
(** * The decision log (crate [aios-policy], [explain.rs])

    [DecisionLog] is a hash map and a queue kept in step by [record]; the
    refinement theorem relates the pair to a plain list of the most recent
    [capacity] paths.  [SharedDecisionLog] takes a lock around each call and
    adds no state, so its operations are those of the log. *)
From S2P Require Import Prelude PolicyTypes.

(** [impl Debug for Decision] (derived). *)
Definition decision_debug (d : Decision.t) : string :=
  match d with
  | Decision.Unspecified => "Unspecified"
  | Decision.Allow => "Allow"
  | Decision.RequireApproval => "RequireApproval"
  | Decision.Deny => "Deny"
  end.

Module DecisionPath.

Record t : Type := {
  path_decision : PolicyDecision;
  rule_chain : list string;
  narrative : string;
}.

Definition from_decision (d : PolicyDecision) : t :=
  {| path_decision := d; rule_chain := [];
     narrative := "decision=" +:+ decision_debug (decision d) +:+ " reason=" +:+ reason_code d
                  +:+ " rules_consulted=" +:+ pretty (rules_consulted d) |}.

Definition with_rule_chain (chain : list string) (p : t) : t :=
  {| path_decision := path_decision p; rule_chain := chain; narrative := narrative p |}.

Definition with_narrative (n : string) (p : t) : t :=
  {| path_decision := path_decision p; rule_chain := rule_chain p; narrative := n |}.

Definition id (p : t) : string := policy_decision_id (path_decision p).

End DecisionPath.

Module DecisionLog.

Definition DEFAULT_LOG_CAPACITY : nat := 1024.

Record t : Type := {
  capacity : nat;
  map : gmap string DecisionPath.t;
  queue : list string;
}.

Definition with_capacity (c : nat) : t :=
  let cap := if Nat.eqb c 0 then DEFAULT_LOG_CAPACITY else c in
  {| capacity := cap; map := ∅; queue := [] |}.

(** The eviction step: [pop_front] of the queue and its entry. *)
Definition evict_oldest (l : t) : t :=
  if Nat.leb (capacity l) (size (map l)) then
    match queue l with
    | oldest :: q => {| capacity := capacity l; map := delete oldest (map l); queue := q |}
    | [] => l
    end
  else l.

Definition record (path : DecisionPath.t) (l : t) : t :=
  let id := DecisionPath.id path in
  match map l !! id with
  | Some _ => {| capacity := capacity l; map := <[id := path]> (map l); queue := queue l |}
  | None =>
      let l := evict_oldest l in
      {| capacity := capacity l; map := <[id := path]> (map l); queue := queue l ++ [id] |}
  end.

Definition get (i : string) (l : t) : option DecisionPath.t := map l !! i.

Definition len (l : t) : nat := size (map l).

(** The queue lists each key of the map once, oldest first. *)
Definition wf (l : t) : Prop :=
  dom (map l) = list_to_set (queue l) /\ NoDup (queue l) /\
  length (queue l) <= capacity l /\ 0 < capacity l /\
  (forall i p, map l !! i = Some p -> DecisionPath.id p = i).

Definition record_all (ps : list DecisionPath.t) (l : t) : t := foldl (fun l p => record p l) l ps.

(** The specification: the paths themselves, oldest first.  A known id is
    overwritten in place; otherwise the path is appended and the window moves. *)
Definition overwrite (p q : DecisionPath.t) : DecisionPath.t :=
  if decide (DecisionPath.id q = DecisionPath.id p) then p else q.

Definition spec_record (cap : nat) (p : DecisionPath.t) (w : list DecisionPath.t) : list DecisionPath.t :=
  if decide (DecisionPath.id p ∈ DecisionPath.id <$> w) then overwrite p <$> w
  else drop (length w + 1 - cap) (w ++ [p]).

(** [window l w]: the log [l] holds the paths [w], in this order. *)
Definition window (l : t) (w : list DecisionPath.t) : Prop :=
  queue l = DecisionPath.id <$> w /\
  (forall p, p ∈ w -> map l !! DecisionPath.id p = Some p).

(** *** Lemmas *)

Lemma wf_size l : wf l -> size (map l) = length (queue l).
Proof.
  intros (Hd & Hn & _). rewrite <-size_dom, Hd. by apply size_list_to_set.
Qed.

Lemma wf_elem l i : wf l -> i ∈ queue l <-> is_Some (map l !! i).
Proof. intros (Hd & _). rewrite <-elem_of_dom, Hd. by rewrite elem_of_list_to_set. Qed.

Lemma with_capacity_wf c : wf (with_capacity c).
Proof.
  unfold wf, with_capacity. simpl. split_and!; try done; try constructor; try lia.
  destruct (Nat.eqb_spec c 0); unfold DEFAULT_LOG_CAPACITY; lia.
Qed.

Lemma evict_oldest_wf l :
  wf l -> wf (evict_oldest l) /\ length (queue (evict_oldest l)) < capacity l /\
  capacity (evict_oldest l) = capacity l /\
  queue (evict_oldest l) = drop (length (queue l) + 1 - capacity l) (queue l) /\
  map (evict_oldest l) ⊆ map l.
Proof.
  intros Hw. pose proof (wf_size l Hw) as Hs. unfold evict_oldest. rewrite Hs.
  destruct Hw as (Hd & Hn & Hl & Hc & Hi).
  destruct (Nat.leb_spec (capacity l) (length (queue l))).
  - destruct (queue l) as [|x q] eqn:E; simpl in *; [lia|].
    replace (S (length q + 1) - capacity l) with 1 by lia.
    apply NoDup_cons in Hn as [Hx Hn]. unfold wf. simpl.
    split_and!; try done; try lia.
    + rewrite dom_delete_L, Hd. set_solver.
    + intros i p [_ Hp]%lookup_delete_Some. auto.
    + apply delete_subseteq.
  - replace (length (queue l) + 1 - capacity l) with 0 by lia. by unfold wf.
Qed.

Lemma record_wf p l : wf l -> wf (record p l).
Proof.
  intros Hw. unfold record. destruct (map l !! DecisionPath.id p) eqn:E.
  - destruct Hw as (Hd & Hn & Hl & Hc & Hi). unfold wf. simpl. split_and!; try done.
    + apply elem_of_dom_2 in E. rewrite dom_insert_L, Hd. set_solver.
    + intros i q [[<- <-]|[_ Hq]]%lookup_insert_Some; auto.
  - destruct (evict_oldest_wf l Hw) as ((Hd & Hn & Hl & Hc & Hi) & Hlt & Hcap & _ & Hsub).
    unfold wf. cbn [capacity map queue].
    assert (DecisionPath.id p ∉ queue (evict_oldest l)) as Hnew.
    { intros H. apply (wf_elem (evict_oldest l)) in H; [|by unfold wf]. destruct H as [q Hq].
      eapply lookup_weaken in Hq; [|done]. congruence. }
    split_and!; try done.
    + rewrite dom_insert_L, Hd, list_to_set_app_L. set_solver.
    + apply NoDup_app. split_and!; [done| |apply NoDup_singleton]. set_solver.
    + rewrite length_app. simpl. lia.
    + intros i q [[<- <-]|[_ Hq]]%lookup_insert_Some; auto.
Qed.

Lemma record_capacity p l : capacity (record p l) = capacity l.
Proof.
  unfold record, evict_oldest. repeat case_match; done.
Qed.

Lemma overwrite_id p q : DecisionPath.id (overwrite p q) = DecisionPath.id q.
Proof. unfold overwrite. by case_decide. Qed.

Lemma record_window p l w :
  wf l -> window l w -> window (record p l) (spec_record (capacity l) p w).
Proof.
  intros Hw [Hq Hm]. pose proof (wf_elem l (DecisionPath.id p) Hw) as Hin. rewrite Hq in Hin.
  unfold record, spec_record. destruct (map l !! DecisionPath.id p) as [q|] eqn:E.
  - rewrite decide_True by (apply Hin; eauto). split; simpl.
    + rewrite Hq, <-list_fmap_compose. apply list_fmap_ext. intros. simpl. by rewrite overwrite_id.
    + intros x (y & -> & Hy)%list_elem_of_fmap. rewrite overwrite_id. unfold overwrite.
      case_decide as Ey; [by rewrite Ey, lookup_insert_eq|].
      rewrite lookup_insert_ne by congruence. auto.
  - rewrite decide_False by (intros H%Hin; by destruct H).
    destruct (evict_oldest_wf l Hw) as (Hw' & Hlt & Hcap & Hqe & Hsub).
    assert (length (queue l) = length w) as Hlen by (by rewrite Hq, length_fmap).
    assert (length w + 1 - capacity l <= length w) as Hle by (destruct Hw; lia).
    rewrite drop_app_le by done. split; cbn [map queue].
    + by rewrite Hqe, Hlen, Hq, fmap_app, fmap_drop.
    + intros x [Hx|Hx]%elem_of_app;
        [|apply list_elem_of_singleton in Hx as ->; by rewrite lookup_insert_eq].
      assert (x ∈ w) as Hxw by (by eapply subseteq_drop).
      rewrite lookup_insert_ne by (intros Heq; rewrite Heq, (Hm x Hxw) in E; done).
      assert (DecisionPath.id x ∈ queue (evict_oldest l)) as [y Hy]%(wf_elem _ _ Hw').
      { rewrite Hqe, Hlen, Hq, <-fmap_drop. by apply list_elem_of_fmap_2. }
      rewrite Hy. eapply lookup_weaken in Hy; [|done]. rewrite <-Hy. auto.
Qed.

(** *** Properties *)

(** The log implements its specification: recording a sequence of paths
    into a fresh log leaves exactly the window the list specification
    computes (a known id overwritten in place, otherwise appended with the
    oldest paths beyond the capacity dropped), the map and the queue agree on
    their keys, no key is queued twice and the capacity is never exceeded. *)
Theorem decision_log_refines c ps :
  let l0 := with_capacity c in
  let l := record_all ps l0 in
  let w := foldl (fun w p => spec_record (capacity l0) p w) [] ps in
  wf l /\ window l w /\ capacity l = capacity l0 /\
  (forall i p, get i l = Some p <-> p ∈ w /\ DecisionPath.id p = i).
Proof.
  intros l0.
  cut (forall l w, wf l -> window l w -> capacity l = capacity l0 ->
    let l' := record_all ps l in
    let w' := foldl (fun w p => spec_record (capacity l0) p w) w ps in
    wf l' /\ window l' w' /\ capacity l' = capacity l0).
  - intros H. destruct (H l0 [] (with_capacity_wf c)) as (Hw & Hwin & Hc); [split; [done|set_solver]|done|].
    simpl. split_and!; [done..|]. intros i p. destruct Hwin as [Hq Hm]. unfold get. split.
    + intros Hp. pose proof Hw as (_ & _ & _ & _ & Hi). split; [|by eapply Hi].
      assert (i ∈ queue (record_all ps l0)) as Hin by (apply wf_elem; eauto).
      rewrite Hq in Hin. apply list_elem_of_fmap in Hin as (q & -> & Hin).
      specialize (Hm q Hin). rewrite Hp in Hm. by injection Hm as ->.
    + intros [Hp <-]. auto.
  - induction ps as [|p ps IH]; intros l w Hw Hwin Hc; [done|]. apply IH; clear IH.
    + by apply record_wf.
    + rewrite <-Hc. by apply record_window.
    + by rewrite record_capacity.
Qed.

(** A recorded decision is explained: looking up the id just recorded
    returns that path, another id keeps its answer unless it was the oldest of
    a full log. *)
Theorem record_get_roundtrip p l i :
  wf l ->
  get (DecisionPath.id p) (record p l) = Some p /\
  (i <> DecisionPath.id p ->
   get i (record p l) = get i l \/
   (head (queue l) = Some i /\ len l = capacity l /\ get (DecisionPath.id p) l = None)).
Proof.
  intros Hw. unfold get, record, len. split.
  - case_match; simpl; by rewrite lookup_insert_eq.
  - intros Hne. destruct (map l !! DecisionPath.id p) eqn:E; simpl.
    { left. by rewrite lookup_insert_ne. }
    rewrite lookup_insert_ne by done. rewrite (wf_size l Hw). unfold evict_oldest.
    rewrite (wf_size l Hw). destruct Hw as (_ & _ & Hl & _).
    destruct (Nat.leb_spec (capacity l) (length (queue l))) as [Hc|Hc]; [|by left].
    destruct (queue l) as [|x q]; [by left|]. simpl in *.
    destruct (decide (x = i)) as [->|Hx]; [right; split_and!; [done|lia|done]|].
    left. by rewrite lookup_delete_ne.
Qed.

Definition demo_path (i : string) : DecisionPath.t :=
  DecisionPath.from_decision
    {| policy_decision_id := i; action_id := "act_01"; request_hash := "h";
       bundle_version := "polb_1"; enrichment_snapshot_id := ""; decision := Decision.Deny;
       reason_code := "DefaultDeny"; reason_message := ""; constraints := Constraints.default_;
       approval := default_approval; evidence_receipt_id := ""; evaluated_at := 0;
       rules_consulted := 0; simulated := false |}.

Lemma record_get_roundtrip_witness :
  get "d1" (record (demo_path "d1") (with_capacity 2)) = Some (demo_path "d1").
Proof. apply (record_get_roundtrip (demo_path "d1") (with_capacity 2) "d2"), with_capacity_wf. Defined.

End DecisionLog.
