(* ===== verification/Conditions.v ===== *)
(** * The conditions language: syntax (crate [aios-policy], [conditions.rs])

    The abstract syntax of rule conditions: a conjunction of predicates over a
    closed field vocabulary.  The parser is in [CondParser], the evaluator in
    [CondEval]. *)
From S2P Require Import Prelude Json.

(** ** Namespaces *)
Module Namespace.

Inductive t : Type := Subject | Request | Target | Object | Time | System.

#[global] Instance t_eq_dec : EqDecision t.
Proof. solve_decision. Defined.

Definition as_str (n : t) : string :=
  match n with
  | Subject => "subject" | Request => "request" | Target => "target"
  | Object => "object" | Time => "time" | System => "system"
  end.

Definition from_token (s : string) : option t :=
  if String.eqb s "subject" then Some Subject
  else if String.eqb s "request" then Some Request
  else if String.eqb s "target" then Some Target
  else if String.eqb s "object" then Some Object
  else if String.eqb s "time" then Some Time
  else if String.eqb s "system" then Some System
  else None.

End Namespace.

(** ** Fields *)
Module ClosedField.

Inductive t : Type :=
| SubjectCanonicalSubjectId
| SubjectSubjectType
| SubjectGroups
| SubjectCapabilities
| SubjectSessionClass
| SubjectRecoveryMode
| SubjectIsAi
| SubjectPrimaryGroupId
| SubjectIsFirstBoot
| SubjectNetworkOutboundDirective
| SubjectAiExternalPosture
| RequestAction
| RequestEnvironment
| RequestRiskDestructive
| RequestRiskPrivileged
| RequestRiskNetworkExposure
| RequestRiskSecretAccess
| RequestRiskRecoveryPathAffected
| RequestDryRun
| RequestSandboxProfileId
| TargetScope
| TargetGroupId
| TargetUserId
| TargetReservedName
| TargetIsConstitutionalSubstrate
| TargetSurfaceKind
| TargetCompositionZone
| TargetGpuCapabilityClass
| TargetGpuDeviceKind
| TargetThemeKind
| TargetThemeId
| TargetExposureClass
| TargetDeviceClass
| TargetDeviceTrustClass
| TargetRemovable
| TargetDriverProvenance
| TargetFirmwareTrusted
| TargetAdapterDeclared (sub : string)
| ObjectPrivacyClass
| ObjectPolicyTags
| ObjectKind
| ObjectLifecycleState
| ObjectCreatedBy
| TimeRecoveryMode
| TimeWeekday
| TimeHourUtc
| SystemHostId
| SystemClusterId
| SystemReleaseChannel.

#[global] Instance t_eq_dec : EqDecision t.
Proof. solve_decision. Defined.

Definition namespace (f : t) : Namespace.t :=
  match f with
  | SubjectCanonicalSubjectId | SubjectSubjectType | SubjectGroups | SubjectCapabilities
    | SubjectSessionClass | SubjectRecoveryMode | SubjectIsAi | SubjectPrimaryGroupId
    | SubjectIsFirstBoot | SubjectNetworkOutboundDirective | SubjectAiExternalPosture => Namespace.Subject
  | RequestAction | RequestEnvironment | RequestRiskDestructive | RequestRiskPrivileged
    | RequestRiskNetworkExposure | RequestRiskSecretAccess
    | RequestRiskRecoveryPathAffected | RequestDryRun | RequestSandboxProfileId => Namespace.Request
  | TargetScope | TargetGroupId | TargetUserId | TargetReservedName
    | TargetIsConstitutionalSubstrate | TargetSurfaceKind | TargetCompositionZone
    | TargetGpuCapabilityClass | TargetGpuDeviceKind | TargetThemeKind | TargetThemeId
    | TargetExposureClass | TargetDeviceClass | TargetDeviceTrustClass | TargetRemovable
    | TargetDriverProvenance | TargetFirmwareTrusted | TargetAdapterDeclared _ => Namespace.Target
  | ObjectPrivacyClass | ObjectPolicyTags | ObjectKind | ObjectLifecycleState
    | ObjectCreatedBy => Namespace.Object
  | TimeRecoveryMode | TimeWeekday | TimeHourUtc => Namespace.Time
  | SystemHostId | SystemClusterId | SystemReleaseChannel => Namespace.System
  end.

(** The registered sub-paths of each namespace, in the order of the arms of
    [ClosedField::resolve]. *)
Definition vocabulary (ns : Namespace.t) : list (string * t) :=
  match ns with
  | Namespace.Subject =>
      [("canonical_subject_id", SubjectCanonicalSubjectId);
       ("subject_type", SubjectSubjectType);
       ("groups", SubjectGroups);
       ("capabilities", SubjectCapabilities);
       ("session_class", SubjectSessionClass);
       ("recovery_mode", SubjectRecoveryMode);
       ("is_ai", SubjectIsAi);
       ("primary_group_id", SubjectPrimaryGroupId);
       ("is_first_boot", SubjectIsFirstBoot);
       ("network_outbound_directive", SubjectNetworkOutboundDirective);
       ("ai_external_posture", SubjectAiExternalPosture)]
  | Namespace.Request =>
      [("action", RequestAction);
       ("environment", RequestEnvironment);
       ("risk.destructive", RequestRiskDestructive);
       ("risk.privileged", RequestRiskPrivileged);
       ("risk.network_exposure", RequestRiskNetworkExposure);
       ("risk.secret_access", RequestRiskSecretAccess);
       ("risk.recovery_path_affected", RequestRiskRecoveryPathAffected);
       ("dry_run", RequestDryRun);
       ("sandbox_profile_id", RequestSandboxProfileId)]
  | Namespace.Target =>
      [("scope", TargetScope);
       ("group_id", TargetGroupId);
       ("user_id", TargetUserId);
       ("reserved_name", TargetReservedName);
       ("is_constitutional_substrate", TargetIsConstitutionalSubstrate);
       ("surface_kind", TargetSurfaceKind);
       ("composition_zone", TargetCompositionZone);
       ("gpu_capability_class", TargetGpuCapabilityClass);
       ("gpu_device_kind", TargetGpuDeviceKind);
       ("theme_kind", TargetThemeKind);
       ("theme_id", TargetThemeId);
       ("exposure_class", TargetExposureClass);
       ("device_class", TargetDeviceClass);
       ("device_trust_class", TargetDeviceTrustClass);
       ("removable", TargetRemovable);
       ("driver_provenance", TargetDriverProvenance);
       ("firmware_trusted", TargetFirmwareTrusted)]
  | Namespace.Object =>
      [("privacy_class", ObjectPrivacyClass);
       ("policy_tags", ObjectPolicyTags);
       ("kind", ObjectKind);
       ("lifecycle_state", ObjectLifecycleState);
       ("created_by", ObjectCreatedBy)]
  | Namespace.Time =>
      [("recovery_mode", TimeRecoveryMode);
       ("weekday", TimeWeekday);
       ("hour_utc", TimeHourUtc)]
  | Namespace.System =>
      [("host_id", SystemHostId);
       ("cluster_id", SystemClusterId);
       ("release_channel", SystemReleaseChannel)]
  end.

(** [ClosedField::resolve]: the first matching arm; any other sub-path of
    [target] is adapter-declared, elsewhere it is unknown. *)
Definition resolve (ns : Namespace.t) (subpath : string) : option t :=
  match assoc subpath (vocabulary ns), ns with
  | Some f, _ => Some f
  | None, Namespace.Target => Some (TargetAdapterDeclared subpath)
  | None, _ => None
  end.

Definition as_dotted (f : t) : string :=
  match f with
  | SubjectCanonicalSubjectId => "subject.canonical_subject_id"
  | SubjectSubjectType => "subject.subject_type"
  | SubjectGroups => "subject.groups"
  | SubjectCapabilities => "subject.capabilities"
  | SubjectSessionClass => "subject.session_class"
  | SubjectRecoveryMode => "subject.recovery_mode"
  | SubjectIsAi => "subject.is_ai"
  | SubjectPrimaryGroupId => "subject.primary_group_id"
  | SubjectIsFirstBoot => "subject.is_first_boot"
  | SubjectNetworkOutboundDirective => "subject.network_outbound_directive"
  | SubjectAiExternalPosture => "subject.ai_external_posture"
  | RequestAction => "request.action"
  | RequestEnvironment => "request.environment"
  | RequestRiskDestructive => "request.risk.destructive"
  | RequestRiskPrivileged => "request.risk.privileged"
  | RequestRiskNetworkExposure => "request.risk.network_exposure"
  | RequestRiskSecretAccess => "request.risk.secret_access"
  | RequestRiskRecoveryPathAffected => "request.risk.recovery_path_affected"
  | RequestDryRun => "request.dry_run"
  | RequestSandboxProfileId => "request.sandbox_profile_id"
  | TargetScope => "target.scope"
  | TargetGroupId => "target.group_id"
  | TargetUserId => "target.user_id"
  | TargetReservedName => "target.reserved_name"
  | TargetIsConstitutionalSubstrate => "target.is_constitutional_substrate"
  | TargetSurfaceKind => "target.surface_kind"
  | TargetCompositionZone => "target.composition_zone"
  | TargetGpuCapabilityClass => "target.gpu_capability_class"
  | TargetGpuDeviceKind => "target.gpu_device_kind"
  | TargetThemeKind => "target.theme_kind"
  | TargetThemeId => "target.theme_id"
  | TargetExposureClass => "target.exposure_class"
  | TargetDeviceClass => "target.device_class"
  | TargetDeviceTrustClass => "target.device_trust_class"
  | TargetRemovable => "target.removable"
  | TargetDriverProvenance => "target.driver_provenance"
  | TargetFirmwareTrusted => "target.firmware_trusted"
  | TargetAdapterDeclared sub => "target." +:+ sub
  | ObjectPrivacyClass => "object.privacy_class"
  | ObjectPolicyTags => "object.policy_tags"
  | ObjectKind => "object.kind"
  | ObjectLifecycleState => "object.lifecycle_state"
  | ObjectCreatedBy => "object.created_by"
  | TimeRecoveryMode => "time.recovery_mode"
  | TimeWeekday => "time.weekday"
  | TimeHourUtc => "time.hour_utc"
  | SystemHostId => "system.host_id"
  | SystemClusterId => "system.cluster_id"
  | SystemReleaseChannel => "system.release_channel"
  end.

(** The fields that have a spelling: an adapter-declared field is not spelled
    like a registered one. *)
Definition canonical (f : t) : Prop :=
  match f with
  | TargetAdapterDeclared sub => assoc sub (vocabulary Namespace.Target) = None
  | _ => True
  end.

Lemma vocabulary_sound ns sub f :
  assoc sub (vocabulary ns) = Some f ->
  namespace f = ns /\ as_dotted f = Namespace.as_str ns +:+ "." +:+ sub /\ canonical f.
Proof.
  destruct ns; cbn [vocabulary assoc]; intros H;
  repeat match type of H with
  | (if String.eqb sub ?k then _ else _) = _ =>
      destruct (String.eqb_spec sub k) as [->|]; [injection H as <-; split_and!; first [reflexivity|exact I]|]
  end; done.
Qed.

Lemma resolve_sound ns sub f :
  resolve ns sub = Some f ->
  namespace f = ns /\ as_dotted f = Namespace.as_str ns +:+ "." +:+ sub /\ canonical f.
Proof.
  unfold resolve. destruct (assoc sub (vocabulary ns)) as [g|] eqn:E.
  - intros [= <-]. by apply vocabulary_sound.
  - destruct ns; try done. intros [= <-]. simpl. split_and!; done.
Qed.

Lemma resolve_complete f :
  canonical f ->
  exists sub, as_dotted f = Namespace.as_str (namespace f) +:+ "." +:+ sub /\
              resolve (namespace f) sub = Some f.
Proof.
  destruct f; intros H;
  lazymatch goal with
  | |- context [TargetAdapterDeclared ?s] =>
      exists s; split; [done|]; unfold resolve; cbn [namespace]; cbn [canonical] in H; by rewrite H
  | |- exists sub, ?d = Namespace.as_str ?n +:+ "." +:+ sub /\ _ =>
      let r := eval vm_compute in (strip_prefix (Namespace.as_str n +:+ ".") d) in
      match r with Some ?s => exists s; split; vm_compute; reflexivity end
  end.
Qed.

(** ** Properties *)

(** The closed vocabulary is a dictionary: resolving a sub-path in a
    namespace gives a field of that namespace whose dotted form is exactly
    [namespace.subpath], so no two spellings give one field; every field with a
    spelling is found from its dotted form; and the only open namespace is
    [target], where every sub-path resolves. *)
Theorem vocabulary_is_a_dictionary :
  (forall ns sub f, resolve ns sub = Some f ->
     namespace f = ns /\ as_dotted f = Namespace.as_str ns +:+ "." +:+ sub) /\
  (forall f, canonical f -> exists sub,
     as_dotted f = Namespace.as_str (namespace f) +:+ "." +:+ sub /\
     resolve (namespace f) sub = Some f) /\
  (forall sub, resolve Namespace.Target sub <> None) /\
  (forall ns, Namespace.from_token (Namespace.as_str ns) = Some ns) /\
  (forall s ns, Namespace.from_token s = Some ns -> s = Namespace.as_str ns).
Proof.
  split_and!.
  - intros ns sub f H. apply resolve_sound in H as (? & ? & _). done.
  - apply resolve_complete.
  - intros sub. unfold resolve. by destruct (assoc _ _).
  - by intros [].
  - intros s ns. unfold Namespace.from_token.
    repeat match goal with |- context [String.eqb s ?k] =>
      destruct (String.eqb_spec s k) as [->|]; [by intros [= <-]|] end. done.
Qed.

End ClosedField.

(** ** Literals, operators, predicates *)
Inductive Value : Type :=
| VString (s : string)
| VIdentifier (s : string)
| VInt (z : Z)
| VBool (b : bool)
| VTimestamp (s : string).

(** [Value::type_name]. *)
Definition value_type_name (v : Value) : string :=
  match v with
  | VString _ => "string" | VIdentifier _ => "identifier" | VInt _ => "int"
  | VBool _ => "bool" | VTimestamp _ => "timestamp"
  end.

Module CompareOp.

Inductive t : Type := Eq | Neq | Lt | Lte | Gt | Gte.

#[global] Instance t_eq_dec : EqDecision t.
Proof. solve_decision. Defined.

Definition as_str (o : t) : string :=
  match o with
  | Eq => "=" | Neq => "!=" | Lt => "<" | Lte => "<=" | Gt => ">" | Gte => ">="
  end.

End CompareOp.

Module Predicate.

Inductive t : Type :=
| Compare (field : ClosedField.t) (op : CompareOp.t) (rhs : Value)
| In (field : ClosedField.t) (values : list Value)
| Contains (field : ClosedField.t) (needle : string)
| Exists (field : ClosedField.t).

End Predicate.

(** [Condition]: the conjunction of its predicates. *)
Record Condition : Type := { predicates : list Predicate.t }.

Definition empty_condition : Condition := {| predicates := [] |}.

Definition conjunction (ps : list Predicate.t) : Condition := {| predicates := ps |}.
