(* ===== verification/CondParser.v ===== *)
(** * The conditions language: parser (crate [aios-policy],
    [conditions_parser.rs])

    The recursive-descent parser, on the bytes of the source.  The parser's
    state is the byte offset [pos]; here it is the rest of the source, so that
    [pos] is the source length less its length ([pos_of]).  A Rust [str] is
    valid UTF-8: [chars().next()] is compared with ASCII characters only, for
    which the lead byte decides; where a whole character is skipped (inside a
    string literal) its continuation bytes, which are neither a quote nor a
    backslash, are skipped one by one.

    Loops that are not structural take fuel; [None] means that it ran out.
    [parse_fuel_total] shows that the fuel given always suffices, and [parse]
    is the function without the option. *)
From S2P Require Import Prelude Json Conditions.

(** ** Characters *)
Definition dquote : ascii := "034"%char.
Definition backslash : ascii := "092"%char.
Definition newline : ascii := "010"%char.

Definition in_range (lo hi : nat) (a : ascii) : bool :=
  let n := nat_of_ascii a in (lo <=? n)%nat && (n <=? hi)%nat.

Definition is_ascii_digit (a : ascii) : bool := in_range 48 57 a.
Definition is_ascii_alphabetic (a : ascii) : bool := in_range 65 90 a || in_range 97 122 a.
Definition is_ident_start (a : ascii) : bool := is_ascii_alphabetic a || Ascii.eqb a "_".
Definition is_ident_continue (a : ascii) : bool :=
  is_ascii_alphabetic a || is_ascii_digit a || Ascii.eqb a "_".

(** A byte that continues a UTF-8 character. *)
Definition is_continuation (a : ascii) : bool := in_range 128 191 a.

(** [char::is_whitespace]: the characters of one, two and three bytes. *)
Definition ws1 (a : ascii) : bool := in_range 9 13 a || Ascii.eqb a " ".
Definition ws2 (a b : ascii) : bool :=
  Ascii.eqb a "194" && (Ascii.eqb b "133" || Ascii.eqb b "160").
Definition ws3 (a b c : ascii) : bool :=
  (Ascii.eqb a "225" && Ascii.eqb b "154" && Ascii.eqb c "128") ||
  (Ascii.eqb a "226" && Ascii.eqb b "128" &&
     (in_range 128 138 c || Ascii.eqb c "168" || Ascii.eqb c "169" || Ascii.eqb c "175")) ||
  (Ascii.eqb a "226" && Ascii.eqb b "129" && Ascii.eqb c "159") ||
  (Ascii.eqb a "227" && Ascii.eqb b "128" && Ascii.eqb c "128").

Fixpoint skip_whitespace (s : string) : string :=
  match s with
  | EmptyString => s
  | String a s1 =>
      if ws1 a then skip_whitespace s1
      else match s1 with
           | EmptyString => s
           | String b s2 =>
               if ws2 a b then skip_whitespace s2
               else match s2 with
                    | EmptyString => s
                    | String c s3 => if ws3 a b c then skip_whitespace s3 else s
                    end
           end
  end.

(** [rest.chars().next().is_some_and(p)] for a predicate on ASCII characters. *)
Definition next_is (p : ascii -> bool) (s : string) : bool :=
  match s with EmptyString => false | String a _ => p a end.

(** The longest prefix of characters satisfying [p], and what follows. *)
Fixpoint take_while (p : ascii -> bool) (s : string) : string * string :=
  match s with
  | EmptyString => (EmptyString, EmptyString)
  | String a s' => if p a then let '(t, r) := take_while p s' in (String a t, r)
                   else (EmptyString, s)
  end.

(** ** Error reports *)

(** [position_for]: columns count characters. *)
Fixpoint position_walk (n : nat) (s : string) (line col : nat) : nat * nat :=
  match n, s with
  | S n, String a s =>
      if Ascii.eqb a newline then position_walk n s (S line) 1
      else if is_continuation a then position_walk n s line col
      else position_walk n s line (S col)
  | _, _ => (line, col)
  end.

Definition position_for (source : string) (offset : nat) : nat * nat :=
  position_walk (Nat.min offset (String.length source)) source 1 1.

Fixpoint trim_end (s : string) : string :=
  match s with
  | EmptyString => EmptyString
  | String a s' => if str_is_empty (skip_whitespace s) then EmptyString else String a (trim_end s')
  end.

Fixpoint first_line (s : string) : string :=
  match s with
  | EmptyString => EmptyString
  | String a s' => if Ascii.eqb a newline then EmptyString else String a (first_line s')
  end.

Fixpoint char_count (s : string) : nat :=
  match s with
  | EmptyString => 0
  | String a s' => if is_continuation a then char_count s' else S (char_count s')
  end.

Fixpoint take_chars (n : nat) (s : string) : string :=
  match s with
  | EmptyString => EmptyString
  | String a s' =>
      if is_continuation a then String a (take_chars n s')
      else match n with 0 => EmptyString | S n => String a (take_chars n s') end
  end.

Definition short_snippet (rest : string) : string :=
  let line := first_line (trim_end rest) in
  if (32 <? char_count line)%nat then take_chars 32 line +:+ "…"
  else if str_is_empty line then "<end of input>" else line.

Inductive ConditionParseError : Type :=
| UnexpectedEof (line column : nat) (expected : string)
| UnexpectedToken (line column : nat) (expected found : string)
| UnknownNamespace (line column : nat) (namespace : string)
| UnknownField (line column : nat) (field : string)
| UnknownOperator (line column : nat) (operator : string)
| DisallowedToken (line column : nat) (token : string)
| UnterminatedString (line column : nat)
| InvalidInteger (line column : nat) (literal : string)
| EmptyValueList (line column : nat).

Definition at_position (what : string) (line column : nat) : string :=
  what +:+ " at line " +:+ pretty line +:+ ", column " +:+ pretty column.

(** [impl Display for ConditionParseError]. *)
Definition show_parse_error (e : ConditionParseError) : string :=
  match e with
  | UnexpectedEof l c ex =>
      at_position "unexpected end of input" l c +:+ ": expected " +:+ ex
  | UnexpectedToken l c ex f =>
      at_position "unexpected token" l c +:+ ": expected " +:+ ex +:+ ", found " +:+ f
  | UnknownNamespace l c n =>
      at_position "unknown namespace" l c +:+ ": " +:+ n
      +:+ " (closed set: subject, request, target, object, time, system)"
  | UnknownField l c f =>
      at_position "unknown field" l c +:+ ": " +:+ f
      +:+ " is not in the §9.2 / §26 / §27 / §28 / §29 closed vocabulary"
  | UnknownOperator l c o =>
      at_position "unknown operator" l c +:+ ": " +:+ o
      +:+ " (allowed: =, !=, <, <=, >, >=, in, contains, exists)"
  | DisallowedToken l c t =>
      at_position "disallowed grammar token" l c +:+ ": " +:+ t
      +:+ " — §9.1 forbids `or`, `not`, and parentheses"
  | UnterminatedString l c => at_position "unterminated string literal" l c
  | InvalidInteger l c lit => at_position "invalid integer literal" l c +:+ ": " +:+ lit
  | EmptyValueList l c =>
      at_position "empty value list" l c +:+ ": `in` requires at least one value"
  end.

(** ** The monad of the looping parsers: out of fuel, or a result *)
Definition presult (A : Type) : Type := option (result ConditionParseError A).

Definition pbind {A B} (m : presult A) (k : A -> presult B) : presult B :=
  match m with None => None | Some (Err e) => Some (Err e) | Some (Ok a) => k a end.

Notation "'let*' x ':=' c 'in' k" := (pbind c (fun x => k))
  (at level 10, x binder, c at level 200, k at level 200,
   format "'[v' 'let*'  x  ':='  c  'in' '//' k ']'") : aios_scope.

(** [str::parse::<i64>] on an optional minus sign and digits. *)
Fixpoint digits_value (acc : Z) (s : string) : Z :=
  match s with
  | EmptyString => acc
  | String a s => digits_value (10 * acc + (Z.of_nat (nat_of_ascii a) - 48)) s
  end.

Definition parse_i64 (lit : string) : option Z :=
  let v := match strip_prefix "-" lit with
           | Some digits => (- digits_value 0 digits)%Z
           | None => digits_value 0 lit
           end in
  if (i64_min <=? v)%Z && (v <=? i64_max)%Z then Some v else None.

(** The characters up to the closing quote, backslash escapes kept as written,
    and what follows it. *)
Fixpoint scan_string (s : string) : option (string * string) :=
  match s with
  | EmptyString => None
  | String a s' =>
      if Ascii.eqb a dquote then Some (EmptyString, s')
      else if Ascii.eqb a backslash then
        match s' with
        | EmptyString => None
        | String b s'' =>
            match scan_string s'' with
            | Some (t, r) => Some (String a (String b t), r)
            | None => None
            end
        end
      else match scan_string s' with
           | Some (t, r) => Some (String a t, r)
           | None => None
           end
  end.

Module Parser.

Section WithSource.
Variable source : string.

Definition pos_of (rest : string) : nat := String.length source - String.length rest.

Definition position (rest : string) : nat * nat := position_for source (pos_of rest).

Definition unexpected {A} (rest expected : string) : result ConditionParseError A :=
  let '(l, c) := position rest in Err (UnexpectedToken l c expected (short_snippet rest)).

Definition at_eof (rest : string) : bool * string :=
  let rest := skip_whitespace rest in (str_is_empty rest, rest).

(** [rest.starts_with(token)], not followed by an identifier character. *)
Definition starts_with_word (token rest : string) : bool :=
  match strip_prefix token rest with
  | Some after => negb (next_is is_ident_continue after)
  | None => false
  end.

(** The [try_consume] family: whether the token was there, and the new rest. *)
Definition try_consume (token rest : string) : bool * string :=
  let rest := skip_whitespace rest in
  match strip_prefix token rest with
  | Some after =>
      if next_is is_ascii_alphabetic token && next_is is_ident_continue after
      then (false, rest) else (true, after)
  | None => (false, rest)
  end.

Definition try_consume_char_seq (seq rest : string) : bool * string :=
  let rest := skip_whitespace rest in
  match strip_prefix seq rest with Some after => (true, after) | None => (false, rest) end.

Definition try_consume_char (c : ascii) (rest : string) : bool * string :=
  try_consume_char_seq (String c EmptyString) rest.

Definition expect_eof (rest : string) : result ConditionParseError unit :=
  let '(eof, rest) := at_eof rest in
  if eof then Ok tt else unexpected rest "end of input".

Definition disallowed {A} (rest token : string) : result ConditionParseError A :=
  let '(l, c) := position rest in Err (DisallowedToken l c token).

Definition reject_disallowed_conjunctions (rest : string) : result ConditionParseError string :=
  let rest := skip_whitespace rest in
  if starts_with_word "or" rest then disallowed rest "or"
  else if starts_with_word "not" rest then disallowed rest "not"
  else if next_is (Ascii.eqb "(") rest then disallowed rest "("
  else if next_is (Ascii.eqb ")") rest then disallowed rest ")"
  else Ok rest.

Definition parse_identifier (rest : string) : result ConditionParseError (string * string) :=
  let rest := skip_whitespace rest in
  match rest with
  | String c after =>
      if is_ident_start c
      then let '(t, r) := take_while is_ident_continue after in Ok (String c t, r)
      else unexpected rest "identifier"
  | EmptyString => unexpected rest "identifier"
  end.

(** The loop of [parse_field_path]: further [.segment]s of the sub-path. *)
Fixpoint parse_segments (fuel : nat) (subpath rest : string) : presult (string * string) :=
  match fuel with
  | 0 => None
  | S fuel =>
      let saved := rest in
      match skip_whitespace rest with
      | String dot after =>
          if Ascii.eqb dot "." && next_is is_ident_start after then
            let* '(segment, rest) := Some (parse_identifier after) in
            parse_segments fuel (subpath +:+ "." +:+ segment) rest
          else Some (Ok (subpath, saved))
      | EmptyString => Some (Ok (subpath, saved))
      end
  end.

Definition parse_field_path (start rest : string) : presult (ClosedField.t * string) :=
  let* '(namespace_ident, rest) := Some (parse_identifier rest) in
  match Namespace.from_token namespace_ident with
  | None => let '(l, c) := position start in Some (Err (UnknownNamespace l c namespace_ident))
  | Some namespace =>
      let rest := skip_whitespace rest in
      let '(found, rest) := try_consume_char "." rest in
      if negb found then Some (unexpected rest "`.` after namespace")
      else
        let* '(first, rest) := Some (parse_identifier rest) in
        let* '(subpath, rest) := parse_segments (S (String.length rest)) first rest in
        match ClosedField.resolve namespace subpath with
        | Some f => Some (Ok (f, rest))
        | None =>
            let '(l, c) := position start in
            Some (Err (UnknownField l c (Namespace.as_str namespace +:+ "." +:+ subpath)))
        end
  end.

Definition try_parse_compare_op (rest : string) : option CompareOp.t * string :=
  let '(b, rest) := try_consume_char_seq "!=" rest in if b then (Some CompareOp.Neq, rest) else
  let '(b, rest) := try_consume_char_seq "<=" rest in if b then (Some CompareOp.Lte, rest) else
  let '(b, rest) := try_consume_char_seq ">=" rest in if b then (Some CompareOp.Gte, rest) else
  let '(b, rest) := try_consume_char "=" rest in if b then (Some CompareOp.Eq, rest) else
  let '(b, rest) := try_consume_char "<" rest in if b then (Some CompareOp.Lt, rest) else
  let '(b, rest) := try_consume_char ">" rest in if b then (Some CompareOp.Gt, rest) else
  (None, rest).

Definition invalid_integer {A} (start literal : string) : result ConditionParseError A :=
  let '(l, c) := position start in Err (InvalidInteger l c literal).

Definition parse_number_literal (rest : string) : result ConditionParseError (Value * string) :=
  let start := skip_whitespace rest in
  let '(sign, rest) := match strip_prefix "-" start with
                       | Some after => ("-", after)
                       | None => ("", start)
                       end in
  let '(digits, rest) := take_while is_ascii_digit rest in
  let lit := sign +:+ digits in
  if str_is_empty digits then invalid_integer start lit
  else
    match strip_prefix "." rest with
    | Some after =>
        if next_is is_ascii_digit after then
          let '(fraction, _) := take_while is_ascii_digit after in
          invalid_integer start (lit +:+ "." +:+ fraction)
        else match parse_i64 lit with
             | Some z => Ok (VInt z, rest)
             | None => invalid_integer start lit
             end
    | None =>
        match parse_i64 lit with
        | Some z => Ok (VInt z, rest)
        | None => invalid_integer start lit
        end
    end.

Definition parse_string_literal (rest : string) : result ConditionParseError (string * string) :=
  let rest := skip_whitespace rest in
  let '(l, c) := position rest in
  let '(found, rest) := try_consume_char dquote rest in
  if negb found then
    Err (UnexpectedToken l c ("`" +:+ String dquote "`-quoted string literal") (short_snippet rest))
  else match scan_string rest with
       | Some (s, rest) => Ok (s, rest)
       | None => Err (UnterminatedString l c)
       end.

Definition parse_value (rest : string) : result ConditionParseError (Value * string) :=
  let rest := skip_whitespace rest in
  if next_is (Ascii.eqb dquote) rest then
    let? '(s, rest) := parse_string_literal rest in Ok (VString s, rest)
  else if next_is (fun a => Ascii.eqb a "-" || is_ascii_digit a) rest then
    parse_number_literal rest
  else if next_is is_ident_start rest then
    let? '(ident, rest) := parse_identifier rest in
    Ok (if String.eqb ident "true" then VBool true
        else if String.eqb ident "false" then VBool false
        else VIdentifier ident, rest)
  else unexpected rest "value literal (string, number, bool, identifier, or timestamp)".

(** The loop of [parse_value_list]. *)
Fixpoint parse_values (fuel : nat) (values : list Value) (rest : string)
    : presult (list Value * string) :=
  match fuel with
  | 0 => None
  | S fuel =>
      let* '(v, rest) := Some (parse_value rest) in
      let values := values ++ [v] in
      let rest := skip_whitespace rest in
      let '(comma, rest) := try_consume_char "," rest in
      if comma then parse_values fuel values rest
      else
        let '(close, rest) := try_consume_char "]" rest in
        if close then Some (Ok (values, rest)) else Some (unexpected rest "`,` or `]`")
  end.

Definition parse_value_list (rest : string) : presult (list Value * string) :=
  let rest := skip_whitespace rest in
  let '(open, rest) := try_consume_char "[" rest in
  if negb open then Some (unexpected rest "`[` to open value list")
  else
    let rest := skip_whitespace rest in
    let '(close, rest) := try_consume_char "]" rest in
    if close then let '(l, c) := position rest in Some (Err (EmptyValueList l c))
    else parse_values (S (String.length rest)) [] rest.

Definition at_alt_boundary (rest : string) : bool :=
  let rest := skip_whitespace rest in (at_eof rest).1 || starts_with "and" rest.

Definition parse_predicate (rest : string) : presult (Predicate.t * string) :=
  let rest := skip_whitespace rest in
  let* rest := Some (reject_disallowed_conjunctions rest) in
  let start := rest in
  let* '(field, rest) := parse_field_path start rest in
  let rest := skip_whitespace rest in
  let '(op, rest) := try_parse_compare_op rest in
  match op with
  | Some op =>
      let* '(rhs, rest) := Some (parse_value rest) in
      Some (Ok (Predicate.Compare field op rhs, rest))
  | None =>
      let '(b, rest) := try_consume "in" rest in
      if b then
        let* '(values, rest) := parse_value_list rest in
        Some (Ok (Predicate.In field values, rest))
      else
      let '(b, rest) := try_consume "contains" rest in
      if b then
        let* '(needle, rest) := Some (parse_string_literal rest) in
        Some (Ok (Predicate.Contains field needle, rest))
      else
      let '(b, rest) := try_consume "exists" rest in
      if b then Some (Ok (Predicate.Exists field, rest))
      else if bool_decide (field = ClosedField.TimeRecoveryMode) && at_alt_boundary rest then
        Some (Ok (Predicate.Compare field CompareOp.Eq (VBool true), rest))
      else
        let '(l, c) := position rest in
        Some (Err (UnknownOperator l c (short_snippet rest)))
  end.

(** The loop of [parse_condition]. *)
Fixpoint parse_conjuncts (fuel : nat) (ps : list Predicate.t) (rest : string)
    : presult (list Predicate.t * string) :=
  match fuel with
  | 0 => None
  | S fuel =>
      let '(eof, rest) := at_eof rest in
      if eof then Some (Ok (ps, rest))
      else
        let* rest := Some (reject_disallowed_conjunctions rest) in
        let '(b, rest) := try_consume "and" rest in
        if negb b then Some (unexpected rest "`and` or end of input")
        else
          let* '(next, rest) := parse_predicate rest in
          parse_conjuncts fuel (ps ++ [next]) rest
  end.

Definition parse_condition (rest : string) : presult (Condition * string) :=
  let* '(first, rest) := parse_predicate rest in
  let* '(ps, rest) := parse_conjuncts (S (String.length rest)) [first] rest in
  Some (Ok (conjunction ps, rest)).
End WithSource.

Definition parse_fuel (source : string) : presult Condition :=
  let* '(condition, rest) := parse_condition source source in
  let* _ := Some (expect_eof source rest) in
  Some (Ok condition).

End Parser.
