(* ===== verification/CondSound.v ===== *)
(** * The conditions language: the parser terminates and is sound

    The Hoare-style lemmas on the parser of [CondParser]: every function
    returns (its fuel suffices), what it accepts is well formed, and it
    consumes input.  [parse] is the parser as a total function. *)
From S2P Require Import Prelude Json Conditions CondParser.

(** ** Well-formed syntax *)

Definition ident_ok (s : string) : bool :=
  match s with
  | EmptyString => false
  | String a t => is_ident_start a && str_all is_ident_continue t
  end.

(** No bare quote, and no backslash at the end. *)
Fixpoint literal_ok (s : string) : bool :=
  match s with
  | EmptyString => true
  | String a s' =>
      if Ascii.eqb a dquote then false
      else if Ascii.eqb a backslash
      then match s' with EmptyString => false | String _ s'' => literal_ok s'' end
      else literal_ok s'
  end.

(** The dotted sub-path of a list of segments. *)
Definition join_path (seg : string) (segs : list string) : string :=
  foldl (fun acc s => acc +:+ "." +:+ s) seg segs.

Definition path_ok (sub : string) : Prop :=
  exists seg segs, ident_ok seg = true /\ Forall (fun s => ident_ok s = true) segs /\
    sub = join_path seg segs.

Definition wf_field (f : ClosedField.t) : Prop :=
  exists sub, path_ok sub /\ ClosedField.resolve (ClosedField.namespace f) sub = Some f.

Definition wf_value (v : Value) : Prop :=
  match v with
  | VString s => literal_ok s = true
  | VIdentifier s => ident_ok s = true /\ s <> "true" /\ s <> "false"
  | VInt z => (i64_min <= z <= i64_max)%Z
  | VBool _ => True
  | VTimestamp _ => False
  end.

Definition wf_predicate (p : Predicate.t) : Prop :=
  match p with
  | Predicate.Compare f _ v => wf_field f /\ wf_value v
  | Predicate.In f vs => wf_field f /\ vs <> [] /\ Forall wf_value vs
  | Predicate.Contains f s => wf_field f /\ literal_ok s = true
  | Predicate.Exists f => wf_field f
  end.

Definition wf_condition (c : Condition) : Prop :=
  predicates c <> [] /\ Forall wf_predicate (predicates c).

(** ** Total correctness of a run: it returns, and a success satisfies [Q] *)
Definition psat {A} (m : presult A) (Q : A -> Prop) : Prop :=
  match m with None => False | Some (Err _) => True | Some (Ok a) => Q a end.

Lemma psat_bind {A B} (m : presult A) (k : A -> presult B) Q R :
  psat m Q -> (forall a, Q a -> psat (k a) R) -> psat (pbind m k) R.
Proof. destruct m as [[]|]; simpl; auto. Qed.

Lemma psat_mono {A} (m : presult A) (Q R : A -> Prop) :
  psat m Q -> (forall a, Q a -> R a) -> psat m R.
Proof. destruct m as [[]|]; simpl; auto. Qed.

(** ** Consumption of the scanners *)

Lemma skip_whitespace_length s : String.length (skip_whitespace s) <= String.length s.
Proof.
  cut (forall n s, String.length s < n ->
         String.length (skip_whitespace s) <= String.length s); [eauto|].
  clear s. induction n as [|n IH]; [lia|]. intros s Hn.
  destruct s as [|a [|b [|c s]]]; cbn [skip_whitespace]; [lia|..];
    repeat case_match; cbn [String.length] in *; try lia;
    match goal with |- _ (String.length (skip_whitespace ?t)) _ =>
      let H := fresh in pose proof (IH t) as H; cbn [String.length] in H; lia end.
Qed.

Lemma take_while_spec p s t r :
  take_while p s = (t, r) -> s = t +:+ r /\ str_all p t = true /\ next_is p r = false.
Proof.
  revert t. induction s as [|a s IH]; intros t; simpl.
  - by intros [= <- <-].
  - destruct (p a) eqn:E.
    + destruct (take_while p s) as [t' r']. intros [= <- <-].
      destruct (IH t' eq_refl) as (-> & H & Hr). rewrite str_app_cons. simpl. by rewrite E, H.
    + intros [= <- <-]. simpl. by rewrite E.
Qed.

Lemma strip_prefix_length p s r :
  strip_prefix p s = Some r -> String.length s = String.length p + String.length r.
Proof. intros ->%strip_prefix_Some. apply str_length_app. Qed.

Lemma scan_string_spec s t r :
  scan_string s = Some (t, r) -> String.length r < String.length s /\ literal_ok t = true.
Proof.
  cut (forall n s t r, String.length s < n -> scan_string s = Some (t, r) ->
         String.length r < String.length s /\ literal_ok t = true); [eauto|].
  clear. induction n as [|n IH]; [lia|]. intros [|a s] t r Hn; simpl in *; [done|].
  destruct (Ascii.eqb a dquote) eqn:Eq; [intros [= <- <-]; split; [lia|done]|].
  destruct (Ascii.eqb a backslash) eqn:Eb.
  - destruct s as [|b s]; [done|]. simpl in *.
    destruct (scan_string s) as [[t' r']|] eqn:E; [|done]. intros [= <- <-].
    apply IH in E as [? Ht]; [|lia]. simpl. rewrite Eq, Eb. split; [lia|done].
  - destruct (scan_string s) as [[t' r']|] eqn:E; [|done]. intros [= <- <-].
    apply IH in E as [? Ht]; [|lia]. simpl. rewrite Eq, Eb. split; [lia|done].
Qed.

Module ParserSound.
Import Parser.

Section WithSource.
Variable source : string.

Lemma unexpected_sat {A} rest ex (Q : A -> Prop) : psat (Some (unexpected source rest ex)) Q.
Proof. unfold unexpected. by destruct (position source rest). Qed.

Lemma seq_length seq rest b r :
  try_consume_char_seq seq rest = (b, r) ->
  String.length r + (if b then String.length seq else 0) <= String.length rest.
Proof.
  unfold try_consume_char_seq. pose proof (skip_whitespace_length rest).
  destruct (strip_prefix seq (skip_whitespace rest)) eqn:E; intros [= <- <-]; [|lia].
  apply strip_prefix_length in E. lia.
Qed.

Lemma char_length c rest b r :
  try_consume_char c rest = (b, r) ->
  String.length r + (if b then 1 else 0) <= String.length rest.
Proof. apply seq_length. Qed.

Lemma consume_length token rest b r :
  try_consume token rest = (b, r) ->
  String.length r + (if b then String.length token else 0) <= String.length rest.
Proof.
  unfold try_consume. pose proof (skip_whitespace_length rest).
  destruct (strip_prefix token (skip_whitespace rest)) eqn:E; [|intros [= <- <-]; lia].
  apply strip_prefix_length in E. destruct (_ && _); intros [= <- <-]; lia.
Qed.

Lemma parse_identifier_sat rest :
  psat (Some (parse_identifier source rest))
    (fun '(i, r) => ident_ok i = true /\ String.length r < String.length rest).
Proof.
  unfold parse_identifier. pose proof (skip_whitespace_length rest).
  destruct (skip_whitespace rest) as [|a s]; [apply unexpected_sat|].
  destruct (is_ident_start a) eqn:Ea; [|apply unexpected_sat].
  destruct (take_while is_ident_continue s) as [t r] eqn:E.
  apply take_while_spec in E as (-> & Ht & _). simpl. rewrite Ea, Ht.
  simpl in H. rewrite str_length_app in H. split; [done|lia].
Qed.

Lemma path_ok_snoc sub seg :
  path_ok sub -> ident_ok seg = true -> path_ok (sub +:+ "." +:+ seg).
Proof.
  intros (s & segs & Hs & Hall & ->) Hseg. exists s, (segs ++ [seg]). split_and!; [done| |].
  - apply Forall_app. by split; [|constructor].
  - unfold join_path. by rewrite foldl_snoc.
Qed.

Lemma parse_segments_sat fuel sub rest :
  String.length rest < fuel -> path_ok sub ->
  psat (parse_segments source fuel sub rest)
    (fun '(p, r) => path_ok p /\ String.length r <= String.length rest).
Proof.
  revert sub rest. induction fuel as [|fuel IH]; [lia|]. intros sub rest Hf Hs.
  cbn [parse_segments]. pose proof (skip_whitespace_length rest) as Hl.
  destruct (skip_whitespace rest) as [|a after]; [done|].
  destruct (Ascii.eqb a "." && next_is is_ident_start after); [|done].
  eapply psat_bind; [apply parse_identifier_sat|]. intros [seg r] [Hseg Hr]. simpl in Hl.
  eapply psat_mono; [apply IH; [lia|by apply path_ok_snoc]|]. intros [p r'] [Hp Hr']. split; [done|lia].
Qed.

Lemma parse_field_path_sat start rest :
  psat (parse_field_path source start rest)
    (fun '(f, r) => wf_field f /\ String.length r < String.length rest).
Proof.
  unfold parse_field_path. eapply psat_bind; [apply parse_identifier_sat|].
  intros [nsid r1] [_ H1]. destruct (Namespace.from_token nsid) as [ns|];
    [|by destruct (position source start)].
  destruct (try_consume_char _ _) as [b r2] eqn:E2. apply char_length in E2.
  pose proof (skip_whitespace_length r1). destruct b; simpl negb; [|apply unexpected_sat].
  eapply psat_bind; [apply parse_identifier_sat|]. intros [first r3] [Hfirst H3].
  eapply psat_bind; [apply parse_segments_sat; [lia|]|].
  { exists first, []. by repeat constructor. }
  intros [sub r4] [Hsub H4]. destruct (ClosedField.resolve ns sub) as [f|] eqn:E;
    [|by destruct (position source start)].
  split; [|lia]. exists sub. split; [done|].
  pose proof (ClosedField.resolve_sound _ _ _ E) as (-> & _). done.
Qed.

Lemma invalid_integer_sat {A} start lit (Q : A -> Prop) :
  psat (Some (invalid_integer source start lit)) Q.
Proof. unfold invalid_integer. by destruct (position source start). Qed.

Lemma parse_i64_range lit z : parse_i64 lit = Some z -> (i64_min <= z <= i64_max)%Z.
Proof.
  unfold parse_i64. intros H. destruct (_ && _) eqn:E; [|done]. injection H as <-.
  bool_to_prop. done.
Qed.

Lemma parse_number_sat rest :
  psat (Some (parse_number_literal source rest))
    (fun '(v, r) => wf_value v /\ String.length r < String.length rest).
Proof.
  unfold parse_number_literal. pose proof (skip_whitespace_length rest) as Hl.
  set (start := skip_whitespace rest) in *.
  destruct (match strip_prefix "-" start with Some after => ("-", after) | None => ("", start) end)
    as [sign s] eqn:Es.
  assert (String.length s <= String.length start) as Hs.
  { destruct (strip_prefix "-" start) eqn:E; injection Es as <- <-; [|lia].
    apply strip_prefix_length in E. simpl in E. lia. }
  destruct (take_while is_ascii_digit s) as [digits r] eqn:Ed.
  apply take_while_spec in Ed as (-> & _ & _). rewrite str_length_app in Hs.
  destruct digits as [|d digits]; cbn [str_is_empty]; [apply invalid_integer_sat|]. simpl in Hs.
  assert (psat (Some (match parse_i64 (sign +:+ String d digits) with
                      | Some z => Ok (VInt z, r)
                      | None => invalid_integer source start (sign +:+ String d digits) end))
            (fun '(v, r) => wf_value v /\ String.length r < String.length rest)) as Hok.
  { destruct (parse_i64 _) as [z|] eqn:E; [|apply invalid_integer_sat].
    apply parse_i64_range in E. split; [done|lia]. }
  destruct (strip_prefix "." r) as [after|]; [|done].
  destruct (next_is is_ascii_digit after); [|done].
  destruct (take_while is_ascii_digit after). apply invalid_integer_sat.
Qed.

Lemma parse_string_sat rest :
  psat (Some (parse_string_literal source rest))
    (fun '(s, r) => literal_ok s = true /\ String.length r < String.length rest).
Proof.
  unfold parse_string_literal. destruct (position source _).
  destruct (try_consume_char dquote (skip_whitespace rest)) as [b r1] eqn:E1.
  apply char_length in E1. pose proof (skip_whitespace_length rest).
  destruct b; simpl negb; [|done].
  destruct (scan_string r1) as [[s r]|] eqn:E; [|done].
  apply scan_string_spec in E as [??]. split; [done|lia].
Qed.

Lemma psat_map {A B} (m : result ConditionParseError A) (k : A -> result ConditionParseError B) Q R :
  psat (Some m) Q -> (forall a, Q a -> psat (Some (k a)) R) -> psat (Some (result_bind m k)) R.
Proof. destruct m as [a|e]; intros H Hk; [exact (Hk a H)|exact I]. Qed.

Lemma parse_value_sat rest :
  psat (Some (parse_value source rest))
    (fun '(v, r) => wf_value v /\ String.length r < String.length rest).
Proof.
  unfold parse_value. pose proof (skip_whitespace_length rest) as Hl.
  destruct (next_is (Ascii.eqb dquote) _).
  { eapply psat_map; [apply parse_string_sat|]. intros [s r] [??]. split; [done|lia]. }
  destruct (next_is _ _).
  { eapply psat_mono; [apply parse_number_sat|]. intros [v r] [??]. split; [done|lia]. }
  destruct (next_is _ _); [|apply unexpected_sat].
  eapply psat_map; [apply parse_identifier_sat|]. intros [i r] [Hi Hr]. split; [|lia].
  destruct (String.eqb_spec i "true"); [done|]. destruct (String.eqb_spec i "false"); done.
Qed.

Lemma parse_values_sat fuel vs rest :
  String.length rest < fuel -> Forall wf_value vs ->
  psat (parse_values source fuel vs rest)
    (fun '(vs, r) => vs <> [] /\ Forall wf_value vs /\ String.length r < String.length rest).
Proof.
  revert vs rest. induction fuel as [|fuel IH]; [lia|]. intros vs rest Hf Hvs.
  cbn [parse_values]. eapply psat_bind; [apply parse_value_sat|]. intros [v r] [Hv Hr].
  assert (Forall wf_value (vs ++ [v])) as Hvs' by (apply Forall_app; split; [|constructor]; done).
  destruct (try_consume_char "," (skip_whitespace r)) as [b r1] eqn:E1. apply char_length in E1.
  pose proof (skip_whitespace_length r). destruct b.
  { eapply psat_mono; [apply IH; [lia|done]|]. intros [ws r2] (?&?&?). split_and!; try done. lia. }
  destruct (try_consume_char "]" r1) as [b r2] eqn:E2. apply char_length in E2.
  destruct b; [|apply unexpected_sat]. split_and!; [by destruct vs|done|lia].
Qed.

Lemma parse_value_list_sat rest :
  psat (parse_value_list source rest)
    (fun '(vs, r) => vs <> [] /\ Forall wf_value vs /\ String.length r <= String.length rest).
Proof.
  unfold parse_value_list.
  destruct (try_consume_char "[" (skip_whitespace rest)) as [b r1] eqn:E1. apply char_length in E1.
  pose proof (skip_whitespace_length rest). destruct b; simpl negb; [|apply unexpected_sat].
  destruct (try_consume_char "]" (skip_whitespace r1)) as [b r2] eqn:E2. apply char_length in E2.
  pose proof (skip_whitespace_length r1). destruct b; [by destruct (position source r2)|].
  eapply psat_mono; [apply parse_values_sat; [lia|constructor]|].
  intros [vs r] (?&?&?). split_and!; try done. lia.
Qed.

Lemma reject_sat rest :
  psat (Some (reject_disallowed_conjunctions source rest))
    (fun r => String.length r <= String.length rest).
Proof.
  unfold reject_disallowed_conjunctions, disallowed. destruct (position source _).
  repeat case_match; try done. apply skip_whitespace_length.
Qed.

Lemma compare_op_length rest op r :
  try_parse_compare_op rest = (op, r) -> String.length r <= String.length rest.
Proof.
  unfold try_parse_compare_op, try_consume_char. intros H.
  repeat match type of H with
  | context [try_consume_char_seq ?q ?s] =>
      let b := fresh "b" in let r' := fresh "r" in let E := fresh "E" in
      destruct (try_consume_char_seq q s) as [b r'] eqn:E;
      apply seq_length in E; destruct b; [injection H as _ <-; lia|]
  end. injection H as _ <-. lia.
Qed.

Lemma parse_predicate_sat rest :
  psat (parse_predicate source rest)
    (fun '(p, r) => wf_predicate p /\ String.length r < String.length rest).
Proof.
  unfold parse_predicate. pose proof (skip_whitespace_length rest).
  eapply psat_bind; [apply reject_sat|]. intros r1 H1. cbv beta in H1.
  eapply psat_bind; [apply parse_field_path_sat|]. intros [f r2] [Hf H2].
  pose proof (skip_whitespace_length r2).
  destruct (try_parse_compare_op (skip_whitespace r2)) as [[op|] r3] eqn:E3;
    apply compare_op_length in E3.
  { eapply psat_bind; [apply parse_value_sat|]. intros [v r] [Hv Hr]. split; [done|lia]. }
  destruct (try_consume "in" r3) as [b r4] eqn:E4. apply consume_length in E4. destruct b.
  { eapply psat_bind; [apply parse_value_list_sat|]. intros [vs r] (?&?&?).
    split; [done|lia]. }
  destruct (try_consume "contains" r4) as [b r5] eqn:E5. apply consume_length in E5. destruct b.
  { eapply psat_bind; [apply parse_string_sat|]. intros [s r] [??]. split; [done|lia]. }
  destruct (try_consume "exists" r5) as [b r6] eqn:E6. apply consume_length in E6. destruct b.
  { split; [done|lia]. }
  destruct (_ && _); [split; [done|lia]|]. by destruct (position source r6).
Qed.

Lemma parse_conjuncts_sat fuel ps rest :
  String.length rest < fuel -> ps <> [] -> Forall wf_predicate ps ->
  psat (parse_conjuncts source fuel ps rest)
    (fun '(ps, r) => ps <> [] /\ Forall wf_predicate ps /\ r = EmptyString).
Proof.
  revert ps rest. induction fuel as [|fuel IH]; [lia|]. intros ps rest Hf Hne Hps.
  cbn [parse_conjuncts]. unfold at_eof. pose proof (skip_whitespace_length rest).
  destruct (str_is_empty (skip_whitespace rest)) eqn:E; [by apply str_is_empty_true in E as ->|].
  eapply psat_bind; [apply reject_sat|]. intros r1 H1. cbv beta in H1.
  destruct (try_consume "and" r1) as [b r2] eqn:E2. apply consume_length in E2.
  destruct b; simpl negb; [|apply unexpected_sat].
  eapply psat_bind; [apply parse_predicate_sat|]. intros [p r3] [Hp H3].
  apply IH; [simpl in E2; lia|by destruct ps|]. apply Forall_app. by split; [|constructor].
Qed.

Lemma parse_condition_sat rest :
  psat (parse_condition source rest) (fun '(c, r) => wf_condition c /\ r = EmptyString).
Proof.
  unfold parse_condition. eapply psat_bind; [apply parse_predicate_sat|]. intros [p r] [Hp _].
  eapply psat_bind; [apply parse_conjuncts_sat; [lia|done|by constructor]|].
  intros [ps r'] (?&?&->). done.
Qed.
End WithSource.

Lemma parse_fuel_sat source : psat (parse_fuel source) wf_condition.
Proof.
  unfold parse_fuel. eapply psat_bind; [apply parse_condition_sat|]. by intros [c r] [Hc ->].
Qed.

Lemma parse_fuel_total source : is_Some (parse_fuel source).
Proof. pose proof (parse_fuel_sat source). destruct (parse_fuel source); [eauto|done]. Qed.

End ParserSound.

(** [conditions_parser::parse]. *)
Definition parse (source : string) : result ConditionParseError Condition :=
  is_Some_proj (ParserSound.parse_fuel_total source).

Lemma parse_fuel_parse source : Parser.parse_fuel source = Some (parse source).
Proof.
  unfold parse. destruct (ParserSound.parse_fuel_total source) as [r Hr] eqn:E. clear E.
  simpl. by destruct (Parser.parse_fuel source).
Qed.
