(* ===== verification/CondRoundtrip.v ===== *)
(** * The conditions language: printing and parsing back

    A printer for the abstract syntax, and the theorem that the parser of
    [CondParser] reads back every well-formed condition it prints. *)
From S2P Require Import Prelude Json Conditions CondParser CondSound.

(** ** The printer *)

Definition digit_char (d : Z) : ascii := ascii_of_nat (48 + Z.to_nat d).

(** The decimal digits of [n], prepended to [acc]; 20 digits hold an [i64]. *)
Fixpoint print_digits (fuel : nat) (n : Z) (acc : string) : string :=
  match fuel with
  | 0 => acc
  | S fuel =>
      let acc := String (digit_char (n mod 10)) acc in
      if (n <? 10)%Z then acc else print_digits fuel (n / 10) acc
  end.

Definition print_int (z : Z) : string :=
  if (z <? 0)%Z then "-" +:+ print_digits 20 (- z) "" else print_digits 20 z "".

Definition print_string (s : string) : string := String dquote (s +:+ String dquote "").

Definition print_value (v : Value) : string :=
  match v with
  | VString s | VTimestamp s => print_string s
  | VIdentifier s => s
  | VInt z => print_int z
  | VBool true => "true"
  | VBool false => "false"
  end.

(** Each element after a separator. *)
Fixpoint print_sep {A} (sep : string) (pr : A -> string) (l : list A) : string :=
  match l with [] => "" | x :: l => sep +:+ pr x +:+ print_sep sep pr l end.

Definition print_list (vs : list Value) : string :=
  match vs with [] => "" | v :: vs => print_value v +:+ print_sep ", " print_value vs end.

Definition print_predicate (p : Predicate.t) : string :=
  match p with
  | Predicate.Compare f op v =>
      ClosedField.as_dotted f +:+ " " +:+ CompareOp.as_str op +:+ " " +:+ print_value v
  | Predicate.In f vs => ClosedField.as_dotted f +:+ " in [" +:+ print_list vs +:+ "]"
  | Predicate.Contains f s => ClosedField.as_dotted f +:+ " contains " +:+ print_string s
  | Predicate.Exists f => ClosedField.as_dotted f +:+ " exists"
  end.

Definition print_condition (c : Condition) : string :=
  match predicates c with
  | [] => ""
  | p :: ps => print_predicate p +:+ print_sep " and " print_predicate ps
  end.

(** ** Whitespace and identifiers *)

(** ASCII characters that are not whitespace start no whitespace character. *)
Definition solid (a : ascii) : bool := in_range 0 127 a && negb (ws1 a).

Lemma skip_solid a s : solid a = true -> skip_whitespace (String a s) = String a s.
Proof.
  unfold solid. intros [Ha H1]%andb_true_iff. apply negb_true_iff in H1.
  cbn [skip_whitespace]. rewrite H1.
  assert (forall b, ws2 a b = false) as H2.
  { intros b. unfold ws2. destruct (Ascii.eqb_spec a "194") as [->|]; [done|done]. }
  assert (forall b c, ws3 a b c = false) as H3.
  { intros b c. unfold ws3.
    destruct (Ascii.eqb_spec a "225") as [->|]; [done|].
    destruct (Ascii.eqb_spec a "226") as [->|]; [done|].
    destruct (Ascii.eqb_spec a "227") as [->|]; done. }
  destruct s as [|b s]; [done|]. rewrite H2. destruct s as [|c s]; [done|]. by rewrite H3.
Qed.

Lemma skip_space s : skip_whitespace (String " " s) = skip_whitespace s.
Proof. done. Qed.

Lemma ident_start_facts a :
  is_ident_start a = true ->
  solid a = true /\ is_ident_continue a = true /\ Ascii.eqb dquote a = false /\
  (Ascii.eqb a "-" || is_ascii_digit a) = false.
Proof. destruct a as [[] [] [] [] [] [] [] []]; vm_compute; auto. Qed.

Lemma digit_facts a :
  is_ascii_digit a = true ->
  solid a = true /\ is_ident_continue a = true /\ Ascii.eqb dquote a = false /\
  Ascii.eqb a "-" = false.
Proof. destruct a as [[] [] [] [] [] [] [] []]; vm_compute; auto. Qed.

Lemma take_while_app p t r :
  str_all p t = true -> next_is p r = false -> take_while p (t +:+ r) = (t, r).
Proof.
  induction t as [|a t IH]; intros Ht Hr.
  - change ("" +:+ r) with r. destruct r as [|b r]; [done|]. simpl in *. by rewrite Hr.
  - rewrite str_app_cons. simpl in *. apply andb_true_iff in Ht as [-> Ht]. by rewrite IH.
Qed.

Section WithSource.
Context (source : string).
Import Parser.

Lemma parse_identifier_print i r :
  ident_ok i = true -> next_is is_ident_continue r = false ->
  parse_identifier source (i +:+ r) = Ok (i, r).
Proof.
  destruct i as [|a i]; [done|]. simpl. intros [Ha Hi]%andb_true_iff Hr.
  rewrite str_app_cons. unfold parse_identifier.
  rewrite skip_solid by (by apply ident_start_facts). by rewrite Ha, take_while_app.
Qed.

(** ** Field paths *)

(** What may follow a field: not an identifier character, nor, after
    whitespace, a dot. *)
Definition field_tail (r : string) : Prop :=
  next_is is_ident_continue r = false /\ next_is (fun a => Ascii.eqb a ".") (skip_whitespace r) = false.

Lemma join_path_app seg segs :
  join_path seg segs = seg +:+ print_sep "." (fun s => s) segs.
Proof.
  unfold join_path. revert seg. induction segs as [|s segs IH]; intros seg; simpl.
  - by rewrite str_app_nil_r.
  - rewrite IH. by rewrite !str_app_assoc.
Qed.

Lemma print_sep_length {A} sep (pr : A -> string) l :
  0 < String.length sep -> length l <= String.length (print_sep sep pr l).
Proof.
  intros Hs. induction l as [|x l IH]; [simpl; lia|].
  simpl. rewrite !str_length_app. lia.
Qed.

Lemma parse_segments_print fuel acc segs r :
  Forall (fun s => ident_ok s = true) segs -> length segs < fuel -> field_tail r ->
  parse_segments source fuel acc (print_sep "." (fun s => s) segs +:+ r) =
    Some (Ok (join_path acc segs, r)).
Proof.
  intros Hall. revert fuel acc. induction Hall as [|s segs Hs Hall IH];
    intros [|fuel] acc Hf Hr; simpl in Hf; try lia; cbn [parse_segments print_sep].
  - change ("" +:+ r) with r. destruct Hr as [_ Hr]. destruct (skip_whitespace r); [done|].
    simpl in Hr. by rewrite Hr.
  - rewrite !str_app_assoc. change ("." +:+ ?x) with (String "." x).
    rewrite skip_solid by done.
    assert (next_is is_ident_start (s +:+ print_sep "." (fun s => s) segs +:+ r) = true) as ->.
    { destruct s; [done|]. simpl in Hs. rewrite str_app_cons. simpl.
      by apply andb_true_iff in Hs as [-> _]. }
    rewrite parse_identifier_print; [|done|].
    + simpl. rewrite IH by (done || lia). done.
    + destruct segs; [apply Hr|done].
Qed.

Lemma from_token_as_str ns : Namespace.from_token (Namespace.as_str ns) = Some ns.
Proof. by destruct ns. Qed.

Lemma as_str_ident ns : ident_ok (Namespace.as_str ns) = true.
Proof. by destruct ns. Qed.

Lemma parse_field_path_print start f r :
  wf_field f -> field_tail r ->
  parse_field_path source start (ClosedField.as_dotted f +:+ r) = Some (Ok (f, r)).
Proof.
  intros (sub & (seg & segs & Hseg & Hsegs & ->) & Hres) Hr.
  pose proof (ClosedField.resolve_sound _ _ _ Hres) as (_ & -> & _).
  set (ns := ClosedField.namespace f) in *. unfold parse_field_path.
  rewrite !str_app_assoc, parse_identifier_print; [|apply as_str_ident|done].
  cbn [pbind]. rewrite from_token_as_str.
  assert (forall s, try_consume_char "." (skip_whitespace ("." +:+ s)) = (true, s)) as Hdot.
  { intros s. change ("." +:+ s) with (String "." s). unfold try_consume_char, try_consume_char_seq.
    by rewrite !skip_solid. }
  rewrite Hdot. cbn [negb]. rewrite join_path_app, str_app_assoc, parse_identifier_print; [|done|].
  - cbn [pbind]. rewrite parse_segments_print; [|done| |done].
    + cbn [pbind]. by rewrite Hres.
    + rewrite str_length_app. pose proof (print_sep_length "." (fun s => s) segs). simpl in *. lia.
  - destruct segs; [apply Hr|done].
Qed.

(** ** Values *)

(** What may follow a value. *)
Definition value_tail (r : string) : Prop :=
  next_is (fun a => negb (Ascii.eqb a " " || Ascii.eqb a "," || Ascii.eqb a "]")) r = false.

Lemma value_tail_facts r :
  value_tail r -> next_is is_ident_continue r = false /\ next_is is_ascii_digit r = false /\
  strip_prefix "." r = None.
Proof.
  destruct r as [|a r]; [done|]. unfold value_tail. simpl.
  destruct a as [[] [] [] [] [] [] [] []]; vm_compute; auto; discriminate.
Qed.

Lemma scan_string_print s r :
  literal_ok s = true -> scan_string (s +:+ String dquote r) = Some (s, r).
Proof.
  cut (forall n s, String.length s < n -> literal_ok s = true ->
         scan_string (s +:+ String dquote r) = Some (s, r)); [eauto|].
  clear s. induction n as [|n IH]; [lia|]. intros [|a s] Hn Hs; simpl in Hn.
  - by change ("" +:+ ?x) with x.
  - rewrite str_app_cons. simpl in *. destruct (Ascii.eqb a dquote); [done|].
    destruct (Ascii.eqb a backslash).
    + destruct s as [|b s]; [done|]. rewrite str_app_cons. simpl in *. by rewrite IH by (done || lia).
    + by rewrite IH by (done || lia).
Qed.

Lemma parse_string_print s r :
  literal_ok s = true -> parse_string_literal source (print_string s +:+ r) = Ok (s, r).
Proof.
  intros Hs. unfold parse_string_literal, print_string.
  rewrite str_app_cons, skip_solid by done. destruct (position source _).
  unfold try_consume_char, try_consume_char_seq. rewrite skip_solid by done. simpl.
  rewrite str_app_assoc, str_app_cons. change ("" +:+ r) with r. by rewrite scan_string_print.
Qed.

Lemma digits_value_app acc s t :
  digits_value acc (s +:+ t) = digits_value (digits_value acc s) t.
Proof.
  revert acc. induction s as [|a s IH]; intros acc; [done|]. rewrite str_app_cons. simpl. apply IH.
Qed.

Lemma digit_char_facts d :
  (0 <= d < 10)%Z ->
  is_ascii_digit (digit_char d) = true /\ (Z.of_nat (nat_of_ascii (digit_char d)) - 48 = d)%Z.
Proof.
  intros H. assert (d ∈ [0;1;2;3;4;5;6;7;8;9]%Z) as Hd.
  { rewrite !elem_of_cons. lia. }
  repeat (apply elem_of_cons in Hd as [->|Hd]; [vm_compute; auto|]). by apply elem_of_nil in Hd.
Qed.

(** The printed digits: not empty, digits, and of the value printed. *)
Lemma print_digits_spec fuel n acc :
  (0 <= n < 10 ^ Z.of_nat fuel)%Z -> 0 < fuel ->
  exists ds, print_digits fuel n acc = ds +:+ acc /\ ds <> "" /\
    str_all is_ascii_digit ds = true /\ digits_value 0 ds = n.
Proof.
  revert n acc. induction fuel as [|fuel IH]; [lia|]. intros n acc Hn _.
  cbn [print_digits].
  destruct (digit_char_facts (n mod 10)) as [Hd Hv]; [apply Z.mod_pos_bound; lia|].
  destruct (Z.ltb_spec n 10) as [Hlt|Hge].
  - exists (String (digit_char (n mod 10)) ""). rewrite Z.mod_small in * by lia.
    split_and!; [reflexivity|discriminate| |].
    + cbn [str_all]. by rewrite Hd.
    + cbn [digits_value]. rewrite Hv. lia.
  - destruct fuel as [|fuel]; [simpl in Hn; lia|].
    destruct (IH (n / 10)%Z (String (digit_char (n mod 10)) acc)) as (ds & -> & Hne & Hall & Hval).
    { rewrite Nat2Z.inj_succ, Z.pow_succ_r in Hn by lia.
      split; [apply Z.div_pos; lia|apply Z.div_lt_upper_bound; lia]. }
    { lia. }
    exists (ds +:+ String (digit_char (n mod 10)) ""). split_and!.
    + by rewrite str_app_assoc.
    + by destruct ds.
    + rewrite str_all_app, Hall. cbn [str_all]. by rewrite Hd.
    + rewrite digits_value_app, Hval. cbn [digits_value]. rewrite Hv. pose proof (Z.div_mod n 10). lia.
Qed.

Lemma strip_minus s : strip_prefix "-" (String "-" s) = Some s.
Proof. done. Qed.

Lemma strip_other a b p s : Ascii.eqb b a = false -> strip_prefix (String a p) (String b s) = None.
Proof. intros H. cbn [strip_prefix]. by rewrite Ascii.eqb_sym, H. Qed.

Lemma parse_number_print z r :
  (i64_min <= z <= i64_max)%Z -> value_tail r ->
  parse_number_literal source (print_int z +:+ r) = Ok (VInt z, r) /\
  exists a s, print_int z = String a s /\ solid a = true /\
    Ascii.eqb dquote a = false /\ (Ascii.eqb a "-" || is_ascii_digit a) = true.
Proof.
  intros Hz Hr. destruct (value_tail_facts r Hr) as (_ & Hrd & Hdot).
  unfold i64_min, i64_max in Hz. unfold print_int, parse_number_literal.
  destruct (Z.ltb_spec z 0) as [Hneg|Hpos].
  - destruct (print_digits_spec 20 (- z) "") as (ds & -> & Hne & Hall & Hval); [simpl; lia|lia|].
    rewrite str_app_nil_r, str_app_assoc. change ("-" +:+ ?x) with (String "-" x) at 1.
    rewrite skip_solid by done. rewrite strip_minus, take_while_app by done.
    split; [|exists "-"%char, ds; done].
    destruct ds as [|d ds]; [done|]. cbn [str_is_empty]. rewrite Hdot.
    unfold parse_i64. change ("-" +:+ ?x) with (String "-" x). rewrite strip_minus, Hval.
    replace (- - z)%Z with z by lia. unfold i64_min, i64_max.
    destruct (Z.leb_spec (-9223372036854775808) z), (Z.leb_spec z 9223372036854775807); done || lia.
  - destruct (print_digits_spec 20 z "") as (ds & -> & Hne & Hall & Hval); [simpl; lia|lia|].
    rewrite str_app_nil_r. destruct ds as [|d ds]; [done|].
    assert (is_ascii_digit d = true) as Hd by (simpl in Hall; by apply andb_true_iff in Hall as [? _]).
    destruct (digit_facts d Hd) as (Hsol & _ & Hq & Hm).
    split; [|exists d, ds; rewrite Hd, orb_true_r; done].
    rewrite str_app_cons, skip_solid by done.
    rewrite strip_other by done.
    rewrite <-str_app_cons, take_while_app by done. cbn [str_is_empty]. rewrite Hdot.
    change ("" +:+ ?x) with x. unfold parse_i64. rewrite strip_other, Hval by done. unfold i64_min, i64_max.
    destruct (Z.leb_spec (-9223372036854775808) z), (Z.leb_spec z 9223372036854775807); done || lia.
Qed.

Lemma parse_value_ident i r :
  ident_ok i = true -> value_tail r ->
  parse_value source (i +:+ r) =
    Ok (if String.eqb i "true" then VBool true
        else if String.eqb i "false" then VBool false else VIdentifier i, r).
Proof.
  intros Hi Hr. destruct (value_tail_facts r Hr) as (Hrc & _).
  pose proof (parse_identifier_print i r Hi Hrc) as Hp.
  destruct i as [|a i]; [done|]. simpl in Hi. apply andb_true_iff in Hi as [Ha Hi].
  destruct (ident_start_facts a Ha) as (Hsol & _ & Hq & Hd).
  unfold parse_value. rewrite str_app_cons in *. rewrite skip_solid by done.
  cbn [next_is]. by rewrite Hq, Hd, Ha, Hp.
Qed.

Lemma parse_value_print v r :
  wf_value v -> value_tail r -> parse_value source (print_value v +:+ r) = Ok (v, r).
Proof.
  intros Hv Hr. destruct v as [s|i|z|[]|s]; simpl in Hv.
  - unfold parse_value. pose proof (parse_string_print s r Hv) as Hp. simpl print_value.
    unfold print_string in *. rewrite str_app_cons in *. rewrite skip_solid by done.
    cbn [next_is]. rewrite Ascii.eqb_refl. by rewrite Hp.
  - destruct Hv as (Hi & Ht & Hf). simpl print_value. rewrite parse_value_ident by done.
    apply String.eqb_neq in Ht as ->. by apply String.eqb_neq in Hf as ->.
  - destruct (parse_number_print z r Hv Hr) as [Hp (a & s & E & Hsol & Hq & Hd)].
    simpl print_value. rewrite E in *. unfold parse_value. rewrite str_app_cons in *.
    rewrite skip_solid by done. cbn [next_is]. by rewrite Hq, Hd.
  - simpl print_value. by rewrite parse_value_ident.
  - simpl print_value. by rewrite parse_value_ident.
  - done.
Qed.

(** ** Tokens *)

Lemma consume_seq q s r :
  skip_whitespace s = s -> strip_prefix q s = Some r -> try_consume_char_seq q s = (true, r).
Proof. unfold try_consume_char_seq. by intros -> ->. Qed.

Lemma consume_seq_not q s :
  skip_whitespace s = s -> strip_prefix q s = None -> try_consume_char_seq q s = (false, s).
Proof. unfold try_consume_char_seq. by intros -> ->. Qed.

Lemma consume_char_here a s : solid a = true -> try_consume_char a (String a s) = (true, s).
Proof.
  intros Ha. unfold try_consume_char. apply consume_seq; [by apply skip_solid|].
  cbn [strip_prefix]. by rewrite Ascii.eqb_refl.
Qed.

Lemma consume_char_not a b s :
  solid b = true -> Ascii.eqb b a = false -> try_consume_char a (String b s) = (false, String b s).
Proof.
  intros Hb Hne. unfold try_consume_char. apply consume_seq_not; [by apply skip_solid|].
  by apply strip_other.
Qed.

Lemma compare_op_print op s :
  try_parse_compare_op (CompareOp.as_str op +:+ " " +:+ s) = (Some op, " " +:+ s).
Proof.
  unfold try_parse_compare_op, try_consume_char, try_consume_char_seq.
  change (" " +:+ s) with (String " " s).
  destruct op; cbn [CompareOp.as_str]; rewrite !str_app_cons; change ("" +:+ ?x) with x;
    repeat (rewrite skip_solid by done; cbn [strip_prefix Ascii.eqb Bool.eqb]); reflexivity.
Qed.

(** A text that starts with a letter is no comparison operator. *)
Lemma compare_op_word a s :
  is_ident_start a = true -> try_parse_compare_op (String a s) = (None, String a s).
Proof.
  intros Ha. destruct (ident_start_facts a Ha) as (Hs & _).
  assert (forall b p, is_ident_start b = false -> try_consume_char_seq (String b p) (String a s)
          = (false, String a s)) as H.
  { intros b p Hb. apply consume_seq_not; [by apply skip_solid|]. apply strip_other.
    destruct (Ascii.eqb_spec a b) as [->|]; congruence. }
  unfold try_parse_compare_op, try_consume_char. by rewrite !H.
Qed.

Lemma reject_print ns s :
  reject_disallowed_conjunctions source (Namespace.as_str ns +:+ s) = Ok (Namespace.as_str ns +:+ s).
Proof.
  unfold reject_disallowed_conjunctions.
  destruct ns; cbn [Namespace.as_str]; rewrite str_app_cons, skip_solid by done; reflexivity.
Qed.

(** ** Value lists *)

Lemma parse_values_print vs : forall fuel acc v r,
  wf_value v -> Forall wf_value vs -> length vs < fuel ->
  parse_values source fuel acc (print_value v +:+ print_sep ", " print_value vs +:+ "]" +:+ r) =
    Some (Ok (acc ++ v :: vs, r)).
Proof.
  induction vs as [|w vs IH]; intros [|fuel] acc v r Hv Hvs Hf; simpl in Hf; try lia;
    cbn [parse_values print_sep].
  - change ("" +:+ ?x) with x. change ("]" +:+ r) with (String "]" r).
    rewrite parse_value_print by done. cbn [pbind]. rewrite skip_solid by done.
    rewrite consume_char_not by done. by rewrite consume_char_here.
  - inversion Hvs as [|? ? Hw Hvs']; subst. rewrite !str_app_assoc.
    change (", " +:+ ?x) with (String "," (String " " x)).
    rewrite parse_value_print by done. cbn [pbind]. rewrite skip_solid by done.
    rewrite consume_char_here by done.
    assert (forall n l s, parse_values source n l (String " " s) = parse_values source n l s) as ->
      by (by intros []).
    rewrite IH by (done || lia). by rewrite <-app_assoc.
Qed.

Lemma print_value_head v : wf_value v ->
  exists a s, print_value v = String a s /\ solid a = true /\ Ascii.eqb a "]" = false.
Proof.
  destruct v as [s|i|z|[]|s]; simpl; intros Hv.
  - by eexists _, _.
  - destruct i as [|a i]; [by destruct Hv|]. exists a, i. destruct Hv as [[Ha _]%andb_true_iff _].
    split; [done|]. revert Ha. destruct a as [[] [] [] [] [] [] [] []]; vm_compute; auto.
  - destruct (parse_number_print z "") as [_ (a & s & -> & Ha & _ & Hd)]; [done|done|].
    exists a, s. split_and!; [done..|].
    revert Hd. destruct a as [[] [] [] [] [] [] [] []]; vm_compute; auto.
  - by eexists _, _.
  - by eexists _, _.
  - done.
Qed.

Lemma parse_value_list_print vs r :
  vs <> [] -> Forall wf_value vs ->
  parse_value_list source (" [" +:+ print_list vs +:+ "]" +:+ r) = Some (Ok (vs, r)).
Proof.
  intros Hne Hvs. destruct vs as [|v vs]; [done|]. inversion Hvs as [|? ? Hv Hvs']; subst.
  unfold parse_value_list. cbn [print_list].
  change (" [" +:+ ?x) with (String " " (String "[" x)).
  rewrite skip_space, skip_solid, consume_char_here by done. cbn [negb].
  rewrite str_app_assoc. destruct (print_value_head v Hv) as (a & s & E & Ha & Hb).
  assert (forall t, skip_whitespace (print_value v +:+ t) = print_value v +:+ t) as Hskip
    by (intros t; rewrite E, str_app_cons; by apply skip_solid).
  rewrite Hskip.
  assert (forall t, try_consume_char "]" (print_value v +:+ t) = (false, print_value v +:+ t)) as ->
    by (intros t; rewrite E, str_app_cons; by apply consume_char_not).
  rewrite parse_values_print; [done..|].
  rewrite !str_length_app. pose proof (print_sep_length ", " print_value vs). simpl in *. lia.
Qed.

(** ** Predicates and conditions *)

(** What may follow a predicate: nothing, or a space. *)
Definition predicate_tail (r : string) : Prop :=
  next_is (fun a => negb (Ascii.eqb a " ")) r = false.

Lemma predicate_tail_value r : predicate_tail r -> value_tail r.
Proof.
  unfold predicate_tail, value_tail. destruct r as [|a r]; [done|]. cbn [next_is].
  intros ->%negb_false_iff. done.
Qed.

(** A field followed by a space and a text that starts with an ASCII
    character other than a dot. *)
Lemma field_tail_space a s :
  solid a = true -> Ascii.eqb a "." = false -> field_tail (String " " (String a s)).
Proof.
  intros Ha Hd. split; [done|]. rewrite skip_space, skip_solid by done. done.
Qed.

Lemma parse_predicate_field f s a t :
  wf_field f -> s = String " " (String a t) -> solid a = true -> Ascii.eqb a "." = false ->
  parse_predicate source (ClosedField.as_dotted f +:+ s) =
  (let rest := String a t in
   let '(op, rest) := try_parse_compare_op rest in
   match op with
   | Some op =>
       let* '(rhs, rest) := Some (parse_value source rest) in
       Some (Ok (Predicate.Compare f op rhs, rest))
   | None =>
       let '(b, rest) := try_consume "in" rest in
       if b then
         let* '(values, rest) := parse_value_list source rest in
         Some (Ok (Predicate.In f values, rest))
       else
       let '(b, rest) := try_consume "contains" rest in
       if b then
         let* '(needle, rest) := Some (parse_string_literal source rest) in
         Some (Ok (Predicate.Contains f needle, rest))
       else
       let '(b, rest) := try_consume "exists" rest in
       if b then Some (Ok (Predicate.Exists f, rest))
       else if bool_decide (f = ClosedField.TimeRecoveryMode) && at_alt_boundary rest then
         Some (Ok (Predicate.Compare f CompareOp.Eq (VBool true), rest))
       else
         let '(l, c) := position source rest in
         Some (Err (UnknownOperator l c (short_snippet rest)))
   end).
Proof.
  intros Hf -> Ha Hd. unfold parse_predicate.
  pose proof Hf as (sub & _ & Hres). pose proof (ClosedField.resolve_sound _ _ _ Hres) as (_ & Hdot & _).
  assert (forall x, skip_whitespace (ClosedField.as_dotted f +:+ x) = ClosedField.as_dotted f +:+ x
    /\ reject_disallowed_conjunctions source (ClosedField.as_dotted f +:+ x) =
       Ok (ClosedField.as_dotted f +:+ x)) as Hpre.
  { intros x. rewrite Hdot, str_app_assoc. split; [|apply reject_print].
    by destruct (ClosedField.namespace f); apply skip_solid. }
  rewrite (proj1 (Hpre _)), (proj2 (Hpre _)). cbn [pbind].
  rewrite parse_field_path_print by (done || by apply field_tail_space). cbn [pbind].
  by rewrite skip_space, skip_solid.
Qed.

Lemma try_consume_keyword k a t r :
  k = String a t -> is_ident_start a = true -> next_is is_ident_continue r = false ->
  try_consume k (k +:+ r) = (true, r).
Proof.
  intros -> Ha Hr. unfold try_consume. destruct (ident_start_facts a Ha) as (Hs & _).
  rewrite str_app_cons, skip_solid, <-str_app_cons by done.
  rewrite (proj2 (strip_prefix_Some (String a t) (String a t +:+ r) r)) by done.
  by rewrite Hr, andb_false_r.
Qed.

Lemma try_consume_not k a s :
  solid a = true -> strip_prefix k (String a s) = None ->
  try_consume k (String a s) = (false, String a s).
Proof. intros Ha H. unfold try_consume. by rewrite skip_solid, H. Qed.

Lemma parse_predicate_print p r :
  wf_predicate p -> predicate_tail r ->
  parse_predicate source (print_predicate p +:+ r) = Some (Ok (p, r)).
Proof.
  intros Hp Hr. pose proof (predicate_tail_value r Hr) as Hv.
  destruct (value_tail_facts r Hv) as (Hrc & _).
  destruct p as [f op v|f vs|f s|f]; cbn [print_predicate]; rewrite !str_app_assoc; simpl in Hp.
  - destruct Hp as [Hf Hval].
    assert (exists a t, CompareOp.as_str op +:+ " " +:+ print_value v +:+ r = String a t /\
      solid a = true /\ Ascii.eqb a "." = false) as (a & t & E & Ha & Hd).
    { destruct op; cbn [CompareOp.as_str]; rewrite str_app_cons; eauto. }
    change (" " +:+ CompareOp.as_str op +:+ ?x) with (String " " (CompareOp.as_str op +:+ x)).
    rewrite (parse_predicate_field f _ a t) by (done || by rewrite E). cbn zeta.
    rewrite <-E, compare_op_print. cbn [pbind].
    assert (forall x, parse_value source (" " +:+ x) = parse_value source x) as -> by done.
    by rewrite parse_value_print.
  - destruct Hp as (Hf & Hne & Hvs).
    rewrite (parse_predicate_field f _ "i" ("n" +:+ " [" +:+ print_list vs +:+ "]" +:+ r)) by done.
    cbn zeta. rewrite compare_op_word by done.
    change (String "i" ("n" +:+ ?x)) with ("in" +:+ x).
    rewrite (try_consume_keyword "in" "i" "n") by done. by rewrite parse_value_list_print.
  - destruct Hp as (Hf & Hs).
    rewrite (parse_predicate_field f _ "c" ("ontains" +:+ " " +:+ print_string s +:+ r)) by done.
    cbn zeta. rewrite compare_op_word by done.
    rewrite try_consume_not by done.
    change (String "c" ("ontains" +:+ ?x)) with ("contains" +:+ x).
    rewrite (try_consume_keyword "contains" "c" "ontains") by done.
    assert (forall x, parse_string_literal source (" " +:+ x) = parse_string_literal source x)
      as -> by done.
    by rewrite parse_string_print.
  - rewrite (parse_predicate_field f _ "e" ("xists" +:+ r)) by done.
    cbn zeta. rewrite compare_op_word by done. rewrite !try_consume_not by done.
    change (String "e" ("xists" +:+ ?x)) with ("exists" +:+ x).
    by rewrite (try_consume_keyword "exists" "e" "xists").
Qed.

Lemma print_sep_tail {A} sep (pr : A -> string) l r :
  predicate_tail r -> predicate_tail (print_sep (String " " sep) pr l +:+ r).
Proof. by destruct l. Qed.

Lemma at_eof_and y : at_eof (String " " ("and" +:+ y)) = (false, "and" +:+ y).
Proof.
  unfold at_eof. rewrite skip_space. change ("and" +:+ y) with (String "a" ("nd" +:+ y)).
  by rewrite skip_solid.
Qed.

Lemma reject_and y :
  reject_disallowed_conjunctions source ("and" +:+ y) = Ok ("and" +:+ y).
Proof.
  unfold reject_disallowed_conjunctions. change ("and" +:+ y) with (String "a" ("nd" +:+ y)).
  by rewrite skip_solid.
Qed.

(** The loop reads the printed conjuncts and goes on with what follows. *)
Lemma parse_conjuncts_print ps : forall fuel acc r,
  Forall wf_predicate ps -> predicate_tail r ->
  parse_conjuncts source (length ps + fuel) acc (print_sep " and " print_predicate ps +:+ r) =
    parse_conjuncts source fuel (acc ++ ps) r.
Proof.
  induction ps as [|p ps IH]; intros fuel acc r Hps Hr; cbn [length Nat.add parse_conjuncts print_sep].
  - by rewrite app_nil_r.
  - inversion Hps as [|? ? Hp Hps']; subst. rewrite !str_app_assoc.
    change (" and " +:+ ?x) with (String " " ("and" +:+ String " " x)).
    rewrite at_eof_and, reject_and. cbn [pbind].
    rewrite (try_consume_keyword "and" "a" "nd") by done. cbn [negb].
    assert (forall y, parse_predicate source (String " " y) = parse_predicate source y) as -> by done.
    rewrite parse_predicate_print by (done || by apply print_sep_tail). cbn [pbind].
    rewrite IH by done. by rewrite <-app_assoc.
Qed.

Lemma parse_condition_print c r :
  wf_condition c -> predicate_tail r ->
  exists fuel, parse_condition source (print_condition c +:+ r) =
    (let* '(ps, rest) := parse_conjuncts source (S fuel) (predicates c) r in
     Some (Ok (conjunction ps, rest))).
Proof.
  destruct c as [[|p ps]]; intros [Hne Hps] Hr; [done|]. cbn [predicates] in *.
  inversion Hps as [|? ? Hp Hps']; subst. unfold parse_condition, print_condition. cbn [predicates].
  rewrite str_app_assoc, parse_predicate_print by (done || by apply print_sep_tail). cbn [pbind].
  set (n := String.length (print_sep " and " print_predicate ps +:+ r)).
  assert (length ps <= n) as Hn.
  { unfold n. rewrite str_length_app. pose proof (print_sep_length " and " print_predicate ps).
    simpl in *. lia. }
  exists (n - length ps). replace (S n) with (length ps + S (n - length ps)) by lia.
  by rewrite parse_conjuncts_print.
Qed.
End WithSource.

(** ** Properties *)

(** C31: the parser terminates on every input (the fuel of its loops is never
    exhausted), and what it accepts is a well-formed condition: at least one
    predicate, fields of the closed vocabulary with a proper dotted spelling,
    non-empty value lists, integers in the range of [i64], identifiers that
    are not boolean literals, and no timestamp. *)
Theorem parser_terminates_and_is_sound source :
  Parser.parse_fuel source = Some (parse source) /\
  (forall c, parse source = Ok c -> wf_condition c).
Proof.
  split; [apply parse_fuel_parse|]. intros c Hc.
  pose proof (ParserSound.parse_fuel_sat source) as H. rewrite parse_fuel_parse, Hc in H. exact H.
Qed.

(** C30: printing and parsing back is the identity on well-formed conditions;
    hence the parser accepts every well-formed condition, and re-parsing the
    printed form of what it accepted gives the same condition. *)
Theorem print_parse_roundtrip c :
  wf_condition c -> parse (print_condition c) = Ok c.
Proof.
  intros Hc. cut (Parser.parse_fuel (print_condition c) = Some (Ok c)).
  { rewrite parse_fuel_parse. by intros [= ->]. }
  unfold Parser.parse_fuel.
  destruct (parse_condition_print (print_condition c) c "" Hc) as [fuel H]; [done|].
  rewrite str_app_nil_r in H. rewrite H. by destruct c.
Qed.

(** The grammar has conjunction only: a well-formed condition followed by
    [or], [not] or a parenthesis is rejected as a disallowed token. *)
Theorem disjunction_is_rejected c t r :
  wf_condition c -> t ∈ ["or"; "not"; "("; ")"] -> next_is is_ident_continue r = false ->
  exists line column,
    parse (print_condition c +:+ " " +:+ t +:+ r) = Err (DisallowedToken line column t).
Proof.
  intros Hc Ht Hr. set (src := print_condition c +:+ " " +:+ t +:+ r).
  cut (exists l k, Parser.parse_fuel src = Some (Err (DisallowedToken l k t))).
  { rewrite parse_fuel_parse. naive_solver. }
  unfold Parser.parse_fuel. unfold src at 2.
  destruct (parse_condition_print src c (" " +:+ t +:+ r) Hc) as [fuel ->]; [done|].
  cbn [Parser.parse_conjuncts]. unfold Parser.at_eof. change (" " +:+ ?x) with (String " " x).
  rewrite skip_space.
  assert (exists a x, t +:+ r = String a x /\ solid a = true) as (a & x & E & Ha).
  { repeat (apply elem_of_cons in Ht as [->|Ht]; [by eexists _, _|]). by apply elem_of_nil in Ht. }
  rewrite E, skip_solid, <-E by done.
  assert (str_is_empty (t +:+ r) = false) as -> by (by rewrite E).
  unfold Parser.reject_disallowed_conjunctions, Parser.disallowed.
  rewrite E, skip_solid, <-E by done. destruct (Parser.position src (t +:+ r)) as [l k].
  exists l, k. unfold Parser.starts_with_word.
  repeat (apply elem_of_cons in Ht as [->|Ht]).
  - rewrite (proj2 (strip_prefix_Some "or" ("or" +:+ r) r)) by done. by rewrite Hr.
  - rewrite (proj2 (strip_prefix_Some "not" ("not" +:+ r) r)) by done. by rewrite Hr.
  - done.
  - done.
  - by apply elem_of_nil in Ht.
Qed.

(** ** Witnesses *)

Definition demo_condition : Condition :=
  conjunction [Predicate.Compare ClosedField.SubjectIsAi CompareOp.Eq (VBool true);
               Predicate.In (ClosedField.TargetAdapterDeclared "svc.name") [VIdentifier "nginx"; VIdentifier "x"];
               Predicate.Compare ClosedField.TimeHourUtc CompareOp.Lte (VInt (-17));
               Predicate.Contains ClosedField.RequestAction "restart"].

Lemma demo_condition_wf : wf_condition demo_condition.
Proof.
  assert (forall f seg segs, forallb ident_ok (seg :: segs) = true ->
    ClosedField.resolve (ClosedField.namespace f) (join_path seg segs) = Some f -> wf_field f) as Hf.
  { intros f seg segs Hi Hr. simpl in Hi. apply andb_true_iff in Hi as [Hi His].
    exists (join_path seg segs). split; [|done]. exists seg, segs. split_and!; [done| |done].
    apply Forall_forall. by apply forallb_elem. }
  split; [done|]. repeat constructor; try done.
  - by apply (Hf _ "is_ai" []).
  - by apply (Hf _ "svc" ["name"]).
  - by apply (Hf _ "hour_utc" []).
  - by apply (Hf _ "action" []).
Qed.

Lemma parser_terminates_and_is_sound_witness :
  wf_condition (conjunction [Predicate.Exists ClosedField.SubjectGroups]).
Proof.
  apply (parser_terminates_and_is_sound "subject.groups exists"). vm_compute. reflexivity.
Defined.

Lemma print_parse_roundtrip_witness :
  print_condition demo_condition =
    "subject.is_ai = true and target.svc.name in [nginx, x] and time.hour_utc <= -17 and request.action contains "
    +:+ print_string "restart" /\
  parse (print_condition demo_condition) = Ok demo_condition.
Proof. split; [vm_compute; reflexivity|]. apply (print_parse_roundtrip demo_condition demo_condition_wf). Defined.

Lemma disjunction_is_rejected_witness :
  exists l k, parse (print_condition demo_condition +:+ " or time.recovery_mode") =
    Err (DisallowedToken l k "or").
Proof.
  apply (disjunction_is_rejected demo_condition "or" " time.recovery_mode" demo_condition_wf);
    [set_solver|reflexivity].
Defined.
