(* ===== verification/CondEval.v ===== *)
(** * The conditions language: evaluation (crate [aios-policy],
    [conditions_eval.rs])

    [evaluate] runs the conjuncts from left to right against the subject, the
    envelope, the enrichment snapshot and a clock snapshot.  Every predicate
    reads its field through [resolve_field_value]. *)
From S2P Require Import Prelude Json Action PolicyTypes Conditions.

Record ClockSnapshot : Type := {
  clock_recovery_mode : bool;
  weekday : Z;
  hour_utc : Z;
}.

Record EvalContext : Type := {
  ctx_subject : HydratedSubject;
  ctx_envelope : Envelope.t;
  ctx_enrichment : EnrichmentSnapshot;
  ctx_now : ClockSnapshot;
}.

Inductive ConditionEvalError : Type :=
| TypeMismatch (field op expected_value_type actual_value_type : string)
| UnsupportedOperator (field op : string)
| HeterogeneousValueList (field : string).

Module FieldValue.

Inductive t : Type :=
| Str (s : string)
| StrList (l : list string)
| Bool (b : bool)
| Int (z : Z)
| Absent.

Definition type_name (v : t) : string :=
  match v with
  | Str _ => "string" | StrList _ => "string-list" | Bool _ => "bool"
  | Int _ => "int" | Absent => "absent"
  end.

End FieldValue.

Definition subject_type_token (st : SubjectType) : string :=
  match st with
  | Human => "human" | Agent => "agent" | Application => "application"
  | Service => "service" | Device => "device" | Workflow => "workflow"
  | RemoteOperator => "remote_operator"
  end.

Definition dry_run_token (d : DryRunMode) : string :=
  match d with Live => "LIVE" | Validate => "VALIDATE" | Simulate => "SIMULATE" end.

Module CondEval.
Import ClosedField.

(** The key of a target field in the request payload. *)
Definition target_key (f : ClosedField.t) : option string :=
  match f with
  | TargetScope => Some "scope"
  | TargetGroupId => Some "group_id"
  | TargetUserId => Some "user_id"
  | TargetReservedName => Some "reserved_name"
  | TargetIsConstitutionalSubstrate => Some "is_constitutional_substrate"
  | TargetSurfaceKind => Some "surface_kind"
  | TargetCompositionZone => Some "composition_zone"
  | TargetGpuCapabilityClass => Some "gpu_capability_class"
  | TargetGpuDeviceKind => Some "gpu_device_kind"
  | TargetThemeKind => Some "theme_kind"
  | TargetThemeId => Some "theme_id"
  | TargetExposureClass => Some "exposure_class"
  | TargetDeviceClass => Some "device_class"
  | TargetDeviceTrustClass => Some "device_trust_class"
  | TargetRemovable => Some "removable"
  | TargetDriverProvenance => Some "driver_provenance"
  | TargetFirmwareTrusted => Some "firmware_trusted"
  | TargetAdapterDeclared sub => Some sub
  | _ => None
  end.

(** The strings of an array, [None] as soon as one item is not a string. *)
Fixpoint all_strings (items : list json) : option (list string) :=
  match items with
  | [] => Some []
  | JString s :: items => strs ← all_strings items; Some (s :: strs)
  | _ :: _ => None
  end.

Definition resolve_target_from_request (f : ClosedField.t) (target : json) : FieldValue.t :=
  match target_key f with
  | None => FieldValue.Absent
  | Some key =>
      match json_get target key with
      | Some (JString s) => FieldValue.Str s
      | Some (JBool b) => FieldValue.Bool b
      | Some ((JInt _ | JFloat _) as n) =>
          match as_i64 n with Some z => FieldValue.Int z | None => FieldValue.Absent end
      | Some (JArray items) =>
          match all_strings items with
          | Some strs => FieldValue.StrList strs
          | None => FieldValue.Absent
          end
      | _ => FieldValue.Absent
      end
  end.

Definition resolve_field_value (f : ClosedField.t) (ctx : EvalContext) : FieldValue.t :=
  match f with
  | SubjectCanonicalSubjectId => FieldValue.Str (canonical_subject_id (ctx_subject ctx))
  | SubjectSubjectType =>
      FieldValue.Str (subject_type_token (subject_type (ctx_subject ctx)))
  | SubjectGroups => FieldValue.StrList (groups (ctx_subject ctx))
  | SubjectCapabilities => FieldValue.StrList (capabilities (ctx_subject ctx))
  | SubjectSessionClass => FieldValue.Str (session_class (ctx_subject ctx))
  | SubjectRecoveryMode => FieldValue.Bool (recovery_mode (ctx_subject ctx))
  | SubjectIsAi => FieldValue.Bool (is_ai (ctx_subject ctx))
  | SubjectPrimaryGroupId | SubjectIsFirstBoot | SubjectNetworkOutboundDirective
  | SubjectAiExternalPosture => FieldValue.Absent
  | RequestAction => FieldValue.Str (action (Envelope.request (ctx_envelope ctx)))
  | RequestDryRun =>
      FieldValue.Str (dry_run_token (dry_run (Envelope.request (ctx_envelope ctx))))
  | RequestEnvironment | RequestSandboxProfileId | RequestRiskDestructive
  | RequestRiskPrivileged | RequestRiskNetworkExposure | RequestRiskSecretAccess
  | RequestRiskRecoveryPathAffected => FieldValue.Absent
  | TargetScope | TargetGroupId | TargetUserId | TargetReservedName
  | TargetIsConstitutionalSubstrate | TargetSurfaceKind | TargetCompositionZone
  | TargetGpuCapabilityClass | TargetGpuDeviceKind | TargetThemeKind | TargetThemeId
  | TargetExposureClass | TargetDeviceClass | TargetDeviceTrustClass | TargetRemovable
  | TargetDriverProvenance | TargetFirmwareTrusted | TargetAdapterDeclared _ =>
      resolve_target_from_request f (target (Envelope.request (ctx_envelope ctx)))
  | ObjectPrivacyClass | ObjectPolicyTags | ObjectKind | ObjectLifecycleState
  | ObjectCreatedBy => FieldValue.Absent
  | TimeRecoveryMode => FieldValue.Bool (clock_recovery_mode (ctx_now ctx))
  | TimeWeekday => FieldValue.Int (weekday (ctx_now ctx))
  | TimeHourUtc => FieldValue.Int (hour_utc (ctx_now ctx))
  | SystemHostId | SystemClusterId | SystemReleaseChannel => FieldValue.Absent
  end.

Definition compare_ord (a b : Z) (op : CompareOp.t) : bool :=
  match op with
  | CompareOp.Eq => (a =? b)%Z
  | CompareOp.Neq => negb (a =? b)%Z
  | CompareOp.Lt => (a <? b)%Z
  | CompareOp.Lte => (a <=? b)%Z
  | CompareOp.Gt => (b <? a)%Z
  | CompareOp.Gte => (b <=? a)%Z
  end.

Definition compare_str (a b : string) (op : CompareOp.t) : bool :=
  match op with
  | CompareOp.Eq => String.eqb a b
  | CompareOp.Neq => negb (String.eqb a b)
  | CompareOp.Lt => str_lt a b
  | CompareOp.Lte => str_le a b
  | CompareOp.Gt => str_lt b a
  | CompareOp.Gte => str_le b a
  end.

Definition eval_compare (f : ClosedField.t) (op : CompareOp.t) (rhs : Value) (ctx : EvalContext)
    : result ConditionEvalError bool :=
  let actual := resolve_field_value f ctx in
  match actual, rhs with
  | FieldValue.Bool a, VBool b =>
      match op with
      | CompareOp.Eq => Ok (Bool.eqb a b)
      | CompareOp.Neq => Ok (negb (Bool.eqb a b))
      | _ => Err (UnsupportedOperator (as_dotted f) (CompareOp.as_str op))
      end
  | FieldValue.Int a, VInt b => Ok (compare_ord a b op)
  | FieldValue.Str a, (VString b | VIdentifier b) => Ok (compare_str a b op)
  | FieldValue.Str a, VTimestamp b =>
      match op with
      | CompareOp.Eq => Ok (String.eqb a b)
      | CompareOp.Neq => Ok (negb (String.eqb a b))
      | _ => Err (TypeMismatch (as_dotted f) (CompareOp.as_str op) "string" (value_type_name rhs))
      end
  | FieldValue.Absent, _ => Ok false
  | actual, rhs =>
      Err (TypeMismatch (as_dotted f) (CompareOp.as_str op)
             (FieldValue.type_name actual) (value_type_name rhs))
  end.

(** [std::mem::discriminant(a) == std::mem::discriminant(b)]. *)
Definition same_variant (a b : Value) : bool :=
  match a, b with
  | VString _, VString _ | VIdentifier _, VIdentifier _ | VInt _, VInt _
  | VBool _, VBool _ | VTimestamp _, VTimestamp _ => true
  | _, _ => false
  end.

Definition value_text (v : Value) : option string :=
  match v with VString b | VIdentifier b => Some b | _ => None end.

Definition eval_in (f : ClosedField.t) (values : list Value) (ctx : EvalContext)
    : result ConditionEvalError bool :=
  if match values with
     | first :: rest => existsb (fun v => negb (same_variant first v)) rest
     | [] => false
     end
  then Err (HeterogeneousValueList (as_dotted f))
  else
    match resolve_field_value f ctx, head values with
    | FieldValue.Absent, _ | _, None => Ok false
    | FieldValue.Bool a, Some (VBool _) =>
        Ok (existsb (fun v => match v with VBool b => Bool.eqb b a | _ => false end) values)
    | FieldValue.Int a, Some (VInt _) =>
        Ok (existsb (fun v => match v with VInt b => (b =? a)%Z | _ => false end) values)
    | FieldValue.Str a, Some (VString _ | VIdentifier _) =>
        Ok (existsb (fun v => match value_text v with Some b => String.eqb b a | None => false end)
              values)
    | FieldValue.StrList l, Some (VString _ | VIdentifier _) =>
        Ok (existsb (fun v => match value_text v with
                              | Some b => existsb (fun item => String.eqb item b) l
                              | None => false
                              end) values)
    | actual, Some rhs =>
        Err (TypeMismatch (as_dotted f) "in" (FieldValue.type_name actual) (value_type_name rhs))
    end.

Definition eval_contains (f : ClosedField.t) (needle : string) (ctx : EvalContext)
    : result ConditionEvalError bool :=
  match resolve_field_value f ctx with
  | FieldValue.Absent => Ok false
  | FieldValue.Str haystack => Ok (str_contains needle haystack)
  | FieldValue.StrList l => Ok (existsb (fun item => String.eqb item needle) l)
  | other => Err (TypeMismatch (as_dotted f) "contains" "string-or-string-list"
                    (FieldValue.type_name other))
  end.

Definition eval_exists (f : ClosedField.t) (ctx : EvalContext) : bool :=
  match resolve_field_value f ctx with
  | FieldValue.Absent => false
  | FieldValue.Str s => negb (str_is_empty s)
  | FieldValue.StrList l => match l with [] => false | _ => true end
  | FieldValue.Bool _ | FieldValue.Int _ => true
  end.

Definition evaluate_predicate (p : Predicate.t) (ctx : EvalContext)
    : result ConditionEvalError bool :=
  match p with
  | Predicate.Compare f op rhs => eval_compare f op rhs ctx
  | Predicate.In f values => eval_in f values ctx
  | Predicate.Contains f needle => eval_contains f needle ctx
  | Predicate.Exists f => Ok (eval_exists f ctx)
  end.

Fixpoint evaluate_all (ps : list Predicate.t) (ctx : EvalContext)
    : result ConditionEvalError bool :=
  match ps with
  | [] => Ok true
  | p :: ps =>
      let? b := evaluate_predicate p ctx in
      if negb b then Ok false else evaluate_all ps ctx
  end.

Definition evaluate (c : Condition) (ctx : EvalContext) : result ConditionEvalError bool :=
  evaluate_all (predicates c) ctx.

(** ** Reference semantics *)

Definition holds (p : Predicate.t) (ctx : EvalContext) : Prop := evaluate_predicate p ctx = Ok true.

(** [decided_by pre p r]: every conjunct of [pre] holds and [p] stops the run with [r]. *)
Definition decided_by (ctx : EvalContext) (ps : list Predicate.t)
    (r : result ConditionEvalError bool) : Prop :=
  exists pre p post, ps = pre ++ p :: post /\ Forall (fun q => holds q ctx) pre /\
    evaluate_predicate p ctx = r /\ r <> Ok true.

(** The literals an operator accepts on a field value. *)
Definition well_typed (v : FieldValue.t) (op : CompareOp.t) (rhs : Value) : bool :=
  let eq_only := match op with CompareOp.Eq | CompareOp.Neq => true | _ => false end in
  match v, rhs with
  | FieldValue.Absent, _ => true
  | FieldValue.Bool _, VBool _ | FieldValue.Str _, VTimestamp _ => eq_only
  | FieldValue.Int _, VInt _ | FieldValue.Str _, (VString _ | VIdentifier _) => true
  | _, _ => false
  end.

(** ** Lemmas *)

Lemma evaluate_all_app ps qs ctx :
  evaluate_all (ps ++ qs) ctx =
  match evaluate_all ps ctx with Ok true => evaluate_all qs ctx | r => r end.
Proof.
  induction ps as [|p ps IH]; [done|]. simpl.
  destruct (evaluate_predicate p ctx) as [[]|]; simpl; [apply IH|done|done].
Qed.

Lemma evaluate_all_true ps ctx :
  evaluate_all ps ctx = Ok true <-> Forall (fun p => holds p ctx) ps.
Proof.
  unfold holds. induction ps as [|p ps IH]; simpl; [by split|].
  rewrite Forall_cons, <-IH. destruct (evaluate_predicate p ctx) as [[]|]; simpl; naive_solver.
Qed.

Lemma evaluate_all_stops ps ctx r :
  r <> Ok true -> evaluate_all ps ctx = r <-> decided_by ctx ps r.
Proof.
  intros Hr. split.
  - induction ps as [|p ps IH]; simpl; [congruence|].
    destruct (evaluate_predicate p ctx) as [[]|e] eqn:E; simpl.
    + intros H. destruct (IH H) as (pre & q & post & -> & Hp & Hq & _).
      exists (p :: pre), q, post. split_and!; auto.
    + intros <-. exists [], p, ps. split_and!; auto.
    + intros <-. exists [], p, ps. split_and!; auto.
  - intros (pre & p & post & -> & Hp & He & _). rewrite evaluate_all_app.
    rewrite (proj2 (evaluate_all_true pre ctx)) by done. simpl. rewrite He.
    destruct r as [[]|]; naive_solver.
Qed.

Lemma compare_str_total a b :
  compare_str a b CompareOp.Lte = negb (compare_str a b CompareOp.Gt) /\
  compare_str a b CompareOp.Gte = negb (compare_str a b CompareOp.Lt) /\
  compare_str a b CompareOp.Lte =
    compare_str a b CompareOp.Lt || compare_str a b CompareOp.Eq.
Proof.
  simpl. unfold str_le, str_lt. rewrite (String.compare_antisym b a).
  pose proof (String.compare_eq_iff a b) as Heq.
  assert (String.compare a a = Datatypes.Eq) as Hrefl.
  { pose proof (String.compare_antisym a a). by destruct (String.compare a a). }
  destruct (String.eqb_spec a b) as [<-|He]; [by rewrite Hrefl|].
  destruct (String.compare a b) eqn:E; simpl; split_and!; try done; by destruct (He (Heq eq_refl)).
Qed.

Lemma compare_ord_total a b :
  compare_ord a b CompareOp.Lte = negb (compare_ord a b CompareOp.Gt) /\
  compare_ord a b CompareOp.Gte = negb (compare_ord a b CompareOp.Lt) /\
  compare_ord a b CompareOp.Lte =
    compare_ord a b CompareOp.Lt || compare_ord a b CompareOp.Eq.
Proof. simpl. split_and!; lia. Qed.

(** ** Properties *)

(** A condition is the left-to-right conjunction of its predicates: it
    gives true exactly when each of them does, and otherwise its outcome,
    false or an error, is that of the first predicate that does not give true,
    whatever follows it. *)
Theorem evaluate_is_short_circuit_conjunction c ctx :
  (evaluate c ctx = Ok true <-> Forall (fun p => holds p ctx) (predicates c)) /\
  (evaluate c ctx = Ok false <-> decided_by ctx (predicates c) (Ok false)) /\
  (forall e, evaluate c ctx = Err e <-> decided_by ctx (predicates c) (Err e)) /\
  (forall d, evaluate (conjunction (predicates c ++ predicates d)) ctx =
     match evaluate c ctx with Ok true => evaluate d ctx | r => r end).
Proof.
  split_and!.
  - apply evaluate_all_true.
  - by apply evaluate_all_stops.
  - intros e. by apply evaluate_all_stops.
  - intros d. apply evaluate_all_app.
Qed.

(** A comparison fails with an error exactly when the literal's type or
    the operator does not fit the value of the field, never because the field
    is absent: an absent field makes every comparison, [=] and [!=] alike,
    false.  On a present field [!=] is the negation of [=], [>=] of [<], [<=]
    of [>], and [<=] is [<] or [=]. *)
Theorem compare_typed_and_ordered f rhs ctx :
  let v := resolve_field_value f ctx in
  (forall op, is_ok (eval_compare f op rhs ctx) = well_typed v op rhs) /\
  (v = FieldValue.Absent -> forall op, eval_compare f op rhs ctx = Ok false) /\
  (v <> FieldValue.Absent -> forall b,
     eval_compare f CompareOp.Eq rhs ctx = Ok b ->
     eval_compare f CompareOp.Neq rhs ctx = Ok (negb b)) /\
  (v <> FieldValue.Absent -> forall l,
     eval_compare f CompareOp.Lt rhs ctx = Ok l ->
     eval_compare f CompareOp.Gte rhs ctx = Ok (negb l) /\
     exists g e, eval_compare f CompareOp.Gt rhs ctx = Ok g /\
       eval_compare f CompareOp.Eq rhs ctx = Ok e /\
       eval_compare f CompareOp.Lte rhs ctx = Ok (negb g) /\ negb g = l || e).
Proof.
  intros v. unfold v, eval_compare. split_and!.
  - intros op. destruct (resolve_field_value f ctx), rhs, op; done.
  - intros ->. by destruct rhs.
  - intros Hv b. destruct (resolve_field_value f ctx), rhs; intros H; by simplify_eq/=.
  - intros Hv l. destruct (resolve_field_value f ctx) as [a|a|a|a|], rhs as [b|b|b|b|b];
      intros H; simplify_eq/=.
    + destruct (compare_str_total a b) as (H1 & H2 & H3). simpl in *. rewrite H2.
      split; [done|]. eexists _, _. split_and!; [done..|by rewrite H1|]. by rewrite <-H1.
    + destruct (compare_str_total a b) as (H1 & H2 & H3). simpl in *. rewrite H2.
      split; [done|]. eexists _, _. split_and!; [done..|by rewrite H1|]. by rewrite <-H1.
    + destruct (compare_ord_total a b) as (H1 & H2 & H3). simpl in *. rewrite H2.
      split; [done|]. eexists _, _. split_and!; [done..|by rewrite H1|]. by rewrite <-H1.
Qed.

Lemma existsb_iff {A} (p : A -> bool) (Q : A -> Prop) l :
  (forall x, x ∈ l -> p x = true <-> Q x) ->
  existsb p l = true <-> exists x, x ∈ l /\ Q x.
Proof. intros H. rewrite existsb_elem. naive_solver. Qed.

Lemma eval_in_homogeneous f vs ctx b :
  eval_in f vs ctx = Ok b -> forall v w, v ∈ vs -> w ∈ vs -> same_variant v w = true.
Proof.
  unfold eval_in. destruct vs as [|x vs]; [set_solver|].
  destruct (existsb _ vs) eqn:Eh; [done|]. intros _.
  assert (forall y, y ∈ x :: vs -> same_variant x y = true) as Hx.
  { intros y [->|Hy]%elem_of_cons; [by destruct x|].
    destruct (same_variant x y) eqn:E; [done|]. apply not_true_iff_false in Eh.
    exfalso. apply Eh, existsb_elem. exists y. by rewrite E. }
  intros v w Hv Hw. apply Hx in Hv, Hw. by destruct x, v, w.
Qed.

(** [in] is a disjunction: when it gives an answer, it is true exactly
    when some listed value equals the field (for a list-valued field: when
    [contains] holds for the text of some listed value); and when it answers,
    the listed values are all of one kind. *)
Theorem in_is_disjunction f vs ctx b :
  eval_in f vs ctx = Ok b ->
  (forall v w, v ∈ vs -> w ∈ vs -> same_variant v w = true) /\
  (b = true <-> exists v, v ∈ vs /\
     match resolve_field_value f ctx with
     | FieldValue.StrList _ =>
         exists s, value_text v = Some s /\ eval_contains f s ctx = Ok true
     | _ => eval_compare f CompareOp.Eq v ctx = Ok true
     end).
Proof.
  intros H. pose proof (eval_in_homogeneous _ _ _ _ H) as Hh. split; [done|]. revert H.
  unfold eval_in. destruct (match vs with [] => false | _ => _ end); [done|].
  unfold eval_compare, eval_contains.
  destruct vs as [|x vs].
  { destruct (resolve_field_value f ctx); intros [= <-]; split; try done; set_solver. }
  assert (forall v, v ∈ x :: vs -> same_variant x v = true) as Hx by (intros; apply Hh; set_solver).
  cbn [head]. destruct (resolve_field_value f ctx) as [a|l|a|a|], x; intros H;
    try discriminate H; apply ok_inj in H; subst b;
    try (split; [done|]; intros (v & _ & Hv); by destruct v);
    apply existsb_iff; intros v Hv; apply Hx in Hv; destruct v; try done; simpl.
  all: try (split; [intros H; eexists; split; [reflexivity|by rewrite H]|];
            intros (s1 & [= <-] & H); by apply ok_inj in H).
  all: split; [intros H|intros H%ok_inj]; first [rewrite String.eqb_eq in *|rewrite Z.eqb_eq in *
    |rewrite Bool.eqb_true_iff in *]; subst;
    rewrite ?String.eqb_refl, ?Z.eqb_refl, ?Bool.eqb_reflx; done.
Qed.

(** ** Witnesses *)

Definition demo_ctx : EvalContext :=
  {| ctx_subject := {| canonical_subject_id := "human:lucky:01"; subject_type := Human;
                       groups := ["operators"]; capabilities := []; session_class := "INTERNAL";
                       recovery_mode := false; is_ai := false |};
     ctx_envelope := Envelope.new 0 {| subject_canonical_id := "human:lucky";
                                       identity_is_ai := false;
                                       session_id := None |}
                       (new_request "service.restart" (JObject [("service", JString "nginx")]))
                       {| trace_id := ""; span_id := ""; parent_span_id := None |};
     ctx_enrichment := default_enrichment;
     ctx_now := {| clock_recovery_mode := false; weekday := 1; hour_utc := 9 |} |}.

Lemma in_is_disjunction_witness :
  true = true <-> exists v, v ∈ [VString "apache"; VString "nginx"] /\
    eval_compare (TargetAdapterDeclared "service") CompareOp.Eq v demo_ctx = Ok true.
Proof.
  apply (in_is_disjunction (TargetAdapterDeclared "service")
           [VString "apache"; VString "nginx"] demo_ctx true).
  vm_compute. reflexivity.
Defined.

End CondEval.
