(* ===== verification/Bundle.v ===== *)
(** * Policy bundles and their loader (crate [aios-policy], [bundle.rs] and
    [bundle_loader.rs])

    [load_from_bytes] and [accept_bundle] are two separate bodies in the
    source and two separate definitions here.  JSON, the Ed25519 verifier and
    file reads are parameters; byte vectors are strings. *)
From S2P Require Import Prelude Json PolicyTypes Conditions CondParser CondSound.

Module RuleEffect.
Inductive t : Type := Unspecified | Allow | Deny.
End RuleEffect.

Module RuleScope.
Inductive t : Type := Global | PerSubjectType | PerActionTarget | PerSubject | PerAction.
End RuleScope.

Module PolicyRule.

Record t : Type := {
  rule_id : string;
  scope : RuleScope.t;
  effect : RuleEffect.t;
  priority : Z;
  subjects : list string;
  actions : list string;
  conditions : list string;
  constraints : option Constraints.t;
  approval : option ApprovalRequirement;
  reason_code : string;
}.

End PolicyRule.

Module PolicyBundle.

Record t : Type := {
  bundle_version : string;
  bundle_id : string;
  created_at : DateTime;
  signing_authority : string;
  signature_ed25519 : string;
  rules : list PolicyRule.t;
}.

(** [SignedBundleBody]: every field but the signature. *)
Record signed_body : Type := {
  body_bundle_version : string;
  body_bundle_id : string;
  body_created_at : DateTime;
  body_signing_authority : string;
  body_rules : list PolicyRule.t;
}.

Definition signed_body_of (b : t) : signed_body :=
  {| body_bundle_version := bundle_version b; body_bundle_id := bundle_id b;
     body_created_at := created_at b; body_signing_authority := signing_authority b;
     body_rules := rules b |}.

Section Canonical.
(** [serde_json::to_vec] of a signed body. *)
Variable to_vec : signed_body -> result string string.

Definition canonical_signed_body_bytes (b : t) : result PolicyError string :=
  map_err (fun e => InvalidPolicyBundle ("signed-body serialise: " +:+ e)) (to_vec (signed_body_of b)).
End Canonical.

End PolicyBundle.

Module BundleLoader.

Section Loader.
(** Third-party code: the keys of [ed25519_dalek] and their [verify] (body,
    then signature) and [serde_json::to_vec] of the signed body. *)
Context {VerifyingKey : Type}.
Variable verify : VerifyingKey -> string -> string -> bool.
Variable to_vec : PolicyBundle.signed_body -> result string string.

Record t : Type := {
  trusted_authorities : gmap string VerifyingKey;
  expected_bundle_version : option string;
}.

Definition new (authorities : gmap string VerifyingKey) : t :=
  {| trusted_authorities := authorities; expected_bundle_version := None |}.

Definition with_version_pin (authorities : gmap string VerifyingKey) (v : string) : t :=
  {| trusted_authorities := authorities; expected_bundle_version := Some v |}.

Definition pin_version (v : string) (l : t) : t :=
  {| trusted_authorities := trusted_authorities l; expected_bundle_version := Some v |}.

Definition clear_version_pin (l : t) : t :=
  {| trusted_authorities := trusted_authorities l; expected_bundle_version := None |}.

Definition trusts_authority (name : string) (l : t) : bool :=
  is_some (trusted_authorities l !! name).

(** [<[u8; 64]>::try_from]. *)
Definition try_into_64 (bytes : string) : option string :=
  if (String.length bytes =? 64)%nat then Some bytes else None.

(** The inner loop: each condition of a rule parses. *)
Fixpoint check_conditions (rule_id : string) (conds : list string) : result PolicyError unit :=
  match conds with
  | [] => Ok tt
  | cond :: conds =>
      let? _ := map_err (fun e => InvalidPolicyBundle
                  ("rule " +:+ rule_id +:+ " condition: " +:+ show_parse_error e)) (parse cond) in
      check_conditions rule_id conds
  end.

(** The loop over the rules. *)
Fixpoint check_rules (rules : list PolicyRule.t) : result PolicyError unit :=
  match rules with
  | [] => Ok tt
  | rule :: rules =>
      match PolicyRule.effect rule with
      | RuleEffect.Unspecified =>
          Err (InvalidPolicyBundle ("rule " +:+ PolicyRule.rule_id rule
            +:+ " effect: UNSPECIFIED is reserved for proto3 wire compatibility"))
      | _ =>
          let? _ := check_conditions (PolicyRule.rule_id rule) (PolicyRule.conditions rule) in
          check_rules rules
      end
  end.

Definition accept_bundle (l : t) (bundle : PolicyBundle.t) : result PolicyError PolicyBundle.t :=
  let? _ := match expected_bundle_version l with
            | Some expected =>
                if negb (String.eqb (PolicyBundle.bundle_version bundle) expected)
                then Err (BundleVersionMismatch expected (PolicyBundle.bundle_version bundle))
                else Ok tt
            | None => Ok tt
            end in
  let? key := ok_or (trusted_authorities l !! PolicyBundle.signing_authority bundle)
                (BundleUnknownAuthority (PolicyBundle.signing_authority bundle)) in
  let? signature := ok_or (try_into_64 (PolicyBundle.signature_ed25519 bundle))
                      BundleSignatureInvalid in
  let? body := PolicyBundle.canonical_signed_body_bytes to_vec bundle in
  let? _ := if verify key body signature then Ok tt else Err BundleSignatureInvalid in
  let? _ := check_rules (PolicyBundle.rules bundle) in
  Ok bundle.

(** [from_slice] is [serde_json::from_slice]. *)
Definition load_from_bytes (from_slice : string -> result string PolicyBundle.t)
    (l : t) (bytes : string) : result PolicyError PolicyBundle.t :=
  let? bundle := map_err (fun e => InvalidPolicyBundle ("JSON deserialise: " +:+ e))
                   (from_slice bytes) in
  let? _ := match expected_bundle_version l with
            | Some expected =>
                if negb (String.eqb (PolicyBundle.bundle_version bundle) expected)
                then Err (BundleVersionMismatch expected (PolicyBundle.bundle_version bundle))
                else Ok tt
            | None => Ok tt
            end in
  let? key := ok_or (trusted_authorities l !! PolicyBundle.signing_authority bundle)
                (BundleUnknownAuthority (PolicyBundle.signing_authority bundle)) in
  let? signature := ok_or (try_into_64 (PolicyBundle.signature_ed25519 bundle))
                      BundleSignatureInvalid in
  let? body := PolicyBundle.canonical_signed_body_bytes to_vec bundle in
  let? _ := if verify key body signature then Ok tt else Err BundleSignatureInvalid in
  let? _ := check_rules (PolicyBundle.rules bundle) in
  Ok bundle.

(** [read_file] is [std::fs::read]. *)
Definition load_from_file (from_slice : string -> result string PolicyBundle.t)
    (read_file : string -> result string string) (l : t) (path : string) : result PolicyError PolicyBundle.t :=
  let? bytes := map_err (fun e => InvalidPolicyBundle ("file read " +:+ path +:+ ": " +:+ e))
                  (read_file path) in
  load_from_bytes from_slice l bytes.

(** ** What acceptance means *)

Definition rule_ok (r : PolicyRule.t) : Prop :=
  PolicyRule.effect r <> RuleEffect.Unspecified /\
  Forall (fun c => is_ok (parse c) = true) (PolicyRule.conditions r).

Definition authentic (l : t) (b : PolicyBundle.t) : Prop :=
  (forall v, expected_bundle_version l = Some v -> PolicyBundle.bundle_version b = v) /\
  exists key body,
    trusted_authorities l !! PolicyBundle.signing_authority b = Some key /\
    String.length (PolicyBundle.signature_ed25519 b) = 64 /\
    to_vec (PolicyBundle.signed_body_of b) = Ok body /\
    verify key body (PolicyBundle.signature_ed25519 b) = true.

(** ** Lemmas *)

Lemma check_conditions_ok id cs :
  check_conditions id cs = Ok tt <-> Forall (fun c => is_ok (parse c) = true) cs.
Proof.
  induction cs as [|c cs IH]; simpl; [by split|]. rewrite Forall_cons, <-IH.
  destruct (parse c); simpl; naive_solver.
Qed.

Lemma check_rules_ok rs : check_rules rs = Ok tt <-> Forall rule_ok rs.
Proof.
  induction rs as [|r rs IH]; simpl; [by split|]. rewrite Forall_cons, <-IH. unfold rule_ok.
  destruct (PolicyRule.effect r).
  - naive_solver.
  - rewrite result_bind_ok. setoid_rewrite <-check_conditions_ok.
    split; [intros ([] & ? & ?)|intros [[? ?] ?]; exists tt]; done.
  - rewrite result_bind_ok. setoid_rewrite <-check_conditions_ok.
    split; [intros ([] & ? & ?)|intros [[? ?] ?]; exists tt]; done.
Qed.

Lemma accept_ok l b b' :
  accept_bundle l b = Ok b' <-> b' = b /\ authentic l b /\ Forall rule_ok (PolicyBundle.rules b).
Proof.
  unfold accept_bundle, authentic. rewrite <-check_rules_ok.
  assert (forall v, expected_bundle_version l = Some v -> PolicyBundle.bundle_version b <> v ->
    match expected_bundle_version l with
    | Some e => if negb (String.eqb (PolicyBundle.bundle_version b) e)
        then Err (BundleVersionMismatch e (PolicyBundle.bundle_version b)) else Ok tt
    | None => Ok tt end = Err (BundleVersionMismatch v (PolicyBundle.bundle_version b))) as Hpin.
  { intros v -> Hne. apply String.eqb_neq in Hne as ->. done. }
  destruct (expected_bundle_version l) as [e|]; simpl;
    [destruct (String.eqb_spec (PolicyBundle.bundle_version b) e) as [He|He]; simpl|].
  2:{ split; [done|]. intros (_ & (Hv & _) & _). by specialize (Hv e eq_refl). }
  all: clear Hpin; destruct (trusted_authorities l !! _) as [key|]; simpl;
    [|split; [done|]; intros (_ & (_ & ? & ? & ? & _) & _); done].
  all: unfold try_into_64; destruct (Nat.eqb_spec (String.length (PolicyBundle.signature_ed25519 b)) 64);
    simpl; [|split; [done|]; intros (_ & (_ & ? & ? & _ & ? & _) & _); done].
  all: unfold PolicyBundle.canonical_signed_body_bytes; destruct (to_vec _) as [body|] eqn:Eb; simpl;
    [|split; [done|]; intros (_ & (_ & ? & ? & _ & _ & ? & _) & _); done].
  all: destruct (verify key body _) eqn:Ev; simpl;
    [|split; [done|]; intros (_ & (_ & k & bd & [= <-] & _ & [= <-] & Hv) & _); congruence].
  all: destruct (check_rules _) as [[]|]; simpl; [|naive_solver].
  all: split; [intros [= <-]|intros (-> & _); done].
  all: split_and!; try done; try (by intros v [= <-]); by exists key, body.
Qed.

Lemma load_is_parse_then_accept from_slice l bytes :
  load_from_bytes from_slice l bytes =
  (let? bundle := map_err (fun e => InvalidPolicyBundle ("JSON deserialise: " +:+ e))
                    (from_slice bytes) in
   accept_bundle l bundle).
Proof. done. Qed.

(** ** Properties *)

(** A bundle is accepted exactly when its version is the pinned one, if
    any, its authority is trusted, its signature is 64 bytes that the
    authority's key verifies over the signed body, every rule has an effect
    and every condition string of every rule parses; acceptance returns the
    bundle unchanged. *)
Theorem accept_bundle_exact l b b' :
  accept_bundle l b = Ok b' <-> b' = b /\ authentic l b /\ Forall rule_ok (PolicyBundle.rules b).
Proof. apply accept_ok. Qed.

(** The two loading paths agree: loading bytes is deserialising them and
    then accepting the bundle as the structured path does; so a bundle loaded
    from bytes is authentic, and every condition it carries is a well-formed
    condition. *)
Theorem load_from_bytes_agrees from_slice l bytes b :
  (forall b0, from_slice bytes = Ok b0 -> load_from_bytes from_slice l bytes = accept_bundle l b0) /\
  (load_from_bytes from_slice l bytes = Ok b -> from_slice bytes = Ok b /\ authentic l b /\
     forall r c, r ∈ PolicyBundle.rules b -> c ∈ PolicyRule.conditions r ->
       exists ast, parse c = Ok ast /\ wf_condition ast).
Proof.
  rewrite load_is_parse_then_accept. split.
  - by intros b0 ->.
  - destruct (from_slice bytes) as [b0|]; simpl; [|done].
    intros (-> & Ha & Hr)%accept_ok. split_and!; [done..|].
    intros r c Hin Hc. rewrite Forall_forall in Hr. destruct (Hr r Hin) as [_ Hall].
    rewrite Forall_forall in Hall. specialize (Hall c Hc).
    destruct (parse c) as [ast|] eqn:E; [|done]. exists ast. split; [done|].
    pose proof (ParserSound.parse_fuel_sat c) as Hs. rewrite parse_fuel_parse, E in Hs. exact Hs.
Qed.
End Loader.

Arguments t : clear implicits.
Arguments new {VerifyingKey}.

(** ** Witnesses *)

Definition demo_bundle : PolicyBundle.t :=
  {| PolicyBundle.bundle_version := "polb_1"; PolicyBundle.bundle_id := "base";
     PolicyBundle.created_at := 0; PolicyBundle.signing_authority := "root";
     PolicyBundle.signature_ed25519 :=
       "0123456789abcdef0123456789abcdef0123456789abcdef0123456789abcdef";
     PolicyBundle.rules :=
       [{| PolicyRule.rule_id := "r1"; PolicyRule.scope := RuleScope.Global;
           PolicyRule.effect := RuleEffect.Deny; PolicyRule.priority := 0;
           PolicyRule.subjects := []; PolicyRule.actions := [];
           PolicyRule.conditions := ["subject.is_ai = true"]; PolicyRule.constraints := None;
           PolicyRule.approval := None; PolicyRule.reason_code := "BundleDeny" |}] |}.

Lemma accept_bundle_exact_witness :
  authentic (fun k body _ => String.eqb k body) (fun b => Ok (PolicyBundle.body_bundle_id b))
    (new {["root" := "base"]}) demo_bundle.
Proof.
  apply (accept_bundle_exact (fun k body _ => String.eqb k body)
    (fun b => Ok (PolicyBundle.body_bundle_id b)) (new {["root" := "base"]}) demo_bundle demo_bundle).
  vm_compute. reflexivity.
Defined.

Lemma load_from_bytes_agrees_witness :
  authentic (fun k body _ => String.eqb k body) (fun b => Ok (PolicyBundle.body_bundle_id b))
    (new {["root" := "base"]}) demo_bundle.
Proof.
  apply (load_from_bytes_agrees (fun k body _ => String.eqb k body)
    (fun b => Ok (PolicyBundle.body_bundle_id b)) (fun _ => Ok demo_bundle)
    (new {["root" := "base"]}) "{}" demo_bundle).
  vm_compute. reflexivity.
Defined.

End BundleLoader.
