(* ===== verification/Pipeline.v ===== *)
(** * The decision pipeline (crate [aios-policy], [pipeline.rs])

    The steps of [DecisionPipeline], in the driver's order, over the hard-deny
    engine of [HardDeny] and the override registry of [Override].  What a run
    reads from its environment (two clock reads, the ULIDs of the decision and
    of the action) is the record [Ambient]; JCS, BLAKE3 and the iteration order
    of a [HashMap] are section variables. *)
From S2P Require Import Prelude Json Action PolicyTypes HardDeny Override.

(** ** Request hashes ([request.rs], [canonical.rs] of [aios-action]) *)
Inductive CanonicalError : Type := Projection (detail : string).

Section RequestHash.
(** [serde_jcs::to_string] of a [Request] and [blake3::hash(..).to_hex()]. *)
Variable jcs_to_string : Request -> result string string.
Variable blake3_to_hex : string -> string.

Definition jcs_canonicalize (r : Request) : result CanonicalError string :=
  map_err Projection (jcs_to_string r).

Definition blake3_hash (canonical_bytes : string) : string := blake3_to_hex canonical_bytes.

Definition request_hash_of (r : Request) : result CanonicalError string :=
  let? canonical := jcs_canonicalize r in
  Ok (blake3_hash canonical).

(** [compute_request_hash]: the hash, or the empty string on failure. *)
Definition compute_request_hash (env : Envelope.t) : string :=
  match request_hash_of (Envelope.request env) with Ok h => h | Err _ => "" end.
End RequestHash.

(** ** Inputs ([kernel.rs]) *)
Record PolicyContext : Type := {
  subject : HydratedSubject;
  enrichment : EnrichmentSnapshot;
  ctx_bundle_version : string;
  code_version : string;
}.

Definition with_subject (s : HydratedSubject) (c : PolicyContext) : PolicyContext :=
  {| subject := s; enrichment := enrichment c; ctx_bundle_version := ctx_bundle_version c;
     code_version := code_version c |}.

(** What one evaluation reads from its environment. *)
Record Ambient : Type := {
  decision_ulid : string;   (** [Ulid::new()] in [emit_decision] *)
  fresh_action_id : string; (** [ActionId::new()] in [envelope_action_id] *)
  lookup_now : DateTime;    (** [Utc::now()] in [is_overridden] *)
  emit_now : DateTime;      (** [Utc::now()] in [emit_decision] *)
}.

Inductive PipelineState : Type :=
| Continue
| ShortCircuit (d : PolicyDecision).

(** [mod reason_code]. *)
Definition SCHEMA_INVALID : string := "SchemaInvalid".
Definition DEFAULT_DENY : string := "DefaultDeny".
Definition SUBJECT_UNAUTHENTICATED : string := "SubjectUnauthenticated".
Definition AI_SELF_APPROVAL_UPGRADE : string := "AiSelfApprovalUpgrade".
Definition EMERGENCY_OVERRIDE_RELAXED : string := "EmergencyOverrideRelaxed".

(** ** AI self-approval prevention *)

Definition risk_flag (env : Envelope.t) (flag : string) : bool :=
  default false
    (r ← json_get (target (Envelope.request env)) "risk"; v ← json_get r flag; as_bool v).

Definition any_risk_flag (env : Envelope.t) : bool :=
  risk_flag env "destructive" || risk_flag env "privileged" || risk_flag env "network_exposure" ||
  risk_flag env "secret_access" || risk_flag env "recovery_path_affected".

Definition evaluate_ai_self_approval_prevention (d : Decision.t) (s : HydratedSubject)
    (env : Envelope.t) : option ApprovalRequirement :=
  if negb (bool_decide (d = Decision.Allow)) then None
  else if negb (is_ai s) then None
  else if negb (any_risk_flag env) then None
  else Some {| required := true; approval_scope := ExactRequestHash;
               approval_ttl_seconds := 300; approver_classes := [ApproverClass.Human];
               approval_require_human_co_signer := false |}.

Module DecisionPipeline.

Section Steps.
Variable amb : Ambient.
Variable jcs_to_string : Request -> result string string.
Variable blake3_to_hex : string -> string.
Variable values : OverrideBoundary.t -> list EmergencyOverride.

Definition step_10_bind_constraints : Constraints.t := Constraints.default_.

(** [emit_decision] on the fields of [EmitDecision]. *)
Definition emit_decision (env : Envelope.t) (ctx : PolicyContext) (hash : string)
    (d : Decision.t) (code message : string) (consulted : Z) : PolicyDecision :=
  {| policy_decision_id := "poldec_" +:+ decision_ulid amb;
     action_id := fresh_action_id amb;
     request_hash := hash;
     bundle_version := ctx_bundle_version ctx;
     enrichment_snapshot_id := snapshot_id (enrichment ctx);
     decision := d;
     reason_code := code;
     reason_message := message;
     constraints := step_10_bind_constraints;
     approval := default_approval;
     evidence_receipt_id := "";
     evaluated_at := emit_now amb;
     rules_consulted := consulted;
     simulated := false |}.

Definition step_1_validate_schema (env : Envelope.t) (ctx : PolicyContext) (hash : string)
    : PipelineState :=
  if str_is_empty (Envelope.schema_version env)
     || str_is_empty (action (Envelope.request env))
     || str_is_empty (subject_canonical_id (Envelope.identity env))
  then ShortCircuit (emit_decision env ctx hash Decision.Deny SCHEMA_INVALID
                       "envelope failed schema validation (S2.3 §3 step 1)" 1)
  else Continue.

Definition step_3_enrich_resources : PipelineState := Continue.

Definition step_4_evaluate_hard_denies_with_engine (env : Envelope.t) (ctx : PolicyContext)
    (hash : string) (engine : option HardDenyEngineConfig.t) : PipelineState :=
  match engine with
  | None => Continue
  | Some engine =>
      match HardDenyEngine.check engine env (subject ctx) with
      | None => Continue
      | Some class =>
          ShortCircuit (emit_decision env ctx hash Decision.Deny
                          (HardDenyEngine.reason_code_for class)
                          (HardDenyEngine.reason_message_for class) 1)
      end
  end.

Definition override_message (g : EmergencyOverride) : string :=
  "scoped rule `" +:+ scope_rule_id (scope g) +:+ "` relaxed by emergency override `"
  +:+ override_id g +:+ "` (granted_by=" +:+ granted_by_subject_id g +:+ ", reason="
  +:+ reason g +:+ ") — S2.3 §16".

Definition step_5_emergency_override_with_boundary (env : Envelope.t) (ctx : PolicyContext)
    (hash : string) (boundary : option OverrideBoundary.t) : PipelineState :=
  match boundary with
  | None => Continue
  | Some b =>
      match OverrideBoundary.is_overridden_at values (action (Envelope.request env))
              (canonical_subject_id (subject ctx)) (lookup_now amb) b with
      | None => Continue
      | Some grant =>
          ShortCircuit (emit_decision env ctx hash Decision.Allow EMERGENCY_OVERRIDE_RELAXED
                          (override_message grant) 1)
      end
  end.

Definition step_6_evaluate_scoped_denies : PipelineState := Continue.
Definition step_7_evaluate_scoped_allows : PipelineState := Continue.
Definition step_8_ai_self_approval_prevention : PipelineState := Continue.

Definition step_9_apply_default_deny (env : Envelope.t) (ctx : PolicyContext) (hash : string)
    : PipelineState :=
  ShortCircuit (emit_decision env ctx hash Decision.Deny DEFAULT_DENY
                  "no matching policy rule; default deny (S2.3 §11)" 0).

(** [if let ShortCircuit(d) = step { return *d; } k]. *)
Definition or_else (s : PipelineState) (k : PolicyDecision) : PolicyDecision :=
  match s with ShortCircuit d => d | Continue => k end.

Definition evaluate_with_chain_full (env : Envelope.t) (original : PolicyContext)
    (hydrated : option PolicyContext) (engine : option HardDenyEngineConfig.t)
    (boundary : option OverrideBoundary.t) : PolicyDecision :=
  let hash := compute_request_hash jcs_to_string blake3_to_hex env in
  or_else (step_1_validate_schema env original hash)
  match hydrated with
  | None =>
      emit_decision env original hash Decision.Deny SUBJECT_UNAUTHENTICATED
        "subject hydration failed: unknown, expired, or revoked subject (S2.3 §7)" 1
  | Some ctx =>
      or_else step_3_enrich_resources
      (or_else (step_4_evaluate_hard_denies_with_engine env ctx hash engine)
      (or_else (step_5_emergency_override_with_boundary env ctx hash boundary)
      (or_else step_6_evaluate_scoped_denies
      (or_else step_7_evaluate_scoped_allows
      (or_else step_8_ai_self_approval_prevention
      (or_else (step_9_apply_default_deny env ctx hash)
         (emit_decision env ctx hash Decision.Deny DEFAULT_DENY
            "default deny (S2.3 §11)" 0)))))))
  end.

(** The narrower entry points. *)
Definition evaluate_with_chain env original hydrated engine : PolicyDecision :=
  evaluate_with_chain_full env original hydrated engine None.

Definition evaluate_with_hard_deny_engine env ctx engine : PolicyDecision :=
  evaluate_with_chain env ctx (Some ctx) engine.

Definition evaluate env ctx : PolicyDecision := evaluate_with_hard_deny_engine env ctx None.
End Steps.

(** [apply_step_8]: the filter the scoped-allow path runs on its decision. *)
Definition apply_step_8 (d : PolicyDecision) (s : HydratedSubject) (env : Envelope.t)
    : PolicyDecision :=
  match evaluate_ai_self_approval_prevention (decision d) s env with
  | None => d
  | Some appr =>
      {| policy_decision_id := policy_decision_id d; action_id := action_id d;
         request_hash := request_hash d; bundle_version := bundle_version d;
         enrichment_snapshot_id := enrichment_snapshot_id d;
         decision := Decision.RequireApproval; reason_code := AI_SELF_APPROVAL_UPGRADE;
         reason_message := "AI subject self-approval prevented; human approval required (S2.3 §17)";
         constraints := constraints d; approval := appr;
         evidence_receipt_id := evidence_receipt_id d; evaluated_at := evaluated_at d;
         rules_consulted := u32_saturating_add (rules_consulted d) 1;
         simulated := simulated d |}
  end.

(** ** Specification: the precedence ladder

    Each tier of [RulePrecedence] either gives a verdict or passes; the
    verdict of a request is that of the first tier that gives one. The tiers
    of explicit rules and of the AI upgrade always pass in this pipeline. The
    ladder is that of a request no emergency grant speaks for: a grant makes
    the third tier answer ALLOW (see [allow_inv]), so the third tier passes
    here, and [granted] names the grant that would answer. *)
Section Spec.
Variable values : OverrideBoundary.t -> list EmergencyOverride.

Definition granted (env : Envelope.t) (hydrated : option PolicyContext)
    (boundary : option OverrideBoundary.t) (now : DateTime) : option EmergencyOverride :=
  ctx ← hydrated; b ← boundary;
  OverrideBoundary.is_overridden_at values (action (Envelope.request env))
    (canonical_subject_id (subject ctx)) now b.

Definition well_formed (env : Envelope.t) : Prop :=
  Envelope.schema_version env <> "" /\ action (Envelope.request env) <> "" /\
  subject_canonical_id (Envelope.identity env) <> "".

#[global] Instance well_formed_dec env : Decision (well_formed env) := _.

Definition tier_verdict (env : Envelope.t) (hydrated : option PolicyContext)
    (engine : option HardDenyEngineConfig.t) (tier : RulePrecedence.t) :
    option (Decision.t * string) :=
  match tier, hydrated with
  | RulePrecedence.InvalidSubject, _ =>
      if decide (well_formed env)
      then match hydrated with
           | None => Some (Decision.Deny, SUBJECT_UNAUTHENTICATED)
           | Some _ => None
           end
      else Some (Decision.Deny, SCHEMA_INVALID)
  | RulePrecedence.HardDeny, Some ctx =>
      cfg ← engine; class ← HardDenyEngine.check cfg env (subject ctx);
      Some (Decision.Deny, HardDenyEngine.reason_code_for class)
  | RulePrecedence.DefaultDeny, _ => Some (Decision.Deny, DEFAULT_DENY)
  | _, _ => None
  end.

Fixpoint first_verdict {A B} (f : A -> option B) (tiers : list A) : option B :=
  match tiers with
  | [] => None
  | t :: ts => match f t with Some v => Some v | None => first_verdict f ts end
  end.
End Spec.

(** How restrictive a decision is. *)
Definition severity (d : Decision.t) : nat :=
  match d with
  | Decision.Unspecified => 3 | Decision.Allow => 0
  | Decision.RequireApproval => 1 | Decision.Deny => 2
  end.

(** ** Lemmas *)

Lemma step_1_spec amb env ctx hash :
  step_1_validate_schema amb env ctx hash =
  if decide (well_formed env) then Continue
  else ShortCircuit (emit_decision amb env ctx hash Decision.Deny SCHEMA_INVALID
                       "envelope failed schema validation (S2.3 §3 step 1)" 1).
Proof.
  unfold step_1_validate_schema. destruct (decide (well_formed env)) as [H|H];
    unfold well_formed in H; revert H;
    destruct (Envelope.schema_version env), (action (Envelope.request env)),
      (subject_canonical_id (Envelope.identity env)); simpl; intros H; try done;
    exfalso; first [by destruct H as (?&?&?)|by apply H].
Qed.

Section Pipeline.
Context (amb : Ambient) (jcs : Request -> result string string) (blake : string -> string)
  (values : OverrideBoundary.t -> list EmergencyOverride).

Abbreviation eval := (evaluate_with_chain_full amb jcs blake values).

(** The decision by cases: the one lemma the properties need about the driver. *)
Lemma evaluate_cases env original hydrated engine boundary :
  let hash := compute_request_hash jcs blake env in
  eval env original hydrated engine boundary =
  if decide (well_formed env) then
    match hydrated with
    | None => emit_decision amb env original hash Decision.Deny SUBJECT_UNAUTHENTICATED
                "subject hydration failed: unknown, expired, or revoked subject (S2.3 §7)" 1
    | Some ctx =>
        match cfg ← engine; HardDenyEngine.check cfg env (subject ctx) with
        | Some class => emit_decision amb env ctx hash Decision.Deny
            (HardDenyEngine.reason_code_for class) (HardDenyEngine.reason_message_for class) 1
        | None =>
            match b ← boundary; OverrideBoundary.is_overridden_at values
                    (action (Envelope.request env)) (canonical_subject_id (subject ctx))
                    (lookup_now amb) b with
            | Some g => emit_decision amb env ctx hash Decision.Allow EMERGENCY_OVERRIDE_RELAXED
                          (override_message g) 1
            | None => emit_decision amb env ctx hash Decision.Deny DEFAULT_DENY
                        "no matching policy rule; default deny (S2.3 §11)" 0
            end
        end
    end
  else emit_decision amb env original hash Decision.Deny SCHEMA_INVALID
         "envelope failed schema validation (S2.3 §3 step 1)" 1.
Proof.
  intros hash. unfold evaluate_with_chain_full. rewrite step_1_spec. fold hash.
  case_decide; [|done]. destruct hydrated as [ctx|]; [|done]. simpl.
  unfold step_4_evaluate_hard_denies_with_engine, step_5_emergency_override_with_boundary.
  destruct engine as [cfg|]; simpl; [destruct (HardDenyEngine.check _ _ _); simpl; [done|]|];
    (destruct boundary as [b|]; simpl;
      [destruct (OverrideBoundary.is_overridden_at _ _ _ _ _)|]; done).
Qed.

(** What stands behind an ALLOW. *)
Definition live_grant (env : Envelope.t) (ctx : PolicyContext) (b : OverrideBoundary.t) : Prop :=
  exists g, b !! override_id g = Some g /\ revoked g = false /\
    scope_action (scope g) = action (Envelope.request env) /\
    (scope_subjects (scope g) = [] \/
     canonical_subject_id (subject ctx) ∈ scope_subjects (scope g)) /\
    (lookup_now amb < expires_at g <=
       granted_at g + seconds (Z.of_N MAX_OVERRIDE_TTL_SECONDS))%Z.

Lemma overridden_live env ctx b g :
  OverrideBoundary.values_ok values -> OverrideBoundary.reachable b ->
  OverrideBoundary.is_overridden_at values (action (Envelope.request env))
    (canonical_subject_id (subject ctx)) (lookup_now amb) b = Some g ->
  live_grant env ctx b.
Proof.
  intros Hv Hr Eg. exists g. apply iter_find_Some in Eg as [Hg Hm]. apply Hv in Hg as [id Hg].
  destruct (OverrideBoundary.reachable_grant_ok _ Hr _ _ Hg) as (<- & _ & Ht).
  apply OverrideBoundary.matches_spec in Hm as (? & ? & ? & ?). split_and!; try done. apply Ht.
Qed.

Lemma allow_inv env original hydrated engine boundary :
  OverrideBoundary.values_ok values ->
  (forall b, boundary = Some b -> OverrideBoundary.reachable b) ->
  decision (eval env original hydrated engine boundary) = Decision.Allow ->
  well_formed env /\ exists ctx b,
    hydrated = Some ctx /\ boundary = Some b /\
    (forall cfg, engine = Some cfg -> HardDenyEngine.check cfg env (subject ctx) = None) /\
    live_grant env ctx b.
Proof.
  intros Hv Hr. rewrite evaluate_cases. case_decide as Hwf; [|done].
  destruct hydrated as [ctx|]; [|done]. destruct (engine ≫= _) as [class|] eqn:Ee; [done|].
  destruct boundary as [b|]; [|done]. simpl.
  destruct (OverrideBoundary.is_overridden_at _ _ _ _ _) as [g|] eqn:Eg; [|done].
  intros _. split; [done|]. exists ctx, b. split_and!; [done..|by intros cfg ->|].
  apply (overridden_live env ctx b g Hv); auto.
Qed.

(** ** Properties *)

(** C1: the pipeline implements the precedence ladder: the decision and the
    reason code it emits are the verdict of the first tier, in the declared
    order of [RulePrecedence], that gives one; for every request that one of
    the first two tiers decides, whatever emergency grants are registered,
    and for every other request that no live grant covers. *)
Theorem pipeline_refines_ladder env original hydrated engine boundary :
  (first_verdict (tier_verdict env hydrated engine)
     [RulePrecedence.InvalidSubject; RulePrecedence.HardDeny] = None ->
   granted values env hydrated boundary (lookup_now amb) = None) ->
  let d := eval env original hydrated engine boundary in
  first_verdict (tier_verdict env hydrated engine) RulePrecedence.iter =
    Some (decision d, reason_code d).
Proof.
  intros Hg d. unfold d. rewrite evaluate_cases. revert Hg. unfold RulePrecedence.iter, granted.
  cbn [first_verdict tier_verdict].
  case_decide; [|done]. destruct hydrated as [ctx|]; [|done].
  destruct engine as [cfg|]; simpl; [destruct (HardDenyEngine.check _ _ _); simpl; [done|]|];
    (destruct boundary as [b|]; simpl; [|done]); intros Hg; by rewrite Hg.
Qed.

(** Every envelope gets a terminal decision, ALLOW or DENY, never
    unspecified or awaiting approval; it carries the hash of the request, the
    bundle version and snapshot id of the context, no approval requirement,
    and constraints that the validator accepts at any instant. *)
Theorem every_envelope_is_decided show_time env original hydrated engine boundary :
  let d := eval env original hydrated engine boundary in
  let ctx := if decide (well_formed env) then default original hydrated else original in
  (decision d = Decision.Allow \/ decision d = Decision.Deny) /\
  request_hash d = compute_request_hash jcs blake env /\
  bundle_version d = ctx_bundle_version ctx /\
  enrichment_snapshot_id d = snapshot_id (enrichment ctx) /\
  approval d = default_approval /\
  (forall now, Constraints.validate show_time now (constraints d) = Ok tt).
Proof.
  intros d ctx. unfold d, ctx. rewrite evaluate_cases.
  repeat case_match; simpl; split_and!; auto.
Qed.

(** An ALLOW is only ever the effect of a live emergency grant: the
    envelope is well formed, the subject hydrated, no hard-deny row fired for
    that subject, and the registry holds an unrevoked, unexpired grant, issued
    at most 24 hours before it expires, that names this action and this
    subject (or every subject). *)
Theorem allow_only_by_live_grant env original hydrated engine boundary :
  OverrideBoundary.values_ok values ->
  (forall b, boundary = Some b -> OverrideBoundary.reachable b) ->
  decision (eval env original hydrated engine boundary) = Decision.Allow ->
  well_formed env /\ exists ctx b g,
    hydrated = Some ctx /\ boundary = Some b /\
    (forall cfg, engine = Some cfg -> HardDenyEngine.check cfg env (subject ctx) = None) /\
    b !! override_id g = Some g /\ revoked g = false /\
    scope_action (scope g) = action (Envelope.request env) /\
    (scope_subjects (scope g) = [] \/
     canonical_subject_id (subject ctx) ∈ scope_subjects (scope g)) /\
    (lookup_now amb < expires_at g <=
       granted_at g + seconds (Z.of_N MAX_OVERRIDE_TTL_SECONDS))%Z.
Proof.
  intros Hv Hr Ha. destruct (allow_inv _ _ _ _ _ Hv Hr Ha) as (Hwf & ctx & b & -> & -> & He & g & Hg).
  split; [done|]. by exists ctx, b, g.
Qed.

(** C5: no emergency override reaches a hard-denied action: when a row of the
    table fires for the hydrated subject, the decision is DENY with the code
    of that row, whatever the registry holds. *)
Theorem hard_deny_beats_override env original ctx cfg class boundary :
  well_formed env ->
  HardDenyEngine.check cfg env (subject ctx) = Some class ->
  let d := eval env original (Some ctx) (Some cfg) boundary in
  decision d = Decision.Deny /\ reason_code d = HardDenyEngine.reason_code_for class /\
  d = evaluate_with_chain amb jcs blake values env original (Some ctx) (Some cfg).
Proof.
  intros Hwf Hc d. unfold d, evaluate_with_chain. rewrite !evaluate_cases.
  destruct (decide (well_formed env)); [|done]. simpl. by rewrite Hc.
Qed.

(** An unauthenticated subject is always denied, before any engine or
    grant is consulted, and the decision refers to the caller's context. *)
Theorem unauthenticated_is_denied env original engine boundary :
  let d := eval env original None engine boundary in
  decision d = Decision.Deny /\
  reason_code d = (if decide (well_formed env) then SUBJECT_UNAUTHENTICATED else SCHEMA_INVALID) /\
  bundle_version d = ctx_bundle_version original /\
  d = eval env original None None None.
Proof.
  intros d. unfold d. rewrite !evaluate_cases. by case_decide.
Qed.
End Pipeline.

(** The condition of the filter. *)
Definition step_8_fires (d : PolicyDecision) (s : HydratedSubject) (env : Envelope.t) : bool :=
  bool_decide (decision d = Decision.Allow) && is_ai s && any_risk_flag env.

Lemma apply_step_8_passes d s env : step_8_fires d s env = false -> apply_step_8 d s env = d.
Proof.
  unfold step_8_fires, apply_step_8, evaluate_ai_self_approval_prevention.
  destruct (bool_decide _), (is_ai s), (any_risk_flag env); done.
Qed.

Lemma step_8_fires_true d s env :
  step_8_fires d s env = true ->
  decision d = Decision.Allow /\
  evaluate_ai_self_approval_prevention (decision d) s env =
    Some {| required := true; approval_scope := ExactRequestHash;
            approval_ttl_seconds := 300; approver_classes := [ApproverClass.Human];
            approval_require_human_co_signer := false |}.
Proof.
  unfold step_8_fires, evaluate_ai_self_approval_prevention.
  case_bool_decide; [|done]. by destruct (is_ai s), (any_risk_flag env).
Qed.

(** The AI self-approval filter turns an ALLOW into REQUIRE_APPROVAL
    exactly when the subject is an AI and one of the five risk flags of the
    request is true, in which case only humans may approve; in every other
    case the decision is returned as it was.  It never makes a decision less
    restrictive, keeps the identity of the decision, counts one more rule
    without overflowing, and applying it twice changes nothing. *)
Theorem apply_step_8_exact d s env :
  (0 <= rules_consulted d <= u32_max)%Z ->
  let d' := apply_step_8 d s env in
  (if step_8_fires d s env
   then decision d' = Decision.RequireApproval /\
        required (approval d') = true /\
        approver_classes (approval d') = [ApproverClass.Human] /\
        (rules_consulted d <= rules_consulted d' <= u32_max)%Z
   else d' = d) /\
  severity (decision d) <= severity (decision d') /\
  policy_decision_id d' = policy_decision_id d /\ request_hash d' = request_hash d /\
  constraints d' = constraints d /\
  apply_step_8 d' s env = d'.
Proof.
  intros Hr d'. destruct (step_8_fires d s env) eqn:E.
  - apply step_8_fires_true in E as [Ha Ee].
    assert (d' = apply_step_8 d s env) as Hd by done. unfold apply_step_8 in Hd. rewrite Ee in Hd.
    rewrite (apply_step_8_passes d') by (by rewrite Hd). rewrite Hd, Ha. cbn.
    unfold u32_saturating_add. split_and!; try done; lia.
  - unfold d'. rewrite !apply_step_8_passes by (by rewrite ?apply_step_8_passes). done.
Qed.

(** ** Witnesses *)

Definition demo_ambient (now : DateTime) : Ambient :=
  {| decision_ulid := "01D"; fresh_action_id := "act_01A"; lookup_now := now; emit_now := now |}.

Definition demo_jcs (r : Request) : result string string := Ok (action r).

Definition demo_context (s : HydratedSubject) : PolicyContext :=
  {| subject := s; enrichment := default_enrichment; ctx_bundle_version := "polb_1";
     code_version := "v1" |}.

Definition demo_human : HydratedSubject :=
  {| canonical_subject_id := "human:lucky:01"; subject_type := Human; groups := [];
     capabilities := []; session_class := "INTERNAL"; recovery_mode := false; is_ai := false |}.

Definition demo_agent : HydratedSubject :=
  {| canonical_subject_id := "agent:dev:01"; subject_type := Agent; groups := [];
     capabilities := []; session_class := "INTERNAL"; recovery_mode := false; is_ai := true |}.

Definition demo_expose : Envelope.t :=
  HardDenyEngine.demo_envelope "net.expose_lan" (JObject [("risk", JObject [("privileged", JBool true)])]).

Abbreviation demo_eval := (evaluate_with_chain_full (demo_ambient 5) demo_jcs (fun s => s)
  OverrideBoundary.values_in_key_order).

Definition demo_ladder (env : Envelope.t) (s : HydratedSubject) : option (Decision.t * string) :=
  first_verdict (tier_verdict env (Some (demo_context s)) (Some HardDenyEngineConfig.spec_defaults))
    RulePrecedence.iter.

(** A request no grant covers falls to the default; one a hard-deny row
    decides is denied although the registry holds a grant. *)
Lemma pipeline_refines_ladder_witness :
  demo_ladder (HardDenyEngine.demo_envelope "fs.read" JNull) demo_human =
    Some (Decision.Deny, DEFAULT_DENY) /\
  demo_ladder (HardDenyEngine.demo_envelope "vault.read_raw" JNull) demo_agent =
    Some (Decision.Deny, HardDenyEngine.reason_code_for HardDenyClass.SecretRawReadByAi).
Proof.
  split.
  - apply (pipeline_refines_ladder (demo_ambient 5) demo_jcs (fun s => s)
      OverrideBoundary.values_in_key_order (HardDenyEngine.demo_envelope "fs.read" JNull)
      (demo_context demo_human) (Some (demo_context demo_human))
      (Some HardDenyEngineConfig.spec_defaults) (Some OverrideBoundary.demo_boundary)).
    intros _. vm_compute. reflexivity.
  - apply (pipeline_refines_ladder (demo_ambient 5) demo_jcs (fun s => s)
      OverrideBoundary.values_in_key_order (HardDenyEngine.demo_envelope "vault.read_raw" JNull)
      (demo_context demo_agent) (Some (demo_context demo_agent))
      (Some HardDenyEngineConfig.spec_defaults) (Some OverrideBoundary.demo_boundary)).
    intros H. vm_compute in H. discriminate H.
Defined.

Lemma allow_only_by_live_grant_witness :
  decision (demo_eval demo_expose (demo_context demo_human) (Some (demo_context demo_human))
    (Some HardDenyEngineConfig.spec_defaults) (Some OverrideBoundary.demo_boundary)) = Decision.Allow /\
  well_formed demo_expose.
Proof.
  split; [vm_compute; reflexivity|].
  apply (allow_only_by_live_grant (demo_ambient 5) demo_jcs (fun s => s)
    OverrideBoundary.values_in_key_order demo_expose (demo_context demo_human)
    (Some (demo_context demo_human)) (Some HardDenyEngineConfig.spec_defaults)
    (Some OverrideBoundary.demo_boundary)).
  - apply OverrideBoundary.values_in_key_order_ok.
  - intros b [= <-]. apply OverrideBoundary.demo_reachable.
  - vm_compute. reflexivity.
Defined.

Lemma hard_deny_beats_override_witness :
  decision (demo_eval (HardDenyEngine.demo_envelope "vault.read_raw" JNull) (demo_context demo_agent)
    (Some (demo_context demo_agent)) (Some HardDenyEngineConfig.spec_defaults)
    (Some OverrideBoundary.demo_boundary)) = Decision.Deny.
Proof.
  apply (hard_deny_beats_override (demo_ambient 5) demo_jcs (fun s => s)
    OverrideBoundary.values_in_key_order (HardDenyEngine.demo_envelope "vault.read_raw" JNull)
    (demo_context demo_agent) (demo_context demo_agent) HardDenyEngineConfig.spec_defaults
    HardDenyClass.SecretRawReadByAi (Some OverrideBoundary.demo_boundary)).
  - split_and!; vm_compute; discriminate.
  - vm_compute. reflexivity.
Defined.

Definition demo_allow : PolicyDecision :=
  demo_eval demo_expose (demo_context demo_human) (Some (demo_context demo_human)) None
    (Some OverrideBoundary.demo_boundary).

Lemma apply_step_8_exact_witness :
  decision demo_allow = Decision.Allow /\
  decision (apply_step_8 demo_allow demo_agent demo_expose) = Decision.RequireApproval.
Proof.
  split; [vm_compute; reflexivity|].
  assert (step_8_fires demo_allow demo_agent demo_expose = true) as E by (vm_compute; reflexivity).
  destruct (apply_step_8_exact demo_allow demo_agent demo_expose) as [H _];
    [vm_compute; split; discriminate|].
  rewrite E in H. exact (proj1 H).
Defined.

End DecisionPipeline.
