(* ===== verification/Kernel.v ===== *)
(** * The Policy Kernel (crate [aios-policy], [kernel.rs])

    [InMemoryPolicyKernel] composes the pipeline with the hydrator, the
    decision cache, the override registry, the active bundle and the stack of
    displaced bundles.  The shared cells ([Arc<RwLock<..>>]) are the fields of
    one state record, and each operation returns the new state.  The cache and
    the hydrator are used through their interfaces ([LruCache] of [Cache],
    [SubjectHydrator] of [Hydration]). *)
From S2P Require Import Prelude Json Action PolicyTypes HardDeny Override Cache Hydration Bundle Pipeline.

(** What one evaluation reads from its environment. *)
Record KernelAmbient : Type := {
  pipeline_ambient : Ambient;
  hit_now : DateTime;     (** [Utc::now()] on a cache hit *)
  hydrate_now : DateTime; (** [Utc::now()] in the hydrator *)
}.

Module Kernel.

Definition DEFAULT_ROLLBACK_STACK_CAPACITY : nat := 8.

Section WithInterfaces.
Context {H : Type} `{SubjectHydrator H}.
Context {Lru : LruCache CacheKey PolicyDecision}.
Variable jcs_to_string : Request -> result string string.
Variable blake3_to_hex : string -> string.
Variable values : OverrideBoundary.t -> list EmergencyOverride.

Record t : Type := {
  hard_deny_engine : option HardDenyEngineConfig.t;
  subject_hydrator : option H;
  decision_cache : option lru;
  active_bundle : option PolicyBundle.t;
  rollback_stack : list PolicyBundle.t;
  rollback_capacity : nat;
  override_boundary : option OverrideBoundary.t;
}.

(** The constructors. *)
Definition new : t :=
  {| hard_deny_engine := None; subject_hydrator := None; decision_cache := None;
     active_bundle := None; rollback_stack := [];
     rollback_capacity := DEFAULT_ROLLBACK_STACK_CAPACITY; override_boundary := None |}.

Definition new_with_hard_deny (engine : HardDenyEngineConfig.t) : t :=
  {| hard_deny_engine := Some engine; subject_hydrator := None; decision_cache := None;
     active_bundle := None; rollback_stack := [];
     rollback_capacity := DEFAULT_ROLLBACK_STACK_CAPACITY; override_boundary := None |}.

Definition new_with_full_chain (hydrator : H) (engine : HardDenyEngineConfig.t) : t :=
  {| hard_deny_engine := Some engine; subject_hydrator := Some hydrator; decision_cache := None;
     active_bundle := None; rollback_stack := [];
     rollback_capacity := DEFAULT_ROLLBACK_STACK_CAPACITY; override_boundary := None |}.

Definition new_with_subject_hydrator (hydrator : H) : t :=
  {| hard_deny_engine := None; subject_hydrator := Some hydrator; decision_cache := None;
     active_bundle := None; rollback_stack := [];
     rollback_capacity := DEFAULT_ROLLBACK_STACK_CAPACITY; override_boundary := None |}.

Definition new_with_cache (cache : lru) : t :=
  {| hard_deny_engine := None; subject_hydrator := None; decision_cache := Some cache;
     active_bundle := None; rollback_stack := [];
     rollback_capacity := DEFAULT_ROLLBACK_STACK_CAPACITY; override_boundary := None |}.

Definition new_with_full_chain_and_cache (hydrator : H) (engine : HardDenyEngineConfig.t)
    (cache : lru) : t :=
  {| hard_deny_engine := Some engine; subject_hydrator := Some hydrator;
     decision_cache := Some cache; active_bundle := None; rollback_stack := [];
     rollback_capacity := DEFAULT_ROLLBACK_STACK_CAPACITY; override_boundary := None |}.

(** The builders. *)
Definition with_rollback_capacity (capacity : nat) (k : t) : t :=
  {| hard_deny_engine := hard_deny_engine k; subject_hydrator := subject_hydrator k;
     decision_cache := decision_cache k; active_bundle := active_bundle k;
     rollback_stack := rollback_stack k; rollback_capacity := Nat.max capacity 1;
     override_boundary := override_boundary k |}.

Definition with_override_boundary (b : OverrideBoundary.t) (k : t) : t :=
  {| hard_deny_engine := hard_deny_engine k; subject_hydrator := subject_hydrator k;
     decision_cache := decision_cache k; active_bundle := active_bundle k;
     rollback_stack := rollback_stack k; rollback_capacity := rollback_capacity k;
     override_boundary := Some b |}.

(** Writes to the shared cells. *)
Definition with_bundles (a : option PolicyBundle.t) (stack : list PolicyBundle.t)
    (b : option OverrideBoundary.t) (k : t) : t :=
  {| hard_deny_engine := hard_deny_engine k; subject_hydrator := subject_hydrator k;
     decision_cache := decision_cache k; active_bundle := a; rollback_stack := stack;
     rollback_capacity := rollback_capacity k; override_boundary := b |}.

Definition with_cache (c : option lru) (k : t) : t :=
  {| hard_deny_engine := hard_deny_engine k; subject_hydrator := subject_hydrator k;
     decision_cache := c; active_bundle := active_bundle k; rollback_stack := rollback_stack k;
     rollback_capacity := rollback_capacity k; override_boundary := override_boundary k |}.

Definition flip_grants (b : option OverrideBoundary.t) : option OverrideBoundary.t :=
  match b with
  | Some b => Some (OverrideBoundary.invalidate_for_bundle_flip b).2
  | None => None
  end.

(** The push of [set_active_bundle]: [remove(0)] when full, then [push]. *)
Definition push_displaced (capacity : nat) (prev : PolicyBundle.t) (stack : list PolicyBundle.t)
    : list PolicyBundle.t :=
  (if (capacity <=? length stack)%nat && negb (length stack =? 0)%nat then drop 1 stack else stack)
  ++ [prev].

Definition set_active_bundle (bundle : PolicyBundle.t) (k : t) : option PolicyBundle.t * t :=
  let previous := active_bundle k in
  let stack := match previous with
               | Some prev => push_displaced (rollback_capacity k) prev (rollback_stack k)
               | None => rollback_stack k
               end in
  (previous, with_bundles (Some bundle) stack (flip_grants (override_boundary k)) k).

(** [Vec::pop]. *)
Definition pop (stack : list PolicyBundle.t) : option (PolicyBundle.t * list PolicyBundle.t) :=
  match last stack with
  | Some top => Some (top, take (length stack - 1) stack)
  | None => None
  end.

Definition rollback_active_bundle (k : t)
    : option (PolicyBundle.t * option string) * t :=
  match pop (rollback_stack k) with
  | None => (None, k)
  | Some (restore, stack) =>
      let displaced := active_bundle k in
      (Some (restore, PolicyBundle.bundle_version <$> displaced),
       with_bundles (Some restore) stack (flip_grants (override_boundary k)) k)
  end.

Definition rollback_stack_depth (k : t) : nat := length (rollback_stack k).

(** Cache lookup and insertion of [evaluate_policy]. *)
Definition cache_get (key : CacheKey) (c : option lru) : option PolicyDecision * option lru :=
  match c with
  | Some c => let '(d, c) := DecisionCache.get key c in (d, Some c)
  | None => (None, None)
  end.

Definition cache_put (key : CacheKey) (d : PolicyDecision) (c : option lru) : option lru :=
  match c with Some c => Some (DecisionCache.put key d c).2 | None => None end.

Definition cache_key (env : Envelope.t) (ctx : PolicyContext) : CacheKey :=
  {| key_request_hash := compute_request_hash jcs_to_string blake3_to_hex env;
     key_bundle_version := ctx_bundle_version ctx |}.

(** The hydrated context: [None] for an unauthenticated subject. *)
Definition hydrate_context (now : DateTime) (env : Envelope.t) (ctx : PolicyContext) (k : t)
    : result PolicyError (option PolicyContext) :=
  match subject_hydrator k with
  | Some h =>
      match hydrate h now (subject_canonical_id (Envelope.identity env)) with
      | Ok s => Ok (Some (with_subject s ctx))
      | Err SubjectUnauthenticated => Ok None
      | Err other => Err other
      end
  | None => Ok (Some ctx)
  end.

Definition evaluate_policy (amb : KernelAmbient) (env : Envelope.t) (ctx : PolicyContext) (k : t)
    : result PolicyError PolicyDecision * t :=
  let key := cache_key env ctx in
  let '(cached, cache) := cache_get key (decision_cache k) in
  let k := with_cache cache k in
  match cached with
  | Some d => (Ok (with_evaluated_at (hit_now amb) d), k)
  | None =>
      match hydrate_context (hydrate_now amb) env ctx k with
      | Err e => (Err e, k)
      | Ok hydrated =>
          let d := DecisionPipeline.evaluate_with_chain_full (pipeline_ambient amb)
                     jcs_to_string blake3_to_hex values env ctx hydrated
                     (hard_deny_engine k) (override_boundary k) in
          (Ok d, with_cache (cache_put key d (decision_cache k)) k)
      end
  end.

(** ** Specification of the bundle history *)

(** The bundles that were active, in order, when [bs] are installed one after
    the other on a kernel whose active bundle is [a]; all but the last of them
    are displaced. *)
Definition activated (a : option PolicyBundle.t) (bs : list PolicyBundle.t)
    : list PolicyBundle.t := option_list a ++ bs.

Definition displaced_by (a : option PolicyBundle.t) (bs : list PolicyBundle.t)
    : list PolicyBundle.t := take (length (activated a bs) - 1) (activated a bs).

Definition last_n {A} (n : nat) (l : list A) : list A := drop (length l - n) l.

Definition set_all (bs : list PolicyBundle.t) (k : t) : t :=
  foldl (fun k b => (set_active_bundle b k).2) k bs.

(** Runs of the bundle operations. *)
Inductive bundle_step : t -> t -> Prop :=
| bundle_set b k : bundle_step k (set_active_bundle b k).2
| bundle_rollback k : bundle_step k (rollback_active_bundle k).2.

(** ** Lemmas *)

Lemma push_displaced_last_n cap p l :
  0 < cap -> length l <= cap -> push_displaced cap p l = last_n cap (l ++ [p]).
Proof.
  intros Hc Hl. unfold push_displaced, last_n. rewrite length_app. simpl.
  destruct (Nat.leb_spec cap (length l)); simpl.
  - destruct (Nat.eqb_spec (length l) 0); simpl; [lia|].
    replace (length l + 1 - cap) with 1 by lia. destruct l; [simpl in *; lia|done].
  - by replace (length l + 1 - cap) with 0 by lia.
Qed.

Lemma push_displaced_length cap p l :
  length (push_displaced cap p l) <= Nat.max (length l) (Nat.max 1 cap).
Proof.
  unfold push_displaced. rewrite length_app.
  destruct (Nat.leb_spec cap (length l)), (Nat.eqb_spec (length l) 0); simpl;
    rewrite ?length_drop; lia.
Qed.

Lemma last_n_app {A} n (l : list A) x :
  0 < n -> last_n n (last_n n l ++ [x]) = last_n n (l ++ [x]).
Proof.
  intros Hn. unfold last_n. rewrite !length_app, length_drop. simpl.
  destruct (decide (length l <= n)).
  - replace (length l - n) with 0 by lia. by rewrite drop_0, Nat.sub_0_r.
  - rewrite !drop_app_le by (rewrite ?length_drop; lia). rewrite drop_drop. f_equal. f_equal. lia.
Qed.

Lemma last_n_length {A} n (l : list A) : length (last_n n l) = Nat.min n (length l).
Proof. unfold last_n. rewrite length_drop. lia. Qed.

Lemma pop_snoc stack top : pop (stack ++ [top]) = Some (top, stack).
Proof.
  unfold pop. rewrite last_snoc, length_app. simpl.
  by replace (length stack + 1 - 1) with (length stack) by lia; rewrite take_app_length.
Qed.

Lemma pop_cases stack :
  match pop stack with
  | Some (top, rest) => stack = rest ++ [top]
  | None => stack = []
  end.
Proof.
  destruct stack as [|b stack _] using rev_ind; [done|]. by rewrite pop_snoc.
Qed.

Lemma flip_grants_empty b g : flip_grants b = Some g -> g = ∅.
Proof. destruct b; simpl; [by intros [= <-]|discriminate]. Qed.

Lemma bundle_step_depth k k' :
  bundle_step k k' ->
  rollback_stack_depth k' <= Nat.max (rollback_stack_depth k) (Nat.max 1 (rollback_capacity k)) /\
  rollback_capacity k' = rollback_capacity k /\
  (forall b, override_boundary k' = Some b -> override_boundary k = Some b \/ b = ∅).
Proof.
  unfold rollback_stack_depth. destruct 1 as [b k|k].
  - unfold set_active_bundle. simpl. split_and!; [|done|].
    + destruct (active_bundle k); [apply push_displaced_length|lia].
    + intros g Hg%flip_grants_empty. by right.
  - unfold rollback_active_bundle. pose proof (pop_cases (rollback_stack k)) as Hp.
    destruct (pop (rollback_stack k)) as [[top rest]|]; simpl; [|split_and!; auto; lia].
    rewrite Hp, length_app. simpl. split_and!; [lia|done|].
    intros g Hg%flip_grants_empty. by right.
Qed.

(** ** Properties of the bundle history *)

Lemma take_all_but_last {A} (l : list A) x :
  take (length (l ++ [x]) - 1) (l ++ [x]) = l.
Proof.
  rewrite length_app. simpl. replace (length l + 1 - 1) with (length l) by lia.
  apply take_app_length.
Qed.

Lemma split_last {A} (l : list A) :
  l = take (length l - 1) l ++ option_list (last l).
Proof.
  destruct l as [|x l _] using rev_ind; [done|]. by rewrite take_all_but_last, last_snoc.
Qed.

(** The rollback stack is the bounded history of the displaced bundles:
    installing any sequence of bundles on a kernel with an empty stack leaves
    the last one active and, on the stack, exactly the most recent
    [rollback_capacity] bundles that it displaced, oldest first. *)
Theorem set_active_bundle_history bs k :
  rollback_stack k = [] -> 0 < rollback_capacity k ->
  let k' := set_all bs k in
  active_bundle k' = last (activated (active_bundle k) bs) /\
  rollback_stack k' = last_n (rollback_capacity k) (displaced_by (active_bundle k) bs).
Proof.
  intros Hs Hc. assert (rollback_capacity (set_all bs k) = rollback_capacity k /\
    active_bundle (set_all bs k) = last (activated (active_bundle k) bs) /\
    rollback_stack (set_all bs k) = last_n (rollback_capacity k) (displaced_by (active_bundle k) bs))
    as (_ & ? & ?); [|done].
  induction bs as [|b bs IH] using rev_ind.
  { unfold set_all, displaced_by, activated. simpl. rewrite Hs. by destruct (active_bundle k). }
  unfold set_all in *. rewrite foldl_snoc.
  set (k1 := foldl _ k bs) in *. destruct IH as (Hcap & Ha & Hst).
  unfold set_active_bundle. cbn [snd with_bundles active_bundle rollback_stack rollback_capacity].
  rewrite Hcap, Ha, Hst. unfold displaced_by, activated. rewrite app_assoc.
  rewrite last_snoc, take_all_but_last. split_and!; [done..|].
  pose proof (split_last (option_list (active_bundle k) ++ bs)) as Hsplit.
  fold (activated (active_bundle k) bs) in *. set (h := activated (active_bundle k) bs) in *.
  destruct (last h) as [x|].
  - rewrite push_displaced_last_n by (rewrite ?last_n_length; lia).
    rewrite last_n_app by done. by rewrite Hsplit at 3.
  - simpl in Hsplit. rewrite app_nil_r in Hsplit. by rewrite Hsplit at 3.
Qed.

(** Rollback undoes an installation: on a kernel with an active bundle,
    installing [b] and rolling back restores the active bundle and returns it
    with the version of [b], and, unless the stack was full, restores the
    stack too; every grant of the registry is gone after either step. *)
Theorem rollback_undoes_set prev b k :
  active_bundle k = Some prev ->
  let k1 := (set_active_bundle b k).2 in
  let '(r, k2) := rollback_active_bundle k1 in
  r = Some (prev, Some (PolicyBundle.bundle_version b)) /\
  active_bundle k2 = Some prev /\
  (rollback_stack_depth k < rollback_capacity k -> rollback_stack k2 = rollback_stack k) /\
  (forall g, override_boundary k1 = Some g -> g = ∅) /\
  (forall g, override_boundary k2 = Some g -> g = ∅).
Proof.
  intros Ha. unfold set_active_bundle, rollback_active_bundle, rollback_stack_depth. rewrite Ha. simpl.
  unfold push_displaced. rewrite pop_snoc. simpl.
  split_and!; [done..| | |].
  - intros Hl. by destruct (Nat.leb_spec (rollback_capacity k) (length (rollback_stack k))); [lia|].
  - intros g. apply flip_grants_empty.
  - intros g Hg. by apply flip_grants_empty in Hg.
Qed.

(** The history cannot grow without bound: in every run of installations
    and rollbacks from a kernel whose stack is within its capacity, the depth
    stays within the larger of the capacity and one. *)
Theorem rollback_stack_is_bounded k k' :
  rollback_stack_depth k <= Nat.max 1 (rollback_capacity k) ->
  rtc bundle_step k k' ->
  rollback_stack_depth k' <= Nat.max 1 (rollback_capacity k).
Proof.
  intros Hk Hr. cut (rollback_stack_depth k' <= Nat.max 1 (rollback_capacity k') /\
    rollback_capacity k' = rollback_capacity k); [by intros [? <-]|].
  induction Hr as [|k1 k2 k3 Hstep _ IH]; [done|].
  apply bundle_step_depth in Hstep as (Hd & Hc & _). rewrite Hc in IH. apply IH. lia.
Qed.

(** ** Evaluation *)

Context {HLaws : SubjectHydratorLaws H}.
Context {LruL : LruLaws CacheKey PolicyDecision}.

Lemma hydrate_context_total now env ctx k : is_ok (hydrate_context now env ctx k) = true.
Proof.
  unfold hydrate_context. destruct (subject_hydrator k) as [h|]; [|done].
  destruct (hydrate h now _) as [s|e] eqn:E; [done|].
  by apply hydrate_fails_closed in E as ->.
Qed.

(** A stored decision is served. *)
Lemma evaluate_hit amb env ctx k c d :
  decision_cache k = Some c -> DecisionCache.peek (cache_key env ctx) c = Some d ->
  (evaluate_policy amb env ctx k).1 = Ok (with_evaluated_at (hit_now amb) d).
Proof.
  intros Hc Hd. unfold evaluate_policy. rewrite Hc. cbn [cache_get].
  pose proof (lru_get_value (cache_key env ctx) c) as Hv. unfold DecisionCache.peek in Hd.
  rewrite Hd in Hv. unfold DecisionCache.get.
  destruct (lru_get (cache_key env ctx) c) as [o c']. cbn [fst] in Hv. by rewrite Hv.
Qed.

(** The kernel always answers.  On a cache hit it serves the stored
    decision with a fresh time stamp and runs nothing; on a miss, or without
    a cache, it answers with the pipeline's decision for the hydrated subject,
    an authentication failure being passed to the pipeline as no subject; and
    after any answer the same request under the same bundle version is served
    that decision again, whoever asks. *)
Theorem evaluate_policy_exact amb env ctx k :
  let '(r, k') := evaluate_policy amb env ctx k in
  match (cache_get (cache_key env ctx) (decision_cache k)).1 with
  | Some d => r = Ok (with_evaluated_at (hit_now amb) d)
  | None => exists hydrated,
      hydrate_context (hydrate_now amb) env ctx k = Ok hydrated /\
      r = Ok (DecisionPipeline.evaluate_with_chain_full (pipeline_ambient amb)
                jcs_to_string blake3_to_hex values env ctx hydrated
                (hard_deny_engine k) (override_boundary k))
  end /\
  (forall amb2 env2 ctx2 d, decision_cache k <> None ->
     cache_key env2 ctx2 = cache_key env ctx -> r = Ok d ->
     (evaluate_policy amb2 env2 ctx2 k').1 = Ok (with_evaluated_at (hit_now amb2) d)).
Proof.
  destruct (evaluate_policy amb env ctx k) as [r k'] eqn:E. unfold evaluate_policy in E.
  pose proof (hydrate_context_total (hydrate_now amb) env ctx k) as Ht.
  destruct (decision_cache k) as [c|] eqn:Ec; cbn [cache_get] in *.
  - pose proof (lru_get_value (cache_key env ctx) c) as Hv.
    pose proof (lru_iter_get (cache_key env ctx) c) as Hi. rewrite <-Hv in Hi.
    unfold DecisionCache.get in *. destruct (lru_get _ c) as [[d|] c']; cbn [fst snd] in *.
    + injection E as <- <-. split; [done|]. intros amb2 env2 ctx2 d2 _ Hk <-%ok_inj.
      rewrite (evaluate_hit amb2 env2 ctx2 _ c' d); [by destruct d|done|].
      unfold DecisionCache.peek. by rewrite Hi, Hk, klookup_cons, decide_True.
    + change (hydrate_context (hydrate_now amb) env ctx (with_cache (Some c') k))
        with (hydrate_context (hydrate_now amb) env ctx k) in E.
      destruct (hydrate_context _ _ _ k) as [hyd|]; [|done].
      injection E as <- <-. split; [by exists hyd|]. intros amb2 env2 ctx2 d2 _ Hk <-%ok_inj.
      eapply evaluate_hit; [done|]. unfold DecisionCache.peek, DecisionCache.put.
      by rewrite lru_iter_put, Hk, klookup_cons, decide_True.
  - change (hydrate_context (hydrate_now amb) env ctx (with_cache None k))
      with (hydrate_context (hydrate_now amb) env ctx k) in E. cbn [fst].
    destruct (hydrate_context _ _ _ k) as [hyd|]; [|done].
    injection E as <- <-. split; [by exists hyd|]. by intros.
Qed.

(** After a bundle flip no emergency grant is honoured: whatever grants
    the registry held, a kernel without a cache denies every request until a
    new grant is issued. *)
Theorem flip_revokes_every_allow amb env ctx b k :
  OverrideBoundary.values_ok values -> decision_cache k = None ->
  exists d, (evaluate_policy amb env ctx (set_active_bundle b k).2).1 = Ok d /\
    decision d = Decision.Deny.
Proof.
  intros Hv Hc. unfold evaluate_policy, set_active_bundle. cbn [snd with_bundles decision_cache].
  rewrite Hc. cbn [cache_get]. set (k1 := with_cache None _).
  pose proof (hydrate_context_total (hydrate_now amb) env ctx k1) as Ht.
  destruct (hydrate_context _ _ _ k1) as [hyd|]; [|done]. cbn [fst].
  eexists. split; [done|]. rewrite DecisionPipeline.evaluate_cases.
  destruct (decide _); [|done]. destruct hyd as [c|]; [|done].
  destruct (_ ≫= _) as [class|]; [done|]. unfold k1. cbn [with_cache with_bundles override_boundary].
  destruct (override_boundary k) as [g|]; [|done]. simpl.
  destruct (OverrideBoundary.is_overridden_at _ _ _ _ _) as [x|] eqn:E; [|done].
  apply iter_find_Some in E as [[id Hx]%Hv _]. by rewrite lookup_empty in Hx.
Qed.
End WithInterfaces.

(** ** A concrete kernel: the in-memory hydrator and the list cache *)

#[local] Instance list_lru : LruCache CacheKey PolicyDecision := ListLru.lru_impl _ _.
#[local] Instance list_lru_laws : LruLaws CacheKey PolicyDecision := ListLru.lru_impl_laws _ _.

Definition demo_bundle (v : string) : PolicyBundle.t :=
  {| PolicyBundle.bundle_version := v; PolicyBundle.bundle_id := "base";
     PolicyBundle.created_at := 0; PolicyBundle.signing_authority := "root";
     PolicyBundle.signature_ed25519 := ""; PolicyBundle.rules := [] |}.

Definition demo_ambient (now : DateTime) : KernelAmbient :=
  {| pipeline_ambient := DecisionPipeline.demo_ambient now; hit_now := now; hydrate_now := now |}.

(** A request to read a raw secret, submitted by [who]. *)
Definition read_raw (who : string) (ai : bool) : Envelope.t :=
  Envelope.new 0 {| subject_canonical_id := who; identity_is_ai := ai; session_id := None |}
    (new_request "vault.read_raw" JNull)
    {| trace_id := ""; span_id := ""; parent_span_id := None |}.

Definition vault_override : OverrideRequest :=
  {| granted_by_subject := OverrideBoundary.demo_grantor Human;
     req_scope := {| scope_rule_id := "deny_vault"; scope_action := "vault.read_raw";
                     scope_subjects := ["human:lucky:01HX0000000000000000000000"] |};
     req_reason := "incident"; req_ttl_seconds := 3600; attempted_hard_deny := None |}.

Definition vault_boundary : OverrideBoundary.t :=
  match OverrideBoundary.request_override_at "01" vault_override 0 OverrideBoundary.new with
  | Ok (_, b) => b
  | Err _ => OverrideBoundary.new
  end.

Definition demo_kernel : t (H := InMemoryHydrator.t) :=
  with_override_boundary vault_boundary
    (new_with_full_chain_and_cache InMemoryHydrator.with_fixtures
       HardDenyEngineConfig.spec_defaults (DecisionCache.new 16)).

Definition demo_evaluate (now : DateTime) (env : Envelope.t) (k : t (H := InMemoryHydrator.t)) :=
  evaluate_policy DecisionPipeline.demo_jcs (fun s => s) OverrideBoundary.values_in_key_order
    (demo_ambient now) env (DecisionPipeline.demo_context DecisionPipeline.demo_human) k.

Definition verdict (r : result PolicyError PolicyDecision) : option (Decision.t * string) :=
  match r with Ok d => Some (decision d, reason_code d) | Err _ => None end.

(** The cache key holds the request hash and the bundle version but not
    the subject, so a decision made for one subject is served to another: a
    human with an emergency grant is allowed to read a raw secret, after which
    an AI agent that submits the same request is allowed too, although the
    grant names the human only and the pipeline itself denies the agent by the
    constitutional rule [SecretRawReadByAi].  The cached ALLOW is also served
    to the human after the grant has expired. *)
Theorem cached_allow_crosses_subjects :
  let human := read_raw "human:lucky" false in
  let agent := read_raw "agent:dev" true in
  let '(r1, k1) := demo_evaluate 5 human demo_kernel in
  verdict r1 = Some (Decision.Allow, EMERGENCY_OVERRIDE_RELAXED) /\
  verdict (demo_evaluate 6 agent k1).1 = Some (Decision.Allow, EMERGENCY_OVERRIDE_RELAXED) /\
  verdict (demo_evaluate 6 agent demo_kernel).1 =
    Some (Decision.Deny, HardDenyEngine.reason_code_for HardDenyClass.SecretRawReadByAi) /\
  verdict (demo_evaluate (seconds 4000) human k1).1 =
    Some (Decision.Allow, EMERGENCY_OVERRIDE_RELAXED) /\
  verdict (demo_evaluate (seconds 4000) human demo_kernel).1 = Some (Decision.Deny, DEFAULT_DENY).
Proof. vm_compute. split_and!; reflexivity. Qed.

(** ** Witnesses *)

Definition demo_small : t (H := InMemoryHydrator.t) := with_rollback_capacity 2 new.

Lemma set_active_bundle_history_witness :
  rollback_stack (set_all (demo_bundle <$> ["1"; "2"; "3"; "4"]) demo_small) =
    demo_bundle <$> ["2"; "3"].
Proof.
  destruct (set_active_bundle_history (demo_bundle <$> ["1"; "2"; "3"; "4"]) demo_small) as [_ E];
    [reflexivity|vm_compute; lia|]. etrans; [exact E|]. vm_compute. reflexivity.
Defined.

Lemma rollback_undoes_set_witness :
  active_bundle (rollback_active_bundle
    (set_active_bundle (demo_bundle "2") (set_active_bundle (demo_bundle "1") demo_small).2).2).2
  = Some (demo_bundle "1").
Proof.
  pose proof (rollback_undoes_set (demo_bundle "1") (demo_bundle "2")
    (set_active_bundle (demo_bundle "1") demo_small).2 eq_refl) as E.
  exact (proj1 (proj2 E)).
Defined.

Lemma rollback_stack_is_bounded_witness :
  rollback_stack_depth (set_active_bundle (demo_bundle "1") demo_small).2 <= 2.
Proof.
  apply (rollback_stack_is_bounded demo_small (set_active_bundle (demo_bundle "1") demo_small).2).
  - vm_compute. lia.
  - apply rtc_once. apply bundle_set.
Defined.

Lemma evaluate_policy_exact_witness :
  (demo_evaluate 9 (read_raw "human:lucky" false)
     (demo_evaluate 5 (read_raw "agent:dev" true) demo_kernel).2).1 =
  Ok (with_evaluated_at 9 (match (demo_evaluate 5 (read_raw "agent:dev" true) demo_kernel).1 with
                           | Ok d => d | Err _ => DecisionCache.demo_decision end)).
Proof.
  pose proof (evaluate_policy_exact DecisionPipeline.demo_jcs (fun s => s)
    OverrideBoundary.values_in_key_order (demo_ambient 5) (read_raw "agent:dev" true)
    (DecisionPipeline.demo_context DecisionPipeline.demo_human) demo_kernel) as E.
  unfold demo_evaluate. destruct (evaluate_policy _ _ _ _ _ _ _) as [r k'] eqn:Er.
  destruct E as [_ E]. cbn [fst snd]. destruct r as [d|e].
  - apply (E (demo_ambient 9) (read_raw "human:lucky" false)
      (DecisionPipeline.demo_context DecisionPipeline.demo_human) d); [discriminate|reflexivity..].
  - apply (f_equal (fun x => is_ok x.1)) in Er. vm_compute in Er. discriminate Er.
Defined.

Lemma flip_revokes_every_allow_witness :
  exists d, (demo_evaluate 5 (read_raw "human:lucky" false)
    (set_active_bundle (demo_bundle "2")
       (with_override_boundary vault_boundary new)).2).1 = Ok d /\ decision d = Decision.Deny.
Proof.
  apply (flip_revokes_every_allow DecisionPipeline.demo_jcs (fun s => s)
    OverrideBoundary.values_in_key_order (demo_ambient 5) (read_raw "human:lucky" false)
    (DecisionPipeline.demo_context DecisionPipeline.demo_human) (demo_bundle "2")
    (with_override_boundary vault_boundary new));
    [apply OverrideBoundary.values_in_key_order_ok|reflexivity].
Defined.

End Kernel.
