(* ===== verification/Records.v ===== *)
(** * Record types of the evidence log (crate [aios-evidence], [record.rs])

    The closed vocabulary of evidence records with its three tables: wire name,
    wire id and retention class, and the lookup by wire name of
    [service/conversions.rs]. *)
From S2P Require Import Prelude.

Inductive RetentionClass : Type :=
| Standard24M
| Extended60M
| Forever.

#[global] Instance RetentionClass_eq_dec : EqDecision RetentionClass.
Proof. solve_decision. Defined.

(** [RetentionClass::as_wire_str]. *)
Definition retention_wire_str (c : RetentionClass) : string :=
  match c with
  | Standard24M => "STANDARD_24M"
  | Extended60M => "EXTENDED_60M"
  | Forever => "FOREVER"
  end.

Module RecordType.

Inductive t : Type :=
| ActionReceived | TranslationCreated | RoutingDecision | PolicyDecision | ApprovalRequested
| ApprovalGranted | ApprovalDenied | ExecutionStarted | ExecutionCompleted | VerificationResult
| RollbackCompleted | RecoveryEvent | ModelCall | ChainCheckpoint | GcPass | QuarantineEvent
| ConflictEvent | EmergencyOverrideGrant | PolicyBundleLoad | SegmentSealed
| ChainInconsistencyDetected | TamperDetected | SystemAdminOperation | CrossGroupAccessDenied
| SurfaceCreated | SurfaceDestroyed | SurfaceGpuBudgetExceeded | CrossSurfaceReadDenied
| CrossZoneViolationAttempted | RecoveryKindRejected | SurfaceNeverRendered
| UiTreeValidationRejected | UiTrustBearingAuthorshipRefused | UiRecoveryNodeDropped
| ThemeLoaded | ThemeRejected | ThemeSwitched | ThemeInvariantViolated | KdeRendererStarted
| KdeRendererDegraded | KdeFrameDropped | KdeLayerShellRejected | KdeKwinScriptLoaded
| KdeKwinScriptRejected | KdeRecoveryShellStarted | KdeRecoveryKindRejectedAtRenderer
| KdePlasmaThemeOverridden | KdeRenderFailed | KdeTokenFallbackUsed | WebLanExposureGranted
| WebPublicExposureGranted | WebRecoveryKindRejected | WebPublicExposureFirewallRecorded
| WebRecoveryPageLoaded | WebRecoveryPageExited | WebRendererStarted | WebRendererDegraded
| WebLanExposureActive | WebExposureRevoked | WebExtensionInterference | WebFullscreenRequested
| WebThemeInjectionBlocked | WebThemeFallbackUsed | WebClientStorageQuotaBreach
| WebRendererClsBreach | WebConstitutionalElementReregisterBlocked | GpuDeviceEnumerated
| GpuDeviceDisconnected | GpuVkDeviceCreated | GpuVkDeviceDestroyed | GpuDmabufGranted
| GpuDmabufDenied | GpuCapabilityDenied | GpuValidationDisabledRecovery
| GpuValidationEnabledNormal | DriverUnavailable | GpuBudgetExceeded | GpuBudgetDowngraded
| IommuUnavailableDegraded | HostCapabilityLie | GpuBindingForgery | GpuDeviceForceReclaimed
| VaultCapabilityIssued | VaultCapabilityRotated | VaultCapabilityRevoked | VaultOperation
| VaultRawReveal | VaultCapabilityForgery | SubjectKindRejectedForVault
| VaultRecoverySnapshotLoaded | ApprovalDelivered | ApprovalExpired | ApprovalConsumed
| ApprovalRevoked | ApprovalDeliveryFailed | OverrideRequested | OverrideQuorumReceived
| OverrideGranted | OverrideConsumed | OverrideDenied | OverrideExpired | OverrideRevoked
| OverrideReview | RecoveryBootEntered | RecoveryOperatorAuthenticated
| RecoveryOperationPerformed | RecoveryTtlExpiredAutoReboot | RecoveryBootExited
| RecoveryL5StartBlocked | RecoveryNetworkLanEnabled | RecoveryNetworkLanDisabled
| RecoveryForensicAttachPerformed | BootFailureAutoRecoveryTriggered | ActionValidated
| ActionPolicyDecision | ActionDispatched | ExecutionSucceeded | ExecutionFailed
| ExecutionVerificationFailed | RollbackAttempted | RollbackSucceeded
| RollbackFailedRequiresOperator | AdapterRegistered | AdapterRegistrationRejected
| AdapterDegraded | AdapterDeregistered | IdempotencyKeyReplayDetected
| BindingVoidedActionRevised | AiInteractiveQueueDowngrade | DryRunSimulationRecorded
| ExperimentalAdapterLiveDispatch | AdapterDeprecatedDispatch | NetworkPostureChanged
| ExposureRequested | ExposureGranted | ExposureDenied | ExposureRevoked
| ExposureTerminatedTtlExpired | PublicExposureHeartbeat | OutboundGrantIssued
| OutboundGrantRevoked | OutboundOutsideManifest | OutboundDegradedToLoopbackAuto
| AllowlistFqdnFanoutExceeded | LanSubnetDriftDetected | LanPeerDriftDetected
| AiDirectInternetDenied | ExternalModelCallBrokered | BackendDegradedNftablesToIptables
| RawSocketBypassAttempted | PackageFetchStarted | PackageVerified | PackageVerificationFailed
| PackageApprovalRequested | PackageInstalled | PackageInstallFailed | PackageQuarantined
| PackageUninstalled | PackageDowngradeBlocked | CapabilityLieDetected | TrustChainBroken
| TrustChainTooDeep | ManifestForged | MirrorHashMismatchBlacklisted | PublisherKeyRotated
| PublisherDeplatformed | ExternalBridgePackageAdmitted | ExternalBridgeUpstreamSignatureFailed
| AiosRootKeyRotated | KernelPipelineStarted | KernelBuildCompleted | KernelGateResult
| KernelConverged | KernelDivergedRegression | KernelPromotedToA | KernelPromotedToB
| KernelRollbackPerformed | KernelImageObserved | KernelImageDriftDetected
| KernelRefreshScheduled | KernelRefreshPipelineFailed | PipelineDefinitionReplaced
| AppObserveStarted | AppObserveCompleted | AppObserveTimeout | AppTranslateManifestProposed
| AppTranslateManifestApproved | AppTranslateManifestRejected | AppRecipeContributed
| AppRecipeImported | AppManifestDeltaProposed | AppManifestDeltaApproved
| AppHonestyClassViolation | AppEcosystemRuntimeBreakoutAttempted
| AppAiDirectInstallAttemptedBlocked | AppRecipeDeceptiveRejectedAtIngest | FirstBootStarted
| FirstBootStageCompleted | FirstBootFailed | VaultRootKeyGenerated | AiProviderModeSet
| InitialFirewallPostureSet | FirstGroupRegistered | FirstUserRegistered
| RecoveryOperatorRegistered | FirstBootComplete | ResetToFactoryInitiated | FailureObserved
| DegradationLevelTransitioned | ComponentRestarted | ComponentRestartBudgetExhausted
| CircuitBreakerOpened | CircuitBreakerClosed | HaltedPendingOperator | TimeDriftDetected
| BackendVersionMismatch | RecoveryLoopDetected | ReceiptRedactionFailed
| ReceiptIntegrityQuarantined | ReceiptLineageCycleDetected | ReceiptSequenceOutOfOrder
| UnitRegistered | UnitStarted | UnitHealthy | UnitDegraded | UnitFailed | UnitStopped
| UnitRollbackTriggered | UnitDependencyCycleDetected | GraphEvaluated | TransitionQueued
| TransitionStarted | TransitionSucceeded | TransitionFailed | AbCanaryPromoted
| AbRollbackPerformed | DependencyCycleDetected | TransitionConflict | ResourceBudgetDenied
| GraphBlockedResource | GraphConverged | AdapterRegistrationRequested | AdapterHealthy
| AdapterActionKindViolation | AdapterCapabilityViolation | AdapterHotReloaded
| AdapterDowngradeRejected | ModelInvocationStarted | ModelInvocationSucceeded
| ModelInvocationFailed | ModelBackendDegraded | ModelCircuitOpened
| ModelPromptInjectionDetected | ModelResponseSignatureFailed | ModelVaultDeny
| ModelNetworkDeny | ModelRateLimited | ModelBackendRegistered | ModelBackendRetired
| AgentRegistered | AgentRetired | AgentInterruptedByRecovery | AgentProposalEmitted
| AgentProposalApproved | AgentProposalDenied | AgentPlanBundledApproved | AgentPlanAbandoned
| AgentMemoryWrite | AgentMemoryRead | AgentMemoryCrossUserDenied | AgentInterMessageSent
| AgentInterMessageRejected | AgentSelfGradingBlocked | AgentDirectFsWriteBlocked
| AgentCrossGroupCoordinationBlocked | AgentBackendDegraded | AgentPromptInjectionDetected
| PackageObjectCreated | PackageObjectUpdated | PackageObjectRolledBack
| PackageObjectQuarantined | PackagePrivateStateInitialized
| PackagePrivateStateCorruptDetected | PackageVersionDowngradeBlocked | PackageObjectRetired
| PackageObjectVerificationFailed | PackageRecoveryRestorePerformed | AppLaunchStarted
| AppLaunchSucceeded | AppLaunchFailed | WinePrefixCreated | WinePrefixBreakoutAttempted
| WaydroidContainerStarted | WaydroidEscapeAttempted | KvmVmBooted | KvmVmTerminated
| OrchestrationKindMismatchRejected | ProfileContributed | ProfileRatingAggregated
| ProfileOutlierDetected | ProfileRecommendationShown | ProfileImportedFromUpstream
| ProfileReputationFarmSuspected | ProfileVisibilityDowngraded | ProfileRetired
| CliRenderStarted | CliRenderFailed | CliNodeKindUnsupported | CliRecoveryKindRejected
| CliAutoConfirmRejected | CliAnsiInjectionBlocked | CliDegradedNoTty | CliScriptingModeInvoked
| CliOperatorAuthenticated | CliTrustIndicatorReordered | HardwareGraphRebuilt | DeviceDetected
| DeviceDriverBound | DeviceDriverRejected | DeviceQuarantined | DeviceDisconnected
| RemovableDeviceRequest | RemovableDeviceApproved | RemovableDeviceDenied
| AiRemovableDeviceBlocked | HardwareGraphDriftDetected | FirmwareVersionDowngradeBlocked
| IommuDmaProtectionDegraded | OutOfTreeDriverBlocked | DnsQueryPerformed
| DnsResolverRebindingDetected | DnsPlainBlocked | DnsResolverSubstitutionRejected
| VpnTunnelEstablished | VpnTunnelFailed | VpnProviderKeyRotated
| VpnProviderKeyForgeryRejected | MdnsRequestReceived | MdnsBroadcastDenied
| MdnsPoisoningDetected | ResolverBackendDegraded | FirmwareUpdateRequested
| FirmwareVerificationPassed | FirmwareVerificationFailed | FirmwareDowngradeBlocked
| FirmwareUnsignedRejected | FirmwareVendorDeplatformed | FirmwareApplied | FirmwareApplyFailed
| FirmwareRollbackPerformed | BiosUefiUpdateDeferred | FirmwareTamperDetected
| OperatorLocalFirmwareInstalled | TelemetryPipelineStarted | TelemetryCardinalityBreach
| TelemetryRedactionFailed | TelemetryBackendUnavailable | TelemetryBackendDegraded
| TelemetryLogInjectionDetected | TelemetryRetentionTierPromoted
| TelemetrySamplingRateAdjusted | TelemetryEbpfProbeLoaded | TelemetryEbpfProbeRejected
| PublisherOnboardingApplicationSubmitted | PublisherOnboardingIdentityVerified
| PublisherOnboardingApproved | PublisherOnboardingRejected | PublisherOnboardingDeplatformed
| CapabilityReviewRequested | CapabilityReviewApproved | CapabilityReviewDeceptiveRejected
| ListingPublished | ListingVisibilityDowngraded | ListingVsManifestMismatch
| MarketplaceReviewBypassAttempted | BridgeFetchStarted | BridgeFetchCompleted
| BridgeUpstreamSignatureVerified | BridgeUpstreamSignatureFailed | BridgeRepackagedWithAiosKey
| BridgeDeceptiveRejected | BridgeRateLimitExceeded | BridgeMetadataImported
| BridgeRecipeImported | BridgeBlacklisted | BridgeDegradedUpstreamUnavailable
| BridgeTrustClassDeceptionDetected | StatusTransition | ArtifactRecorded | BuildPassed
| TestPassed | E2ePassed | RecoveryRehearsalPassed | ReleaseGatePassed | OperationalHealthy
| InvariantBundleLoaded | WebExposureGranted | IdentityBundleLoaded | GroupRegistered
| ReceiptForgeryDetected | ReceiptPayloadDuplicateObserved | ReceiptLineageDepthExceeded
| ReceiptOrphanActionRefDetected | InvariantBundleRejected | PolicyBundleRejected
| IdentityBundleRejected | CapabilityBundleRejected | SandboxBundleRejected
| FailureObservedRateLimited | GraphEvaluationBudgetExceeded | TransitionBudgetExceeded
| AdapterLifecycleIllegalTransition | PublisherTrustLevelObserved | PublisherKeyCollision
| MarketplaceReviewBudgetExceeded | BridgeOperatorConsentGranted | BridgeDeferredNeedsReview
| BridgeMetadataDriftDetected | BridgeBlacklistLifted
| HardwareSubstrateAcceptOutsideRecoveryBlocked | FirstBootOperation | VaultBootstrapKeyUsed
| BootstrapKeyUseAfterExhaustBlocked | VaultRekeyed | HardwareGraphDriftAccepted
| VaultTpmResealRequired | AgentLifecycleTransitioned | CompactionApprovalRequired.

Definition as_wire_str (r : t) : string :=
  match r with
  | ActionReceived => "ACTION_RECEIVED"
  | TranslationCreated => "TRANSLATION_CREATED"
  | RoutingDecision => "ROUTING_DECISION"
  | PolicyDecision => "POLICY_DECISION"
  | ApprovalRequested => "APPROVAL_REQUESTED"
  | ApprovalGranted => "APPROVAL_GRANTED"
  | ApprovalDenied => "APPROVAL_DENIED"
  | ExecutionStarted => "EXECUTION_STARTED"
  | ExecutionCompleted => "EXECUTION_COMPLETED"
  | VerificationResult => "VERIFICATION_RESULT"
  | RollbackCompleted => "ROLLBACK_COMPLETED"
  | RecoveryEvent => "RECOVERY_EVENT"
  | ModelCall => "MODEL_CALL"
  | ChainCheckpoint => "CHAIN_CHECKPOINT"
  | GcPass => "GC_PASS"
  | QuarantineEvent => "QUARANTINE_EVENT"
  | ConflictEvent => "CONFLICT_EVENT"
  | EmergencyOverrideGrant => "EMERGENCY_OVERRIDE_GRANT"
  | PolicyBundleLoad => "POLICY_BUNDLE_LOAD"
  | SegmentSealed => "SEGMENT_SEALED"
  | ChainInconsistencyDetected => "CHAIN_INCONSISTENCY_DETECTED"
  | TamperDetected => "TAMPER_DETECTED"
  | SystemAdminOperation => "SYSTEM_ADMIN_OPERATION"
  | CrossGroupAccessDenied => "CROSS_GROUP_ACCESS_DENIED"
  | SurfaceCreated => "SURFACE_CREATED"
  | SurfaceDestroyed => "SURFACE_DESTROYED"
  | SurfaceGpuBudgetExceeded => "SURFACE_GPU_BUDGET_EXCEEDED"
  | CrossSurfaceReadDenied => "CROSS_SURFACE_READ_DENIED"
  | CrossZoneViolationAttempted => "CROSS_ZONE_VIOLATION_ATTEMPTED"
  | RecoveryKindRejected => "RECOVERY_KIND_REJECTED"
  | SurfaceNeverRendered => "SURFACE_NEVER_RENDERED"
  | UiTreeValidationRejected => "UI_TREE_VALIDATION_REJECTED"
  | UiTrustBearingAuthorshipRefused => "UI_TRUST_BEARING_AUTHORSHIP_REFUSED"
  | UiRecoveryNodeDropped => "UI_RECOVERY_NODE_DROPPED"
  | ThemeLoaded => "THEME_LOADED"
  | ThemeRejected => "THEME_REJECTED"
  | ThemeSwitched => "THEME_SWITCHED"
  | ThemeInvariantViolated => "THEME_INVARIANT_VIOLATED"
  | KdeRendererStarted => "KDE_RENDERER_STARTED"
  | KdeRendererDegraded => "KDE_RENDERER_DEGRADED"
  | KdeFrameDropped => "KDE_FRAME_DROPPED"
  | KdeLayerShellRejected => "KDE_LAYER_SHELL_REJECTED"
  | KdeKwinScriptLoaded => "KDE_KWIN_SCRIPT_LOADED"
  | KdeKwinScriptRejected => "KDE_KWIN_SCRIPT_REJECTED"
  | KdeRecoveryShellStarted => "KDE_RECOVERY_SHELL_STARTED"
  | KdeRecoveryKindRejectedAtRenderer => "KDE_RECOVERY_KIND_REJECTED_AT_RENDERER"
  | KdePlasmaThemeOverridden => "KDE_PLASMA_THEME_OVERRIDDEN"
  | KdeRenderFailed => "KDE_RENDER_FAILED"
  | KdeTokenFallbackUsed => "KDE_TOKEN_FALLBACK_USED"
  | WebLanExposureGranted => "WEB_LAN_EXPOSURE_GRANTED"
  | WebPublicExposureGranted => "WEB_PUBLIC_EXPOSURE_GRANTED"
  | WebRecoveryKindRejected => "WEB_RECOVERY_KIND_REJECTED"
  | WebPublicExposureFirewallRecorded => "WEB_PUBLIC_EXPOSURE_FIREWALL_RECORDED"
  | WebRecoveryPageLoaded => "WEB_RECOVERY_PAGE_LOADED"
  | WebRecoveryPageExited => "WEB_RECOVERY_PAGE_EXITED"
  | WebRendererStarted => "WEB_RENDERER_STARTED"
  | WebRendererDegraded => "WEB_RENDERER_DEGRADED"
  | WebLanExposureActive => "WEB_LAN_EXPOSURE_ACTIVE"
  | WebExposureRevoked => "WEB_EXPOSURE_REVOKED"
  | WebExtensionInterference => "WEB_EXTENSION_INTERFERENCE"
  | WebFullscreenRequested => "WEB_FULLSCREEN_REQUESTED"
  | WebThemeInjectionBlocked => "WEB_THEME_INJECTION_BLOCKED"
  | WebThemeFallbackUsed => "WEB_THEME_FALLBACK_USED"
  | WebClientStorageQuotaBreach => "WEB_CLIENT_STORAGE_QUOTA_BREACH"
  | WebRendererClsBreach => "WEB_RENDERER_CLS_BREACH"
  | WebConstitutionalElementReregisterBlocked => "WEB_CONSTITUTIONAL_ELEMENT_REREGISTER_BLOCKED"
  | GpuDeviceEnumerated => "GPU_DEVICE_ENUMERATED"
  | GpuDeviceDisconnected => "GPU_DEVICE_DISCONNECTED"
  | GpuVkDeviceCreated => "GPU_VK_DEVICE_CREATED"
  | GpuVkDeviceDestroyed => "GPU_VK_DEVICE_DESTROYED"
  | GpuDmabufGranted => "GPU_DMABUF_GRANTED"
  | GpuDmabufDenied => "GPU_DMABUF_DENIED"
  | GpuCapabilityDenied => "GPU_CAPABILITY_DENIED"
  | GpuValidationDisabledRecovery => "GPU_VALIDATION_DISABLED_RECOVERY"
  | GpuValidationEnabledNormal => "GPU_VALIDATION_ENABLED_NORMAL"
  | DriverUnavailable => "DRIVER_UNAVAILABLE"
  | GpuBudgetExceeded => "GPU_BUDGET_EXCEEDED"
  | GpuBudgetDowngraded => "GPU_BUDGET_DOWNGRADED"
  | IommuUnavailableDegraded => "IOMMU_UNAVAILABLE_DEGRADED"
  | HostCapabilityLie => "HOST_CAPABILITY_LIE"
  | GpuBindingForgery => "GPU_BINDING_FORGERY"
  | GpuDeviceForceReclaimed => "GPU_DEVICE_FORCE_RECLAIMED"
  | VaultCapabilityIssued => "VAULT_CAPABILITY_ISSUED"
  | VaultCapabilityRotated => "VAULT_CAPABILITY_ROTATED"
  | VaultCapabilityRevoked => "VAULT_CAPABILITY_REVOKED"
  | VaultOperation => "VAULT_OPERATION"
  | VaultRawReveal => "VAULT_RAW_REVEAL"
  | VaultCapabilityForgery => "VAULT_CAPABILITY_FORGERY"
  | SubjectKindRejectedForVault => "SUBJECT_KIND_REJECTED_FOR_VAULT"
  | VaultRecoverySnapshotLoaded => "VAULT_RECOVERY_SNAPSHOT_LOADED"
  | ApprovalDelivered => "APPROVAL_DELIVERED"
  | ApprovalExpired => "APPROVAL_EXPIRED"
  | ApprovalConsumed => "APPROVAL_CONSUMED"
  | ApprovalRevoked => "APPROVAL_REVOKED"
  | ApprovalDeliveryFailed => "APPROVAL_DELIVERY_FAILED"
  | OverrideRequested => "OVERRIDE_REQUESTED"
  | OverrideQuorumReceived => "OVERRIDE_QUORUM_RECEIVED"
  | OverrideGranted => "OVERRIDE_GRANTED"
  | OverrideConsumed => "OVERRIDE_CONSUMED"
  | OverrideDenied => "OVERRIDE_DENIED"
  | OverrideExpired => "OVERRIDE_EXPIRED"
  | OverrideRevoked => "OVERRIDE_REVOKED"
  | OverrideReview => "OVERRIDE_REVIEW"
  | RecoveryBootEntered => "RECOVERY_BOOT_ENTERED"
  | RecoveryOperatorAuthenticated => "RECOVERY_OPERATOR_AUTHENTICATED"
  | RecoveryOperationPerformed => "RECOVERY_OPERATION_PERFORMED"
  | RecoveryTtlExpiredAutoReboot => "RECOVERY_TTL_EXPIRED_AUTO_REBOOT"
  | RecoveryBootExited => "RECOVERY_BOOT_EXITED"
  | RecoveryL5StartBlocked => "RECOVERY_L5_START_BLOCKED"
  | RecoveryNetworkLanEnabled => "RECOVERY_NETWORK_LAN_ENABLED"
  | RecoveryNetworkLanDisabled => "RECOVERY_NETWORK_LAN_DISABLED"
  | RecoveryForensicAttachPerformed => "RECOVERY_FORENSIC_ATTACH_PERFORMED"
  | BootFailureAutoRecoveryTriggered => "BOOT_FAILURE_AUTO_RECOVERY_TRIGGERED"
  | ActionValidated => "ACTION_VALIDATED"
  | ActionPolicyDecision => "ACTION_POLICY_DECISION"
  | ActionDispatched => "ACTION_DISPATCHED"
  | ExecutionSucceeded => "EXECUTION_SUCCEEDED"
  | ExecutionFailed => "EXECUTION_FAILED"
  | ExecutionVerificationFailed => "EXECUTION_VERIFICATION_FAILED"
  | RollbackAttempted => "ROLLBACK_ATTEMPTED"
  | RollbackSucceeded => "ROLLBACK_SUCCEEDED"
  | RollbackFailedRequiresOperator => "ROLLBACK_FAILED_REQUIRES_OPERATOR"
  | AdapterRegistered => "ADAPTER_REGISTERED"
  | AdapterRegistrationRejected => "ADAPTER_REGISTRATION_REJECTED"
  | AdapterDegraded => "ADAPTER_DEGRADED"
  | AdapterDeregistered => "ADAPTER_DEREGISTERED"
  | IdempotencyKeyReplayDetected => "IDEMPOTENCY_KEY_REPLAY_DETECTED"
  | BindingVoidedActionRevised => "BINDING_VOIDED_ACTION_REVISED"
  | AiInteractiveQueueDowngrade => "AI_INTERACTIVE_QUEUE_DOWNGRADE"
  | DryRunSimulationRecorded => "DRY_RUN_SIMULATION_RECORDED"
  | ExperimentalAdapterLiveDispatch => "EXPERIMENTAL_ADAPTER_LIVE_DISPATCH"
  | AdapterDeprecatedDispatch => "ADAPTER_DEPRECATED_DISPATCH"
  | NetworkPostureChanged => "NETWORK_POSTURE_CHANGED"
  | ExposureRequested => "EXPOSURE_REQUESTED"
  | ExposureGranted => "EXPOSURE_GRANTED"
  | ExposureDenied => "EXPOSURE_DENIED"
  | ExposureRevoked => "EXPOSURE_REVOKED"
  | ExposureTerminatedTtlExpired => "EXPOSURE_TERMINATED_TTL_EXPIRED"
  | PublicExposureHeartbeat => "PUBLIC_EXPOSURE_HEARTBEAT"
  | OutboundGrantIssued => "OUTBOUND_GRANT_ISSUED"
  | OutboundGrantRevoked => "OUTBOUND_GRANT_REVOKED"
  | OutboundOutsideManifest => "OUTBOUND_OUTSIDE_MANIFEST"
  | OutboundDegradedToLoopbackAuto => "OUTBOUND_DEGRADED_TO_LOOPBACK_AUTO"
  | AllowlistFqdnFanoutExceeded => "ALLOWLIST_FQDN_FANOUT_EXCEEDED"
  | LanSubnetDriftDetected => "LAN_SUBNET_DRIFT_DETECTED"
  | LanPeerDriftDetected => "LAN_PEER_DRIFT_DETECTED"
  | AiDirectInternetDenied => "AI_DIRECT_INTERNET_DENIED"
  | ExternalModelCallBrokered => "EXTERNAL_MODEL_CALL_BROKERED"
  | BackendDegradedNftablesToIptables => "BACKEND_DEGRADED_NFTABLES_TO_IPTABLES"
  | RawSocketBypassAttempted => "RAW_SOCKET_BYPASS_ATTEMPTED"
  | PackageFetchStarted => "PACKAGE_FETCH_STARTED"
  | PackageVerified => "PACKAGE_VERIFIED"
  | PackageVerificationFailed => "PACKAGE_VERIFICATION_FAILED"
  | PackageApprovalRequested => "PACKAGE_APPROVAL_REQUESTED"
  | PackageInstalled => "PACKAGE_INSTALLED"
  | PackageInstallFailed => "PACKAGE_INSTALL_FAILED"
  | PackageQuarantined => "PACKAGE_QUARANTINED"
  | PackageUninstalled => "PACKAGE_UNINSTALLED"
  | PackageDowngradeBlocked => "PACKAGE_DOWNGRADE_BLOCKED"
  | CapabilityLieDetected => "CAPABILITY_LIE_DETECTED"
  | TrustChainBroken => "TRUST_CHAIN_BROKEN"
  | TrustChainTooDeep => "TRUST_CHAIN_TOO_DEEP"
  | ManifestForged => "MANIFEST_FORGED"
  | MirrorHashMismatchBlacklisted => "MIRROR_HASH_MISMATCH_BLACKLISTED"
  | PublisherKeyRotated => "PUBLISHER_KEY_ROTATED"
  | PublisherDeplatformed => "PUBLISHER_DEPLATFORMED"
  | ExternalBridgePackageAdmitted => "EXTERNAL_BRIDGE_PACKAGE_ADMITTED"
  | ExternalBridgeUpstreamSignatureFailed => "EXTERNAL_BRIDGE_UPSTREAM_SIGNATURE_FAILED"
  | AiosRootKeyRotated => "AIOS_ROOT_KEY_ROTATED"
  | KernelPipelineStarted => "KERNEL_PIPELINE_STARTED"
  | KernelBuildCompleted => "KERNEL_BUILD_COMPLETED"
  | KernelGateResult => "KERNEL_GATE_RESULT"
  | KernelConverged => "KERNEL_CONVERGED"
  | KernelDivergedRegression => "KERNEL_DIVERGED_REGRESSION"
  | KernelPromotedToA => "KERNEL_PROMOTED_TO_A"
  | KernelPromotedToB => "KERNEL_PROMOTED_TO_B"
  | KernelRollbackPerformed => "KERNEL_ROLLBACK_PERFORMED"
  | KernelImageObserved => "KERNEL_IMAGE_OBSERVED"
  | KernelImageDriftDetected => "KERNEL_IMAGE_DRIFT_DETECTED"
  | KernelRefreshScheduled => "KERNEL_REFRESH_SCHEDULED"
  | KernelRefreshPipelineFailed => "KERNEL_REFRESH_PIPELINE_FAILED"
  | PipelineDefinitionReplaced => "PIPELINE_DEFINITION_REPLACED"
  | AppObserveStarted => "APP_OBSERVE_STARTED"
  | AppObserveCompleted => "APP_OBSERVE_COMPLETED"
  | AppObserveTimeout => "APP_OBSERVE_TIMEOUT"
  | AppTranslateManifestProposed => "APP_TRANSLATE_MANIFEST_PROPOSED"
  | AppTranslateManifestApproved => "APP_TRANSLATE_MANIFEST_APPROVED"
  | AppTranslateManifestRejected => "APP_TRANSLATE_MANIFEST_REJECTED"
  | AppRecipeContributed => "APP_RECIPE_CONTRIBUTED"
  | AppRecipeImported => "APP_RECIPE_IMPORTED"
  | AppManifestDeltaProposed => "APP_MANIFEST_DELTA_PROPOSED"
  | AppManifestDeltaApproved => "APP_MANIFEST_DELTA_APPROVED"
  | AppHonestyClassViolation => "APP_HONESTY_CLASS_VIOLATION"
  | AppEcosystemRuntimeBreakoutAttempted => "APP_ECOSYSTEM_RUNTIME_BREAKOUT_ATTEMPTED"
  | AppAiDirectInstallAttemptedBlocked => "APP_AI_DIRECT_INSTALL_ATTEMPTED_BLOCKED"
  | AppRecipeDeceptiveRejectedAtIngest => "APP_RECIPE_DECEPTIVE_REJECTED_AT_INGEST"
  | FirstBootStarted => "FIRST_BOOT_STARTED"
  | FirstBootStageCompleted => "FIRST_BOOT_STAGE_COMPLETED"
  | FirstBootFailed => "FIRST_BOOT_FAILED"
  | VaultRootKeyGenerated => "VAULT_ROOT_KEY_GENERATED"
  | AiProviderModeSet => "AI_PROVIDER_MODE_SET"
  | InitialFirewallPostureSet => "INITIAL_FIREWALL_POSTURE_SET"
  | FirstGroupRegistered => "FIRST_GROUP_REGISTERED"
  | FirstUserRegistered => "FIRST_USER_REGISTERED"
  | RecoveryOperatorRegistered => "RECOVERY_OPERATOR_REGISTERED"
  | FirstBootComplete => "FIRST_BOOT_COMPLETE"
  | ResetToFactoryInitiated => "RESET_TO_FACTORY_INITIATED"
  | FailureObserved => "FAILURE_OBSERVED"
  | DegradationLevelTransitioned => "DEGRADATION_LEVEL_TRANSITIONED"
  | ComponentRestarted => "COMPONENT_RESTARTED"
  | ComponentRestartBudgetExhausted => "COMPONENT_RESTART_BUDGET_EXHAUSTED"
  | CircuitBreakerOpened => "CIRCUIT_BREAKER_OPENED"
  | CircuitBreakerClosed => "CIRCUIT_BREAKER_CLOSED"
  | HaltedPendingOperator => "HALTED_PENDING_OPERATOR"
  | TimeDriftDetected => "TIME_DRIFT_DETECTED"
  | BackendVersionMismatch => "BACKEND_VERSION_MISMATCH"
  | RecoveryLoopDetected => "RECOVERY_LOOP_DETECTED"
  | ReceiptRedactionFailed => "RECEIPT_REDACTION_FAILED"
  | ReceiptIntegrityQuarantined => "RECEIPT_INTEGRITY_QUARANTINED"
  | ReceiptLineageCycleDetected => "RECEIPT_LINEAGE_CYCLE_DETECTED"
  | ReceiptSequenceOutOfOrder => "RECEIPT_SEQUENCE_OUT_OF_ORDER"
  | UnitRegistered => "UNIT_REGISTERED"
  | UnitStarted => "UNIT_STARTED"
  | UnitHealthy => "UNIT_HEALTHY"
  | UnitDegraded => "UNIT_DEGRADED"
  | UnitFailed => "UNIT_FAILED"
  | UnitStopped => "UNIT_STOPPED"
  | UnitRollbackTriggered => "UNIT_ROLLBACK_TRIGGERED"
  | UnitDependencyCycleDetected => "UNIT_DEPENDENCY_CYCLE_DETECTED"
  | GraphEvaluated => "GRAPH_EVALUATED"
  | TransitionQueued => "TRANSITION_QUEUED"
  | TransitionStarted => "TRANSITION_STARTED"
  | TransitionSucceeded => "TRANSITION_SUCCEEDED"
  | TransitionFailed => "TRANSITION_FAILED"
  | AbCanaryPromoted => "AB_CANARY_PROMOTED"
  | AbRollbackPerformed => "AB_ROLLBACK_PERFORMED"
  | DependencyCycleDetected => "DEPENDENCY_CYCLE_DETECTED"
  | TransitionConflict => "TRANSITION_CONFLICT"
  | ResourceBudgetDenied => "RESOURCE_BUDGET_DENIED"
  | GraphBlockedResource => "GRAPH_BLOCKED_RESOURCE"
  | GraphConverged => "GRAPH_CONVERGED"
  | AdapterRegistrationRequested => "ADAPTER_REGISTRATION_REQUESTED"
  | AdapterHealthy => "ADAPTER_HEALTHY"
  | AdapterActionKindViolation => "ADAPTER_ACTION_KIND_VIOLATION"
  | AdapterCapabilityViolation => "ADAPTER_CAPABILITY_VIOLATION"
  | AdapterHotReloaded => "ADAPTER_HOT_RELOADED"
  | AdapterDowngradeRejected => "ADAPTER_DOWNGRADE_REJECTED"
  | ModelInvocationStarted => "MODEL_INVOCATION_STARTED"
  | ModelInvocationSucceeded => "MODEL_INVOCATION_SUCCEEDED"
  | ModelInvocationFailed => "MODEL_INVOCATION_FAILED"
  | ModelBackendDegraded => "MODEL_BACKEND_DEGRADED"
  | ModelCircuitOpened => "MODEL_CIRCUIT_OPENED"
  | ModelPromptInjectionDetected => "MODEL_PROMPT_INJECTION_DETECTED"
  | ModelResponseSignatureFailed => "MODEL_RESPONSE_SIGNATURE_FAILED"
  | ModelVaultDeny => "MODEL_VAULT_DENY"
  | ModelNetworkDeny => "MODEL_NETWORK_DENY"
  | ModelRateLimited => "MODEL_RATE_LIMITED"
  | ModelBackendRegistered => "MODEL_BACKEND_REGISTERED"
  | ModelBackendRetired => "MODEL_BACKEND_RETIRED"
  | AgentRegistered => "AGENT_REGISTERED"
  | AgentRetired => "AGENT_RETIRED"
  | AgentInterruptedByRecovery => "AGENT_INTERRUPTED_BY_RECOVERY"
  | AgentProposalEmitted => "AGENT_PROPOSAL_EMITTED"
  | AgentProposalApproved => "AGENT_PROPOSAL_APPROVED"
  | AgentProposalDenied => "AGENT_PROPOSAL_DENIED"
  | AgentPlanBundledApproved => "AGENT_PLAN_BUNDLED_APPROVED"
  | AgentPlanAbandoned => "AGENT_PLAN_ABANDONED"
  | AgentMemoryWrite => "AGENT_MEMORY_WRITE"
  | AgentMemoryRead => "AGENT_MEMORY_READ"
  | AgentMemoryCrossUserDenied => "AGENT_MEMORY_CROSS_USER_DENIED"
  | AgentInterMessageSent => "AGENT_INTER_MESSAGE_SENT"
  | AgentInterMessageRejected => "AGENT_INTER_MESSAGE_REJECTED"
  | AgentSelfGradingBlocked => "AGENT_SELF_GRADING_BLOCKED"
  | AgentDirectFsWriteBlocked => "AGENT_DIRECT_FS_WRITE_BLOCKED"
  | AgentCrossGroupCoordinationBlocked => "AGENT_CROSS_GROUP_COORDINATION_BLOCKED"
  | AgentBackendDegraded => "AGENT_BACKEND_DEGRADED"
  | AgentPromptInjectionDetected => "AGENT_PROMPT_INJECTION_DETECTED"
  | PackageObjectCreated => "PACKAGE_OBJECT_CREATED"
  | PackageObjectUpdated => "PACKAGE_OBJECT_UPDATED"
  | PackageObjectRolledBack => "PACKAGE_OBJECT_ROLLED_BACK"
  | PackageObjectQuarantined => "PACKAGE_OBJECT_QUARANTINED"
  | PackagePrivateStateInitialized => "PACKAGE_PRIVATE_STATE_INITIALIZED"
  | PackagePrivateStateCorruptDetected => "PACKAGE_PRIVATE_STATE_CORRUPT_DETECTED"
  | PackageVersionDowngradeBlocked => "PACKAGE_VERSION_DOWNGRADE_BLOCKED"
  | PackageObjectRetired => "PACKAGE_OBJECT_RETIRED"
  | PackageObjectVerificationFailed => "PACKAGE_OBJECT_VERIFICATION_FAILED"
  | PackageRecoveryRestorePerformed => "PACKAGE_RECOVERY_RESTORE_PERFORMED"
  | AppLaunchStarted => "APP_LAUNCH_STARTED"
  | AppLaunchSucceeded => "APP_LAUNCH_SUCCEEDED"
  | AppLaunchFailed => "APP_LAUNCH_FAILED"
  | WinePrefixCreated => "WINE_PREFIX_CREATED"
  | WinePrefixBreakoutAttempted => "WINE_PREFIX_BREAKOUT_ATTEMPTED"
  | WaydroidContainerStarted => "WAYDROID_CONTAINER_STARTED"
  | WaydroidEscapeAttempted => "WAYDROID_ESCAPE_ATTEMPTED"
  | KvmVmBooted => "KVM_VM_BOOTED"
  | KvmVmTerminated => "KVM_VM_TERMINATED"
  | OrchestrationKindMismatchRejected => "ORCHESTRATION_KIND_MISMATCH_REJECTED"
  | ProfileContributed => "PROFILE_CONTRIBUTED"
  | ProfileRatingAggregated => "PROFILE_RATING_AGGREGATED"
  | ProfileOutlierDetected => "PROFILE_OUTLIER_DETECTED"
  | ProfileRecommendationShown => "PROFILE_RECOMMENDATION_SHOWN"
  | ProfileImportedFromUpstream => "PROFILE_IMPORTED_FROM_UPSTREAM"
  | ProfileReputationFarmSuspected => "PROFILE_REPUTATION_FARM_SUSPECTED"
  | ProfileVisibilityDowngraded => "PROFILE_VISIBILITY_DOWNGRADED"
  | ProfileRetired => "PROFILE_RETIRED"
  | CliRenderStarted => "CLI_RENDER_STARTED"
  | CliRenderFailed => "CLI_RENDER_FAILED"
  | CliNodeKindUnsupported => "CLI_NODE_KIND_UNSUPPORTED"
  | CliRecoveryKindRejected => "CLI_RECOVERY_KIND_REJECTED"
  | CliAutoConfirmRejected => "CLI_AUTO_CONFIRM_REJECTED"
  | CliAnsiInjectionBlocked => "CLI_ANSI_INJECTION_BLOCKED"
  | CliDegradedNoTty => "CLI_DEGRADED_NO_TTY"
  | CliScriptingModeInvoked => "CLI_SCRIPTING_MODE_INVOKED"
  | CliOperatorAuthenticated => "CLI_OPERATOR_AUTHENTICATED"
  | CliTrustIndicatorReordered => "CLI_TRUST_INDICATOR_REORDERED"
  | HardwareGraphRebuilt => "HARDWARE_GRAPH_REBUILT"
  | DeviceDetected => "DEVICE_DETECTED"
  | DeviceDriverBound => "DEVICE_DRIVER_BOUND"
  | DeviceDriverRejected => "DEVICE_DRIVER_REJECTED"
  | DeviceQuarantined => "DEVICE_QUARANTINED"
  | DeviceDisconnected => "DEVICE_DISCONNECTED"
  | RemovableDeviceRequest => "REMOVABLE_DEVICE_REQUEST"
  | RemovableDeviceApproved => "REMOVABLE_DEVICE_APPROVED"
  | RemovableDeviceDenied => "REMOVABLE_DEVICE_DENIED"
  | AiRemovableDeviceBlocked => "AI_REMOVABLE_DEVICE_BLOCKED"
  | HardwareGraphDriftDetected => "HARDWARE_GRAPH_DRIFT_DETECTED"
  | FirmwareVersionDowngradeBlocked => "FIRMWARE_VERSION_DOWNGRADE_BLOCKED"
  | IommuDmaProtectionDegraded => "IOMMU_DMA_PROTECTION_DEGRADED"
  | OutOfTreeDriverBlocked => "OUT_OF_TREE_DRIVER_BLOCKED"
  | DnsQueryPerformed => "DNS_QUERY_PERFORMED"
  | DnsResolverRebindingDetected => "DNS_RESOLVER_REBINDING_DETECTED"
  | DnsPlainBlocked => "DNS_PLAIN_BLOCKED"
  | DnsResolverSubstitutionRejected => "DNS_RESOLVER_SUBSTITUTION_REJECTED"
  | VpnTunnelEstablished => "VPN_TUNNEL_ESTABLISHED"
  | VpnTunnelFailed => "VPN_TUNNEL_FAILED"
  | VpnProviderKeyRotated => "VPN_PROVIDER_KEY_ROTATED"
  | VpnProviderKeyForgeryRejected => "VPN_PROVIDER_KEY_FORGERY_REJECTED"
  | MdnsRequestReceived => "MDNS_REQUEST_RECEIVED"
  | MdnsBroadcastDenied => "MDNS_BROADCAST_DENIED"
  | MdnsPoisoningDetected => "MDNS_POISONING_DETECTED"
  | ResolverBackendDegraded => "RESOLVER_BACKEND_DEGRADED"
  | FirmwareUpdateRequested => "FIRMWARE_UPDATE_REQUESTED"
  | FirmwareVerificationPassed => "FIRMWARE_VERIFICATION_PASSED"
  | FirmwareVerificationFailed => "FIRMWARE_VERIFICATION_FAILED"
  | FirmwareDowngradeBlocked => "FIRMWARE_DOWNGRADE_BLOCKED"
  | FirmwareUnsignedRejected => "FIRMWARE_UNSIGNED_REJECTED"
  | FirmwareVendorDeplatformed => "FIRMWARE_VENDOR_DEPLATFORMED"
  | FirmwareApplied => "FIRMWARE_APPLIED"
  | FirmwareApplyFailed => "FIRMWARE_APPLY_FAILED"
  | FirmwareRollbackPerformed => "FIRMWARE_ROLLBACK_PERFORMED"
  | BiosUefiUpdateDeferred => "BIOS_UEFI_UPDATE_DEFERRED"
  | FirmwareTamperDetected => "FIRMWARE_TAMPER_DETECTED"
  | OperatorLocalFirmwareInstalled => "OPERATOR_LOCAL_FIRMWARE_INSTALLED"
  | TelemetryPipelineStarted => "TELEMETRY_PIPELINE_STARTED"
  | TelemetryCardinalityBreach => "TELEMETRY_CARDINALITY_BREACH"
  | TelemetryRedactionFailed => "TELEMETRY_REDACTION_FAILED"
  | TelemetryBackendUnavailable => "TELEMETRY_BACKEND_UNAVAILABLE"
  | TelemetryBackendDegraded => "TELEMETRY_BACKEND_DEGRADED"
  | TelemetryLogInjectionDetected => "TELEMETRY_LOG_INJECTION_DETECTED"
  | TelemetryRetentionTierPromoted => "TELEMETRY_RETENTION_TIER_PROMOTED"
  | TelemetrySamplingRateAdjusted => "TELEMETRY_SAMPLING_RATE_ADJUSTED"
  | TelemetryEbpfProbeLoaded => "TELEMETRY_EBPF_PROBE_LOADED"
  | TelemetryEbpfProbeRejected => "TELEMETRY_EBPF_PROBE_REJECTED"
  | PublisherOnboardingApplicationSubmitted => "PUBLISHER_ONBOARDING_APPLICATION_SUBMITTED"
  | PublisherOnboardingIdentityVerified => "PUBLISHER_ONBOARDING_IDENTITY_VERIFIED"
  | PublisherOnboardingApproved => "PUBLISHER_ONBOARDING_APPROVED"
  | PublisherOnboardingRejected => "PUBLISHER_ONBOARDING_REJECTED"
  | PublisherOnboardingDeplatformed => "PUBLISHER_ONBOARDING_DEPLATFORMED"
  | CapabilityReviewRequested => "CAPABILITY_REVIEW_REQUESTED"
  | CapabilityReviewApproved => "CAPABILITY_REVIEW_APPROVED"
  | CapabilityReviewDeceptiveRejected => "CAPABILITY_REVIEW_DECEPTIVE_REJECTED"
  | ListingPublished => "LISTING_PUBLISHED"
  | ListingVisibilityDowngraded => "LISTING_VISIBILITY_DOWNGRADED"
  | ListingVsManifestMismatch => "LISTING_VS_MANIFEST_MISMATCH"
  | MarketplaceReviewBypassAttempted => "MARKETPLACE_REVIEW_BYPASS_ATTEMPTED"
  | BridgeFetchStarted => "BRIDGE_FETCH_STARTED"
  | BridgeFetchCompleted => "BRIDGE_FETCH_COMPLETED"
  | BridgeUpstreamSignatureVerified => "BRIDGE_UPSTREAM_SIGNATURE_VERIFIED"
  | BridgeUpstreamSignatureFailed => "BRIDGE_UPSTREAM_SIGNATURE_FAILED"
  | BridgeRepackagedWithAiosKey => "BRIDGE_REPACKAGED_WITH_AIOS_KEY"
  | BridgeDeceptiveRejected => "BRIDGE_DECEPTIVE_REJECTED"
  | BridgeRateLimitExceeded => "BRIDGE_RATE_LIMIT_EXCEEDED"
  | BridgeMetadataImported => "BRIDGE_METADATA_IMPORTED"
  | BridgeRecipeImported => "BRIDGE_RECIPE_IMPORTED"
  | BridgeBlacklisted => "BRIDGE_BLACKLISTED"
  | BridgeDegradedUpstreamUnavailable => "BRIDGE_DEGRADED_UPSTREAM_UNAVAILABLE"
  | BridgeTrustClassDeceptionDetected => "BRIDGE_TRUST_CLASS_DECEPTION_DETECTED"
  | StatusTransition => "STATUS_TRANSITION"
  | ArtifactRecorded => "ARTIFACT_RECORDED"
  | BuildPassed => "BUILD_PASSED"
  | TestPassed => "TEST_PASSED"
  | E2ePassed => "E2E_PASSED"
  | RecoveryRehearsalPassed => "RECOVERY_REHEARSAL_PASSED"
  | ReleaseGatePassed => "RELEASE_GATE_PASSED"
  | OperationalHealthy => "OPERATIONAL_HEALTHY"
  | InvariantBundleLoaded => "INVARIANT_BUNDLE_LOADED"
  | WebExposureGranted => "WEB_EXPOSURE_GRANTED"
  | IdentityBundleLoaded => "IDENTITY_BUNDLE_LOADED"
  | GroupRegistered => "GROUP_REGISTERED"
  | ReceiptForgeryDetected => "RECEIPT_FORGERY_DETECTED"
  | ReceiptPayloadDuplicateObserved => "RECEIPT_PAYLOAD_DUPLICATE_OBSERVED"
  | ReceiptLineageDepthExceeded => "RECEIPT_LINEAGE_DEPTH_EXCEEDED"
  | ReceiptOrphanActionRefDetected => "RECEIPT_ORPHAN_ACTION_REF_DETECTED"
  | InvariantBundleRejected => "INVARIANT_BUNDLE_REJECTED"
  | PolicyBundleRejected => "POLICY_BUNDLE_REJECTED"
  | IdentityBundleRejected => "IDENTITY_BUNDLE_REJECTED"
  | CapabilityBundleRejected => "CAPABILITY_BUNDLE_REJECTED"
  | SandboxBundleRejected => "SANDBOX_BUNDLE_REJECTED"
  | FailureObservedRateLimited => "FAILURE_OBSERVED_RATE_LIMITED"
  | GraphEvaluationBudgetExceeded => "GRAPH_EVALUATION_BUDGET_EXCEEDED"
  | TransitionBudgetExceeded => "TRANSITION_BUDGET_EXCEEDED"
  | AdapterLifecycleIllegalTransition => "ADAPTER_LIFECYCLE_ILLEGAL_TRANSITION"
  | PublisherTrustLevelObserved => "PUBLISHER_TRUST_LEVEL_OBSERVED"
  | PublisherKeyCollision => "PUBLISHER_KEY_COLLISION"
  | MarketplaceReviewBudgetExceeded => "MARKETPLACE_REVIEW_BUDGET_EXCEEDED"
  | BridgeOperatorConsentGranted => "BRIDGE_OPERATOR_CONSENT_GRANTED"
  | BridgeDeferredNeedsReview => "BRIDGE_DEFERRED_NEEDS_REVIEW"
  | BridgeMetadataDriftDetected => "BRIDGE_METADATA_DRIFT_DETECTED"
  | BridgeBlacklistLifted => "BRIDGE_BLACKLIST_LIFTED"
  | HardwareSubstrateAcceptOutsideRecoveryBlocked => "HARDWARE_SUBSTRATE_ACCEPT_OUTSIDE_RECOVERY_BLOCKED"
  | FirstBootOperation => "FIRST_BOOT_OPERATION"
  | VaultBootstrapKeyUsed => "VAULT_BOOTSTRAP_KEY_USED"
  | BootstrapKeyUseAfterExhaustBlocked => "BOOTSTRAP_KEY_USE_AFTER_EXHAUST_BLOCKED"
  | VaultRekeyed => "VAULT_REKEYED"
  | HardwareGraphDriftAccepted => "HARDWARE_GRAPH_DRIFT_ACCEPTED"
  | VaultTpmResealRequired => "VAULT_TPM_RESEAL_REQUIRED"
  | AgentLifecycleTransitioned => "AGENT_LIFECYCLE_TRANSITIONED"
  | CompactionApprovalRequired => "COMPACTION_APPROVAL_REQUIRED"
  end.

Definition retention_class (r : t) : RetentionClass :=
  match r with
  | ApprovalDenied | SurfaceGpuBudgetExceeded | CrossZoneViolationAttempted | ThemeRejected
  | KdeRenderFailed | WebRecoveryPageLoaded | WebRecoveryPageExited | GpuBudgetExceeded
  | GpuBudgetDowngraded | IommuUnavailableDegraded | VaultCapabilityRevoked | ApprovalRevoked
  | ApprovalDeliveryFailed | ExecutionFailed | ExecutionVerificationFailed
  | AdapterDeregistered | IdempotencyKeyReplayDetected | ExperimentalAdapterLiveDispatch
  | ExposureDenied | ExposureRevoked | ExposureTerminatedTtlExpired | OutboundGrantRevoked
  | AllowlistFqdnFanoutExceeded | LanPeerDriftDetected | PackageVerificationFailed
  | PackageInstallFailed | PackageDowngradeBlocked | ExternalBridgeUpstreamSignatureFailed
  | KernelDivergedRegression | KernelRefreshPipelineFailed | AppObserveTimeout
  | AppTranslateManifestRejected | CircuitBreakerOpened | TimeDriftDetected | UnitDegraded
  | UnitFailed | UnitRollbackTriggered | TransitionFailed | ResourceBudgetDenied
  | ModelInvocationFailed | ModelBackendDegraded | ModelCircuitOpened | ModelVaultDeny
  | ModelNetworkDeny | ModelBackendRetired | AgentRetired | AgentProposalDenied
  | AgentPlanAbandoned | AgentInterMessageRejected | AgentBackendDegraded
  | PackageObjectRetired | PackageObjectVerificationFailed | AppLaunchFailed
  | ProfileOutlierDetected | ProfileVisibilityDowngraded | ProfileRetired | CliRenderFailed
  | DeviceDriverRejected | RemovableDeviceDenied | IommuDmaProtectionDegraded | VpnTunnelFailed
  | MdnsBroadcastDenied | ResolverBackendDegraded | FirmwareVerificationFailed
  | FirmwareApplyFailed | BiosUefiUpdateDeferred | TelemetryBackendUnavailable
  | TelemetryBackendDegraded | PublisherOnboardingIdentityVerified | CapabilityReviewApproved
  | ListingVisibilityDowngraded | BridgeRateLimitExceeded | BridgeDegradedUpstreamUnavailable
  | E2ePassed | ReceiptOrphanActionRefDetected | GraphEvaluationBudgetExceeded
  | TransitionBudgetExceeded | BridgeMetadataDriftDetected =>
      Extended60M
  | PolicyDecision | ExecutionCompleted | RecoveryEvent | ChainCheckpoint
  | EmergencyOverrideGrant | PolicyBundleLoad | SegmentSealed | ChainInconsistencyDetected
  | TamperDetected | CrossSurfaceReadDenied | RecoveryKindRejected
  | UiTrustBearingAuthorshipRefused | ThemeInvariantViolated | KdeRendererDegraded
  | KdeLayerShellRejected | KdeKwinScriptRejected | KdeRecoveryShellStarted
  | KdeRecoveryKindRejectedAtRenderer | WebLanExposureGranted | WebPublicExposureGranted
  | WebRecoveryKindRejected | WebPublicExposureFirewallRecorded | HostCapabilityLie
  | GpuBindingForgery | GpuDeviceForceReclaimed | VaultRawReveal | VaultCapabilityForgery
  | SubjectKindRejectedForVault | VaultRecoverySnapshotLoaded | OverrideRequested
  | OverrideQuorumReceived | OverrideGranted | OverrideConsumed | OverrideDenied
  | OverrideExpired | OverrideRevoked | OverrideReview | RecoveryBootEntered
  | RecoveryOperatorAuthenticated | RecoveryOperationPerformed | RecoveryTtlExpiredAutoReboot
  | RecoveryBootExited | RecoveryL5StartBlocked | RecoveryNetworkLanEnabled
  | RecoveryNetworkLanDisabled | RecoveryForensicAttachPerformed
  | BootFailureAutoRecoveryTriggered | RollbackFailedRequiresOperator
  | AdapterRegistrationRejected | BindingVoidedActionRevised | NetworkPostureChanged
  | ExposureGranted | OutboundOutsideManifest | OutboundDegradedToLoopbackAuto
  | AiDirectInternetDenied | BackendDegradedNftablesToIptables | RawSocketBypassAttempted
  | PackageQuarantined | CapabilityLieDetected | TrustChainBroken | TrustChainTooDeep
  | ManifestForged | MirrorHashMismatchBlacklisted | PublisherKeyRotated
  | PublisherDeplatformed | AiosRootKeyRotated | KernelPromotedToA | KernelPromotedToB
  | KernelRollbackPerformed | KernelImageDriftDetected | PipelineDefinitionReplaced
  | AppHonestyClassViolation | AppEcosystemRuntimeBreakoutAttempted
  | AppAiDirectInstallAttemptedBlocked | AppRecipeDeceptiveRejectedAtIngest | FirstBootStarted
  | FirstBootFailed | VaultRootKeyGenerated | AiProviderModeSet | InitialFirewallPostureSet
  | FirstGroupRegistered | FirstUserRegistered | RecoveryOperatorRegistered | FirstBootComplete
  | ResetToFactoryInitiated | ComponentRestartBudgetExhausted | HaltedPendingOperator
  | BackendVersionMismatch | RecoveryLoopDetected | ReceiptRedactionFailed
  | ReceiptIntegrityQuarantined | ReceiptLineageCycleDetected | ReceiptSequenceOutOfOrder
  | UnitDependencyCycleDetected | AbRollbackPerformed | DependencyCycleDetected
  | TransitionConflict | AdapterActionKindViolation | AdapterCapabilityViolation
  | AdapterDowngradeRejected | ModelPromptInjectionDetected | ModelResponseSignatureFailed
  | AgentInterruptedByRecovery | AgentMemoryCrossUserDenied | AgentSelfGradingBlocked
  | AgentDirectFsWriteBlocked | AgentCrossGroupCoordinationBlocked
  | AgentPromptInjectionDetected | PackageObjectRolledBack | PackageObjectQuarantined
  | PackagePrivateStateCorruptDetected | PackageVersionDowngradeBlocked
  | PackageRecoveryRestorePerformed | WinePrefixBreakoutAttempted | WaydroidEscapeAttempted
  | OrchestrationKindMismatchRejected | ProfileReputationFarmSuspected
  | CliRecoveryKindRejected | CliAutoConfirmRejected | CliAnsiInjectionBlocked
  | CliTrustIndicatorReordered | DeviceQuarantined | AiRemovableDeviceBlocked
  | HardwareGraphDriftDetected | FirmwareVersionDowngradeBlocked | OutOfTreeDriverBlocked
  | DnsResolverRebindingDetected | DnsPlainBlocked | DnsResolverSubstitutionRejected
  | VpnProviderKeyRotated | VpnProviderKeyForgeryRejected | MdnsPoisoningDetected
  | FirmwareDowngradeBlocked | FirmwareUnsignedRejected | FirmwareVendorDeplatformed
  | FirmwareRollbackPerformed | FirmwareTamperDetected | OperatorLocalFirmwareInstalled
  | TelemetryCardinalityBreach | TelemetryRedactionFailed | TelemetryLogInjectionDetected
  | TelemetryEbpfProbeRejected | PublisherOnboardingApproved | PublisherOnboardingRejected
  | PublisherOnboardingDeplatformed | CapabilityReviewDeceptiveRejected
  | ListingVsManifestMismatch | MarketplaceReviewBypassAttempted
  | BridgeUpstreamSignatureFailed | BridgeDeceptiveRejected | BridgeBlacklisted
  | BridgeTrustClassDeceptionDetected | RecoveryRehearsalPassed | ReleaseGatePassed
  | InvariantBundleLoaded | WebExposureGranted | IdentityBundleLoaded | GroupRegistered
  | ReceiptForgeryDetected | InvariantBundleRejected | PolicyBundleRejected
  | IdentityBundleRejected | CapabilityBundleRejected | SandboxBundleRejected
  | AdapterLifecycleIllegalTransition | PublisherKeyCollision | BridgeBlacklistLifted
  | HardwareSubstrateAcceptOutsideRecoveryBlocked | FirstBootOperation | VaultBootstrapKeyUsed
  | BootstrapKeyUseAfterExhaustBlocked | VaultRekeyed | HardwareGraphDriftAccepted
  | VaultTpmResealRequired | CompactionApprovalRequired =>
      Forever
  | ActionReceived | TranslationCreated | RoutingDecision | ApprovalRequested | ApprovalGranted
  | ExecutionStarted | VerificationResult | RollbackCompleted | ModelCall | GcPass
  | QuarantineEvent | ConflictEvent | SystemAdminOperation | CrossGroupAccessDenied
  | SurfaceCreated | SurfaceDestroyed | SurfaceNeverRendered | UiTreeValidationRejected
  | UiRecoveryNodeDropped | ThemeLoaded | ThemeSwitched | KdeRendererStarted | KdeFrameDropped
  | KdeKwinScriptLoaded | KdePlasmaThemeOverridden | KdeTokenFallbackUsed | WebRendererStarted
  | WebRendererDegraded | WebLanExposureActive | WebExposureRevoked | WebExtensionInterference
  | WebFullscreenRequested | WebThemeInjectionBlocked | WebThemeFallbackUsed
  | WebClientStorageQuotaBreach | WebRendererClsBreach
  | WebConstitutionalElementReregisterBlocked | GpuDeviceEnumerated | GpuDeviceDisconnected
  | GpuVkDeviceCreated | GpuVkDeviceDestroyed | GpuDmabufGranted | GpuDmabufDenied
  | GpuCapabilityDenied | GpuValidationDisabledRecovery | GpuValidationEnabledNormal
  | DriverUnavailable | VaultCapabilityIssued | VaultCapabilityRotated | VaultOperation
  | ApprovalDelivered | ApprovalExpired | ApprovalConsumed | ActionValidated
  | ActionPolicyDecision | ActionDispatched | ExecutionSucceeded | RollbackAttempted
  | RollbackSucceeded | AdapterRegistered | AdapterDegraded | AiInteractiveQueueDowngrade
  | DryRunSimulationRecorded | AdapterDeprecatedDispatch | ExposureRequested
  | PublicExposureHeartbeat | OutboundGrantIssued | LanSubnetDriftDetected
  | ExternalModelCallBrokered | PackageFetchStarted | PackageVerified
  | PackageApprovalRequested | PackageInstalled | PackageUninstalled
  | ExternalBridgePackageAdmitted | KernelPipelineStarted | KernelBuildCompleted
  | KernelGateResult | KernelConverged | KernelImageObserved | KernelRefreshScheduled
  | AppObserveStarted | AppObserveCompleted | AppTranslateManifestProposed
  | AppTranslateManifestApproved | AppRecipeContributed | AppRecipeImported
  | AppManifestDeltaProposed | AppManifestDeltaApproved | FirstBootStageCompleted
  | FailureObserved | DegradationLevelTransitioned | ComponentRestarted | CircuitBreakerClosed
  | UnitRegistered | UnitStarted | UnitHealthy | UnitStopped | GraphEvaluated
  | TransitionQueued | TransitionStarted | TransitionSucceeded | AbCanaryPromoted
  | GraphBlockedResource | GraphConverged | AdapterRegistrationRequested | AdapterHealthy
  | AdapterHotReloaded | ModelInvocationStarted | ModelInvocationSucceeded | ModelRateLimited
  | ModelBackendRegistered | AgentRegistered | AgentProposalEmitted | AgentProposalApproved
  | AgentPlanBundledApproved | AgentMemoryWrite | AgentMemoryRead | AgentInterMessageSent
  | PackageObjectCreated | PackageObjectUpdated | PackagePrivateStateInitialized
  | AppLaunchStarted | AppLaunchSucceeded | WinePrefixCreated | WaydroidContainerStarted
  | KvmVmBooted | KvmVmTerminated | ProfileContributed | ProfileRatingAggregated
  | ProfileRecommendationShown | ProfileImportedFromUpstream | CliRenderStarted
  | CliNodeKindUnsupported | CliDegradedNoTty | CliScriptingModeInvoked
  | CliOperatorAuthenticated | HardwareGraphRebuilt | DeviceDetected | DeviceDriverBound
  | DeviceDisconnected | RemovableDeviceRequest | RemovableDeviceApproved | DnsQueryPerformed
  | VpnTunnelEstablished | MdnsRequestReceived | FirmwareUpdateRequested
  | FirmwareVerificationPassed | FirmwareApplied | TelemetryPipelineStarted
  | TelemetryRetentionTierPromoted | TelemetrySamplingRateAdjusted | TelemetryEbpfProbeLoaded
  | PublisherOnboardingApplicationSubmitted | CapabilityReviewRequested | ListingPublished
  | BridgeFetchStarted | BridgeFetchCompleted | BridgeUpstreamSignatureVerified
  | BridgeRepackagedWithAiosKey | BridgeMetadataImported | BridgeRecipeImported
  | StatusTransition | ArtifactRecorded | BuildPassed | TestPassed | OperationalHealthy
  | ReceiptPayloadDuplicateObserved | ReceiptLineageDepthExceeded | FailureObservedRateLimited
  | PublisherTrustLevelObserved | MarketplaceReviewBudgetExceeded
  | BridgeOperatorConsentGranted | BridgeDeferredNeedsReview | AgentLifecycleTransitioned =>
      Standard24M
  end.

Definition wire_id (r : t) : Z :=
  match r with
  | ActionReceived => 1 | TranslationCreated => 2 | RoutingDecision => 3 | PolicyDecision => 4
  | ApprovalRequested => 5 | ApprovalGranted => 6 | ApprovalDenied => 7 | ExecutionStarted => 8
  | ExecutionCompleted => 9 | VerificationResult => 10 | RollbackCompleted => 11
  | RecoveryEvent => 12 | ModelCall => 13 | ChainCheckpoint => 14 | GcPass => 15
  | QuarantineEvent => 16 | ConflictEvent => 17 | EmergencyOverrideGrant => 18
  | PolicyBundleLoad => 19 | SegmentSealed => 20 | ChainInconsistencyDetected => 21
  | TamperDetected => 22 | SystemAdminOperation => 23 | CrossGroupAccessDenied => 24
  | SurfaceCreated => 25 | SurfaceDestroyed => 26 | SurfaceGpuBudgetExceeded => 27
  | CrossSurfaceReadDenied => 28 | CrossZoneViolationAttempted => 29
  | RecoveryKindRejected => 30 | SurfaceNeverRendered => 31 | UiTreeValidationRejected => 32
  | UiTrustBearingAuthorshipRefused => 33 | UiRecoveryNodeDropped => 34 | ThemeLoaded => 35
  | ThemeRejected => 36 | ThemeSwitched => 37 | ThemeInvariantViolated => 38
  | KdeRendererStarted => 39 | KdeRendererDegraded => 40 | KdeFrameDropped => 41
  | KdeLayerShellRejected => 42 | KdeKwinScriptLoaded => 43 | KdeKwinScriptRejected => 44
  | KdeRecoveryShellStarted => 45 | KdeRecoveryKindRejectedAtRenderer => 46
  | KdePlasmaThemeOverridden => 47 | KdeRenderFailed => 48 | KdeTokenFallbackUsed => 49
  | WebLanExposureGranted => 50 | WebPublicExposureGranted => 51
  | WebRecoveryKindRejected => 52 | WebPublicExposureFirewallRecorded => 53
  | WebRecoveryPageLoaded => 54 | WebRecoveryPageExited => 55 | WebRendererStarted => 56
  | WebRendererDegraded => 57 | WebLanExposureActive => 58 | WebExposureRevoked => 59
  | WebExtensionInterference => 60 | WebFullscreenRequested => 61
  | WebThemeInjectionBlocked => 62 | WebThemeFallbackUsed => 63
  | WebClientStorageQuotaBreach => 64 | WebRendererClsBreach => 65
  | WebConstitutionalElementReregisterBlocked => 66 | GpuDeviceEnumerated => 67
  | GpuDeviceDisconnected => 68 | GpuVkDeviceCreated => 69 | GpuVkDeviceDestroyed => 70
  | GpuDmabufGranted => 71 | GpuDmabufDenied => 72 | GpuCapabilityDenied => 73
  | GpuValidationDisabledRecovery => 74 | GpuValidationEnabledNormal => 75
  | DriverUnavailable => 76 | GpuBudgetExceeded => 77 | GpuBudgetDowngraded => 78
  | IommuUnavailableDegraded => 79 | HostCapabilityLie => 80 | GpuBindingForgery => 81
  | GpuDeviceForceReclaimed => 82 | VaultCapabilityIssued => 83 | VaultCapabilityRotated => 84
  | VaultCapabilityRevoked => 85 | VaultOperation => 86 | VaultRawReveal => 87
  | VaultCapabilityForgery => 88 | SubjectKindRejectedForVault => 89
  | VaultRecoverySnapshotLoaded => 90 | ApprovalDelivered => 91 | ApprovalExpired => 92
  | ApprovalConsumed => 93 | ApprovalRevoked => 94 | ApprovalDeliveryFailed => 95
  | OverrideRequested => 96 | OverrideQuorumReceived => 97 | OverrideGranted => 98
  | OverrideConsumed => 99 | OverrideDenied => 100 | OverrideExpired => 101
  | OverrideRevoked => 102 | OverrideReview => 103 | RecoveryBootEntered => 104
  | RecoveryOperatorAuthenticated => 105 | RecoveryOperationPerformed => 106
  | RecoveryTtlExpiredAutoReboot => 107 | RecoveryBootExited => 108
  | RecoveryL5StartBlocked => 109 | RecoveryNetworkLanEnabled => 110
  | RecoveryNetworkLanDisabled => 111 | RecoveryForensicAttachPerformed => 112
  | BootFailureAutoRecoveryTriggered => 113 | ActionValidated => 114
  | ActionPolicyDecision => 115 | ActionDispatched => 116 | ExecutionSucceeded => 117
  | ExecutionFailed => 118 | ExecutionVerificationFailed => 119 | RollbackAttempted => 120
  | RollbackSucceeded => 121 | RollbackFailedRequiresOperator => 122 | AdapterRegistered => 123
  | AdapterRegistrationRejected => 124 | AdapterDegraded => 125 | AdapterDeregistered => 126
  | IdempotencyKeyReplayDetected => 127 | BindingVoidedActionRevised => 128
  | AiInteractiveQueueDowngrade => 129 | DryRunSimulationRecorded => 130
  | ExperimentalAdapterLiveDispatch => 131 | AdapterDeprecatedDispatch => 132
  | NetworkPostureChanged => 133 | ExposureRequested => 134 | ExposureGranted => 135
  | ExposureDenied => 136 | ExposureRevoked => 137 | ExposureTerminatedTtlExpired => 138
  | PublicExposureHeartbeat => 139 | OutboundGrantIssued => 140 | OutboundGrantRevoked => 141
  | OutboundOutsideManifest => 142 | OutboundDegradedToLoopbackAuto => 143
  | AllowlistFqdnFanoutExceeded => 144 | LanSubnetDriftDetected => 145
  | LanPeerDriftDetected => 146 | AiDirectInternetDenied => 147
  | ExternalModelCallBrokered => 148 | BackendDegradedNftablesToIptables => 149
  | RawSocketBypassAttempted => 150 | PackageFetchStarted => 151 | PackageVerified => 152
  | PackageVerificationFailed => 153 | PackageApprovalRequested => 154
  | PackageInstalled => 155 | PackageInstallFailed => 156 | PackageQuarantined => 157
  | PackageUninstalled => 158 | PackageDowngradeBlocked => 159 | CapabilityLieDetected => 160
  | TrustChainBroken => 161 | TrustChainTooDeep => 162 | ManifestForged => 163
  | MirrorHashMismatchBlacklisted => 164 | PublisherKeyRotated => 165
  | PublisherDeplatformed => 166 | ExternalBridgePackageAdmitted => 167
  | ExternalBridgeUpstreamSignatureFailed => 168 | AiosRootKeyRotated => 169
  | KernelPipelineStarted => 170 | KernelBuildCompleted => 171 | KernelGateResult => 172
  | KernelConverged => 173 | KernelDivergedRegression => 174 | KernelPromotedToA => 175
  | KernelPromotedToB => 176 | KernelRollbackPerformed => 177 | KernelImageObserved => 178
  | KernelImageDriftDetected => 179 | KernelRefreshScheduled => 180
  | KernelRefreshPipelineFailed => 181 | PipelineDefinitionReplaced => 182
  | AppObserveStarted => 183 | AppObserveCompleted => 184 | AppObserveTimeout => 185
  | AppTranslateManifestProposed => 186 | AppTranslateManifestApproved => 187
  | AppTranslateManifestRejected => 188 | AppRecipeContributed => 189
  | AppRecipeImported => 190 | AppManifestDeltaProposed => 191
  | AppManifestDeltaApproved => 192 | AppHonestyClassViolation => 193
  | AppEcosystemRuntimeBreakoutAttempted => 194 | AppAiDirectInstallAttemptedBlocked => 195
  | AppRecipeDeceptiveRejectedAtIngest => 196 | FirstBootStarted => 197
  | FirstBootStageCompleted => 198 | FirstBootFailed => 199 | VaultRootKeyGenerated => 200
  | AiProviderModeSet => 201 | InitialFirewallPostureSet => 202 | FirstGroupRegistered => 203
  | FirstUserRegistered => 204 | RecoveryOperatorRegistered => 205 | FirstBootComplete => 206
  | ResetToFactoryInitiated => 207 | FailureObserved => 208
  | DegradationLevelTransitioned => 209 | ComponentRestarted => 210
  | ComponentRestartBudgetExhausted => 211 | CircuitBreakerOpened => 212
  | CircuitBreakerClosed => 213 | HaltedPendingOperator => 214 | TimeDriftDetected => 215
  | BackendVersionMismatch => 216 | RecoveryLoopDetected => 217 | ReceiptRedactionFailed => 218
  | ReceiptIntegrityQuarantined => 219 | ReceiptLineageCycleDetected => 220
  | ReceiptSequenceOutOfOrder => 221 | UnitRegistered => 222 | UnitStarted => 223
  | UnitHealthy => 224 | UnitDegraded => 225 | UnitFailed => 226 | UnitStopped => 227
  | UnitRollbackTriggered => 228 | UnitDependencyCycleDetected => 229 | GraphEvaluated => 230
  | TransitionQueued => 231 | TransitionStarted => 232 | TransitionSucceeded => 233
  | TransitionFailed => 234 | AbCanaryPromoted => 235 | AbRollbackPerformed => 236
  | DependencyCycleDetected => 237 | TransitionConflict => 238 | ResourceBudgetDenied => 239
  | GraphBlockedResource => 240 | GraphConverged => 241 | AdapterRegistrationRequested => 242
  | AdapterHealthy => 243 | AdapterActionKindViolation => 244
  | AdapterCapabilityViolation => 245 | AdapterHotReloaded => 246
  | AdapterDowngradeRejected => 247 | ModelInvocationStarted => 248
  | ModelInvocationSucceeded => 249 | ModelInvocationFailed => 250
  | ModelBackendDegraded => 251 | ModelCircuitOpened => 252
  | ModelPromptInjectionDetected => 253 | ModelResponseSignatureFailed => 254
  | ModelVaultDeny => 255 | ModelNetworkDeny => 256 | ModelRateLimited => 257
  | ModelBackendRegistered => 258 | ModelBackendRetired => 259 | AgentRegistered => 260
  | AgentRetired => 261 | AgentInterruptedByRecovery => 262 | AgentProposalEmitted => 263
  | AgentProposalApproved => 264 | AgentProposalDenied => 265 | AgentPlanBundledApproved => 266
  | AgentPlanAbandoned => 267 | AgentMemoryWrite => 268 | AgentMemoryRead => 269
  | AgentMemoryCrossUserDenied => 270 | AgentInterMessageSent => 271
  | AgentInterMessageRejected => 272 | AgentSelfGradingBlocked => 273
  | AgentDirectFsWriteBlocked => 274 | AgentCrossGroupCoordinationBlocked => 275
  | AgentBackendDegraded => 276 | AgentPromptInjectionDetected => 277
  | PackageObjectCreated => 278 | PackageObjectUpdated => 279 | PackageObjectRolledBack => 280
  | PackageObjectQuarantined => 281 | PackagePrivateStateInitialized => 282
  | PackagePrivateStateCorruptDetected => 283 | PackageVersionDowngradeBlocked => 284
  | PackageObjectRetired => 285 | PackageObjectVerificationFailed => 286
  | PackageRecoveryRestorePerformed => 287 | AppLaunchStarted => 288
  | AppLaunchSucceeded => 289 | AppLaunchFailed => 290 | WinePrefixCreated => 291
  | WinePrefixBreakoutAttempted => 292 | WaydroidContainerStarted => 293
  | WaydroidEscapeAttempted => 294 | KvmVmBooted => 295 | KvmVmTerminated => 296
  | OrchestrationKindMismatchRejected => 297 | ProfileContributed => 298
  | ProfileRatingAggregated => 299 | ProfileOutlierDetected => 300
  | ProfileRecommendationShown => 301 | ProfileImportedFromUpstream => 302
  | ProfileReputationFarmSuspected => 303 | ProfileVisibilityDowngraded => 304
  | ProfileRetired => 305 | CliRenderStarted => 306 | CliRenderFailed => 307
  | CliNodeKindUnsupported => 308 | CliRecoveryKindRejected => 309
  | CliAutoConfirmRejected => 310 | CliAnsiInjectionBlocked => 311 | CliDegradedNoTty => 312
  | CliScriptingModeInvoked => 313 | CliOperatorAuthenticated => 314
  | CliTrustIndicatorReordered => 315 | HardwareGraphRebuilt => 316 | DeviceDetected => 317
  | DeviceDriverBound => 318 | DeviceDriverRejected => 319 | DeviceQuarantined => 320
  | DeviceDisconnected => 321 | RemovableDeviceRequest => 322 | RemovableDeviceApproved => 323
  | RemovableDeviceDenied => 324 | AiRemovableDeviceBlocked => 325
  | HardwareGraphDriftDetected => 326 | FirmwareVersionDowngradeBlocked => 327
  | IommuDmaProtectionDegraded => 328 | OutOfTreeDriverBlocked => 329
  | DnsQueryPerformed => 330 | DnsResolverRebindingDetected => 331 | DnsPlainBlocked => 332
  | DnsResolverSubstitutionRejected => 333 | VpnTunnelEstablished => 334
  | VpnTunnelFailed => 335 | VpnProviderKeyRotated => 336
  | VpnProviderKeyForgeryRejected => 337 | MdnsRequestReceived => 338
  | MdnsBroadcastDenied => 339 | MdnsPoisoningDetected => 340 | ResolverBackendDegraded => 341
  | FirmwareUpdateRequested => 342 | FirmwareVerificationPassed => 343
  | FirmwareVerificationFailed => 344 | FirmwareDowngradeBlocked => 345
  | FirmwareUnsignedRejected => 346 | FirmwareVendorDeplatformed => 347
  | FirmwareApplied => 348 | FirmwareApplyFailed => 349 | FirmwareRollbackPerformed => 350
  | BiosUefiUpdateDeferred => 351 | FirmwareTamperDetected => 352
  | OperatorLocalFirmwareInstalled => 353 | TelemetryPipelineStarted => 354
  | TelemetryCardinalityBreach => 355 | TelemetryRedactionFailed => 356
  | TelemetryBackendUnavailable => 357 | TelemetryBackendDegraded => 358
  | TelemetryLogInjectionDetected => 359 | TelemetryRetentionTierPromoted => 360
  | TelemetrySamplingRateAdjusted => 361 | TelemetryEbpfProbeLoaded => 362
  | TelemetryEbpfProbeRejected => 363 | PublisherOnboardingApplicationSubmitted => 364
  | PublisherOnboardingIdentityVerified => 365 | PublisherOnboardingApproved => 366
  | PublisherOnboardingRejected => 367 | PublisherOnboardingDeplatformed => 368
  | CapabilityReviewRequested => 369 | CapabilityReviewApproved => 370
  | CapabilityReviewDeceptiveRejected => 371 | ListingPublished => 372
  | ListingVisibilityDowngraded => 373 | ListingVsManifestMismatch => 374
  | MarketplaceReviewBypassAttempted => 375 | BridgeFetchStarted => 376
  | BridgeFetchCompleted => 377 | BridgeUpstreamSignatureVerified => 378
  | BridgeUpstreamSignatureFailed => 379 | BridgeRepackagedWithAiosKey => 380
  | BridgeDeceptiveRejected => 381 | BridgeRateLimitExceeded => 382
  | BridgeMetadataImported => 383 | BridgeRecipeImported => 384 | BridgeBlacklisted => 385
  | BridgeDegradedUpstreamUnavailable => 386 | BridgeTrustClassDeceptionDetected => 387
  | StatusTransition => 388 | ArtifactRecorded => 389 | BuildPassed => 390 | TestPassed => 391
  | E2ePassed => 392 | RecoveryRehearsalPassed => 393 | ReleaseGatePassed => 394
  | OperationalHealthy => 395 | InvariantBundleLoaded => 396 | WebExposureGranted => 397
  | IdentityBundleLoaded => 398 | GroupRegistered => 399 | ReceiptForgeryDetected => 400
  | ReceiptPayloadDuplicateObserved => 401 | ReceiptLineageDepthExceeded => 402
  | ReceiptOrphanActionRefDetected => 403 | InvariantBundleRejected => 404
  | PolicyBundleRejected => 405 | IdentityBundleRejected => 406
  | CapabilityBundleRejected => 407 | SandboxBundleRejected => 408
  | FailureObservedRateLimited => 409 | GraphEvaluationBudgetExceeded => 410
  | TransitionBudgetExceeded => 411 | AdapterLifecycleIllegalTransition => 412
  | PublisherTrustLevelObserved => 413 | PublisherKeyCollision => 414
  | MarketplaceReviewBudgetExceeded => 415 | BridgeOperatorConsentGranted => 416
  | BridgeDeferredNeedsReview => 417 | BridgeMetadataDriftDetected => 418
  | BridgeBlacklistLifted => 419 | HardwareSubstrateAcceptOutsideRecoveryBlocked => 420
  | FirstBootOperation => 421 | VaultBootstrapKeyUsed => 422
  | BootstrapKeyUseAfterExhaustBlocked => 423 | VaultRekeyed => 424
  | HardwareGraphDriftAccepted => 425 | VaultTpmResealRequired => 426
  | AgentLifecycleTransitioned => 427 | CompactionApprovalRequired => 1000
  end%Z.

(** [RecordType::iter()] of [strum::EnumIter]: declaration order. *)
Definition iter : list t :=
  [ActionReceived; TranslationCreated; RoutingDecision; PolicyDecision; ApprovalRequested;
   ApprovalGranted; ApprovalDenied; ExecutionStarted; ExecutionCompleted; VerificationResult;
   RollbackCompleted; RecoveryEvent; ModelCall; ChainCheckpoint; GcPass; QuarantineEvent;
   ConflictEvent; EmergencyOverrideGrant; PolicyBundleLoad; SegmentSealed;
   ChainInconsistencyDetected; TamperDetected; SystemAdminOperation; CrossGroupAccessDenied;
   SurfaceCreated; SurfaceDestroyed; SurfaceGpuBudgetExceeded; CrossSurfaceReadDenied;
   CrossZoneViolationAttempted; RecoveryKindRejected; SurfaceNeverRendered;
   UiTreeValidationRejected; UiTrustBearingAuthorshipRefused; UiRecoveryNodeDropped;
   ThemeLoaded; ThemeRejected; ThemeSwitched; ThemeInvariantViolated; KdeRendererStarted;
   KdeRendererDegraded; KdeFrameDropped; KdeLayerShellRejected; KdeKwinScriptLoaded;
   KdeKwinScriptRejected; KdeRecoveryShellStarted; KdeRecoveryKindRejectedAtRenderer;
   KdePlasmaThemeOverridden; KdeRenderFailed; KdeTokenFallbackUsed; WebLanExposureGranted;
   WebPublicExposureGranted; WebRecoveryKindRejected; WebPublicExposureFirewallRecorded;
   WebRecoveryPageLoaded; WebRecoveryPageExited; WebRendererStarted; WebRendererDegraded;
   WebLanExposureActive; WebExposureRevoked; WebExtensionInterference; WebFullscreenRequested;
   WebThemeInjectionBlocked; WebThemeFallbackUsed; WebClientStorageQuotaBreach;
   WebRendererClsBreach; WebConstitutionalElementReregisterBlocked; GpuDeviceEnumerated;
   GpuDeviceDisconnected; GpuVkDeviceCreated; GpuVkDeviceDestroyed; GpuDmabufGranted;
   GpuDmabufDenied; GpuCapabilityDenied; GpuValidationDisabledRecovery;
   GpuValidationEnabledNormal; DriverUnavailable; GpuBudgetExceeded; GpuBudgetDowngraded;
   IommuUnavailableDegraded; HostCapabilityLie; GpuBindingForgery; GpuDeviceForceReclaimed;
   VaultCapabilityIssued; VaultCapabilityRotated; VaultCapabilityRevoked; VaultOperation;
   VaultRawReveal; VaultCapabilityForgery; SubjectKindRejectedForVault;
   VaultRecoverySnapshotLoaded; ApprovalDelivered; ApprovalExpired; ApprovalConsumed;
   ApprovalRevoked; ApprovalDeliveryFailed; OverrideRequested; OverrideQuorumReceived;
   OverrideGranted; OverrideConsumed; OverrideDenied; OverrideExpired; OverrideRevoked;
   OverrideReview; RecoveryBootEntered; RecoveryOperatorAuthenticated;
   RecoveryOperationPerformed; RecoveryTtlExpiredAutoReboot; RecoveryBootExited;
   RecoveryL5StartBlocked; RecoveryNetworkLanEnabled; RecoveryNetworkLanDisabled;
   RecoveryForensicAttachPerformed; BootFailureAutoRecoveryTriggered; ActionValidated;
   ActionPolicyDecision; ActionDispatched; ExecutionSucceeded; ExecutionFailed;
   ExecutionVerificationFailed; RollbackAttempted; RollbackSucceeded;
   RollbackFailedRequiresOperator; AdapterRegistered; AdapterRegistrationRejected;
   AdapterDegraded; AdapterDeregistered; IdempotencyKeyReplayDetected;
   BindingVoidedActionRevised; AiInteractiveQueueDowngrade; DryRunSimulationRecorded;
   ExperimentalAdapterLiveDispatch; AdapterDeprecatedDispatch; NetworkPostureChanged;
   ExposureRequested; ExposureGranted; ExposureDenied; ExposureRevoked;
   ExposureTerminatedTtlExpired; PublicExposureHeartbeat; OutboundGrantIssued;
   OutboundGrantRevoked; OutboundOutsideManifest; OutboundDegradedToLoopbackAuto;
   AllowlistFqdnFanoutExceeded; LanSubnetDriftDetected; LanPeerDriftDetected;
   AiDirectInternetDenied; ExternalModelCallBrokered; BackendDegradedNftablesToIptables;
   RawSocketBypassAttempted; PackageFetchStarted; PackageVerified; PackageVerificationFailed;
   PackageApprovalRequested; PackageInstalled; PackageInstallFailed; PackageQuarantined;
   PackageUninstalled; PackageDowngradeBlocked; CapabilityLieDetected; TrustChainBroken;
   TrustChainTooDeep; ManifestForged; MirrorHashMismatchBlacklisted; PublisherKeyRotated;
   PublisherDeplatformed; ExternalBridgePackageAdmitted; ExternalBridgeUpstreamSignatureFailed;
   AiosRootKeyRotated; KernelPipelineStarted; KernelBuildCompleted; KernelGateResult;
   KernelConverged; KernelDivergedRegression; KernelPromotedToA; KernelPromotedToB;
   KernelRollbackPerformed; KernelImageObserved; KernelImageDriftDetected;
   KernelRefreshScheduled; KernelRefreshPipelineFailed; PipelineDefinitionReplaced;
   AppObserveStarted; AppObserveCompleted; AppObserveTimeout; AppTranslateManifestProposed;
   AppTranslateManifestApproved; AppTranslateManifestRejected; AppRecipeContributed;
   AppRecipeImported; AppManifestDeltaProposed; AppManifestDeltaApproved;
   AppHonestyClassViolation; AppEcosystemRuntimeBreakoutAttempted;
   AppAiDirectInstallAttemptedBlocked; AppRecipeDeceptiveRejectedAtIngest; FirstBootStarted;
   FirstBootStageCompleted; FirstBootFailed; VaultRootKeyGenerated; AiProviderModeSet;
   InitialFirewallPostureSet; FirstGroupRegistered; FirstUserRegistered;
   RecoveryOperatorRegistered; FirstBootComplete; ResetToFactoryInitiated; FailureObserved;
   DegradationLevelTransitioned; ComponentRestarted; ComponentRestartBudgetExhausted;
   CircuitBreakerOpened; CircuitBreakerClosed; HaltedPendingOperator; TimeDriftDetected;
   BackendVersionMismatch; RecoveryLoopDetected; ReceiptRedactionFailed;
   ReceiptIntegrityQuarantined; ReceiptLineageCycleDetected; ReceiptSequenceOutOfOrder;
   UnitRegistered; UnitStarted; UnitHealthy; UnitDegraded; UnitFailed; UnitStopped;
   UnitRollbackTriggered; UnitDependencyCycleDetected; GraphEvaluated; TransitionQueued;
   TransitionStarted; TransitionSucceeded; TransitionFailed; AbCanaryPromoted;
   AbRollbackPerformed; DependencyCycleDetected; TransitionConflict; ResourceBudgetDenied;
   GraphBlockedResource; GraphConverged; AdapterRegistrationRequested; AdapterHealthy;
   AdapterActionKindViolation; AdapterCapabilityViolation; AdapterHotReloaded;
   AdapterDowngradeRejected; ModelInvocationStarted; ModelInvocationSucceeded;
   ModelInvocationFailed; ModelBackendDegraded; ModelCircuitOpened;
   ModelPromptInjectionDetected; ModelResponseSignatureFailed; ModelVaultDeny;
   ModelNetworkDeny; ModelRateLimited; ModelBackendRegistered; ModelBackendRetired;
   AgentRegistered; AgentRetired; AgentInterruptedByRecovery; AgentProposalEmitted;
   AgentProposalApproved; AgentProposalDenied; AgentPlanBundledApproved; AgentPlanAbandoned;
   AgentMemoryWrite; AgentMemoryRead; AgentMemoryCrossUserDenied; AgentInterMessageSent;
   AgentInterMessageRejected; AgentSelfGradingBlocked; AgentDirectFsWriteBlocked;
   AgentCrossGroupCoordinationBlocked; AgentBackendDegraded; AgentPromptInjectionDetected;
   PackageObjectCreated; PackageObjectUpdated; PackageObjectRolledBack;
   PackageObjectQuarantined; PackagePrivateStateInitialized;
   PackagePrivateStateCorruptDetected; PackageVersionDowngradeBlocked; PackageObjectRetired;
   PackageObjectVerificationFailed; PackageRecoveryRestorePerformed; AppLaunchStarted;
   AppLaunchSucceeded; AppLaunchFailed; WinePrefixCreated; WinePrefixBreakoutAttempted;
   WaydroidContainerStarted; WaydroidEscapeAttempted; KvmVmBooted; KvmVmTerminated;
   OrchestrationKindMismatchRejected; ProfileContributed; ProfileRatingAggregated;
   ProfileOutlierDetected; ProfileRecommendationShown; ProfileImportedFromUpstream;
   ProfileReputationFarmSuspected; ProfileVisibilityDowngraded; ProfileRetired;
   CliRenderStarted; CliRenderFailed; CliNodeKindUnsupported; CliRecoveryKindRejected;
   CliAutoConfirmRejected; CliAnsiInjectionBlocked; CliDegradedNoTty; CliScriptingModeInvoked;
   CliOperatorAuthenticated; CliTrustIndicatorReordered; HardwareGraphRebuilt; DeviceDetected;
   DeviceDriverBound; DeviceDriverRejected; DeviceQuarantined; DeviceDisconnected;
   RemovableDeviceRequest; RemovableDeviceApproved; RemovableDeviceDenied;
   AiRemovableDeviceBlocked; HardwareGraphDriftDetected; FirmwareVersionDowngradeBlocked;
   IommuDmaProtectionDegraded; OutOfTreeDriverBlocked; DnsQueryPerformed;
   DnsResolverRebindingDetected; DnsPlainBlocked; DnsResolverSubstitutionRejected;
   VpnTunnelEstablished; VpnTunnelFailed; VpnProviderKeyRotated; VpnProviderKeyForgeryRejected;
   MdnsRequestReceived; MdnsBroadcastDenied; MdnsPoisoningDetected; ResolverBackendDegraded;
   FirmwareUpdateRequested; FirmwareVerificationPassed; FirmwareVerificationFailed;
   FirmwareDowngradeBlocked; FirmwareUnsignedRejected; FirmwareVendorDeplatformed;
   FirmwareApplied; FirmwareApplyFailed; FirmwareRollbackPerformed; BiosUefiUpdateDeferred;
   FirmwareTamperDetected; OperatorLocalFirmwareInstalled; TelemetryPipelineStarted;
   TelemetryCardinalityBreach; TelemetryRedactionFailed; TelemetryBackendUnavailable;
   TelemetryBackendDegraded; TelemetryLogInjectionDetected; TelemetryRetentionTierPromoted;
   TelemetrySamplingRateAdjusted; TelemetryEbpfProbeLoaded; TelemetryEbpfProbeRejected;
   PublisherOnboardingApplicationSubmitted; PublisherOnboardingIdentityVerified;
   PublisherOnboardingApproved; PublisherOnboardingRejected; PublisherOnboardingDeplatformed;
   CapabilityReviewRequested; CapabilityReviewApproved; CapabilityReviewDeceptiveRejected;
   ListingPublished; ListingVisibilityDowngraded; ListingVsManifestMismatch;
   MarketplaceReviewBypassAttempted; BridgeFetchStarted; BridgeFetchCompleted;
   BridgeUpstreamSignatureVerified; BridgeUpstreamSignatureFailed; BridgeRepackagedWithAiosKey;
   BridgeDeceptiveRejected; BridgeRateLimitExceeded; BridgeMetadataImported;
   BridgeRecipeImported; BridgeBlacklisted; BridgeDegradedUpstreamUnavailable;
   BridgeTrustClassDeceptionDetected; StatusTransition; ArtifactRecorded; BuildPassed;
   TestPassed; E2ePassed; RecoveryRehearsalPassed; ReleaseGatePassed; OperationalHealthy;
   InvariantBundleLoaded; WebExposureGranted; IdentityBundleLoaded; GroupRegistered;
   ReceiptForgeryDetected; ReceiptPayloadDuplicateObserved; ReceiptLineageDepthExceeded;
   ReceiptOrphanActionRefDetected; InvariantBundleRejected; PolicyBundleRejected;
   IdentityBundleRejected; CapabilityBundleRejected; SandboxBundleRejected;
   FailureObservedRateLimited; GraphEvaluationBudgetExceeded; TransitionBudgetExceeded;
   AdapterLifecycleIllegalTransition; PublisherTrustLevelObserved; PublisherKeyCollision;
   MarketplaceReviewBudgetExceeded; BridgeOperatorConsentGranted; BridgeDeferredNeedsReview;
   BridgeMetadataDriftDetected; BridgeBlacklistLifted;
   HardwareSubstrateAcceptOutsideRecoveryBlocked; FirstBootOperation; VaultBootstrapKeyUsed;
   BootstrapKeyUseAfterExhaustBlocked; VaultRekeyed; HardwareGraphDriftAccepted;
   VaultTpmResealRequired; AgentLifecycleTransitioned; CompactionApprovalRequired].

(** [retention_class_for]. *)
Definition retention_class_for (r : t) : RetentionClass := retention_class r.

(** The whole table is checked by evaluation: each variant is found again
    under its wire name and under its wire id. *)
Lemma find_wire_str r : iter_find (fun x => String.eqb (as_wire_str x) (as_wire_str r)) iter = Some r.
Proof. destruct r; vm_compute; reflexivity. Qed.

Lemma find_wire_id r : iter_find (fun x => Z.eqb (wire_id x) (wire_id r)) iter = Some r.
Proof. destruct r; vm_compute; reflexivity. Qed.

#[global] Instance as_wire_str_inj : Inj eq eq as_wire_str.
Proof. intros a b H. pose proof (find_wire_str a) as Ha. rewrite H, find_wire_str in Ha. congruence. Qed.

#[global] Instance wire_id_inj : Inj eq eq wire_id.
Proof. intros a b H. pose proof (find_wire_id a) as Ha. rewrite H, find_wire_id in Ha. congruence. Qed.

#[global] Instance eq_dec : EqDecision t.
Proof. intros a b. destruct (Z.eq_dec (wire_id a) (wire_id b)) as [H|H].
  - left. by apply wire_id_inj.
  - right. intros ->. done.
Defined.

Lemma iter_complete r : r ∈ iter.
Proof. by apply iter_find_Some with (1 := find_wire_id r). Qed.
End RecordType.
