(* ===== verification/Redaction.v ===== *)
(** * Errors and redaction of the evidence log (crate [aios-evidence])

    [EvidenceError] of [error.rs] with its gRPC status codes, the lookup of a
    record type by wire name ([service/conversions.rs]), and the redaction of
    payloads before they are hashed and signed ([redaction.rs]). *)
From S2P Require Import Prelude Json Ids Records.

Inductive EvidenceError : Type :=
| EncodingFailed (detail : string)
| HashMismatch (expected computed : string)
| ChainBroken (index : nat) (actual expected : string)
| GenesisMissing
| EmptyChain
| DuplicateGenesis
| InvalidReceiptId (detail : string)
| InvalidSubject (detail : string)
| SignatureMalformed (detail : string)
| SignatureMissing
| SignatureMismatch
| SegmentAlreadySealed
| EmptySegment
| SegmentChainBroken (index : nat) (actual expected : string)
| SegmentSealMismatch (expected computed : string)
| SegmentSignatureMismatch.

(** [tonic::Code], the codes the conversion uses. *)
Inductive Code : Type := DataLoss | InvalidArgument | FailedPrecondition | Internal | NotFound.

Definition status_code (e : EvidenceError) : Code :=
  match e with
  | SignatureMismatch | SegmentSignatureMismatch | ChainBroken _ _ _
  | SegmentChainBroken _ _ _ | SegmentSealMismatch _ _ => DataLoss
  | SignatureMalformed _ | InvalidReceiptId _ | InvalidSubject _ => InvalidArgument
  | SignatureMissing | GenesisMissing | DuplicateGenesis | EmptyChain
  | SegmentAlreadySealed | EmptySegment => FailedPrecondition
  | EncodingFailed _ | HashMismatch _ _ => Internal
  end.

Definition record_type_from_wire_str (name : string) : result EvidenceError RecordType.t :=
  if String.eqb name "RECORD_TYPE_UNSPECIFIED" then
    Err (EncodingFailed "wire RecordType is RECORD_TYPE_UNSPECIFIED (proto3 default); rejecting")
  else
    ok_or (iter_find (fun rt => String.eqb (RecordType.as_wire_str rt) name) RecordType.iter)
      (EncodingFailed ("wire RecordType `" +:+ name +:+ "` is not part of the closed §29 vocabulary")).

(** ** Canonical encoding

    [serde_jcs::to_string] and [blake3::hash(..).to_hex()] are arguments of
    everything that hashes; [jcs] works on the JSON projection of the value. *)
Definition jcs_canonicalize (jcs : json -> result string string) (v : json)
    : result EvidenceError string :=
  map_err (fun e => EncodingFailed ("failed to project value into canonical JSON: " +:+ e)) (jcs v).

(** ** Redaction *)
Module Redaction.
Definition REDACTED_SENTINEL : string := "<redacted>".

Inductive Profile : Type := Default | Strict | DebugCapture.

Definition as_wire_str (p : Profile) : string :=
  match p with
  | Default => "default"
  | Strict => "strict"
  | DebugCapture => "debug_capture"
  end.

Inductive RecordCategory : Type := Lifecycle | Vault | Recovery | Telemetry | Segment | Generic.

Definition record_category (rt : RecordType.t) : RecordCategory :=
  let name := RecordType.as_wire_str rt in
  if starts_with "VAULT_" name || starts_with "SUBJECT_KIND_" name then Vault
  else if starts_with "RECOVERY_" name || starts_with "TAMPER_" name
          || starts_with "CHAIN_INCONSISTENCY" name || starts_with "RECEIPT_FORGERY" name
          || starts_with "RECEIPT_INTEGRITY" name || starts_with "RECEIPT_LINEAGE" name
          || starts_with "RECEIPT_SEQUENCE" name || String.eqb name "RECOVERY_EVENT"
  then Recovery
  else if starts_with "TELEMETRY_" name || starts_with "OBSERVABILITY_" name then Telemetry
  else if starts_with "SEGMENT_" name || starts_with "CHAIN_CHECKPOINT" name
          || String.eqb name "GC_PASS" || String.eqb name "QUARANTINE_EVENT"
          || String.eqb name "CONFLICT_EVENT"
  then Segment
  else if existsb (String.eqb name)
            ["ACTION_RECEIVED"; "TRANSLATION_CREATED"; "ROUTING_DECISION"; "POLICY_DECISION";
             "APPROVAL_REQUESTED"; "APPROVAL_GRANTED"; "APPROVAL_DENIED"; "EXECUTION_STARTED";
             "EXECUTION_COMPLETED"; "VERIFICATION_RESULT"; "ROLLBACK_COMPLETED"; "MODEL_CALL";
             "EMERGENCY_OVERRIDE_GRANT"; "POLICY_BUNDLE_LOAD"]
          || starts_with "EXECUTION_" name || starts_with "APPROVAL_" name
          || starts_with "MODEL_" name || starts_with "POLICY_" name
  then Lifecycle
  else Generic.

Definition SECRET_KEY_PATTERNS : list string :=
  ["password"; "passwd"; "secret"; "token"; "api_key"; "apikey"; "private_key"; "privatekey";
   "raw_payload"; "raw_prompt"; "credentials"; "bearer"; "authorization"; "session_key";
   "client_secret"].

Definition PII_KEY_PATTERNS : list string :=
  ["user"; "email"; "phone"; "address"; "ip"; "hostname"; "device_id"; "operator"; "subject";
   "actor"; "principal"; "username"; "account"; "owner"].

(** [str::chars]: a character is a lead byte and its continuation bytes.  The
    first component holds continuation bytes still without their lead byte. *)
Definition is_continuation (a : Ascii.ascii) : bool :=
  let n := Ascii.N_of_ascii a in ((128 <=? n) && (n <? 192))%N.
Fixpoint chars_aux (s : string) : string * list string :=
  match s with
  | EmptyString => ("", [])
  | String a s =>
      let '(pending, cs) := chars_aux s in
      if is_continuation a then (String a pending, cs) else ("", String a pending :: cs)
  end.
Definition chars (s : string) : list string := (chars_aux s).2.

Definition is_ascii_uppercase (c : string) : bool :=
  match c with
  | String a EmptyString => let n := Ascii.N_of_ascii a in ((65 <=? n) && (n <=? 90))%N
  | _ => false
  end.
Definition is_ascii_lowercase (c : string) : bool :=
  match c with
  | String a EmptyString => let n := Ascii.N_of_ascii a in ((97 <=? n) && (n <=? 122))%N
  | _ => false
  end.
Definition is_ascii (c : string) : bool :=
  str_all (fun a => (Ascii.N_of_ascii a <? 128)%N) c.

Section Redact.
(** [char::to_lowercase] on a character that is not ASCII, the JCS encoder and
    the BLAKE3 digest. *)
Variable unicode_lowercase : string -> string.
Variable jcs : json -> result string string.
Variable blake3_to_hex : string -> string.

Definition to_lowercase (c : string) : string :=
  if is_ascii c then to_ascii_lowercase c else unicode_lowercase c.

Fixpoint normalize_chars (prev_was_lower : bool) (cs : list string) : string :=
  match cs with
  | [] => ""
  | c :: cs =>
      if String.eqb c "-" || String.eqb c " " || String.eqb c "." then
        "_" +:+ normalize_chars false cs
      else if is_ascii_uppercase c then
        (if prev_was_lower then "_" else "") +:+ to_lowercase c +:+ normalize_chars false cs
      else to_lowercase c +:+ normalize_chars (is_ascii_lowercase c) cs
  end.
Definition normalize_key (k : string) : string := normalize_chars false (chars k).

Definition key_matches (patterns : list string) (k : string) : bool :=
  existsb (fun p => str_contains p (normalize_key k)) patterns.

Fixpoint redact_keys (patterns : list string) (value : json) : json :=
  match value with
  | JObject map =>
      JObject (List.map (fun '(k, v) =>
        (k, if key_matches patterns k then JString REDACTED_SENTINEL
            else redact_keys patterns v)) map)
  | JArray items => JArray (List.map (redact_keys patterns) items)
  | _ => value
  end.

Definition pii_hash (v : json) : string :=
  match jcs_canonicalize jcs v with
  | Ok canonical => "hash:" +:+ blake3_truncated blake3_to_hex canonical
  | Err _ => REDACTED_SENTINEL
  end.

Fixpoint hash_pii_keys (value : json) : json :=
  match value with
  | JObject map =>
      JObject (List.map (fun '(k, v) =>
        (k, if key_matches PII_KEY_PATTERNS k then JString (pii_hash v)
            else hash_pii_keys v)) map)
  | JArray items => JArray (List.map hash_pii_keys items)
  | _ => value
  end.

(** The three entries, in the key order of [serde_json::Map]. *)
Definition reduce_to_structural_marker (rt : RecordType.t) (stripped : json)
    : result EvidenceError json :=
  let? canonical := jcs_canonicalize jcs stripped in
  Ok (JObject
        [("payload_hash_prefix", JString (blake3_truncated blake3_to_hex canonical));
         ("record_type", JString (RecordType.as_wire_str rt));
         ("redacted_under_profile", JString (as_wire_str Strict))]).

Definition apply_strict (rt : RecordType.t) (payload : json) : result EvidenceError json :=
  let stripped := redact_keys SECRET_KEY_PATTERNS payload in
  match record_category rt with
  | Lifecycle | Telemetry | Generic => reduce_to_structural_marker rt stripped
  | Vault => Ok (hash_pii_keys stripped)
  | Recovery | Segment => Ok stripped
  end.

Definition apply_redaction (profile : Profile) (rt : RecordType.t) (payload : json)
    : result EvidenceError json :=
  match profile with
  | Default | DebugCapture => Ok (redact_keys SECRET_KEY_PATTERNS payload)
  | Strict => apply_strict rt payload
  end.
End Redact.

(** ** Lemmas *)
#[local] Arguments key_matches : simpl never.
Section Lemmas.
Context (lower : string -> string) (jcs : json -> result string string)
  (blake : string -> string).
Abbreviation redact := (redact_keys lower).
Abbreviation secret := (key_matches lower SECRET_KEY_PATTERNS).

(** Two payloads that differ at most in the values of the keys that match a
    secret pattern, at any depth. *)
Inductive agree_outside_secrets : json -> json -> Prop :=
| agree_refl v : agree_outside_secrets v v
| agree_array l1 l2 :
    Forall2 agree_outside_secrets l1 l2 -> agree_outside_secrets (JArray l1) (JArray l2)
| agree_object m1 m2 :
    Forall2 (fun e1 e2 => e1.1 = e2.1 /\
               (secret e1.1 = true \/ agree_outside_secrets e1.2 e2.2)) m1 m2 ->
    agree_outside_secrets (JObject m1) (JObject m2).

(** Every matching key of a payload, at any depth, carries the sentinel. *)
Fixpoint masked (patterns : list string) (v : json) : Prop :=
  match v with
  | JObject m =>
      fold_right (fun e acc =>
        (if key_matches lower patterns e.1 then e.2 = JString REDACTED_SENTINEL
         else masked patterns e.2) /\ acc) True m
  | JArray l => fold_right (fun x acc => masked patterns x /\ acc) True l
  | _ => True
  end.

Lemma redact_keys_agree v1 v2 :
  agree_outside_secrets v1 v2 ->
  redact SECRET_KEY_PATTERNS v1 = redact SECRET_KEY_PATTERNS v2.
Proof.
  revert v1 v2. fix IH 3. intros v1 v2 [v|l1 l2 Hl|m1 m2 Hm]; [done| |]; simpl; f_equal.
  - induction Hl as [|x y l1 l2 Hxy Hl IHl]; [done|]. simpl. f_equal; [by apply IH|done].
  - induction Hm as [|[k1 x] [k2 y] m1 m2 [Hk Hv] Hm IHm]; [done|]. simpl in Hk, Hv. subst k2.
    simpl. f_equal; [|exact IHm]. f_equal.
    destruct (secret k1); [done|]. destruct Hv as [Hv|Hv]; [discriminate Hv|by apply IH].
Qed.

Lemma redact_keys_masked patterns v : masked patterns (redact patterns v).
Proof.
  induction v as [| | | | |items IH|entries IH] using json_nested_ind; simpl; try done.
  - induction IH; simpl; done.
  - induction IH as [|[k v] l Hv IH IHl]; simpl; [done|]. split; [|done].
    by destruct (key_matches lower patterns k).
Qed.

Lemma redact_keys_of_masked patterns v : masked patterns v -> redact patterns v = v.
Proof.
  induction v as [| | | | |items IH|entries IH] using json_nested_ind; try done;
    simpl; intros Hm; f_equal.
  - induction IH; simpl in *; [done|]. destruct Hm. f_equal; auto.
  - induction IH as [|[k v] l Hv IH IHl]; simpl in *; [done|]. destruct Hm as [Hk Hm].
    destruct (key_matches lower patterns k); f_equal; auto; f_equal; auto.
Qed.
End Lemmas.

(** ** Theorems *)

(** Redaction hides secrets: two payloads that differ only in the values of
    secret-shaped keys, at any depth, have the same redacted form under every
    profile and for every record type, so nothing computed from it (content
    hash, signature, stored payload) depends on those values. *)
Theorem redaction_hides_secrets lower jcs blake profile rt v1 v2 :
  agree_outside_secrets lower v1 v2 ->
  apply_redaction lower jcs blake profile rt v1 = apply_redaction lower jcs blake profile rt v2.
Proof.
  intros H%redact_keys_agree.
  destruct profile; simpl; unfold apply_strict; by rewrite H.
Qed.

Definition demo_payload (pw : string) : json :=
  JObject [("auth", JArray [JObject [("X-Api-Key", JString pw)]]); ("path", JString "/etc")].
Lemma redaction_hides_secrets_witness :
  apply_redaction (fun c => c) (fun _ => Ok "c") (fun s => s) Strict RecordType.VaultRekeyed
    (demo_payload "hunter2") =
  apply_redaction (fun c => c) (fun _ => Ok "c") (fun s => s) Strict RecordType.VaultRekeyed
    (demo_payload "letmein").
Proof.
  apply redaction_hides_secrets. repeat constructor; vm_compute; reflexivity.
Defined.

(** Redaction is complete and idempotent: under the default and debug
    profiles every secret-shaped key of the stored payload, at any depth,
    carries the sentinel, and redacting a stored payload again changes
    nothing. *)
Theorem redaction_masks_and_is_idempotent lower jcs blake profile rt v :
  profile <> Strict ->
  exists v', apply_redaction lower jcs blake profile rt v = Ok v' /\
    masked lower SECRET_KEY_PATTERNS v' /\
    apply_redaction lower jcs blake profile rt v' = Ok v'.
Proof.
  intros Hp. exists (redact_keys lower SECRET_KEY_PATTERNS v).
  pose proof (redact_keys_masked lower SECRET_KEY_PATTERNS v) as Hm.
  destruct profile; [|by destruct Hp|]; simpl; by rewrite (redact_keys_of_masked lower _ _ Hm).
Qed.

(** The match is not case-insensitive: an uppercase letter inside a pattern
    word is read as a word boundary, so [passWord] is stored in clear while
    [Password] is masked. *)
Theorem inner_capital_evades_redaction lower jcs blake rt s :
  apply_redaction lower jcs blake Default rt
    (JObject [("passWord", JString s); ("Password", JString s)]) =
  Ok (JObject [("passWord", JString s); ("Password", JString REDACTED_SENTINEL)]).
Proof. reflexivity. Qed.
End Redaction.
