(* ===== verification/Receipt.v ===== *)
(** * Evidence receipts and the receipt chain (crate [aios-evidence])

    [receipt.rs]: the sealed receipt, its canonical projections, sealing,
    signing and verification; [chain.rs]: the append-only chain of a segment.
    The encoder, the digest and Ed25519 are the class [Primitives]; the clock
    reading and the fresh identifier of a seal are arguments. *)
From S2P Require Import Prelude Json Ids CondParser Records Redaction.

(** The third-party code the crate calls: [serde_jcs], [blake3],
    [ed25519_dalek], the [Serialize] form and the RFC 3339 rendering of
    [chrono::DateTime<Utc>], and [char::to_lowercase] beyond ASCII. *)
Class Primitives := {
  jcs : json -> result string string;
  blake3_to_hex : string -> string;
  unicode_lowercase : string -> string;
  datetime_to_json : DateTime -> string;
  to_rfc3339 : DateTime -> string;
  SigningKey : Type;
  VerifyingKey : Type;
  verifying_key : SigningKey -> VerifyingKey;
  sign : SigningKey -> string -> list Z;
  verify : VerifyingKey -> string -> list Z -> bool }.

Definition SIGNATURE_LENGTH : nat := 64.
Definition is_byte (b : Z) : Prop := (0 <= b <= u8_max)%Z.

(** What the crate relies on of [ed25519_dalek]: a signature is 64 bytes and
    verifies under the key pair that made it. *)
Class SignatureLaws `{Primitives} : Prop := {
  sign_length k m : length (sign k m) = SIGNATURE_LENGTH;
  sign_bytes k m : Forall is_byte (sign k m);
  verify_sign k m : verify (verifying_key k) m (sign k m) = true }.

(** ** Lowercase hex *)

Definition hex_digit (n : Z) : Ascii.ascii :=
  Ascii.ascii_of_N (Z.to_N (if n <? 10 then 48 + n else 87 + n)%Z).

(** [{byte:02x}]. *)
Definition hex_byte (b : Z) : string :=
  String (hex_digit (b / 16)%Z) (String (hex_digit (b mod 16)%Z) "").

Fixpoint encode_signature_hex (sig : list Z) : string :=
  match sig with
  | [] => ""
  | b :: sig => hex_byte b +:+ encode_signature_hex sig
  end.

(** [hex_nibble]: [blob] is the name the error message gives to the text (the
    function is duplicated in [segment.rs] with another message). *)
Definition hex_nibble (blob : string) (a : Ascii.ascii) : result EvidenceError Z :=
  let c := Z.of_N (Ascii.N_of_ascii a) in
  if ((48 <=? c) && (c <=? 57))%Z then Ok (c - 48)%Z
  else if ((97 <=? c) && (c <=? 102))%Z then Ok (c - 97 + 10)%Z
  else Err (SignatureMalformed
              ("non-lowercase-hex byte 0x" +:+ hex_byte c +:+ " in Ed25519 " +:+ blob)).

(** The loop over [chunks_exact(2)]. *)
Fixpoint decode_chunks (blob : string) (s : string) : result EvidenceError (list Z) :=
  match s with
  | String c0 (String c1 s) =>
      let? hi := hex_nibble blob c0 in
      let? lo := hex_nibble blob c1 in
      let? rest := decode_chunks blob s in
      Ok (Z.lor (Z.shiftl hi 4) lo :: rest)
  | _ => Ok []
  end.

Definition decode_hex (where_ blob : string) (hex : string) : result EvidenceError (list Z) :=
  if negb (Nat.eqb (String.length hex) (SIGNATURE_LENGTH * 2)) then
    Err (SignatureMalformed
           ("expected " +:+ pretty (SIGNATURE_LENGTH * 2) +:+ " lowercase hex chars" +:+ where_
            +:+ ", got " +:+ pretty (String.length hex) +:+ " chars"))
  else decode_chunks blob hex.

Definition decode_signature_hex : string -> result EvidenceError (list Z) :=
  decode_hex "" "signature blob".

(** ** Receipts *)
Module Receipt.
Record t : Type := {
  receipt_id : string;
  recorded_at : DateTime;
  record_type : RecordType.t;
  retention_class : RetentionClass;
  subject_canonical_id : string;
  action_id : option string;
  previous_receipt_hash : option string;
  content_hash : string;
  payload : json;
  redaction_profile : Redaction.Profile;
  signature : option string }.

Definition with_signature (s : option string) (r : t) : t :=
  {| receipt_id := receipt_id r; recorded_at := recorded_at r; record_type := record_type r;
     retention_class := retention_class r; subject_canonical_id := subject_canonical_id r;
     action_id := action_id r; previous_receipt_hash := previous_receipt_hash r;
     content_hash := content_hash r; payload := payload r;
     redaction_profile := redaction_profile r; signature := s |}.

Definition is_signed (r : t) : bool := is_some (signature r).

(** An [Option<String>] serialised as it is, and one skipped when [None]. *)
Definition nullable (o : option string) : json :=
  match o with Some s => JString s | None => JNull end.
Definition skip_none (k : string) (o : option string) : list (string * json) :=
  match o with Some s => [(k, JString s)] | None => [] end.

Record ReceiptBuilder : Type := {
  b_record_type : RecordType.t;
  b_retention_class : RetentionClass;
  b_subject : string;
  b_action_id : option string;
  b_payload : json;
  b_redaction_profile : Redaction.Profile }.

Definition new (rt : RecordType.t) (rc : RetentionClass) (subject : string) : ReceiptBuilder :=
  {| b_record_type := rt; b_retention_class := rc; b_subject := subject; b_action_id := None;
     b_payload := JNull; b_redaction_profile := Redaction.Default |}.
Definition with_action_id (a : string) (b : ReceiptBuilder) : ReceiptBuilder :=
  {| b_record_type := b_record_type b; b_retention_class := b_retention_class b;
     b_subject := b_subject b; b_action_id := Some a; b_payload := b_payload b;
     b_redaction_profile := b_redaction_profile b |}.
Definition with_payload (p : json) (b : ReceiptBuilder) : ReceiptBuilder :=
  {| b_record_type := b_record_type b; b_retention_class := b_retention_class b;
     b_subject := b_subject b; b_action_id := b_action_id b; b_payload := p;
     b_redaction_profile := b_redaction_profile b |}.
Definition with_redaction_profile (p : Redaction.Profile) (b : ReceiptBuilder) : ReceiptBuilder :=
  {| b_record_type := b_record_type b; b_retention_class := b_retention_class b;
     b_subject := b_subject b; b_action_id := b_action_id b; b_payload := b_payload b;
     b_redaction_profile := p |}.

Section Ops.
Context `{Primitives}.

(** [Serialize] for [EvidenceReceipt]: [action_id] and [previous_receipt_hash]
    are written as null when absent, [signature] is skipped. *)
Definition to_json (r : t) : json :=
  JObject
    ([("receipt_id", JString (receipt_id r));
      ("recorded_at", JString (datetime_to_json (recorded_at r)));
      ("record_type", JString (RecordType.as_wire_str (record_type r)));
      ("retention_class", JString (retention_wire_str (retention_class r)));
      ("subject_canonical_id", JString (subject_canonical_id r));
      ("action_id", nullable (action_id r));
      ("previous_receipt_hash", nullable (previous_receipt_hash r));
      ("content_hash", JString (content_hash r));
      ("payload", payload r);
      ("redaction_profile", JString (Redaction.as_wire_str (redaction_profile r)))]
     ++ skip_none "signature" (signature r)).

(** [Serialize] for [ReceiptForSigning]: the same fields without [signature];
    here the two optional fields are skipped when absent. *)
Definition signing_view (r : t) : json :=
  JObject
    ([("receipt_id", JString (receipt_id r));
      ("recorded_at", JString (datetime_to_json (recorded_at r)));
      ("record_type", JString (RecordType.as_wire_str (record_type r)));
      ("retention_class", JString (retention_wire_str (retention_class r)));
      ("subject_canonical_id", JString (subject_canonical_id r))]
     ++ skip_none "action_id" (action_id r)
     ++ skip_none "previous_receipt_hash" (previous_receipt_hash r)
     ++ [("content_hash", JString (content_hash r));
         ("payload", payload r);
         ("redaction_profile", JString (Redaction.as_wire_str (redaction_profile r)))]).

(** [blake3_hash] of the canonical form of a value. *)
Definition canonical_hash (v : json) : result EvidenceError string :=
  let? canonical := jcs_canonicalize jcs v in
  Ok (blake3_to_hex canonical).

Definition signing_digest (r : t) : result EvidenceError string :=
  canonical_hash (signing_view r).

Definition verify_signature (vk : VerifyingKey) (r : t) : result EvidenceError unit :=
  let? hex_sig := ok_or (signature r) SignatureMissing in
  let? sig_bytes := decode_signature_hex hex_sig in
  let? digest_hex := signing_digest r in
  if verify vk digest_hex sig_bytes then Ok () else Err SignatureMismatch.

Definition verify_content_hash (r : t) : result EvidenceError string :=
  let? computed := canonical_hash (payload r) in
  if String.eqb computed (content_hash r) then Ok computed
  else Err (HashMismatch (content_hash r) computed).

Definition link_hash (r : t) : result EvidenceError string :=
  let? canonical := jcs_canonicalize jcs (to_json r) in
  Ok (blake3_truncated blake3_to_hex canonical).

Definition link_previous (previous : option t) : result EvidenceError (option string) :=
  match previous with
  | None => Ok None
  | Some prev => let? h := link_hash prev in Ok (Some h)
  end.

(** [fresh_id] is the identifier [EvidenceReceiptId::new()] mints, [now] the
    reading of the clock. *)
Definition seal_inner (fresh_id : string) (now : DateTime) (b : ReceiptBuilder)
    (previous : option t) (sig : option string) : result EvidenceError t :=
  if str_is_empty (skip_whitespace (b_subject b)) then
    Err (InvalidSubject "subject_canonical_id is empty or whitespace-only")
  else
    let? redacted := Redaction.apply_redaction unicode_lowercase jcs blake3_to_hex
                       (b_redaction_profile b) (b_record_type b) (b_payload b) in
    let? content := canonical_hash redacted in
    let? link := link_previous previous in
    Ok {| receipt_id := fresh_id; recorded_at := now; record_type := b_record_type b;
          retention_class := b_retention_class b; subject_canonical_id := b_subject b;
          action_id := b_action_id b; previous_receipt_hash := link; content_hash := content;
          payload := redacted; redaction_profile := b_redaction_profile b; signature := sig |}.

Definition seal (fresh_id : string) (now : DateTime) (b : ReceiptBuilder) (previous : option t)
    : result EvidenceError t :=
  seal_inner fresh_id now b previous None.

Definition seal_signed (fresh_id : string) (now : DateTime) (b : ReceiptBuilder)
    (previous : option t) (key : SigningKey) : result EvidenceError t :=
  let? receipt := seal_inner fresh_id now b previous None in
  let? digest_hex := signing_digest receipt in
  Ok (with_signature (Some (encode_signature_hex (sign key digest_hex))) receipt).
End Ops.
End Receipt.

(** ** The receipt chain of a segment *)
Module ReceiptChain.
Section Ops.
Context `{Primitives}.

(** [ReceiptChain::append]; an error leaves the chain as it was. *)
Definition append (receipts : list Receipt.t) (r : Receipt.t)
    : result EvidenceError (list Receipt.t) :=
  match last receipts, Receipt.previous_receipt_hash r with
  | None, None => Ok (receipts ++ [r])
  | Some _, None => Err DuplicateGenesis
  | None, Some _ => Err GenesisMissing
  | Some prior, Some claimed_link =>
      let? expected := Receipt.link_hash prior in
      if String.eqb expected claimed_link then Ok (receipts ++ [r])
      else Err (ChainBroken (length receipts) claimed_link expected)
  end.

(** The loop over [windows(2)]: [prev] is the receipt at index [i]. *)
Fixpoint verify_links (i : nat) (prev : Receipt.t) (rest : list Receipt.t)
    : result EvidenceError unit :=
  match rest with
  | [] => Ok ()
  | curr :: rest =>
      match Receipt.previous_receipt_hash curr with
      | None =>
          let? expected := Receipt.link_hash prev in
          Err (ChainBroken (i + 1) "<missing previous_receipt_hash>" expected)
      | Some claimed =>
          let? expected := Receipt.link_hash prev in
          if negb (String.eqb expected claimed) then Err (ChainBroken (i + 1) claimed expected)
          else verify_links (i + 1) curr rest
      end
  end.

Definition verify_integrity (receipts : list Receipt.t) : result EvidenceError unit :=
  match receipts with
  | [] => Err EmptyChain
  | genesis :: rest =>
      if is_some (Receipt.previous_receipt_hash genesis) then Err GenesisMissing
      else verify_links 0 genesis rest
  end.

(** A loop that stops at the first error. *)
Fixpoint for_each {A} (f : A -> result EvidenceError unit) (l : list A)
    : result EvidenceError unit :=
  match l with
  | [] => Ok ()
  | x :: l => let? _ := f x in for_each f l
  end.

Definition verify_integrity_signed (vk : VerifyingKey) (receipts : list Receipt.t)
    : result EvidenceError unit :=
  let? _ := verify_integrity receipts in
  for_each (Receipt.verify_signature vk) receipts.
End Ops.
End ReceiptChain.

(** ** Hex codec *)

Lemma hex_nibble_digit blob n : (0 <= n < 16)%Z -> hex_nibble blob (hex_digit n) = Ok n.
Proof.
  intros Hn. assert (n ∈ seqZ 0 16) as Hin by (apply elem_of_seqZ; lia).
  clear Hn. revert n Hin. apply Forall_forall. vm_compute. repeat constructor.
Qed.

Lemma hex_nibble_ok blob a n :
  hex_nibble blob a = Ok n -> (0 <= n < 16)%Z /\ hex_digit n = a.
Proof.
  unfold hex_nibble, hex_digit. intros Hn.
  assert (a = Ascii.ascii_of_N (Ascii.N_of_ascii a)) as Ha
    by (by rewrite Ascii.ascii_N_embedding).
  set (c := Ascii.N_of_ascii a) in *. run.
  all: first [exfalso; lia|split; [lia|rewrite Ha; f_equal; lia]].
Qed.

Lemma nibbles_of_byte hi lo :
  (0 <= hi < 16)%Z -> (0 <= lo < 16)%Z ->
  Z.lor (Z.shiftl hi 4) lo = (16 * hi + lo)%Z.
Proof.
  intros Hhi Hlo.
  assert (forallb (fun hi => forallb (fun lo =>
            (Z.lor (Z.shiftl hi 4) lo =? 16 * hi + lo)%Z) (seqZ 0 16)) (seqZ 0 16) = true) as E
    by reflexivity.
  rewrite forallb_elem in E. specialize (E hi ltac:(apply elem_of_seqZ; lia)).
  rewrite forallb_elem in E. specialize (E lo ltac:(apply elem_of_seqZ; lia)). by bool_to_prop.
Qed.

Lemma decode_encode blob sig : Forall is_byte sig -> decode_chunks blob (encode_signature_hex sig) = Ok sig.
Proof.
  induction 1 as [|b sig Hb Hsig IH]; [done|]. unfold is_byte, u8_max in Hb.
  change (encode_signature_hex (b :: sig)) with
    (String (hex_digit (b / 16)) (String (hex_digit (b mod 16)) (encode_signature_hex sig))).
  assert (0 <= b / 16 < 16)%Z by (split; [apply Z.div_pos|apply Z.div_lt_upper_bound]; lia).
  pose proof (Z.mod_pos_bound b 16 ltac:(lia)).
  cbn [decode_chunks]. rewrite !hex_nibble_digit by lia. simpl. rewrite IH. simpl.
  do 2 f_equal. rewrite nibbles_of_byte by lia. pose proof (Z.div_mod b 16). lia.
Qed.

Lemma encode_length sig : String.length (encode_signature_hex sig) = 2 * length sig.
Proof.
  induction sig as [|b sig IH]; [done|]. cbn [encode_signature_hex].
  rewrite str_length_app, IH. simpl. lia.
Qed.

Lemma decode_chunks_ok blob n s sig :
  String.length s = 2 * n -> decode_chunks blob s = Ok sig ->
  length sig = n /\ Forall is_byte sig /\ encode_signature_hex sig = s.
Proof.
  revert s sig. induction n as [|n IH]; intros s sig Hlen Hd.
  { destruct s; [|done]. injection Hd as <-. done. }
  destruct s as [|c0 [|c1 s]]; [done|simpl in Hlen; lia|]. cbn [decode_chunks] in Hd.
  apply result_bind_ok in Hd as (hi & [Hhi <-]%hex_nibble_ok & Hd).
  apply result_bind_ok in Hd as (lo & [Hlo <-]%hex_nibble_ok & Hd).
  apply result_bind_ok in Hd as (rest & Hrest & Hd). injection Hd as <-.
  destruct (IH s rest) as (Hl & Hf & <-); [simpl in Hlen; lia|done|].
  rewrite nibbles_of_byte by lia. split_and!.
  - simpl. lia.
  - constructor; [unfold is_byte, u8_max; lia|done].
  - cbn [encode_signature_hex]. unfold hex_byte.
    replace ((16 * hi + lo) / 16)%Z with hi by (rewrite Z.mul_comm, Z.div_add_l, Z.div_small; lia).
    replace ((16 * hi + lo) mod 16)%Z with lo
      by (rewrite Z.add_comm, Z.mul_comm, Z.mod_add, Z.mod_small; lia). done.
Qed.

(** The signature codec is a bijection between 64-byte signatures and the
    texts it accepts: encoding then decoding gives the bytes back, and every
    text that decodes is the encoding of exactly the 64 bytes it decodes to
    (so no second spelling, upper case included, is accepted). *)
Theorem signature_hex_bijection where_ blob :
  (forall sig, length sig = SIGNATURE_LENGTH -> Forall is_byte sig ->
     decode_hex where_ blob (encode_signature_hex sig) = Ok sig) /\
  (forall hex sig, decode_hex where_ blob hex = Ok sig ->
     length sig = SIGNATURE_LENGTH /\ Forall is_byte sig /\ encode_signature_hex sig = hex).
Proof.
  unfold decode_hex. split.
  - intros sig Hl Hb. rewrite encode_length, Hl. simpl. by apply decode_encode.
  - intros hex sig. destruct (Nat.eqb_spec (String.length hex) (SIGNATURE_LENGTH * 2)) as [E|E];
      simpl; [|done]. intros Hd. eapply decode_chunks_ok; [|done]. lia.
Qed.

Lemma decode_signed `{SignatureLaws} where_ blob k m :
  decode_hex where_ blob (encode_signature_hex (sign k m)) = Ok (sign k m).
Proof.
  unfold decode_hex. rewrite encode_length, sign_length. simpl.
  apply decode_encode, sign_bytes.
Qed.
