(* ===== verification/ChainSound.v ===== *)
(** * Soundness of receipts and of the receipt chain

    What sealing guarantees, what the chain accepts, what its verification
    establishes, and why a verified chain cannot be rewritten below a known
    link hash. *)
From S2P Require Import Prelude Json Ids CondParser Records Redaction Receipt.

(** What the crate relies on of the canonical encoder: the canonical text of an
    object determines which of its members are strings, and their values. *)
Class CanonicalLaws `{Primitives} : Prop := {
  jcs_string_members m1 m2 s k :
    NoDup m1.*1 -> NoDup m2.*1 -> jcs (JObject m1) = Ok s -> jcs (JObject m2) = Ok s ->
    (assoc k m1 ≫= as_str) = (assoc k m2 ≫= as_str) }.

Section Links.
Context `{Primitives}.
Import Receipt.

(** [r] carries the link of [prev], or no link when there is no predecessor. *)
Definition linked_to (prev : option t) (r : t) : Prop :=
  link_previous prev = Ok (previous_receipt_hash r).

(** The receipt before index [i]. *)
Definition predecessor (c : list t) (i : nat) : option t :=
  match i with 0 => None | S j => c !! j end.

Definition well_linked (c : list t) : Prop :=
  forall i r, c !! i = Some r -> linked_to (predecessor c i) r.

(** The same, following the list. *)
Fixpoint linked_from (prev : option t) (c : list t) : Prop :=
  match c with
  | [] => True
  | r :: c => linked_to prev r /\ linked_from (Some r) c
  end.

Lemma linked_from_lookup prev c :
  linked_from prev c <->
  forall i r, c !! i = Some r ->
    linked_to (match i with 0 => prev | S j => c !! j end) r.
Proof.
  revert prev. induction c as [|x c IH]; intros prev; simpl.
  { split; [|done]. intros _ i r. by rewrite lookup_nil. }
  rewrite IH. split.
  - intros [Hx Hc] [|i] r Hi; [by injection Hi as <-|]. by destruct i; apply (Hc _ _ Hi).
  - intros Hc. split; [by apply (Hc 0)|]. intros i r Hi. apply (Hc (S i) r) in Hi.
    by destruct i.
Qed.

Lemma well_linked_from c : well_linked c <-> linked_from None c.
Proof. by rewrite linked_from_lookup. Qed.

Lemma linked_from_app prev c r :
  linked_from prev (c ++ [r]) <->
  linked_from prev c /\ linked_to (match last c with Some x => Some x | None => prev end) r.
Proof.
  revert prev. induction c as [|x c IH]; intros prev; [simpl; tauto|].
  change ((x :: c) ++ [r]) with (x :: (c ++ [r])). simpl linked_from. rewrite IH.
  rewrite last_cons. destruct (last c); tauto.
Qed.

Lemma well_linked_snoc c r : well_linked (c ++ [r]) <-> well_linked c /\ linked_to (last c) r.
Proof. rewrite !well_linked_from, linked_from_app. by destruct (last c). Qed.

Lemma linked_to_some prev r :
  linked_to (Some prev) r <-> exists h, link_hash prev = Ok h /\ previous_receipt_hash r = Some h.
Proof.
  unfold linked_to, link_previous. rewrite result_bind_ok. split.
  - intros (h & Hh & [= E]). eauto.
  - intros (h & Hh & ->). eauto.
Qed.

Lemma append_ok c r c' :
  ReceiptChain.append c r = Ok c' <-> linked_to (last c) r /\ c' = c ++ [r].
Proof.
  unfold ReceiptChain.append. destruct (last c) as [prior|] eqn:El.
  - rewrite linked_to_some. destruct (previous_receipt_hash r) as [claimed|].
    + rewrite result_bind_ok. split.
      * intros (h & Hh & Ha). destruct (String.eqb_spec h claimed) as [->|]; [|done].
        injection Ha as <-. eauto.
      * intros ((h & Hh & [= ->]) & ->). exists h. by rewrite String.eqb_refl.
    + split; [done|]. by intros ((h & _ & [=]) & _).
  - unfold linked_to. simpl. destruct (previous_receipt_hash r); split; try done.
    + by intros [[=] _].
    + by intros [= <-].
    + by intros [_ ->].
Qed.

Lemma verify_links_ok i prev rest :
  ReceiptChain.verify_links i prev rest = Ok () <-> linked_from (Some prev) rest.
Proof.
  revert i prev. induction rest as [|r rest IH]; intros i prev; [done|].
  cbn [ReceiptChain.verify_links linked_from]. rewrite linked_to_some.
  destruct (previous_receipt_hash r) as [claimed|].
  - rewrite result_bind_ok. split.
    + intros (h & Hh & Hv). destruct (String.eqb_spec h claimed) as [->|]; simpl in Hv; [|done].
      apply IH in Hv. eauto.
    + intros ((h & Hh & [= ->]) & Hr). exists h. rewrite String.eqb_refl. simpl.
      split; [done|]. by apply IH.
  - rewrite result_bind_ok. split; [by intros (? & _ & [=])|]. by intros ((? & _ & [=]) & _).
Qed.

Lemma verify_links_broken i prev rest n a e :
  ReceiptChain.verify_links i prev rest = Err (ChainBroken n a e) ->
  exists l1 r l2, rest = l1 ++ r :: l2 /\ n = i + 1 + length l1 /\
    linked_from (Some prev) l1 /\ ~ linked_to (Some (default prev (last l1))) r.
Proof.
  revert i prev. induction rest as [|r rest IH]; intros i prev Hv; [done|].
  cbn [ReceiptChain.verify_links] in Hv.
  destruct (link_hash prev) as [h|e'] eqn:Hh; [|].
  2:{ exfalso. unfold link_hash, result_bind in Hh. destruct (jcs_canonicalize jcs (to_json prev))
        as [|e''] eqn:Hj; [done|]. injection Hh as ->. unfold jcs_canonicalize, map_err in Hj.
      by destruct (jcs (to_json prev)), (previous_receipt_hash r); simplify_eq/=. }
  destruct (previous_receipt_hash r) as [claimed|] eqn:Hp; simpl in Hv.
  - destruct (String.eqb_spec h claimed) as [->|Hne]; simpl in Hv.
    + apply IH in Hv as (l1 & r' & l2 & -> & -> & Hl & Hr). exists (r :: l1), r', l2.
      split_and!; [done|simpl; lia| |].
      * split; [|done]. apply linked_to_some. eauto.
      * rewrite last_cons. by destruct (last l1).
    + injection Hv as <- <- <-. exists [], r, rest. split_and!; [done|simpl; lia|done|].
      intros (h' & Hh' & E)%linked_to_some. simpl in Hh'. congruence.
  - injection Hv as <- <- <-. exists [], r, rest. split_and!; [done|simpl; lia|done|].
    intros (h' & _ & E)%linked_to_some. congruence.
Qed.

Lemma verify_integrity_ok c :
  ReceiptChain.verify_integrity c = Ok () <-> c <> [] /\ well_linked c.
Proof.
  rewrite well_linked_from. destruct c as [|g rest]; [by split; [|intros [? _]]|]. simpl.
  unfold linked_to at 1. simpl. destruct (previous_receipt_hash g) as [h|]; simpl.
  - split; [done|]. by intros (_ & [=] & _).
  - rewrite verify_links_ok. naive_solver.
Qed.

Lemma predecessor_middle g l1 r l2 :
  predecessor (g :: l1 ++ r :: l2) (S (length l1)) = Some (default g (last l1)).
Proof.
  destruct l1 as [|y l1 _] using rev_ind; [done|].
  rewrite last_snoc, length_app, Nat.add_1_r, <-app_assoc. simpl.
  by rewrite list_lookup_middle.
Qed.

Lemma for_each_ok {A} (f : A -> result EvidenceError unit) l :
  ReceiptChain.for_each f l = Ok () <-> Forall (fun x => f x = Ok ()) l.
Proof.
  induction l as [|x l IH]; simpl; [by split|]. rewrite result_bind_ok, Forall_cons_iff.
  setoid_rewrite IH. split; [by intros ([] & ? & ?)|]. intros [? ?]. by exists ().
Qed.
End Links.

Section Sealing.
Context `{SignatureLaws}.
Import Receipt.

Lemma seal_inner_ok i now b prev sig r :
  seal_inner i now b prev sig = Ok r ->
  receipt_id r = i /\ recorded_at r = now /\ record_type r = b_record_type b /\
  retention_class r = b_retention_class b /\ subject_canonical_id r = b_subject b /\
  action_id r = b_action_id b /\ signature r = sig /\
  Redaction.apply_redaction unicode_lowercase jcs blake3_to_hex
    (b_redaction_profile b) (b_record_type b) (b_payload b) = Ok (payload r) /\
  canonical_hash (payload r) = Ok (content_hash r) /\ linked_to prev r.
Proof.
  unfold seal_inner. destruct (str_is_empty _); [done|]. intros Hs.
  apply result_bind_ok in Hs as (red & Hred & Hs).
  apply result_bind_ok in Hs as (content & Hc & Hs).
  apply result_bind_ok in Hs as (link & Hl & Hs). apply ok_inj in Hs as <-. done.
Qed.

Lemma seal_signed_ok i now b prev key r :
  seal_signed i now b prev key = Ok r ->
  exists r0, seal_inner i now b prev None = Ok r0 /\
    exists d, signing_digest r0 = Ok d /\
      r = with_signature (Some (encode_signature_hex (sign key d))) r0.
Proof.
  unfold seal_signed. intros Hs.
  apply result_bind_ok in Hs as (r0 & Hr0 & Hs).
  apply result_bind_ok in Hs as (d & Hd & Hs). apply ok_inj in Hs as <-. eauto.
Qed.

Lemma seal_signed_verifies i now b prev key r :
  seal_signed i now b prev key = Ok r -> verify_signature (verifying_key key) r = Ok ().
Proof.
  intros (r0 & Hr0 & d & Hd & ->)%seal_signed_ok.
  unfold verify_signature. cbn [signature with_signature ok_or result_bind].
  unfold decode_signature_hex. rewrite decode_signed. cbn [result_bind].
  change (signing_digest (with_signature _ r0)) with (signing_digest r0).
  rewrite Hd. simpl. by rewrite verify_sign.
Qed.

Lemma seal_signed_linked i now b prev key r :
  seal_signed i now b prev key = Ok r -> linked_to prev r.
Proof.
  intros (r0 & Hr0 & d & Hd & ->)%seal_signed_ok. by apply seal_inner_ok in Hr0 as (?&?&?&?&?&?&?&?&?&?).
Qed.
End Sealing.

Section Canonical.
Context `{CanonicalLaws}.
Import Receipt.

Definition members (v : json) : list (string * json) := default [] (as_object v).

Lemma to_json_keys r : NoDup (members (to_json r)).*1.
Proof.
  destruct (signature r) as [g|] eqn:E; unfold members, to_json; rewrite E; simpl;
    apply (bool_decide_unpack _); vm_compute; constructor.
Qed.

Lemma canonical_member r1 r2 s k :
  jcs (to_json r1) = Ok s -> jcs (to_json r2) = Ok s ->
  (json_get (to_json r1) k ≫= as_str) = (json_get (to_json r2) k ≫= as_str).
Proof.
  intros H1 H2. apply (jcs_string_members (members (to_json r1)) (members (to_json r2)) s k);
    [apply to_json_keys..|exact H1|exact H2].
Qed.

(** Two receipts with the same canonical text agree on these fields. *)
Record same_sealed (r1 r2 : t) : Prop := {
  same_canonical : jcs (to_json r1) = jcs (to_json r2);
  same_id : receipt_id r1 = receipt_id r2;
  same_time : datetime_to_json (recorded_at r1) = datetime_to_json (recorded_at r2);
  same_type : record_type r1 = record_type r2;
  same_retention : retention_class r1 = retention_class r2;
  same_subject : subject_canonical_id r1 = subject_canonical_id r2;
  same_action : action_id r1 = action_id r2;
  same_link : previous_receipt_hash r1 = previous_receipt_hash r2;
  same_content : content_hash r1 = content_hash r2;
  same_profile : redaction_profile r1 = redaction_profile r2;
  same_signature : signature r1 = signature r2 }.

Lemma canonical_same_sealed r1 r2 s :
  jcs (to_json r1) = Ok s -> jcs (to_json r2) = Ok s -> same_sealed r1 r2.
Proof.
  intros H1 H2. pose proof (fun k => canonical_member r1 r2 s k H1 H2) as Hk.
  assert (forall o, (Some (nullable o) ≫= as_str) = o) as Hn by (by intros []).
  assert (forall o, (assoc "signature" (skip_none "signature" o) ≫= as_str) = o) as Hs
    by (by intros []).
  split.
  - congruence.
  - by injection (Hk "receipt_id").
  - by injection (Hk "recorded_at").
  - specialize (Hk "record_type"). injection Hk as Hk. by apply RecordType.as_wire_str_inj.
  - specialize (Hk "retention_class"). injection Hk as Hk.
    by destruct (retention_class r1), (retention_class r2).
  - by injection (Hk "subject_canonical_id").
  - rewrite <-(Hn (action_id r1)), <-(Hn (action_id r2)). apply (Hk "action_id").
  - rewrite <-(Hn (previous_receipt_hash r1)), <-(Hn (previous_receipt_hash r2)).
    apply (Hk "previous_receipt_hash").
  - by injection (Hk "content_hash").
  - specialize (Hk "redaction_profile"). injection Hk as Hk.
    by destruct (redaction_profile r1), (redaction_profile r2).
  - rewrite <-(Hs (signature r1)), <-(Hs (signature r2)). apply (Hk "signature").
Qed.

(** No two receipts of the chains have distinct canonical texts with the same
    truncated digest. *)
Definition no_collision (c1 c2 : list t) : Prop :=
  forall r1 r2 s1 s2, r1 ∈ c1 -> r2 ∈ c2 -> jcs (to_json r1) = Ok s1 -> jcs (to_json r2) = Ok s2 ->
    blake3_truncated blake3_to_hex s1 = blake3_truncated blake3_to_hex s2 -> s1 = s2.

Lemma link_hash_ok r h :
  link_hash r = Ok h <-> exists s, jcs (to_json r) = Ok s /\ h = blake3_truncated blake3_to_hex s.
Proof.
  unfold link_hash, jcs_canonicalize. destruct (jcs (to_json r)); simpl; split.
  - intros [= <-]. eauto.
  - by intros (s & [= ->] & ->).
  - done.
  - by intros (s & [=] & _).
Qed.

Lemma same_link_same_sealed r1 r2 h c1 c2 :
  no_collision c1 c2 -> r1 ∈ c1 -> r2 ∈ c2 ->
  link_hash r1 = Ok h -> link_hash r2 = Ok h -> same_sealed r1 r2.
Proof.
  intros Hnc Hr1 Hr2 (s1 & Hs1 & ->)%link_hash_ok (s2 & Hs2 & E)%link_hash_ok.
  pose proof (Hnc r1 r2 s1 s2 Hr1 Hr2 Hs1 Hs2 E). subst. eauto using canonical_same_sealed.
Qed.

Lemma no_collision_app l1 l2 k1 k2 :
  no_collision (l1 ++ k1) (l2 ++ k2) -> no_collision l1 l2.
Proof. unfold no_collision. intros H' * ??. apply H'; apply elem_of_app; by left. Qed.

Lemma linked_chains_agree c1 c2 r1 r2 h :
  well_linked (c1 ++ [r1]) -> well_linked (c2 ++ [r2]) ->
  no_collision (c1 ++ [r1]) (c2 ++ [r2]) ->
  link_hash r1 = Ok h -> link_hash r2 = Ok h ->
  Forall2 same_sealed (c1 ++ [r1]) (c2 ++ [r2]).
Proof.
  revert c2 r1 r2 h. induction c1 as [|x1 c1 IH] using rev_ind; intros c2 r1 r2 h;
    intros [Hw1 Hl1]%well_linked_snoc [Hw2 Hl2]%well_linked_snoc Hnc Hh1 Hh2.
  all: assert (same_sealed r1 r2) as Hs by
    (eapply same_link_same_sealed; eauto; apply elem_of_app; right; by apply list_elem_of_singleton).
  all: destruct c2 as [|x2 c2 _] using rev_ind.
  - constructor; [done|constructor].
  - rewrite last_snoc in Hl2. apply linked_to_some in Hl2 as (h2 & _ & E).
    unfold linked_to in Hl1. apply ok_inj in Hl1. pose proof (same_link _ _ Hs). congruence.
  - rewrite last_snoc in Hl1. apply linked_to_some in Hl1 as (h1 & _ & E).
    unfold linked_to in Hl2. apply ok_inj in Hl2. pose proof (same_link _ _ Hs). congruence.
  - rewrite last_snoc in Hl1, Hl2.
    apply linked_to_some in Hl1 as (h1 & Hx1 & E1). apply linked_to_some in Hl2 as (h2 & Hx2 & E2).
    assert (h1 = h2) as -> by (pose proof (same_link _ _ Hs); congruence).
    apply Forall2_app; [|constructor; [done|constructor]].
    eapply IH; eauto using no_collision_app.
Qed.
End Canonical.

(** ** A concrete instance of the primitives

    Keys are numbers, a signature repeats one byte computed from the key and
    the length of the message, the digest is the text itself, and the encoder
    writes the string members of an object in a prefix code. *)
Module Demo.
Fixpoint enc_str (s : string) : string :=
  match s with
  | EmptyString => "."
  | String a s => "+" +:+ String a (enc_str s)
  end.
Definition enc_member (e : string * json) : string :=
  enc_str e.1 +:+ match e.2 with JString s => "s" +:+ enc_str s | _ => "o" end.
Fixpoint enc_members (m : list (string * json)) : string :=
  match m with [] => "" | e :: m => enc_member e +:+ enc_members m end.
Definition demo_jcs (v : json) : result string string :=
  match v with JObject m => Ok (enc_members m) | _ => Ok "v" end.
Definition demo_sign (k : Z) (m : string) : list Z :=
  replicate 64 ((k + Z.of_nat (String.length m)) mod 256)%Z.

#[export] Instance demo : Primitives := {
  jcs := demo_jcs; blake3_to_hex s := s; unicode_lowercase c := c;
  datetime_to_json t := pretty t; to_rfc3339 t := pretty t;
  SigningKey := Z; VerifyingKey := Z; verifying_key k := k; sign := demo_sign;
  verify k m sig := bool_decide (sig = demo_sign k m) }.

#[export] Instance demo_signature_laws : SignatureLaws.
Proof.
  split; intros k m.
  - done.
  - apply Forall_replicate. unfold is_byte, u8_max.
    pose proof (Z.mod_pos_bound (k + Z.of_nat (String.length m)) 256 ltac:(lia)). lia.
  - by apply bool_decide_eq_true_2.
Qed.

Lemma enc_str_app a b x y : enc_str a +:+ x = enc_str b +:+ y -> a = b /\ x = y.
Proof.
  revert b. induction a as [|c a IH]; intros [|d b]; cbn [enc_str]; rewrite ?str_app_cons;
    intros Hab; try done.
  - by injection Hab.
  - injection Hab as -> Hab. apply IH in Hab as [-> ->]. done.
Qed.

Lemma enc_members_inj m1 m2 :
  enc_members m1 = enc_members m2 ->
  (fun e => (e.1, as_str e.2)) <$> m1 = (fun e => (e.1, as_str e.2)) <$> m2.
Proof.
  revert m2. induction m1 as [|[k1 v1] m1 IH]; intros [|[k2 v2] m2]; cbn [enc_members];
    unfold enc_member; cbn [fst snd]; rewrite ?str_app_assoc; intros E; try done.
  - by destruct k2.
  - by destruct k1.
  - apply enc_str_app in E as [-> E]. rewrite !fmap_cons. cbn [fst snd].
    assert (as_str v1 = as_str v2 /\ enc_members m1 = enc_members m2) as [-> E'].
    { destruct v1, v2; rewrite ?str_app_assoc, ?str_app_cons in E; try done;
        injection E as E; try (by split); try done.
      apply enc_str_app in E as [-> E]. done. }
    f_equal. by apply IH.
Qed.

Lemma assoc_as_str k (m : list (string * json)) :
  (assoc k m ≫= as_str) = mjoin (assoc k ((fun e => (e.1, as_str e.2)) <$> m)).
Proof.
  induction m as [|[k' v] m IH]; [done|]. simpl. by destruct (String.eqb k k').
Qed.

#[export] Instance demo_canonical_laws : CanonicalLaws.
Proof.
  split. intros m1 m2 s k _ _ [= E1] [= E2]. rewrite !assoc_as_str. f_equal. f_equal.
  apply enc_members_inj. congruence.
Qed.
End Demo.

(** ** Theorems *)

(** What sealing guarantees: a receipt sealed and signed after the last
    receipt of a chain carries the builder's fields, its content hash is the
    hash of the stored (redacted) payload, its signature verifies under the
    signer's key, and the chain accepts it. *)
Theorem sealed_receipt_is_accepted `{SignatureLaws} c i now b key r :
  Receipt.seal_signed i now b (last c) key = Ok r ->
  ReceiptChain.append c r = Ok (c ++ [r]) /\
  Receipt.verify_signature (verifying_key key) r = Ok () /\
  Receipt.verify_content_hash r = Ok (Receipt.content_hash r) /\
  Receipt.receipt_id r = i /\ Receipt.recorded_at r = now /\
  Receipt.record_type r = Receipt.b_record_type b /\
  Receipt.retention_class r = Receipt.b_retention_class b /\
  Receipt.subject_canonical_id r = Receipt.b_subject b /\
  Receipt.action_id r = Receipt.b_action_id b.
Proof.
  intros Hs. pose proof (seal_signed_linked _ _ _ _ _ _ Hs) as Hl.
  pose proof (seal_signed_verifies _ _ _ _ _ _ Hs) as Hv.
  split; [by apply append_ok|]. split; [done|].
  apply seal_signed_ok in Hs as (r0 & Hr0 & d & Hd & ->).
  apply seal_inner_ok in Hr0 as (?&?&?&?&?&?&_&_&Hc&_).
  split; [|done]. unfold Receipt.verify_content_hash. simpl. rewrite Hc. simpl.
  by rewrite String.eqb_refl.
Qed.

(** Sealing never fails but for a blank subject: with an encoder that
    accepts every value, [seal_signed] answers [InvalidSubject] exactly when
    the subject is empty or white space, and a receipt otherwise. *)
Theorem seal_signed_total `{Primitives} i now b prev key :
  (forall v, is_ok (jcs v) = true) ->
  if str_is_empty (skip_whitespace (Receipt.b_subject b))
  then Receipt.seal_signed i now b prev key =
       Err (InvalidSubject "subject_canonical_id is empty or whitespace-only")
  else exists r, Receipt.seal_signed i now b prev key = Ok r.
Proof.
  intros Hj. unfold Receipt.seal_signed, Receipt.seal_inner.
  destruct (str_is_empty _); [done|].
  assert (forall v, exists s, jcs_canonicalize jcs v = Ok s) as Hc.
  { intros v. specialize (Hj v). unfold jcs_canonicalize. destruct (jcs v); [by eexists|done]. }
  assert (exists red, Redaction.apply_redaction unicode_lowercase jcs blake3_to_hex
            (Receipt.b_redaction_profile b) (Receipt.b_record_type b) (Receipt.b_payload b) = Ok red)
    as [red ->].
  { destruct (Receipt.b_redaction_profile b); try by eexists. simpl.
    unfold Redaction.apply_strict, Redaction.reduce_to_structural_marker.
    destruct (Hc (Redaction.redact_keys unicode_lowercase Redaction.SECRET_KEY_PATTERNS
                    (Receipt.b_payload b))) as [s ->].
    by destruct (Redaction.record_category _); eexists. }
  cbn [result_bind]. unfold Receipt.canonical_hash at 1.
  destruct (Hc red) as [s ->]. cbn [result_bind].
  assert (exists l, Receipt.link_previous prev = Ok l) as [l ->].
  { destruct prev as [p|]; [|by eexists]. simpl. unfold Receipt.link_hash.
    destruct (Hc (Receipt.to_json p)) as [? ->]. by eexists. }
  cbn [result_bind]. unfold Receipt.signing_digest, Receipt.canonical_hash.
  match goal with |- context [jcs_canonicalize jcs ?v] => destruct (Hc v) as [? ->] end.
  by eexists.
Qed.

(** What chain verification establishes: it succeeds exactly on non-empty
    chains in which every receipt carries the link hash of its predecessor
    and the first carries none; when it reports a broken link at index [n],
    the receipts before [n] are linked and the one at [n] is not. *)
Theorem verify_integrity_exact `{Primitives} c :
  (ReceiptChain.verify_integrity c = Ok () <-> c <> [] /\ well_linked c) /\
  (forall n a e, ReceiptChain.verify_integrity c = Err (ChainBroken n a e) ->
     exists r, c !! n = Some r /\ well_linked (take n c) /\ ~ linked_to (predecessor c n) r).
Proof.
  split; [apply verify_integrity_ok|]. intros n a e. destruct c as [|g rest]; [done|]. simpl.
  destruct (Receipt.previous_receipt_hash g) eqn:Hg; [done|]. simpl.
  intros (l1 & r & l2 & -> & -> & Hl & Hr)%verify_links_broken. exists r.
  change (0 + 1 + length l1) with (S (length l1)).
  split_and!.
  - simpl. by rewrite list_lookup_middle.
  - simpl. rewrite take_app_length. apply well_linked_from. split; [|done]. by unfold linked_to; rewrite Hg.
  - by rewrite predecessor_middle.
Qed.

(** C38: tamper evidence: two verified chains whose last receipts have the same
    link hash hold, position by position, receipts with the same canonical
    text and the same identity, time, type, retention, subject, action, links,
    content hash, profile and signature, unless two of their receipts exhibit
    a collision of the truncated digest.  No receipt can be dropped, inserted,
    reordered or edited below a link hash that is known. *)
Theorem chain_is_tamper_evident `{CanonicalLaws} c1 c2 r1 r2 h :
  ReceiptChain.verify_integrity c1 = Ok () -> ReceiptChain.verify_integrity c2 = Ok () ->
  last c1 = Some r1 -> last c2 = Some r2 ->
  Receipt.link_hash r1 = Ok h -> Receipt.link_hash r2 = Ok h ->
  no_collision c1 c2 -> Forall2 same_sealed c1 c2.
Proof.
  intros [_ H1]%verify_integrity_ok [_ H2]%verify_integrity_ok
    [l1 ->]%last_Some [l2 ->]%last_Some. eauto using linked_chains_agree.
Qed.

(** [verify_integrity] never looks at content hashes: the payload of the
    last receipt can be replaced without changing its answer, although the
    content hash then no longer matches. *)
Theorem integrity_ignores_last_payload `{Primitives} c r p :
  let r' := {| Receipt.receipt_id := Receipt.receipt_id r; Receipt.recorded_at := Receipt.recorded_at r;
               Receipt.record_type := Receipt.record_type r;
               Receipt.retention_class := Receipt.retention_class r;
               Receipt.subject_canonical_id := Receipt.subject_canonical_id r;
               Receipt.action_id := Receipt.action_id r;
               Receipt.previous_receipt_hash := Receipt.previous_receipt_hash r;
               Receipt.content_hash := Receipt.content_hash r; Receipt.payload := p;
               Receipt.redaction_profile := Receipt.redaction_profile r;
               Receipt.signature := Receipt.signature r |} in
  ReceiptChain.verify_integrity (c ++ [r']) = Ok () <->
  ReceiptChain.verify_integrity (c ++ [r]) = Ok ().
Proof.
  intros r'. rewrite !verify_integrity_ok, !well_linked_snoc.
  assert (linked_to (last c) r' <-> linked_to (last c) r) as -> by done.
  split; intros [? ?]; split; try done; by destruct c.
Qed.

(** The signed view is not the receipt's own form without its signature: on
    a receipt bound to no action the receipt writes a null [action_id] where
    the signed view has no such member. *)
Theorem signing_view_omits_absent_action `{Primitives} r :
  Receipt.action_id r = None ->
  json_get (Receipt.to_json r) "action_id" = Some JNull /\
  json_get (Receipt.signing_view r) "action_id" = None.
Proof.
  intros E. unfold Receipt.to_json, Receipt.signing_view. rewrite E. split; [done|].
  by destruct (Receipt.previous_receipt_hash r).
Qed.

(** ** Witnesses *)
Module ChainDemo.
Import Demo.

Definition key : @SigningKey demo := 7%Z.

Definition builder (subject : string) : Receipt.ReceiptBuilder :=
  Receipt.with_payload (JObject [("token", JString "t0"); ("path", JString "/etc")])
    (Receipt.new RecordType.PolicyDecision Forever subject).

Definition unwrap (d : Receipt.t) (r : result EvidenceError Receipt.t) : Receipt.t :=
  match r with Ok r => r | Err _ => d end.
Definition blank : Receipt.t :=
  {| Receipt.receipt_id := ""; Receipt.recorded_at := 0%Z;
     Receipt.record_type := RecordType.ActionReceived; Receipt.retention_class := Standard24M;
     Receipt.subject_canonical_id := ""; Receipt.action_id := None;
     Receipt.previous_receipt_hash := None; Receipt.content_hash := ""; Receipt.payload := JNull;
     Receipt.redaction_profile := Redaction.Default; Receipt.signature := None |}.

Definition r0 : Receipt.t := unwrap blank (Receipt.seal_signed "evr_0" 1 (builder "human:a") None key).
Definition r1 : Receipt.t := unwrap blank (Receipt.seal_signed "evr_1" 2 (builder "human:b") (Some r0) key).

Lemma sealed_receipt_is_accepted_witness :
  Receipt.seal_signed "evr_1" 2 (builder "human:b") (last [r0]) key = Ok r1 /\
  ReceiptChain.append [r0] r1 = Ok [r0; r1].
Proof.
  assert (Receipt.seal_signed "evr_1" 2 (builder "human:b") (last [r0]) key = Ok r1) as E
    by (vm_compute; reflexivity).
  split; [exact E|].
  exact (proj1 (sealed_receipt_is_accepted [r0] "evr_1" 2 (builder "human:b") key r1 E)).
Defined.

Lemma seal_signed_total_witness :
  exists r, Receipt.seal_signed "evr_0" 1 (builder "human:a") None key = Ok r.
Proof.
  apply (seal_signed_total "evr_0" 1 (builder "human:a") None key).
  intros []; reflexivity.
Defined.

Lemma demo_links :
  exists s0 s1 h, jcs (Receipt.to_json r0) = Ok s0 /\ jcs (Receipt.to_json r1) = Ok s1 /\
    Receipt.link_hash r1 = Ok h /\
    blake3_truncated blake3_to_hex s0 <> blake3_truncated blake3_to_hex s1.
Proof.
  eexists _, _, _. split; [vm_compute; reflexivity|]. split; [vm_compute; reflexivity|].
  split; [vm_compute; reflexivity|]. vm_compute. discriminate.
Qed.

Lemma chain_is_tamper_evident_witness : Forall2 same_sealed [r0; r1] [r0; r1].
Proof.
  destruct demo_links as (s0 & s1 & h & H0 & H1 & Hh & Hne).
  apply (chain_is_tamper_evident [r0; r1] [r0; r1] r1 r1 h);
    [vm_compute; reflexivity|vm_compute; reflexivity|reflexivity|reflexivity|exact Hh|exact Hh|].
  intros x y s t Hx Hy Hs Ht E.
  apply elem_of_cons in Hx as [->|Hx%list_elem_of_singleton];
    apply elem_of_cons in Hy as [->|Hy%list_elem_of_singleton]; subst; congruence.
Defined.
End ChainDemo.
