(* ===== verification/Segment.v ===== *)
(** * Evidence segments and the segment chain (crate [aios-evidence])

    [segment.rs]: segment identifiers, open and sealed segments, the sealing
    ceremony and the verification of a seal; [segment_chain.rs]: the chain of
    sealed segments. *)
From S2P Require Import Prelude Json Ids CondParser Records Redaction Receipt ChainSound.

Definition GENESIS_PREVIOUS_SEGMENT_SEAL_HASH : string :=
  "0000000000000000000000000000000000000000000000000000000000000000".

(** [u32::try_from(n).unwrap_or(u32::MAX)] and the same for [u64]. *)
Definition len_or_max (max : Z) (n : nat) : Z :=
  if (Z.of_nat n <=? max)%Z then Z.of_nat n else max.

(** [Duration::days]. *)
Definition days (n : Z) : Z := seconds (n * 86400).

Module SegmentId.
Definition PREFIX : string := "seg_".
Definition BODY_LEN : nat := 32.

Definition from_content `{Primitives} (seed_bytes : string) : string :=
  PREFIX +:+ blake3_truncated blake3_to_hex seed_bytes.

Definition parse (input : string) : result EvidenceError string :=
  if str_is_empty input then Err (InvalidReceiptId "segment id is empty")
  else if starts_with "seg:" input then
    Err (InvalidReceiptId ("colon-separated segment id form is forbidden: `" +:+ input +:+ "`"))
  else match strip_prefix PREFIX input with
       | None => Err (InvalidReceiptId ("expected `seg_` prefix, got `" +:+ input +:+ "`"))
       | Some body =>
           if negb (Nat.eqb (String.length body) BODY_LEN) then
             Err (InvalidReceiptId
                    ("expected " +:+ pretty BODY_LEN +:+ "-char lowercase hex body, got "
                     +:+ pretty (String.length body) +:+ " chars"))
           else if negb (str_all is_lower_hex body) then
             Err (InvalidReceiptId
                    ("segment id body must be lowercase hex [0-9a-f] only: `" +:+ body +:+ "`"))
           else Ok input
       end.
End SegmentId.

(** [Segment]: open segment. *)
Module Segment.
Record t : Type := {
  retention_class : RetentionClass;
  receipts : list Receipt.t;
  is_sealed : bool }.

Definition new (c : RetentionClass) : t :=
  {| retention_class := c; receipts := []; is_sealed := false |}.

Definition append (s : t) (r : Receipt.t) : result EvidenceError t :=
  if is_sealed s then Err SegmentAlreadySealed
  else Ok {| retention_class := retention_class s; receipts := receipts s ++ [r];
             is_sealed := is_sealed s |}.
End Segment.

Module SealedSegment.
Record t : Type := {
  segment_id : string;
  retention_class : RetentionClass;
  receipts : list Receipt.t;
  segment_seal_hash : string;
  segment_signature : string;
  previous_segment_id : option string;
  previous_segment_seal_hash : option string;
  sealed_at : DateTime }.

Definition is_compaction_eligible (s : t) (now : DateTime) : bool :=
  let age := (now - sealed_at s)%Z in
  match retention_class s with
  | Standard24M => (days 730 <=? age)%Z
  | Extended60M => (days 1825 <=? age)%Z
  | Forever => false
  end.

Definition receipts_excluding_terminal (s : t) : list Receipt.t :=
  match last (receipts s) with
  | Some l =>
      if bool_decide (Receipt.record_type l = RecordType.SegmentSealed)
      then take (length (receipts s) - 1) (receipts s)
      else receipts s
  | None => receipts s
  end.

(** [SegmentSealMetadata]. *)
Definition seal_metadata (id : string) (c : RetentionClass) (count : Z)
    (prev_seal_hash all_receipts_hash : string) : json :=
  JObject [("segment_id", JString id); ("retention_class", JString (retention_wire_str c));
           ("receipt_count", JInt count);
           ("previous_segment_seal_hash", JString prev_seal_hash);
           ("all_receipts_canonical_hash", JString all_receipts_hash)].

(** [SegmentSealedPayload] through [serde_json::to_value]: entries in the key
    order of [serde_json::Map]. *)
Definition sealed_payload (id : string) (c : RetentionClass) (count : Z)
    (prev_id prev_seal_hash : option string) : json :=
  JObject (Receipt.skip_none "previous_segment_id" prev_id
           ++ Receipt.skip_none "previous_segment_seal_hash" prev_seal_hash
           ++ [("receipt_count", JInt count);
               ("retention_class", JString (retention_wire_str c));
               ("segment_id", JString id)]).

Definition decode_signature_hex_64 : string -> result EvidenceError (list Z) :=
  decode_hex " on segment signature" "segment signature blob".

Definition segment_signer_subject : string := "_system:service:evidence-segment-signer".

Section Ops.
Context `{Primitives}.

Definition receipts_hash (rs : list Receipt.t) : result EvidenceError string :=
  Receipt.canonical_hash (JArray (List.map Receipt.to_json rs)).

Definition recompute_all_receipts_canonical_hash (s : t) : result EvidenceError string :=
  receipts_hash (receipts_excluding_terminal s).

(** [Segment::seal].  The clock is read once for [sealed_at] and once by the
    seal of the terminal receipt ([terminal_id], [terminal_at]). *)
Definition seal (sealed_at : DateTime) (terminal_id : string) (terminal_at : DateTime)
    (s : Segment.t) (prev_id prev_hash : option string) (key : SigningKey)
    : result EvidenceError t :=
  match Segment.receipts s with
  | [] => Err EmptySegment
  | genesis :: _ =>
      if negb (Bool.eqb (is_some prev_id) (is_some prev_hash)) then
        Err (SegmentChainBroken 0 (default "<missing>" prev_hash) (default "<missing>" prev_id))
      else
        let? all_hash := receipts_hash (Segment.receipts s) in
        let id := SegmentId.from_content (Receipt.receipt_id genesis +:+ to_rfc3339 sealed_at) in
        let payload := sealed_payload id (Segment.retention_class s)
                         (len_or_max u32_max (length (Segment.receipts s))) prev_id prev_hash in
        let builder := Receipt.with_payload payload
                         (Receipt.new RecordType.SegmentSealed Forever segment_signer_subject) in
        let? terminal := Receipt.seal_signed terminal_id terminal_at builder
                           (last (Segment.receipts s)) key in
        let rs := Segment.receipts s ++ [terminal] in
        let? seal_hash := Receipt.canonical_hash
          (seal_metadata id (Segment.retention_class s) (len_or_max u64_max (length rs))
             (default GENESIS_PREVIOUS_SEGMENT_SEAL_HASH prev_hash) all_hash) in
        Ok {| segment_id := id; retention_class := Segment.retention_class s; receipts := rs;
              segment_seal_hash := seal_hash;
              segment_signature := encode_signature_hex (sign key seal_hash);
              previous_segment_id := prev_id; previous_segment_seal_hash := prev_hash;
              sealed_at := sealed_at |}
  end.

Definition computed_seal_hash (s : t) : result EvidenceError string :=
  let? all_hash := recompute_all_receipts_canonical_hash s in
  Receipt.canonical_hash
    (seal_metadata (segment_id s) (retention_class s) (len_or_max u64_max (length (receipts s)))
       (default GENESIS_PREVIOUS_SEGMENT_SEAL_HASH (previous_segment_seal_hash s)) all_hash).

Definition verify_seal (vk : VerifyingKey) (s : t) : result EvidenceError unit :=
  let? computed := computed_seal_hash s in
  if negb (String.eqb computed (segment_seal_hash s)) then
    Err (SegmentSealMismatch (segment_seal_hash s) computed)
  else
    let? sig_bytes := decode_signature_hex_64 (segment_signature s) in
    if verify vk (segment_seal_hash s) sig_bytes then Ok () else Err SegmentSignatureMismatch.

Definition verify_full (vk : VerifyingKey) (s : t) : result EvidenceError unit :=
  let? _ := ReceiptChain.for_each (Receipt.verify_signature vk) (receipts s) in
  verify_seal vk s.
End Ops.
End SealedSegment.

(** ** The chain of sealed segments *)
Module SegmentChain.
Import SealedSegment.

Definition no_previous_link : string := "<none — genesis segment must carry no previous link>".

(** The two links of [curr] against its predecessor [prior], at [index]; the
    same checks are written in [append] and in the loop of [verify_chain]. *)
Definition check_links (index : nat) (prior curr : t) : result EvidenceError unit :=
  match previous_segment_seal_hash curr with
  | None => Err (SegmentChainBroken index "<missing previous_segment_seal_hash>"
                   (segment_seal_hash prior))
  | Some actual_hash =>
      if negb (String.eqb actual_hash (segment_seal_hash prior)) then
        Err (SegmentChainBroken index actual_hash (segment_seal_hash prior))
      else
        match previous_segment_id curr with
        | None => Err (SegmentChainBroken index "<missing previous_segment_id>" (segment_id prior))
        | Some actual_id =>
            if negb (String.eqb actual_id (segment_id prior)) then
              Err (SegmentChainBroken index actual_id (segment_id prior))
            else Ok ()
        end
  end.

Definition append (segments : list t) (s : t) : result EvidenceError (list t) :=
  match last segments with
  | None =>
      if is_some (previous_segment_id s) || is_some (previous_segment_seal_hash s) then
        Err (SegmentChainBroken 0 (default "<missing>" (previous_segment_seal_hash s))
               no_previous_link)
      else Ok (segments ++ [s])
  | Some prior =>
      let? _ := check_links (length segments) prior s in
      Ok (segments ++ [s])
  end.

(** The loop over [windows(2)]; [prev] is at index [i]. *)
Fixpoint verify_pairs (i : nat) (prev : t) (rest : list t) : result EvidenceError unit :=
  match rest with
  | [] => Ok ()
  | curr :: rest => let? _ := check_links (i + 1) prev curr in verify_pairs (i + 1) curr rest
  end.

Definition verify_chain (segments : list t) : result EvidenceError unit :=
  match segments with
  | [] => Ok ()
  | first :: rest =>
      if is_some (previous_segment_id first)
         || match previous_segment_seal_hash first with
            | Some h => negb (String.eqb h GENESIS_PREVIOUS_SEGMENT_SEAL_HASH)
            | None => false
            end
      then Err (SegmentChainBroken 0 (default "<missing>" (previous_segment_seal_hash first))
                  no_previous_link)
      else verify_pairs 0 first rest
  end.

Section Ops.
Context `{Primitives}.

Definition verify_chain_signed (vk : VerifyingKey) (segments : list t)
    : result EvidenceError unit :=
  let? _ := verify_chain segments in
  ReceiptChain.for_each (verify_seal vk) segments.

Definition verify_full (vk : VerifyingKey) (segments : list t) : result EvidenceError unit :=
  let? _ := verify_chain segments in
  ReceiptChain.for_each (SealedSegment.verify_full vk) segments.
End Ops.
End SegmentChain.

(** ** Lemmas *)
Section Lemmas.
Context `{SignatureLaws}.
Import SealedSegment.

Lemma seal_ok at_ tid tat s pid ph key z :
  seal at_ tid tat s pid ph key = Ok z ->
  exists genesis rest all_hash terminal,
    Segment.receipts s = genesis :: rest /\ is_some pid = is_some ph /\
    receipts_hash (Segment.receipts s) = Ok all_hash /\
    Receipt.seal_signed tid tat
      (Receipt.with_payload
         (sealed_payload (segment_id z) (Segment.retention_class s)
            (len_or_max u32_max (length (Segment.receipts s))) pid ph)
         (Receipt.new RecordType.SegmentSealed Forever segment_signer_subject))
      (last (Segment.receipts s)) key = Ok terminal /\
    receipts z = Segment.receipts s ++ [terminal] /\
    segment_id z = SegmentId.from_content (Receipt.receipt_id genesis +:+ to_rfc3339 at_) /\
    Receipt.canonical_hash
      (seal_metadata (segment_id z) (retention_class z) (len_or_max u64_max (length (receipts z)))
         (default GENESIS_PREVIOUS_SEGMENT_SEAL_HASH ph) all_hash) = Ok (segment_seal_hash z) /\
    segment_signature z = encode_signature_hex (sign key (segment_seal_hash z)) /\
    retention_class z = Segment.retention_class s /\ previous_segment_id z = pid /\
    previous_segment_seal_hash z = ph /\ sealed_at z = at_.
Proof.
  unfold seal. destruct (Segment.receipts s) as [|g rest]; [done|].
  destruct (Bool.eqb (is_some pid) (is_some ph)) eqn:E; cbn [negb]; [|done].
  apply Bool.eqb_prop in E. intros Hs.
  apply result_bind_ok in Hs as (all_hash & Hall & Hs).
  apply result_bind_ok in Hs as (terminal & Ht & Hs).
  apply result_bind_ok in Hs as (sh & Hsh & Hs). apply ok_inj in Hs as <-.
  exists g, rest, all_hash, terminal. split_and!; done.
Qed.

Lemma excluding_terminal s rs term :
  receipts s = rs ++ [term] -> Receipt.record_type term = RecordType.SegmentSealed ->
  receipts_excluding_terminal s = rs.
Proof.
  intros E Ht. unfold receipts_excluding_terminal. rewrite E, last_snoc.
  rewrite bool_decide_eq_true_2 by done. rewrite length_app, Nat.add_sub. apply take_app_length.
Qed.

Lemma seal_signed_type i now b prev key r :
  Receipt.seal_signed i now b prev key = Ok r -> Receipt.record_type r = Receipt.b_record_type b.
Proof. intros (r0 & Hr0 & d & _ & ->)%seal_signed_ok. by apply seal_inner_ok in Hr0 as (?&?&?&?). Qed.

Lemma sealed_verify_seal at_ tid tat s pid ph key z :
  seal at_ tid tat s pid ph key = Ok z -> verify_seal (verifying_key key) z = Ok ().
Proof.
  intros (g & rest & ah & term & Hrs & _ & Hah & Ht & Hz & _ & Hsh & Hsig & _ & _ & Hph & _)%seal_ok.
  pose proof (seal_signed_type _ _ _ _ _ _ Ht) as Hty.
  unfold verify_seal, computed_seal_hash, recompute_all_receipts_canonical_hash.
  rewrite (excluding_terminal z (Segment.receipts s) term Hz Hty), Hah, Hph. cbn [result_bind].
  rewrite Hsh. cbn [result_bind]. rewrite String.eqb_refl. cbn [negb]. rewrite Hsig.
  unfold decode_signature_hex_64. rewrite decode_signed. cbn [result_bind]. by rewrite verify_sign.
Qed.

Lemma sealed_verify_full at_ tid tat s pid ph key z :
  seal at_ tid tat s pid ph key = Ok z ->
  Forall (fun r => Receipt.verify_signature (verifying_key key) r = Ok ()) (Segment.receipts s) ->
  SealedSegment.verify_full (verifying_key key) z = Ok ().
Proof.
  intros Hs Hrs. unfold SealedSegment.verify_full.
  assert (ReceiptChain.for_each (Receipt.verify_signature (verifying_key key)) (receipts z) = Ok ())
    as ->; [|by eapply sealed_verify_seal].
  apply seal_ok in Hs as (g & rest & ah & term & _ & _ & _ & Ht & -> & _).
  apply for_each_ok, Forall_app. split; [done|]. constructor; [|constructor].
  by eapply seal_signed_verifies.
Qed.
End Lemmas.

Section ChainLemmas.
Import SealedSegment SegmentChain.

(** [s] names [prior] as its predecessor, or nothing when there is none. *)
Definition follows (prior : option t) (s : t) : Prop :=
  previous_segment_id s = segment_id <$> prior /\
  previous_segment_seal_hash s = segment_seal_hash <$> prior.

Lemma check_links_ok i prior s : check_links i prior s = Ok () <-> follows (Some prior) s.
Proof.
  unfold check_links, follows. simpl.
  destruct (previous_segment_seal_hash s) as [h|]; [|by split; [|intros [_ [=]]]].
  destruct (String.eqb_spec h (segment_seal_hash prior)) as [->|Hne]; simpl.
  - destruct (previous_segment_id s) as [d|]; [|by split; [|intros [[=] _]]].
    destruct (String.eqb_spec d (segment_id prior)) as [->|Hne]; simpl; [done|].
    split; [done|]. by intros [[= ->] _].
  - split; [done|]. by intros [_ [= ->]].
Qed.

Lemma segment_append_ok c s c' :
  append c s = Ok c' <-> follows (last c) s /\ c' = c ++ [s].
Proof.
  unfold append. destruct (last c) as [prior|].
  - rewrite result_bind_ok. split.
    + by intros ([] & ?%check_links_ok & [= <-]).
    + intros [?%(check_links_ok (length c)) ->]. by exists ().
  - unfold follows. simpl.
    destruct (previous_segment_id s), (previous_segment_seal_hash s); simpl; split; try done;
      try (by intros [[? ?] _]).
    + by intros [= <-].
    + by intros [_ ->].
Qed.

Fixpoint follows_from (prior : option t) (c : list t) : Prop :=
  match c with
  | [] => True
  | s :: c => follows prior s /\ follows_from (Some s) c
  end.

Lemma follows_from_snoc prior c s :
  follows_from prior (c ++ [s]) <->
  follows_from prior c /\ follows (match last c with Some x => Some x | None => prior end) s.
Proof.
  revert prior. induction c as [|x c IH]; intros prior; [simpl; tauto|].
  change ((x :: c) ++ [s]) with (x :: (c ++ [s])). simpl follows_from. rewrite IH, last_cons.
  destruct (last c); tauto.
Qed.

Lemma verify_pairs_ok i prev rest :
  verify_pairs i prev rest = Ok () <-> follows_from (Some prev) rest.
Proof.
  revert i prev. induction rest as [|s rest IH]; intros i prev; [done|]. cbn [verify_pairs follows_from].
  rewrite result_bind_ok. split.
  - by intros ([] & ?%check_links_ok & ?%IH).
  - intros [?%(check_links_ok (i + 1)) ?]. exists (). split; [done|]. by apply IH.
Qed.

Lemma follows_verify_chain c : follows_from None c -> verify_chain c = Ok ().
Proof.
  destruct c as [|s c]; [done|]. intros [[E1 E2] Hc]. simpl. rewrite E1, E2. simpl.
  by apply verify_pairs_ok.
Qed.
End ChainLemmas.

(** ** Theorems *)
Section Theorems.
Import SealedSegment.

(** Sealing a segment: it fails with [EmptySegment] on an empty segment and
    with [SegmentChainBroken] when only one of the two links to the previous
    segment is given; what it returns carries the segment's receipts followed
    by one signed terminal receipt linked to the last of them, and verifies in
    full under the signer's key whenever the receipts do. *)
Theorem sealed_segment_verifies `{SignatureLaws} at_ tid tat s pid ph key :
  (Segment.receipts s = [] -> seal at_ tid tat s pid ph key = Err EmptySegment) /\
  (Segment.receipts s <> [] -> is_some pid <> is_some ph ->
     exists a e, seal at_ tid tat s pid ph key = Err (SegmentChainBroken 0 a e)) /\
  (forall z, seal at_ tid tat s pid ph key = Ok z ->
     verify_seal (verifying_key key) z = Ok () /\
     (Forall (fun r => Receipt.verify_signature (verifying_key key) r = Ok ()) (Segment.receipts s) ->
        SealedSegment.verify_full (verifying_key key) z = Ok ()) /\
     (exists terminal, receipts z = Segment.receipts s ++ [terminal] /\
        Receipt.record_type terminal = RecordType.SegmentSealed /\
        linked_to (last (Segment.receipts s)) terminal)).
Proof.
  split; [|split].
  - intros E. unfold seal. by rewrite E.
  - intros Hne Hs. unfold seal. destruct (Segment.receipts s); [done|].
    destruct (is_some pid), (is_some ph); try done; simpl; eauto.
  - intros z Hz. split; [by eapply sealed_verify_seal|].
    split; [by eapply sealed_verify_full|].
    apply seal_ok in Hz as (g & rest & ah & term & _ & _ & _ & Ht & -> & _).
    exists term. split; [done|]. split; [by apply seal_signed_type in Ht|].
    by eapply seal_signed_linked.
Qed.

(** The chain of segments is append-only and what it accepts verifies: a
    segment is accepted exactly when its two links name the last segment (or
    are both absent on the first), every chain grown from the empty one passes
    [verify_chain], and [verify_chain] accepts nothing else but chains whose
    first segment names the all-zero hash. *)
Theorem segment_chain_exact c :
  (forall s c', SegmentChain.append c s = Ok c' <-> follows (last c) s /\ c' = c ++ [s]) /\
  (follows_from None c -> SegmentChain.verify_chain c = Ok ()) /\
  (SegmentChain.verify_chain c = Ok () -> c = [] \/ exists first rest, c = first :: rest /\
     follows_from (Some first) rest /\ previous_segment_id first = None /\
     (previous_segment_seal_hash first = None \/
      previous_segment_seal_hash first = Some GENESIS_PREVIOUS_SEGMENT_SEAL_HASH)).
Proof.
  split; [intros; apply segment_append_ok|]. split; [apply follows_verify_chain|].
  destruct c as [|s rest]; [by left|]. simpl. intros Hv. right. exists s, rest.
  destruct (previous_segment_id s); [done|]. simpl in Hv.
  destruct (previous_segment_seal_hash s) as [h|]; simpl in Hv.
  - destruct (String.eqb h GENESIS_PREVIOUS_SEGMENT_SEAL_HASH) eqn:E; [|done].
    apply String.eqb_eq in E as ->. apply verify_pairs_ok in Hv. eauto.
  - apply verify_pairs_ok in Hv. eauto.
Qed.

(** The seal does not cover [sealed_at] nor [previous_segment_id]: replacing
    them changes the answer of no verification of the segment, so a segment
    that is not kept forever can be made eligible for compaction at any
    instant without detection. *)
Theorem seal_leaves_time_open `{Primitives} vk z t pid now :
  let z' := {| segment_id := segment_id z; retention_class := retention_class z;
               receipts := receipts z; segment_seal_hash := segment_seal_hash z;
               segment_signature := segment_signature z; previous_segment_id := pid;
               previous_segment_seal_hash := previous_segment_seal_hash z; sealed_at := t |} in
  verify_seal vk z' = verify_seal vk z /\
  SealedSegment.verify_full vk z' = SealedSegment.verify_full vk z /\
  (t = (now - days 1825)%Z ->
   is_compaction_eligible z' now = bool_decide (retention_class z <> Forever)).
Proof.
  intros z'. split_and!; [done..|]. intros ->. unfold is_compaction_eligible. simpl.
  assert (days 730 <= days 1825)%Z by (by vm_compute).
  destruct (retention_class z); [apply Z.leb_le; lia..|done].
Qed.

(** Full verification of a segment does not check the links between its
    receipts: a segment of two signed receipts without predecessor seals and
    verifies in full, while its receipts are no chain. *)
Theorem full_verification_skips_receipt_links `{SignatureLaws} at_ tid tat c r1 r2 key z :
  Receipt.previous_receipt_hash r2 = None ->
  Receipt.verify_signature (verifying_key key) r1 = Ok () ->
  Receipt.verify_signature (verifying_key key) r2 = Ok () ->
  seal at_ tid tat {| Segment.retention_class := c; Segment.receipts := [r1; r2];
                      Segment.is_sealed := false |} None None key = Ok z ->
  SegmentChain.verify_full (verifying_key key) [z] = Ok () /\
  ReceiptChain.verify_integrity (receipts z) <> Ok ().
Proof.
  intros Hp H1 H2 Hz. split.
  - pose proof (sealed_verify_full _ _ _ _ _ _ _ _ Hz) as Hf.
    apply seal_ok in Hz as (g & rest & ah & term & _ & _ & _ & _ & _ & _ & _ & _ & _ & Epid & Eph & _).
    unfold SegmentChain.verify_full. simpl. rewrite Epid, Eph. simpl.
    rewrite Hf; [done|]. by repeat constructor.
  - apply seal_ok in Hz as (g & rest & ah & term & _ & _ & _ & _ & -> & _).
    intros [_ Hw]%verify_integrity_ok. specialize (Hw 1 r2 eq_refl).
    apply linked_to_some in Hw as (h & _ & E). congruence.
Qed.
End Theorems.

(** ** Witness *)
Module SegmentDemo.
Import Demo ChainDemo.

Definition open_segment : Segment.t :=
  {| Segment.retention_class := Standard24M; Segment.receipts := [r0; r1]; Segment.is_sealed := false |}.

Lemma sealed_segment_verifies_witness :
  exists z, SealedSegment.seal 10 "evr_2" 11 open_segment None None key = Ok z /\
    SealedSegment.verify_full (verifying_key key) z = Ok ().
Proof.
  assert (is_ok (SealedSegment.seal 10 "evr_2" 11 open_segment None None key) = true) as Hok
    by (vm_compute; reflexivity).
  assert (Receipt.verify_signature (verifying_key key) r0 = Ok ()) as H0 by (vm_compute; reflexivity).
  assert (Receipt.verify_signature (verifying_key key) r1 = Ok ()) as H1 by (vm_compute; reflexivity).
  destruct (SealedSegment.seal 10 "evr_2" 11 open_segment None None key) as [z|] eqn:E; [|discriminate Hok].
  exists z. split; [reflexivity|].
  destruct (sealed_segment_verifies 10 "evr_2" 11 open_segment None None key) as (_ & _ & Hz).
  apply (Hz z E). apply Forall_cons_2; [exact H0|]. apply Forall_cons_2; [exact H1|constructor].
Defined.
End SegmentDemo.
