(* ===== verification/Compaction.v ===== *)
(** * The compaction worker (crate [aios-evidence], [compaction.rs])

    The worker walks the sealed segments a backend lists and removes, or asks
    approval to remove, those past their retention horizon.  The trait
    [CompactionBackend] is a class; what the worker relies on of a backend is
    the class [CompactionBackendLaws], against which its theorems are proved
    and which the in-memory log of [EvidenceLog] discharges. *)
From S2P Require Import Prelude Json Ids Records Redaction Receipt ChainSound Segment.

Inductive CompactionPolicy : Type := Auto | OperatorApproval | Disabled.

Definition policy_wire_str (p : CompactionPolicy) : string :=
  match p with
  | Auto => "auto"
  | OperatorApproval => "operator_approval"
  | Disabled => "disabled"
  end.

Record CompactionReport : Type := {
  eligible_segments : nat;
  compacted_segments : nat;
  awaiting_approval : nat;
  receipts_removed : nat;
  index_entries_pruned : nat }.

Definition default_report : CompactionReport :=
  {| eligible_segments := 0; compacted_segments := 0; awaiting_approval := 0;
     receipts_removed := 0; index_entries_pruned := 0 |}.

Definition COMPACTION_WORKER_SUBJECT : string := "_system:service:evidence-compaction-worker".

(** A row of [list_sealed_segments]. *)
Record SegmentRow : Type := {
  row_id : string;
  row_class : RetentionClass;
  row_sealed_at : DateTime }.

(** [trait CompactionBackend]; the operations with [&mut self] return the
    backend they leave behind, also when they fail. *)
Class CompactionBackend (B : Type) : Type := {
  list_sealed_segments : B -> result EvidenceError (list SegmentRow);
  compact_segment : B -> string -> B * result EvidenceError (nat * nat);
  emit_approval_required : B -> string -> B * result EvidenceError unit }.

Definition is_eligible (c : RetentionClass) (sealed_at now : DateTime) : bool :=
  let age := (now - sealed_at)%Z in
  match c with
  | Standard24M => (days 730 <=? age)%Z
  | Extended60M => (days 1825 <=? age)%Z
  | Forever => false
  end.

Module CompactionWorker.
Record t : Type := {
  policy : CompactionPolicy;
  awaiting : gset string;
  approved : gset string }.

Definition new (p : CompactionPolicy) : t := {| policy := p; awaiting := ∅; approved := ∅ |}.

Definition approve_segment (w : t) (id : string) : t :=
  {| policy := policy w; awaiting := awaiting w ∖ {[id]}; approved := {[id]} ∪ approved w |}.

Definition awaiting_approval_count (w : t) : nat := size (awaiting w).
Definition approved_pending_count (w : t) : nat := size (approved w).

(** The bookkeeping of a segment just compacted, and of one just reported. *)
Definition forget (w : t) (id : string) : t :=
  {| policy := policy w; awaiting := awaiting w ∖ {[id]}; approved := approved w ∖ {[id]} |}.
Definition report_awaiting (w : t) (id : string) : t :=
  {| policy := policy w; awaiting := {[id]} ∪ awaiting w; approved := approved w |}.

Definition count_eligible (r : CompactionReport) : CompactionReport :=
  {| eligible_segments := eligible_segments r + 1; compacted_segments := compacted_segments r;
     awaiting_approval := awaiting_approval r; receipts_removed := receipts_removed r;
     index_entries_pruned := index_entries_pruned r |}.
Definition count_compacted (removed pruned : nat) (r : CompactionReport) : CompactionReport :=
  {| eligible_segments := eligible_segments r; compacted_segments := compacted_segments r + 1;
     awaiting_approval := awaiting_approval r; receipts_removed := receipts_removed r + removed;
     index_entries_pruned := index_entries_pruned r + pruned |}.
Definition count_awaiting (r : CompactionReport) : CompactionReport :=
  {| eligible_segments := eligible_segments r; compacted_segments := compacted_segments r;
     awaiting_approval := awaiting_approval r + 1; receipts_removed := receipts_removed r;
     index_entries_pruned := index_entries_pruned r |}.

Section Tick.
Context {B : Type} `{CompactionBackend B}.

(** The loop body's outcome: worker, backend, and the report or the error that
    ends the tick. *)
Definition compact_now (w : t) (b : B) (id : string) (rep : CompactionReport)
    : t * B * result EvidenceError CompactionReport :=
  match compact_segment b id with
  | (b, Ok (removed, pruned)) => (forget w id, b, Ok (count_compacted removed pruned rep))
  | (b, Err e) => (w, b, Err e)
  end.

Definition visit (now : DateTime) (w : t) (b : B) (rep : CompactionReport) (s : SegmentRow)
    : t * B * result EvidenceError CompactionReport :=
  if negb (is_eligible (row_class s) (row_sealed_at s) now) then (w, b, Ok rep)
  else
    let rep := count_eligible rep in
    match policy w with
    | Auto => compact_now w b (row_id s) rep
    | OperatorApproval =>
        if bool_decide (row_id s ∈ approved w) then compact_now w b (row_id s) rep
        else if bool_decide (row_id s ∈ awaiting w) then (w, b, Ok (count_awaiting rep))
        else
          match emit_approval_required b (row_id s) with
          | (b, Ok _) => (report_awaiting w (row_id s), b, Ok (count_awaiting rep))
          | (b, Err e) => (w, b, Err e)
          end
    | Disabled => (w, b, Ok rep)
    end.

Fixpoint walk (now : DateTime) (w : t) (b : B) (rep : CompactionReport) (segs : list SegmentRow)
    : t * B * result EvidenceError CompactionReport :=
  match segs with
  | [] => (w, b, Ok rep)
  | s :: segs =>
      match visit now w b rep s with
      | (w, b, Ok rep) => walk now w b rep segs
      | (w, b, Err e) => (w, b, Err e)
      end
  end.

Definition tick (w : t) (b : B) (now : DateTime) : t * B * result EvidenceError CompactionReport :=
  match list_sealed_segments b with
  | Ok segs => walk now w b default_report segs
  | Err e => (w, b, Err e)
  end.
End Tick.
End CompactionWorker.

(** What the worker relies on of a backend: [live] is the list it reports,
    with distinct identifiers; compacting a listed segment succeeds and takes
    it, and nothing else, off the list; asking for approval leaves the list
    alone. *)
Class CompactionBackendLaws (B : Type) `{CompactionBackend B} : Type := {
  valid : B -> Prop;
  live : B -> list SegmentRow;
  list_live b : valid b -> list_sealed_segments b = Ok (live b);
  live_nodup b : valid b -> NoDup (row_id <$> live b);
  compact_valid b id : valid b -> valid (compact_segment b id).1;
  compact_total b id :
    valid b -> id ∈ row_id <$> live b -> is_ok (compact_segment b id).2 = true;
  compact_live b id :
    valid b -> id ∈ row_id <$> live b ->
    live (compact_segment b id).1 = filter (fun s => row_id s <> id) (live b);
  emit_valid b id : valid b -> valid (emit_approval_required b id).1;
  emit_live b id : valid b -> live (emit_approval_required b id).1 = live b }.

(** ** Lemmas *)
Section Lemmas.
Context {B : Type} `{CompactionBackendLaws B}.
Import CompactionWorker.

(** The policy lets the worker remove a segment. *)
Definition authorised (w : CompactionWorker.t) (id : string) : bool :=
  match policy w with
  | Auto => true
  | OperatorApproval => bool_decide (id ∈ approved w)
  | Disabled => false
  end.

Definition eligible_row (now : DateTime) (s : SegmentRow) : bool :=
  is_eligible (row_class s) (row_sealed_at s) now.

Definition removable (w : CompactionWorker.t) (now : DateTime) (s : SegmentRow) : bool :=
  eligible_row now s && authorised w (row_id s).

(** The rows left when those of [ids] are taken off, and the identifiers a walk
    over [segs] takes off. *)
Definition keep_but (ids : list string) (l : list SegmentRow) : list SegmentRow :=
  filter (fun s => row_id s ∉ ids) l.
Definition removed (w : CompactionWorker.t) (now : DateTime) (segs : list SegmentRow) : list string :=
  row_id <$> filter (fun s => removable w now s = true) segs.

Lemma compact_now_spec w b id rep w' b' r :
  valid b -> id ∈ row_id <$> live b -> compact_now w b id rep = (w', b', r) ->
  valid b' /\ w' = forget w id /\ live b' = keep_but [id] (live b) /\
  exists n p, r = Ok (count_compacted n p rep).
Proof.
  intros Hv Hin. unfold compact_now. pose proof (compact_valid b id Hv).
  pose proof (compact_total b id Hv Hin). pose proof (compact_live b id Hv Hin) as Hl.
  destruct (compact_segment b id) as [b1 [[n p]|e]]; simpl in *; [|done].
  intros [= <- <- <-]. split_and!; eauto. rewrite Hl. apply list_filter_iff.
  intros s. by rewrite list_elem_of_singleton.
Qed.

Lemma forget_authorised w id id' : id' <> id -> authorised (forget w id) id' = authorised w id'.
Proof.
  intros Hid. unfold authorised, forget. simpl. destruct (policy w); [done| |done].
  apply bool_decide_ext. set_solver.
Qed.

Lemma visit_spec now w b rep s w' b' r :
  valid b -> row_id s ∈ row_id <$> live b -> visit now w b rep s = (w', b', r) ->
  valid b' /\ policy w' = policy w /\
  (forall id, id <> row_id s -> authorised w' id = authorised w id) /\
  live b' = (if removable w now s then keep_but [row_id s] (live b) else live b) /\
  match r with
  | Ok rep' =>
      eligible_segments rep' = eligible_segments rep + Nat.b2n (eligible_row now s) /\
      compacted_segments rep' = compacted_segments rep + Nat.b2n (removable w now s)
  | Err _ => removable w now s = false
  end.
Proof.
  intros Hv Hin. unfold visit, removable, eligible_row.
  destruct (is_eligible _ _ now) eqn:El; simpl.
  2:{ intros [= <- <- <-]. split_and!; (done || lia). }
  assert (compact_now w b (row_id s) (count_eligible rep) = (w', b', r) ->
    valid b' /\ policy w' = policy w /\
    (forall id, id <> row_id s -> authorised w' id = authorised w id) /\
    live b' = keep_but [row_id s] (live b) /\
    exists rep', r = Ok rep' /\ eligible_segments rep' = eligible_segments rep + 1 /\
      compacted_segments rep' = compacted_segments rep + 1) as Hc.
  { intros (Hv' & -> & Hl & n & p & ->)%compact_now_spec; [|done..].
    split_and!; [done|done|by intros; apply forget_authorised|done|]. by eexists. }
  unfold authorised at 3 4 5. destruct (policy w) eqn:Ep.
  - by intros (?&?&?&?&?&->&?&?)%Hc.
  - destruct (bool_decide (row_id s ∈ approved w)) eqn:Ea.
    + by intros (?&?&?&?&?&->&?&?)%Hc.
    + destruct (bool_decide (row_id s ∈ awaiting w)).
      * intros [= <- <- <-]. split_and!; simpl; (done || lia).
      * pose proof (emit_valid b (row_id s) Hv). pose proof (emit_live b (row_id s) Hv).
        destruct (emit_approval_required b (row_id s)) as [b1 [[]|e]]; simpl in *;
          intros [= <- <- <-]; simpl; split_and!; simpl; (done || lia).
  - intros [= <- <- <-]. split_and!; simpl; (done || lia).
Qed.

Lemma keep_but_nil (l : list SegmentRow) : keep_but [] l = l.
Proof.
  unfold keep_but. induction l as [|x l IH]; [done|].
  rewrite filter_cons_True by apply not_elem_of_nil. by rewrite IH.
Qed.

Lemma keep_but_cons id ids (l : list SegmentRow) :
  keep_but (id :: ids) l = keep_but ids (keep_but [id] l).
Proof. unfold keep_but. rewrite list_filter_filter. apply list_filter_iff. set_solver. Qed.

Lemma removed_cons w now s segs :
  removed w now (s :: segs) =
  if removable w now s then row_id s :: removed w now segs else removed w now segs.
Proof. unfold removed. rewrite filter_cons. by destruct (removable w now s). Qed.

Lemma removed_ext w1 w2 now segs :
  (forall id, id ∈ row_id <$> segs -> authorised w1 id = authorised w2 id) ->
  removed w1 now segs = removed w2 now segs.
Proof.
  induction segs as [|s segs IH]; [done|]. rewrite fmap_cons. intros Hw.
  rewrite !removed_cons, IH by set_solver.
  unfold removable. by rewrite (Hw (row_id s)) by set_solver.
Qed.

Lemma prefix_ids (seen segs : list SegmentRow) id :
  seen `prefix_of` segs -> id ∈ row_id <$> seen -> id ∈ row_id <$> segs.
Proof. intros [k ->]. rewrite fmap_app. set_solver. Qed.

Lemma walk_spec now segs w b rep w' b' r :
  valid b -> NoDup (row_id <$> segs) -> row_id <$> segs ⊆ row_id <$> live b ->
  walk now w b rep segs = (w', b', r) ->
  valid b' /\ exists seen, seen `prefix_of` segs /\
    live b' = keep_but (removed w now seen) (live b) /\
    match r with
    | Ok rep' => seen = segs /\
        eligible_segments rep' =
          eligible_segments rep + length (filter (fun s => eligible_row now s = true) segs) /\
        compacted_segments rep' = compacted_segments rep + length (removed w now segs)
    | Err _ => True
    end.
Proof.
  revert w b rep. induction segs as [|s segs IH]; intros w b rep Hv Hnd Hsub; cbn [walk].
  { intros [= <- <- <-]. split; [done|]. exists []. rewrite keep_but_nil. simpl.
    split_and!; (done || lia). }
  rewrite fmap_cons in Hnd, Hsub. apply NoDup_cons in Hnd as [Hns Hnd].
  destruct (visit now w b rep s) as [[w1 b1] r1] eqn:Hvis.
  apply visit_spec in Hvis as (Hv1 & _ & Hw1 & Hl1 & Hr1); [|done|by apply Hsub, elem_of_cons; left].
  destruct r1 as [rep1|e]; intros Hwalk.
  2:{ injection Hwalk as <- <- <-. split; [done|]. exists []. rewrite Hr1 in Hl1.
      rewrite Hl1. split_and!; [apply prefix_nil| |done]. by rewrite (keep_but_nil (live b)). }
  apply IH in Hwalk as (Hv' & seen & Hpre & Hl & Hrep); [|done|done|].
  2:{ intros id Hid.
      assert (id ∈ row_id <$> live b) as (x & -> & Hx)%list_elem_of_fmap
        by (apply Hsub, elem_of_cons; by right).
      apply list_elem_of_fmap. exists x. split; [done|]. rewrite Hl1.
      destruct (removable w now s); [|done]. apply list_elem_of_filter. split; [|done].
      rewrite list_elem_of_singleton. intros E. by rewrite E in Hid. }
  assert (forall l, l `prefix_of` segs -> removed w1 now l = removed w now l) as Hext.
  { intros l Hp. apply removed_ext. intros id Hid. apply Hw1.
    apply (prefix_ids _ _ _ Hp) in Hid. by intros ->. }
  split; [done|]. exists (s :: seen). rewrite removed_cons.
  split_and!; [by apply prefix_cons| |].
  - rewrite Hl, Hl1, (Hext seen Hpre). destruct (removable w now s); [|done].
    symmetry. apply keep_but_cons.
  - destruct r; [|done]. destruct Hrep as (-> & -> & ->), Hr1 as [-> ->].
    rewrite (Hext segs ltac:(done)), filter_cons, removed_cons.
    destruct (eligible_row now s), (removable w now s); simpl; split_and!; (done || lia).
Qed.

Lemma not_removed_iff w now (l : list SegmentRow) s :
  NoDup (row_id <$> l) -> s ∈ l -> row_id s ∉ removed w now l <-> removable w now s = false.
Proof.
  intros Hnd Hs. rewrite <-not_true_iff_false. unfold removed. split.
  - intros Hn Hr. apply Hn, list_elem_of_fmap. exists s. split; [done|].
    by apply list_elem_of_filter.
  - intros Hr (x & E & [Hx Hxl]%list_elem_of_filter)%list_elem_of_fmap. apply Hr.
    assert (x = s) as <-; [|done].
    apply list_elem_of_lookup in Hs as [i Hi], Hxl as [j Hj].
    assert (i = j) as ->.
    { eapply NoDup_lookup; [exact Hnd| |]; rewrite list_lookup_fmap.
      - by rewrite Hi. - rewrite Hj. simpl. by rewrite E. }
    congruence.
Qed.
End Lemmas.

(** What compaction and approval requests preserve, a tick preserves, on any
    backend and whatever its outcome. *)
Section Preserved.
Context {B : Type} `{CompactionBackend B} (P : B -> Prop).
Context (Hcompact : forall b id, P b -> P (compact_segment b id).1)
  (Hemit : forall b id, P b -> P (emit_approval_required b id).1).

Lemma visit_preserves now w b rep s : P b -> P (CompactionWorker.visit now w b rep s).1.2.
Proof.
  intros Hb. unfold CompactionWorker.visit, CompactionWorker.compact_now.
  pose proof (Hcompact b (row_id s) Hb). pose proof (Hemit b (row_id s) Hb).
  destruct (compact_segment b (row_id s)) as [? [[??]|]],
    (emit_approval_required b (row_id s)) as [? [|]]; simpl in *;
    repeat case_match; done.
Qed.

Lemma tick_preserves w b now : P b -> P (CompactionWorker.tick w b now).1.2.
Proof.
  intros Hb. unfold CompactionWorker.tick. destruct (list_sealed_segments b) as [segs|]; [|done].
  generalize default_report. revert w b Hb. induction segs as [|s segs IH]; intros w b Hb rep; [done|].
  cbn [CompactionWorker.walk]. pose proof (visit_preserves now w b rep s Hb).
  destruct (CompactionWorker.visit now w b rep s) as [[w1 b1] [rep1|]]; [by apply IH|done].
Qed.
End Preserved.

(** ** Theorems *)
Section Theorems.
Context {B : Type} `{CompactionBackendLaws B}.

(** Compaction safety, whatever the outcome of the tick: a segment
    disappears from a lawful backend only when it is past the horizon of its
    retention class and the policy authorised it (automatic mode, or operator
    mode with a recorded approval); a segment kept forever never disappears. *)
Theorem compaction_is_authorised w (b : B) now w' b' r s :
  valid b -> CompactionWorker.tick w b now = (w', b', r) ->
  s ∈ live b -> s ∉ live b' ->
  row_class s <> Forever /\ is_eligible (row_class s) (row_sealed_at s) now = true /\
  (CompactionWorker.policy w = Auto \/
   CompactionWorker.policy w = OperatorApproval /\ row_id s ∈ CompactionWorker.approved w).
Proof.
  intros Hv. unfold CompactionWorker.tick. rewrite (list_live b Hv).
  intros (_ & seen & Hpre & Hl & _)%walk_spec Hs Hs'; [|by auto using live_nodup..].
  assert (removable w now s = true) as Hr.
  { destruct (removable w now s) eqn:E; [done|]. destruct Hs'. rewrite Hl.
    apply list_elem_of_filter. split; [|done].
    apply (not_removed_iff _ _ (live b)) in E; [|by apply live_nodup|done].
    intros (x & Ex & [? Hx]%list_elem_of_filter)%list_elem_of_fmap. apply E.
    apply list_elem_of_fmap. exists x. split; [done|]. apply list_elem_of_filter.
    split; [done|]. destruct Hpre as [k ->]. apply elem_of_app. by left. }
  apply andb_true_iff in Hr as [He Ha]. split_and!; [|done|].
  - intros E. unfold eligible_row, is_eligible in He. by rewrite E in He.
  - unfold authorised in Ha. destruct (CompactionWorker.policy w); bool_to_prop; [by left|by right|done].
Qed.

(** A tick that completes removes exactly the eligible segments the policy
    authorises, keeps the order of the others, and reports their numbers. *)
Theorem tick_exact w (b : B) now w' b' rep :
  valid b -> CompactionWorker.tick w b now = (w', b', Ok rep) ->
  valid b' /\ live b' = filter (fun s => removable w now s = false) (live b) /\
  eligible_segments rep = length (filter (fun s => eligible_row now s = true) (live b)) /\
  compacted_segments rep = length (filter (fun s => removable w now s = true) (live b)).
Proof.
  intros Hv. unfold CompactionWorker.tick. rewrite (list_live b Hv).
  intros (Hv' & seen & _ & Hl & -> & He & Hc)%walk_spec; [|by auto using live_nodup..].
  unfold removed in Hc. rewrite length_fmap in Hc. split_and!; [done| |exact He|exact Hc].
  rewrite Hl. apply filter_iff_in. intros s Hs. apply not_removed_iff; [by apply live_nodup|done].
Qed.
End Theorems.
