(* ===== verification/EvidenceLog.v ===== *)
(** * The evidence log service (crate [aios-evidence])

    [privacy.rs]: which receipts a caller may read; [service/conversions.rs]:
    the wire form of a receipt; [service/impl_inmemory.rs]: the in-memory log
    with its RPC handlers, segment sealing and compaction backend.

    The log is a record; a handler takes and returns it.  Fresh identifiers and
    clock readings come from the sequence [ambient], of which [draws] counts
    the elements used; [sent] is what was broadcast to live subscribers. *)
From S2P Require Import Prelude Collections Json Ids CondParser Records Redaction Receipt ChainSound Segment Compaction.

(** ** Privacy ceiling *)

Definition subject_primary_group (subject : string) : option string :=
  '(_, after_kind) ← split_once ":" subject;
  '(group, _) ← split_once "/" after_kind;
  if str_is_empty group then None else Some group.

Definition receipt_subject_is_system (subject : string) : bool := starts_with "_system" subject.

Definition is_constitutionally_public_record_type (rt : RecordType.t) : bool :=
  match rt with
  | RecordType.PolicyDecision | RecordType.ApprovalRequested | RecordType.ApprovalGranted
  | RecordType.ApprovalDenied | RecordType.RecoveryEvent | RecordType.ChainCheckpoint
  | RecordType.SegmentSealed | RecordType.ChainInconsistencyDetected | RecordType.TamperDetected
  | RecordType.EmergencyOverrideGrant | RecordType.PolicyBundleLoad
  | RecordType.SystemAdminOperation | RecordType.CrossGroupAccessDenied
  | RecordType.RecoveryBootEntered | RecordType.RecoveryOperatorAuthenticated
  | RecordType.RecoveryOperationPerformed | RecordType.RecoveryTtlExpiredAutoReboot
  | RecordType.RecoveryBootExited | RecordType.RecoveryL5StartBlocked
  | RecordType.RecoveryForensicAttachPerformed | RecordType.BootFailureAutoRecoveryTriggered
  | RecordType.FirstBootStarted | RecordType.FirstBootStageCompleted | RecordType.FirstBootFailed
  | RecordType.FirstBootComplete | RecordType.ResetToFactoryInitiated | RecordType.FirstBootOperation
  | RecordType.IdentityBundleLoaded | RecordType.InvariantBundleLoaded
  | RecordType.InvariantBundleRejected | RecordType.PolicyBundleRejected
  | RecordType.IdentityBundleRejected | RecordType.CapabilityBundleRejected
  | RecordType.SandboxBundleRejected | RecordType.OverrideRequested
  | RecordType.OverrideQuorumReceived | RecordType.OverrideGranted | RecordType.OverrideConsumed
  | RecordType.OverrideDenied | RecordType.OverrideExpired | RecordType.OverrideRevoked
  | RecordType.OverrideReview | RecordType.CompactionApprovalRequired => true
  | _ => false
  end.

Module PrivacyCeiling.
Record t : Type := {
  subject_canonical_id : string;
  primary_group : option string;
  is_ai : bool;
  is_recovery_mode : bool }.

Definition from_caller (subject : string) (group : option string) (ai recovery : bool) : t :=
  {| subject_canonical_id := subject; primary_group := group; is_ai := ai;
     is_recovery_mode := recovery |}.
Definition system_caller : t := from_caller "" None false false.
Definition is_system_caller (c : t) : bool := str_is_empty (subject_canonical_id c).

Definition same_group (c : t) (receipt_subject : string) : bool :=
  match primary_group c, subject_primary_group receipt_subject with
  | Some caller_group, Some receipt_group => String.eqb receipt_group caller_group
  | _, _ => false
  end.

Definition admits_wire (c : t) (receipt_subject : string) (rt : RecordType.t) : bool :=
  if is_system_caller c then true
  else if String.eqb receipt_subject (subject_canonical_id c) then true
  else
    let is_public_record := is_constitutionally_public_record_type rt in
    if is_public_record && negb (is_ai c) then true
    else if is_ai c then is_public_record && receipt_subject_is_system receipt_subject
    else if same_group c receipt_subject then true
    else is_recovery_mode c && bool_decide (RecordType.retention_class rt = Forever).

Definition admits (c : t) (r : Receipt.t) : bool :=
  admits_wire c (Receipt.subject_canonical_id r) (Receipt.record_type r).
End PrivacyCeiling.

(** ** Wire form *)

(** The enum prost generates from the proto file: [RecordType::try_from(i32)]
    followed by [as_str_name], and [from_str_name] as an [i32].  [Ulid] and
    [chrono] are third-party. *)
Class Wire := {
  proto_str_name : Z -> option string;
  proto_from_str_name : string -> option Z;
  ulid_from_string : string -> result string unit;
  timestamp_opt : Z -> Z -> option DateTime }.

(** Every record type has its value in the generated enum. *)
Class WireLaws `{Wire} : Prop := {
  proto_roundtrip rt : exists n,
    proto_from_str_name (RecordType.as_wire_str rt) = Some n /\
    proto_str_name n = Some (RecordType.as_wire_str rt) }.

Record Timestamp : Type := { ts_seconds : Z; ts_nanos : Z }.

(** [timestamp()] and [timestamp_subsec_nanos()] of an instant in nanoseconds. *)
Definition datetime_to_timestamp (dt : DateTime) : Timestamp :=
  {| ts_seconds := (dt / 1000000000)%Z; ts_nanos := (dt mod 1000000000)%Z |}.

Record ProtoReceipt : Type := {
  p_receipt_id : string;
  p_recorded_at : option Timestamp;
  p_record_type : Z;
  p_subject : string;
  p_action_id : string;
  p_policy_decision_id : string;
  p_verification_id : string;
  p_correlation_id : string;
  p_trace_id : string;
  p_segment_id : string;
  p_sequence_number : Z;
  p_payload_hash : string;
  p_payload_ref : string;
  p_redaction_profile : string;
  p_previous_receipt_hash : string;
  p_simulated : bool }.

Section WireOps.
Context `{Wire}.

Definition timestamp_to_datetime (ts : Timestamp) : DateTime :=
  match timestamp_opt (ts_seconds ts) (Z.max (ts_nanos ts) 0) with
  | Some t => t
  | None => default 0%Z (timestamp_opt 0 0)
  end.

(** [RECORD_TYPE_UNSPECIFIED] is 0. *)
Definition record_type_to_proto (rt : RecordType.t) : Z :=
  default 0%Z (proto_from_str_name (RecordType.as_wire_str rt)).

Definition record_type_from_proto_i32 (value : Z) : result EvidenceError RecordType.t :=
  let? name := ok_or (proto_str_name value)
    (EncodingFailed ("wire RecordType value " +:+ pretty value +:+ " is outside the proto vocabulary")) in
  record_type_from_wire_str name.

Definition receipt_to_proto (r : Receipt.t) : ProtoReceipt :=
  {| p_receipt_id := Receipt.receipt_id r;
     p_recorded_at := Some (datetime_to_timestamp (Receipt.recorded_at r));
     p_record_type := record_type_to_proto (Receipt.record_type r);
     p_subject := Receipt.subject_canonical_id r;
     p_action_id := default "" (Receipt.action_id r);
     p_policy_decision_id := ""; p_verification_id := ""; p_correlation_id := "";
     p_trace_id := ""; p_segment_id := ""; p_sequence_number := 0%Z;
     p_payload_hash := Receipt.content_hash r; p_payload_ref := "";
     p_redaction_profile := Redaction.as_wire_str (Receipt.redaction_profile r);
     p_previous_receipt_hash := default "" (Receipt.previous_receipt_hash r);
     p_simulated := false |}.
End WireOps.

(** [tonic::Status]: from an [EvidenceError], or built by a handler. *)
Inductive Status : Type :=
| FromEvidence (e : EvidenceError)
| BadRequest (message : string)
| InvalidActionId (e : IdError)
| NoSuchReceipt (id : string).

Definition code_of (s : Status) : Code :=
  match s with
  | FromEvidence e => status_code e
  | BadRequest _ | InvalidActionId _ => InvalidArgument
  | NoSuchReceipt _ => NotFound
  end.

Definition DEFAULT_QUERY_LIMIT : Z := 1000.
Definition DEFAULT_RETENTION : RetentionClass := Standard24M.

(** ** The in-memory log *)
Module EvidenceLog.

Record AppendRequest : Type := {
  a_record_type : Z;
  a_subject : string;
  a_action_id : string }.

Record QueryRequest : Type := {
  q_subject : string;
  q_caller_primary_group : string;
  q_caller_is_ai : bool;
  q_caller_is_recovery_mode : bool;
  q_record_types_filter : list Z;
  q_action_id_filter : string;
  q_subject_filter : string;
  q_from_time : option Timestamp;
  q_to_time : option Timestamp;
  q_limit : Z }.

Record SubscribeRequest : Type := {
  s_caller_subject : string;
  s_caller_primary_group : string;
  s_caller_is_ai : bool;
  s_caller_is_recovery_mode : bool;
  s_record_types_filter : list Z;
  s_subject_filter : string;
  s_correlation_id_filter : string;
  s_resume_from_receipt_id : string }.

Record VerifyChainResponse : Type := {
  consistent : bool;
  receipts_checked : nat;
  first_anomalous_receipt_id : string;
  detection_method : string }.

Definition optional_group (raw : string) : option string :=
  if str_is_empty raw then None else Some raw.

Section Log.
Context `{Primitives, Wire}.

Record t : Type := {
  chain : list Receipt.t;
  previous_segment_link : option (string * string);
  signing_key : SigningKey;
  sealed : list SealedSegment.t;
  warm_receipt_count : gmap string nat;
  warm_index_count : gmap string nat;
  sent : list ProtoReceipt;
  draws : nat }.

(** [InMemoryEvidenceLog::new]. *)
Definition new (key : SigningKey) : t :=
  {| chain := []; previous_segment_link := None; signing_key := key; sealed := [];
     warm_receipt_count := ∅; warm_index_count := ∅; sent := []; draws := 0 |}.

Definition with_chain (c : list Receipt.t) (wire : list ProtoReceipt) (used : nat) (l : t) : t :=
  {| chain := c; previous_segment_link := previous_segment_link l; signing_key := signing_key l;
     sealed := sealed l; warm_receipt_count := warm_receipt_count l;
     warm_index_count := warm_index_count l; sent := sent l ++ wire; draws := draws l + used |}.

Definition with_warm (r i : gmap string nat) (l : t) : t :=
  {| chain := chain l; previous_segment_link := previous_segment_link l;
     signing_key := signing_key l; sealed := sealed l; warm_receipt_count := r;
     warm_index_count := i; sent := sent l; draws := draws l |}.

Section Ambient.
(** The fresh identifiers and clock readings, in the order they are drawn. *)
Variable ambient : nat -> string * DateTime.

(** Seal after the last receipt, append, broadcast: the common tail of [append]
    and [emit_approval_required]. *)
Definition seal_and_append (l : t) (b : Receipt.ReceiptBuilder)
    : result EvidenceError (t * Receipt.t) :=
  let '(id, now) := ambient (draws l) in
  let? receipt := Receipt.seal_signed id now b (last (chain l)) (signing_key l) in
  let? c := ReceiptChain.append (chain l) receipt in
  Ok (with_chain c [receipt_to_proto receipt] 1 l, receipt).

(** The builder [append] assembles from the request. *)
Definition append_builder (req : AppendRequest) : result Status Receipt.ReceiptBuilder :=
  let? rt := map_err FromEvidence (record_type_from_proto_i32 (a_record_type req)) in
  if str_is_empty (skip_whitespace (a_subject req)) then
    Err (BadRequest "AppendRequest.subject must be non-empty (S5.1 canonical id)")
  else
    let builder := Receipt.new rt DEFAULT_RETENTION (a_subject req) in
    if str_is_empty (a_action_id req) then Ok builder
    else
      let? action_id := map_err InvalidActionId
        (validate_prefixed_ulid ulid_from_string (a_action_id req) "act_") in
      Ok (Receipt.with_action_id action_id builder).

Definition append (l : t) (req : AppendRequest) : result Status (t * ProtoReceipt) :=
  let? builder := append_builder req in
  let? out := map_err FromEvidence (seal_and_append l builder) in
  Ok (out.1, receipt_to_proto out.2).

Definition read_receipt (l : t) (id : string) : result Status ProtoReceipt :=
  if str_is_empty id then Err (BadRequest "ReadReceiptRequest.receipt_id must be non-empty")
  else ok_or (receipt_to_proto <$> iter_find (fun r => String.eqb (Receipt.receipt_id r) id) (chain l))
         (NoSuchReceipt id).

(** [iter().map(record_type_from_proto_i32).collect::<Result<Vec<_>, _>>()]. *)
Fixpoint record_filter (vs : list Z) : result EvidenceError (list RecordType.t) :=
  match vs with
  | [] => Ok []
  | v :: vs =>
      let? rt := record_type_from_proto_i32 v in
      let? rts := record_filter vs in
      Ok (rt :: rts)
  end.

(** The caller's filters of [query], in the order of the loop body. *)
Definition query_matches (req : QueryRequest) (filter : list RecordType.t) (r : Receipt.t) : bool :=
  (str_is_empty (q_action_id_filter req)
   || match Receipt.action_id r with
      | Some a => String.eqb a (q_action_id_filter req)
      | None => false
      end)
  && (str_is_empty (q_subject_filter req)
      || String.eqb (Receipt.subject_canonical_id r) (q_subject_filter req))
  && (match filter with [] => true | _ => existsb (fun x => bool_decide (x = Receipt.record_type r)) filter end)
  && match q_from_time req with
     | Some from => negb (Receipt.recorded_at r <? timestamp_to_datetime from)%Z
     | None => true
     end
  && match q_to_time req with
     | Some to => negb (timestamp_to_datetime to <? Receipt.recorded_at r)%Z
     | None => true
     end.

Definition query_limit (req : QueryRequest) : Z :=
  if (q_limit req =? 0)%Z then DEFAULT_QUERY_LIMIT else q_limit req.

Definition query_ceiling (req : QueryRequest) : PrivacyCeiling.t :=
  PrivacyCeiling.from_caller (q_subject req) (optional_group (q_caller_primary_group req))
    (q_caller_is_ai req) (q_caller_is_recovery_mode req).

(** The loop: hits so far and the number of suppressed receipts. *)
Fixpoint query_loop (matches : Receipt.t -> bool) (ceiling : PrivacyCeiling.t) (limit : Z)
    (rs : list Receipt.t) (hits : list ProtoReceipt) (suppressed : nat)
    : list ProtoReceipt * nat :=
  match rs with
  | [] => (hits, suppressed)
  | r :: rs =>
      if negb (matches r) then query_loop matches ceiling limit rs hits suppressed
      else if negb (PrivacyCeiling.admits ceiling r) then
        query_loop matches ceiling limit rs hits (suppressed + 1)
      else
        let hits := hits ++ [receipt_to_proto r] in
        if (limit <=? len_or_max u32_max (length hits))%Z then (hits, suppressed)
        else query_loop matches ceiling limit rs hits suppressed
  end.

(** [query]: the hits and the value of [x-aios-suppressed-count]. *)
Definition query (l : t) (req : QueryRequest) : result Status (list ProtoReceipt * nat) :=
  let? filter := map_err FromEvidence (record_filter (q_record_types_filter req)) in
  Ok (query_loop (query_matches req filter) (query_ceiling req) (query_limit req) (chain l) [] 0).

Definition subscribe_filters_pass (wire : ProtoReceipt) (filter : list RecordType.t)
    (subject_filter correlation_filter : string) : bool :=
  (match filter with
   | [] => true
   | _ => match record_type_from_proto_i32 (p_record_type wire) with
          | Ok rt => existsb (fun x => bool_decide (x = rt)) filter
          | Err _ => false
          end
   end)
  && (str_is_empty subject_filter || String.eqb (p_subject wire) subject_filter)
  && (str_is_empty correlation_filter || String.eqb (p_correlation_id wire) correlation_filter).

Definition subscribe_ceiling (req : SubscribeRequest) : PrivacyCeiling.t :=
  PrivacyCeiling.from_caller (s_caller_subject req) (optional_group (s_caller_primary_group req))
    (s_caller_is_ai req) (s_caller_is_recovery_mode req).

Fixpoint replay (req : SubscribeRequest) (filter : list RecordType.t) (replaying : bool)
    (rs : list Receipt.t) : list ProtoReceipt :=
  match rs with
  | [] => []
  | r :: rs =>
      if negb replaying then
        replay req filter (String.eqb (Receipt.receipt_id r) (s_resume_from_receipt_id req)) rs
      else if negb (PrivacyCeiling.admits (subscribe_ceiling req) r) then replay req filter replaying rs
      else
        let wire := receipt_to_proto r in
        if subscribe_filters_pass wire filter (s_subject_filter req) (s_correlation_id_filter req)
        then wire :: replay req filter replaying rs
        else replay req filter replaying rs
  end.

(** The filter on live events. *)
Definition live_passes (req : SubscribeRequest) (filter : list RecordType.t) (wire : ProtoReceipt) : bool :=
  match record_type_from_proto_i32 (p_record_type wire) with
  | Err _ => false
  | Ok rt =>
      PrivacyCeiling.admits_wire (subscribe_ceiling req) (p_subject wire) rt
      && subscribe_filters_pass wire filter (s_subject_filter req) (s_correlation_id_filter req)
  end.

(** [subscribe]: the replayed receipts and the filter of the live stream. *)
Definition subscribe (l : t) (req : SubscribeRequest)
    : result Status (list ProtoReceipt * (ProtoReceipt -> bool)) :=
  let? filter := map_err FromEvidence (record_filter (s_record_types_filter req)) in
  Ok (replay req filter (str_is_empty (s_resume_from_receipt_id req)) (chain l),
      live_passes req filter).

Definition verify_chain (l : t) : result Status VerifyChainResponse :=
  match ReceiptChain.verify_integrity (chain l) with
  | Ok _ => Ok {| consistent := true; receipts_checked := length (chain l);
                  first_anomalous_receipt_id := ""; detection_method := "in_memory_walk_link_hash" |}
  | Err (ChainBroken index actual expected) =>
      Ok {| consistent := false; receipts_checked := length (chain l);
            first_anomalous_receipt_id := default "" (Receipt.receipt_id <$> chain l !! index);
            detection_method := "chain_broken_link_at_" +:+ pretty index +:+ ": actual=`" +:+ actual
                                +:+ "` expected=`" +:+ expected +:+ "`" |}
  | Err other => Err (FromEvidence other)
  end.

(** The loop of [seal_current_segment] over [Segment::append]. *)
Fixpoint append_all (s : Segment.t) (rs : list Receipt.t) : result EvidenceError Segment.t :=
  match rs with
  | [] => Ok s
  | r :: rs => let? s := Segment.append s r in append_all s rs
  end.

(** The part of [seal_current_segment] under the state lock: the segment is
    sealed, the head of the segment chain moves and the open chain is reset. *)
Definition seal_locked (l : t) (c : RetentionClass) : result EvidenceError (t * SealedSegment.t) :=
  match chain l with
  | [] => Err EmptySegment
  | _ =>
      let? segment := append_all (Segment.new c) (chain l) in
      let '(terminal_id, terminal_at) := ambient (draws l + 1) in
      let? z := SealedSegment.seal (ambient (draws l)).2 terminal_id terminal_at segment
                  (fst <$> previous_segment_link l) (snd <$> previous_segment_link l)
                  (signing_key l) in
      Ok ({| chain := [];
             previous_segment_link :=
               Some (SealedSegment.segment_id z, SealedSegment.segment_seal_hash z);
             signing_key := signing_key l; sealed := sealed l;
             warm_receipt_count := warm_receipt_count l; warm_index_count := warm_index_count l;
             sent := sent l; draws := draws l + 2 |}, z)
  end.

(** The part after [drop(guard)], under the lock of the sealed store. *)
Definition store_sealed (l : t) (z : SealedSegment.t) : t :=
  let id := SealedSegment.segment_id z in
  let warm := length (SealedSegment.receipts z) in
  {| chain := chain l; previous_segment_link := previous_segment_link l;
     signing_key := signing_key l; sealed := sealed l ++ [z];
     warm_receipt_count := <[id := warm]> (warm_receipt_count l);
     warm_index_count := <[id := warm]> (warm_index_count l);
     sent := sent l; draws := draws l |}.

Definition seal_current_segment (l : t) (c : RetentionClass)
    : result EvidenceError (t * SealedSegment.t) :=
  let? out := seal_locked l c in
  Ok (store_sealed out.1 out.2, out.2).

Definition sealed_segment_count (l : t) : nat := length (sealed l).
Definition warm_receipt_count_for (l : t) (id : string) : option nat := warm_receipt_count l !! id.
Definition receipt_count (l : t) : nat := length (chain l).

(** ** The compaction backend *)

Definition row_of (s : SealedSegment.t) : SegmentRow :=
  {| row_id := SealedSegment.segment_id s; row_class := SealedSegment.retention_class s;
     row_sealed_at := SealedSegment.sealed_at s |}.

Definition is_warm (l : t) (s : SealedSegment.t) : bool :=
  Nat.ltb 0 (default 0 (warm_receipt_count l !! SealedSegment.segment_id s)).

Definition list_sealed (l : t) : result EvidenceError (list SegmentRow) :=
  Ok (List.map row_of (List.filter (is_warm l) (sealed l))).

(** Both maps are written before the lookup result is tested. *)
Definition compact (l : t) (id : string) : t * result EvidenceError (nat * nat) :=
  let l1 := with_warm (<[id := 0]> (warm_receipt_count l)) (warm_index_count l) l in
  match warm_receipt_count l !! id with
  | None => (l1, Err (EncodingFailed ("compact_segment: unknown segment `" +:+ id +:+ "`")))
  | Some removed =>
      let l2 := with_warm (warm_receipt_count l1) (<[id := 0]> (warm_index_count l1)) l1 in
      match warm_index_count l !! id with
      | None => (l2, Err (EncodingFailed ("compact_segment: unknown segment index `" +:+ id +:+ "`")))
      | Some pruned => (l2, Ok (removed, pruned))
      end
  end.

Definition emit (l : t) (id : string) : t * result EvidenceError unit :=
  let builder :=
    Receipt.with_payload
      (JObject [("reason", JString "retention_horizon_passed"); ("segment_id", JString id)])
      (Receipt.new RecordType.CompactionApprovalRequired Forever
         (COMPACTION_WORKER_SUBJECT +:+ "/" +:+ id)) in
  match seal_and_append l builder with
  | Ok (l, _) => (l, Ok ())
  | Err e => (l, Err e)
  end.

#[export] Instance in_memory_backend : CompactionBackend t := {
  list_sealed_segments := list_sealed;
  compact_segment := compact;
  emit_approval_required := emit }.

(** A run of the log: the operations that change it, one after the other. *)
Inductive step : t -> t -> Prop :=
| step_append l req l' p : append l req = Ok (l', p) -> step l l'
| step_seal l c l' z : seal_current_segment l c = Ok (l', z) -> step l l'
| step_tick l w now w' l' r : CompactionWorker.tick w l now = (w', l', r) -> step l l'.
End Ambient.
End Log.
End EvidenceLog.
