(* ===== verification/LogSound.v ===== *)
(** * Soundness of the evidence log

    The invariant of every run of the in-memory log, its append-only history,
    the exact answer of queries, the privacy ceiling, the laws of the
    compaction backend, and what they leave open. *)
From S2P Require Import Prelude Json Ids CondParser Records Redaction Receipt ChainSound Segment Compaction EvidenceLog.
Import EvidenceLog.

Section Lemmas.
Context `{Primitives, !SignatureLaws, Wire} (ambient : nat -> string * DateTime).

Lemma seal_and_append_ok l b l' r :
  seal_and_append ambient l b = Ok (l', r) ->
  l' = with_chain (chain l ++ [r]) [receipt_to_proto r] 1 l /\
  Receipt.seal_signed (ambient (draws l)).1 (ambient (draws l)).2 b (last (chain l)) (signing_key l) = Ok r.
Proof.
  unfold seal_and_append. destruct (ambient (draws l)) as [id now]. intros Hs.
  apply result_bind_ok in Hs as (r0 & Hr0 & Hs).
  apply result_bind_ok in Hs as (c & [_ ->]%append_ok & Hs). by injection Hs as <- <-.
Qed.

Lemma log_append_ok l req l' p :
  append ambient l req = Ok (l', p) ->
  exists b r, append_builder req = Ok b /\ seal_and_append ambient l b = Ok (l', r) /\
    p = receipt_to_proto r.
Proof.
  unfold append. intros Hs. apply result_bind_ok in Hs as (b & Hb & Hs).
  apply result_bind_ok in Hs as ([l1 r] & Hr & Hs). injection Hs as <- <-.
  destruct (seal_and_append ambient l b) as [[??]|] eqn:E; [|done]. injection Hr as -> ->. eauto.
Qed.

Lemma append_all_ok s rs s' :
  Segment.is_sealed s = false -> append_all s rs = Ok s' ->
  Segment.receipts s' = Segment.receipts s ++ rs /\
  Segment.retention_class s' = Segment.retention_class s.
Proof.
  revert s. induction rs as [|r rs IH]; intros s Hs; cbn [append_all].
  { intros [= <-]. by rewrite app_nil_r. }
  unfold Segment.append. rewrite Hs. cbn [result_bind]. intros [-> ->]%IH; [|done]. simpl.
  by rewrite <-app_assoc.
Qed.

Lemma seal_locked_ok l c l' z :
  seal_locked ambient l c = Ok (l', z) ->
  exists s, Segment.receipts s = chain l /\ Segment.retention_class s = c /\
    SealedSegment.seal (ambient (draws l)).2 (ambient (draws l + 1)).1 (ambient (draws l + 1)).2 s
      (fst <$> previous_segment_link l) (snd <$> previous_segment_link l) (signing_key l) = Ok z /\
    l' = {| chain := [];
            previous_segment_link :=
              Some (SealedSegment.segment_id z, SealedSegment.segment_seal_hash z);
            signing_key := signing_key l; sealed := sealed l;
            warm_receipt_count := warm_receipt_count l; warm_index_count := warm_index_count l;
            sent := sent l; draws := draws l + 2 |}.
Proof.
  unfold seal_locked. destruct (chain l) as [|x rs] eqn:Ec; [done|]. intros Hs.
  apply result_bind_ok in Hs as (s & [Er Erc]%append_all_ok & Hs); [|done].
  destruct (ambient (draws l + 1)) as [tid tat].
  apply result_bind_ok in Hs as (z' & Hz & Hs). injection Hs as <- <-. eauto.
Qed.

Lemma seal_current_ok l c l' z :
  seal_current_segment ambient l c = Ok (l', z) ->
  exists l1, seal_locked ambient l c = Ok (l1, z) /\ l' = store_sealed l1 z.
Proof.
  unfold seal_current_segment. intros Hs. apply result_bind_ok in Hs as ([l1 z1] & Hl & Hs).
  injection Hs as <- <-. eauto.
Qed.

(** The invariant: the open chain is linked and signed; the sealed segments
    form a chain, verify in full, and hold linked receipts; the head of the
    segment chain is the last sealed segment. *)
Record log_ok (key : SigningKey) (l : t) : Prop := {
  ok_key : signing_key l = key;
  ok_links : well_linked (chain l);
  ok_signed : Forall (fun r => Receipt.verify_signature (verifying_key key) r = Ok ()) (chain l);
  ok_follows : follows_from None (sealed l);
  ok_segments : Forall (fun z => SealedSegment.verify_full (verifying_key key) z = Ok () /\
                          ReceiptChain.verify_integrity (SealedSegment.receipts z) = Ok ()) (sealed l);
  ok_head : previous_segment_link l =
            (fun z => (SealedSegment.segment_id z, SealedSegment.segment_seal_hash z)) <$> last (sealed l) }.

Lemma new_ok key : log_ok key (new key).
Proof. split; try constructor; done. Qed.

Lemma seal_and_append_preserves key l b l' r :
  log_ok key l -> seal_and_append ambient l b = Ok (l', r) -> log_ok key l'.
Proof.
  intros [Hk Hl Hs Hf Hz Hh] (-> & Hr)%seal_and_append_ok. rewrite Hk in Hr.
  split; simpl; try done.
  - apply well_linked_snoc. split; [done|]. by eapply seal_signed_linked.
  - apply Forall_app. split; [done|]. constructor; [|constructor]. by eapply seal_signed_verifies.
Qed.

Lemma seal_current_preserves key l c l' z :
  log_ok key l -> seal_current_segment ambient l c = Ok (l', z) -> log_ok key l'.
Proof.
  intros [Hk Hl Hs Hf Hz Hh] (l1 & (s & Er & Ec & Hseal & ->)%seal_locked_ok & ->)%seal_current_ok.
  rewrite Hk in Hseal. pose proof (sealed_verify_full _ _ _ _ _ _ _ _ Hseal) as Hfull.
  rewrite Er in Hfull. specialize (Hfull Hs).
  apply seal_ok in Hseal
    as (g & rest & ah & term & Eg & _ & _ & Ht & Erz & _ & _ & _ & _ & Epid & Eph & _).
  rewrite Er in Ht, Erz.
  split; cbn [store_sealed chain signing_key sealed previous_segment_link].
  - done.
  - intros i r. by rewrite lookup_nil.
  - constructor.
  - apply follows_from_snoc. split; [done|]. unfold follows. rewrite Epid, Eph, Hh.
    by destruct (last (sealed l)).
  - apply Forall_app. split; [done|]. constructor; [|constructor]. split; [done|].
    apply verify_integrity_ok. rewrite Erz. split; [by destruct (chain l)|].
    apply well_linked_snoc. split; [done|]. by eapply seal_signed_linked.
  - by rewrite last_snoc.
Qed.

Lemma emit_cases l id :
  (exists b r, seal_and_append ambient l b = Ok ((emit ambient l id).1, r)) \/ (emit ambient l id).1 = l.
Proof.
  unfold emit. match goal with |- context [seal_and_append ambient l ?b] =>
    destruct (seal_and_append ambient l b) as [[l' r]|] eqn:E end; [left|by right]. by eexists _, _.
Qed.

Lemma compact_fields l id :
  exists r i, (compact l id).1 = with_warm r i l.
Proof. unfold compact. repeat case_match; by eexists _, _. Qed.

Lemma tick_log_ok key w l now :
  log_ok key l ->
  log_ok key (CompactionWorker.tick (H := in_memory_backend ambient) w l now).1.2.
Proof.
  apply (tick_preserves (H := in_memory_backend ambient) (log_ok key)); simpl.
  - intros b id Hb. destruct (compact_fields b id) as (r & i & ->). by destruct Hb.
  - intros b id Hb. destruct (emit_cases b id) as [(bd & r & Hr)| ->]; [|done].
    by eapply seal_and_append_preserves.
Qed.

Lemma step_preserves key l l' : log_ok key l -> step ambient l l' -> log_ok key l'.
Proof.
  intros Hl Hs. revert Hl. destruct Hs as [l0 req l1 p Ha|l0 c l1 z Hz|l0 w now w' l1 r Ht]; intros Hl.
  - apply log_append_ok in Ha as (b & r & _ & Hr & _). by eapply seal_and_append_preserves.
  - by eapply seal_current_preserves.
  - pose proof (tick_log_ok key w l0 now Hl) as Hk. by rewrite Ht in Hk.
Qed.

(** Everything the log was ever given: the receipts of the sealed segments and
    those of the open chain. *)
Definition history (l : t) : list Receipt.t :=
  concat (SealedSegment.receipts <$> sealed l) ++ chain l.

Lemma seal_and_append_history l b l' r :
  seal_and_append ambient l b = Ok (l', r) -> history l' = history l ++ [r].
Proof. intros [-> _]%seal_and_append_ok. unfold history. simpl. by rewrite app_assoc. Qed.

Lemma step_history l l' : step ambient l l' -> history l `prefix_of` history l'.
Proof.
  intros [l0 req l1 p Ha|l0 c l1 z Hz|l0 w now w' l1 r Ht].
  - apply log_append_ok in Ha as (b & r & _ & Hr & _). rewrite (seal_and_append_history _ _ _ _ Hr).
    by apply prefix_app_r.
  - apply seal_current_ok in Hz as (l2 & (s & Er & _ & Hs & ->)%seal_locked_ok & ->).
    apply seal_ok in Hs as (g & rest & ah & term & _ & _ & _ & _ & Erz & _).
    unfold history. simpl. rewrite fmap_app, concat_app. simpl. rewrite Erz, Er, !app_nil_r, app_assoc.
    by apply prefix_app_r.
  - apply (f_equal (fun x => x.1.2)) in Ht. simpl in Ht. subst l1.
    apply (tick_preserves (H := in_memory_backend ambient) (fun b => history l0 `prefix_of` history b));
      simpl; [| |done].
    + intros b id Hb. by destruct (compact_fields b id) as (r' & i & ->).
    + intros b id Hb. destruct (emit_cases b id) as [(bd & r' & Hr)| ->]; [|done].
      rewrite (seal_and_append_history _ _ _ _ Hr). by apply prefix_app_r.
Qed.
End Lemmas.

(** ** Queries and subscriptions *)
Section Reads.
Context `{Primitives, Wire}.

(** The receipts that match the filters and are within, or beyond, the ceiling. *)
Definition delivered (matches : Receipt.t -> bool) (ceiling : PrivacyCeiling.t) (r : Receipt.t) : bool :=
  matches r && PrivacyCeiling.admits ceiling r.
Definition suppressed (matches : Receipt.t -> bool) (ceiling : PrivacyCeiling.t) (r : Receipt.t) : bool :=
  matches r && negb (PrivacyCeiling.admits ceiling r).

Lemma query_loop_spec matches ceiling limit rs hits n :
  (Z.of_nat (length hits) < limit <= u32_max)%Z ->
  let sel := delivered matches ceiling in
  let hid := suppressed matches ceiling in
  let out := query_loop matches ceiling limit rs hits n in
  out.1 = hits ++ (receipt_to_proto <$> take (Z.to_nat limit - length hits) (List.filter sel rs)) /\
  (out.2 <= n + length (List.filter hid rs) /\
   ((Z.of_nat (length out.1) < limit)%Z -> out.2 = n + length (List.filter hid rs))).
Proof.
  intros Hlim sel hid. revert hits n Hlim.
  induction rs as [|r rs IH]; intros hits n Hlim; cbn [query_loop List.filter].
  { simpl. rewrite take_nil, app_nil_r. split_and!; (done || lia). }
  assert (sel r = matches r && PrivacyCeiling.admits ceiling r) as -> by done.
  assert (hid r = matches r && negb (PrivacyCeiling.admits ceiling r)) as -> by done.
  destruct (matches r); simpl; [|by apply IH].
  destruct (PrivacyCeiling.admits ceiling r); simpl.
  - assert (len_or_max u32_max (length (hits ++ [receipt_to_proto r])) = Z.of_nat (S (length hits))) as El.
    { rewrite length_app. unfold len_or_max. simpl. replace (length hits + 1) with (S (length hits)) by lia.
      destruct (Z.leb_spec (Z.of_nat (S (length hits))) u32_max); lia. }
    rewrite El. replace (Z.to_nat limit - length hits) with (S (Z.to_nat limit - S (length hits))) by lia.
    destruct (Z.leb_spec limit (Z.of_nat (S (length hits)))) as [Hle|Hgt].
    + replace (Z.to_nat limit - S (length hits)) with 0 by lia. simpl. rewrite length_app. simpl.
      split_and!; [done|lia|lia].
    + destruct (IH (hits ++ [receipt_to_proto r]) n) as (E1 & E2 & E3).
      { rewrite length_app. simpl. lia. }
      split_and!; [|done|done]. rewrite E1, length_app. simpl.
      replace (length hits + 1) with (S (length hits)) by lia. by rewrite <-app_assoc.
  - destruct (IH hits (n + 1) Hlim) as (E1 & E2 & E3). split_and!; [done|lia|].
    intros Hlt. rewrite E3 by done. lia.
Qed.

Lemma from_proto_to_proto `{!WireLaws} rt :
  record_type_from_proto_i32 (record_type_to_proto rt) = Ok rt.
Proof.
  unfold record_type_from_proto_i32, record_type_to_proto.
  destruct (proto_roundtrip rt) as (n & -> & En). simpl. rewrite En. simpl.
  unfold record_type_from_wire_str. rewrite RecordType.find_wire_str.
  destruct (String.eqb_spec (RecordType.as_wire_str rt) "RECORD_TYPE_UNSPECIFIED") as [E|]; [|done].
  by destruct rt.
Qed.
End Reads.

(** ** The compaction backend *)
Section Backend.
Context `{Primitives, Wire} (ambient : nat -> string * DateTime).

(** Both counters know every sealed segment, and segment identifiers are
    distinct. *)
Record backend_ok (l : t) : Prop := {
  known : Forall (fun z => is_Some (warm_receipt_count l !! SealedSegment.segment_id z) /\
                    is_Some (warm_index_count l !! SealedSegment.segment_id z)) (sealed l);
  distinct : NoDup (SealedSegment.segment_id <$> sealed l) }.

Definition live_rows (l : t) : list SegmentRow := List.map row_of (List.filter (is_warm l) (sealed l)).

Lemma live_rows_ids l : row_id <$> live_rows l = SealedSegment.segment_id <$> List.filter (is_warm l) (sealed l).
Proof. unfold live_rows. induction (List.filter (is_warm l) (sealed l)); simpl; by f_equal. Qed.

Lemma std_filter_elem {A} (p : A -> bool) l x : x ∈ List.filter p l <-> x ∈ l /\ p x = true.
Proof. rewrite !list_elem_of_In. apply filter_In. Qed.

Lemma live_rows_nodup l : backend_ok l -> NoDup (row_id <$> live_rows l).
Proof.
  intros [_ Hd]. rewrite live_rows_ids. induction (sealed l) as [|z zs IH]; [constructor|].
  rewrite fmap_cons in Hd. apply NoDup_cons in Hd as [Hz Hd]. simpl.
  destruct (is_warm l z); [|by apply IH]. rewrite fmap_cons. apply NoDup_cons. split; [|by apply IH].
  intros (x & E & [Hx _]%std_filter_elem)%list_elem_of_fmap. apply Hz.
  apply list_elem_of_fmap. eauto.
Qed.

Lemma live_row_known l id :
  backend_ok l -> id ∈ row_id <$> live_rows l ->
  is_Some (warm_receipt_count l !! id) /\ is_Some (warm_index_count l !! id).
Proof.
  intros [Hk _]. rewrite live_rows_ids. intros (z & -> & [Hz _]%std_filter_elem)%list_elem_of_fmap.
  by apply (Forall_forall _ _) with (x := z) in Hk.
Qed.

Lemma compact_receipts l id : warm_receipt_count (compact l id).1 = <[id := 0]> (warm_receipt_count l).
Proof. unfold compact. by repeat case_match. Qed.

Lemma compact_index l id x :
  is_Some (warm_index_count l !! x) -> is_Some (warm_index_count (compact l id).1 !! x).
Proof.
  unfold compact. repeat case_match; simpl; try done; intros Hx; apply lookup_insert_is_Some'; by right.
Qed.

Lemma compact_sealed l id : sealed (compact l id).1 = sealed l.
Proof. by destruct (compact_fields l id) as (r & i & ->). Qed.

Lemma compact_keeps_ok l id : backend_ok l -> backend_ok (compact l id).1.
Proof.
  intros [Hk Hd]. split; rewrite compact_sealed; [|done].
  eapply Forall_impl; [exact Hk|]. intros z [Hr Hi]. rewrite compact_receipts.
  split; [apply lookup_insert_is_Some'; by right|by apply compact_index].
Qed.

Lemma compact_rows l id :
  live_rows (compact l id).1 = filter (fun s => row_id s <> id) (live_rows l).
Proof.
  unfold live_rows. rewrite compact_sealed. induction (sealed l) as [|z zs IH]; [done|]. simpl.
  unfold is_warm at 1. rewrite compact_receipts.
  destruct (decide (SealedSegment.segment_id z = id)) as [E|E].
  - rewrite E, lookup_insert_eq. simpl. rewrite IH.
    destruct (is_warm l z); [|done]. simpl. rewrite filter_cons_False; [done|]. simpl. auto.
  - rewrite lookup_insert_ne by done. fold (is_warm l z). destruct (is_warm l z); [|done]. simpl.
    rewrite filter_cons_True by done. by rewrite IH.
Qed.

Lemma emit_same l id :
  sealed (emit ambient l id).1 = sealed l /\
  warm_receipt_count (emit ambient l id).1 = warm_receipt_count l /\
  warm_index_count (emit ambient l id).1 = warm_index_count l.
Proof.
  destruct (emit_cases ambient l id) as [(b & r & Hr)| ->]; [|done].
  by apply seal_and_append_ok in Hr as [-> _].
Qed.

(** The in-memory log is a lawful backend. *)
#[export] Instance in_memory_laws : CompactionBackendLaws t (H := in_memory_backend ambient).
Proof.
  refine {| valid := backend_ok; live := live_rows |}; simpl.
  - done.
  - apply live_rows_nodup.
  - intros. by apply compact_keeps_ok.
  - intros b id Hb Hin. destruct (live_row_known b id Hb Hin) as [[r Hr] [i Hi]].
    unfold compact. by rewrite Hr, Hi.
  - intros. apply compact_rows.
  - intros b id [Hk Hd]. destruct (emit_same b id) as (E1 & E2 & E3). split; by rewrite E1, ?E2, ?E3.
  - intros b id _. destruct (emit_same b id) as (E1 & E2 & E3). unfold live_rows. rewrite E1.
    f_equal. apply filter_ext. intros z. unfold is_warm. by rewrite E2.
Defined.
End Backend.

(** ** Theorems *)
Section Theorems.
Context `{Primitives, Wire}.

(** Every run of the log verifies: whatever appends, seals and compaction
    ticks were performed, in any order and with any outcome, the open chain is
    empty or passes the signed integrity check, the sealed segments pass full
    verification, and the receipts inside each of them form a verified chain. *)
Theorem every_run_verifies `{!SignatureLaws} ambient key l :
  rtc (step ambient) (new key) l ->
  (chain l = [] \/ ReceiptChain.verify_integrity_signed (verifying_key key) (chain l) = Ok ()) /\
  SegmentChain.verify_full (verifying_key key) (sealed l) = Ok () /\
  Forall (fun z => ReceiptChain.verify_integrity (SealedSegment.receipts z) = Ok ()) (sealed l).
Proof.
  intros Hrun. assert (log_ok key l) as [Hk Hl Hs Hf Hz Hh].
  { pose proof (new_ok key) as Hn. revert Hn. induction Hrun; eauto using step_preserves. }
  split_and!.
  - destruct (chain l) as [|r rs] eqn:E; [by left|right].
    unfold ReceiptChain.verify_integrity_signed.
    rewrite (proj2 (verify_integrity_ok (r :: rs))) by done. by apply for_each_ok.
  - unfold SegmentChain.verify_full. rewrite (follows_verify_chain _ Hf). cbn [result_bind].
    apply for_each_ok. eapply Forall_impl; [exact Hz|]. by intros z [? _].
  - eapply Forall_impl; [exact Hz|]. by intros z [_ ?].
Qed.

(** C39: the log is append-only when its operations run one after another (in
    particular one seal at a time: a seal takes its lock twice, and
    [interleaved_seals_break_chain_order] is about two at once): no operation
    removes, reorders or rewrites a receipt it was given; the history (sealed
    receipts, then the open chain) of an earlier state is a prefix of that of
    every later one.  Compaction only clears counters. *)
Theorem log_is_append_only ambient l l' :
  rtc (step ambient) l l' -> history l `prefix_of` history l'.
Proof.
  induction 1 as [|l1 l2 l3 Hs _ IH]; [done|]. etrans; [by eapply step_history|done].
Qed.

(** The answer of a query: the first receipts, in chain order and up to the
    limit (1000 when it is zero), that match every filter and that the
    caller's privacy ceiling admits; the suppressed count never exceeds the
    number of matching receipts the ceiling hides, and equals it when the
    answer is below the limit. *)
Theorem query_exact l req rts :
  (0 <= q_limit req <= u32_max)%Z ->
  record_filter (q_record_types_filter req) = Ok rts ->
  exists hits n, query l req = Ok (hits, n) /\
    hits = receipt_to_proto <$>
      take (Z.to_nat (query_limit req))
        (List.filter (delivered (query_matches req rts) (query_ceiling req)) (chain l)) /\
    n <= length (List.filter (suppressed (query_matches req rts) (query_ceiling req)) (chain l)) /\
    ((Z.of_nat (length hits) < query_limit req)%Z ->
     n = length (List.filter (suppressed (query_matches req rts) (query_ceiling req)) (chain l))).
Proof.
  intros Hlim Hf. unfold query. rewrite Hf. cbn [map_err result_bind].
  assert (0 < query_limit req <= u32_max)%Z as Hl.
  { unfold query_limit, DEFAULT_QUERY_LIMIT. unfold u32_max in *.
    destruct (Z.eqb_spec (q_limit req) 0); lia. }
  destruct (query_loop_spec (query_matches req rts) (query_ceiling req) (query_limit req)
              (chain l) [] 0 ltac:(simpl; lia)) as (E1 & E2 & E3).
  eexists _, _. split; [apply f_equal, surjective_pairing|].
  rewrite Nat.sub_0_r in E1. split_and!; [exact E1|exact E2|exact E3].
Qed.

(** A subscriber sees the same receipts live and on replay: a receipt passes
    the filter of the live stream exactly when it is admitted by the ceiling
    and passes the subscription filters, which is what replay delivers, in
    chain order. *)
Theorem live_agrees_with_replay `{!WireLaws} l req rts :
  record_filter (s_record_types_filter req) = Ok rts ->
  s_resume_from_receipt_id req = "" ->
  subscribe l req =
    Ok (List.filter (live_passes req rts) (receipt_to_proto <$> chain l), live_passes req rts).
Proof.
  intros Hf Hr. unfold subscribe. rewrite Hf, Hr. cbn [map_err result_bind str_is_empty].
  do 2 f_equal. induction (chain l) as [|r rs IH]; [done|].
  rewrite fmap_cons. cbn [replay negb List.filter].
  unfold live_passes at 1. cbn [p_record_type receipt_to_proto p_subject].
  rewrite from_proto_to_proto. unfold PrivacyCeiling.admits.
  destruct (PrivacyCeiling.admits_wire _ _ _); cbn [negb andb]; rewrite IH; [|done].
  by destruct (subscribe_filters_pass _ _ _ _).
Qed.

(** A receipt of a record type that must be kept forever does not keep its
    segment: whatever the type, [append] stamps the default 24-month class,
    and the segment it is sealed into, if sealed with that class, is eligible
    for compaction 730 days later. *)
Theorem forever_record_ages_out ambient l req l1 p l2 z :
  append ambient l req = Ok (l1, p) ->
  seal_current_segment ambient l1 Standard24M = Ok (l2, z) ->
  exists r, last (chain l1) = Some r /\ p = receipt_to_proto r /\
    record_type_from_proto_i32 (a_record_type req) = Ok (Receipt.record_type r) /\
    Receipt.retention_class r = Standard24M /\ r ∈ SealedSegment.receipts z /\
    SealedSegment.is_compaction_eligible z (SealedSegment.sealed_at z + days 730)%Z = true.
Proof.
  intros (b & r & Hb & (-> & Hr)%seal_and_append_ok & ->)%log_append_ok
    (l3 & (s & Er & Ec & Hz & ->)%seal_locked_ok & ->)%seal_current_ok.
  exists r. apply seal_ok in Hz
    as (g & rest & ah & term & _ & _ & _ & _ & Erz & _ & _ & _ & Erc & _).
  assert (record_type_from_proto_i32 (a_record_type req) = Ok (Receipt.b_record_type b) /\
          Receipt.b_retention_class b = Standard24M) as [Ht Hc].
  { unfold append_builder in Hb. apply result_bind_ok in Hb as (rt & Hrt & Hb).
    destruct (record_type_from_proto_i32 _) as [rt'|]; [|done]. injection Hrt as ->.
    destruct (str_is_empty _); [done|]. destruct (str_is_empty _); [by injection Hb as <-|].
    apply result_bind_ok in Hb as (? & _ & Hb). by injection Hb as <-. }
  apply seal_signed_ok in Hr as (r0 & (_ & _ & E1 & E2 & _)%seal_inner_ok & d & _ & ->).
  split_and!; simpl.
  - by rewrite last_snoc.
  - done.
  - by rewrite E1.
  - by rewrite E2.
  - rewrite Erz, Er. simpl. apply elem_of_app. left. apply elem_of_app. right.
    by apply list_elem_of_singleton.
  - unfold SealedSegment.is_compaction_eligible. rewrite Erc, Ec. apply Z.leb_le. lia.
Qed.

(** Compacting an unknown segment fails but leaves a counter behind: the log
    then reports the segment as compacted, and the third attempt succeeds. *)
Theorem unknown_segment_becomes_compacted l id :
  warm_receipt_count l !! id = None -> warm_index_count l !! id = None ->
  let l1 := (compact l id).1 in let l2 := (compact l1 id).1 in
  warm_receipt_count_for l id = None /\ is_ok (compact l id).2 = false /\
  warm_receipt_count_for l1 id = Some 0 /\ is_ok (compact l1 id).2 = false /\
  (compact l2 id).2 = Ok (0, 0).
Proof.
  intros Hr Hi. unfold compact, warm_receipt_count_for. rewrite Hr. simpl.
  rewrite !lookup_insert_eq. simpl. rewrite Hi. simpl. by rewrite !lookup_insert_eq.
Qed.

(** Sealing is not atomic: the segment is linked under one lock and stored
    under another, so when two seals interleave the store can hold the two
    segments in the wrong order and the segment chain no longer verifies. *)
Theorem interleaved_seals_break_chain_order ambient l c la za req l' p lb zb :
  sealed l = [] -> previous_segment_link l = None ->
  seal_locked ambient l c = Ok (la, za) ->
  append ambient la req = Ok (l', p) ->
  seal_locked ambient l' c = Ok (lb, zb) ->
  SegmentChain.verify_chain (sealed (store_sealed (store_sealed lb za) zb)) = Ok () /\
  SegmentChain.verify_chain (sealed (store_sealed (store_sealed lb zb) za)) <> Ok ().
Proof.
  intros Hs Hp (s & _ & _ & Hza & ->)%seal_locked_ok
    (b & r & _ & (-> & _)%seal_and_append_ok & _)%log_append_ok
    (s' & _ & _ & Hzb & ->)%seal_locked_ok.
  apply seal_ok in Hza as (?&?&?&?&?&?&?&?&?&?&?&?&?& Epa & Eha &_).
  apply seal_ok in Hzb as (?&?&?&?&?&?&?&?&?&?&?&?&?& Epb & Ehb &_).
  cbn [store_sealed sealed with_chain]. rewrite Hs. cbn [app]. split.
  - apply follows_verify_chain. cbn [follows_from]. unfold follows. by rewrite Epa, Eha, Epb, Ehb, Hp.
  - unfold SegmentChain.verify_chain. by rewrite Epb.
Qed.
End Theorems.

(** The privacy ceiling, exactly: an identified AI caller reads its own
    receipts and the public records of system subjects, nothing else; any
    other identified caller reads its own receipts, public records, those of
    its group, and in recovery mode the records kept forever. *)
Theorem admits_exact c subject rt :
  PrivacyCeiling.subject_canonical_id c <> "" ->
  PrivacyCeiling.admits_wire c subject rt = true <->
  subject = PrivacyCeiling.subject_canonical_id c \/
  if PrivacyCeiling.is_ai c
  then is_constitutionally_public_record_type rt = true /\ receipt_subject_is_system subject = true
  else is_constitutionally_public_record_type rt = true \/
       (exists g, PrivacyCeiling.primary_group c = Some g /\ subject_primary_group subject = Some g) \/
       PrivacyCeiling.is_recovery_mode c = true /\ RecordType.retention_class rt = Forever.
Proof.
  intros Hs. unfold PrivacyCeiling.admits_wire, PrivacyCeiling.is_system_caller.
  destruct (PrivacyCeiling.subject_canonical_id c) as [|a s] eqn:E; [done|]. cbn [str_is_empty].
  destruct (String.eqb_spec subject (String a s)) as [->|Hne]; [naive_solver|].
  assert (PrivacyCeiling.same_group c subject = true <->
    exists g, PrivacyCeiling.primary_group c = Some g /\ subject_primary_group subject = Some g) as Hg.
  { unfold PrivacyCeiling.same_group.
    destruct (PrivacyCeiling.primary_group c), (subject_primary_group subject) as [g'|];
      try (split; [done|by intros (? & [=] & [=])]).
    rewrite String.eqb_eq. naive_solver. }
  destruct (PrivacyCeiling.is_ai c), (is_constitutionally_public_record_type rt); simpl;
    [naive_solver..|].
  rewrite <-Hg. destruct (PrivacyCeiling.same_group c subject); [naive_solver|].
  rewrite andb_true_iff, bool_decide_eq_true. naive_solver.
Qed.

(** ** Witnesses *)
Module LogDemo.
Import Demo ChainDemo.

Definition demo_name (n : Z) : option string :=
  if (n =? 0)%Z then Some "RECORD_TYPE_UNSPECIFIED"
  else RecordType.as_wire_str <$> iter_find (fun r => Z.eqb (RecordType.wire_id r) n) RecordType.iter.
Definition demo_number (s : string) : option Z :=
  RecordType.wire_id <$> iter_find (fun r => String.eqb (RecordType.as_wire_str r) s) RecordType.iter.

#[export] Instance demo_wire : Wire := {
  proto_str_name := demo_name; proto_from_str_name := demo_number;
  ulid_from_string _ := Ok (); timestamp_opt s n := Some (seconds s + n)%Z }.

#[export] Instance demo_wire_laws : WireLaws.
Proof.
  split. intros rt. exists (RecordType.wire_id rt). unfold proto_from_str_name, proto_str_name, demo_wire.
  unfold demo_number, demo_name. rewrite RecordType.find_wire_str, RecordType.find_wire_id.
  split; [done|]. by destruct rt.
Qed.

Definition demo_ambient (n : nat) : string * DateTime := ("evr_" +:+ pretty n, seconds (Z.of_nat n)).

Definition decision_by (subject : string) : AppendRequest :=
  {| a_record_type := 4; a_subject := subject; a_action_id := "" |}.

Definition after_append (l : t) (req : AppendRequest) : t :=
  match append demo_ambient l req with Ok (l', _) => l' | Err _ => l end.
Definition after_seal (l : t) : t :=
  match seal_current_segment demo_ambient l Standard24M with Ok (l', _) => l' | Err _ => l end.

Definition l1 : t := after_append (new key) (decision_by "human:ops/a").
Definition l2 : t := after_append l1 (decision_by "ai:lab/b").
Definition l3 : t := after_seal l2.
Definition later : DateTime := days 800.
Definition after_tick (l : t) : t :=
  (CompactionWorker.tick (H := in_memory_backend demo_ambient) (CompactionWorker.new Auto) l later).1.2.
Definition l4 : t := after_tick l3.

Lemma is_ok_inv {E A} (r : result E A) : is_ok r = true -> exists a, r = Ok a.
Proof. destruct r; [by eexists|done]. Qed.

Lemma append_runs l req l' p : append demo_ambient l req = Ok (l', p) -> step demo_ambient l (after_append l req).
Proof. intros E. apply (step_append _ _ req _ p). unfold after_append. by rewrite E. Qed.

Lemma ok_step_append l req :
  is_ok (append demo_ambient l req) = true -> step demo_ambient l (after_append l req).
Proof. destruct (append demo_ambient l req) as [[l' p]|] eqn:E; [|done]. intros _. by eapply append_runs. Qed.

Lemma ok_step_seal l :
  is_ok (seal_current_segment demo_ambient l Standard24M) = true -> step demo_ambient l (after_seal l).
Proof.
  destruct (seal_current_segment demo_ambient l Standard24M) as [[l' z]|] eqn:E; [|done]. intros _.
  apply (step_seal _ _ Standard24M _ z). unfold after_seal. by rewrite E.
Qed.

Lemma ok_step_tick l : step demo_ambient l (after_tick l).
Proof.
  unfold after_tick. destruct (CompactionWorker.tick _ _ _) as [[w' l'] r] eqn:E.
  by eapply step_tick.
Qed.

Lemma log_demo_run : rtc (step demo_ambient) (new key) l4.
Proof.
  apply rtc_l with (y := l1); [apply ok_step_append; by vm_compute|].
  apply rtc_l with (y := l2); [apply ok_step_append; by vm_compute|].
  apply rtc_l with (y := l3); [apply ok_step_seal; by vm_compute|].
  apply rtc_once. exact (ok_step_tick l3).
Qed.

Lemma every_run_verifies_witness :
  length (sealed l4) = 1 /\ SegmentChain.verify_full (verifying_key key) (sealed l4) = Ok ().
Proof.
  split; [vm_compute; reflexivity|].
  exact (proj1 (proj2 (every_run_verifies demo_ambient key l4 log_demo_run))).
Defined.

(** Two receipts are appended, sealed (which leaves a receipt) and compacted, and
    a fourth follows. *)
Definition l5 : t := after_append l4 (decision_by "human:c").
Lemma log_is_append_only_witness :
  length (history l2) = 2 /\ length (history l5) = 4 /\ history l2 `prefix_of` history l5.
Proof.
  split; [vm_compute; reflexivity|]. split; [vm_compute; reflexivity|].
  apply (log_is_append_only demo_ambient).
  apply rtc_l with (y := l3); [apply ok_step_seal; vm_compute; reflexivity|].
  apply rtc_l with (y := l4); [exact (ok_step_tick l3)|].
  apply rtc_once. apply ok_step_append. vm_compute. reflexivity.
Defined.

Definition demo_query : QueryRequest :=
  {| q_subject := "ai:lab/b"; q_caller_primary_group := "ops"; q_caller_is_ai := true;
     q_caller_is_recovery_mode := false; q_record_types_filter := [4%Z]; q_action_id_filter := "";
     q_subject_filter := ""; q_from_time := None; q_to_time := None; q_limit := 0 |}.

(** The AI caller reads its own decision only; the other one is suppressed. *)
Lemma query_exact_witness : exists hits, query l2 demo_query = Ok (hits, 1) /\ length hits = 1.
Proof.
  destruct (query_exact l2 demo_query [RecordType.PolicyDecision]) as (hits & n & Hq & Hh & Hn & He);
    [vm_compute; by split|vm_compute; reflexivity|].
  exists hits. subst hits.
  assert (n = 1) as -> by (rewrite He; vm_compute; reflexivity).
  split; [exact Hq|vm_compute; reflexivity].
Defined.

Definition demo_subscription : SubscribeRequest :=
  {| s_caller_subject := "human:x"; s_caller_primary_group := ""; s_caller_is_ai := false;
     s_caller_is_recovery_mode := false; s_record_types_filter := [4%Z]; s_subject_filter := "";
     s_correlation_id_filter := ""; s_resume_from_receipt_id := "" |}.

Lemma live_agrees_with_replay_witness :
  subscribe l2 demo_subscription =
    Ok (List.filter (live_passes demo_subscription [RecordType.PolicyDecision])
          (receipt_to_proto <$> chain l2),
        live_passes demo_subscription [RecordType.PolicyDecision]).
Proof. apply live_agrees_with_replay; vm_compute; reflexivity. Defined.

Lemma admits_exact_witness :
  PrivacyCeiling.admits_wire (query_ceiling demo_query) "human:ops/a" RecordType.PolicyDecision = false.
Proof.
  apply not_true_iff_false. intros Ha. apply admits_exact in Ha; [|by vm_compute].
  destruct Ha as [E|[_ E]]; vm_compute in E; discriminate E.
Defined.

Lemma forever_record_ages_out_witness :
  exists l' z r, seal_current_segment demo_ambient l1 Standard24M = Ok (l', z) /\ r ∈ SealedSegment.receipts z /\
    RecordType.retention_class (Receipt.record_type r) = Forever /\
    SealedSegment.is_compaction_eligible z (SealedSegment.sealed_at z + days 730)%Z = true.
Proof.
  assert (is_ok (append demo_ambient (new key) (decision_by "human:ops/a")) = true) as Ha
    by (vm_compute; reflexivity).
  assert (is_ok (seal_current_segment demo_ambient l1 Standard24M) = true) as Hs by (vm_compute; reflexivity).
  apply is_ok_inv in Ha as [[l p] Ea]. apply is_ok_inv in Hs as [[l' z] Es].
  assert (l = l1) as -> by (unfold l1, after_append; by rewrite Ea).
  destruct (forever_record_ages_out demo_ambient _ _ _ _ _ _ Ea Es)
    as (r & _ & _ & Ht & _ & Hr & He).
  exists l', z, r. split_and!; [done|done| |exact He].
  assert (record_type_from_proto_i32 4 = Ok RecordType.PolicyDecision) as E4 by (vm_compute; reflexivity).
  cbn [decision_by a_record_type] in Ht. rewrite E4 in Ht. apply ok_inj in Ht as <-. reflexivity.
Defined.

Lemma demo_backend_ok : backend_ok l3.
Proof.
  split; [|vm_compute; repeat constructor; by intros ?%not_elem_of_nil].
  assert (forallb (fun z => is_some (warm_receipt_count l3 !! SealedSegment.segment_id z) &&
                     is_some (warm_index_count l3 !! SealedSegment.segment_id z)) (sealed l3) = true)
    as E by (vm_compute; reflexivity).
  apply Forall_forall. intros z Hz. rewrite forallb_elem in E. apply E in Hz.
  apply andb_true_iff in Hz as [[? ->]%is_some_true [? ->]%is_some_true]. split; by eexists.
Qed.

(** The sealed segment of the run is past its horizon at [later]: the tick in
    automatic mode takes it off the list. *)
Lemma compaction_is_authorised_witness :
  exists s, s ∈ live_rows l3 /\ (s ∉ live_rows l4) /\
    is_eligible (row_class s) (row_sealed_at s) later = true.
Proof.
  destruct (live_rows l3) as [|s rest] eqn:E3; [vm_compute in E3; discriminate E3|].
  assert (s ∈ live_rows l3) as Hin by (rewrite E3; apply elem_of_cons; by left).
  assert (live_rows l4 = []) as E4 by (vm_compute; reflexivity).
  assert (s ∉ live_rows l4) as Hout by (rewrite E4; apply not_elem_of_nil).
  exists s. split_and!; [apply elem_of_cons; by left|done|].
  destruct (CompactionWorker.tick (H := in_memory_backend demo_ambient)
              (CompactionWorker.new Auto) l3 later) as [[w' l'] r] eqn:Et.
  assert (l' = l4) as -> by (unfold l4, after_tick; by rewrite Et).
  exact (proj1 (proj2 (compaction_is_authorised (H0 := in_memory_laws demo_ambient)
    _ _ _ _ _ _ s demo_backend_ok Et Hin Hout))).
Defined.

(** Two seals interleaved: the first is linked, a receipt arrives, the second
    is linked. *)
Definition link_first (l : t) : result EvidenceError (t * SealedSegment.t) :=
  seal_locked demo_ambient l Standard24M.
Definition then_append (l : t) : result Status (t * ProtoReceipt) :=
  match link_first l with
  | Ok out => append demo_ambient out.1 (decision_by "human:c")
  | Err e => Err (FromEvidence e)
  end.
Definition link_second (l : t) : result EvidenceError (t * SealedSegment.t) :=
  match then_append l with
  | Ok out => seal_locked demo_ambient out.1 Standard24M
  | Err _ => Err EmptySegment
  end.

Lemma then_append_eq l out :
  link_first l = Ok out -> then_append l = append demo_ambient out.1 (decision_by "human:c").
Proof. unfold then_append. by intros ->. Qed.
Lemma link_second_eq l out :
  then_append l = Ok out -> link_second l = seal_locked demo_ambient out.1 Standard24M.
Proof. unfold link_second. by intros ->. Qed.

Lemma interleaved_seals_break_chain_order_witness :
  exists la za lb zb, link_first l1 = Ok (la, za) /\ link_second l1 = Ok (lb, zb) /\
    SegmentChain.verify_chain (sealed (store_sealed (store_sealed lb zb) za)) <> Ok ().
Proof.
  assert (is_ok (link_second l1) = true) as [[lb zb] Eb]%is_ok_inv by (vm_compute; reflexivity).
  assert (is_ok (link_first l1) = true) as [[la za] Ea]%is_ok_inv by (vm_compute; reflexivity).
  assert (is_ok (then_append l1) = true) as [[l' p] Ep]%is_ok_inv by (vm_compute; reflexivity).
  assert (sealed l1 = []) as E1 by (vm_compute; reflexivity).
  assert (previous_segment_link l1 = None) as E2 by (vm_compute; reflexivity).
  exists la, za, lb, zb. split; [exact Ea|]. split; [exact Eb|].
  rewrite (link_second_eq _ _ Ep) in Eb. rewrite (then_append_eq _ _ Ea) in Ep.
  exact (proj2 (interleaved_seals_break_chain_order demo_ambient l1 Standard24M la za
           (decision_by "human:c") l' p lb zb E1 E2 Ea Ep Eb)).
Defined.
End LogDemo.
