(* ===== verification/StateError.v ===== *)
(** * The state and error monad

    Operations that thread a state and may fail: [M St E B] is
    [St -> result E B * St], an error keeps the effects that came before it, as
    a [?] after an assignment does in the code.  [post] is its weakest
    precondition, for a result and for an error; [preserves] its frame rule,
    decomposed along a program by the tactic [frame]. *)
From S2P Require Import Prelude.

Section Monad.
Context {St E : Type}.

Definition M (B : Type) : Type := St -> result E B * St.
Definition ret {B} (b : B) : M B := fun w => (Ok b, w).
Definition throw {B} (e : E) : M B := fun w => (Err e, w).
Definition lift {B} (r : result E B) : M B := fun w => (r, w).
Definition mbind_ {B C} (m : M B) (f : B -> M C) : M C := fun w =>
  match m w with
  | (Ok b, w) => f b w
  | (Err e, w) => (Err e, w)
  end.
Definition get : M St := fun w => (Ok w, w).
Definition modify (f : St -> St) : M () := fun w => (Ok (), f w).

(** [loop { .. }]: a round returns [Some] to leave the loop; [None] when [fuel]
    rounds were not enough. *)
Fixpoint iterate {B} (fuel : nat) (body : M (option B)) : M (option B) :=
  match fuel with
  | O => ret None
  | S fuel => mbind_ body (fun r => match r with Some b => ret (Some b) | None => iterate fuel body end)
  end.
End Monad.
Arguments M : clear implicits.

(** A step on the first component of a pair of states. *)
Definition on_fst {St R E B} (m : M St E B) : M (St * R) E B := fun s =>
  let '(r, w) := m s.1 in (r, (w, s.2)).

Notation "'let!' x ':=' c 'in' k" := (mbind_ c (fun x => k))
  (at level 10, x binder, c at level 200, k at level 200,
   format "'[v' 'let!'  x  ':='  c  'in' '//' k ']'") : aios_scope.

Section Logic.
Context {St Er : Type}.
Abbreviation M := (M St Er).

Definition post {B} (m : M B) (Q : B -> St -> Prop) (E : Er -> St -> Prop) (w : St) : Prop :=
  match m w with
  | (Ok b, w') => Q b w'
  | (Err e, w') => E e w'
  end.

Lemma post_ret {B} (b : B) Q E w : Q b w -> post (ret b) Q E w.
Proof. done. Qed.

Lemma post_lift_ok {B} (r : result Er B) b Q E w :
  r = Ok b -> Q b w -> post (lift r) Q E w.
Proof. by intros ->. Qed.

Lemma post_bind {B C} (m : M B) (f : B -> M C) R Q E w :
  post m R E w -> (forall b w', R b w' -> post (f b) Q E w') -> post (mbind_ m f) Q E w.
Proof.
  unfold post, mbind_. destruct (m w) as [[b|e] w']; [|done]. intros HR Hf. by apply Hf.
Qed.

Lemma post_mono {B} (m : M B) (Q Q' : B -> St -> Prop) (E E' : Er -> St -> Prop) w :
  post m Q E w -> (forall b w', Q b w' -> Q' b w') -> (forall e w', E e w' -> E' e w') ->
  post m Q' E' w.
Proof. unfold post. destruct (m w) as [[b|e] w']; auto. Qed.

(** [post_bind] with the errors of the first program weakened. *)
Lemma post_seq {B C} (m : M B) (f : B -> M C) R E' Q (E : Er -> St -> Prop) w :
  post m R E' w -> (forall e w', E' e w' -> E e w') ->
  (forall b w', R b w' -> post (f b) Q E w') -> post (mbind_ m f) Q E w.
Proof.
  intros Hm He Hf. eapply post_bind; [|exact Hf]. eapply post_mono; [exact Hm|auto|exact He].
Qed.

Lemma post_ok {B} (m : M B) Q E w :
  is_ok (m w).1 = true -> post m Q E w -> exists b w', m w = (Ok b, w') /\ Q b w'.
Proof. unfold post. destruct (m w) as [[b|e] w']; [|done]. intros _ HQ. by exists b, w'. Qed.

(** [m] keeps [I], whether it succeeds or fails. *)
Definition preserves {B} (I : St -> Prop) (m : M B) : Prop := forall w, I w -> I (m w).2.

Lemma preserves_ret {B} I (b : B) : preserves I (ret b).
Proof. by intros w. Qed.
Lemma preserves_throw {B} I e : preserves I (throw (B := B) e).
Proof. by intros w. Qed.
Lemma preserves_lift {B} I (r : result Er B) : preserves I (lift r).
Proof. by intros w. Qed.
Lemma preserves_bind {B C} I (m : M B) (f : B -> M C) :
  preserves I m -> (forall b, preserves I (f b)) -> preserves I (mbind_ m f).
Proof.
  intros Hm Hf w Hw. unfold mbind_. specialize (Hm w Hw).
  destruct (m w) as [[b|e] w']; [by apply Hf|done].
Qed.
Lemma preserves_get I : preserves I get.
Proof. by intros w. Qed.
Lemma preserves_modify I f : (forall w, I w -> I (f w)) -> preserves I (modify f).
Proof. intros Hf w. apply Hf. Qed.
Lemma preserves_at {B} I (m : M B) w : preserves I m -> I w -> I (m w).2.
Proof. auto. Qed.
Lemma post_frame {B} I (m : M B) Q E w :
  preserves I m -> I w -> post m Q E w -> post m (fun b w' => Q b w' /\ I w') E w.
Proof.
  intros Hp Hw. specialize (Hp w Hw). unfold post. destruct (m w) as [[b|e] w']; auto.
Qed.
Lemma preserves_if {B} I (b : bool) (m m' : M B) :
  preserves I m -> preserves I m' -> preserves I (if b then m else m').
Proof. by destruct b. Qed.
Lemma post_and {B} (m : M B) Q Q' E E' (w : St) :
  post m Q E w -> post m Q' E' w ->
  post m (fun b w' => Q b w' /\ Q' b w') (fun e w' => E e w' /\ E' e w') w.
Proof. unfold post. destruct (m w) as [[b|e] w']; auto. Qed.
Lemma post_preserves {B} (I : St -> Prop) (m : M B) w :
  preserves I m -> I w -> post m (fun _ => I) (fun _ => I) w.
Proof. intros Hp Hw. specialize (Hp w Hw). unfold post. by destruct (m w) as [[b|e] w']. Qed.
End Logic.

Create HintDb frame.
#[export] Hint Resolve preserves_ret preserves_throw preserves_lift preserves_get : frame.

(** Decompose a program along its structure. *)
Ltac frame_step :=
  match goal with
  | |- preserves _ (mbind_ _ _) => apply preserves_bind; [|intros ?]
  | |- preserves _ (if _ then _ else _) => apply preserves_if
  | |- preserves _ (match ?x with _ => _ end) => destruct x
  | |- preserves _ (let '(_, _) := ?x in _) => destruct x
  end.
Ltac frame := repeat first [frame_step | progress (cbv zeta)]; auto with frame.
