(* ===== verification/Lifecycle.v ===== *)
(** * Action lifecycle of the Capability Runtime (crate [aios-capability-runtime])

    The closed vocabularies ([status.rs], [dispatch.rs], [failure.rs]), the
    error type ([error.rs]), the per-action context ([context.rs]), the
    transition table and its enforcement gate ([pipeline.rs]), and the pure
    dispatch decisions ([dispatcher.rs]).  [Lifecycle.step] is the table as a
    step relation; its theorems are about every run of the table. *)
From S2P Require Import Prelude Json Action.

(** ** Vocabularies *)
Module ActionLifecycleState.

Inductive t : Type :=
| Created | PolicyPending | ApprovalPending | OverridePending | Approved
| PolicyDenied | OverrideDenied | Queued | Executing | Verifying
| Succeeded | Failed | RolledBack | RollbackFailed.

#[global] Instance t_eq_dec : EqDecision t.
Proof. solve_decision. Defined.

Definition is_terminal (s : t) : bool :=
  match s with
  | Succeeded | RolledBack | RollbackFailed | OverrideDenied => true
  | _ => false
  end.

(** The serde wire form. *)
Definition wire (s : t) : string :=
  match s with
  | Created => "CREATED" | PolicyPending => "POLICY_PENDING"
  | ApprovalPending => "APPROVAL_PENDING" | OverridePending => "OVERRIDE_PENDING"
  | Approved => "APPROVED" | PolicyDenied => "POLICY_DENIED"
  | OverrideDenied => "OVERRIDE_DENIED" | Queued => "QUEUED"
  | Executing => "EXECUTING" | Verifying => "VERIFYING" | Succeeded => "SUCCEEDED"
  | Failed => "FAILED" | RolledBack => "ROLLED_BACK"
  | RollbackFailed => "ROLLBACK_FAILED"
  end.

End ActionLifecycleState.

Module ActionDispatchKind.

Inductive t : Type := InProcessRpc | SubprocessFork | IsolatedSandbox | DryRun.

#[global] Instance t_eq_dec : EqDecision t.
Proof. solve_decision. Defined.

Definition wire (k : t) : string :=
  match k with
  | InProcessRpc => "IN_PROCESS_RPC" | SubprocessFork => "SUBPROCESS_FORK"
  | IsolatedSandbox => "ISOLATED_SANDBOX" | DryRun => "DRY_RUN"
  end.

End ActionDispatchKind.

Module AdapterIOMode.
Inductive t : Type := TypedParametersOnly | TemplateParameters.
Definition wire (m : t) : string :=
  match m with
  | TypedParametersOnly => "TYPED_PARAMETERS_ONLY"
  | TemplateParameters => "TEMPLATE_PARAMETERS"
  end.
End AdapterIOMode.

Module AdapterStability.

Inductive t : Type := Registered | Experimental | Stable | Deprecated | Retired.

#[global] Instance t_eq_dec : EqDecision t.
Proof. solve_decision. Defined.

Definition wire (s : t) : string :=
  match s with
  | Registered => "REGISTERED" | Experimental => "EXPERIMENTAL" | Stable => "STABLE"
  | Deprecated => "DEPRECATED" | Retired => "RETIRED"
  end.

End AdapterStability.

Module QueueClass.

Inductive t : Type := Interactive | AgentProposal | Background | RecoveryPriority.

#[global] Instance t_eq_dec : EqDecision t.
Proof. solve_decision. Defined.
#[global] Instance t_finite : finite.Finite t.
Proof.
  refine {| finite.enum := [Interactive; AgentProposal; Background; RecoveryPriority] |}.
  - repeat constructor; set_solver.
  - intros []; set_solver.
Defined.
#[global] Instance t_countable : Countable t := finite.finite_countable.

Definition wire (c : t) : string :=
  match c with
  | Interactive => "INTERACTIVE" | AgentProposal => "AGENT_PROPOSAL"
  | Background => "BACKGROUND" | RecoveryPriority => "RECOVERY_PRIORITY"
  end.

End QueueClass.

Module ExecutionFailureReason.

Inductive t : Type :=
| SandboxApplicationFailed | AdapterTimeout | AdapterPanic | ResourceBudgetExceeded
| DependencyUnready | BackendUnavailable | IdempotencyKeyReplayDetected
| EnvelopeValidationFailed | RollbackPreconditionFailed | BindingExpired
| BindingVoidedActionRevised | AdapterRefused.

Definition wire (r : t) : string :=
  match r with
  | SandboxApplicationFailed => "SANDBOX_APPLICATION_FAILED"
  | AdapterTimeout => "ADAPTER_TIMEOUT" | AdapterPanic => "ADAPTER_PANIC"
  | ResourceBudgetExceeded => "RESOURCE_BUDGET_EXCEEDED"
  | DependencyUnready => "DEPENDENCY_UNREADY" | BackendUnavailable => "BACKEND_UNAVAILABLE"
  | IdempotencyKeyReplayDetected => "IDEMPOTENCY_KEY_REPLAY_DETECTED"
  | EnvelopeValidationFailed => "ENVELOPE_VALIDATION_FAILED"
  | RollbackPreconditionFailed => "ROLLBACK_PRECONDITION_FAILED"
  | BindingExpired => "BINDING_EXPIRED"
  | BindingVoidedActionRevised => "BINDING_VOIDED_ACTION_REVISED"
  | AdapterRefused => "ADAPTER_REFUSED"
  end.

End ExecutionFailureReason.

Module RollbackOutcome.
Inductive t : Type := NotAttempted | Succeeded | Failed | NotApplicable.
Definition wire (o : t) : string :=
  match o with
  | NotAttempted => "NOT_ATTEMPTED" | Succeeded => "SUCCEEDED" | Failed => "FAILED"
  | NotApplicable => "NOT_APPLICABLE"
  end.
End RollbackOutcome.

(** ** Errors *)
Module RuntimeError.
Inductive t : Type :=
| ActionNotFound (id : string)
| InvalidTransition (from to : ActionLifecycleState.t)
| AdapterUnknown (adapter : string)
| AdapterSignatureInvalid
| AdapterUnknownAuthority (key_id : string)
| AdapterAlreadyRegistered (adapter : string)
| ManifestInvalid (detail : string)
| QueueFull (class : QueueClass.t)
| RateLimited (subject : string)
| Internal (detail : string)
| PolicyEvalFailed (detail : string)
| EvidenceEmitFailed (detail : string)
| ApprovalBindingInvalid (detail : string)
| ApprovalBindingConsumed
| ApprovalBindingExpired
| ApprovalRequestNotFound (id : string)
| ApprovalApproverClassMismatch.
End RuntimeError.

(** ** The per-action context *)
Module ActionContext.

Record t : Type := {
  action_id : string;
  status : ActionLifecycleState.t;
  dispatch_kind : ActionDispatchKind.t;
  queue_class : QueueClass.t;
  created_at : DateTime;
  last_updated_at : DateTime;
  error : option ExecutionFailureReason.t;
  rollback_outcome : option RollbackOutcome.t;
  evidence_chain : list string;
}.

Definition new (id : string) (k : ActionDispatchKind.t) (c : QueueClass.t) (now : DateTime) : t :=
  {| action_id := id; status := ActionLifecycleState.Created; dispatch_kind := k;
     queue_class := c; created_at := now; last_updated_at := now; error := None;
     rollback_outcome := None; evidence_chain := [] |}.

(** The field writes of the pipeline. *)
Definition set_status (s : ActionLifecycleState.t) (now : DateTime) (c : t) : t :=
  {| action_id := action_id c; status := s; dispatch_kind := dispatch_kind c;
     queue_class := queue_class c; created_at := created_at c; last_updated_at := now;
     error := error c; rollback_outcome := rollback_outcome c;
     evidence_chain := evidence_chain c |}.

Definition set_dispatch_kind (k : ActionDispatchKind.t) (c : t) : t :=
  {| action_id := action_id c; status := status c; dispatch_kind := k;
     queue_class := queue_class c; created_at := created_at c;
     last_updated_at := last_updated_at c; error := error c;
     rollback_outcome := rollback_outcome c; evidence_chain := evidence_chain c |}.

Definition set_queue_class (q : QueueClass.t) (c : t) : t :=
  {| action_id := action_id c; status := status c; dispatch_kind := dispatch_kind c;
     queue_class := q; created_at := created_at c; last_updated_at := last_updated_at c;
     error := error c; rollback_outcome := rollback_outcome c;
     evidence_chain := evidence_chain c |}.

Definition set_error (e : ExecutionFailureReason.t) (c : t) : t :=
  {| action_id := action_id c; status := status c; dispatch_kind := dispatch_kind c;
     queue_class := queue_class c; created_at := created_at c;
     last_updated_at := last_updated_at c; error := Some e;
     rollback_outcome := rollback_outcome c; evidence_chain := evidence_chain c |}.

Definition set_rollback_outcome (o : RollbackOutcome.t) (c : t) : t :=
  {| action_id := action_id c; status := status c; dispatch_kind := dispatch_kind c;
     queue_class := queue_class c; created_at := created_at c;
     last_updated_at := last_updated_at c; error := error c;
     rollback_outcome := Some o; evidence_chain := evidence_chain c |}.

Definition push_evidence (r : string) (c : t) : t :=
  {| action_id := action_id c; status := status c; dispatch_kind := dispatch_kind c;
     queue_class := queue_class c; created_at := created_at c;
     last_updated_at := last_updated_at c; error := error c;
     rollback_outcome := rollback_outcome c; evidence_chain := evidence_chain c ++ [r] |}.

End ActionContext.

(** [fresh_context]. *)
Definition fresh_context (action_id : string) (now : DateTime) : ActionContext.t :=
  ActionContext.new action_id ActionDispatchKind.SubprocessFork QueueClass.Interactive now.

(** ** The transition table and its gate *)
Module Lifecycle.
Import ActionLifecycleState.

Definition TRANSITIONS : list (t * t) :=
  [ (Created, PolicyPending); (Created, Failed);
    (PolicyPending, Approved); (PolicyPending, ApprovalPending);
    (PolicyPending, PolicyDenied); (PolicyPending, OverridePending);
    (ApprovalPending, Approved); (ApprovalPending, Failed);
    (OverridePending, Approved); (OverridePending, OverrideDenied);
    (Approved, Queued); (Queued, Executing); (Queued, Failed);
    (Executing, Verifying); (Executing, Failed);
    (Verifying, Succeeded); (Verifying, Failed);
    (Failed, RolledBack); (Failed, RollbackFailed);
    (PolicyDenied, OverridePending) ].

Definition allowed (from to : t) : bool :=
  existsb (fun ft => bool_decide (ft.1 = from) && bool_decide (ft.2 = to)) TRANSITIONS.

Definition apply_transition (ctx : ActionContext.t) (to : t) (now : DateTime)
    : result RuntimeError.t ActionContext.t :=
  let from := ActionContext.status ctx in
  if allowed from to then Ok (ActionContext.set_status to now ctx)
  else Err (RuntimeError.InvalidTransition from to).

(** The table as a step relation, and the runs of an action. *)
Definition step (from to : t) : Prop := allowed from to = true.
Definition reaches : t -> t -> Prop := rtc step.

(** The public five-bucket projection of the documentation of the states. *)
Definition phase_of (s : t) : ActionPhase.t :=
  match s with
  | Created | PolicyPending | ApprovalPending | OverridePending | Approved | Queued =>
      ActionPhase.Pending
  | Executing | Verifying => ActionPhase.Running
  | Succeeded => ActionPhase.Succeeded
  | PolicyDenied | OverrideDenied | Failed | RollbackFailed => ActionPhase.Failed
  | RolledBack => ActionPhase.RolledBack
  end.

(** How far a state is from the end of the longest run of the table. *)
Definition rank (s : t) : nat :=
  match s with
  | Created => 10 | PolicyPending => 9 | PolicyDenied => 8 | OverridePending => 7
  | ApprovalPending => 7 | Approved => 6 | Queued => 5 | Executing => 4 | Verifying => 3
  | Failed => 2
  | Succeeded | RolledBack | RollbackFailed | OverrideDenied => 0
  end.

End Lifecycle.

(** ** Dispatch decisions ([dispatcher.rs]) *)
Module ActionDispatcher.

Definition AI_INTERACTIVE_DOWNGRADE_MARKER : string := "AI_INTERACTIVE_QUEUE_DOWNGRADE".

Definition select_queue_class (envelope : Envelope.t) (recovery_mode : bool) : QueueClass.t :=
  if recovery_mode then QueueClass.RecoveryPriority
  else if identity_is_ai (Envelope.identity envelope) then QueueClass.AgentProposal
  else QueueClass.Interactive.

(** [select_dispatch_kind], of the two manifest fields it reads. *)
Definition select_dispatch_kind (manifest_kind : ActionDispatchKind.t)
    (declared_stability : AdapterStability.t) (is_ai is_simulate risk_privileged : bool)
    : ActionDispatchKind.t :=
  if is_simulate then ActionDispatchKind.DryRun
  else if is_ai || risk_privileged then ActionDispatchKind.IsolatedSandbox
  else if bool_decide (manifest_kind = ActionDispatchKind.InProcessRpc)
          && bool_decide (declared_stability = AdapterStability.Stable)
  then ActionDispatchKind.InProcessRpc
  else ActionDispatchKind.SubprocessFork.

Definition apply_ai_interactive_downgrade (ctx : ActionContext.t) (is_ai : bool)
    : option string :=
  if is_ai && bool_decide (ActionContext.queue_class ctx = QueueClass.Interactive)
  then Some AI_INTERACTIVE_DOWNGRADE_MARKER else None.

Record DispatchKindInputs : Type := {
  is_simulate : bool;
  in_is_ai : bool;
  risk_privileged : bool;
  manifest_stable : bool;
}.

(** [compute_dispatch_kind] of [pipeline.rs]. *)
Definition compute_dispatch_kind (manifest_kind : ActionDispatchKind.t)
    (inputs : DispatchKindInputs) : ActionDispatchKind.t :=
  if is_simulate inputs then ActionDispatchKind.DryRun
  else if in_is_ai inputs || risk_privileged inputs then ActionDispatchKind.IsolatedSandbox
  else if bool_decide (manifest_kind = ActionDispatchKind.InProcessRpc)
          && manifest_stable inputs
  then ActionDispatchKind.InProcessRpc
  else ActionDispatchKind.SubprocessFork.

End ActionDispatcher.

(** ** Properties of the table *)
Module LifecycleSound.
Import ActionLifecycleState Lifecycle.

Lemma apply_transition_ok ctx to now ctx' :
  apply_transition ctx to now = Ok ctx' ->
  step (ActionContext.status ctx) to /\ ctx' = ActionContext.set_status to now ctx.
Proof. unfold apply_transition, step. intros. run. done. Qed.

Lemma apply_transition_step ctx to now :
  step (ActionContext.status ctx) to ->
  apply_transition ctx to now = Ok (ActionContext.set_status to now ctx).
Proof. unfold apply_transition, step. by intros ->. Qed.

(** Every transition descends in [rank]. *)
Lemma step_rank from to : step from to -> rank to < rank from.
Proof. destruct from, to; vm_compute; intros; first [discriminate|lia]. Qed.

Lemma terminal_stuck s : is_terminal s = true <-> forall to, ~ step s to.
Proof.
  split.
  - destruct s; intros H []; vm_compute; intros; discriminate.
  - intros H. destruct s; try done; exfalso;
      [apply (H Failed)|apply (H Approved)|apply (H Approved)|apply (H Approved)
      |apply (H Queued)|apply (H OverridePending)|apply (H Executing)|apply (H Verifying)
      |apply (H Succeeded)|apply (H RolledBack)]; done.
Qed.

(** The lifecycle table is well founded and its dead ends are exactly the
    states the code calls terminal: every run of transitions is finite (at
    most [rank] steps from its first state), and a state has no outgoing
    transition if and only if [is_terminal] holds of it. *)
Theorem lifecycle_terminates (s : t) :
  (forall n s', nsteps step n s s' -> n + rank s' <= rank s) /\
  (is_terminal s = true <-> forall to now ctx,
     ActionContext.status ctx = s ->
     apply_transition ctx to now = Err (RuntimeError.InvalidTransition s to)).
Proof.
  split.
  - intros n. revert s. induction n as [|n IH]; intros s s' H.
    + inversion H; subst. lia.
    + inversion H as [|? ? y ? Hs Hn]; subst.
      apply step_rank in Hs. apply IH in Hn. lia.
  - rewrite terminal_stuck. unfold apply_transition, step. split.
    + intros H to now ctx ->. specialize (H to). by destruct (allowed s to).
    + intros H to Hs. specialize (H to 0%Z (ActionContext.set_status s 0%Z (fresh_context "" 0%Z)) eq_refl).
      simpl in H. by rewrite Hs in H.
Qed.

(** A run that ends in execution has been approved on the way: [Approved] and
    [Queued] cannot be bypassed. *)
Definition executed (s : t) : bool :=
  match s with Executing | Verifying | Succeeded => true | _ => false end.

Lemma executed_back s s' : step s s' -> executed s' = true -> executed s = true \/ s = Queued.
Proof. destruct s, s'; vm_compute; intros; first [discriminate|auto]. Qed.

Lemma queued_back s : step s Queued -> s = Approved.
Proof. destruct s; vm_compute; intros; first [discriminate|auto]. Qed.

(** No path of the table reaches execution without passing through
    [Approved] and then [Queued]. *)
Theorem execution_passes_approval (s : t) :
  reaches Created s -> executed s = true ->
  reaches Created Approved /\ reaches Approved Queued /\ reaches Queued s.
Proof.
  revert s. apply (rtc_ind_r (fun s => executed s = true -> _)); [done|].
  intros y z H Hs IH He. destruct (executed_back _ _ Hs He) as [Hy| ->].
  - destruct (IH Hy) as (?&?&?). split_and!; try done. by eapply rtc_r.
  - apply rtc_inv_r in H as [?|(w & Hw & Hq)]; [done|].
    apply queued_back in Hq as Hw'. subst w.
    split_and!; [done|by apply rtc_once|by apply rtc_once].
Qed.

Lemma execution_passes_approval_witness :
  reaches Created Succeeded /\ executed Succeeded = true /\
  (reaches Created Approved /\ reaches Approved Queued /\ reaches Queued Succeeded).
Proof.
  assert (reaches Created Succeeded) as Hr.
  { apply (rtc_l _ _ PolicyPending); [done|]. apply (rtc_l _ _ Approved); [done|].
    apply (rtc_l _ _ Queued); [done|]. apply (rtc_l _ _ Executing); [done|].
    apply (rtc_l _ _ Verifying); [done|]. by apply rtc_once. }
  split; [exact Hr|]. split; [reflexivity|].
  apply (execution_passes_approval Succeeded Hr eq_refl).
Defined.

(** The decision the pipeline takes with the stability it hard-codes: an
    adapter that is not declared stable and asks for in-process dispatch is
    dispatched in process, while the closed table ([select_dispatch_kind])
    sends it to a subprocess; in every other case the two agree. *)
Theorem unstable_adapter_runs_in_process (k : ActionDispatchKind.t) (st : AdapterStability.t)
    (ai sim : bool) :
  let chosen := ActionDispatcher.compute_dispatch_kind k
    {| ActionDispatcher.is_simulate := sim; ActionDispatcher.in_is_ai := ai;
       ActionDispatcher.risk_privileged := false; ActionDispatcher.manifest_stable := true |} in
  let table := ActionDispatcher.select_dispatch_kind k st ai sim false in
  (chosen <> table <->
   sim = false /\ ai = false /\ k = ActionDispatchKind.InProcessRpc /\
   st <> AdapterStability.Stable) /\
  (chosen <> table ->
   chosen = ActionDispatchKind.InProcessRpc /\ table = ActionDispatchKind.SubprocessFork).
Proof. destruct k, st, ai, sim; vm_compute; naive_solver. Qed.

End LifecycleSound.
