(* ===== verification/DispatchQueue.v ===== *)
(** * [f64] and the dispatch queue of the Capability Runtime

    The operations on [f64] that the crate uses, as the Standard Library
    specifies binary64, then the queue ([dispatch_queue.rs]). *)
From Stdlib Require Import SpecFloat.
From S2P Require Import Prelude Action Lifecycle.

(** * [f64]

    IEEE 754 binary64 as the Standard Library specifies it ([SpecFloat], 53
    bits of precision, exponents below 1024, round to nearest even): the
    operations the Capability Runtime uses of [f64] and of [Duration]. *)

Module F64.

Definition t : Type := spec_float.
Definition prec : Z := 53.
Definition emax : Z := 1024.

Definition zero : t := S754_zero false.
Definition nan : t := S754_nan.

(** [z as f64]. *)
Definition of_Z (z : Z) : t := binary_normalize prec emax z 0 false.
Definition add : t -> t -> t := SFadd prec emax.
Definition sub : t -> t -> t := SFsub prec emax.
Definition mul : t -> t -> t := SFmul prec emax.
Definition div : t -> t -> t := SFdiv prec emax.

(** The comparison operators; every one is false on a NaN. *)
Definition le : t -> t -> bool := SFleb.
Definition lt : t -> t -> bool := SFltb.
Definition ge (x y : t) : bool := SFleb y x.

Definition is_finite (x : t) : bool :=
  match x with S754_zero _ | S754_finite _ _ _ => true | _ => false end.
Definition is_nan (x : t) : bool := match x with S754_nan => true | _ => false end.

(** [f64::min]: a NaN argument is ignored. *)
Definition min (x y : t) : t :=
  if is_nan x then y else if is_nan y then x else if lt y x then y else x.

(** [Duration::as_secs_f64], of a duration in nanoseconds. *)
Definition as_secs_f64 (nanos : Z) : t :=
  add (of_Z (nanos / 1000000000)) (div (of_Z (nanos mod 1000000000)) (of_Z 1000000000)).

Lemma compare_antisym x y : SFcompare y x = CompOpp <$> SFcompare x y.
Proof.
  destruct x as [sx|sx| |sx mx ex], y as [sy|sy| |sy my ey]; simpl;
    try (destruct sx, sy; reflexivity); try (destruct sx; reflexivity);
    try (destruct sy; reflexivity); try reflexivity.
  assert (Pos.compare_cont Eq my mx = CompOpp (Pos.compare_cont Eq mx my)) as ->.
  { apply (Pos.compare_antisym mx my). }
  rewrite (Z.compare_antisym ex ey). by destruct sx, sy, (ex ?= ey)%Z, (Pos.compare_cont Eq mx my).
Qed.

Lemma compare_total x y :
  is_nan x = false -> is_nan y = false -> exists c, SFcompare x y = Some c.
Proof. destruct x, y; simpl; naive_solver. Qed.

(** [lt] and [le] are complementary on numbers. *)
Lemma not_lt_le x y : is_nan x = false -> is_nan y = false -> lt x y = false -> le y x = true.
Proof.
  intros Hx Hy. unfold lt, le, SFltb, SFleb. rewrite (compare_antisym x y).
  destruct (compare_total x y Hx Hy) as [c ->]. by destruct c.
Qed.

Lemma le_refl x : is_nan x = false -> le x x = true.
Proof.
  unfold le, SFleb, SFcompare. destruct x as [s|s| |s m e]; try done; try (destruct s; done).
  intros _. rewrite Z.compare_refl, Pos.compare_cont_refl. by destruct s.
Qed.

Lemma lt_le x y : lt x y = true -> le x y = true.
Proof. unfold lt, le, SFltb, SFleb. by destruct (SFcompare x y) as [[]|]. Qed.

Lemma finite_not_nan x : is_finite x = true -> is_nan x = false.
Proof. by destruct x. Qed.

(** The minimum with a number is a number not above it. *)
Lemma min_le x y : is_nan y = false -> is_nan (min x y) = false /\ le (min x y) y = true.
Proof.
  intros Hy. unfold min. destruct (is_nan x) eqn:Hx; [split; [done|by apply le_refl]|].
  rewrite Hy. destruct (lt y x) eqn:E; [split; [done|by apply le_refl]|].
  split; [done|]. by apply not_lt_le.
Qed.

End F64.

(** * Dispatch queue of the Capability Runtime ([dispatch_queue.rs])

    Per-class FIFO buckets, per-subject token buckets and the constitutional
    cap on agent proposals.  Readings of the monotonic clock ([Instant], in
    nanoseconds) are arguments.  [usize] quantities are [Z]; the sum of the
    capacities wraps at the word size, as in a release build. *)

Definition usize_max : Z := 18446744073709551615.
Definition usize_saturating_mul (a b : Z) : Z := Z.min (a * b) usize_max.
Definition usize_saturating_add (a b : Z) : Z := Z.min (a + b) usize_max.

Definition AGENT_PROPOSAL_CAP_NUM : Z := 1.
Definition AGENT_PROPOSAL_CAP_DEN : Z := 2.
Definition DEFAULT_TOTAL_CAPACITY : Z := 1000.
Definition DEFAULT_REFILL_PER_SECOND : F64.t := F64.div (F64.of_Z 30) (F64.of_Z 60).
Definition DEFAULT_BURST_CAPACITY : F64.t := F64.of_Z 15.

(** ** Token buckets *)
Module TokenBucket.

Record t : Type := {
  tokens : F64.t;
  capacity : F64.t;
  refill_per_second : F64.t;
  last_refill : Z;
}.

(** The clamp of the constructor. *)
Definition clamp (x : F64.t) : F64.t :=
  if F64.is_finite x && F64.ge x F64.zero then x else F64.zero.

Definition new (capacity refill : F64.t) (now : Z) : t :=
  let capacity := clamp capacity in
  {| tokens := capacity; capacity := capacity; refill_per_second := clamp refill;
     last_refill := now |}.

Definition default_ai_agent (now : Z) : t :=
  new DEFAULT_BURST_CAPACITY DEFAULT_REFILL_PER_SECOND now.

Definition with_tokens (x : F64.t) (now : Z) (b : t) : t :=
  {| tokens := x; capacity := capacity b; refill_per_second := refill_per_second b;
     last_refill := now |}.

Definition refill_to_now (now : Z) (b : t) : t :=
  let elapsed := Z.max 0 (now - last_refill b) in
  let gain := F64.mul (refill_per_second b) (F64.as_secs_f64 elapsed) in
  let new_tokens := F64.min (F64.add (tokens b) gain) (capacity b) in
  with_tokens (if F64.is_finite new_tokens then new_tokens else F64.zero) now b.

Definition consume_at (n : F64.t) (now : Z) (b : t) : bool * t :=
  if negb (F64.is_finite n) || F64.lt n F64.zero then (false, b)
  else
    let b := refill_to_now now b in
    if F64.ge (tokens b) n
    then (true, with_tokens (F64.sub (tokens b) n) (last_refill b) b)
    else (false, b).

(** [consume_at] is [consume] with the clock as an argument. *)
Definition consume (n : F64.t) (now : Z) (b : t) : bool * t := consume_at n now b.

End TokenBucket.

(** ** The queue *)
Module DispatchQueue.

Record t : Type := {
  queues : gmap QueueClass.t (list ActionContext.t);
  capacity_per_class : gmap QueueClass.t Z;
  rate_limiters : gmap string TokenBucket.t;
}.

Definition new_with_capacities (capacities : gmap QueueClass.t Z) : t :=
  {| queues := {[ QueueClass.Interactive := []; QueueClass.AgentProposal := [];
                  QueueClass.Background := []; QueueClass.RecoveryPriority := [] ]};
     capacity_per_class := capacities; rate_limiters := ∅ |}.

Definition new_with_defaults : t :=
  new_with_capacities
    {[ QueueClass.Interactive := 300%Z; QueueClass.AgentProposal := 400%Z;
       QueueClass.Background := 250%Z; QueueClass.RecoveryPriority := 50%Z ]}.

Definition capacity_of (class : QueueClass.t) (q : t) : Z :=
  default 0%Z (capacity_per_class q !! class).

(** [queues.get(&class).map_or(0, VecDeque::len)]. *)
Definition depth (class : QueueClass.t) (q : t) : Z :=
  match queues q !! class with Some l => Z.of_nat (length l) | None => 0%Z end.

Definition sum_values (m : gmap QueueClass.t Z) : Z := map_fold (fun _ v s => (v + s)%Z) 0%Z m.

(** [self.capacity_per_class.values().sum()]. *)
Definition total_capacity (q : t) : Z := (sum_values (capacity_per_class q) mod (usize_max + 1))%Z.

Definition with_limiters (m : gmap string TokenBucket.t) (q : t) : t :=
  {| queues := queues q; capacity_per_class := capacity_per_class q; rate_limiters := m |}.

Definition with_queues (m : gmap QueueClass.t (list ActionContext.t)) (q : t) : t :=
  {| queues := m; capacity_per_class := capacity_per_class q; rate_limiters := rate_limiters q |}.

(** The rate-limit gate: [t_new] is the clock when a bucket is created,
    [t_now] the clock of the consumption. *)
Definition take_token (t_new t_now : Z) (subject_id : string) (q : t) : bool * t :=
  let bucket := default (TokenBucket.default_ai_agent t_new) (rate_limiters q !! subject_id) in
  let '(admitted, bucket) := TokenBucket.consume (F64.of_Z 1) t_now bucket in
  (admitted, with_limiters (<[subject_id := bucket]> (rate_limiters q)) q).

(** The cap test on one more agent proposal. *)
Definition over_agent_cap (q : t) : bool :=
  let agent_after := usize_saturating_add (depth QueueClass.AgentProposal q) 1 in
  (usize_saturating_mul (total_capacity q) AGENT_PROPOSAL_CAP_NUM
     <? usize_saturating_mul agent_after AGENT_PROPOSAL_CAP_DEN)%Z.

Definition push_back (ctx : ActionContext.t) (q : t) : t :=
  let class := ActionContext.queue_class ctx in
  with_queues (<[class := default [] (queues q !! class) ++ [ctx]]> (queues q)) q.

Definition enroll (t_new t_now : Z) (ctx : ActionContext.t) (subject_id : string) (q : t)
    : result RuntimeError.t ActionContext.t * t :=
  let '(admitted, q) := take_token t_new t_now subject_id q in
  if negb admitted then (Err (RuntimeError.RateLimited subject_id), q)
  else
    let target_class := ActionContext.queue_class ctx in
    if (capacity_of target_class q <? depth target_class q + 1)%Z
    then (Err (RuntimeError.QueueFull target_class), q)
    else if bool_decide (target_class = QueueClass.AgentProposal) && over_agent_cap q
    then (Err (RuntimeError.QueueFull QueueClass.AgentProposal), q)
    else (Ok ctx, push_back ctx q).

Definition dequeue (class : QueueClass.t) (q : t) : option ActionContext.t * t :=
  match queues q !! class with
  | Some (c :: rest) => (Some c, with_queues (<[class := rest]> (queues q)) q)
  | _ => (None, q)
  end.

Definition depth_per_class (q : t) : gmap QueueClass.t Z :=
  (fun l => Z.of_nat (length l)) <$> queues q.

Definition total_len (q : t) : Z := sum_values (depth_per_class q).

(** A run of the queue. *)
Inductive step : t -> t -> Prop :=
| step_enroll t_new t_now ctx subject q : step q (enroll t_new t_now ctx subject q).2
| step_dequeue class q : step q (dequeue class q).2.

End DispatchQueue.

(** ** Token buckets: bounds and bursts *)
Module TokenBucketSound.
Import TokenBucket.

(** A well-formed bucket: a finite capacity and a finite balance. *)
Definition wf (b : t) : Prop :=
  F64.is_finite (capacity b) = true /\ F64.is_finite (tokens b) = true.

Lemma clamp_finite x : F64.is_finite (clamp x) = true.
Proof. unfold clamp. destruct (F64.is_finite x) eqn:E; simpl; [|done]. by destruct (F64.ge _ _). Qed.

Lemma bucket_wf c r now : wf (new c r now).
Proof. split; apply clamp_finite. Qed.

(** Refilling keeps the balance finite and never above the capacity. *)
Lemma refill_bounded now b :
  wf b -> F64.ge (capacity b) F64.zero = true ->
  wf (refill_to_now now b) /\ F64.le (tokens (refill_to_now now b)) (capacity b) = true.
Proof.
  intros [Hc Ht] Hz. unfold wf, refill_to_now. simpl.
  destruct (F64.is_finite (F64.min _ _)) eqn:E.
  - split; [done|]. apply F64.min_le. by apply F64.finite_not_nan.
  - done.
Qed.

(** [k] consumptions at the same instant. *)
Fixpoint consumes (k : nat) (n : F64.t) (now : Z) (b : t) : list bool * t :=
  match k with
  | 0 => ([], b)
  | S k => let '(r, b) := consume n now b in
           let '(rs, b) := consumes k n now b in (r :: rs, b)
  end.

(** The default bucket with [k] whole tokens left. *)
Definition holding (k : Z) (now : Z) : t :=
  with_tokens (F64.of_Z k) now (default_ai_agent now).

Lemma consume_holding (k : nat) (now : Z) :
  k < 15 ->
  consume (F64.of_Z 1) now (holding (Z.of_nat (S k)) now) = (true, holding (Z.of_nat k) now).
Proof.
  intros Hk. unfold consume, consume_at, refill_to_now, holding.
  cbn [with_tokens last_refill default_ai_agent new]. rewrite Z.sub_diag.
  do 15 (destruct k as [|k]; [reflexivity|]). lia.
Qed.

Lemma consume_empty (now : Z) :
  consume (F64.of_Z 1) now (holding 0 now) = (false, holding 0 now).
Proof.
  unfold consume, consume_at, refill_to_now, holding.
  cbn [with_tokens last_refill default_ai_agent new]. rewrite Z.sub_diag. reflexivity.
Qed.

Lemma consumes_holding (k m : nat) (now : Z) :
  m <= 15 ->
  consumes k (F64.of_Z 1) now (holding (Z.of_nat m) now)
  = (replicate (k `min` m) true ++ replicate (k - m) false, holding (Z.of_nat (m - k)) now).
Proof.
  revert m. induction k as [|k IH]; intros m Hm; [by rewrite Nat.sub_0_r|].
  cbn [consumes]. destruct m as [|m].
  - change (Z.of_nat 0) with 0%Z. rewrite consume_empty.
    specialize (IH 0 ltac:(lia)). change (Z.of_nat 0) with 0%Z in IH. rewrite IH.
    simpl. by rewrite !Nat.sub_0_r, Nat.min_0_r.
  - rewrite consume_holding by lia. rewrite IH by lia. done.
Qed.

(** A fresh default bucket admits a burst of exactly fifteen actions: of
    any number of attempts at one instant the first fifteen succeed and every
    later one is refused. *)
Theorem burst_is_fifteen (k : nat) (now : Z) :
  (consumes k (F64.of_Z 1) now (default_ai_agent now)).1
  = replicate (k `min` 15) true ++ replicate (k - 15) false.
Proof.
  change (default_ai_agent now) with (holding (Z.of_nat 15) now).
  by rewrite consumes_holding.
Qed.

End TokenBucketSound.

(** ** The queue: exact admission, bounds, FIFO *)
Module QueueSound.
Import DispatchQueue.

Lemma admit_frame t_new t_now subject q :
  queues (take_token t_new t_now subject q).2 = queues q /\
  capacity_per_class (take_token t_new t_now subject q).2 = capacity_per_class q.
Proof. unfold take_token. by destruct (TokenBucket.consume _ _ _). Qed.

(** What one admission attempt does with an empty or a full bucket aside: the
    subject's bucket after the attempt, and whether it had a token. *)
Definition has_token (t_new t_now : Z) (subject : string) (q : t) : bool :=
  (take_token t_new t_now subject q).1.

(** [enroll] admits an action exactly when the subject's bucket has a token,
    its class has room and, for an agent proposal, the constitutional cap is
    respected; it then appends the action to its class and touches no other
    class.  A refusal leaves every class as it was but keeps the spent token. *)
Lemma enroll_cases (t_new t_now : Z) (ctx : ActionContext.t) (subject : string) (q : t) :
  let c := ActionContext.queue_class ctx in
  let '(r, q') := enroll t_new t_now ctx subject q in
  rate_limiters q' = rate_limiters (take_token t_new t_now subject q).2 /\
  capacity_per_class q' = capacity_per_class q /\
  (r = Ok ctx <->
     has_token t_new t_now subject q = true /\ (depth c q + 1 <= capacity_of c q)%Z /\
     (c = QueueClass.AgentProposal -> over_agent_cap q = false)) /\
  (r = Err (RuntimeError.RateLimited subject) <-> has_token t_new t_now subject q = false) /\
  (r = Ok ctx -> queues q' = <[c := default [] (queues q !! c) ++ [ctx]]> (queues q)) /\
  (r <> Ok ctx -> queues q' = queues q).
Proof.
  destruct (admit_frame t_new t_now subject q) as [Hq Hc].
  unfold enroll, has_token. destruct (take_token t_new t_now subject q) as [[] q0] eqn:E; simpl in *.
  - assert (capacity_of (ActionContext.queue_class ctx) q0
            = capacity_of (ActionContext.queue_class ctx) q) as -> by (unfold capacity_of; by rewrite Hc).
    assert (depth (ActionContext.queue_class ctx) q0
            = depth (ActionContext.queue_class ctx) q) as -> by (unfold depth; by rewrite Hq).
    assert (over_agent_cap q0 = over_agent_cap q) as ->.
    { unfold over_agent_cap, depth, total_capacity. by rewrite Hq, Hc. }
    destruct (_ <? _)%Z eqn:Ed; simpl; bool_to_prop.
    + split_and!; try done; split; try done; try lia.
    + case_bool_decide as Ea; simpl; [destruct (over_agent_cap q) eqn:Eo|]; simpl;
        rewrite ?Hq; split_and!; try done; split; try done; try lia; naive_solver.
  - split_and!; try done; split; try done; naive_solver.
Qed.

(** Depths within capacity, agent proposals within half of all capacity. *)
Definition bounded (q : t) : Prop :=
  (forall c, depth c q <= Z.max 0 (capacity_of c q))%Z /\
  (usize_saturating_mul (depth QueueClass.AgentProposal q) AGENT_PROPOSAL_CAP_DEN
     <= Z.max 0 (total_capacity q))%Z.

Lemma depth_nonneg c q : (0 <= depth c q)%Z.
Proof. unfold depth. destruct (_ !! _); lia. Qed.

Lemma depth_push ctx q c :
  depth c (push_back ctx q)
  = (depth c q + if decide (c = ActionContext.queue_class ctx) then 1 else 0)%Z.
Proof.
  unfold depth, push_back. simpl. case_decide as E.
  - rewrite E, lookup_insert_eq, length_app. simpl. destruct (_ !! _); simpl; lia.
  - rewrite lookup_insert_ne by done. destruct (_ !! _); lia.
Qed.

Lemma total_capacity_range q : (0 <= total_capacity q <= usize_max)%Z.
Proof.
  unfold total_capacity. pose proof (Z.mod_pos_bound (sum_values (capacity_per_class q))
    (usize_max + 1) ltac:(unfold usize_max; lia)). lia.
Qed.

Lemma push_bounded ctx q :
  bounded q ->
  (depth (ActionContext.queue_class ctx) q + 1 <= capacity_of (ActionContext.queue_class ctx) q)%Z ->
  (ActionContext.queue_class ctx = QueueClass.AgentProposal -> over_agent_cap q = false) ->
  bounded (push_back ctx q).
Proof.
  intros [Hd Ha] Hroom Hcap. split.
  - intros c. rewrite depth_push. change (capacity_of c (push_back ctx q)) with (capacity_of c q).
    case_decide as E; [subst c; lia|]. specialize (Hd c). lia.
  - rewrite depth_push. change (total_capacity (push_back ctx q)) with (total_capacity q).
    case_decide as E.
    + specialize (Hcap (eq_sym E)). unfold over_agent_cap in Hcap. bool_to_prop.
      pose proof (total_capacity_range q).
      pose proof (depth_nonneg QueueClass.AgentProposal q).
      unfold usize_saturating_mul, usize_saturating_add, AGENT_PROPOSAL_CAP_NUM,
        AGENT_PROPOSAL_CAP_DEN in *. lia.
    + by rewrite Z.add_0_r.
Qed.

Lemma enroll_bounded t_new t_now ctx subject q :
  bounded q -> bounded (enroll t_new t_now ctx subject q).2.
Proof.
  intros Hb. unfold enroll.
  destruct (admit_frame t_new t_now subject q) as [Hq Hc].
  destruct (take_token t_new t_now subject q) as [adm q0]; simpl in *.
  assert (bounded q0) as Hb0.
  { unfold bounded, depth, capacity_of, total_capacity in *. by rewrite Hq, Hc. }
  destruct adm; simpl; [|done]. destruct (_ <? _)%Z eqn:Ed; simpl; [done|]. bool_to_prop.
  case_bool_decide as Ea; simpl; [destruct (over_agent_cap q0) eqn:Eo; simpl; [done|]|].
  - by apply push_bounded.
  - by apply push_bounded.
Qed.

Lemma dequeue_bounded c q : bounded q -> bounded (dequeue c q).2.
Proof.
  intros [Hd Ha]. unfold dequeue. destruct (queues q !! c) as [[|x l]|] eqn:E; simpl; try done.
  assert (forall c', (depth c' (with_queues (<[c:=l]> (queues q)) q) <= depth c' q)%Z) as Hle.
  { intros c'. unfold depth. simpl. destruct (decide (c = c')) as [->|Hne].
    - rewrite lookup_insert_eq, E. simpl. lia.
    - by rewrite lookup_insert_ne. }
  split.
  - intros c'. specialize (Hle c'). specialize (Hd c').
    change (capacity_of c' _) with (capacity_of c' q). lia.
  - specialize (Hle QueueClass.AgentProposal). change (total_capacity _) with (total_capacity q).
    unfold usize_saturating_mul, AGENT_PROPOSAL_CAP_DEN in *. lia.
Qed.

(** In every run of the queue from its construction, whatever the operator's
    capacities, no class holds more than its capacity and twice the number of
    queued agent proposals never exceeds the total capacity (up to the
    saturation of [usize]). *)
Theorem queue_stays_bounded (capacities : gmap QueueClass.t Z) (q : t) :
  rtc step (new_with_capacities capacities) q ->
  (forall c, depth c q <= Z.max 0 (capacity_of c q))%Z /\
  (usize_saturating_mul (depth QueueClass.AgentProposal q) 2 <= total_capacity q)%Z /\
  capacity_per_class q = capacities.
Proof.
  intros H. cut (bounded q /\ capacity_per_class q = capacities).
  { intros [[? Ha] ?]. pose proof (total_capacity_range q).
    split_and!; try done. unfold AGENT_PROPOSAL_CAP_DEN in Ha. lia. }
  revert H. apply (rtc_invariant step (fun q => bounded q /\ capacity_per_class q = capacities)).
  - intros y z Hs [Hb Hc]. destruct Hs as [t_new t_now ctx subject y|c y].
    + split; [by apply enroll_bounded|].
      pose proof (enroll_cases t_new t_now ctx subject y) as He. simpl in He.
      destruct (enroll _ _ _ _ _) as [r q']. simpl. by destruct He as (_ & -> & _).
    + split; [by apply dequeue_bounded|]. unfold dequeue. by run.
  - split; [|done]. split.
    + intros c. assert (depth c (new_with_capacities capacities) = 0%Z) as -> by (by destruct c).
      lia.
    + change (depth QueueClass.AgentProposal (new_with_capacities capacities)) with 0%Z.
      unfold usize_saturating_mul. lia.
Qed.

Definition tiny : gmap QueueClass.t Z := {[ QueueClass.Interactive := 1%Z ]}.

Lemma queue_stays_bounded_witness :
  rtc step (new_with_capacities tiny)
    (enroll 0 0 (fresh_context "act_1" 0) "human:ana" (new_with_capacities tiny)).2 /\
  (depth QueueClass.Interactive
     (enroll 0 0 (fresh_context "act_1" 0) "human:ana" (new_with_capacities tiny)).2 <= 1)%Z.
Proof.
  assert (rtc step (new_with_capacities tiny)
    (enroll 0 0 (fresh_context "act_1" 0) "human:ana" (new_with_capacities tiny)).2) as H
    by (apply rtc_once; constructor).
  split; [exact H|].
  destruct (queue_stays_bounded tiny _ H) as [Hd _].
  exact (Hd QueueClass.Interactive).
Defined.

(** Refinement to one FIFO list per class. *)
Definition fifo (q : t) (c : QueueClass.t) : list ActionContext.t := default [] (queues q !! c).

Inductive fifo_step (f g : QueueClass.t -> list ActionContext.t) : Prop :=
| fifo_stay : (forall c, g c = f c) -> fifo_step f g
| fifo_push ctx :
    (forall c, g c = f c ++ if decide (c = ActionContext.queue_class ctx) then [ctx] else []) ->
    fifo_step f g
| fifo_pop ctx c0 :
    (forall c, f c = (if decide (c = c0) then [ctx] else []) ++ g c) -> fifo_step f g.

Lemma enroll_ok_ctx t_new t_now ctx subject q a :
  (enroll t_new t_now ctx subject q).1 = Ok a -> a = ctx.
Proof. unfold enroll. intros. run; done. Qed.

Lemma fifo_insert q c l c' :
  fifo (with_queues (<[c := l]> (queues q)) q) c' = if decide (c' = c) then l else fifo q c'.
Proof.
  unfold fifo. simpl. case_decide as E; [by rewrite E, lookup_insert_eq|].
  by rewrite lookup_insert_ne.
Qed.

(** The queue implements the per-class FIFO: each operation pushes one action at
    the back of its own class, pops the front of one class, or does nothing. *)
Theorem queue_refines_fifo (q q' : t) : step q q' -> fifo_step (fifo q) (fifo q').
Proof.
  intros [t_new t_now ctx subject y|c y].
  - pose proof (enroll_cases t_new t_now ctx subject y) as He. simpl in He.
    pose proof (enroll_ok_ctx t_new t_now ctx subject y) as Ha.
    destruct (enroll _ _ _ _ _) as [r z]. simpl in *. destruct He as (_ & _ & _ & _ & Hok & Hno).
    destruct r as [a|e].
    + rewrite (Ha a eq_refl) in Hok. apply (fifo_push _ _ ctx). intros c.
      unfold fifo. rewrite Hok by done. case_decide as E.
      * by rewrite E, lookup_insert_eq.
      * by rewrite lookup_insert_ne, app_nil_r.
    + apply fifo_stay. intros c. unfold fifo. by rewrite Hno.
  - unfold dequeue. destruct (queues y !! c) as [[|x l]|] eqn:E; simpl; try by apply fifo_stay.
    apply (fifo_pop _ _ x c). intros c'. rewrite fifo_insert.
    case_decide as E'; [|done]. subst c'. unfold fifo. by rewrite E.
Qed.

End QueueSound.
