(* ===== verification/Adapters.v ===== *)
(** * Adapter manifests and the adapter registry (crate [aios-capability-runtime])

    [adapter_manifest.rs], [adapter_handle.rs] and [adapter_registry.rs].
    Ed25519 is the class [Primitives]; the text [serde_json] writes for the
    signed body and the iteration order of the [HashMap] are variables. *)
From S2P Require Import Prelude Json Action Records Redaction Receipt ChainSound Lifecycle.

(** ** Manifests *)
Module AdapterActionDeclaration.
Record t : Type := {
  action_kind : string;
  target_schema : json;
  response_schema : json;
  rollback_strategy : string;
  timeout_seconds : Z;
  template_string : option string;
  template_substitution_variables : list string;
}.

(** Its serde form: absent members are skipped. *)
Definition to_json (d : t) : json :=
  JObject ([("action_kind", JString (action_kind d)); ("target_schema", target_schema d);
            ("response_schema", response_schema d);
            ("rollback_strategy", JString (rollback_strategy d));
            ("timeout_seconds", JInt (timeout_seconds d))]
           ++ match template_string d with
              | Some s => [("template_string", JString s)] | None => [] end
           ++ match template_substitution_variables d with
              | [] => []
              | vs => [("template_substitution_variables", JArray (JString <$> vs))]
              end).
End AdapterActionDeclaration.

Module AdapterManifest.
Record t : Type := {
  adapter_id : string;
  adapter_version : string;
  vendor : string;
  name : string;
  declared_stability : AdapterStability.t;
  io_mode : AdapterIOMode.t;
  dispatch_kind : ActionDispatchKind.t;
  declared_actions : list AdapterActionDeclaration.t;
  declared_invariants_supported : list string;
  default_adapter_timeout_seconds : Z;
  default_sandbox_profile_id : string;
  adapter_signature : string;
  signing_key_id : string;
  manifest_created_at : DateTime;
  manifest_expires_at : DateTime;
}.

(** [SignedManifestBody]: the members the signature covers. *)
Definition signed_body (m : t) : json :=
  JObject [("adapter_id", JString (adapter_id m));
           ("adapter_version", JString (adapter_version m));
           ("vendor", JString (vendor m)); ("name", JString (name m));
           ("declared_stability", JString (AdapterStability.wire (declared_stability m)));
           ("io_mode", JString (AdapterIOMode.wire (io_mode m)));
           ("dispatch_kind", JString (ActionDispatchKind.wire (dispatch_kind m)));
           ("declared_actions", JArray (AdapterActionDeclaration.to_json <$> declared_actions m));
           ("declared_invariants_supported",
              JArray (JString <$> declared_invariants_supported m));
           ("default_adapter_timeout_seconds", JInt (default_adapter_timeout_seconds m));
           ("default_sandbox_profile_id", JString (default_sandbox_profile_id m))].

(** Does the manifest declare the action kind? *)
Definition declares (kind : string) (m : t) : bool :=
  existsb (fun d => String.eqb (AdapterActionDeclaration.action_kind d) kind) (declared_actions m).
End AdapterManifest.

(** ** Hex signatures *)
Definition manifest_hex_nibble (a : Ascii.ascii) : option Z :=
  let c := Z.of_N (Ascii.N_of_ascii a) in
  if ((48 <=? c) && (c <=? 57))%Z then Some (c - 48)%Z
  else if ((97 <=? c) && (c <=? 102))%Z then Some (c - 97 + 10)%Z
  else None.

Fixpoint decode_hex_pairs (s : string) : option (list Z) :=
  match s with
  | String c0 (String c1 s) =>
      hi ← manifest_hex_nibble c0;
      lo ← manifest_hex_nibble c1;
      rest ← decode_hex_pairs s;
      Some (Z.lor (Z.shiftl hi 4) lo :: rest)
  | _ => Some []
  end.

Definition decode_hex_signature (hex_lower : string) : option (list Z) :=
  if negb (Nat.eqb (String.length hex_lower) 128) then None else decode_hex_pairs hex_lower.

(** [encode_hex_signature] writes the two nibbles of each byte. *)
Definition encode_hex_signature (sig : list Z) : string := encode_signature_hex sig.

(** ** The registry *)
Module Registry.
Section Ops.
Context `{Primitives}.
Variable serde_json_to_vec : json -> result string string.

Record RegisteredAdapter : Type := {
  manifest : AdapterManifest.t;
  registered_at : DateTime;
}.

Record t : Type := {
  trusted_authorities : gmap string VerifyingKey;
  adapters : gmap string RegisteredAdapter;
}.

Variable values : gmap string RegisteredAdapter -> list RegisteredAdapter.

Definition new (trusted : gmap string VerifyingKey) : t :=
  {| trusted_authorities := trusted; adapters := ∅ |}.

Definition empty : t := new ∅.

Definition trusts_authority (key : string) (g : t) : bool :=
  is_some (trusted_authorities g !! key).

Definition canonical_signed_manifest_bytes (m : AdapterManifest.t)
    : result RuntimeError.t string :=
  map_err (fun e => RuntimeError.ManifestInvalid ("signed-body serialise: " +:+ e))
    (serde_json_to_vec (AdapterManifest.signed_body m)).

Definition with_adapters (a : gmap string RegisteredAdapter) (g : t) : t :=
  {| trusted_authorities := trusted_authorities g; adapters := a |}.

(** Steps 1 to 3 of [register]: authority, hex, signature. *)
Definition authenticate (m : AdapterManifest.t) (g : t) : result RuntimeError.t unit :=
  let? key := ok_or (trusted_authorities g !! AdapterManifest.signing_key_id m)
                (RuntimeError.AdapterUnknownAuthority (AdapterManifest.signing_key_id m)) in
  let? sig := ok_or (decode_hex_signature (AdapterManifest.adapter_signature m))
                RuntimeError.AdapterSignatureInvalid in
  let? body := canonical_signed_manifest_bytes m in
  if verify key body sig then Ok () else Err RuntimeError.AdapterSignatureInvalid.

Definition register (m : AdapterManifest.t) (now : DateTime) (g : t)
    : result RuntimeError.t t :=
  let? _ := authenticate m g in
  if is_some (adapters g !! AdapterManifest.adapter_id m)
  then Err (RuntimeError.AdapterAlreadyRegistered (AdapterManifest.adapter_id m))
  else Ok (with_adapters
             (<[AdapterManifest.adapter_id m := {| manifest := m; registered_at := now |}]>
                (adapters g)) g).

Definition not_retired (r : RegisteredAdapter) : bool :=
  negb (bool_decide (AdapterManifest.declared_stability (manifest r) = AdapterStability.Retired)).

Definition lookup_by_id (id : string) (g : t) : option RegisteredAdapter :=
  match adapters g !! id with
  | Some r => if not_retired r then Some r else None
  | None => None
  end.

Definition lookup_for_target (target : string) (g : t) : option RegisteredAdapter :=
  iter_find (fun r => not_retired r && AdapterManifest.declares target (manifest r))
    (values (adapters g)).

Definition list_ (g : t) : list RegisteredAdapter := values (adapters g).
Definition len (g : t) : nat := size (adapters g).

(** [prune_expired] keeps what expires after [now] and reports how many it
    removed. *)
Definition prune_expired (now : DateTime) (g : t) : nat * t :=
  let kept := filter (fun kv => (now < AdapterManifest.manifest_expires_at (manifest kv.2))%Z)
                (adapters g) in
  (size (adapters g) - size kept, with_adapters kept g).

(** The synchronous trait lookup ([AdapterRegistry::lookup]): [unlocked] says
    whether [try_read] got the lock; the handle is the adapter's manifest, of
    which the trait exposes the dispatch kind. *)
Definition lookup (unlocked : bool) (kind : string) (g : t) : option AdapterManifest.t :=
  if unlocked then manifest <$> lookup_for_target kind g else None.

(** [AdapterHandle::dispatch_kind] of [RealAdapterHandle]. *)
Definition handle_dispatch_kind (m : AdapterManifest.t) : ActionDispatchKind.t :=
  AdapterManifest.dispatch_kind m.

(** A run of the registry. *)
Inductive step : t -> t -> Prop :=
| step_register m now g g' : register m now g = Ok g' -> step g g'
| step_prune now g : step g (prune_expired now g).2.

(** What an accepted manifest has: a trusted key whose signature covers the
    body. *)
Definition authentic (trusted : gmap string VerifyingKey) (m : AdapterManifest.t) : Prop :=
  exists key sig body,
    trusted !! AdapterManifest.signing_key_id m = Some key /\
    decode_hex_signature (AdapterManifest.adapter_signature m) = Some sig /\
    serde_json_to_vec (AdapterManifest.signed_body m) = Ok body /\
    verify key body sig = true.

Lemma authenticate_ok m g :
  authenticate m g = Ok () <-> authentic (trusted_authorities g) m.
Proof.
  unfold authenticate, authentic, canonical_signed_manifest_bytes. split.
  - intros Ha. apply result_bind_ok in Ha as (key & Hk%ok_or_ok & Ha).
    apply result_bind_ok in Ha as (sig & Hs%ok_or_ok & Ha).
    apply result_bind_ok in Ha as (body & Hb & Ha).
    destruct (serde_json_to_vec _) as [b|e] eqn:Eb; simpl in Hb; [|done]. injection Hb as ->.
    destruct (verify key body sig) eqn:Ev; [|done]. by exists key, sig, body.
  - intros (key & sig & body & -> & -> & -> & Hv). simpl. by rewrite Hv.
Qed.

Lemma register_ok m now g g' :
  register m now g = Ok g' <->
  authentic (trusted_authorities g) m /\ adapters g !! AdapterManifest.adapter_id m = None /\
  g' = with_adapters (<[AdapterManifest.adapter_id m := {| manifest := m; registered_at := now |}]>
                        (adapters g)) g.
Proof.
  unfold register. rewrite result_bind_ok. split.
  - intros ([] & Ha%authenticate_ok & Hr). destruct (adapters g !! _) eqn:E; simpl in Hr; [done|].
    injection Hr as <-. done.
  - intros (Ha & E & ->). exists (). split; [by apply authenticate_ok|]. by rewrite E.
Qed.

(** Invariant: entries sit under their own identifier and are authentic. *)
Definition wf (g : t) : Prop :=
  forall id r, adapters g !! id = Some r ->
    AdapterManifest.adapter_id (manifest r) = id /\
    authentic (trusted_authorities g) (manifest r).

Lemma registry_step_wf g g' :
  step g g' -> wf g -> wf g' /\ trusted_authorities g' = trusted_authorities g.
Proof.
  intros [m now g0 g0' Hr|now g0] Hwf.
  - apply register_ok in Hr as (Ha & _ & ->). split; [|done]. intros id r.
    unfold with_adapters. simpl.
    destruct (decide (AdapterManifest.adapter_id m = id)) as [<-|Hne].
    + rewrite lookup_insert_eq. intros [= <-]. done.
    + rewrite lookup_insert_ne by done. apply Hwf.
  - split; [|done]. intros id r. simpl. rewrite map_lookup_filter_Some. intros [Hl _]. by apply Hwf.
Qed.

(** In every run of the registry from its construction, each adapter a
    lookup by id or by action kind can return is stored under its own id, is
    not retired, and carries a signature of its signed body by an authority the
    registry was built with. *)
Theorem lookups_are_authentic (trusted : gmap string VerifyingKey) (g : t)
    (r : RegisteredAdapter) (q : string) :
  (forall m, values m ≡ₚ (map_to_list m).*2) ->
  rtc step (new trusted) g ->
  lookup_by_id q g = Some r \/ lookup_for_target q g = Some r ->
  adapters g !! AdapterManifest.adapter_id (manifest r) = Some r /\
  AdapterManifest.declared_stability (manifest r) <> AdapterStability.Retired /\
  authentic trusted (manifest r).
Proof.
  intros Hval Hrun Hl.
  assert (wf g /\ trusted_authorities g = trusted) as [Hwf <-].
  { revert Hrun.
    apply (rtc_invariant step (fun g => wf g /\ trusted_authorities g = trusted)).
    - intros a b Hs [Ha <-]. by apply registry_step_wf.
    - split; [|done]. by intros id r'. }
  assert (exists id, adapters g !! id = Some r /\ not_retired r = true) as (id & Hr & Hn).
  { destruct Hl as [Hl|Hl].
    - unfold lookup_by_id in Hl. run. eauto.
    - apply iter_find_Some in Hl as [Hin Hp]. bool_to_prop.
      rewrite Hval in Hin. apply list_elem_of_fmap in Hin as ([id r'] & -> & Hin).
      apply elem_of_map_to_list in Hin. eauto. }
  destruct (Hwf id r Hr) as [-> Ha]. split_and!; [done| |done].
  unfold not_retired in Hn. by bool_to_prop.
Qed.

(** A lookup by action kind finds an adapter exactly when one that is not
    retired declares the kind. *)
Theorem lookup_for_target_complete (kind : string) (g : t) :
  (forall m, values m ≡ₚ (map_to_list m).*2) ->
  lookup_for_target kind g = None <->
  forall id r, adapters g !! id = Some r -> not_retired r = true ->
    AdapterManifest.declares kind (manifest r) = false.
Proof.
  intros Hval. unfold lookup_for_target. rewrite iter_find_None. split.
  - intros Hn id r Hr Hnr. specialize (Hn r). rewrite Hnr in Hn. apply Hn.
    rewrite Hval. apply list_elem_of_fmap. exists (id, r). split; [done|].
    by apply elem_of_map_to_list.
  - intros Hn r Hin. rewrite Hval in Hin. apply list_elem_of_fmap in Hin as ([id r'] & -> & Hin).
    apply elem_of_map_to_list in Hin. simpl. destruct (not_retired r') eqn:E; [|done].
    by apply (Hn id).
Qed.

(** The same manifest with other validity dates. *)
Definition redate (created expires : DateTime) (m : AdapterManifest.t) : AdapterManifest.t :=
  {| AdapterManifest.adapter_id := AdapterManifest.adapter_id m;
     AdapterManifest.adapter_version := AdapterManifest.adapter_version m;
     AdapterManifest.vendor := AdapterManifest.vendor m;
     AdapterManifest.name := AdapterManifest.name m;
     AdapterManifest.declared_stability := AdapterManifest.declared_stability m;
     AdapterManifest.io_mode := AdapterManifest.io_mode m;
     AdapterManifest.dispatch_kind := AdapterManifest.dispatch_kind m;
     AdapterManifest.declared_actions := AdapterManifest.declared_actions m;
     AdapterManifest.declared_invariants_supported := AdapterManifest.declared_invariants_supported m;
     AdapterManifest.default_adapter_timeout_seconds := AdapterManifest.default_adapter_timeout_seconds m;
     AdapterManifest.default_sandbox_profile_id := AdapterManifest.default_sandbox_profile_id m;
     AdapterManifest.adapter_signature := AdapterManifest.adapter_signature m;
     AdapterManifest.signing_key_id := AdapterManifest.signing_key_id m;
     AdapterManifest.manifest_created_at := created;
     AdapterManifest.manifest_expires_at := expires |}.

Lemma redate_authentic trusted c e m : authentic trusted (redate c e m) <-> authentic trusted m.
Proof. done. Qed.

(** The signature of a manifest does not cover its validity: whoever holds an
    accepted manifest can register it with any other dates under the same
    signature, and [prune_expired] keeps it for as long as the forged date
    says.  (Nor does [register] look at the dates at all.) *)
Theorem manifest_expiry_is_unsigned (m : AdapterManifest.t) (now : DateTime) (g g' : t)
    (created expires : DateTime) :
  register m now g = Ok g' ->
  exists forged,
    register (redate created expires m) now g = Ok forged /\
    forall later, (later < expires)%Z ->
      adapters (prune_expired later forged).2 !! AdapterManifest.adapter_id m
      = Some {| manifest := redate created expires m; registered_at := now |}.
Proof.
  intros (Ha & Hn & _)%register_ok.
  exists (with_adapters (<[AdapterManifest.adapter_id m :=
     {| manifest := redate created expires m; registered_at := now |}]> (adapters g)) g).
  split; [by apply register_ok|]. intros later Hl. simpl. apply map_lookup_filter_Some.
  by rewrite lookup_insert_eq.
Qed.

(** [prune_expired] removes exactly the adapters whose manifest has expired, and
    reports their number. *)
Theorem prune_expired_exact (now : DateTime) (g : t) :
  let '(n, g') := prune_expired now g in
  (forall id r, adapters g' !! id = Some r <->
     adapters g !! id = Some r /\ (now < AdapterManifest.manifest_expires_at (manifest r))%Z) /\
  n + size (adapters g') = size (adapters g).
Proof.
  simpl. split; [intros; apply map_lookup_filter_Some|].
  assert (size (filter (fun kv : string * RegisteredAdapter =>
    (now < AdapterManifest.manifest_expires_at (manifest kv.2))%Z) (adapters g))
    <= size (adapters g)) by (apply map_subseteq_size, map_filter_subseteq).
  lia.
Qed.
End Ops.
End Registry.

(** *** A registry with one authority *)
Module RegistryDemo.
Import Demo Registry.

Definition key_order {A} (m : gmap string A) : list A := (map_to_list m).*2.
Definition demo_text (v : json) : result string string :=
  match v with JObject m => Ok (pretty (length m)) | _ => Ok "v" end.

Definition demo_declaration (kind strategy : string) : AdapterActionDeclaration.t :=
  {| AdapterActionDeclaration.action_kind := kind;
     AdapterActionDeclaration.target_schema := JNull;
     AdapterActionDeclaration.response_schema := JNull;
     AdapterActionDeclaration.rollback_strategy := strategy;
     AdapterActionDeclaration.timeout_seconds := 30;
     AdapterActionDeclaration.template_string := None;
     AdapterActionDeclaration.template_substitution_variables := [] |}.

Definition demo_manifest (st : AdapterStability.t) (k : ActionDispatchKind.t)
    (kind strategy : string) : AdapterManifest.t :=
  {| AdapterManifest.adapter_id := "adapter:" +:+ kind;
     AdapterManifest.adapter_version := "1.0.0"; AdapterManifest.vendor := "aios";
     AdapterManifest.name := kind; AdapterManifest.declared_stability := st;
     AdapterManifest.io_mode := AdapterIOMode.TypedParametersOnly;
     AdapterManifest.dispatch_kind := k;
     AdapterManifest.declared_actions := [demo_declaration kind strategy];
     AdapterManifest.declared_invariants_supported := [];
     AdapterManifest.default_adapter_timeout_seconds := 30;
     AdapterManifest.default_sandbox_profile_id := "sbx";
     AdapterManifest.adapter_signature :=
       encode_hex_signature (Demo.demo_sign 7 "11");
     AdapterManifest.signing_key_id := "authority-1";
     AdapterManifest.manifest_created_at := 0;
     AdapterManifest.manifest_expires_at := 100 |}.

Definition demo_trusted : gmap string VerifyingKey := {[ "authority-1" := 7%Z ]}.
Definition demo_registry : t := new demo_trusted.

Definition demo_registered (m : AdapterManifest.t) : t :=
  match register demo_text m 10 demo_registry with Ok g => g | Err _ => demo_registry end.

Definition restart_manifest : AdapterManifest.t :=
  demo_manifest AdapterStability.Stable ActionDispatchKind.InProcessRpc "service.restart"
    "IDEMPOTENT_REVERSE".

Lemma restart_registers :
  register demo_text restart_manifest 10 demo_registry = Ok (demo_registered restart_manifest).
Proof.
  assert (is_ok (register demo_text restart_manifest 10 demo_registry) = true) as E
    by (vm_compute; reflexivity).
  unfold demo_registered. by destruct (register _ _ _ _).
Qed.

Lemma lookups_are_authentic_witness :
  lookup_for_target key_order "service.restart" (demo_registered restart_manifest)
    = Some {| manifest := restart_manifest; registered_at := 10 |} /\
  authentic demo_text demo_trusted restart_manifest.
Proof.
  assert (lookup_for_target key_order "service.restart" (demo_registered restart_manifest)
    = Some {| manifest := restart_manifest; registered_at := 10 |}) as Hl
    by (vm_compute; reflexivity).
  split; [exact Hl|].
  apply (lookups_are_authentic demo_text key_order demo_trusted
    (demo_registered restart_manifest) {| manifest := restart_manifest; registered_at := 10 |}
    "service.restart").
  - intros m. unfold key_order. done.
  - apply rtc_once. apply (step_register demo_text _ _ _ _ restart_registers).
  - right. exact Hl.
Defined.

Lemma manifest_expiry_is_unsigned_witness :
  exists forged,
    register demo_text (redate 0 1000000 restart_manifest) 10 demo_registry = Ok forged /\
    forall later, (later < 1000000)%Z ->
      adapters (prune_expired later forged).2 !! "adapter:service.restart"
      = Some {| manifest := redate 0 1000000 restart_manifest; registered_at := 10 |}.
Proof.
  exact (manifest_expiry_is_unsigned demo_text restart_manifest 10 demo_registry
           (demo_registered restart_manifest) 0 1000000 restart_registers).
Defined.
End RegistryDemo.
