(* ===== verification/Approvals.v ===== *)
(** * Approval bindings (crate [aios-capability-runtime])

    [approval.rs]: requests and bindings; [approval_sink.rs]: the trait
    [ApprovalBindingSink] as a class with what the runtime relies on of it, and
    the in-memory sink.  The clock readings and the fresh binding identifier
    are arguments. *)
From S2P Require Import Prelude Action PolicyTypes Lifecycle.

Module ApprovalBindingState.

Inductive t : Type := Pending | Granted | Consumed | Denied | Expired.

#[global] Instance t_eq_dec : EqDecision t.
Proof. solve_decision. Defined.

Definition is_terminal (s : t) : bool :=
  match s with Consumed | Denied | Expired => true | _ => false end.

End ApprovalBindingState.

Module ApprovalRequest.
Record t : Type := {
  request_id : string;
  action_id : string;
  requirement : ApprovalRequirement;
  proposing_subject_id : string;
  proposing_subject_is_ai : bool;
  bound_action_canonical_hash : string;
  requested_at : DateTime;
}.
End ApprovalRequest.

Module ApprovalBinding.
Record t : Type := {
  binding_id : string;
  request_id : string;
  action_id : string;
  granted_by : string;
  granted_by_class : ApproverClass.t;
  granted_at : DateTime;
  expires_at : DateTime;
  bound_action_canonical_hash : string;
  signature_ed25519 : list Z;
  state : ApprovalBindingState.t;
}.

Definition is_consumable (b : t) : bool :=
  match state b with ApprovalBindingState.Granted => true | _ => false end.

Definition set_state (s : ApprovalBindingState.t) (b : t) : t :=
  {| binding_id := binding_id b; request_id := request_id b; action_id := action_id b;
     granted_by := granted_by b; granted_by_class := granted_by_class b;
     granted_at := granted_at b; expires_at := expires_at b;
     bound_action_canonical_hash := bound_action_canonical_hash b;
     signature_ed25519 := signature_ed25519 b; state := s |}.

Definition set_expires_at (e : DateTime) (b : t) : t :=
  {| binding_id := binding_id b; request_id := request_id b; action_id := action_id b;
     granted_by := granted_by b; granted_by_class := granted_by_class b;
     granted_at := granted_at b; expires_at := e;
     bound_action_canonical_hash := bound_action_canonical_hash b;
     signature_ed25519 := signature_ed25519 b; state := state b |}.
End ApprovalBinding.

(** ** The interface *)
Class ApprovalBindingSink (A : Type) := {
  submit_request : ApprovalRequest.t -> A -> result RuntimeError.t () * A;
  poll_state : string -> A -> result RuntimeError.t ApprovalBindingState.t;
  consume_binding : DateTime -> string -> A -> result RuntimeError.t ApprovalBinding.t * A;
}.

(** What the runtime relies on: a successful consumption was of a granted,
    unexpired binding and uses it up, and nothing else touches a binding. *)
Class ApprovalBindingSinkLaws (A : Type) `{ApprovalBindingSink A} := {
  binding_of : string -> A -> option ApprovalBinding.t;
  consume_ok now id s b s' :
    consume_binding now id s = (Ok b, s') ->
    exists b0, binding_of id s = Some b0 /\
      ApprovalBinding.state b0 = ApprovalBindingState.Granted /\
      (now < ApprovalBinding.expires_at b0)%Z /\
      b = ApprovalBinding.set_state ApprovalBindingState.Consumed b0 /\
      binding_of id s' = Some b;
  consume_other now id s id' :
    id <> id' -> binding_of id' (consume_binding now id s).2 = binding_of id' s;
  submit_keeps r s id : binding_of id (submit_request r s).2 = binding_of id s;
}.

(** ** The in-memory sink *)
Module InMemoryApprovalSink.

Record t : Type := {
  requests : gmap string ApprovalRequest.t;
  bindings : gmap string ApprovalBinding.t;
  request_to_binding : gmap string string;
}.

Definition new : t := {| requests := ∅; bindings := ∅; request_to_binding := ∅ |}.

Definition with_bindings (m : gmap string ApprovalBinding.t) (s : t) : t :=
  {| requests := requests s; bindings := m; request_to_binding := request_to_binding s |}.

(** [get_mut(binding_id)] followed by an assignment. *)
Definition update_binding (id : string) (f : ApprovalBinding.t -> ApprovalBinding.t) (s : t) : t :=
  with_bindings (alter f id (bindings s)) s.

Definition submit_request (r : ApprovalRequest.t) (s : t) : result RuntimeError.t () * t :=
  (Ok (), {| requests := <[ApprovalRequest.request_id r := r]> (requests s);
             bindings := bindings s; request_to_binding := request_to_binding s |}).

Definition poll_state (id : string) (s : t) : result RuntimeError.t ApprovalBindingState.t :=
  if negb (is_some (requests s !! id)) then Err (RuntimeError.ApprovalRequestNotFound id)
  else Ok match request_to_binding s !! id with
          | None => ApprovalBindingState.Pending
          | Some bid => match bindings s !! bid with
                        | None => ApprovalBindingState.Pending
                        | Some b => ApprovalBinding.state b
                        end
          end.

Definition consume_binding (now : DateTime) (id : string) (s : t)
    : result RuntimeError.t ApprovalBinding.t * t :=
  match bindings s !! id with
  | None => (Err (RuntimeError.ApprovalBindingInvalid id), s)
  | Some b =>
      match ApprovalBinding.state b with
      | ApprovalBindingState.Pending =>
          (Err (RuntimeError.ApprovalBindingInvalid
                  ("binding " +:+ id +:+ " is not yet GRANTED (state = PENDING)")), s)
      | ApprovalBindingState.Consumed => (Err RuntimeError.ApprovalBindingConsumed, s)
      | ApprovalBindingState.Denied =>
          (Err (RuntimeError.ApprovalBindingInvalid ("binding " +:+ id +:+ " is DENIED")), s)
      | ApprovalBindingState.Expired => (Err RuntimeError.ApprovalBindingExpired, s)
      | ApprovalBindingState.Granted =>
          if (ApprovalBinding.expires_at b <=? now)%Z
          then (Err RuntimeError.ApprovalBindingExpired,
                update_binding id (ApprovalBinding.set_state ApprovalBindingState.Expired) s)
          else (Ok (ApprovalBinding.set_state ApprovalBindingState.Consumed b),
                update_binding id (ApprovalBinding.set_state ApprovalBindingState.Consumed) s)
      end
  end.

(** [inject_granted_binding]: how a grant enters the sink. *)
Definition inject_granted_binding (fresh : string) (now : DateTime) (request_id granted_by : string)
    (class : ApproverClass.t) (s : t) : result RuntimeError.t (ApprovalBinding.t * t) :=
  let? r := ok_or (requests s !! request_id) (RuntimeError.ApprovalRequestNotFound request_id) in
  let ttl := approval_ttl_seconds (ApprovalRequest.requirement r) in
  let ttl_seconds := if (ttl =? 0)%Z then 300%Z else ttl in
  let b := {| ApprovalBinding.binding_id := fresh; ApprovalBinding.request_id := request_id;
              ApprovalBinding.action_id := ApprovalRequest.action_id r;
              ApprovalBinding.granted_by := granted_by;
              ApprovalBinding.granted_by_class := class; ApprovalBinding.granted_at := now;
              ApprovalBinding.expires_at := (now + seconds ttl_seconds)%Z;
              ApprovalBinding.bound_action_canonical_hash :=
                ApprovalRequest.bound_action_canonical_hash r;
              ApprovalBinding.signature_ed25519 := [];
              ApprovalBinding.state := ApprovalBindingState.Granted |} in
  Ok (b, {| requests := requests s; bindings := <[fresh := b]> (bindings s);
            request_to_binding := <[request_id := fresh]> (request_to_binding s) |}).

(** The seams that force a binding into a state. *)
Definition force (id : string) (f : ApprovalBinding.t -> ApprovalBinding.t) (s : t)
    : result RuntimeError.t t :=
  let? _ := ok_or (bindings s !! id) (RuntimeError.ApprovalBindingInvalid id) in
  Ok (update_binding id f s).
Definition force_expire (now : DateTime) (id : string) : t -> result RuntimeError.t t :=
  force id (ApprovalBinding.set_expires_at (now - seconds 1)%Z).
Definition force_denied (id : string) : t -> result RuntimeError.t t :=
  force id (ApprovalBinding.set_state ApprovalBindingState.Denied).
Definition force_pending (id : string) : t -> result RuntimeError.t t :=
  force id (ApprovalBinding.set_state ApprovalBindingState.Pending).

Definition get_request (id : string) (s : t) : option ApprovalRequest.t := requests s !! id.
Definition request_count (s : t) : nat := size (requests s).
Definition binding_count (s : t) : nat := size (bindings s).

#[export] Instance sink : ApprovalBindingSink t :=
  {| Approvals.submit_request := submit_request; Approvals.poll_state := poll_state;
     Approvals.consume_binding := consume_binding |}.

Lemma consume_ok_inv now id s b s' :
  consume_binding now id s = (Ok b, s') ->
  exists b0, bindings s !! id = Some b0 /\
    ApprovalBinding.state b0 = ApprovalBindingState.Granted /\
    (now < ApprovalBinding.expires_at b0)%Z /\
    b = ApprovalBinding.set_state ApprovalBindingState.Consumed b0 /\
    s' = update_binding id (ApprovalBinding.set_state ApprovalBindingState.Consumed) s.
Proof. unfold consume_binding. intros. run. eauto 10. Qed.

#[export] Instance sink_laws : ApprovalBindingSinkLaws t.
Proof.
  refine {| binding_of id s := bindings s !! id |}.
  - intros now id s b s' (b0 & Hb & Hg & Hl & -> & ->)%consume_ok_inv.
    exists b0. split_and!; try done. simpl. by rewrite lookup_alter_eq, Hb.
  - intros now id s id' Hne. simpl. unfold consume_binding.
    repeat (case_match; simpl; try done); by rewrite lookup_alter_ne.
  - done.
Defined.

(** Runs of the sink's operations other than the forcing seams, each labelled
    with the binding it consumed, if any. *)
Inductive step : t -> option string -> t -> Prop :=
| step_submit r s : step s None (submit_request r s).2
| step_grant fresh now rid who class s b s' :
    bindings s !! fresh = None ->
    inject_granted_binding fresh now rid who class s = Ok (b, s') -> step s None s'
| step_consume now id s b s' : consume_binding now id s = (Ok b, s') -> step s (Some id) s'
| step_refuse now id s e s' : consume_binding now id s = (Err e, s') -> step s None s'.

Inductive run_of : t -> list string -> t -> Prop :=
| run_nil s : run_of s [] s
| run_cons s l s' ids s'' : step s l s' -> run_of s' ids s'' ->
    run_of s (option_list l ++ ids) s''.

(** A binding that was used up stays used up. *)
Definition spent (id : string) (s : t) : Prop :=
  exists b, bindings s !! id = Some b /\ ApprovalBindingState.is_terminal (ApprovalBinding.state b) = true.

Lemma step_spent id s l s' : step s l s' -> spent id s -> spent id s' /\ l <> Some id.
Proof.
  intros Hs (b & Hb & Ht). destruct Hs as [r s|fresh now rid who class s b' s' Hf Hi|now id' s b' s' Hc|now id' s e s' Hc].
  - split; [by exists b|done].
  - split; [|done]. unfold inject_granted_binding in Hi.
    apply result_bind_ok in Hi as (r & _ & [= <- <-]). exists b. simpl.
    rewrite lookup_insert_ne; [done|]. intros ->. congruence.
  - apply consume_ok_inv in Hc as (b0 & Hb0 & Hg & _ & _ & ->).
    destruct (decide (id' = id)) as [->|Hne].
    { assert (b0 = b) as -> by congruence. rewrite Hg in Ht. done. }
    split; [|congruence]. exists b. simpl. by rewrite lookup_alter_ne.
  - split; [|done]. unfold consume_binding in Hc.
    repeat (case_match; simplify_eq/=; try (by exists b)).
    destruct (decide (id' = id)) as [->|Hne].
    + eexists. simpl. rewrite lookup_alter_eq, Hb. by split.
    + exists b. simpl. by rewrite lookup_alter_ne.
Qed.

Lemma run_spent id s ids s' : run_of s ids s' -> spent id s -> id ∉ ids.
Proof.
  induction 1 as [s|s l s' ids s'' Hs Hr IH]; [set_solver|]. intros Hsp.
  destruct (step_spent id s l s' Hs Hsp) as [Hsp' Hne]. apply not_elem_of_app.
  split; [|auto]. destruct l as [x|]; simpl; [|set_solver].
  rewrite list_elem_of_singleton. congruence.
Qed.

Lemma consume_spends now id s b s' : consume_binding now id s = (Ok b, s') -> spent id s'.
Proof.
  intros (b0 & Hb & _ & _ & _ & ->)%consume_ok_inv. eexists. simpl.
  rewrite lookup_alter_eq, Hb. by split.
Qed.

(** An approval is single use: in every run of submissions, grants (under
    fresh binding ids) and consumption attempts, no binding is consumed twice,
    whatever the interleaving. *)
Theorem bindings_are_single_use (s s' : t) (ids : list string) : run_of s ids s' -> NoDup ids.
Proof.
  induction 1 as [s|s l s' ids s'' Hs Hr IH]; [constructor|].
  destruct l as [id|]; simpl; [|done]. constructor; [|done].
  inversion Hs; subst. eapply run_spent; [done|]. by eapply consume_spends.
Qed.

(** Exact behaviour of a consumption attempt: it succeeds exactly on a
    granted binding that has not expired, which becomes consumed; it expires a
    granted binding that has; every other attempt changes nothing. *)
Theorem consume_binding_exact (now : DateTime) (id : string) (s : t) :
  let '(r, s') := consume_binding now id s in
  ((exists b, r = Ok b) <->
     exists b, bindings s !! id = Some b /\ ApprovalBinding.is_consumable b = true /\
               (now < ApprovalBinding.expires_at b)%Z) /\
  match bindings s !! id with
  | Some b =>
      if ApprovalBinding.is_consumable b
      then s' = update_binding id (ApprovalBinding.set_state
                  (if (ApprovalBinding.expires_at b <=? now)%Z then ApprovalBindingState.Expired
                   else ApprovalBindingState.Consumed)) s
      else s' = s
  | None => s' = s
  end.
Proof.
  unfold consume_binding, ApprovalBinding.is_consumable.
  destruct (bindings s !! id) as [b|] eqn:E; [|naive_solver].
  destruct (ApprovalBinding.state b) eqn:Es; try (split; [naive_solver|done]).
  - split; [|done]. split; [naive_solver|]. intros (b' & [= <-] & Hc & _). by rewrite Es in Hc.
  - destruct (_ <=? _)%Z eqn:El; bool_to_prop; split; try done.
    + split; [naive_solver|]. intros (b' & [= <-] & _ & Hl). lia.
    + split; [|naive_solver]. intros _. exists b. by rewrite Es.
  - split; [|done]. split; [naive_solver|]. intros (b' & [= <-] & Hc & _). by rewrite Es in Hc.
  - split; [|done]. split; [naive_solver|]. intros (b' & [= <-] & Hc & _). by rewrite Es in Hc.
  - split; [|done]. split; [naive_solver|]. intros (b' & [= <-] & Hc & _). by rewrite Es in Hc.
Qed.

End InMemoryApprovalSink.
