(* ===== verification/Rollback.v ===== *)
(** * Rollback strategies and the rollback driver (crate [aios-capability-runtime])

    [rollback_strategy.rs] and [rollback.rs].  [str_debug] is the [Debug] form
    of a string, which only appears in an error text. *)
From S2P Require Import Prelude Action CondParser Lifecycle Adapters.

(** [str::trim]. *)
Definition str_trim (s : string) : string := trim_end (skip_whitespace s).

Module RollbackStrategy.

Inductive t : Type :=
| Unspecified | None_ | IdempotentReverse | CheckpointBased | ExternalRequired.

#[global] Instance t_eq_dec : EqDecision t.
Proof. solve_decision. Defined.

(** The serde wire form. *)
Definition wire (s : t) : string :=
  match s with
  | Unspecified => "ROLLBACK_STRATEGY_UNSPECIFIED" | None_ => "NONE"
  | IdempotentReverse => "IDEMPOTENT_REVERSE" | CheckpointBased => "CHECKPOINT_BASED"
  | ExternalRequired => "EXTERNAL_REQUIRED"
  end.

Section Parse.
Variable str_debug : string -> string.

Definition parse_manifest_value (raw : string) : result RuntimeError.t t :=
  let v := str_trim raw in
  if String.eqb v "" || String.eqb v "ROLLBACK_STRATEGY_UNSPECIFIED" then Ok Unspecified
  else if String.eqb v "NONE" then Ok None_
  else if String.eqb v "IDEMPOTENT_REVERSE" then Ok IdempotentReverse
  else if String.eqb v "CHECKPOINT_BASED" then Ok CheckpointBased
  else if String.eqb v "EXTERNAL_REQUIRED" then Ok ExternalRequired
  else Err (RuntimeError.ManifestInvalid ("unknown rollback_strategy: " +:+ str_debug v)).

(** The manifest token round trips through the wire form, and every accepted
    token is a wire form up to surrounding white space, or empty. *)
Theorem strategy_roundtrip :
  (forall s, parse_manifest_value (wire s) = Ok s) /\
  (forall raw s, parse_manifest_value raw = Ok s <->
     str_trim raw = wire s \/ (str_trim raw = "" /\ s = Unspecified)).
Proof.
  split; [by intros []|]. intros raw s. unfold parse_manifest_value. split.
  - intros H. destruct (_ || _) eqn:E0.
    { simplify_eq. apply orb_true_iff in E0 as [E0|E0]; apply String.eqb_eq in E0; auto. }
    clear E0. repeat (case_match; [simplify_eq; left; by apply String.eqb_eq|]). done.
  - intros [E|[E ->]]; rewrite E; [by destruct s|done].
Qed.
End Parse.

Definition admits_auto_rollback (s : t) : bool :=
  match s with IdempotentReverse | CheckpointBased | ExternalRequired => true | _ => false end.

End RollbackStrategy.

Inductive RollbackFailureMode : Type := SucceedSimulated | FailSimulated.

Module RollbackDriver.

Record t : Type := {
  failure_mode : RollbackFailureMode;
  inject_verify_failure : bool;
}.

Definition new_with_defaults : t :=
  {| failure_mode := SucceedSimulated; inject_verify_failure := false |}.

Definition with_failure_mode (m : RollbackFailureMode) (d : t) : t :=
  {| failure_mode := m; inject_verify_failure := inject_verify_failure d |}.

Definition with_inject_verify_failure (b : bool) (d : t) : t :=
  {| failure_mode := failure_mode d; inject_verify_failure := b |}.

(** [run_rollback]; the envelope, the context and the adapter are not read. *)
Definition run_rollback (strategy : RollbackStrategy.t) (d : t) : RollbackOutcome.t :=
  match strategy with
  | RollbackStrategy.None_ | RollbackStrategy.Unspecified => RollbackOutcome.NotAttempted
  | RollbackStrategy.ExternalRequired => RollbackOutcome.NotApplicable
  | RollbackStrategy.IdempotentReverse | RollbackStrategy.CheckpointBased =>
      match failure_mode d with
      | SucceedSimulated => RollbackOutcome.Succeeded
      | FailSimulated => RollbackOutcome.Failed
      end
  end.

Definition classify_terminal (o : RollbackOutcome.t) : ActionLifecycleState.t :=
  match o with
  | RollbackOutcome.Succeeded => ActionLifecycleState.RolledBack
  | RollbackOutcome.Failed => ActionLifecycleState.RollbackFailed
  | RollbackOutcome.NotAttempted | RollbackOutcome.NotApplicable => ActionLifecycleState.Failed
  end.

(** The terminal of every outcome is where the action already is, or one legal
    transition away from [Failed]; and it differs from [Failed] only under a
    strategy that admits rollback. *)
Lemma classify_terminal_legal s d :
  let o := run_rollback s d in
  (classify_terminal o = ActionLifecycleState.Failed \/
   Lifecycle.step ActionLifecycleState.Failed (classify_terminal o)) /\
  (classify_terminal o <> ActionLifecycleState.Failed ->
   RollbackStrategy.admits_auto_rollback s = true).
Proof. destruct s, d as [[] ?]; vm_compute; auto. Qed.

End RollbackDriver.
