(* ===== verification/Emit.v ===== *)
(** * Evidence emission of the Capability Runtime

    [evidence_payloads.rs]: the JSON form of each payload; [evidence_emit.rs]:
    the trait [EvidenceSink] as a class with what the runtime relies on of it,
    the in-memory sink over the receipt chain of [aios-evidence], and the
    emitter.  The emitter's operations thread the sink and report failure in
    the runtime's error type. *)
From S2P Require Import Prelude Json Action PolicyTypes CondParser Records Redaction Receipt ChainSound Lifecycle.

Definition CAPABILITY_RUNTIME_SUBJECT : string := "_system:service:capability-runtime".

(** ** The sink interface *)
Class EvidenceSink (S : Type) `{Primitives} := {
  append_signed : Receipt.ReceiptBuilder -> S -> result EvidenceError Receipt.t * S;
}.

(** What the runtime relies on: an accepted record is appended as it was built,
    a refused one leaves the log as it was. *)
Class EvidenceSinkLaws (S : Type) `{EvidenceSink S} := {
  receipts_of : S -> list Receipt.t;
  append_signed_ok b s r s' :
    append_signed b s = (Ok r, s') ->
    receipts_of s' = receipts_of s ++ [r] /\
    Receipt.record_type r = Receipt.b_record_type b /\
    Receipt.retention_class r = Receipt.b_retention_class b /\
    Receipt.action_id r = Receipt.b_action_id b;
  append_signed_err b s e s' :
    append_signed b s = (Err e, s') -> receipts_of s' = receipts_of s;
}.

(** ** The in-memory sink

    [mint] and [clock] are the identifiers and the times its successive seals
    read; [seals] counts them. *)
Module InMemoryEvidenceSink.
Section Ops.
Context `{Primitives}.

Record t : Type := {
  signing_key : SigningKey;
  chain : list Receipt.t;
  mint : nat -> string;
  clock : nat -> DateTime;
  seals : nat;
}.

Definition new (key : SigningKey) (mint : nat -> string) (clock : nat -> DateTime) : t :=
  {| signing_key := key; chain := []; mint := mint; clock := clock; seals := 0 |}.

Definition advance (rs : list Receipt.t) (s : t) : t :=
  {| signing_key := signing_key s; chain := rs; mint := mint s; clock := clock s;
     seals := S (seals s) |}.

Definition append_signed (b : Receipt.ReceiptBuilder) (s : t)
    : result EvidenceError Receipt.t * t :=
  let previous := last (chain s) in
  match Receipt.seal_signed (mint s (seals s)) (clock s (seals s)) b previous (signing_key s) with
  | Err e => (Err e, advance (chain s) s)
  | Ok receipt =>
      match ReceiptChain.append (chain s) receipt with
      | Err e => (Err e, advance (chain s) s)
      | Ok rs => (Ok receipt, advance rs s)
      end
  end.

Definition receipts (s : t) : list Receipt.t := chain s.
Definition len (s : t) : nat := length (chain s).
Definition verify_integrity (s : t) : result EvidenceError unit :=
  ReceiptChain.verify_integrity (chain s).

#[export] Instance sink : EvidenceSink t := {| Emit.append_signed := append_signed |}.
End Ops.
End InMemoryEvidenceSink.

(** ** Payloads *)
Module Payload.

Definition str (k v : string) : string * json := (k, JString v).
Definition lifecycle_after (ctx : ActionContext.t) : string * json :=
  str "lifecycle_state_after" (ActionLifecycleState.wire (ActionContext.status ctx)).
Definition optional (k : string) (o : option string) : list (string * json) :=
  match o with Some v => [str k v] | None => [] end.

Section Times.
Context `{Primitives}.

Definition ActionReceived (env : Envelope.t) (ctx : ActionContext.t) : json :=
  JObject [str "action_kind" (action (Envelope.request env));
           str "subject_canonical_id" (subject_canonical_id (Envelope.identity env));
           ("is_ai", JBool (identity_is_ai (Envelope.identity env)));
           str "received_at" (datetime_to_json (ActionContext.created_at ctx));
           lifecycle_after ctx].
End Times.

(** [format!("{:?}", d).to_uppercase()]. *)
Definition decision_token (d : Decision.t) : string :=
  match d with
  | Decision.Unspecified => "UNSPECIFIED" | Decision.Allow => "ALLOW"
  | Decision.RequireApproval => "REQUIREAPPROVAL" | Decision.Deny => "DENY"
  end.

Definition PolicyDecided (ctx : ActionContext.t) (d : PolicyDecision) : json :=
  JObject [str "policy_decision_id" (policy_decision_id d);
           str "decision" (decision_token (decision d)); str "reason_code" (reason_code d);
           str "bundle_version" (bundle_version d); lifecycle_after ctx].

Definition RoutingDecision (env : Envelope.t) (adapter_id : string) (k : ActionDispatchKind.t)
    : json :=
  JObject [str "adapter_id" adapter_id; str "action_kind" (action (Envelope.request env));
           str "dispatch_kind" (ActionDispatchKind.wire k)].

Definition ActionQueued (env : Envelope.t) (c : QueueClass.t) : json :=
  JObject [str "queue_class" (QueueClass.wire c); ("dispatched", JBool false);
           str "subject_canonical_id" (subject_canonical_id (Envelope.identity env))].

Definition ExecutionStarted (ctx : ActionContext.t) : json :=
  JObject [str "dispatch_kind" (ActionDispatchKind.wire (ActionContext.dispatch_kind ctx));
           str "queue_class" (QueueClass.wire (ActionContext.queue_class ctx))].

Definition ExecutionCompleted (ctx : ActionContext.t) (outcome : string) : json :=
  JObject [str "outcome" outcome; lifecycle_after ctx].

Definition VerificationResult (ctx : ActionContext.t) (passed : bool) : json :=
  JObject [("passed", JBool passed); lifecycle_after ctx].

Definition RollbackCompleted (ctx : ActionContext.t) (o : RollbackOutcome.t)
    (why : option ExecutionFailureReason.t) : json :=
  JObject ([str "outcome" (RollbackOutcome.wire o)]
           ++ optional "triggering_reason" (ExecutionFailureReason.wire <$> why)
           ++ [lifecycle_after ctx]).

Definition AiInteractiveQueueDowngrade (env : Envelope.t) : json :=
  JObject [str "subject_canonical_id" (subject_canonical_id (Envelope.identity env));
           str "original_queue_class" (QueueClass.wire QueueClass.Interactive);
           str "effective_queue_class" (QueueClass.wire QueueClass.AgentProposal)].

Definition ApprovalRequested (ctx : ActionContext.t) (request_id subject : string) (is_ai : bool)
    (ttl : Z) (co_signer : bool) : json :=
  JObject [str "approval_request_id" request_id; str "proposing_subject_id" subject;
           ("proposing_subject_is_ai", JBool is_ai); ("ttl_seconds", JInt ttl);
           ("require_human_co_signer", JBool co_signer); lifecycle_after ctx].

Definition ApprovalGranted (ctx : ActionContext.t) (request_id binding_id granting hash : string)
    : json :=
  JObject [str "approval_request_id" request_id; str "binding_id" binding_id;
           str "granting_subject_id" granting; str "bound_action_canonical_hash" hash;
           lifecycle_after ctx].

Definition ApprovalDenied (request_id binding_id : option string) (code message : string) : json :=
  JObject (optional "approval_request_id" request_id ++ optional "binding_id" binding_id
           ++ [str "reason_code" code; str "reason_message" message]).

End Payload.

(** ** The emitter *)
Module EvidenceEmitter.
Section Ops.
Context {S : Type} `{EvidenceSink S}.
Variable evidence_error_to_string : EvidenceError -> string.

(** An emission: the updated context, and the sink after it. *)
Definition Emission : Type := S -> result RuntimeError.t ActionContext.t * S.

Definition emit_with_retention (rt : RecordType.t) (retention : RetentionClass)
    (ctx : ActionContext.t) (payload : json) : Emission := fun s =>
  let b := Receipt.with_payload payload
             (Receipt.with_action_id (ActionContext.action_id ctx)
                (Receipt.new rt retention CAPABILITY_RUNTIME_SUBJECT)) in
  match append_signed b s with
  | (Ok r, s) => (Ok (ActionContext.push_evidence (Receipt.receipt_id r) ctx), s)
  | (Err e, s) => (Err (RuntimeError.EvidenceEmitFailed (evidence_error_to_string e)), s)
  end.

Definition emit (rt : RecordType.t) (ctx : ActionContext.t) (payload : json) : Emission :=
  emit_with_retention rt (RecordType.retention_class_for rt) ctx payload.

Definition emit_action_received (env : Envelope.t) (ctx : ActionContext.t) : Emission :=
  emit RecordType.ActionReceived ctx (Payload.ActionReceived env ctx).

Definition emit_policy_decision (ctx : ActionContext.t) (d : PolicyDecision) : Emission :=
  emit RecordType.PolicyDecision ctx (Payload.PolicyDecided ctx d).

Definition emit_routing_decision (env : Envelope.t) (ctx : ActionContext.t) (adapter_id : string)
    (k : ActionDispatchKind.t) : Emission :=
  emit RecordType.RoutingDecision ctx (Payload.RoutingDecision env adapter_id k).

Definition emit_action_queued (env : Envelope.t) (ctx : ActionContext.t) (c : QueueClass.t)
    : Emission :=
  emit RecordType.ActionDispatched ctx (Payload.ActionQueued env c).

Definition emit_execution_started (ctx : ActionContext.t) : Emission :=
  emit RecordType.ExecutionStarted ctx (Payload.ExecutionStarted ctx).

Definition emit_execution_completed (ctx : ActionContext.t) (outcome : string) : Emission :=
  emit RecordType.ExecutionCompleted ctx (Payload.ExecutionCompleted ctx outcome).

Definition emit_verification_result (ctx : ActionContext.t) (passed : bool) : Emission :=
  emit RecordType.VerificationResult ctx (Payload.VerificationResult ctx passed).

Definition emit_rollback_completed (ctx : ActionContext.t) (o : RollbackOutcome.t)
    (why : option ExecutionFailureReason.t) : Emission :=
  let payload := Payload.RollbackCompleted ctx o why in
  match o with
  | RollbackOutcome.Failed => emit_with_retention RecordType.RollbackCompleted Forever ctx payload
  | _ => emit RecordType.RollbackCompleted ctx payload
  end.

Definition emit_approval_requested (ctx : ActionContext.t) (request_id subject : string)
    (is_ai : bool) (ttl : Z) (co_signer : bool) : Emission :=
  emit RecordType.ApprovalRequested ctx
    (Payload.ApprovalRequested ctx request_id subject is_ai ttl co_signer).

Definition emit_approval_granted (ctx : ActionContext.t)
    (request_id binding_id granting hash : string) : Emission :=
  emit RecordType.ApprovalGranted ctx
    (Payload.ApprovalGranted ctx request_id binding_id granting hash).

Definition emit_approval_denied (ctx : ActionContext.t) (request_id binding_id : option string)
    (code message : string) : Emission :=
  emit RecordType.ApprovalDenied ctx (Payload.ApprovalDenied request_id binding_id code message).

Definition emit_ai_interactive_queue_downgrade (env : Envelope.t) (ctx : ActionContext.t)
    : Emission :=
  emit RecordType.AiInteractiveQueueDowngrade ctx (Payload.AiInteractiveQueueDowngrade env).
End Ops.
End EvidenceEmitter.

(** ** The in-memory sink keeps its promises *)
Module SinkSound.
Import InMemoryEvidenceSink.

#[export] Instance sink_laws `{Primitives} : EvidenceSinkLaws t.
Proof.
  refine {| receipts_of := chain |}.
  - intros b s r s'. simpl. unfold append_signed.
    destruct (Receipt.seal_signed _ _ _ _ _) as [r0|e] eqn:Es; [|done].
    destruct (ReceiptChain.append _ r0) as [rs|e] eqn:Ea; [|done]. intros [= <- <-].
    apply append_ok in Ea as [_ ->].
    apply seal_signed_ok in Es as (r1 & Hr1 & d & _ & ->).
    apply seal_inner_ok in Hr1 as (_ & _ & ? & ? & _ & ? & _). done.
  - intros b s e s'. simpl. unfold append_signed.
    destruct (Receipt.seal_signed _ _ _ _ _) as [r0|e0]; [|by intros [= <- <-]].
    destruct (ReceiptChain.append _ r0) as [rs|e0]; [done|by intros [= <- <-]].
Defined.

(** The chain the sink holds: linked, and signed with the key it was given. *)
Definition sound `{Primitives} (key : SigningKey) (s : t) : Prop :=
  signing_key s = key /\ well_linked (chain s) /\
  Forall (fun r => Receipt.verify_signature (verifying_key key) r = Ok ()) (chain s).

Lemma append_signed_sound `{SignatureLaws} key b s :
  sound key s -> sound key (append_signed b s).2.
Proof.
  intros (<- & Hl & Hv). unfold append_signed.
  destruct (Receipt.seal_signed _ _ _ _ _) as [r|e] eqn:Es; [|done].
  destruct (ReceiptChain.append _ r) as [rs|e] eqn:Ea; [|done]. simpl.
  apply append_ok in Ea as [Hlk ->]. split_and!; [done| |]; simpl.
  - by apply well_linked_snoc.
  - apply Forall_app. split; [done|]. constructor; [|done]. by eapply seal_signed_verifies.
Qed.

(** With a total encoder the sink accepts every record of the runtime. *)
Lemma append_signed_total `{Primitives} b s :
  (forall v, is_ok (jcs v) = true) ->
  str_is_empty (skip_whitespace (Receipt.b_subject b)) = false ->
  is_ok (append_signed b s).1 = true.
Proof.
  intros Hj Hb. unfold append_signed.
  destruct (Receipt.seal_signed _ _ _ _ _) as [r|e] eqn:Es.
  - apply seal_signed_ok in Es as (r1 & Hr1 & d & _ & ->).
    apply seal_inner_ok in Hr1 as (_ & _ & _ & _ & _ & _ & _ & _ & _ & Hl).
    destruct (ReceiptChain.append _ _) as [rs|e] eqn:Ea; [done|].
    match type of Ea with ReceiptChain.append ?c ?x = _ =>
      assert (ReceiptChain.append c x = Ok (c ++ [x])) as E by (by apply append_ok) end.
    congruence.
  - pose proof (seal_signed_total (mint s (seals s)) (clock s (seals s)) b (last (chain s))
      (signing_key s) Hj) as Ht. rewrite Hb in Ht. destruct Ht as [r Hr]. congruence.
Qed.
End SinkSound.
