(* ===== verification/RtPipeline.v ===== *)
(** * The execution pipeline of the Capability Runtime ([pipeline.rs])

    The eight steps of [ActionLifecyclePipeline] and its five drivers, and the
    engines they call.  The traits are classes ([PolicyKernelT], [EvidenceSink],
    [ApprovalBindingSink]) or functions of [Engines]; everything a step can
    change (kernel, evidence sink, approval sink, queue, the cells of the
    caller's [RuntimeContext], the counters, the stored contexts) is the
    [World].  [M] is the state and error monad of the steps: an error keeps the
    effects that came before it.  An optional engine that is not attached is a
    [None] of the world. *)
From S2P Require Import Prelude Json Action Ids PolicyTypes CondParser Pipeline Records Redaction Receipt ChainSound StateError Lifecycle DispatchQueue Adapters Approvals Rollback Emit.

(** ** Engines *)
Class PolicyKernelT (K : Type) := {
  evaluate_policy : Envelope.t -> PolicyContext -> K -> result PolicyError PolicyDecision * K;
}.

Record SandboxProfileSummary : Type := {
  profile_id : string;
  isolation_kind : string;
  network_posture : string;
  gpu_capability_class : string;
}.

(** [RuntimeContext] with its two shared cells. *)
Module RuntimeContext.
Record t : Type := {
  subject : HydratedSubject;
  bundle_version : string;
  code_version : string;
  policy_constraints : option Constraints.t;
  policy_approval : option ApprovalRequirement;
}.

Definition default_hydrated_subject (id : string) : HydratedSubject :=
  {| canonical_subject_id := id; subject_type := Human; groups := []; capabilities := [];
     session_class := "INTERNAL"; recovery_mode := false; is_ai := false |}.

Definition from_subject (s : HydratedSubject) (bundle code : string) : t :=
  {| subject := s; bundle_version := bundle; code_version := code; policy_constraints := None;
     policy_approval := None |}.

Definition new (id bundle code : string) : t :=
  from_subject (default_hydrated_subject id) bundle code.

Definition with_hydrated_subject (s : HydratedSubject) (c : t) : t :=
  {| subject := s; bundle_version := bundle_version c; code_version := code_version c;
     policy_constraints := policy_constraints c; policy_approval := policy_approval c |}.

(** [install_policy_constraints] and [install_policy_approval]. *)
Definition install (k : option Constraints.t) (a : option ApprovalRequirement) (c : t) : t :=
  {| subject := subject c; bundle_version := bundle_version c; code_version := code_version c;
     policy_constraints := k; policy_approval := a |}.

Definition policy_context (c : t) : PolicyContext :=
  {| Pipeline.subject := subject c; enrichment := default_enrichment;
     ctx_bundle_version := bundle_version c; Pipeline.code_version := code_version c |}.
End RuntimeContext.

(** The trait objects that answer a question without changing the runtime; each
    is asked at most once per action, so [recovery_hook] is its answer. *)
Record Hooks : Type := {
  verification_engine : option (string -> string -> result string bool);
  recovery_hook : option bool;
  cognitive_provenance : option (Envelope.t -> result string ());
  sandbox_composer : option (string -> string -> bool -> bool -> result string SandboxProfileSummary);
}.

Definition no_hooks : Hooks :=
  {| verification_engine := None; recovery_hook := None; cognitive_provenance := None;
     sandbox_composer := None |}.

(** What one action reads from its environment: the clock when it is submitted,
    when its token bucket is created and asked, when a binding is consumed, and
    the fresh identifiers of the action and of its approval request. *)
Record RtAmbient : Type := {
  now : DateTime;
  bucket_created : Z;
  bucket_asked : Z;
  consume_now : DateTime;
  fresh_action_id : string;
  fresh_request_id : string;
}.

Definition u64_fetch_add (n k : Z) : Z := ((n + k) mod 18446744073709551616)%Z.

(** ** The state of the runtime *)
Record World {K S A : Type} : Type := {
  kernel : option K;
  sink : option S;
  approvals : option A;
  queue : option DispatchQueue.t;
  rctx : option RuntimeContext.t;
  tripwire : option Z;
  operator_alerts : option Z;
  contexts : gmap string ActionContext.t;
}.
Arguments World : clear implicits.

Inductive PipelineState : Type :=
| Continue (c : ActionContext.t)
| ShortCircuit (c : ActionContext.t).

Definition into_context (s : PipelineState) : ActionContext.t :=
  match s with Continue c | ShortCircuit c => c end.

Section Monad.
Context {K S A : Type}.
Abbreviation W := (World K S A).
Abbreviation M := (M (World K S A) RuntimeError.t).

(** A driver's early return on [ShortCircuit]. *)
Definition on_continue (m : M PipelineState) (k : ActionContext.t -> M ActionContext.t)
    : M ActionContext.t :=
  mbind_ m (fun st => match st with Continue c => k c | ShortCircuit c => ret c end).

Definition set_kernel (k : option K) (w : W) : W :=
  {| kernel := k; sink := sink w; approvals := approvals w; queue := queue w; rctx := rctx w;
     tripwire := tripwire w; operator_alerts := operator_alerts w; contexts := contexts w |}.
Definition set_sink (s : option S) (w : W) : W :=
  {| kernel := kernel w; sink := s; approvals := approvals w; queue := queue w; rctx := rctx w;
     tripwire := tripwire w; operator_alerts := operator_alerts w; contexts := contexts w |}.
Definition set_approvals (a : option A) (w : W) : W :=
  {| kernel := kernel w; sink := sink w; approvals := a; queue := queue w; rctx := rctx w;
     tripwire := tripwire w; operator_alerts := operator_alerts w; contexts := contexts w |}.
Definition set_queue (q : option DispatchQueue.t) (w : W) : W :=
  {| kernel := kernel w; sink := sink w; approvals := approvals w; queue := q; rctx := rctx w;
     tripwire := tripwire w; operator_alerts := operator_alerts w; contexts := contexts w |}.
Definition set_rctx (r : option RuntimeContext.t) (w : W) : W :=
  {| kernel := kernel w; sink := sink w; approvals := approvals w; queue := queue w; rctx := r;
     tripwire := tripwire w; operator_alerts := operator_alerts w; contexts := contexts w |}.
Definition set_contexts (m : gmap string ActionContext.t) (w : W) : W :=
  {| kernel := kernel w; sink := sink w; approvals := approvals w; queue := queue w;
     rctx := rctx w; tripwire := tripwire w; operator_alerts := operator_alerts w;
     contexts := m |}.
Definition bump_tripwire (w : W) : W :=
  {| kernel := kernel w; sink := sink w; approvals := approvals w; queue := queue w;
     rctx := rctx w; tripwire := (fun n => u64_fetch_add n 1) <$> tripwire w;
     operator_alerts := operator_alerts w; contexts := contexts w |}.
Definition bump_alerts (w : W) : W :=
  {| kernel := kernel w; sink := sink w; approvals := approvals w; queue := queue w;
     rctx := rctx w; tripwire := tripwire w;
     operator_alerts := (fun n => u64_fetch_add n 1) <$> operator_alerts w;
     contexts := contexts w |}.
End Monad.

Notation "'let>' x ':=' c 'in' k" := (on_continue c (fun x => k))
  (at level 10, x binder, c at level 200, k at level 200,
   format "'[v' 'let>'  x  ':='  c  'in' '//' k ']'") : aios_scope.

(** ** The steps *)
Module RtPipeline.
Import ActionLifecycleState Lifecycle.

Definition verification_intent_json (env : Envelope.t) : option string :=
  v ← json_get (target (Envelope.request env)) "verification_intent";
  s ← as_str v;
  if str_is_empty (skip_whitespace s) then None else Some s.

Definition recovery_only_action_kind (kind : string) : bool :=
  String.eqb kind "hardware.accept_drift_substrate"
  || String.eqb kind "network.resolver.set_allowlist"
  || String.eqb kind "recovery.firstboot.reset".

Definition adapter_requires_recovery (m : AdapterManifest.t) (kind : string) : bool :=
  existsb (fun d => String.eqb (AdapterActionDeclaration.action_kind d) kind
                    && recovery_only_action_kind (AdapterActionDeclaration.action_kind d))
    (AdapterManifest.declared_actions m).

(** Texts that only appear inside error messages, and serde's rendering of the
    sandbox summary. *)
Class Texts := {
  policy_error_to_string : PolicyError -> string;
  evidence_error_to_string : EvidenceError -> string;
  str_debug : string -> string;
  summary_to_string : SandboxProfileSummary -> result string string;
  request_to_jcs : Request -> result string string;
}.

Section Steps.
Context {K S A : Type} `{Primitives} `{!PolicyKernelT K} `{!EvidenceSink S}
  `{!ApprovalBindingSink A} `{!Texts}.
Variable values : gmap string Registry.RegisteredAdapter -> list Registry.RegisteredAdapter.
Abbreviation M := (M (World K S A) RuntimeError.t).

Definition is_ai_envelope (env : Envelope.t) : bool := identity_is_ai (Envelope.identity env).
Definition subject_of (env : Envelope.t) : string := subject_canonical_id (Envelope.identity env).
Definition kind_of (env : Envelope.t) : string := action (Envelope.request env).

(** The frozen hash of the request ([jcs_canonicalize] then [blake3_truncated],
    or the empty string). *)
Definition request_canonical_hash (env : Envelope.t) : string :=
  match request_to_jcs (Envelope.request env) with
  | Ok s => blake3_truncated blake3_to_hex s
  | Err _ => ""
  end.

Definition emitting (ctx : ActionContext.t)
    (e : EvidenceEmitter.Emission (S := S)) : M ActionContext.t := fun w =>
  match sink w with
  | Some s => let '(r, s) := e s in (r, set_sink (Some s) w)
  | None => (Ok ctx, w)
  end.

(** *** Step 1: validation *)
Definition step_validate (env : Envelope.t) (ctx : ActionContext.t) (now : DateTime)
    : result RuntimeError.t PipelineState :=
  if str_is_empty (skip_whitespace (kind_of env))
     || str_is_empty (skip_whitespace (subject_of env))
  then let? ctx := apply_transition ctx Failed now in
       Ok (ShortCircuit (ActionContext.set_error ExecutionFailureReason.EnvelopeValidationFailed ctx))
  else let? ctx := apply_transition ctx PolicyPending now in Ok (Continue ctx).

(** Does the attached provenance hook refuse an AI envelope? *)
Definition provenance_refuses (h : Hooks) (env : Envelope.t) : bool :=
  is_ai_envelope env &&
  match cognitive_provenance h with
  | Some check => negb (is_ok (check env))
  | None => false
  end.

Definition refuse_provenance (ctx : ActionContext.t) (now : DateTime)
    : result RuntimeError.t PipelineState :=
  let? ctx := apply_transition ctx Failed now in
  Ok (ShortCircuit (ActionContext.set_error ExecutionFailureReason.AdapterRefused ctx)).

Definition step_validate_with_provenance (h : Hooks) (env : Envelope.t) (ctx : ActionContext.t)
    (now : DateTime) : result RuntimeError.t PipelineState :=
  if provenance_refuses h env then refuse_provenance ctx now else step_validate env ctx now.

(** The advisory sandbox composition: its summary goes on the evidence chain. *)
Definition compose_sandbox (h : Hooks) (env : Envelope.t) (recovery_mode : bool)
    (ctx : ActionContext.t) : ActionContext.t :=
  match sandbox_composer h with
  | None => ctx
  | Some composer =>
      match composer (kind_of env) (subject_of env) (is_ai_envelope env) recovery_mode with
      | Err _ => ctx
      | Ok summary =>
          match summary_to_string summary with
          | Err _ => ctx
          | Ok json => ActionContext.push_evidence ("sandbox_profile:" +:+ json) ctx
          end
      end
  end.

Definition step_validate_with_provenance_and_sandbox (h : Hooks) (env : Envelope.t)
    (ctx : ActionContext.t) (now : DateTime) (recovery_mode : bool)
    : result RuntimeError.t PipelineState :=
  if provenance_refuses h env then refuse_provenance ctx now
  else step_validate env (compose_sandbox h env recovery_mode ctx) now.

(** *** Step 2: policy *)
Definition step_policy_evaluate (ctx : ActionContext.t) (now : DateTime)
    : result RuntimeError.t PipelineState :=
  let? ctx := apply_transition ctx Approved now in Ok (Continue ctx).

(** [approver_classes.iter().any(Human | Operator)]. *)
Definition needs_human (a : ApprovalRequirement) : bool :=
  existsb (fun c => match c with ApproverClass.Human | ApproverClass.Operator => true | _ => false end)
    (approver_classes a).

Definition install_policy (k : option Constraints.t) (a : option ApprovalRequirement)
    : M () :=
  modify (fun w => set_rctx (RuntimeContext.install k a <$> rctx w) w).

(** The transition and the writes of one decision. *)
Definition apply_decision (rc : RuntimeContext.t) (d : PolicyDecision) (ctx : ActionContext.t)
    (now : DateTime) : M PipelineState :=
  match decision d with
  | Decision.Allow =>
      let! ctx := lift (apply_transition ctx Approved now) in
      let! _ := install_policy (Some (constraints d)) (Some (approval d)) in
      let! _ := (if is_ai (RuntimeContext.subject rc) && negb (needs_human (approval d))
                 then modify bump_tripwire else ret ()) in
      ret (Continue ctx)
  | Decision.RequireApproval =>
      let! ctx := lift (apply_transition ctx ApprovalPending now) in
      let! _ := install_policy (Some (constraints d)) (Some (approval d)) in
      ret (ShortCircuit ctx)
  | Decision.Deny =>
      let! ctx := lift (apply_transition ctx PolicyDenied now) in
      let! _ := install_policy None None in
      ret (ShortCircuit ctx)
  | Decision.Unspecified =>
      throw (RuntimeError.PolicyEvalFailed
               "kernel returned Decision::Unspecified (S2.3 §4 invariant violated)")
  end.

(** The kernel's refusal to decide. *)
Definition apply_policy_error (e : PolicyError) (ctx : ActionContext.t) (now : DateTime)
    : M PipelineState :=
  match e with
  | SubjectUnauthenticated =>
      let! ctx := lift (apply_transition ctx PolicyDenied now) in
      let ctx := ActionContext.set_error ExecutionFailureReason.EnvelopeValidationFailed ctx in
      let! _ := install_policy None None in
      ret (ShortCircuit ctx)
  | other => throw (RuntimeError.PolicyEvalFailed (policy_error_to_string other))
  end.

Definition step_policy_evaluate_with_kernel (env : Envelope.t) (ctx : ActionContext.t)
    (now : DateTime) : M PipelineState := fun w =>
  match kernel w, rctx w with
  | Some k, Some rc =>
      let '(evaluation, k) := evaluate_policy env (RuntimeContext.policy_context rc) k in
      let w := set_kernel (Some k) w in
      match evaluation with
      | Ok d => apply_decision rc d ctx now w
      | Err e => apply_policy_error e ctx now w
      end
  | _, _ => lift (step_policy_evaluate ctx now) w
  end.

Definition step_policy_evaluate_with_kernel_and_emit (env : Envelope.t) (ctx : ActionContext.t)
    (now : DateTime) : M PipelineState := fun w =>
  match kernel w, rctx w with
  | Some k, Some rc =>
      let '(evaluation, k) := evaluate_policy env (RuntimeContext.policy_context rc) k in
      let w := set_kernel (Some k) w in
      match evaluation with
      | Ok d =>
          (let! state := apply_decision rc d ctx now in
           let ctx := into_context state in
           let! ctx := emitting ctx
             (EvidenceEmitter.emit_policy_decision evidence_error_to_string ctx d) in
           ret (match decision d with
                | Decision.Allow => Continue ctx
                | _ => ShortCircuit ctx
                end)) w
      | Err e => apply_policy_error e ctx now w
      end
  | _, _ => lift (step_policy_evaluate ctx now) w
  end.

(** *** Step 3: approval *)
Definition step_request_approval_passthrough (ctx : ActionContext.t)
    : result RuntimeError.t PipelineState := Ok (Continue ctx).

Definition default_requirement : ApprovalRequirement :=
  {| required := true; approval_scope := ExactRequestHash; approval_ttl_seconds := 300;
     approver_classes := [ApproverClass.Human]; approval_require_human_co_signer := false |}.

Definition submit_to (r : ApprovalRequest.t) : M () := fun w =>
  match approvals w with
  | Some a => let '(res, a) := submit_request r a in (res, set_approvals (Some a) w)
  | None => (Ok (), w)
  end.

Definition step_request_approval (amb : RtAmbient) (env : Envelope.t) (ctx : ActionContext.t)
    (requirement : option ApprovalRequirement) : M PipelineState := fun w =>
  if negb (bool_decide (ActionContext.status ctx = ApprovalPending)) then (Ok (Continue ctx), w)
  else if negb (is_some (approvals w)) then (Ok (ShortCircuit ctx), w)
  else
    let req := default default_requirement requirement in
    let r := {| ApprovalRequest.request_id := fresh_request_id amb;
                ApprovalRequest.action_id := ActionContext.action_id ctx;
                ApprovalRequest.requirement := req;
                ApprovalRequest.proposing_subject_id := subject_of env;
                ApprovalRequest.proposing_subject_is_ai := is_ai_envelope env;
                ApprovalRequest.bound_action_canonical_hash := request_canonical_hash env;
                ApprovalRequest.requested_at := ActionContext.last_updated_at ctx |} in
    (let! _ := submit_to r in
     let! ctx := emitting ctx
       (EvidenceEmitter.emit_approval_requested evidence_error_to_string ctx
          (fresh_request_id amb) (subject_of env) (is_ai_envelope env)
          (approval_ttl_seconds req) (approval_require_human_co_signer req)) in
     ret (ShortCircuit ctx)) w.

Definition consume_from (now : DateTime) (id : string) : M ApprovalBinding.t := fun w =>
  match approvals w with
  | Some a => let '(res, a) := consume_binding now id a in (res, set_approvals (Some a) w)
  | None => (Err (RuntimeError.Internal "no approval sink wired; cannot consume binding"), w)
  end.

(** A refusal after consumption: evidence on a copy of the context, then the
    error. *)
Definition deny_binding (ctx : ActionContext.t) (b : ApprovalBinding.t) (code message : string)
    (e : RuntimeError.t) : M PipelineState :=
  let! _ := emitting ctx
    (EvidenceEmitter.emit_approval_denied evidence_error_to_string ctx
       (Some (ApprovalBinding.request_id b)) (Some (ApprovalBinding.binding_id b)) code message) in
  throw e.

Definition class_matches (requirement : option ApprovalRequirement) (b : ApprovalBinding.t) : bool :=
  match requirement with
  | Some req =>
      if negb (bool_decide (approver_classes req = []))
      then bool_decide (ApprovalBinding.granted_by_class b ∈ approver_classes req)
      else negb (bool_decide (ApprovalBinding.granted_by_class b = ApproverClass.Agent))
  | None => negb (bool_decide (ApprovalBinding.granted_by_class b = ApproverClass.Agent))
  end.

Definition step_consume_binding (amb : RtAmbient) (env : Envelope.t) (ctx : ActionContext.t)
    (id : string) (requirement : option ApprovalRequirement) : M PipelineState :=
  if negb (bool_decide (ActionContext.status ctx = ApprovalPending))
  then throw (RuntimeError.InvalidTransition (ActionContext.status ctx) Approved)
  else
    let! b := consume_from (consume_now amb) id in
    let hash := ApprovalBinding.bound_action_canonical_hash b in
    if negb (str_is_empty hash) && negb (String.eqb (request_canonical_hash env) hash)
    then deny_binding ctx b "ACTION_REVISED"
           "binding voided: action canonical hash changed between grant and execute"
           (RuntimeError.ApprovalBindingInvalid
              ("binding " +:+ id +:+ " bound to a different canonical hash"))
    else if is_ai_envelope env && String.eqb (ApprovalBinding.granted_by b) (subject_of env)
    then deny_binding ctx b "AI_SELF_APPROVAL_BLOCKED"
           "AI subject cannot approve its own action (INV-002 defense-in-depth)"
           RuntimeError.ApprovalApproverClassMismatch
    else if negb (class_matches requirement b)
    then deny_binding ctx b "APPROVER_CLASS_MISMATCH"
           "binding granted_by_class is not in the policy's required approver classes"
           RuntimeError.ApprovalApproverClassMismatch
    else
      let! ctx := lift (apply_transition ctx Approved (now amb)) in
      let! ctx := emitting ctx
        (EvidenceEmitter.emit_approval_granted evidence_error_to_string ctx
           (ApprovalBinding.request_id b) (ApprovalBinding.binding_id b)
           (ApprovalBinding.granted_by b) hash) in
      ret (Continue ctx).

(** *** Step 4: queue *)
Definition step_queue (ctx : ActionContext.t) (now : DateTime)
    : result RuntimeError.t PipelineState :=
  let? ctx := apply_transition ctx Queued now in Ok (Continue ctx).

Definition step_queue_with_engine (amb : RtAmbient) (env : Envelope.t) (ctx : ActionContext.t)
    : M PipelineState := fun w =>
  match queue w with
  | None => lift (step_queue ctx (now amb)) w
  | Some q =>
      let ctx := ActionContext.set_queue_class (ActionDispatcher.select_queue_class env false) ctx in
      match apply_transition ctx Queued (now amb) with
      | Err e => (Err e, w)
      | Ok ctx =>
          let '(r, q) := DispatchQueue.enroll (bucket_created amb) (bucket_asked amb) ctx
                           (subject_of env) q in
          let w := set_queue (Some q) w in
          match r with
          | Ok stored => (Ok (Continue stored), w)
          | Err (RuntimeError.QueueFull _) | Err (RuntimeError.RateLimited _) =>
              (let! ctx := lift (apply_transition ctx Failed (now amb)) in
               ret (ShortCircuit
                      (ActionContext.set_error ExecutionFailureReason.ResourceBudgetExceeded ctx))) w
          | Err other => (Err other, w)
          end
      end
  end.

Definition step_queue_with_engine_and_emit (amb : RtAmbient) (env : Envelope.t)
    (ctx : ActionContext.t) : M PipelineState :=
  let marker := ActionDispatcher.apply_ai_interactive_downgrade ctx (is_ai_envelope env) in
  let! state := step_queue_with_engine amb env ctx in
  match state with
  | Continue c =>
      let! c := emitting c (EvidenceEmitter.emit_action_queued evidence_error_to_string env c
                              (ActionContext.queue_class c)) in
      let! c := (if is_some marker
                 then emitting c
                   (EvidenceEmitter.emit_ai_interactive_queue_downgrade evidence_error_to_string env c)
                 else ret c) in
      ret (Continue c)
  | ShortCircuit c => ret (ShortCircuit c)
  end.

(** *** Step 5: dispatch *)
Definition step_execute (unlocked : bool) (env : Envelope.t) (ctx : ActionContext.t)
    (now : DateTime) (registry : option Registry.t) : result RuntimeError.t PipelineState :=
  let missing := match registry with
                 | Some g => negb (is_some (Registry.lookup values unlocked (kind_of env) g))
                 | None => false
                 end in
  if missing
  then let? ctx := apply_transition ctx Failed now in
       Ok (ShortCircuit (ActionContext.set_error ExecutionFailureReason.DependencyUnready ctx))
  else let? ctx := apply_transition ctx Executing now in Ok (Continue ctx).

Definition is_simulate_envelope (env : Envelope.t) : bool :=
  match dry_run (Envelope.request env) with Simulate => true | _ => false end.

Definition step_execute_with_engines (h : Hooks) (env : Envelope.t) (ctx : ActionContext.t)
    (now : DateTime) (registry : option Registry.t) : result RuntimeError.t PipelineState :=
  match registry with
  | None => let? ctx := apply_transition ctx Executing now in Ok (Continue ctx)
  | Some g =>
      match Registry.lookup_for_target values (kind_of env) g with
      | None =>
          let? ctx := apply_transition ctx Failed now in
          Ok (ShortCircuit (ActionContext.set_error ExecutionFailureReason.DependencyUnready ctx))
      | Some adapter =>
          let m := Registry.manifest adapter in
          if adapter_requires_recovery m (kind_of env)
             && match recovery_hook h with Some mode => negb mode | None => false end
          then let? ctx := apply_transition ctx Failed now in
               Ok (ShortCircuit (ActionContext.set_error ExecutionFailureReason.AdapterRefused ctx))
          else
            let chosen := ActionDispatcher.compute_dispatch_kind (AdapterManifest.dispatch_kind m)
              {| ActionDispatcher.is_simulate := is_simulate_envelope env;
                 ActionDispatcher.in_is_ai := is_ai_envelope env;
                 ActionDispatcher.risk_privileged := false;
                 ActionDispatcher.manifest_stable := true |} in
            let ctx := ActionContext.set_dispatch_kind chosen ctx in
            let? ctx := apply_transition ctx Executing now in Ok (Continue ctx)
      end
  end.

Definition step_execute_with_engines_and_emit (h : Hooks) (env : Envelope.t)
    (ctx : ActionContext.t) (now : DateTime) (registry : option Registry.t) : M PipelineState :=
  let routed := g ← registry; Registry.lookup_for_target values (kind_of env) g in
  let! state := lift (step_execute_with_engines h env ctx now registry) in
  match state with
  | Continue c =>
      let! c := (if is_some routed
                 then emitting c
                   (EvidenceEmitter.emit_routing_decision evidence_error_to_string env c
                      (kind_of env) (ActionContext.dispatch_kind c))
                 else ret c) in
      let! c := emitting c (EvidenceEmitter.emit_execution_started evidence_error_to_string c) in
      ret (Continue c)
  | ShortCircuit c => ret (ShortCircuit c)
  end.

(** *** Step 6: verification *)
Definition step_verify (ctx : ActionContext.t) (now : DateTime)
    : result RuntimeError.t PipelineState :=
  let? ctx := apply_transition ctx Verifying now in
  let? ctx := apply_transition ctx Succeeded now in
  Ok (ShortCircuit ctx).

Definition step_verify_with_engine (h : Hooks) (env : Envelope.t) (ctx : ActionContext.t)
    (now : DateTime) : result RuntimeError.t PipelineState :=
  match verification_engine h, verification_intent_json env with
  | Some engine, Some intent =>
      let? ctx := apply_transition ctx Verifying now in
      let passed := match engine intent (ActionContext.action_id ctx) with
                    | Ok b => b | Err _ => false end in
      if passed
      then let? ctx := apply_transition ctx Succeeded now in Ok (ShortCircuit ctx)
      else let? ctx := apply_transition ctx Failed now in
           Ok (Continue (ActionContext.set_error ExecutionFailureReason.AdapterRefused ctx))
  | _, _ => step_verify ctx now
  end.

Definition step_verify_with_engine_and_emit (h : Hooks) (env : Envelope.t) (ctx : ActionContext.t)
    (now : DateTime) : M PipelineState :=
  let! pre := emitting ctx
    (EvidenceEmitter.emit_execution_completed evidence_error_to_string ctx "ADAPTER_OK") in
  let! state := lift (step_verify_with_engine h env pre now) in
  let c := into_context state in
  let passed := bool_decide (ActionContext.status c = Succeeded) in
  let! c := emitting c
    (EvidenceEmitter.emit_verification_result evidence_error_to_string c passed) in
  ret (if passed then ShortCircuit c else Continue c).

Definition step_verify_and_emit (env : Envelope.t) (ctx : ActionContext.t) (now : DateTime)
    : M PipelineState := step_verify_with_engine_and_emit no_hooks env ctx now.

Definition step_verify_inject_failure_and_emit (h : Hooks) (driver : option RollbackDriver.t)
    (env : Envelope.t) (ctx : ActionContext.t) (now : DateTime) : M PipelineState :=
  let inject := match driver with
                | Some d => RollbackDriver.inject_verify_failure d | None => false end in
  if negb inject then step_verify_with_engine_and_emit h env ctx now
  else
    let! pre := emitting ctx
      (EvidenceEmitter.emit_execution_completed evidence_error_to_string ctx "ADAPTER_OK") in
    let! pre := lift (apply_transition pre Verifying now) in
    let! pre := lift (apply_transition pre Failed now) in
    let pre := ActionContext.set_error ExecutionFailureReason.AdapterRefused pre in
    let! pre := emitting pre
      (EvidenceEmitter.emit_verification_result evidence_error_to_string pre false) in
    ret (Continue pre).

(** *** Step 7: rollback *)
Definition step_rollback (ctx : ActionContext.t) : result RuntimeError.t PipelineState :=
  Ok (Continue ctx).

(** The strategy the manifest declares for the action kind. *)
Definition declared_strategy (m : AdapterManifest.t) (kind : string)
    : result RuntimeError.t RollbackStrategy.t :=
  match iter_find (fun d => String.eqb (AdapterActionDeclaration.action_kind d) kind)
          (AdapterManifest.declared_actions m) with
  | Some d => RollbackStrategy.parse_manifest_value str_debug
                (AdapterActionDeclaration.rollback_strategy d)
  | None => Ok RollbackStrategy.Unspecified
  end.

Definition step_rollback_with_driver (driver : option RollbackDriver.t) (env : Envelope.t)
    (ctx : ActionContext.t) (now : DateTime) (registry : option Registry.t)
    : M (PipelineState * option RollbackOutcome.t) :=
  match driver with
  | None => ret (Continue ctx, None)
  | Some d =>
      if negb (bool_decide (ActionContext.status ctx = Failed)) then ret (Continue ctx, None)
      else match g ← registry; Registry.lookup_for_target values (kind_of env) g with
           | None => ret (ShortCircuit ctx, None)
           | Some registered =>
               let! strategy := lift (declared_strategy (Registry.manifest registered) (kind_of env)) in
               let outcome := RollbackDriver.run_rollback strategy d in
               let ctx := ActionContext.set_rollback_outcome outcome ctx in
               let terminal := RollbackDriver.classify_terminal outcome in
               match outcome with
               | RollbackOutcome.Succeeded =>
                   let! ctx := lift (apply_transition ctx terminal now) in
                   ret (ShortCircuit ctx, Some outcome)
               | RollbackOutcome.Failed =>
                   let! ctx := lift (apply_transition ctx terminal now) in
                   let! _ := modify bump_alerts in
                   ret (ShortCircuit ctx, Some outcome)
               | RollbackOutcome.NotAttempted | RollbackOutcome.NotApplicable =>
                   ret (ShortCircuit ctx, Some outcome)
               end
           end
  end.

Definition step_rollback_with_driver_and_emit (driver : option RollbackDriver.t)
    (env : Envelope.t) (ctx : ActionContext.t) (now : DateTime) (registry : option Registry.t)
    : M PipelineState :=
  let! so := step_rollback_with_driver driver env ctx now registry in
  match so.2 with
  | None => ret so.1
  | Some outcome =>
      let c := into_context so.1 in
      let! c := emitting c
        (EvidenceEmitter.emit_rollback_completed evidence_error_to_string c outcome
           (ActionContext.error c)) in
      ret (ShortCircuit c)
  end.

(** *** Step 8: evidence *)
Definition step_emit_evidence (ctx : ActionContext.t) : result RuntimeError.t PipelineState :=
  Ok (Continue ctx).

(** *** The drivers *)
Definition finish (ctx : ActionContext.t) : M ActionContext.t :=
  let! state := lift (step_emit_evidence ctx) in ret (into_context state).

Definition run_with_registry (unlocked : bool) (registry : option Registry.t) (env : Envelope.t)
    (ctx : ActionContext.t) (now : DateTime) : M ActionContext.t :=
  let> c := lift (step_validate env ctx now) in
  let> c := lift (step_policy_evaluate c now) in
  let> c := lift (step_request_approval_passthrough c) in
  let> c := lift (step_queue c now) in
  let> c := lift (step_execute unlocked env c now registry) in
  let> c := lift (step_verify c now) in
  let> c := lift (step_rollback c) in
  finish c.

Definition run (env : Envelope.t) (ctx : ActionContext.t) (now : DateTime) : M ActionContext.t :=
  run_with_registry true None env ctx now.

Definition run_with_engines (amb : RtAmbient) (registry : option Registry.t) (env : Envelope.t)
    (ctx : ActionContext.t) : M ActionContext.t :=
  let> c := lift (step_validate env ctx (now amb)) in
  let> c := lift (step_policy_evaluate c (now amb)) in
  let> c := lift (step_request_approval_passthrough c) in
  let> c := step_queue_with_engine amb env c in
  let> c := lift (step_execute_with_engines no_hooks env c (now amb) registry) in
  let> c := lift (step_verify c (now amb)) in
  let> c := lift (step_rollback c) in
  finish c.

(** [runtime_context.is_some_and(|rc| rc.subject.recovery_mode)]. *)
Definition in_recovery (w : World K S A) : bool :=
  match rctx w with Some rc => recovery_mode (RuntimeContext.subject rc) | None => false end.

Definition run_with_full_engines (amb : RtAmbient) (h : Hooks) (registry : option Registry.t)
    (env : Envelope.t) (ctx : ActionContext.t) : M ActionContext.t :=
  let! w := get in
  let> c := lift (step_validate_with_provenance_and_sandbox h env ctx (now amb) (in_recovery w)) in
  let> c := step_policy_evaluate_with_kernel env c (now amb) in
  let> c := lift (step_request_approval_passthrough c) in
  let> c := step_queue_with_engine amb env c in
  let> c := lift (step_execute_with_engines h env c (now amb) registry) in
  let> c := lift (step_verify_with_engine h env c (now amb)) in
  let> c := lift (step_rollback c) in
  finish c.

(** The common front of the two emitting drivers: steps 1 to 5 with their
    evidence. *)
Definition received (env : Envelope.t) (c : ActionContext.t) : M PipelineState :=
  let! c := emitting c (EvidenceEmitter.emit_action_received evidence_error_to_string env c) in
  ret (Continue c).

Definition run_with_full_engines_and_evidence (amb : RtAmbient) (h : Hooks)
    (registry : option Registry.t) (env : Envelope.t) (ctx : ActionContext.t)
    : M ActionContext.t :=
  let! w := get in
  let> c := lift (step_validate_with_provenance_and_sandbox h env ctx (now amb) (in_recovery w)) in
  let> c := received env c in
  let> c := step_policy_evaluate_with_kernel_and_emit env c (now amb) in
  let> c := lift (step_request_approval_passthrough c) in
  let> c := step_queue_with_engine_and_emit amb env c in
  let> c := step_execute_with_engines_and_emit h env c (now amb) registry in
  let> c := step_verify_with_engine_and_emit h env c (now amb) in
  let> c := lift (step_rollback c) in
  finish c.

Definition run_with_full_engines_and_evidence_and_rollback (amb : RtAmbient) (h : Hooks)
    (registry : option Registry.t) (driver : option RollbackDriver.t) (env : Envelope.t)
    (ctx : ActionContext.t) : M ActionContext.t :=
  let! w := get in
  let> c := lift (step_validate_with_provenance_and_sandbox h env ctx (now amb) (in_recovery w)) in
  let> c := received env c in
  let> c := step_policy_evaluate_with_kernel_and_emit env c (now amb) in
  let> c := lift (step_request_approval_passthrough c) in
  let> c := step_queue_with_engine_and_emit amb env c in
  let> c := step_execute_with_engines_and_emit h env c (now amb) registry in
  let> c := step_verify_inject_failure_and_emit h driver env c (now amb) in
  let! state := step_rollback_with_driver_and_emit driver env c (now amb) registry in
  finish (into_context state).

(** ** The runtime ([runtime.rs]) *)

Record Config : Type := {
  adapter_registry : option Registry.t;
  hooks : Hooks;
  rollback_driver : option RollbackDriver.t;
}.

(** The driver [submit_action] picks. *)
Definition run_pipeline (amb : RtAmbient) (cfg : Config) (env : Envelope.t)
    (ctx : ActionContext.t) : M ActionContext.t := fun w =>
  (if is_some (sink w)
   then if is_some (rollback_driver cfg)
        then run_with_full_engines_and_evidence_and_rollback amb (hooks cfg) (adapter_registry cfg)
               (rollback_driver cfg) env ctx
        else run_with_full_engines_and_evidence amb (hooks cfg) (adapter_registry cfg) env ctx
   else run_with_full_engines amb (hooks cfg) (adapter_registry cfg) env ctx) w.

Definition policy_approval_snapshot (w : World K S A) : option ApprovalRequirement :=
  rctx w ≫= RuntimeContext.policy_approval.

(** The approval tail of [submit_action]. *)
Definition park_for_approval (amb : RtAmbient) (env : Envelope.t) (ctx : ActionContext.t)
    : M ActionContext.t := fun w =>
  if bool_decide (ActionContext.status ctx = ApprovalPending) && is_some (approvals w)
  then (let! state := step_request_approval amb env ctx (policy_approval_snapshot w) in
        ret (into_context state)) w
  else (Ok ctx, w).

Definition store (id : string) (ctx : ActionContext.t) : M () :=
  modify (fun w => set_contexts (<[id := ctx]> (contexts w)) w).

(** [submit_action]; [rc] is the caller's runtime context. *)
Definition submit_action (amb : RtAmbient) (cfg : Config) (env : Envelope.t)
    (rc : RuntimeContext.t) : M ActionContext.t :=
  let! _ := modify (set_rctx (Some rc)) in
  let ctx := fresh_context (fresh_action_id amb) (now amb) in
  let! ctx := run_pipeline amb cfg env ctx in
  let! ctx := park_for_approval amb env ctx in
  let! _ := store (fresh_action_id amb) ctx in
  ret ctx.

Definition get_action_status (id : string) (w : World K S A) : result RuntimeError.t ActionContext.t :=
  ok_or (contexts w !! id) (RuntimeError.ActionNotFound id).

(** The [if let Some(emitter)] forks of the resume path. *)
Definition queue_step (amb : RtAmbient) (env : Envelope.t) (ctx : ActionContext.t) : M PipelineState :=
  fun w => (if is_some (sink w) then step_queue_with_engine_and_emit amb env ctx
            else step_queue_with_engine amb env ctx) w.
Definition execute_step (amb : RtAmbient) (cfg : Config) (env : Envelope.t) (ctx : ActionContext.t)
    : M PipelineState :=
  fun w => (if is_some (sink w)
            then step_execute_with_engines_and_emit (hooks cfg) env ctx (now amb) (adapter_registry cfg)
            else lift (step_execute_with_engines (hooks cfg) env ctx (now amb) (adapter_registry cfg))) w.
Definition verify_step (amb : RtAmbient) (cfg : Config) (env : Envelope.t) (ctx : ActionContext.t)
    : M PipelineState :=
  fun w => (if is_some (sink w) then step_verify_with_engine_and_emit (hooks cfg) env ctx (now amb)
            else lift (step_verify_with_engine (hooks cfg) env ctx (now amb))) w.

Definition resume_with_binding (amb : RtAmbient) (cfg : Config) (id : string) (env : Envelope.t)
    (rc : RuntimeContext.t) (binding_id : string) : M ActionContext.t := fun w =>
  let w := set_rctx (Some rc) w in
  if negb (is_some (approvals w))
  then (Err (RuntimeError.Internal "no approval sink wired; cannot consume binding"), w)
  else match contexts w !! id with
  | None => (Err (RuntimeError.ActionNotFound id), w)
  | Some stored =>
      if negb (bool_decide (ActionContext.status stored = ApprovalPending))
      then (Err (RuntimeError.InvalidTransition (ActionContext.status stored) Approved), w)
      else
        (let! state := step_consume_binding amb env stored binding_id
                         (policy_approval_snapshot w) in
         let! state := queue_step amb env (into_context state) in
         let ctx := into_context state in
         let! final :=
           (if bool_decide (ActionContext.status ctx = Queued)
            then let! state := execute_step amb cfg env ctx in
                 let ctx2 := into_context state in
                 (if bool_decide (ActionContext.status ctx2 = Executing)
                  then let! state := verify_step amb cfg env ctx2 in ret (into_context state)
                  else ret ctx2)
            else ret ctx) in
         let! _ := store id final in
         ret final) w
  end.
End Steps.
End RtPipeline.
