(* ===== verification/RtSound.v ===== *)
(** * Properties of the execution pipeline and of the runtime

    The step lemmas, in the logic of [StateError] ([post] and [preserves]), are
    proved once and composed along the drivers. *)
From S2P Require Import Prelude Json Action Ids PolicyTypes CondParser Pipeline Records Redaction Receipt ChainSound StateError Lifecycle DispatchQueue Adapters Approvals Rollback Emit RtPipeline.

Section Logic.
Context {K S A : Type}.
Abbreviation W := (World K S A).
Abbreviation M := (M (World K S A) RuntimeError.t).

Lemma post_on_continue (m : M PipelineState) k R Q E w :
  post m R E w ->
  (forall c w', R (Continue c) w' -> post (k c) Q E w') ->
  (forall c w', R (ShortCircuit c) w' -> Q c w') ->
  post (on_continue m k) Q E w.
Proof.
  intros HR Hc Hs. unfold on_continue. eapply post_bind; [exact HR|].
  intros [c|c] w' H; [by apply Hc|]. by apply Hs.
Qed.

Lemma preserves_on_continue I (m : M PipelineState) k :
  preserves I m -> (forall c, preserves I (k c)) -> preserves I (on_continue m k).
Proof.
  intros Hm Hk. apply preserves_bind; [done|]. intros [c|c]; [done|apply preserves_ret].
Qed.
End Logic.

(** [frame] with the driver's early return as one more program constructor. *)
Ltac rt_frame := repeat first
  [ match goal with |- preserves _ (on_continue _ _) => apply preserves_on_continue; [|intros ?] end
  | frame_step | progress (cbv zeta)]; auto with frame.

Module RtSound.
Import ActionLifecycleState Lifecycle LifecycleSound RtPipeline.
Section Props.
Context {K S A : Type} `{Primitives} `{!PolicyKernelT K} `{!EvidenceSink S}
  `{!ApprovalBindingSink A} `{!Texts}.
Variable values : gmap string Registry.RegisteredAdapter -> list Registry.RegisteredAdapter.
Abbreviation M := (M (World K S A) RuntimeError.t).
Abbreviation W := (World K S A).
Abbreviation preserves := (preserves (Er := RuntimeError.t)).

(** ** What each part of the world is touched by *)
Section Frames.
Variable I : W -> Prop.
Hypothesis I_sink : forall w b s, I w -> sink w = Some s -> I (set_sink (Some (append_signed b s).2) w).
Hypothesis I_kernel : forall w k env pc, I w -> kernel w = Some k ->
  I (set_kernel (Some (evaluate_policy env pc k).2) w).
Hypothesis I_rctx : forall w r, I w -> I (set_rctx r w).
Hypothesis I_trip : forall w, I w -> I (bump_tripwire w).
Hypothesis I_alerts : forall w, I w -> I (bump_alerts w).
Hypothesis I_queue : forall w q t_new t_now ctx subject, I w -> queue w = Some q ->
  I (set_queue (Some (DispatchQueue.enroll t_new t_now ctx subject q).2) w).
Hypothesis I_contexts : forall w m, I w -> I (set_contexts m w).
Hypothesis I_submit : forall w a r, I w -> approvals w = Some a ->
  I (set_approvals (Some (submit_request r a).2) w).
Hypothesis I_consume : forall w a now id, I w -> approvals w = Some a ->
  I (set_approvals (Some (consume_binding now id a).2) w).

Lemma preserves_emit f rt rc ctx p ctx' :
  preserves I (emitting ctx' (EvidenceEmitter.emit_with_retention f rt rc ctx p)).
Proof.
  intros w Hw. unfold emitting, EvidenceEmitter.emit_with_retention.
  destruct (sink w) as [s|] eqn:E; [|done].
  match goal with |- context [append_signed ?b s] => pose proof (I_sink w b s Hw E) end.
  by destruct (append_signed _ s) as [[r|e] s'].
Qed.

Lemma preserves_install k a : preserves I (install_policy (K := K) (S := S) (A := A) k a).
Proof. apply preserves_modify. auto. Qed.
Lemma preserves_trip : preserves I (modify bump_tripwire).
Proof. apply preserves_modify. auto. Qed.
Lemma preserves_alert : preserves I (modify bump_alerts).
Proof. apply preserves_modify. auto. Qed.
Lemma preserves_store id ctx : preserves I (store (K := K) (S := S) (A := A) id ctx).
Proof. apply preserves_modify. auto. Qed.
Lemma preserves_set_rctx r : preserves I (modify (set_rctx r)).
Proof. apply preserves_modify. auto. Qed.

Lemma preserves_submit_to r : preserves I (submit_to r).
Proof.
  intros w Hw. unfold submit_to. destruct (approvals w) as [a|] eqn:E; [|done].
  pose proof (I_submit w a r Hw E). by destruct (submit_request r a).
Qed.
Lemma preserves_consume_from now id : preserves I (consume_from now id).
Proof.
  intros w Hw. unfold consume_from. destruct (approvals w) as [a|] eqn:E; [|done].
  pose proof (I_consume w a now id Hw E). by destruct (consume_binding now id a).
Qed.
#[local] Hint Resolve preserves_emit preserves_install preserves_trip preserves_alert
  preserves_store preserves_set_rctx preserves_submit_to preserves_consume_from : frame.
#[local] Hint Unfold EvidenceEmitter.emit EvidenceEmitter.emit_action_received
  EvidenceEmitter.emit_policy_decision : frame.

Lemma preserves_apply_decision rc d ctx now : preserves I (apply_decision rc d ctx now).
Proof. unfold apply_decision. rt_frame. Qed.
Lemma preserves_apply_policy_error e ctx now : preserves I (apply_policy_error e ctx now).
Proof. unfold apply_policy_error. rt_frame. Qed.
#[local] Hint Resolve preserves_apply_decision preserves_apply_policy_error : frame.

Lemma preserves_policy env ctx now : preserves I (step_policy_evaluate_with_kernel env ctx now).
Proof.
  intros w Hw. unfold step_policy_evaluate_with_kernel.
  destruct (kernel w) as [k|] eqn:Ek; [|done]. destruct (rctx w) as [rc|]; [|done].
  pose proof (I_kernel w k env (RuntimeContext.policy_context rc) Hw Ek) as Hk.
  destruct (evaluate_policy _ _ k) as [[d|e] k'];
    [by apply preserves_apply_decision|by apply preserves_apply_policy_error].
Qed.

Lemma preserves_policy_emit env ctx now :
  preserves I (step_policy_evaluate_with_kernel_and_emit env ctx now).
Proof.
  intros w Hw. unfold step_policy_evaluate_with_kernel_and_emit.
  destruct (kernel w) as [k|] eqn:Ek; [|done]. destruct (rctx w) as [rc|]; [|done].
  pose proof (I_kernel w k env (RuntimeContext.policy_context rc) Hw Ek) as Hk.
  destruct (evaluate_policy _ _ k) as [[d|e] k']; [|by apply preserves_apply_policy_error].
  refine (preserves_bind I (apply_decision rc d ctx now) (fun state =>
    let ctx := into_context state in
    let! ctx := emitting ctx (EvidenceEmitter.emit_policy_decision evidence_error_to_string ctx d) in
    ret (match decision d with Decision.Allow => Continue ctx | _ => ShortCircuit ctx end))
    _ _ _ Hk); [apply preserves_apply_decision|intros st; cbv zeta].
  apply preserves_bind; [apply preserves_emit|auto with frame].
Qed.

Lemma preserves_queue amb env ctx : preserves I (step_queue_with_engine amb env ctx).
Proof.
  intros w Hw. unfold step_queue_with_engine. destruct (queue w) as [q|] eqn:Eq; [|done].
  destruct (apply_transition _ Queued _) as [c|e]; [|done].
  pose proof (I_queue w q (bucket_created amb) (bucket_asked amb) c (subject_of env) Hw Eq) as Hq.
  destruct (DispatchQueue.enroll _ _ c _ q) as [[x|e] q']; simpl in *; [done|].
  destruct e; try done; unfold mbind_, lift; by destruct (apply_transition c Failed _).
Qed.
#[local] Hint Resolve preserves_policy preserves_policy_emit preserves_queue : frame.

Ltac emits := unfold EvidenceEmitter.emit_action_received, EvidenceEmitter.emit_policy_decision,
  EvidenceEmitter.emit_routing_decision, EvidenceEmitter.emit_action_queued,
  EvidenceEmitter.emit_execution_started, EvidenceEmitter.emit_execution_completed,
  EvidenceEmitter.emit_verification_result, EvidenceEmitter.emit_rollback_completed,
  EvidenceEmitter.emit_approval_requested, EvidenceEmitter.emit_approval_granted,
  EvidenceEmitter.emit_approval_denied, EvidenceEmitter.emit_ai_interactive_queue_downgrade,
  EvidenceEmitter.emit; rt_frame.

Lemma preserves_queue_emit amb env ctx : preserves I (step_queue_with_engine_and_emit amb env ctx).
Proof. unfold step_queue_with_engine_and_emit. emits. Qed.
Lemma preserves_execute_emit h env ctx now g :
  preserves I (step_execute_with_engines_and_emit values h env ctx now g).
Proof. unfold step_execute_with_engines_and_emit. emits. Qed.
Lemma preserves_verify_emit h env ctx now :
  preserves I (step_verify_with_engine_and_emit h env ctx now).
Proof. unfold step_verify_with_engine_and_emit. emits. Qed.
#[local] Hint Resolve preserves_queue_emit preserves_execute_emit preserves_verify_emit : frame.
Lemma preserves_verify_inject h d env ctx now :
  preserves I (step_verify_inject_failure_and_emit h d env ctx now).
Proof. unfold step_verify_inject_failure_and_emit. emits. Qed.
Lemma preserves_rollback d env ctx now g :
  preserves I (step_rollback_with_driver values d env ctx now g).
Proof. unfold step_rollback_with_driver. rt_frame. Qed.
#[local] Hint Resolve preserves_verify_inject preserves_rollback : frame.
Lemma preserves_rollback_emit d env ctx now g :
  preserves I (step_rollback_with_driver_and_emit values d env ctx now g).
Proof. unfold step_rollback_with_driver_and_emit. emits.
  match goal with |- preserves _ (emitting _ (match ?o with _ => _ end)) => destruct o end;
    apply preserves_emit.
Qed.
Lemma preserves_received env c : preserves I (received env c).
Proof. unfold received. emits. Qed.
Lemma preserves_finish c : preserves I (finish (K := K) (S := S) (A := A) c).
Proof. unfold finish. rt_frame. Qed.
#[local] Hint Resolve preserves_rollback_emit preserves_received preserves_finish : frame.

Lemma preserves_pipeline amb cfg env ctx : preserves I (run_pipeline values amb cfg env ctx).
Proof.
  intros w. unfold run_pipeline.
  destruct (is_some (sink w)); [destruct (is_some (rollback_driver cfg))|]; revert w.
  - change (preserves I (run_with_full_engines_and_evidence_and_rollback values amb (hooks cfg)
      (adapter_registry cfg) (rollback_driver cfg) env ctx)).
    unfold run_with_full_engines_and_evidence_and_rollback. rt_frame.
  - change (preserves I (run_with_full_engines_and_evidence values amb (hooks cfg)
      (adapter_registry cfg) env ctx)).
    unfold run_with_full_engines_and_evidence. rt_frame.
  - change (preserves I (run_with_full_engines values amb (hooks cfg) (adapter_registry cfg) env ctx)).
    unfold run_with_full_engines. rt_frame.
Qed.

Lemma preserves_request_approval amb env ctx req :
  preserves I (step_request_approval amb env ctx req).
Proof.
  intros w Hw. unfold step_request_approval. destruct (negb (bool_decide _)); [done|].
  destruct (negb _); [done|]. apply (preserves_at I); [emits|done].
Qed.
#[local] Hint Resolve preserves_request_approval preserves_pipeline : frame.

Lemma preserves_park amb env ctx : preserves I (park_for_approval amb env ctx).
Proof.
  intros w Hw. unfold park_for_approval. destruct (_ && _); [|done].
  apply (preserves_at I); [rt_frame|done].
Qed.
#[local] Hint Resolve preserves_park : frame.

Lemma preserves_submit_action amb cfg env rc : preserves I (submit_action values amb cfg env rc).
Proof. unfold submit_action. rt_frame. Qed.

Lemma preserves_consume_step amb env ctx id req :
  preserves I (step_consume_binding amb env ctx id req).
Proof. unfold step_consume_binding, deny_binding. emits. Qed.

Lemma preserves_queue_step amb env ctx : preserves I (queue_step amb env ctx).
Proof.
  intros w Hw. unfold queue_step. destruct (is_some _); apply (preserves_at I); auto with frame.
Qed.
Lemma preserves_execute_step amb cfg env ctx : preserves I (execute_step values amb cfg env ctx).
Proof.
  intros w Hw. unfold execute_step. destruct (is_some _); apply (preserves_at I); auto with frame.
Qed.
Lemma preserves_verify_step amb cfg env ctx : preserves I (verify_step amb cfg env ctx).
Proof.
  intros w Hw. unfold verify_step. destruct (is_some _); apply (preserves_at I); auto with frame.
Qed.
#[local] Hint Resolve preserves_consume_step preserves_queue_step preserves_execute_step
  preserves_verify_step : frame.

Lemma preserves_resume amb cfg id env rc bid :
  preserves I (resume_with_binding values amb cfg id env rc bid).
Proof.
  intros w Hw. unfold resume_with_binding. apply (I_rctx w (Some rc)) in Hw.
  destruct (negb (is_some _)); [done|]. destruct (contexts _ !! id) as [c|]; [|done].
  destruct (negb (bool_decide _)); [done|]. apply (preserves_at I); [rt_frame|done].
Qed.
End Frames.

(** ** The specification: the status an action ends in

    [outcome] is a pure function of the inputs and of the engines' answers; it
    has no evidence, no queue update, no monad. *)
Definition invalid_envelope (env : Envelope.t) : bool :=
  str_is_empty (skip_whitespace (kind_of env)) || str_is_empty (skip_whitespace (subject_of env)).

Definition policy_verdict (env : Envelope.t) (rc : RuntimeContext.t) (w : W) : option t :=
  match kernel w with
  | None => Some Approved
  | Some k =>
      match (evaluate_policy env (RuntimeContext.policy_context rc) k).1 with
      | Ok d => match decision d with
                | Decision.Allow => Some Approved
                | Decision.RequireApproval => Some ApprovalPending
                | Decision.Deny => Some PolicyDenied
                | Decision.Unspecified => None
                end
      | Err SubjectUnauthenticated => Some PolicyDenied
      | Err _ => None
      end
  end.

Definition classified (env : Envelope.t) : ActionContext.t :=
  ActionContext.set_queue_class (ActionDispatcher.select_queue_class env false) (fresh_context "" 0).

Definition admitted (amb : RtAmbient) (env : Envelope.t) (q : option DispatchQueue.t) : bool :=
  match q with
  | None => true
  | Some q => is_ok (DispatchQueue.enroll (bucket_created amb) (bucket_asked amb) (classified env)
                       (subject_of env) q).1
  end.

Definition dispatch_refused (cfg : Config) (env : Envelope.t) : bool :=
  match adapter_registry cfg with
  | None => false
  | Some g =>
      match Registry.lookup_for_target values (kind_of env) g with
      | None => true
      | Some r => adapter_requires_recovery (Registry.manifest r) (kind_of env)
                  && match recovery_hook (hooks cfg) with Some mode => negb mode | None => false end
      end
  end.

Definition engine_passes (h : Hooks) (env : Envelope.t) (action_id : string) : bool :=
  match verification_engine h, verification_intent_json env with
  | Some engine, Some intent => match engine intent action_id with Ok b => b | Err _ => false end
  | _, _ => true
  end.

(** The rollback driver only takes part when evidence is emitted. *)
Definition driver_in_use (cfg : Config) (w : W) : option RollbackDriver.t :=
  if is_some (sink w) then rollback_driver cfg else None.

Definition verified (amb : RtAmbient) (cfg : Config) (env : Envelope.t) (w : W) : bool :=
  match driver_in_use cfg w with
  | Some d => negb (RollbackDriver.inject_verify_failure d)
              && engine_passes (hooks cfg) env (fresh_action_id amb)
  | None => engine_passes (hooks cfg) env (fresh_action_id amb)
  end.

Definition rolled_back (cfg : Config) (env : Envelope.t) (w : W) : option t :=
  match driver_in_use cfg w with
  | None => Some Failed
  | Some d =>
      match g ← adapter_registry cfg; Registry.lookup_for_target values (kind_of env) g with
      | None => Some Failed
      | Some r =>
          match declared_strategy (Registry.manifest r) (kind_of env) with
          | Ok st => Some (RollbackDriver.classify_terminal (RollbackDriver.run_rollback st d))
          | Err _ => None
          end
      end
  end.

Definition outcome (amb : RtAmbient) (cfg : Config) (env : Envelope.t) (rc : RuntimeContext.t)
    (w : W) : option t :=
  if provenance_refuses (hooks cfg) env || invalid_envelope env then Some Failed
  else match policy_verdict env rc w with
       | Some Approved =>
           if negb (admitted amb env (queue w)) || dispatch_refused cfg env then Some Failed
           else if verified amb cfg env w then Some Succeeded
           else rolled_back cfg env w
       | v => v
       end.

(** The attached sinks never refuse a record of the runtime or a request. *)
Definition accepting : Prop :=
  (forall b (s : S), Receipt.b_subject b = CAPABILITY_RUNTIME_SUBJECT ->
     is_ok (append_signed b s).1 = true) /\
  (forall r (a : A), is_ok (submit_request r a).1 = true).

(** ** Step lemmas *)
Section Steps.
Variable E : RuntimeError.t -> W -> Prop.
Hypothesis E_refused : ~ accepting -> forall e w, E e w.

(** What the later steps read of a context: its status and its action id. *)
Definition at_ (s : t) (id : string) (c : ActionContext.t) : Prop :=
  ActionContext.status c = s /\ ActionContext.action_id c = id.

Lemma post_emit f rt rc ctx p s id w :
  at_ s id ctx ->
  post (emitting ctx (EvidenceEmitter.emit_with_retention f rt rc ctx p))
    (fun c _ => at_ s id c) E w.
Proof.
  intros Hs. unfold post, emitting, EvidenceEmitter.emit_with_retention.
  destruct (sink w) as [sk|]; [|done].
  match goal with |- context [append_signed ?b sk] => destruct (append_signed b sk) as [[r|e] s'] eqn:Ea end;
    [done|].
  apply E_refused. intros [Hacc _]. match type of Ea with append_signed ?b _ = _ => specialize (Hacc b sk eq_refl) end.
  by rewrite Ea in Hacc.
Qed.

Lemma at_transition s s' id now c :
  at_ s id c -> step s s' ->
  exists c', apply_transition c s' now = Ok c' /\ at_ s' id c'.
Proof.
  intros [Hs Hi] Hst. exists (ActionContext.set_status s' now c). split; [|done].
  apply apply_transition_step. by rewrite Hs.
Qed.

Lemma at_error s id e c : at_ s id c -> at_ s id (ActionContext.set_error e c).
Proof. done. Qed.
End Steps.

(** Advance through one transition of a context whose state is known. *)
Ltac transit Hc :=
  match goal with
  | |- context [apply_transition ?c ?s' ?now] =>
      let c' := fresh "c" in let Ht := fresh "Ht" in let Hc' := fresh "Hc" in
      destruct (at_transition _ s' _ now c Hc ltac:(reflexivity)) as (c' & Ht & Hc');
      rewrite Ht; clear Ht; cbn [result_bind]
  end.

Lemma validate_at h env now rec id c :
  at_ Created id c ->
  exists c', at_ (if provenance_refuses h env || invalid_envelope env then Failed else PolicyPending) id c' /\
    step_validate_with_provenance_and_sandbox h env c now rec
    = Ok (if provenance_refuses h env || invalid_envelope env then ShortCircuit c' else Continue c').
Proof.
  intros Hc. unfold step_validate_with_provenance_and_sandbox, refuse_provenance, step_validate.
  fold (invalid_envelope env).
  destruct (provenance_refuses h env); cbn [orb];
    [transit Hc; eexists; split; [|reflexivity]; done|].
  assert (at_ Created id (compose_sandbox h env rec c)) as Hc'.
  { unfold compose_sandbox. by repeat case_match. }
  destruct (invalid_envelope env); transit Hc'; eexists; (split; [|reflexivity]); done.
Qed.

(** *** Policy *)
Definition policy_post (env : Envelope.t) (rc : RuntimeContext.t) (id : string) (w : W)
    (st : PipelineState) (w' : W) : Prop :=
  exists s, policy_verdict env rc w = Some s /\
    match st with
    | Continue c => s = Approved /\ at_ Approved id c
    | ShortCircuit c => (s = ApprovalPending \/ s = PolicyDenied) /\ at_ s id c
    end.

Section StepPosts.
Variable E : RuntimeError.t -> W -> Prop.
Hypothesis E_refused : ~ accepting -> forall e w, E e w.

Lemma apply_decision_post rc d now id c w w0 env :
  (policy_verdict env rc w0 = None -> forall e w, E e w) ->
  policy_verdict env rc w0 = match decision d with
    | Decision.Allow => Some Approved | Decision.RequireApproval => Some ApprovalPending
    | Decision.Deny => Some PolicyDenied | Decision.Unspecified => None end ->
  at_ PolicyPending id c ->
  post (apply_decision rc d c now)
    (fun st w' => policy_post env rc id w0 st w' /\
       (match decision d with Decision.Allow => exists c, st = Continue c | _ => exists c, st = ShortCircuit c end)) E w.
Proof.
  intros HE Hv Hc. unfold apply_decision, post, policy_post, mbind_, lift, install_policy, modify, ret.
  destruct (decision d); [by apply HE|transit Hc..]; cbn -[at_].
  - destruct (_ && _); cbn -[at_]; split; eauto 10.
  - split; eauto 10.
  - split; eauto 10.
Qed.

Lemma policy_error_post rc e now id c w w0 env :
  (policy_verdict env rc w0 = None -> forall e w, E e w) ->
  policy_verdict env rc w0 = match e with SubjectUnauthenticated => Some PolicyDenied | _ => None end ->
  at_ PolicyPending id c ->
  post (apply_policy_error e c now) (policy_post env rc id w0) E w.
Proof.
  intros HE Hv Hc. unfold apply_policy_error, post, policy_post.
  destruct e; try (by apply HE).
  unfold mbind_, lift, install_policy, modify, ret. transit Hc. cbn -[at_]. eauto 10.
Qed.

Lemma policy_step_post env rc now id c w :
  (policy_verdict env rc w = None -> forall e w, E e w) ->
  rctx w = Some rc -> at_ PolicyPending id c ->
  post (step_policy_evaluate_with_kernel env c now) (policy_post env rc id w) E w.
Proof.
  intros HE Hr Hc. unfold post, step_policy_evaluate_with_kernel.
  destruct (kernel w) as [k|] eqn:Ek; rewrite ?Hr.
  - destruct (evaluate_policy _ _ k) as [[d|e] k'] eqn:Ev.
    + eapply post_mono; [apply apply_decision_post with (w0 := w) (env := env)|by intros ?? [? _]|done];
        try done. unfold policy_verdict. by rewrite Ek, Ev.
    + apply policy_error_post with (w0 := w); try done.
      unfold policy_verdict. rewrite Ek, Ev. by destruct e.
  - unfold lift, step_policy_evaluate. transit Hc. unfold policy_post, policy_verdict. rewrite Ek. eauto.
Qed.

Lemma policy_emit_post env rc now id c w :
  (policy_verdict env rc w = None -> forall e w, E e w) ->
  rctx w = Some rc -> at_ PolicyPending id c ->
  post (step_policy_evaluate_with_kernel_and_emit env c now) (policy_post env rc id w) E w.
Proof.
  intros HE Hr Hc. unfold post, step_policy_evaluate_with_kernel_and_emit.
  destruct (kernel w) as [k|] eqn:Ek; rewrite ?Hr.
  - destruct (evaluate_policy _ _ k) as [[d|e] k'] eqn:Ev.
    + match goal with |- match ?m ?w1 with _ => _ end => change (post m (policy_post env rc id w) E w1) end.
      eapply post_bind.
      { apply apply_decision_post with (w0 := w) (env := env); try done.
        unfold policy_verdict. by rewrite Ek, Ev. }
      intros st w' [(s & Hv & Hst) Hd]. cbv zeta.
      assert (at_ s id (into_context st)) as Ha by (destruct st; naive_solver).
      eapply post_bind; [by apply post_emit|]. intros c' w'' Hc'. apply post_ret. exists s.
      split; [done|]. destruct (decision d), Hd as [c0 ->]; naive_solver.
    + apply policy_error_post with (w0 := w); try done.
      unfold policy_verdict. rewrite Ek, Ev. by destruct e.
  - unfold lift, step_policy_evaluate. transit Hc. unfold policy_post, policy_verdict. rewrite Ek. eauto.
Qed.

(** *** Queue *)
Lemma enroll_result t1 t2 c c' subj q :
  ActionContext.queue_class c = ActionContext.queue_class c' ->
  match (DispatchQueue.enroll t1 t2 c subj q).1 with
  | Ok x => x = c /\ is_ok (DispatchQueue.enroll t1 t2 c' subj q).1 = true
  | Err e => is_ok (DispatchQueue.enroll t1 t2 c' subj q).1 = false /\
             ((exists k, e = RuntimeError.QueueFull k) \/ exists s, e = RuntimeError.RateLimited s)
  end.
Proof.
  intros Hq. unfold DispatchQueue.enroll. rewrite Hq.
  destruct (DispatchQueue.take_token t1 t2 subj q) as [[] q']; simpl; [|eauto].
  destruct (_ <? _)%Z; simpl; [eauto|]. destruct (bool_decide _ && _); simpl; eauto.
Qed.

Definition queue_post (amb : RtAmbient) (env : Envelope.t) (id : string) (q : option DispatchQueue.t)
    (st : PipelineState) (w' : W) : Prop :=
  match st with
  | Continue c => admitted amb env q = true /\ at_ Queued id c
  | ShortCircuit c => admitted amb env q = false /\ at_ Failed id c
  end.

Lemma queue_step_post amb env id c w :
  at_ Approved id c ->
  post (step_queue_with_engine amb env c) (queue_post amb env id (queue w)) E w.
Proof.
  intros Hc. unfold post, step_queue_with_engine, queue_post, admitted.
  destruct (queue w) as [q|]; [|unfold lift, step_queue; transit Hc; done].
  assert (at_ Approved id (ActionContext.set_queue_class (ActionDispatcher.select_queue_class env false) c))
    as Hc' by done.
  destruct (at_transition _ Queued _ (now amb) _ Hc' ltac:(reflexivity)) as (c1 & Ht & Hc1).
  pose proof (apply_transition_ok _ _ _ _ Ht) as [_ Hc1'].
  rewrite Ht.
  pose proof (enroll_result (bucket_created amb) (bucket_asked amb) c1 (classified env)
    (subject_of env) q ltac:(by rewrite Hc1')) as He.
  destruct (DispatchQueue.enroll _ _ c1 _ q) as [[x|e] q']; simpl in He.
  - destruct He as [-> ->]. done.
  - destruct He as [-> [[k ->]|[s ->]]]; unfold mbind_, lift; transit Hc1; done.
Qed.

Lemma queue_emit_post amb env id c w :
  at_ Approved id c ->
  post (step_queue_with_engine_and_emit amb env c) (queue_post amb env id (queue w)) E w.
Proof.
  intros Hc. unfold step_queue_with_engine_and_emit. cbv zeta.
  eapply post_bind; [by apply queue_step_post|]. intros [c1|c1] w1 [Ha Hc1]; [|by apply post_ret].
  eapply post_bind; [by apply post_emit|]. intros c2 w2 Hc2.
  apply (post_bind _ _ (fun c _ => at_ Queued id c));
    [|intros c3 w3 Hc3; apply post_ret; by split].
  destruct (is_some _); [by apply post_emit|by apply post_ret].
Qed.

(** *** Dispatch, verification, rollback *)
Definition dispatch_post (cfg : Config) (env : Envelope.t) (id : string)
    (st : PipelineState) (w' : W) : Prop :=
  match st with
  | Continue c => dispatch_refused cfg env = false /\ at_ Executing id c
  | ShortCircuit c => dispatch_refused cfg env = true /\ at_ Failed id c
  end.

Lemma execute_at cfg env now id c :
  at_ Queued id c ->
  exists st, step_execute_with_engines values (hooks cfg) env c now (adapter_registry cfg) = Ok st /\
    forall w, dispatch_post cfg env id st w.
Proof.
  intros Hc. unfold step_execute_with_engines, dispatch_post, dispatch_refused.
  destruct (adapter_registry cfg) as [g|]; [|transit Hc; by eexists].
  destruct (Registry.lookup_for_target _ _ _) as [r|]; [|transit Hc; by eexists].
  destruct (_ && _); cbv zeta; [transit Hc; by eexists|].
  match goal with |- context [ActionContext.set_dispatch_kind ?k c] =>
    assert (at_ Queued id (ActionContext.set_dispatch_kind k c)) as Hc' by done end.
  transit Hc'. by eexists.
Qed.

Lemma execute_post cfg env now id c w :
  at_ Queued id c ->
  post (lift (step_execute_with_engines values (hooks cfg) env c now (adapter_registry cfg)))
    (dispatch_post cfg env id) E w.
Proof. intros Hc. destruct (execute_at cfg env now id c Hc) as (st & Hs & Hp). by eapply post_lift_ok. Qed.

Lemma execute_emit_post cfg env now id c w :
  at_ Queued id c ->
  post (step_execute_with_engines_and_emit values (hooks cfg) env c now (adapter_registry cfg))
    (dispatch_post cfg env id) E w.
Proof.
  intros Hc. unfold step_execute_with_engines_and_emit. cbv zeta.
  eapply post_bind; [by apply execute_post|]. intros [c1|c1] w1 [Ha Hc1]; [|by apply post_ret].
  apply (post_bind _ _ (fun c _ => at_ Executing id c)).
  { destruct (is_some _); [by apply post_emit|by apply post_ret]. }
  intros c2 w2 Hc2. eapply post_bind; [by apply post_emit|]. intros. by apply post_ret.
Qed.

Definition verify_post (passed : bool) (id : string) (st : PipelineState) (w' : W) : Prop :=
  match st with
  | Continue c => passed = false /\ at_ Failed id c
  | ShortCircuit c => passed = true /\ at_ Succeeded id c
  end.

Lemma verify_at h env now id c :
  at_ Executing id c ->
  exists st, step_verify_with_engine h env c now = Ok st /\
    forall w, verify_post (engine_passes h env id) id st w.
Proof.
  intros Hc. unfold step_verify_with_engine, step_verify, engine_passes, verify_post.
  destruct (verification_engine h) as [e|], (verification_intent_json env) as [i|];
    transit Hc; try (transit Hc0; by eexists).
  rewrite (proj2 Hc0). destruct (match e i id with Ok b => b | Err _ => false end);
    transit Hc0; by eexists.
Qed.

Lemma verify_post_plain h env now id c w :
  at_ Executing id c ->
  post (lift (step_verify_with_engine h env c now)) (verify_post (engine_passes h env id) id) E w.
Proof. intros Hc. destruct (verify_at h env now id c Hc) as (st & Hs & Hp). by eapply post_lift_ok. Qed.

Lemma verify_emit_post h env now id c w :
  at_ Executing id c ->
  post (step_verify_with_engine_and_emit h env c now) (verify_post (engine_passes h env id) id) E w.
Proof.
  intros Hc. unfold step_verify_with_engine_and_emit.
  eapply post_bind; [by apply (post_emit E E_refused _ _ _ _ _ Executing id)|]. intros c1 w1 Hc1.
  eapply post_bind; [by apply (verify_post_plain h env now id)|]. intros st w2 Hst. cbv zeta.
  set (s := if engine_passes h env id then Succeeded else Failed).
  assert (at_ s id (into_context st)) as Ha
    by (destruct st; destruct Hst as [Hp Hst]; unfold s; by rewrite Hp).
  rewrite (proj1 Ha).
  eapply post_bind; [by apply post_emit|]. intros c3 w3 Hc3. apply post_ret. unfold s in *.
  destruct (engine_passes h env id);
    [rewrite bool_decide_eq_true_2 by done|rewrite bool_decide_eq_false_2 by done]; done.
Qed.

Definition injected (driver : option RollbackDriver.t) : bool :=
  match driver with Some d => RollbackDriver.inject_verify_failure d | None => false end.

Lemma verify_inject_post h driver env now id c w :
  at_ Executing id c ->
  post (step_verify_inject_failure_and_emit h driver env c now)
    (verify_post (negb (injected driver) && engine_passes h env id) id) E w.
Proof.
  intros Hc. unfold step_verify_inject_failure_and_emit. fold (injected driver).
  destruct (injected driver); cbn [negb andb]; [|by apply verify_emit_post].
  eapply post_bind; [by apply post_emit|]. intros c1 w1 Hc1.
  destruct (at_transition _ Verifying _ now _ Hc1 ltac:(reflexivity)) as (c2 & Ht & Hc2).
  eapply (post_bind _ _ (fun c _ => at_ Verifying id c)); [by eapply post_lift_ok|].
  intros c3 w3 Hc3.
  destruct (at_transition _ Failed _ now _ Hc3 ltac:(reflexivity)) as (c4 & Ht4 & Hc4).
  eapply (post_bind _ _ (fun c _ => at_ Failed id c)); [by eapply post_lift_ok|].
  intros c5 w5 Hc5. cbv zeta. eapply post_bind; [by apply post_emit|].
  intros c6 w6 Hc6. by apply post_ret.
Qed.

(** Rollback from [Failed]: what the driver decides, or a malformed manifest. *)
Definition rollback_verdict (driver : option RollbackDriver.t) (cfg : Config) (env : Envelope.t)
    : option t :=
  match driver with
  | None => Some Failed
  | Some d =>
      match g ← adapter_registry cfg; Registry.lookup_for_target values (kind_of env) g with
      | None => Some Failed
      | Some r =>
          match declared_strategy (Registry.manifest r) (kind_of env) with
          | Ok st => Some (RollbackDriver.classify_terminal (RollbackDriver.run_rollback st d))
          | Err _ => None
          end
      end
  end.

Lemma rollback_post driver cfg env now id c w :
  (rollback_verdict driver cfg env = None -> forall e w, E e w) ->
  at_ Failed id c ->
  post (step_rollback_with_driver values driver env c now (adapter_registry cfg))
    (fun so _ => exists s, rollback_verdict driver cfg env = Some s /\ at_ s id (into_context so.1)) E w.
Proof.
  intros HE Hc. unfold step_rollback_with_driver, rollback_verdict in *.
  destruct driver as [d|]; [|by apply post_ret; eexists].
  rewrite (proj1 Hc). rewrite bool_decide_eq_true_2 by done. cbn [negb].
  destruct (g ← adapter_registry cfg; _) as [r|]; [|by apply post_ret; eexists].
  destruct (declared_strategy _ _) as [st|e] eqn:Es; [|by apply HE].
  eapply post_bind; [by eapply (post_lift_ok _ st (fun b _ => b = st))|]. intros b w1 ->. cbv zeta.
  destruct (RollbackDriver.run_rollback st d) eqn:Eo; cbn [RollbackDriver.classify_terminal].
  - apply post_ret. by eexists.
  - match goal with |- context [apply_transition ?x _ _] =>
      assert (at_ Failed id x) as Hx by done;
      destruct (at_transition _ RolledBack _ now _ Hx ltac:(reflexivity)) as (c2 & Ht & Hc2) end.
    eapply post_bind; [by eapply (post_lift_ok _ c2 (fun b _ => b = c2))|].
    intros b w2 ->. apply post_ret. by eexists.
  - match goal with |- context [apply_transition ?x _ _] =>
      assert (at_ Failed id x) as Hx by done;
      destruct (at_transition _ RollbackFailed _ now _ Hx ltac:(reflexivity)) as (c2 & Ht & Hc2) end.
    eapply post_bind; [by eapply (post_lift_ok _ c2 (fun b _ => b = c2))|].
    intros b w2 ->. eapply (post_bind _ _ (fun _ _ => True)); [done|]. intros _ w3 _.
    apply post_ret. by eexists.
  - apply post_ret. by eexists.
Qed.

Lemma rollback_emit_post driver cfg env now id c w :
  (rollback_verdict driver cfg env = None -> forall e w, E e w) ->
  at_ Failed id c ->
  post (step_rollback_with_driver_and_emit values driver env c now (adapter_registry cfg))
    (fun st _ => exists s, rollback_verdict driver cfg env = Some s /\ at_ s id (into_context st)) E w.
Proof.
  intros HE Hc. unfold step_rollback_with_driver_and_emit.
  eapply post_bind; [by apply rollback_post|]. intros [st o] w1 (s & Hv & Ha). simpl in *.
  destruct o as [o|]; [|apply post_ret; eauto]. cbv zeta.
  eapply (post_bind _ _ (fun c _ => at_ s id c)).
  { unfold EvidenceEmitter.emit_rollback_completed. destruct o; by apply post_emit. }
  intros c2 w2 Hc2. apply post_ret. eauto.
Qed.

Lemma request_approval_post amb env req id c w :
  at_ ApprovalPending id c ->
  post (step_request_approval amb env c req) (fun st _ => at_ ApprovalPending id (into_context st)) E w.
Proof.
  intros Hc. unfold step_request_approval, post. rewrite (proj1 Hc).
  rewrite bool_decide_eq_true_2 by done. cbn [negb].
  destruct (approvals w) as [a|] eqn:Ea; cbn [is_some negb]; [|done]. cbv zeta.
  match goal with |- match ?m w with _ => _ end =>
    change (post m (fun st _ => at_ ApprovalPending id (into_context st)) E w) end.
  eapply (post_bind _ _ (fun _ _ => True)).
  { unfold post, submit_to. rewrite Ea. destruct (submit_request _ a) as [[[]|e] a'] eqn:Es; [done|].
    apply E_refused. intros [_ Hacc]. match type of Es with submit_request ?r _ = _ => specialize (Hacc r a) end.
    by rewrite Es in Hacc. }
  intros _ w1 _. eapply post_bind; [by apply post_emit|]. intros c2 w2 Hc2. by apply post_ret.
Qed.

Lemma park_post amb env id s c w :
  at_ s id c -> post (park_for_approval amb env c) (fun c _ => at_ s id c) E w.
Proof.
  intros Hc. unfold park_for_approval, post. rewrite (proj1 Hc).
  case_bool_decide as Es; cbn [andb]; [|done]. subst s.
  destruct (is_some (approvals w)); [|done].
  match goal with |- match ?m w with _ => _ end =>
    change (post m (fun c _ => at_ ApprovalPending id c) E w) end.
  eapply post_bind; [by apply request_approval_post|]. intros st w1 Hst. by apply post_ret.
Qed.
End StepPosts.


(** ** The drivers implement the specification *)
Lemma policy_verdict_kernel env rc (w w' : W) : kernel w' = kernel w ->
  policy_verdict env rc w' = policy_verdict env rc w.
Proof. unfold policy_verdict. by intros ->. Qed.

Lemma frame_policy env c now (w : W) :
  preserves (fun w' : W => queue w' = queue w) (step_policy_evaluate_with_kernel env c now).
Proof. by apply preserves_policy. Qed.
Lemma frame_policy_emit env c now (w : W) :
  preserves (fun w' : W => queue w' = queue w) (step_policy_evaluate_with_kernel_and_emit env c now).
Proof. by apply preserves_policy_emit. Qed.
Lemma frame_received env c (w : W) :
  preserves (fun w' : W => kernel w' = kernel w /\ rctx w' = rctx w /\ queue w' = queue w)
    (received env c).
Proof. by apply preserves_received. Qed.

Section Drivers.
Variables (amb : RtAmbient) (cfg : Config) (env : Envelope.t) (rc : RuntimeContext.t) (w0 : W).
Abbreviation id := (fresh_action_id amb).
Abbreviation spec := (outcome amb cfg env rc w0).

Definition failing : RuntimeError.t -> W -> Prop := fun _ _ => spec = None \/ ~ accepting.
Definition meets : ActionContext.t -> W -> Prop :=
  fun c _ => exists s, spec = Some s /\ at_ s id c.

Lemma failing_refused : ~ accepting -> forall e w, failing e w.
Proof. intros Hn e w. by right. Qed.

Hypothesis Hvalid : provenance_refuses (hooks cfg) env || invalid_envelope env = false.

(** Steps 4 to 6 and what follows them, for either form of the steps. *)
Lemma tail_meets (mq : ActionContext.t -> M PipelineState) me mv mr (driver : option RollbackDriver.t) c w :
  policy_verdict env rc w0 = Some Approved -> queue w = queue w0 ->
  driver_in_use cfg w0 = driver -> at_ Approved id c ->
  (forall c w, at_ Approved id c -> post (mq c) (queue_post amb env id (queue w)) failing w) ->
  (forall c w, at_ Queued id c -> post (me c) (dispatch_post cfg env id) failing w) ->
  (forall c w, at_ Executing id c ->
     post (mv c) (verify_post (negb (injected driver) && engine_passes (hooks cfg) env id) id) failing w) ->
  (forall c w, (rollback_verdict driver cfg env = None -> forall e w, failing e w) ->
     at_ Failed id c ->
     post (mr c) (fun c _ => exists s, rollback_verdict driver cfg env = Some s /\ at_ s id c) failing w) ->
  post (let> c := mq c in let> c := me c in let> c := mv c in mr c) meets failing w.
Proof.
  intros Hp Hq Hd Hc Hmq Hme Hmv Hmr.
  assert (spec = if negb (admitted amb env (queue w0)) || dispatch_refused cfg env then Some Failed
    else if negb (injected driver) && engine_passes (hooks cfg) env id then Some Succeeded
    else rollback_verdict driver cfg env) as Hspec.
  { unfold outcome. rewrite Hvalid, Hp. unfold verified, rolled_back. rewrite Hd.
    unfold rollback_verdict, injected. by destruct driver. }
  eapply post_on_continue; [by apply Hmq| |].
  2: { intros c1 w1 [Ha Hc1]. rewrite Hq in Ha. exists Failed. rewrite Hspec, Ha. done. }
  intros c1 w1 [Ha Hc1]. rewrite Hq in Ha.
  eapply post_on_continue; [by apply Hme| |].
  2: { intros c2 w2 [Hr Hc2]. exists Failed. rewrite Hspec, Ha, Hr. done. }
  intros c2 w2 [Hr Hc2]. eapply post_on_continue; [by apply Hmv| |].
  2: { intros c3 w3 [Hv Hc3]. exists Succeeded. rewrite Hspec, Ha, Hr, Hv. done. }
  intros c3 w3 [Hv Hc3]. rewrite Ha, Hr, Hv in Hspec. cbn [negb orb] in Hspec.
  eapply post_mono; [apply Hmr; [|done]| |done].
  - intros Hn e w4. left. by rewrite Hspec.
  - intros c4 w4 (s & Hs & Hc4). exists s. by rewrite Hspec.
Qed.

Lemma no_rollback_meets c w :
  at_ Failed id c ->
  post (let> c := lift (step_rollback c) in finish c)
    (fun c _ => exists s, rollback_verdict None cfg env = Some s /\ at_ s id c) failing w.
Proof. intros Hc. unfold post, on_continue, mbind_, lift. cbn -[at_ post]. by exists Failed. Qed.

Lemma policy_stop st w s c :
  policy_verdict env rc w0 = Some s -> (s = ApprovalPending \/ s = PolicyDenied) -> at_ s id c ->
  st = ShortCircuit c -> meets c w.
Proof.
  intros Hv Hs Hc _. exists s. split; [|done]. unfold outcome. rewrite Hvalid, Hv.
  by destruct Hs as [-> | ->].
Qed.

Lemma policy_none : policy_verdict env rc w0 = None -> forall e w, failing e w.
Proof. intros Hn e w. left. unfold outcome. by rewrite Hvalid, Hn. Qed.
End Drivers.

Lemma driver_none_injected (driver : option RollbackDriver.t) h env id :
  driver = None -> negb (injected driver) && engine_passes h env id = engine_passes h env id.
Proof. by intros ->. Qed.

(** Steps 1 to 3 with their evidence. *)
Lemma emitting_front amb cfg env rc c w (k : ActionContext.t -> M ActionContext.t) :
  provenance_refuses (hooks cfg) env || invalid_envelope env = false ->
  rctx w = Some rc -> at_ PolicyPending (fresh_action_id amb) c ->
  (forall c' w', policy_verdict env rc w = Some Approved -> queue w' = queue w ->
     at_ Approved (fresh_action_id amb) c' ->
     post (k c') (meets amb cfg env rc w) (failing amb cfg env rc w) w') ->
  post (let> c := received env c in
        let> c := step_policy_evaluate_with_kernel_and_emit env c (now amb) in
        let> c := lift (step_request_approval_passthrough c) in k c)
    (meets amb cfg env rc w) (failing amb cfg env rc w) w.
Proof.
  intros Hv Hr Hc Hk. pose proof (failing_refused amb cfg env rc w) as HE.
  eapply (post_on_continue _ _ (fun st w1 =>
    (exists c1, st = Continue c1 /\ at_ PolicyPending (fresh_action_id amb) c1) /\
    kernel w1 = kernel w /\ rctx w1 = rctx w /\ queue w1 = queue w)).
  { apply post_frame; [apply frame_received|done|]. unfold received.
    eapply post_bind; [by apply post_emit|]. intros c1 w1 Hc1. apply post_ret. eauto. }
  2: { by intros c1 w1 [(? & ? & _) _]. }
  intros c1 w1 [(c1' & [= <-] & Hc1) (Hk1 & Hr1 & Hq1)].
  eapply post_on_continue.
  { apply (post_frame (fun w' => queue w' = queue w1)); [apply frame_policy_emit|done|].
    apply (policy_emit_post _ HE env rc (now amb) (fresh_action_id amb)); [|congruence|done].
    rewrite (policy_verdict_kernel env rc w w1 Hk1). by apply policy_none. }
  all: unfold policy_post; rewrite (policy_verdict_kernel env rc w w1 Hk1).
  - intros c2 w2 [(s & Hs & -> & Ha) Hq]. apply Hk; congruence.
  - intros c2 w2 [(s & Hs & Ho & Ha) _]. by eapply policy_stop.
Qed.

Lemma pipeline_meets amb cfg env rc c w :
  rctx w = Some rc -> at_ Created (fresh_action_id amb) c ->
  post (run_pipeline values amb cfg env c) (meets amb cfg env rc w) (failing amb cfg env rc w) w.
Proof.
  intros Hr Hc. pose proof (failing_refused amb cfg env rc w) as HE.
  assert (forall k, (provenance_refuses (hooks cfg) env || invalid_envelope env = false ->
      forall c', at_ PolicyPending (fresh_action_id amb) c' ->
      post (k c') (meets amb cfg env rc w) (failing amb cfg env rc w) w) ->
    post (let! w := get in
          let> c := lift (step_validate_with_provenance_and_sandbox (hooks cfg) env c (now amb)
                            (in_recovery w)) in k c)
      (meets amb cfg env rc w) (failing amb cfg env rc w) w) as Hfront.
  { intros k Hk. eapply (post_bind _ _ (fun w1 w2 => w1 = w /\ w2 = w)); [done|]. intros ? ? [-> ->].
    destruct (validate_at (hooks cfg) env (now amb) (in_recovery w) _ c Hc) as (c' & Hc' & Hs).
    unfold on_continue. eapply (post_bind _ _ (fun st w2 => w2 = w /\ st = _)); [by rewrite Hs|].
    intros ? ? [-> ->]. destruct (_ || _) eqn:Ev.
    - apply post_ret. exists Failed. unfold outcome. by rewrite Ev.
    - by apply Hk. }
  unfold run_pipeline, post at 1.
  destruct (is_some (sink w)) eqn:Es; [destruct (rollback_driver cfg) as [d|] eqn:Ed|];
    cbn [is_some];
    match goal with |- match ?m w with _ => _ end =>
      change (post m (meets amb cfg env rc w) (failing amb cfg env rc w) w) end.
  - apply Hfront. intros Hv c1 Hc1. apply emitting_front; try done. intros c2 w2 Hp Hq Ha.
    apply (tail_meets amb cfg env rc w Hv (step_queue_with_engine_and_emit amb env)
      (fun c => step_execute_with_engines_and_emit values (hooks cfg) env c (now amb)
                  (adapter_registry cfg))
      (fun c => step_verify_inject_failure_and_emit (hooks cfg) (Some d) env c (now amb))
      (fun c => let! st := step_rollback_with_driver_and_emit values (Some d) env c (now amb)
                  (adapter_registry cfg) in finish (into_context st)) (Some d)); try done.
    + unfold driver_in_use. by rewrite Es.
    + intros. by apply queue_emit_post.
    + intros. by apply execute_emit_post.
    + intros. by apply verify_inject_post.
    + intros c3 w3 Hn Hc3. eapply post_bind; [by apply rollback_emit_post|].
      intros st w4 (s & Hs & Hst). by exists s.
  - apply Hfront. intros Hv c1 Hc1. apply emitting_front; try done. intros c2 w2 Hp Hq Ha.
    apply (tail_meets amb cfg env rc w Hv (step_queue_with_engine_and_emit amb env)
      (fun c => step_execute_with_engines_and_emit values (hooks cfg) env c (now amb)
                  (adapter_registry cfg))
      (fun c => step_verify_with_engine_and_emit (hooks cfg) env c (now amb))
      (fun c => let> c := lift (step_rollback c) in finish c) None); try done.
    + unfold driver_in_use. by rewrite Es.
    + intros. by apply queue_emit_post.
    + intros. by apply execute_emit_post.
    + intros. by apply verify_emit_post.
    + intros. by apply no_rollback_meets.
  - apply Hfront. intros Hv c1 Hc1.
    eapply post_on_continue.
    { apply (post_frame (fun w' => queue w' = queue w)); [apply frame_policy|done|].
      by apply (policy_step_post _ env rc (now amb) (fresh_action_id amb)); [apply policy_none| |]. }
    2: { intros c2 w2 [(s & Hs & Ho & Ha) _]. by eapply policy_stop. }
    intros c2 w2 [(s & Hs & -> & Ha) Hq].
    apply (tail_meets amb cfg env rc w Hv (step_queue_with_engine amb env)
      (fun c => lift (step_execute_with_engines values (hooks cfg) env c (now amb) (adapter_registry cfg)))
      (fun c => lift (step_verify_with_engine (hooks cfg) env c (now amb)))
      (fun c => let> c := lift (step_rollback c) in finish c) None); try done.
    + unfold driver_in_use. by rewrite Es.
    + intros. by apply queue_step_post.
    + intros. by apply execute_post.
    + intros. by apply verify_post_plain.
    + intros. by apply no_rollback_meets.
Qed.

End Props.
End RtSound.
