(* ===== verification/Runtime.v ===== *)
(** * The Capability Runtime: theorems about [submit_action] and [resume_with_binding]

    [submit_action] is proved equal, in the status it leaves, to the pure
    specification [outcome] of [RtSound]; what the runtime promises its callers
    follows from that and from the frame rules.  [Runtime.step] is a run of
    submissions and resumptions.  The module [Governed] puts the runtime under the
    Policy Kernel. *)
From S2P Require Import Prelude Json Action Ids PolicyTypes HardDeny Override Cache Hydration CondParser Bundle Pipeline Kernel Records Redaction Receipt ChainSound StateError Lifecycle DispatchQueue Adapters Approvals Rollback Emit RtPipeline RtSound.

Module Runtime.
Import ActionLifecycleState Lifecycle LifecycleSound RtPipeline RtSound.
Section Props.
Context {K S A : Type} `{Primitives} `{!PolicyKernelT K} `{!EvidenceSink S}
  `{!ApprovalBindingSink A} `{!Texts}.
Variable values : gmap string Registry.RegisteredAdapter -> list Registry.RegisteredAdapter.
Abbreviation W := (World K S A).
Abbreviation M := (M (World K S A) RuntimeError.t).
Abbreviation submit := (submit_action (K := K) (S := S) (A := A) values).
Abbreviation outcome := (RtSound.outcome (K := K) (S := S) (A := A) values).

Lemma submit_post amb cfg env rc (w : W) :
  post (submit amb cfg env rc)
    (fun c w' => outcome amb cfg env rc w = Some (ActionContext.status c) /\
       ActionContext.action_id c = fresh_action_id amb /\
       contexts w' !! fresh_action_id amb = Some c)
    (fun _ _ => outcome amb cfg env rc w = None \/ ~ accepting (S := S) (A := A)) w.
Proof.
  unfold submit_action. eapply (post_bind _ _ (fun _ w1 => w1 = set_rctx (Some rc) w)); [done|].
  intros _ w1 ->. cbv zeta.
  eapply post_bind.
  { apply (pipeline_meets values amb cfg env rc (fresh_context (fresh_action_id amb) (now amb))
      (set_rctx (Some rc) w)); done. }
  intros c w1 (s & Hs & Hc).
  eapply post_bind.
  { apply (park_post _ ltac:(apply (failing_refused values amb cfg env rc (set_rctx (Some rc) w)))
      amb env (fresh_action_id amb) s c). done. }
  intros c2 w2 Hc2. eapply (post_bind _ _ (fun _ w3 => contexts w3 !! fresh_action_id amb = Some c2)).
  { unfold post, store, modify. simpl. by rewrite lookup_insert_eq. }
  intros _ w3 Hl. apply post_ret. destruct Hc2 as [<- Hi]. split_and!; [exact Hs|exact Hi|exact Hl].
Qed.

(** C2: [submit_action] implements the specification: whenever it returns a
    context, the context's status is the one [outcome] computes from the
    envelope, the configuration and the engines' answers, and the context is
    stored under the action's fresh id; it fails only when [outcome] has no
    answer or an attached sink refuses a record. *)
Theorem submit_implements_outcome amb cfg env rc (w : W) :
  match submit amb cfg env rc w with
  | (Ok c, w') =>
      outcome amb cfg env rc w = Some (ActionContext.status c) /\
      ActionContext.action_id c = fresh_action_id amb /\
      get_action_status (fresh_action_id amb) w' = Ok c
  | (Err _, _) => outcome amb cfg env rc w = None \/ ~ accepting (S := S) (A := A)
  end.
Proof.
  pose proof (submit_post amb cfg env rc w) as Hp. unfold post in Hp.
  destruct (submit amb cfg env rc w) as [[c|e] w']; [|done].
  unfold get_action_status. by destruct Hp as (? & ? & ->).
Qed.

(** The statuses at which nothing more happens without a new request. *)
Definition settled (s : t) : Prop :=
  s = PolicyDenied \/ s = ApprovalPending \/ s = Succeeded \/ s = Failed \/ s = RolledBack \/
  s = RollbackFailed.

Lemma outcome_settled amb cfg env rc w s : outcome amb cfg env rc w = Some s -> settled s.
Proof.
  unfold RtSound.outcome, settled. intros Ho.
  destruct (_ || _); [naive_solver|].
  destruct (policy_verdict env rc w) as [v|] eqn:Ev; [|done].
  assert (v = Approved \/ v = ApprovalPending \/ v = PolicyDenied) as Hv.
  { unfold policy_verdict in Ev. repeat case_match; naive_solver. }
  destruct Hv as [-> |[-> | ->]]; [|naive_solver..].
  destruct (_ || _); [naive_solver|]. destruct (verified _ _ _ _); [naive_solver|].
  unfold rolled_back in Ho. repeat case_match; simplify_eq; try naive_solver.
  destruct (RollbackDriver.run_rollback _ _); simpl; naive_solver.
Qed.

Lemma settled_reachable s : settled s -> reaches Created s.
Proof.
  assert (reaches Created Approved) as Ha.
  { apply (rtc_l _ _ PolicyPending); [done|]. by apply rtc_once. }
  assert (reaches Created Verifying) as Hv.
  { etrans; [exact Ha|]. apply (rtc_l _ _ Queued); [done|]. apply (rtc_l _ _ Executing); [done|].
    by apply rtc_once. }
  assert (reaches Created Failed) as Hf by (etrans; [exact Hv|by apply rtc_once]).
  intros [-> |[-> |[-> |[-> |[-> | ->]]]]].
  - apply (rtc_l _ _ PolicyPending); [done|]. by apply rtc_once.
  - apply (rtc_l _ _ PolicyPending); [done|]. by apply rtc_once.
  - etrans; [exact Hv|by apply rtc_once].
  - done.
  - etrans; [exact Hf|by apply rtc_once].
  - etrans; [exact Hf|by apply rtc_once].
Qed.

(** C7: every submission settles: when the attached kernel decides, every adapter
    declares a known rollback strategy for its actions and the sinks accept
    what they are given, [submit_action] returns a context, and its status is
    one of the six at which the runtime leaves an action (never queued,
    executing or verifying), reachable by the transition table. *)
Theorem submissions_settle amb cfg env rc (w : W) :
  policy_verdict env rc w <> None ->
  (forall g r, adapter_registry cfg = Some g ->
     Registry.lookup_for_target values (kind_of env) g = Some r ->
     is_ok (declared_strategy (Registry.manifest r) (kind_of env)) = true) ->
  accepting (S := S) (A := A) ->
  exists c w', submit amb cfg env rc w = (Ok c, w') /\
    settled (ActionContext.status c) /\ reaches Created (ActionContext.status c).
Proof.
  intros Hp Hs Ha. pose proof (submit_post amb cfg env rc w) as Hpost. unfold post in Hpost.
  destruct (submit amb cfg env rc w) as [[c|e] w'].
  - destruct Hpost as (Ho & _ & _). exists c, w'. split; [done|].
    apply outcome_settled in Ho. split; [done|]. by apply settled_reachable.
  - exfalso. destruct Hpost as [Hn|Hn]; [|done]. revert Hn. unfold RtSound.outcome.
    destruct (_ || _); [done|]. destruct (policy_verdict env rc w) as [v|]; [|done].
    destruct v; try done. destruct (_ || _); [done|]. destruct (verified _ _ _ _); [done|].
    unfold rolled_back. destruct (driver_in_use cfg w) as [d|]; [|done].
    destruct (adapter_registry cfg) as [g|] eqn:Eg; simpl; [|done].
    destruct (Registry.lookup_for_target values (kind_of env) g) as [r|] eqn:El; [|done].
    specialize (Hs g r eq_refl El). by destruct (declared_strategy _ _).
Qed.

(** ** Actions the policy does not allow *)
Lemma validate_status h env now rec c c' :
  ActionContext.status c = Created ->
  step_validate_with_provenance_and_sandbox h env c now rec = Ok (Continue c') ->
  ActionContext.status c' = PolicyPending.
Proof.
  intros Hc Hs. destruct (validate_at h env now rec (ActionContext.action_id c) c) as (c2 & H2 & E);
    [by split|]. rewrite E in Hs. destruct (_ || _); [done|]. injection Hs as ->. apply H2.
Qed.

(** The policy step of a driver, either form, when the verdict is not [Approved]. *)
Lemma policy_refuses (m : M PipelineState) env rc id q (w : W) E :
  policy_verdict env rc w <> Some Approved ->
  post m (policy_post env rc id w) E w ->
  preserves (fun w' : W => queue w' = q) m -> queue w = q ->
  post m (fun st w' => (exists c, st = ShortCircuit c) /\ queue w' = q) (fun _ w' => queue w' = q) w.
Proof.
  intros Hn Hp Hf Hq.
  eapply post_mono; [apply (post_and _ _ _ _ _ w Hp (post_preserves _ m w Hf Hq))|..].
  - intros [c|c] w' [(s & Hs & Hst) Hq']; [|split; eauto].
    exfalso. apply Hn. destruct Hst as [-> _]. done.
  - by intros e w' [_ ?].
Qed.

Lemma pipeline_keeps_queue amb cfg env rc c (w : W) :
  policy_verdict env rc w <> Some Approved -> rctx w = Some rc ->
  ActionContext.status c = Created ->
  post (run_pipeline values amb cfg env c) (fun _ w' => queue w' = queue w)
    (fun _ w' => queue w' = queue w) w.
Proof.
  intros Hn Hr Hc.
  assert (forall k : ActionContext.t -> M ActionContext.t,
    (forall c', ActionContext.status c' = PolicyPending ->
       post (k c') (fun _ w' => queue w' = queue w) (fun _ w' => queue w' = queue w) w) ->
    post (let! w := get in
          let> c := lift (step_validate_with_provenance_and_sandbox (hooks cfg) env c (now amb)
                            (in_recovery w)) in k c)
      (fun _ w' => queue w' = queue w) (fun _ w' => queue w' = queue w) w) as Hfront.
  { intros k Hk. unfold post, mbind_ at 1, get, on_continue, mbind_, lift.
    destruct (step_validate_with_provenance_and_sandbox _ _ _ _ _) as [[c'|c']|e] eqn:E; try done.
    apply (Hk c'). by eapply validate_status. }
  assert (forall c' (k : ActionContext.t -> M ActionContext.t),
    ActionContext.status c' = PolicyPending ->
    post (let> c := received env c' in
          let> c := step_policy_evaluate_with_kernel_and_emit env c (now amb) in k c)
      (fun _ w' => queue w' = queue w) (fun _ w' => queue w' = queue w) w) as Hemit.
  { intros c' k Hc'.
    eapply (post_on_continue _ _ (fun st w1 => (exists c1, st = Continue c1 /\
      ActionContext.status c1 = PolicyPending) /\
      kernel w1 = kernel w /\ rctx w1 = rctx w /\ queue w1 = queue w)).
    - assert (post (received env c') (fun st _ => exists c1, st = Continue c1 /\
        at_ PolicyPending (ActionContext.action_id c') c1) (fun _ _ => True) w) as P1.
      { unfold received. eapply post_bind; [by apply (post_emit (fun _ _ => True) (fun _ _ _ => I) _ _ _ _ _
          PolicyPending (ActionContext.action_id c'))|].
        intros c1 w1 Hc1. apply post_ret. eauto. }
      pose proof (post_preserves _ _ w (frame_received env c' w) ltac:(done)) as P2.
      eapply post_mono; [exact (post_and _ _ _ _ _ w P1 P2)|..].
      + intros st w1 [(c1 & -> & Hc1 & _) ?]. eauto.
      + by intros e w1 [_ (_ & _ & ?)].
    - intros c1 w1 [(c1' & [= <-] & Hc1) (Hk1 & Hr1 & Hq1)].
      eapply post_on_continue.
      + eapply (policy_refuses _ env rc (ActionContext.action_id c1) (queue w) w1 (fun _ _ => True)).
        * by rewrite (policy_verdict_kernel env rc w w1 Hk1).
        * apply policy_emit_post; try done. congruence.
        * rewrite <- Hq1. apply frame_policy_emit.
        * done.
      + intros c2 w2 [(? & ?) _]. done.
      + by intros c2 w2 [_ ?].
    - by intros c1 w1 [(? & ? & _) _]. }
  unfold run_pipeline, post at 1.
  destruct (is_some (sink w)); [destruct (rollback_driver cfg)|]; cbn [is_some];
    match goal with |- match ?m w with _ => _ end =>
      change (post m (fun _ w' => queue w' = queue w) (fun _ w' => queue w' = queue w) w) end;
    apply Hfront; intros c' Hc'; [by apply Hemit..|].
  eapply post_on_continue.
  - eapply (policy_refuses _ env rc (ActionContext.action_id c') (queue w) w (fun _ _ => True));
      [done|by apply policy_step_post|apply frame_policy|done].
  - intros c2 w2 [(? & ?) _]. done.
  - by intros c2 w2 [_ ?].
Qed.

Lemma submit_keeps_queue amb cfg env rc (w : W) :
  policy_verdict env rc w <> Some Approved -> queue (submit amb cfg env rc w).2 = queue w.
Proof.
  intros Hn.
  enough (post (submit amb cfg env rc) (fun _ w' => queue w' = queue w)
    (fun _ w' => queue w' = queue w) w) as Hq.
  { unfold post in Hq. by destruct (submit amb cfg env rc w) as [[c|e] w']. }
  unfold submit_action.
  eapply (post_bind _ _ (fun _ w1 => w1 = set_rctx (Some rc) w)); [done|]. intros _ w1 ->.
  eapply post_bind; [by apply (pipeline_keeps_queue amb cfg env rc _ (set_rctx (Some rc) w))|].
  intros c w1 Hq1. eapply post_bind.
  { apply (post_preserves (fun w' => queue w' = queue w)); [|exact Hq1]. by apply preserves_park. }
  intros c2 w2 Hq2. eapply (post_bind _ _ (fun _ w3 => queue w3 = queue w)); [exact Hq2|].
  intros _ w3 Hq3. by apply post_ret.
Qed.

Lemma outcome_not_allowed amb cfg env rc (w : W) s :
  policy_verdict env rc w <> Some Approved -> outcome amb cfg env rc w = Some s ->
  s = Failed \/ s = PolicyDenied \/ s = ApprovalPending.
Proof.
  intros Hn. unfold RtSound.outcome. destruct (_ || _); [naive_solver|].
  destruct (policy_verdict env rc w) as [v|] eqn:Ev; [|done].
  assert (v = ApprovalPending \/ v = PolicyDenied) as [-> | ->]; [|naive_solver..].
  unfold policy_verdict in Ev. repeat case_match; naive_solver.
Qed.

(** C6: what the Policy Kernel does not allow is not executed: when the attached
    kernel denies, asks for approval, finds the subject unauthenticated or
    fails, the submission changes nothing in the dispatch queue, whether it
    returns a context or an error, and a context it returns is failed, denied
    or parked for approval. *)
Theorem no_execution_without_allow amb cfg env rc (w : W) :
  policy_verdict env rc w <> Some Approved ->
  queue (submit amb cfg env rc w).2 = queue w /\
  (forall c w', submit amb cfg env rc w = (Ok c, w') ->
     ActionContext.status c = Failed \/ ActionContext.status c = PolicyDenied \/
     ActionContext.status c = ApprovalPending).
Proof.
  intros Hn. split; [by apply submit_keeps_queue|]. intros c w' Hs.
  pose proof (submit_post amb cfg env rc w) as Hp. unfold post in Hp. rewrite Hs in Hp.
  destruct Hp as (Ho & _). by apply (outcome_not_allowed amb cfg env rc w).
Qed.

(** ** Runs of the runtime *)
Inductive step (cfg : Config) : W -> W -> Prop :=
| step_submit amb env rc w : step cfg w (submit amb cfg env rc w).2
| step_resume amb id env rc bid w :
    step cfg w (resume_with_binding values amb cfg id env rc bid w).2.

(** A class of the attached queue without a free slot. *)
Definition class_full (c : QueueClass.t) (w : W) : Prop :=
  exists q, queue w = Some q /\ (DispatchQueue.capacity_of c q <= DispatchQueue.depth c q)%Z.

Lemma enroll_keeps_full c t1 t2 ctx subj q :
  (DispatchQueue.capacity_of c q <= DispatchQueue.depth c q)%Z ->
  (DispatchQueue.capacity_of c (DispatchQueue.enroll t1 t2 ctx subj q).2
     <= DispatchQueue.depth c (DispatchQueue.enroll t1 t2 ctx subj q).2)%Z.
Proof.
  intros Hf. unfold DispatchQueue.enroll.
  destruct (QueueSound.admit_frame t1 t2 subj q) as [Hq Hc].
  destruct (DispatchQueue.take_token t1 t2 subj q) as [adm q0]; simpl in *.
  assert (DispatchQueue.capacity_of c q0 <= DispatchQueue.depth c q0)%Z as Hf0
    by (unfold DispatchQueue.capacity_of, DispatchQueue.depth in *; by rewrite Hq, Hc).
  destruct adm; simpl; [|done]. destruct (_ <? _)%Z; simpl; [done|].
  destruct (bool_decide _ && _); simpl; [done|].
  rewrite QueueSound.depth_push.
  change (DispatchQueue.capacity_of c (DispatchQueue.push_back ctx q0))
    with (DispatchQueue.capacity_of c q0). case_decide; lia.
Qed.

Lemma step_keeps_full cfg c w w' : step cfg w w' -> class_full c w -> class_full c w'.
Proof.
  intros Hs.
  assert (forall w q t1 t2 ctx subj, class_full c w -> queue w = Some q ->
    class_full c (set_queue (Some (DispatchQueue.enroll t1 t2 ctx subj q).2) w)) as Hq.
  { intros w1 q t1 t2 ctx subj (q' & Hq' & Hf) Hq. assert (q' = q) as -> by congruence.
    eexists. split; [reflexivity|]. by apply enroll_keeps_full. }
  destruct Hs as [amb env rc w|amb id env rc bid w].
  - by apply (preserves_submit_action values (class_full c)).
  - by apply (preserves_resume values (class_full c)).
Qed.

(** Queue slots are never given back: nothing in the runtime dequeues, so
    once a class of the attached dispatch queue is full it stays full through
    every run of submissions and resumptions, and every later action of that
    class ends failed, denied or parked, however long ago the actions that
    hold the slots have finished. *)
Theorem full_class_is_permanent cfg (w w' : W) amb env rc c w'' :
  class_full (ActionDispatcher.select_queue_class env false) w ->
  rtc (step cfg) w w' ->
  submit amb cfg env rc w' = (Ok c, w'') ->
  ActionContext.status c = Failed \/ ActionContext.status c = PolicyDenied \/
  ActionContext.status c = ApprovalPending.
Proof.
  intros Hf Hr Hs.
  assert (class_full (ActionDispatcher.select_queue_class env false) w') as (q & Hq & Hd).
  { revert Hr Hf. intros Hr Hf. revert Hr. apply rtc_invariant; [|exact Hf].
    intros a b Hab. by apply (step_keeps_full cfg). }
  pose proof (submit_post amb cfg env rc w') as Hp. unfold post in Hp. rewrite Hs in Hp.
  destruct Hp as (Ho & _). revert Ho. unfold RtSound.outcome.
  destruct (_ || _); [naive_solver|].
  destruct (policy_verdict env rc w') as [v|] eqn:Ev; [|done].
  assert (v = Approved \/ v = ApprovalPending \/ v = PolicyDenied) as [-> |[-> | ->]].
  { unfold policy_verdict in Ev. repeat case_match; naive_solver. }
  2,3: naive_solver.
  assert (admitted amb env (queue w') = false) as ->; [|naive_solver].
  rewrite Hq. unfold admitted, DispatchQueue.enroll.
  destruct (QueueSound.admit_frame (bucket_created amb) (bucket_asked amb) (subject_of env) q) as [Hqs Hc].
  destruct (DispatchQueue.take_token _ _ _ q) as [[] q0]; cbn [fst snd negb is_ok] in *; [|done].
  assert (DispatchQueue.capacity_of (ActionDispatcher.select_queue_class env false) q0
    <= DispatchQueue.depth (ActionDispatcher.select_queue_class env false) q0)%Z as Hd0
    by (unfold DispatchQueue.capacity_of, DispatchQueue.depth in *; by rewrite Hqs, Hc).
  destruct (_ <? _)%Z eqn:E; [done|]. bool_to_prop. exfalso.
  change (ActionContext.queue_class (classified env))
    with (ActionDispatcher.select_queue_class env false) in E. lia.
Qed.

(** ** Resuming with a binding *)
Context `{!ApprovalBindingSinkLaws A}.

(** What [step_consume_binding] demands of the binding it consumes. *)
Definition grants (amb : RtAmbient) (env : Envelope.t) (req : option ApprovalRequirement)
    (b : ApprovalBinding.t) : Prop :=
  ApprovalBinding.state b = ApprovalBindingState.Granted /\
  (consume_now amb < ApprovalBinding.expires_at b)%Z /\
  (ApprovalBinding.bound_action_canonical_hash b = "" \/
   ApprovalBinding.bound_action_canonical_hash b = request_canonical_hash env) /\
  (is_ai_envelope env = true -> ApprovalBinding.granted_by b <> subject_of env) /\
  class_matches req b = true.

Lemma consume_step_post amb env c bid req (w : W) :
  post (step_consume_binding amb env c bid req)
    (fun st w' => exists a b a', approvals w = Some a /\ binding_of bid a = Some b /\
       ActionContext.status c = ApprovalPending /\ grants amb env req b /\
       consume_binding (consume_now amb) bid a
         = (Ok (ApprovalBinding.set_state ApprovalBindingState.Consumed b), a') /\
       approvals w' = Some a' /\
       exists c', st = Continue c' /\ at_ Approved (ActionContext.action_id c) c')
    (fun _ _ => True) w.
Proof.
  unfold step_consume_binding. case_bool_decide as Hst; cbn [negb]; [|done].
  apply (post_bind _ _ (fun b0 w1 => exists a b a', approvals w = Some a /\
    binding_of bid a = Some b /\ ApprovalBinding.state b = ApprovalBindingState.Granted /\
    (consume_now amb < ApprovalBinding.expires_at b)%Z /\
    b0 = ApprovalBinding.set_state ApprovalBindingState.Consumed b /\
    consume_binding (consume_now amb) bid a = (Ok b0, a') /\ approvals w1 = Some a')).
  { unfold post, consume_from. destruct (approvals w) as [a|]; [|done].
    destruct (consume_binding _ bid a) as [[b0|e] a'] eqn:Ec; [|done].
    destruct (consume_ok _ _ _ _ _ Ec) as (b & Hb & Hg & Hl & -> & _). eauto 10. }
  intros b0 w1 (a & b & a' & Ha & Hb & Hg & Hl & -> & Hc & Ha'). cbv zeta.
  cbn [ApprovalBinding.set_state ApprovalBinding.bound_action_canonical_hash
    ApprovalBinding.granted_by].
  destruct (negb (str_is_empty _) && _) eqn:E1.
  { unfold deny_binding. by eapply (post_bind _ _ (fun _ _ => True)); [|done];
      unfold post; destruct (emitting _ _ _) as [[]?]. }
  destruct (is_ai_envelope env && _) eqn:E2.
  { unfold deny_binding. by eapply (post_bind _ _ (fun _ _ => True)); [|done];
      unfold post; destruct (emitting _ _ _) as [[]?]. }
  destruct (class_matches req _) eqn:E3; cbn [negb].
  2: { unfold deny_binding. by eapply (post_bind _ _ (fun _ _ => True)); [|done];
      unfold post; destruct (emitting _ _ _) as [[]?]. }
  assert (at_ ApprovalPending (ActionContext.action_id c) c) as Hat by done.
  destruct (at_transition _ Approved _ (now amb) _ Hat ltac:(reflexivity)) as (c2 & Ht & Hc2).
  apply (post_bind _ _ (fun c' w2 => c' = c2 /\ approvals w2 = Some a')).
  { by apply (post_lift_ok _ c2). }
  intros ? w2 [-> Hw2].
  apply (post_bind _ _ (fun c' w3 => at_ Approved (ActionContext.action_id c) c' /\ approvals w3 = Some a')).
  { match goal with |- post ?m _ _ _ =>
      assert (preserves (fun w3 : W => approvals w3 = Some a') m) as Hp by (by apply preserves_emit);
      assert (post m (fun c' _ => at_ Approved (ActionContext.action_id c) c') (fun _ _ => True) w2)
        as He by (by apply (post_emit (fun _ _ => True) (fun _ _ _ => I)))
    end.
    exact (post_frame _ _ _ _ _ Hp Hw2 He). }
  intros c3 w3 [Hc3 Hw3]. apply post_ret. exists a, b, a'. split_and!; try done; [|eauto].
  unfold grants. split_and!; try done.
  - destruct (str_is_empty _) eqn:E; cbn [negb andb] in E1.
    + left. by apply str_is_empty_true.
    + right. apply negb_false_iff, String.eqb_eq in E1. done.
  - intros Hai Heq. rewrite Hai, Heq, String.eqb_refl in E2. done.
Qed.

(** An action is resumed only on a live grant: when [resume_with_binding]
    returns a context, the action was stored and parked for approval, the
    binding was granted and unexpired, its hash (if it has one) is that of the
    request, an AI did not approve itself, the approver's class is one the
    policy asked for (any but an agent if it asked for none), and the binding
    is used up by the call. *)
Theorem resume_needs_a_grant amb cfg id env rc bid (w : W) c w' :
  resume_with_binding values amb cfg id env rc bid w = (Ok c, w') ->
  exists stored a b a',
    contexts w !! id = Some stored /\ ActionContext.status stored = ApprovalPending /\
    approvals w = Some a /\ binding_of bid a = Some b /\
    grants amb env (RuntimeContext.policy_approval rc) b /\
    approvals w' = Some a' /\
    binding_of bid a' = Some (ApprovalBinding.set_state ApprovalBindingState.Consumed b).
Proof.
  unfold resume_with_binding. intros Hr.
  destruct (approvals (set_rctx (Some rc) w)) as [a0|] eqn:Ea; cbn [is_some negb] in Hr; [|done].
  destruct (contexts _ !! id) as [stored|] eqn:Es; [|done].
  case_bool_decide as Hst; cbn [negb] in Hr; [|done]. exists stored.
  pose proof (consume_step_post amb env stored bid
    (policy_approval_snapshot (set_rctx (Some rc) w)) (set_rctx (Some rc) w)) as Hc.
  unfold post in Hc. unfold mbind_ at 1 in Hr.
  destruct (step_consume_binding _ _ _ _ _ _) as [[st|e] w1]; [|done].
  destruct Hc as (a & b & a' & Ha & Hb & _ & Hg & Hcons & Ha' & _). exists a, b, a'.
  split_and!; try done.
  - match type of Hr with ?m w1 = _ =>
      assert (preserves (fun w2 : W => approvals w2 = Some a') m) as Hp end.
    2: { specialize (Hp w1 Ha'). by rewrite Hr in Hp. }
    repeat first [frame_step | progress (cbv zeta)]; auto with frame;
      first [by apply preserves_queue_step|by apply preserves_execute_step
            |by apply preserves_verify_step|by apply preserves_store].
  - by destruct (consume_ok _ _ _ _ _ Hcons) as (b0 & Hb0 & _ & _ & Heq & ->).
Qed.

End Props.
End Runtime.

(** * The runtime under the Policy Kernel

    [GovernedKernel] is the [PolicyKernel] the runtime holds when it is started
    with an [InMemoryPolicyKernel]: the kernel of [Kernel] behind the trait, with
    the readings of the environment its successive evaluations make.  The
    theorems compose the two crates: what the policy pipeline refuses is not
    executed by the runtime, and what is executed was allowed by a live grant. *)

Module Governed.
Section Props.
Context {H S A : Type} `{!SubjectHydrator H} {Lru : LruCache CacheKey PolicyDecision}.
Context `{!Primitives} `{!EvidenceSink S} `{!ApprovalBindingSink A} `{!RtPipeline.Texts}.
Variable order : gmap string Registry.RegisteredAdapter -> list Registry.RegisteredAdapter.
Variable values : OverrideBoundary.t -> list EmergencyOverride.

Record GovernedKernel : Type := {
  inner : Kernel.t (H := H);
  readings : nat -> KernelAmbient;
  asked : nat;
}.

#[local] Instance governed : PolicyKernelT GovernedKernel := {|
  evaluate_policy env ctx g :=
    let '(r, k) := Kernel.evaluate_policy RtPipeline.request_to_jcs blake3_to_hex values
                     (readings g (asked g)) env ctx (inner g) in
    (r, {| inner := k; readings := readings g; asked := Datatypes.S (asked g) |}) |}.

Abbreviation W := (World GovernedKernel S A).
Abbreviation submit := (RtPipeline.submit_action (K := GovernedKernel) (S := S) (A := A) order).

(** The instant at which the kernel's next evaluation looks a grant up. *)
Definition next_ambient (g : GovernedKernel) : Ambient := pipeline_ambient (readings g (asked g)).

(** The subject the decision is about: the hydrated one, or the caller's when no
    hydrator is configured. *)
Definition decided_for (g : GovernedKernel) (env : Envelope.t) (rc : RuntimeContext.t)
    : result PolicyError (option PolicyContext) :=
  Kernel.hydrate_context (hydrate_now (readings g (asked g))) env
    (RuntimeContext.policy_context rc) (inner g).

(** Without a decision cache the kernel's verdict is the pipeline's. *)
Lemma governed_verdict g env rc (w : W) :
  kernel w = Some g -> Kernel.decision_cache (inner g) = None ->
  RtSound.policy_verdict env rc w = Some ActionLifecycleState.Approved ->
  exists hydrated, decided_for g env rc = Ok hydrated /\
    decision (DecisionPipeline.evaluate_with_chain_full (next_ambient g)
      RtPipeline.request_to_jcs blake3_to_hex values env (RuntimeContext.policy_context rc) hydrated
      (Kernel.hard_deny_engine (inner g)) (Kernel.override_boundary (inner g))) = Decision.Allow.
Proof.
  intros Hk Hc. unfold RtSound.policy_verdict, decided_for. rewrite Hk. simpl.
  unfold Kernel.evaluate_policy, Kernel.cache_get. rewrite Hc.
  replace (Kernel.with_cache None (inner g)) with (inner g)
    by (destruct (inner g); unfold Kernel.with_cache; simpl in *; congruence).
  destruct (Kernel.hydrate_context _ _ _ _) as [hydrated|e]; simpl.
  - intros Hv. exists hydrated. split; [done|]. unfold next_ambient. by destruct (decision _).
  - by destruct e.
Qed.

Definition executed (r : result RuntimeError.t ActionContext.t) : Prop :=
  exists c, r = Ok c /\
    (ActionContext.status c = ActionLifecycleState.Succeeded \/
     ActionContext.status c = ActionLifecycleState.RolledBack \/
     ActionContext.status c = ActionLifecycleState.RollbackFailed).

(** What is queued or executed was approved. *)
Lemma executed_verdict amb cfg env rc (w : W) :
  queue (submit amb cfg env rc w).2 <> queue w \/ executed (submit amb cfg env rc w).1 ->
  RtSound.policy_verdict env rc w = Some ActionLifecycleState.Approved.
Proof.
  intros Hex.
  destruct (decide (RtSound.policy_verdict env rc w = Some ActionLifecycleState.Approved))
    as [|Hn]; [done|exfalso].
  destruct Hex as [Hq|(c & Hs & Hst)]; [by apply Hq, Runtime.submit_keeps_queue|].
  pose proof (Runtime.submit_post order amb cfg env rc w) as Hp. unfold post in Hp.
  destruct (submit amb cfg env rc w) as [r w']. simpl in Hs. subst r. destruct Hp as (Ho & _).
  apply Runtime.outcome_not_allowed in Ho; [|done].
  destruct Ho as [E|[E|E]], Hst as [F|[F|F]]; congruence.
Qed.

(** The facts behind an approval of the kernel. *)
Definition granted (g : GovernedKernel) (env : Envelope.t) (rc : RuntimeContext.t) : Prop :=
  DecisionPipeline.well_formed env /\ exists ctx b,
    decided_for g env rc = Ok (Some ctx) /\ Kernel.override_boundary (inner g) = Some b /\
    (forall hd, Kernel.hard_deny_engine (inner g) = Some hd ->
       HardDenyEngine.check hd env (subject ctx) = None) /\
    DecisionPipeline.live_grant (next_ambient g) env ctx b.

Lemma verdict_granted env rc (w : W) g :
  kernel w = Some g -> Kernel.decision_cache (inner g) = None ->
  OverrideBoundary.values_ok values ->
  (forall b, Kernel.override_boundary (inner g) = Some b -> OverrideBoundary.reachable b) ->
  RtSound.policy_verdict env rc w = Some ActionLifecycleState.Approved -> granted g env rc.
Proof.
  intros Hk Hc Hv Hr Ha.
  destruct (governed_verdict g env rc w Hk Hc Ha) as (hydrated & Hh & Hd).
  destruct (DecisionPipeline.allow_inv _ _ _ _ _ _ _ _ _ Hv Hr Hd)
    as (Hwf & ctx & b & -> & Hb & He & Hg).
  split; [done|]. by exists ctx, b.
Qed.

(** C4: nothing is executed without a live emergency grant: when the runtime is
    governed by the in-memory Policy Kernel, without a decision cache, an action
    that reaches the dispatch queue, or a context that comes back succeeded or
    rolled back (whether or not a queue is attached), means that its envelope is
    well formed, its subject was hydrated, no constitutional hard-deny row fired
    for that subject, and an unrevoked, unexpired grant of at most 24 hours names
    the action and the subject. *)
Theorem executed_only_by_live_grant amb cfg env rc (w : W) g :
  kernel w = Some g -> Kernel.decision_cache (inner g) = None ->
  OverrideBoundary.values_ok values ->
  (forall b, Kernel.override_boundary (inner g) = Some b -> OverrideBoundary.reachable b) ->
  queue (submit amb cfg env rc w).2 <> queue w \/ executed (submit amb cfg env rc w).1 ->
  granted g env rc.
Proof. intros Hk Hc Hv Hr Hex. eapply verdict_granted; eauto using executed_verdict. Qed.
End Props.
End Governed.
