(* ===== verification/RtEvidence.v ===== *)
(** * The evidence an action leaves

    The trail of a submission: which records [submit_action] appends to the
    attached evidence sink, in which order, and how the context names them.
    [trail] is the specification, a pure function like [outcome]; the theorems
    are proved against the laws of [EvidenceSink]. *)
From S2P Require Import Prelude Json Action Ids PolicyTypes CondParser Pipeline Records Redaction Receipt ChainSound StateError Lifecycle DispatchQueue Adapters Approvals Rollback Emit RtPipeline RtSound Runtime.

Module RtEvidence.
Import ActionLifecycleState Lifecycle LifecycleSound RtPipeline RtSound Runtime.
Section Props.
Context {K S A : Type} `{Primitives} `{!PolicyKernelT K} `{!EvidenceSink S} `{!EvidenceSinkLaws S}
  `{!ApprovalBindingSink A} `{!Texts}.
Variable values : gmap string Registry.RegisteredAdapter -> list Registry.RegisteredAdapter.
Abbreviation W := (World K S A).
Abbreviation M := (M (World K S A) RuntimeError.t).
Abbreviation submit := (submit_action (K := K) (S := S) (A := A) values).
Abbreviation outcome := (RtSound.outcome (K := K) (S := S) (A := A) values).

(** The log of the attached sink. *)
Definition log (w : W) : list Receipt.t :=
  match sink w with Some s => receipts_of s | None => [] end.

(** From [w] with context [c] to [w'] with context [c']: exactly the records
    [tys] were appended, all about the action, and [c'] names them in order. *)
Definition logged (w : W) (c : ActionContext.t) (tys : list RecordType.t) (w' : W)
    (c' : ActionContext.t) : Prop :=
  exists rs, log w' = log w ++ rs /\ Receipt.record_type <$> rs = tys /\
    Forall (fun r => Receipt.action_id r = Some (ActionContext.action_id c)) rs /\
    ActionContext.evidence_chain c' = ActionContext.evidence_chain c ++ (Receipt.receipt_id <$> rs) /\
    ActionContext.action_id c' = ActionContext.action_id c /\
    is_some (sink w') = is_some (sink w).

Lemma logged_refl w c c' :
  ActionContext.evidence_chain c' = ActionContext.evidence_chain c ->
  ActionContext.action_id c' = ActionContext.action_id c -> logged w c [] w c'.
Proof. intros He Hi. exists []. by rewrite !app_nil_r. Qed.

Lemma logged_trans w c t1 w1 c1 t2 w2 c2 :
  logged w c t1 w1 c1 -> logged w1 c1 t2 w2 c2 -> logged w c (t1 ++ t2) w2 c2.
Proof.
  intros (r1 & Hl1 & <- & Hf1 & He1 & Hi1 & Hs1) (r2 & Hl2 & <- & Hf2 & He2 & Hi2 & Hs2).
  exists (r1 ++ r2). rewrite Hl2, Hl1, He2, He1, !fmap_app, !app_assoc. rewrite Hi1 in Hf2.
  split_and!; try done; [by apply Forall_app|congruence..].
Qed.

Lemma logged_world w c tys w' c' w2 :
  logged w c tys w' c' -> sink w2 = sink w' -> logged w c tys w2 c'.
Proof.
  intros (rs & Hl & Ht & Hf & He & Hi & Hs) E. exists rs. unfold log in *. by rewrite E.
Qed.

Lemma logged_ctx w c tys w' c' c2 :
  logged w c tys w' c' -> ActionContext.evidence_chain c2 = ActionContext.evidence_chain c' ->
  ActionContext.action_id c2 = ActionContext.action_id c' -> logged w c tys w' c2.
Proof.
  intros (rs & Hl & Ht & Hf & He & Hi & Hs) E E2. exists rs. split_and!; try done; congruence.
Qed.

Abbreviation Any := (fun (_ : RuntimeError.t) (_ : W) => True).

Lemma post_both {B} (m : M B) Q Q' E E' (w : W) :
  post m Q E w -> post m Q' E' w -> post m (fun b w' => Q b w' /\ Q' b w') Any w.
Proof. intros H1 H2. by eapply post_mono; [exact (post_and _ _ _ _ _ w H1 H2)|..]. Qed.

(** One emission logs one record of its type. *)
Lemma emit_logged f rt rc ctx p (w : W) :
  is_some (sink w) = true ->
  post (emitting ctx (EvidenceEmitter.emit_with_retention f rt rc ctx p))
    (fun c w' => logged w ctx [rt] w' c /\ ActionContext.queue_class c = ActionContext.queue_class ctx)
    Any w.
Proof.
  unfold post, emitting, EvidenceEmitter.emit_with_retention, logged, log.
  destruct (sink w) as [s|]; [|done]. intros _.
  match goal with |- context [append_signed ?b s] => destruct (append_signed b s) as [[r|e] s'] eqn:Ea end;
    [|done].
  apply append_signed_ok in Ea as (Hl & Ht & _ & Hi).
  split; [|done]. exists [r]. simpl. rewrite Hl, Ht.
  split_and!; try done. by constructor.
Qed.

Lemma transition_logged (w : W) c s now c' :
  apply_transition c s now = Ok c' -> logged w c [] w c' /\
  ActionContext.queue_class c' = ActionContext.queue_class c.
Proof. intros [_ ->]%apply_transition_ok. split; [by apply logged_refl|done]. Qed.

(** *** The steps *)
Definition policy_trail (env : Envelope.t) (rc : RuntimeContext.t) (w : W) : list RecordType.t :=
  match kernel w with
  | Some k => match (evaluate_policy env (RuntimeContext.policy_context rc) k).1 with
              | Ok _ => [RecordType.PolicyDecision]
              | Err _ => []
              end
  | None => []
  end.

Lemma apply_decision_quiet rc d c now (w : W) :
  post (apply_decision rc d c now)
    (fun st w' => logged w c [] w' (into_context st) /\
       ActionContext.queue_class (into_context st) = ActionContext.queue_class c) Any w.
Proof.
  unfold apply_decision, post, mbind_, lift, install_policy, modify, ret, throw.
  destruct (decision d); try done;
    destruct (apply_transition c _ now) as [c'|e] eqn:Et; try done;
    destruct (transition_logged w _ _ _ _ Et) as [Hl Hq]; try destruct (_ && _);
    (split; [by eapply logged_world|done]).
Qed.

Lemma policy_logged env rc c now (w : W) :
  is_some (sink w) = true -> rctx w = Some rc ->
  post (step_policy_evaluate_with_kernel_and_emit env c now)
    (fun st w' => logged w c (policy_trail env rc w) w' (into_context st) /\
       ActionContext.queue_class (into_context st) = ActionContext.queue_class c) Any w.
Proof.
  intros Hs Hr. unfold post, step_policy_evaluate_with_kernel_and_emit, policy_trail.
  rewrite Hr. destruct (kernel w) as [k|]; cycle 1.
  { unfold lift, step_policy_evaluate. destruct (apply_transition c _ now) as [c'|e] eqn:Et; [|done].
    by eapply transition_logged. }
  destruct (evaluate_policy _ _ k) as [[d|e] k']; cbn [fst].
  - match goal with |- match ?m ?w1 with _ => _ end =>
      change (post m (fun st w' => logged w c [RecordType.PolicyDecision] w' (into_context st) /\
        ActionContext.queue_class (into_context st) = ActionContext.queue_class c) Any w1) end.
    eapply post_bind; [apply apply_decision_quiet|]. intros st w1 [Hl1 Hq1]. cbv zeta.
    eapply post_bind.
    { apply emit_logged. destruct Hl1 as (_ & _ & _ & _ & _ & _ & ->). done. }
    intros c2 w2 [Hl2 Hq2]. apply post_ret.
    assert (logged w c [RecordType.PolicyDecision] w2 c2) as Hl.
    { apply (logged_trans _ _ [] _ _ _ _ _) with (2 := Hl2). by eapply logged_world. }
    split; destruct (decision d); simpl; congruence.
  - unfold apply_policy_error. destruct e; try done.
    unfold mbind_, lift, install_policy, modify, ret.
    destruct (apply_transition c _ now) as [c'|e] eqn:Et; [|done].
    destruct (transition_logged w _ _ _ _ Et) as [Hl Hq]. split; [|done].
    eapply logged_ctx; [by eapply logged_world|done..].
Qed.

Lemma queue_quiet amb env c (w : W) :
  post (step_queue_with_engine amb env c) (fun st w' => logged w c [] w' (into_context st)) Any w.
Proof.
  unfold post, step_queue_with_engine. destruct (queue w) as [q|]; cycle 1.
  { unfold lift, step_queue. destruct (apply_transition c _ _) as [c'|e] eqn:Et; [|done].
    by destruct (transition_logged w _ _ _ _ Et). }
  destruct (apply_transition _ Queued _) as [c1|e] eqn:Et; [|done].
  destruct (transition_logged w _ _ _ _ Et) as [Hl _].
  assert (logged w c [] w c1) as Hl1 by (destruct Hl as (rs & ?); by exists rs).
  pose proof (enroll_result (bucket_created amb) (bucket_asked amb) c1 c1 (subject_of env) q eq_refl) as He.
  destruct (DispatchQueue.enroll _ _ _ _ _) as [[x|e] q']; simpl in He.
  - destruct He as [-> _]. by eapply logged_world.
  - destruct He as [_ [[k ->]|[s ->]]]; unfold mbind_, lift, ret;
      destruct (apply_transition c1 Failed _) as [c2|e] eqn:Et2; try done;
      destruct (transition_logged w _ _ _ _ Et2) as [Hl2 _];
      (eapply logged_ctx; [eapply logged_world;
         [apply (logged_trans _ _ [] _ _ [] _ _ Hl1 Hl2)|done]|done..]).
Qed.

Lemma is_some_sink w c tys w' c' : logged w c tys w' c' -> is_some (sink w) = true -> is_some (sink w') = true.
Proof. by intros (rs & _ & _ & _ & _ & _ & ->). Qed.

Definition downgrade_trail (env : Envelope.t) (c : ActionContext.t) : list RecordType.t :=
  if is_some (ActionDispatcher.apply_ai_interactive_downgrade c (is_ai_envelope env))
  then [RecordType.AiInteractiveQueueDowngrade] else [].

Lemma queue_logged amb env c (w : W) :
  is_some (sink w) = true ->
  post (step_queue_with_engine_and_emit amb env c)
    (fun st w' => logged w c (match st with
       | Continue _ => RecordType.ActionDispatched :: downgrade_trail env c
       | ShortCircuit _ => [] end) w' (into_context st)) Any w.
Proof.
  intros Hs. unfold step_queue_with_engine_and_emit, downgrade_trail. cbv zeta.
  eapply post_bind; [apply queue_quiet|]. intros [c1|c1] w1 Hl1; [|by apply post_ret].
  eapply post_bind; [apply emit_logged; by eapply is_some_sink|]. intros c2 w2 [Hl2 _].
  assert (logged w c [RecordType.ActionDispatched] w2 c2) as Hl by exact (logged_trans _ _ [] _ _ _ _ _ Hl1 Hl2).
  destruct (is_some (ActionDispatcher.apply_ai_interactive_downgrade _ _)).
  - eapply post_bind; [apply emit_logged; by eapply is_some_sink|]. intros c3 w3 [Hl3 _].
    apply post_ret. exact (logged_trans _ _ [_] _ _ _ _ _ Hl Hl3).
  - by eapply (post_bind _ _ (fun c3 w3 => c3 = c2 /\ w3 = w2)); [|intros ? ? [-> ->]; apply post_ret].
Qed.

Lemma execute_quiet cfg env c now st (w : W) :
  step_execute_with_engines values (hooks cfg) env c now (adapter_registry cfg) = Ok st ->
  logged w c [] w (into_context st).
Proof.
  unfold step_execute_with_engines. intros Hx.
  assert (forall c1 s e, logged w c [] w c1 -> apply_transition c1 s now = Ok e -> logged w c [] w e) as Ht.
  { intros c1 s e Hl [Hl2 _]%(transition_logged w). exact (logged_trans _ _ [] _ _ [] _ _ Hl Hl2). }
  assert (logged w c [] w c) as Hr by by apply logged_refl.
  repeat (case_match; try (apply result_bind_ok in Hx as (c1 & Ht1 & [= <-]); simpl;
    (eapply logged_ctx; [eapply Ht; [|exact Ht1]|done..]))); try exact Hr; by apply logged_refl.
Qed.

Definition dispatch_trail (cfg : Config) (env : Envelope.t) : list RecordType.t :=
  (if is_some (adapter_registry cfg) then [RecordType.RoutingDecision] else [])
  ++ [RecordType.ExecutionStarted].

Lemma execute_logged cfg env c now (w : W) :
  is_some (sink w) = true ->
  post (step_execute_with_engines_and_emit values (hooks cfg) env c now (adapter_registry cfg))
    (fun st w' => logged w c (match st with
       | Continue _ => dispatch_trail cfg env
       | ShortCircuit _ => [] end) w' (into_context st)) Any w.
Proof.
  intros Hs. unfold step_execute_with_engines_and_emit, dispatch_trail. cbv zeta.
  apply (post_bind _ _ (fun st w1 => w1 = w /\ logged w c [] w (into_context st) /\
    match st with Continue _ => is_some (g ← adapter_registry cfg;
        Registry.lookup_for_target values (kind_of env) g) = is_some (adapter_registry cfg)
    | _ => True end)).
  { unfold post, lift.
    destruct (step_execute_with_engines _ _ _ _ _ _) as [st|e] eqn:Ex; [|done].
    split_and!; [done|by eapply execute_quiet|]. destruct st; [|done].
    unfold step_execute_with_engines in Ex. destruct (adapter_registry cfg) as [g|]; simpl; [|done].
    destruct (Registry.lookup_for_target _ _ _); [done|].
    by apply result_bind_ok in Ex as (? & _ & [=]). }
  intros [c1|c1] w1 (-> & Hl1 & Hreg); [|by apply post_ret]. rewrite Hreg.
  apply (post_bind _ _ (fun c2 w2 => logged w c (if is_some (adapter_registry cfg)
    then [RecordType.RoutingDecision] else []) w2 c2)).
  { destruct (is_some (adapter_registry cfg)); [|by apply post_ret].
    eapply post_mono; [by apply emit_logged|intros c2 w2 [Hl2 _]|done].
    exact (logged_trans _ _ [] _ _ _ _ _ Hl1 Hl2). }
  intros c2 w2 Hl2. eapply post_bind; [apply emit_logged; by eapply is_some_sink|].
  intros c3 w3 [Hl3 _]. apply post_ret. exact (logged_trans _ _ _ _ _ _ _ _ Hl2 Hl3).
Qed.

Lemma verify_quiet h env c now st (w : W) :
  step_verify_with_engine h env c now = Ok st -> logged w c [] w (into_context st).
Proof.
  unfold step_verify_with_engine, step_verify. intros Hx.
  assert (forall c1 s e, logged w c [] w c1 -> apply_transition c1 s now = Ok e -> logged w c [] w e) as Ht.
  { intros c1 s e Hl [Hl2 _]%(transition_logged w). exact (logged_trans _ _ [] _ _ [] _ _ Hl Hl2). }
  assert (logged w c [] w c) as Hr by by apply logged_refl.
  repeat (case_match; simplify_eq);
    apply result_bind_ok in Hx as (c1 & Ht1 & Hx); cbv zeta in Hx;
    repeat (case_match; simplify_eq);
    apply result_bind_ok in Hx as (c2 & Ht2 & [= <-]); simpl;
    (eapply logged_ctx; [eapply Ht; [eapply Ht; [exact Hr|exact Ht1]|exact Ht2]|done..]).
Qed.

Definition verify_trail : list RecordType.t :=
  [RecordType.ExecutionCompleted; RecordType.VerificationResult].

Lemma verify_logged h env c now (w : W) :
  is_some (sink w) = true ->
  post (step_verify_with_engine_and_emit h env c now)
    (fun st w' => logged w c verify_trail w' (into_context st)) Any w.
Proof.
  intros Hs. unfold step_verify_with_engine_and_emit.
  eapply post_bind; [by apply emit_logged|]. intros c1 w1 [Hl1 _].
  apply (post_bind _ _ (fun st w2 => w2 = w1 /\ logged w1 c1 [] w1 (into_context st))).
  { unfold post, lift. destruct (step_verify_with_engine _ _ _ _) as [st|e] eqn:Ev; [|done].
    split; [done|]. by eapply verify_quiet. }
  intros st w2 [-> Hl2]. cbv zeta.
  eapply post_bind; [apply emit_logged; exact (is_some_sink _ _ _ _ _ Hl1 Hs)|].
  intros c3 w3 [Hl3 _]. apply post_ret.
  assert (logged w c verify_trail w3 c3) as Hl.
  { exact (logged_trans _ _ [_] _ _ _ _ _ Hl1 (logged_trans _ _ [] _ _ _ _ _ Hl2 Hl3)). }
  by destruct (bool_decide _).
Qed.

Lemma verify_inject_logged h driver env c now (w : W) :
  is_some (sink w) = true ->
  post (step_verify_inject_failure_and_emit h driver env c now)
    (fun st w' => logged w c verify_trail w' (into_context st)) Any w.
Proof.
  intros Hs. unfold step_verify_inject_failure_and_emit. fold (injected driver).
  destruct (injected driver); cbn [negb]; [|by apply verify_logged].
  eapply post_bind; [by apply emit_logged|]. intros c1 w1 [Hl1 _].
  assert (forall c s, post (lift (apply_transition c s now)) (fun c' w' => w' = w1 /\ logged w1 c [] w1 c') Any w1) as Ht.
  { intros c2 s. unfold post, lift. destruct (apply_transition c2 s now) as [c3|e] eqn:Et; [|done].
    by destruct (transition_logged w1 _ _ _ _ Et). }
  eapply post_bind; [apply Ht|]. intros c2 w2 [-> Hl2].
  eapply post_bind; [apply Ht|]. intros c3 w3 [-> Hl3]. cbv zeta.
  eapply post_bind; [apply emit_logged; exact (is_some_sink _ _ _ _ _ Hl1 Hs)|].
  intros c4 w4 [Hl4 _].
  apply post_ret.
  assert (logged w1 c1 [] w1 (ActionContext.set_error ExecutionFailureReason.AdapterRefused c3)) as Hl23.
  { eapply logged_ctx; [exact (logged_trans _ _ [] _ _ [] _ _ Hl2 Hl3)|done..]. }
  exact (logged_trans _ _ [_] _ _ _ _ _ Hl1 (logged_trans _ _ [] _ _ _ _ _ Hl23 Hl4)).
Qed.

Definition rollback_trail (driver : option RollbackDriver.t) (cfg : Config) (env : Envelope.t)
    : list RecordType.t :=
  if is_some driver && is_some (g ← adapter_registry cfg;
       Registry.lookup_for_target values (kind_of env) g)
  then [RecordType.RollbackCompleted] else [].

Lemma rollback_quiet driver cfg env c now (w : W) :
  ActionContext.status c = Failed ->
  post (step_rollback_with_driver values driver env c now (adapter_registry cfg))
    (fun so w' => logged w c [] w' (into_context so.1) /\
       is_some so.2 = is_some driver && is_some (g ← adapter_registry cfg;
       Registry.lookup_for_target values (kind_of env) g)) Any w.
Proof.
  intros Hc. unfold step_rollback_with_driver.
  assert (logged w c [] w c) as Hr by by apply logged_refl.
  destruct driver as [d|]; [|by apply post_ret].
  rewrite bool_decide_eq_true_2 by done. cbn [negb].
  destruct (g ← adapter_registry cfg; _) as [r|]; [|by apply post_ret].
  eapply (post_bind _ _ (fun _ w1 => w1 = w)).
  { unfold post, lift. by destruct (declared_strategy _ _). }
  intros st w1 ->. cbv zeta.
  assert (logged w c [] w (ActionContext.set_rollback_outcome (RollbackDriver.run_rollback st d) c)) as Hr2
    by by apply logged_refl.
  destruct (RollbackDriver.run_rollback st d); try (by apply post_ret);
    match goal with |- context [apply_transition ?x ?s _] =>
      apply (post_bind _ _ (fun c1 w1 => w1 = w /\ logged w c [] w c1));
        [unfold post, lift; destruct (apply_transition x s now) as [c1|e] eqn:Et; [|done];
         split; [done|]; destruct (transition_logged w _ _ _ _ Et) as [Hl _];
         exact (logged_trans _ _ [] _ _ [] _ _ Hr2 Hl)|intros c1 w1 [-> Hl]] end.
  - by apply post_ret.
  - apply (post_bind _ _ (fun _ w2 => logged w c [] w2 c1)); [by eapply logged_world|].
    intros _ w2 Hl2. by apply post_ret.
Qed.

Lemma rollback_logged driver cfg env c now (w : W) :
  is_some (sink w) = true -> ActionContext.status c = Failed ->
  post (step_rollback_with_driver_and_emit values driver env c now (adapter_registry cfg))
    (fun st w' => logged w c (rollback_trail driver cfg env) w' (into_context st)) Any w.
Proof.
  intros Hs Hc. unfold step_rollback_with_driver_and_emit, rollback_trail.
  eapply post_bind; [by apply rollback_quiet|]. intros [st o] w1 [Hl1 <-]. simpl in *.
  destruct o as [o|]; [|by apply post_ret]. cbv zeta. simpl.
  eapply post_bind.
  { unfold EvidenceEmitter.emit_rollback_completed, EvidenceEmitter.emit.
    destruct o; apply emit_logged; by eapply is_some_sink. }
  intros c2 w2 [Hl2 _]. apply post_ret. exact (logged_trans _ _ [] _ _ _ _ _ Hl1 Hl2).
Qed.

Lemma received_logged env c (w : W) :
  is_some (sink w) = true ->
  post (received env c) (fun st w' => logged w c [RecordType.ActionReceived] w' (into_context st) /\
    ActionContext.queue_class (into_context st) = ActionContext.queue_class c) Any w.
Proof.
  intros Hs. unfold received. eapply post_bind; [by apply emit_logged|].
  intros c1 w1 Hl. by apply post_ret.
Qed.

Lemma park_logged amb env c (w : W) :
  is_some (sink w) = true ->
  post (park_for_approval amb env c)
    (fun c' w' => logged w c (if bool_decide (ActionContext.status c = ApprovalPending)
         && is_some (approvals w) then [RecordType.ApprovalRequested] else []) w' c') Any w.
Proof.
  intros Hs. unfold park_for_approval, post at 1. case_bool_decide as Hst; cbn [andb];
    [|by apply logged_refl].
  destruct (approvals w) as [a|] eqn:Ea; cbn [is_some]; [|by apply logged_refl].
  match goal with |- match ?m w with _ => _ end =>
    change (post m (fun c' w' => logged w c [RecordType.ApprovalRequested] w' c') Any w) end.
  apply (post_bind _ _ (fun st w' => logged w c [RecordType.ApprovalRequested] w' (into_context st)));
    [|intros st w1 Hl; by apply post_ret].
  unfold step_request_approval, post at 1. rewrite Hst, Ea.
  rewrite bool_decide_eq_true_2 by done. cbn [negb is_some]. cbv zeta.
  match goal with |- match ?m w with _ => _ end =>
    change (post m (fun st w' => logged w c [RecordType.ApprovalRequested] w' (into_context st)) Any w) end.
  apply (post_bind _ _ (fun _ w1 => sink w1 = sink w)).
  { unfold post, submit_to. rewrite Ea. by destruct (submit_request _ a) as [[[]|e] a']. }
  intros _ w1 Hw1. eapply post_bind; [apply emit_logged; by rewrite Hw1|].
  intros c2 w2 [Hl _]. apply post_ret. simpl.
  apply (logged_trans _ _ [] w1 c [_]); [|exact Hl]. eapply logged_world; [by apply logged_refl|done].
Qed.

(** ** The specification of the trail *)
Definition ai_trail (env : Envelope.t) : list RecordType.t :=
  if is_ai_envelope env then [RecordType.AiInteractiveQueueDowngrade] else [].

(** What follows an admission decision. *)
Definition tail_trail (amb : RtAmbient) (cfg : Config) (env : Envelope.t)
    (q : option DispatchQueue.t) (passed : bool) (driver : option RollbackDriver.t)
    : list RecordType.t :=
  if negb (admitted amb env q) then []
  else RecordType.ActionDispatched :: ai_trail env ++
    if dispatch_refused values cfg env then []
    else dispatch_trail cfg env ++ verify_trail ++
      if passed then [] else rollback_trail driver cfg env.

Definition trail (amb : RtAmbient) (cfg : Config) (env : Envelope.t) (rc : RuntimeContext.t)
    (w : W) : list RecordType.t :=
  if provenance_refuses (hooks cfg) env || invalid_envelope env then []
  else RecordType.ActionReceived :: policy_trail env rc w ++
    match policy_verdict env rc w with
    | Some Approved => tail_trail amb cfg env (queue w) (verified amb cfg env w) (rollback_driver cfg)
    | Some ApprovalPending => if is_some (approvals w) then [RecordType.ApprovalRequested] else []
    | _ => []
    end.

Section Tail.
Variables (amb : RtAmbient) (cfg : Config) (env : Envelope.t).
Abbreviation id := (fresh_action_id amb).

Lemma tail_logged (mv mr : ActionContext.t -> M _) passed driver c (w : W) :
  is_some (sink w) = true -> at_ Approved id c ->
  ActionContext.queue_class c = QueueClass.Interactive ->
  (forall c w, is_some (sink w) = true -> at_ Executing id c ->
     post (mv c) (fun st w' => verify_post passed id st w' /\ logged w c verify_trail w' (into_context st))
       Any w) ->
  (forall c w, is_some (sink w) = true -> at_ Failed id c ->
     post (mr c) (fun c' w' => logged w c (rollback_trail driver cfg env) w' c') Any w) ->
  post (let> c := step_queue_with_engine_and_emit amb env c in
        let> c := step_execute_with_engines_and_emit values (hooks cfg) env c (now amb)
                    (adapter_registry cfg) in
        let> c := mv c in mr c)
    (fun c' w' => logged w c (tail_trail amb cfg env (queue w) passed driver) w' c') Any w.
Proof.
  intros Hs Hc Hq Hmv Hmr. unfold tail_trail.
  assert (downgrade_trail env c = ai_trail env) as Hdg.
  { unfold downgrade_trail, ActionDispatcher.apply_ai_interactive_downgrade, ai_trail.
    rewrite Hq, bool_decide_eq_true_2, andb_true_r by done. by destruct (is_ai_envelope env). }
  eapply post_on_continue.
  { exact (post_both _ _ _ _ _ w (queue_emit_post Any (fun _ _ _ => I) amb env id c w Hc)
      (queue_logged amb env c w Hs)). }
  2: { by intros c1 w1 [[Ha _] Hl1]; rewrite Ha. }
  intros c1 w1 [[Ha Hc1] Hl1]. rewrite Ha. cbn [negb]. rewrite Hdg in Hl1. simpl in Hl1.
  pose proof (is_some_sink _ _ _ _ _ Hl1 Hs) as Hs1.
  eapply post_on_continue.
  { exact (post_both _ _ _ _ _ w1 (execute_emit_post values Any (fun _ _ _ => I) cfg env (now amb) id c1 w1 Hc1)
      (execute_logged cfg env c1 (now amb) w1 Hs1)). }
  2: { intros c2 w2 [[Hr _] Hl2]. rewrite Hr. exact (logged_trans _ _ _ _ _ _ _ _ Hl1 Hl2). }
  intros c2 w2 [[Hr Hc2] Hl2]. rewrite Hr. simpl in Hl2.
  pose proof (is_some_sink _ _ _ _ _ Hl2 Hs1) as Hs2.
  eapply post_on_continue; [by apply Hmv| |].
  - intros c3 w3 [[Hv Hc3] Hl3]. rewrite Hv.
    pose proof (is_some_sink _ _ _ _ _ Hl3 Hs2) as Hs3.
    eapply post_mono; [by apply Hmr|intros c4 w4 Hl4; simpl in *|done].
    exact (logged_trans _ _ (_ :: _) _ _ _ _ _ Hl1
      (logged_trans _ _ _ _ _ _ _ _ Hl2 (logged_trans _ _ _ _ _ _ _ _ Hl3 Hl4))).
  - intros c3 w3 [[Hv _] Hl3]. rewrite Hv, app_nil_r.
    exact (logged_trans _ _ (_ :: _) _ _ _ _ _ Hl1 (logged_trans _ _ _ _ _ _ _ _ Hl2 Hl3)).
Qed.
End Tail.

(** The context after a validation that went through. *)
Definition noted (cfg : Config) (env : Envelope.t) (rc : RuntimeContext.t) (c : ActionContext.t)
    : ActionContext.t :=
  if provenance_refuses (hooks cfg) env then c
  else compose_sandbox (hooks cfg) env (recovery_mode (RuntimeContext.subject rc)) c.

Lemma validate_noted cfg env rc c now st :
  step_validate_with_provenance_and_sandbox (hooks cfg) env c now
    (recovery_mode (RuntimeContext.subject rc)) = Ok st ->
  ActionContext.evidence_chain (into_context st) = ActionContext.evidence_chain (noted cfg env rc c) /\
  ActionContext.action_id (into_context st) = ActionContext.action_id c /\
  ActionContext.queue_class (into_context st) = ActionContext.queue_class c.
Proof.
  assert (forall c1 s e, apply_transition c1 s now = Ok e ->
    ActionContext.evidence_chain e = ActionContext.evidence_chain c1 /\
    ActionContext.action_id e = ActionContext.action_id c1 /\
    ActionContext.queue_class e = ActionContext.queue_class c1) as Ht.
  { by intros c1 s e [_ ->]%apply_transition_ok. }
  unfold step_validate_with_provenance_and_sandbox, noted, refuse_provenance, step_validate.
  destruct (provenance_refuses _ _); [intros (c1 & H1 & [= <-])%result_bind_ok; by apply Ht in H1|].
  set (c0 := compose_sandbox _ _ _ c).
  assert (ActionContext.action_id c0 = ActionContext.action_id c /\
    ActionContext.queue_class c0 = ActionContext.queue_class c) as [<- <-].
  { unfold c0, compose_sandbox. by repeat case_match. }
  destruct (_ || _); intros (c1 & H1 & [= <-])%result_bind_ok; by apply Ht in H1.
Qed.

(** The trail of the pipeline, before the approval tail of [submit_action]. *)
Definition pipeline_trail (amb : RtAmbient) (cfg : Config) (env : Envelope.t)
    (rc : RuntimeContext.t) (w : W) : list RecordType.t :=
  if provenance_refuses (hooks cfg) env || invalid_envelope env then []
  else RecordType.ActionReceived :: policy_trail env rc w ++
    match policy_verdict env rc w with
    | Some Approved => tail_trail amb cfg env (queue w) (verified amb cfg env w) (rollback_driver cfg)
    | _ => []
    end.

Lemma front_logged amb cfg env rc c (w : W) (k : ActionContext.t -> M ActionContext.t) :
  is_some (sink w) = true -> rctx w = Some rc -> at_ Created (fresh_action_id amb) c ->
  ActionContext.queue_class c = QueueClass.Interactive ->
  (forall c w', is_some (sink w') = true -> at_ Approved (fresh_action_id amb) c ->
     ActionContext.queue_class c = QueueClass.Interactive -> queue w' = queue w ->
     post (k c) (fun c' w2 => logged w' c (tail_trail amb cfg env (queue w) (verified amb cfg env w)
       (rollback_driver cfg)) w2 c') Any w') ->
  post (let! w := get in
        let> c := lift (step_validate_with_provenance_and_sandbox (hooks cfg) env c (now amb)
                          (in_recovery w)) in
        let> c := received env c in
        let> c := step_policy_evaluate_with_kernel_and_emit env c (now amb) in
        let> c := lift (step_request_approval_passthrough c) in k c)
    (fun c' w' => logged w (noted cfg env rc c) (pipeline_trail amb cfg env rc w) w' c') Any w.
Proof.
  intros Hs Hr Hc Hq Hk. unfold pipeline_trail.
  eapply (post_bind _ _ (fun w1 w2 => w1 = w /\ w2 = w)); [done|]. intros ? ? [-> ->].
  assert (in_recovery w = recovery_mode (RuntimeContext.subject rc)) as -> by (unfold in_recovery; by rewrite Hr).
  destruct (validate_at (hooks cfg) env (now amb) (recovery_mode (RuntimeContext.subject rc)) _ c Hc)
    as (c0 & Hc0 & Hv).
  destruct (validate_noted _ _ _ _ _ _ Hv) as (Hn1 & Hn2 & Hn3).
  assert (logged w (noted cfg env rc c) [] w c0) as Hl0.
  { destruct (_ || _); simpl in *; apply logged_refl; try done;
      (etrans; [exact Hn2|]); unfold noted, compose_sandbox; by repeat case_match. }
  unfold on_continue at 1.
  eapply (post_bind _ _ (fun st w2 => w2 = w /\ st = _)); [by rewrite Hv|]. intros ? ? [-> ->].
  destruct (provenance_refuses (hooks cfg) env || invalid_envelope env); [by apply post_ret|].
  simpl in Hn1, Hn2, Hn3. rewrite Hq in Hn3.
  pose proof (post_both _ _ _ _ _ w (received_logged env c0 w Hs)
    (post_preserves _ _ w (frame_received env c0 w) ltac:(done))) as Hrec.
  assert (post (received env c0) (fun st _ => exists c1, st = Continue c1 /\
      at_ PolicyPending (fresh_action_id amb) c1) Any w) as Hrec2.
  { unfold received. eapply post_bind; [by apply (post_emit Any (fun _ _ _ => I) _ _ _ _ _
      PolicyPending (fresh_action_id amb))|]. intros c1 w1 Hc1. apply post_ret. eauto. }
  eapply post_on_continue; [exact (post_both _ _ _ _ _ w Hrec Hrec2)| |].
  2: { by intros c1 w1 (_ & ? & ? & _). }
  intros c1 w1 ([[Hl1 Hq1] (Hk1 & Hr1 & Hqu1)] & c1' & [= <-] & Hc1). simpl in Hl1, Hq1.
  pose proof (is_some_sink _ _ _ _ _ Hl1 Hs) as Hs1. rewrite Hr in Hr1.
  pose proof (post_both _ _ _ _ _ w1 (policy_logged env rc c1 (now amb) w1 Hs1 Hr1)
    (post_both _ _ _ _ _ w1
      (policy_emit_post Any (fun _ _ _ => I) env rc (now amb) (fresh_action_id amb) c1 w1
         (fun _ _ _ => I) Hr1 Hc1)
      (post_preserves _ _ w1 (frame_policy_emit env c1 (now amb) w1) eq_refl))) as Hpol.
  assert (policy_trail env rc w1 = policy_trail env rc w) as Ept
    by (unfold policy_trail; by rewrite Hk1).
  unfold policy_post in Hpol. rewrite Ept, (policy_verdict_kernel env rc w w1 Hk1) in Hpol.
  eapply post_on_continue; [exact Hpol| |].
  - intros c2 w2 ([Hl2 Hq2] & (s & Hvd & -> & Hc2) & Hqu2). rewrite Hvd. simpl in Hl2, Hq2.
    eapply post_mono; [apply Hk; try done; [exact (is_some_sink _ _ _ _ _ Hl2 Hs1)|congruence..]| |done].
    intros c3 w3 Hl3.
    exact (logged_trans _ _ [] _ _ _ _ _ Hl0 (logged_trans _ _ [_] _ _ _ _ _ Hl1
      (logged_trans _ _ _ _ _ _ _ _ Hl2 Hl3))).
  - intros c2 w2 ([Hl2 _] & (s & Hvd & Ho & _) & _). rewrite Hvd.
    replace (match Some s with Some Approved => _ | _ => [] end) with (@nil RecordType.t)
      by (by destruct Ho as [-> | ->]).
    rewrite app_nil_r.
    exact (logged_trans _ _ [] _ _ _ _ _ Hl0 (logged_trans _ _ [_] _ _ _ _ _ Hl1 Hl2)).
Qed.

Lemma pipeline_logged amb cfg env rc c (w : W) :
  is_some (sink w) = true -> rctx w = Some rc -> at_ Created (fresh_action_id amb) c ->
  ActionContext.queue_class c = QueueClass.Interactive ->
  post (run_pipeline values amb cfg env c)
    (fun c' w' => logged w (noted cfg env rc c) (pipeline_trail amb cfg env rc w) w' c') Any w.
Proof.
  intros Hs Hr Hc Hq. unfold run_pipeline, post at 1. rewrite Hs.
  assert (driver_in_use cfg w = rollback_driver cfg) as Hd by (unfold driver_in_use; by rewrite Hs).
  destruct (rollback_driver cfg) as [d|] eqn:Ed; cbn [is_some];
    match goal with |- match ?m w with _ => _ end =>
      change (post m (fun c' w' => logged w (noted cfg env rc c) (pipeline_trail amb cfg env rc w) w' c')
        Any w) end;
    apply front_logged; try done; intros c2 w2 Hs2 Hc2 Hq2 Hqu; rewrite <- Hqu.
  - apply tail_logged; try done.
    + intros c3 w3 Hs3 Hc3. unfold verified. rewrite Hd.
      exact (post_both _ _ _ _ _ w3
        (verify_inject_post Any (fun _ _ _ => I) (hooks cfg) (Some d) env (now amb) _ c3 w3 Hc3)
        (verify_inject_logged (hooks cfg) (Some d) env c3 (now amb) w3 Hs3)).
    + intros c3 w3 Hs3 [Hc3 _]. rewrite Ed.
      eapply post_bind; [by apply rollback_logged|]. intros st w4 Hl4. exact Hl4.
  - apply tail_logged; try done.
    + intros c3 w3 Hs3 Hc3. unfold verified. rewrite Hd.
      exact (post_both _ _ _ _ _ w3
        (verify_emit_post Any (fun _ _ _ => I) (hooks cfg) env (now amb) _ c3 w3 Hc3)
        (verify_logged (hooks cfg) env c3 (now amb) w3 Hs3)).
    + intros c3 w3 Hs3 _. rewrite Ed. by apply logged_refl.
Qed.

Lemma rolled_back_not_parked cfg env (w : W) :
  rolled_back values cfg env w <> Some ApprovalPending.
Proof.
  unfold rolled_back. destruct (driver_in_use cfg w) as [d|]; [|done].
  destruct (g ← adapter_registry cfg; _) as [r|]; [|done].
  destruct (declared_strategy _ _) as [st|]; [|done].
  by destruct (RollbackDriver.run_rollback st d).
Qed.

(** C37: the evidence a submission leaves is exactly [trail]: when a sink and an
    adapter registry are attached and [submit_action] returns a context, the
    sink's log grew by one record per entry of [trail], of that type and in that
    order, each naming the action, and the context's evidence chain is the sandbox
    note followed by the identifiers of those records.  (Without a registry the
    start of the execution is recorded as well.) *)
Theorem evidence_trail_exact amb cfg env rc (w : W) c w' :
  is_some (sink w) = true -> is_some (adapter_registry cfg) = true ->
  submit amb cfg env rc w = (Ok c, w') ->
  exists rs,
    log w' = log w ++ rs /\
    Receipt.record_type <$> rs = trail amb cfg env rc w /\
    Forall (fun r => Receipt.action_id r = Some (fresh_action_id amb)) rs /\
    ActionContext.evidence_chain c =
      ActionContext.evidence_chain (noted cfg env rc (fresh_context (fresh_action_id amb) (now amb)))
      ++ (Receipt.receipt_id <$> rs).
Proof.
  intros Hs _ Hsub.
  set (c0 := fresh_context (fresh_action_id amb) (now amb)).
  assert (post (submit amb cfg env rc)
    (fun c w' => logged w (noted cfg env rc c0) (trail amb cfg env rc w) w' c) Any w) as Hp.
  { unfold submit_action. set (w0 := set_rctx (Some rc) w).
    eapply (post_bind _ _ (fun _ w1 => w1 = w0)); [done|]. intros _ w1 ->. cbv zeta.
    assert (at_ Created (fresh_action_id amb) c0) as Hc0 by done.
    assert (post (run_pipeline values amb cfg env c0) (fun _ w1 => approvals w1 = approvals w)
      (fun _ w1 => approvals w1 = approvals w) w0) as Ha.
    { apply (post_preserves (fun w1 : W => approvals w1 = approvals w)); [|done].
      by apply preserves_pipeline. }
    eapply post_bind.
    { exact (post_both _ _ _ _ _ w0 (pipeline_logged amb cfg env rc c0 w0 Hs eq_refl Hc0 eq_refl)
        (post_both _ _ _ _ _ w0 (pipeline_meets values amb cfg env rc c0 w0 eq_refl Hc0) Ha)). }
    intros c1 w1 (Hl1 & (s & Hsp & Hst & _) & Hap).
    change (logged w (noted cfg env rc c0) (pipeline_trail amb cfg env rc w) w1 c1) in Hl1.
    change (RtSound.outcome values amb cfg env rc w = Some s) in Hsp.
    pose proof (is_some_sink _ _ _ _ _ Hl1 Hs) as Hs1.
    eapply post_bind; [by apply park_logged|]. intros c2 w2 Hl2. rewrite Hst, Hap in Hl2.
    eapply (post_bind _ _ (fun _ w3 => sink w3 = sink w2)); [done|]. intros _ w3 Hw3.
    apply post_ret. eapply logged_world; [|exact Hw3].
    pose proof (logged_trans _ _ _ _ _ _ _ _ Hl1 Hl2) as Hl.
    replace (trail amb cfg env rc w) with (pipeline_trail amb cfg env rc w ++
      (if bool_decide (s = ApprovalPending) && is_some (approvals w)
       then [RecordType.ApprovalRequested] else [])); [exact Hl|].
    revert Hsp. unfold pipeline_trail, trail, RtSound.outcome.
    destruct (_ || _); [by intros [= <-]|].
    destruct (policy_verdict env rc w) as [v|] eqn:Ev; [|done].
    assert (v = Approved \/ v = ApprovalPending \/ v = PolicyDenied) as [-> |[-> | ->]].
    { unfold policy_verdict in Ev. repeat case_match; naive_solver. }
    - intros Ho. rewrite bool_decide_eq_false_2; [cbn [andb]; by rewrite app_nil_r|].
      intros ->. revert Ho. destruct (_ || _); [done|]. destruct (verified _ _ _ _); [done|].
      apply rolled_back_not_parked.
    - intros [= <-]. rewrite bool_decide_eq_true_2 by done. cbn [andb]. by rewrite app_nil_r.
    - intros [= <-]. rewrite bool_decide_eq_false_2 by done. cbn [andb]. by rewrite app_nil_r. }
  unfold post in Hp. rewrite Hsub in Hp. destruct Hp as (rs & Hl & Ht & Hf & He & _ & _).
  exists rs. split_and!; try done.
  assert (ActionContext.action_id (noted cfg env rc c0) = fresh_action_id amb) as E
    by (unfold noted, compose_sandbox; by repeat case_match).
  by rewrite E in Hf.
Qed.
End Props.

(** ** The in-memory sink under the runtime *)
Section InMemory.
#[local] Existing Instance InMemoryEvidenceSink.sink.
#[local] Existing Instance SinkSound.sink_laws.
Context {K A : Type} `{!Primitives} `{!SignatureLaws} `{!PolicyKernelT K}
  `{!ApprovalBindingSink A} `{!Texts}.
Variable values : gmap string Registry.RegisteredAdapter -> list Registry.RegisteredAdapter.
Abbreviation W := (World K InMemoryEvidenceSink.t A).

(** The evidence of every run of the runtime verifies: after any sequence of
    submissions and resumptions (failed ones included) over an in-memory sink
    that started empty, the sink's chain passes link and signature verification
    under its key, unless it is still empty. *)
Theorem runtime_evidence_verifies cfg key mint clock (w w' : W) s :
  sink w = Some (InMemoryEvidenceSink.new key mint clock) ->
  rtc (Runtime.step values cfg) w w' -> sink w' = Some s ->
  InMemoryEvidenceSink.chain s = [] \/
  ReceiptChain.verify_integrity_signed (verifying_key key)
    (InMemoryEvidenceSink.chain s) = Ok ().
Proof.
  intros Hw Hr Hs.
  assert (forall s, sink w' = Some s -> SinkSound.sound key s) as Hsd.
  { revert Hr. apply (rtc_invariant _ (fun w => forall s, sink w = Some s -> SinkSound.sound key s)).
    - intros a b Hab.
      assert (forall w b (s : InMemoryEvidenceSink.t),
        (forall s, sink w = Some s -> SinkSound.sound key s) -> sink w = Some s ->
        forall s', sink (set_sink (Some (append_signed b s).2) w : W) = Some s' -> SinkSound.sound key s')
        as Hk.
      { intros w1 b1 s1 Hw1 Hs1 s' [= <-]. apply SinkSound.append_signed_sound. auto. }
      destruct Hab as [amb env rc w1|amb id env rc bid w1].
      + by apply (preserves_submit_action values (fun w => forall s, sink w = Some s -> SinkSound.sound key s)).
      + by apply (preserves_resume values (fun w => forall s, sink w = Some s -> SinkSound.sound key s)).
    - intros s0 Hs0. rewrite Hw in Hs0. injection Hs0 as <-. split_and!; [done|by intros i r|constructor]. }
  destruct (Hsd s Hs) as (_ & Hl & Hv).
  destruct (InMemoryEvidenceSink.chain s) as [|r rs] eqn:E; [by left|right].
  unfold ReceiptChain.verify_integrity_signed.
  assert (ReceiptChain.verify_integrity (r :: rs) = Ok ()) as -> by (by apply verify_integrity_ok).
  cbv beta iota delta [result_bind]. by apply for_each_ok.
Qed.
End InMemory.
End RtEvidence.
