(* ===== verification/RtDemo.v ===== *)
(** * A concrete runtime: the theorems of the runtime at work

    One runtime, built from the in-memory engines: the Policy Kernel with the
    spec's hard-deny rows and the emergency grant of [OverrideBoundary], an
    evidence sink with the test signature scheme, the approval sink, a small
    dispatch queue and the registry with one adapter.  The theorems of
    [Runtime], [RtEvidence] and [Governed] are applied to it. *)
From S2P Require Import Prelude Json Action PolicyTypes HardDeny Override Cache Hydration Bundle Pipeline Kernel Records Redaction Receipt ChainSound StateError Lifecycle DispatchQueue Adapters Approvals Rollback Emit RtPipeline RtSound Runtime RtEvidence.

Module RtDemo.
Import Demo RegistryDemo RtPipeline.
#[local] Existing Instance InMemoryEvidenceSink.sink.
#[local] Existing Instance SinkSound.sink_laws.
#[local] Existing Instance InMemoryApprovalSink.sink.
#[local] Existing Instance InMemoryApprovalSink.sink_laws.
#[local] Instance list_lru : LruCache CacheKey PolicyDecision := ListLru.lru_impl _ _.

#[local] Instance demo_texts : Texts := {
  policy_error_to_string _ := "policy error"; evidence_error_to_string _ := "evidence error";
  str_debug s := s; summary_to_string s := Ok (profile_id s);
  request_to_jcs r := Ok (action r +:+ "................................") }.

Abbreviation K := (Governed.GovernedKernel (H := InMemoryHydrator.t)).
#[local] Instance demo_kernel_t : PolicyKernelT K :=
  Governed.governed OverrideBoundary.values_in_key_order.
Abbreviation W := (World K InMemoryEvidenceSink.t InMemoryApprovalSink.t).

Definition demo_inner : Kernel.t (H := InMemoryHydrator.t) :=
  Kernel.with_override_boundary OverrideBoundary.demo_boundary
    (Kernel.new_with_hard_deny HardDenyEngineConfig.spec_defaults).

Definition demo_governed : K :=
  {| Governed.inner := demo_inner; Governed.readings _ := Kernel.demo_ambient 5;
     Governed.asked := 0 |}.

Definition demo_sink : InMemoryEvidenceSink.t :=
  InMemoryEvidenceSink.new 7%Z (fun n => "evr_" +:+ pretty n) Z.of_nat.

(** A queue with [n] slots for the proposals of agents and eight for the rest. *)
Definition demo_queue (n : Z) : DispatchQueue.t :=
  DispatchQueue.new_with_capacities
    {[ QueueClass.Interactive := 8%Z; QueueClass.AgentProposal := n ]}.

Definition demo_world (n : Z) : W :=
  {| kernel := Some demo_governed; sink := Some demo_sink; approvals := Some InMemoryApprovalSink.new;
     queue := Some (demo_queue n); rctx := None; tripwire := Some 0%Z; operator_alerts := Some 0%Z;
     contexts := ∅ |}.

Definition demo_amb (id : string) : RtAmbient :=
  {| now := 10; bucket_created := 0; bucket_asked := 0; consume_now := 10;
     fresh_action_id := id; fresh_request_id := "req_" +:+ id |}%Z.

Definition expose_manifest : AdapterManifest.t :=
  demo_manifest AdapterStability.Stable ActionDispatchKind.InProcessRpc "net.expose_lan"
    "IDEMPOTENT_REVERSE".

Definition demo_cfg (driver : option RollbackDriver.t) : Config :=
  {| adapter_registry := Some (demo_registered expose_manifest); hooks := no_hooks;
     rollback_driver := driver |}.

Definition demo_rc : RuntimeContext.t :=
  RuntimeContext.from_subject DecisionPipeline.demo_human "polb_1" "v1".

Definition failing_driver : RollbackDriver.t :=
  {| RollbackDriver.failure_mode := SucceedSimulated;
     RollbackDriver.inject_verify_failure := true |}.

Abbreviation expose := DecisionPipeline.demo_expose.
Abbreviation submit := (submit_action (K := K) (S := InMemoryEvidenceSink.t)
  (A := InMemoryApprovalSink.t) key_order).

Definition status_of (r : result RuntimeError.t ActionContext.t * W) : option ActionLifecycleState.t :=
  match r.1 with Ok c => Some (ActionContext.status c) | Err _ => None end.

(** What the demo runtime does: an allowed action succeeds, or is rolled back
    when its verification is made to fail; an action no grant names is denied. *)
Example demo_outcomes :
  status_of (submit (demo_amb "act_1") (demo_cfg None) expose demo_rc (demo_world 4))
    = Some ActionLifecycleState.Succeeded /\
  status_of (submit (demo_amb "act_1") (demo_cfg (Some failing_driver)) expose demo_rc (demo_world 4))
    = Some ActionLifecycleState.RolledBack /\
  status_of (submit (demo_amb "act_1") (demo_cfg None)
      (HardDenyEngine.demo_envelope "vault.read_raw" JNull) demo_rc (demo_world 4))
    = Some ActionLifecycleState.PolicyDenied.
Proof. split_and!; vm_compute; reflexivity. Qed.

(** ** Hypotheses of the theorems on the demo runtime *)
Lemma demo_accepting : RtSound.accepting (S := InMemoryEvidenceSink.t) (A := InMemoryApprovalSink.t).
Proof.
  split; [|done]. intros b s Hb. simpl. apply SinkSound.append_signed_total.
  - by intros [].
  - by rewrite Hb.
Qed.

Lemma demo_lookup :
  Registry.lookup_for_target key_order "net.expose_lan" (demo_registered expose_manifest)
  = Some {| Registry.manifest := expose_manifest; Registry.registered_at := 10 |}.
Proof. vm_compute. reflexivity. Qed.

Lemma demo_verdict n :
  RtSound.policy_verdict expose demo_rc (demo_world n) = Some ActionLifecycleState.Approved.
Proof. vm_compute. reflexivity. Qed.

Abbreviation vault_read := (HardDenyEngine.demo_envelope "vault.read_raw" JNull).

Lemma submissions_settle_witness :
  exists c w', submit (demo_amb "act_1") (demo_cfg (Some failing_driver)) expose demo_rc (demo_world 4)
      = (Ok c, w') /\
    Runtime.settled (ActionContext.status c) /\
    Lifecycle.reaches ActionLifecycleState.Created (ActionContext.status c).
Proof.
  apply (Runtime.submissions_settle key_order).
  - by rewrite demo_verdict.
  - intros g r [= <-]. change (kind_of expose) with "net.expose_lan".
    rewrite demo_lookup. by intros [= <-].
  - exact demo_accepting.
Defined.

Lemma no_execution_without_allow_witness :
  queue (submit (demo_amb "act_1") (demo_cfg None) vault_read demo_rc (demo_world 4)).2
  = queue (demo_world 4).
Proof.
  apply (Runtime.no_execution_without_allow key_order).
  assert (RtSound.policy_verdict vault_read demo_rc (demo_world 4)
    = Some ActionLifecycleState.PolicyDenied) as -> by (vm_compute; reflexivity). done.
Defined.

(** The slot of the class of [expose] is taken by the first action, which
    succeeds, and never given back: the second action fails. *)
Definition one_slot : W :=
  (submit (demo_amb "act_1") (demo_cfg None) expose demo_rc (demo_world 1)).2.

Lemma full_class_is_permanent_witness :
  status_of (submit (demo_amb "act_1") (demo_cfg None) expose demo_rc (demo_world 1))
    = Some ActionLifecycleState.Succeeded /\
  match submit (demo_amb "act_2") (demo_cfg None) expose demo_rc one_slot with
  | (Ok c, _) => ActionContext.status c = ActionLifecycleState.Failed \/
                 ActionContext.status c = ActionLifecycleState.PolicyDenied \/
                 ActionContext.status c = ActionLifecycleState.ApprovalPending
  | (Err _, _) => False
  end.
Proof.
  split; [vm_compute; reflexivity|].
  assert (is_ok (submit (demo_amb "act_2") (demo_cfg None) expose demo_rc one_slot).1 = true) as Ho
    by (vm_compute; reflexivity).
  destruct (submit (demo_amb "act_2") _ _ _ one_slot) as [[c|e] w''] eqn:E; [|discriminate Ho].
  apply (Runtime.full_class_is_permanent key_order (demo_cfg None) one_slot one_slot
    (demo_amb "act_2") expose demo_rc c w''); [|constructor|exact E].
  unfold Runtime.class_full. eexists. split; [vm_compute; reflexivity|].
  vm_compute. discriminate.
Defined.

Lemma executed_only_by_live_grant_witness :
  exists b, DecisionPipeline.live_grant (DecisionPipeline.demo_ambient 5) expose
    (RuntimeContext.policy_context demo_rc) b.
Proof.
  destruct (Governed.executed_only_by_live_grant key_order OverrideBoundary.values_in_key_order
    (demo_amb "act_1") (demo_cfg None) expose demo_rc (demo_world 4) demo_governed)
    as (_ & ctx & b & Hd & _ & _ & Hg).
  - reflexivity.
  - reflexivity.
  - apply OverrideBoundary.values_in_key_order_ok.
  - intros b [= <-]. apply OverrideBoundary.demo_reachable.
  - left. intros E. apply (f_equal (fun q => match q with Some q => DispatchQueue.depth
      QueueClass.AgentProposal q | None => 0%Z end)) in E. vm_compute in E. discriminate E.
  - exists b. injection Hd as <-. exact Hg.
Defined.

Lemma evidence_trail_exact_witness :
  match submit (demo_amb "act_1") (demo_cfg (Some failing_driver)) expose demo_rc (demo_world 4) with
  | (Ok c, w') => exists rs,
      RtEvidence.log w' = RtEvidence.log (demo_world 4) ++ rs /\
      Receipt.record_type <$> rs =
        [RecordType.ActionReceived; RecordType.PolicyDecision; RecordType.ActionDispatched;
         RecordType.AiInteractiveQueueDowngrade; RecordType.RoutingDecision;
         RecordType.ExecutionStarted; RecordType.ExecutionCompleted; RecordType.VerificationResult;
         RecordType.RollbackCompleted]
  | (Err _, _) => False
  end.
Proof.
  assert (is_ok (submit (demo_amb "act_1") (demo_cfg (Some failing_driver)) expose demo_rc
    (demo_world 4)).1 = true) as Ho by (vm_compute; reflexivity).
  destruct (submit _ _ _ _ (demo_world 4)) as [[c|e] w'] eqn:E; [|discriminate Ho].
  destruct (RtEvidence.evidence_trail_exact key_order (demo_amb "act_1")
    (demo_cfg (Some failing_driver)) expose demo_rc (demo_world 4) c w' eq_refl eq_refl E)
    as (rs & Hl & Ht & _). exists rs. split; [exact Hl|]. rewrite Ht. vm_compute. reflexivity.
Defined.

Lemma runtime_evidence_verifies_witness :
  match sink one_slot with
  | Some s => InMemoryEvidenceSink.len s = 8 /\
              (InMemoryEvidenceSink.chain s = [] \/
               ReceiptChain.verify_integrity_signed (verifying_key 7%Z)
                 (InMemoryEvidenceSink.chain s) = Ok ())
  | None => False
  end.
Proof.
  destruct (sink one_slot) as [s|] eqn:E.
  2: { apply (f_equal is_some) in E. vm_compute in E. discriminate E. }
  split.
  { apply (f_equal (fun s => match s with Some s => InMemoryEvidenceSink.len s | None => 0 end)) in E.
    vm_compute in E. symmetry. exact E. }
  apply (RtEvidence.runtime_evidence_verifies key_order (demo_cfg None) 7%Z
    (fun n => "evr_" +:+ pretty n) Z.of_nat (demo_world 1) one_slot s);
    [reflexivity| |exact E].
  apply rtc_once. apply Runtime.step_submit.
Defined.

(** ** Approvals

    The same runtime under a kernel that asks for a human's approval of
    everything ([EchoKernel] answers each request with the decision it holds). *)
Record EchoKernel : Type := { answer : PolicyDecision }.
#[local] Instance echo : PolicyKernelT EchoKernel := { evaluate_policy _ _ k := (Ok (answer k), k) }.
Abbreviation EW := (World EchoKernel InMemoryEvidenceSink.t InMemoryApprovalSink.t).

Definition ask_human : PolicyDecision :=
  {| policy_decision_id := "poldec_1"; action_id := "act_1"; request_hash := "";
     bundle_version := "polb_1"; enrichment_snapshot_id := "";
     decision := Decision.RequireApproval; reason_code := "HUMAN"; reason_message := "";
     constraints := Constraints.default_; approval := default_requirement;
     evidence_receipt_id := ""; evaluated_at := 5; rules_consulted := 1; simulated := false |}.

Definition echo_world : EW :=
  {| kernel := Some {| answer := ask_human |}; sink := Some demo_sink;
     approvals := Some InMemoryApprovalSink.new; queue := Some (demo_queue 4); rctx := None;
     tripwire := None; operator_alerts := None; contexts := ∅ |}.

(** The request of [expose], proposed by [who]. *)
Definition proposed_by (who : string) (ai : bool) : Envelope.t :=
  Envelope.new 0 {| subject_canonical_id := who; identity_is_ai := ai; session_id := None |}
    (Envelope.request expose) {| trace_id := ""; span_id := ""; parent_span_id := None |}.

Definition submit_echo (id : string) (env : Envelope.t) (w : EW) : EW :=
  (submit_action key_order (demo_amb id) (demo_cfg None) env demo_rc w).2.

(** A human grants the approval request of the action [id]. *)
Definition grant (id fresh : string) (w : EW) : EW :=
  match approvals w with
  | Some a => match InMemoryApprovalSink.inject_granted_binding fresh 10 ("req_" +:+ id)
                      "human:operator" ApproverClass.Human a with
              | Ok (_, a) => set_approvals (Some a) w
              | Err _ => w
              end
  | None => w
  end.

(** A human's proposal and an agent's, of the same request, both parked; the
    human's is approved. *)
Definition two_parked : EW :=
  grant "act_1" "apr_1"
    (submit_echo "act_2" (proposed_by "agent:dev" true)
       (submit_echo "act_1" (proposed_by "human:lucky" false) echo_world)).

Abbreviation resume id env w :=
  (resume_with_binding key_order (demo_amb id) (demo_cfg None) id env demo_rc "apr_1" w).

(** An approval is not tied to the action it was granted for: a binding that
    was granted for a human's action resumes an agent's action with the same
    request, which runs to success, and is then refused to the action it was
    granted for. *)
Theorem approval_crosses_actions :
  (forall id, id ∈ ["act_1"; "act_2"] -> ActionContext.status <$> contexts two_parked !! id
     = Some ActionLifecycleState.ApprovalPending) /\
  (a ← approvals two_parked; ApprovalBinding.action_id <$> binding_of "apr_1" a) = Some "act_1" /\
  (let '(r, w) := resume "act_2" (proposed_by "agent:dev" true) two_parked in
   ActionContext.status <$> (match r with Ok c => Some c | Err _ => None end)
     = Some ActionLifecycleState.Succeeded /\
   (resume "act_1" (proposed_by "human:lucky" false) w).1
     = Err RuntimeError.ApprovalBindingConsumed).
Proof.
  split_and!; [|vm_compute; reflexivity|vm_compute; split; reflexivity].
  intros id Hid. apply elem_of_cons in Hid as [-> |Hid]; [|apply list_elem_of_singleton in Hid as ->];
    vm_compute; reflexivity.
Qed.

Lemma resume_needs_a_grant_witness :
  exists b, ApprovalBinding.state b = ApprovalBindingState.Granted /\
    ApprovalBinding.bound_action_canonical_hash b <> "" /\
    Runtime.grants (demo_amb "act_1") (proposed_by "human:lucky" false) None b.
Proof.
  assert (is_ok (resume "act_1" (proposed_by "human:lucky" false) two_parked).1 = true) as Ho
    by (vm_compute; reflexivity).
  destruct (resume "act_1" (proposed_by "human:lucky" false) two_parked) as [[c|e] w'] eqn:E;
    [|discriminate Ho].
  destruct (Runtime.resume_needs_a_grant key_order (demo_amb "act_1") (demo_cfg None) "act_1"
    (proposed_by "human:lucky" false) demo_rc "apr_1" two_parked c w' E)
    as (stored & a & b & a' & _ & _ & Ha & Hb & Hg & _).
  exists b. split; [apply Hg|]. split; [|exact Hg].
  assert ((a ← approvals two_parked; b ← binding_of "apr_1" a;
           Some (str_is_empty (ApprovalBinding.bound_action_canonical_hash b))) = Some false) as He
    by (vm_compute; reflexivity).
  rewrite Ha in He. cbn [mbind option_bind] in He. rewrite Hb in He. cbn [mbind option_bind] in He.
  injection He as He. intros Hx. rewrite Hx in He. discriminate He.
Defined.

(** A grant that is consumed, after which a second attempt is refused. *)
Lemma bindings_are_single_use_witness :
  exists s s' : InMemoryApprovalSink.t,
    InMemoryApprovalSink.run_of s ["apr_1"] s' /\ NoDup ["apr_1"].
Proof.
  destruct (approvals two_parked) as [s|] eqn:Es.
  2: { apply (f_equal is_some) in Es. vm_compute in Es. discriminate Es. }
  assert (is_ok (InMemoryApprovalSink.consume_binding 10 "apr_1" s).1 = true) as Ho.
  { assert (is_ok (InMemoryApprovalSink.consume_binding 10 "apr_1"
      (default s (approvals two_parked))).1 = true) as Hx by (vm_compute; reflexivity).
    rewrite Es in Hx. exact Hx. }
  destruct (InMemoryApprovalSink.consume_binding 10 "apr_1" s) as [[b|e] s1] eqn:Ec;
    [|discriminate Ho].
  destruct (InMemoryApprovalSink.consume_binding 10 "apr_1" s1) as [[b2|e2] s2] eqn:Ec2.
  { exfalso. apply InMemoryApprovalSink.consume_spends in Ec as (b3 & Hb3 & Ht).
    apply InMemoryApprovalSink.consume_ok_inv in Ec2 as (b4 & Hb4 & Hg & _).
    rewrite Hb3 in Hb4. injection Hb4 as <-. rewrite Hg in Ht. discriminate Ht. }
  assert (InMemoryApprovalSink.run_of s ["apr_1"] s2) as Hr.
  { change ["apr_1"] with (option_list (Some "apr_1") ++ (option_list (@None string) ++ [])).
    eapply InMemoryApprovalSink.run_cons; [exact (InMemoryApprovalSink.step_consume _ _ _ _ _ Ec)|].
    eapply InMemoryApprovalSink.run_cons; [exact (InMemoryApprovalSink.step_refuse _ _ _ _ _ Ec2)|].
    constructor. }
  exists s, s2. split; [exact Hr|]. exact (InMemoryApprovalSink.bindings_are_single_use s s2 _ Hr).
Defined.
End RtDemo.
