(* ===== verification/SgrTypes.v ===== *)
(** * Service graph runtime: data model (crate [aios-sgr])

    Unit identifiers and their grammar ([unit.rs]), the closed vocabularies
    ([state.rs], [dependency.rs], [unit.rs]), unit manifests with the body their
    publisher signs, and the error type ([error.rs]); then the evidence log and
    its emitter ([evidence_emit.rs], [evidence_payloads.rs]). *)
From S2P Require Import Prelude Collections Json Ids Records Redaction Receipt ChainSound StateError.

(** ** Unit identifiers *)
Module UnitId.

Definition PREFIX : string := "unit:".

Definition is_ascii_lowercase (a : Ascii.ascii) : bool :=
  let c := Ascii.N_of_ascii a in ((97 <=? c) && (c <=? 122))%N.
Definition is_ascii_digit (a : Ascii.ascii) : bool :=
  let c := Ascii.N_of_ascii a in ((48 <=? c) && (c <=? 57))%N.

Definition vendor_char (a : Ascii.ascii) : bool :=
  is_ascii_lowercase a || is_ascii_digit a || Ascii.eqb a "-".
Definition name_char (a : Ascii.ascii) : bool := vendor_char a || Ascii.eqb a "_".

Definition validate_vendor (input : string) : result string () :=
  if str_is_empty input then Err "vendor segment is empty"
  else if (63 <? String.length input)%nat then Err "vendor segment exceeds 63 characters"
  else if starts_with "-" input || ends_with_char "-" input
  then Err "vendor segment cannot start or end with '-'"
  else if negb (str_all vendor_char input)
  then Err ("vendor segment contains invalid characters: " +:+ input)
  else Ok ().

Definition validate_name_like (input label : string) : result string () :=
  if str_is_empty input then Err (label +:+ " segment is empty")
  else if (63 <? String.length input)%nat then Err (label +:+ " segment exceeds 63 characters")
  else if negb (str_all name_char input)
  then Err (label +:+ " segment contains invalid characters: " +:+ input)
  else Ok ().

Definition validate_unit_id (input : string) : result string string :=
  if str_is_empty input then Err "unit id is empty"
  else match strip_prefix PREFIX input with
  | None => Err ("expected prefix " +:+ PREFIX +:+ ", got " +:+ input)
  | Some rest =>
      let? _ := match split_on ":" rest with
                | [vendor; name] =>
                    let? _ := validate_vendor vendor in validate_name_like name "name"
                | [vendor; name; variant] =>
                    let? _ := validate_vendor vendor in
                    let? _ := validate_name_like name "name" in
                    validate_name_like variant "variant"
                | _ => Err ("unit id must be unit:<vendor>:<name>[:<variant>], got " +:+ input)
                end in
      Ok input
  end.

Definition parse (input : string) : result string string := validate_unit_id input.

Definition from_parts (vendor name : string) (variant : option string) : result string string :=
  let? _ := validate_vendor vendor in
  let? _ := validate_name_like name "name" in
  match variant with
  | Some value =>
      let? _ := validate_name_like value "variant" in
      Ok (PREFIX +:+ vendor +:+ ":" +:+ name +:+ ":" +:+ value)
  | None => Ok (PREFIX +:+ vendor +:+ ":" +:+ name)
  end.

(** [generated_for_vendor]; [ulid] is the fresh identifier, lower-cased. *)
Definition generated_for_vendor (ulid vendor : string) : result string string :=
  from_parts vendor ("unit_" +:+ ulid) None.

(** *** Lemmas *)
Abbreviation colon_free := (free_of ":").

Lemma str_all_mono (p q : Ascii.ascii -> bool) s :
  (forall a, p a = true -> q a = true) -> str_all p s = true -> str_all q s = true.
Proof.
  intros Hpq. induction s as [|a s IH]; simpl; [done|].
  intros [Ha Hs]%andb_true_iff. by rewrite (Hpq a Ha), (IH Hs).
Qed.

Lemma name_char_no_colon a : name_char a = true -> negb (Ascii.eqb a ":") = true.
Proof. destruct (Ascii.eqb a ":") eqn:E; [|done]. by apply ascii_eqb_eq in E as ->. Qed.

Lemma vendor_colon_free v : validate_vendor v = Ok () -> colon_free v = true.
Proof.
  unfold validate_vendor. intros Hv. run. eapply str_all_mono; [|eassumption].
  intros a Ha. apply name_char_no_colon. unfold name_char. by rewrite Ha.
Qed.

Lemma name_colon_free n l : validate_name_like n l = Ok () -> colon_free n = true.
Proof.
  unfold validate_name_like. intros Hn. run. eapply str_all_mono; [|eassumption].
  exact name_char_no_colon.
Qed.

(** The grammar of unit ids: a text parses exactly when it is built from a
    vendor, a name and an optional variant that satisfy the segment rules, and
    parsing returns the text itself; so every id the runtime builds is read
    back unchanged. *)
Theorem unit_id_roundtrip (input id : string) :
  parse input = Ok id <->
  input = id /\ exists vendor name variant, from_parts vendor name variant = Ok id.
Proof.
  unfold parse, validate_unit_id, from_parts. split.
  - intros Hp. destruct (str_is_empty input); [done|].
    destruct (strip_prefix PREFIX input) as [rest|] eqn:Er; [|done].
    apply strip_prefix_Some in Er. pose proof (join_split ":" rest) as Hj.
    apply result_bind_ok in Hp as ([] & Hs & [= <-]). split; [done|].
    destruct (split_on ":" rest) as [|v [|n [|w [|]]]]; try done.
    + apply result_bind_ok in Hs as ([] & Hv & Hn). exists v, n, None.
      rewrite Hv. simpl. rewrite Hn. simpl. by rewrite Er, <- Hj.
    + apply result_bind_ok in Hs as ([] & Hv & Hs).
      apply result_bind_ok in Hs as ([] & Hn & Hw). exists v, n, (Some w).
      rewrite Hv. simpl. rewrite Hn. simpl. rewrite Hw. simpl. by rewrite Er, <- Hj.
  - intros [-> (v & n & variant & Hf)].
    apply result_bind_ok in Hf as ([] & Hv & Hf). apply result_bind_ok in Hf as ([] & Hn & Hf).
    pose proof (vendor_colon_free v Hv) as Hvc. pose proof (name_colon_free n _ Hn) as Hnc.
    assert (exists rest, id = PREFIX +:+ rest /\
      match split_on ":" rest with
      | [vendor; name] => let? _ := validate_vendor vendor in validate_name_like name "name"
      | [vendor; name; variant] =>
          let? _ := validate_vendor vendor in
          let? _ := validate_name_like name "name" in validate_name_like variant "variant"
      | _ => Err ("unit id must be unit:<vendor>:<name>[:<variant>], got " +:+ id)
      end = Ok ()) as (rest & Hid & Hm).
    { destruct variant as [w|].
      - apply result_bind_ok in Hf as ([] & Hw & [= <-]).
        eexists. split; [reflexivity|].
        change (v +:+ ":" +:+ n +:+ ":" +:+ w) with (v +:+ String ":" (n +:+ String ":" w)).
        rewrite (split_on_app ":" v) by done. rewrite (split_on_app ":" n) by done.
        rewrite (split_on_free ":" w) by (by eapply name_colon_free).
        rewrite Hv. simpl. by rewrite Hn.
      - injection Hf as <-. eexists. split; [reflexivity|].
        change (v +:+ ":" +:+ n) with (v +:+ String ":" n).
        rewrite (split_on_app ":" v) by done. rewrite (split_on_free ":" n) by done. by rewrite Hv. }
    assert (strip_prefix PREFIX id = Some rest) as -> by (by apply strip_prefix_Some).
    rewrite Hm. destruct (str_is_empty id) eqn:Ee; [|done].
    apply str_is_empty_true in Ee. by rewrite Ee in Hid.
Qed.
End UnitId.

(** ** States *)
Module UnitState.
Inductive t : Type :=
| Draft | Queued | Starting | Running | Healthy | Degraded | Unhealthy | Stopping | Stopped
| Failed | Retired.

#[global] Instance t_eq_dec : EqDecision t.
Proof. solve_decision. Defined.

Definition is_terminal (s : t) : bool :=
  match s with Stopped | Failed | Retired => true | _ => false end.

Definition as_wire_str (s : t) : string :=
  match s with
  | Draft => "DRAFT" | Queued => "QUEUED" | Starting => "STARTING" | Running => "RUNNING"
  | Healthy => "HEALTHY" | Degraded => "DEGRADED" | Unhealthy => "UNHEALTHY"
  | Stopping => "STOPPING" | Stopped => "STOPPED" | Failed => "FAILED" | Retired => "RETIRED"
  end.

Definition all : list t :=
  [Draft; Queued; Starting; Running; Healthy; Degraded; Unhealthy; Stopping; Stopped; Failed;
   Retired].
End UnitState.

Module GraphState.
Inductive t : Type := Empty | Resolving | Converging | Converged | Degraded | Failed.

#[global] Instance t_eq_dec : EqDecision t.
Proof. solve_decision. Defined.

Definition wire (s : t) : string :=
  match s with
  | Empty => "EMPTY" | Resolving => "RESOLVING" | Converging => "CONVERGING"
  | Converged => "CONVERGED" | Degraded => "DEGRADED" | Failed => "FAILED"
  end.
End GraphState.

Module UnitKind.
Inductive t : Type :=
| Service | OneShotJob | Timer | Mount | Device | AppSession | AgentWorker | ModelServer
| RecoveryTask | Observer.

#[global] Instance t_eq_dec : EqDecision t.
Proof. solve_decision. Defined.

Definition wire (k : t) : string :=
  match k with
  | Service => "SERVICE" | OneShotJob => "ONE_SHOT_JOB" | Timer => "TIMER" | Mount => "MOUNT"
  | Device => "DEVICE" | AppSession => "APP_SESSION" | AgentWorker => "AGENT_WORKER"
  | ModelServer => "MODEL_SERVER" | RecoveryTask => "RECOVERY_TASK" | Observer => "OBSERVER"
  end.
End UnitKind.

Module DesiredState.
Inductive t : Type := Running | Stopped | Restarted | Reloaded.

#[global] Instance t_eq_dec : EqDecision t.
Proof. solve_decision. Defined.

Definition wire (d : t) : string :=
  match d with
  | Running => "RUNNING" | Stopped => "STOPPED" | Restarted => "RESTARTED" | Reloaded => "RELOADED"
  end.
End DesiredState.

Module RestartPolicy.
Inductive t : Type := Never | OnFailure | Always | UnlessStopped | Scheduled.
Definition wire (p : t) : string :=
  match p with
  | Never => "NEVER" | OnFailure => "ON_FAILURE" | Always => "ALWAYS"
  | UnlessStopped => "UNLESS_STOPPED" | Scheduled => "SCHEDULED"
  end.
End RestartPolicy.

Module HealthCheckKind.
Inductive t : Type := TcpPort | HttpOk | CommandExitZero | AiosfsPointerHealthy | CustomProbe.
Definition wire (k : t) : string :=
  match k with
  | TcpPort => "TCP_PORT" | HttpOk => "HTTP_OK" | CommandExitZero => "COMMAND_EXIT_ZERO"
  | AiosfsPointerHealthy => "AIOSFS_POINTER_HEALTHY" | CustomProbe => "CUSTOM_PROBE"
  end.
End HealthCheckKind.

Module RollbackTrigger.
Inductive t : Type := OnStartupFailure | OnHealthFailure | OnOperatorRequest | Never.
Definition wire (k : t) : string :=
  match k with
  | OnStartupFailure => "ON_STARTUP_FAILURE" | OnHealthFailure => "ON_HEALTH_FAILURE"
  | OnOperatorRequest => "ON_OPERATOR_REQUEST" | Never => "NEVER"
  end.
End RollbackTrigger.

(** ** Dependencies ([dependency.rs]) *)
Module DependencyKind.
Inductive t : Type := RequiresHealthy | RequiresRunning | OrdersAfter.

#[global] Instance t_eq_dec : EqDecision t.
Proof. solve_decision. Defined.

Definition is_hard (k : t) : bool :=
  match k with RequiresHealthy | RequiresRunning => true | OrdersAfter => false end.

Definition wire (k : t) : string :=
  match k with
  | RequiresHealthy => "REQUIRES_HEALTHY" | RequiresRunning => "REQUIRES_RUNNING"
  | OrdersAfter => "ORDERS_AFTER"
  end.
End DependencyKind.

Record UnitDependency : Type := {
  dependency_unit_id : string;
  dependency_kind : DependencyKind.t;
}.

Module DependencyEdge.
Record t : Type := {
  from_unit_id : string;
  to_unit_id : string;
  kind : DependencyKind.t;
}.
End DependencyEdge.

(** ** Manifests ([unit.rs]) *)
Record RestartBudget : Type := {
  max_attempts : Z;
  reset_window_seconds : Z;
  backoff_initial_seconds : Z;
  backoff_max_seconds : Z;
}.

Record HealthCheckSpec : Type := {
  health_kind : HealthCheckKind.t;
  probe_interval_seconds : Z;
  probe_timeout_seconds : Z;
  startup_grace_seconds : Z;
  unhealthy_threshold : Z;
  healthy_threshold : Z;
  health_args : json;
}.

Record VerificationIntentRef : Type := {
  intent_type : string;
  intent_args : json;
}.

Record RollbackPointer : Type := {
  aiosfs_pointer_id : string;
  expected_current_version_id : string;
  trigger : RollbackTrigger.t;
}.

Record GpuBudget : Type := {
  requires_compute : bool;
  vram_bytes_max : Z;
}.

(** [cpu_quota_cores] is an [f64] that no modelled code computes with; it is
    kept as its serialised text. *)
Record ResourceBudget : Type := {
  memory_bytes_max : Z;
  cpu_quota_cores : string;
  disk_bytes_max : Z;
  file_descriptors_max : Z;
  process_count_max : Z;
  queue_depth_max : Z;
  gpu : option GpuBudget;
}.

Module UnitManifest.
Record t : Type := {
  schema_version : string;
  unit_id : string;
  unit_kind : UnitKind.t;
  display_name : string;
  description : string;
  issued_at : DateTime;
  publisher_id : string;
  publisher_root_id : string;
  publisher_signature : list Z;
  canonical_hash : string;
  dependencies : list UnitDependency;
  sandbox_profile_ref : string;
  verification_intent : list VerificationIntentRef;
  rollback_pointer : RollbackPointer;
  resource_budget : ResourceBudget;
  restart_policy : RestartPolicy.t;
  restart_budget : RestartBudget;
  health_check : HealthCheckSpec;
  startup_deadline_seconds : Z;
  stop_deadline_seconds : Z;
  adapter_target : json;
  labels : option json;
  correlation_id : option string;
  desired_state : DesiredState.t;
  provides : list string;
  adapter_id : option string;
}.

Definition str (k v : string) : string * json := (k, JString v).
Definition nullable (o : option string) : json :=
  match o with Some v => JString v | None => JNull end.

Definition dependency_json (d : UnitDependency) : json :=
  JObject [str "unit_id" (dependency_unit_id d);
           str "kind" (DependencyKind.wire (dependency_kind d))].

Definition intent_json (v : VerificationIntentRef) : json :=
  JObject [str "type" (intent_type v); ("args", intent_args v)].

Definition rollback_json (p : RollbackPointer) : json :=
  JObject [str "aiosfs_pointer_id" (aiosfs_pointer_id p);
           str "expected_current_version_id" (expected_current_version_id p);
           str "trigger" (RollbackTrigger.wire (trigger p))].

Definition budget_json (b : ResourceBudget) : json :=
  JObject ([("memory_bytes_max", JInt (memory_bytes_max b));
            ("cpu_quota_cores", JFloat (cpu_quota_cores b));
            ("disk_bytes_max", JInt (disk_bytes_max b));
            ("file_descriptors_max", JInt (file_descriptors_max b));
            ("process_count_max", JInt (process_count_max b));
            ("queue_depth_max", JInt (queue_depth_max b))]
           ++ match gpu b with
              | Some g => [("gpu", JObject [("requires_compute", JBool (requires_compute g));
                                            ("vram_bytes_max", JInt (vram_bytes_max g))])]
              | None => []
              end).

Definition restart_json (b : RestartBudget) : json :=
  JObject [("max_attempts", JInt (max_attempts b));
           ("reset_window_seconds", JInt (reset_window_seconds b));
           ("backoff_initial_seconds", JInt (backoff_initial_seconds b));
           ("backoff_max_seconds", JInt (backoff_max_seconds b))].

Definition health_json (h : HealthCheckSpec) : json :=
  JObject [str "kind" (HealthCheckKind.wire (health_kind h));
           ("probe_interval_seconds", JInt (probe_interval_seconds h));
           ("probe_timeout_seconds", JInt (probe_timeout_seconds h));
           ("startup_grace_seconds", JInt (startup_grace_seconds h));
           ("unhealthy_threshold", JInt (unhealthy_threshold h));
           ("healthy_threshold", JInt (healthy_threshold h)); ("args", health_args h)].

(** [SignedUnitManifestBody]: every field but the signature and the hash. *)
Definition signed_body `{Primitives} (m : t) : json :=
  JObject [str "schema_version" (schema_version m); str "unit_id" (unit_id m);
           str "unit_kind" (UnitKind.wire (unit_kind m)); str "display_name" (display_name m);
           str "description" (description m);
           str "issued_at" (datetime_to_json (issued_at m));
           str "publisher_id" (publisher_id m); str "publisher_root_id" (publisher_root_id m);
           ("dependencies", JArray (dependency_json <$> dependencies m));
           str "sandbox_profile_ref" (sandbox_profile_ref m);
           ("verification_intent", JArray (intent_json <$> verification_intent m));
           ("rollback_pointer", rollback_json (rollback_pointer m));
           ("resource_budget", budget_json (resource_budget m));
           str "restart_policy" (RestartPolicy.wire (restart_policy m));
           ("restart_budget", restart_json (restart_budget m));
           ("health_check", health_json (health_check m));
           ("startup_deadline_seconds", JInt (startup_deadline_seconds m));
           ("stop_deadline_seconds", JInt (stop_deadline_seconds m));
           ("adapter_target", adapter_target m); ("labels", default JNull (labels m));
           ("correlation_id", nullable (correlation_id m));
           str "desired_state" (DesiredState.wire (desired_state m));
           ("provides", JArray (JString <$> provides m)); ("adapter_id", nullable (adapter_id m))].
End UnitManifest.

Module ServiceUnit.
Record t : Type := {
  unit_id : string;
  manifest : UnitManifest.t;
  state : UnitState.t;
  last_transition_at : DateTime;
  evidence_chain : list string;
}.

Definition set_state (s : UnitState.t) (now : DateTime) (u : t) : t :=
  {| unit_id := unit_id u; manifest := manifest u; state := s; last_transition_at := now;
     evidence_chain := evidence_chain u |}.

(** [is_critical_unit]: the label [criticality] is [critical] in any case. *)
Definition is_critical_unit (u : t) : bool :=
  match (labels ← UnitManifest.labels (manifest u); v ← json_get labels "criticality"; as_str v) with
  | Some value => String.eqb (to_ascii_lowercase value) "critical"
  | None => false
  end.
End ServiceUnit.

(** ** Errors ([error.rs]) *)
Module SgrError.
Inductive t : Type :=
| UnitNotFound (id : string)
| UnitAlreadyRegistered (id : string)
| DependencyCycleDetected (ids : list string)
| InvalidStateTransition (from to : UnitState.t)
| ManifestSignatureInvalid
| ManifestUnknownAuthority (authority : string)
| DependencyTargetNotRegistered (id : string)
| AdapterCapabilityMismatch (manifest : string) (missing : list string)
| AdapterSuspended (id : string)
| EvidenceEmitFailed (message : string)
| Internal (message : string).
End SgrError.

(** * Service graph runtime: the evidence emitter

    [evidence_payloads.rs] and [evidence_emit.rs]: the trait [SgrEvidenceLog],
    its in-memory implementation, and the emitter of the crate's records.  The
    graph, the drivers, the evaluator and the adapter registry share one
    evidence log and read the wall clock: [World.t G L] is the state of their
    monad, with a graph of type [G] and a log of type [L]; [clock] gives the
    successive readings, which [reads] counts. *)

(** ** The log interface *)
Class SgrEvidenceLog (L : Type) `{Primitives} := {
  sgr_append_signed : Receipt.ReceiptBuilder -> SigningKey -> option string -> L ->
    result EvidenceError Receipt.t * L;
}.

Module InMemorySgrEvidenceLog.
Section Ops.
Context `{Primitives}.

(** [mint] and [times] are the identifiers and times of the successive seals. *)
Record t : Type := {
  chain : list Receipt.t;
  mint : nat -> string;
  times : nat -> DateTime;
  seals : nat;
}.

Definition new (mint : nat -> string) (times : nat -> DateTime) : t :=
  {| chain := []; mint := mint; times := times; seals := 0 |}.

Definition advance (rs : list Receipt.t) (l : t) : t :=
  {| chain := rs; mint := mint l; times := times l; seals := S (seals l) |}.

Definition validate_expected_previous_receipt (previous : option Receipt.t)
    (expected : option string) : result EvidenceError () :=
  match expected with
  | None => Ok ()
  | Some e =>
      match previous with
      | None => Err (EncodingFailed ("expected previous receipt id " +:+ e +:+ ", but chain is empty"))
      | Some p =>
          if String.eqb (Receipt.receipt_id p) e then Ok ()
          else Err (EncodingFailed ("expected previous receipt id " +:+ e +:+ ", but chain tail is "
                                      +:+ Receipt.receipt_id p))
      end
  end.

Definition append_signed (b : Receipt.ReceiptBuilder) (key : SigningKey) (expected : option string)
    (l : t) : result EvidenceError Receipt.t * t :=
  let previous := last (chain l) in
  match (let? _ := validate_expected_previous_receipt previous expected in
         let? r := Receipt.seal_signed (mint l (seals l)) (times l (seals l)) b previous key in
         let? rs := ReceiptChain.append (chain l) r in
         Ok (r, rs)) with
  | Err e => (Err e, advance (chain l) l)
  | Ok (r, rs) => (Ok r, advance rs l)
  end.

#[export] Instance log : SgrEvidenceLog t := {| sgr_append_signed := append_signed |}.
End Ops.
End InMemorySgrEvidenceLog.

(** ** The emitter *)
Definition AIOS_SGR_SUBJECT : string := "_system:service:service-graph-runtime".

(** Renderings that only reach error messages and signed bytes: [Display] of the
    evidence errors, [serde_json::to_vec] (a failure as its text) and
    [blake3::Hash::as_bytes] of a text. *)
Class SgrTexts := {
  evidence_error_text : EvidenceError -> string;
  serde_json_to_vec : json -> result string string;
  blake3_bytes : string -> string;
}.

Record SgrEvidenceEmitter `{Primitives} : Type := {
  emitter_key : SigningKey;
  emitter_subject : string;
}.

Module World.
Record t {G L : Type} : Type := {
  graph : G;
  evidence : L;
  clock : nat -> DateTime;
  reads : nat;
}.
Arguments t : clear implicits.
End World.

Section Emit.
Context {G L : Type} `{SgrEvidenceLog L} `{!SgrTexts}.

Abbreviation W := (World.t G L).
Abbreviation M := (M (World.t G L) SgrError.t).

Definition set_graph (g : G) (w : W) : W :=
  {| World.graph := g; World.evidence := World.evidence w; World.clock := World.clock w;
     World.reads := World.reads w |}.
Definition set_evidence (l : L) (w : W) : W :=
  {| World.graph := World.graph w; World.evidence := l; World.clock := World.clock w;
     World.reads := World.reads w |}.

(** [Utc::now()]. *)
Definition utc_now : M DateTime := fun w =>
  (Ok (World.clock w (World.reads w)),
   {| World.graph := World.graph w; World.evidence := World.evidence w;
      World.clock := World.clock w; World.reads := S (World.reads w) |}).

Definition emit (em : option SgrEvidenceEmitter) (rt : RecordType.t) (payload : json) : M () :=
  match em with
  | None => ret ()
  | Some em => fun w =>
      let b := Receipt.with_payload payload
                 (Receipt.new rt (RecordType.retention_class_for rt) (emitter_subject em)) in
      match sgr_append_signed b (emitter_key em) None (World.evidence w) with
      | (Ok _, l) => (Ok (), set_evidence l w)
      | (Err e, l) => (Err (SgrError.EvidenceEmitFailed (evidence_error_text e)), set_evidence l w)
      end
  end.

Definition hex_prefix (bytes : list Z) (max_bytes : nat) : string :=
  encode_signature_hex (take max_bytes bytes).

Definition authority_with_signature_prefix (authority : string) (signature : list Z) : string :=
  let prefix := hex_prefix signature 8 in
  if str_is_empty prefix then authority else authority +:+ ":sig:" +:+ prefix.

Abbreviation str := UnitManifest.str.

Definition emit_unit_registered (em : option SgrEvidenceEmitter) (u : ServiceUnit.t) : M () :=
  let m := ServiceUnit.manifest u in
  emit em RecordType.UnitRegistered
    (JObject [str "unit_id" (ServiceUnit.unit_id u); str "kind" (UnitKind.wire (UnitManifest.unit_kind m));
              str "name" (UnitManifest.display_name m);
              str "signing_authority"
                (authority_with_signature_prefix (UnitManifest.publisher_root_id m)
                   (UnitManifest.publisher_signature m));
              str "registered_at" (datetime_to_json (ServiceUnit.last_transition_at u))]).

Definition emit_unit_started (em : option SgrEvidenceEmitter) (u : ServiceUnit.t) : M () :=
  emit em RecordType.UnitStarted
    (JObject [str "unit_id" (ServiceUnit.unit_id u);
              str "started_at" (datetime_to_json (ServiceUnit.last_transition_at u))]).

Definition emit_unit_stopped (em : option SgrEvidenceEmitter) (u : ServiceUnit.t) : M () :=
  emit em RecordType.UnitStopped
    (JObject [str "unit_id" (ServiceUnit.unit_id u);
              str "stopped_at" (datetime_to_json (ServiceUnit.last_transition_at u));
              ("requested_by_desired_state",
                 JBool (bool_decide (UnitManifest.desired_state (ServiceUnit.manifest u)
                                     = DesiredState.Stopped)))]).

Definition emit_unit_failed (em : option SgrEvidenceEmitter) (u : ServiceUnit.t) (reason : string)
    : M () :=
  emit em RecordType.UnitFailed
    (JObject [str "unit_id" (ServiceUnit.unit_id u); str "reason" reason;
              str "failed_at" (datetime_to_json (ServiceUnit.last_transition_at u))]).

Definition emit_dependency_declared (em : option SgrEvidenceEmitter) (e : DependencyEdge.t) : M () :=
  match em with
  | None => ret ()
  | Some _ =>
      let! now := utc_now in
      emit em RecordType.GraphEvaluated
        (JObject [str "from" (DependencyEdge.from_unit_id e); str "to" (DependencyEdge.to_unit_id e);
                  str "kind" (DependencyKind.wire (DependencyEdge.kind e));
                  str "declared_at" (datetime_to_json now)])
  end.

Definition emit_graph_converged (em : option SgrEvidenceEmitter) (g : GraphState.t) (count : Z) : M () :=
  match em with
  | None => ret ()
  | Some _ =>
      let! now := utc_now in
      emit em RecordType.GraphConverged
        (JObject [str "graph_state" (GraphState.wire g); ("unit_count", JInt count);
                  str "converged_at" (datetime_to_json now)])
  end.

(** Emitting leaves the graph alone and fails only with [EvidenceEmitFailed]. *)
Lemma emit_post em rt p w :
  post (emit em rt p) (fun _ w' => World.graph w' = World.graph w)
    (fun e w' => (exists m, e = SgrError.EvidenceEmitFailed m) /\ World.graph w' = World.graph w) w.
Proof.
  unfold post, emit. destruct em as [em|]; [|done]. cbv zeta.
  destruct (sgr_append_signed _ _ _ _) as [[r|e] l]; [done|]. split; [by eexists|done].
Qed.
End Emit.
