(* ===== verification/SgrGraph.v ===== *)
(** * Service graph runtime: the service graph

    The trait [ServiceGraph] ([graph.rs]) as a class over the state of the
    runtime, the contract its clients rely on ([ServiceGraphLaws]), and
    [InMemoryServiceGraph] ([in_memory_graph.rs]), which fulfils it:
    registration of signed manifests, dependency edges, unit states.  Its
    theorems: the state the graph keeps well formed, and what registration
    guarantees. *)
From S2P Require Import Prelude Json Ids Records Redaction Receipt ChainSound StateError SgrTypes.

(** ** The trait *)
Class ServiceGraph (G L : Type) := {
  sg_register_unit : UnitManifest.t -> M (World.t G L) SgrError.t ServiceUnit.t;
  sg_get_unit : string -> M (World.t G L) SgrError.t ServiceUnit.t;
  sg_list_units : M (World.t G L) SgrError.t (list ServiceUnit.t);
  sg_declare_dependency : string -> string -> DependencyKind.t ->
    M (World.t G L) SgrError.t DependencyEdge.t;
  sg_list_dependencies : string -> M (World.t G L) SgrError.t (list DependencyEdge.t);
  sg_graph_state : M (World.t G L) SgrError.t GraphState.t;
  sg_set_unit_state : string -> UnitState.t -> M (World.t G L) SgrError.t ServiceUnit.t;
}.

(** [is_valid_transition], the edges of the unit FSM. *)
Definition is_valid_transition (from to : UnitState.t) : bool :=
  match from, to with
  | UnitState.Draft, (UnitState.Queued | UnitState.Retired)
  | UnitState.Stopped, (UnitState.Queued | UnitState.Retired)
  | UnitState.Queued, (UnitState.Starting | UnitState.Retired)
  | UnitState.Failed, (UnitState.Starting | UnitState.Retired)
  | UnitState.Starting, (UnitState.Running | UnitState.Failed)
  | UnitState.Running, (UnitState.Healthy | UnitState.Stopped | UnitState.Failed)
  | UnitState.Healthy, (UnitState.Degraded | UnitState.Unhealthy | UnitState.Stopping)
  | UnitState.Degraded, (UnitState.Healthy | UnitState.Unhealthy | UnitState.Stopping)
  | UnitState.Unhealthy,
      (UnitState.Healthy | UnitState.Starting | UnitState.Failed | UnitState.Stopping)
  | UnitState.Stopping, (UnitState.Stopped | UnitState.Failed) => true
  | _, _ => false
  end.

(** What the drivers and the evaluator rely on of a graph: reads are reads, and
    a state update is checked against the FSM and touches one unit. *)
Class ServiceGraphLaws (G L : Type) `{!ServiceGraph G L} := {
  units_of : G -> gmap string ServiceUnit.t;
  edges_of : G -> string -> list DependencyEdge.t;
  get_unit_spec id w :
    sg_get_unit id w = (ok_or (units_of (World.graph w) !! id) (SgrError.UnitNotFound id), w);
  list_units_spec w : exists l,
    sg_list_units w = (Ok l, w) /\ l ≡ₚ (map_to_list (units_of (World.graph w))).*2;
  list_dependencies_spec id w :
    sg_list_dependencies id w
    = ((let? _ := ok_or (units_of (World.graph w) !! id) (SgrError.UnitNotFound id) in
        Ok (edges_of (World.graph w) id)), w);
  set_unit_state_spec id s w :
    match units_of (World.graph w) !! id with
    | None => sg_set_unit_state id s w = (Err (SgrError.UnitNotFound id), w)
    | Some u =>
        if is_valid_transition (ServiceUnit.state u) s
        then exists now w', let u' := ServiceUnit.set_state s now u in
          sg_set_unit_state id s w = (Ok u', w') /\ World.evidence w' = World.evidence w /\
          units_of (World.graph w') = <[id := u']> (units_of (World.graph w)) /\
          edges_of (World.graph w') = edges_of (World.graph w)
        else sg_set_unit_state id s w
             = (Err (SgrError.InvalidStateTransition (ServiceUnit.state u) s), w)
    end;
}.

(** ** The in-memory implementation *)
Module InMemoryServiceGraph.
Section Graph.
Context {L : Type} `{SgrEvidenceLog L} `{!SgrTexts}.
Record t : Type := {
  units : gmap string ServiceUnit.t;
  dependencies : gmap string (list DependencyEdge.t);
  trusted_authorities : gmap string VerifyingKey;
  evidence_emitter : option SgrEvidenceEmitter;
}.

Abbreviation W := (World.t t L).
Abbreviation M := (M W SgrError.t).

Definition new : t :=
  {| units := ∅; dependencies := ∅; trusted_authorities := ∅; evidence_emitter := None |}.
Definition with_trusted_authority (name : string) (key : VerifyingKey) : t :=
  {| units := ∅; dependencies := ∅; trusted_authorities := <[name := key]> ∅;
     evidence_emitter := None |}.
Definition with_evidence_emitter (em : SgrEvidenceEmitter) (g : t) : t :=
  {| units := units g; dependencies := dependencies g;
     trusted_authorities := trusted_authorities g; evidence_emitter := Some em |}.
Definition set_units (us : gmap string ServiceUnit.t) (g : t) : t :=
  {| units := us; dependencies := dependencies g;
     trusted_authorities := trusted_authorities g; evidence_emitter := evidence_emitter g |}.
Definition set_dependencies (ds : gmap string (list DependencyEdge.t)) (g : t) : t :=
  {| units := units g; dependencies := ds;
     trusted_authorities := trusted_authorities g; evidence_emitter := evidence_emitter g |}.

(** The body that is signed, serialised; the digest is of these bytes. *)
Definition canonical_manifest_bytes (m : UnitManifest.t) : result SgrError.t string :=
  map_err (fun err => SgrError.Internal ("unit manifest serialise: " +:+ err))
    (serde_json_to_vec (UnitManifest.signed_body m)).

Definition verify_manifest (g : t) (m : UnitManifest.t) : result SgrError.t () :=
  let? key := ok_or (trusted_authorities g !! UnitManifest.publisher_root_id m)
                (SgrError.ManifestUnknownAuthority (UnitManifest.publisher_root_id m)) in
  if negb (length (UnitManifest.publisher_signature m) =? SIGNATURE_LENGTH)%nat
  then Err SgrError.ManifestSignatureInvalid
  else
    let? bytes := canonical_manifest_bytes m in
    if negb (String.eqb (UnitManifest.canonical_hash m) (String.substring 0 32 (blake3_to_hex bytes)))
    then Err SgrError.ManifestSignatureInvalid
    else if verify key (blake3_bytes bytes) (UnitManifest.publisher_signature m) then Ok ()
    else Err SgrError.ManifestSignatureInvalid.

Definition declared_edge (from : string) (d : UnitDependency) : DependencyEdge.t :=
  {| DependencyEdge.from_unit_id := from; DependencyEdge.to_unit_id := dependency_unit_id d;
     DependencyEdge.kind := dependency_kind d |}.

(** The edges [from] has, extended: [entry(..).or_default().extend(..)]. *)
Definition add_edges (from : string) (es : list DependencyEdge.t) (g : t) : t :=
  set_dependencies (<[from := default [] (dependencies g !! from) ++ es]> (dependencies g)) g.

(** The first declared target that is neither the unit itself nor registered. *)
Fixpoint check_targets (self : string) (us : gmap string ServiceUnit.t)
    (es : list DependencyEdge.t) : result SgrError.t () :=
  match es with
  | [] => Ok ()
  | e :: es =>
      let target := DependencyEdge.to_unit_id e in
      if negb (String.eqb target self) && negb (is_some (us !! target))
      then Err (SgrError.DependencyTargetNotRegistered target)
      else check_targets self us es
  end.

Definition register_unit (m : UnitManifest.t) : M ServiceUnit.t :=
  let! w := get in
  let g := World.graph w in
  let! _ := lift (verify_manifest g m) in
  let id := UnitManifest.unit_id m in
  let edges := declared_edge id <$> UnitManifest.dependencies m in
  let! now := utc_now in
  let unit := {| ServiceUnit.unit_id := id; ServiceUnit.manifest := m;
                 ServiceUnit.state := UnitState.Queued; ServiceUnit.last_transition_at := now;
                 ServiceUnit.evidence_chain := [] |} in
  let! _ := if is_some (units g !! id) then throw (SgrError.UnitAlreadyRegistered id) else ret () in
  let! _ := lift (check_targets id (units g) edges) in
  let! _ := modify (set_graph (set_units (<[id := unit]> (units g)) g)) in
  let! _ := match edges with
            | [] => ret ()
            | _ => modify (fun w => set_graph (add_edges id edges (World.graph w)) w)
            end in
  let! _ := emit_unit_registered (evidence_emitter g) unit in
  ret unit.

Definition get_unit (id : string) : M ServiceUnit.t :=
  let! w := get in
  lift (ok_or (units (World.graph w) !! id) (SgrError.UnitNotFound id)).

Definition declare_dependency (from to : string) (kind : DependencyKind.t) : M DependencyEdge.t :=
  let! w := get in
  let g := World.graph w in
  if negb (is_some (units g !! from)) then throw (SgrError.UnitNotFound from)
  else if negb (is_some (units g !! to)) then throw (SgrError.DependencyTargetNotRegistered to)
  else
    let edge := {| DependencyEdge.from_unit_id := from; DependencyEdge.to_unit_id := to;
                   DependencyEdge.kind := kind |} in
    let! _ := modify (set_graph (add_edges from [edge] g)) in
    let! _ := emit_dependency_declared (evidence_emitter g) edge in
    ret edge.

Definition list_dependencies (id : string) : M (list DependencyEdge.t) :=
  let! w := get in
  let g := World.graph w in
  if is_some (units g !! id) then ret (default [] (dependencies g !! id))
  else throw (SgrError.UnitNotFound id).

Definition set_unit_state (id : string) (s : UnitState.t) : M ServiceUnit.t :=
  let! w := get in
  let g := World.graph w in
  match units g !! id with
  | None => throw (SgrError.UnitNotFound id)
  | Some unit =>
      let from := ServiceUnit.state unit in
      if negb (is_valid_transition from s) then throw (SgrError.InvalidStateTransition from s)
      else
        let! now := utc_now in
        let updated := ServiceUnit.set_state s now unit in
        let! _ := modify (set_graph (set_units (<[id := updated]> (units g)) g)) in
        ret updated
  end.

(** ** Runs of the graph *)
Inductive step : W -> W -> Prop :=
| step_register m w : step w (register_unit m w).2
| step_declare from to k w : step w (declare_dependency from to k w).2
| step_set_state id s w : step w (set_unit_state id s w).2.

(** Units are stored under the id of their manifest, which is authentic, and
    edges under their source; both ends of an edge are registered. *)
Definition well_formed (g : t) : Prop :=
  (forall id u, units g !! id = Some u ->
     ServiceUnit.unit_id u = id /\ UnitManifest.unit_id (ServiceUnit.manifest u) = id /\
     verify_manifest g (ServiceUnit.manifest u) = Ok ()) /\
  (forall id es, dependencies g !! id = Some es ->
     is_Some (units g !! id) /\
     Forall (fun e => DependencyEdge.from_unit_id e = id /\
                      is_Some (units g !! DependencyEdge.to_unit_id e)) es).

(** What [a] depends on. *)
Definition depends (g : t) (a b : string) : Prop :=
  exists e, e ∈ default [] (dependencies g !! a) /\ DependencyEdge.to_unit_id e = b.

(** *** Operations as graph updates *)
Lemma emit_preserves {I : t -> Prop} em rt p :
  preserves (fun w : W => I (World.graph w)) (emit em rt p).
Proof.
  intros w Hw. pose proof (emit_post em rt p w) as Hp. unfold post in Hp.
  destruct (emit em rt p w) as [[b|e] w']; simpl in *; [by rewrite Hp|by rewrite (proj2 Hp)].
Qed.

Lemma utc_now_preserves {I : t -> Prop} : preserves (fun w : W => I (World.graph w)) utc_now.
Proof. by intros w. Qed.

Lemma declared_preserves {I : t -> Prop} em e :
  preserves (fun w : W => I (World.graph w)) (emit_dependency_declared em e).
Proof.
  unfold emit_dependency_declared. destruct em; [|apply preserves_ret].
  apply preserves_bind; [apply utc_now_preserves|]. intros. apply emit_preserves.
Qed.

(** [register_unit] either changes nothing or registers the manifest's unit in
    state [QUEUED], with its edges; evidence comes last. *)
Lemma register_unit_cases m (w : W) :
  let g := World.graph w in
  let id := UnitManifest.unit_id m in
  let edges := declared_edge id <$> UnitManifest.dependencies m in
  let g' := set_units (<[id := {| ServiceUnit.unit_id := id; ServiceUnit.manifest := m;
      ServiceUnit.state := UnitState.Queued;
      ServiceUnit.last_transition_at := World.clock w (World.reads w);
      ServiceUnit.evidence_chain := [] |}]> (units g)) g in
  World.graph (register_unit m w).2 = g \/
  (verify_manifest g m = Ok () /\ units g !! id = None /\ check_targets id (units g) edges = Ok () /\
   World.graph (register_unit m w).2 = match edges with [] => g' | _ => add_edges id edges g' end).
Proof.
  cbv zeta. unfold register_unit, mbind_, get, lift, ret, throw, utc_now, modify. simpl.
  destruct (verify_manifest _ m) as [[]|e] eqn:Hv; [|by left].
  destruct (units (World.graph w) !! UnitManifest.unit_id m) as [u|] eqn:Hu; simpl; [by left|].
  destruct (check_targets _ _ _) as [[]|e] eqn:Ht; [|by left]. right.
  set (edges := declared_edge _ <$> _) in *. split_and!; [done..|].
  match goal with |- context [emit_unit_registered ?em ?u] =>
    set (k := emit_unit_registered em u); set (unit := u) end.
  assert (Hk : forall w' : W, World.graph (k w').2 = World.graph w').
  { intros w'. unfold k, emit_unit_registered.
    by apply (emit_preserves (I := fun g => g = World.graph w')). }
  destruct edges as [|e es]; simpl;
    match goal with |- context [k ?w0] => specialize (Hk w0); destruct (k w0) as [[[]|?] ?] end;
    simpl in *; by rewrite Hk.
Qed.

Lemma set_unit_state_cases id s (w : W) :
  let g := World.graph w in
  World.graph (set_unit_state id s w).2 = g \/
  exists u, units g !! id = Some u /\ is_valid_transition (ServiceUnit.state u) s = true /\
    World.graph (set_unit_state id s w).2
    = set_units (<[id := ServiceUnit.set_state s (World.clock w (World.reads w)) u]> (units g)) g.
Proof.
  cbv zeta. unfold set_unit_state, mbind_, get. simpl.
  destruct (units (World.graph w) !! id) as [u|]; [|by left].
  destruct (is_valid_transition _ s) eqn:Ht; simpl; [right; by eexists|by left].
Qed.

Lemma declare_dependency_cases from to k (w : W) :
  let g := World.graph w in
  World.graph (declare_dependency from to k w).2 = g \/
  (is_Some (units g !! from) /\ is_Some (units g !! to) /\
   World.graph (declare_dependency from to k w).2
   = add_edges from [{| DependencyEdge.from_unit_id := from; DependencyEdge.to_unit_id := to;
                        DependencyEdge.kind := k |}] g).
Proof.
  cbv zeta. unfold declare_dependency, mbind_ at 1, get. cbv iota.
  destruct (units (World.graph w) !! from) as [uf|] eqn:Hf; simpl; [|by left].
  destruct (units (World.graph w) !! to) as [ut|] eqn:Ht; simpl; [|by left].
  right. split_and!; [by eexists..|]. unfold mbind_, modify. rewrite Hf, Ht. simpl.
  match goal with |- context [emit_dependency_declared ?em ?e ?w0] =>
    pose proof (declared_preserves (I := fun g => g = World.graph w0) em e w0 eq_refl) as Hd;
    destruct (emit_dependency_declared em e w0) as [[[]|?] ?] end; simpl in *; by rewrite Hd.
Qed.

(** *** The invariant *)
Definition same_authorities (g g' : t) : Prop :=
  trusted_authorities g' = trusted_authorities g.

Lemma verify_manifest_proper g g' m :
  same_authorities g g' -> verify_manifest g' m = verify_manifest g m.
Proof. unfold verify_manifest. by intros ->. Qed.

Lemma check_targets_ok self us es :
  check_targets self us es = Ok () <->
  Forall (fun e => DependencyEdge.to_unit_id e = self \/
                   is_Some (us !! DependencyEdge.to_unit_id e)) es.
Proof.
  induction es as [|e es IH]; cbn [check_targets]; [by split|]. cbv zeta.
  rewrite Forall_cons, <- IH.
  destruct (String.eqb_spec (DependencyEdge.to_unit_id e) self) as [->|Hne]; simpl; [tauto|].
  destruct (us !! DependencyEdge.to_unit_id e) as [u|]; simpl.
  - split; [|tauto]. intros; split; [right; by eexists|done].
  - split; [done|]. by intros [[?|[? ?]] _].
Qed.

Lemma well_formed_units us g :
  (forall id, is_Some (units g !! id) -> is_Some (us !! id)) ->
  (forall id u, us !! id = Some u ->
     ServiceUnit.unit_id u = id /\ UnitManifest.unit_id (ServiceUnit.manifest u) = id /\
     verify_manifest g (ServiceUnit.manifest u) = Ok ()) ->
  well_formed g -> well_formed (set_units us g).
Proof.
  intros Hm Hu [_ Hd]. split; [exact Hu|]. simpl. intros id es Hes.
  destruct (Hd id es Hes) as [Hi Ha]. split; [by apply Hm|].
  eapply Forall_impl; [exact Ha|]. intros e [? ?]. split; [done|by apply Hm].
Qed.

Lemma well_formed_edges from es g :
  is_Some (units g !! from) ->
  Forall (fun e => DependencyEdge.from_unit_id e = from /\
                   is_Some (units g !! DependencyEdge.to_unit_id e)) es ->
  well_formed g -> well_formed (add_edges from es g).
Proof.
  intros Hf He [Hu Hd]. split; [exact Hu|]. simpl. intros id es' Hes.
  destruct (decide (id = from)) as [->|Hne].
  - rewrite lookup_insert_eq in Hes. injection Hes as <-. split; [done|].
    apply Forall_app. split; [|done]. destruct (dependencies g !! from) eqn:E; [|constructor].
    by apply (Hd from).
  - rewrite lookup_insert_ne in Hes by done. by apply Hd.
Qed.

Lemma step_well_formed w w' :
  step w w' -> well_formed (World.graph w) -> well_formed (World.graph w').
Proof.
  intros Hs Hwf. destruct Hs as [m w|from to k w|id s w].
  - destruct (register_unit_cases m w) as [->|(Hv & Hn & Ht & ->)]; [done|].
    set (g1 := set_units _ _).
    assert (well_formed g1) as Hg1.
    { apply well_formed_units; [|intros id u|done].
      - intros id Hi. by apply lookup_insert_is_Some'; right.
      - intros [[<- <-]|[_ Hu]]%lookup_insert_Some; [done|]. by apply (proj1 Hwf). }
    destruct (UnitManifest.dependencies m) as [|d ds] eqn:Ed; [done|].
    assert (is_Some (units g1 !! UnitManifest.unit_id m)) as Hid
      by (simpl; rewrite lookup_insert_eq; by eexists).
    apply well_formed_edges; [done| |done]. apply Forall_forall. intros e He.
    apply check_targets_ok in Ht. pose proof (proj1 (Forall_forall _ _) Ht e He) as Hte.
    apply list_elem_of_fmap in He as (d' & -> & _). split; [done|].
    destruct Hte as [->|Hte]; [done|]. simpl. by apply lookup_insert_is_Some'; right.
  - destruct (declare_dependency_cases from to k w) as [->|(Hf & Ht & ->)]; [done|].
    apply well_formed_edges; [done| |done]. by apply Forall_singleton.
  - destruct (set_unit_state_cases id s w) as [->|(u & Hu & _ & ->)]; [done|].
    apply well_formed_units; [|intros i v|done].
    + intros i Hi. by apply lookup_insert_is_Some'; right.
    + destruct (proj1 Hwf _ _ Hu) as (<- & Hm & Hv).
      intros [[<- <-]|[_ Hv']]%lookup_insert_Some; [done|]. by apply (proj1 Hwf).
Qed.

Lemma step_depends w w' a b :
  step w w' -> depends (World.graph w) a b -> depends (World.graph w') a b.
Proof.
  assert (forall from es g, depends g a b -> depends (add_edges from es g) a b) as Hadd.
  { intros from es g (e & He & Hb). exists e. split; [|done]. simpl.
    destruct (decide (a = from)) as [->|Hne].
    - rewrite lookup_insert_eq. simpl. apply elem_of_app. by left.
    - by rewrite lookup_insert_ne. }
  intros Hs Hd. destruct Hs as [m w|from to k w|id s w].
  - destruct (register_unit_cases m w) as [->|(_ & _ & _ & ->)]; [done|].
    destruct (declared_edge _ <$> _); [done|]. by apply Hadd.
  - destruct (declare_dependency_cases from to k w) as [->|(_ & _ & ->)]; [done|]. by apply Hadd.
  - destruct (set_unit_state_cases id s w) as [->|(u & _ & _ & ->)]; done.
Qed.

(** A graph without units, whatever authorities it trusts. *)
Definition fresh (g : t) : Prop := units g = ∅ /\ dependencies g = ∅.

(** The invariant of the graph: in every run of registrations, declarations
    and state changes that starts with an empty graph, successful or not, every
    unit is stored under the id of its manifest, whose signature by a trusted
    authority verifies; every edge is stored under its source; and both ends of
    every edge are registered. *)
Theorem graph_stays_well_formed w w' :
  fresh (World.graph w) -> rtc step w w' -> well_formed (World.graph w').
Proof.
  intros [Hu Hd]. apply (rtc_invariant _ (fun w => well_formed (World.graph w)));
    [intros a b; apply step_well_formed|].
  split; [rewrite Hu|rewrite Hd]; intros ? ?; by rewrite lookup_empty.
Qed.

(** Admission: a call of [register_unit] brings a unit that was not
    registered into the graph exactly when its manifest verifies and every
    declared dependency is on the unit itself or on a registered unit. *)
Theorem registers_exactly m w :
  units (World.graph w) !! UnitManifest.unit_id m = None ->
  is_Some (units (World.graph (register_unit m w).2) !! UnitManifest.unit_id m) <->
  verify_manifest (World.graph w) m = Ok () /\
  Forall (fun d => dependency_unit_id d = UnitManifest.unit_id m \/
                   is_Some (units (World.graph w) !! dependency_unit_id d))
    (UnitManifest.dependencies m).
Proof.
  intros Hn.
  assert (check_targets (UnitManifest.unit_id m) (units (World.graph w))
            (declared_edge (UnitManifest.unit_id m) <$> UnitManifest.dependencies m) = Ok () <->
          Forall (fun d => dependency_unit_id d = UnitManifest.unit_id m \/
                   is_Some (units (World.graph w) !! dependency_unit_id d))
            (UnitManifest.dependencies m)) as <-
    by (rewrite check_targets_ok, Forall_fmap; done).
  split.
  - intros Hi. destruct (register_unit_cases m w) as [Hg|(Hv & _ & Ht & _)]; [|done].
    rewrite Hg, Hn in Hi. by destruct Hi.
  - intros [Hv Ht]. unfold register_unit, mbind_, get, lift, ret, throw, utc_now, modify. simpl.
    rewrite Hv, Hn. simpl. rewrite Ht. 
    match goal with |- context [emit_unit_registered ?em ?u] =>
      set (k := emit_unit_registered em u) end.
    assert (forall w' : W, World.graph (k w').2 = World.graph w') as Hk.
    { intros w'. unfold k, emit_unit_registered.
      by apply (emit_preserves (I := fun g => g = World.graph w')). }
    destruct (UnitManifest.dependencies m) as [|d ds]; simpl;
      match goal with |- context [k ?w0] => specialize (Hk w0); destruct (k w0) as [[[]|?] ?] end;
      simpl in *; rewrite Hk; simpl; rewrite lookup_insert_eq; by eexists.
Qed.

End Graph.

(** ** The views of all units, and the contract *)
Section Views.
Context {L : Type} `{SgrEvidenceLog L} `{!SgrTexts}.
(** The iteration order of the map of units. *)
Variable values : gmap string ServiceUnit.t -> list ServiceUnit.t.

Abbreviation W := (World.t t L).
Abbreviation M := (M W SgrError.t).

Definition list_units : M (list ServiceUnit.t) :=
  let! w := get in ret (values (units (World.graph w))).

Definition in_state (s : UnitState.t) (u : ServiceUnit.t) : bool :=
  bool_decide (ServiceUnit.state u = s).
Definition in_states (ss : list UnitState.t) (u : ServiceUnit.t) : bool :=
  existsb (fun s => in_state s u) ss.

Definition graph_state : M GraphState.t :=
  let! w := get in
  let us := values (units (World.graph w)) in
  ret (if bool_decide (units (World.graph w) = ∅) then GraphState.Empty
       else if existsb (in_state UnitState.Failed) us then
         let failed_count := length (filter (fun u => in_state UnitState.Failed u = true) us) in
         let critical_failed :=
           existsb (fun u => in_state UnitState.Failed u && ServiceUnit.is_critical_unit u) us in
         if critical_failed || (failed_count =? size (units (World.graph w)))%nat
         then GraphState.Failed else GraphState.Degraded
       else if existsb (in_states [UnitState.Degraded; UnitState.Unhealthy; UnitState.Retired]) us
       then GraphState.Degraded
       else if existsb (in_states [UnitState.Draft; UnitState.Queued; UnitState.Starting;
                                   UnitState.Stopping]) us
       then GraphState.Converging
       else GraphState.Converged).

Hypothesis values_perm : forall us, values us ≡ₚ (map_to_list us).*2.

#[local] Instance in_memory : ServiceGraph t L := {|
  sg_register_unit := register_unit; sg_get_unit := get_unit; sg_list_units := list_units;
  sg_declare_dependency := declare_dependency; sg_list_dependencies := list_dependencies;
  sg_graph_state := graph_state; sg_set_unit_state := set_unit_state |}.

#[local] Instance in_memory_laws : ServiceGraphLaws t L.
Proof.
  refine {| units_of := units; edges_of g id := default [] (dependencies g !! id) |}.
  - done.
  - intros w. exists (values (units (World.graph w))). split; [done|apply values_perm].
  - intros id w. simpl. unfold list_dependencies, mbind_, get.
    by destruct (units (World.graph w) !! id).
  - intros id s w. simpl. unfold set_unit_state, mbind_, get.
    destruct (units (World.graph w) !! id) as [u|] eqn:Hu; [|done].
    destruct (is_valid_transition _ s); simpl; [|done]. eexists _, _. by split_and!.
Defined.
End Views.
End InMemoryServiceGraph.
