(* ===== verification/SgrFsm.v ===== *)
(** * Service graph runtime: the unit state machine and its driver

    The transition table and [UnitFsmDriver] ([state_fsm.rs]) over the trait
    [ServiceGraph].  The loops of the driver re-read the unit in every round,
    because other tasks may move it; [fuel] bounds their rounds.  Four rounds
    are enough when nothing interferes ([driver_exact]), and a result is right
    whatever interferes ([driver_reports_what_it_saw]). *)
From S2P Require Import Prelude Json Ids Records Redaction Receipt ChainSound StateError SgrTypes SgrGraph.

Module UnitFsm.
Import UnitState.

Definition TRANSITIONS : list (UnitState.t * UnitState.t) :=
  [(Draft, Queued); (Draft, Retired); (Queued, Starting); (Queued, Retired);
   (Starting, Running); (Starting, Failed); (Running, Healthy); (Running, Stopped);
   (Running, Failed); (Healthy, Degraded); (Healthy, Unhealthy); (Healthy, Stopping);
   (Degraded, Healthy); (Degraded, Unhealthy); (Degraded, Stopping); (Unhealthy, Healthy);
   (Unhealthy, Starting); (Unhealthy, Failed); (Unhealthy, Stopping); (Stopping, Stopped);
   (Stopping, Failed); (Stopped, Queued); (Stopped, Retired); (Failed, Starting);
   (Failed, Retired)].

Definition is_legal_transition (from to : UnitState.t) : bool :=
  bool_decide ((from, to) ∈ TRANSITIONS).

(** The table of the driver and the check inside the graph are the same
    relation on unit states. *)
Theorem transition_tables_agree from to :
  is_legal_transition from to = is_valid_transition from to.
Proof. by destruct from, to. Qed.

(** [RETIRED] is the only state without an exit: from every other state
    legal transitions lead to it, and no transition leaves it, although
    [is_terminal] also holds of [STOPPED] and [FAILED]. *)
Theorem retired_is_the_only_sink s :
  (forall to, is_legal_transition Retired to = false) /\
  rtc (fun a b => is_legal_transition a b = true) s Retired.
Proof.
  split; [by intros []|].
  assert (forall a b, is_legal_transition a b = true ->
            rtc (fun a b => is_legal_transition a b = true) b Retired ->
            rtc (fun a b => is_legal_transition a b = true) a Retired) as Hs
    by (intros a b ??; by eapply rtc_l).
  assert (rtc (fun a b => is_legal_transition a b = true) Failed Retired) as Hf
    by (eapply Hs; [|apply rtc_refl]; done).
  assert (rtc (fun a b => is_legal_transition a b = true) Unhealthy Retired) as Hu
    by (by eapply Hs; [|exact Hf]).
  destruct s; first [apply rtc_refl | exact Hf | exact Hu
    | by eapply Hs; [|apply rtc_refl] | by eapply Hs; [|exact Hf] | by eapply Hs; [|exact Hu]].
Qed.
End UnitFsm.

Module UnitFsmDriver.
Import UnitState UnitFsm.

(** What one round does in a state: return, move on, or give up. *)
Inductive plan_step : Type := Arrived | Advance (next : UnitState.t) | Refuse.

Inductive FailedStartPolicy : Type := Reject | Retry.

(** The [match] of [drive_to_running], of [stop] and of [mark_failed]. *)
Definition start_plan (failed_policy : FailedStartPolicy) (s : UnitState.t) : plan_step :=
  match s with
  | Running => Arrived
  | Draft | Stopped => Advance Queued
  | Queued => Advance Starting
  | Starting => Advance Running
  | Failed => match failed_policy with Retry => Advance Starting | Reject => Refuse end
  | Healthy | Degraded | Unhealthy | Stopping | Retired => Refuse
  end.
Definition stop_plan (s : UnitState.t) : plan_step :=
  match s with
  | Stopped => Arrived
  | Running | Stopping => Advance Stopped
  | Healthy | Degraded | Unhealthy => Advance Stopping
  | Draft | Queued | Starting | Failed | Retired => Refuse
  end.
Definition fail_plan (s : UnitState.t) : plan_step :=
  match s with
  | Failed => Arrived
  | Draft | Queued => Advance Starting
  | Starting | Running | Unhealthy | Stopping => Advance Failed
  | Healthy | Degraded => Advance Unhealthy
  | Stopped | Retired => Refuse
  end.

Section Driver.
Context {G L : Type} `{SgrEvidenceLog L} `{!SgrTexts} `{!ServiceGraph G L}.
Variable evidence_emitter : option SgrEvidenceEmitter.
Variable fuel : nat.

Abbreviation W := (World.t G L).
Abbreviation M := (M (World.t G L) SgrError.t).

Definition invalid_transition (from to : UnitState.t) : SgrError.t :=
  SgrError.InvalidStateTransition from to.

Definition apply_or_observe (id : string) (expected_from next : UnitState.t) : M ServiceUnit.t :=
  if negb (is_legal_transition expected_from next)
  then throw (invalid_transition expected_from next)
  else fun w =>
    match sg_set_unit_state id next w with
    | (Ok u, w) => (Ok u, w)
    | (Err (SgrError.InvalidStateTransition from to), w) =>
        if negb (bool_decide (from = expected_from)) && bool_decide (to = next)
        then sg_get_unit id w
        else (Err (SgrError.InvalidStateTransition from to), w)
    | (Err e, w) => (Err e, w)
    end.

(** One round of a driver loop towards [target]; [finish] is the evidence that
    the arm of the target state emits. *)
Definition round (plan : UnitState.t -> plan_step) (target : UnitState.t)
    (finish : ServiceUnit.t -> M ()) (id : string) : M (option ServiceUnit.t) :=
  let! unit := sg_get_unit id in
  match plan (ServiceUnit.state unit) with
  | Arrived => let! _ := finish unit in ret (Some unit)
  | Advance next =>
      let! _ := apply_or_observe id (ServiceUnit.state unit) next in ret None
  | Refuse => throw (invalid_transition (ServiceUnit.state unit) target)
  end.

Definition drive_to_running (id : string) (p : FailedStartPolicy) : M (option ServiceUnit.t) :=
  iterate fuel (round (start_plan p) Running (fun _ => ret ()) id).

Definition start (id : string) : M (option ServiceUnit.t) :=
  let! initial := sg_get_unit id in
  let! r := drive_to_running id Reject in
  match r with
  | None => ret None
  | Some unit =>
      let! _ := if bool_decide (ServiceUnit.state initial = Running) then ret ()
                else emit_unit_started evidence_emitter unit in
      ret (Some unit)
  end.

Definition stop (id : string) : M (option ServiceUnit.t) :=
  let! initial := sg_get_unit id in
  iterate fuel
    (round stop_plan Stopped
       (fun unit => if bool_decide (ServiceUnit.state initial = Stopped) then ret ()
                    else emit_unit_stopped evidence_emitter unit) id).

Definition restart (id : string) : M (option ServiceUnit.t) :=
  let! unit := sg_get_unit id in
  match ServiceUnit.state unit with
  | Failed => drive_to_running id Retry
  | Retired => throw (invalid_transition Retired Running)
  | Running | Healthy | Degraded | Unhealthy | Stopping =>
      let! stopped := stop id in
      match stopped with
      | None => ret None
      | Some _ => drive_to_running id Reject
      end
  | Draft | Queued | Starting | Stopped => drive_to_running id Reject
  end.

Definition mark_failed (id : string) (reason : string) : M (option ServiceUnit.t) :=
  let! initial := sg_get_unit id in
  iterate fuel
    (round fail_plan Failed
       (fun unit => if bool_decide (ServiceUnit.state initial = Failed) then ret ()
                    else emit_unit_failed evidence_emitter unit reason) id).

Definition transition (id : string) (target : UnitState.t) : M ServiceUnit.t :=
  let! unit := sg_get_unit id in
  if bool_decide (ServiceUnit.state unit = target) then ret unit
  else if negb (is_legal_transition (ServiceUnit.state unit) target)
  then throw (invalid_transition (ServiceUnit.state unit) target)
  else sg_set_unit_state id target.

(** The lifecycle operations and where each one leads. *)
Inductive op : Type := Start | Stop | Restart | MarkFailed (reason : string).

Definition perform (o : op) (id : string) : M (option ServiceUnit.t) :=
  match o with
  | Start => start id
  | Stop => stop id
  | Restart => restart id
  | MarkFailed reason => mark_failed id reason
  end.

Definition goal (o : op) (s : UnitState.t) : result SgrError.t UnitState.t :=
  match o, s with
  | Start, (Draft | Queued | Starting | Running | Stopped) => Ok Running
  | Start, _ => Err (invalid_transition s Running)
  | Stop, (Running | Healthy | Degraded | Unhealthy | Stopping | Stopped) => Ok Stopped
  | Stop, _ => Err (invalid_transition s Stopped)
  | Restart, Retired => Err (invalid_transition s Running)
  | Restart, _ => Ok Running
  | MarkFailed _, Draft => Err (invalid_transition Draft Starting)
  | MarkFailed _, (Stopped | Retired) => Err (invalid_transition s Failed)
  | MarkFailed _, _ => Ok Failed
  end.

(** The state an operation promises. *)
Definition target_of (o : op) : UnitState.t :=
  match o with Start | Restart => Running | Stop => Stopped | MarkFailed _ => Failed end.

(** *** The driver under interference: no law of the graph is used *)
Lemma bind_ok {B C} (m : M B) (f : B -> M C) w c w' :
  mbind_ m f w = (Ok c, w') -> exists b w1, m w = (Ok b, w1) /\ f b w1 = (Ok c, w').
Proof. unfold mbind_. destruct (m w) as [[b|e] w1]; [eauto|done]. Qed.

Lemma loop_saw plan target finish id n w u w' :
  iterate n (round plan target finish id) w = (Ok (Some u), w') ->
  plan (ServiceUnit.state u) = Arrived.
Proof.
  revert w. induction n as [|n IH]; intros w; simpl; [done|].
  intros (r & w1 & Hr & Hk)%bind_ok. destruct r as [v|]; [|by eapply IH].
  injection Hk as -> ->. unfold round in Hr. apply bind_ok in Hr as (v & w2 & _ & Hr).
  destruct (plan (ServiceUnit.state v)) as [|next|] eqn:Hp; [| |done];
    apply bind_ok in Hr as (x & w3 & _ & Hr); [|done]. by injection Hr as ->.
Qed.

Lemma drive_saw id p w u w' :
  drive_to_running id p w = (Ok (Some u), w') -> ServiceUnit.state u = Running.
Proof.
  unfold drive_to_running. intros Hp%loop_saw.
  destruct p, (ServiceUnit.state u); try done.
Qed.

(** Whatever other tasks do to the units between the calls of the driver,
    and for any implementation of the graph, a unit that an operation returns
    was read in the state the operation promises. *)
Theorem driver_reports_what_it_saw o id w u w' :
  perform o id w = (Ok (Some u), w') -> ServiceUnit.state u = target_of o.
Proof.
  destruct o as [| | |reason]; simpl; intros Hp.
  - unfold start in Hp. apply bind_ok in Hp as (u0 & w0 & _ & Hp).
    apply bind_ok in Hp as ([v|] & w1 & Hd & Hp); [|done].
    apply bind_ok in Hp as ([] & w2 & _ & Hp). injection Hp as -> _. by eapply drive_saw.
  - unfold stop in Hp. apply bind_ok in Hp as (u0 & w0 & _ & Hp). apply loop_saw in Hp.
    by destruct (ServiceUnit.state u).
  - unfold restart in Hp. apply bind_ok in Hp as (u0 & w0 & _ & Hp).
    destruct (ServiceUnit.state u0); try done; try by eapply drive_saw.
    all: apply bind_ok in Hp as ([v|] & w1 & _ & Hp); [by eapply drive_saw|done].
  - unfold mark_failed in Hp. apply bind_ok in Hp as (u0 & w0 & _ & Hp). apply loop_saw in Hp.
    by destruct (ServiceUnit.state u).
Qed.

(** *** The driver with nothing interfering *)
Context `{!ServiceGraphLaws G L}.

(** [w'] is [w] with the unit [id], which was [u], moved to state [s]; [u'] is
    the unit there. *)
Definition moved (id : string) (s : UnitState.t) (u u' : ServiceUnit.t) (w w' : W) : Prop :=
  ServiceUnit.state u' = s /\
  (exists now, u' = ServiceUnit.set_state s now u) /\
  units_of (World.graph w') = <[id := u']> (units_of (World.graph w)) /\
  edges_of (World.graph w') = edges_of (World.graph w).

Lemma set_state_same u : ServiceUnit.set_state (ServiceUnit.state u)
  (ServiceUnit.last_transition_at u) u = u.
Proof. by destruct u. Qed.

Lemma moved_refl id u w :
  units_of (World.graph w) !! id = Some u -> moved id (ServiceUnit.state u) u u w w.
Proof.
  intros Hu. split_and!; [done|eexists; by rewrite set_state_same| |done]. by rewrite insert_id.
Qed.

Lemma moved_trans id s s' u u1 u2 w w1 w2 :
  moved id s u u1 w w1 -> moved id s' u1 u2 w1 w2 -> moved id s' u u2 w w2.
Proof.
  intros (_ & [n ->] & Hu & He) (Hs & [n' ->] & Hu' & He'). split_and!; [done|by eexists| |congruence].
  by rewrite Hu', Hu, insert_insert_eq.
Qed.

Lemma moved_lookup id s u u' w w' :
  moved id s u u' w w' -> units_of (World.graph w') !! id = Some u'.
Proof. intros (_ & _ & -> & _). by rewrite lookup_insert_eq. Qed.

Lemma moved_graph id s u u' w w1 w2 :
  World.graph w2 = World.graph w1 -> moved id s u u' w w1 -> moved id s u u' w w2.
Proof. unfold moved. by intros ->. Qed.

(** Where a plan leads from [s] within [n] rounds. *)
Fixpoint follow (plan : UnitState.t -> plan_step) (n : nat) (s : UnitState.t)
    : option (result () UnitState.t) :=
  match n with
  | O => None
  | S n =>
      match plan s with
      | Arrived => Some (Ok s)
      | Refuse => Some (Err ())
      | Advance next => if is_legal_transition s next then follow plan n next else Some (Err ())
      end
  end.

Lemma round_advances plan target finish id u w next :
  units_of (World.graph w) !! id = Some u -> plan (ServiceUnit.state u) = Advance next ->
  is_legal_transition (ServiceUnit.state u) next = true ->
  exists u' w', round plan target finish id w = (Ok None, w') /\ moved id next u u' w w'.
Proof.
  intros Hu Hp Hl. unfold round, mbind_. rewrite get_unit_spec, Hu. simpl. rewrite Hp.
  unfold apply_or_observe. rewrite Hl. simpl.
  pose proof (set_unit_state_spec id next w) as Hs. rewrite Hu in Hs.
  rewrite transition_tables_agree in Hl. rewrite Hl in Hs.
  destruct Hs as (now & w' & -> & _ & Hus & Hes). exists (ServiceUnit.set_state next now u), w'.
  split; [done|]. split_and!; [done|by eexists|done|done].
Qed.

Lemma drive_arrives plan target finish id n : forall s u w,
  units_of (World.graph w) !! id = Some u -> ServiceUnit.state u = s ->
  forall goal, follow plan n s = Some (Ok goal) ->
  exists u' w', iterate n (round plan target finish id) w
                = (let! _ := finish u' in ret (Some u')) w' /\ moved id goal u u' w w'.
Proof.
  induction n as [|n IH]; [done|]. intros s u w Hu Hs goal Hf. simpl in *.
  destruct (plan s) as [|next|] eqn:Hp; [|destruct (is_legal_transition s next) eqn:Hl; [|done]|done].
  - injection Hf as <-. exists u, w. split; [|rewrite <- Hs; by apply moved_refl].
    unfold round, mbind_. rewrite get_unit_spec, Hu. simpl. rewrite Hs, Hp.
    by destruct (finish u w) as [[]].
  - subst s. destruct (round_advances plan target finish id u w next Hu Hp Hl) as (u1 & w1 & Hr & Hm).
    unfold mbind_ at 1. rewrite Hr.
    destruct (IH next u1 w1 (moved_lookup _ _ _ _ _ _ Hm) (proj1 Hm) goal Hf) as (u2 & w2 & -> & Hm2).
    exists u2, w2. split; [done|]. by eapply moved_trans.
Qed.
Definition emission_failed (e : SgrError.t) : Prop :=
  exists m, e = SgrError.EvidenceEmitFailed m.

(** [finish] only writes evidence. *)
Definition quiet (finish : ServiceUnit.t -> M ()) : Prop := forall u w,
  post (finish u) (fun _ w' => World.graph w' = World.graph w)
    (fun e w' => emission_failed e /\ World.graph w' = World.graph w) w.

Lemma quiet_if b (f : ServiceUnit.t -> M ()) :
  quiet f -> quiet (fun u => if b : bool then ret () else f u).
Proof. intros Hf u w. destruct b; [done|apply Hf]. Qed.

Lemma quiet_ret : quiet (fun _ => ret ()).
Proof. by intros u w. Qed.
Lemma quiet_started : quiet (emit_unit_started evidence_emitter).
Proof. intros u w. apply emit_post. Qed.
Lemma quiet_stopped : quiet (emit_unit_stopped evidence_emitter).
Proof. intros u w. apply emit_post. Qed.
Lemma quiet_failed reason : quiet (fun u => emit_unit_failed evidence_emitter u reason).
Proof. intros u w. apply emit_post. Qed.
Hint Resolve quiet_if quiet_ret quiet_started quiet_stopped quiet_failed : core.

(** The unit reached [s], or evidence was refused once it had. *)
Definition reaches (id : string) (s : UnitState.t) (u : ServiceUnit.t)
    (m : M (option ServiceUnit.t)) (w : W) : Prop :=
  post m (fun r w' => exists u', r = Some u' /\ moved id s u u' w w')
    (fun e w' => emission_failed e /\ exists u', moved id s u u' w w') w.

Lemma finish_reaches id s u u' w w1 finish :
  quiet finish -> moved id s u u' w w1 ->
  post (let! _ := finish u' in ret (Some u'))
    (fun r w' => exists u', r = Some u' /\ moved id s u u' w w')
    (fun e w' => emission_failed e /\ exists u', moved id s u u' w w') w1.
Proof.
  intros Hq Hm. apply (post_bind _ _ (fun _ w' => World.graph w' = World.graph w1)).
  - eapply post_mono; [apply Hq|done|]. intros e w' [He Hg]. split; [done|].
    exists u'. by eapply moved_graph.
  - intros _ w' Hg. exists u'. split; [done|]. by eapply moved_graph.
Qed.

Lemma loop_reaches plan target finish id u w s :
  quiet finish -> units_of (World.graph w) !! id = Some u ->
  follow plan fuel (ServiceUnit.state u) = Some (Ok s) ->
  reaches id s u (iterate fuel (round plan target finish id)) w.
Proof.
  intros Hq Hu Hf. unfold reaches, post.
  destruct (drive_arrives plan target finish id fuel _ u w Hu eq_refl s Hf) as (u' & w' & -> & Hm).
  by apply finish_reaches.
Qed.

(** The answer of a loop that gives up in its first round. *)
Definition refusal (plan : UnitState.t -> plan_step) (target s : UnitState.t) : option SgrError.t :=
  match plan s with
  | Refuse => Some (invalid_transition s target)
  | Advance next => if is_legal_transition s next then None else Some (invalid_transition s next)
  | Arrived => None
  end.

Lemma loop_refuses plan target finish id u w e :
  0 < fuel -> units_of (World.graph w) !! id = Some u ->
  refusal plan target (ServiceUnit.state u) = Some e ->
  iterate fuel (round plan target finish id) w = (Err e, w).
Proof.
  unfold refusal. intros Hf Hu Hr. destruct fuel as [|n]; [lia|]. simpl.
  unfold round, mbind_. rewrite get_unit_spec, Hu. simpl.
  destruct (plan _) as [|next|]; [done| |by injection Hr as <-].
  unfold apply_or_observe. destruct (is_legal_transition _ next); [done|]. by injection Hr as <-.
Qed.

Hypothesis rounds : 4 <= fuel.

Lemma follow_enough plan s r : follow plan 4 s = Some r -> follow plan fuel s = Some r.
Proof.
  destruct fuel as [|[|[|[|n]]]]; [lia..|]. clear. intros Hf.
  assert (forall a b s r, follow plan a s = Some r -> follow plan (a + b) s = Some r) as Hmono.
  { intros a b. induction a as [|a IH]; [done|]. simpl. intros s0 r0.
    destruct (plan s0); [done| |done]. destruct (is_legal_transition _ _); [|done]. apply IH. }
  by apply (Hmono 4 n).
Qed.

Lemma drive_reaches id p u w :
  units_of (World.graph w) !! id = Some u ->
  follow (start_plan p) 4 (ServiceUnit.state u) = Some (Ok Running) ->
  reaches id Running u (drive_to_running id p) w.
Proof. intros Hu Hf. apply loop_reaches; [auto|done|by apply follow_enough]. Qed.

Lemma start_reaches id u w :
  units_of (World.graph w) !! id = Some u ->
  follow (start_plan Reject) 4 (ServiceUnit.state u) = Some (Ok Running) ->
  reaches id Running u (start id) w.
Proof.
  intros Hu Hf. unfold start, reaches, post, mbind_ at 1. rewrite get_unit_spec, Hu. simpl.
  eapply post_bind; [by apply drive_reaches|]. intros r w1 (u' & -> & Hm).
  apply (finish_reaches id Running u u' w w1
    (fun unit => if bool_decide (ServiceUnit.state u = Running) then ret ()
                 else emit_unit_started evidence_emitter unit)); auto.
Qed.

Lemma stop_reaches id u w :
  units_of (World.graph w) !! id = Some u ->
  follow stop_plan 4 (ServiceUnit.state u) = Some (Ok Stopped) ->
  reaches id Stopped u (stop id) w.
Proof.
  intros Hu Hf. unfold stop, reaches, post, mbind_. rewrite get_unit_spec, Hu. simpl.
  apply loop_reaches; [auto|done|by apply follow_enough].
Qed.

Lemma fail_reaches id reason u w :
  units_of (World.graph w) !! id = Some u ->
  follow fail_plan 4 (ServiceUnit.state u) = Some (Ok Failed) ->
  reaches id Failed u (mark_failed id reason) w.
Proof.
  intros Hu Hf. unfold mark_failed, reaches, post, mbind_. rewrite get_unit_spec, Hu. simpl.
  apply loop_reaches; [|done|by apply follow_enough].
  apply (quiet_if _ (fun unit => emit_unit_failed evidence_emitter unit reason)). auto.
Qed.

Lemma restart_reaches id u w :
  units_of (World.graph w) !! id = Some u ->
  follow stop_plan 4 (ServiceUnit.state u) = Some (Ok Stopped) ->
  ServiceUnit.state u <> Stopped ->
  post (restart id) (fun r w' => exists u', r = Some u' /\ moved id Running u u' w w')
    (fun e w' => emission_failed e /\ exists u', moved id Stopped u u' w w') w.
Proof.
  intros Hu Hf Hs.
  assert (post (let! stopped := stop id in
                match stopped with None => ret None | Some _ => drive_to_running id Reject end)
            (fun r w' => exists u', r = Some u' /\ moved id Running u u' w w')
            (fun e w' => emission_failed e /\ exists u', moved id Stopped u u' w w') w) as Hp.
  { eapply post_bind; [by apply stop_reaches|]. intros r w1 (u1 & -> & Hm).
    pose proof (moved_lookup _ _ _ _ _ _ Hm) as Hu1.
    destruct (drive_arrives (start_plan Reject) Running (fun _ => ret ()) id fuel _ u1 w1 Hu1
      (proj1 Hm) Running) as (u2 & w2 & Hd & Hm2); [by apply follow_enough|].
    unfold post, drive_to_running. rewrite Hd. exists u2. split; [done|]. by eapply moved_trans. }
  unfold restart, post, mbind_ at 1. rewrite get_unit_spec, Hu. simpl.
  destruct (ServiceUnit.state u); try done; apply Hp.
Qed.

Lemma perform_spec o id w u :
  units_of (World.graph w) !! id = Some u ->
  match goal o (ServiceUnit.state u) with
  | Err e => perform o id w = (Err e, w)
  | Ok s =>
      post (perform o id) (fun r w' => exists u', r = Some u' /\ moved id s u u' w w')
        (fun e w' => emission_failed e /\ exists u' s', (s' = s \/ (o = Restart /\ s' = Stopped)) /\
                     moved id s' u u' w w') w
  end.
Proof.
  intros Hu.
  assert (forall s m, reaches id s u m w ->
    post m (fun r w' => exists u', r = Some u' /\ moved id s u u' w w')
      (fun e w' => emission_failed e /\ exists u' s', (s' = s \/ (o = Restart /\ s' = Stopped)) /\
                   moved id s' u u' w w') w) as Hr.
  { intros s m Hm. eapply post_mono; [exact Hm|done|]. intros e w' (He & u' & Hm').
    split; [done|]. exists u', s. auto. }
  destruct o as [| | |reason]; unfold goal.
  - destruct (ServiceUnit.state u) eqn:E;
      first [apply Hr, start_reaches; [done|by rewrite E]
            |unfold perform, start, mbind_, drive_to_running; rewrite get_unit_spec, Hu; simpl;
             erewrite loop_refuses; [done|lia|done|by rewrite E]].
  - destruct (ServiceUnit.state u) eqn:E;
      first [apply Hr, stop_reaches; [done|by rewrite E]
            |unfold perform, stop, mbind_; rewrite get_unit_spec, Hu; simpl;
             eapply loop_refuses; [lia|done|by rewrite E]].
  - destruct (ServiceUnit.state u) eqn:E;
      first [by unfold perform, restart, mbind_; rewrite get_unit_spec, Hu; simpl; rewrite E
            |eapply post_mono; [apply (restart_reaches id u w); [done|by rewrite E..]|done|];
             intros e w' (He & u' & Hm'); split; [done|]; exists u', Stopped; auto; done
            |apply Hr; unfold reaches, post, perform, restart, mbind_ at 1;
             rewrite get_unit_spec, Hu; simpl; rewrite E; apply drive_reaches; [done|by rewrite E]].
  - destruct (ServiceUnit.state u) eqn:E;
      first [apply Hr, fail_reaches; [done|by rewrite E]
            |unfold perform, mark_failed, mbind_; rewrite get_unit_spec, Hu; simpl;
             eapply loop_refuses; [lia|done|by rewrite E]].
Qed.

(** The driver when nothing interferes: each lifecycle operation takes the
    unit from every state to the state [goal] names, along legal transitions
    and touching nothing else in the graph, within four rounds of its loop; it
    fails after having moved the unit only when its evidence is refused.
    Where [goal] names an error, that is the answer and nothing changes; a
    [DRAFT] unit, for one, cannot be marked failed.  An unknown unit is [UnitNotFound]. *)
Theorem driver_exact o id w :
  match units_of (World.graph w) !! id with
  | None => perform o id w = (Err (SgrError.UnitNotFound id), w)
  | Some u =>
      match goal o (ServiceUnit.state u) with
      | Err e => perform o id w = (Err e, w)
      | Ok s =>
          post (perform o id) (fun r w' => exists u', r = Some u' /\ moved id s u u' w w')
            (fun e w' => emission_failed e /\ exists u' s', (s' = s \/ (o = Restart /\ s' = Stopped)) /\
                         moved id s' u u' w w') w
      end
  end.
Proof.
  destruct (units_of (World.graph w) !! id) as [u|] eqn:Hu; [by apply perform_spec|].
  destruct o; unfold perform, start, stop, restart, mark_failed, mbind_; by rewrite get_unit_spec, Hu.
Qed.
End Driver.
End UnitFsmDriver.
