(* ===== verification/SgrEval.v ===== *)
(** * Service graph runtime: the graph evaluator

    [GraphEvaluator] ([evaluator.rs]) over the trait [ServiceGraph]: the
    dependency index, Kahn's topological sort, the partition into batches,
    Tarjan's iterative search for cycles, readiness and convergence.

    A vector used as a stack is a list with its top first.  The loops take fuel:
    a round of the sort orders one unit and a round of the partition one batch,
    so the number of units is enough; a round of Tarjan's loop consumes an edge
    or a frame, so units plus edges are.  [KahnSound] and [TarjanSound] prove
    that the fuel is never exhausted. *)
From stdpp Require Import sorting.
From S2P Require Import Prelude Collections Json Ids Records Redaction Receipt ChainSound StateError SgrTypes SgrGraph.

Module DependencyIndex.
Record t : Type := {
  units : list string;
  adjacency : gmap string (list string);
  dependents : gmap string (list string);
  prerequisite_counts : gmap string nat;
  self_loops : gset string;
}.
End DependencyIndex.

Module GraphEvaluator.
Import DependencyIndex.

Definition missing_index_entry (label unit_id : string) : SgrError.t :=
  SgrError.Internal ("missing " +:+ label +:+ " for " +:+ unit_id).

(** *** Ordering *)
Definition sort_unit_ids (l : list string) : list string := sort_strings l.

Definition sort_and_dedup_unit_ids (l : list string) : list string := sorted_unique l.

Definition dependency_kind_rank (k : DependencyKind.t) : nat :=
  match k with
  | DependencyKind.RequiresHealthy => 0
  | DependencyKind.RequiresRunning => 1
  | DependencyKind.OrdersAfter => 2
  end.
Definition edge_le (a b : DependencyEdge.t) : bool :=
  match String.compare (DependencyEdge.to_unit_id a) (DependencyEdge.to_unit_id b) with
  | Lt => true
  | Gt => false
  | Eq => (dependency_kind_rank (DependencyEdge.kind a) <=?
           dependency_kind_rank (DependencyEdge.kind b))%nat
  end.
Definition sort_dependency_edges (l : list DependencyEdge.t) : list DependencyEdge.t :=
  merge_sort (fun a b => Is_true (edge_le a b)) l.

(** *** State predicates *)
Definition is_running_stable (s : UnitState.t) : bool :=
  match s with UnitState.Running | UnitState.Healthy => true | _ => false end.
Definition is_transitional (s : UnitState.t) : bool :=
  match s with
  | UnitState.Draft | UnitState.Queued | UnitState.Starting | UnitState.Stopping => true
  | _ => false
  end.
Definition desired_state_matches (d : DesiredState.t) (s : UnitState.t) : bool :=
  match d with
  | DesiredState.Running | DesiredState.Restarted | DesiredState.Reloaded => is_running_stable s
  | DesiredState.Stopped => bool_decide (s = UnitState.Stopped)
  end.

(** *** Kahn's algorithm on an index *)
Definition zero_prerequisite_units (us : list string) (counts : gmap string nat) : list string :=
  sort_unit_ids (filter (fun u => default 0 (counts !! u) = 0) us).

Definition decrement_prerequisite_count (counts : gmap string nat) (unit_id : string)
    : result SgrError.t (gmap string nat) :=
  let? count := ok_or (counts !! unit_id) (missing_index_entry "prerequisite count" unit_id) in
  if (count =? 0)%nat
  then Err (SgrError.Internal ("dependency count underflow for " +:+ unit_id))
  else Ok (<[unit_id := count - 1]> counts).

(** One dependent of a unit that has been ordered: its count goes down, and at
    zero it joins [out]. *)
Definition release_one (st : gmap string nat * list string) (dependent : string)
    : result SgrError.t (gmap string nat * list string) :=
  let? counts := decrement_prerequisite_count st.1 dependent in
  Ok (counts, if (default 0 (counts !! dependent) =? 0)%nat then st.2 ++ [dependent] else st.2).

Definition release (idx : DependencyIndex.t) (st : gmap string nat * list string) (unit_id : string)
    : result SgrError.t (gmap string nat * list string) :=
  try_fold release_one st (default [] (dependents idx !! unit_id)).

Fixpoint sort_loop (fuel : nat) (idx : DependencyIndex.t) (counts : gmap string nat)
    (ready ordered : list string) : result SgrError.t (option (list string)) :=
  match ready, fuel with
  | [], _ => Ok (Some ordered)
  | _, O => Ok None
  | unit_id :: ready, S fuel =>
      let? st := release idx (counts, ready) unit_id in
      sort_loop fuel idx st.1 (sort_and_dedup_unit_ids st.2) (ordered ++ [unit_id])
  end.

(** The loop of [identify_parallel_batches]; [processed] lists the units of the
    batches so far. *)
Fixpoint batch_loop (fuel : nat) (idx : DependencyIndex.t) (counts : gmap string nat)
    (ready : list string) (batches : list (list string)) (processed : list string)
    : result SgrError.t (option (list (list string) * list string)) :=
  match ready, fuel with
  | [], _ => Ok (Some (batches, processed))
  | _, O => Ok None
  | batch, S fuel =>
      let? st := try_fold (release idx) (counts, []) batch in
      batch_loop fuel idx st.1 (sort_and_dedup_unit_ids st.2) (batches ++ [batch])
        (processed ++ batch)
  end.

(** *** Tarjan's search *)
Module Tarjan.
Record t : Type := {
  next_index : nat;
  indexes : gmap string nat;
  lowlinks : gmap string nat;
  component_stack : list string;
  on_stack : gset string;
  components : list (list string);
}.
Definition init : t :=
  {| next_index := 0; indexes := ∅; lowlinks := ∅; component_stack := []; on_stack := ∅;
     components := [] |}.
End Tarjan.
Import Tarjan.

Definition push_tarjan_node (node : string) (st : Tarjan.t) : Tarjan.t :=
  {| next_index := S (next_index st); indexes := <[node := next_index st]> (indexes st);
     lowlinks := <[node := next_index st]> (lowlinks st);
     component_stack := node :: component_stack st; on_stack := {[node]} ∪ on_stack st;
     components := components st |}.

Definition tarjan_value (values : gmap string nat) (unit_id label : string)
    : result SgrError.t nat :=
  ok_or (values !! unit_id) (missing_index_entry label unit_id).

Definition set_lowlinks (ll : gmap string nat) (st : Tarjan.t) : Tarjan.t :=
  {| next_index := next_index st; indexes := indexes st; lowlinks := ll;
     component_stack := component_stack st; on_stack := on_stack st; components := components st |}.

Definition lower_lowlink (unit_id : string) (candidate : nat) (st : Tarjan.t)
    : result SgrError.t Tarjan.t :=
  let? current := ok_or (lowlinks st !! unit_id) (missing_index_entry "lowlink" unit_id) in
  Ok (if (candidate <? current)%nat then set_lowlinks (<[unit_id := candidate]> (lowlinks st)) st
      else st).

(** The component popped (its last node first), the stack and the set that remain. *)
Fixpoint pop_loop (stack : list string) (on : gset string) (root : string) (component : list string)
    : result SgrError.t (list string * list string * gset string) :=
  match stack with
  | [] => Err (SgrError.Internal "empty Tarjan component stack")
  | node :: stack =>
      let on := on ∖ {[node]} in
      let component := component ++ [node] in
      if String.eqb node root then Ok (component, stack, on)
      else pop_loop stack on root component
  end.

Definition pop_component (root : string) (st : Tarjan.t) : result SgrError.t Tarjan.t :=
  let? r := pop_loop (component_stack st) (on_stack st) root [] in
  let '(component, stack, on) := r in
  Ok {| next_index := next_index st; indexes := indexes st; lowlinks := lowlinks st;
        component_stack := stack; on_stack := on;
        components := components st ++ [sort_unit_ids component] |}.

(** A frame: a node and the position of its next neighbour. *)
Abbreviation TarjanFrame := (string * nat)%type.

(** One round of the inner loop on the frames [(node, next) :: frames]. *)
Definition tarjan_round (idx : DependencyIndex.t) (node : string) (next : nat)
    (frames : list TarjanFrame) (st : Tarjan.t)
    : result SgrError.t (list TarjanFrame * Tarjan.t) :=
  let? neighbors := ok_or (adjacency idx !! node) (missing_index_entry "adjacency" node) in
  match neighbors !! next with
  | Some neighbor =>
      let frames := (node, S next) :: frames in
      if negb (is_some (indexes st !! neighbor))
      then Ok ((neighbor, 0) :: frames, push_tarjan_node neighbor st)
      else if bool_decide (neighbor ∈ on_stack st) then
        let? neighbor_index := tarjan_value (indexes st) neighbor "index" in
        let? st := lower_lowlink node neighbor_index st in
        Ok (frames, st)
      else Ok (frames, st)
  | None =>
      let? low := tarjan_value (lowlinks st) node "lowlink" in
      let? index := tarjan_value (indexes st) node "index" in
      let? st := if (low =? index)%nat then pop_component node st else Ok st in
      match frames with
      | [] => Ok ([], st)
      | (parent, _) :: _ =>
          let? child_lowlink := tarjan_value (lowlinks st) node "lowlink" in
          let? st := lower_lowlink parent child_lowlink st in
          Ok (frames, st)
      end
  end.

Fixpoint tarjan_loop (fuel : nat) (idx : DependencyIndex.t) (frames : list TarjanFrame)
    (st : Tarjan.t) : result SgrError.t (option Tarjan.t) :=
  match frames, fuel with
  | [], _ => Ok (Some st)
  | _, O => Ok None
  | (node, next) :: frames, S fuel =>
      let? r := tarjan_round idx node next frames st in
      tarjan_loop fuel idx r.1 r.2
  end.

Definition tarjan_fuel (idx : DependencyIndex.t) : nat :=
  sum_list_with (fun u => S (length (default [] (adjacency idx !! u)))) (units idx).

Fixpoint tarjan_starts (idx : DependencyIndex.t) (starts : list string) (st : Tarjan.t)
    : result SgrError.t (option Tarjan.t) :=
  match starts with
  | [] => Ok (Some st)
  | start :: starts =>
      if is_some (indexes st !! start) then tarjan_starts idx starts st
      else
        let? r := tarjan_loop (tarjan_fuel idx) idx [(start, 0)] (push_tarjan_node start st) in
        match r with None => Ok None | Some st => tarjan_starts idx starts st end
  end.

Definition is_cycle (idx : DependencyIndex.t) (component : list string) : bool :=
  (2 <=? length component)%nat ||
  match head component with Some u => bool_decide (u ∈ self_loops idx) | None => false end.

Definition detect_cycles_in_index (idx : DependencyIndex.t)
    : result SgrError.t (option (list (list string))) :=
  let? r := tarjan_starts idx (units idx) Tarjan.init in
  Ok (st ← r; Some (filter (fun c => is_cycle idx c = true) (components st))).

Definition first_cycle_or_remaining (idx : DependencyIndex.t) (processed : list string)
    : result SgrError.t (option (list string)) :=
  let? r := detect_cycles_in_index idx in
  Ok (cycles ← r;
      match cycles with
      | cycle :: _ => Some cycle
      | [] => Some (sort_unit_ids (filter (fun u => u ∉ processed) (units idx)))
      end).

(** *** The evaluator *)
Definition empty_index (us : list string) : DependencyIndex.t :=
  {| units := us; adjacency := list_to_map ((fun u => (u, [])) <$> us);
     dependents := list_to_map ((fun u => (u, [])) <$> us);
     prerequisite_counts := list_to_map ((fun u => (u, 0)) <$> us); self_loops := ∅ |}.

(** One edge of [unit_id]; [us] is the set of the units. *)
Definition index_edge (us : gset string) (unit_id : string) (idx : DependencyIndex.t)
    (edge : DependencyEdge.t) : result SgrError.t DependencyIndex.t :=
  let to := DependencyEdge.to_unit_id edge in
  if negb (String.eqb (DependencyEdge.from_unit_id edge) unit_id)
  then Err (SgrError.Internal ("dependency edge source mismatch: expected " +:+ unit_id
                                 +:+ ", got " +:+ DependencyEdge.from_unit_id edge))
  else if negb (bool_decide (to ∈ us)) then Err (SgrError.DependencyTargetNotRegistered to)
  else
    let? a := ok_or (adjacency idx !! unit_id) (missing_index_entry "adjacency" unit_id) in
    let? d := ok_or (dependents idx !! to) (missing_index_entry "dependents" to) in
    let? c := ok_or (prerequisite_counts idx !! unit_id)
                (missing_index_entry "prerequisite count" unit_id) in
    Ok {| units := units idx; adjacency := <[unit_id := a ++ [to]]> (adjacency idx);
          dependents := <[to := d ++ [unit_id]]> (dependents idx);
          prerequisite_counts := <[unit_id := S c]> (prerequisite_counts idx);
          self_loops := if String.eqb to unit_id then {[unit_id]} ∪ self_loops idx
                        else self_loops idx |}.

Definition sort_index (idx : DependencyIndex.t) : DependencyIndex.t :=
  {| units := units idx; adjacency := sort_unit_ids <$> adjacency idx;
     dependents := sort_unit_ids <$> dependents idx;
     prerequisite_counts := prerequisite_counts idx; self_loops := self_loops idx |}.

Section Ops.
Context {G L : Type} `{SgrEvidenceLog L} `{!SgrTexts} `{!ServiceGraph G L}.
Variable evidence_emitter : option SgrEvidenceEmitter.

Abbreviation W := (World.t G L).
Abbreviation M := (M (World.t G L) SgrError.t).

Fixpoint load_edges (us : gset string) (ids : list string) (idx : DependencyIndex.t)
    : M DependencyIndex.t :=
  match ids with
  | [] => ret idx
  | unit_id :: ids =>
      let! edges := sg_list_dependencies unit_id in
      let! idx := lift (try_fold (index_edge us unit_id) idx (sort_dependency_edges edges)) in
      load_edges us ids idx
  end.

Definition load_dependency_index : M DependencyIndex.t :=
  let! listed := sg_list_units in
  let us := sort_unit_ids (ServiceUnit.unit_id <$> listed) in
  let! idx := load_edges (list_to_set us) us (empty_index us) in
  ret (sort_index idx).

(** The check after both loops; [None] when a loop ran out of fuel. *)
Definition all_or_cycle {A} (idx : DependencyIndex.t) (processed : list string) (answer : A)
    : result SgrError.t (option A) :=
  if (length processed =? length (units idx))%nat then Ok (Some answer)
  else
    let? cycle := first_cycle_or_remaining idx processed in
    match cycle with
    | Some cycle => Err (SgrError.DependencyCycleDetected cycle)
    | None => Ok None
    end.

Definition sort_index_units (idx : DependencyIndex.t) : result SgrError.t (option (list string)) :=
  let counts := prerequisite_counts idx in
  let? r := sort_loop (length (units idx)) idx counts (zero_prerequisite_units (units idx) counts) [] in
  match r with
  | None => Ok None
  | Some ordered => all_or_cycle idx ordered ordered
  end.

Definition topological_sort : M (option (list string)) :=
  let! idx := load_dependency_index in lift (sort_index_units idx).

Definition detect_cycles : M (option (list (list string))) :=
  let! idx := load_dependency_index in lift (detect_cycles_in_index idx).

Definition batch_index_units (idx : DependencyIndex.t)
    : result SgrError.t (option (list (list string))) :=
  let counts := prerequisite_counts idx in
  let? r := batch_loop (length (units idx)) idx counts
              (zero_prerequisite_units (units idx) counts) [] [] in
  match r with
  | None => Ok None
  | Some (batches, processed) => all_or_cycle idx processed batches
  end.

Definition identify_parallel_batches : M (option (list (list string))) :=
  let! idx := load_dependency_index in lift (batch_index_units idx).

Fixpoint edges_ready (edges : list DependencyEdge.t) : M bool :=
  match edges with
  | [] => ret true
  | edge :: edges =>
      if DependencyKind.is_hard (DependencyEdge.kind edge) then
        let! dependency := sg_get_unit (DependencyEdge.to_unit_id edge) in
        if negb (is_running_stable (ServiceUnit.state dependency)) then ret false
        else edges_ready edges
      else edges_ready edges
  end.
Definition evaluate_readiness (unit_id : string) : M bool :=
  let! edges := sg_list_dependencies unit_id in edges_ready edges.

Definition is_settled (u : ServiceUnit.t) : bool :=
  negb (is_transitional (ServiceUnit.state u)) &&
  desired_state_matches (UnitManifest.desired_state (ServiceUnit.manifest u)) (ServiceUnit.state u).

Definition is_converged : M bool :=
  let! us := sg_list_units in ret (forallb is_settled us).

Definition state_of_units (us : list ServiceUnit.t) : GraphState.t :=
  let failed u := bool_decide (ServiceUnit.state u = UnitState.Failed) in
  match us with
  | [] => GraphState.Empty
  | _ =>
      if existsb failed us then
        let failed_count := length (filter (fun u => failed u = true) us) in
        let critical_failed := existsb (fun u => failed u && ServiceUnit.is_critical_unit u) us in
        if critical_failed || (failed_count =? length us)%nat
        then GraphState.Failed else GraphState.Degraded
      else if existsb (fun u => match ServiceUnit.state u with
                                | UnitState.Degraded | UnitState.Unhealthy | UnitState.Retired => true
                                | _ => false end) us
      then GraphState.Degraded
      else if existsb (fun u => is_transitional (ServiceUnit.state u)) us then GraphState.Converging
      else if forallb (fun u => desired_state_matches
                         (UnitManifest.desired_state (ServiceUnit.manifest u)) (ServiceUnit.state u)) us
      then GraphState.Converged
      else GraphState.Converging
  end.

Definition convergence_state : M GraphState.t :=
  let! us := sg_list_units in
  let state := state_of_units us in
  let! _ := if bool_decide (state = GraphState.Converged)
            then emit_graph_converged evidence_emitter state (Z.of_nat (length us))
            else ret () in
  ret state.
End Ops.
End GraphEvaluator.
