(* ===== verification/SgrKahn.v ===== *)
(** * Service graph runtime: the dependency index and Kahn's algorithm

    The index is the graph ([SgrIndex]), and the loops over it compute what they
    should ([SgrKahn]). *)
From stdpp Require Import sorting functions.
From stdpp Require Import sorting.
From S2P Require Import Prelude Collections Json Ids Records Redaction Receipt ChainSound StateError SgrTypes SgrGraph SgrEval.

(** * Service graph runtime: the dependency index is the graph

    What [load_dependency_index] builds from a graph whose units carry their
    own ids and whose edges join registered units ([graph_ok]): the sorted
    units, the targets and the dependents of each with multiplicity, and the
    number of its prerequisites ([index_ok]). *)

Module SgrIndex.
Import DependencyIndex GraphEvaluator.

(** ** The index of a dependency function

    [us] are the units and [D u] the targets recorded for [u]. *)
Record records (us : list string) (D : string -> list string) (idx : DependencyIndex.t) : Prop := {
  rec_units : units idx = us;
  rec_adjacency u : u ∈ us -> adjacency idx !! u = Some (D u);
  rec_dependents v : v ∈ us -> exists l, dependents idx !! v = Some l /\
    (forall u, occ u l = if decide (u ∈ us) then occ v (D u) else 0);
  rec_counts u : u ∈ us -> prerequisite_counts idx !! u = Some (length (D u));
  rec_loops u : u ∈ us -> u ∈ self_loops idx <-> u ∈ D u;
}.

Lemma list_to_map_const {A} (us : list string) (a : A) u :
  u ∈ us -> (list_to_map ((fun u => (u, a)) <$> us) : gmap string A) !! u = Some a.
Proof.
  induction us as [|v us IH]; [by intros ?%elem_of_nil|]. simpl.
  intros [->|Hu]%elem_of_cons; [by rewrite lookup_insert_eq|].
  destruct (decide (u = v)) as [->|Hne]; [by rewrite lookup_insert_eq|].
  rewrite lookup_insert_ne by done. by apply IH.
Qed.

Lemma empty_records us : records us (fun _ => []) (empty_index us).
Proof.
  split; simpl.
  - done.
  - intros u Hu. by rewrite list_to_map_const.
  - intros v Hv. exists []. rewrite list_to_map_const by done. split; [done|].
    intros u. by destruct (decide (u ∈ us)).
  - intros u Hu. by rewrite list_to_map_const.
  - intros u _. set_solver.
Qed.

Lemma index_edge_records us D idx u e :
  records us D idx -> u ∈ us -> DependencyEdge.from_unit_id e = u ->
  DependencyEdge.to_unit_id e ∈ us ->
  exists idx', index_edge (list_to_set us) u idx e = Ok idx' /\
    records us (<[u := D u ++ [DependencyEdge.to_unit_id e]]> D) idx'.
Proof.
  intros HD Hu Hf Ht. set (to := DependencyEdge.to_unit_id e) in *. unfold index_edge. fold to.
  rewrite Hf, String.eqb_refl. simpl. rewrite bool_decide_eq_true_2 by (by apply elem_of_list_to_set).
  simpl. rewrite (rec_adjacency _ _ _ HD u Hu). simpl.
  destruct (rec_dependents _ _ _ HD to Ht) as (dl & Hdl & Hocc). rewrite Hdl. simpl.
  rewrite (rec_counts _ _ _ HD u Hu). simpl. eexists. split; [reflexivity|].
  destruct HD as [HU HA HD HC HL]. split; simpl.
  - done.
  - intros x Hx. destruct (decide (u = x)) as [<-|Hne].
    + by rewrite lookup_insert_eq, fn_lookup_insert.
    + rewrite lookup_insert_ne, fn_lookup_insert_ne by done. by apply HA.
  - intros v Hv. destruct (decide (to = v)) as [<-|Hne].
    + exists (dl ++ [u]). rewrite lookup_insert_eq. split; [done|]. intros x.
      rewrite occ_app, Hocc, occ_single. destruct (decide (u = x)) as [<-|Hx].
      * rewrite fn_lookup_insert, occ_app, occ_single.
        by rewrite !decide_True.
      * by rewrite fn_lookup_insert_ne, Nat.add_0_r.
    + destruct (HD v Hv) as (l & Hl & Ho). exists l. rewrite lookup_insert_ne by done.
      split; [done|]. intros x. rewrite Ho. destruct (decide (x ∈ us)); [|done].
      destruct (decide (u = x)) as [<-|Hx]; [|by rewrite fn_lookup_insert_ne].
      rewrite fn_lookup_insert, occ_app, occ_single, (decide_False (P := to = v)) by done. lia.
  - intros x Hx. destruct (decide (u = x)) as [<-|Hne].
    + rewrite lookup_insert_eq, fn_lookup_insert, length_app. simpl. f_equal. lia.
    + rewrite lookup_insert_ne, fn_lookup_insert_ne by done. by apply HC.
  - intros x Hx. specialize (HL x Hx).
    assert (x ∈ (if String.eqb to u then {[u]} ∪ self_loops idx else self_loops idx)
            <-> (to = u /\ x = u) \/ x ∈ self_loops idx) as ->
      by (destruct (String.eqb_spec to u); set_solver).
    rewrite HL. destruct (decide (u = x)) as [<-|Hne].
    + rewrite fn_lookup_insert, elem_of_app, list_elem_of_singleton. naive_solver.
    + rewrite fn_lookup_insert_ne by done. naive_solver.
Qed.

Lemma index_edges_records us D idx u es :
  records us D idx -> u ∈ us ->
  Forall (fun e => DependencyEdge.from_unit_id e = u /\ DependencyEdge.to_unit_id e ∈ us) es ->
  exists idx', try_fold (index_edge (list_to_set us) u) idx es = Ok idx' /\
    records us (<[u := D u ++ (DependencyEdge.to_unit_id <$> es)]> D) idx'.
Proof.
  intros HD Hu. revert D idx HD. induction es as [|e es IH]; intros D idx HD Hes; simpl.
  - exists idx. split; [done|]. rewrite app_nil_r.
    assert (forall y, (<[u:=D u]> D) y = D y) as Hid.
    { intros y. destruct (decide (u = y)) as [<-|]; [by rewrite fn_lookup_insert|].
      by rewrite fn_lookup_insert_ne. }
    destruct HD as [H1 H2 H3 H4 H5]. split; [done| | | |]; intros x Hx; rewrite ?Hid; auto.
    destruct (H3 x Hx) as (l & Hl & Ho). exists l. split; [done|]. intros y. by rewrite Ho, Hid.
  - inversion_clear Hes as [|? ? [Hf Ht] Hes'].
    destruct (index_edge_records us D idx u e HD Hu Hf Ht) as (idx1 & -> & HD1). simpl.
    destruct (IH _ idx1 HD1 Hes') as (idx2 & -> & HD2). exists idx2. split; [done|].
    rewrite fn_lookup_insert, <- app_assoc in HD2. simpl in HD2.
    assert (forall x, (<[u:=D u ++ DependencyEdge.to_unit_id e :: (DependencyEdge.to_unit_id <$> es)]>
       (<[u:=D u ++ [DependencyEdge.to_unit_id e]]> D)) x
      = (<[u:=D u ++ DependencyEdge.to_unit_id e :: (DependencyEdge.to_unit_id <$> es)]> D) x) as Hid.
    { intros y. destruct (decide (u = y)) as [<-|]; [by rewrite !fn_lookup_insert|].
      by rewrite !fn_lookup_insert_ne. }
    destruct HD2 as [H1 H2 H3 H4 H5]. split; [done| | | |]; intros z Hz; rewrite <- ?Hid; auto.
    destruct (H3 z Hz) as (l & Hl & Ho). exists l. split; [done|]. intros y. by rewrite Ho, Hid.
Qed.

(** What the algorithms rely on of the index of the units [us] with the
    dependencies [D]. *)
Record index_ok (us : list string) (D : string -> list string) (idx : DependencyIndex.t) : Prop := {
  ok_units : units idx = us;
  ok_sorted : StronglySorted String.le us;
  ok_nodup : NoDup us;
  ok_closed u v : u ∈ us -> v ∈ D u -> v ∈ us;
  ok_adjacency u : u ∈ us -> exists l, adjacency idx !! u = Some l /\ l ≡ₚ D u;
  ok_dependents v : v ∈ us -> exists l, dependents idx !! v = Some l /\
    (forall u, occ u l = if decide (u ∈ us) then occ v (D u) else 0);
  ok_counts u : u ∈ us -> prerequisite_counts idx !! u = Some (length (D u));
  ok_loops u : u ∈ us -> u ∈ self_loops idx <-> u ∈ D u;
}.

Section Load.
Context {G L : Type} `{SgrEvidenceLog L} `{!SgrTexts} `{!ServiceGraph G L} `{!ServiceGraphLaws G L}.

(** The graph as the evaluator sees it. *)
Definition deps_of (g : G) (u : string) : list string :=
  DependencyEdge.to_unit_id <$> edges_of g u.
Definition unit_ids (g : G) : list string := sort_unit_ids (map_to_list (units_of g)).*1.

(** Units carry the id they are stored under, edges start at the unit that
    lists them and end at registered units. *)
Definition graph_ok (g : G) : Prop :=
  (forall id u, units_of g !! id = Some u -> ServiceUnit.unit_id u = id) /\
  (forall id, is_Some (units_of g !! id) ->
     Forall (fun e => DependencyEdge.from_unit_id e = id /\
                      is_Some (units_of g !! DependencyEdge.to_unit_id e)) (edges_of g id)).

Lemma elem_of_unit_ids g u : u ∈ unit_ids g <-> is_Some (units_of g !! u).
Proof.
  unfold unit_ids. rewrite elem_of_sort_strings, list_elem_of_fmap. split.
  - intros ([k x] & -> & Hx%elem_of_map_to_list). simpl. by eexists.
  - intros [x Hx]. exists (u, x). split; [done|]. by apply elem_of_map_to_list.
Qed.

Lemma unit_ids_nodup g : NoDup (unit_ids g).
Proof. unfold unit_ids. rewrite sort_strings_perm. apply NoDup_fst_map_to_list. Qed.

Lemma listed_ids g l :
  graph_ok g -> l ≡ₚ (map_to_list (units_of g)).*2 ->
  sort_unit_ids (ServiceUnit.unit_id <$> l) = unit_ids g.
Proof.
  intros [Hid _] Hl. apply sort_strings_unique; [apply sort_strings_sorted|]. unfold unit_ids. rewrite sort_strings_perm, Hl.
  rewrite <- list_fmap_compose. apply reflexive_eq.
  apply list_fmap_ext. intros i [k u] Hi. simpl. symmetry. apply Hid.
  apply elem_of_map_to_list. by eapply list_elem_of_lookup_2.
Qed.

Lemma load_edges_records g us ids D idx w :
  World.graph w = g -> graph_ok g -> us = unit_ids g -> NoDup ids ->
  (forall u, u ∈ ids -> u ∈ us /\ D u = []) -> records us D idx ->
  exists idx' D', load_edges (list_to_set us) ids idx w = (Ok idx', w) /\ records us D' idx' /\
    (forall u, u ∈ ids -> D' u ≡ₚ deps_of g u) /\ (forall u, u ∉ ids -> D' u = D u).
Proof.
  intros Hw Hg -> Hnd. revert D idx. induction Hnd as [|u ids Hu Hnd IH]; intros D idx Hids HD.
  { exists idx, D. split_and!; [done|done|by intros ? ?%elem_of_nil|done]. }
  destruct (Hids u) as [Hin HDu]; [set_solver|].
  simpl. unfold mbind_. rewrite list_dependencies_spec, Hw.
  pose proof (proj1 (elem_of_unit_ids g u) Hin) as [x Hx]. rewrite Hx. simpl. unfold lift.
  assert (sort_dependency_edges (edges_of g u) ≡ₚ edges_of g u) as Hp by apply merge_sort_Permutation.
  destruct (index_edges_records (unit_ids g) D idx u (sort_dependency_edges (edges_of g u)) HD Hin)
    as (idx1 & -> & HD1).
  { rewrite Hp. eapply Forall_impl; [by apply (proj2 Hg); eexists|].
    intros e [? ?]. split; [done|]. by apply elem_of_unit_ids. }
  rewrite HDu in HD1. simpl in HD1.
  edestruct IH as (idx2 & D2 & Hl & HD2 & Hd & Ho); [|exact HD1|].
  { intros v Hv. rewrite fn_lookup_insert_ne by (by intros ->). apply Hids. set_solver. }
  exists idx2, D2. rewrite Hl. split_and!; [done|done| |].
  - intros v [->|Hv]%elem_of_cons; [|by apply Hd].
    rewrite Ho by done. rewrite fn_lookup_insert. unfold deps_of. by rewrite Hp.
  - intros v Hv. rewrite Ho by set_solver. rewrite fn_lookup_insert_ne; set_solver.
Qed.

Lemma sort_index_ok us D D' idx :
  StronglySorted String.le us -> NoDup us -> (forall u v, u ∈ us -> v ∈ D' u -> v ∈ us) ->
  (forall u, u ∈ us -> D u ≡ₚ D' u) -> records us D idx -> index_ok us D' (sort_index idx).
Proof.
  intros Hs Hn Hc Hp [HU HA HD HC HL]. split; simpl; try done.
  - intros u Hu. rewrite lookup_fmap, HA by done. simpl. eexists. split; [done|].
    by rewrite sort_strings_perm, Hp.
  - intros v Hv. destruct (HD v Hv) as (l & Hl & Ho). rewrite lookup_fmap, Hl. simpl.
    eexists. split; [done|]. intros u. rewrite (occ_perm _ _ _ (sort_strings_perm l)), Ho.
    destruct (decide (u ∈ us)); [|done]. by apply occ_perm, Hp.
  - intros u Hu. rewrite HC by done. by rewrite (Hp u Hu).
  - intros u Hu. rewrite HL by done. by rewrite (Hp u Hu).
Qed.

Lemma load_index_ok w :
  graph_ok (World.graph w) ->
  exists idx, load_dependency_index w = (Ok idx, w) /\
    index_ok (unit_ids (World.graph w)) (deps_of (World.graph w)) idx.
Proof.
  intros Hg. set (g := World.graph w) in *. unfold load_dependency_index, mbind_.
  destruct (list_units_spec w) as (l & -> & Hl). rewrite (listed_ids g l Hg Hl).
  destruct (load_edges_records g (unit_ids g) (unit_ids g) (fun _ => []) (empty_index (unit_ids g)) w)
    as (idx & D & -> & HD & Hd & _); [done|done|done|apply unit_ids_nodup|done|apply empty_records|].
  eexists. split; [reflexivity|]. apply (sort_index_ok _ D); [apply sort_strings_sorted|apply unit_ids_nodup| |done..].
  intros u v Hu Hv. apply elem_of_unit_ids in Hu. apply elem_of_unit_ids.
  apply list_elem_of_fmap in Hv as (e & -> & He).
  by apply (proj1 (Forall_forall _ _) (proj2 Hg u Hu)).
Qed.
End Load.
End SgrIndex.

(** * Service graph runtime: Kahn's algorithm is correct

    The loops of [topological_sort] and [identify_parallel_batches] on the index
    of a dependency function ([index_ok]): they need no more rounds than there
    are units, never underflow a count, and visit exactly the units that do not
    wait for a cycle; what they build is characterised without reference to the
    loops ([greedy], [layered]). *)

Module KahnSound.
Import DependencyIndex GraphEvaluator SgrIndex.

Section Kahn.
Context (us : list string) (D : string -> list string).

(** ** Specifications *)
Definition dep (a b : string) : Prop := a ∈ us /\ b ∈ D a.
Definition acyclic : Prop := forall x, ~ tc dep x x.

(** How many prerequisites of [u], with multiplicity, are not in [done]. *)
Definition pending (done : list string) (u : string) : nat :=
  length (filter (fun v => v ∉ done) (D u)).

(** The order puts each unit after what it depends on, and next always comes
    the least unit that may. *)
Definition greedy (l : list string) : Prop := forall pre x post, l = pre ++ x :: post ->
  (forall v, v ∈ D x -> v ∈ pre) /\
  (forall y, y ∈ us -> y ∉ pre -> (forall v, v ∈ D y -> v ∈ pre) -> String.le x y).

(** Each batch lists in order the units all of whose prerequisites lie in the
    batches before it and that are not there themselves. *)
Definition layered (bs : list (list string)) : Prop := forall pre b post, bs = pre ++ b :: post ->
  b <> [] /\ StronglySorted String.le b /\ NoDup b /\
  (forall u, u ∈ b <-> (u ∈ us /\ (u ∉ concat pre) /\ forall v, v ∈ D u -> v ∈ concat pre)).

(** ** Counting *)
Lemma pending_zero dn u : pending dn u = 0 <-> forall v, v ∈ D u -> v ∈ dn.
Proof.
  unfold pending. rewrite length_zero_iff_nil. split.
  - intros Hn v Hv. destruct (decide (v ∈ dn)); [done|].
    assert (v ∈ filter (fun v => v ∉ dn) (D u)) as Hin by (by apply list_elem_of_filter).
    rewrite Hn in Hin. by apply elem_of_nil in Hin.
  - intros Hall. destruct (filter _ _) as [|v l] eqn:E; [done|].
    assert (v ∈ filter (fun v => v ∉ dn) (D u)) as Hin by (rewrite E; set_solver).
    apply list_elem_of_filter in Hin as [Hn Hv]. by apply Hall in Hv.
Qed.

Lemma pending_snoc dn v u :
  v ∉ dn -> pending dn u = pending (dn ++ [v]) u + occ v (D u).
Proof.
  intros Hv. unfold pending, occ. induction (D u) as [|x l IH]; [done|].
  rewrite !filter_cons. destruct (decide (x = v)) as [->|Hne].
  - rewrite decide_True by done. rewrite decide_False by set_solver. simpl. lia.
  - destruct (decide (x ∉ dn)).
    + rewrite decide_True by set_solver. simpl. lia.
    + rewrite decide_False by set_solver. lia.
Qed.

Lemma pending_mono dn dn' u : pending dn u = 0 -> pending (dn ++ dn') u = 0.
Proof. rewrite !pending_zero. intros Hz v Hv. apply elem_of_app. auto. Qed.

Definition counts_are (c : string -> nat) (counts : gmap string nat) : Prop :=
  forall u, u ∈ us -> counts !! u = Some (c u).

(** One list of dependents: every count goes down by the number of occurrences,
    and [out] gains the units whose count reaches zero. *)
Lemma release_list c counts out ds :
  counts_are c counts -> (forall u, u ∈ ds -> u ∈ us) -> (forall u, occ u ds <= c u) ->
  exists counts' news, try_fold release_one (counts, out) ds = Ok (counts', out ++ news) /\
    counts_are (fun u => c u - occ u ds) counts' /\
    (forall u, u ∈ news <-> u ∈ ds /\ c u = occ u ds).
Proof.
  revert c counts out. induction ds as [|d ds IH]; intros c counts out Hc Hus Hle; simpl.
  { exists counts, []. rewrite app_nil_r. split_and!; [done| |set_solver].
    intros u Hu. rewrite Hc by done. unfold occ. simpl. f_equal. lia. }
  unfold release_one at 1, decrement_prerequisite_count. simpl. rewrite Hc by set_solver. simpl.
  pose proof (Hle d) as Hd. rewrite occ_cons, decide_True in Hd by done.
  destruct (Nat.eqb_spec (c d) 0); [lia|]. simpl. rewrite lookup_insert_eq. simpl.
  destruct (IH (fun u => if decide (u = d) then c d - 1 else c u) (<[d:=c d - 1]> counts)
    (if (c d - 1 =? 0)%nat then out ++ [d] else out)) as (counts' & news & Hf & Hc' & Hn).
  - intros u Hu. destruct (decide (u = d)) as [->|]; [by rewrite lookup_insert_eq|].
    rewrite lookup_insert_ne by done. by apply Hc.
  - set_solver.
  - intros u. specialize (Hle u). rewrite occ_cons in Hle.
    destruct (decide (u = d)) as [->|]; [lia|]. destruct (decide (d = u)); lia.
  - exists counts', ((if (c d - 1 =? 0)%nat then [d] else []) ++ news). split_and!.
    + rewrite Hf. f_equal. f_equal. destruct (Nat.eqb_spec (c d - 1) 0); [by rewrite <- app_assoc|done].
    + intros u Hu. rewrite Hc' by done. f_equal. rewrite occ_cons.
      destruct (decide (u = d)) as [->|]; [rewrite decide_True by done; lia|].
      rewrite decide_False by done. lia.
    + intros u. rewrite elem_of_app, Hn, elem_of_cons, occ_cons.
      pose proof (occ_pos u ds). specialize (Hle u). rewrite occ_cons in Hle.
      destruct (decide (u = d)) as [->|Hne].
      * rewrite decide_True in * by done. destruct (Nat.eqb_spec (c d - 1) 0).
        -- split; [intros _; split; [by left|]|intros _; left; set_solver]. lia.
        -- split; [|intros [_ ?]; right; split; [apply H|]; lia].
           intros [?%elem_of_nil|[? ?]]; [done|]. split; [by left|]. lia.
      * rewrite decide_False in * by done. destruct (Nat.eqb_spec (c d - 1) 0); set_solver.
Qed.

Context (idx : DependencyIndex.t) (ok : index_ok us D idx).

(** Ordering [v] after [dn]. *)
Lemma release_spec dn counts out v :
  counts_are (pending dn) counts -> v ∈ us -> v ∉ dn ->
  exists counts' news, release idx (counts, out) v = Ok (counts', out ++ news) /\
    counts_are (pending (dn ++ [v])) counts' /\
    (forall u, u ∈ news <-> u ∈ us /\ v ∈ D u /\ pending (dn ++ [v]) u = 0).
Proof.
  intros Hc Hv Hdn. unfold release. destruct (ok_dependents _ _ _ ok v Hv) as (ds & -> & Ho). simpl.
  assert (forall u, u ∈ ds <-> u ∈ us /\ v ∈ D u) as Hds.
  { intros u. rewrite <- (occ_pos u ds), <- (occ_pos v (D u)), Ho. destruct (decide (u ∈ us)); [tauto|]. split; [lia|tauto]. }
  assert (forall u, u ∈ us -> pending dn u = pending (dn ++ [v]) u + occ u ds) as Hp.
  { intros u Hu. rewrite Ho, decide_True by done. by apply pending_snoc. }
  destruct (release_list (pending dn) counts out ds Hc) as (counts' & news & -> & Hc' & Hn).
  - intros u Hu%Hds. tauto.
  - intros u. destruct (decide (u ∈ us)) as [Hu|Hu]; [rewrite Hp by done; lia|].
    rewrite Ho, decide_False by done. lia.
  - exists counts', news. split_and!; [done| |].
    + intros u Hu. rewrite Hc' by done. f_equal. rewrite Hp by done. lia.
    + intros u. rewrite Hn, Hds. split.
      * intros [[Hu Hvu] He]. rewrite Hp in He by done. split_and!; [done|done|lia].
      * intros (Hu & Hvu & He). split; [done|]. rewrite Hp by done. lia.
Qed.

(** ** The sort *)
Record sorting (ready dn : list string) (counts : gmap string nat) : Prop := {
  so_nodup : NoDup dn;
  so_units u : u ∈ dn -> u ∈ us;
  so_counts : counts_are (pending dn) counts;
  so_sorted : StronglySorted String.le ready;
  so_ready u : u ∈ ready <-> (u ∈ us /\ (u ∉ dn) /\ pending dn u = 0);
  so_ready_nodup : NoDup ready;
  so_greedy : greedy dn;
}.

Lemma greedy_snoc dn v :
  greedy dn -> (forall x, x ∈ D v -> x ∈ dn) ->
  (forall y, y ∈ us -> y ∉ dn -> (forall x, x ∈ D y -> x ∈ dn) -> String.le v y) ->
  greedy (dn ++ [v]).
Proof.
  intros Hg Hv Hl pre x post Heq.
  destruct post as [|z post _] using rev_ind.
  - apply app_inj_tail in Heq as [<- <-]. auto.
  - rewrite app_comm_cons, app_assoc in Heq. apply app_inj_tail in Heq as [-> _]. by eapply Hg.
Qed.

Lemma sorting_step v ready dn counts :
  sorting (v :: ready) dn counts ->
  exists st, release idx (counts, ready) v = Ok st /\
    sorting (sort_and_dedup_unit_ids st.2) (dn ++ [v]) st.1.
Proof.
  intros [Hnd Hus Hc Hs Hr Hrn Hg].
  destruct (proj1 (Hr v)) as (Hv & Hvd & Hvz); [by left|].
  destruct (release_spec dn counts ready v Hc Hv Hvd) as (counts' & news & -> & Hc' & Hn).
  eexists. split; [reflexivity|]. simpl. apply NoDup_cons in Hrn as [Hvr Hrn].
  apply StronglySorted_inv in Hs as [Hs Hle].
  split; try done.
  - apply NoDup_app. split_and!; [done|set_solver|apply NoDup_singleton].
  - intros u [Hu|Hu]%elem_of_app; [by apply Hus|]. by apply list_elem_of_singleton in Hu as ->.
  - apply dedup_strings_sorted, sort_strings_sorted.
  - intros u. rewrite elem_of_sorted_unique, elem_of_app, Hn. split.
    + intros [Hu|(Hu & Hvu & Hz)].
      * destruct (proj1 (Hr u)) as (? & ? & ?); [by right|].
        split_and!; [done|set_solver|by apply pending_mono].
      * split_and!; [done| |done]. rewrite elem_of_app, list_elem_of_singleton.
        intros [Hud| ->].
        -- apply list_elem_of_split in Hud as (pre & post & ->).
           destruct (Hg _ _ _ eq_refl) as [Hd _]. apply Hd in Hvu. set_solver.
        -- by apply (proj1 (pending_zero dn v) Hvz) in Hvu.
    + intros (Hu & Hud & Hz). destruct (decide (v ∈ D u)) as [Hvu|Hvu]; [by right|]. left.
      assert (pending dn u = 0) as Hz0.
      { rewrite pending_zero in *. intros x Hx. pose proof (Hz x Hx) as Hx'.
        apply elem_of_app in Hx' as [|Hx']; [done|]. apply list_elem_of_singleton in Hx' as ->. done. }
      assert (u ∈ v :: ready) as Hin by (apply Hr; set_solver).
      apply elem_of_cons in Hin as [->|]; [set_solver|done].
  - apply dedup_strings_nodup, sort_strings_sorted.
  - apply greedy_snoc; [done|by apply pending_zero|]. intros y Hy Hyd Hyz.
    assert (y ∈ v :: ready) as Hin by (apply Hr; rewrite pending_zero; auto).
    apply elem_of_cons in Hin as [->|Hin]; [done|]. by apply (proj1 (Forall_forall _ _) Hle).
Qed.

Lemma nodup_incl_length (l : list string) : NoDup l -> (forall u, u ∈ l -> u ∈ us) -> length l <= length us.
Proof. intros Hn Hi. apply submseteq_length, NoDup_submseteq; auto. Qed.

Lemma sort_loop_total fuel ready dn counts :
  sorting ready dn counts -> length us <= fuel + length dn ->
  exists l counts', sort_loop fuel idx counts ready dn = Ok (Some l) /\ sorting [] l counts'.
Proof.
  revert ready dn counts. induction fuel as [|fuel IH]; intros ready dn counts Hs Hf.
  - destruct ready as [|v ready]; [by exists dn, counts|]. exfalso.
    destruct (sorting_step _ _ _ _ Hs) as (st & _ & Hs').
    pose proof (nodup_incl_length _ (so_nodup _ _ _ Hs') (so_units _ _ _ Hs')) as Hl.
    rewrite length_app in Hl. simpl in Hl. lia.
  - destruct ready as [|v ready]; [by exists dn, counts|]. simpl.
    destruct (sorting_step _ _ _ _ Hs) as (st & -> & Hs'). simpl. apply IH; [done|].
    rewrite length_app. simpl. lia.
Qed.

Lemma sorting_init :
  sorting (zero_prerequisite_units us (prerequisite_counts idx)) [] (prerequisite_counts idx).
Proof.
  assert (forall u, pending [] u = length (D u)) as Hp.
  { intros u. unfold pending. f_equal. induction (D u) as [|x l IH]; [done|].
    rewrite filter_cons, decide_True by set_solver. by rewrite IH. }
  split.
  - constructor.
  - by intros u ?%elem_of_nil.
  - intros u Hu. rewrite Hp. by apply (ok_counts _ _ _ ok).
  - apply sort_strings_sorted.
  - intros u. unfold zero_prerequisite_units. rewrite elem_of_sort_strings, list_elem_of_filter, Hp. split.
    + intros [Hz Hu]. rewrite (ok_counts _ _ _ ok u Hu) in Hz. by set_solver.
    + intros (Hu & _ & Hz). by rewrite (ok_counts _ _ _ ok u Hu).
  - unfold zero_prerequisite_units. rewrite sort_strings_perm. apply NoDup_filter, (ok_nodup _ _ _ ok).
  - intros pre x post Heq. by destruct pre.
Qed.

(** ** Orders and cycles *)
Lemma greedy_before l : greedy l -> forall a b, tc dep a b ->
  forall pre post, l = pre ++ a :: post -> b ∈ pre.
Proof.
  intros Hg a b Hab. induction Hab as [a b [_ Hb]|a c b [_ Hc] _ IH]; intros pre post Heq.
  - by apply (Hg _ _ _ Heq).
  - apply (Hg _ _ _ Heq) in Hc. apply list_elem_of_split in Hc as (p1 & p2 & ->).
    rewrite <- app_assoc in Heq. apply IH in Heq. set_solver.
Qed.

Lemma greedy_acyclic l : greedy l -> NoDup l -> (forall u, u ∈ us -> u ∈ l) -> acyclic.
Proof.
  intros Hg Hn Hall x Hx.
  assert (x ∈ us) as Hu by (by inversion Hx as [? ? []|? ? ? []]).
  apply Hall in Hu. apply list_elem_of_split in Hu as (pre & post & ->).
  pose proof (greedy_before _ Hg x x Hx pre post eq_refl) as Hp.
  apply NoDup_app in Hn as (_ & Hd & _). apply (Hd x Hp). by left.
Qed.

(** Without cycles the dependencies of a unit are well founded. *)
Lemma acyclic_wf : acyclic -> forall u, Acc (flip dep) u.
Proof.
  intros Ha u. apply tc_finite_sn; [exact Ha|]. exists us. intros y Hy.
  assert (forall a b, dep a b -> b ∈ us) as Hc by (intros a b []; by eapply (ok_closed _ _ _ ok)).
  clear Ha. induction Hy as [a b Hab|a b c _ _ IH]; [by eapply Hc|done].
Qed.

Lemma stuck_means_cycle (l : list string) : acyclic ->
  (forall u, u ∈ us -> u ∉ l -> exists v, v ∈ D u /\ (v ∉ l)) -> forall u, u ∈ us -> u ∈ l.
Proof.
  intros Ha Hs u. induction (acyclic_wf Ha u) as [u _ IH]. intros Hu.
  destruct (decide (u ∈ l)) as [|Hn]; [done|]. destruct (Hs u Hu Hn) as (v & Hv & Hvn).
  exfalso. apply Hvn. apply IH; [by split|]. by eapply (ok_closed _ _ _ ok).
Qed.

Lemma pending_stuck l u : pending l u <> 0 -> exists v, v ∈ D u /\ (v ∉ l).
Proof.
  intros Hz. unfold pending in Hz. destruct (filter _ _) as [|v k] eqn:E; [done|]. exists v.
  assert (v ∈ filter (fun v => v ∉ l) (D u)) as [? ?]%list_elem_of_filter by (rewrite E; set_solver).
  done.
Qed.

Lemma all_visited_length (l : list string) :
  NoDup l -> (forall u, u ∈ l -> u ∈ us) -> (length l = length us <-> forall u, u ∈ us -> u ∈ l).
Proof.
  intros Hn Hi. pose proof (ok_nodup _ _ _ ok) as Hus. split.
  - intros Hl u Hu. assert (l ⊆+ us) as Hsub by (by apply NoDup_submseteq).
    assert (l ≡ₚ us) as ->; [|done]. apply submseteq_length_Permutation; [done|lia].
  - intros Ha. apply Nat.le_antisymm; [by apply nodup_incl_length|].
    apply submseteq_length, NoDup_submseteq; auto.
Qed.

(** The sort loop from the start: it ends within the fuel, and it visits every
    unit exactly when there is no cycle. *)
Lemma sort_loop_exact :
  exists l, sort_loop (length (units idx)) idx (prerequisite_counts idx)
    (zero_prerequisite_units (units idx) (prerequisite_counts idx)) [] = Ok (Some l) /\
    NoDup l /\ (forall u, u ∈ l -> u ∈ us) /\ greedy l /\
    (acyclic <-> length l = length us).
Proof.
  rewrite (ok_units _ _ _ ok).
  destruct (sort_loop_total (length us) _ [] _ sorting_init) as (l & counts & Hl & Hs); [simpl; lia|].
  exists l. destruct Hs as [Hn Hu _ _ Hr _ Hg]. split_and!; [done..|].
  rewrite all_visited_length by done. split.
  - intros Ha u Hu'. apply stuck_means_cycle; [done| |done]. intros x Hx Hxl. apply pending_stuck.
    intros Hz. by apply (elem_of_nil x), Hr.
  - intros Hall. by eapply greedy_acyclic.
Qed.

(** There is one such order. *)
Lemma greedy_unique l l' :
  greedy l -> greedy l' -> NoDup l -> NoDup l' -> (forall u, u ∈ l -> u ∈ us) ->
  (forall u, u ∈ l' -> u ∈ us) -> length l = length l' -> l = l'.
Proof.
  intros Hg Hg' Hn Hn' Hu Hu' Hlen.
  assert (forall pre r r', l = pre ++ r -> l' = pre ++ r' -> r = r') as Hp; [|by apply (Hp [])].
  intros pre r. revert pre. induction r as [|x r IH]; intros pre r' Hr Hr'.
  { subst. rewrite !length_app in Hlen. destruct r'; [done|simpl in Hlen; lia]. }
  destruct r' as [|y r']; [subst; rewrite !length_app in Hlen; simpl in Hlen; lia|].
  destruct (Hg _ _ _ Hr) as [Hx Hxl]. destruct (Hg' _ _ _ Hr') as [Hy Hyl].
  assert (x ∉ pre) as Hxp by (intros ?; rewrite Hr in Hn; apply NoDup_app in Hn; set_solver).
  assert (y ∉ pre) as Hyp by (intros ?; rewrite Hr' in Hn'; apply NoDup_app in Hn'; set_solver).
  assert (x = y) as ->.
  { apply (anti_symm String.le); [apply Hxl|apply Hyl]; auto.
    - apply Hu'. rewrite Hr'. set_solver.
    - apply Hu. rewrite Hr. set_solver. }
  f_equal. apply (IH (pre ++ [y])); by rewrite <- app_assoc.
Qed.

(** ** The partition *)
Lemma release_all dn batch counts out :
  counts_are (pending dn) counts -> (forall v, v ∈ batch -> v ∈ us) -> NoDup (dn ++ batch) ->
  exists counts' news, try_fold (release idx) (counts, out) batch = Ok (counts', out ++ news) /\
    counts_are (pending (dn ++ batch)) counts' /\
    (forall u, u ∈ news <->
       (u ∈ us /\ (exists v, v ∈ batch /\ v ∈ D u) /\ pending (dn ++ batch) u = 0)).
Proof.
  revert dn counts out. induction batch as [|v batch IH]; intros dn counts out Hc Hus Hn; simpl.
  - exists counts, []. rewrite !app_nil_r. split_and!; [done|done|set_solver].
  - assert (v ∉ dn) as Hvd by (apply NoDup_app in Hn as (_ & Hd & _); intros Hv; apply (Hd v Hv); by left).
    destruct (release_spec dn counts out v Hc) as (c1 & news1 & -> & Hc1 & Hn1); [set_solver|done|].
    simpl. destruct (IH (dn ++ [v]) c1 (out ++ news1) Hc1) as (c2 & news2 & Hf & Hc2 & Hn2).
    { set_solver. }
    { by rewrite <- app_assoc. }
    rewrite <- app_assoc in Hc2, Hn2. simpl in Hc2, Hn2.
    exists c2, (news1 ++ news2). rewrite app_assoc. split_and!; [done|done|]. intros u.
    rewrite elem_of_app, Hn1, Hn2. split.
    + intros [(Hu & Hv & Hz)|(Hu & (x & Hx & Hxu) & Hz)]; (split_and!; [done| |]).
      * exists v. set_solver.
      * apply (pending_mono _ batch) in Hz. by rewrite <- app_assoc in Hz.
      * exists x. set_solver.
      * done.
    + intros (Hu & (x & Hx & Hxu) & Hz).
      destruct (decide (Exists (fun y => y ∈ D u) batch)) as [He|He].
      * right. apply Exists_exists in He as (y & ? & ?). by split_and!; [|exists y|].
      * left. assert (x = v) as ->.
        { apply elem_of_cons in Hx as [->|Hx]; [done|]. exfalso. apply He, Exists_exists. eauto. }
        split_and!; [done|done|]. rewrite pending_zero in *. intros y Hy. specialize (Hz y Hy).
        assert (y ∉ batch) by (intros Hb; apply He, Exists_exists; eauto). set_solver.
Qed.

Record batching (ready : list string) (bs : list (list string)) (counts : gmap string nat)
    : Prop := {
  ba_nodup : NoDup (concat bs);
  ba_units u : u ∈ concat bs -> u ∈ us;
  ba_counts : counts_are (pending (concat bs)) counts;
  ba_sorted : StronglySorted String.le ready;
  ba_ready u : u ∈ ready <-> (u ∈ us /\ (u ∉ concat bs) /\ pending (concat bs) u = 0);
  ba_ready_nodup : NoDup ready;
  ba_layered : layered bs;
}.

Lemma layered_closed bs u v : layered bs -> u ∈ concat bs -> v ∈ D u -> v ∈ concat bs.
Proof.
  intros Hl Hu Hv. apply list_elem_of_In, in_concat in Hu as (b & Hb & Hub).
  apply list_elem_of_In in Hb, Hub. apply list_elem_of_split in Hb as (pre & post & ->).
  destruct (Hl _ _ _ eq_refl) as (_ & _ & _ & He). apply He in Hub as (_ & _ & Hd).
  rewrite concat_app. apply elem_of_app. left. by apply Hd.
Qed.

Lemma batching_step ready bs counts :
  ready <> [] -> batching ready bs counts ->
  exists st, try_fold (release idx) (counts, []) ready = Ok st /\
    batching (sort_and_dedup_unit_ids st.2) (bs ++ [ready]) st.1.
Proof.
  intros Hne [Hnd Hus Hc Hs Hr Hrn Hl].
  assert (NoDup (concat bs ++ ready)) as Hnd'.
  { apply NoDup_app. split_and!; [done| |done]. intros u Hu Hu'. by apply Hr in Hu' as (_ & ? & _). }
  assert (forall u, u ∈ ready -> u ∈ us) as Hrus by (intros u Hu; apply Hr in Hu; tauto).
  destruct (release_all (concat bs) ready counts [] Hc Hrus Hnd') as (c1 & news & -> & Hc1 & Hn).
  eexists. split; [reflexivity|]. simpl.
  assert (concat (bs ++ [ready]) = concat bs ++ ready) as Hcat
    by (rewrite concat_app; simpl; by rewrite app_nil_r).
  split; rewrite ?Hcat; try done.
  - intros u [Hu|Hu]%elem_of_app; auto.
  - apply dedup_strings_sorted, sort_strings_sorted.
  - intros u. rewrite elem_of_sorted_unique, Hn. split.
    + intros (Hu & (v & Hv & Hvu) & Hz). split_and!; [done| |done]. intros Hud.
      apply Hr in Hv as (_ & Hvd & _). apply Hvd. apply elem_of_app in Hud as [Hud|Hud].
      * by eapply layered_closed.
      * apply Hr in Hud as (_ & _ & Hz'). by apply (proj1 (pending_zero _ _) Hz').
    + intros (Hu & Hud & Hz). split_and!; [done| |done].
      destruct (decide (Exists (fun v => v ∈ D u) ready)) as [He|He];
        [by apply Exists_exists in He|]. exfalso. apply Hud, elem_of_app. right. apply Hr.
      split_and!; [done|set_solver|]. rewrite pending_zero in *. intros v Hv.
      specialize (Hz v Hv). apply elem_of_app in Hz as [|Hvr]; [done|].
      exfalso. apply He, Exists_exists. eauto.
  - apply dedup_strings_nodup, sort_strings_sorted.
  - intros pre b post Heq. destruct post as [|z post _] using rev_ind.
    + apply app_inj_tail in Heq as [<- <-]. split_and!; [done..|]. intros u.
      by rewrite Hr, pending_zero.
    + rewrite app_comm_cons, app_assoc in Heq. apply app_inj_tail in Heq as [-> _]. by eapply Hl.
Qed.

Lemma batch_loop_total fuel ready bs counts :
  batching ready bs counts -> length us <= fuel + length (concat bs) ->
  exists l counts', batch_loop fuel idx counts ready bs (concat bs) = Ok (Some (l, concat l)) /\
    batching [] l counts'.
Proof.
  revert ready bs counts. induction fuel as [|fuel IH]; intros ready bs counts Hs Hf;
    (destruct ready as [|v ready]; [by exists bs, counts|]);
    destruct (batching_step (v :: ready) bs counts) as (st & Hst & Hs'); try done;
    assert (concat (bs ++ [v :: ready]) = concat bs ++ v :: ready) as Hcat
      by (rewrite concat_app; simpl; by rewrite app_nil_r).
  - exfalso. pose proof (nodup_incl_length _ (ba_nodup _ _ _ Hs') (ba_units _ _ _ Hs')) as Hl.
    rewrite Hcat, length_app in Hl. simpl in Hl. lia.
  - cbn [batch_loop]. rewrite Hst. cbn [result_bind]. rewrite <- Hcat. apply IH; [done|].
    rewrite Hcat, length_app. simpl. lia.
Qed.

Lemma batching_init :
  batching (zero_prerequisite_units us (prerequisite_counts idx)) [] (prerequisite_counts idx).
Proof.
  destruct sorting_init as [H1 H2 H3 H4 H5 H6 H7]. split; try done.
  intros pre b post Heq. by destruct pre.
Qed.

Lemma batch_loop_exact :
  exists bs, batch_loop (length (units idx)) idx (prerequisite_counts idx)
    (zero_prerequisite_units (units idx) (prerequisite_counts idx)) [] [] = Ok (Some (bs, concat bs)) /\
    NoDup (concat bs) /\ (forall u, u ∈ concat bs -> u ∈ us) /\ layered bs /\
    (acyclic <-> length (concat bs) = length us).
Proof.
  rewrite (ok_units _ _ _ ok).
  destruct (batch_loop_total (length us) _ [] _ batching_init) as (l & counts & Hl & Hs); [simpl; lia|].
  exists l. destruct Hs as [Hn Hu _ _ Hr _ Hg]. split_and!; [done..|].
  rewrite all_visited_length by done. split.
  - intros Ha u Hu'. apply stuck_means_cycle; [done| |done]. intros x Hx Hxl. apply pending_stuck.
    intros Hz. by apply (elem_of_nil x), Hr.
  - intros Hall x Hx.
    assert (forall a b, tc dep a b -> forall pre b' post, l = pre ++ b' :: post -> a ∈ b' ->
              b ∈ concat pre) as Hbef.
    { intros a b Hab. induction Hab as [a b [_ Hb]|a c b [_ Hc] _ IH]; intros pre b' post Heq Ha.
      - destruct (Hg _ _ _ Heq) as (_ & _ & _ & He). apply He in Ha as (_ & _ & Hd). auto.
      - destruct (Hg _ _ _ Heq) as (_ & _ & _ & He). apply He in Ha as (_ & _ & Hd).
        apply Hd in Hc. apply list_elem_of_In, in_concat in Hc as (bc & Hbc & Hcb).
        apply list_elem_of_In in Hbc, Hcb. apply list_elem_of_split in Hbc as (p1 & p2 & ->).
        rewrite <- app_assoc in Heq. simpl in Heq. rewrite concat_app. apply elem_of_app. left.
        by eapply IH. }
    assert (x ∈ us) as Hu' by (by inversion Hx as [? ? []|? ? ? []]).
    apply Hall in Hu'. apply list_elem_of_In, in_concat in Hu' as (b & Hb & Hxb).
    apply list_elem_of_In in Hb, Hxb. apply list_elem_of_split in Hb as (pre & post & ->).
    pose proof (Hbef x x Hx pre b post eq_refl Hxb) as Hp.
    destruct (Hg _ _ _ eq_refl) as (_ & _ & _ & He). by apply He in Hxb as (_ & ? & _).
Qed.
End Kahn.
End KahnSound.
