(* ===== verification/SgrTarjan.v ===== *)
(** * Service graph runtime: the search for cycles is correct

    Tarjan's algorithm as [detect_cycles_in_index] runs it, with an explicit
    stack of frames, on the index of a dependency function: it never reaches one
    of its internal errors, needs no more rounds than there are units and edges,
    and returns exactly the strongly connected components that contain a cycle,
    each after the components it depends on. *)
From stdpp Require Import sorting.
From S2P Require Import Prelude Collections Json Ids Records Redaction Receipt ChainSound StateError SgrTypes SgrGraph SgrEval SgrKahn.

Module TarjanSound.
Import DependencyIndex GraphEvaluator Tarjan SgrIndex KahnSound.

Section Tarjan.
Context (us : list string) (D : string -> list string).
Context (idx : DependencyIndex.t) (ok : index_ok us D idx).

Abbreviation R := (dep us D).
Definition adj (u : string) : list string := default [] (adjacency idx !! u).

Lemma adj_spec u : u ∈ us -> adjacency idx !! u = Some (adj u) /\ forall v, v ∈ adj u <-> R u v.
Proof.
  intros Hu. destruct (ok_adjacency _ _ _ ok u Hu) as (l & Hl & Hp). unfold adj. rewrite Hl.
  split; [done|]. intros v. simpl. rewrite Hp. unfold dep. tauto.
Qed.

Lemma adj_units u v : u ∈ us -> v ∈ adj u -> v ∈ us.
Proof. intros Hu Hv. apply (adj_spec u Hu) in Hv as [_ Hv]. by eapply (ok_closed _ _ _ ok). Qed.

(** ** The invariant of the search *)
Definition visited (st : Tarjan.t) (x : string) : Prop := is_Some (indexes st !! x).
Definition ix (st : Tarjan.t) (x : string) : nat := default 0 (indexes st !! x).
Definition low (st : Tarjan.t) (x : string) : nat := default 0 (lowlinks st !! x).

(** [y] is a neighbour of [x] that the search has looked at: any neighbour once
    [x] has no frame, those before its position while it has one. *)
Definition seen (F : list TarjanFrame) (x y : string) : Prop :=
  y ∈ adj x /\ forall k, (x, k) ∈ F -> y ∈ take k (adj x).

Definition above (st : Tarjan.t) (a b : string) : Prop := ix st b < ix st a.

(** A component: a maximal set of mutually reachable units. *)
Definition is_scc (c : list string) : Prop :=
  c <> [] /\ NoDup c /\ StronglySorted String.le c /\
  forall x, x ∈ c -> forall y, y ∈ c <-> rtc R x y /\ rtc R y x.

(** Each component comes after those it depends on. *)
Definition depends_on_earlier (cs : list (list string)) : Prop :=
  forall pre c post, cs = pre ++ c :: post ->
  forall x y, x ∈ c -> y ∈ adj x -> y ∈ concat (pre ++ [c]).

Record inv (st : Tarjan.t) (F : list TarjanFrame) : Prop := {
  v_dom x : is_Some (lowlinks st !! x) <-> visited st x;
  v_units x : visited st x -> x ∈ us;
  v_lt x : visited st x -> ix st x < next_index st;
  v_stack : StronglySorted (above st) (component_stack st);
  v_on x : x ∈ on_stack st <-> x ∈ component_stack st;
  v_vis x : visited st x <-> x ∈ component_stack st \/ x ∈ concat (components st);
  v_disj x : x ∈ component_stack st -> x ∉ concat (components st);
  v_frames : StronglySorted (above st) F.*1;
  v_fstack f : f ∈ F.*1 -> f ∈ component_stack st;
  v_pos f k : (f, k) ∈ F -> k <= length (adj f);
  v_seen x y : x ∈ component_stack st -> seen F x y ->
    visited st y /\ (y ∈ component_stack st -> low st x <= ix st y);
  v_reach f x : f ∈ F.*1 -> x ∈ component_stack st -> ix st f <= ix st x -> rtc R f x;
  v_low x : x ∈ component_stack st -> exists y, y ∈ component_stack st /\
    ix st y = low st x /\ low st x <= ix st x /\ rtc R x y;
  v_fin x : x ∈ component_stack st -> x ∉ F.*1 ->
    low st x < ix st x /\
    (forall f, f ∈ F.*1 -> ix st f <= ix st x ->
       (forall g, g ∈ F.*1 -> ix st g <= ix st x -> ix st g <= ix st f) -> low st f <= low st x);
  v_order : depends_on_earlier (components st);
  v_nodup : NoDup (concat (components st));
  v_sccs : Forall is_scc (components st);
}.

Lemma closed_order cs x y :
  depends_on_earlier cs -> x ∈ concat cs -> y ∈ adj x -> y ∈ concat cs.
Proof.
  intros Ho Hx Hy. apply list_elem_of_In, in_concat in Hx as (c & Hc & Hxc).
  apply list_elem_of_In in Hc, Hxc. apply list_elem_of_split in Hc as (pre & post & ->).
  pose proof (Ho pre c post eq_refl x y Hxc Hy) as Hin.
  rewrite cons_middle, app_assoc, concat_app. apply elem_of_app. by left.
Qed.

Lemma sorted_head_max st f l x : StronglySorted (above st) (f :: l) -> x ∈ f :: l -> ix st x <= ix st f.
Proof.
  intros [_ Hf]%StronglySorted_inv [->|Hx]%elem_of_cons; [done|].
  apply (proj1 (Forall_forall _ _) Hf) in Hx. unfold above in Hx. lia.
Qed.

Lemma above_nodup st l : StronglySorted (above st) l -> NoDup l.
Proof.
  induction 1 as [|x l _ IH Hx]; constructor; [|done]. intros Hin.
  apply (proj1 (Forall_forall _ _) Hx) in Hin. unfold above in Hin. lia.
Qed.

(** Every stacked node reaches a frame at or below it: the low link of a
    finished node leads strictly down. *)
Lemma descent st F x : inv st F -> x ∈ component_stack st ->
  exists g, g ∈ F.*1 /\ ix st g <= ix st x /\ rtc R x g.
Proof.
  intros I. remember (ix st x) as n eqn:Hn. revert x Hn.
  induction (lt_wf n) as [n _ IH]. intros x -> Hx.
  destruct (decide (x ∈ F.*1)) as [Hf|Hf]; [by exists x|].
  destruct (v_fin _ _ I x Hx Hf) as [Hlt _].
  destruct (v_low _ _ I x Hx) as (y & Hy & Hyl & _ & Hxy).
  destruct (IH (ix st y)) with (x := y) as (g & Hg & Hgy & Hyg); [lia|done|done|].
  exists g. split_and!; [done|lia|by etrans].
Qed.

Lemma inv_init : inv Tarjan.init [].
Proof.
  assert (forall x, ~ visited Tarjan.init x) as Hv
    by (intros x [? Hx]; unfold Tarjan.init in Hx; simpl in Hx; by rewrite lookup_empty in Hx).
  split; simpl.
  - intros x. rewrite lookup_empty. split; [by intros [? ?]|by intros ?%Hv].
  - by intros x ?%Hv.
  - by intros x ?%Hv.
  - constructor.
  - set_solver.
  - intros x. split; [by intros ?%Hv|set_solver].
  - by intros x ?%elem_of_nil.
  - constructor.
  - by intros f ?%elem_of_nil.
  - by intros f k ?%elem_of_nil.
  - by intros x y ?%elem_of_nil.
  - by intros f x ?%elem_of_nil.
  - by intros x ?%elem_of_nil.
  - by intros x ?%elem_of_nil.
  - intros pre c post Heq. by destruct pre.
  - constructor.
  - constructor.
Qed.

(** ** The steps *)

(** A frame moves past a neighbour. *)
Lemma inv_advance st F1 F2 f k nb :
  inv st (F1 ++ (f, k) :: F2) -> adj f !! k = Some nb -> visited st nb ->
  (nb ∈ component_stack st -> low st f <= ix st nb) -> inv st (F1 ++ (f, S k) :: F2).
Proof.
  intros I Hk Hv Hl.
  assert (forall k', (F1 ++ (f, k') :: F2).*1 = F1.*1 ++ f :: F2.*1) as Hn
    by (intros; by rewrite fmap_app).
  assert ((F1 ++ (f, S k) :: F2).*1 = (F1 ++ (f, k) :: F2).*1) as HF by (by rewrite !Hn).
  destruct I as [? ? ? ? ? ? ? Hfr ? Hp Hs ? ? ? ? ? ?]. split; rewrite ?HF; try done.
  - intros g j Hin. apply elem_of_app in Hin as [Hin|[[= -> ->]|Hin]%elem_of_cons].
    + apply Hp. set_solver.
    + apply lookup_lt_Some in Hk. lia.
    + apply Hp. set_solver.
  - intros x y Hx [Hy Hyk]. destruct (decide (x = f)) as [->|Hne].
    + specialize (Hyk (S k) ltac:(set_solver)). rewrite (take_S_r _ _ _ Hk) in Hyk.
      apply elem_of_app in Hyk as [Hyk|Hyk].
      * apply Hs; [done|]. split; [done|]. intros j Hj.
        assert (j = k) as ->; [|done].
        apply above_nodup in Hfr. rewrite Hn in Hfr.
        apply NoDup_app in Hfr as (_ & Hd & Hn2). apply NoDup_cons in Hn2 as [Hf2 _].
        apply elem_of_app in Hj as [Hj|[[= ->]|Hj]%elem_of_cons]; [|done|].
        -- exfalso. apply (Hd f); [by apply list_elem_of_fmap; exists (f, j)|by left].
        -- exfalso. apply Hf2. by apply list_elem_of_fmap; exists (f, j).
      * apply list_elem_of_singleton in Hyk as ->. auto.
    + apply Hs; [done|]. split; [done|]. intros j Hj. apply Hyk.
      apply elem_of_app in Hj as [Hj|[[= -> _]|Hj]%elem_of_cons]; [set_solver|done|set_solver].
Qed.

Lemma push_ix st nb x : ix (push_tarjan_node nb st) x = if decide (x = nb) then next_index st else ix st x.
Proof.
  unfold ix, push_tarjan_node. simpl. destruct (decide (x = nb)) as [->|Hne];
    [by rewrite lookup_insert_eq|by rewrite lookup_insert_ne].
Qed.
Lemma push_low st nb x : low (push_tarjan_node nb st) x = if decide (x = nb) then next_index st else low st x.
Proof.
  unfold low, push_tarjan_node. simpl. destruct (decide (x = nb)) as [->|Hne];
    [by rewrite lookup_insert_eq|by rewrite lookup_insert_ne].
Qed.
Lemma push_visited st nb x : visited (push_tarjan_node nb st) x <-> x = nb \/ visited st x.
Proof. unfold visited, push_tarjan_node. simpl. rewrite lookup_insert_is_Some'. naive_solver. Qed.

Lemma sorted_above_ext st st' l :
  (forall x, x ∈ l -> ix st' x = ix st x) -> StronglySorted (above st) l ->
  StronglySorted (above st') l.
Proof.
  intros He Hs. induction Hs as [|x l Hs IH Hx]; [constructor|]. constructor.
  - apply IH. intros y Hy. apply He. by right.
  - apply Forall_forall. intros y Hy. apply (proj1 (Forall_forall _ _) Hx) in Hy as Hxy.
    unfold above in *. rewrite !He; [done|by left|by right].
Qed.

Lemma stack_visited st F x : inv st F -> x ∈ component_stack st -> visited st x.
Proof. intros I Hx. apply (v_vis _ _ I). by left. Qed.

Lemma inv_push st F nb :
  inv st F -> nb ∈ us -> ~ visited st nb -> (forall f, head F.*1 = Some f -> R f nb) ->
  inv (push_tarjan_node nb st) ((nb, 0) :: F).
Proof.
  intros I Hnb Hnv Hh.
  assert (forall x, x ∈ component_stack st -> x <> nb) as Hne
    by (intros x Hx ->; by apply Hnv, (stack_visited _ _ _ I)).
  assert (forall x, x ∈ component_stack st -> ix (push_tarjan_node nb st) x = ix st x) as Hix
    by (intros x Hx; rewrite push_ix, decide_False; auto).
  assert (forall x, x ∈ component_stack st -> low (push_tarjan_node nb st) x = low st x) as Hlow
    by (intros x Hx; rewrite push_low, decide_False; auto).
  assert (ix (push_tarjan_node nb st) nb = next_index st) as Hixn by (by rewrite push_ix, decide_True).
  assert (low (push_tarjan_node nb st) nb = next_index st) as Hlown
    by (by rewrite push_low, decide_True).
  assert (forall x, x ∈ component_stack st -> ix st x < next_index st) as Hlt
    by (intros x Hx; by apply (v_lt _ _ I), (stack_visited _ _ _ I)).
  assert (forall f, f ∈ F.*1 -> rtc R f nb) as Hreach.
  { intros f Hf. destruct F.*1 as [|h l] eqn:E; [by apply elem_of_nil in Hf|].
    assert (rtc R f h) as Hfh.
    { apply (v_reach _ _ I); [by rewrite E|apply (v_fstack _ _ I); rewrite E; by left|].
      apply (sorted_head_max st h l); [|done]. rewrite <- E. apply (v_frames _ _ I). }
    eapply rtc_r; [exact Hfh|]. by apply Hh. }
  pose proof (v_fstack _ _ I) as Hfs.
  split.
  - intros x. rewrite push_visited, <- (v_dom _ _ I x). unfold push_tarjan_node. simpl.
    rewrite lookup_insert_is_Some'. naive_solver.
  - intros x [->|Hx]%push_visited; [done|by apply (v_units _ _ I)].
  - intros x Hx. rewrite push_ix. simpl. destruct (decide (x = nb)); [lia|].
    apply push_visited in Hx as [->|Hx]; [done|]. pose proof (v_lt _ _ I x Hx). lia.
  - simpl. constructor; [by eapply sorted_above_ext, (v_stack _ _ I)|]. apply Forall_forall.
    intros x Hx. unfold above. rewrite Hixn, Hix by done. by apply Hlt.
  - intros x. simpl. rewrite elem_of_union, elem_of_singleton, elem_of_cons, (v_on _ _ I x). done.
  - intros x. rewrite push_visited, (v_vis _ _ I x). simpl. rewrite elem_of_cons. tauto.
  - intros x. simpl. intros [->|Hx]%elem_of_cons; [|by apply (v_disj _ _ I)].
    intros Hc. apply Hnv, (v_vis _ _ I). by right.
  - simpl. constructor; [eapply sorted_above_ext, (v_frames _ _ I); auto|].
    apply Forall_forall. intros x Hx. unfold above. rewrite Hixn, Hix by auto. auto.
  - intros f. simpl. intros [->|Hf]%elem_of_cons; [by left|right; auto].
  - intros f k [[= -> ->]|Hf]%elem_of_cons; [lia|by apply (v_pos _ _ I)].
  - intros x y. simpl. intros [->|Hx]%elem_of_cons [Hy Hyk].
    { specialize (Hyk 0 ltac:(by left)). by apply elem_of_nil in Hyk. }
    destruct (v_seen _ _ I x y Hx) as [Hv Hl]; [split; [done|]; intros k Hk; apply Hyk; by right|].
    split; [apply push_visited; by right|]. intros [->|Hys]%elem_of_cons; [done|].
    rewrite Hlow, Hix by done. auto.
  - intros f x. simpl. intros [->|Hf]%elem_of_cons [->|Hx]%elem_of_cons; [done| |auto|].
    + rewrite Hixn, Hix by done. intros Hle. specialize (Hlt x Hx). lia.
    + rewrite !Hix by auto. by apply (v_reach _ _ I).
  - intros x. simpl. intros [->|Hx]%elem_of_cons.
    { exists nb. rewrite Hixn, Hlown. split_and!; [by left|done|done|done]. }
    destruct (v_low _ _ I x Hx) as (y & Hy & He & Hl & Hxy). exists y.
    rewrite Hlow, !Hix by done. split_and!; [by right|done..].
  - intros x. simpl. intros [->|Hx]%elem_of_cons Hnf; [exfalso; apply Hnf; by left|].
    destruct (v_fin _ _ I x Hx) as [Hl Hf]; [intros ?; apply Hnf; by right|].
    rewrite Hlow, Hix by done. split; [done|]. intros f [->|Hff]%elem_of_cons Hle Htop.
    { rewrite Hixn in Hle. specialize (Hlt x Hx). lia. }
    rewrite Hix in * by auto. rewrite Hlow by auto. apply Hf; [done|done|]. intros g Hg Hgl.
    specialize (Htop g). rewrite Hix in Htop by auto. apply Htop; [by right|done].
  - apply (v_order _ _ I).
  - apply (v_nodup _ _ I).
  - apply (v_sccs _ _ I).
Qed.

(** Lowering the link of a frame to the index of a stacked node it reaches. *)
Lemma inv_lower st F f y :
  inv st F -> f ∈ F.*1 -> y ∈ component_stack st -> rtc R f y ->
  exists ll, let st' := set_lowlinks ll st in
    lower_lowlink f (ix st y) st = Ok st' /\ inv st' F /\ low st' f <= ix st y /\
    (forall x, x <> f -> low st' x = low st x).
Proof.
  intros I Hf Hy Hfy. pose proof (v_fstack _ _ I f Hf) as Hfs.
  destruct (proj2 (v_dom _ _ I f) (stack_visited _ _ _ I Hfs)) as [l Hl].
  assert (low st f = l) as Hlf by (unfold low; by rewrite Hl).
  unfold lower_lowlink. rewrite Hl. simpl. destruct (Nat.ltb_spec (ix st y) l) as [Hlt|Hge]; cycle 1.
  { exists (lowlinks st). assert (set_lowlinks (lowlinks st) st = st) as -> by (by destruct st).
    rewrite Hlf. by split_and!. }
  eexists. split; [reflexivity|]. set (st' := set_lowlinks _ st).
  assert (low st' f = ix st y) as Hf' by (unfold low, st'; simpl; by rewrite lookup_insert_eq).
  assert (forall x, x <> f -> low st' x = low st x) as Ho
    by (intros x Hx; unfold low, st'; simpl; by rewrite lookup_insert_ne).
  assert (forall x, low st' x <= low st x) as Hle
    by (intros x; destruct (decide (x = f)) as [->|?]; [lia|rewrite Ho by done; lia]).
  split_and!; [|lia|done].
  destruct I as [Hd Hu Hlt' Hs Hon Hvi Hdi Hfr Hfst Hp Hse Hre Hlo Hfi Hor Hnd Hsc]. split; try done.
  - intros x. change (visited st' x) with (visited st x). rewrite <- Hd. unfold st'. simpl.
    rewrite lookup_insert_is_Some'. split; [intros [<-|?]; [by eexists|done]|by right].
  - intros x z Hx Hz. destruct (Hse x z Hx Hz) as [Hv Hz']. split; [done|]. intros Hzs.
    specialize (Hle x). specialize (Hz' Hzs). change (ix st' z) with (ix st z). lia.
  - intros x Hx. destruct (decide (x = f)) as [->|Hne].
    + exists y. change (ix st') with (ix st). rewrite Hf'.
      destruct (Hlo f Hfs) as (? & _ & _ & ? & _). split_and!; [done|done|lia|done].
    + rewrite Ho by done. by apply Hlo.
  - intros x Hx Hnf. destruct (Hfi x Hx Hnf) as [Hl1 Hl2].
    assert (x <> f) by (by intros ->). rewrite Ho by done. split; [done|].
    intros g Hg Hgx Htop. specialize (Hl2 g Hg Hgx Htop). specialize (Hle g). lia.
Qed.

Lemma top_is_head st F h p :
  StronglySorted (above st) F -> head F = Some h -> p ∈ F -> ix st h <= ix st p -> p = h.
Proof.
  intros Hs Hh Hp Hle. destruct F as [|h' F]; [done|]. injection Hh as ->.
  apply elem_of_cons in Hp as [->|Hp]; [done|]. apply StronglySorted_inv in Hs as [_ Hs].
  apply (proj1 (Forall_forall _ _) Hs) in Hp. unfold above in Hp. lia.
Qed.

(** A finished frame that is not the root of a component is dropped. *)
Lemma inv_drop st F f :
  inv st ((f, length (adj f)) :: F) -> low st f <> ix st f ->
  (forall p, head F.*1 = Some p -> low st p <= low st f) -> inv st F.
Proof.
  intros I Hne Hp. pose proof (v_frames _ _ I) as Hfr. rewrite fmap_cons in Hfr.
  apply StronglySorted_inv in Hfr as [Hs Hmax]. change (Forall (above st f) F.*1) in Hmax.
  assert (f ∈ component_stack st) as Hfs by (apply (v_fstack _ _ I); by left).
  destruct (v_low _ _ I f Hfs) as (_ & _ & _ & Hlf & _).
  assert (forall p, p ∈ F.*1 -> forall x, ix st f <= ix st x ->
    (forall g, g ∈ F.*1 -> ix st g <= ix st x -> ix st g <= ix st p) -> low st p <= low st f) as Htop.
  { intros p HpF x Hx Hg. destruct (F.*1) as [|h l] eqn:E; [by apply elem_of_nil in HpF|].
    assert (ix st h < ix st f) by (by inversion_clear Hmax).
    assert (p = h) as ->; [|by apply Hp].
    eapply top_is_head; [exact Hs|done|done|]. apply Hg; [by left|lia]. }
  destruct I as [Hd Hu Hlt Hst Hon Hvi Hdi _ Hfst Hpo Hse Hre Hlo Hfi Hor Hnd Hsc].
  split; try done.
  - intros g Hg. apply Hfst. by right.
  - intros g k Hg. apply Hpo. by right.
  - intros x y Hx [Hy Hk]. apply Hse; [done|]. split; [done|].
    intros k [[= -> ->]|?]%elem_of_cons; [by rewrite take_ge|by apply Hk].
  - intros g x Hg. apply Hre. by right.
  - intros x Hx Hnf. destruct (decide (x = f)) as [->|Hxf].
    + split; [lia|]. intros p HpF _ Hg. by eapply Htop.
    + destruct (Hfi x Hx) as [Hl Hl']; [by intros [?|?]%elem_of_cons|]. split; [done|].
      intros p HpF Hpx Hg. destruct (decide (ix st f <= ix st x)) as [Hfx|Hfx].
      * etrans; [by eapply Htop|]. apply Hl'; [by left|done|].
        intros g [->|HgF]%elem_of_cons _; [done|].
        apply (proj1 (Forall_forall _ _) Hmax) in HgF. unfold above in HgF. lia.
      * apply Hl'; [by right|done|]. intros g [->|HgF]%elem_of_cons Hgx; [simpl in *; lia|auto].
Qed.

Lemma pop_loop_spec f pre post : f ∉ pre -> forall on comp,
  exists on', pop_loop (pre ++ f :: post) on f comp = Ok (comp ++ pre ++ [f], post, on') /\
    (forall x, x ∈ on' <-> (x ∈ on /\ (x ∉ pre ++ [f]))).
Proof.
  induction pre as [|z pre IH]; intros Hf on comp; simpl.
  - rewrite String.eqb_refl. eexists. split; [reflexivity|]. set_solver.
  - destruct (String.eqb_spec z f) as [->|Hne]; [set_solver|].
    destruct (IH ltac:(set_solver) (on ∖ {[z]}) (comp ++ [z])) as (on' & -> & Ho).
    exists on'. rewrite <- app_assoc. split; [done|]. intros x. rewrite Ho. set_solver.
Qed.

Lemma sorted_split st pre f post :
  StronglySorted (above st) (pre ++ f :: post) ->
  (forall x, x ∈ pre -> ix st f < ix st x) /\ (forall x, x ∈ post -> ix st x < ix st f).
Proof.
  intros Hs. split; intros x Hx.
  - eapply (StronglySorted_app_1_elem_of _ _ _ x f) in Hs; [done|done|by left].
  - apply StronglySorted_app_1_r, StronglySorted_inv in Hs as [_ Hf].
    by apply (proj1 (Forall_forall _ _) Hf) in Hx.
Qed.

(** The nodes from a root upwards are one component, and nothing leaves it but
    to components found before. *)
Section Root.
Context (st : Tarjan.t) (F : list TarjanFrame) (f : string) (pre post : list string).
Context (I : inv st ((f, length (adj f)) :: F)) (Hroot : low st f = ix st f).
Context (Hst : component_stack st = pre ++ f :: post).

Lemma root_above x : x ∈ component_stack st -> (x ∈ pre ++ [f] <-> ix st f <= ix st x).
Proof.
  intros Hx. pose proof (v_stack _ _ I) as Hs. rewrite Hst in Hs, Hx.
  apply sorted_split in Hs as [Hpre Hpost].
  rewrite elem_of_app, list_elem_of_singleton. apply elem_of_app in Hx as [Hx|[->|Hx]%elem_of_cons].
  - specialize (Hpre x Hx). split; [lia|auto].
  - split; [lia|auto].
  - specialize (Hpost x Hx). split; [|lia]. intros [Hx'| ->]; [|lia]. specialize (Hpre x Hx'). lia.
Qed.

Lemma root_frame_stack : f ∈ component_stack st.
Proof. rewrite Hst. set_solver. Qed.

Lemma root_frames g : g ∈ F.*1 -> ix st g < ix st f.
Proof.
  pose proof (v_frames _ _ I) as Hs. rewrite fmap_cons in Hs.
  apply StronglySorted_inv in Hs as [_ Hs]. intros Hg. by apply (proj1 (Forall_forall _ _) Hs) in Hg.
Qed.

Lemma root_low x : x ∈ pre ++ [f] -> ix st f <= low st x.
Proof.
  intros Hx. assert (x ∈ component_stack st) as Hxs by (rewrite Hst; set_solver).
  pose proof (proj1 (root_above x Hxs) Hx) as Hle.
  destruct (decide (x = f)) as [->|Hne]; [lia|].
  destruct (v_fin _ _ I x Hxs) as [_ Hf].
  - rewrite fmap_cons. intros [?|Hg]%elem_of_cons; [done|]. pose proof (root_frames x Hg). lia.
  - rewrite <- Hroot. apply Hf; [rewrite fmap_cons; by left|done|]. intros g Hg _.
    rewrite fmap_cons in Hg. apply elem_of_cons in Hg as [->|Hg]; [done|].
    pose proof (root_frames g Hg). lia.
Qed.

Lemma root_seen x y : x ∈ pre ++ [f] -> y ∈ adj x -> seen ((f, length (adj f)) :: F) x y.
Proof.
  intros Hx Hy. split; [done|]. intros k [[= -> ->]|Hk]%elem_of_cons; [by rewrite take_ge|].
  exfalso. assert (x ∈ F.*1) as Hg by (apply list_elem_of_fmap; by exists (x, k)).
  pose proof (root_frames x Hg) as Hlt. assert (x ∈ component_stack st) as Hxs by (rewrite Hst; set_solver).
  pose proof (proj1 (root_above x Hxs) Hx). lia.
Qed.

Lemma root_successors x y :
  x ∈ pre ++ [f] -> y ∈ adj x -> y ∈ pre ++ [f] \/ y ∈ concat (components st).
Proof.
  intros Hx Hy. assert (x ∈ component_stack st) as Hxs by (rewrite Hst; set_solver).
  destruct (v_seen _ _ I x y Hxs (root_seen x y Hx Hy)) as [Hv Hl].
  apply (v_vis _ _ I) in Hv as [Hys|Hc]; [left|by right].
  apply root_above; [done|]. pose proof (root_low x Hx). specialize (Hl Hys). lia.
Qed.

Lemma root_reach x : x ∈ pre ++ [f] -> rtc R f x /\ rtc R x f.
Proof.
  intros Hx. assert (x ∈ component_stack st) as Hxs by (rewrite Hst; set_solver).
  pose proof (proj1 (root_above x Hxs) Hx) as Hle. split.
  - apply (v_reach _ _ I); [rewrite fmap_cons; by left|done|done].
  - destruct (descent _ _ x I Hxs) as (g & Hg & Hgx & Hxg). etrans; [exact Hxg|].
    apply (v_reach _ _ I); [done|apply root_frame_stack|]. rewrite fmap_cons in Hg.
    apply elem_of_cons in Hg as [->|Hg]; [done|]. pose proof (root_frames g Hg). lia.
Qed.

Lemma root_scc : is_scc (sort_unit_ids (pre ++ [f])).
Proof.
  assert (forall x, x ∈ sort_unit_ids (pre ++ [f]) <-> x ∈ pre ++ [f]) as He
    by (intros; apply elem_of_sort_strings).
  split_and!.
  - intros Hn. assert (f ∈ sort_unit_ids (pre ++ [f])) as Hf by (apply He; set_solver).
    rewrite Hn in Hf. by apply elem_of_nil in Hf.
  - rewrite sort_strings_perm. pose proof (above_nodup _ _ (v_stack _ _ I)) as Hn. rewrite Hst in Hn.
    rewrite cons_middle, app_assoc in Hn. by apply NoDup_app in Hn as [? _].
  - apply sort_strings_sorted.
  - intros x Hx%He y. rewrite He. destruct (root_reach x Hx) as [Hfx Hxf]. split.
    + intros Hy. destruct (root_reach y Hy). split; by etrans.
    + intros [Hxy Hyx].
      assert (forall a b, rtc R a b -> a ∈ concat (components st) -> b ∈ concat (components st)) as Hcl.
      { induction 1 as [|a c b Hac _ IH]; [done|]. intros Ha. apply IH.
        eapply closed_order; [apply (v_order _ _ I)|done|]. by apply (adj_spec a (proj1 Hac)). }
      assert (forall a b, rtc R a b -> a ∈ pre ++ [f] -> b ∈ pre ++ [f] \/ b ∈ concat (components st)) as Hst'.
      { induction 1 as [|a c b Hac Hcb IH]; [by left|]. intros Ha.
        destruct (root_successors a c Ha) as [Hc|Hc];
          [by apply (adj_spec a (proj1 Hac))|by apply IH|right; by eapply Hcl]. }
      destruct (Hst' x y Hxy Hx) as [|Hy]; [done|]. exfalso.
      apply (v_disj _ _ I x); [rewrite Hst; set_solver|]. by eapply Hcl.
Qed.
End Root.

Lemma inv_pop st F f :
  inv st ((f, length (adj f)) :: F) -> low st f = ix st f ->
  exists st', pop_component f st = Ok st' /\ inv st' F /\
    indexes st' = indexes st /\ lowlinks st' = lowlinks st.
Proof.
  intros I Hroot. assert (f ∈ component_stack st) as Hfs by (apply (v_fstack _ _ I); by left).
  apply list_elem_of_split in Hfs as (pre & post & Hst).
  pose proof (above_nodup _ _ (v_stack _ _ I)) as Hnd. rewrite Hst in Hnd.
  assert (f ∉ pre) as Hfp by (apply NoDup_app in Hnd as (_ & Hd & _); intros Hp; apply (Hd f Hp); by left).
  unfold pop_component. rewrite Hst.
  destruct (pop_loop_spec f pre post Hfp (on_stack st) []) as (on' & -> & Hon). simpl.
  eexists. split; [reflexivity|]. set (st' := {| next_index := _ |}). split; [|done].
  pose proof (v_stack _ _ I) as Hs. rewrite Hst in Hs. destruct (sorted_split _ _ _ _ Hs) as [Hpre Hpost].
  assert (forall x, x ∈ post -> x ∈ component_stack st) as Hin by (intros x Hx; rewrite Hst; set_solver).
  assert (forall x, x ∈ component_stack st -> ix st x < ix st f -> x ∈ post) as Hbelow.
  { intros x Hx Hlt. rewrite Hst in Hx. apply elem_of_app in Hx as [Hx|[->|Hx]%elem_of_cons];
      [specialize (Hpre x Hx); lia|lia|done]. }
  pose proof (root_frames st F f I) as HF.
  assert (forall x, x ∈ concat (components st ++ [sort_unit_ids (pre ++ [f])]) <->
            x ∈ concat (components st) \/ x ∈ pre ++ [f]) as Hcat.
  { intros x. rewrite concat_app, elem_of_app. simpl. rewrite app_nil_r, elem_of_sort_strings. done. }
  assert (forall x, x ∈ post -> x ∉ pre ++ [f]) as Hdis.
  { intros x Hx Hx'. specialize (Hpost x Hx). pose proof (proj1 (root_above st F f pre post I Hroot Hst x
      (Hin x Hx)) Hx'). lia. }
  split.
  - apply (v_dom _ _ I).
  - apply (v_units _ _ I).
  - apply (v_lt _ _ I).
  - by apply StronglySorted_app_1_r, StronglySorted_inv in Hs as [? _].
  - intros x. simpl. rewrite Hon, (v_on _ _ I x), Hst. split; [set_solver|].
    intros Hx. split; [set_solver|]. by apply Hdis.
  - intros x. change (visited st' x) with (visited st x). rewrite (v_vis _ _ I x). simpl.
    rewrite Hcat, Hst. set_solver.
  - intros x Hx. simpl. rewrite Hcat. intros [Hc|Hc]; [|by eapply Hdis].
    by apply (v_disj _ _ I x (Hin x Hx)).
  - pose proof (v_frames _ _ I) as Hfr. rewrite fmap_cons in Hfr. by apply StronglySorted_inv in Hfr as [? _].
  - intros g Hg. simpl. apply Hbelow; [apply (v_fstack _ _ I); by right|by apply HF].
  - intros g k Hg. apply (v_pos _ _ I). by right.
  - intros x y Hx [Hy Hk]. destruct (v_seen _ _ I x y (Hin x Hx)) as [Hv Hl].
    + split; [done|]. intros k [[= -> ->]|?]%elem_of_cons; [by rewrite take_ge|by apply Hk].
    + split; [done|]. intros Hy'. by apply Hl, Hin.
  - intros g x Hg Hx. apply (v_reach _ _ I); [by right|by apply Hin].
  - intros x Hx. destruct (v_low _ _ I x (Hin x Hx)) as (y & Hy & Hyl & Hl & Hxy).
    exists y. split_and!; [|done..]. apply Hbelow; [done|].
    specialize (Hpost x Hx). change (ix st y < ix st f). lia.
  - intros x Hx Hnf. destruct (v_fin _ _ I x (Hin x Hx)) as [Hl Hf].
    + rewrite fmap_cons. intros [->|?]%elem_of_cons; [|done]. specialize (Hpost f Hx). lia.
    + split; [done|]. intros g Hg Hgx Htop. apply Hf; [by right|done|].
      intros h Hh Hhx. rewrite fmap_cons in Hh. apply elem_of_cons in Hh as [->|Hh]; [|by apply Htop].
      specialize (Hpost x Hx). simpl in *. lia.
  - intros p c q Heq x y Hx Hy. simpl in Heq. destruct q as [|z q _] using rev_ind.
    + apply app_inj_tail in Heq as [<- <-]. rewrite elem_of_sort_strings in Hx.
      rewrite Hcat. destruct (root_successors st F f pre post I Hroot Hst x y Hx Hy); auto.
    + rewrite app_comm_cons, app_assoc in Heq. apply app_inj_tail in Heq as [Heq _].
      by eapply (v_order _ _ I).
  - simpl. rewrite concat_app. simpl. rewrite app_nil_r, sort_strings_perm. apply NoDup_app. split_and!.
    + apply (v_nodup _ _ I).
    + intros x Hx Hx'. apply (v_disj _ _ I x); [|done]. rewrite Hst. set_solver.
    + rewrite cons_middle, app_assoc in Hnd. by apply NoDup_app in Hnd as [? _].
  - simpl. apply Forall_app. split; [apply (v_sccs _ _ I)|]. constructor; [|constructor].
    by eapply root_scc.
Qed.

(** ** Termination: every round consumes a neighbour or a frame *)
Definition unvisited_work (st : Tarjan.t) (l : list string) : nat :=
  sum_list_with (fun u => if is_some (indexes st !! u) then 0 else S (length (adj u))) l.
Definition frame_work (F : list TarjanFrame) : nat :=
  sum_list_with (fun fk => S (length (adj fk.1)) - fk.2) F.
Definition work (st : Tarjan.t) (F : list TarjanFrame) : nat := unvisited_work st us + frame_work F.

Lemma push_work_other st nb l : nb ∉ l -> unvisited_work (push_tarjan_node nb st) l = unvisited_work st l.
Proof.
  unfold unvisited_work. induction l as [|u l IH]; [done|]. intros Hn.
  cbn [sum_list_with]. rewrite IH by set_solver. simpl. by rewrite lookup_insert_ne by set_solver.
Qed.

Lemma push_work st nb :
  nb ∈ us -> ~ visited st nb ->
  unvisited_work st us = S (length (adj nb)) + unvisited_work (push_tarjan_node nb st) us.
Proof.
  intros Hnb Hv. apply list_elem_of_split in Hnb as (l1 & l2 & Hus).
  pose proof (ok_nodup _ _ _ ok) as Hnd. rewrite Hus in Hnd. rewrite Hus.
  apply NoDup_app in Hnd as (_ & Hd & Hn2). apply NoDup_cons in Hn2 as [Hn2 _].
  assert (nb ∉ l1) as Hn1 by (intros Hin; apply (Hd nb Hin); by left).
  assert (forall st', unvisited_work st' (l1 ++ nb :: l2) = unvisited_work st' l1
    + ((if is_some (indexes st' !! nb) then 0 else S (length (adj nb))) + unvisited_work st' l2)) as He.
  { intros st'. unfold unvisited_work. by rewrite sum_list_with_app. }
  rewrite !He, !push_work_other by done. simpl. rewrite lookup_insert_eq.
  destruct (indexes st !! nb) eqn:E; [|simpl; lia]. exfalso. apply Hv. by eexists.
Qed.

(** What a round does. *)
Definition progress (st : Tarjan.t) (F : list TarjanFrame) (r : list TarjanFrame * Tarjan.t) : Prop :=
  inv r.2 r.1 /\ S (work r.2 r.1) = work st F /\ forall x, visited st x -> visited r.2 x.

Lemma work_pop st st' f F :
  indexes st' = indexes st -> S (work st' F) = work st ((f, length (adj f)) :: F).
Proof. intros Hi. unfold work, unvisited_work, frame_work. rewrite Hi. simpl. lia. Qed.

Lemma work_advance st st' F f k nb :
  indexes st' = indexes st -> adj f !! k = Some nb ->
  S (work st' ((f, S k) :: F)) = work st ((f, k) :: F).
Proof.
  intros Hi Hk%lookup_lt_Some. unfold work, unvisited_work, frame_work. rewrite Hi. simpl. lia.
Qed.

Lemma round_neighbor st F f k nb :
  inv st ((f, k) :: F) -> adj f !! k = Some nb ->
  exists r, tarjan_round idx f k F st = Ok r /\ progress st ((f, k) :: F) r.
Proof.
  intros I Hk. assert (f ∈ ((f, k) :: F).*1) as Hff by (rewrite fmap_cons; by left).
  pose proof (v_fstack _ _ I f Hff) as Hfs.
  pose proof (v_units _ _ I f (stack_visited _ _ _ I Hfs)) as Hfu.
  assert (R f nb) as HR by (apply (adj_spec f Hfu); by eapply list_elem_of_lookup_2).
  assert (nb ∈ us) as Hnb by (by eapply (ok_closed _ _ _ ok), HR).
  unfold tarjan_round. rewrite (proj1 (adj_spec f Hfu)). simpl. rewrite Hk.
  destruct (indexes st !! nb) as [i|] eqn:Ei; simpl; cycle 1.
  - assert (~ visited st nb) as Hnv by (unfold visited; rewrite Ei; by intros [? ?]).
    eexists. split; [reflexivity|]. split_and!; simpl.
    + apply (inv_advance _ [(nb, 0)] F f k nb).
      * apply inv_push; [done|done|done|]. by intros ? [= <-].
      * done.
      * apply push_visited. by left.
      * intros _. rewrite push_low, push_ix, (decide_True (P := nb = nb)) by done.
        destruct (decide (f = nb)) as [->|]; [done|].
        pose proof (v_lt _ _ I f (stack_visited _ _ _ I Hfs)).
        destruct (v_low _ _ I f Hfs) as (? & _ & _ & ? & _). lia.
    + pose proof (push_work st nb Hnb Hnv) as Hw. apply lookup_lt_Some in Hk.
      unfold work, frame_work in *. simpl. lia.
    + intros x Hx. apply push_visited. by right.
  - assert (visited st nb) as Hv by (unfold visited; by rewrite Ei).
    destruct (bool_decide (nb ∈ on_stack st)) eqn:Eb.
    + apply bool_decide_eq_true, (v_on _ _ I) in Eb. unfold tarjan_value. rewrite Ei. simpl.
      destruct (inv_lower st ((f, k) :: F) f nb I Hff Eb (rtc_once _ _ HR))
        as (ll & Hl & I' & Hle & _).
      assert (ix st nb = i) as Hix by (unfold ix; by rewrite Ei). rewrite Hix in *. rewrite Hl. simpl.
      eexists. split; [reflexivity|]. split_and!; simpl; [|by eapply work_advance|done].
      apply (inv_advance _ [] F f k nb); [done|done|done|]. intros _.
      change (ix (set_lowlinks ll st) nb) with (ix st nb). by rewrite Hix.
    + apply bool_decide_eq_false in Eb. eexists. split; [reflexivity|].
      split_and!; simpl; [|by eapply work_advance|done].
      apply (inv_advance _ [] F f k nb); [done|done|done|]. intros Hs. exfalso.
      by apply Eb, (v_on _ _ I).
Qed.

Lemma lower_noop st F p n :
  inv st F -> p ∈ F.*1 -> low st p <= n -> lower_lowlink p n st = Ok st.
Proof.
  intros I Hp Hl. destruct (proj2 (v_dom _ _ I p)
    (stack_visited _ _ _ I (v_fstack _ _ I p Hp))) as [l Hll].
  unfold lower_lowlink. rewrite Hll. simpl. unfold low in Hl. rewrite Hll in Hl. simpl in Hl.
  destruct (Nat.ltb_spec n l); [lia|done].
Qed.

Lemma round_finish st F f :
  inv st ((f, length (adj f)) :: F) ->
  exists r, tarjan_round idx f (length (adj f)) F st = Ok r /\
    progress st ((f, length (adj f)) :: F) r.
Proof.
  intros I. assert (f ∈ ((f, length (adj f)) :: F).*1) as Hff by (rewrite fmap_cons; by left).
  pose proof (v_fstack _ _ I f Hff) as Hfs. pose proof (stack_visited _ _ _ I Hfs) as Hfv.
  pose proof (v_units _ _ I f Hfv) as Hfu.
  destruct (proj2 (v_dom _ _ I f) Hfv) as [l Hl]. destruct Hfv as [i Hi].
  assert (low st f = l) as Hlf by (unfold low; by rewrite Hl).
  assert (ix st f = i) as Hif by (unfold ix; by rewrite Hi).
  pose proof (root_frames st F f I) as HF.
  destruct (v_low _ _ I f Hfs) as (y & Hys & Hyl & Hle & Hfy).
  unfold tarjan_round. rewrite (proj1 (adj_spec f Hfu)). simpl.
  rewrite lookup_ge_None_2 by done. unfold tarjan_value. rewrite Hl, Hi. simpl.
  destruct (Nat.eqb_spec l i) as [->|Hne].
  - destruct (inv_pop st F f I) as (st' & Hp & I' & Hi' & Hl'); [congruence|]. rewrite Hp. simpl.
    assert (progress st ((f, length (adj f)) :: F) (F, st')) as Hpr.
    { split_and!; [done|by apply work_pop|]. unfold visited. simpl. by rewrite Hi'. }
    destruct F as [|[p q] F]; [by eexists|]. rewrite Hl', Hl. simpl.
    rewrite (lower_noop st' ((p, q) :: F)); [by eexists|done|rewrite fmap_cons; by left|].
    assert (p ∈ ((p, q) :: F).*1) as Hpf by (rewrite fmap_cons; by left). specialize (HF p Hpf).
    destruct (v_low _ _ I p (v_fstack _ _ I p ltac:(rewrite fmap_cons; by right)))
      as (_ & _ & _ & Hlp & _).
    unfold low in *. rewrite Hl'. lia.
  - simpl. destruct F as [|[p q] F].
    + eexists. split; [reflexivity|]. split_and!; [|by apply work_pop|done].
      apply (inv_drop st [] f); [done|lia|done].
    + rewrite Hl. simpl.
      assert (p ∈ ((f, length (adj f)) :: (p, q) :: F).*1) as Hpf by (rewrite !fmap_cons; set_solver).
      assert (rtc R p y) as Hpy.
      { etrans; [|exact Hfy]. apply (v_reach _ _ I); [done|done|].
        apply Nat.lt_le_incl, HF. rewrite fmap_cons. by left. }
      destruct (inv_lower st _ p y I Hpf Hys Hpy) as (ll & Hlow & I' & Hlp & Ho).
      rewrite Hyl, Hlf in *. rewrite Hlow. simpl. eexists. split; [reflexivity|].
      split_and!; [|by apply work_pop|done]. simpl.
      assert (p <> f) as Hpne by (intros ->; specialize (HF f ltac:(rewrite fmap_cons; by left)); lia).
      assert (low (set_lowlinks ll st) f = l) as Hlf' by (rewrite Ho; [done|congruence]).
      apply (inv_drop _ _ f); [done|rewrite Hlf'; change (ix (set_lowlinks ll st) f) with (ix st f); lia|].
      intros p' [= <-]. by rewrite Hlf'.
Qed.

(** ** The whole search *)
Lemma loop_total fuel st F :
  inv st F -> work st F <= fuel ->
  exists st', tarjan_loop fuel idx F st = Ok (Some st') /\ inv st' [] /\
    forall x, visited st x -> visited st' x.
Proof.
  revert st F. induction fuel as [|fuel IH]; intros st F I Hw.
  - destruct F as [|[f k] F]; [by exists st|]. exfalso.
    pose proof (v_pos _ _ I f k ltac:(by left)). unfold work, frame_work in Hw. simpl in Hw. lia.
  - destruct F as [|[f k] F]; [by exists st|].
    assert (exists r, tarjan_round idx f k F st = Ok r /\ progress st ((f, k) :: F) r)
      as ([F' st1] & Hr & I1 & Hw1 & Hv1).
    { destruct (adj f !! k) as [nb|] eqn:Hk; [by eapply round_neighbor|].
      pose proof (v_pos _ _ I f k ltac:(by left)). apply lookup_ge_None in Hk.
      assert (k = length (adj f)) as -> by lia. by apply round_finish. }
    cbn [tarjan_loop]. rewrite Hr. simpl in *.
    destruct (IH st1 F' I1 ltac:(lia)) as (st2 & Hl & I2 & Hv2). exists st2. auto.
Qed.

Lemma unvisited_work_bound st : unvisited_work st us <= tarjan_fuel idx.
Proof.
  unfold unvisited_work, tarjan_fuel. rewrite (ok_units _ _ _ ok).
  clear ok. unfold adj. induction us as [|u l IH]; [done|]. cbn [sum_list_with].
  destruct (is_some _); lia.
Qed.

Lemma starts_total starts st :
  inv st [] -> (forall s, s ∈ starts -> s ∈ us) ->
  exists st', tarjan_starts idx starts st = Ok (Some st') /\ inv st' [] /\
    (forall x, visited st x -> visited st' x) /\ (forall s, s ∈ starts -> visited st' s).
Proof.
  revert st. induction starts as [|s starts IH]; intros st I Hus; simpl.
  { exists st. split_and!; [done|done|done|by intros ? ?%elem_of_nil]. }
  destruct (indexes st !! s) as [i|] eqn:Hs; simpl.
  - assert (visited st s) as Hv by (unfold visited; by rewrite Hs).
    destruct (IH st I) as (st' & Hl & I' & Hm & Ha); [set_solver|]. exists st'. split_and!; [done..|].
    intros x [->|Hx]%elem_of_cons; auto.
  - assert (~ visited st s) as Hv by (unfold visited; rewrite Hs; by intros [? ?]).
    assert (s ∈ us) as Hu by (apply Hus; by left).
    assert (inv (push_tarjan_node s st) [(s, 0)]) as I1 by (by apply inv_push).
    destruct (loop_total (tarjan_fuel idx) _ _ I1) as (st2 & -> & I2 & Hm2).
    { pose proof (push_work st s Hu Hv). pose proof (unvisited_work_bound st).
      unfold work, frame_work. simpl. lia. }
    simpl. destruct (IH st2 I2) as (st' & Hl & I' & Hm & Ha); [set_solver|].
    exists st'. split_and!; [done|done| |].
    + intros x Hx. apply Hm, Hm2, push_visited. by right.
    + intros x [->|Hx]%elem_of_cons; [|by apply Ha]. apply Hm, Hm2, push_visited. by left.
Qed.

(** A component is reported exactly when its units lie on cycles. *)
Lemma is_cycle_spec c x : is_scc c -> x ∈ c -> x ∈ us -> (is_cycle idx c = true <-> tc R x x).
Proof.
  intros (Hne & Hnd & Hs & Hc) Hx Hu. unfold is_cycle. rewrite orb_true_iff, Nat.leb_le. split.
  - intros [Hl|Hl].
    + assert (exists y, y ∈ c /\ y <> x) as (y & Hy & Hyx).
      { destruct c as [|a [|b c]]; simpl in Hl; [lia|lia|].
        apply NoDup_cons in Hnd as [Ha _]. destruct (decide (a = x)) as [->|]; [|exists a; set_solver].
        exists b. split; [set_solver|]. intros ->. apply Ha. by left. }
      apply (Hc x Hx) in Hy as [Hxy Hyx']. apply rtc_tc in Hxy as [->|Hxy]; [done|].
      by eapply tc_rtc_r.
    + destruct c as [|a c]; [done|]. simpl in Hl. apply bool_decide_eq_true in Hl.
      assert (a ∈ us) as Hau.
      { assert (rtc R x a) as Hxa by (apply (Hc x Hx); by left). clear -Hxa Hu ok.
        induction Hxa as [|x y z [_ Hxy] _ IH]; [done|]. apply IH. by eapply (ok_closed _ _ _ ok). }
      apply (ok_loops _ _ _ ok a Hau) in Hl.
      assert (tc R a a) as Haa by (by apply tc_once).
      assert (rtc R x a /\ rtc R a x) as [Hxa Hax] by (apply (Hc x Hx); by left).
      eapply tc_rtc_l; [exact Hxa|]. by eapply tc_rtc_r.
  - intros Ht. destruct (Nat.leb_spec 2 (length c)) as [|Hl]; [by left|]. right.
    destruct c as [|a [|b c]]; [done| |simpl in Hl; lia].
    apply list_elem_of_singleton in Hx as ->. simpl. apply bool_decide_eq_true.
    apply (ok_loops _ _ _ ok a Hu).
    assert (exists y, R a y /\ rtc R y a) as (y & Hay & Hya).
    { inversion Ht as [? ? Hr|? y ? Hr Hr']; subst; [by exists a|]. exists y. split; [done|]. by apply tc_rtc. }
    assert (y ∈ [a]) as Hy by (apply (Hc a); [by left|split; [by apply rtc_once|done]]).
    apply list_elem_of_singleton in Hy as ->. apply Hay.
Qed.

Lemma filter_split {A} (P : A -> Prop) `{!forall x, Decision (P x)} l pre c post :
  filter P l = pre ++ c :: post ->
  exists l1 l2, l = l1 ++ c :: l2 /\ filter P l2 = post.
Proof.
  revert pre. induction l as [|a l IH]; intros pre Hf; [by destruct pre|].
  rewrite filter_cons in Hf. destruct (decide (P a)).
  - destruct pre as [|b pre]; injection Hf as -> Hf; [by exists [], l|].
    destruct (IH pre Hf) as (l1 & l2 & -> & ?). by exists (b :: l1), l2.
  - destruct (IH pre Hf) as (l1 & l2 & -> & ?). by exists (a :: l1), l2.
Qed.

(** What [detect_cycles] answers: each cyclic component once, and each before
    the components that depend on it. *)
Definition cyclic_components (cs : list (list string)) : Prop :=
  Forall is_scc cs /\ NoDup (concat cs) /\ (forall x, x ∈ concat cs <-> tc R x x) /\
  (forall pre c post, cs = pre ++ c :: post ->
   forall x y, x ∈ c -> rtc R x y -> y ∉ concat post).

Lemma detect_cycles_exact :
  exists cs, detect_cycles_in_index idx = Ok (Some cs) /\ cyclic_components cs.
Proof.
  unfold detect_cycles_in_index. rewrite (ok_units _ _ _ ok).
  destruct (starts_total us Tarjan.init inv_init) as (st & -> & I & _ & Hall); [done|]. simpl.
  eexists. split; [reflexivity|]. set (P := fun c => is_cycle idx c = true).
  assert (component_stack st = []) as Hst.
  { destruct (component_stack st) as [|x l] eqn:E; [done|].
    destruct (descent st [] x I) as (g & Hg & _); [rewrite E; by left|by apply elem_of_nil in Hg]. }
  assert (forall x, x ∈ concat (components st) <-> x ∈ us) as Hin.
  { intros x. split.
    - intros Hx. apply (v_units _ _ I), (v_vis _ _ I). by right.
    - intros Hx. apply Hall, (v_vis _ _ I) in Hx as [Hx|]; [|done]. rewrite Hst in Hx.
      by apply elem_of_nil in Hx. }
  pose proof (v_sccs _ _ I) as Hscc. pose proof (v_nodup _ _ I) as Hnd.
  assert (forall (x : string) cs, x ∈ concat cs <-> exists c, c ∈ cs /\ x ∈ c) as Hcat.
  { intros x cs. rewrite list_elem_of_In, in_concat. by setoid_rewrite list_elem_of_In. }
  split_and!.
  - apply Forall_forall. intros c [_ Hc]%list_elem_of_filter. by apply (proj1 (Forall_forall _ _) Hscc).
  - clear -Hnd. induction (components st) as [|c cs IH]; [done|]. rewrite filter_cons.
    simpl in Hnd. apply NoDup_app in Hnd as (Hc & Hd & Hn).
    destruct (decide (P c)); [|by apply IH]. simpl. apply NoDup_app. split_and!; [done| |by apply IH].
    intros x Hx Hx'. apply (Hd x Hx). apply list_elem_of_In, in_concat in Hx' as (c' & Hc' & Hx').
    apply list_elem_of_In, list_elem_of_filter in Hc' as [_ Hc'].
    apply list_elem_of_In, in_concat. exists c'. split; [by apply list_elem_of_In|done].
  - intros x. rewrite Hcat. split.
    + intros (c & [HP Hc]%list_elem_of_filter & Hx). eapply is_cycle_spec; [|exact Hx| |exact HP].
      * by apply (proj1 (Forall_forall _ _) Hscc).
      * apply Hin, Hcat. eauto.
    + intros Hx. assert (x ∈ us) as Hu by (by inversion Hx as [? ? []|? ? ? []]).
      apply Hin, Hcat in Hu as (c & Hc & Hxc). exists c. split; [|done].
      apply list_elem_of_filter. split; [|done]. eapply is_cycle_spec; [|exact Hxc| |done].
      * by apply (proj1 (Forall_forall _ _) Hscc).
      * apply Hin, Hcat. eauto.
  - intros pre c post Heq x y Hx Hxy Hy. apply filter_split in Heq as (l1 & l2 & Hl & <-).
    assert (y ∈ concat (l1 ++ [c])) as Hy1.
    { assert (forall z, z ∈ concat (l1 ++ [c]) -> forall t, t ∈ adj z -> t ∈ concat (l1 ++ [c])) as Hcl.
      { intros z Hz t Ht. apply (closed_order (l1 ++ [c]) z); [|done|done].
        intros p d q Hd u v Hu Hv. apply (v_order _ _ I p d (q ++ l2)) with (x := u); [|done|done].
        rewrite Hl. rewrite cons_middle, app_assoc, Hd, <- app_assoc. done. }
      assert (x ∈ concat (l1 ++ [c])) as Hx1.
      { rewrite concat_app. simpl. rewrite app_nil_r. apply elem_of_app. by right. }
      clear Hx Hy. induction Hxy as [|x z y Hxz _ IH]; [done|]. apply IH.
      apply (Hcl x Hx1). by apply (adj_spec x (proj1 Hxz)). }
    apply Hcat in Hy as (d & [_ Hd]%list_elem_of_filter & Hyd).
    rewrite Hl, cons_middle, app_assoc, concat_app in Hnd. apply NoDup_app in Hnd as (_ & Hdis & _).
    apply (Hdis y Hy1). apply Hcat. eauto.
Qed.
End Tarjan.
End TarjanSound.
