(* ===== verification/SgrSound.v ===== *)
(** * Service graph runtime: what the evaluator answers

    The theorems of the evaluator against the interface [ServiceGraphLaws]: the
    order, the batches and the cycles of any graph that keeps its contract,
    readiness, convergence, and the composition of sort, readiness and driver
    that brings a graph up. *)
From stdpp Require Import sorting.
From S2P Require Import Prelude Collections Json Ids Records Redaction Receipt ChainSound StateError SgrTypes SgrGraph SgrFsm SgrEval SgrKahn SgrTarjan.

Module EvaluatorSound.
Import GraphEvaluator SgrIndex KahnSound TarjanSound.

Section Sound.
Context {G L : Type} `{SgrEvidenceLog L} `{!SgrTexts} `{!ServiceGraph G L} `{!ServiceGraphLaws G L}.

Abbreviation W := (World.t G L).

(** The dependency relation of a graph, on its registered units. *)
Definition needs (g : G) : relation string := dep (unit_ids g) (deps_of g).

(** [c] is a set of units that all depend on each other, and on themselves. *)
Definition is_cycle_of (g : G) (c : list string) : Prop :=
  is_scc (unit_ids g) (deps_of g) c /\ forall x, x ∈ c -> tc (needs g) x x.

Lemma not_acyclic_cycle us D idx :
  index_ok us D idx -> ~ acyclic us D ->
  forall processed, exists c, first_cycle_or_remaining idx processed = Ok (Some c) /\
    is_scc us D c /\ forall x, x ∈ c -> tc (dep us D) x x.
Proof.
  intros ok Ha processed. destruct (detect_cycles_exact us D idx ok) as (cs & Hcs & Hs & _ & Hc & _).
  unfold first_cycle_or_remaining. rewrite Hcs. simpl. destruct cs as [|c cs].
  - exfalso. apply Ha. intros x Hx. apply Hc in Hx. by apply elem_of_nil in Hx.
  - exists c. split; [done|]. inversion_clear Hs as [|? ? Hsc _]. split; [done|].
    intros x Hx. apply Hc. simpl. apply elem_of_app. by left.
Qed.

Lemma all_or_cycle_exact {A} us D idx (l : list string) (answer : A) :
  index_ok us D idx -> (acyclic us D <-> length l = length us) ->
  (all_or_cycle idx l answer = Ok (Some answer) /\ acyclic us D /\ length l = length us) \/
  exists c, all_or_cycle idx l answer = Err (SgrError.DependencyCycleDetected c) /\
    is_scc us D c /\ forall x, x ∈ c -> tc (dep us D) x x.
Proof.
  intros ok Hl. unfold all_or_cycle. rewrite (ok_units _ _ _ ok).
  destruct (Nat.eqb_spec (length l) (length us)) as [He|He]; [left; split_and!; auto; by apply Hl|].
  right. destruct (not_acyclic_cycle us D idx ok) with (processed := l) as (c & -> & Hc); [by rewrite Hl|].
  by exists c.
Qed.

Lemma complete_perm (us l : list string) :
  NoDup us -> NoDup l -> (forall u, u ∈ l -> u ∈ us) -> length l = length us -> l ≡ₚ us.
Proof.
  intros Hu Hn Hi Hl. apply submseteq_length_Permutation; [by apply NoDup_submseteq|lia].
Qed.

Lemma sort_index_exact us D idx :
  index_ok us D idx ->
  (exists l, sort_index_units idx = Ok (Some l) /\ acyclic us D /\ l ≡ₚ us /\ greedy us D l) \/
  (exists c, sort_index_units idx = Err (SgrError.DependencyCycleDetected c) /\
     is_scc us D c /\ forall x, x ∈ c -> tc (dep us D) x x).
Proof.
  intros ok. unfold sort_index_units.
  destruct (sort_loop_exact us D idx ok) as (l & -> & Hn & Hu & Hg & Hl). simpl.
  destruct (all_or_cycle_exact us D idx l l ok Hl) as [(He & Ha & Hle)|Hc]; [left|by right].
  exists l. split_and!; [done|done| |done]. by apply complete_perm; [apply (ok_nodup _ _ _ ok)|..].
Qed.

(** C9: [topological_sort] answers, without touching the state, in one of two
    ways: an order of all registered units in which each comes after everything
    it depends on and, among those that may come next, the least id does, and
    then the dependencies have no cycle; or the error that carries a whole
    strongly connected component of units that depend on themselves. *)
Theorem topological_sort_exact (w : W) :
  graph_ok (World.graph w) ->
  let g := World.graph w in
  (exists l, topological_sort w = (Ok (Some l), w) /\ acyclic (unit_ids g) (deps_of g) /\
     l ≡ₚ unit_ids g /\ greedy (unit_ids g) (deps_of g) l) \/
  (exists c, topological_sort w = (Err (SgrError.DependencyCycleDetected c), w) /\ is_cycle_of g c).
Proof.
  intros Hg g. destruct (load_index_ok w Hg) as (idx & Hl & ok).
  unfold topological_sort, mbind_. rewrite Hl. unfold lift.
  destruct (sort_index_exact _ _ _ ok) as [(l & -> & ?)|(c & -> & ?)]; [left|right]; eauto.
Qed.

(** [detect_cycles] never fails and lists, each once, exactly the strongly
    connected components whose units depend on themselves; a component comes
    before the components that depend on it. *)
Theorem detect_cycles_complete (w : W) :
  graph_ok (World.graph w) ->
  exists cs, detect_cycles w = (Ok (Some cs), w) /\
    cyclic_components (unit_ids (World.graph w)) (deps_of (World.graph w)) cs.
Proof.
  intros Hg. destruct (load_index_ok w Hg) as (idx & Hl & ok).
  unfold detect_cycles, mbind_. rewrite Hl. unfold lift.
  destruct (detect_cycles_exact _ _ _ ok) as (cs & -> & ?). eauto.
Qed.

(** [identify_parallel_batches] partitions the units of an acyclic graph
    into levels: each batch holds, in order, exactly the units whose
    prerequisites all lie in earlier batches and that are in none of them; on a
    cyclic graph it is the error of the sort. *)
Theorem parallel_batches_exact (w : W) :
  graph_ok (World.graph w) ->
  let g := World.graph w in
  (exists bs, identify_parallel_batches w = (Ok (Some bs), w) /\ acyclic (unit_ids g) (deps_of g) /\
     concat bs ≡ₚ unit_ids g /\ layered (unit_ids g) (deps_of g) bs) \/
  (exists c, identify_parallel_batches w = (Err (SgrError.DependencyCycleDetected c), w) /\
     is_cycle_of g c).
Proof.
  intros Hg g. destruct (load_index_ok w Hg) as (idx & Hl & ok).
  unfold identify_parallel_batches, mbind_. rewrite Hl. unfold lift, batch_index_units.
  destruct (batch_loop_exact _ _ _ ok) as (bs & -> & Hn & Hu & Hla & Hle). simpl.
  destruct (all_or_cycle_exact _ _ idx (concat bs) bs ok Hle) as [(-> & Ha & He)|(c & -> & Hc)].
  - left. exists bs. split_and!; [done|done| |done]. apply complete_perm; [apply unit_ids_nodup|done..].
  - right. by exists c.
Qed.

(** *** Readiness *)
Definition stable_in (g : G) (id : string) : Prop :=
  exists u, units_of g !! id = Some u /\ is_running_stable (ServiceUnit.state u) = true.

Lemma edges_ready_exact (w : W) es :
  Forall (fun e => is_Some (units_of (World.graph w) !! DependencyEdge.to_unit_id e)) es ->
  exists b, edges_ready es w = (Ok b, w) /\
    (b = true <-> forall e, e ∈ es -> DependencyKind.is_hard (DependencyEdge.kind e) = true ->
                  stable_in (World.graph w) (DependencyEdge.to_unit_id e)).
Proof.
  induction 1 as [|e es [u Hu] _ (b & IH & Hb)]; simpl.
  { exists true. split; [done|]. split; [by intros _ e ?%elem_of_nil|done]. }
  destruct (DependencyKind.is_hard (DependencyEdge.kind e)) eqn:Hh; cycle 1.
  { exists b. split; [done|]. rewrite Hb. split.
    - intros Ha e' [->|He']%elem_of_cons Hh'; [congruence|by apply Ha].
    - intros Ha e' He'. apply Ha. by right. }
  unfold mbind_. rewrite get_unit_spec, Hu. simpl.
  destruct (is_running_stable (ServiceUnit.state u)) eqn:Hs; simpl.
  - exists b. split; [done|]. rewrite Hb. split.
    + intros Ha e' [->|He']%elem_of_cons Hh'; [by exists u|by apply Ha].
    + intros Ha e' He'. apply Ha. by right.
  - exists false. split; [done|]. split; [done|]. intros Ha.
    destruct (Ha e) as (u' & Hu' & Hs'); [by left|done|]. congruence.
Qed.

(** [evaluate_readiness] of a registered unit is true exactly when the
    target of each of its hard dependencies is [RUNNING] or [HEALTHY],
    [RequiresHealthy] ones included; ordering edges do not count. *)
Theorem readiness_exact (w : W) id :
  graph_ok (World.graph w) -> is_Some (units_of (World.graph w) !! id) ->
  exists b, evaluate_readiness id w = (Ok b, w) /\
    (b = true <-> forall e, e ∈ edges_of (World.graph w) id ->
       DependencyKind.is_hard (DependencyEdge.kind e) = true ->
       stable_in (World.graph w) (DependencyEdge.to_unit_id e)).
Proof.
  intros Hg [u Hu]. unfold evaluate_readiness, mbind_. rewrite list_dependencies_spec, Hu. simpl.
  apply edges_ready_exact. eapply Forall_impl; [by apply (proj2 Hg); eexists|]. by intros e [_ ?].
Qed.

(** *** Convergence *)
Lemma settled_states u : is_settled u = true ->
  match ServiceUnit.state u with
  | UnitState.Running | UnitState.Healthy | UnitState.Stopped => True
  | _ => False
  end.
Proof.
  unfold is_settled. intros [_ Hd]%andb_true_iff.
  by destruct (ServiceUnit.state u), (UnitManifest.desired_state (ServiceUnit.manifest u)).
Qed.

Lemma existsb_false {A} (p : A -> bool) l : existsb p l = false <-> forall x, x ∈ l -> p x = false.
Proof.
  rewrite <- not_true_iff_false, existsb_elem. split.
  - intros Hn x Hx. destruct (p x) eqn:E; [|done]. exfalso. eauto.
  - intros Ha (x & Hx & Hp). by rewrite Ha in Hp.
Qed.

Lemma state_of_units_converged us :
  state_of_units us = GraphState.Converged <-> us <> [] /\ forallb is_settled us = true.
Proof.
  split.
  - unfold state_of_units. destruct us as [|u us]; [done|]. set (l := u :: us). intros Hs.
    split; [done|]. destruct (existsb _ l); [by destruct (_ || _)|].
    destruct (existsb _ l); [done|]. destruct (existsb _ l) eqn:Et; [done|].
    destruct (forallb _ l) eqn:Ed; [|done]. apply forallb_elem. intros x Hx. unfold is_settled.
    apply andb_true_iff. split; [|by apply (proj1 (forallb_elem _ l) Ed)].
    by rewrite (proj1 (existsb_false _ l) Et).
  - intros [Hne Ha]. pose proof (proj1 (forallb_elem _ us) Ha) as Hall. unfold state_of_units.
    destruct us as [|u us]; [done|]. set (l := u :: us) in *.
    assert (forall (p : ServiceUnit.t -> bool), (forall x, is_settled x = true -> p x = false) ->
      existsb p l = false) as Hex by (intros p Hp; apply existsb_false; intros x Hx; by apply Hp, Hall).
    rewrite !Hex.
    + assert (forallb (fun u => desired_state_matches (UnitManifest.desired_state
        (ServiceUnit.manifest u)) (ServiceUnit.state u)) l = true) as ->; [|done].
      apply forallb_elem. intros x Hx. by apply Hall, andb_true_iff in Hx as [_ ?].
    + intros x Hx. by apply andb_true_iff in Hx as [?%negb_true_iff _].
    + intros x Hx%settled_states. by destruct (ServiceUnit.state x).
    + intros x Hx%settled_states. by destruct (ServiceUnit.state x).
Qed.

Lemma listed_units (w : W) l u :
  l ≡ₚ (map_to_list (units_of (World.graph w))).*2 ->
  u ∈ l <-> exists id, units_of (World.graph w) !! id = Some u.
Proof.
  intros ->. rewrite list_elem_of_fmap. split.
  - intros ([id v] & -> & Hv%elem_of_map_to_list). eauto.
  - intros (id & Hu). exists (id, u). split; [done|]. by apply elem_of_map_to_list.
Qed.

(** [convergence_state] leaves the graph alone and answers [CONVERGED]
    exactly when there are units and every one is in a stable state that its
    desired state asks for; only then can it fail, by a refused record. *)
Theorem convergence_exact em (w : W) :
  let converged := units_of (World.graph w) <> ∅ /\
    forall id u, units_of (World.graph w) !! id = Some u -> is_settled u = true in
  post (convergence_state em)
    (fun s w' => World.graph w' = World.graph w /\ (s = GraphState.Converged <-> converged))
    (fun e w' => UnitFsmDriver.emission_failed e /\ World.graph w' = World.graph w /\ converged) w.
Proof.
  intros converged. unfold convergence_state, post, mbind_ at 1.
  destruct (list_units_spec w) as (l & -> & Hl).
  assert (state_of_units l = GraphState.Converged <-> converged) as Hc.
  { rewrite state_of_units_converged. unfold converged. rewrite forallb_elem.
    setoid_rewrite (listed_units w l _ Hl). split; intros [Hne Ha].
    - split; [|naive_solver]. intros He. apply Hne. rewrite He, map_to_list_empty in Hl.
      by apply Permutation_nil_r in Hl.
    - split; [|naive_solver]. intros ->. apply Hne. apply map_eq. intros id. rewrite lookup_empty.
      destruct (_ !! id) as [u|] eqn:E; [|done]. exfalso.
      assert (u ∈ []) as Hu by (apply (listed_units w [] u Hl); eauto). by apply elem_of_nil in Hu. }
  cbv zeta. unfold mbind_ at 1. destruct (bool_decide (state_of_units l = GraphState.Converged)) eqn:Eb.
  - apply bool_decide_eq_true in Eb. pose proof (proj1 Hc Eb) as Hcv.
    assert (post (emit_graph_converged em (state_of_units l) (Z.of_nat (length l)))
      (fun _ w' => World.graph w' = World.graph w)
      (fun e w' => UnitFsmDriver.emission_failed e /\ World.graph w' = World.graph w) w) as Hp.
    { unfold emit_graph_converged. destruct em as [em|]; [|done].
      unfold post, mbind_, utc_now.
      match goal with |- context [emit ?a ?b ?c ?w1] => exact (emit_post a b c w1) end. }
    unfold post in Hp. destruct (emit_graph_converged _ _ _ w) as [[[]|e] w']; simpl; [done|].
    destruct Hp as [? ?]. done.
  - simpl. done.
Qed.

(** *** Bringing a graph up *)
Import UnitFsmDriver.

(** Start the units of [ids] one after the other, each only if it is ready. *)
Fixpoint start_ready (em : option SgrEvidenceEmitter) (fuel : nat) (ids : list string)
    : M W SgrError.t bool :=
  match ids with
  | [] => ret true
  | id :: ids =>
      let! ready := evaluate_readiness id in
      if negb ready then ret false
      else let! _ := start em fuel id in start_ready em fuel ids
  end.

Definition startable (s : UnitState.t) : bool :=
  match s with
  | UnitState.Draft | UnitState.Queued | UnitState.Starting | UnitState.Stopped
  | UnitState.Running => true
  | _ => false
  end.

(** [w'] is [w] with the units of [up] running and the others where they were. *)
Definition brought_up (up : list string) (w w' : W) : Prop :=
  graph_ok (World.graph w') /\
  edges_of (World.graph w') = edges_of (World.graph w) /\
  (forall id, is_Some (units_of (World.graph w') !! id) <-> is_Some (units_of (World.graph w) !! id)) /\
  (forall id, id ∉ up -> units_of (World.graph w') !! id = units_of (World.graph w) !! id) /\
  (forall id u, id ∈ up -> units_of (World.graph w') !! id = Some u ->
     ServiceUnit.state u = UnitState.Running).

Lemma brought_up_start up id u u' w w1 w2 :
  brought_up up w w1 -> units_of (World.graph w1) !! id = Some u ->
  moved id UnitState.Running u u' w1 w2 -> brought_up (up ++ [id]) w w2.
Proof.
  intros (Hg & He & Hd & Ho & Hr) Hu (Hs & [now ->] & Hus & Hes).
  assert (forall i, is_Some (units_of (World.graph w2) !! i) <-> is_Some (units_of (World.graph w1) !! i)) as Hdom.
  { intros i. rewrite Hus, lookup_insert_is_Some'. split; [intros [<-|?]; [by eexists|done]|by right]. }
  split_and!.
  - destruct Hg as [Hi Hee]. split.
    + intros i v. rewrite Hus. intros [[<- <-]|[_ Hv]]%lookup_insert_Some; [by apply (Hi id u)|by apply Hi].
    + intros i Hsome%Hdom. rewrite Hes. eapply Forall_impl; [by apply Hee|].
      intros e [? ?]. split; [done|by apply Hdom].
  - congruence.
  - intros i. by rewrite Hdom, Hd.
  - intros i Hi. rewrite Hus, lookup_insert_ne by set_solver. apply Ho. set_solver.
  - intros i v Hi. rewrite Hus. intros [[<- <-]|[Hne Hv]]%lookup_insert_Some; [done|].
    apply (Hr i); [|done]. set_solver.
Qed.

Lemma start_ready_up em fuel w l ids : 4 <= fuel ->
  (forall id u, units_of (World.graph w) !! id = Some u -> startable (ServiceUnit.state u) = true) ->
  (forall id, id ∈ l -> is_Some (units_of (World.graph w) !! id)) -> NoDup l ->
  greedy (unit_ids (World.graph w)) (deps_of (World.graph w)) l ->
  forall up w1, l = up ++ ids -> brought_up up w w1 ->
  post (start_ready em fuel ids) (fun b w' => b = true /\ brought_up l w w')
    (fun e w' => emission_failed e) w1.
Proof.
  intros Hf Hst Hin Hn Hgr. induction ids as [|id ids IH]; intros up w1 Hl Hb.
  { rewrite app_nil_r in Hl. by subst. }
  assert (is_Some (units_of (World.graph w) !! id)) as [u Hu] by (apply Hin; rewrite Hl; set_solver).
  assert (id ∉ up) as Hup by (rewrite Hl in Hn; apply NoDup_app in Hn as (_ & Hd & _);
    intros Hi; apply (Hd id Hi); by left).
  pose proof Hb as (Hg & He & Hd & Ho & Hr). pose proof (Ho id Hup) as Hu1. rewrite Hu in Hu1.
  cbn [start_ready]. unfold evaluate_readiness. unfold post, mbind_ at 1 2.
  rewrite list_dependencies_spec, Hu1. simpl.
  destruct (edges_ready_exact w1 (edges_of (World.graph w1) id)) as (b & -> & Hbr).
  { eapply Forall_impl; [by apply (proj2 Hg); eexists|]. by intros e [_ ?]. }
  assert (b = true) as ->.
  { apply Hbr. intros e Hee _. rewrite He in Hee.
    destruct (Hgr up id ids Hl) as [Hdep _].
    assert (DependencyEdge.to_unit_id e ∈ up) as Hup'
      by (apply Hdep; unfold deps_of; apply list_elem_of_fmap; eauto).
    destruct (proj2 (Hd (DependencyEdge.to_unit_id e))) as [v Hv]; [apply Hin; rewrite Hl; set_solver|].
    exists v. split; [done|]. by rewrite (Hr _ _ Hup' Hv). }
  simpl. eapply (post_bind (start em fuel id)).
  - eapply post_mono; [apply (start_reaches em fuel Hf id u w1 Hu1)| |by intros e ? [? _]].
    + specialize (Hst id u Hu). by destruct (ServiceUnit.state u).
    + intros r w2 Hr2. exact Hr2.
  - intros r w2 (u' & _ & Hm). apply (IH (up ++ [id])); [by rewrite <- app_assoc|].
    by eapply brought_up_start.
Qed.

(** C8: bringing a graph up: when the sort finds an order (the dependencies
    have no cycle), no dependency is a REQUIRES_HEALTHY one and every unit is
    new, queued, starting, stopped or running, starting the units in the order
    of [topological_sort] finds every unit ready when its turn comes and ends
    with all of them running; only a refused record can interrupt it.  (A
    target that is only started is running, not yet healthy, so nothing is said
    of graphs that require healthy targets.) *)
Theorem graph_comes_up em fuel (w : W) l : 4 <= fuel ->
  graph_ok (World.graph w) -> topological_sort w = (Ok (Some l), w) ->
  (forall id e, e ∈ edges_of (World.graph w) id ->
     DependencyEdge.kind e <> DependencyKind.RequiresHealthy) ->
  (forall id u, units_of (World.graph w) !! id = Some u -> startable (ServiceUnit.state u) = true) ->
  post (start_ready em fuel l)
    (fun b w' => b = true /\ forall id u, units_of (World.graph w') !! id = Some u ->
       ServiceUnit.state u = UnitState.Running)
    (fun e w' => emission_failed e) w.
Proof.
  intros Hf Hg Hl _ Hst. destruct (load_index_ok w Hg) as (idx & Hi & ok).
  unfold topological_sort, mbind_ in Hl. rewrite Hi in Hl. unfold lift in Hl. injection Hl as Hl.
  destruct (sort_index_exact _ _ _ ok) as [(k & Hk & _ & Hp & Hgr)|(c & Hc & _)]; [|by rewrite Hc in Hl].
  rewrite Hk in Hl. injection Hl as ->.
  assert (forall id, id ∈ l <-> is_Some (units_of (World.graph w) !! id)) as Hin
    by (intros id; rewrite Hp; apply elem_of_unit_ids).
  eapply post_mono; [eapply (start_ready_up em fuel w l l Hf Hst _ _ Hgr [] w)| |done].
  - done.
  - split_and!; [done|done|done|done|by intros ? ? ?%elem_of_nil].
  - intros b w' [-> (_ & _ & Hd & _ & Hr)]. split; [done|]. intros id u Hu.
    apply (Hr id u); [|done]. apply Hin, Hd. by eexists.
  Unshelve. all: [> intros id; apply Hin | rewrite Hp; apply unit_ids_nodup].
Qed.
End Sound.

(** The order is canonical: two graphs, of whatever implementation, log and
    iteration order, that register the same ids with the same dependencies get
    the same order. *)
Theorem topological_sort_canonical {G L G' L'} `{SgrEvidenceLog L} `{!SgrEvidenceLog L'}
    `{!SgrTexts} `{!ServiceGraph G L} `{!ServiceGraphLaws G L} `{!ServiceGraph G' L'}
    `{!ServiceGraphLaws G' L'} (w : World.t G L) (w' : World.t G' L') l l' :
  graph_ok (World.graph w) -> graph_ok (World.graph w') ->
  unit_ids (World.graph w) = unit_ids (World.graph w') ->
  (forall u, deps_of (World.graph w) u ≡ₚ deps_of (World.graph w') u) ->
  (topological_sort w).1 = Ok (Some l) -> (topological_sort w').1 = Ok (Some l') -> l = l'.
Proof.
  intros Hg Hg' Hu Hd Hl Hl'. 
  destruct (load_index_ok w Hg) as (idx & Hi & ok). destruct (load_index_ok w' Hg') as (idx' & Hi' & ok').
  unfold topological_sort, mbind_ in Hl, Hl'. rewrite Hi in Hl. rewrite Hi' in Hl'. simpl in Hl, Hl'.
  destruct (sort_index_exact _ _ _ ok) as [(k & Hk & _ & Hp & Hgr)|(c & Hc & _)]; [|by rewrite Hc in Hl].
  destruct (sort_index_exact _ _ _ ok') as [(k' & Hk' & _ & Hp' & Hgr')|(c & Hc & _)];
    [|by rewrite Hc in Hl'].
  rewrite Hk in Hl. rewrite Hk' in Hl'. injection Hl as ->. injection Hl' as ->.
  rewrite <- Hu in Hp', Hgr'.
  assert (greedy (unit_ids (World.graph w)) (deps_of (World.graph w)) l') as Hgr2.
  { intros pre x post Heq. destruct (Hgr' pre x post Heq) as [Hx1 Hx2].
    split; [intros v Hv; apply Hx1; by rewrite <- Hd|]. intros y Hy Hyp Hyd. apply Hx2; [done|done|].
    intros v Hv. apply Hyd. by rewrite Hd. }
  pose proof (unit_ids_nodup (World.graph w)) as Hn.
  eapply (greedy_unique _ _ _ ok); [exact Hgr|exact Hgr2|by rewrite Hp|by rewrite Hp'| | |by rewrite Hp, Hp'];
    intros u Huu; [by rewrite Hp in Huu|by rewrite Hp' in Huu].
Qed.

End EvaluatorSound.

(** ** The in-memory graph *)
Module InMemorySound.
Import InMemoryServiceGraph GraphEvaluator SgrIndex KahnSound EvaluatorSound.

Section Sound.
Context {L : Type} `{SgrEvidenceLog L} `{!SgrTexts}.
Context (values : gmap string ServiceUnit.t -> list ServiceUnit.t).
Hypothesis values_perm : forall us, values us ≡ₚ (map_to_list us).*2.
#[local] Instance graph_impl : ServiceGraph t L := in_memory values.
#[local] Instance graph_laws : ServiceGraphLaws t L := in_memory_laws values values_perm.

Abbreviation W := (World.t t L).

Lemma well_formed_ok g : well_formed g -> graph_ok g.
Proof.
  intros [Hu Hd]. split; [intros id u Hi; by apply Hu|]. intros id Hi. simpl.
  destruct (dependencies g !! id) as [es|] eqn:E; [|constructor]. by apply (Hd id es).
Qed.

Lemma depends_needs g a b : well_formed g -> depends g a b -> needs g a b.
Proof.
  intros [_ Hd] (e & He & <-). split; simpl.
  - apply elem_of_unit_ids. simpl. destruct (dependencies g !! a) as [es|] eqn:E;
      [by apply (Hd a es)|by apply elem_of_nil in He].
  - apply list_elem_of_fmap. eauto.
Qed.

Lemma cyclic_sort_fails (w : W) a :
  well_formed (World.graph w) -> tc (depends (World.graph w)) a a ->
  exists c, topological_sort w = (Err (SgrError.DependencyCycleDetected c), w) /\
    is_cycle_of (World.graph w) c.
Proof.
  intros Hwf Ha. destruct (load_index_ok w (well_formed_ok _ Hwf)) as (idx & Hl & ok).
  unfold topological_sort, mbind_. rewrite Hl. unfold lift.
  destruct (sort_index_exact _ _ _ ok) as [(l & _ & Hac & _)|(c & -> & Hc)]; [|by exists c].
  exfalso. apply (Hac a).
  apply (tc_congruence id (needs (World.graph w))) in Ha; [done|]. intros x y. by apply depends_needs.
Qed.

Lemma cyclic_step a (w w' : W) :
  step w w' -> well_formed (World.graph w) /\ tc (depends (World.graph w)) a a ->
  well_formed (World.graph w') /\ tc (depends (World.graph w')) a a.
Proof.
  intros Hs [Hwf Hc]. split; [by eapply step_well_formed|].
  apply (tc_congruence id (depends (World.graph w'))) in Hc; [done|]. intros x y.
  by apply step_depends.
Qed.

(** Nothing stops a declaration from closing a cycle, and nothing removes
    an edge: once a registered unit has been declared to depend on one that
    already depends on it (itself included), every later [topological_sort]
    fails with a cycle, whatever is registered, declared or changed in between. *)
Theorem closing_a_cycle_is_permanent (w w' : W) from to k :
  well_formed (World.graph w) -> is_Some (units (World.graph w) !! from) ->
  is_Some (units (World.graph w) !! to) -> rtc (depends (World.graph w)) to from ->
  rtc step (declare_dependency from to k w).2 w' ->
  exists c, topological_sort w' = (Err (SgrError.DependencyCycleDetected c), w') /\
    is_cycle_of (World.graph w') c.
Proof.
  intros Hwf [uf Huf] [ut Hut] Hr Hs. set (w1 := (declare_dependency from to k w).2) in *.
  assert (step w w1) as Hs1 by constructor.
  assert (forall a b, rtc (depends (World.graph w)) a b -> rtc (depends (World.graph w1)) a b) as Hmono.
  { intros a b. apply (rtc_congruence id). intros x y. by apply step_depends. }
  assert (depends (World.graph w1) from to) as Hft.
  { assert (World.graph w1 = add_edges from [{| DependencyEdge.from_unit_id := from;
      DependencyEdge.to_unit_id := to; DependencyEdge.kind := k |}] (World.graph w)) as ->.
    { unfold w1, declare_dependency, mbind_ at 1, get. rewrite Huf, Hut. simpl.
      unfold mbind_, modify. simpl.
      match goal with |- context [emit_dependency_declared ?em ?e ?w0] =>
        pose proof (declared_preserves (I := fun g => g = World.graph w0) em e w0 eq_refl) as Hd;
        destruct (emit_dependency_declared em e w0) as [[[]|?] ?] end; simpl in *; by rewrite Hd. }
    exists {| DependencyEdge.from_unit_id := from; DependencyEdge.to_unit_id := to;
              DependencyEdge.kind := k |}. split; [|done]. simpl. rewrite lookup_insert_eq. simpl. apply elem_of_app. right. by left. }
  assert (tc (depends (World.graph w1)) from from) as Hcyc by (eapply tc_rtc_r; [by apply tc_once|auto]).
  assert (well_formed (World.graph w1) /\ tc (depends (World.graph w1)) from from) as Hinv
    by (split; [by eapply step_well_formed|done]).
  assert (well_formed (World.graph w') /\ tc (depends (World.graph w')) from from) as [Hwf' Hcyc'].
  { apply (rtc_invariant _ (fun v => well_formed (World.graph v) /\ tc (depends (World.graph v)) from from)
      _ _ (cyclic_step from) Hinv Hs). }
  by eapply cyclic_sort_fails.
Qed.

(** The two views of the same graph agree but in one case: where
    [graph_state] says [CONVERGED] because every unit is at rest,
    [convergence_state] says [CONVERGING] if some unit rests in a state its
    desired state does not ask for. *)
Theorem graph_state_ignores_desire (w : W) :
  exists s, graph_state values w = (Ok s, w) /\
    state_of_units (values (units (World.graph w)))
    = (if bool_decide (s = GraphState.Converged) &&
          negb (forallb (fun u => desired_state_matches
            (UnitManifest.desired_state (ServiceUnit.manifest u)) (ServiceUnit.state u))
            (values (units (World.graph w))))
       then GraphState.Converging else s).
Proof.
  eexists. split; [reflexivity|]. set (us := values (units (World.graph w))).
  assert (length us = size (units (World.graph w))) as Hlen.
  { unfold us. by rewrite values_perm, length_fmap, length_map_to_list. }
  assert (units (World.graph w) = ∅ <-> us = []) as Hemp.
  { by rewrite <- map_size_empty_iff, <- Hlen, length_zero_iff_nil. }
  rewrite <- Hlen. clearbody us. unfold state_of_units. destruct us as [|u us].
  { by rewrite (bool_decide_eq_true_2 (units (World.graph w) = ∅)) by (by apply Hemp). }
  rewrite (bool_decide_eq_false_2 (units (World.graph w) = ∅)) by (intros He; by apply Hemp in He).
  set (l := u :: us).
  assert (forall p q, (forall x : ServiceUnit.t, p x = q x) -> existsb p l = existsb q l) as Hext.
  { intros p q Hpq. induction l as [|x l' IH]; [done|]. simpl. by rewrite Hpq, IH. }
  change (existsb (fun u => bool_decide (ServiceUnit.state u = UnitState.Failed)) l)
    with (existsb (in_state UnitState.Failed) l).
  destruct (existsb (in_state UnitState.Failed) l).
  { change (existsb (fun u => bool_decide (ServiceUnit.state u = UnitState.Failed) &&
      ServiceUnit.is_critical_unit u) l) with (existsb (fun u => in_state UnitState.Failed u &&
      ServiceUnit.is_critical_unit u) l).
    by destruct (_ || _). }
  rewrite (Hext (fun u => match ServiceUnit.state u with
      | UnitState.Degraded | UnitState.Unhealthy | UnitState.Retired => true | _ => false end)
      (in_states [UnitState.Degraded; UnitState.Unhealthy; UnitState.Retired]))
    by (intros x; unfold in_states, in_state; simpl; by destruct (ServiceUnit.state x)).
  destruct (existsb (in_states _) l); [done|].
  rewrite (Hext (fun u => is_transitional (ServiceUnit.state u))
      (in_states [UnitState.Draft; UnitState.Queued; UnitState.Starting; UnitState.Stopping]))
    by (intros x; unfold in_states, in_state; simpl; by destruct (ServiceUnit.state x)).
  destruct (existsb (in_states _) l); [done|].
  match goal with |- context [forallb ?p l] => by destruct (forallb p l) end.
Qed.
End Sound.
End InMemorySound.
