(* ===== verification/SgrAdapters.v ===== *)
(** * Service graph runtime: the adapter registry

    Adapter declarations ([adapter.rs]) and [SgrAdapterRegistry]
    ([adapter_registry.rs]).  The registry is the state component [G] of
    [World.t G L]. *)
From stdpp Require Import sorting.
From S2P Require Import Prelude Json Ids Records Redaction Receipt ChainSound StateError SgrTypes.

(** ** Declarations ([adapter.rs]) *)
Inductive AdapterCapabilityClass : Type :=
| FilesystemWrite | FilesystemRead | ServiceLifecycle | NetworkOutbound | VaultOperation
| GpuRender | GpuCompute | ExternalApiCall | EvidenceEmit | SchedulerPrivileged.
#[global] Instance AdapterCapabilityClass_eq_dec : EqDecision AdapterCapabilityClass.
Proof. solve_decision. Defined.

Inductive SgrAdapterIOMode : Type := TypedParametersOnly | TemplateParameters.
#[global] Instance SgrAdapterIOMode_eq_dec : EqDecision SgrAdapterIOMode.
Proof. solve_decision. Defined.

Inductive AdapterDispatchKind : Type := InProcessRpc | SubprocessFork | IsolatedSandbox | DryRun.
#[global] Instance AdapterDispatchKind_eq_dec : EqDecision AdapterDispatchKind.
Proof. solve_decision. Defined.

Inductive SgrAdapterStability : Type :=
| StabilityRegistered | Experimental | Stable | Deprecated | StabilityRetired.
#[global] Instance SgrAdapterStability_eq_dec : EqDecision SgrAdapterStability.
Proof. solve_decision. Defined.

Inductive AdapterFailureMode : Type :=
| SandboxApplicationFailed | AdapterTimeout | AdapterPanic | ResourceBudgetExceeded
| DependencyUnready | BackendUnavailable | RollbackPreconditionFailed | BindingExpired
| AdapterRefused | KindOrCapabilityOverrun.
#[global] Instance AdapterFailureMode_eq_dec : EqDecision AdapterFailureMode.
Proof. solve_decision. Defined.

Inductive AdapterRollbackStrategy : Type :=
| NoRollback | IdempotentReverse | CheckpointBased | ExternalRequired | UnspecifiedRollback.
#[global] Instance AdapterRollbackStrategy_eq_dec : EqDecision AdapterRollbackStrategy.
Proof. solve_decision. Defined.

Module SgrAdapterAction.
Record t : Type := {
  action_kind : string;
  target_schema : json;
  response_schema : json;
  rollback_strategy : AdapterRollbackStrategy;
  timeout_seconds : Z;
  template_string : option string;
  template_substitution_variables : list string;
  per_action_capabilities : list AdapterCapabilityClass;
}.
#[global] Instance t_eq_dec : EqDecision t.
Proof. solve_decision. Defined.
End SgrAdapterAction.

Module SgrAdapterManifest.
Record t : Type := {
  adapter_id : string;
  vendor : string;
  name : string;
  adapter_version : string;
  spec_version : string;
  declared_actions : list SgrAdapterAction.t;
  declared_capabilities : list AdapterCapabilityClass;
  declared_invariants_supported : list string;
  io_mode : SgrAdapterIOMode;
  preferred_dispatch_kind : AdapterDispatchKind;
  declared_stability : SgrAdapterStability;
  sandbox_profile_minimum : json;
  declared_failure_modes : list AdapterFailureMode;
  default_adapter_timeout_seconds : Z;
  default_rollback_timeout_seconds : Z;
  network_outbound_hosts : list string;
  external_api_hosts : list string;
  declared_evidence_record_types : list string;
  source_package_id : string;
  publisher_root_id : string;
  manifest_signature : list Z;
  signing_key_id : string;
  manifest_created_at : DateTime;
  manifest_expires_at : DateTime;
}.
#[global] Instance t_eq_dec : EqDecision t.
Proof. solve_decision. Defined.
End SgrAdapterManifest.

Module AdapterCapability.
Record t : Type := {
  capability_id : string;
  provides : list string;
  requires : list string;
  risk_template : string;
  manifest_signature_ed25519 : list Z;
}.
#[global] Instance t_eq_dec : EqDecision t.
Proof. solve_decision. Defined.

(** [SignedCapabilityBody]. *)
Definition signed_body (c : t) : json :=
  JObject [("capability_id", JString (capability_id c)); ("provides", JArray (JString <$> provides c));
           ("requires", JArray (JString <$> requires c)); ("risk_template", JString (risk_template c))].
End AdapterCapability.

Inductive AdapterDeclaration : Type :=
| Manifest (m : SgrAdapterManifest.t)
| Capability (c : AdapterCapability.t).
#[global] Instance AdapterDeclaration_eq_dec : EqDecision AdapterDeclaration.
Proof. solve_decision. Defined.

(** ** The registry ([adapter_registry.rs]) *)
Inductive AdapterRegistrationState : Type := Pending | Active | Suspended | Retired.
#[global] Instance AdapterRegistrationState_eq_dec : EqDecision AdapterRegistrationState.
Proof. solve_decision. Defined.

Record RegisteredAdapter : Type := {
  capability : AdapterCapability.t;
  declaration : AdapterDeclaration;
  registered_at : DateTime;
  adapter_state : AdapterRegistrationState;
}.

Definition set_adapter_state (s : AdapterRegistrationState) (a : RegisteredAdapter)
    : RegisteredAdapter :=
  {| capability := capability a; declaration := declaration a; registered_at := registered_at a;
     adapter_state := s |}.

Module SgrAdapterRegistry.
Section Registry.
Context {L : Type} `{SgrEvidenceLog L} `{!SgrTexts}.
Record t : Type := {
  adapters : gmap string RegisteredAdapter;
  trusted_authorities : gmap string VerifyingKey;
  evidence_emitter : option SgrEvidenceEmitter;
}.

Abbreviation W := (World.t t L).
Abbreviation M := (M W SgrError.t).

Definition new : t := {| adapters := ∅; trusted_authorities := ∅; evidence_emitter := None |}.
Definition with_trusted_authority (name : string) (key : VerifyingKey) : t :=
  {| adapters := ∅; trusted_authorities := <[name := key]> ∅; evidence_emitter := None |}.
Definition with_evidence_emitter (em : SgrEvidenceEmitter) (g : t) : t :=
  {| adapters := adapters g; trusted_authorities := trusted_authorities g;
     evidence_emitter := Some em |}.
Definition set_adapters (a : gmap string RegisteredAdapter) (g : t) : t :=
  {| adapters := a; trusted_authorities := trusted_authorities g;
     evidence_emitter := evidence_emitter g |}.

Definition canonical_capability_bytes (c : AdapterCapability.t) : result SgrError.t string :=
  map_err (fun err => SgrError.Internal ("adapter capability serialise: " +:+ err))
    (serde_json_to_vec (AdapterCapability.signed_body c)).

Definition declaration_signing_key_id (d : AdapterDeclaration) : result SgrError.t string :=
  match d with
  | Manifest m => Ok (SgrAdapterManifest.signing_key_id m)
  | Capability _ =>
      Err (SgrError.ManifestUnknownAuthority "adapter declaration missing signing_key_id")
  end.

Definition verify_capability_signature (g : t) (c : AdapterCapability.t) (d : AdapterDeclaration)
    : result SgrError.t () :=
  let? signing_key_id := declaration_signing_key_id d in
  let? key := ok_or (trusted_authorities g !! signing_key_id)
                (SgrError.ManifestUnknownAuthority signing_key_id) in
  let signature := AdapterCapability.manifest_signature_ed25519 c in
  if negb (length signature =? SIGNATURE_LENGTH)%nat then Err SgrError.ManifestSignatureInvalid
  else
    let? body := canonical_capability_bytes c in
    if verify key body signature then Ok () else Err SgrError.ManifestSignatureInvalid.

Definition adapter_signing_authority (a : RegisteredAdapter) : string :=
  let signature c := AdapterCapability.manifest_signature_ed25519 c in
  match declaration a with
  | Manifest m =>
      authority_with_signature_prefix (SgrAdapterManifest.signing_key_id m) (signature (capability a))
  | Capability c =>
      authority_with_signature_prefix (AdapterCapability.capability_id c) (signature c)
  end.

Definition emit_adapter_registered (em : option SgrEvidenceEmitter) (a : RegisteredAdapter) : M () :=
  emit em RecordType.AdapterRegistered
    (JObject [UnitManifest.str "capability_id" (AdapterCapability.capability_id (capability a));
              UnitManifest.str "registered_at" (datetime_to_json (registered_at a));
              UnitManifest.str "signing_authority" (adapter_signing_authority a)]).

Definition register_adapter (c : AdapterCapability.t) (d : AdapterDeclaration) : M RegisteredAdapter :=
  let! w := get in
  let g := World.graph w in
  let! _ := lift (verify_capability_signature g c d) in
  let id := AdapterCapability.capability_id c in
  match adapters g !! id with
  | Some existing =>
      if bool_decide (capability existing = c) && bool_decide (declaration existing = d)
      then ret existing
      else throw (SgrError.Internal ("adapter capability already registered: " +:+ id))
  | None =>
      let! now := utc_now in
      let registered := {| capability := c; declaration := d; registered_at := now;
                           adapter_state := Active |} in
      let! _ := modify (set_graph (set_adapters (<[id := registered]> (adapters g)) g)) in
      let! _ := emit_adapter_registered (evidence_emitter g) registered in
      ret registered
  end.

Definition not_found (id : string) : SgrError.t :=
  SgrError.Internal ("adapter capability not found: " +:+ id).

Definition lookup_adapter (id : string) : M RegisteredAdapter :=
  let! w := get in lift (ok_or (adapters (World.graph w) !! id) (not_found id)).

Fixpoint required_strings (unit_id : string) (vs : list json) : result SgrError.t (list string) :=
  match vs with
  | [] => Ok []
  | v :: vs =>
      let? s := ok_or (as_str v)
        (SgrError.Internal ("unit manifest requires entries must be strings: " +:+ unit_id)) in
      let? ss := required_strings unit_id vs in
      Ok (s :: ss)
  end.

Definition manifest_required_capabilities (m : UnitManifest.t) : result SgrError.t (list string) :=
  match json_get (UnitManifest.adapter_target m) "requires" with
  | None => Ok []
  | Some (JArray vs) => required_strings (UnitManifest.unit_id m) vs
  | Some _ => Err (SgrError.Internal ("unit manifest requires must be a list: "
                                        +:+ UnitManifest.unit_id m))
  end.

Definition change_state (id : string) (s : AdapterRegistrationState) : M () :=
  let! w := get in
  let g := World.graph w in
  match adapters g !! id with
  | None => throw (not_found id)
  | Some a => modify (set_graph (set_adapters (<[id := set_adapter_state s a]> (adapters g)) g))
  end.
Definition suspend_adapter (id reason : string) : M () := change_state id Suspended.
Definition retire_adapter (id : string) : M () := change_state id Retired.

(** ** Runs of the registry *)
Inductive step : W -> W -> Prop :=
| step_register c d w : step w (register_adapter c d w).2
| step_suspend id reason w : step w (suspend_adapter id reason w).2
| step_retire id w : step w (retire_adapter id w).2.

(** Adapters are stored under the id of their capability, whose signature by a
    trusted authority verifies, and have left [Pending]. *)
Definition authentic (g : t) : Prop := forall id a, adapters g !! id = Some a ->
  AdapterCapability.capability_id (capability a) = id /\
  verify_capability_signature g (capability a) (declaration a) = Ok () /\
  adapter_state a <> Pending.

Lemma emit_registered_graph em a (w : W) :
  World.graph (emit_adapter_registered em a w).2 = World.graph w.
Proof.
  pose proof (emit_post em RecordType.AdapterRegistered
    (JObject [UnitManifest.str "capability_id" (AdapterCapability.capability_id (capability a));
              UnitManifest.str "registered_at" (datetime_to_json (registered_at a));
              UnitManifest.str "signing_authority" (adapter_signing_authority a)]) w) as Hp.
  unfold post in Hp. unfold emit_adapter_registered.
  destruct (emit _ _ _ w) as [[[]|e] w']; [done|by apply Hp].
Qed.

Lemma register_cases c d (w : W) :
  let g := World.graph w in let id := AdapterCapability.capability_id c in
  World.graph (register_adapter c d w).2 = g \/
  (adapters g !! id = None /\ verify_capability_signature g c d = Ok () /\
   World.graph (register_adapter c d w).2
   = set_adapters (<[id := {| capability := c; declaration := d;
       registered_at := World.clock w (World.reads w); adapter_state := Active |}]> (adapters g)) g).
Proof.
  cbv zeta. unfold register_adapter, mbind_, get, lift, utc_now, modify, ret, throw.
  destruct (verify_capability_signature _ c d) as [[]|e]; [|by left].
  destruct (adapters (World.graph w) !! _) as [a|] eqn:E; [left; by destruct (_ && _)|].
  right. split_and!; [done|done|].
  match goal with |- context [emit_adapter_registered ?em ?a ?w0] =>
    pose proof (emit_registered_graph em a w0) as Hg;
    destruct (emit_adapter_registered em a w0) as [[[]|e] w'] end; simpl in *; by rewrite Hg.
Qed.

Lemma step_authentic w w' : step w w' -> authentic (World.graph w) -> authentic (World.graph w').
Proof.
  intros Hs Ha.
  assert (forall id s, s <> Pending -> authentic (World.graph (change_state id s w).2)) as Hc.
  { intros id s Hp. unfold change_state, mbind_, get, modify, throw.
    destruct (adapters (World.graph w) !! id) as [a|] eqn:E; [|done]. simpl.
    intros i b. simpl. intros [[<- <-]|[_ Hb]]%lookup_insert_Some; [|by apply Ha].
    destruct (Ha id a E) as (? & ? & _). by split_and!. }
  destruct Hs as [c d w|id reason w|id w]; [|by apply Hc|by apply Hc].
  destruct (register_cases c d w) as [->|(Hn & Hv & ->)]; [done|].
  intros i b. simpl. intros [[<- <-]|[_ Hb]]%lookup_insert_Some; [|by apply Ha]. by split_and!.
Qed.

(** Whatever is registered, suspended and retired, every adapter a lookup
    returns is the one of that id and carries the signature of a trusted
    authority over its capability. *)
Theorem registry_is_authentic w w' id a :
  adapters (World.graph w) = ∅ -> rtc step w w' ->
  (lookup_adapter id w').1 = Ok a ->
  AdapterCapability.capability_id (capability a) = id /\
  verify_capability_signature (World.graph w') (capability a) (declaration a) = Ok ().
Proof.
  intros He Hs Hl.
  assert (authentic (World.graph w')) as Ha.
  { eapply (rtc_invariant _ (fun w => authentic (World.graph w))); [apply step_authentic| |exact Hs].
    intros i b. by rewrite He, lookup_empty. }
  unfold lookup_adapter, mbind_, get, lift in Hl. apply ok_or_ok in Hl.
  by destruct (Ha id a Hl) as (? & ? & _).
Qed.

(** The signature of a registration covers the capability only: with the
    key fixed, any other declaration, with other actions, schemas, capability
    classes and hosts, is accepted under the same signature. *)
Theorem declaration_is_unsigned g c m m' :
  SgrAdapterManifest.signing_key_id m' = SgrAdapterManifest.signing_key_id m ->
  verify_capability_signature g c (Manifest m') = verify_capability_signature g c (Manifest m).
Proof. unfold verify_capability_signature. simpl. by intros ->. Qed.

(** Retirement is not final: suspending a retired adapter makes it
    suspended again. *)
Theorem suspension_revives_retired w id a reason :
  adapters (World.graph w) !! id = Some a ->
  (lookup_adapter id (suspend_adapter id reason (retire_adapter id w).2).2).1
  = Ok (set_adapter_state Suspended a).
Proof.
  intros Ha. unfold retire_adapter, change_state, mbind_, get, modify. rewrite Ha. simpl.
  unfold suspend_adapter, change_state, mbind_, get, modify. simpl. rewrite lookup_insert_eq. simpl.
  rewrite lookup_insert_eq. by destruct a.
Qed.

End Registry.

(** ** Selection *)
Section Selection.
Context {L : Type} `{SgrEvidenceLog L} `{!SgrTexts}.
(** The iteration order of the map of adapters. *)
Variable values : gmap string RegisteredAdapter -> list RegisteredAdapter.

Abbreviation W := (World.t t L).
Abbreviation M := (M W SgrError.t).

Definition list_adapters : M (list RegisteredAdapter) :=
  let! w := get in ret (values (adapters (World.graph w))).

(** The order of the candidates: by registration time, then by id. *)
Definition candidate_le (a b : RegisteredAdapter) : bool :=
  (registered_at a <? registered_at b)%Z ||
  ((registered_at a =? registered_at b)%Z &&
   str_le (AdapterCapability.capability_id (capability a))
     (AdapterCapability.capability_id (capability b))).

Definition satisfies (required : list string) (a : RegisteredAdapter) : bool :=
  forallb (fun r => bool_decide (r ∈ AdapterCapability.provides (capability a))) required.

Definition find_adapter_for_unit (m : UnitManifest.t) : M (option RegisteredAdapter) :=
  let! required := lift (manifest_required_capabilities m) in
  match required with
  | [] => ret None
  | _ =>
      let! w := get in
      let candidates := filter (fun a => adapter_state a = Active) (values (adapters (World.graph w))) in
      ret (iter_find (satisfies required)
             (merge_sort (fun a b => Is_true (candidate_le a b)) candidates))
  end.

Lemma str_le_String a b : str_le a b = true <-> String.le a b.
Proof.
  unfold str_le, String.le, String.leb. rewrite Is_true_true. by destruct (String.compare a b).
Qed.

#[local] Instance candidate_total : Total (fun a b => Is_true (candidate_le a b)).
Proof.
  intros a b. rewrite !Is_true_true. unfold candidate_le. rewrite !orb_true_iff, !andb_true_iff.
  rewrite !Z.ltb_lt, !Z.eqb_eq, !str_le_String.
  destruct (Z.lt_trichotomy (registered_at a) (registered_at b)) as [?|[?|?]]; [auto| |auto].
  destruct (total String.le (AdapterCapability.capability_id (capability a))
    (AdapterCapability.capability_id (capability b))); [left|right]; right; auto.
Qed.

#[local] Instance candidate_trans : Transitive (fun a b => Is_true (candidate_le a b)).
Proof.
  intros a b c. rewrite !Is_true_true. unfold candidate_le. rewrite !orb_true_iff, !andb_true_iff.
  rewrite !Z.ltb_lt, !Z.eqb_eq, !str_le_String.
  intros [?|[? ?]] [?|[? ?]]; [left; lia|left; lia|left; lia|right]. split; [lia|by etrans].
Qed.

Lemma iter_find_sorted (p : RegisteredAdapter -> bool) l a :
  StronglySorted (fun a b => Is_true (candidate_le a b)) l -> iter_find p l = Some a ->
  forall b, b ∈ l -> p b = true -> b = a \/ Is_true (candidate_le a b).
Proof.
  induction 1 as [|x l _ IH Hx]; simpl; [done|]. destruct (p x) eqn:E.
  - intros [= ->] b [->|Hb]%elem_of_cons _; [by left|right].
    by apply (proj1 (Forall_forall _ _) Hx).
  - intros Hf b [->|Hb]%elem_of_cons Hp; [congruence|auto].
Qed.

(** The adapter chosen for a unit that requires capabilities is an active
    one that provides all of them, and the first registered of those (the least
    id at equal times); none is chosen exactly when no active adapter provides
    them all.  The iteration order of the map does not matter. *)
Theorem find_adapter_exact w m r rs :
  (forall g, values g ≡ₚ (map_to_list g).*2) ->
  manifest_required_capabilities m = Ok (r :: rs) ->
  let eligible a := (exists id, adapters (World.graph w) !! id = Some a) /\
    adapter_state a = Active /\
    forall x, x ∈ r :: rs -> x ∈ AdapterCapability.provides (capability a) in
  match find_adapter_for_unit m w with
  | (Ok (Some a), w') => w' = w /\ eligible a /\
      forall b, eligible b -> b = a \/ candidate_le a b = true
  | (Ok None, w') => w' = w /\ forall b, ~ eligible b
  | (Err _, _) => False
  end.
Proof.
  intros Hval Hreq eligible. unfold find_adapter_for_unit, mbind_, lift, get. rewrite Hreq.
  unfold ret. set (cs := filter _ _). set (sorted := merge_sort _ cs).
  assert (forall a, a ∈ sorted /\ satisfies (r :: rs) a = true <-> eligible a) as He.
  { intros a. unfold sorted, eligible. rewrite merge_sort_Permutation. unfold cs.
    rewrite list_elem_of_filter, Hval, list_elem_of_fmap. unfold satisfies.
    rewrite forallb_elem. setoid_rewrite bool_decide_eq_true. split.
    - intros [[Hs ([id b] & -> & Hb%elem_of_map_to_list)] Hall]. split_and!; eauto.
    - intros ((id & Hid) & Hs & Hall). split_and!; [done| |done].
      exists (id, a). split; [done|]. by apply elem_of_map_to_list. }
  destruct (iter_find (satisfies (r :: rs)) sorted) as [a|] eqn:Ef.
  - split; [done|]. split; [by apply He, iter_find_Some|]. intros b [Hb Hp]%He.
    destruct (iter_find_sorted _ _ _ ltac:(apply StronglySorted_merge_sort; apply _) Ef b Hb Hp)
      as [->|Hle]; [by left|right]. by apply Is_true_true.
  - split; [done|]. intros b [Hb Hp]%He. by rewrite (proj1 (iter_find_None _ _) Ef b Hb) in Hp.
Qed.
End Selection.
End SgrAdapterRegistry.
