(* ===== verification/SgrRuntime.v ===== *)
(** * Service graph runtime: unit lifecycles through the Capability Runtime

    [SgrCapabilityAdapter] ([runtime_adapter.rs]): a unit is started or stopped
    by submitting an action to the Capability Runtime and moving the unit by
    the status of the context that comes back.  The runtime is the class
    [CapabilityRuntime]; the state is the pair of the graph's world and the
    runtime's.  The theorems say what each outcome does to the unit and, with
    the runtime of [RtPipeline] under the in-memory Policy Kernel, that a unit
    only comes to run on a live grant.  Then [SgrRecoveryHook]
    ([recovery_adapter.rs]): pausing units for recovery. *)
From S2P Require Import Prelude Collections Json Action Ids PolicyTypes HardDeny Override Cache Hydration Bundle Pipeline Kernel Records Redaction Receipt ChainSound StateError Lifecycle DispatchQueue Adapters Approvals Rollback Emit RtPipeline RtSound Runtime SgrTypes SgrGraph SgrFsm SgrEval SgrKahn.

Module SgrRuntime.
Import UnitFsmDriver.

Definition SGR_RUNTIME_SUBJECT : string := "_system:sgr".
Definition UNIT_START_ACTION : string := "unit.start".
Definition UNIT_STOP_ACTION : string := "unit.stop".
Definition DEFAULT_CODE_VERSION : string := "0.1.0-T093".

(** The trait [CapabilityRuntime], as far as the adapter calls it. *)
Class CapabilityRuntime (Rt : Type) := {
  rt_submit_action : Envelope.t -> RuntimeContext.t -> Rt ->
    result RuntimeError.t ActionContext.t * Rt;
}.

(** [Display] and [Debug] texts, which only reach messages and reasons. *)
Class AdapterTexts := {
  sgr_error_text : SgrError.t -> string;
  runtime_error_text : RuntimeError.t -> string;
  status_debug : ActionLifecycleState.t -> string;
  failure_debug : ExecutionFailureReason.t -> string;
}.

(** *** Envelopes *)
Definition unit_target (u : ServiceUnit.t) (adapter_id lifecycle_intent : string) : json :=
  let m := ServiceUnit.manifest u in
  JObject [("unit_id", JString (ServiceUnit.unit_id u)); ("adapter_id", JString adapter_id);
           ("adapter_target", UnitManifest.adapter_target m);
           ("lifecycle_intent", JString lifecycle_intent);
           ("manifest", JObject [
              ("display_name", JString (UnitManifest.display_name m));
              ("unit_kind", JString (UnitKind.wire (UnitManifest.unit_kind m)));
              ("sandbox_profile_ref", JString (UnitManifest.sandbox_profile_ref m));
              ("startup_deadline_seconds", JInt (UnitManifest.startup_deadline_seconds m));
              ("stop_deadline_seconds", JInt (UnitManifest.stop_deadline_seconds m))])].

Definition with_key (key : string) (r : Request) : Request :=
  {| action := action r; target := target r; idempotency_key := Some key;
     parent_action_id := parent_action_id r; dry_run := dry_run r |}.

Definition build_unit_action (now : DateTime) (u : ServiceUnit.t) (action lifecycle_intent : string)
    : result SgrError.t Envelope.t :=
  let? adapter_id := ok_or (UnitManifest.adapter_id (ServiceUnit.manifest u))
    (SgrError.AdapterCapabilityMismatch (ServiceUnit.unit_id u) ["adapter_id"]) in
  let request := with_key (action +:+ ":" +:+ ServiceUnit.unit_id u)
                   (new_request action (unit_target u adapter_id lifecycle_intent)) in
  Ok (Envelope.new now
        {| subject_canonical_id := SGR_RUNTIME_SUBJECT; identity_is_ai := false; session_id := None |}
        request
        {| trace_id := "00000000000000000000000000000091"; span_id := "0000000000000091";
           parent_span_id := None |}).

(** [DefaultUnitActionFactory::build_action]. *)
Definition build_action (now : DateTime) (u : ServiceUnit.t) : result SgrError.t Envelope.t :=
  build_unit_action now u UNIT_START_ACTION "start".

(** [Map::insert]: the value of a key, replaced or added. *)
Fixpoint map_insert (k : string) (v : json) (m : list (string * json)) : list (string * json) :=
  match m with
  | [] => [(k, v)]
  | e :: m => if String.eqb e.1 k then (k, v) :: m else e :: map_insert k v m
  end.

Definition retarget_for_stop (env : Envelope.t) : Envelope.t :=
  let r := Envelope.request env in
  let unit_id := default "unknown" (json_get (target r) "unit_id" ≫= as_str) in
  let target := match target r with
                | JObject m => JObject (map_insert "lifecycle_intent" (JString "stop") m)
                | v => v
                end in
  {| Envelope.schema_version := Envelope.schema_version env;
     Envelope.identity := Envelope.identity env;
     Envelope.request := {| action := UNIT_STOP_ACTION; target := target;
                            idempotency_key := Some (UNIT_STOP_ACTION +:+ ":" +:+ unit_id);
                            parent_action_id := parent_action_id r; dry_run := dry_run r |};
     Envelope.execution := Envelope.execution env; Envelope.trace := Envelope.trace env |}.

Definition runtime_context : RuntimeContext.t :=
  RuntimeContext.new SGR_RUNTIME_SUBJECT "sgr-runtime-adapter" DEFAULT_CODE_VERSION.

Section Adapter.
Context {G L Rt : Type} `{SgrEvidenceLog L} `{!SgrTexts} `{!ServiceGraph G L}
  `{!CapabilityRuntime Rt} `{!AdapterTexts}.
Variable evidence_emitter : option SgrEvidenceEmitter.
Variable fuel : nat.
(** The action factory; the clock is read once per envelope. *)
Variable factory : DateTime -> ServiceUnit.t -> result SgrError.t Envelope.t.

Abbreviation W := (World.t G L).
Abbreviation MW := (M (World.t G L) SgrError.t).
Abbreviation MR := (M (World.t G L * Rt) SgrError.t).

Definition runtime_error_to_sgr (e : RuntimeError.t) : SgrError.t :=
  SgrError.Internal ("capability runtime submission failed: " +:+ runtime_error_text e).

Definition failure_reason (ctx : ActionContext.t) : string :=
  match ActionContext.error ctx with
  | None => "capability runtime action ended as " +:+ status_debug (ActionContext.status ctx)
  | Some reason => "capability runtime action failed: " +:+ failure_debug reason
  end.

(** What the status of the context asks of the driver; [on_success] is the
    operation of the intent. *)
Definition effect (on_success : op) (ctx : ActionContext.t) : option op :=
  match ActionContext.status ctx with
  | ActionLifecycleState.Succeeded => Some on_success
  | ActionLifecycleState.Failed | ActionLifecycleState.PolicyDenied
  | ActionLifecycleState.OverrideDenied | ActionLifecycleState.RollbackFailed =>
      Some (MarkFailed (failure_reason ctx))
  | ActionLifecycleState.RolledBack => Some (MarkFailed "runtime rolled back")
  | _ => None
  end.

(** [apply_start_result] and [apply_stop_result]. *)
Definition apply_result (on_success : op) (id : string) (ctx : ActionContext.t) : MW (option ()) :=
  match effect on_success ctx with
  | None => ret (Some ())
  | Some o => let! r := perform evidence_emitter fuel o id in ret ((fun _ => ()) <$> r)
  end.

Definition mark_failed_best_effort (id reason : string) : MW (option ()) :=
  let! r := mark_failed evidence_emitter fuel id reason in ret ((fun _ => ()) <$> r).

(** An error of the runtime, or of the factory, after the unit is marked. *)
Definition fail_with {B} (id reason : string) (e : SgrError.t) : MR (option B) :=
  let! r := on_fst (mark_failed_best_effort id reason) in
  match r with None => ret None | Some _ => throw e end.

Definition submit_or_fail (id : string) (env : Envelope.t) : MR (option ActionContext.t) := fun s =>
  match rt_submit_action env runtime_context s.2 with
  | (Ok ctx, rt) => (Ok (Some ctx), (s.1, rt))
  | (Err err, rt) => fail_with id (runtime_error_text err) (runtime_error_to_sgr err) (s.1, rt)
  end.

(** The two methods differ in the envelope and in the operation of success. *)
Definition unit_via_runtime (retarget : Envelope.t -> Envelope.t) (on_success : op) (id : string)
    : MR (option ActionContext.t) :=
  let! unit := on_fst (sg_get_unit id) in
  let! now := on_fst utc_now in
  match factory now unit with
  | Err err => fail_with id (sgr_error_text err) err
  | Ok env =>
      let! ctx := submit_or_fail id (retarget env) in
      match ctx with
      | None => ret None
      | Some ctx =>
          let! r := on_fst (apply_result on_success id ctx) in ret (r ≫= fun _ => Some ctx)
      end
  end.
Definition start_unit_via_runtime (id : string) : MR (option ActionContext.t) :=
  unit_via_runtime (fun env => env) Start id.
Definition stop_unit_via_runtime (id : string) : MR (option ActionContext.t) :=
  unit_via_runtime retarget_for_stop Stop id.

(** ** What the outcome of an action does to its unit *)
Context `{!ServiceGraphLaws G L}.
Hypothesis rounds : 4 <= fuel.

(** The unit [id] of [w], which is [u], after the operation [o] of the driver:
    moved where [goal] says, or left alone with an error; evidence that is
    refused leaves it moved (a restart can stop half way). *)
Definition after (o : op) (id : string) (u : ServiceUnit.t) (w w' : W) : Prop :=
  match goal o (ServiceUnit.state u) with
  | Ok s => exists u' s', (s' = s \/ (o = Restart /\ s' = UnitState.Stopped)) /\ moved id s' u u' w w'
  | Err _ => w' = w
  end.

Lemma perform_after o id u w :
  units_of (World.graph w) !! id = Some u ->
  after o id u w (perform evidence_emitter fuel o id w).2 /\
  (perform evidence_emitter fuel o id w).1 <> Ok None.
Proof.
  intros Hu. pose proof (perform_spec evidence_emitter fuel rounds o id w u Hu) as Hp. unfold after.
  destruct (goal o (ServiceUnit.state u)) as [s|e]; [|by rewrite Hp]. unfold post in Hp.
  destruct (perform _ _ _ _ _) as [[r|e] w']; simpl.
  - destruct Hp as (u' & -> & Hm). split; [|done]. exists u', s. auto.
  - destruct Hp as (_ & u' & s' & ? & ?). split; [|done]. eauto.
Qed.

(** The world when the runtime is asked: the clock has been read. *)
Definition asked (w : W) : W := (utc_now w).2.

Lemma asked_graph w : World.graph (asked w) = World.graph w.
Proof. done. Qed.

Lemma via_runtime_eq retarget on_success id u env w rt :
  units_of (World.graph w) !! id = Some u ->
  factory (World.clock w (World.reads w)) u = Ok env ->
  unit_via_runtime retarget on_success id (w, rt)
  = match rt_submit_action (retarget env) runtime_context rt with
    | (Ok ctx, rt') =>
        match apply_result on_success id ctx (asked w) with
        | (Ok r, w') => (Ok (r ≫= fun _ => Some ctx), (w', rt'))
        | (Err e, w') => (Err e, (w', rt'))
        end
    | (Err e, rt') =>
        match mark_failed evidence_emitter fuel id (runtime_error_text e) (asked w) with
        | (Ok None, w') => (Ok None, (w', rt'))
        | (Ok (Some _), w') => (Err (runtime_error_to_sgr e), (w', rt'))
        | (Err e', w') => (Err e', (w', rt'))
        end
    end.
Proof.
  intros Hu Hf. unfold unit_via_runtime, on_fst, mbind_. simpl.
  rewrite get_unit_spec, Hu. simpl. rewrite Hf. unfold submit_or_fail, asked. simpl.
  destruct (rt_submit_action _ _ _) as [[ctx|e] rt']; simpl.
  - by destruct (apply_result _ _ _ _) as [[r|e] w'].
  - unfold fail_with, on_fst, mark_failed_best_effort, mbind_. simpl.
    by destruct (mark_failed _ _ _ _ _) as [[[v|]|e'] w'].
Qed.

(** The outcome of a lifecycle action decides what happens to the unit:
    the runtime is asked once, about the envelope the factory builds from the
    unit as it was read; a succeeded action performs the operation, a failed,
    denied or rolled back one marks the unit failed, an error of the runtime
    too, and any other status (an approval that is pending) leaves the unit
    alone.  No loop of the driver runs out of rounds. *)
Lemma outcome_of_unit retarget on_success id u env w rt :
  units_of (World.graph w) !! id = Some u ->
  factory (World.clock w (World.reads w)) u = Ok env ->
  let answer := rt_submit_action (retarget env) runtime_context rt in
  let s := unit_via_runtime retarget on_success id (w, rt) in
  s.2.2 = answer.2 /\ s.1 <> Ok None /\
  match answer.1 with
  | Ok ctx =>
      match effect on_success ctx with
      | None => s.1 = Ok (Some ctx) /\ s.2.1 = asked w
      | Some o => after o id u (asked w) s.2.1
      end
  | Err e => after (MarkFailed (runtime_error_text e)) id u (asked w) s.2.1
  end.
Proof.
  intros Hu Hf. cbv zeta. rewrite (via_runtime_eq retarget on_success id u env w rt Hu Hf).
  assert (units_of (World.graph (asked w)) !! id = Some u) as Hua by done.
  destruct (rt_submit_action (retarget env) runtime_context rt) as [[ctx|e] rt']; simpl.
  - unfold apply_result. destruct (effect on_success ctx) as [o|]; [|done].
    destruct (perform_after o id u (asked w) Hua) as [Hp Hn]. unfold mbind_.
    destruct (perform _ _ _ _ _) as [[[v|]|e] w']; simpl in *; by split_and!.
  - destruct (perform_after (MarkFailed (runtime_error_text e)) id u (asked w) Hua) as [Hp Hn].
    simpl in Hp, Hn. destruct (mark_failed _ _ _ _ _) as [[[v|]|e'] w']; simpl in *; by split_and!.
Qed.

Lemma after_unit o id u w w' u' :
  units_of (World.graph w) !! id = Some u -> after o id u w w' ->
  units_of (World.graph w') !! id = Some u' -> ServiceUnit.state u' <> ServiceUnit.state u ->
  exists s, goal o (ServiceUnit.state u) = Ok s /\
    (ServiceUnit.state u' = s \/ (o = Restart /\ ServiceUnit.state u' = UnitState.Stopped)).
Proof.
  unfold after. intros Hu Ha Hu' Hne. destruct (goal o _) as [s|e]; [|subst; congruence].
  destruct Ha as (v & s' & Hs & Hm). pose proof (moved_lookup _ _ _ _ _ _ Hm) as Hv.
  rewrite Hv in Hu'. injection Hu' as ->. exists s. split; [done|].
  destruct Hm as (<- & _). naive_solver.
Qed.

Lemma goal_not_running o s : goal o s = Ok UnitState.Running -> o = Start \/ o = Restart.
Proof. destruct o, s; simpl; intros; simplify_eq; auto. Qed.

(** A unit that runs after [start_unit_via_runtime] and did not before was
    started because the runtime answered that the action succeeded. *)
Lemma success_of_running id u u' env w rt :
  units_of (World.graph w) !! id = Some u ->
  factory (World.clock w (World.reads w)) u = Ok env ->
  units_of (World.graph (start_unit_via_runtime id (w, rt)).2.1) !! id = Some u' ->
  ServiceUnit.state u <> UnitState.Running -> ServiceUnit.state u' = UnitState.Running ->
  exists ctx, (rt_submit_action env runtime_context rt).1 = Ok ctx /\
    ActionContext.status ctx = ActionLifecycleState.Succeeded.
Proof.
  intros Hu Hf Hu' Hn Hr. unfold start_unit_via_runtime in Hu'.
  destruct (outcome_of_unit (fun env => env) Start id u env w rt Hu Hf) as (_ & _ & Ho).
  destruct (rt_submit_action env runtime_context rt).1 as [ctx|e]; cycle 1.
  - apply (after_unit _ _ _ _ _ u') in Ho; [|done|done|congruence].
    destruct Ho as (s & Hg & [<-|[? Hs]]); [|congruence]. rewrite Hr in Hg.
    apply goal_not_running in Hg. naive_solver.
  - exists ctx. split; [done|]. unfold effect in Ho.
    destruct (ActionContext.status ctx); try done;
      try (destruct Ho as [_ Ho]; rewrite Ho in Hu'; simpl in Hu'; congruence).
    all: apply (after_unit _ _ _ _ _ u') in Ho; [|done|done|congruence];
      destruct Ho as (s & Hg & [<-|[? Hs]]); [|congruence]; rewrite Hr in Hg;
      apply goal_not_running in Hg; naive_solver.
Qed.

(** A denied stop fails the unit: when the runtime answers that stopping a
    live unit is denied by policy, the unit does not stay as it was but is
    marked [FAILED]. *)
Theorem denied_stop_fails_the_unit id u u' env ctx w rt :
  units_of (World.graph w) !! id = Some u ->
  factory (World.clock w (World.reads w)) u = Ok env ->
  (rt_submit_action (retarget_for_stop env) runtime_context rt).1 = Ok ctx ->
  ActionContext.status ctx = ActionLifecycleState.PolicyDenied ->
  ServiceUnit.state u = UnitState.Running \/ ServiceUnit.state u = UnitState.Healthy \/
  ServiceUnit.state u = UnitState.Degraded \/ ServiceUnit.state u = UnitState.Unhealthy ->
  units_of (World.graph (stop_unit_via_runtime id (w, rt)).2.1) !! id = Some u' ->
  ServiceUnit.state u' = UnitState.Failed.
Proof.
  intros Hu Hf Ha Hs Hl Hu'. unfold stop_unit_via_runtime in Hu'.
  destruct (outcome_of_unit retarget_for_stop Stop id u env w rt Hu Hf) as (_ & _ & Ho).
  rewrite Ha in Ho. unfold effect in Ho. rewrite Hs in Ho.
  unfold after in Ho.
  assert (goal (MarkFailed (failure_reason ctx)) (ServiceUnit.state u) = Ok UnitState.Failed) as Hg
    by (by destruct Hl as [->|[->|[->| ->]]]).
  rewrite Hg in Ho. destruct Ho as (v & s' & [->|[? _]] & Hm); [|done].
  rewrite (moved_lookup _ _ _ _ _ _ Hm) in Hu'. injection Hu' as <-. apply Hm.
Qed.
End Adapter.
End SgrRuntime.

(** ** The Capability Runtime behind the trait

    [PipelineRuntime] is the runtime of [RtPipeline] with the readings of the
    environment its successive submissions make. *)
Module GovernedUnits.
Import UnitFsmDriver SgrRuntime.
Section Props.
Context {H S A : Type} `{!SubjectHydrator H} {Lru : LruCache CacheKey PolicyDecision}.
Context `{!Primitives} `{!EvidenceSink S} `{!ApprovalBindingSink A} `{!RtPipeline.Texts}.
Variable order : gmap string Registry.RegisteredAdapter -> list Registry.RegisteredAdapter.
Variable grants_in_order : OverrideBoundary.t -> list EmergencyOverride.
Variable cfg : RtPipeline.Config.

Record PipelineRuntime : Type := {
  runtime : RtPipeline.World (Governed.GovernedKernel (H := H)) S A;
  ambients : nat -> RtAmbient;
  submissions : nat;
}.

#[local] Instance governed_kernel : PolicyKernelT (Governed.GovernedKernel (H := H)) :=
  Governed.governed grants_in_order.

#[local] Instance pipeline_runtime : CapabilityRuntime PipelineRuntime := {|
  rt_submit_action env rc g :=
    let '(r, w) := RtPipeline.submit_action order (ambients g (submissions g)) cfg env rc (runtime g) in
    (r, {| runtime := w; ambients := ambients g; submissions := Datatypes.S (submissions g) |}) |}.

Context {G L : Type} `{!SgrEvidenceLog L} `{!SgrTexts} `{!ServiceGraph G L} `{!AdapterTexts}
  `{!ServiceGraphLaws G L}.
Variable evidence_emitter : option SgrEvidenceEmitter.
Variable fuel : nat.
Hypothesis rounds : 4 <= fuel.
Variable factory : DateTime -> ServiceUnit.t -> result SgrError.t Envelope.t.

(** C3: from the unit to the grant, through three crates: a unit that runs
    after [start_unit_via_runtime] and did not before was started by an
    envelope that is well formed, of a subject that was hydrated, that no
    hard-deny row forbids, and that an unrevoked and unexpired emergency grant
    of the in-memory Policy Kernel covers, as long as that kernel keeps no
    decision cache (a cached decision is not made for its subject). *)
Theorem unit_runs_only_by_live_grant id u u' env (w : World.t G L) rt g :
  kernel (runtime rt) = Some g -> Kernel.decision_cache (Governed.inner g) = None ->
  OverrideBoundary.values_ok grants_in_order ->
  (forall b, Kernel.override_boundary (Governed.inner g) = Some b -> OverrideBoundary.reachable b) ->
  units_of (World.graph w) !! id = Some u ->
  factory (World.clock w (World.reads w)) u = Ok env ->
  units_of (World.graph (start_unit_via_runtime evidence_emitter fuel factory id (w, rt)).2.1) !! id
    = Some u' ->
  ServiceUnit.state u <> UnitState.Running -> ServiceUnit.state u' = UnitState.Running ->
  Governed.granted g env runtime_context.
Proof.
  intros Hk Hc Hv Hr Hu Hf Hu' Hn Hrun.
  destruct (success_of_running evidence_emitter fuel factory rounds id u u' env w rt Hu Hf Hu' Hn Hrun)
    as (ctx & Ha & Hs).
  eapply (Governed.verdict_granted grants_in_order env runtime_context (runtime rt) g); [done..|].
  apply (Governed.executed_verdict order grants_in_order (ambients rt (submissions rt)) cfg).
  right. exists ctx. split; [|by left]. simpl in Ha.
  by destruct (RtPipeline.submit_action _ _ _ _ _ _).
Qed.
End Props.
End GovernedUnits.

(** * Service graph runtime: pausing units for recovery

    [SgrRecoveryHook] ([recovery_adapter.rs]): normal units are stopped while
    recovery mode lasts and restarted afterwards.  The state is the graph's world
    and the set of paused units; [members] is the iteration order of that set.
    The recovery boundary is only asked whether recovery is active. *)

Module SgrRecoveryHook.
Import UnitFsmDriver SgrIndex.

(** The trait [RecoveryBoundary], as far as the hook calls it. *)
Class RecoveryBoundary (B : Type) := { is_recovery_active : B -> bool }.

Definition current_recovery_mode {B} `{RecoveryBoundary B} (b : B) : bool := is_recovery_active b.

Definition is_live_normal_unit (s : UnitState.t) : bool :=
  match s with
  | UnitState.Running | UnitState.Healthy | UnitState.Degraded | UnitState.Unhealthy => true
  | _ => false
  end.

Definition recovery_mode_allowed (u : ServiceUnit.t) : bool :=
  let m := ServiceUnit.manifest u in
  bool_decide (UnitManifest.unit_kind m = UnitKind.RecoveryTask) ||
  default false (labels ← UnitManifest.labels m; v ← json_get labels "recovery_mode_allowed"; as_bool v).

Definition should_pause_for_recovery (u : ServiceUnit.t) : bool :=
  is_live_normal_unit (ServiceUnit.state u) && negb (recovery_mode_allowed u).

Section Hook.
Context {G L : Type} `{SgrEvidenceLog L} `{!SgrTexts} `{!ServiceGraph G L}.
Variable evidence_emitter : option SgrEvidenceEmitter.
Variable fuel : nat.
Variable members : gset string -> list string.

Abbreviation W := (World.t G L).
Abbreviation MW := (M (World.t G L) SgrError.t).
Abbreviation MP := (M (World.t G L * gset string) SgrError.t).

(** The loop of [pause_normal_units]; [None] when a driver ran out of rounds. *)
Fixpoint pause_loop (us : list ServiceUnit.t) (paused : list string) : MW (option (list string)) :=
  match us with
  | [] => ret (Some paused)
  | u :: us =>
      if should_pause_for_recovery u then
        let! stopped := stop evidence_emitter fuel (ServiceUnit.unit_id u) in
        match stopped with
        | None => ret None
        | Some s =>
            pause_loop us (if bool_decide (ServiceUnit.state s = UnitState.Stopped)
                           then paused ++ [ServiceUnit.unit_id u] else paused)
        end
      else pause_loop us paused
  end.

Definition extend_paused (ids : list string) : MP () :=
  modify (fun s => (s.1, s.2 ∪ list_to_set ids)).
Definition remove_paused (ids : list string) : MP () :=
  modify (fun s => (s.1, s.2 ∖ list_to_set ids)).

Definition pause_normal_units : MP (option (list string)) :=
  let! us := on_fst sg_list_units in
  let! r := on_fst (pause_loop us []) in
  match r with
  | None => ret None
  | Some paused =>
      let! _ := match paused with [] => ret () | _ => extend_paused paused end in
      ret (Some paused)
  end.

(** The loop of [resume_normal_units]. *)
Fixpoint resume_loop (ids resumed : list string) : MW (option (list string)) :=
  match ids with
  | [] => ret (Some resumed)
  | id :: ids =>
      let! u := sg_get_unit id in
      if bool_decide (ServiceUnit.state u = UnitState.Stopped) then
        let! running := start evidence_emitter fuel id in
        match running with
        | None => ret None
        | Some s =>
            resume_loop ids (if bool_decide (ServiceUnit.state s = UnitState.Running)
                             then resumed ++ [id] else resumed)
        end
      else resume_loop ids resumed
  end.

Definition resume_normal_units : MP (option (list string)) :=
  let! s := get in
  let paused := members s.2 in
  let! r := on_fst (resume_loop paused []) in
  match r with
  | None => ret None
  | Some resumed =>
      let! _ := match paused with [] => ret () | _ => remove_paused paused end in
      ret (Some resumed)
  end.

Definition paused_units (s : W * gset string) : list string := members s.2.

(** ** Correctness *)
Context `{!ServiceGraphLaws G L}.
Hypothesis rounds : 4 <= fuel.

(** The units of [ids] are in state [s] in [w'], the others as they were in [w]. *)
Definition only_moved (ids : list string) (s : UnitState.t) (w w' : W) : Prop := forall id,
  (id ∈ ids -> exists u, units_of (World.graph w') !! id = Some u /\ ServiceUnit.state u = s) /\
  (id ∉ ids -> units_of (World.graph w') !! id = units_of (World.graph w) !! id).

Lemma only_moved_nil s w : only_moved [] s w w.
Proof. intros id. split; [by intros ?%elem_of_nil|done]. Qed.

Lemma only_moved_cons id ids s u u' w w1 w' :
  id ∉ ids -> moved id s u u' w w1 -> only_moved ids s w1 w' -> only_moved (id :: ids) s w w'.
Proof.
  intros Hn (Hs & _ & Hu & _) Ho i. destruct (Ho i) as [Hin Hout]. split.
  - intros [->|Hi]%elem_of_cons; [|by apply Hin]. exists u'. destruct (Ho id) as [_ Hout'].
    by rewrite Hout', Hu, lookup_insert_eq.
  - intros Hi. rewrite Hout, Hu, lookup_insert_ne; set_solver.
Qed.

Lemma stop_of_live u : is_live_normal_unit (ServiceUnit.state u) = true ->
  follow stop_plan 4 (ServiceUnit.state u) = Some (Ok UnitState.Stopped).
Proof. by destruct (ServiceUnit.state u). Qed.

(** A unit that was to be paused has been stopped. *)
Definition some_stopped (us : list ServiceUnit.t) (w' : W) : Prop := exists u u',
  u ∈ us /\ should_pause_for_recovery u = true /\
  units_of (World.graph w') !! ServiceUnit.unit_id u = Some u' /\
  ServiceUnit.state u' = UnitState.Stopped.

Lemma pause_loop_post us : forall paused w,
  NoDup (ServiceUnit.unit_id <$> us) ->
  (forall u, u ∈ us -> units_of (World.graph w) !! ServiceUnit.unit_id u = Some u) ->
  let ids := ServiceUnit.unit_id <$> filter (fun u => should_pause_for_recovery u = true) us in
  post (pause_loop us paused)
    (fun r w' => r = Some (paused ++ ids) /\ only_moved ids UnitState.Stopped w w')
    (fun e w' => emission_failed e /\ some_stopped us w') w.
Proof.
  induction us as [|u us IH]; intros paused w Hnd Hin; cbv zeta; cbn [pause_loop].
  { rewrite filter_nil, fmap_nil, app_nil_r. apply post_ret. split; [done|apply only_moved_nil]. }
  rewrite fmap_cons in Hnd. apply NoDup_cons in Hnd as [Hu Hnd]. rewrite filter_cons.
  assert (units_of (World.graph w) !! ServiceUnit.unit_id u = Some u) as Huw by (apply Hin; by left).
  destruct (should_pause_for_recovery u) eqn:Hp; cycle 1.
  { rewrite decide_False by done. eapply post_mono; [apply IH; [done|]| |].
    - intros v Hv. apply Hin. by right.
    - done.
    - intros e w' [He (v & v' & Hv & ?)]. split; [done|]. exists v, v'. split; [by right|done]. }
  rewrite decide_True by done. rewrite fmap_cons.
  pose proof Hp as Hlive. unfold should_pause_for_recovery in Hlive. apply andb_true_iff in Hlive as [Hlive _].
  eapply post_bind.
  { eapply post_mono; [apply (stop_reaches evidence_emitter fuel rounds _ _ _ Huw (stop_of_live u Hlive))| |].
    - intros r w1 Hr. exact Hr.
    - intros e w1 (He & u' & Hm). split; [done|]. exists u, u'. split_and!; [by left|done| |apply Hm].
      by apply (moved_lookup _ _ _ _ _ _ Hm). }
  intros r w1 (u' & -> & Hm). rewrite bool_decide_eq_true_2 by apply Hm.
  eapply post_mono; [apply IH; [done|]| |].
  - intros v Hv. destruct Hm as (_ & _ & -> & _). rewrite lookup_insert_ne; [apply Hin; by right|].
    intros Heq. apply Hu. rewrite Heq. by apply list_elem_of_fmap_2.
  - intros r w' [-> Ho]. rewrite <- app_assoc. split; [done|].
    eapply only_moved_cons; [|exact Hm|exact Ho].
    intros Hi. apply Hu. apply list_elem_of_fmap in Hi as (v & -> & [_ Hv]%list_elem_of_filter).
    by apply list_elem_of_fmap_2.
  - intros e w' [He (v & v' & Hv & ?)]. split; [done|]. exists v, v'. split; [by right|done].
Qed.

Lemma resume_loop_post ids : forall resumed w,
  NoDup ids ->
  (forall id, id ∈ ids -> exists u, units_of (World.graph w) !! id = Some u /\
     ServiceUnit.state u = UnitState.Stopped) ->
  post (resume_loop ids resumed)
    (fun r w' => r = Some (resumed ++ ids) /\ only_moved ids UnitState.Running w w')
    (fun e w' => emission_failed e) w.
Proof.
  induction ids as [|id ids IH]; intros resumed w Hnd Hin; cbn [resume_loop].
  { rewrite app_nil_r. apply post_ret. split; [done|apply only_moved_nil]. }
  apply NoDup_cons in Hnd as [Hid Hnd]. destruct (Hin id) as (u & Hu & Hs); [by left|].
  unfold post, mbind_ at 1. rewrite get_unit_spec, Hu. simpl. rewrite bool_decide_eq_true_2 by done.
  eapply (post_bind (start evidence_emitter fuel id)).
  { eapply post_mono; [apply (start_reaches evidence_emitter fuel rounds id u w Hu)| |].
    - by rewrite Hs.
    - intros r w1 Hr. exact Hr.
    - by intros e w1 (He & _). }
  intros r w1 (u' & -> & Hm). rewrite bool_decide_eq_true_2 by apply Hm.
  eapply post_mono; [apply IH; [done|]| |done].
  - intros i Hi. destruct (Hin i) as (v & Hv & Hvs); [by right|]. exists v. split; [|done].
    destruct Hm as (_ & _ & -> & _). rewrite lookup_insert_ne; [done|]. by intros ->.
  - intros r w' [-> Ho]. rewrite <- app_assoc. split; [done|]. by eapply only_moved_cons.
Qed.

(** The units a pause stops. *)
Definition to_pause (w : W) (id : string) : Prop := exists u,
  units_of (World.graph w) !! id = Some u /\ should_pause_for_recovery u = true.

Lemma pause_post s :
  graph_ok (World.graph s.1) ->
  post pause_normal_units
    (fun r s' => exists ids, r = Some ids /\ NoDup ids /\ (forall id, id ∈ ids <-> to_pause s.1 id) /\
       only_moved ids UnitState.Stopped s.1 s'.1 /\ s'.2 = s.2 ∪ list_to_set ids)
    (fun e s' => emission_failed e /\ s'.2 = s.2 /\ exists id u, to_pause s.1 id /\
       units_of (World.graph s'.1) !! id = Some u /\ ServiceUnit.state u = UnitState.Stopped) s.
Proof.
  destruct s as [w p]. simpl. intros Hg.
  destruct (list_units_spec w) as (l & Hl & Hperm).
  assert (forall u, u ∈ l -> units_of (World.graph w) !! ServiceUnit.unit_id u = Some u) as Hin.
  { intros u Hu. rewrite Hperm in Hu. apply list_elem_of_fmap in Hu as ([id v] & -> & Hv).
    apply elem_of_map_to_list in Hv. simpl. by rewrite (proj1 Hg id v Hv). }
  assert (NoDup (ServiceUnit.unit_id <$> l)) as Hnd.
  { pose proof (listed_ids _ l Hg Hperm) as Hls. unfold GraphEvaluator.sort_unit_ids in Hls.
    rewrite <- (sort_strings_perm (ServiceUnit.unit_id <$> l)), Hls. apply unit_ids_nodup. }
  pose proof (pause_loop_post l [] w Hnd Hin) as Hp. cbv zeta in Hp.
  set (ids := ServiceUnit.unit_id <$> filter _ l) in Hp.
  assert (forall id, id ∈ ids <-> to_pause w id) as Hids.
  { intros id. unfold ids. rewrite list_elem_of_fmap. split.
    - intros (u & -> & [Hs Hu]%list_elem_of_filter). exists u. auto.
    - intros (u & Hu & Hs). exists u. split; [symmetry; by apply (proj1 Hg)|].
      apply list_elem_of_filter. split; [done|]. rewrite Hperm. apply list_elem_of_fmap.
      exists (id, u). split; [done|]. by apply elem_of_map_to_list. }
  unfold pause_normal_units, post, mbind_, on_fst. simpl. rewrite Hl. simpl. unfold post in Hp.
  destruct (pause_loop l [] w) as [[r|e] w']; simpl.
  - destruct Hp as [-> Ho]. simpl.
    assert (NoDup ids) as Hndi.
    { unfold ids. eapply sublist_NoDup; [apply Hnd|]. apply fmap_sublist, sublist_filter. }
    destruct ids as [|id ids'] eqn:E; simpl.
    + exists []. split_and!; [done|done|done|done|set_solver].
    + exists (id :: ids'). by split_and!.
  - destruct Hp as [He (u & u' & Hu & Hs & Hu' & Hst)]. split_and!; [done|done|].
    exists (ServiceUnit.unit_id u), u'. split_and!; [|done|done]. exists u. auto.
Qed.

(** Pausing: a successful [pause_normal_units] stops exactly the live units
    that are neither recovery tasks nor labelled as allowed in recovery, leaves
    every other unit as it was, and records what it stopped.  When the evidence
    of a stop is refused half way, units have been stopped that are not
    recorded, so no [resume_normal_units] will restart them. *)
Theorem pause_exact s :
  graph_ok (World.graph s.1) ->
  post pause_normal_units
    (fun r s' => exists ids, r = Some ids /\ (forall id, id ∈ ids <-> to_pause s.1 id) /\
       only_moved ids UnitState.Stopped s.1 s'.1 /\ s'.2 = s.2 ∪ list_to_set ids)
    (fun e s' => emission_failed e /\ s'.2 = s.2 /\ exists id u, to_pause s.1 id /\
       units_of (World.graph s'.1) !! id = Some u /\ ServiceUnit.state u = UnitState.Stopped) s.
Proof.
  intros Hg. eapply post_mono; [by apply pause_post| |done].
  intros r s' (ids & ? & _ & ?). eauto.
Qed.

(** Pause and resume: on a hook with nothing paused, pausing and then
    resuming brings exactly the units that were stopped to [RUNNING] (a unit
    that was [HEALTHY] or worse before included), leaves every other unit as it
    was and nothing recorded; only refused evidence can interrupt it. *)
Theorem pause_then_resume (w : W) :
  (forall p, members p ≡ₚ elements p) -> graph_ok (World.graph w) ->
  post (let! p := pause_normal_units in let! r := resume_normal_units in ret (p, r))
    (fun pr s' => exists ids ids', pr = (Some ids, Some ids') /\ ids' ≡ₚ ids /\
       (forall id, id ∈ ids <-> to_pause w id) /\
       only_moved ids UnitState.Running w s'.1 /\ s'.2 = ∅)
    (fun e _ => emission_failed e) (w, ∅).
Proof.
  intros Hmem Hg. eapply post_bind; [eapply post_mono; [apply pause_post; exact Hg| |by intros ? ? [? _]]|].
  { intros r s' Hr. exact Hr. }
  intros r [w1 p1] (ids & -> & Hnd & Hids & Ho & Hp). simpl in *.
  assert (members p1 ≡ₚ ids) as Hm.
  { rewrite Hmem, Hp, (left_id_L ∅ (∪)). by apply elements_list_to_set. }
  assert (forall id, id ∈ members p1 -> exists u, units_of (World.graph w1) !! id = Some u /\
    ServiceUnit.state u = UnitState.Stopped) as Hstopped
    by (intros id Hi; rewrite Hm in Hi; by apply Ho).
  pose proof (resume_loop_post (members p1) [] w1) as Hr.
  unfold post, resume_normal_units, mbind_, get, on_fst in *. simpl.
  specialize (Hr ltac:(by rewrite Hm) Hstopped).
  destruct (resume_loop (members p1) [] w1) as [[r|e] w2]; [|done]. simpl.
  destruct Hr as [-> Ho2]. simpl.
  assert (only_moved ids UnitState.Running w w2) as Hfin.
  { intros id. destruct (Ho2 id) as [Ha Hb], (Ho id) as [Hc Hd]. rewrite Hm in Ha, Hb.
    split; [done|]. intros Hi. by rewrite Hb, Hd. }
  assert (p1 ∖ list_to_set (members p1) = ∅) as Hempty.
  { apply set_eq. intros x. rewrite elem_of_difference, elem_of_list_to_set, Hmem, elem_of_elements.
    set_solver. }
  destruct (members p1) as [|m ms] eqn:Em; simpl.
  - exists ids, []. split_and!; [done|by rewrite Hm|done|done|]. simpl in Hempty.
    by rewrite difference_empty_L in Hempty.
  - exists ids, (m :: ms). by split_and!.
Qed.
End Hook.
End SgrRecoveryHook.
