(* ===== verification/SgrDemo.v ===== *)
(** * Service graph runtime: the theorems at work

    A graph of signed units over the in-memory log, an adapter registry and a
    runtime governed by the Policy Kernel with a grant for [unit.start], on
    which the theorems of the service graph runtime are applied. *)
From stdpp Require Import sorting.
From S2P Require Import Prelude Json Action PolicyTypes HardDeny Override Cache Hydration Bundle Pipeline Kernel Records Redaction Receipt ChainSound StateError Lifecycle DispatchQueue Adapters Approvals Rollback Emit RtPipeline RtSound Runtime RtEvidence RtDemo SgrTypes SgrGraph SgrFsm SgrEval SgrKahn SgrTarjan SgrSound SgrAdapters SgrRuntime.

Module SgrDemo.
Import Demo.
#[local] Existing Instance InMemorySgrEvidenceLog.log.

#[local] Instance demo_texts : SgrTexts := {|
  evidence_error_text _ := "evidence error"; serde_json_to_vec := jcs; blake3_bytes s := s |}.

Definition demo_values (m : gmap string ServiceUnit.t) : list ServiceUnit.t := (map_to_list m).*2.
Lemma demo_values_perm m : demo_values m ≡ₚ (map_to_list m).*2.
Proof. done. Qed.

Abbreviation G := (InMemoryServiceGraph.t).
Abbreviation L := InMemorySgrEvidenceLog.t.
Abbreviation W := (World.t G L).
#[local] Instance demo_graph : ServiceGraph G L := InMemoryServiceGraph.in_memory demo_values.
#[local] Instance demo_laws : ServiceGraphLaws G L :=
  InMemoryServiceGraph.in_memory_laws demo_values demo_values_perm.

(** ** A graph *)
Definition unsigned (id : string) (deps : list (string * DependencyKind.t))
    (sig : list Z) (hash : string) : UnitManifest.t :=
  {| UnitManifest.schema_version := "v1"; UnitManifest.unit_id := id;
     UnitManifest.unit_kind := UnitKind.Service; UnitManifest.display_name := id;
     UnitManifest.description := ""; UnitManifest.issued_at := 0%Z;
     UnitManifest.publisher_id := "aios"; UnitManifest.publisher_root_id := "root";
     UnitManifest.publisher_signature := sig; UnitManifest.canonical_hash := hash;
     UnitManifest.dependencies := (fun d => {| dependency_unit_id := d.1; dependency_kind := d.2 |}) <$> deps;
     UnitManifest.sandbox_profile_ref := "sbx"; UnitManifest.verification_intent := [];
     UnitManifest.rollback_pointer := {| aiosfs_pointer_id := ""; expected_current_version_id := "";
                                         trigger := RollbackTrigger.Never |};
     UnitManifest.resource_budget := {| memory_bytes_max := 0; cpu_quota_cores := "1.0";
       disk_bytes_max := 0; file_descriptors_max := 0; process_count_max := 0; queue_depth_max := 0;
       gpu := None |};
     UnitManifest.restart_policy := RestartPolicy.Never;
     UnitManifest.restart_budget := {| max_attempts := 0; reset_window_seconds := 0;
       backoff_initial_seconds := 0; backoff_max_seconds := 0 |};
     UnitManifest.health_check := {| health_kind := HealthCheckKind.TcpPort;
       probe_interval_seconds := 0; probe_timeout_seconds := 0; startup_grace_seconds := 0;
       unhealthy_threshold := 0; healthy_threshold := 0; health_args := JNull |};
     UnitManifest.startup_deadline_seconds := 30; UnitManifest.stop_deadline_seconds := 30;
     UnitManifest.adapter_target := JObject [("requires", JArray [JString "svc"])];
     UnitManifest.labels := None; UnitManifest.correlation_id := None;
     UnitManifest.desired_state := DesiredState.Running; UnitManifest.provides := [];
     UnitManifest.adapter_id := Some "adapter:svc" |}.

(** The manifest of [id], signed by the authority [root], whose key is 7. *)
Definition signed (id : string) (deps : list (string * DependencyKind.t)) : UnitManifest.t :=
  match serde_json_to_vec (UnitManifest.signed_body (unsigned id deps [] "")) with
  | Ok bytes => unsigned id deps (demo_sign 7 bytes) (String.substring 0 32 bytes)
  | Err _ => unsigned id deps [] ""
  end.

Definition demo_emitter : SgrEvidenceEmitter :=
  {| emitter_key := 7%Z; emitter_subject := AIOS_SGR_SUBJECT |}.

Definition empty_world : W :=
  {| World.graph := InMemoryServiceGraph.with_evidence_emitter demo_emitter
       (InMemoryServiceGraph.with_trusted_authority "root" 7%Z);
     World.evidence := InMemorySgrEvidenceLog.new (fun n => "evr_" +:+ pretty n) Z.of_nat;
     World.clock := Z.of_nat; World.reads := 0 |}.

Abbreviation register m w := (InMemoryServiceGraph.register_unit m w).2.
Abbreviation hard := DependencyKind.RequiresRunning.

(** [db] first, then [api], which needs it, and [ui], which needs both. *)
Definition demo_world : W :=
  register (signed "unit:aios:ui" [("unit:aios:db", hard); ("unit:aios:api", hard)])
    (register (signed "unit:aios:api" [("unit:aios:db", hard)])
       (register (signed "unit:aios:db" []) empty_world)).

Lemma demo_fresh : InMemoryServiceGraph.fresh (World.graph empty_world).
Proof. done. Qed.

Lemma demo_graph_run : rtc InMemoryServiceGraph.step empty_world demo_world.
Proof.
  eapply rtc_l; [apply InMemoryServiceGraph.step_register|].
  eapply rtc_l; [apply InMemoryServiceGraph.step_register|].
  eapply rtc_l; [apply InMemoryServiceGraph.step_register|]. apply rtc_refl.
Qed.

Lemma demo_well_formed : InMemoryServiceGraph.well_formed (World.graph demo_world).
Proof.
  apply (rtc_invariant _ (fun w => InMemoryServiceGraph.well_formed (World.graph w)) empty_world
    demo_world) with (3 := demo_graph_run).
  - intros a b Hs. by eapply InMemoryServiceGraph.step_well_formed.
  - split; simpl; intros ? ?; by rewrite lookup_empty.
Qed.

Lemma demo_ok : SgrIndex.graph_ok (World.graph demo_world).
Proof. apply (InMemorySound.well_formed_ok demo_values demo_values_perm), demo_well_formed. Qed.

(** What the evaluator answers on it. *)
Example demo_order : (GraphEvaluator.topological_sort demo_world).1
  = Ok (Some ["unit:aios:db"; "unit:aios:api"; "unit:aios:ui"]).
Proof. vm_compute. reflexivity. Qed.

Example demo_batches : (GraphEvaluator.identify_parallel_batches demo_world).1
  = Ok (Some [["unit:aios:db"]; ["unit:aios:api"]; ["unit:aios:ui"]]).
Proof. vm_compute. reflexivity. Qed.

(** ** The theorems on it *)
#[local] Opaque demo_world empty_world.

Lemma topological_sort_exact_witness :
  exists l, GraphEvaluator.topological_sort demo_world = (Ok (Some l), demo_world) /\
    KahnSound.acyclic (SgrIndex.unit_ids (World.graph demo_world))
      (SgrIndex.deps_of (World.graph demo_world)).
Proof.
  destruct (EvaluatorSound.topological_sort_exact demo_world demo_ok)
    as [(l & Hl & Ha & _)|(c & Hc & _)]; [exists l; split; [exact Hl|exact Ha]|].
  exfalso. pose proof demo_order as Ho. rewrite Hc in Ho. discriminate Ho.
Defined.

Lemma parallel_batches_exact_witness :
  exists bs, GraphEvaluator.identify_parallel_batches demo_world = (Ok (Some bs), demo_world) /\
    KahnSound.layered (SgrIndex.unit_ids (World.graph demo_world))
      (SgrIndex.deps_of (World.graph demo_world)) bs.
Proof.
  destruct (EvaluatorSound.parallel_batches_exact demo_world demo_ok)
    as [(bs & Hb & _ & _ & Hl)|(c & Hc & _)]; [exists bs; split; [exact Hb|exact Hl]|].
  exfalso. pose proof demo_batches as Ho. rewrite Hc in Ho. discriminate Ho.
Defined.

Lemma graph_stays_well_formed_witness :
  is_Some (InMemoryServiceGraph.units (World.graph demo_world) !! "unit:aios:ui") /\
  InMemoryServiceGraph.well_formed (World.graph demo_world).
Proof.
  split; [vm_compute; eexists; reflexivity|].
  exact (InMemoryServiceGraph.graph_stays_well_formed _ _ demo_fresh demo_graph_run).
Defined.

Lemma registers_exactly_witness :
  is_Some (InMemoryServiceGraph.units (World.graph
    (InMemoryServiceGraph.register_unit (signed "unit:aios:db" []) empty_world).2) !! "unit:aios:db").
Proof.
  apply (InMemoryServiceGraph.registers_exactly (signed "unit:aios:db" []) empty_world eq_refl).
  split; [vm_compute; reflexivity|]. constructor.
Defined.

(** [db] again, started: the driver drives a registered unit to running. *)
Definition running (id : string) (w : W) : W := (UnitFsmDriver.start None 4 id w).2.

Lemma driver_exact_witness :
  exists u u', units_of (World.graph demo_world) !! "unit:aios:db" = Some u /\
    UnitFsmDriver.moved "unit:aios:db" UnitState.Running u u' demo_world
      (running "unit:aios:db" demo_world).
Proof.
  pose proof (UnitFsmDriver.driver_exact None 4 (le_n 4) UnitFsmDriver.Start "unit:aios:db"
    demo_world) as Hd.
  assert (ServiceUnit.state <$> units_of (World.graph demo_world) !! "unit:aios:db"
    = Some UnitState.Queued) as Hs by (vm_compute; reflexivity).
  assert (is_ok (UnitFsmDriver.perform None 4 UnitFsmDriver.Start "unit:aios:db" demo_world).1 = true)
    as Ho by (vm_compute; reflexivity).
  destruct (units_of (World.graph demo_world) !! "unit:aios:db") as [u|]; [|discriminate Hs].
  injection Hs as Hs. rewrite Hs in Hd. cbn [UnitFsmDriver.goal] in Hd. unfold post in Hd.
  unfold running. cbn [UnitFsmDriver.perform] in *.
  destruct (UnitFsmDriver.start None 4 "unit:aios:db" demo_world) as [[r|e] w'];
    [|discriminate Ho]. destruct Hd as (u' & _ & Hm). by exists u, u'.
Defined.

Lemma graph_comes_up_witness :
  post (EvaluatorSound.start_ready None 4 ["unit:aios:db"; "unit:aios:api"; "unit:aios:ui"])
    (fun b w' => b = true /\ forall id u, units_of (World.graph w') !! id = Some u ->
       ServiceUnit.state u = UnitState.Running)
    (fun e _ => UnitFsmDriver.emission_failed e) demo_world.
Proof.
  apply EvaluatorSound.graph_comes_up; [lia|exact demo_ok| | |].
  - pose proof demo_order as Ho.
    destruct (EvaluatorSound.topological_sort_exact demo_world demo_ok)
      as [(l & Hl & _)|(c & Hc & _)]; [|rewrite Hc in Ho; discriminate Ho].
    rewrite Hl in Ho |- *. injection Ho as ->. reflexivity.
  - assert (bool_decide (map_Forall (fun _ es => Forall (fun e => DependencyEdge.kind e = hard) es)
      (InMemoryServiceGraph.dependencies (World.graph demo_world))) = true) as Hf
      by (vm_compute; reflexivity).
    apply bool_decide_eq_true in Hf. intros id e He.
    change (e ∈ default [] (InMemoryServiceGraph.dependencies (World.graph demo_world) !! id)) in He.
    pose proof (Hf id) as Hi.
    destruct (InMemoryServiceGraph.dependencies (World.graph demo_world) !! id) as [es|];
      [|by apply elem_of_nil in He].
    pose proof (proj1 (Forall_forall _ _) (Hi es eq_refl) e He) as Hk. cbv beta in Hk.
    rewrite Hk. discriminate.
  - assert (bool_decide (map_Forall (fun _ u => EvaluatorSound.startable (ServiceUnit.state u) = true)
      (units_of (World.graph demo_world))) = true) as Hf by (vm_compute; reflexivity).
    intros id u Hu. by apply bool_decide_eq_true in Hf; apply (Hf id u).
Defined.
(** [db] made to depend on [ui], which depends on it. *)
Definition looped : W :=
  (InMemoryServiceGraph.declare_dependency "unit:aios:db" "unit:aios:ui" hard demo_world).2.

Lemma looped_ok : SgrIndex.graph_ok (World.graph looped).
Proof.
  apply (InMemorySound.well_formed_ok demo_values demo_values_perm).
  eapply InMemoryServiceGraph.step_well_formed; [apply InMemoryServiceGraph.step_declare|].
  exact demo_well_formed.
Qed.

Example looped_cycles : (GraphEvaluator.detect_cycles looped).1
  = Ok (Some [["unit:aios:api"; "unit:aios:db"; "unit:aios:ui"]]).
Proof. vm_compute. reflexivity. Qed.

Lemma detect_cycles_complete_witness : exists cs,
  (GraphEvaluator.detect_cycles looped).1 = Ok (Some cs) /\ cs <> [] /\
  TarjanSound.cyclic_components (SgrIndex.unit_ids (World.graph looped))
    (SgrIndex.deps_of (World.graph looped)) cs.
Proof.
  pose proof looped_cycles as Hl.
  destruct (EvaluatorSound.detect_cycles_complete looped looped_ok) as (cs & Hc & Ht).
  exists cs. rewrite Hc in Hl |- *. split; [reflexivity|]. split; [|exact Ht].
  injection Hl as ->. discriminate.
Defined.

Lemma closing_a_cycle_is_permanent_witness : exists c,
  GraphEvaluator.topological_sort looped = (Err (SgrError.DependencyCycleDetected c), looped).
Proof.
  destruct (InMemorySound.closing_a_cycle_is_permanent demo_values demo_values_perm demo_world
    looped "unit:aios:db" "unit:aios:ui" hard) as (c & Hc & _).
  - exact demo_well_formed.
  - vm_compute. by eexists.
  - vm_compute. by eexists.
  - apply rtc_once. unfold InMemoryServiceGraph.depends. vm_compute. eexists. split; [left|]; reflexivity.
  - apply rtc_refl.
  - exists c. exact Hc.
Defined.

(** [db] runs; its pause and its return. *)
Definition db_up : W :=
  (InMemoryServiceGraph.set_unit_state "unit:aios:db" UnitState.Running
    (InMemoryServiceGraph.set_unit_state "unit:aios:db" UnitState.Starting demo_world).2).2.

Lemma db_up_ok : SgrIndex.graph_ok (World.graph db_up).
Proof.
  apply (InMemorySound.well_formed_ok demo_values demo_values_perm).
  eapply InMemoryServiceGraph.step_well_formed; [apply InMemoryServiceGraph.step_set_state|].
  eapply InMemoryServiceGraph.step_well_formed; [apply InMemoryServiceGraph.step_set_state|].
  exact demo_well_formed.
Qed.

Example db_up_runs :
  ServiceUnit.state <$> units_of (World.graph db_up) !! "unit:aios:db" = Some UnitState.Running.
Proof. vm_compute. reflexivity. Qed.

Lemma pause_then_resume_witness :
  post (let! p := SgrRecoveryHook.pause_normal_units None 4 in
        let! r := SgrRecoveryHook.resume_normal_units None 4 elements in ret (p, r))
    (fun pr s' => exists ids ids', pr = (Some ids, Some ids') /\ ids' ≡ₚ ids /\
       (forall id, id ∈ ids <-> SgrRecoveryHook.to_pause db_up id) /\
       SgrRecoveryHook.only_moved ids UnitState.Running db_up s'.1 /\ s'.2 = ∅)
    (fun e _ => UnitFsmDriver.emission_failed e) (db_up, ∅).
Proof.
  apply SgrRecoveryHook.pause_then_resume; [lia|done|]. exact db_up_ok.
Defined.

(** ** An adapter chosen *)
Abbreviation R := (World.t SgrAdapterRegistry.t L).

Definition capability (id : string) (provides : list string) : AdapterCapability.t :=
  let unsigned sig := {| AdapterCapability.capability_id := id; AdapterCapability.provides := provides;
    AdapterCapability.requires := []; AdapterCapability.risk_template := "low";
    AdapterCapability.manifest_signature_ed25519 := sig |} in
  match SgrAdapterRegistry.canonical_capability_bytes (unsigned []) with
  | Ok bytes => unsigned (demo_sign 7 bytes)
  | Err _ => unsigned []
  end.

Definition adapter_manifest : SgrAdapterManifest.t :=
  {| SgrAdapterManifest.adapter_id := "adapter:svc"; SgrAdapterManifest.vendor := "aios";
     SgrAdapterManifest.name := "svc"; SgrAdapterManifest.adapter_version := "1.0.0";
     SgrAdapterManifest.spec_version := "v1"; SgrAdapterManifest.declared_actions := [];
     SgrAdapterManifest.declared_capabilities := [ServiceLifecycle];
     SgrAdapterManifest.declared_invariants_supported := [];
     SgrAdapterManifest.io_mode := TypedParametersOnly;
     SgrAdapterManifest.preferred_dispatch_kind := InProcessRpc;
     SgrAdapterManifest.declared_stability := Stable;
     SgrAdapterManifest.sandbox_profile_minimum := JNull;
     SgrAdapterManifest.declared_failure_modes := [];
     SgrAdapterManifest.default_adapter_timeout_seconds := 30;
     SgrAdapterManifest.default_rollback_timeout_seconds := 30;
     SgrAdapterManifest.network_outbound_hosts := []; SgrAdapterManifest.external_api_hosts := [];
     SgrAdapterManifest.declared_evidence_record_types := [];
     SgrAdapterManifest.source_package_id := "pkg"; SgrAdapterManifest.publisher_root_id := "root";
     SgrAdapterManifest.manifest_signature := []; SgrAdapterManifest.signing_key_id := "root";
     SgrAdapterManifest.manifest_created_at := 0; SgrAdapterManifest.manifest_expires_at := 100 |}%Z.

(** Three adapters: the first registered provides too little. *)
Definition registry_world : R :=
  let add id provides w := (SgrAdapterRegistry.register_adapter (capability id provides)
    (Manifest adapter_manifest) w).2 in
  add "cap:b" ["svc"; "net"] (add "cap:c" ["svc"] (add "cap:a" ["net"]
    {| World.graph := SgrAdapterRegistry.with_trusted_authority "root" 7%Z;
       World.evidence := InMemorySgrEvidenceLog.new (fun n => "evr_" +:+ pretty n) Z.of_nat;
       World.clock := Z.of_nat; World.reads := 0 |})).

Definition registry_values (g : gmap string RegisteredAdapter) : list RegisteredAdapter :=
  (map_to_list g).*2.

Example chosen : (fun a => AdapterCapability.capability_id (SgrAdapters.capability a)) <$>
    match (SgrAdapterRegistry.find_adapter_for_unit registry_values (unsigned "unit:aios:db" [] [] "")
      registry_world).1 with Ok a => a | Err _ => None end = Some "cap:c".
Proof. vm_compute. reflexivity. Qed.

Lemma find_adapter_exact_witness : exists a id,
  (SgrAdapterRegistry.find_adapter_for_unit registry_values (unsigned "unit:aios:db" [] [] "")
    registry_world).1 = Ok (Some a) /\
  SgrAdapterRegistry.adapters (World.graph registry_world) !! id = Some a /\
  "svc" ∈ AdapterCapability.provides (SgrAdapters.capability a).
Proof.
  pose proof chosen as Hc.
  pose proof (SgrAdapterRegistry.find_adapter_exact registry_values registry_world
    (unsigned "unit:aios:db" [] [] "") "svc" [] (fun g => reflexivity _) eq_refl) as Hf.
  destruct (SgrAdapterRegistry.find_adapter_for_unit registry_values _ registry_world)
    as [[[a|]|e] w']; [|discriminate Hc|destruct Hf].
  destruct Hf as (_ & ((id & Hid) & _ & Hp) & _).
  exists a, id. split; [reflexivity|]. split; [exact Hid|]. apply Hp. by left.
Defined.

(** ** A unit started under a grant

    The runtime of [RtDemo] with a grant for [unit.start] to the graph's own
    subject and an adapter for that action. *)
#[local] Existing Instance InMemoryEvidenceSink.sink.
#[local] Existing Instance InMemoryApprovalSink.sink.
#[local] Existing Instance RtDemo.demo_texts.
#[local] Instance list_lru : LruCache CacheKey PolicyDecision := ListLru.lru_impl _ _.

#[local] Instance demo_adapter_texts : SgrRuntime.AdapterTexts := {|
  SgrRuntime.sgr_error_text _ := "graph error"; SgrRuntime.runtime_error_text _ := "runtime error";
  SgrRuntime.status_debug _ := "status"; SgrRuntime.failure_debug _ := "failure" |}.

Definition start_request : OverrideRequest :=
  {| granted_by_subject := OverrideBoundary.demo_grantor Human;
     req_scope := {| scope_rule_id := "unit_start"; scope_action := SgrRuntime.UNIT_START_ACTION;
                     scope_subjects := [SgrRuntime.SGR_RUNTIME_SUBJECT] |};
     req_reason := "bring up"; req_ttl_seconds := 3600; attempted_hard_deny := None |}.

Definition start_boundary : OverrideBoundary.t :=
  match OverrideBoundary.request_override_at "01" start_request 0 OverrideBoundary.new with
  | Ok (_, b) => b
  | Err _ => OverrideBoundary.new
  end.

Lemma start_boundary_reachable : OverrideBoundary.reachable start_boundary.
Proof.
  eapply rtc_l; [|apply rtc_refl].
  apply (OverrideBoundary.step_request "01" start_request 0 OverrideBoundary.new
    (OverrideBoundary.mk_grant "01" start_request 0)).
  vm_compute. reflexivity.
Qed.

Definition start_kernel : RtDemo.K :=
  {| Governed.inner := Kernel.with_override_boundary start_boundary
       (Kernel.new_with_hard_deny HardDenyEngineConfig.spec_defaults);
     Governed.readings _ := Kernel.demo_ambient 5; Governed.asked := 0 |}.

Definition start_runtime : GovernedUnits.PipelineRuntime :=
  {| GovernedUnits.runtime := RtPipeline.set_kernel (Some start_kernel) (RtDemo.demo_world 4);
     GovernedUnits.ambients n := RtDemo.demo_amb ("act_" +:+ pretty n);
     GovernedUnits.submissions := 0 |}.

Definition start_cfg : RtPipeline.Config :=
  {| RtPipeline.adapter_registry := Some (RegistryDemo.demo_registered
       (RegistryDemo.demo_manifest AdapterStability.Stable ActionDispatchKind.InProcessRpc
          SgrRuntime.UNIT_START_ACTION "IDEMPOTENT_REVERSE"));
     RtPipeline.hooks := RtPipeline.no_hooks; RtPipeline.rollback_driver := None |}.

#[local] Instance governed_runtime : SgrRuntime.CapabilityRuntime GovernedUnits.PipelineRuntime :=
  GovernedUnits.pipeline_runtime RegistryDemo.key_order OverrideBoundary.values_in_key_order start_cfg.

Definition started : W :=
  (SgrRuntime.start_unit_via_runtime (G := G) (L := L) None 4 SgrRuntime.build_action "unit:aios:db"
    (demo_world, start_runtime)).2.1.

Example started_runs :
  ServiceUnit.state <$> units_of (World.graph started) !! "unit:aios:db" = Some UnitState.Running.
Proof. vm_compute. reflexivity. Qed.

Lemma unit_runs_only_by_live_grant_witness : exists env,
  Governed.granted start_kernel env SgrRuntime.runtime_context.
Proof.
  pose proof started_runs as Hr.
  assert (ServiceUnit.state <$> units_of (World.graph demo_world) !! "unit:aios:db"
    = Some UnitState.Queued) as Hs by (vm_compute; reflexivity).
  assert ((fun u => is_ok (SgrRuntime.build_action (World.clock demo_world (World.reads demo_world)) u)) <$>
    units_of (World.graph demo_world) !! "unit:aios:db" = Some true) as Ho by (vm_compute; reflexivity).
  destruct (units_of (World.graph demo_world) !! "unit:aios:db") as [u|] eqn:Hu; [|discriminate Hs].
  destruct (units_of (World.graph started) !! "unit:aios:db") as [u'|] eqn:Hu'; [|discriminate Hr].
  injection Hs as Hs. injection Hr as Hr. injection Ho as Ho.
  destruct (SgrRuntime.build_action (World.clock demo_world (World.reads demo_world)) u)
    as [env|e] eqn:He; [|discriminate Ho].
  exists env.
  apply (GovernedUnits.unit_runs_only_by_live_grant RegistryDemo.key_order
    OverrideBoundary.values_in_key_order start_cfg None 4 (le_n 4) SgrRuntime.build_action
    "unit:aios:db" u u' env demo_world start_runtime start_kernel).
  - reflexivity.
  - reflexivity.
  - apply OverrideBoundary.values_in_key_order_ok.
  - intros b [= <-]. exact start_boundary_reachable.
  - exact Hu.
  - exact He.
  - exact Hu'.
  - by rewrite Hs.
  - exact Hr.
Defined.
End SgrDemo.
