(* ===== verification/FsTypes.v ===== *)
(** * File system: identifiers, records and errors

    The data of [aios-fs]: [id.rs], [chunk.rs], [object.rs], [version.rs],
    [pointer.rs], [transaction.rs], [lifecycle.rs], [fs_trait.rs] and
    [error.rs].  Identifiers are texts; the code that reads one from outside
    goes through the grammars of [Ids] below.  Then the environment of the store
    and its evidence ([evidence_emit.rs]). *)
From S2P Require Import Prelude Json Ids Records Redaction Receipt ChainSound StateError.

(** ** Identifiers ([id.rs], [chunk.rs]) *)
Module FsId.
Definition OBJECT_PREFIX : string := "obj_".
Definition VERSION_PREFIX : string := "ver_".
Definition POINTER_PREFIX : string := "ptr_".
Definition TRANSACTION_PREFIX : string := "txn_".
Definition CHUNK_PREFIX : string := "chk_".
Definition HASH_HEX_LEN : nat := 64.

(** [Ulid::from_string]: the error carries the rendered decode error. *)
Definition validate_prefixed_ulid (ulid_from_string : string -> result string ())
    (input expected_prefix : string) : result string string :=
  if str_is_empty input then Err "identifier is empty"
  else match strip_prefix expected_prefix input with
       | None => Err ("expected prefix " +:+ expected_prefix +:+ ", got " +:+ input)
       | Some body =>
           let? _ := map_err (fun err => "invalid ULID body for " +:+ input +:+ ": " +:+ err)
                       (ulid_from_string body) in
           Ok input
       end.

(** [fresh_prefixed_ulid], of the ULID that was drawn. *)
Definition fresh_prefixed_ulid (prefix ulid : string) : string := prefix +:+ ulid.

Definition validate_chunk_id (input : string) : result string string :=
  if str_is_empty input then Err "chunk identifier is empty"
  else match strip_prefix CHUNK_PREFIX input with
       | None => Err ("expected prefix " +:+ CHUNK_PREFIX +:+ ", got " +:+ input)
       | Some body =>
           if negb (String.length body =? HASH_HEX_LEN)%nat
           then Err ("expected " +:+ pretty HASH_HEX_LEN +:+ "-char BLAKE3 hex body, got "
                       +:+ pretty (String.length body) +:+ " chars")
           else if negb (str_all is_lower_hex body)
           then Err "chunk body must be lowercase hex [0-9a-f]"
           else Ok input
       end.

(** [ChunkId::from_hash_bytes], of the hex rendering of the BLAKE3 hash. *)
Definition from_hash_bytes (blake3_to_hex : string -> string) (bytes : string) : string :=
  CHUNK_PREFIX +:+ blake3_to_hex bytes.

Lemma validate_chunk_id_ok input id : validate_chunk_id input = Ok id <->
  input = id /\ exists body, id = CHUNK_PREFIX +:+ body /\ String.length body = HASH_HEX_LEN /\
    str_all is_lower_hex body = true.
Proof.
  unfold validate_chunk_id. split.
  - destruct (str_is_empty input); [done|].
    destruct (strip_prefix CHUNK_PREFIX input) as [body|] eqn:E; [|done].
    apply strip_prefix_Some in E. destruct (Nat.eqb_spec (String.length body) HASH_HEX_LEN); [|done].
    destruct (str_all is_lower_hex body) eqn:Ea; [|done]. intros [= <-]. split; [done|]. by exists body.
  - intros (-> & body & -> & Hl & Ha). rewrite (proj2 (strip_prefix_Some _ _ body) eq_refl).
    simpl str_is_empty. cbv iota. rewrite Hl, Ha. done.
Qed.

(** Chunk ids are content addresses: with a hash that renders as 64
    lowercase hex digits, the id of any content is accepted by the parser and
    read back unchanged, and contents with the same id have the same hash. *)
Theorem chunk_id_roundtrip (blake3_to_hex : string -> string) bytes bytes' :
  (forall s, String.length (blake3_to_hex s) = HASH_HEX_LEN /\
             str_all is_lower_hex (blake3_to_hex s) = true) ->
  validate_chunk_id (from_hash_bytes blake3_to_hex bytes) = Ok (from_hash_bytes blake3_to_hex bytes) /\
  (from_hash_bytes blake3_to_hex bytes = from_hash_bytes blake3_to_hex bytes' ->
   blake3_to_hex bytes = blake3_to_hex bytes').
Proof.
  intros Hh. split.
  - apply validate_chunk_id_ok. split; [done|]. exists (blake3_to_hex bytes). by destruct (Hh bytes).
  - unfold from_hash_bytes. by intros ?%(inj (String.append CHUNK_PREFIX)).
Qed.

Lemma chunk_id_roundtrip_witness :
  exists h : string -> string, validate_chunk_id (from_hash_bytes h "data") = Ok (from_hash_bytes h "data").
Proof.
  set (h := fun _ : string => "0000000000000000000000000000000000000000000000000000000000000000").
  exists h. apply (chunk_id_roundtrip h "data" "data"). intros s. split; reflexivity.
Defined.
End FsId.

(** ** Objects ([object.rs], [lifecycle.rs]) *)
Module LifecycleState.
Inductive t : Type := Active | Retired | Purged.
#[global] Instance t_eq_dec : EqDecision t.
Proof. solve_decision. Defined.
Definition is_terminal (s : t) : bool := match s with Retired | Purged => true | Active => false end.
End LifecycleState.

Module ObjectKind.
Inductive t : Type :=
| Project | Application | File | Memory | Policy | Model | Package | EvidenceRef | Workspace | Config.
#[global] Instance t_eq_dec : EqDecision t.
Proof. solve_decision. Defined.
End ObjectKind.

Module PrivacyClass.
Inductive t : Type := Public | Internal | Sensitive | SecretBearing | Classified.
#[global] Instance t_eq_dec : EqDecision t.
Proof. solve_decision. Defined.
End PrivacyClass.

Module ScopeKind.
Inductive t : Type := System | Group | User.
#[global] Instance t_eq_dec : EqDecision t.
Proof. solve_decision. Defined.
End ScopeKind.

Record ScopeBinding : Type := {
  scope_kind : ScopeKind.t;
  scope_group_id : option string;
  scope_user_id : option string;
}.

Record ObjectMetadata : Type := {
  metadata_name : string;
  metadata_labels : list string;
  metadata_mime : string;
  metadata_extra : json;
}.

Module Object.
Record t : Type := {
  object_id : string;
  kind : ObjectKind.t;
  created_at : DateTime;
  created_by : string;
  current_pointer_id : string;
  metadata : ObjectMetadata;
  policy_tags : list string;
  privacy_class : PrivacyClass.t;
  lifecycle_state : LifecycleState.t;
  retired_at : option DateTime;
  purge_at : option DateTime;
  index_hints : list string;
  scope_binding : ScopeBinding;
}.

Definition set_current_pointer (p : string) (o : t) : t :=
  {| object_id := object_id o; kind := kind o; created_at := created_at o;
     created_by := created_by o; current_pointer_id := p; metadata := metadata o;
     policy_tags := policy_tags o; privacy_class := privacy_class o;
     lifecycle_state := lifecycle_state o; retired_at := retired_at o; purge_at := purge_at o;
     index_hints := index_hints o; scope_binding := scope_binding o |}.
End Object.

(** [ObjectInit] with the policy tags that [with_policy_tags] adds. *)
Definition new_object (object_id : string) (kind : ObjectKind.t) (created_at : DateTime)
    (created_by current_pointer_id : string) (metadata : ObjectMetadata)
    (privacy_class : PrivacyClass.t) (scope_binding : ScopeBinding) (policy_tags : list string)
    : Object.t :=
  {| Object.object_id := object_id; Object.kind := kind; Object.created_at := created_at;
     Object.created_by := created_by; Object.current_pointer_id := current_pointer_id;
     Object.metadata := metadata; Object.policy_tags := policy_tags;
     Object.privacy_class := privacy_class; Object.lifecycle_state := LifecycleState.Active;
     Object.retired_at := None; Object.purge_at := None; Object.index_hints := [];
     Object.scope_binding := scope_binding |}.

(** ** Versions, chunks, pointers ([version.rs], [chunk.rs], [pointer.rs]) *)
Module VersionState.
Inductive t : Type := Staged | Verified | Quarantined | RetiredVersion.
#[global] Instance t_eq_dec : EqDecision t.
Proof. solve_decision. Defined.
End VersionState.

Module Version.
Record t : Type := {
  version_id : string;
  object_id : string;
  parent_version_ids : list string;
  chunk_refs : list string;
  content_hash : string;
  metadata_delta : json;
  created_by_action_id : option string;
  created_by_transaction_id : option string;
  created_at : DateTime;
  state : VersionState.t;
  quarantined_at : option DateTime;
  quarantine_reason : option string;
}.

Definition set_state (s : VersionState.t) (at_ : option DateTime) (reason : option string) (v : t) : t :=
  {| version_id := version_id v; object_id := object_id v;
     parent_version_ids := parent_version_ids v; chunk_refs := chunk_refs v;
     content_hash := content_hash v; metadata_delta := metadata_delta v;
     created_by_action_id := created_by_action_id v;
     created_by_transaction_id := created_by_transaction_id v; created_at := created_at v;
     state := s; quarantined_at := at_; quarantine_reason := reason |}.
End Version.

Module Chunk.
Record t : Type := {
  chunk_id : string;
  size_bytes : Z;
  ref_count : Z;
  created_at : DateTime;
}.
Definition set_ref_count (n : Z) (c : t) : t :=
  {| chunk_id := chunk_id c; size_bytes := size_bytes c; ref_count := n; created_at := created_at c |}.
End Chunk.

Module PointerKind.
Inductive t : Type := Current | Stable | Candidate | Rollback | Quarantine.
#[global] Instance t_eq_dec : EqDecision t.
Proof. solve_decision. Defined.
End PointerKind.

Module Pointer.
Record t : Type := {
  pointer_id : string;
  object_id : string;
  kind : PointerKind.t;
  current_version_id : string;
  last_promoted_at : DateTime;
  last_promoted_by_transaction_id : string;
}.
Definition promote (version_id : string) (now : DateTime) (transaction_id : string) (p : t) : t :=
  {| pointer_id := pointer_id p; object_id := object_id p; kind := kind p;
     current_version_id := version_id; last_promoted_at := now;
     last_promoted_by_transaction_id := transaction_id |}.
End Pointer.

(** ** Transactions ([transaction.rs]) *)
Module TransactionState.
Inductive t : Type := PendingTx | Committing | Committed | Aborted.
#[global] Instance t_eq_dec : EqDecision t.
Proof. solve_decision. Defined.
End TransactionState.

Module ConsistencyClass.
Inductive t : Type := Snapshot | Linearizable | Eventual.
End ConsistencyClass.

Record WriteOp : Type := {
  write_object_id : string;
  created_version_id : string;
  chunk_ids_written : list string;
}.

Record PointerMoveOp : Type := {
  move_pointer_id : string;
  expected_current_version_id : string;
  new_version_id : string;
}.

Module Transaction.
Record t : Type := {
  transaction_id : string;
  subject : string;
  action_id : option string;
  started_at : DateTime;
  completed_at : option DateTime;
  state : TransactionState.t;
  writes : list WriteOp;
  pointer_moves : list PointerMoveOp;
  evidence_receipt_id : option string;
}.
End Transaction.

(** ** Requests and results ([fs_trait.rs]) *)
Module ObjectReadResult.
Record t : Type := {
  object : Object.t;
  version : Version.t;
  chunks : list Chunk.t;
  snapshot_id : string;
}.
End ObjectReadResult.

Module ObjectWriteRequest.
Record t : Type := {
  object_id : option string;
  parent_version_ids : list string;
  chunks : list string;
  metadata_delta : json;
  action_id : option string;
  subject : string;
}.
End ObjectWriteRequest.

Module ObjectWriteResult.
Record t : Type := {
  object_id : string;
  version_id : string;
  transaction_id : string;
  snapshot_id_after : string;
}.
End ObjectWriteResult.

Module FsContext.
Record t : Type := {
  subject : string;
  action_id : option string;
  expected_snapshot_id : option string;
  consistency_class : ConsistencyClass.t;
}.
End FsContext.

Module SnapshotSummary.
Record t : Type := {
  snapshot_id : string;
  at_ : DateTime;
  object_count : Z;
  pointer_count : Z;
}.
End SnapshotSummary.

(** ** Quarantine and garbage collection ([quarantine.rs], [gc.rs]) *)
Module QuarantineTrigger.
Inductive t : Type :=
| ValidationFailure | IntegrityFailure | PolicyViolation | AttestationFailure | OperatorManual.
Definition wire (x : t) : string :=
  match x with
  | ValidationFailure => "VALIDATION_FAILURE" | IntegrityFailure => "INTEGRITY_FAILURE"
  | PolicyViolation => "POLICY_VIOLATION" | AttestationFailure => "ATTESTATION_FAILURE"
  | OperatorManual => "OPERATOR_MANUAL"
  end.
End QuarantineTrigger.

Module QuarantineDisposition.
Inductive t : Type := Released | Purged.
Definition wire (x : t) : string := match x with Released => "RELEASED" | Purged => "PURGED" end.
End QuarantineDisposition.

Module QuarantineReceipt.
Record t : Type := {
  quarantine_id : string;
  version_id : string;
  transitioned_at : DateTime;
  trigger : option QuarantineTrigger.t;
  disposition : option QuarantineDisposition.t;
  reason : string;
}.
End QuarantineReceipt.

Inductive VersionPurgeReason : Type := PurgeRetired | PurgeQuarantined | OperatorRequested.

Inductive GcReason : Type :=
| OrphanChunkReclaimed (chunk_id : string)
| VersionPurged (version_id : string) (reason : VersionPurgeReason).

Module GcPassReport.
Record t : Type := {
  pass_id : string;
  started_at : DateTime;
  completed_at : DateTime;
  chunks_inspected : Z;
  chunks_reclaimed : Z;
  versions_inspected : Z;
  versions_purged : Z;
  reasons : list GcReason;
}.
End GcPassReport.

(** ** Errors ([error.rs]) *)
Module FsError.
Inductive t : Type :=
| ObjectNotFound (id : string)
| VersionNotFound (id : string)
| PointerNotFound (id : string)
| SnapshotStale (expected found : string)
| WriteRequiresParent
| ChunkUnknown (id : string)
| ChunkStillReferenced (chunk_id : string) (refcount : Z)
| VersionAlreadyPurged (id : string)
| InvalidPath (path : string)
| NamespaceMutationDenied (path reason : string)
| QuarantineViolation (m : string)
| QuarantineAlreadyApplied (id : string)
| QuarantineNotApplied (id : string)
| NoPriorStablePointer (id : string)
| InvalidTransition (from to : VersionState.t)
| QueryParse (m : string)
| QueryEval (m : string)
| ImplSpaceBindingNotFound (id : string)
| ImplSpaceBindingDuplicate (id : string)
| ImplSpaceTargetUnreachable (m : string)
| ImplSpaceIntegrityFailed (m : string)
| EvidenceEmitFailed (m : string)
| Internal (m : string).
End FsError.

(** ** Helpers of the language and its libraries *)
(** [Value::as_array]. *)
Definition as_array (v : json) : option (list json) :=
  match v with JArray l => Some l | _ => None end.

(** [str::to_ascii_uppercase]. *)
Definition to_ascii_uppercase_char (a : Ascii.ascii) : Ascii.ascii :=
  let n := Ascii.N_of_ascii a in
  if ((97 <=? n) && (n <=? 122))%N then Ascii.ascii_of_N (n - 32) else a.
Fixpoint to_ascii_uppercase (s : string) : string :=
  match s with
  | EmptyString => EmptyString
  | String a s => String (to_ascii_uppercase_char a) (to_ascii_uppercase s)
  end.

(** [collect::<Result<Vec<_>, _>>]: the values, or the first error. *)
Fixpoint try_map {E A B} (f : A -> result E B) (l : list A) : result E (list B) :=
  match l with
  | [] => Ok []
  | a :: l => let? b := f a in let? bs := try_map f l in Ok (b :: bs)
  end.

Lemma try_map_ok {E A B} (f : A -> result E B) l :
  (forall a, a ∈ l -> exists b, f a = Ok b) -> exists bs, try_map f l = Ok bs /\
    Forall2 (fun a b => f a = Ok b) l bs.
Proof.
  induction l as [|a l IH]; intros Hf; simpl; [by exists []|].
  destruct (Hf a) as [b Hb]; [by left|].
  destruct IH as (bs & Hbs & Hall); [intros; apply Hf; by right|].
  rewrite Hb, Hbs. simpl. exists (b :: bs). split; [done|]. by constructor.
Qed.

Lemma try_map_inv {E A B} (f : A -> result E B) l bs :
  try_map f l = Ok bs -> Forall2 (fun a b => f a = Ok b) l bs.
Proof.
  revert bs. induction l as [|a l IH]; intros bs; simpl; [by intros [= <-]|].
  intros Hr. apply result_bind_ok in Hr as (b & Hb & Hr).
  apply result_bind_ok in Hr as (bs' & Hbs & [= <-]). constructor; auto.
Qed.

(** * File system: evidence

    [evidence_payloads.rs] and [evidence_emit.rs]: the trait [FsEvidenceLog],
    its in-memory implementation, and the emitter of the crate's records.
    [FsWorld.t F L] is the state of the file-system monad: a store of type [F],
    an evidence log of type [L], and the environment: [clock] and [ulids] give
    the successive readings of the clock and the successive fresh ULIDs. *)

(** ** The log interface *)
Class FsEvidenceLog (L : Type) `{Primitives} := {
  fs_append_signed : Receipt.ReceiptBuilder -> SigningKey -> L -> result EvidenceError Receipt.t * L;
}.

Module InMemoryFsEvidenceLog.
Section Ops.
Context `{Primitives}.

(** [mint] and [times] are the identifiers and times of the successive seals. *)
Record t : Type := {
  chain : list Receipt.t;
  mint : nat -> string;
  times : nat -> DateTime;
  seals : nat;
}.

Definition new (mint : nat -> string) (times : nat -> DateTime) : t :=
  {| chain := []; mint := mint; times := times; seals := 0 |}.

Definition append_signed (b : Receipt.ReceiptBuilder) (key : SigningKey) (l : t)
    : result EvidenceError Receipt.t * t :=
  let next rs := {| chain := rs; mint := mint l; times := times l; seals := S (seals l) |} in
  match (let? r := Receipt.seal_signed (mint l (seals l)) (times l (seals l)) b (last (chain l)) key in
         let? rs := ReceiptChain.append (chain l) r in
         Ok (r, rs)) with
  | Err e => (Err e, next (chain l))
  | Ok (r, rs) => (Ok r, next rs)
  end.

#[export] Instance log : FsEvidenceLog t := {| fs_append_signed := append_signed |}.
End Ops.
End InMemoryFsEvidenceLog.

Definition AIOS_FS_SUBJECT : string := "_system:service:aios-fs".

(** Texts of errors: [Display] of the evidence errors and of the
    canonicalization errors (third-party texts), and [u64] of a length. *)
Class FsTexts := {
  fs_evidence_error_text : EvidenceError -> string;
  canonicalization_error_text : string -> string;
}.

Record FsEvidenceEmitter `{Primitives} : Type := {
  fs_emitter_key : SigningKey;
  fs_emitter_subject : string;
}.

Module FsWorld.
Record t {F L : Type} : Type := {
  store : F;
  evidence : L;
  clock : nat -> DateTime;
  reads : nat;
  ulids : nat -> string;
  drawn : nat;
}.
Arguments t : clear implicits.
End FsWorld.

(** ** Conflict resolutions ([evidence_payloads.rs]) *)
Module ConflictResolutionKind.
Inductive t : Type := Open | Propose | Validate | Resolve | Abandon.
Definition wire (x : t) : string :=
  match x with
  | Open => "OPEN" | Propose => "PROPOSE" | Validate => "VALIDATE" | Resolve => "RESOLVE"
  | Abandon => "ABANDON"
  end.

(** [str::replace] of [-] and space by an underscore. *)
Fixpoint underscores (s : string) : string :=
  match s with
  | EmptyString => EmptyString
  | String a s => String (if Ascii.eqb a "-" || Ascii.eqb a " " then "_"%char else a) (underscores s)
  end.

(** [trim] is [str::trim], which knows Unicode white space. *)
Definition parse_token (trim : string -> string) (input : string) : result string t :=
  let normalized := underscores (to_ascii_lowercase (trim input)) in
  if existsb (String.eqb normalized) ["open"; "opened"] then Ok Open
  else if existsb (String.eqb normalized) ["propose"; "proposed"; "proposal"] then Ok Propose
  else if existsb (String.eqb normalized) ["validate"; "validated"; "validation"] then Ok Validate
  else if existsb (String.eqb normalized) ["resolve"; "resolved"; "auto_merged"; "user_resolved"]
  then Ok Resolve
  else if existsb (String.eqb normalized) ["abandon"; "abandoned"] then Ok Abandon
  else Err ("unknown conflict resolution kind `" +:+ input +:+ "`").
End ConflictResolutionKind.

(** ** The emitter *)
Section Emit.
Context {F L : Type} `{FsEvidenceLog L} `{!FsTexts}.

Abbreviation W := (FsWorld.t F L).
Abbreviation M := (M (FsWorld.t F L) FsError.t).

Definition set_store (f : F) (w : W) : W :=
  {| FsWorld.store := f; FsWorld.evidence := FsWorld.evidence w; FsWorld.clock := FsWorld.clock w;
     FsWorld.reads := FsWorld.reads w; FsWorld.ulids := FsWorld.ulids w;
     FsWorld.drawn := FsWorld.drawn w |}.
Definition set_fs_evidence (l : L) (w : W) : W :=
  {| FsWorld.store := FsWorld.store w; FsWorld.evidence := l; FsWorld.clock := FsWorld.clock w;
     FsWorld.reads := FsWorld.reads w; FsWorld.ulids := FsWorld.ulids w;
     FsWorld.drawn := FsWorld.drawn w |}.

(** [Utc::now()]. *)
Definition fs_now : M DateTime := fun w =>
  (Ok (FsWorld.clock w (FsWorld.reads w)),
   {| FsWorld.store := FsWorld.store w; FsWorld.evidence := FsWorld.evidence w;
      FsWorld.clock := FsWorld.clock w; FsWorld.reads := S (FsWorld.reads w);
      FsWorld.ulids := FsWorld.ulids w; FsWorld.drawn := FsWorld.drawn w |}).

(** [fresh_prefixed_ulid(prefix)]. *)
Definition fresh (prefix : string) : M string := fun w =>
  (Ok (FsId.fresh_prefixed_ulid prefix (FsWorld.ulids w (FsWorld.drawn w))),
   {| FsWorld.store := FsWorld.store w; FsWorld.evidence := FsWorld.evidence w;
      FsWorld.clock := FsWorld.clock w; FsWorld.reads := FsWorld.reads w;
      FsWorld.ulids := FsWorld.ulids w; FsWorld.drawn := S (FsWorld.drawn w) |}).

Definition fs_emit (em : FsEvidenceEmitter) (rt : RecordType.t) (action_id : option string)
    (payload : json) : M string := fun w =>
  let b := Receipt.with_payload payload
             (Receipt.new rt (RecordType.retention_class_for rt) (fs_emitter_subject em)) in
  let b := match action_id with Some a => Receipt.with_action_id a b | None => b end in
  match fs_append_signed b (fs_emitter_key em) (FsWorld.evidence w) with
  | (Ok r, l) => (Ok (Receipt.receipt_id r), set_fs_evidence l w)
  | (Err e, l) => (Err (FsError.EvidenceEmitFailed (fs_evidence_error_text e)), set_fs_evidence l w)
  end.

Definition text (k v : string) : string * json := (k, JString v).
Definition optional_text (k : string) (v : option string) : string * json :=
  (k, match v with Some s => JString s | None => JNull end).

(** [content_hash_for_chunk_refs] of the emitter, which reports a failure. *)
Definition emitted_content_hash (chunk_refs : list string) : result FsError.t string :=
  let? canonical := map_err (fun e => FsError.EvidenceEmitFailed
      ("chunk-ref canonicalization failed: " +:+ canonicalization_error_text e))
    (jcs (JArray (JString <$> chunk_refs))) in
  Ok (blake3_to_hex canonical).

Definition emit_action_received (em : FsEvidenceEmitter) (write : ObjectWriteRequest.t)
    (res : ObjectWriteResult.t) (txn_id : string) : M string :=
  let! hash := lift (emitted_content_hash (ObjectWriteRequest.chunks write)) in
  fs_emit em RecordType.ActionReceived (ObjectWriteRequest.action_id write)
    (JObject [text "object_id" (ObjectWriteResult.object_id res);
              text "version_id" (ObjectWriteResult.version_id res); text "transaction_id" txn_id;
              text "subject" (ObjectWriteRequest.subject write);
              optional_text "action_id" (ObjectWriteRequest.action_id write);
              ("chunks_count", JInt (Z.of_nat (length (ObjectWriteRequest.chunks write))));
              text "content_hash" hash]).

Definition quarantine_payload (version_id : string) (trigger : option QuarantineTrigger.t)
    (disposition : option QuarantineDisposition.t) (reason : string) (at_ : DateTime) : json :=
  JObject [text "version_id" version_id;
           optional_text "trigger" (QuarantineTrigger.wire <$> trigger);
           optional_text "disposition" (QuarantineDisposition.wire <$> disposition);
           text "reason" reason; text "transitioned_at" (datetime_to_json at_)].

Definition emit_quarantine_enter (em : FsEvidenceEmitter) (version_id : string)
    (trigger : QuarantineTrigger.t) (reason : string) (r : QuarantineReceipt.t) : M string :=
  fs_emit em RecordType.QuarantineEvent None
    (quarantine_payload version_id (Some trigger) None reason (QuarantineReceipt.transitioned_at r)).

Definition emit_quarantine_exit (em : FsEvidenceEmitter) (version_id : string)
    (disposition : QuarantineDisposition.t) (r : QuarantineReceipt.t) : M string :=
  fs_emit em RecordType.QuarantineEvent None
    (quarantine_payload version_id None (Some disposition) (QuarantineReceipt.reason r)
       (QuarantineReceipt.transitioned_at r)).

Definition emit_conflict_event (trim : string -> string) (em : FsEvidenceEmitter)
    (object_id conflict_summary resolution : string) : M string :=
  let! kind := lift (map_err FsError.EvidenceEmitFailed
                       (ConflictResolutionKind.parse_token trim resolution)) in
  let! now := fs_now in
  fs_emit em RecordType.ConflictEvent None
    (JObject [text "object_id" object_id; text "conflict_summary" conflict_summary;
              text "resolution_kind" (ConflictResolutionKind.wire kind);
              text "occurred_at" (datetime_to_json now)]).

Definition emit_gc_pass (em : FsEvidenceEmitter) (r : GcPassReport.t) : M string :=
  fs_emit em RecordType.GcPass None
    (JObject [text "pass_id" (GcPassReport.pass_id r);
              ("chunks_inspected", JInt (GcPassReport.chunks_inspected r));
              ("chunks_reclaimed", JInt (GcPassReport.chunks_reclaimed r));
              ("versions_inspected", JInt (GcPassReport.versions_inspected r));
              ("versions_purged", JInt (GcPassReport.versions_purged r));
              text "started_at" (datetime_to_json (GcPassReport.started_at r));
              text "completed_at" (datetime_to_json (GcPassReport.completed_at r))]).

(** Writing evidence leaves the store alone and fails only with
    [EvidenceEmitFailed]. *)
Definition refused (e : FsError.t) : Prop := exists m, e = FsError.EvidenceEmitFailed m.

(** The environment of [w'] is that of [w], [n] identifiers later. *)
Definition same_env (n : nat) (w w' : W) : Prop :=
  FsWorld.ulids w' = FsWorld.ulids w /\ FsWorld.drawn w' = n + FsWorld.drawn w.

Definition quiet {B} (m : M B) : Prop := forall w,
  post m (fun _ w' => FsWorld.store w' = FsWorld.store w /\ same_env 0 w w')
    (fun e w' => refused e /\ FsWorld.store w' = FsWorld.store w /\ same_env 0 w w') w.

Lemma emit_quiet em rt a p : quiet (fs_emit em rt a p).
Proof.
  intros w. unfold post, fs_emit. cbv zeta. destruct (fs_append_signed _ _ _) as [[r|e] l]; [done|].
  split; [by eexists|done].
Qed.

Lemma emit_action_received_quiet em write res txn : quiet (emit_action_received em write res txn).
Proof.
  intros w. unfold emit_action_received, emitted_content_hash, post, mbind_, lift.
  destruct (jcs _) as [s|e]; simpl; [apply emit_quiet|]. split; [by eexists|done].
Qed.
End Emit.
