(* ===== verification/FsStore.v ===== *)
(** * File system: the in-memory object store

    [InMemoryAiosFs] ([in_memory.rs]) with [SnapshotId::compute]
    ([snapshot_id.rs]): objects, versions, chunks, pointers, transactions and
    snapshots in finite maps keyed by identifier.  Listings of a map come in an
    unspecified order; each is sorted by identifier, or made a sorted set,
    before it is used.  The lock of the store is taken for a whole operation.
    Then the drivers over its traits ([quarantine.rs], [gc.rs]). *)
From stdpp Require Import sorting.
From S2P Require Import Prelude Collections Json Ids Records Redaction Receipt StateError FsTypes.

Module InMemoryAiosFs.
Record t : Type := {
  objects : gmap string Object.t;
  versions : gmap string Version.t;
  chunks : gmap string Chunk.t;
  purged_versions : gset string;
  pointers : gmap string Pointer.t;
  transactions : gmap string Transaction.t;
  snapshots : gmap string SnapshotSummary.t;
  head : option string;
}.

Definition empty : t :=
  {| objects := ∅; versions := ∅; chunks := ∅; purged_versions := ∅; pointers := ∅;
     transactions := ∅; snapshots := ∅; head := None |}.

Definition set_objects (x : gmap string Object.t) (s : t) : t :=
  {| objects := x; versions := versions s; chunks := chunks s; purged_versions := purged_versions s;
     pointers := pointers s; transactions := transactions s; snapshots := snapshots s; head := head s |}.
Definition set_versions (x : gmap string Version.t) (s : t) : t :=
  {| objects := objects s; versions := x; chunks := chunks s; purged_versions := purged_versions s;
     pointers := pointers s; transactions := transactions s; snapshots := snapshots s; head := head s |}.
Definition set_chunks (x : gmap string Chunk.t) (s : t) : t :=
  {| objects := objects s; versions := versions s; chunks := x; purged_versions := purged_versions s;
     pointers := pointers s; transactions := transactions s; snapshots := snapshots s; head := head s |}.
Definition set_purged (x : gset string) (s : t) : t :=
  {| objects := objects s; versions := versions s; chunks := chunks s; purged_versions := x;
     pointers := pointers s; transactions := transactions s; snapshots := snapshots s; head := head s |}.
Definition set_pointers (x : gmap string Pointer.t) (s : t) : t :=
  {| objects := objects s; versions := versions s; chunks := chunks s;
     purged_versions := purged_versions s; pointers := x; transactions := transactions s;
     snapshots := snapshots s; head := head s |}.
Definition set_transactions (x : gmap string Transaction.t) (s : t) : t :=
  {| objects := objects s; versions := versions s; chunks := chunks s;
     purged_versions := purged_versions s; pointers := pointers s; transactions := x;
     snapshots := snapshots s; head := head s |}.
Definition set_head (x : SnapshotSummary.t) (s : t) : t :=
  {| objects := objects s; versions := versions s; chunks := chunks s;
     purged_versions := purged_versions s; pointers := pointers s; transactions := transactions s;
     snapshots := <[SnapshotSummary.snapshot_id x := x]> (snapshots s);
     head := Some (SnapshotSummary.snapshot_id x) |}.

(** ** Labels *)
Definition pointer_kind_label (k : PointerKind.t) : string :=
  match k with
  | PointerKind.Current => "CURRENT" | PointerKind.Stable => "STABLE"
  | PointerKind.Candidate => "CANDIDATE" | PointerKind.Rollback => "ROLLBACK"
  | PointerKind.Quarantine => "QUARANTINE"
  end.
Definition version_state_label (s : VersionState.t) : string :=
  match s with
  | VersionState.Staged => "STAGED" | VersionState.Verified => "VERIFIED"
  | VersionState.Quarantined => "QUARANTINED" | VersionState.RetiredVersion => "RETIRED_VERSION"
  end.

(** ** What a write reads from its metadata *)
Definition delta_token (delta : json) (key : string) : option string :=
  to_ascii_uppercase <$> (json_get delta key ≫= as_str).

Definition object_kind_from_delta (delta : json) : ObjectKind.t :=
  match delta_token delta "kind" with
  | Some k =>
      if String.eqb k "PROJECT" then ObjectKind.Project
      else if String.eqb k "APPLICATION" then ObjectKind.Application
      else if String.eqb k "MEMORY" then ObjectKind.Memory
      else if String.eqb k "POLICY" then ObjectKind.Policy
      else if String.eqb k "MODEL" then ObjectKind.Model
      else if String.eqb k "PACKAGE" then ObjectKind.Package
      else if String.eqb k "EVIDENCE_REF" then ObjectKind.EvidenceRef
      else if String.eqb k "WORKSPACE" then ObjectKind.Workspace
      else if String.eqb k "CONFIG" then ObjectKind.Config
      else ObjectKind.File
  | None => ObjectKind.File
  end.

Definition privacy_class_from_delta (delta : json) : PrivacyClass.t :=
  match delta_token delta "privacy_class" with
  | Some k =>
      if String.eqb k "PUBLIC" then PrivacyClass.Public
      else if String.eqb k "INTERNAL" then PrivacyClass.Internal
      else if String.eqb k "SECRET_BEARING" then PrivacyClass.SecretBearing
      else if String.eqb k "CLASSIFIED" then PrivacyClass.Classified
      else PrivacyClass.Sensitive
  | None => PrivacyClass.Sensitive
  end.

Definition scope_binding_from_delta (delta : json) : ScopeBinding :=
  let scope := json_get delta "scope" in
  let kind := scope ≫= fun v => delta_token v "kind" in
  let group_id := scope ≫= fun v => json_get v "group_id" ≫= as_str in
  let user_id := scope ≫= fun v => json_get v "user_id" ≫= as_str in
  let system := {| scope_kind := ScopeKind.System; scope_group_id := None; scope_user_id := None |} in
  match kind with
  | Some k =>
      if String.eqb k "USER"
      then {| scope_kind := ScopeKind.User; scope_group_id := group_id; scope_user_id := user_id |}
      else if String.eqb k "GROUP"
      then {| scope_kind := ScopeKind.Group; scope_group_id := group_id; scope_user_id := None |}
      else system
  | None => system
  end.

Definition strings_at (delta : json) (key : string) : list string :=
  match json_get delta key ≫= as_array with
  | Some vs => omap as_str vs
  | None => []
  end.

Definition policy_tags_from_delta (delta : json) : list string := strings_at delta "policy_tags".

Definition metadata_from_delta (object_id : string) (delta : json) : ObjectMetadata :=
  {| metadata_name := default object_id (json_get delta "name" ≫= as_str);
     metadata_labels := strings_at delta "labels";
     metadata_mime := default "application/octet-stream" (json_get delta "mime" ≫= as_str);
     metadata_extra := delta |}.

Section Ops.
Context {L : Type} `{FsEvidenceLog L} `{!FsTexts}.
Abbreviation W := (FsWorld.t t L).
Abbreviation M := (M (FsWorld.t t L) FsError.t).

Definition update (f : t -> t) : M () := modify (fun w => set_store (f (FsWorld.store w)) w).

(** ** Snapshots *)
Definition dquote : string := String (Ascii.ascii_of_nat 34) EmptyString.

Definition canonicalize_or_error (v : json) : string :=
  match jcs v with
  | Ok s => s
  | Err e => "{" +:+ dquote +:+ "canonicalization_error" +:+ dquote +:+ ":" +:+ dquote
               +:+ canonicalization_error_text e +:+ dquote +:+ "}"
  end.

Definition content_hash_for_chunk_refs (chunk_refs : list string) : string :=
  blake3_to_hex (canonicalize_or_error (JArray (JString <$> chunk_refs))).

(** [SnapshotId::compute]. *)
Definition snapshot_id_of (object_entries pointer_entries version_entries : list string) : string :=
  let entries l := JArray (JString <$> sorted_unique l) in
  "snap_" +:+ blake3_truncated blake3_to_hex
    (canonicalize_or_error (JObject [("objects", entries object_entries);
       ("pointers", entries pointer_entries); ("versions", entries version_entries)])).

Definition object_entry (o : Object.t) : string :=
  Object.object_id o +:+ ":" +:+ Object.current_pointer_id o.
Definition pointer_entry (p : Pointer.t) : string :=
  Pointer.pointer_id p +:+ ":" +:+ Pointer.object_id p +:+ ":" +:+
  pointer_kind_label (Pointer.kind p) +:+ ":" +:+ Pointer.current_version_id p.
Definition version_entry (v : Version.t) : string :=
  Version.version_id v +:+ ":" +:+ Version.object_id v +:+ ":" +:+
  version_state_label (Version.state v) +:+ ":" +:+ String.concat "," (Version.chunk_refs v).

Definition compute_snapshot_id (s : t) : string :=
  snapshot_id_of (object_entry <$> (map_to_list (objects s)).*2)
    (pointer_entry <$> (map_to_list (pointers s)).*2)
    (version_entry <$> (map_to_list (versions s)).*2).

Definition head_snapshot_id (s : t) : string := default (compute_snapshot_id s) (head s).

Definition capture_snapshot : M SnapshotSummary.t :=
  let! w := get in
  let s := FsWorld.store w in
  let! now := fs_now in
  let summary := {| SnapshotSummary.snapshot_id := compute_snapshot_id s; SnapshotSummary.at_ := now;
                    SnapshotSummary.object_count := Z.of_nat (size (objects s));
                    SnapshotSummary.pointer_count := Z.of_nat (size (pointers s)) |} in
  let! _ := update (set_head summary) in
  ret summary.

(** [InMemoryAiosFs::new], which captures the empty store. *)
Definition new (now : DateTime) : t :=
  set_head {| SnapshotSummary.snapshot_id := compute_snapshot_id empty; SnapshotSummary.at_ := now;
              SnapshotSummary.object_count := 0; SnapshotSummary.pointer_count := 0 |} empty.

(** ** Reading *)
Definition ensure_snapshot_current (found : option string) (expected : string)
    : result FsError.t () :=
  match found with
  | Some found => if String.eqb found expected then Ok () else Err (FsError.SnapshotStale expected found)
  | None => Ok ()
  end.

Definition is_recovery_subject (subject : string) : bool :=
  starts_with "_system:recovery" subject || starts_with "agent:recovery" subject.

Definition deny_quarantined_read_unless_recovery (s : t) (o : Object.t) (v : Version.t)
    : result FsError.t () :=
  if negb (bool_decide (Version.state v = VersionState.Quarantined)) then Ok ()
  else
    let subject := match Version.created_by_transaction_id v ≫= fun x => transactions s !! x with
                   | Some tx => Transaction.subject tx
                   | None => Object.created_by o
                   end in
    if is_recovery_subject subject then Ok ()
    else Err (FsError.QuarantineViolation
                ("read of quarantined version " +:+ Version.version_id v +:+ " denied")).

Definition find_chunk (s : t) (id : string) : result FsError.t Chunk.t :=
  ok_or (chunks s !! id) (FsError.ChunkUnknown id).

Definition read (s : t) (object_id : string) (snapshot_id : option string)
    : result FsError.t ObjectReadResult.t :=
  let current := head_snapshot_id s in
  let? _ := ensure_snapshot_current snapshot_id current in
  let? object := ok_or (objects s !! object_id) (FsError.ObjectNotFound object_id) in
  let pid := Object.current_pointer_id object in
  let? pointer := ok_or (pointers s !! pid) (FsError.PointerNotFound pid) in
  let vid := Pointer.current_version_id pointer in
  let? version := ok_or (versions s !! vid) (FsError.VersionNotFound vid) in
  let? _ := deny_quarantined_read_unless_recovery s object version in
  let? cs := try_map (find_chunk s) (Version.chunk_refs version) in
  Ok {| ObjectReadResult.object := object; ObjectReadResult.version := version;
        ObjectReadResult.chunks := cs; ObjectReadResult.snapshot_id := current |}.

Definition read_object (object_id : string) (snapshot_id : option string) : M ObjectReadResult.t :=
  let! w := get in lift (read (FsWorld.store w) object_id snapshot_id).

(** By creation time, then by identifier. *)
Definition version_le (a b : Version.t) : bool :=
  (Version.created_at a <? Version.created_at b)%Z ||
  ((Version.created_at a =? Version.created_at b)%Z &&
   str_le (Version.version_id a) (Version.version_id b)).

Definition list_versions (object_id : string) : M (list Version.t) :=
  let! w := get in
  let s := FsWorld.store w in
  match objects s !! object_id with
  | None => throw (FsError.ObjectNotFound object_id)
  | Some _ => ret (merge_sort (fun a b => Is_true (version_le a b))
                     (filter (fun v => Version.object_id v = object_id) (map_to_list (versions s)).*2))
  end.

Definition resolve_pointer (pointer_id : string) : M Pointer.t :=
  let! w := get in
  lift (ok_or (pointers (FsWorld.store w) !! pointer_id) (FsError.PointerNotFound pointer_id)).

Definition get_snapshot (snapshot_id : string) : M SnapshotSummary.t :=
  let! w := get in
  lift (ok_or (snapshots (FsWorld.store w) !! snapshot_id)
          (FsError.Internal ("snapshot not found: " +:+ snapshot_id))).

Definition object_ids : M (list string) :=
  let! w := get in ret (sort_strings (map_to_list (objects (FsWorld.store w))).*1).

(** ** Writing *)
Fixpoint check_parents (s : t) (object_id : string) (parents : list string) : result FsError.t () :=
  match parents with
  | [] => Ok ()
  | p :: parents =>
      let? parent := ok_or (versions s !! p) (FsError.VersionNotFound p) in
      if negb (String.eqb (Version.object_id parent) object_id) then Err (FsError.VersionNotFound p)
      else check_parents s object_id parents
  end.

Definition prepare_existing_object_write (s : t) (object_id : string) (parents : list string)
    : result FsError.t () :=
  match objects s !! object_id with
  | None => Err (FsError.ObjectNotFound object_id)
  | Some _ =>
      match parents with
      | [] => Err FsError.WriteRequiresParent
      | _ => check_parents s object_id parents
      end
  end.

(** One reference more to a chunk, which is created when it is not known. *)
Definition reference (now : DateTime) (cs : gmap string Chunk.t) (id : string) : gmap string Chunk.t :=
  <[id := match cs !! id with
          | Some c => Chunk.set_ref_count (u32_saturating_add (Chunk.ref_count c) 1) c
          | None => {| Chunk.chunk_id := id; Chunk.size_bytes := 0; Chunk.ref_count := 1;
                       Chunk.created_at := now |}
          end]> cs.

Definition register_chunks (refs : list string) (now : DateTime) (s : t) : t :=
  set_chunks (foldl (reference now) (chunks s) refs) s.

Definition promote_existing_object_pointer (object_id version_id transaction_id : string)
    (now : DateTime) : M PointerMoveOp :=
  let! w := get in
  let s := FsWorld.store w in
  let! object := lift (ok_or (objects s !! object_id) (FsError.ObjectNotFound object_id)) in
  let pid := Object.current_pointer_id object in
  let! pointer := lift (ok_or (pointers s !! pid) (FsError.PointerNotFound pid)) in
  let! _ := update (set_pointers (<[pid := Pointer.promote version_id now transaction_id pointer]>
                                    (pointers s))) in
  ret {| move_pointer_id := pid; expected_current_version_id := Pointer.current_version_id pointer;
         new_version_id := version_id |}.

Definition create_object_pointer_pair (write : ObjectWriteRequest.t)
    (object_id version_id transaction_id : string) (now : DateTime) : M () :=
  let delta := ObjectWriteRequest.metadata_delta write in
  let! pid := fresh FsId.POINTER_PREFIX in
  let pointer := {| Pointer.pointer_id := pid; Pointer.object_id := object_id;
                    Pointer.kind := PointerKind.Current; Pointer.current_version_id := version_id;
                    Pointer.last_promoted_at := now;
                    Pointer.last_promoted_by_transaction_id := transaction_id |} in
  let object := new_object object_id (object_kind_from_delta delta) now
                  (ObjectWriteRequest.subject write) pid (metadata_from_delta object_id delta)
                  (privacy_class_from_delta delta) (scope_binding_from_delta delta)
                  (policy_tags_from_delta delta) in
  let! _ := update (fun s => set_pointers (<[pid := pointer]> (pointers s)) s) in
  update (fun s => set_objects (<[object_id := object]> (objects s)) s).

Definition or_action (a b : option string) : option string :=
  match a with Some _ => a | None => b end.

(** The part of [write_object] under the lock of the store. *)
Definition write_locked (write : ObjectWriteRequest.t) (context : FsContext.t)
    : M ObjectWriteResult.t :=
  let! w := get in
  let s := FsWorld.store w in
  let! _ := lift (ensure_snapshot_current (FsContext.expected_snapshot_id context)
                    (head_snapshot_id s)) in
  let! now := fs_now in
  let! transaction_id := fresh FsId.TRANSACTION_PREFIX in
  let! version_id := fresh FsId.VERSION_PREFIX in
  let action_id := or_action (ObjectWriteRequest.action_id write) (FsContext.action_id context) in
  let! object_id :=
    match ObjectWriteRequest.object_id write with
    | Some o =>
        let! _ := lift (prepare_existing_object_write s o
                          (ObjectWriteRequest.parent_version_ids write)) in
        ret o
    | None => fresh FsId.OBJECT_PREFIX
    end in
  let refs := ObjectWriteRequest.chunks write in
  let! _ := update (register_chunks refs now) in
  let version :=
    {| Version.version_id := version_id; Version.object_id := object_id;
       Version.parent_version_ids := ObjectWriteRequest.parent_version_ids write;
       Version.chunk_refs := refs; Version.content_hash := content_hash_for_chunk_refs refs;
       Version.metadata_delta := ObjectWriteRequest.metadata_delta write;
       Version.created_by_action_id := action_id;
       Version.created_by_transaction_id := Some transaction_id; Version.created_at := now;
       Version.state := VersionState.Verified; Version.quarantined_at := None;
       Version.quarantine_reason := None |} in
  let! pointer_moves :=
    match ObjectWriteRequest.object_id write with
    | Some _ =>
        let! mv := promote_existing_object_pointer object_id version_id transaction_id now in
        ret [mv]
    | None =>
        let! _ := create_object_pointer_pair write object_id version_id transaction_id now in
        ret []
    end in
  let! _ := update (fun s => set_versions (<[version_id := version]> (versions s)) s) in
  let transaction :=
    {| Transaction.transaction_id := transaction_id; Transaction.subject := FsContext.subject context;
       Transaction.action_id := action_id; Transaction.started_at := now;
       Transaction.completed_at := None; Transaction.state := TransactionState.PendingTx;
       Transaction.writes := [ {| write_object_id := object_id; created_version_id := version_id;
                                  chunk_ids_written := refs |} ];
       Transaction.pointer_moves := pointer_moves; Transaction.evidence_receipt_id := None |} in
  let! _ := update (fun s => set_transactions (<[transaction_id := transaction]> (transactions s)) s) in
  let! after := capture_snapshot in
  ret {| ObjectWriteResult.object_id := object_id; ObjectWriteResult.version_id := version_id;
         ObjectWriteResult.transaction_id := transaction_id;
         ObjectWriteResult.snapshot_id_after := SnapshotSummary.snapshot_id after |}.

Definition with_action (a : option string) (write : ObjectWriteRequest.t) : ObjectWriteRequest.t :=
  {| ObjectWriteRequest.object_id := ObjectWriteRequest.object_id write;
     ObjectWriteRequest.parent_version_ids := ObjectWriteRequest.parent_version_ids write;
     ObjectWriteRequest.chunks := ObjectWriteRequest.chunks write;
     ObjectWriteRequest.metadata_delta := ObjectWriteRequest.metadata_delta write;
     ObjectWriteRequest.action_id := a; ObjectWriteRequest.subject := ObjectWriteRequest.subject write |}.

Definition write_object (emitter : option FsEvidenceEmitter) (write : ObjectWriteRequest.t)
    (context : FsContext.t) : M ObjectWriteResult.t :=
  let evidence_write := with_action (or_action (ObjectWriteRequest.action_id write)
                                       (FsContext.action_id context)) write in
  let! res := write_locked write context in
  let! _ := match emitter with
            | Some em =>
                let! _ := emit_action_received em evidence_write res
                            (ObjectWriteResult.transaction_id res) in
                ret ()
            | None => ret ()
            end in
  ret res.

(** ** Quarantine *)
Definition current_or_stable_pointers_to (s : t) (version_id : string) : list string :=
  sort_strings (Pointer.pointer_id <$>
    filter (fun p => (Pointer.kind p = PointerKind.Current \/ Pointer.kind p = PointerKind.Stable) /\
                     Pointer.current_version_id p = version_id) (map_to_list (pointers s)).*2).

Definition version_for_object (s : t) (object_id version_id : string) : result FsError.t Version.t :=
  let? version := ok_or (versions s !! version_id) (FsError.VersionNotFound version_id) in
  if negb (String.eqb (Version.object_id version) object_id)
  then Err (FsError.VersionNotFound version_id) else Ok version.

Definition pointer_id_le (a b : Pointer.t) : bool := str_le (Pointer.pointer_id a) (Pointer.pointer_id b).

Definition pointer_target_for_kind (s : t) (object_id : string) (kind : PointerKind.t)
    (excluded_version_id : string) : result FsError.t (option string) :=
  match merge_sort (fun a b => Is_true (pointer_id_le a b))
          (filter (fun p => Pointer.object_id p = object_id /\ Pointer.kind p = kind /\
                            Pointer.current_version_id p <> excluded_version_id)
             (map_to_list (pointers s)).*2) with
  | p :: _ =>
      let? target := version_for_object s object_id (Pointer.current_version_id p) in
      Ok (Some (Version.version_id target))
  | [] => Ok None
  end.

Fixpoint first_verified (s : t) (object_id : string) (parents : list string)
    : result FsError.t (option string) :=
  match parents with
  | [] => Ok None
  | p :: parents =>
      let? parent := version_for_object s object_id p in
      if bool_decide (Version.state parent = VersionState.Verified)
      then Ok (Some (Version.version_id parent))
      else first_verified s object_id parents
  end.
Definition prior_verified_parent (s : t) (v : Version.t) : result FsError.t (option string) :=
  first_verified s (Version.object_id v) (Version.parent_version_ids v).

Definition quarantine_pointer_fallback (s : t) (v : Version.t) : result FsError.t (option string) :=
  let? rollback_target := pointer_target_for_kind s (Version.object_id v) PointerKind.Rollback
                            (Version.version_id v) in
  match rollback_target with
  | Some x => Ok (Some x)
  | None =>
      let? stable_target := pointer_target_for_kind s (Version.object_id v) PointerKind.Stable
                              (Version.version_id v) in
      match stable_target with
      | Some x => Ok (Some x)
      | None => prior_verified_parent s v
      end
  end.

(** The pointers [ids] are moved one after the other. *)
Fixpoint promote_all (ids : list string) (version_id : string) (now : DateTime)
    (transaction_id : string) : M () :=
  match ids with
  | [] => ret ()
  | id :: ids =>
      let! w := get in
      let ps := pointers (FsWorld.store w) in
      let! pointer := lift (ok_or (ps !! id) (FsError.PointerNotFound id)) in
      let! _ := update (set_pointers (<[id := Pointer.promote version_id now transaction_id pointer]> ps)) in
      promote_all ids version_id now transaction_id
  end.

Definition set_version_state (version_id : string) (st : VersionState.t) (at_ : option DateTime)
    (reason : option string) (s : t) : t :=
  set_versions (alter (Version.set_state st at_ reason) version_id (versions s)) s.

(** The target is looked up among the versions when some pointer is affected. *)
Definition fallback_for (s : t) (v : Version.t) (affected : list string)
    : result FsError.t (option string) :=
  match affected with
  | [] => Ok None
  | _ =>
      let? target := quarantine_pointer_fallback s v in
      match target with
      | None => Err (FsError.NoPriorStablePointer (Version.object_id v))
      | Some x => Ok (Some x)
      end
  end.

Definition apply_quarantine_entry (version_id : string) (trigger : QuarantineTrigger.t)
    (reason : string) : M QuarantineReceipt.t :=
  let! w := get in
  let s := FsWorld.store w in
  let! now := fs_now in
  let! transaction_id := fresh FsId.TRANSACTION_PREFIX in
  let! version := lift (ok_or (versions s !! version_id) (FsError.VersionNotFound version_id)) in
  if bool_decide (Version.state version = VersionState.Quarantined)
  then throw (FsError.QuarantineAlreadyApplied version_id)
  else
    let affected := current_or_stable_pointers_to s version_id in
    let! target := lift (fallback_for s version affected) in
    let! _ := update (set_version_state version_id VersionState.Quarantined (Some now) (Some reason)) in
    let! _ := match target with
              | Some x => promote_all affected x now transaction_id
              | None => ret ()
              end in
    let! _ := capture_snapshot in
    let! id := fresh "qnt_" in
    ret {| QuarantineReceipt.quarantine_id := id; QuarantineReceipt.version_id := version_id;
           QuarantineReceipt.transitioned_at := now; QuarantineReceipt.trigger := Some trigger;
           QuarantineReceipt.disposition := None; QuarantineReceipt.reason := reason |}.

Definition exit_state (d : QuarantineDisposition.t) : VersionState.t :=
  match d with
  | QuarantineDisposition.Released => VersionState.Verified
  | QuarantineDisposition.Purged => VersionState.RetiredVersion
  end.

Definition apply_quarantine_exit (version_id : string) (d : QuarantineDisposition.t)
    (operator : string) : M QuarantineReceipt.t :=
  let! w := get in
  let s := FsWorld.store w in
  let! now := fs_now in
  let! version := lift (ok_or (versions s !! version_id) (FsError.VersionNotFound version_id)) in
  if negb (bool_decide (Version.state version = VersionState.Quarantined))
  then throw (FsError.QuarantineNotApplied version_id)
  else
    let! _ := update (set_version_state version_id (exit_state d) None None) in
    let! _ := capture_snapshot in
    let! id := fresh "qnt_" in
    ret {| QuarantineReceipt.quarantine_id := id; QuarantineReceipt.version_id := version_id;
           QuarantineReceipt.transitioned_at := now; QuarantineReceipt.trigger := None;
           QuarantineReceipt.disposition := Some d;
           QuarantineReceipt.reason := "operator=" +:+ operator |}.

(** ** Reference counts and reclamation *)
Definition drop_reference (cs : gmap string Chunk.t) (id : string) : gmap string Chunk.t :=
  alter (fun c => if (0 <? Chunk.ref_count c)%Z
                  then Chunk.set_ref_count (Chunk.ref_count c - 1) c else c) id cs.

Definition decrement_chunk_refcount (chunk_id : string) : M Z :=
  let! w := get in
  let s := FsWorld.store w in
  let! chunk := lift (find_chunk s chunk_id) in
  let! _ := update (fun s => set_chunks (drop_reference (chunks s) chunk_id) s) in
  let! _ := capture_snapshot in
  ret (if (0 <? Chunk.ref_count chunk)%Z then Chunk.ref_count chunk - 1 else Chunk.ref_count chunk)%Z.

Definition reclaim_chunk (chunk_id : string) : M () :=
  let! w := get in
  let s := FsWorld.store w in
  let! chunk := lift (find_chunk s chunk_id) in
  if negb (Chunk.ref_count chunk =? 0)%Z
  then throw (FsError.ChunkStillReferenced chunk_id (Chunk.ref_count chunk))
  else
    let! _ := update (fun s => set_chunks (delete chunk_id (chunks s)) s) in
    let! _ := capture_snapshot in
    ret ().

Fixpoint all_known (s : t) (ids : list string) : result FsError.t () :=
  match ids with
  | [] => Ok ()
  | id :: ids => let? _ := find_chunk s id in all_known s ids
  end.

Definition purge_version (version_id : string) (reason : VersionPurgeReason) : M (list string) :=
  let! w := get in
  let s := FsWorld.store w in
  if bool_decide (version_id ∈ purged_versions s) then throw (FsError.VersionAlreadyPurged version_id)
  else
    let! version := lift (ok_or (versions s !! version_id) (FsError.VersionNotFound version_id)) in
    let refs := Version.chunk_refs version in
    let! _ := lift (all_known s refs) in
    let! _ := update (set_version_state version_id VersionState.RetiredVersion None None) in
    let! _ := update (fun s => set_chunks (foldl drop_reference (chunks s) refs) s) in
    let! _ := update (fun s => set_purged ({[version_id]} ∪ purged_versions s) s) in
    let! _ := capture_snapshot in
    ret refs.

Definition retired_version_ids_for_gc (max_versions : nat) : M (list string) :=
  let! w := get in
  let s := FsWorld.store w in
  ret (take max_versions (sort_strings (Version.version_id <$>
    filter (fun v => Version.state v = VersionState.RetiredVersion /\
                     Version.version_id v ∉ purged_versions s) (map_to_list (versions s)).*2))).

Definition zero_ref_chunk_ids_for_gc (max_chunks : nat) : M (list string) :=
  let! w := get in
  let s := FsWorld.store w in
  ret (take max_chunks (sort_strings (Chunk.chunk_id <$>
    filter (fun c => Chunk.ref_count c = 0%Z) (map_to_list (chunks s)).*2))).

(** ** The test harness's doors *)
Definition force_version_state_for_harness (version_id : string) (st : VersionState.t)
    (reason : option string) : M () :=
  let! w := get in
  let! now := fs_now in
  let! version := lift (ok_or (versions (FsWorld.store w) !! version_id)
                          (FsError.VersionNotFound version_id)) in
  let! _ := update (if bool_decide (st = VersionState.Quarantined)
                    then set_version_state version_id st (Some now) reason
                    else set_version_state version_id st (Version.quarantined_at version)
                           (Version.quarantine_reason version)) in
  let! _ := capture_snapshot in
  ret ().

Definition force_pointer_for_harness (object_id : string) (kind : PointerKind.t)
    (version_id : string) : M string :=
  let! w := get in
  let s := FsWorld.store w in
  let! _ := lift (ok_or (objects s !! object_id) (FsError.ObjectNotFound object_id)) in
  let! version := lift (ok_or (versions s !! version_id) (FsError.VersionNotFound version_id)) in
  if negb (String.eqb (Version.object_id version) object_id)
  then throw (FsError.VersionNotFound version_id)
  else
    let! now := fs_now in
    let! pid := fresh FsId.POINTER_PREFIX in
    let! tid := fresh FsId.TRANSACTION_PREFIX in
    let pointer := {| Pointer.pointer_id := pid; Pointer.object_id := object_id; Pointer.kind := kind;
                      Pointer.current_version_id := version_id; Pointer.last_promoted_at := now;
                      Pointer.last_promoted_by_transaction_id := tid |} in
    let! _ := update (fun s => set_pointers (<[pid := pointer]> (pointers s)) s) in
    let! _ := capture_snapshot in
    ret pid.

Definition force_object_current_pointer_for_harness (object_id pointer_id : string) : M () :=
  let! w := get in
  let s := FsWorld.store w in
  let! pointer := lift (ok_or (pointers s !! pointer_id) (FsError.PointerNotFound pointer_id)) in
  if negb (String.eqb (Pointer.object_id pointer) object_id)
  then throw (FsError.PointerNotFound pointer_id)
  else
    let! object := lift (ok_or (objects s !! object_id) (FsError.ObjectNotFound object_id)) in
    let! _ := update (fun s => set_objects (<[object_id := Object.set_current_pointer pointer_id object]>
                                              (objects s)) s) in
    let! _ := capture_snapshot in
    ret ().
End Ops.
End InMemoryAiosFs.

(** * File system: the quarantine and garbage-collection drivers

    [QuarantineDriver] ([quarantine.rs]) and [GcPassDriver] ([gc.rs]) over the
    traits they are written against, and the in-memory store as an
    implementation of those traits. *)

(** ** The traits *)
Class AiosFs (F L : Type) := {
  fs_read_object : string -> option string -> M (FsWorld.t F L) FsError.t ObjectReadResult.t;
  fs_write_object : ObjectWriteRequest.t -> FsContext.t ->
    M (FsWorld.t F L) FsError.t ObjectWriteResult.t;
  fs_list_versions : string -> M (FsWorld.t F L) FsError.t (list Version.t);
  fs_resolve_pointer : string -> M (FsWorld.t F L) FsError.t Pointer.t;
  fs_get_snapshot : string -> M (FsWorld.t F L) FsError.t SnapshotSummary.t;
}.

Class MutableAiosFs (F L : Type) := {
  fs_apply_quarantine_entry : string -> QuarantineTrigger.t -> string ->
    M (FsWorld.t F L) FsError.t QuarantineReceipt.t;
  fs_apply_quarantine_exit : string -> QuarantineDisposition.t -> string ->
    M (FsWorld.t F L) FsError.t QuarantineReceipt.t;
  fs_decrement_chunk_refcount : string -> M (FsWorld.t F L) FsError.t Z;
  fs_reclaim_chunk : string -> M (FsWorld.t F L) FsError.t ();
  fs_purge_version : string -> VersionPurgeReason -> M (FsWorld.t F L) FsError.t (list string);
  fs_retired_version_ids_for_gc : nat -> M (FsWorld.t F L) FsError.t (list string);
  fs_zero_ref_chunk_ids_for_gc : nat -> M (FsWorld.t F L) FsError.t (list string);
}.

Class FsEnumerator (F L : Type) := {
  fs_object_ids : M (FsWorld.t F L) FsError.t (list string);
  fs_head_snapshot_id : F -> string;
}.

Section Drivers.
Context {F L : Type} `{FsEvidenceLog L} `{!FsTexts} `{!MutableAiosFs F L}.
Variable emitter : option FsEvidenceEmitter.
Abbreviation W := (FsWorld.t F L).
Abbreviation M := (M (FsWorld.t F L) FsError.t).

Definition emit_if (emit : FsEvidenceEmitter -> M string) : M () :=
  match emitter with
  | Some em => let! _ := emit em in ret ()
  | None => ret ()
  end.

(** ** [QuarantineDriver] *)
Definition enter (version_id : string) (trigger : QuarantineTrigger.t) (reason : string)
    : M QuarantineReceipt.t :=
  let! receipt := fs_apply_quarantine_entry version_id trigger reason in
  let! _ := emit_if (fun em => emit_quarantine_enter em version_id trigger reason receipt) in
  ret receipt.

Definition exit (version_id : string) (d : QuarantineDisposition.t) (operator : string)
    : M QuarantineReceipt.t :=
  let! receipt := fs_apply_quarantine_exit version_id d operator in
  let! _ := emit_if (fun em => emit_quarantine_exit em version_id d receipt) in
  ret receipt.

(** ** [GcPassDriver] *)
Definition DEFAULT_MAX_CHUNKS_PER_PASS : nat := 1024.
Definition DEFAULT_MAX_VERSIONS_PER_PASS : nat := 1024.

Fixpoint purge_loop (ids : list string) (purged : Z) (reasons : list GcReason)
    : M (Z * list GcReason) :=
  match ids with
  | [] => ret (purged, reasons)
  | id :: ids => fun w =>
      match fs_purge_version id PurgeRetired w with
      | (Ok _, w) => purge_loop ids (purged + 1) (reasons ++ [VersionPurged id PurgeRetired]) w
      | (Err (FsError.VersionAlreadyPurged _), w) => purge_loop ids purged reasons w
      | (Err e, w) => (Err e, w)
      end
  end.

Fixpoint reclaim_loop (ids : list string) (reclaimed : Z) (reasons : list GcReason)
    : M (Z * list GcReason) :=
  match ids with
  | [] => ret (reclaimed, reasons)
  | id :: ids => fun w =>
      match fs_reclaim_chunk id w with
      | (Ok _, w) => reclaim_loop ids (reclaimed + 1) (reasons ++ [OrphanChunkReclaimed id]) w
      | (Err (FsError.ChunkStillReferenced _ _), w) => reclaim_loop ids reclaimed reasons w
      | (Err (FsError.ChunkUnknown _), w) => reclaim_loop ids reclaimed reasons w
      | (Err e, w) => (Err e, w)
      end
  end.

Definition run_pass (max_chunks max_versions : nat) : M GcPassReport.t :=
  let! pass_id := fresh "gcp_" in
  let! started_at := fs_now in
  let! version_ids := fs_retired_version_ids_for_gc max_versions in
  let! vs := purge_loop version_ids 0 [] in
  let! chunk_ids := fs_zero_ref_chunk_ids_for_gc max_chunks in
  let! cs := reclaim_loop chunk_ids 0 vs.2 in
  let! completed_at := fs_now in
  let report := {| GcPassReport.pass_id := pass_id; GcPassReport.started_at := started_at;
                   GcPassReport.completed_at := completed_at;
                   GcPassReport.chunks_inspected := Z.of_nat (length chunk_ids);
                   GcPassReport.chunks_reclaimed := cs.1;
                   GcPassReport.versions_inspected := Z.of_nat (length version_ids);
                   GcPassReport.versions_purged := vs.1; GcPassReport.reasons := cs.2 |} in
  let! _ := emit_if (fun em => emit_gc_pass em report) in
  ret report.
End Drivers.

(** ** The in-memory store behind the traits *)
Section InMemory.
Context {L : Type} `{FsEvidenceLog L} `{!FsTexts}.
Variable emitter : option FsEvidenceEmitter.

#[export] Instance in_memory_mutable : MutableAiosFs InMemoryAiosFs.t L := {|
  fs_apply_quarantine_entry := InMemoryAiosFs.apply_quarantine_entry;
  fs_apply_quarantine_exit := InMemoryAiosFs.apply_quarantine_exit;
  fs_decrement_chunk_refcount := InMemoryAiosFs.decrement_chunk_refcount;
  fs_reclaim_chunk := InMemoryAiosFs.reclaim_chunk;
  fs_purge_version := InMemoryAiosFs.purge_version;
  fs_retired_version_ids_for_gc := InMemoryAiosFs.retired_version_ids_for_gc;
  fs_zero_ref_chunk_ids_for_gc := InMemoryAiosFs.zero_ref_chunk_ids_for_gc |}.

#[export] Instance in_memory_enumerator : FsEnumerator InMemoryAiosFs.t L := {|
  fs_object_ids := InMemoryAiosFs.object_ids;
  fs_head_snapshot_id := InMemoryAiosFs.head_snapshot_id |}.

Definition in_memory_fs : AiosFs InMemoryAiosFs.t L := {|
  fs_read_object := InMemoryAiosFs.read_object;
  fs_write_object := InMemoryAiosFs.write_object emitter;
  fs_list_versions := InMemoryAiosFs.list_versions;
  fs_resolve_pointer := InMemoryAiosFs.resolve_pointer;
  fs_get_snapshot := InMemoryAiosFs.get_snapshot |}.
End InMemory.
