(* ===== verification/FsNamespace.v ===== *)
(** * File system: the [/aios] name space

    Classification of paths ([namespace.rs]) and who may mutate what
    ([namespace_policy.rs]). *)
From S2P Require Import Prelude Collections Json Ids FsTypes.

Module NamespaceClass.
Inductive t : Type :=
| System | SystemApps | SystemAgents | SystemPolicy | SystemCapabilities | SystemEvidence
| SystemVault | SystemRuntime | SystemRecovery | SystemBoot | SystemFirstboot | SystemGovernance
| SystemIdentity | SystemKernel | SystemHardware | SystemDrivers | SystemFirmware | SystemNetwork
| SystemSgr | SystemUnits | SystemRunbooks | SystemThemes | SystemRenderers | SystemWeb
| SystemDistribution | Groups | Group | GroupApps | GroupAgents | GroupUsers | GroupShared
| GroupProjects | GroupDatasets | GroupInbox | GroupPolicy | GroupEvidence | GroupVault
| GroupAudit | GroupServices | GroupSystem | User | UserHome | UserAgents | UserPrefs | UserDesktop
| UserInbox | UserOutbox | UserDrafts | UserTrust | UserApps | UserRuntime | UserExports.

#[export] Instance eq_dec : EqDecision t.
Proof. solve_decision. Defined.

Definition is_recovery_only_mutation (c : t) : bool :=
  match c with
  | SystemPolicy | SystemCapabilities | SystemVault | SystemRecovery | SystemBoot | SystemFirstboot
  | SystemGovernance | SystemIdentity | SystemKernel | SystemFirmware => true
  | _ => false
  end.

Definition is_read_only_for_ai (c : t) : bool :=
  match c with
  | System | SystemApps | SystemAgents | SystemPolicy | SystemCapabilities | SystemEvidence
  | SystemVault | SystemRuntime | SystemRecovery | SystemBoot | SystemFirstboot | SystemGovernance
  | SystemIdentity | SystemKernel | SystemHardware | SystemDrivers | SystemFirmware | SystemNetwork
  | SystemSgr | SystemUnits | SystemRunbooks | SystemThemes | SystemRenderers | SystemWeb
  | SystemDistribution | GroupSystem => true
  | _ => false
  end.

Definition evidence_grade_floor (c : t) : string :=
  if is_read_only_for_ai c ||
     match c with GroupPolicy | GroupVault | GroupAudit | UserTrust => true | _ => false end
  then "E4" else "E3".

(** [namespace_class_token] of [query_eval.rs]. *)
Definition token (c : t) : string :=
  match c with
  | System => "SYSTEM" | SystemApps => "SYSTEM_APPS" | SystemAgents => "SYSTEM_AGENTS"
  | SystemPolicy => "SYSTEM_POLICY" | SystemCapabilities => "SYSTEM_CAPABILITIES"
  | SystemEvidence => "SYSTEM_EVIDENCE" | SystemVault => "SYSTEM_VAULT"
  | SystemRuntime => "SYSTEM_RUNTIME" | SystemRecovery => "SYSTEM_RECOVERY"
  | SystemBoot => "SYSTEM_BOOT" | SystemFirstboot => "SYSTEM_FIRSTBOOT"
  | SystemGovernance => "SYSTEM_GOVERNANCE" | SystemIdentity => "SYSTEM_IDENTITY"
  | SystemKernel => "SYSTEM_KERNEL" | SystemHardware => "SYSTEM_HARDWARE"
  | SystemDrivers => "SYSTEM_DRIVERS" | SystemFirmware => "SYSTEM_FIRMWARE"
  | SystemNetwork => "SYSTEM_NETWORK" | SystemSgr => "SYSTEM_SGR" | SystemUnits => "SYSTEM_UNITS"
  | SystemRunbooks => "SYSTEM_RUNBOOKS" | SystemThemes => "SYSTEM_THEMES"
  | SystemRenderers => "SYSTEM_RENDERERS" | SystemWeb => "SYSTEM_WEB"
  | SystemDistribution => "SYSTEM_DISTRIBUTION" | Groups => "GROUPS" | Group => "GROUP"
  | GroupApps => "GROUP_APPS" | GroupAgents => "GROUP_AGENTS" | GroupUsers => "GROUP_USERS"
  | GroupShared => "GROUP_SHARED" | GroupProjects => "GROUP_PROJECTS"
  | GroupDatasets => "GROUP_DATASETS" | GroupInbox => "GROUP_INBOX" | GroupPolicy => "GROUP_POLICY"
  | GroupEvidence => "GROUP_EVIDENCE" | GroupVault => "GROUP_VAULT" | GroupAudit => "GROUP_AUDIT"
  | GroupServices => "GROUP_SERVICES" | GroupSystem => "GROUP_SYSTEM" | User => "USER"
  | UserHome => "USER_HOME" | UserAgents => "USER_AGENTS" | UserPrefs => "USER_PREFS"
  | UserDesktop => "USER_DESKTOP" | UserInbox => "USER_INBOX" | UserOutbox => "USER_OUTBOX"
  | UserDrafts => "USER_DRAFTS" | UserTrust => "USER_TRUST" | UserApps => "USER_APPS"
  | UserRuntime => "USER_RUNTIME" | UserExports => "USER_EXPORTS"
  end.
End NamespaceClass.

(** ** Paths *)
Definition parse_segments (path : string) : option (list string) :=
  rest ← strip_prefix "/aios/" path;
  if str_is_empty rest then None
  else
    let segments := split_on "/" rest in
    if existsb (fun s => str_is_empty s || String.eqb s "." || String.eqb s "..") segments then None
    else Some segments.

Definition system_reserved_class (segment : string) : option NamespaceClass.t :=
  if String.eqb segment "apps" then Some NamespaceClass.SystemApps
  else if String.eqb segment "agents" then Some NamespaceClass.SystemAgents
  else if String.eqb segment "policy" then Some NamespaceClass.SystemPolicy
  else if String.eqb segment "capabilities" then Some NamespaceClass.SystemCapabilities
  else if String.eqb segment "evidence" then Some NamespaceClass.SystemEvidence
  else if String.eqb segment "vault" then Some NamespaceClass.SystemVault
  else if String.eqb segment "runtime" then Some NamespaceClass.SystemRuntime
  else if String.eqb segment "recovery" then Some NamespaceClass.SystemRecovery
  else if String.eqb segment "boot" then Some NamespaceClass.SystemBoot
  else if String.eqb segment "firstboot" then Some NamespaceClass.SystemFirstboot
  else if String.eqb segment "governance" then Some NamespaceClass.SystemGovernance
  else if String.eqb segment "identity" then Some NamespaceClass.SystemIdentity
  else if String.eqb segment "kernel" then Some NamespaceClass.SystemKernel
  else if String.eqb segment "hardware" then Some NamespaceClass.SystemHardware
  else if String.eqb segment "drivers" then Some NamespaceClass.SystemDrivers
  else if String.eqb segment "firmware" then Some NamespaceClass.SystemFirmware
  else if String.eqb segment "network" then Some NamespaceClass.SystemNetwork
  else if String.eqb segment "sgr" then Some NamespaceClass.SystemSgr
  else if String.eqb segment "units" then Some NamespaceClass.SystemUnits
  else if String.eqb segment "runbooks" then Some NamespaceClass.SystemRunbooks
  else if String.eqb segment "themes" then Some NamespaceClass.SystemThemes
  else if String.eqb segment "renderers" then Some NamespaceClass.SystemRenderers
  else if String.eqb segment "web" then Some NamespaceClass.SystemWeb
  else if String.eqb segment "distribution" then Some NamespaceClass.SystemDistribution
  else None.

Definition group_reserved_class (segment : string) : option NamespaceClass.t :=
  if String.eqb segment "apps" then Some NamespaceClass.GroupApps
  else if String.eqb segment "agents" then Some NamespaceClass.GroupAgents
  else if String.eqb segment "users" then Some NamespaceClass.GroupUsers
  else if String.eqb segment "shared" then Some NamespaceClass.GroupShared
  else if String.eqb segment "projects" then Some NamespaceClass.GroupProjects
  else if String.eqb segment "datasets" then Some NamespaceClass.GroupDatasets
  else if String.eqb segment "inbox" then Some NamespaceClass.GroupInbox
  else if String.eqb segment "policy" then Some NamespaceClass.GroupPolicy
  else if String.eqb segment "evidence" then Some NamespaceClass.GroupEvidence
  else if String.eqb segment "vault" then Some NamespaceClass.GroupVault
  else if String.eqb segment "audit" then Some NamespaceClass.GroupAudit
  else if String.eqb segment "services" then Some NamespaceClass.GroupServices
  else if String.eqb segment "system" then Some NamespaceClass.GroupSystem
  else None.

Definition user_reserved_class (segment : string) : option NamespaceClass.t :=
  if String.eqb segment "home" then Some NamespaceClass.UserHome
  else if String.eqb segment "agents" then Some NamespaceClass.UserAgents
  else if String.eqb segment "prefs" then Some NamespaceClass.UserPrefs
  else if String.eqb segment "desktop" then Some NamespaceClass.UserDesktop
  else if String.eqb segment "inbox" then Some NamespaceClass.UserInbox
  else if String.eqb segment "outbox" then Some NamespaceClass.UserOutbox
  else if String.eqb segment "drafts" then Some NamespaceClass.UserDrafts
  else if String.eqb segment "trust" then Some NamespaceClass.UserTrust
  else if String.eqb segment "apps" then Some NamespaceClass.UserApps
  else if String.eqb segment "runtime" then Some NamespaceClass.UserRuntime
  else if String.eqb segment "exports" then Some NamespaceClass.UserExports
  else None.

(** The match of [AiosPath::namespace_class] on the segments. *)
Definition classify (segments : list string) : option NamespaceClass.t :=
  match segments with
  | [a] =>
      if String.eqb a "system" then Some NamespaceClass.System
      else if String.eqb a "groups" then Some NamespaceClass.Groups else None
  | a :: x :: rest =>
      if String.eqb a "system" then
        match system_reserved_class x with
        | Some c => Some c
        | None => Some NamespaceClass.System
        end
      else if String.eqb a "groups" then
        match rest with
        | [] => Some NamespaceClass.Group
        | [r] => if String.eqb r "users" then Some NamespaceClass.GroupUsers else group_reserved_class r
        | [r; _] => if String.eqb r "users" then Some NamespaceClass.User else group_reserved_class r
        | r :: _ :: reserved :: _ =>
            if String.eqb r "users" then user_reserved_class reserved else group_reserved_class r
        end
      else None
  | [] => None
  end.

Definition namespace_class (path : string) : option NamespaceClass.t :=
  parse_segments (trim_end_matches "/" path) ≫= classify.

(** ** Admission of mutations *)
Definition class_is_virtual_view (c : NamespaceClass.t) : bool :=
  match c with
  | NamespaceClass.GroupInbox | NamespaceClass.UserInbox | NamespaceClass.UserOutbox => true
  | _ => false
  end.

Definition group_id_from_path (path : string) : option string :=
  rest ← strip_prefix "/aios/" (trim_end_matches "/" path);
  match split_on "/" rest with
  | a :: group_id :: _ => if String.eqb a "groups" then Some group_id else None
  | _ => None
  end.

Definition subject_may_access_group (subject target_group_id : string) : bool :=
  if starts_with "_system:" subject then true
  else match split_once ":" subject with
       | Some (subject_group_id, _) => String.eqb subject_group_id target_group_id
       | None => false
       end.

Definition reject_reserved_id (path id : string) : result FsError.t () :=
  if starts_with "_" id then Err (FsError.InvalidPath path) else Ok ().

Definition reject_reserved_ids (path : string) : result FsError.t () :=
  let? rest := ok_or (strip_prefix "/aios/" (trim_end_matches "/" path)) (FsError.InvalidPath path) in
  let segments := split_on "/" rest in
  let? _ := match segments with
            | a :: group_id :: _ =>
                if String.eqb a "groups" then reject_reserved_id path group_id else Ok ()
            | _ => Ok ()
            end in
  match segments with
  | _ :: _ :: users :: user_id :: _ =>
      if String.eqb users "users" then reject_reserved_id path user_id else Ok ()
  | _ => Ok ()
  end.

Definition denied (path reason : string) : result FsError.t () :=
  Err (FsError.NamespaceMutationDenied path reason).

(** [NamespacePolicy::can_mutate]. *)
Definition can_mutate (path subject : string) (recovery_mode is_ai : bool) : result FsError.t () :=
  let? class := ok_or (namespace_class path) (FsError.InvalidPath path) in
  let? _ := reject_reserved_ids path in
  if class_is_virtual_view class then denied path "virtual view paths are read-only"
  else
    let? _ := match group_id_from_path path with
              | Some target_group_id =>
                  if negb (subject_may_access_group subject target_group_id)
                  then denied path "cross-group access forbidden" else Ok ()
              | None => Ok ()
              end in
    if is_ai && NamespaceClass.is_read_only_for_ai class
    then denied path "AI subjects cannot mutate this namespace class"
    else if NamespaceClass.is_recovery_only_mutation class && negb recovery_mode
    then denied path "recovery mode required for this namespace class"
    else Ok ().

(** ** Segments *)
Definition plain (s : string) : Prop := free_of "/" s = true /\ s <> "" /\ s <> "." /\ s <> "..".

(** A path below [/aios] is its segments, of which none is empty or a dot. *)
Lemma parse_segments_Some path segments :
  parse_segments path = Some segments <->
  path = "/aios/" +:+ join_with "/" segments /\ segments <> [] /\ Forall plain segments.
Proof.
  unfold parse_segments. split.
  - destruct (strip_prefix "/aios/" path) as [rest|] eqn:E; [|done]. apply strip_prefix_Some in E as ->.
    cbn [mbind option_bind]. destruct (str_is_empty rest); [done|].
    destruct (existsb _ _) eqn:Ex; [done|]. intros [= <-]. destruct (split_on_pieces "/" rest) as [Hf Hn].
    split; [by rewrite join_split|]. split; [done|]. rewrite Forall_forall in Hf |- *. intros s Hs.
    split; [by apply Hf|]. destruct (bool_decide (s = "" \/ s = "." \/ s = "..")) eqn:Eb.
    + exfalso. apply bool_decide_eq_true in Eb.
      assert (existsb (fun s => str_is_empty s || String.eqb s "." || String.eqb s "..") (split_on "/" rest) = true)
        as Ht; [|congruence].
      apply existsb_elem. exists s. split; [done|]. by destruct Eb as [-> |[-> | ->]].
    + apply bool_decide_eq_false in Eb. tauto.
  - intros (-> & Hn & Hp).
    assert (strip_prefix "/aios/" ("/aios/" +:+ join_with "/" segments) = Some (join_with "/" segments)) as ->
      by (by apply strip_prefix_Some).
    cbn [mbind option_bind]. destruct (str_is_empty (join_with "/" segments)) eqn:E.
    + exfalso. apply str_is_empty_true in E. destruct segments as [|x xs]; [done|].
      inversion Hp as [|? ? (_ & Hx & _) _]; subst. destruct x as [|a x]; [done|]. by destruct xs.
    + rewrite split_join; [|done|by eapply Forall_impl; [exact Hp|intros s []]].
      destruct (existsb _ _) eqn:Ex; [exfalso|done]. apply existsb_elem in Ex as (s & Hs & Ht).
      rewrite Forall_forall in Hp. destruct (Hp s Hs) as (_ & H1 & H2 & H3).
      rewrite !orb_true_iff, str_is_empty_true, !String.eqb_eq in Ht. tauto.
Qed.

(** The identifiers that a path names. *)
Definition named_group (segments : list string) : option string :=
  match segments with
  | a :: g :: _ => if String.eqb a "groups" then Some g else None
  | _ => None
  end.
Definition named_user (segments : list string) : option string :=
  match segments with
  | _ :: _ :: users :: u :: _ => if String.eqb users "users" then Some u else None
  | _ => None
  end.
Definition reserved (id : string) : bool := starts_with "_" id.

Definition may_access (subject group : string) : Prop :=
  starts_with "_system:" subject = true \/
  free_of ":" group = true /\ exists rest, subject = group +:+ ":" +:+ rest.

Lemma subject_may_access_group_spec subject group :
  subject_may_access_group subject group = true <-> may_access subject group.
Proof.
  unfold subject_may_access_group, may_access. destruct (starts_with "_system:" subject); [by split; auto|].
  split.
  - intros Hs. right. destruct (split_once ":" subject) as [[l r]|] eqn:E; [|done].
    apply String.eqb_eq in Hs as ->. apply split_once_Some in E as [-> Hf]. split; [done|]. by exists r.
  - intros [?|[Hf [r ->]]]; [done|].
    change (group +:+ ":" +:+ r) with (group +:+ String ":" r). by rewrite split_once_app, String.eqb_refl.
Qed.

(** What the gate asks of the segments, the subject and the mode. *)
Record admissible (segments : list string) (class : NamespaceClass.t) (subject : string)
    (recovery_mode is_ai : bool) : Prop := {
  adm_class : classify segments = Some class;
  adm_group g : named_group segments = Some g -> reserved g = false /\ may_access subject g;
  adm_user u : named_user segments = Some u -> reserved u = false;
  adm_view : class_is_virtual_view class = false;
  adm_ai : is_ai = true -> NamespaceClass.is_read_only_for_ai class = false;
  adm_recovery : NamespaceClass.is_recovery_only_mutation class = true -> recovery_mode = true;
}.

Lemma reject_reserved_id_ok path id : reject_reserved_id path id = Ok () <-> reserved id = false.
Proof. unfold reject_reserved_id, reserved. by destruct (starts_with "_" id). Qed.

Lemma reject_reserved_ids_ok path segments :
  parse_segments (trim_end_matches "/" path) = Some segments ->
  reject_reserved_ids path = Ok () <->
  (forall g, named_group segments = Some g -> reserved g = false) /\
  (forall u, named_user segments = Some u -> reserved u = false).
Proof.
  intros (Hp & Hn & Hall)%parse_segments_Some. unfold reject_reserved_ids. rewrite Hp.
  assert (strip_prefix "/aios/" ("/aios/" +:+ join_with "/" segments) = Some (join_with "/" segments)) as ->
    by (by apply strip_prefix_Some).
  cbn [ok_or result_bind]. rewrite split_join; [|done|by eapply Forall_impl; [exact Hall|intros s []]].
  destruct segments as [|a [|g rest]]; [done|by split|]. unfold named_group.
  assert (forall id, (forall x, Some id = Some x -> reserved x = false) <-> reserved id = false) as Hone.
  { intros id. split; [auto|]. by intros Hi x [= <-]. }
  assert ((forall x : string, None = Some x -> reserved x = false) <-> True) as Hnone by (split; [done|by intros]).
  rewrite (result_bind_ok _ _ ()). unfold named_user.
  destruct (String.eqb a "groups"); destruct rest as [|us [|u more]]; try destruct (String.eqb us "users");
    rewrite ?Hone, ?Hnone; split;
    first [intros ([] & ?%reject_reserved_id_ok & ?%reject_reserved_id_ok); by split
          |intros ([] & ? & ?%reject_reserved_id_ok); by split
          |intros ([] & ?%reject_reserved_id_ok & ?); by split
          |intros ([] & ? & ?); by split
          |intros [? ?]; exists (); split; by try apply reject_reserved_id_ok].
Qed.

Lemma group_id_segments path segments :
  parse_segments (trim_end_matches "/" path) = Some segments -> group_id_from_path path = named_group segments.
Proof.
  intros (Hp & Hn & Hall)%parse_segments_Some. unfold group_id_from_path. rewrite Hp.
  assert (strip_prefix "/aios/" ("/aios/" +:+ join_with "/" segments) = Some (join_with "/" segments)) as ->
    by (by apply strip_prefix_Some).
  cbn [mbind option_bind]. rewrite split_join; [done|done|]. by eapply Forall_impl; [exact Hall|intros s []].
Qed.

(** The gate lets through what is admissible, and nothing else. *)
Lemma can_mutate_ok path subject recovery_mode is_ai :
  can_mutate path subject recovery_mode is_ai = Ok () <->
  exists segments class, parse_segments (trim_end_matches "/" path) = Some segments /\
    admissible segments class subject recovery_mode is_ai.
Proof.
  unfold can_mutate, namespace_class.
  destruct (parse_segments (trim_end_matches "/" path)) as [segments|] eqn:E;
    [|split; [done|by intros (? & ? & ? & _)]].
  cbn [mbind option_bind]. destruct (classify segments) as [class|] eqn:Ec;
    [|split; [done|intros (s & c & [= <-] & []); congruence]].
  cbn [ok_or result_bind]. rewrite (result_bind_ok _ _ ()). rewrite (group_id_segments _ _ E). split.
  - intros ([] & Hres & Hrest). apply (reject_reserved_ids_ok _ _ E) in Hres as [Hg Hu].
    exists segments, class. split; [done|]. destruct (class_is_virtual_view class) eqn:Ev; [done|].
    apply result_bind_ok in Hrest as ([] & Hgrp & Hrest).
    destruct (is_ai && _) eqn:Ea; [done|]. destruct (_ && negb recovery_mode) eqn:Er; [done|].
    split; [done| |done|done| |].
    + intros g Hng. split; [by apply Hg|]. rewrite Hng in Hgrp. apply subject_may_access_group_spec.
      by destruct (subject_may_access_group subject g).
    + intros ->. done.
    + intros Hr. rewrite Hr in Er. by destruct recovery_mode.
  - intros (s & c & [= <-] & [Hc Hgr Hu Hv Hai Hrec]). rewrite Ec in Hc. injection Hc as <-.
    exists (). split.
    { apply (reject_reserved_ids_ok _ _ E). split; [|done]. intros g Hg. by apply Hgr. }
    rewrite Hv. apply result_bind_ok. exists (). split.
    { destruct (named_group segments) as [g|] eqn:Hng; [|done]. destruct (Hgr g eq_refl) as [_ Hm].
      apply subject_may_access_group_spec in Hm. by rewrite Hm. }
    destruct is_ai; [rewrite Hai by done|]; simpl;
      (destruct (NamespaceClass.is_recovery_only_mutation class); [by rewrite Hrec|done]).
Qed.

(** ** Where mutations can reach *)
(** The names below [/aios/system] that only recovery mode changes. *)
Definition recovery_names : list string :=
  ["policy"; "capabilities"; "vault"; "recovery"; "boot"; "firstboot"; "governance"; "identity";
   "kernel"; "firmware"].

Ltac split_names := repeat (case_match; [simplify_eq; try done|]); simplify_eq; try done.

Lemma system_reserved_read_only x c :
  system_reserved_class x = Some c -> NamespaceClass.is_read_only_for_ai c = true.
Proof. unfold system_reserved_class. intros Hc. split_names. Qed.

Lemma system_read_only rest c :
  classify ("system" :: rest) = Some c -> NamespaceClass.is_read_only_for_ai c = true.
Proof.
  destruct rest as [|x rest]; simpl; [by intros [= <-]|].
  destruct (system_reserved_class x) as [c'|] eqn:E; intros [= <-]; [|done].
  by eapply system_reserved_read_only.
Qed.

Lemma system_recovery_only x rest c :
  x ∈ recovery_names -> classify ("system" :: x :: rest) = Some c ->
  NamespaceClass.is_recovery_only_mutation c = true.
Proof.
  intros Hx. unfold recovery_names in Hx. rewrite !elem_of_cons, elem_of_nil in Hx.
  destruct_or? Hx; subst; by intros [= <-].
Qed.

Lemma classify_root segments c :
  classify segments = Some c -> exists rest, segments = "system" :: rest \/ segments = "groups" :: rest.
Proof.
  destruct segments as [|a [|x rest]]; simpl; [done| |].
  - destruct (String.eqb_spec a "system") as [->|]; [by exists []; left|].
    destruct (String.eqb_spec a "groups") as [->|]; [by exists []; right|done].
  - destruct (String.eqb_spec a "system") as [->|]; [by exists (x :: rest); left|].
    destruct (String.eqb_spec a "groups") as [->|]; [by exists (x :: rest); right|done].
Qed.

(** Mutations of the name space are confined.  A path that the gate lets a
    subject mutate is made of plain segments below [/aios/system] or
    [/aios/groups], with no way out through dots or empty segments; below
    [system] the subject is no AI, and the constitutional names there need
    recovery mode; below a group the subject belongs to it or is a system
    subject, neither the group nor a user is reserved, and no AI mutates the
    group's [system] part. *)
Theorem mutations_are_confined path subject recovery_mode is_ai :
  can_mutate path subject recovery_mode is_ai = Ok () ->
  exists segments, trim_end_matches "/" path = "/aios/" +:+ join_with "/" segments /\
    Forall plain segments /\
    ((exists rest, segments = "system" :: rest /\ is_ai = false /\
        forall x more, rest = x :: more -> x ∈ recovery_names -> recovery_mode = true) \/
     (exists rest, segments = "groups" :: rest /\
        forall g more, rest = g :: more ->
          reserved g = false /\ may_access subject g /\
          (forall u tail, more = "users" :: u :: tail -> reserved u = false) /\
          (is_ai = true -> forall tail, more <> "system" :: tail))).
Proof.
  intros (segments & c & Hp & Hadm)%can_mutate_ok.
  apply parse_segments_Some in Hp as (Ht & _ & Hplain). exists segments. split; [done|]. split; [done|].
  destruct Hadm as [Hc Hg Hu _ Hai Hrec]. destruct (classify_root _ _ Hc) as [rest [-> | ->]].
  - left. exists rest. split; [done|]. split.
    + destruct is_ai; [|done]. specialize (Hai eq_refl). apply system_read_only in Hc. congruence.
    + intros x more -> Hx. apply Hrec. by eapply system_recovery_only.
  - right. exists rest. split; [done|]. intros g more ->.
    destruct (Hg g eq_refl) as [Hr Hm]. split_and!; [done|done| |].
    + intros u tail ->. by apply Hu.
    + intros -> tail ->. specialize (Hai eq_refl). destruct tail as [|y [|z tl]]; simpl in Hc;
        injection Hc as <-; done.
Qed.

(** Every agent's subject is a member of a group that is called [agent]. *)
Lemma agents_share_a_group agent recovery_mode :
  can_mutate "/aios/groups/agent/users/bob/trust" ("agent:" +:+ agent) recovery_mode true = Ok ().
Proof. done. Qed.

(** Users of a group are not kept apart: a member mutates the trust settings of
    any other user of the group. *)
Lemma users_are_not_isolated member recovery_mode is_ai :
  can_mutate "/aios/groups/family/users/bob/trust" ("family:" +:+ member) recovery_mode is_ai = Ok ().
Proof. by destruct is_ai. Qed.

(** A name of the catalog in capitals is an unreserved name, for which recovery
    mode is not asked. *)
Lemma capitals_escape_recovery subject :
  can_mutate "/aios/system/policy" subject false false
    = denied "/aios/system/policy" "recovery mode required for this namespace class" /\
  can_mutate "/aios/system/Policy" subject false false = Ok ().
Proof. done. Qed.

(** * File system: implementation-space bindings

    [InMemoryImplSpace] ([impl_space.rs]): where objects, chunks and versions
    are kept.  A map from source to its bindings; [values] lists the values of
    the map, in the order of the hash map's iteration. *)

Module ImplSpace.

Module Target.
Inductive t : Type :=
| LocalFile (path : string)
| EncryptedBlob (blob_id key_capability_id : string)
| RemoteBlob (url : string) (etag : option string)
| AiosFsManaged (handle : string).
End Target.

Module Source.
Inductive t : Type := Object (id : string) | Chunk (id : string) | Version (id : string).

#[global] Instance eq_dec : EqDecision t.
Proof. solve_decision. Defined.

Definition encode (x : t) : string + (string + string) :=
  match x with Object i => inl i | Chunk i => inr (inl i) | Version i => inr (inr i) end.
Definition decode (x : string + (string + string)) : t :=
  match x with inl i => Object i | inr (inl i) => Chunk i | inr (inr i) => Version i end.
#[global] Instance countable : Countable t.
Proof. by apply (inj_countable' encode decode); intros []. Defined.
End Source.

Module IntegrityState.
Inductive t : Type := Verified | Stale | IntegrityFailed | Unknown.
End IntegrityState.

Module Binding.
Record t : Type := {
  binding_id : string;
  source : Source.t;
  target : Target.t;
  created_at : DateTime;
  created_by : string;
  last_verified_at : option DateTime;
  integrity_state : IntegrityState.t;
}.
End Binding.

(** [InMemoryImplSpace]. *)
Abbreviation T := (gmap Source.t (list Binding.t)).

Definition new : T := ∅.

(** [entry(source).or_default().push(binding)]. *)
Definition push (m : T) (b : Binding.t) : T :=
  <[Binding.source b := default [] (m !! Binding.source b) ++ [b]]> m.

Section Ops.
Variable values : T -> list (list Binding.t).
Hypothesis values_perm : forall m, values m ≡ₚ (map_to_list m).*2.

Definition record_binding (m : T) (b : Binding.t) : result FsError.t T :=
  if existsb (fun stored => String.eqb (Binding.binding_id stored) (Binding.binding_id b)) (concat (values m))
  then Err (FsError.ImplSpaceBindingDuplicate (Binding.binding_id b))
  else Ok (push m b).

Definition verify (m : T) (binding_id : string) : result FsError.t IntegrityState.t :=
  ok_or (Binding.integrity_state <$>
           iter_find (fun b => String.eqb (Binding.binding_id b) binding_id) (concat (values m)))
    (FsError.ImplSpaceBindingNotFound binding_id).

Definition list_for (m : T) (source : Source.t) : list Binding.t := default [] (m !! source).
Definition resolve (m : T) (source : Source.t) : list Binding.t := list_for m source.

(** The fixtures, made at the instant [now] for the chunk [chunk]. *)
Definition canonical_bindings (chunk : string) (now : DateTime) : list Binding.t :=
  [ {| Binding.binding_id := "ispb_01HXY8K2JPQ7N3M4R5S6T7V8W9";
       Binding.source := Source.Object "obj_01HXY8K2JPQ7N3M4R5S6T7V8W9";
       Binding.target := Target.LocalFile "/aios/store/objects/obj_01HXY8K2JPQ7N3M4R5S6T7V8W9";
       Binding.created_at := now; Binding.created_by := "family:alice";
       Binding.last_verified_at := Some now; Binding.integrity_state := IntegrityState.Verified |};
    {| Binding.binding_id := "ispb_01HXY8K2JPQ7N3M4R5S6T7V8W8"; Binding.source := Source.Chunk chunk;
       Binding.target := Target.EncryptedBlob "blob/impl-space/chunk" "cap/key/impl-space";
       Binding.created_at := now; Binding.created_by := "family:alice";
       Binding.last_verified_at := None; Binding.integrity_state := IntegrityState.Unknown |};
    {| Binding.binding_id := "ispb_01HXY8K2JPQ7N3M4R5S6T7V8W7";
       Binding.source := Source.Version "ver_01HXY8K2JPQ7N3M4R5S6T7V8W9";
       Binding.target := Target.AiosFsManaged "managed/version/ver_01HXY8K2JPQ7N3M4R5S6T7V8W9";
       Binding.created_at := now; Binding.created_by := "family:alice";
       Binding.last_verified_at := None; Binding.integrity_state := IntegrityState.Stale |} ].

Definition with_fixtures (chunk : string) (now : DateTime) : T :=
  foldl push new (canonical_bindings chunk now).

(** ** Invariant: identifiers are unique, bindings are filed by their source *)
Definition all (m : T) : list Binding.t := concat (map_to_list m).*2.

Record well_formed (m : T) : Prop := {
  wf_unique : NoDup (Binding.binding_id <$> all m);
  wf_filed source bs b : m !! source = Some bs -> b ∈ bs -> Binding.source b = source;
}.

Lemma concat_perm {A} (l k : list (list A)) : l ≡ₚ k -> concat l ≡ₚ concat k.
Proof.
  induction 1 as [|x l k H IH|x y l|l1 l2 l3 H1 IH1 H2 IH2]; simpl; [done| | |by etrans].
  - by rewrite IH.
  - rewrite !(assoc_L (++)). by rewrite (Permutation_app_comm x y).
Qed.

Lemma values_all m : concat (values m) ≡ₚ all m.
Proof. apply concat_perm, values_perm. Qed.

Lemma push_all m b : all (push m b) ≡ₚ b :: all m.
Proof.
  unfold all, push. destruct (m !! Binding.source b) as [bs|] eqn:E; simpl.
  - rewrite <- insert_delete_eq, map_to_list_insert by apply lookup_delete_eq.
    rewrite <- (insert_id m (Binding.source b) bs E) at 2.
    rewrite <- insert_delete_eq, map_to_list_insert by apply lookup_delete_eq.
    simpl. by rewrite (Permutation_app_comm bs [b]).
  - by rewrite map_to_list_insert.
Qed.

Lemma known_iff m id :
  existsb (fun stored => String.eqb (Binding.binding_id stored) id) (concat (values m)) = true
  <-> id ∈ Binding.binding_id <$> all m.
Proof.
  rewrite existsb_elem, list_elem_of_fmap. setoid_rewrite values_all. split.
  - intros (b & Hb & He%String.eqb_eq). by exists b.
  - intros (b & -> & Hb). exists b. split; [done|apply String.eqb_refl].
Qed.

Lemma push_well_formed m b :
  well_formed m -> Binding.binding_id b ∉ Binding.binding_id <$> all m -> well_formed (push m b).
Proof.
  intros [Hu Hf] Hn. split.
  - rewrite push_all. simpl. by apply NoDup_cons.
  - unfold push. intros source bs x [[<- <-]|[_ Hl]]%lookup_insert_Some; [|by apply Hf].
    intros [Hx|Hx%list_elem_of_singleton]%elem_of_app; [|by subst].
    destruct (m !! Binding.source b) as [bs|] eqn:Eb; [by eapply Hf|]. by apply elem_of_nil in Hx.
Qed.

Lemma record_well_formed m b m' : well_formed m -> record_binding m b = Ok m' -> well_formed m'.
Proof.
  intros Hwf. unfold record_binding. destruct (existsb _ _) eqn:E; [done|]. intros [= <-].
  apply push_well_formed; [done|]. intros Hk%known_iff. congruence.
Qed.

(** [verify] answers for the one binding of the identifier, whatever the order. *)
Lemma verify_ok m b : well_formed m -> b ∈ all m -> verify m (Binding.binding_id b) = Ok (Binding.integrity_state b).
Proof.
  intros [Hu _] Hb. unfold verify. destruct (iter_find _ _) as [x|] eqn:E.
  - apply iter_find_Some in E as [Hx He%String.eqb_eq]. rewrite values_all in Hx. simpl.
    apply list_elem_of_lookup_1 in Hx as [i Hi]. apply list_elem_of_lookup_1 in Hb as [j Hj].
    assert (i = j) as ->; [|congruence].
    eapply NoDup_lookup; [exact Hu|rewrite list_lookup_fmap, Hi; done|]. by rewrite list_lookup_fmap, Hj; simpl; rewrite He.
  - exfalso. assert (b ∈ concat (values m)) as Hb' by (by rewrite values_all).
    pose proof (proj1 (iter_find_None _ _) E b Hb') as He. simpl in He. by rewrite String.eqb_refl in He.
Qed.

Lemma verify_none m id :
  id ∉ Binding.binding_id <$> all m -> verify m id = Err (FsError.ImplSpaceBindingNotFound id).
Proof.
  intros Hn. unfold verify. destruct (iter_find _ _) as [x|] eqn:E; [exfalso|done].
  apply iter_find_Some in E as [Hx He%String.eqb_eq]. rewrite values_all in Hx.
  apply Hn. rewrite <- He. by apply list_elem_of_fmap_2.
Qed.

(** Bindings are recorded once.  In a well-formed catalog a new identifier
    is accepted, its binding comes last among those of its source and can be
    verified, and everything else is as it was; a known identifier is refused
    and changes nothing; and the catalog stays well formed. *)
Theorem record_binding_exact m b :
  well_formed m ->
  match record_binding m b with
  | Ok m' => well_formed m' /\
      verify m (Binding.binding_id b) = Err (FsError.ImplSpaceBindingNotFound (Binding.binding_id b)) /\
      verify m' (Binding.binding_id b) = Ok (Binding.integrity_state b) /\
      resolve m' (Binding.source b) = resolve m (Binding.source b) ++ [b] /\
      (forall source, source <> Binding.source b -> resolve m' source = resolve m source) /\
      forall id, id <> Binding.binding_id b -> verify m' id = verify m id
  | Err e => e = FsError.ImplSpaceBindingDuplicate (Binding.binding_id b) /\
      is_ok (verify m (Binding.binding_id b)) = true
  end.
Proof.
  intros Hwf. destruct (record_binding m b) as [m'|e] eqn:Hr.
  - pose proof (record_well_formed _ _ _ Hwf Hr) as Hwf'.
    unfold record_binding in Hr. destruct (existsb _ _) eqn:E; [done|]. apply ok_inj in Hr as <-.
    assert (Binding.binding_id b ∉ Binding.binding_id <$> all m) as Hn by (intros Hk%known_iff; congruence).
    split_and!; [done|by apply verify_none| | | |].
    + apply verify_ok; [done|]. rewrite push_all. by left.
    + unfold resolve, list_for, push. by rewrite lookup_insert_eq.
    + intros source Hs. unfold resolve, list_for, push. by rewrite lookup_insert_ne.
    + intros id Hid. destruct (decide (id ∈ Binding.binding_id <$> all m)) as [Hin|Hout].
      * apply list_elem_of_fmap in Hin as (x & -> & Hx).
        rewrite !verify_ok; try done. rewrite push_all. by right.
      * rewrite !verify_none; [done|done|]. rewrite push_all. simpl. by intros [|]%elem_of_cons.
  - unfold record_binding in Hr. destruct (existsb _ _) eqn:E; [|done]. injection Hr as <-.
    split; [done|]. apply known_iff, list_elem_of_fmap in E as (x & He & Hx). rewrite He.
    by rewrite verify_ok.
Qed.

Lemma fixtures_well_formed chunk now : well_formed (with_fixtures chunk now).
Proof.
  assert (all new = []) as He by reflexivity.
  unfold with_fixtures, canonical_bindings. cbn [foldl].
  do 3 (apply push_well_formed; [|rewrite ?push_all, He; simpl; rewrite ?not_elem_of_cons;
    repeat split; [done..|apply not_elem_of_nil]]).
  split; [rewrite He; apply NoDup_nil_2|done].
Qed.
End Ops.
End ImplSpace.
