(* ===== verification/FsQuery.v ===== *)
(** * File system: queries

    The query language ([query.rs]) and its evaluation ([query_eval.rs]) on an
    object, and the view of a whole store that a query selects. *)
From stdpp Require Import sorting.
From S2P Require Import Prelude Collections Json Ids Records Redaction Receipt StateError FsTypes FsStore FsNamespace.

(** ** Vocabulary *)
Module QueryNamespace.
Inductive t : Type := Object | Version | Pointer | Chunk | Namespace.
#[global] Instance eq_dec : EqDecision t.
Proof. solve_decision. Defined.

Definition as_str (n : t) : string :=
  match n with
  | Object => "object" | Version => "version" | Pointer => "pointer" | Chunk => "chunk"
  | Namespace => "namespace"
  end.
Definition from_token (token : string) : option t :=
  if String.eqb token "object" then Some Object
  else if String.eqb token "version" then Some Version
  else if String.eqb token "pointer" then Some Pointer
  else if String.eqb token "chunk" then Some Chunk
  else if String.eqb token "namespace" then Some Namespace
  else None.
End QueryNamespace.

Module QueryField.
Inductive t : Type :=
| ObjectKind | ObjectPrivacyClass | ObjectLifecycleState | ObjectMetadataName | ObjectPolicyTags
| VersionState | VersionCreatedAt | VersionCreatedBy | PointerKind | NamespaceClass.
#[global] Instance eq_dec : EqDecision t.
Proof. solve_decision. Defined.

Definition resolve (namespace : QueryNamespace.t) (subpath : string) : option t :=
  match namespace with
  | QueryNamespace.Object =>
      if String.eqb subpath "kind" then Some ObjectKind
      else if String.eqb subpath "privacy_class" then Some ObjectPrivacyClass
      else if String.eqb subpath "lifecycle_state" then Some ObjectLifecycleState
      else if String.eqb subpath "metadata.name" then Some ObjectMetadataName
      else if String.eqb subpath "policy_tags" then Some ObjectPolicyTags
      else None
  | QueryNamespace.Version =>
      if String.eqb subpath "state" then Some VersionState
      else if String.eqb subpath "created_at" then Some VersionCreatedAt
      else if String.eqb subpath "created_by" then Some VersionCreatedBy
      else None
  | QueryNamespace.Pointer => if String.eqb subpath "kind" then Some PointerKind else None
  | QueryNamespace.Namespace => if String.eqb subpath "class" then Some NamespaceClass else None
  | QueryNamespace.Chunk => None
  end.

Definition namespace (f : t) : QueryNamespace.t :=
  match f with
  | ObjectKind | ObjectPrivacyClass | ObjectLifecycleState | ObjectMetadataName | ObjectPolicyTags =>
      QueryNamespace.Object
  | VersionState | VersionCreatedAt | VersionCreatedBy => QueryNamespace.Version
  | PointerKind => QueryNamespace.Pointer
  | NamespaceClass => QueryNamespace.Namespace
  end.

Definition as_dotted (f : t) : string :=
  match f with
  | ObjectKind => "object.kind" | ObjectPrivacyClass => "object.privacy_class"
  | ObjectLifecycleState => "object.lifecycle_state" | ObjectMetadataName => "object.metadata.name"
  | ObjectPolicyTags => "object.policy_tags" | VersionState => "version.state"
  | VersionCreatedAt => "version.created_at" | VersionCreatedBy => "version.created_by"
  | PointerKind => "pointer.kind" | NamespaceClass => "namespace.class"
  end.

(** The serde name of the field. *)
Definition wire (f : t) : string :=
  match f with
  | ObjectKind => "object_kind" | ObjectPrivacyClass => "object_privacy_class"
  | ObjectLifecycleState => "object_lifecycle_state" | ObjectMetadataName => "object_metadata_name"
  | ObjectPolicyTags => "object_policy_tags" | VersionState => "version_state"
  | VersionCreatedAt => "version_created_at" | VersionCreatedBy => "version_created_by"
  | PointerKind => "pointer_kind" | NamespaceClass => "namespace_class"
  end.
End QueryField.

Module QueryOperator.
Inductive t : Type := Eq | Neq | Lt | Lte | Gt | Gte | In | Contains | Matches.
#[global] Instance eq_dec : EqDecision t.
Proof. solve_decision. Defined.

Definition as_str (o : t) : string :=
  match o with
  | Eq => "=" | Neq => "!=" | Lt => "<" | Lte => "<=" | Gt => ">" | Gte => ">="
  | In => "in" | Contains => "contains" | Matches => "matches"
  end.
Definition wire (o : t) : string :=
  match o with
  | Eq => "eq" | Neq => "neq" | Lt => "lt" | Lte => "lte" | Gt => "gt" | Gte => "gte"
  | In => "in" | Contains => "contains" | Matches => "matches"
  end.
End QueryOperator.

Module QueryValue.
Inductive t : Type :=
| Str (s : string)
| Int (z : Z)
| Bool (b : bool)
| StringList (l : list string)
| TimeRange (start stop : string).

Definition type_name (v : t) : string :=
  match v with
  | Str _ => "string" | Int _ => "int" | Bool _ => "bool" | StringList _ => "string-list"
  | TimeRange _ _ => "time-range"
  end.

Definition to_json (v : t) : json :=
  match v with
  | Str s => JObject [("string", JString s)]
  | Int z => JObject [("int", JInt z)]
  | Bool b => JObject [("bool", JBool b)]
  | StringList l => JObject [("string_list", JArray (JString <$> l))]
  | TimeRange a b => JObject [("time_range", JObject [("start", JString a); ("end", JString b)])]
  end.
End QueryValue.

Module QueryPredicate.
Record t : Type := {
  namespace : QueryNamespace.t;
  field : QueryField.t;
  op : QueryOperator.t;
  rhs : QueryValue.t;
}.
Definition to_json (p : t) : json :=
  JObject [("namespace", JString (QueryNamespace.as_str (namespace p)));
           ("field", JString (QueryField.wire (field p)));
           ("op", JString (QueryOperator.wire (op p))); ("rhs", QueryValue.to_json (rhs p))].
End QueryPredicate.

Inductive Query : Type := QAnd (predicates : list QueryPredicate.t).
Definition query_to_json (q : Query) : json :=
  let 'QAnd ps := q in JObject [("and", JArray (QueryPredicate.to_json <$> ps))].

(** ** Evaluation on one object *)
Record QueryEvalContext : Type := {
  ctx_object : Object.t;
  ctx_version : Version.t;
  ctx_pointer : Pointer.t;
  ctx_namespace_class : option NamespaceClass.t;
}.

Inductive QueryEvalError : Type :=
| TypeMismatch (field op expected_value_type actual_value_type : string)
| UnsupportedOperator (field op : string)
| InvalidTimestamp (field value : string).

(** [Display] of the errors. *)
Definition show_eval_error (e : QueryEvalError) : string :=
  match e with
  | TypeMismatch field op ex ac =>
      "type mismatch evaluating " +:+ field +:+ ": operator `" +:+ op +:+ "` expects `" +:+ ex
      +:+ "`, got `" +:+ ac +:+ "`"
  | UnsupportedOperator field op => "unsupported operator for " +:+ field +:+ ": `" +:+ op +:+ "`"
  | InvalidTimestamp field value => "invalid timestamp for " +:+ field +:+ ": " +:+ value
  end.

Inductive FieldValue : Type :=
| FStr (s : string)
| FStrList (l : list string)
| FTime (t : DateTime)
| FAbsent.

Definition field_type_name (v : FieldValue) : string :=
  match v with FStr _ => "string" | FStrList _ => "string-list" | FTime _ => "timestamp" | FAbsent => "absent" end.

Definition object_kind_token (k : ObjectKind.t) : string :=
  match k with
  | ObjectKind.Project => "PROJECT" | ObjectKind.Application => "APPLICATION"
  | ObjectKind.File => "FILE" | ObjectKind.Memory => "MEMORY" | ObjectKind.Policy => "POLICY"
  | ObjectKind.Model => "MODEL" | ObjectKind.Package => "PACKAGE"
  | ObjectKind.EvidenceRef => "EVIDENCE_REF" | ObjectKind.Workspace => "WORKSPACE"
  | ObjectKind.Config => "CONFIG"
  end.
Definition privacy_class_token (c : PrivacyClass.t) : string :=
  match c with
  | PrivacyClass.Public => "PUBLIC" | PrivacyClass.Internal => "INTERNAL"
  | PrivacyClass.Sensitive => "SENSITIVE" | PrivacyClass.SecretBearing => "SECRET_BEARING"
  | PrivacyClass.Classified => "CLASSIFIED"
  end.
Definition lifecycle_state_token (s : LifecycleState.t) : string :=
  match s with
  | LifecycleState.Active => "ACTIVE" | LifecycleState.Retired => "RETIRED"
  | LifecycleState.Purged => "PURGED"
  end.
Definition version_state_token (s : VersionState.t) : string :=
  match s with
  | VersionState.Staged => "STAGED" | VersionState.Verified => "VERIFIED"
  | VersionState.Quarantined => "QUARANTINED" | VersionState.RetiredVersion => "RETIRED_VERSION"
  end.
Definition pointer_kind_token (k : PointerKind.t) : string :=
  match k with
  | PointerKind.Current => "CURRENT" | PointerKind.Stable => "STABLE"
  | PointerKind.Candidate => "CANDIDATE" | PointerKind.Rollback => "ROLLBACK"
  | PointerKind.Quarantine => "QUARANTINE"
  end.

Definition namespace_class_for_object (o : Object.t) : NamespaceClass.t :=
  match scope_kind (Object.scope_binding o) with
  | ScopeKind.System => NamespaceClass.System
  | ScopeKind.Group => NamespaceClass.Group
  | ScopeKind.User => NamespaceClass.User
  end.

Definition resolve_field_value (f : QueryField.t) (ctx : QueryEvalContext) : FieldValue :=
  let o := ctx_object ctx in
  let v := ctx_version ctx in
  match f with
  | QueryField.ObjectKind => FStr (object_kind_token (Object.kind o))
  | QueryField.ObjectPrivacyClass => FStr (privacy_class_token (Object.privacy_class o))
  | QueryField.ObjectLifecycleState => FStr (lifecycle_state_token (Object.lifecycle_state o))
  | QueryField.ObjectMetadataName => FStr (metadata_name (Object.metadata o))
  | QueryField.ObjectPolicyTags => FStrList (Object.policy_tags o)
  | QueryField.VersionState => FStr (version_state_token (Version.state v))
  | QueryField.VersionCreatedAt => FTime (Version.created_at v)
  | QueryField.VersionCreatedBy =>
      match Version.created_by_action_id v with
      | Some id => FStr id
      | None => match Version.created_by_transaction_id v with Some id => FStr id | None => FAbsent end
      end
  | QueryField.PointerKind => FStr (pointer_kind_token (Pointer.kind (ctx_pointer ctx)))
  | QueryField.NamespaceClass =>
      match ctx_namespace_class ctx with
      | Some c => FStr (NamespaceClass.token c)
      | None => FAbsent
      end
  end.

(** [str::ends_with]. *)
Fixpoint ends_with (suffix s : string) : bool :=
  String.eqb s suffix || match s with EmptyString => false | String _ s => ends_with suffix s end.

Definition glob_match (value pattern : string) : bool :=
  if String.eqb pattern "*" then true
  else match split_once "*" pattern with
       | None => String.eqb value pattern
       | Some (prefix, suffix) => starts_with prefix value && ends_with suffix value
       end.

Definition compare_strings (l r : string) (op : QueryOperator.t) : bool :=
  match op with
  | QueryOperator.Eq => String.eqb l r
  | QueryOperator.Neq => negb (String.eqb l r)
  | QueryOperator.Lt => str_lt l r
  | QueryOperator.Lte => str_le l r
  | QueryOperator.Gt => str_lt r l
  | QueryOperator.Gte => str_le r l
  | _ => false
  end.
Definition compare_times (l r : DateTime) (op : QueryOperator.t) : bool :=
  match op with
  | QueryOperator.Eq => (l =? r)%Z
  | QueryOperator.Neq => negb (l =? r)%Z
  | QueryOperator.Lt => (l <? r)%Z
  | QueryOperator.Lte => (l <=? r)%Z
  | QueryOperator.Gt => (r <? l)%Z
  | QueryOperator.Gte => (r <=? l)%Z
  | _ => false
  end.

Section Evaluate.
(** [DateTime::parse_from_rfc3339]. *)
Variable parse_from_rfc3339 : string -> option DateTime.

Definition parse_timestamp (f : QueryField.t) (value : string) : result QueryEvalError DateTime :=
  ok_or (parse_from_rfc3339 value) (InvalidTimestamp (QueryField.as_dotted f) value).

Definition time_in_range (value : DateTime) (start stop : string) (f : QueryField.t)
    : result QueryEvalError bool :=
  let? start := parse_timestamp f start in
  let? stop := parse_timestamp f stop in
  Ok ((start <=? value)%Z && (value <=? stop)%Z).

Definition unsupported_operator (p : QueryPredicate.t) : QueryEvalError :=
  UnsupportedOperator (QueryField.as_dotted (QueryPredicate.field p))
    (QueryOperator.as_str (QueryPredicate.op p)).

Definition type_mismatch (p : QueryPredicate.t) (actual : FieldValue) : QueryEvalError :=
  TypeMismatch (QueryField.as_dotted (QueryPredicate.field p))
    (QueryOperator.as_str (QueryPredicate.op p)) (field_type_name actual)
    (QueryValue.type_name (QueryPredicate.rhs p)).

Definition eval_compare (p : QueryPredicate.t) (ctx : QueryEvalContext) : result QueryEvalError bool :=
  let f := QueryPredicate.field p in
  let actual := resolve_field_value f ctx in
  match actual, QueryPredicate.rhs p with
  | FAbsent, _ => Ok false
  | FStr l, QueryValue.Str r => Ok (compare_strings l r (QueryPredicate.op p))
  | FTime l, QueryValue.Str r =>
      let? r := parse_timestamp f r in Ok (compare_times l r (QueryPredicate.op p))
  | FTime l, QueryValue.TimeRange start stop =>
      match QueryPredicate.op p with
      | QueryOperator.Eq => time_in_range l start stop f
      | _ => Err (unsupported_operator p)
      end
  | FStrList _, QueryValue.Str _ => Err (unsupported_operator p)
  | _, _ => Err (type_mismatch p actual)
  end.

Definition eval_in (p : QueryPredicate.t) (ctx : QueryEvalContext) : result QueryEvalError bool :=
  let f := QueryPredicate.field p in
  let actual := resolve_field_value f ctx in
  match actual, QueryPredicate.rhs p with
  | FAbsent, _ => Ok false
  | FStr l, QueryValue.StringList values => Ok (existsb (fun r => String.eqb r l) values)
  | FStrList l, QueryValue.StringList values =>
      Ok (existsb (fun r => existsb (fun item => String.eqb item r) l) values)
  | FTime l, QueryValue.TimeRange start stop => time_in_range l start stop f
  | _, _ => Err (type_mismatch p actual)
  end.

Definition eval_contains (p : QueryPredicate.t) (ctx : QueryEvalContext) : result QueryEvalError bool :=
  let actual := resolve_field_value (QueryPredicate.field p) ctx in
  match actual, QueryPredicate.rhs p with
  | FAbsent, _ => Ok false
  | FStr l, QueryValue.Str needle => Ok (str_contains needle l)
  | FStrList l, QueryValue.Str needle => Ok (existsb (fun item => String.eqb item needle) l)
  | _, _ => Err (type_mismatch p actual)
  end.

Definition eval_matches (p : QueryPredicate.t) (ctx : QueryEvalContext) : result QueryEvalError bool :=
  let actual := resolve_field_value (QueryPredicate.field p) ctx in
  match actual, QueryPredicate.rhs p with
  | FAbsent, _ => Ok false
  | FStr l, QueryValue.Str pattern => Ok (glob_match l pattern)
  | _, _ => Err (type_mismatch p actual)
  end.

Definition evaluate_predicate (p : QueryPredicate.t) (ctx : QueryEvalContext)
    : result QueryEvalError bool :=
  match QueryPredicate.op p with
  | QueryOperator.Eq | QueryOperator.Neq | QueryOperator.Lt | QueryOperator.Lte | QueryOperator.Gt
  | QueryOperator.Gte => eval_compare p ctx
  | QueryOperator.In => eval_in p ctx
  | QueryOperator.Contains => eval_contains p ctx
  | QueryOperator.Matches => eval_matches p ctx
  end.

Fixpoint evaluate_all (ps : list QueryPredicate.t) (ctx : QueryEvalContext)
    : result QueryEvalError bool :=
  match ps with
  | [] => Ok true
  | p :: ps => let? b := evaluate_predicate p ctx in if b then evaluate_all ps ctx else Ok false
  end.
Definition evaluate (q : Query) (ctx : QueryEvalContext) : result QueryEvalError bool :=
  let 'QAnd ps := q in evaluate_all ps ctx.

(** ** The view of a store *)
Record View : Type := {
  view_snapshot_id : string;
  view_matched : list string;
  view_query_hash : string;
}.

Section Materialize.
Context {F L : Type} `{Primitives} `{!FsTexts} `{!AiosFs F L} `{!FsEnumerator F L}.
Abbreviation M := (M (FsWorld.t F L) FsError.t).

Definition hash_query (q : Query) : result FsError.t string :=
  match jcs (query_to_json q) with
  | Ok canonical => Ok (blake3_to_hex canonical)
  | Err e => Err (FsError.QueryEval ("query canonicalization failed: " +:+ canonicalization_error_text e))
  end.

(** The loop over the objects: the snapshot of the view and the matches. *)
Fixpoint select (q : Query) (snapshot : option string) (ids : list string)
    (view_snapshot : option string) (matched : list string) : M (option string * list string) :=
  match ids with
  | [] => ret (view_snapshot, matched)
  | id :: ids =>
      let! read := fs_read_object id snapshot in
      let view_snapshot := match view_snapshot with
                           | None => Some (ObjectReadResult.snapshot_id read)
                           | Some s => Some s
                           end in
      let! pointer := fs_resolve_pointer (Object.current_pointer_id (ObjectReadResult.object read)) in
      let ctx := {| ctx_object := ObjectReadResult.object read;
                    ctx_version := ObjectReadResult.version read; ctx_pointer := pointer;
                    ctx_namespace_class := Some (namespace_class_for_object (ObjectReadResult.object read)) |} in
      let! hit := lift (map_err (fun e => FsError.QueryEval (show_eval_error e)) (evaluate q ctx)) in
      select q snapshot ids view_snapshot (if hit then matched ++ [id] else matched)
  end.

Definition materialize_view (q : Query) (snapshot : option string) : M View :=
  let! query_hash := lift (hash_query q) in
  let! ids := fs_object_ids in
  let! r := select q snapshot ids snapshot [] in
  let! w := get in
  ret {| view_snapshot_id := default (fs_head_snapshot_id (FsWorld.store w)) r.1;
         view_matched := sort_strings r.2; view_query_hash := query_hash |}.
End Materialize.

(** ** Globs *)
Lemma ends_with_spec suffix s : ends_with suffix s = true <-> exists r, s = r +:+ suffix.
Proof.
  induction s as [|a s IH]; cbn [ends_with].
  - rewrite orb_false_r, String.eqb_eq. split; [intros <-; by exists ""|].
    intros [r Hr]. by destruct r.
  - rewrite orb_true_iff, IH, String.eqb_eq. split.
    + intros [<-|[r ->]]; [by exists ""|by exists (String a r)].
    + intros [r Hr]. destruct r as [|b r]; [by left|right]. simpl in Hr. injection Hr as <- ->. by exists r.
Qed.

(** What a pattern matches: itself, or what starts with the part before its
    first star and ends with the part after it; the two may overlap, and
    further stars stand for themselves. *)
Lemma glob_match_spec value pattern :
  glob_match value pattern = true <->
  pattern = "*" \/
  (free_of "*" pattern = true /\ value = pattern) \/
  exists prefix suffix, pattern = prefix +:+ String "*" suffix /\ free_of "*" prefix = true /\
    (exists r, value = prefix +:+ r) /\ exists r, value = r +:+ suffix.
Proof.
  unfold glob_match. destruct (String.eqb_spec pattern "*") as [->|Hn]; [by split; auto|].
  destruct (split_once "*" pattern) as [[p s]|] eqn:E.
  - apply split_once_Some in E as [-> Hf]. rewrite andb_true_iff, starts_with_spec, ends_with_spec. split.
    + intros [? ?]. right; right. by exists p, s.
    + intros [?|[[Hfree _]|(p' & s' & He & Hf' & ? & ?)]]; [done| |].
      * unfold free_of in Hfree. rewrite str_all_app in Hfree. simpl in Hfree. by rewrite andb_false_r in Hfree.
      * apply (split_once_app "*" p s) in Hf as H1. apply (split_once_app "*" p' s') in Hf' as H2.
        rewrite He, H2 in H1. by injection H1 as -> ->.
  - rewrite String.eqb_eq. split.
    + intros ->. right; left. split; [|done]. clear Hn. induction pattern as [|a p IH]; [done|].
      simpl in E. unfold free_of in *. simpl. destruct (Ascii.eqb a "*"); [done|].
      destruct (split_once "*" p) as [[]|]; [done|]. by apply IH.
    + intros [?|[[_ ->]|(p & s & -> & Hf & _)]]; [done|done|]. by rewrite split_once_app in E.
Qed.

(** The overlap: one character cannot be both halves of [a*a]. *)
Lemma glob_overlap : glob_match "aba" "ab*ba" = true.
Proof. done. Qed.
(** A second star only matches itself. *)
Lemma glob_one_star : glob_match "a/b/c" "a*b*c" = false /\ glob_match "a/b*c" "a*b*c" = true.
Proof. done. Qed.
End Evaluate.
