(* ===== verification/FsQueryParser.v ===== *)
(** * File system: the query parser ([query_parser.rs])

    A recursive-descent parser like that of the conditions language
    ([CondParser]), with whose scanner it shares the ASCII classes, white
    space, positions and integers; the rest of the source is the parser's
    state.  Loops carry fuel; [query_fuel_total] shows that it suffices and
    [parse_query_string] is the parser as a total function. *)
From S2P Require Import Prelude Json Conditions CondParser CondSound FsTypes FsNamespace FsQuery.

(** [QueryParseError] has the variants and the fields of [ConditionParseError]. *)
Abbreviation QueryParseError := ConditionParseError.

(** [impl Display for QueryParseError]. *)
Definition show_query_error (e : QueryParseError) : string :=
  match e with
  | UnexpectedEof l c ex => at_position "unexpected end of input" l c +:+ ": expected " +:+ ex
  | UnexpectedToken l c ex f =>
      at_position "unexpected token" l c +:+ ": expected " +:+ ex +:+ ", found " +:+ f
  | UnknownNamespace l c n =>
      at_position "unknown namespace" l c +:+ ": " +:+ n
      +:+ " (closed set: object, version, pointer, chunk, namespace)"
  | UnknownField l c f => at_position "unknown field" l c +:+ ": " +:+ f
  | UnknownOperator l c o =>
      at_position "unknown operator" l c +:+ ": " +:+ o
      +:+ " (allowed: =, !=, <, <=, >, >=, in, contains, matches)"
  | DisallowedToken l c t => at_position "disallowed grammar token" l c +:+ ": " +:+ t
  | UnterminatedString l c => at_position "unterminated string literal" l c
  | InvalidInteger l c lit => at_position "invalid integer literal" l c +:+ ": " +:+ lit
  | EmptyValueList l c => at_position "empty value list" l c +:+ ": `in` requires values"
  end.

Module QueryParser.
Import Parser.

Definition short_snippet (rest : string) : string :=
  let line := first_line (trim_end rest) in
  if str_is_empty line then "<end of input>"
  else if (32 <? char_count line)%nat then take_chars 32 line +:+ "..." else line.

(** The characters up to the closing quote, where an escaped quote or backslash
    stands for itself and other escapes are kept as written, and what follows. *)
Fixpoint scan_literal (s : string) : option (string * string) :=
  match s with
  | EmptyString => None
  | String a s' =>
      if Ascii.eqb a dquote then Some (EmptyString, s')
      else if Ascii.eqb a backslash then
        match s' with
        | EmptyString => None
        | String b s'' =>
            match scan_literal s'' with
            | Some (t, r) =>
                Some (if Ascii.eqb b dquote || Ascii.eqb b backslash then String b t
                      else String a (String b t), r)
            | None => None
            end
        end
      else match scan_literal s' with
           | Some (t, r) => Some (String a t, r)
           | None => None
           end
  end.

Section WithSource.
Variable parse_from_rfc3339 : string -> option DateTime.
Variable source : string.

Definition unexpected {A} (rest expected : string) : result QueryParseError A :=
  let '(l, c) := position source rest in Err (UnexpectedToken l c expected (short_snippet rest)).

Definition unexpected_eof {A} (rest expected : string) : result QueryParseError A :=
  let '(l, c) := position source rest in Err (UnexpectedEof l c expected).

Definition expect_eof (rest : string) : result QueryParseError () :=
  let '(eof, rest) := at_eof rest in
  if eof then Ok () else unexpected rest "end of input".

Definition disallowed {A} (rest token : string) : result QueryParseError A :=
  let '(l, c) := position source rest in Err (DisallowedToken l c token).

Definition reject_parentheses (rest : string) : result QueryParseError string :=
  let rest := skip_whitespace rest in
  if next_is (Ascii.eqb "(") rest then disallowed rest "("
  else if next_is (Ascii.eqb ")") rest then disallowed rest ")"
  else Ok rest.

Definition reject_disallowed_tokens (rest : string) : result QueryParseError string :=
  let rest := skip_whitespace rest in
  if starts_with_word "or" rest then disallowed rest "or"
  else if starts_with_word "not" rest then disallowed rest "not"
  else reject_parentheses rest.

Definition parse_identifier (rest : string) : result QueryParseError (string * string) :=
  let rest := skip_whitespace rest in
  match rest with
  | String c after =>
      if is_ident_start c
      then let '(t, r) := take_while is_ident_continue after in Ok (String c t, r)
      else unexpected rest "identifier"
  | EmptyString => unexpected_eof rest "identifier"
  end.

(** The loop of [parse_field_path]: further segments of the sub-path. *)
Fixpoint parse_segments (fuel : nat) (subpath rest : string) : presult (string * string) :=
  match fuel with
  | 0 => None
  | S fuel =>
      let saved := rest in
      match skip_whitespace rest with
      | String dot after =>
          if Ascii.eqb dot "." && next_is is_ident_start after then
            let* '(segment, rest) := Some (parse_identifier after) in
            parse_segments fuel (subpath +:+ "." +:+ segment) rest
          else Some (Ok (subpath, saved))
      | EmptyString => Some (Ok (subpath, saved))
      end
  end.

Definition parse_field_path (start rest : string)
    : presult (QueryNamespace.t * QueryField.t * string) :=
  let* '(namespace_token, rest) := Some (parse_identifier rest) in
  match QueryNamespace.from_token namespace_token with
  | None => let '(l, c) := position source start in Some (Err (UnknownNamespace l c namespace_token))
  | Some namespace =>
      let '(found, rest) := try_consume_char "." rest in
      if negb found then Some (unexpected rest "`.` after namespace")
      else
        let* '(first, rest) := Some (parse_identifier rest) in
        let* '(subpath, rest) := parse_segments (S (String.length rest)) first rest in
        match QueryField.resolve namespace subpath with
        | Some f => Some (Ok (namespace, f, rest))
        | None =>
            let '(l, c) := position source start in
            Some (Err (UnknownField l c (QueryNamespace.as_str namespace +:+ "." +:+ subpath)))
        end
  end.

Definition parse_string_literal (rest : string) : result QueryParseError (string * string) :=
  let rest := skip_whitespace rest in
  let '(l, c) := position source rest in
  let '(found, rest) := try_consume_char dquote rest in
  if negb found then unexpected rest ("`" +:+ String dquote "`-quoted string literal")
  else match scan_literal rest with
       | Some (s, rest) => Ok (s, rest)
       | None => Err (UnterminatedString l c)
       end.

Definition invalid_integer {A} (start literal : string) : result QueryParseError A :=
  let '(l, c) := position source start in Err (InvalidInteger l c literal).

Definition parse_integer_literal (rest : string) : result QueryParseError (Z * string) :=
  let start := skip_whitespace rest in
  let '(sign, rest) := match strip_prefix "-" start with
                       | Some after => ("-", after)
                       | None => ("", start)
                       end in
  let '(digits, rest) := take_while is_ascii_digit rest in
  let lit := sign +:+ digits in
  let finish := match parse_i64 lit with
                | Some z => Ok (z, rest)
                | None => invalid_integer start lit
                end in
  if str_is_empty digits then invalid_integer start lit
  else
    match strip_prefix "." rest with
    | Some after =>
        if next_is is_ascii_digit after then
          invalid_integer start (lit +:+ "." +:+ (take_while is_ascii_digit after).1)
        else finish
    | None => finish
    end.

Definition parse_value (rest : string) : result QueryParseError (QueryValue.t * string) :=
  let rest := skip_whitespace rest in
  let? rest := reject_parentheses rest in
  if str_is_empty rest then unexpected_eof rest "value literal"
  else if next_is (Ascii.eqb dquote) rest then
    let? '(s, rest) := parse_string_literal rest in Ok (QueryValue.Str s, rest)
  else if next_is (fun a => Ascii.eqb a "-" || is_ascii_digit a) rest then
    let? '(z, rest) := parse_integer_literal rest in Ok (QueryValue.Int z, rest)
  else if next_is is_ident_start rest then
    let? '(ident, rest) := parse_identifier rest in
    Ok (if String.eqb ident "true" then QueryValue.Bool true
        else if String.eqb ident "false" then QueryValue.Bool false
        else QueryValue.Str ident, rest)
  else unexpected rest "value literal".

Definition parse_list_string_value (rest : string) : result QueryParseError (string * string) :=
  let rest := skip_whitespace rest in
  let? rest := reject_parentheses rest in
  if str_is_empty rest then unexpected_eof rest "string or identifier list value"
  else if next_is (Ascii.eqb dquote) rest then parse_string_literal rest
  else if next_is is_ident_start rest then parse_identifier rest
  else unexpected rest "string or identifier list value".

(** The loop of [parse_value_list]. *)
Fixpoint parse_list_values (fuel : nat) (values : list string) (rest : string)
    : presult (list string * string) :=
  match fuel with
  | 0 => None
  | S fuel =>
      let* '(v, rest) := Some (parse_list_string_value rest) in
      let values := values ++ [v] in
      let rest := skip_whitespace rest in
      let '(comma, rest) := try_consume_char "," rest in
      if comma then parse_list_values fuel values rest
      else
        let '(close, rest) := try_consume_char "]" rest in
        if close then Some (Ok (values, rest)) else Some (unexpected rest "`,` or `]`")
  end.

Definition is_rfc3339 (value : string) : bool := is_some (parse_from_rfc3339 value).

(** Two timestamps are a range. *)
Definition list_value (values : list string) : QueryValue.t :=
  match values with
  | [start; stop] =>
      if is_rfc3339 start && is_rfc3339 stop then QueryValue.TimeRange start stop
      else QueryValue.StringList values
  | _ => QueryValue.StringList values
  end.

Definition parse_value_list (rest : string) : presult (QueryValue.t * string) :=
  let '(open, rest) := try_consume_char "[" rest in
  if negb open then Some (unexpected rest "`[` to open value list")
  else
    let rest := skip_whitespace rest in
    let '(close, rest) := try_consume_char "]" rest in
    if close then let '(l, c) := position source rest in Some (Err (EmptyValueList l c))
    else
      let* '(values, rest) := parse_list_values (S (String.length rest)) [] rest in
      Some (Ok (list_value values, rest)).

Definition try_parse_compare_operator (rest : string) : option QueryOperator.t * string :=
  let '(b, rest) := try_consume_char_seq "!=" rest in if b then (Some QueryOperator.Neq, rest) else
  let '(b, rest) := try_consume_char_seq "<=" rest in if b then (Some QueryOperator.Lte, rest) else
  let '(b, rest) := try_consume_char_seq ">=" rest in if b then (Some QueryOperator.Gte, rest) else
  let '(b, rest) := try_consume_char "=" rest in if b then (Some QueryOperator.Eq, rest) else
  let '(b, rest) := try_consume_char "<" rest in if b then (Some QueryOperator.Lt, rest) else
  let '(b, rest) := try_consume_char ">" rest in if b then (Some QueryOperator.Gt, rest) else
  (None, rest).

(** The operator and the literal of a predicate. *)
Definition parse_operation (rest : string) : presult (QueryOperator.t * QueryValue.t * string) :=
  let rest := skip_whitespace rest in
  let '(op, rest) := try_parse_compare_operator rest in
  match op with
  | Some op =>
      let* '(rhs, rest) := Some (parse_value rest) in Some (Ok (op, rhs, rest))
  | None =>
      let '(b, rest) := try_consume "in" rest in
      if b then
        let* '(values, rest) := parse_value_list rest in Some (Ok (QueryOperator.In, values, rest))
      else
      let '(b, rest) := try_consume "contains" rest in
      if b then
        let* '(s, rest) := Some (parse_string_literal rest) in
        Some (Ok (QueryOperator.Contains, QueryValue.Str s, rest))
      else
      let '(b, rest) := try_consume "matches" rest in
      if b then
        let* '(s, rest) := Some (parse_string_literal rest) in
        Some (Ok (QueryOperator.Matches, QueryValue.Str s, rest))
      else
        let '(l, c) := position source rest in
        Some (Err (UnknownOperator l c (short_snippet rest)))
  end.

Definition parse_predicate (rest : string) : presult (QueryPredicate.t * string) :=
  let rest := skip_whitespace rest in
  let* rest := Some (reject_disallowed_tokens rest) in
  let start := rest in
  let* '(namespace, field, rest) := parse_field_path start rest in
  let* '(op, rhs, rest) := parse_operation rest in
  Some (Ok ({| QueryPredicate.namespace := namespace; QueryPredicate.field := field;
               QueryPredicate.op := op; QueryPredicate.rhs := rhs |}, rest)).

(** The loop of [parse_query]. *)
Fixpoint parse_conjuncts (fuel : nat) (ps : list QueryPredicate.t) (rest : string)
    : presult (list QueryPredicate.t * string) :=
  match fuel with
  | 0 => None
  | S fuel =>
      let '(eof, rest) := at_eof rest in
      if eof then Some (Ok (ps, rest))
      else
        let* rest := Some (reject_disallowed_tokens rest) in
        let '(b, rest) := try_consume "and" rest in
        if negb b then Some (unexpected rest "`and` or end of input")
        else
          let* '(next, rest) := parse_predicate rest in
          parse_conjuncts fuel (ps ++ [next]) rest
  end.

Definition parse_query (rest : string) : presult (Query * string) :=
  let* '(first, rest) := parse_predicate rest in
  let* '(ps, rest) := parse_conjuncts (S (String.length rest)) [first] rest in
  Some (Ok (QAnd ps, rest)).
End WithSource.

Definition query_fuel (parse_from_rfc3339 : string -> option DateTime) (source : string) : presult Query :=
  let* '(query, rest) := parse_query parse_from_rfc3339 source source in
  let* _ := Some (expect_eof source rest) in
  Some (Ok query).
End QueryParser.
