(* ===== verification/FsQuerySound.v ===== *)
(** * File system: theorems about the query parser

    It terminates and is sound ([QuerySound]), and reads back what the printer
    writes ([QueryRoundtrip]). *)
From S2P Require Import Prelude Json Conditions CondParser CondSound CondRoundtrip FsTypes FsNamespace FsQuery FsQueryParser.

(** * File system: the query parser terminates and is sound

    As in [CondSound], on whose lemmas about the scanner it builds: every
    function of the parser returns, consumes input, and accepts only
    well-formed queries. *)

Module QuerySound.
Import Parser QueryParser.

Section Sound.
Variable parse_from_rfc3339 : string -> option DateTime.

(** ** Well-formed queries *)
(** The literals that go with an operator. *)
Definition fits (op : QueryOperator.t) (v : QueryValue.t) : Prop :=
  match op, v with
  | QueryOperator.In, QueryValue.StringList l =>
      l <> [] /\ list_value parse_from_rfc3339 l = QueryValue.StringList l
  | QueryOperator.In, QueryValue.TimeRange a b =>
      list_value parse_from_rfc3339 [a; b] = QueryValue.TimeRange a b
  | QueryOperator.In, _ => False
  | (QueryOperator.Contains | QueryOperator.Matches), QueryValue.Str _ => True
  | (QueryOperator.Contains | QueryOperator.Matches), _ => False
  | _, QueryValue.Int z => (i64_min <= z <= i64_max)%Z
  | _, (QueryValue.Str _ | QueryValue.Bool _) => True
  | _, _ => False
  end.

Definition wf_query_predicate (p : QueryPredicate.t) : Prop :=
  QueryPredicate.namespace p = QueryField.namespace (QueryPredicate.field p) /\
  fits (QueryPredicate.op p) (QueryPredicate.rhs p).

Definition wf_query (q : Query) : Prop :=
  let 'QAnd ps := q in ps <> [] /\ Forall wf_query_predicate ps.

Variable source : string.

(** ** The parser's functions and those of the conditions language *)
Lemma q_identifier rest x :
  parse_identifier source rest = Ok x <-> Parser.parse_identifier source rest = Ok x.
Proof.
  unfold parse_identifier, Parser.parse_identifier, unexpected, unexpected_eof, Parser.unexpected.
  destruct (position source _). destruct (skip_whitespace rest); [done|]. by case_match.
Qed.

Lemma q_integer rest :
  match parse_integer_literal source rest with
  | Ok (z, r) => parse_number_literal source rest = Ok (VInt z, r)
  | Err e => parse_number_literal source rest = Err e
  end.
Proof.
  unfold parse_integer_literal, parse_number_literal, invalid_integer, Parser.invalid_integer.
  destruct (position source _) as [l c].
  destruct (match strip_prefix "-" _ with Some after => ("-", after) | None => _ end) as [sign s].
  destruct (take_while is_ascii_digit s) as [ds r]. destruct (str_is_empty ds); [done|].
  destruct (strip_prefix "." r) as [after|]; [|by destruct (parse_i64 _)].
  destruct (next_is is_ascii_digit after); [|by destruct (parse_i64 _)].
  by destruct (take_while is_ascii_digit after).
Qed.

Definition query_operator (o : CompareOp.t) : QueryOperator.t :=
  match o with
  | CompareOp.Eq => QueryOperator.Eq | CompareOp.Neq => QueryOperator.Neq
  | CompareOp.Lt => QueryOperator.Lt | CompareOp.Lte => QueryOperator.Lte
  | CompareOp.Gt => QueryOperator.Gt | CompareOp.Gte => QueryOperator.Gte
  end.

Lemma q_compare_operator rest :
  try_parse_compare_operator rest
  = (query_operator <$> (try_parse_compare_op rest).1, (try_parse_compare_op rest).2).
Proof.
  unfold try_parse_compare_operator, try_parse_compare_op, try_consume_char.
  repeat (destruct (try_consume_char_seq _ _) as [[] ?]; [done|]). done.
Qed.

(** ** Failures *)
Lemma q_unexpected_sat {A} rest ex (Q : A -> Prop) : psat (Some (unexpected source rest ex)) Q.
Proof. unfold unexpected. by destruct (position source rest). Qed.
Lemma q_eof_sat {A} rest ex (Q : A -> Prop) : psat (Some (unexpected_eof source rest ex)) Q.
Proof. unfold unexpected_eof. by destruct (position source rest). Qed.
Lemma q_disallowed_sat {A} rest tok (Q : A -> Prop) : psat (Some (disallowed source rest tok)) Q.
Proof. unfold disallowed. by destruct (position source rest). Qed.

Lemma psat_ok {A} (m : result QueryParseError A) (Q : A -> Prop) :
  (forall a, m = Ok a -> Q a) -> psat (Some m) Q.
Proof. destruct m as [a|e]; simpl; auto. Qed.

(** ** Tokens and literals *)
Lemma q_identifier_sat rest :
  psat (Some (parse_identifier source rest))
    (fun '(i, r) => ident_ok i = true /\ String.length r < String.length rest).
Proof.
  apply psat_ok. intros [i r] Hi%q_identifier. pose proof (ParserSound.parse_identifier_sat source rest) as Hs.
  by rewrite Hi in Hs.
Qed.

Lemma scan_literal_length s t r : scan_literal s = Some (t, r) -> String.length r < String.length s.
Proof.
  cut (forall n s t r, String.length s < n -> scan_literal s = Some (t, r) ->
         String.length r < String.length s); [eauto|].
  clear. induction n as [|n IH]; [lia|]. intros [|a s] t r Hn; simpl in *; [done|].
  destruct (Ascii.eqb a dquote); [intros [= <- <-]; lia|]. destruct (Ascii.eqb a backslash).
  - destruct s as [|b s]; [done|]. simpl in *.
    destruct (scan_literal s) as [[t' r']|] eqn:E; [|done]. intros [= <- <-]. apply IH in E; lia.
  - destruct (scan_literal s) as [[t' r']|] eqn:E; [|done]. intros [= <- <-]. apply IH in E; lia.
Qed.

Lemma q_string_sat rest :
  psat (Some (parse_string_literal source rest)) (fun '(_, r) => String.length r < String.length rest).
Proof.
  unfold parse_string_literal. destruct (position source _).
  destruct (try_consume_char dquote (skip_whitespace rest)) as [b r1] eqn:E1.
  apply ParserSound.char_length in E1. pose proof (skip_whitespace_length rest).
  destruct b; simpl negb; [|apply q_unexpected_sat].
  destruct (scan_literal r1) as [[s r]|] eqn:E; [|done]. apply scan_literal_length in E. simpl. lia.
Qed.

Lemma q_integer_sat rest :
  psat (Some (parse_integer_literal source rest))
    (fun '(z, r) => (i64_min <= z <= i64_max)%Z /\ String.length r < String.length rest).
Proof.
  pose proof (ParserSound.parse_number_sat source rest) as Hs. pose proof (q_integer rest) as Hi.
  destruct (parse_integer_literal source rest) as [[z r]|e]; rewrite Hi in Hs; exact Hs.
Qed.

Lemma q_parentheses_sat rest :
  psat (Some (reject_parentheses source rest)) (fun r => String.length r <= String.length rest).
Proof.
  unfold reject_parentheses. repeat case_match; try apply q_disallowed_sat. apply skip_whitespace_length.
Qed.
Lemma q_tokens_sat rest :
  psat (Some (reject_disallowed_tokens source rest)) (fun r => String.length r <= String.length rest).
Proof.
  unfold reject_disallowed_tokens. repeat case_match; try apply q_disallowed_sat.
  eapply psat_mono; [apply q_parentheses_sat|]. intros r Hr. pose proof (skip_whitespace_length rest). simpl in *. lia.
Qed.

(** ** Fields *)
Lemma q_segments_sat fuel sub rest :
  String.length rest < fuel ->
  psat (parse_segments source fuel sub rest) (fun '(p, r) => String.length r <= String.length rest).
Proof.
  revert sub rest. induction fuel as [|fuel IH]; [lia|]. intros sub rest Hf.
  cbn [parse_segments]. pose proof (skip_whitespace_length rest) as Hl.
  destruct (skip_whitespace rest) as [|a after]; [simpl; lia|].
  destruct (Ascii.eqb a "." && next_is is_ident_start after); [|simpl; lia].
  eapply psat_bind; [apply q_identifier_sat|]. intros [seg r] [Hseg Hr]. simpl in Hl.
  eapply psat_mono; [apply IH; lia|]. intros [p r'] Hr'. simpl in *. lia.
Qed.

Lemma resolve_namespace ns sub f : QueryField.resolve ns sub = Some f ->
  ns = QueryField.namespace f /\ QueryField.as_dotted f = QueryNamespace.as_str ns +:+ "." +:+ sub.
Proof.
  unfold QueryField.resolve. intros Hr. destruct ns; try done;
    repeat (match type of Hr with context [String.eqb sub ?k] =>
              destruct (String.eqb_spec sub k) as [->|]; [by injection Hr as <-|] end); done.
Qed.

Lemma q_field_sat start rest :
  psat (parse_field_path source start rest)
    (fun '(ns, f, r) => ns = QueryField.namespace f /\ String.length r < String.length rest).
Proof.
  unfold parse_field_path. eapply psat_bind; [apply q_identifier_sat|].
  intros [nsid r1] [_ H1]. destruct (QueryNamespace.from_token nsid) as [ns|];
    [|by destruct (position source start)].
  destruct (try_consume_char _ _) as [b r2] eqn:E2. apply ParserSound.char_length in E2.
  destruct b; simpl negb; [|apply q_unexpected_sat].
  eapply psat_bind; [apply q_identifier_sat|]. intros [first r3] [_ H3].
  eapply psat_bind; [apply q_segments_sat; lia|]. intros [sub r4] H4.
  destruct (QueryField.resolve ns sub) as [f|] eqn:E; [|by destruct (position source start)].
  apply resolve_namespace in E as [-> _]. split; [done|simpl in *; lia].
Qed.

(** ** Values *)
Lemma q_value_sat rest :
  psat (Some (parse_value source rest))
    (fun '(v, r) => fits QueryOperator.Eq v /\ String.length r < String.length rest).
Proof.
  unfold parse_value. pose proof (skip_whitespace_length rest) as Hl.
  eapply ParserSound.psat_map; [apply q_parentheses_sat|]. intros r0 H0. cbv beta in H0.
  destruct (str_is_empty r0); [apply q_eof_sat|].
  destruct (next_is (Ascii.eqb dquote) _).
  { eapply ParserSound.psat_map; [apply q_string_sat|]. intros [s r] Hr. simpl in *. split; [done|lia]. }
  destruct (next_is _ _).
  { eapply ParserSound.psat_map; [apply q_integer_sat|]. intros [z r] [Hz Hr]. split; [done|lia]. }
  destruct (next_is _ _); [|apply q_unexpected_sat].
  eapply ParserSound.psat_map; [apply q_identifier_sat|]. intros [i r] [Hi Hr]. split; [|lia].
  by repeat case_match.
Qed.

Lemma q_list_string_sat rest :
  psat (Some (parse_list_string_value source rest)) (fun '(_, r) => String.length r < String.length rest).
Proof.
  unfold parse_list_string_value. pose proof (skip_whitespace_length rest) as Hl.
  eapply ParserSound.psat_map; [apply q_parentheses_sat|]. intros r0 H0. cbv beta in H0.
  destruct (str_is_empty r0); [apply q_eof_sat|].
  destruct (next_is (Ascii.eqb dquote) _).
  { eapply psat_mono; [apply q_string_sat|]. intros [s r] Hr. simpl in *. lia. }
  destruct (next_is _ _); [|apply q_unexpected_sat].
  eapply psat_mono; [apply q_identifier_sat|]. intros [i r] [_ Hr]. lia.
Qed.

Lemma q_list_values_sat fuel vs rest :
  String.length rest < fuel ->
  psat (parse_list_values source fuel vs rest)
    (fun '(vs, r) => vs <> [] /\ String.length r < String.length rest).
Proof.
  revert vs rest. induction fuel as [|fuel IH]; [lia|]. intros vs rest Hf.
  cbn [parse_list_values]. eapply psat_bind; [apply q_list_string_sat|]. intros [v r] Hr. cbv beta iota in Hr.
  destruct (try_consume_char "," (skip_whitespace r)) as [b r1] eqn:E1. apply ParserSound.char_length in E1.
  pose proof (skip_whitespace_length r). destruct b.
  { eapply psat_mono; [apply IH; lia|]. intros [ws r2] [??]. split; [done|lia]. }
  destruct (try_consume_char "]" r1) as [b r2] eqn:E2. apply ParserSound.char_length in E2.
  destruct b; [|apply q_unexpected_sat]. split; [by destruct vs|lia].
Qed.

Lemma list_value_fits vs : vs <> [] -> fits QueryOperator.In (list_value parse_from_rfc3339 vs).
Proof.
  intros Hn. unfold list_value. destruct vs as [|a [|b [|c vs]]]; [done|done| |done].
  destruct (is_rfc3339 parse_from_rfc3339 a && is_rfc3339 parse_from_rfc3339 b) eqn:E; simpl; by rewrite E.
Qed.

Lemma q_value_list_sat rest :
  psat (parse_value_list parse_from_rfc3339 source rest)
    (fun '(v, r) => fits QueryOperator.In v /\ String.length r <= String.length rest).
Proof.
  unfold parse_value_list.
  destruct (try_consume_char "[" rest) as [b r1] eqn:E1. apply ParserSound.char_length in E1.
  destruct b; simpl negb; [|apply q_unexpected_sat].
  destruct (try_consume_char "]" (skip_whitespace r1)) as [b r2] eqn:E2. apply ParserSound.char_length in E2.
  pose proof (skip_whitespace_length r1). destruct b; [by destruct (position source r2)|].
  eapply psat_bind; [apply q_list_values_sat; lia|].
  intros [vs r] [Hvs Hr]. split; [by apply list_value_fits|lia].
Qed.

(** ** Predicates and queries *)
Lemma q_operator_fits o v : fits QueryOperator.Eq v -> fits (query_operator o) v.
Proof. by destruct o. Qed.

Lemma q_operation_sat rest :
  psat (parse_operation parse_from_rfc3339 source rest)
    (fun '(op, v, r) => fits op v /\ String.length r <= String.length rest).
Proof.
  unfold parse_operation. pose proof (skip_whitespace_length rest).
  rewrite q_compare_operator.
  destruct (try_parse_compare_op (skip_whitespace rest)) as [op r3] eqn:E3.
  apply ParserSound.compare_op_length in E3. destruct op as [op|];
    cbn [fst snd fmap option_fmap option_map].
  { eapply psat_bind; [apply q_value_sat|]. intros [v r] [Hv Hr]. split; [by apply q_operator_fits|lia]. }
  destruct (try_consume "in" r3) as [b r4] eqn:E4. apply ParserSound.consume_length in E4. destruct b.
  { eapply psat_bind; [apply q_value_list_sat|]. intros [vs r] [??]. split; [done|lia]. }
  destruct (try_consume "contains" r4) as [b r5] eqn:E5. apply ParserSound.consume_length in E5. destruct b.
  { eapply psat_bind; [apply q_string_sat|]. intros [s r] Hs. cbv beta iota in Hs. split; [done|lia]. }
  destruct (try_consume "matches" r5) as [b r6] eqn:E6. apply ParserSound.consume_length in E6. destruct b.
  { eapply psat_bind; [apply q_string_sat|]. intros [s r] Hs. cbv beta iota in Hs. split; [done|lia]. }
  by destruct (position source r6).
Qed.

Lemma q_predicate_sat rest :
  psat (parse_predicate parse_from_rfc3339 source rest)
    (fun '(p, r) => wf_query_predicate p /\ String.length r < String.length rest).
Proof.
  unfold parse_predicate. pose proof (skip_whitespace_length rest).
  eapply psat_bind; [apply q_tokens_sat|]. intros r1 H1. cbv beta in H1.
  eapply psat_bind; [apply q_field_sat|]. intros [[ns f] r2] [Hns H2].
  eapply psat_bind; [apply q_operation_sat|]. intros [[op v] r3] [Hv H3].
  split; [by split|lia].
Qed.

Lemma q_conjuncts_sat fuel ps rest :
  String.length rest < fuel -> ps <> [] -> Forall wf_query_predicate ps ->
  psat (parse_conjuncts parse_from_rfc3339 source fuel ps rest)
    (fun '(ps, r) => ps <> [] /\ Forall wf_query_predicate ps /\ r = EmptyString).
Proof.
  revert ps rest. induction fuel as [|fuel IH]; [lia|]. intros ps rest Hf Hne Hps.
  cbn [parse_conjuncts]. unfold at_eof. pose proof (skip_whitespace_length rest).
  destruct (str_is_empty (skip_whitespace rest)) eqn:E; [by apply str_is_empty_true in E as ->|].
  eapply psat_bind; [apply q_tokens_sat|]. intros r1 H1. cbv beta in H1.
  destruct (try_consume "and" r1) as [b r2] eqn:E2. apply ParserSound.consume_length in E2.
  destruct b; simpl negb; [|apply q_unexpected_sat].
  eapply psat_bind; [apply q_predicate_sat|]. intros [p r3] [Hp H3].
  apply IH; [simpl in E2; lia|by destruct ps|]. apply Forall_app. by split; [|constructor].
Qed.

Lemma q_query_sat rest :
  psat (parse_query parse_from_rfc3339 source rest) (fun '(q, r) => wf_query q /\ r = EmptyString).
Proof.
  unfold parse_query. eapply psat_bind; [apply q_predicate_sat|]. intros [p r] [Hp _].
  eapply psat_bind; [apply q_conjuncts_sat; [lia|done|by constructor]|].
  intros [ps r'] (?&?&->). done.
Qed.
End Sound.

Lemma query_fuel_sat rfc source : psat (query_fuel rfc source) (wf_query rfc).
Proof.
  unfold query_fuel. eapply psat_bind; [apply q_query_sat|]. by intros [q r] [Hq ->].
Qed.

Lemma query_fuel_total rfc source : is_Some (query_fuel rfc source).
Proof. pose proof (query_fuel_sat rfc source). destruct (query_fuel rfc source); [eauto|done]. Qed.
End QuerySound.

(** [query_parser::parse]. *)
Definition parse_query_string (parse_from_rfc3339 : string -> option DateTime) (source : string)
    : result QueryParseError Query :=
  is_Some_proj (QuerySound.query_fuel_total parse_from_rfc3339 source).

Lemma query_fuel_parse rfc source :
  QueryParser.query_fuel rfc source = Some (parse_query_string rfc source).
Proof.
  unfold parse_query_string. destruct (QuerySound.query_fuel_total rfc source) as [r Hr] eqn:E. clear E.
  simpl. by destruct (QueryParser.query_fuel rfc source).
Qed.

(** * File system: printing queries and parsing them back

    A printer for queries, after which the parser is the identity on every
    query that it can produce at all. *)

Module QueryRoundtrip.
Import Parser QueryParser QuerySound.

(** ** The printer *)
Fixpoint escape (s : string) : string :=
  match s with
  | EmptyString => EmptyString
  | String a s =>
      if Ascii.eqb a dquote || Ascii.eqb a backslash then String backslash (String a (escape s))
      else String a (escape s)
  end.

Definition print_literal (s : string) : string := String dquote (escape s +:+ String dquote "").

Definition print_strings (l : list string) : string :=
  match l with [] => "" | s :: l => print_literal s +:+ print_sep ", " print_literal l end.

Definition print_query_value (v : QueryValue.t) : string :=
  match v with
  | QueryValue.Str s => print_literal s
  | QueryValue.Int z => print_int z
  | QueryValue.Bool true => "true"
  | QueryValue.Bool false => "false"
  | QueryValue.StringList l => "[" +:+ print_strings l +:+ "]"
  | QueryValue.TimeRange a b => "[" +:+ print_strings [a; b] +:+ "]"
  end.

Definition print_query_predicate (p : QueryPredicate.t) : string :=
  QueryField.as_dotted (QueryPredicate.field p) +:+ " " +:+ QueryOperator.as_str (QueryPredicate.op p)
  +:+ " " +:+ print_query_value (QueryPredicate.rhs p).

Definition print_query (q : Query) : string :=
  let 'QAnd ps := q in
  match ps with
  | [] => ""
  | p :: ps => print_query_predicate p +:+ print_sep " and " print_query_predicate ps
  end.

Section Print.
Variable parse_from_rfc3339 : string -> option DateTime.
Variable source : string.

(** ** Literals *)
Lemma scan_escape s r : scan_literal (escape s +:+ String dquote r) = Some (s, r).
Proof.
  induction s as [|a s IH]; [done|]. cbn [escape].
  destruct (Ascii.eqb a dquote || Ascii.eqb a backslash) eqn:E; rewrite ?str_app_cons; cbn [scan_literal].
  - change (Ascii.eqb backslash dquote) with false. change (Ascii.eqb backslash backslash) with true.
    cbv iota. by rewrite IH, E.
  - apply orb_false_iff in E as [-> ->]. by rewrite IH.
Qed.

Lemma q_string_print s r : parse_string_literal source (print_literal s +:+ r) = Ok (s, r).
Proof.
  unfold parse_string_literal, print_literal. rewrite str_app_cons, skip_solid by done.
  destruct (position source _). rewrite consume_char_here by done. cbn [negb].
  by rewrite str_app_assoc, str_app_cons, scan_escape.
Qed.

Lemma q_ident_print i r :
  ident_ok i = true -> next_is is_ident_continue r = false ->
  parse_identifier source (i +:+ r) = Ok (i, r).
Proof. intros. apply q_identifier. by apply parse_identifier_print. Qed.

Lemma q_parentheses_print a s :
  solid a = true -> Ascii.eqb "(" a = false -> Ascii.eqb ")" a = false ->
  reject_parentheses source (String a s) = Ok (String a s).
Proof. intros Ha H1 H2. unfold reject_parentheses. rewrite skip_solid by done. cbn [next_is]. by rewrite H1, H2. Qed.

(** What [parse_value] reads back when an operator of comparison precedes. *)
Lemma q_value_print v r :
  fits parse_from_rfc3339 QueryOperator.Eq v -> value_tail r ->
  parse_value source (print_query_value v +:+ r) = Ok (v, r).
Proof.
  intros Hv Hr. destruct (value_tail_facts r Hr) as (Hrc & _).
  destruct v as [s|z|b|l|a b]; try done; unfold parse_value.
  - cbn [print_query_value]. pose proof (q_string_print s r) as Hp. unfold print_literal in *.
    rewrite str_app_cons in *. rewrite skip_solid, q_parentheses_print by done.
    cbn [result_bind str_is_empty next_is]. rewrite Ascii.eqb_refl. by rewrite Hp.
  - cbn [print_query_value]. destruct (parse_number_print source z r Hv Hr) as [Hp (a & s & E & Hsol & Hq & Hd)].
    rewrite E, str_app_cons in *. rewrite skip_solid by done.
    rewrite q_parentheses_print; [|done|revert Hd; destruct a as [[] [] [] [] [] [] [] []]; vm_compute; auto..].
    cbn [result_bind str_is_empty next_is]. rewrite Hq, Hd.
    pose proof (q_integer source (String a (s +:+ r))) as Hi. rewrite Hp in Hi.
    destruct (parse_integer_literal source _) as [[z' r']|]; [|done]. by injection Hi as <- <-.
  - assert (forall i, ident_ok i = true -> String.eqb i "true" || String.eqb i "false" = true ->
      parse_value source (i +:+ r) = Ok (QueryValue.Bool (String.eqb i "true"), r)) as Hb.
    { intros i Hi Ht. pose proof (q_ident_print i r Hi Hrc) as Hp. unfold parse_value.
      apply orb_true_iff in Ht as [->%String.eqb_eq| ->%String.eqb_eq];
        rewrite str_app_cons, skip_solid, q_parentheses_print, <- str_app_cons by done;
        cbn [result_bind]; rewrite Hp; reflexivity. }
    destruct b; [apply (Hb "true")|apply (Hb "false")]; done.
Qed.

(** ** Lists *)
Lemma q_list_string_print s r : parse_list_string_value source (print_literal s +:+ r) = Ok (s, r).
Proof.
  pose proof (q_string_print s r) as Hp. unfold parse_list_string_value, print_literal in *.
  rewrite str_app_cons in *. rewrite skip_solid, q_parentheses_print by done.
  cbn [result_bind str_is_empty next_is]. by rewrite Ascii.eqb_refl.
Qed.

Lemma q_list_values_print l : forall fuel acc s r, length l < fuel ->
  parse_list_values source fuel acc (print_literal s +:+ print_sep ", " print_literal l +:+ "]" +:+ r) =
    Some (Ok (acc ++ s :: l, r)).
Proof.
  induction l as [|s' l IH]; intros [|fuel] acc s r Hf; simpl in Hf; try lia;
    cbn [parse_list_values print_sep]; rewrite ?str_app_assoc, q_list_string_print; cbn [pbind].
  - change ("" +:+ ?x) with x. change ("]" +:+ r) with (String "]" r).
    rewrite skip_solid by done. rewrite consume_char_not by done. by rewrite consume_char_here.
  - change (", " +:+ ?x) with (String "," (String " " x)).
    rewrite skip_solid, consume_char_here by done.
    assert (forall n l s, parse_list_values source n l (String " " s) = parse_list_values source n l s) as ->
      by (by intros []).
    rewrite IH by lia. by rewrite <- app_assoc.
Qed.

Lemma q_value_list_print l r : l <> [] ->
  parse_value_list parse_from_rfc3339 source (" [" +:+ print_strings l +:+ "]" +:+ r)
  = Some (Ok (list_value parse_from_rfc3339 l, r)).
Proof.
  intros Hn. destruct l as [|s l]; [done|]. unfold parse_value_list. cbn [print_strings].
  change (" [" +:+ ?x) with (String " " (String "[" x)).
  assert (forall c x, try_consume_char c (String " " x) = try_consume_char c x) as -> by done.
  rewrite consume_char_here by done. cbn [negb]. rewrite str_app_assoc.
  assert (forall t, skip_whitespace (print_literal s +:+ t) = print_literal s +:+ t) as Hskip
    by (intros t; unfold print_literal; rewrite str_app_cons; by apply skip_solid).
  assert (forall t, try_consume_char "]" (print_literal s +:+ t) = (false, print_literal s +:+ t)) as Hclose
    by (intros t; unfold print_literal; rewrite str_app_cons; by apply consume_char_not).
  rewrite Hskip, Hclose, q_list_values_print; [done|].
  rewrite !str_length_app. pose proof (print_sep_length ", " print_literal l). simpl in *. lia.
Qed.

(** ** Fields *)
Definition field_segments (f : QueryField.t) : string * list string :=
  match f with
  | QueryField.ObjectKind | QueryField.PointerKind => ("kind", [])
  | QueryField.ObjectPrivacyClass => ("privacy_class", [])
  | QueryField.ObjectLifecycleState => ("lifecycle_state", [])
  | QueryField.ObjectMetadataName => ("metadata", ["name"])
  | QueryField.ObjectPolicyTags => ("policy_tags", [])
  | QueryField.VersionState => ("state", [])
  | QueryField.VersionCreatedAt => ("created_at", [])
  | QueryField.VersionCreatedBy => ("created_by", [])
  | QueryField.NamespaceClass => ("class", [])
  end.

Lemma field_segments_spec f :
  let ns := QueryField.namespace f in
  let '(seg, segs) := field_segments f in
  ident_ok seg = true /\ Forall (fun s => ident_ok s = true) segs /\
  QueryField.as_dotted f = QueryNamespace.as_str ns +:+ "." +:+ seg +:+ print_sep "." (fun s => s) segs /\
  QueryField.resolve ns (join_path seg segs) = Some f.
Proof. destruct f; repeat constructor. Qed.

Lemma q_segments_print fuel acc segs r :
  Forall (fun s => ident_ok s = true) segs -> length segs < fuel -> field_tail r ->
  parse_segments source fuel acc (print_sep "." (fun s => s) segs +:+ r) =
    Some (Ok (join_path acc segs, r)).
Proof.
  intros Hall. revert fuel acc. induction Hall as [|s segs Hs Hall IH];
    intros [|fuel] acc Hf Hr; simpl in Hf; try lia; cbn [parse_segments print_sep].
  - change ("" +:+ r) with r. destruct Hr as [_ Hr]. destruct (skip_whitespace r); [done|].
    simpl in Hr. by rewrite Hr.
  - rewrite !str_app_assoc. change ("." +:+ ?x) with (String "." x).
    rewrite skip_solid by done.
    assert (next_is is_ident_start (s +:+ print_sep "." (fun s => s) segs +:+ r) = true) as ->.
    { destruct s; [done|]. simpl in Hs. rewrite str_app_cons. simpl.
      by apply andb_true_iff in Hs as [-> _]. }
    rewrite q_ident_print; [|done|destruct segs; [apply Hr|done]].
    simpl. by rewrite IH by (done || lia).
Qed.

Lemma q_field_print start f r :
  field_tail r ->
  parse_field_path source start (QueryField.as_dotted f +:+ r) = Some (Ok (QueryField.namespace f, f, r)).
Proof.
  intros Hr. pose proof (field_segments_spec f) as Hf. cbv zeta in Hf.
  destruct (field_segments f) as [seg segs]. destruct Hf as (Hseg & Hsegs & -> & Hres).
  set (ns := QueryField.namespace f) in *. unfold parse_field_path.
  assert (ident_ok (QueryNamespace.as_str ns) = true) as Hns by (by destruct ns).
  rewrite !str_app_assoc, q_ident_print by done. cbn [pbind].
  assert (QueryNamespace.from_token (QueryNamespace.as_str ns) = Some ns) as -> by (by destruct ns).
  change ("." +:+ ?s) with (String "." s). rewrite consume_char_here by done. cbn [negb].
  rewrite q_ident_print; [|done|destruct segs; [apply Hr|done]]. cbn [pbind].
  rewrite q_segments_print; [|done| |done].
  - cbn [pbind]. by rewrite Hres.
  - rewrite str_length_app. pose proof (print_sep_length "." (fun s => s) segs). simpl in *. lia.
Qed.

(** ** Predicates *)
Lemma q_compare_print o v r :
  fits parse_from_rfc3339 QueryOperator.Eq v -> value_tail r ->
  parse_operation parse_from_rfc3339 source (CompareOp.as_str o +:+ " " +:+ print_query_value v +:+ r)
  = Some (Ok (query_operator o, v, r)).
Proof.
  intros Hv Hr. unfold parse_operation.
  assert (forall x, skip_whitespace (CompareOp.as_str o +:+ x) = CompareOp.as_str o +:+ x) as ->
    by (intros x; destruct o; cbn [CompareOp.as_str]; rewrite str_app_cons; by apply skip_solid).
  rewrite q_compare_operator, compare_op_print. cbn [fst snd fmap option_fmap option_map].
  assert (forall x, parse_value source (" " +:+ x) = parse_value source x) as -> by done.
  by rewrite q_value_print.
Qed.

(** A text that starts with a letter is no comparison. *)
Lemma q_word a s : is_ident_start a = true ->
  try_parse_compare_operator (skip_whitespace (String a s)) = (None, String a s).
Proof.
  intros Ha. rewrite skip_solid by (by apply ident_start_facts).
  by rewrite q_compare_operator, compare_op_word.
Qed.

Lemma q_in_print v r :
  fits parse_from_rfc3339 QueryOperator.In v ->
  parse_operation parse_from_rfc3339 source ("in" +:+ " " +:+ print_query_value v +:+ r)
  = Some (Ok (QueryOperator.In, v, r)).
Proof.
  intros Hv. unfold parse_operation.
  assert (exists l, print_query_value v = "[" +:+ print_strings l +:+ "]" /\ l <> [] /\
    list_value parse_from_rfc3339 l = v) as (l & -> & Hn & Hl).
  { destruct v as [s|z|b|l|a b]; try done; [destruct Hv; by exists l|by exists [a; b]]. }
  rewrite !str_app_assoc. change (" " +:+ "[" +:+ ?x) with (" [" +:+ x).
  change ("in" +:+ ?x) with (String "i" ("n" +:+ x)). rewrite q_word by done.
  change (String "i" ("n" +:+ ?x)) with ("in" +:+ x).
  rewrite (try_consume_keyword "in" "i" "n") by done. rewrite q_value_list_print by done.
  cbn [pbind]. by rewrite Hl.
Qed.

Lemma q_text_print op s r :
  op = QueryOperator.Contains \/ op = QueryOperator.Matches ->
  parse_operation parse_from_rfc3339 source (QueryOperator.as_str op +:+ " " +:+ print_literal s +:+ r)
  = Some (Ok (op, QueryValue.Str s, r)).
Proof.
  assert (forall x, parse_string_literal source (" " +:+ x) = parse_string_literal source x) as Hss by done.
  intros [-> | ->]; unfold parse_operation; cbn [QueryOperator.as_str].
  - change ("contains" +:+ ?x) with (String "c" ("ontains" +:+ x)). rewrite q_word by done.
    rewrite try_consume_not by done. change (String "c" ("ontains" +:+ ?x)) with ("contains" +:+ x).
    rewrite (try_consume_keyword "contains" "c" "ontains") by done. by rewrite Hss, q_string_print.
  - change ("matches" +:+ ?x) with (String "m" ("atches" +:+ x)). rewrite q_word by done.
    rewrite !try_consume_not by done. change (String "m" ("atches" +:+ ?x)) with ("matches" +:+ x).
    rewrite (try_consume_keyword "matches" "m" "atches") by done. by rewrite Hss, q_string_print.
Qed.

Lemma q_operation_print op v r :
  fits parse_from_rfc3339 op v -> value_tail r ->
  parse_operation parse_from_rfc3339 source (QueryOperator.as_str op +:+ " " +:+ print_query_value v +:+ r)
  = Some (Ok (op, v, r)).
Proof.
  intros Hv Hr. destruct op.
  - by apply (q_compare_print CompareOp.Eq).
  - by apply (q_compare_print CompareOp.Neq).
  - by apply (q_compare_print CompareOp.Lt).
  - by apply (q_compare_print CompareOp.Lte).
  - by apply (q_compare_print CompareOp.Gt).
  - by apply (q_compare_print CompareOp.Gte).
  - by apply q_in_print.
  - destruct v; try done. apply q_text_print. by left.
  - destruct v; try done. apply q_text_print. by right.
Qed.

Lemma field_head f x :
  skip_whitespace (QueryField.as_dotted f +:+ x) = QueryField.as_dotted f +:+ x /\ reject_disallowed_tokens source (QueryField.as_dotted f +:+ x) = Ok (QueryField.as_dotted f +:+ x).
Proof.
  assert (skip_whitespace (QueryField.as_dotted f +:+ x) = QueryField.as_dotted f +:+ x) as Hs
    by (destruct f; cbn [QueryField.as_dotted]; rewrite str_app_cons; by apply skip_solid).
  split; [done|]. unfold reject_disallowed_tokens, reject_parentheses. rewrite Hs. rewrite Hs.
  by destruct f.
Qed.

Lemma q_predicate_print p r :
  wf_query_predicate parse_from_rfc3339 p -> predicate_tail r ->
  parse_predicate parse_from_rfc3339 source (print_query_predicate p +:+ r) = Some (Ok (p, r)).
Proof.
  intros [Hns Hv] Hr. destruct p as [ns f op v]. simpl in *. subst ns.
  unfold print_query_predicate. cbn [QueryPredicate.field QueryPredicate.op QueryPredicate.rhs].
  rewrite !str_app_assoc. unfold parse_predicate.
  rewrite (proj1 (field_head _ _)), (proj2 (field_head _ _)). cbn [pbind].
  assert (exists a t, QueryOperator.as_str op +:+ " " +:+ print_query_value v +:+ r = String a t /\
    solid a = true /\ Ascii.eqb a "." = false) as (a & t & E & Ha & Hd).
  { destruct op; cbn [QueryOperator.as_str]; rewrite str_app_cons; eauto. }
  change (" " +:+ QueryOperator.as_str op +:+ ?x) with (String " " (QueryOperator.as_str op +:+ x)).
  rewrite q_field_print by (rewrite E; by apply field_tail_space). cbn [pbind].
  assert (forall x, parse_operation parse_from_rfc3339 source (String " " x)
    = parse_operation parse_from_rfc3339 source x) as -> by done.
  rewrite q_operation_print; [done|done|by apply predicate_tail_value].
Qed.

(** ** Queries *)
Lemma q_reject_and y : reject_disallowed_tokens source ("and" +:+ y) = Ok ("and" +:+ y).
Proof.
  unfold reject_disallowed_tokens, reject_parentheses. change ("and" +:+ y) with (String "a" ("nd" +:+ y)).
  by rewrite !skip_solid.
Qed.

Lemma q_conjuncts_print ps : forall fuel acc,
  Forall (wf_query_predicate parse_from_rfc3339) ps -> length ps < fuel ->
  parse_conjuncts parse_from_rfc3339 source fuel acc (print_sep " and " print_query_predicate ps) =
    Some (Ok (acc ++ ps, "")).
Proof.
  induction ps as [|p ps IH]; intros [|fuel] acc Hps Hf; simpl in Hf; try lia; cbn [parse_conjuncts print_sep].
  - by rewrite app_nil_r.
  - inversion Hps as [|? ? Hp Hps']; subst.
    change (" and " +:+ ?x) with (String " " ("and" +:+ String " " x)).
    rewrite at_eof_and, q_reject_and. cbn [pbind].
    rewrite (try_consume_keyword "and" "a" "nd") by done. cbn [negb].
    assert (forall y, parse_predicate parse_from_rfc3339 source (String " " y)
      = parse_predicate parse_from_rfc3339 source y) as -> by done.
    rewrite q_predicate_print; [|done|by destruct ps]. cbn [pbind].
    rewrite IH by (done || lia). by rewrite <- app_assoc.
Qed.

Lemma q_query_print q :
  wf_query parse_from_rfc3339 q ->
  parse_query parse_from_rfc3339 source (print_query q) = Some (Ok (q, "")).
Proof.
  destruct q as [[|p ps]]; intros [Hne Hps]; [done|]. inversion Hps as [|? ? Hp Hps']; subst.
  unfold parse_query, print_query. rewrite q_predicate_print; [|done|by destruct ps]. cbn [pbind].
  rewrite q_conjuncts_print; [done|done|].
  pose proof (print_sep_length " and " print_query_predicate ps). simpl in *. lia.
Qed.
End Print.

(** ** Properties *)

(** The query parser and the printer agree.  On every input the parser
    terminates; what it accepts is well formed, that is, not empty, with every
    field under its own namespace and a literal that fits its operator; and it
    reads every well-formed query back from its printed form, whatever bytes
    its literals hold. *)
Theorem query_print_parse rfc3339 :
  (forall source, QueryParser.query_fuel rfc3339 source = Some (parse_query_string rfc3339 source)) /\
  (forall source q, parse_query_string rfc3339 source = Ok q -> wf_query rfc3339 q) /\
  (forall q, wf_query rfc3339 q -> parse_query_string rfc3339 (print_query q) = Ok q).
Proof.
  split_and!; [intros; apply query_fuel_parse|intros source q Hq|intros q Hq].
  - pose proof (query_fuel_sat rfc3339 source) as Hs. rewrite query_fuel_parse, Hq in Hs. exact Hs.
  - cut (query_fuel rfc3339 (print_query q) = Some (Ok q)); [rewrite query_fuel_parse; by intros [= ->]|].
    unfold query_fuel. by rewrite q_query_print.
Qed.

(** The parser never yields a range with a comparison, though the evaluator has
    a case for it. *)
Lemma no_range_comparison rfc3339 source ps p a b :
  parse_query_string rfc3339 source = Ok (QAnd ps) -> p ∈ ps ->
  QueryPredicate.rhs p = QueryValue.TimeRange a b -> QueryPredicate.op p = QueryOperator.In.
Proof.
  intros Hq Hp Hr. pose proof (query_fuel_sat rfc3339 source) as Hs.
  rewrite query_fuel_parse, Hq in Hs. destruct Hs as [_ Hs]. rewrite Forall_forall in Hs.
  destruct (Hs p Hp) as [_ Hf]. rewrite Hr in Hf. by destruct (QueryPredicate.op p).
Qed.
End QueryRoundtrip.
