(* ===== verification/FsSound.v ===== *)
(** * File system: the invariant of the store and what the operations do

    [FsInv.well_formed] is what every run of writes, quarantines and collection
    passes keeps; [FsSound] describes each operation as an update of the maps of
    the store that keeps it. *)
From stdpp Require Import sorting.
From S2P Require Import Prelude Collections Json Ids Records Redaction Receipt StateError FsTypes FsStore.

(** * File system: the invariant of the store

    [well_formed] is what every run of writes, quarantines and collection
    passes keeps: identifiers are fresh, every object has its current pointer,
    which points to a verified version of it, purged versions are retired, and
    the reference count of a chunk is the number of its occurrences in the
    versions that are not purged, as long as no chunk is referenced more than
    [u32::MAX] times. *)

Module FsInv.
Import InMemoryAiosFs.

(** ** Reference counts *)
Definition count (cs : gmap string Chunk.t) (c : string) : Z :=
  match cs !! c with Some x => Chunk.ref_count x | None => 0%Z end.

(** Occurrences of a chunk in the versions that are not purged, and in all. *)
Definition live (s : t) (c : string) : nat :=
  map_sum (fun vid v => if decide (vid ∈ purged_versions s) then 0 else occ c (Version.chunk_refs v))
    (versions s).
Definition total (s : t) (c : string) : nat :=
  map_sum (fun _ v => occ c (Version.chunk_refs v)) (versions s).

Lemma live_le_total s c : live s c <= total s c.
Proof. apply map_sum_le. intros k v _. case_decide; lia. Qed.

Lemma count_reference now cs id c :
  count (reference now cs id) c
  = if decide (id = c) then Z.min (count cs c + 1) u32_max else count cs c.
Proof.
  unfold count, reference. case_decide as Hd.
  - subst. rewrite lookup_insert_eq. by destruct (cs !! c).
  - by rewrite lookup_insert_ne.
Qed.

Lemma count_register now refs : forall cs c,
  (count cs c + Z.of_nat (occ c refs) <= u32_max)%Z ->
  count (foldl (reference now) cs refs) c = (count cs c + Z.of_nat (occ c refs))%Z.
Proof.
  induction refs as [|id refs IH]; intros cs c Hle; [unfold occ; simpl; lia|].
  rewrite occ_cons in Hle |- *. simpl foldl. rewrite IH; rewrite count_reference; case_decide; lia.
Qed.

Lemma count_drop cs id c : (0 <= count cs c)%Z ->
  count (drop_reference cs id) c = if decide (id = c) then Z.max 0 (count cs c - 1) else count cs c.
Proof.
  unfold count, drop_reference. intros Hc. case_decide as Hd.
  - subst. rewrite lookup_alter_eq. destruct (cs !! c) as [x|]; simpl; [|lia].
    destruct (Z.ltb_spec 0 (Chunk.ref_count x)); simpl; lia.
  - by rewrite lookup_alter_ne.
Qed.

Lemma count_drops refs : forall cs c, (Z.of_nat (occ c refs) <= count cs c)%Z ->
  count (foldl drop_reference cs refs) c = (count cs c - Z.of_nat (occ c refs))%Z.
Proof.
  induction refs as [|id refs IH]; intros cs c Hle; [unfold occ; simpl; lia|].
  rewrite occ_cons in Hle |- *. simpl foldl.
  rewrite IH; rewrite count_drop by (case_decide; lia); case_decide; lia.
Qed.

(** *** Chunks are stored under their own identifiers *)
Definition own_ids (cs : gmap string Chunk.t) : Prop := forall c x, cs !! c = Some x -> Chunk.chunk_id x = c.

Lemma own_ids_register now refs : forall cs, own_ids cs -> own_ids (foldl (reference now) cs refs).
Proof.
  induction refs as [|id refs IH]; intros cs Hcs; [done|]. apply IH. intros c x.
  unfold reference. intros [[<- <-]|[_ Hx]]%lookup_insert_Some; [|by apply Hcs].
  destruct (cs !! id) as [y|] eqn:E; [|done]. exact (Hcs id y E).
Qed.
Lemma own_ids_drops refs : forall cs, own_ids cs -> own_ids (foldl drop_reference cs refs).
Proof.
  induction refs as [|id refs IH]; intros cs Hcs; [done|]. apply IH. intros c x.
  unfold drop_reference. intros Hx. apply lookup_alter_Some in Hx as [(-> & y & Hy & ->)|[_ Hx]].
  - destruct (_ <? _)%Z; exact (Hcs _ y Hy).
  - by apply Hcs.
Qed.

(** *** Sums under a change of state *)
Lemma map_sum_alter {A} (f : string -> A -> nat) (g : A -> A) m k :
  (forall a, f k (g a) = f k a) -> map_sum f (alter g k m) = map_sum f m.
Proof.
  intros Hf. destruct (m !! k) as [a|] eqn:E; [|rewrite alter_id; [done|]; intros a; by rewrite E].
  assert (alter g k m = <[k := g a]> m) as ->.
  { apply map_eq. intros j. destruct (decide (k = j)) as [->|].
    - by rewrite lookup_alter_eq, lookup_insert_eq, E.
    - by rewrite lookup_alter_ne, lookup_insert_ne. }
  pose proof (map_sum_replace f m k a (g a) E) as Hr. rewrite Hf in Hr. lia.
Qed.

(** ** The invariant *)
Section Invariant.
Context `{Primitives} `{!FsTexts}.

Definition minted (ulids : nat -> string) (drawn : nat) (prefix id : string) : Prop :=
  exists i, i < drawn /\ id = FsId.fresh_prefixed_ulid prefix (ulids i).

(** The target of a pointer: a verified version of the pointer's object. *)
Definition good_target (s : t) (object_id vid : string) : Prop :=
  exists v, versions s !! vid = Some v /\ Version.object_id v = object_id /\
    Version.state v = VersionState.Verified.

Record core (ulids : nat -> string) (drawn : nat) (s : t) : Prop := {
  wf_objects id o : objects s !! id = Some o ->
    Object.object_id o = id /\ minted ulids drawn FsId.OBJECT_PREFIX id /\
    exists p, pointers s !! Object.current_pointer_id o = Some p /\ Pointer.object_id p = id;
  wf_pointers pid p : pointers s !! pid = Some p ->
    Pointer.pointer_id p = pid /\ minted ulids drawn FsId.POINTER_PREFIX pid /\
    Pointer.kind p = PointerKind.Current /\
    (exists o, objects s !! Pointer.object_id p = Some o /\ Object.current_pointer_id o = pid) /\
    good_target s (Pointer.object_id p) (Pointer.current_version_id p);
  wf_versions vid v : versions s !! vid = Some v ->
    Version.version_id v = vid /\ minted ulids drawn FsId.VERSION_PREFIX vid /\
    vid ∉ Version.parent_version_ids v;
  wf_purged vid : vid ∈ purged_versions s ->
    exists v, versions s !! vid = Some v /\ Version.state v = VersionState.RetiredVersion;
  wf_chunks : own_ids (chunks s);
  wf_refs c : (Z.of_nat (total s c) <= u32_max)%Z -> count (chunks s) c = Z.of_nat (live s c);
}.

(** The core, and the head is the snapshot of the store as it is. *)
Definition well_formed (ulids : nat -> string) (drawn : nat) (s : t) : Prop :=
  core ulids drawn s /\ head s = Some (compute_snapshot_id s).

Lemma minted_mono ulids n m prefix id : n <= m -> minted ulids n prefix id -> minted ulids m prefix id.
Proof. intros Hn (i & Hi & ->). exists i. split; [lia|done]. Qed.

(** A fresh identifier is not in use. *)
Lemma minted_fresh ulids n m prefix : Inj (=) (=) ulids -> n <= m ->
  ~ minted ulids n prefix (FsId.fresh_prefixed_ulid prefix (ulids m)).
Proof.
  intros Hinj Hn (i & Hi & He). unfold FsId.fresh_prefixed_ulid in He.
  apply (inj (String.append prefix)) in He. apply (inj ulids) in He. lia.
Qed.

Lemma core_mono ulids n m s : n <= m -> core ulids n s -> core ulids m s.
Proof.
  intros Hn []. split; [..|done|done|done].
  - intros id o Ho. destruct (wf_objects0 id o Ho) as (? & ? & ?). eauto using minted_mono.
  - intros id p Hp. destruct (wf_pointers0 id p Hp) as (? & ? & ? & ? & ?). eauto 6 using minted_mono.
  - intros id v Hv. destruct (wf_versions0 id v Hv) as (? & ? & ?). eauto using minted_mono.
Qed.
Lemma well_formed_mono ulids n m s : n <= m -> well_formed ulids n s -> well_formed ulids m s.
Proof. intros Hn [Hc Hh]. split; [by eapply core_mono|done]. Qed.

(** Transactions and snapshots are outside the core. *)
Lemma core_transactions ulids n x s : core ulids n s -> core ulids n (set_transactions x s).
Proof. by intros []. Qed.
Lemma core_captured ulids n s x :
  core ulids n s -> SnapshotSummary.snapshot_id x = compute_snapshot_id s ->
  well_formed ulids n (set_head x s).
Proof. intros [] Hx. split; [done|]. simpl. by rewrite Hx. Qed.
End Invariant.
End FsInv.

(** * File system: what the operations do to the store

    Each operation of the in-memory store as an update of its maps, and that
    the invariant of [FsInv] is kept: by a write, by entering and leaving
    quarantine, by purging a retired version and by reclaiming a chunk. *)

Module FsSound.
Import InMemoryAiosFs FsInv.

(** ** Updates of the maps *)
Section Updates.
Context `{Primitives} `{!FsTexts}.
Variable ulids : nat -> string.

Lemma set_state_lookup vid st a r s k :
  versions (set_version_state vid st a r s) !! k
  = if decide (k = vid) then Version.set_state st a r <$> versions s !! k else versions s !! k.
Proof.
  simpl. case_decide as Hd; [subst; by rewrite lookup_alter_eq|by rewrite lookup_alter_ne].
Qed.

Lemma live_set_state vid st a r s c : live (set_version_state vid st a r s) c = live s c.
Proof. apply map_sum_alter. done. Qed.
Lemma total_set_state vid st a r s c : total (set_version_state vid st a r s) c = total s c.
Proof. apply map_sum_alter. done. Qed.

Lemma core_set_state n vid st a r s :
  core ulids n s -> (vid ∈ purged_versions s -> st = VersionState.RetiredVersion) ->
  (forall pid p, pointers s !! pid = Some p -> Pointer.current_version_id p <> vid) ->
  core ulids n (set_version_state vid st a r s).
Proof.
  intros [Ho Hp Hv Hg Hc Hr] Hst Hnot. split.
  - exact Ho.
  - intros pid p Hl. destruct (Hp pid p Hl) as (? & ? & ? & ? & v & Hlv & ?). split_and!; [done..|].
    exists v. rewrite set_state_lookup, decide_False by (by eapply Hnot). done.
  - intros k v. rewrite set_state_lookup. case_decide; [|by apply Hv]. subst.
    intros (v' & Hl & ->)%fmap_Some_1. destruct (Hv vid v' Hl) as (? & ? & ?). done.
  - intros k Hk. destruct (Hg k Hk) as (v & Hl & Hs). rewrite set_state_lookup.
    case_decide; [|by exists v]. subst. rewrite Hl. eexists. split; [done|]. by apply Hst.
  - exact Hc.
  - intros c. rewrite live_set_state, total_set_state. apply Hr.
Qed.

Lemma core_set_pointers n P s oid x :
  core ulids n s -> good_target s oid x ->
  (forall pid p, P !! pid = Some p ->
     pointers s !! pid = Some p \/
     exists p0 now tx, pointers s !! pid = Some p0 /\ Pointer.object_id p0 = oid /\
       p = Pointer.promote x now tx p0) ->
  (forall pid, is_Some (pointers s !! pid) -> is_Some (P !! pid)) ->
  core ulids n (set_pointers P s).
Proof.
  intros [Ho Hp Hv Hg Hc Hr] Hx HP Hall. split; [..|done|done|done|done].
  - intros id o Hl. destruct (Ho id o Hl) as (? & ? & p & Hlp & Hob). split_and!; [done..|].
    destruct (Hall (Object.current_pointer_id o)) as [p' Hp']; [by eexists|]. exists p'. split; [done|].
    destruct (HP _ _ Hp') as [Hl'|(p0 & now & tx & Hl' & _ & ->)]; simpl; congruence.
  - intros pid p Hl. destruct (HP pid p Hl) as [Hl'|(p0 & now & tx & Hl' & Hob & ->)]; [by apply Hp|].
    destruct (Hp pid p0 Hl') as (? & ? & ? & ? & _). split_and!; [done..|]. simpl. by rewrite Hob.
Qed.

Lemma core_purge n vid v s :
  core ulids n s -> versions s !! vid = Some v -> Version.state v = VersionState.RetiredVersion ->
  vid ∉ purged_versions s ->
  core ulids n (set_purged ({[vid]} ∪ purged_versions s)
    (set_chunks (foldl drop_reference (chunks s) (Version.chunk_refs v))
       (set_version_state vid VersionState.RetiredVersion None None s))).
Proof.
  intros Hco Hl Hs Hnp.
  assert (core ulids n (set_version_state vid VersionState.RetiredVersion None None s)) as Hco'.
  { apply core_set_state; [done|done|]. intros pid p Hp He.
    destruct (wf_pointers _ _ _ Hco pid p Hp) as (_ & _ & _ & _ & v' & Hv' & _ & ?). congruence. }
  set (s1 := set_version_state _ _ _ _ s) in *.
  assert (forall c, live s c = occ c (Version.chunk_refs v)
    + live (set_purged ({[vid]} ∪ purged_versions s) s1) c) as Hlive.
  { intros c. rewrite <- (live_set_state vid VersionState.RetiredVersion None None s c). fold s1.
    assert (versions s1 !! vid = Some (Version.set_state VersionState.RetiredVersion None None v)) as Hl1
      by (unfold s1; by rewrite set_state_lookup, decide_True, Hl).
    unfold live at 1 2. simpl. fold s1. change (alter _ vid (versions s)) with (versions s1).
    rewrite (map_sum_delete _ (versions s1) vid _ Hl1), (map_sum_delete _ (versions s1) vid _ Hl1).
    change (purged_versions s1) with (purged_versions s).
    rewrite decide_False by done. rewrite decide_True by set_solver. simpl. f_equal.
    apply map_sum_ext. intros k x Hk. assert (k <> vid) by (intros ->; by rewrite lookup_delete_eq in Hk).
    destruct (decide (k ∈ purged_versions s)), (decide (k ∈ {[vid]} ∪ purged_versions s)); set_solver. }
  destruct Hco' as [Ho Hp Hv Hg Hc Hr]. split; [exact Ho|exact Hp|exact Hv|..].
  - intros k [->%elem_of_singleton|Hk]%elem_of_union; [|by apply Hg].
    exists (Version.set_state VersionState.RetiredVersion None None v). split; [|done].
    change (versions s1 !! vid = Some (Version.set_state VersionState.RetiredVersion None None v)).
    unfold s1. by rewrite set_state_lookup, decide_True, Hl.
  - apply own_ids_drops. exact Hc.
  - intros c Ht. change (Z.of_nat (total s1 c) <= u32_max)%Z in Ht. specialize (Hr c Ht).
    rewrite (live_set_state vid VersionState.RetiredVersion None None s c : live s1 c = live s c) in Hr.
    change (chunks s1) with (chunks s) in Hr.
    change (count (foldl drop_reference (chunks s) (Version.chunk_refs v)) c
      = Z.of_nat (live (set_purged ({[vid]} ∪ purged_versions s) s1) c)).
    specialize (Hlive c). rewrite count_drops by lia. lia.
Qed.

Lemma core_reclaim n c x s :
  core ulids n s -> chunks s !! c = Some x -> Chunk.ref_count x = 0%Z ->
  core ulids n (set_chunks (delete c (chunks s)) s).
Proof.
  intros [Ho Hp Hv Hg Hc Hr] Hl Hz. split; [done|done|done|done|..].
  - intros k y Hy. simpl in Hy. apply lookup_delete_Some in Hy as [_ Hy]. by apply Hc.
  - intros k Ht. change (live (set_chunks _ s) k) with (live s k). rewrite <- (Hr k Ht).
    unfold count. simpl.
    destruct (decide (c = k)) as [->|]; [by rewrite lookup_delete_eq, Hl, Hz|by rewrite lookup_delete_ne].
Qed.

(** What a write that succeeds does to the maps: [pid] is the pointer of the
    object [oid], [vid] the version that is written. *)
Record written (write : ObjectWriteRequest.t) (oid vid pid : string) (s s' : t) : Prop := {
  wr_version : exists v, versions s' = <[vid := v]> (versions s) /\
    Version.version_id v = vid /\ Version.object_id v = oid /\
    Version.parent_version_ids v = ObjectWriteRequest.parent_version_ids write /\
    Version.chunk_refs v = ObjectWriteRequest.chunks write /\
    Version.content_hash v = content_hash_for_chunk_refs (ObjectWriteRequest.chunks write) /\
    Version.metadata_delta v = ObjectWriteRequest.metadata_delta write /\
    Version.state v = VersionState.Verified;
  wr_chunks : exists now,
    chunks s' = foldl (reference now) (chunks s) (ObjectWriteRequest.chunks write);
  wr_purged : purged_versions s' = purged_versions s;
  wr_object : exists o, objects s' = <[oid := o]> (objects s) /\ Object.object_id o = oid /\
    Object.current_pointer_id o = pid;
  wr_pointer : exists p, pointers s' = <[pid := p]> (pointers s) /\ Pointer.pointer_id p = pid /\
    Pointer.object_id p = oid /\ Pointer.kind p = PointerKind.Current /\
    Pointer.current_version_id p = vid;
}.

Lemma core_written n m write oid vid pid s s' :
  core ulids n s -> n <= m -> written write oid vid pid s s' ->
  versions s !! vid = None -> vid ∉ ObjectWriteRequest.parent_version_ids write ->
  minted ulids m FsId.OBJECT_PREFIX oid -> minted ulids m FsId.VERSION_PREFIX vid ->
  minted ulids m FsId.POINTER_PREFIX pid ->
  (objects s !! oid = None /\ pointers s !! pid = None) \/
  (exists o, objects s !! oid = Some o /\ Object.current_pointer_id o = pid) ->
  core ulids m s'.
Proof.
  intros Hco Hnm [(v & Hv' & Hvid & Hvo & Hvp & Hvr & _ & _ & Hvs) (now & Hc') Hg' (o & Ho' & Hoo & Hop)
    (p & Hp' & Hpp & Hpo & Hpk & Hpv)] Hfv Hpar Hmo Hmv Hmp Hcase.
  apply (core_mono _ _ m) in Hco; [|done]. destruct Hco as [Ho Hp Hv Hg Hc Hr].
  assert (forall q pq, pointers s !! q = Some pq -> q <> pid -> Pointer.object_id pq <> oid) as Hother.
  { intros q pq Hq Hne He. destruct (Hp q pq Hq) as (_ & _ & _ & (oq & Hoq & Hcur) & _).
    rewrite He in Hoq. destruct Hcase as [[Hn _]|(o0 & Ho0 & Hc0)]; congruence. }
  split.
  - intros id ob. rewrite Ho', Hp'. intros [[<- <-]|[Hne Hl]]%lookup_insert_Some.
    + split_and!; [done|done|]. exists p. rewrite Hop. by rewrite lookup_insert_eq.
    + destruct (Ho id ob Hl) as (? & ? & q & Hq & Hqo). split_and!; [done..|]. exists q.
      destruct (decide (pid = Object.current_pointer_id ob)) as [He|]; [|by rewrite lookup_insert_ne].
      exfalso. destruct Hcase as [[_ Hn]|(o0 & Ho0 & Hc0)]; [congruence|].
      destruct (Ho oid o0 Ho0) as (_ & _ & q' & Hq' & ?). congruence.
  - intros q pq. rewrite Hp', Ho'. unfold good_target. rewrite Hv'.
    intros [[<- <-]|[Hne Hl]]%lookup_insert_Some.
    + split_and!; [done..| |].
      * exists o. by rewrite Hpo, lookup_insert_eq.
      * exists v. by rewrite Hpv, lookup_insert_eq, Hpo.
    + destruct (Hp q pq Hl) as (? & ? & ? & (oq & Hoq & Hcur) & v0 & Hv0 & ?). split_and!; [done..| |].
      * exists oq. rewrite lookup_insert_ne; [done|]. intros He. by apply (Hother q pq Hl).
      * exists v0. rewrite lookup_insert_ne; [done|congruence].
  - intros k x. rewrite Hv'. intros [[<- <-]|[Hne Hl]]%lookup_insert_Some; [|by apply Hv].
    split_and!; [done|done|by rewrite Hvp].
  - intros k. rewrite Hg', Hv'. intros Hk. destruct (Hg k Hk) as (x & Hx & ?). exists x.
    rewrite lookup_insert_ne; [done|congruence].
  - rewrite Hc'. by apply own_ids_register.
  - intros c Ht. rewrite Hc'.
    assert (total s' c = occ c (ObjectWriteRequest.chunks write) + total s c) as Et.
    { unfold total. by rewrite Hv', map_sum_insert, Hvr by done. }
    assert (live s' c = occ c (ObjectWriteRequest.chunks write) + live s c) as El.
    { unfold live. rewrite Hg', Hv', map_sum_insert, Hvr by done. rewrite decide_False; [done|].
      intros Hk. destruct (Hg vid Hk) as (x & ? & _). congruence. }
    pose proof (live_le_total s c). specialize (Hr c ltac:(lia)).
    rewrite count_register by lia. lia.
Qed.
End Updates.
End FsSound.
