(* ===== verification/FsMove.v ===== *)
(** * File system: the outcome of every operation

    Writing ([FsRun]), then quarantine and collection ([FsMove]): guards, errors
    and what is stored, each with the invariant of [FsInv]. *)
From stdpp Require Import sorting.
From S2P Require Import Prelude Collections Json Ids Records Redaction Receipt StateError FsTypes FsStore FsSound.

(** * File system: the outcome of a write

    [write_object] in full: its guard, the error it answers when the guard
    fails, and what it stores otherwise; the invariant of [FsInv] is kept. *)

Module FsRun.
Import InMemoryAiosFs FsInv FsSound.

Section Run.
Context {L : Type} `{FsEvidenceLog L} `{!FsTexts}.
Abbreviation W := (FsWorld.t InMemoryAiosFs.t L).

(** Fresh identifiers are fresh, and the store is well formed. *)
Definition wf (w : W) : Prop :=
  Inj (=) (=) (FsWorld.ulids w) /\ well_formed (FsWorld.ulids w) (FsWorld.drawn w) (FsWorld.store w).

(** The environment of [w'] is that of [w], later. *)
Definition later (w w' : W) : Prop :=
  FsWorld.ulids w' = FsWorld.ulids w /\ FsWorld.drawn w <= FsWorld.drawn w'.

Lemma later_refl w : later w w.
Proof. done. Qed.
Lemma later_trans w w' w'' : later w w' -> later w' w'' -> later w w''.
Proof. intros [? ?] [? ?]. split; [congruence|lia]. Qed.

Lemma wf_later w w' : wf w -> later w w' -> FsWorld.store w' = FsWorld.store w -> wf w'.
Proof.
  intros [Hi Hw] [Hu Hd] Hs. split; rewrite Hu; [done|]. rewrite Hs. by eapply well_formed_mono.
Qed.

Lemma wf_store w w' :
  wf w -> later w w' -> core (FsWorld.ulids w') (FsWorld.drawn w') (FsWorld.store w') ->
  head (FsWorld.store w') = Some (compute_snapshot_id (FsWorld.store w')) -> wf w'.
Proof. intros [Hi Hw] [Hu Hd] Hc Hh. split; [by rewrite Hu|done]. Qed.

Lemma wf_head w : wf w -> head_snapshot_id (FsWorld.store w) = compute_snapshot_id (FsWorld.store w).
Proof. intros [_ [_ Hh]]. unfold head_snapshot_id. by rewrite Hh. Qed.

(** ** The guard of a write *)
Definition write_guard (s : t) (write : ObjectWriteRequest.t) (context : FsContext.t)
    : result FsError.t () :=
  let? _ := ensure_snapshot_current (FsContext.expected_snapshot_id context) (head_snapshot_id s) in
  match ObjectWriteRequest.object_id write with
  | Some o => prepare_existing_object_write s o (ObjectWriteRequest.parent_version_ids write)
  | None => Ok ()
  end.

(** No parent named in the request is an identifier that is still to be drawn. *)
Definition unforeseen (w : W) (write : ObjectWriteRequest.t) : Prop :=
  forall i, FsWorld.drawn w <= i ->
    FsId.fresh_prefixed_ulid FsId.VERSION_PREFIX (FsWorld.ulids w i)
      ∉ ObjectWriteRequest.parent_version_ids write.

(** The identifiers of the object and of its pointer: those of the object that
    is written, or two fresh ones. *)
Definition addressed (w : W) (write : ObjectWriteRequest.t) (oid pid : string) : Prop :=
  let s := FsWorld.store w in
  match ObjectWriteRequest.object_id write with
  | Some o => oid = o /\ exists ob, objects s !! o = Some ob /\ Object.current_pointer_id ob = pid
  | None =>
      oid = FsId.fresh_prefixed_ulid FsId.OBJECT_PREFIX (FsWorld.ulids w (2 + FsWorld.drawn w)) /\
      pid = FsId.fresh_prefixed_ulid FsId.POINTER_PREFIX (FsWorld.ulids w (3 + FsWorld.drawn w))
  end.

Definition write_outcome (write : ObjectWriteRequest.t) (w : W) (r : ObjectWriteResult.t) (w' : W)
    : Prop :=
  let s' := FsWorld.store w' in
  (exists pid, addressed w write (ObjectWriteResult.object_id r) pid /\
     written write (ObjectWriteResult.object_id r) (ObjectWriteResult.version_id r) pid
       (FsWorld.store w) s') /\
  ObjectWriteResult.version_id r
    = FsId.fresh_prefixed_ulid FsId.VERSION_PREFIX (FsWorld.ulids w (1 + FsWorld.drawn w)) /\
  ObjectWriteResult.snapshot_id_after r = compute_snapshot_id s' /\
  head s' = Some (compute_snapshot_id s') /\
  FsWorld.ulids w' = FsWorld.ulids w /\ FsWorld.drawn w' = 
    match ObjectWriteRequest.object_id write with Some _ => 2 | None => 4 end + FsWorld.drawn w.

Lemma prepared s o ps :
  prepare_existing_object_write s o ps = Ok () ->
  is_Some (objects s !! o) /\ ps <> [] /\
  forall p, p ∈ ps -> exists v, versions s !! p = Some v /\ Version.object_id v = o.
Proof.
  unfold prepare_existing_object_write. destruct (objects s !! o) as [ob|]; [|done].
  destruct ps as [|p ps]; [done|]. intros Hc. split_and!; [by eexists|done|].
  revert Hc. generalize (p :: ps). clear. intros ps. induction ps as [|p ps IH]; simpl.
  - intros _ p Hp. by apply elem_of_nil in Hp.
  - intros (v & Hv%ok_or_ok & Hc)%result_bind_ok. destruct (String.eqb_spec (Version.object_id v) o); [|done].
    intros q [->|Hq]%elem_of_cons; [by exists v|by apply IH].
Qed.

(** The part under the lock: refused by the guard with the store as it was, or
    carried out; there is no third outcome. *)
Lemma write_locked_post write context w :
  wf w ->
  post (write_locked write context)
    (fun r w' => write_guard (FsWorld.store w) write context = Ok () /\ write_outcome write w r w')
    (fun e w' => write_guard (FsWorld.store w) write context = Err e /\
       FsWorld.store w' = FsWorld.store w /\ later w w') w.
Proof.
  intros [_ [Hco _]]. unfold write_locked, write_guard, write_outcome, addressed.
  set (s := FsWorld.store w) in *.
  unfold post, mbind_ at 1 2, get, lift at 1. fold s.
  destruct (ensure_snapshot_current _ _) as [[]|e]; [|done]. cbn [result_bind].
  destruct (ObjectWriteRequest.object_id write) as [o|] eqn:Eo.
  - unfold mbind_, lift. cbn -[compute_snapshot_id content_hash_for_chunk_refs].
    fold s. destruct (prepare_existing_object_write s o _) as [[]|e] eqn:Ep;
      [|split_and!; [done..|]; split; simpl; [done|lia]].
    destruct (prepared _ _ _ Ep) as ([ob Hob] & _ & _).
    destruct (wf_objects _ _ _ Hco o ob Hob) as (Hid & _ & p & Hp & Hpo).
    destruct (wf_pointers _ _ _ Hco _ p Hp) as (Hpid & _ & Hk & _ & _).
    unfold promote_existing_object_pointer, mbind_, get, lift.
    cbn -[compute_snapshot_id content_hash_for_chunk_refs].
    fold s. rewrite Hob. cbn -[compute_snapshot_id content_hash_for_chunk_refs].
    rewrite Hp. cbn -[compute_snapshot_id content_hash_for_chunk_refs].
    split; [done|]. split_and!; [|done..].
    exists (Object.current_pointer_id ob). split; [by eauto|]. split.
    + eexists. split; [reflexivity|done].
    + eexists. reflexivity.
    + reflexivity.
    + exists ob. split; [simpl; by rewrite insert_id|done].
    + eexists. split; [reflexivity|]. done.
  - unfold mbind_, lift. cbn -[compute_snapshot_id content_hash_for_chunk_refs]. fold s.
    split; [done|]. split_and!; [|done..].
    eexists. split; [done|]. split.
    + eexists. split; [reflexivity|done].
    + eexists. reflexivity.
    + reflexivity.
    + eexists. split; [reflexivity|done].
    + eexists. split; [reflexivity|done].
Qed.
(** What the guard makes sure of, and what a fresh identifier is not. *)
Lemma guard_checked write context s :
  write_guard s write context = Ok () ->
  ensure_snapshot_current (FsContext.expected_snapshot_id context) (head_snapshot_id s) = Ok () /\
  forall o, ObjectWriteRequest.object_id write = Some o ->
    prepare_existing_object_write s o (ObjectWriteRequest.parent_version_ids write) = Ok ().
Proof.
  unfold write_guard. destruct (ensure_snapshot_current _ _) as [[]|]; [|done]. simpl.
  intros Hg. split; [done|]. intros o Ho. by rewrite Ho in Hg.
Qed.

Lemma fresh_absent (w : W) n (A : Type) prefix (m : gmap string A) :
  Inj (=) (=) (FsWorld.ulids w) -> FsWorld.drawn w <= n ->
  (forall k x, m !! k = Some x -> minted (FsWorld.ulids w) (FsWorld.drawn w) prefix k) ->
  m !! FsId.fresh_prefixed_ulid prefix (FsWorld.ulids w n) = None.
Proof.
  intros Hi Hn Hm. destruct (m !! _) as [x|] eqn:E; [|done].
  apply Hm in E. by apply minted_fresh in E.
Qed.

Lemma write_outcome_wf write w r w' :
  wf w -> unforeseen w write -> write_outcome write w r w' -> wf w'.
Proof.
  intros Hwf Hunf ((pid & Ha & Hw) & Hv & _ & Hh & Hu & Hd).
  assert (later w w') as Hl by (split; [done|lia]).
  destruct Hwf as [Hi [Hco Hh0]].
  apply (wf_store w w'); [done|done| |done]. rewrite Hu.
  assert (forall prefix i, FsWorld.drawn w + i < FsWorld.drawn w' ->
    minted (FsWorld.ulids w) (FsWorld.drawn w') prefix
      (FsId.fresh_prefixed_ulid prefix (FsWorld.ulids w (i + FsWorld.drawn w)))) as Hm.
  { intros prefix i Hlt. exists (i + FsWorld.drawn w). split; [lia|done]. }
  eapply core_written; [exact Hco|lia|exact Hw|..].
  - rewrite Hv. eapply fresh_absent; [done|lia|]. intros k x Hx. by apply (wf_versions _ _ _ Hco k x).
  - rewrite Hv. apply Hunf. lia.
  - unfold addressed in Ha. destruct (ObjectWriteRequest.object_id write) as [o|].
    + destruct Ha as (-> & ob & Hob & _). eapply minted_mono; [|by apply (wf_objects _ _ _ Hco o ob)]. lia.
    + destruct Ha as [-> _]. apply (Hm _ 2). lia.
  - rewrite Hv. apply (Hm _ 1). destruct (ObjectWriteRequest.object_id write); lia.
  - unfold addressed in Ha. destruct (ObjectWriteRequest.object_id write) as [o|].
    + destruct Ha as (_ & ob & Hob & <-). destruct (wf_objects _ _ _ Hco o ob Hob) as (_ & _ & p & Hp & _).
      eapply minted_mono; [|by apply (wf_pointers _ _ _ Hco _ p)]. lia.
    + destruct Ha as [_ ->]. apply (Hm _ 3). simpl. lia.
  - unfold addressed in Ha. destruct (ObjectWriteRequest.object_id write) as [o|].
    + right. destruct Ha as (-> & ob & Hob & Hp). by exists ob.
    + left. destruct Ha as [-> ->].
      split; eapply fresh_absent; try done; try lia.
      * intros k x Hx. by apply (wf_objects _ _ _ Hco k x).
      * intros k x Hx. by apply (wf_pointers _ _ _ Hco k x).
Qed.

(** The whole operation: when the emitter fails the write has been carried out
    all the same. *)
Definition after_write (write : ObjectWriteRequest.t) (w : W) (w' : W) : Prop :=
  exists r w0, write_outcome write w r w0 /\ FsWorld.store w' = FsWorld.store w0 /\ same_env 0 w0 w'.

Lemma write_object_post emitter write context w :
  wf w ->
  post (write_object emitter write context)
    (fun r w' => write_guard (FsWorld.store w) write context = Ok () /\ write_outcome write w r w')
    (fun e w' =>
       (write_guard (FsWorld.store w) write context = Err e /\
        FsWorld.store w' = FsWorld.store w /\ later w w') \/
       (write_guard (FsWorld.store w) write context = Ok () /\ refused e /\ after_write write w w')) w.
Proof.
  intros Hwf. unfold write_object. eapply post_bind.
  { eapply post_mono; [by apply write_locked_post| |]; [intros r w' Hr; exact Hr|]. by left. }
  intros r w' [Hg Hr]. destruct emitter as [em|].
  - eapply (post_bind _ _ (fun _ w'' => FsWorld.store w'' = FsWorld.store w' /\ same_env 0 w' w'')).
    + eapply post_bind; [|intros b w'' Hq; apply post_ret; exact Hq].
      eapply post_mono; [apply emit_action_received_quiet|intros b w'' Hq; exact Hq|].
      intros e w'' (Hrf & Hs & He). right. split; [done|]. split; [done|]. by exists r, w'.
    + intros _ w'' (Hs & Hu & Hd). apply post_ret. split; [done|].
      unfold write_outcome in *. rewrite Hs, Hu, Hd. done.
  - eapply post_bind; [by apply (post_ret () (fun _ w'' => w'' = w'))|]. intros _ w'' ->.
    by apply post_ret.
Qed.

Lemma wf_same_env w w' : wf w -> FsWorld.store w' = FsWorld.store w -> same_env 0 w w' -> wf w'.
Proof. intros Hwf Hs [Hu Hd]. eapply wf_later; [done|split; [done|lia]|done]. Qed.

(** A write keeps the invariant, however it ends. *)
Lemma write_object_wf emitter write context w :
  wf w -> unforeseen w write -> wf (write_object emitter write context w).2.
Proof.
  intros Hwf Hunf. pose proof (write_object_post emitter write context w Hwf) as Hp. unfold post in Hp.
  destruct (write_object _ _ _ w) as [[r|e] w']; simpl.
  - destruct Hp as [_ Ho]. by eapply write_outcome_wf.
  - destruct Hp as [(_ & Hs & Hl)|(_ & _ & r & w0 & Ho & Hs & He)]; [by eapply wf_later|].
    eapply wf_same_env; [|done|done]. by eapply write_outcome_wf.
Qed.
End Run.
End FsRun.

(** * File system: quarantine and collection

    The outcome of entering and leaving quarantine, and of the operations of a
    collection pass, each with the invariant of [FsInv]. *)

Module FsMove.
Import InMemoryAiosFs FsInv FsSound FsRun.

(** ** Moving pointers *)

(** The pointers that readers follow, and that a quarantine of [vid] moves. *)
Definition followed (k : PointerKind.t) : Prop := k = PointerKind.Current \/ k = PointerKind.Stable.
Definition redirect (vid x : string) (now : DateTime) (tx : string) (p : Pointer.t) : Pointer.t :=
  if decide ((Pointer.kind p = PointerKind.Current \/ Pointer.kind p = PointerKind.Stable) /\
             Pointer.current_version_id p = vid)
  then Pointer.promote x now tx p else p.

(** Every entry of the store is under its own identifier. *)
Definition keyed (s : t) : Prop :=
  (forall k p, pointers s !! k = Some p -> Pointer.pointer_id p = k) /\
  (forall k v, versions s !! k = Some v -> Version.version_id v = k).

Lemma promoted_lookup x now tx ids : forall (ps : gmap string Pointer.t) k,
  foldl (fun ps id => alter (Pointer.promote x now tx) id ps) ps ids !! k
  = if decide (k ∈ ids) then Pointer.promote x now tx <$> ps !! k else ps !! k.
Proof.
  induction ids as [|id ids IH]; intros ps k; [by rewrite decide_False by apply not_elem_of_nil|].
  simpl. rewrite IH. destruct (decide (id = k)) as [->|Hne].
  - rewrite lookup_alter_eq, (decide_True (P := k ∈ k :: ids)) by apply list_elem_of_here.
    case_decide; [|done]. by destruct (ps !! k).
  - rewrite lookup_alter_ne by done.
    destruct (decide (k ∈ ids)); [rewrite decide_True; [done|by right]|].
    rewrite decide_False; [done|]. by intros [->|]%elem_of_cons.
Qed.

Section Ops.
Context {L : Type} `{FsEvidenceLog L} `{!FsTexts}.
Abbreviation W := (FsWorld.t InMemoryAiosFs.t L).

Lemma promote_all_ok x now tx ids : forall (w : W),
  (forall id, id ∈ ids -> is_Some (pointers (FsWorld.store w) !! id)) ->
  promote_all ids x now tx w
  = (Ok (), set_store (set_pointers
       (foldl (fun ps id => alter (Pointer.promote x now tx) id ps) (pointers (FsWorld.store w)) ids)
       (FsWorld.store w)) w).
Proof.
  induction ids as [|id ids IH]; intros w Hall.
  { unfold promote_all, ret, set_store, set_pointers. simpl. by destruct w as [[]]. }
  destruct (Hall id ltac:(apply list_elem_of_here)) as [p Hp].
  simpl. unfold mbind_, get, lift, update, modify. rewrite Hp. simpl.
  assert (<[id := Pointer.promote x now tx p]> (pointers (FsWorld.store w))
    = alter (Pointer.promote x now tx) id (pointers (FsWorld.store w))) as ->.
  { apply map_eq. intros k. destruct (decide (id = k)) as [->|].
    - by rewrite lookup_insert_eq, lookup_alter_eq, Hp.
    - by rewrite lookup_insert_ne, lookup_alter_ne. }
  rewrite IH; [done|]. intros k Hk. simpl.
  destruct (Hall k ltac:(by right)) as [q Hq]. destruct (decide (id = k)) as [->|].
  - rewrite lookup_alter_eq, Hp. by eexists.
  - rewrite lookup_alter_ne by done. by eexists.
Qed.

Lemma core_keyed ulids n s : core ulids n s -> keyed s.
Proof. intros Hco. split; intros k x Hx; [by apply (wf_pointers _ _ _ Hco)|by apply (wf_versions _ _ _ Hco)]. Qed.

(** The pointers that a quarantine moves. *)
Lemma moved_spec s vid k : keyed s ->
  k ∈ current_or_stable_pointers_to s vid <->
  exists p, pointers s !! k = Some p /\ followed (Pointer.kind p) /\ Pointer.current_version_id p = vid.
Proof.
  intros [Hk _]. unfold current_or_stable_pointers_to, sort_strings. rewrite merge_sort_Permutation.
  rewrite list_elem_of_fmap. split.
  - intros (p & -> & [[Hf Hc] Hp]%list_elem_of_filter).
    apply list_elem_of_fmap in Hp as ([k' p'] & -> & Hl%elem_of_map_to_list). simpl in *.
    exists p'. by rewrite (Hk k' p' Hl).
  - intros (p & Hp & Hf & Hc). exists p. split; [by rewrite (Hk k p Hp)|].
    apply list_elem_of_filter. split; [by split|].
    apply list_elem_of_fmap. exists (k, p). split; [done|]. by apply elem_of_map_to_list.
Qed.
Lemma affected_spec ulids n s vid k :
  core ulids n s ->
  k ∈ current_or_stable_pointers_to s vid <->
  exists p, pointers s !! k = Some p /\ Pointer.current_version_id p = vid.
Proof.
  intros Hco. rewrite (moved_spec s vid k (core_keyed _ _ _ Hco)). split; [naive_solver|].
  intros (p & Hp & Hc). exists p. split_and!; [done|left|done]. by apply (wf_pointers _ _ _ Hco k p).
Qed.

(** There are only [CURRENT] pointers: the fallback is a verified parent. *)
Lemma no_target ulids n s oid kind vid :
  core ulids n s -> kind <> PointerKind.Current -> pointer_target_for_kind s oid kind vid = Ok None.
Proof.
  intros Hco Hk. unfold pointer_target_for_kind.
  assert (filter (fun p => Pointer.object_id p = oid /\ Pointer.kind p = kind /\
    Pointer.current_version_id p <> vid) (map_to_list (pointers s)).*2 = []) as ->; [|done].
  destruct (filter _ _) as [|p l] eqn:E; [done|].
  assert (p ∈ p :: l) as Hp by apply list_elem_of_here. rewrite <- E in Hp.
  apply list_elem_of_filter in Hp as [(_ & Hkp & _) Hp].
  apply list_elem_of_fmap in Hp as ([k q] & -> & Hl%elem_of_map_to_list).
  destruct (wf_pointers _ _ _ Hco k q Hl) as (_ & _ & Hc & _). simpl in *. congruence.
Qed.

Lemma fallback_parent ulids n s v :
  core ulids n s -> quarantine_pointer_fallback s v = prior_verified_parent s v.
Proof.
  intros Hco. unfold quarantine_pointer_fallback. by rewrite !(no_target ulids n).
Qed.

Lemma first_verified_some ulids n s oid x parents :
  core ulids n s -> first_verified s oid parents = Ok (Some x) -> x ∈ parents /\ good_target s oid x.
Proof.
  intros Hco. induction parents as [|p ps IH]; simpl; [done|].
  intros (v & Hv & Hx)%result_bind_ok. unfold version_for_object in Hv.
  apply result_bind_ok in Hv as (v' & Hl%ok_or_ok & Ho).
  destruct (String.eqb_spec (Version.object_id v') oid) as [He|]; [|done]. apply ok_inj in Ho as <-.
  destruct (wf_versions _ _ _ Hco p v' Hl) as (Hid & _ & _). case_bool_decide as Hs.
  - injection Hx as <-. rewrite Hid. split; [apply list_elem_of_here|]. by exists v'.
  - destruct (IH Hx) as [? ?]. split; [by right|done].
Qed.

(** ** Entering quarantine *)
Definition entry_guard (s : t) (vid : string) : result FsError.t (Version.t * option string) :=
  let? v := ok_or (versions s !! vid) (FsError.VersionNotFound vid) in
  if bool_decide (Version.state v = VersionState.Quarantined)
  then Err (FsError.QuarantineAlreadyApplied vid)
  else
    let? x := fallback_for s v (current_or_stable_pointers_to s vid) in
    Ok (v, x).

(** The version is quarantined, and every pointer to it goes to the target. *)
Definition entered (vid reason : string) (x : option string) (s s' : t) : Prop :=
  exists now tx,
    versions s' = alter (Version.set_state VersionState.Quarantined (Some now) (Some reason)) vid (versions s) /\
    pointers s' = redirect vid (default vid x) now tx <$> pointers s /\
    objects s' = objects s /\ chunks s' = chunks s /\ purged_versions s' = purged_versions s /\
    transactions s' = transactions s /\ head s' = Some (compute_snapshot_id s').
Lemma fallback_none s v affected : fallback_for s v affected = Ok None -> affected = [].
Proof.
  unfold fallback_for. destruct affected as [|a l]; [done|].
  intros (x & _ & Hx)%result_bind_ok. by destruct x.
Qed.

(** The pointers of the store after the move. *)
Lemma moved_pointers s vid x now tx : keyed s ->
  foldl (fun ps id => alter (Pointer.promote x now tx) id ps) (pointers s)
    (current_or_stable_pointers_to s vid)
  = redirect vid x now tx <$> pointers s.
Proof.
  intros Hk. apply map_eq. intros k. rewrite promoted_lookup, lookup_fmap.
  destruct (pointers s !! k) as [p|] eqn:Hp; [|by case_decide].
  simpl. unfold redirect. destruct (decide (_ /\ Pointer.current_version_id p = vid)) as [[Hf He]|Hne].
  - rewrite decide_True; [done|]. apply moved_spec; [done|]. by exists p.
  - rewrite decide_False; [done|]. intros (q & Hq & ?)%moved_spec; [|done]. apply Hne. congruence || naive_solver.
Qed.

Lemma unmoved_pointers s vid now tx : keyed s ->
  current_or_stable_pointers_to s vid = [] ->
  redirect vid vid now tx <$> pointers s = pointers s.
Proof.
  intros Hk He. rewrite <- (map_fmap_id (pointers s)) at 2. apply map_fmap_ext.
  intros k p Hp. unfold redirect. case_decide as Hd; [|done]. exfalso.
  assert (k ∈ current_or_stable_pointers_to s vid) as Hin by (apply moved_spec; [done|]; by exists p).
  rewrite He in Hin. by apply elem_of_nil in Hin.
Qed.

Lemma entry_post vid trigger reason (w : W) :
  keyed (FsWorld.store w) ->
  post (apply_quarantine_entry vid trigger reason)
    (fun r w' => later w w' /\ exists v x, entry_guard (FsWorld.store w) vid = Ok (v, x) /\
       entered vid reason x (FsWorld.store w) (FsWorld.store w') /\
       QuarantineReceipt.version_id r = vid)
    (fun e w' => entry_guard (FsWorld.store w) vid = Err e /\
       FsWorld.store w' = FsWorld.store w /\ later w w') w.
Proof.
  intros Hco. unfold apply_quarantine_entry, entry_guard.
  set (s := FsWorld.store w) in *.
  unfold post, mbind_, get, lift, fs_now, fresh. fold s. cbn -[current_or_stable_pointers_to].
  destruct (versions s !! vid) as [v|] eqn:Hv; cbn -[current_or_stable_pointers_to];
    [|split_and!; [done..|]; split; simpl; [done|lia]].
  case_bool_decide as Hq; [split_and!; [done..|]; split; simpl; [done|lia]|].
  cbn -[current_or_stable_pointers_to].
  destruct (fallback_for s v _) as [[x|]|e] eqn:Hf; cbn -[current_or_stable_pointers_to];
    [| |split_and!; [done..|]; split; simpl; [done|lia]].
  - rewrite promote_all_ok.
    + cbn -[compute_snapshot_id]. fold s. split; [split; simpl; [done|lia]|].
      exists v, (Some x). split_and!; [done| |done]. do 2 eexists.
      cbn -[compute_snapshot_id]. fold s. split_and!; try reflexivity. by apply moved_pointers.
    + intros id (p & Hp & _)%(moved_spec _ _ _ Hco). by exists p.
  - split; [split; simpl; [done|lia]|]. exists v, None. split_and!; [done| |done]. do 2 eexists.
    cbn -[compute_snapshot_id]. fold s. split_and!; try reflexivity.
    symmetry. apply unmoved_pointers; [exact Hco|]. by eapply fallback_none.
Unshelve. all: exact 0%Z || exact EmptyString.
Qed.

Lemma core_replaced n ulids s s' :
  core ulids n s ->
  objects s' = objects s -> versions s' = versions s -> chunks s' = chunks s ->
  purged_versions s' = purged_versions s -> pointers s' = pointers s -> core ulids n s'.
Proof.
  intros [Ho Hp Hv Hg Hc Hr] E1 E2 E3 E4 E5. split; unfold good_target, live, total in *;
    rewrite ?E1, ?E2, ?E3, ?E4, ?E5; assumption.
Qed.

Lemma wf_keyed (w : W) : wf w -> keyed (FsWorld.store w).
Proof. intros [_ [Hco _]]. by eapply core_keyed. Qed.

(** *** The version that takes the place of another *)
Definition elsewhere (s : t) (v : Version.t) (kind : PointerKind.t) (p : Pointer.t) : Prop :=
  pointers s !! Pointer.pointer_id p = Some p /\ Pointer.object_id p = Version.object_id v /\
  Pointer.kind p = kind /\ Pointer.current_version_id p <> Version.version_id v.
Definition is_verified (s : t) (vid : string) : Prop :=
  exists v, versions s !! vid = Some v /\ Version.state v = VersionState.Verified.
(** [x] is where the first of the pointers [P] leads. *)
Definition first_leads (P : Pointer.t -> Prop) (x : string) : Prop :=
  exists p, P p /\ Pointer.current_version_id p = x /\
    forall q, P q -> String.le (Pointer.pointer_id p) (Pointer.pointer_id q).
Definition first_parent (s : t) (v : Version.t) (x : string) : Prop :=
  exists before after, Version.parent_version_ids v = before ++ x :: after /\ is_verified s x /\
    forall y, y ∈ before -> ~ is_verified s y.
(** The target of the first rollback pointer of the object that is not at [v], or
    of its first stable pointer, or the first verified parent. *)
Definition replacement (s : t) (v : Version.t) (x : string) : Prop :=
  (exists v1, versions s !! x = Some v1 /\ Version.object_id v1 = Version.object_id v) /\
  (first_leads (elsewhere s v PointerKind.Rollback) x \/
   (forall p, ~ elsewhere s v PointerKind.Rollback p) /\
   (first_leads (elsewhere s v PointerKind.Stable) x \/
    (forall p, ~ elsewhere s v PointerKind.Stable p) /\ first_parent s v x)).

Lemma version_for_spec s oid x : keyed s ->
  match version_for_object s oid x with
  | Ok v => versions s !! x = Some v /\ Version.object_id v = oid /\ Version.version_id v = x
  | Err e => e = FsError.VersionNotFound x
  end.
Proof.
  intros [_ Hk]. unfold version_for_object. destruct (versions s !! x) as [v|] eqn:Hv; cbn; [|done].
  destruct (String.eqb_spec (Version.object_id v) oid); cbn; [|done]. by rewrite (Hk x v Hv).
Qed.

#[local] Instance pointer_total : Total (fun a b => Is_true (pointer_id_le a b)).
Proof. intros a b. apply (base.total String.le). Qed.
#[local] Instance pointer_trans : Transitive (fun a b => Is_true (pointer_id_le a b)).
Proof. intros a b c. apply (transitivity (R := String.le)). Qed.

Lemma target_spec s v kind : keyed s ->
  match pointer_target_for_kind s (Version.object_id v) kind (Version.version_id v) with
  | Ok (Some x) => first_leads (elsewhere s v kind) x /\
      exists v1, versions s !! x = Some v1 /\ Version.object_id v1 = Version.object_id v
  | Ok None => forall p, ~ elsewhere s v kind p
  | Err e => exists x, e = FsError.VersionNotFound x
  end.
Proof.
  intros Hk. unfold pointer_target_for_kind. set (l := filter _ _).
  assert (forall p, p ∈ l <-> elsewhere s v kind p) as Hl.
  { intros p. unfold l, elsewhere. rewrite list_elem_of_filter, list_elem_of_fmap. split.
    - intros [(? & ? & ?) ([k q] & -> & Hin%elem_of_map_to_list)]. cbn in *. by rewrite (proj1 Hk k q Hin).
    - intros (Hp & ? & ? & ?). split; [done|]. exists (Pointer.pointer_id p, p). by rewrite elem_of_map_to_list. }
  pose proof (StronglySorted_merge_sort (fun a b => Is_true (pointer_id_le a b)) l) as Hs.
  pose proof (merge_sort_Permutation (fun a b => Is_true (pointer_id_le a b)) l) as Hp.
  destruct (merge_sort _ l) as [|p l'].
  { intros p Hel%Hl. rewrite <- Hp in Hel. by apply elem_of_nil in Hel. }
  assert (elsewhere s v kind p) as Hel by (apply Hl; rewrite <- Hp; left).
  pose proof (version_for_spec s (Version.object_id v) (Pointer.current_version_id p) Hk) as Hv.
  destruct (version_for_object _ _ _) as [v1|e]; cbn; [|by eexists]. destruct Hv as (Hv & Ho & ->).
  split; [|by exists v1]. exists p. split_and!; [done|done|]. intros q Hq%Hl. rewrite <- Hp in Hq.
  apply StronglySorted_inv in Hs as [_ Hs]. rewrite Forall_forall in Hs.
  apply elem_of_cons in Hq as [->|Hq]; [apply (reflexivity (R := String.le))|exact (Hs q Hq)].
Qed.

Lemma parent_spec s v : keyed s ->
  match prior_verified_parent s v with
  | Ok (Some x) => first_parent s v x /\ exists v1, versions s !! x = Some v1 /\ Version.object_id v1 = Version.object_id v
  | Ok None => forall x, ~ first_parent s v x
  | Err e => exists x, e = FsError.VersionNotFound x
  end.
Proof.
  intros Hk. unfold prior_verified_parent.
  assert (forall seen rest, Version.parent_version_ids v = seen ++ rest -> (forall y, y ∈ seen -> ~ is_verified s y) ->
    match first_verified s (Version.object_id v) rest with
    | Ok (Some x) => first_parent s v x /\ exists v1, versions s !! x = Some v1 /\ Version.object_id v1 = Version.object_id v
    | Ok None => forall x, ~ first_parent s v x
    | Err e => exists x, e = FsError.VersionNotFound x
    end) as Hx; [|apply (Hx [] _ eq_refl); by intros y ?%elem_of_nil].
  intros seen rest. revert seen. induction rest as [|p rest IH]; intros seen Hpar Hseen; cbn.
  - intros x (before & after & Hb & Hx & _). rewrite Hpar, app_nil_r in Hb. apply (Hseen x); [|done]. rewrite Hb. set_solver.
  - pose proof (version_for_spec s (Version.object_id v) p Hk) as Hv.
    destruct (version_for_object _ _ _) as [v1|e]; cbn; [|by eexists]. destruct Hv as (Hv & Ho & Hi).
    case_bool_decide as Hst.
    + rewrite Hi. split; [|by exists v1]. exists seen, rest. split_and!; [done|by exists v1|done].
    + apply (IH (seen ++ [p])); [by rewrite <- app_assoc|]. intros y [Hy| ->%list_elem_of_singleton]%elem_of_app; [by apply Hseen|].
      intros (v2 & Hv2 & Hs2). congruence.
Qed.

Lemma fallback_spec s v : keyed s ->
  match quarantine_pointer_fallback s v with
  | Ok (Some x) => replacement s v x
  | Ok None => forall x, ~ replacement s v x
  | Err e => exists x, e = FsError.VersionNotFound x
  end.
Proof.
  intros Hk. unfold quarantine_pointer_fallback, replacement, first_leads.
  pose proof (target_spec s v PointerKind.Rollback Hk) as Hr.
  destruct (pointer_target_for_kind _ _ PointerKind.Rollback _) as [[x|]|e]; cbn; [by split; [|left]; apply Hr| |done].
  pose proof (target_spec s v PointerKind.Stable Hk) as Hs.
  destruct (pointer_target_for_kind _ _ PointerKind.Stable _) as [[x|]|e]; cbn;
    [by split; [apply Hs|right; split; [exact Hr|left; apply Hs]]| |done].
  pose proof (parent_spec s v Hk) as Hp.
  destruct (prior_verified_parent s v) as [[x|]|e]; [|naive_solver|done].
  split; [apply Hp|]. right. split; [exact Hr|]. right. split; [exact Hs|apply Hp].
Qed.

(** What the guard of an entry answers. *)
Lemma entry_guard_spec s vid : keyed s ->
  match entry_guard s vid with
  | Ok (v, x) => versions s !! vid = Some v /\ Version.state v <> VersionState.Quarantined /\
      match x with
      | Some x => replacement s v x
      | None => forall p, pointers s !! Pointer.pointer_id p = Some p -> followed (Pointer.kind p) ->
                  Pointer.current_version_id p <> vid
      end
  | Err e =>
      (e = FsError.VersionNotFound vid /\ versions s !! vid = None) \/
      exists v, versions s !! vid = Some v /\
        ((e = FsError.QuarantineAlreadyApplied vid /\ Version.state v = VersionState.Quarantined) \/
         (e = FsError.NoPriorStablePointer (Version.object_id v) /\ forall x, ~ replacement s v x) \/
         exists x, e = FsError.VersionNotFound x)
  end.
Proof.
  intros Hk. unfold entry_guard. destruct (versions s !! vid) as [v|] eqn:Hv; cbn; [|by left].
  case_bool_decide as Hq; [right; exists v; by auto|]. unfold fallback_for.
  destruct (current_or_stable_pointers_to s vid) as [|a l] eqn:Ha; cbn.
  { split_and!; [done|done|]. intros p Hp Hf Hc.
    assert (Pointer.pointer_id p ∈ current_or_stable_pointers_to s vid) as Hin by (apply moved_spec; [done|]; by exists p).
    rewrite Ha in Hin. by apply elem_of_nil in Hin. }
  pose proof (fallback_spec s v Hk) as Hf. destruct (quarantine_pointer_fallback s v) as [[x|]|e]; cbn; [done| |].
  - right. exists v. auto.
  - right. exists v. auto.
Qed.

(** The target of the pointers is a verified parent, unless there are none. *)
Lemma entry_target ulids n s vid v x :
  core ulids n s -> entry_guard s vid = Ok (v, x) ->
  versions s !! vid = Some v /\ Version.state v <> VersionState.Quarantined /\
  match x with
  | Some x => x ∈ Version.parent_version_ids v /\ good_target s (Version.object_id v) x
  | None => current_or_stable_pointers_to s vid = []
  end.
Proof.
  intros Hco (v' & Hv%ok_or_ok & Hg)%result_bind_ok. case_bool_decide as Hq; [done|].
  apply result_bind_ok in Hg as (x' & Hx & Heq). apply ok_inj in Heq. injection Heq as <- <-.
  split_and!; [done|done|]. destruct x' as [x'|]; [|by eapply fallback_none].
  unfold fallback_for in Hx. destruct (current_or_stable_pointers_to s vid) as [|a l]; [done|].
  rewrite (fallback_parent ulids n) in Hx by done.
  apply result_bind_ok in Hx as ([y|] & Hy & Hx); [|done]. apply ok_inj in Hx. injection Hx as ->.
  by apply (first_verified_some ulids n) in Hy.
Qed.
(** Among [CURRENT] pointers the version alone decides. *)
Lemma redirect_current ulids n s vid x now tx k p : core ulids n s -> pointers s !! k = Some p ->
  redirect vid x now tx p =
    if decide (Pointer.current_version_id p = vid) then Pointer.promote x now tx p else p.
Proof.
  intros Hco Hp. destruct (wf_pointers _ _ _ Hco k p Hp) as (_ & _ & Hk & _). unfold redirect.
  apply decide_ext. rewrite Hk. naive_solver.
Qed.
Lemma redirect_core ulids n s vid v x now tx :
  core ulids n s -> entry_guard s vid = Ok (v, x) ->
  core ulids n (set_pointers (redirect vid (default vid x) now tx <$> pointers s) s) /\
  forall k p, pointers s !! k = Some p ->
    Pointer.current_version_id (redirect vid (default vid x) now tx p) <> vid.
Proof.
  intros Hco Hg. destruct (entry_target _ _ _ _ _ _ Hco Hg) as (Hv & Hq & Hx).
  destruct (wf_versions _ _ _ Hco vid v Hv) as (_ & _ & Hpar).
  destruct x as [x|]; simpl.
  - destruct Hx as [Hin Ht]. assert (x <> vid) as Hne by (intros ->; done). split.
    + eapply core_set_pointers; [done|exact Ht| |].
      * intros k p'. rewrite lookup_fmap. intros (p & Hp & ->)%fmap_Some_1.
        rewrite (redirect_current ulids n s vid x now tx k) by done.
        case_decide as Hc; [right|by left]. exists p, now, tx. split_and!; [done| |done].
        destruct (wf_pointers _ _ _ Hco k p Hp) as (_ & _ & _ & _ & v' & Hv' & ? & _). congruence.
      * intros k [p Hp]. rewrite lookup_fmap, Hp. by eexists.
    + intros k p Hp. rewrite (redirect_current ulids n s vid x now tx k) by done. case_decide; [done|done].
  - rewrite unmoved_pointers by (done || by eapply core_keyed). split; [by eapply core_replaced|].
    intros k p Hp. rewrite (redirect_current ulids n s vid vid now tx k) by done. case_decide as Hc; [exfalso|done].
    assert (k ∈ current_or_stable_pointers_to s vid) as Hk by (apply (affected_spec ulids n); eauto).
    rewrite Hx in Hk. by apply elem_of_nil in Hk.
Qed.

Lemma entered_core ulids n s s' vid reason v x :
  core ulids n s -> vid ∉ purged_versions s -> entry_guard s vid = Ok (v, x) ->
  entered vid reason x s s' -> core ulids n s'.
Proof.
  intros Hco Hnp Hg (now & tx & Ev & Ep & Eo & Ec & Eg & _ & _).
  destruct (redirect_core _ _ _ _ _ _ now tx Hco Hg) as [Hco1 Hno].
  eapply core_replaced; [eapply (core_set_state _ _ vid VersionState.Quarantined (Some now) (Some reason));
    [exact Hco1|done|]| |exact Ev| | |]; [|done..].
  intros k p Hk. simpl in Hk. rewrite lookup_fmap in Hk. apply fmap_Some_1 in Hk as (q & Hq & ->).
  by eapply Hno.
Qed.

Lemma entry_wf vid trigger reason (w : W) :
  wf w -> vid ∉ purged_versions (FsWorld.store w) ->
  wf (apply_quarantine_entry vid trigger reason w).2.
Proof.
  intros Hwf Hnp. pose proof (entry_post vid trigger reason w (wf_keyed w Hwf)) as Hp. unfold post in Hp.
  destruct (apply_quarantine_entry _ _ _ w) as [[r|e] w']; simpl.
  - destruct Hp as (Hl & v & x & Hg & He & _). eapply wf_store; [done|done| |by destruct He as (? & ? & ? & ? & ? & ? & ? & ? & ?)].
    destruct Hl as [Hu Hd], Hwf as [_ [Hco _]]. rewrite Hu. eapply core_mono; [exact Hd|]. by eapply entered_core.
  - destruct Hp as (_ & Hs & Hl). by eapply wf_later.
Qed.

(** ** Leaving quarantine *)
Definition exit_guard (s : t) (vid : string) : result FsError.t () :=
  let? v := ok_or (versions s !! vid) (FsError.VersionNotFound vid) in
  if negb (bool_decide (Version.state v = VersionState.Quarantined))
  then Err (FsError.QuarantineNotApplied vid) else Ok ().

(** What a step that only sets a version's state leaves. *)
Definition restated (vid : string) (st : VersionState.t) (s s' : t) : Prop :=
  versions s' = alter (Version.set_state st None None) vid (versions s) /\
  pointers s' = pointers s /\ objects s' = objects s /\ transactions s' = transactions s /\
  head s' = Some (compute_snapshot_id s').

Lemma exit_post vid d operator (w : W) :
  post (apply_quarantine_exit vid d operator)
    (fun r w' => later w w' /\ exit_guard (FsWorld.store w) vid = Ok () /\
       restated vid (exit_state d) (FsWorld.store w) (FsWorld.store w') /\
       chunks (FsWorld.store w') = chunks (FsWorld.store w) /\
       purged_versions (FsWorld.store w') = purged_versions (FsWorld.store w) /\
       QuarantineReceipt.disposition r = Some d)
    (fun e w' => exit_guard (FsWorld.store w) vid = Err e /\
       FsWorld.store w' = FsWorld.store w /\ later w w') w.
Proof.
  unfold apply_quarantine_exit, exit_guard. set (s := FsWorld.store w).
  unfold post, mbind_, get, lift, fs_now. fold s. cbn -[compute_snapshot_id].
  destruct (versions s !! vid) as [v|] eqn:Hv; cbn -[compute_snapshot_id]; [|done].
  case_bool_decide as Hq; cbn -[compute_snapshot_id]; [|done].
  fold s. split_and!; try done; split; simpl; [done|lia].
Qed.

Lemma exit_wf vid d operator (w : W) : wf w -> wf (apply_quarantine_exit vid d operator w).2.
Proof.
  intros Hwf. pose proof (exit_post vid d operator w) as Hp. unfold post in Hp.
  destruct (apply_quarantine_exit _ _ _ w) as [[r|e] w']; simpl.
  2: { destruct Hp as (_ & Hs & Hl). by eapply wf_later. }
  destruct Hp as (Hl & Hg & (Ev & Ep & Eo & _ & Eh) & Ec & Eg & _).
  eapply wf_store; [done|done| |done].
  destruct Hl as [Hu Hd], Hwf as [_ [Hco _]]. rewrite Hu. eapply core_mono; [exact Hd|].
  apply result_bind_ok in Hg as (v & Hv%ok_or_ok & Hg). case_bool_decide as Hq; [|done].
  eapply core_replaced; [eapply (core_set_state _ _ vid (exit_state d) None None); [exact Hco| |]| |exact Ev| | |]; try done.
  - intros Hk. destruct (wf_purged _ _ _ Hco vid Hk) as (v' & Hv' & ?). congruence.
  - intros k p Hk He. destruct (wf_pointers _ _ _ Hco k p Hk) as (_ & _ & _ & _ & v' & Hv' & _ & ?).
    congruence.
Qed.
End Ops.
End FsMove.
