(* ===== verification/FsCollect.v ===== *)
(** * File system: what a collection pass does

    Purging and reclaiming, the two loops of [GcPassDriver::run_pass] over the
    in-memory store, and the effect of a whole pass. *)
From stdpp Require Import sorting.
From S2P Require Import Prelude Collections Json Ids Records Redaction Receipt StateError FsTypes FsStore FsSound FsMove.

Module FsCollect.
Import InMemoryAiosFs FsInv FsSound FsRun FsMove.

(** No chunk is referenced more often than its counter can say. *)
Definition bounded (s : t) : Prop := forall c, (Z.of_nat (total s c) <= u32_max)%Z.

Lemma bounded_by_size s :
  (Z.of_nat (map_sum (fun _ v => length (Version.chunk_refs v)) (versions s)) <= u32_max)%Z -> bounded s.
Proof.
  intros Hs c. unfold total.
  pose proof (map_sum_le (fun _ v => occ c (Version.chunk_refs v))
    (fun _ v => length (Version.chunk_refs v)) (versions s)) as Hle.
  specialize (Hle ltac:(intros; apply length_filter)). lia.
Qed.

Definition retired (s : t) (vid : string) : Prop :=
  exists v, versions s !! vid = Some v /\ Version.state v = VersionState.RetiredVersion.

(** The versions [vids] are purged: their state is set again, their references
    dropped; nothing else changes. *)
Record purging (vids : gset string) (s s' : t) : Prop := {
  pu_objects : objects s' = objects s;
  pu_pointers : pointers s' = pointers s;
  pu_transactions : transactions s' = transactions s;
  pu_versions k : versions s' !! k
    = (if decide (k ∈ vids) then Version.set_state VersionState.RetiredVersion None None <$> versions s !! k
       else versions s !! k);
  pu_purged : purged_versions s' = vids ∪ purged_versions s;
  pu_chunks k : is_Some (chunks s' !! k) <-> is_Some (chunks s !! k);
}.

Lemma purging_refl s : purging ∅ s s.
Proof.
  split; [done..| | |done].
  - intros k. by rewrite decide_False by set_solver.
  - by rewrite union_empty_l_L.
Qed.

Lemma purging_trans A B s s' s'' : purging A s s' -> purging B s' s'' -> purging (B ∪ A) s s''.
Proof.
  intros [O1 P1 T1 V1 G1 C1] [O2 P2 T2 V2 G2 C2]. split; [congruence..| | |].
  - intros k. rewrite V2, V1.
    destruct (decide (k ∈ B ∪ A)) as [[Hk|Hk]%elem_of_union|[HB HA]%not_elem_of_union].
    + rewrite (decide_True (P := k ∈ B)) by done. case_decide; [|done]. by destruct (versions s !! k).
    + rewrite (decide_True (P := k ∈ A)) by done. case_decide; [|done]. by destruct (versions s !! k).
    + by rewrite !decide_False.
  - by rewrite G2, G1, (assoc_L (∪)).
  - intros k. by rewrite C2.
Qed.

Lemma purging_total A s s' c : purging A s s' -> total s' c = total s c.
Proof.
  intros Hp. unfold total.
  assert (versions s' = map_imap (fun k v => Some (if decide (k ∈ A)
    then Version.set_state VersionState.RetiredVersion None None v else v)) (versions s)) as ->.
  { apply map_eq. intros k. rewrite (pu_versions _ _ _ Hp), map_lookup_imap.
    destruct (versions s !! k); simpl; by case_decide. }
  generalize (versions s). intros m. induction m as [|k v m Hk IH] using map_ind; [by rewrite map_imap_empty|].
  rewrite map_imap_insert_Some with (y := if decide (k ∈ A)
    then Version.set_state VersionState.RetiredVersion None None v else v) by done.
  rewrite !map_sum_insert; [|done|by rewrite map_lookup_imap, Hk]. rewrite IH. by case_decide.
Qed.

Lemma purging_bounded A s s' : purging A s s' -> bounded s -> bounded s'.
Proof. intros Hp Hb c. rewrite (purging_total _ _ _ _ Hp). apply Hb. Qed.

Lemma purging_retired A s s' k : purging A s s' -> retired s' k <-> k ∈ A /\ is_Some (versions s !! k) \/ retired s k.
Proof.
  intros Hp. unfold retired. rewrite (pu_versions _ _ _ Hp).
  destruct (versions s !! k) as [v|]; simpl; case_decide.
  - split; [by eauto|]. by eauto.
  - split; [by eauto|]. intros [[]|]; done.
  - split; [naive_solver|]. intros [[_ []]|(v & ? & _)]; done.
  - split; [naive_solver|]. intros [[_ []]|(v & ? & _)]; done.
Qed.

Section Ops.
Context {L : Type} `{FsEvidenceLog L} `{!FsTexts}.
Abbreviation W := (FsWorld.t InMemoryAiosFs.t L).

Lemma all_known_ok s ids : all_known s ids = Ok () <-> forall id, id ∈ ids -> is_Some (chunks s !! id).
Proof.
  induction ids as [|id ids IH]; simpl.
  - split; [|done]. intros _ id Hid. by apply elem_of_nil in Hid.
  - unfold find_chunk. destruct (chunks s !! id) as [c|] eqn:E; simpl.
    + rewrite IH. split; intros Hall k.
      * intros [->|Hk]%elem_of_cons; [by eexists|by apply Hall].
      * intros Hk. apply Hall. by right.
    + split; [done|]. intros Hall. destruct (Hall id ltac:(apply list_elem_of_here)). congruence.
Qed.

(** Chunks referenced by a version that is not purged are known. *)
Lemma live_pos s vid v c :
  versions s !! vid = Some v -> vid ∉ purged_versions s -> c ∈ Version.chunk_refs v -> 0 < live s c.
Proof.
  intros Hv Hnp Hc. apply occ_pos in Hc. unfold live.
  pose proof (map_sum_lookup_le (fun vid v => if decide (vid ∈ purged_versions s) then 0
    else occ c (Version.chunk_refs v)) (versions s) vid v Hv) as Hle. simpl in Hle.
  rewrite decide_False in Hle by done. lia.
Qed.

Lemma known_of_count s c : (0 < count (chunks s) c)%Z -> is_Some (chunks s !! c).
Proof. unfold count. destruct (chunks s !! c); [by eexists|lia]. Qed.

Lemma refs_known ulids n s vid v c :
  core ulids n s -> bounded s -> versions s !! vid = Some v -> vid ∉ purged_versions s ->
  c ∈ Version.chunk_refs v -> is_Some (chunks s !! c).
Proof.
  intros Hco Hb Hv Hnp Hc. apply known_of_count. rewrite (wf_refs _ _ _ Hco c (Hb c)).
  pose proof (live_pos s vid v c Hv Hnp Hc). lia.
Qed.

Lemma drops_known refs k : forall cs, is_Some (foldl drop_reference cs refs !! k) <-> is_Some (cs !! k).
Proof.
  induction refs as [|id refs IH]; intros cs; [done|]. simpl. rewrite IH. unfold drop_reference.
  destruct (decide (id = k)) as [->|]; [|by rewrite lookup_alter_ne].
  by rewrite lookup_alter_eq, fmap_is_Some.
Qed.
(** ** Purging *)
Definition purge_guard (s : t) (vid : string) : result FsError.t () :=
  if bool_decide (vid ∈ purged_versions s) then Err (FsError.VersionAlreadyPurged vid)
  else
    let? v := ok_or (versions s !! vid) (FsError.VersionNotFound vid) in
    all_known s (Version.chunk_refs v).

Lemma purge_post vid reason (w : W) :
  wf w -> retired (FsWorld.store w) vid ->
  post (purge_version vid reason)
    (fun _ w' => purge_guard (FsWorld.store w) vid = Ok () /\ wf w' /\ later w w' /\
       purging {[vid]} (FsWorld.store w) (FsWorld.store w'))
    (fun e w' => purge_guard (FsWorld.store w) vid = Err e /\ w' = w) w.
Proof.
  intros Hwf (v & Hv & Hret). pose proof Hwf as [Hi [Hco _]]. unfold purge_version, purge_guard.
  set (s := FsWorld.store w) in *. unfold post, mbind_, get, lift. fold s.
  case_bool_decide as Hp; [done|]. rewrite Hv. cbn -[compute_snapshot_id].
  destruct (all_known s _) as [[]|e]; [|done]. cbn -[compute_snapshot_id]. fold s.
  split; [done|]. split; [|split; [split; [done|simpl; lia]|]].
  - apply (wf_store w); [done|split; [done|simpl; lia]| |done].
    eapply core_replaced; [by eapply core_purge|done..].
  - split; [done..| | |].
    + intros k. cbn -[compute_snapshot_id]. destruct (decide (k = vid)) as [->|Hne].
      * rewrite lookup_alter_eq, decide_True by (by apply elem_of_singleton). done.
      * rewrite lookup_alter_ne, decide_False by (done || by intros ?%elem_of_singleton). done.
    + done.
    + intros k. apply drops_known.
Qed.

Lemma purge_guard_ok ulids n s vid :
  core ulids n s -> bounded s -> retired s vid -> vid ∉ purged_versions s -> purge_guard s vid = Ok ().
Proof.
  intros Hco Hb (v & Hv & _) Hnp. unfold purge_guard. rewrite bool_decide_false, Hv by done. simpl.
  apply all_known_ok. intros c Hc. by eapply refs_known.
Qed.

#[local] Existing Instance in_memory_mutable.

(** What any run of the loop keeps: only listed versions are purged. *)
Definition purged_among (ids : list string) (w w' : W) : Prop :=
  wf w' /\ later w w' /\ exists A, (forall id, id ∈ A -> id ∈ ids) /\
    purging A (FsWorld.store w) (FsWorld.store w').

Lemma purged_among_refl ids w : wf w -> purged_among ids w w.
Proof.
  intros Hwf. split_and!; [done|apply later_refl|]. exists ∅. split; [set_solver|apply purging_refl].
Qed.
Lemma purged_among_tail id ids w w' : purged_among ids w w' -> purged_among (id :: ids) w w'.
Proof.
  intros (Hwf & Hl & A & HA & Hp). split_and!; [done|done|]. exists A. split; [|done].
  intros k Hk. right. by apply HA.
Qed.
Lemma purged_among_cons id ids w w1 w2 :
  later w w1 -> purging {[id]} (FsWorld.store w) (FsWorld.store w1) -> purged_among ids w1 w2 ->
  purged_among (id :: ids) w w2.
Proof.
  intros Hl1 Hp1 (Hwf & Hl2 & A & HA & Hp2). split_and!; [done|by eapply later_trans|].
  exists (A ∪ {[id]}). split; [|by eapply purging_trans].
  intros k [Hk| ->%elem_of_singleton]%elem_of_union; [right; by apply HA|apply list_elem_of_here].
Qed.

Lemma purge_loop_keeps ids : forall n rs (w : W),
  wf w -> (forall id, id ∈ ids -> retired (FsWorld.store w) id) ->
  post (purge_loop ids n rs) (fun _ => purged_among ids w) (fun _ => purged_among ids w) w.
Proof.
  induction ids as [|id ids IH]; intros n rs w Hwf Hret; [by apply purged_among_refl|].
  cbn [purge_loop]. unfold post. simpl fs_purge_version.
  pose proof (purge_post id PurgeRetired w Hwf (Hret id ltac:(apply list_elem_of_here))) as Hp.
  unfold post in Hp. destruct (purge_version id PurgeRetired w) as [[refs|e] w1].
  - destruct Hp as (_ & Hwf1 & Hl1 & Hpu).
    assert (forall k, k ∈ ids -> retired (FsWorld.store w1) k) as Hret1.
    { intros k Hk. apply (purging_retired _ _ _ _ Hpu). right. apply Hret. by right. }
    specialize (IH (n + 1)%Z (rs ++ [VersionPurged id PurgeRetired]) w1 Hwf1 Hret1). unfold post in IH.
    destruct (purge_loop ids _ _ w1) as [[r|e] w2]; by eapply purged_among_cons.
  - destruct Hp as [Hg ->].
    specialize (IH n rs w Hwf ltac:(intros; apply Hret; by right)). unfold post in IH.
    destruct e; try by apply purged_among_refl.
    destruct (purge_loop ids _ _ w) as [[r|e] w2]; by apply purged_among_tail.
Qed.

(** While the counters are exact, it purges all of them. *)
Lemma purge_loop_exact ids : forall n rs (w : W),
  wf w -> bounded (FsWorld.store w) -> NoDup ids ->
  (forall id, id ∈ ids -> retired (FsWorld.store w) id /\ id ∉ purged_versions (FsWorld.store w)) ->
  exists w', purge_loop ids n rs w
      = (Ok (n + Z.of_nat (length ids), rs ++ ((fun id => VersionPurged id PurgeRetired) <$> ids))%Z, w') /\
    wf w' /\ later w w' /\ purging (list_to_set ids) (FsWorld.store w) (FsWorld.store w').
Proof.
  induction ids as [|id ids IH]; intros n rs w Hwf Hb Hnd Hids.
  { exists w. split_and!; [|done|apply later_refl|apply purging_refl].
    simpl. by rewrite app_nil_r, Z.add_0_r. }
  destruct (Hids id ltac:(apply list_elem_of_here)) as [Hr Hnp]. apply NoDup_cons in Hnd as [Hni Hnd].
  cbn [purge_loop]. simpl fs_purge_version. pose proof (purge_post id PurgeRetired w Hwf Hr) as Hp.
  unfold post in Hp. pose proof Hwf as [_ [Hco _]].
  rewrite (purge_guard_ok _ _ _ id Hco Hb Hr Hnp) in Hp.
  destruct (purge_version id PurgeRetired w) as [[refs|e] w1]; [|by destruct Hp].
  destruct Hp as (_ & Hwf1 & Hl1 & Hpu).
  destruct (IH (n + 1)%Z (rs ++ [VersionPurged id PurgeRetired]) w1 Hwf1) as (w2 & -> & Hwf2 & Hl2 & Hpu2).
  - by eapply purging_bounded.
  - done.
  - intros k Hk. destruct (Hids k ltac:(by right)) as [Hrk Hnk]. split.
    + apply (purging_retired _ _ _ _ Hpu). by right.
    + rewrite (pu_purged _ _ _ Hpu). intros [->%elem_of_singleton|]%elem_of_union; done.
  - exists w2. split_and!; [|done|by eapply later_trans|].
    + rewrite <- (assoc_L (++)). simpl. do 3 f_equal. lia.
    + simpl. rewrite (comm_L (∪)). by eapply purging_trans.
Qed.

(** ** Reclaiming *)
Definition unreferenced (s : t) (c : string) : Prop :=
  exists x, chunks s !! c = Some x /\ Chunk.ref_count x = 0%Z.

Record reclaiming (cids : gset string) (s s' : t) : Prop := {
  re_objects : objects s' = objects s;
  re_pointers : pointers s' = pointers s;
  re_transactions : transactions s' = transactions s;
  re_versions : versions s' = versions s;
  re_purged : purged_versions s' = purged_versions s;
  re_chunks k : chunks s' !! k = if decide (k ∈ cids) then None else chunks s !! k;
}.

Lemma reclaim_ok c (w : W) :
  wf w -> unreferenced (FsWorld.store w) c ->
  exists w', reclaim_chunk c w = (Ok (), w') /\ wf w' /\ later w w' /\
    reclaiming {[c]} (FsWorld.store w) (FsWorld.store w').
Proof.
  intros Hwf (x & Hx & Hz). unfold reclaim_chunk, find_chunk. set (s := FsWorld.store w) in *.
  unfold mbind_, get, lift. fold s. rewrite Hx. cbn -[compute_snapshot_id]. rewrite Hz.
  cbn -[compute_snapshot_id]. fold s. eexists. split; [reflexivity|]. split; [|split; [done|]].
  - apply (wf_store w); [done|done| |done]. destruct Hwf as [_ [Hco _]].
    eapply core_replaced; [by eapply core_reclaim|done..].
  - split; [done..|]. intros k. cbn -[compute_snapshot_id]. destruct (decide (k = c)) as [->|Hne].
    + by rewrite lookup_delete_eq, decide_True by (by apply elem_of_singleton).
    + by rewrite lookup_delete_ne, decide_False by (done || by intros ?%elem_of_singleton).
Qed.

Lemma reclaim_loop_exact ids : forall n rs (w : W),
  wf w -> NoDup ids -> (forall c, c ∈ ids -> unreferenced (FsWorld.store w) c) ->
  exists w', reclaim_loop ids n rs w
      = (Ok (n + Z.of_nat (length ids), rs ++ (OrphanChunkReclaimed <$> ids))%Z, w') /\
    wf w' /\ later w w' /\ reclaiming (list_to_set ids) (FsWorld.store w) (FsWorld.store w').
Proof.
  induction ids as [|id ids IH]; intros n rs w Hwf Hnd Hids.
  { exists w. split_and!; [|done|apply later_refl|].
    - simpl. by rewrite app_nil_r, Z.add_0_r.
    - split; try done. }
  apply NoDup_cons in Hnd as [Hni Hnd]. cbn [reclaim_loop]. simpl fs_reclaim_chunk.
  destruct (reclaim_ok id w Hwf (Hids id ltac:(apply list_elem_of_here))) as (w1 & -> & Hwf1 & Hl1 & Hr1).
  destruct (IH (n + 1)%Z (rs ++ [OrphanChunkReclaimed id]) w1 Hwf1 Hnd) as (w2 & -> & Hwf2 & Hl2 & Hr2).
  - intros c Hc. destruct (Hids c ltac:(by right)) as (x & Hx & Hz). exists x. split; [|done].
    rewrite (re_chunks _ _ _ Hr1), decide_False; [done|]. intros ->%elem_of_singleton. done.
  - exists w2. split_and!; [|done|by eapply later_trans|].
    + rewrite <- (assoc_L (++)). simpl. do 3 f_equal. lia.
    + destruct Hr1 as [O1 P1 T1 V1 G1 C1], Hr2 as [O2 P2 T2 V2 G2 C2]. split; [congruence..|].
      intros k. rewrite C2, C1. simpl.
      destruct (decide (k ∈ {[id]} ∪ list_to_set ids)) as [[Hk|Hk]%elem_of_union|[HB HA]%not_elem_of_union].
      * rewrite (decide_True (P := k ∈ {[id]})) by done. by case_decide.
      * by rewrite decide_True.
      * by rewrite !decide_False.
Qed.
(** ** The candidates *)
Lemma keyed_nodup {A} (m : gmap string A) (f : A -> string) (P : A -> Prop) `{!forall a, Decision (P a)} :
  (forall k a, m !! k = Some a -> f a = k) -> NoDup (f <$> filter P (map_to_list m).*2).
Proof.
  intros Hf. assert (NoDup (f <$> (map_to_list m).*2)) as Hnd.
  { assert (f <$> (map_to_list m).*2 = (map_to_list m).*1) as ->; [|apply NoDup_fst_map_to_list].
    rewrite <- list_fmap_compose. apply list_fmap_ext. intros i [k a] Hi. simpl. apply Hf.
    apply elem_of_map_to_list. by eapply list_elem_of_lookup_2. }
  apply NoDup_fmap_2_strong; [|by eapply NoDup_filter, NoDup_fmap_1].
  intros a b [_ Ha]%list_elem_of_filter [_ Hb]%list_elem_of_filter.
  apply list_elem_of_fmap in Ha as ([k a'] & -> & Ha%elem_of_map_to_list).
  apply list_elem_of_fmap in Hb as ([j b'] & -> & Hb%elem_of_map_to_list). simpl.
  rewrite (Hf _ _ Ha), (Hf _ _ Hb). intros ->. congruence.
Qed.

Lemma keyed_elem {A} (m : gmap string A) (f : A -> string) (P : A -> Prop) `{!forall a, Decision (P a)} k :
  (forall k a, m !! k = Some a -> f a = k) ->
  k ∈ f <$> filter P (map_to_list m).*2 <-> exists a, m !! k = Some a /\ P a.
Proof.
  intros Hf. rewrite list_elem_of_fmap. split.
  - intros (a & -> & [HP Ha]%list_elem_of_filter).
    apply list_elem_of_fmap in Ha as ([k' a'] & -> & Hl%elem_of_map_to_list). exists a'.
    simpl in *. by rewrite (Hf k' a' Hl).
  - intros (a & Ha & HP). exists a. split; [symmetry; by apply Hf|]. apply list_elem_of_filter.
    split; [done|]. apply list_elem_of_fmap. exists (k, a). split; [done|]. by apply elem_of_map_to_list.
Qed.

Definition retired_candidates (s : t) : list string :=
  sort_strings (Version.version_id <$>
    filter (fun v => Version.state v = VersionState.RetiredVersion /\
                     Version.version_id v ∉ purged_versions s) (map_to_list (versions s)).*2).
Definition orphan_candidates (s : t) : list string :=
  sort_strings (Chunk.chunk_id <$>
    filter (fun c => Chunk.ref_count c = 0%Z) (map_to_list (chunks s)).*2).

Lemma retired_candidates_spec ulids n s :
  core ulids n s -> NoDup (retired_candidates s) /\
  forall id, id ∈ retired_candidates s <-> retired s id /\ id ∉ purged_versions s.
Proof.
  intros Hco. assert (forall k v, versions s !! k = Some v -> Version.version_id v = k) as Hk
    by (intros k v Hv; by apply (wf_versions _ _ _ Hco k v)).
  unfold retired_candidates. split; [rewrite sort_strings_perm; by apply keyed_nodup|].
  intros id. rewrite elem_of_sort_strings, keyed_elem by done. unfold retired. split.
  - intros (v & Hv & Hs & Hn). rewrite (Hk id v Hv) in Hn. eauto.
  - intros [(v & Hv & Hs) Hn]. exists v. by rewrite (Hk id v Hv).
Qed.

Lemma orphan_candidates_spec ulids n s :
  core ulids n s -> NoDup (orphan_candidates s) /\
  forall id, id ∈ orphan_candidates s <-> unreferenced s id.
Proof.
  intros Hco. unfold orphan_candidates. split; [rewrite sort_strings_perm|].
  - apply keyed_nodup. exact (wf_chunks _ _ _ Hco).
  - intros id. by rewrite elem_of_sort_strings, keyed_elem by exact (wf_chunks _ _ _ Hco).
Qed.

(** ** A whole pass *)
(** The versions of [V] are purged, then the chunks of [C] go. *)
Definition pass_effect (max_chunks max_versions : nat) (V C : list string) (s s' : t) : Prop :=
  exists mid, V = take max_versions (retired_candidates s) /\
    C = take max_chunks (orphan_candidates mid) /\
    purging (list_to_set V) s mid /\ reclaiming (list_to_set C) mid s'.

Definition pass_report (V C : list string) (r : GcPassReport.t) : Prop :=
  GcPassReport.versions_inspected r = Z.of_nat (length V) /\
  GcPassReport.versions_purged r = Z.of_nat (length V) /\
  GcPassReport.chunks_inspected r = Z.of_nat (length C) /\
  GcPassReport.chunks_reclaimed r = Z.of_nat (length C) /\
  GcPassReport.reasons r
    = ((fun id => VersionPurged id PurgeRetired) <$> V) ++ (OrphanChunkReclaimed <$> C).

Lemma emit_if_post emitter (emit : FsEvidenceEmitter -> M W FsError.t string) (w : W) :
  (forall em, quiet (emit em)) ->
  post (emit_if emitter emit)
    (fun _ w' => FsWorld.store w' = FsWorld.store w /\ same_env 0 w w')
    (fun e w' => refused e /\ FsWorld.store w' = FsWorld.store w /\ same_env 0 w w') w.
Proof.
  intros Hq. destruct emitter as [em|]; [|done]. simpl.
  eapply post_bind; [apply Hq|]. intros b w' Hw. apply post_ret. exact Hw.
Qed.

Lemma take_nodup {A} n (l : list A) : NoDup l -> NoDup (take n l).
Proof. intros Hl. eapply sublist_NoDup; [exact Hl|apply sublist_take]. Qed.
Lemma elem_of_take_inv {A} n (l : list A) x : x ∈ take n l -> x ∈ l.
Proof. intros Hx. rewrite <- (take_drop n l). apply elem_of_app. by left. Qed.

Lemma run_pass_post emitter max_chunks max_versions (w : W) :
  wf w -> bounded (FsWorld.store w) ->
  let s := FsWorld.store w in
  post (run_pass emitter max_chunks max_versions)
    (fun r w' => wf w' /\ later w w' /\
       exists V C, pass_effect max_chunks max_versions V C s (FsWorld.store w') /\ pass_report V C r)
    (fun e w' => refused e /\ wf w' /\ later w w' /\
       exists V C, pass_effect max_chunks max_versions V C s (FsWorld.store w')) w.
Proof.
  intros Hwf Hb s. unfold run_pass, post.
  unfold mbind_ at 1, fresh. unfold mbind_ at 1, fs_now at 1. unfold mbind_ at 1.
  simpl fs_retired_version_ids_for_gc. unfold retired_version_ids_for_gc, mbind_ at 1, get, ret.
  match goal with |- context [FsWorld.store ?x] =>
    assert (wf x /\ FsWorld.store x = s /\ later w x) as (Hw0 & Hs0 & Hl0);
      [split_and!; [eapply wf_later; [exact Hwf|split; simpl; [done|lia]|done]|done|split; simpl; [done|lia]]|];
    set (w0 := x) in * end.
  rewrite !Hs0. fold (retired_candidates s). set (V := take max_versions (retired_candidates s)).
  pose proof Hw0 as [_ [Hco0 _]]. rewrite Hs0 in Hco0.
  destruct (retired_candidates_spec _ _ _ Hco0) as [Hnd Hin].
  destruct (purge_loop_exact V 0 [] w0) as (w1 & Hrun1 & Hw1 & Hl1 & Hpu).
  - done.
  - by rewrite Hs0.
  - by apply take_nodup.
  - intros id Hid. rewrite Hs0. apply Hin. by eapply elem_of_take_inv.
  - unfold mbind_ at 1. rewrite Hrun1. rewrite Hs0 in Hpu.
    simpl fs_zero_ref_chunk_ids_for_gc. unfold zero_ref_chunk_ids_for_gc, mbind_ at 1 2, get, ret.
    set (mid := FsWorld.store w1) in *. fold (orphan_candidates mid).
    set (C := take max_chunks (orphan_candidates mid)).
    pose proof Hw1 as [_ [Hco1 _]]. destruct (orphan_candidates_spec _ _ _ Hco1) as [Hnd1 Hin1].
    destruct (reclaim_loop_exact C 0 ((fun id => VersionPurged id PurgeRetired) <$> V) w1) as (w2 & Hrun2 & Hw2 & Hl2 & Hre).
    + done.
    + by apply take_nodup.
    + intros id Hid. apply Hin1. by eapply elem_of_take_inv.
    + unfold mbind_ at 1. cbn [fst snd app]. rewrite Hrun2. unfold mbind_ at 1, fs_now at 1.
      match goal with |- context [emit_if emitter ?e] => set (em := e) end.
      match goal with |- context [mbind_ _ _ ?x] => set (w3 := x) end.
      assert (later w w3) as Hl3 by (eapply later_trans; [|eapply later_trans]; [exact Hl0|exact Hl1|exact Hl2]).
      assert (pass_effect max_chunks max_versions V C s (FsWorld.store w3)) as Hpe by (by exists mid).
      assert (wf w3) as Hw3 by (by eapply (wf_later w2)).
      pose proof (emit_if_post emitter em w3 ltac:(intros; apply emit_quiet)) as He. unfold post in He.
      unfold mbind_. destruct (emit_if emitter em w3) as [[[]|e] w4].
      * destruct He as [Hs4 He4]. rewrite Hs4. split; [by eapply wf_same_env|]. split.
        { destruct Hl3, He4. split; [congruence|lia]. }
        exists V, C. split; [done|]. split_and!; done.
      * destruct He as (Hrf & Hs4 & He4). rewrite Hs4. split; [done|]. split; [by eapply wf_same_env|].
        split; [|by exists V, C]. destruct Hl3, He4. split; [congruence|lia].
Qed.
End Ops.
End FsCollect.
