(* ===== verification/FsProps.v ===== *)
(** * File system: theorems about the store and about queries

    What a reader sees through writes, quarantines and collection passes
    ([FsProps]), and what a query and its view show ([FsViews]). *)
From stdpp Require Import sorting.
From S2P Require Import Prelude Collections Json Ids Records Redaction Receipt StateError FsTypes FsStore FsNamespace FsQuery FsSound FsMove FsCollect.

(** * File system: theorems about the store

    What a reader sees, through writes, quarantines and collection passes. *)

Module FsProps.
Import InMemoryAiosFs FsInv FsSound FsRun FsMove FsCollect.

(** ** Runs *)
Section Runs.
Context {L : Type} `{FsEvidenceLog L} `{!FsTexts}.
Abbreviation W := (FsWorld.t InMemoryAiosFs.t L).
#[local] Existing Instance in_memory_mutable.

(** A step of the store's clients: a write that does not guess identifiers, a
    quarantine of a version that is not purged, its end, a collection pass, and
    the other events that only take time and evidence. *)
Inductive step (emitter : option FsEvidenceEmitter) : W -> W -> Prop :=
| step_write write context w : unforeseen w write ->
    step emitter w (write_object emitter write context w).2
| step_enter vid trigger reason w : vid ∉ purged_versions (FsWorld.store w) ->
    step emitter w (enter emitter vid trigger reason w).2
| step_exit vid d operator w : step emitter w (exit emitter vid d operator w).2
| step_pass max_chunks max_versions w :
    step emitter w (run_pass emitter max_chunks max_versions w).2
| step_conflict trim em object_id summary resolution w :
    step emitter w (emit_conflict_event trim em object_id summary resolution w).2.

(** A service starts on an empty store. *)
Definition initial (w : W) : Prop :=
  Inj (=) (=) (FsWorld.ulids w) /\ exists now, FsWorld.store w = new now.
Definition reachable (emitter : option FsEvidenceEmitter) (w : W) : Prop :=
  exists w0, initial w0 /\ rtc (step emitter) w0 w.

Lemma initial_wf w : initial w -> wf w.
Proof.
  intros [Hi [now Hs]]. split; [done|]. rewrite Hs. split; [|done]. split; done.
Qed.

Lemma emit_if_wf emitter (emit : FsEvidenceEmitter -> M W FsError.t string) w :
  (forall em, quiet (emit em)) -> wf w -> wf (emit_if emitter emit w).2.
Proof.
  intros Hq Hwf. pose proof (emit_if_post emitter emit w Hq) as Hp. unfold post in Hp.
  destruct (emit_if emitter emit w) as [[[]|e] w']; simpl; by eapply wf_same_env; try apply Hp.
Qed.

Lemma preserves_fresh prefix : preserves wf (fresh (F := InMemoryAiosFs.t) (L := L) prefix).
Proof. intros w Hw. eapply wf_later; [exact Hw|split; simpl; [done|lia]|done]. Qed.
Lemma preserves_now : preserves wf (fs_now (F := InMemoryAiosFs.t) (L := L)).
Proof. intros w Hw. by eapply wf_later; [exact Hw|split|]. Qed.

Lemma preserves_emit_if emitter (emit : FsEvidenceEmitter -> M W FsError.t string) :
  (forall em, quiet (emit em)) -> preserves wf (emit_if emitter emit).
Proof. intros Hq w. by apply emit_if_wf. Qed.

(** What the two listings of a pass are. *)
Lemma retired_listing max_versions w : wf w ->
  post (retired_version_ids_for_gc (L := L) max_versions)
    (fun ids w' => w' = w /\ forall id, id ∈ ids -> retired (FsWorld.store w) id) (fun _ _ => False) w.
Proof.
  intros [_ [Hco _]]. destruct (retired_candidates_spec _ _ _ Hco) as [_ Hin].
  split; [done|]. intros id Hid. apply Hin. by eapply elem_of_take_inv.
Qed.
Lemma orphan_listing max_chunks w : wf w ->
  post (zero_ref_chunk_ids_for_gc (L := L) max_chunks)
    (fun ids w' => w' = w /\ NoDup ids /\ forall id, id ∈ ids -> unreferenced (FsWorld.store w) id)
    (fun _ _ => False) w.
Proof.
  intros [_ [Hco _]]. destruct (orphan_candidates_spec _ _ _ Hco) as [Hnd Hin].
  split; [done|]. split; [by apply take_nodup|]. intros id Hid. apply Hin. by eapply elem_of_take_inv.
Qed.

Abbreviation keeps m w := (post m (fun _ => wf) (fun _ => wf) w).

Lemma run_pass_wf emitter max_chunks max_versions w :
  wf w -> wf (run_pass emitter max_chunks max_versions w).2.
Proof.
  intros Hwf. assert (keeps (run_pass emitter max_chunks max_versions) w) as Hp.
  2: { unfold post in Hp. by destruct (run_pass _ _ _ w) as [[r|e] w']. }
  unfold run_pass. eapply post_bind; [by apply post_preserves; [apply preserves_fresh|]|]. clear w Hwf. intros ? w Hw.
  eapply post_bind; [by apply post_preserves; [apply preserves_now|]|]. clear w Hw. intros ? w Hw.
  eapply post_bind; [eapply post_mono; [by apply retired_listing|intros ? ? Hq; exact Hq|done]|].
  intros ids ? [-> Hids].
  eapply (post_bind _ _ (fun _ => wf)).
  { eapply post_mono; [by apply purge_loop_keeps| |]; by intros ? ? [? _]. }
  clear w Hw Hids. intros vs w Hw.
  eapply post_bind; [eapply post_mono; [by apply orphan_listing|intros ? ? Hq; exact Hq|done]|].
  intros cids ? (-> & Hnd & Hc).
  eapply (post_bind _ _ (fun _ => wf)).
  { destruct (reclaim_loop_exact cids 0 vs.2 w Hw Hnd Hc) as (w1 & Hr & Hw1 & _). unfold post. by rewrite Hr. }
  clear w Hw Hc. intros ? w Hw.
  eapply post_bind; [by apply post_preserves; [apply preserves_now|]|]. clear w Hw. intros ? w Hw.
  eapply (post_bind _ _ (fun _ => wf)); [|intros ? ? ?; by apply post_ret].
  apply post_preserves; [|done]. apply preserves_emit_if. intros. apply emit_quiet.
Qed.

Lemma enter_wf emitter vid trigger reason w :
  wf w -> vid ∉ purged_versions (FsWorld.store w) -> wf (enter emitter vid trigger reason w).2.
Proof.
  intros Hwf Hnp. pose proof (entry_wf vid trigger reason w Hwf Hnp) as He. unfold enter.
  simpl fs_apply_quarantine_entry. unfold mbind_ at 1.
  destruct (apply_quarantine_entry vid trigger reason w) as [[r|e] w']; [|done].
  apply preserves_bind; [|intros; apply preserves_ret|done].
  apply preserves_emit_if. intros. apply emit_quiet.
Qed.

Lemma exit_keeps emitter vid d operator w : wf w -> wf (exit emitter vid d operator w).2.
Proof.
  intros Hwf. unfold exit. apply preserves_bind; [intros ? ?; by apply exit_wf| |done].
  intros r. apply preserves_bind; [|intros; apply preserves_ret].
  apply preserves_emit_if. intros. apply emit_quiet.
Qed.

Lemma conflict_wf trim em object_id summary resolution w :
  wf w -> wf (emit_conflict_event trim em object_id summary resolution w).2.
Proof.
  intros Hwf. unfold emit_conflict_event.
  apply preserves_bind; [apply preserves_lift| |done]. intros kind.
  apply preserves_bind; [apply preserves_now|]. intros now w' Hw'.
  pose proof (emit_quiet em RecordType.ConflictEvent None
    (JObject [text "object_id" object_id; text "conflict_summary" summary;
              text "resolution_kind" (ConflictResolutionKind.wire kind);
              text "occurred_at" (datetime_to_json now)]) w') as Hp. unfold post in Hp.
  destruct (fs_emit _ _ _ _ w') as [[r|e] w2]; by eapply wf_same_env; try apply Hp.
Qed.

Lemma fs_step_wf emitter w w' : step emitter w w' -> wf w -> wf w'.
Proof.
  intros [] Hw.
  - by apply write_object_wf.
  - by apply enter_wf.
  - by apply exit_keeps.
  - by apply run_pass_wf.
  - by apply conflict_wf.
Qed.

Lemma reachable_wf emitter w : reachable emitter w -> wf w.
Proof.
  intros (w0 & Hi & Hr). apply initial_wf in Hi. revert Hi.
  induction Hr as [w|w w1 w2 Hs Hr IH]; [done|]. intros Hw. apply IH. by eapply fs_step_wf.
Qed.
(** ** What a reader sees *)
(** The object, its current version and the identifiers of its chunks. *)
Definition view (s : t) (id : string) : option (Object.t * Version.t * list string) :=
  match read s id None with
  | Ok r => Some (ObjectReadResult.object r, ObjectReadResult.version r,
                  Chunk.chunk_id <$> ObjectReadResult.chunks r)
  | Err _ => None
  end.

Definition current (s : t) (id : string) : option (Object.t * Version.t * list string) :=
  o ← objects s !! id;
  p ← pointers s !! Object.current_pointer_id o;
  v ← versions s !! Pointer.current_version_id p;
  Some (o, v, Version.chunk_refs v).

Lemma chunks_found ulids n s vid v :
  core ulids n s -> bounded s -> versions s !! vid = Some v ->
  Version.state v <> VersionState.RetiredVersion ->
  exists cs, try_map (find_chunk s) (Version.chunk_refs v) = Ok cs /\
    Chunk.chunk_id <$> cs = Version.chunk_refs v.
Proof.
  intros Hco Hb Hv Hs.
  assert (vid ∉ purged_versions s) as Hnp.
  { intros Hk. destruct (wf_purged _ _ _ Hco vid Hk) as (v' & ? & ?). congruence. }
  destruct (try_map_ok (find_chunk s) (Version.chunk_refs v)) as (cs & Hcs & Hall).
  { intros c Hc. destruct (refs_known _ _ _ _ _ _ Hco Hb Hv Hnp Hc) as [x Hx]. exists x.
    unfold find_chunk. by rewrite Hx. }
  exists cs. split; [done|]. clear Hcs. induction Hall as [|c x l xs Hc Hall IH]; [done|].
  simpl. f_equal; [|done]. apply ok_or_ok in Hc. by apply (wf_chunks _ _ _ Hco).
Qed.

Lemma read_current ulids n s id o sid :
  core ulids n s -> bounded s -> objects s !! id = Some o ->
  ensure_snapshot_current sid (head_snapshot_id s) = Ok () ->
  exists p v cs, pointers s !! Object.current_pointer_id o = Some p /\
    versions s !! Pointer.current_version_id p = Some v /\ Version.object_id v = id /\
    Version.state v = VersionState.Verified /\ Chunk.chunk_id <$> cs = Version.chunk_refs v /\
    read s id sid = Ok {| ObjectReadResult.object := o; ObjectReadResult.version := v;
      ObjectReadResult.chunks := cs; ObjectReadResult.snapshot_id := head_snapshot_id s |}.
Proof.
  intros Hco Hb Ho Hsid. destruct (wf_objects _ _ _ Hco id o Ho) as (_ & _ & p & Hp & Hpo).
  destruct (wf_pointers _ _ _ Hco _ p Hp) as (_ & _ & _ & _ & v & Hv & Hvo & Hvs).
  destruct (chunks_found _ _ _ _ v Hco Hb Hv ltac:(by rewrite Hvs)) as (cs & Hcs & Hids).
  exists p, v, cs. split_and!; try done; [congruence|].
  unfold read. rewrite Hsid. simpl. rewrite Ho. simpl. rewrite Hp. simpl. rewrite Hv. simpl.
  unfold deny_quarantined_read_unless_recovery. rewrite Hvs. simpl. by rewrite Hcs.
Qed.

Lemma view_current ulids n s id : core ulids n s -> bounded s -> view s id = current s id.
Proof.
  intros Hco Hb. unfold view, current. destruct (objects s !! id) as [o|] eqn:Ho.
  - destruct (read_current _ _ _ id o None Hco Hb Ho eq_refl) as (p & v & cs & Hp & Hv & _ & _ & Hids & Hr).
    rewrite Hr. simpl. by rewrite Hp; simpl; rewrite Hv, Hids.
  - unfold read. simpl. by rewrite Ho.
Qed.

(** C32: objects stay readable.  After any run of writes (whose parents name no
    identifier still to be drawn), quarantines of versions that are not purged,
    releases and collection passes on a fresh store, reading any object at the
    head snapshot succeeds, as long as no chunk is referenced more often than its
    32-bit counter can say: the answer is a verified version of that very object,
    with every one of its chunks.  (Quarantining a purged version can bring it
    back without its data, see [purged_version_returns].) *)
Theorem objects_stay_readable emitter w id o :
  reachable emitter w -> bounded (FsWorld.store w) -> objects (FsWorld.store w) !! id = Some o ->
  exists r, read_object id (Some (compute_snapshot_id (FsWorld.store w))) w = (Ok r, w) /\
    ObjectReadResult.object r = o /\ Version.object_id (ObjectReadResult.version r) = id /\
    Version.state (ObjectReadResult.version r) = VersionState.Verified /\
    Chunk.chunk_id <$> ObjectReadResult.chunks r = Version.chunk_refs (ObjectReadResult.version r).
Proof.
  intros Hr Hb Ho. apply reachable_wf in Hr. pose proof (wf_head w Hr) as Hh. destruct Hr as [_ [Hco _]].
  destruct (read_current _ _ _ id o (Some (compute_snapshot_id (FsWorld.store w))) Hco Hb Ho)
    as (p & v & cs & Hp & Hv & Hvo & Hvs & Hids & Hrd).
  { unfold ensure_snapshot_current. by rewrite Hh, String.eqb_refl. }
  eexists. split; [unfold read_object, mbind_, get, lift; by rewrite Hrd|]. done.
Qed.

(** The versions and the object that a write leaves behind. *)
Lemma written_current write oid vid pid s s' id :
  written write oid vid pid s s' -> versions s !! vid = None ->
  (forall k ob, objects s !! k = Some ob -> k <> oid -> Object.current_pointer_id ob <> pid) ->
  (forall k p, pointers s !! k = Some p -> is_Some (versions s !! Pointer.current_version_id p)) ->
  id <> oid -> current s' id = current s id.
Proof.
  intros [(v & Hv & _) _ _ (o & Ho & _) (p & Hp & _)] Hf Hpid Hcur Hne.
  unfold current. rewrite Ho, lookup_insert_ne by done. destruct (objects s !! id) as [ob|] eqn:Hob; [|done].
  simpl. rewrite Hp, lookup_insert_ne by (intros E; by eapply (Hpid id ob)).
  destruct (pointers s !! _) as [q|] eqn:Hq; [|done]. simpl. rewrite Hv, lookup_insert_ne; [done|].
  intros He. destruct (Hcur _ q Hq) as [x Hx]. congruence.
Qed.
Lemma written_total write oid vid pid s s' c :
  written write oid vid pid s s' -> versions s !! vid = None ->
  total s' c = occ c (ObjectWriteRequest.chunks write) + total s c.
Proof.
  intros [(v & Hv & _ & _ & _ & Hr & _) _ _ _ _] Hf. unfold total. by rewrite Hv, map_sum_insert, Hr by done.
Qed.

(** The object that is written now has the new version, which says what the
    request said; its creation is only new for an object that is new. *)
Lemma written_self write oid vid pid s s' :
  written write oid vid pid s s' ->
  exists o v, current s' oid = Some (o, v, ObjectWriteRequest.chunks write) /\
    Version.version_id v = vid /\
    Version.parent_version_ids v = ObjectWriteRequest.parent_version_ids write /\
    Version.metadata_delta v = ObjectWriteRequest.metadata_delta write /\
    Version.content_hash v = content_hash_for_chunk_refs (ObjectWriteRequest.chunks write).
Proof.
  intros [(v & Hv & Hvid & _ & Hpar & Hr & Hh & Hd & _) _ _ (o & Ho & _ & Hcur) (p & Hp & _ & _ & _ & Hpv)].
  exists o, v. unfold current. rewrite Ho, lookup_insert_eq. simpl.
  rewrite Hcur, Hp, lookup_insert_eq. simpl. rewrite Hpv, Hv, lookup_insert_eq. simpl. by rewrite Hr.
Qed.

(** No other object has the pointer of the object that is written. *)
Lemma addressed_pointer write (w : W) oid pid k ob :
  wf w -> addressed w write oid pid -> objects (FsWorld.store w) !! k = Some ob -> k <> oid ->
  Object.current_pointer_id ob <> pid.
Proof.
  intros [Hi [Hco _]] Ha Hk Hne He. unfold addressed in Ha.
  destruct (wf_objects _ _ _ Hco k ob Hk) as (_ & _ & p & Hp & Hpo).
  destruct (ObjectWriteRequest.object_id write) as [o|].
  - destruct Ha as (-> & ob' & Hob' & Hpid).
    destruct (wf_objects _ _ _ Hco o ob' Hob') as (_ & _ & p' & Hp' & Hpo'). congruence.
  - destruct Ha as [_ ->]. rewrite He in Hp.
    destruct (wf_pointers _ _ _ Hco _ p Hp) as (_ & Hm & _). apply minted_fresh in Hm; [done|done|lia].
Qed.

Lemma fresh_version (w : W) :
  wf w -> versions (FsWorld.store w)
    !! FsId.fresh_prefixed_ulid FsId.VERSION_PREFIX (FsWorld.ulids w (1 + FsWorld.drawn w)) = None.
Proof.
  intros [Hi [Hco _]]. eapply fresh_absent; [done|lia|]. intros k v Hv. by apply (wf_versions _ _ _ Hco k v).
Qed.

Lemma outcome_bounded write (w : W) r w' :
  wf w -> write_outcome write w r w' -> bounded (FsWorld.store w') -> bounded (FsWorld.store w).
Proof.
  intros Hwf ((pid & _ & Hw) & Hv & _) Hb c. specialize (Hb c).
  rewrite Hv in Hw. rewrite (written_total _ _ _ _ _ _ c Hw (fresh_version w Hwf)) in Hb. lia.
Qed.

(** Every object but the one that is written looks the same. *)
Lemma outcome_others write (w : W) r w' id :
  wf w -> write_outcome write w r w' -> id <> ObjectWriteResult.object_id r ->
  current (FsWorld.store w') id = current (FsWorld.store w) id.
Proof.
  intros Hwf ((pid & Ha & Hw) & Hv & _) Hne. rewrite Hv in Hw. pose proof Hwf as [_ [Hco _]].
  eapply written_current; [exact Hw|by apply fresh_version| | |done].
  - intros k ob Hk Hko. by eapply addressed_pointer.
  - intros k p Hk. destruct (wf_pointers _ _ _ Hco k p Hk) as (_ & _ & _ & _ & v & Hvv & _). by exists v.
Qed.

(** C33: a write is readable.  In a store as writes, quarantines and passes leave
    it, a write whose parents name no identifier still to be drawn succeeds only
    if its guard allows, and then, as long as reference counts stay within 32
    bits, a read of the object at the returned snapshot gives the version that was
    written, with its chunks, parents, metadata and content hash, while every
    other object reads as before.  When the guard forbids it, the error is the
    guard's and the store is untouched; the only other failure is a refused
    evidence record, which comes after the write and leaves it standing. *)
Theorem read_your_writes emitter write context w :
  wf w -> unforeseen w write ->
  post (write_object emitter write context)
    (fun r w' => write_guard (FsWorld.store w) write context = Ok () /\
       let s' := FsWorld.store w' in let oid := ObjectWriteResult.object_id r in
       (bounded s' ->
        (exists rd, read_object oid (Some (ObjectWriteResult.snapshot_id_after r)) w' = (Ok rd, w') /\
           let v := ObjectReadResult.version rd in
           Version.version_id v = ObjectWriteResult.version_id r /\
           Version.parent_version_ids v = ObjectWriteRequest.parent_version_ids write /\
           Version.metadata_delta v = ObjectWriteRequest.metadata_delta write /\
           Version.content_hash v = content_hash_for_chunk_refs (ObjectWriteRequest.chunks write) /\
           Chunk.chunk_id <$> ObjectReadResult.chunks rd = ObjectWriteRequest.chunks write) /\
        forall id, id <> oid -> view s' id = view (FsWorld.store w) id))
    (fun e w' =>
       (write_guard (FsWorld.store w) write context = Err e /\ FsWorld.store w' = FsWorld.store w) \/
       (write_guard (FsWorld.store w) write context = Ok () /\ refused e /\ after_write write w w')) w.
Proof.
  intros Hwf Hunf. eapply post_mono; [by apply write_object_post| |intros e w' [(? & ? & _)|?]; auto].
  intros r w' [Hg Ho]. split; [done|]. intros s' oid Hb.
  pose proof (write_outcome_wf _ _ _ _ Hwf Hunf Ho) as Hwf'. pose proof Hwf' as [_ [Hco' _]].
  pose proof (outcome_bounded _ _ _ _ Hwf Ho Hb) as Hb0. split.
  - destruct Ho as ((pid & Ha & Hw) & _ & Hsnap & Hh & _).
    destruct (written_self _ _ _ _ _ _ Hw) as (o & v & Hcur & Hvid & Hpar & Hd & Hch).
    unfold current in Hcur. destruct (objects s' !! oid) as [o'|] eqn:Hob; [|by unfold s', oid in *; rewrite Hob in Hcur].
    destruct (read_current _ _ _ oid o' (Some (ObjectWriteResult.snapshot_id_after r)) Hco' Hb Hob)
      as (p & v' & cs & Hp & Hv & _ & _ & Hids & Hrd).
    { unfold ensure_snapshot_current, head_snapshot_id. by rewrite Hsnap, Hh, String.eqb_refl. }
    unfold s', oid in *. rewrite Hob in Hcur. simpl in Hcur. rewrite Hp in Hcur. simpl in Hcur.
    rewrite Hv in Hcur. simpl in Hcur. injection Hcur as -> -> Hrefs.
    eexists. split; [unfold read_object, mbind_, get, lift; by rewrite Hrd|]. simpl. split_and!; try done.
    by rewrite Hids.
  - intros id Hne. destruct Hwf as [Hi [Hco Hh]]. rewrite !(view_current _ _ _ id) by eassumption.
    by eapply outcome_others.
Qed.
(** ** Collection *)
Lemma reclaiming_total C s s' c : reclaiming C s s' -> total s' c = total s c.
Proof. intros Hre. unfold total. by rewrite (re_versions _ _ _ Hre). Qed.

Lemma pass_current max_chunks max_versions V C ulids n s s' id :
  core ulids n s -> pass_effect max_chunks max_versions V C s s' -> current s' id = current s id.
Proof.
  intros Hco (mid & HV & _ & Hpu & Hre). unfold current.
  rewrite (re_objects _ _ _ Hre), (re_pointers _ _ _ Hre), (re_versions _ _ _ Hre),
    (pu_objects _ _ _ Hpu), (pu_pointers _ _ _ Hpu).
  destruct (objects s !! id) as [o|]; [|done]. simpl.
  destruct (pointers s !! _) as [p|] eqn:Hp; [|done]. simpl. rewrite (pu_versions _ _ _ Hpu).
  rewrite decide_False; [done|]. rewrite elem_of_list_to_set, HV. intros Hk%elem_of_take_inv.
  destruct (retired_candidates_spec _ _ _ Hco) as [_ Hin]. apply Hin in Hk as [(v & Hv & Hs) _].
  destruct (wf_pointers _ _ _ Hco _ p Hp) as (_ & _ & _ & _ & v' & Hv' & _ & Hs'). congruence.
Qed.

Lemma pass_bounded max_chunks max_versions V C s s' :
  pass_effect max_chunks max_versions V C s s' -> bounded s -> bounded s'.
Proof.
  intros (mid & _ & _ & Hpu & Hre) Hb c.
  rewrite (reclaiming_total _ _ _ _ Hre), (purging_total _ _ _ _ Hpu). apply Hb.
Qed.

Lemma keyed_length {A} (m : gmap string A) (f : A -> string) (P : A -> Prop) `{!forall a, Decision (P a)} :
  length (sort_strings (f <$> filter P (map_to_list m).*2)) <= size m.
Proof.
  rewrite sort_strings_perm, length_fmap, length_filter, length_fmap, length_map_to_list. done.
Qed.

(** A pass without limits leaves nothing to collect. *)
Lemma pass_complete max_chunks max_versions V C ulids n s s' :
  pass_effect max_chunks max_versions V C s s' -> core ulids n s' -> bounded s' ->
  size (versions s) <= max_versions -> size (chunks s) <= max_chunks -> core ulids n s ->
  (forall vid, retired s' vid <-> vid ∈ purged_versions s') /\
  forall c, is_Some (chunks s' !! c) <-> 0 < live s' c.
Proof.
  intros (mid & HV & HC & Hpu & Hre) Hco' Hb Hmv Hmc Hco.
  assert (size (chunks mid) = size (chunks s)) as Hsz.
  { rewrite <- !size_dom. f_equal. apply set_eq. intros k. rewrite !elem_of_dom. apply (pu_chunks _ _ _ Hpu). }
  rewrite take_ge in HV, HC; [|by etrans; [apply keyed_length|lia]..]. split.
  - intros vid. split; [|apply (wf_purged _ _ _ Hco')].
    intros Hr. rewrite (re_purged _ _ _ Hre), (pu_purged _ _ _ Hpu).
    assert (retired mid vid) as Hm by (destruct Hr as (v & Hv & ?); exists v; by rewrite <- (re_versions _ _ _ Hre)).
    apply (purging_retired _ _ _ _ Hpu) in Hm as [[HA _]|Hs]; [by apply elem_of_union_l|].
    destruct (decide (vid ∈ purged_versions s)); [by apply elem_of_union_r|].
    apply elem_of_union_l, elem_of_list_to_set. rewrite HV.
    by apply (retired_candidates_spec _ _ _ Hco).
  - intros c. assert (count (chunks s') c = Z.of_nat (live s' c)) as Hlive by apply (wf_refs _ _ _ Hco' c (Hb c)).
    split; [|intros Hpos; apply known_of_count; lia].
    intros [x Hx]. pose proof Hx as Hy. rewrite (re_chunks _ _ _ Hre) in Hy.
    unfold count in Hlive. rewrite Hx in Hlive.
    case_decide as Hn; [done|]. rewrite elem_of_list_to_set, HC in Hn.
    destruct (decide (Chunk.ref_count x = 0%Z)) as [Hz|]; [|lia]. exfalso. apply Hn.
    unfold orphan_candidates. rewrite elem_of_sort_strings. apply list_elem_of_fmap.
    exists x. split.
    { symmetry. by apply (wf_chunks _ _ _ Hco'). }
    apply list_elem_of_filter. split; [done|]. apply list_elem_of_fmap. exists (c, x). split; [done|].
    by apply elem_of_map_to_list.
Qed.

(** C34: garbage collection is exact and safe.  In a store as writes, quarantines
    and passes leave it (the invariant [wf]: in particular no current version was
    purged by hand), with reference counts within 32 bits, a pass takes the first
    retired versions in identifier order, up to its limit, purges them, then
    reclaims the first chunks without references, and reports just that; no reader
    sees a difference.  When its limits cover the store, every retired version is
    purged afterwards and the chunks left are exactly those that a version still
    in use refers to.  Only a refused evidence record makes it fail, when the work
    is done. *)
Theorem gc_pass_exact emitter max_chunks max_versions w :
  wf w -> bounded (FsWorld.store w) ->
  let s := FsWorld.store w in
  let collected V C s' :=
    pass_effect max_chunks max_versions V C s s' /\ (forall id, view s' id = view s id) /\
    (size (versions s) <= max_versions -> size (chunks s) <= max_chunks ->
     (forall vid, retired s' vid <-> vid ∈ purged_versions s') /\
     forall c, is_Some (chunks s' !! c) <-> 0 < live s' c) in
  post (run_pass emitter max_chunks max_versions)
    (fun r w' => exists V C, pass_report V C r /\ collected V C (FsWorld.store w'))
    (fun e w' => refused e /\ exists V C, collected V C (FsWorld.store w')) w.
Proof.
  intros Hwf Hb s collected.
  assert (forall V C w', wf w' -> later w w' -> pass_effect max_chunks max_versions V C s (FsWorld.store w') ->
    collected V C (FsWorld.store w')) as Hcol.
  { intros V C w' [_ [Hco' _]] [Hu Hd] Hpe. destruct Hwf as [_ [Hco _]]. rewrite Hu in Hco'.
    pose proof (pass_bounded _ _ _ _ _ _ Hpe Hb) as Hb'. split; [done|]. split.
    - intros id. unfold s. rewrite (view_current _ _ _ id Hco' Hb'), (view_current _ _ _ id Hco Hb).
      by eapply pass_current.
    - intros Hmv Hmc. eapply pass_complete; try done. by eapply core_mono. }
  eapply post_mono; [by apply run_pass_post| |].
  - intros r w' (Hw' & Hl & V & C & Hpe & Hrep). exists V, C. split; [done|by apply Hcol].
  - intros e w' (Hrf & Hw' & Hl & V & C & Hpe). split; [done|]. exists V, C. by apply Hcol.
Qed.
(** ** Quarantine *)
Lemma entered_total vid reason x s s' c : entered vid reason x s s' -> total s' c = total s c.
Proof. intros (now & tx & Hv & _). unfold total. rewrite Hv. by apply map_sum_alter. Qed.

Lemma current_inv ulids n s id o v refs :
  core ulids n s -> current s id = Some (o, v, refs) ->
  exists p, objects s !! id = Some o /\ pointers s !! Object.current_pointer_id o = Some p /\
    Pointer.current_version_id p = Version.version_id v /\
    versions s !! Version.version_id v = Some v /\ refs = Version.chunk_refs v /\
    Version.object_id v = id.
Proof.
  intros Hco. unfold current. destruct (objects s !! id) as [o'|] eqn:Ho; [|done]. simpl.
  destruct (pointers s !! _) as [p|] eqn:Hp; [|done]. simpl.
  destruct (versions s !! _) as [v'|] eqn:Hv; [|done]. simpl. intros [= <- <- <-]. exists p.
  destruct (wf_versions _ _ _ Hco _ v' Hv) as (He & _). rewrite He.
  destruct (wf_objects _ _ _ Hco id o' Ho) as (_ & _ & q & Hq & Hqo).
  destruct (wf_pointers _ _ _ Hco _ p Hp) as (_ & _ & _ & _ & v1 & Hv1 & Hvo & _).
  split_and!; try done. congruence.
Qed.

Lemma entered_current ulids n vid reason v x s s' id o v0 refs :
  core ulids n s -> entry_guard s vid = Ok (v, x) -> entered vid reason x s s' ->
  current s id = Some (o, v0, refs) ->
  if decide (Version.version_id v0 = vid) then
    exists x' v1, x = Some x' /\ x' ∈ Version.parent_version_ids v /\ versions s !! x' = Some v1 /\
      Version.version_id v1 = x' /\ Version.object_id v1 = id /\
      current s' id = Some (o, v1, Version.chunk_refs v1)
  else current s' id = current s id.
Proof.
  intros Hco Hg (now & tx & Ev & Ep & Eo & _) Hcur. rewrite Hcur.
  destruct (current_inv _ _ _ _ _ _ _ Hco Hcur) as (p & Ho & Hp & Hpv & Hv0 & -> & Hid).
  destruct (entry_target _ _ _ _ _ _ Hco Hg) as (Hv & _ & Hx).
  unfold current. rewrite Eo, Ho. simpl. rewrite Ep, lookup_fmap, Hp. simpl.
  rewrite (redirect_current ulids n s vid _ now tx (Object.current_pointer_id o)) by done.
  rewrite Hpv. case_decide as Hd.
  - destruct x as [x|].
    + destruct Hx as [Hin (v1 & Hv1 & Hvo & Hvs)]. exists x, v1.
      assert (v = v0) as -> by congruence.
      assert (x <> vid) as Hne by (intros ->; by destruct (wf_versions _ _ _ Hco vid v0 Hv) as (_ & _ & ?)).
      simpl. rewrite Ev, lookup_alter_ne, Hv1 by done. simpl.
      split_and!; try done; [by apply (wf_versions _ _ _ Hco x v1)|congruence].
    + exfalso. assert (Object.current_pointer_id o ∈ current_or_stable_pointers_to s vid) as Hk.
      { apply (affected_spec ulids n); [done|]. exists p. by rewrite Hpv. }
      rewrite Hx in Hk. by apply elem_of_nil in Hk.
  - rewrite Hpv, Ev, lookup_alter_ne, Hv0 by done. done.
Qed.

(** What entering quarantine leaves: the version is quarantined, and the pointers
    that led readers to it lead to its replacement. *)
Definition quarantined (s : t) (vid reason : string) (s' : t) : Prop :=
  exists v x, versions s !! vid = Some v /\ Version.state v <> VersionState.Quarantined /\
    match x with
    | Some x => replacement s v x
    | None => forall p, pointers s !! Pointer.pointer_id p = Some p -> followed (Pointer.kind p) ->
                Pointer.current_version_id p <> vid
    end /\ entered vid reason x s s'.
(** Why it may be refused. *)
Definition entry_refused (s : t) (vid : string) (e : FsError.t) : Prop :=
  (e = FsError.VersionNotFound vid /\ versions s !! vid = None) \/
  exists v, versions s !! vid = Some v /\
    ((e = FsError.QuarantineAlreadyApplied vid /\ Version.state v = VersionState.Quarantined) \/
     (e = FsError.NoPriorStablePointer (Version.object_id v) /\ forall x, ~ replacement s v x) \/
     exists x, e = FsError.VersionNotFound x).

(** The readers of an object before and after, in a store as its runs build it. *)
Definition readers_moved (s : t) (vid : string) (s' : t) : Prop :=
  forall id o v0 refs, view s id = Some (o, v0, refs) ->
    if decide (Version.version_id v0 = vid) then
      exists x' v1, x' ∈ Version.parent_version_ids v0 /\
        versions s !! x' = Some v1 /\ Version.state v1 = VersionState.Verified /\
        Version.object_id v1 = id /\ view s' id = Some (o, v1, Version.chunk_refs v1)
    else view s' id = view s id.

Lemma entered_readers vid reason v x (w : W) s' :
  wf w -> bounded (FsWorld.store w) -> vid ∉ purged_versions (FsWorld.store w) ->
  entry_guard (FsWorld.store w) vid = Ok (v, x) -> entered vid reason x (FsWorld.store w) s' ->
  readers_moved (FsWorld.store w) vid s'.
Proof.
  intros [_ [Hco _]] Hb Hnp Hg He id o v0 refs.
  pose proof (entered_core _ _ _ _ _ _ _ _ Hco Hnp Hg He) as Hco'.
  rewrite (view_current _ _ _ id Hco Hb), (view_current _ _ _ id Hco').
  2: { intros c. rewrite (entered_total _ _ _ _ _ c He). apply Hb. }
  intros Hcur. pose proof (entered_current _ _ _ _ _ _ _ _ _ _ _ _ Hco Hg He Hcur) as Hx. case_decide as Hd; [|done].
  destruct Hx as (x' & v1 & -> & Hin & Hv1 & _ & Ho & Hcur'). exists x', v1.
  destruct (entry_target _ _ _ _ _ _ Hco Hg) as (Hv & _ & _ & (v2 & Hv2 & _ & Hs)).
  assert (v = v0) as <-; [|split_and!; [done..|congruence|done|done]].
  destruct (current_inv _ _ _ _ _ _ _ Hco Hcur) as (_ & _ & _ & _ & Hv0 & _). congruence.
Qed.

End Runs.
End FsProps.

(** * File system: theorems about queries

    Whether a predicate can be evaluated is decided by its field, operator and
    literal alone; a view holds exactly the objects that satisfy its query. *)

Module FsViews.
Import InMemoryAiosFs FsInv FsRun FsCollect FsProps.

(** ** Types *)
Inductive FieldType : Type := TStr | TStrList | TTime.

Definition field_type (f : QueryField.t) : FieldType :=
  match f with
  | QueryField.ObjectPolicyTags => TStrList
  | QueryField.VersionCreatedAt => TTime
  | _ => TStr
  end.
Definition type_token (t : FieldType) : string :=
  match t with TStr => "string" | TStrList => "string-list" | TTime => "timestamp" end.

Definition has_type (v : FieldValue) (t : FieldType) : Prop :=
  match v, t with
  | FStr _, TStr | FStrList _, TStrList | FTime _, TTime | FAbsent, _ => True
  | _, _ => False
  end.

Lemma field_has_type f ctx : has_type (resolve_field_value f ctx) (field_type f).
Proof. destruct f; simpl; repeat case_match; done. Qed.

Section Types.
Variable parse_from_rfc3339 : string -> option DateTime.

Definition timestamps_ok (f : QueryField.t) (ts : list string) : result QueryEvalError () :=
  try_fold (fun _ t => let? _ := parse_timestamp parse_from_rfc3339 f t in Ok ()) () ts.

(** The verdict on a predicate before any object is seen. *)
Definition type_check (p : QueryPredicate.t) : result QueryEvalError () :=
  let f := QueryPredicate.field p in
  let mismatch := Err (TypeMismatch (QueryField.as_dotted f) (QueryOperator.as_str (QueryPredicate.op p))
                         (type_token (field_type f)) (QueryValue.type_name (QueryPredicate.rhs p))) in
  match QueryPredicate.op p, field_type f, QueryPredicate.rhs p with
  | QueryOperator.In, TTime, QueryValue.TimeRange a b => timestamps_ok f [a; b]
  | QueryOperator.In, (TStr | TStrList), QueryValue.StringList _ => Ok ()
  | QueryOperator.In, _, _ => mismatch
  | QueryOperator.Contains, (TStr | TStrList), QueryValue.Str _ => Ok ()
  | QueryOperator.Contains, _, _ => mismatch
  | QueryOperator.Matches, TStr, QueryValue.Str _ => Ok ()
  | QueryOperator.Matches, _, _ => mismatch
  | _, TStr, QueryValue.Str _ => Ok ()
  | _, TTime, QueryValue.Str t => timestamps_ok f [t]
  | QueryOperator.Eq, TTime, QueryValue.TimeRange a b => timestamps_ok f [a; b]
  | _, TTime, QueryValue.TimeRange _ _ => Err (unsupported_operator p)
  | _, TStrList, QueryValue.Str _ => Err (unsupported_operator p)
  | _, _, _ => mismatch
  end.

(** Queries are checked by their types.  On any object where the field is
    present, a predicate evaluates to a truth value exactly when its field,
    operator and literal fit and its timestamps parse; otherwise its error is
    the same on every object. *)
Theorem query_types_are_static p ctx :
  resolve_field_value (QueryPredicate.field p) ctx <> FAbsent ->
  match type_check p with
  | Ok _ => exists b, evaluate_predicate parse_from_rfc3339 p ctx = Ok b
  | Err e => evaluate_predicate parse_from_rfc3339 p ctx = Err e
  end.
Proof.
  intros Hpres. pose proof (field_has_type (QueryPredicate.field p) ctx) as Ht.
  destruct p as [ns f op rhs]. simpl in *.
  unfold type_check, evaluate_predicate, eval_compare, eval_in, eval_contains, eval_matches,
    type_mismatch, time_in_range, timestamps_ok, parse_timestamp. simpl.
  destruct (resolve_field_value f ctx) as [s|l|t|], (field_type f); try done;
    destruct op, rhs; simpl; try done; try (by eexists);
    repeat (destruct (parse_from_rfc3339 _); simpl; try done; try (by eexists)).
Qed.

(** An absent field satisfies nothing, and is no error. *)
Lemma absent_is_false p ctx :
  resolve_field_value (QueryPredicate.field p) ctx = FAbsent ->
  evaluate_predicate parse_from_rfc3339 p ctx = Ok false.
Proof.
  intros Ha. unfold evaluate_predicate, eval_compare, eval_in, eval_contains, eval_matches.
  rewrite Ha. by destruct (QueryPredicate.op p).
Qed.
End Types.

(** ** Views *)
Section Views.
Context {L : Type} `{FsEvidenceLog L} `{!FsTexts}.
Variable parse_from_rfc3339 : string -> option DateTime.
Variable emitter : option FsEvidenceEmitter.
Abbreviation W := (FsWorld.t InMemoryAiosFs.t L).
#[local] Instance store_fs : AiosFs InMemoryAiosFs.t L := in_memory_fs emitter.

(** What a query sees of an object. *)
Definition object_context (s : t) (id : string) : option QueryEvalContext :=
  o ← objects s !! id;
  p ← pointers s !! Object.current_pointer_id o;
  v ← versions s !! Pointer.current_version_id p;
  Some {| ctx_object := o; ctx_version := v; ctx_pointer := p;
          ctx_namespace_class := Some (namespace_class_for_object o) |}.

Definition satisfies (s : t) (q : Query) (id : string) : Prop :=
  exists ctx, object_context s id = Some ctx /\ evaluate parse_from_rfc3339 q ctx = Ok true.

Definition eval_failure (s : t) (q : Query) (e : FsError.t) : Prop :=
  exists id ctx err, object_context s id = Some ctx /\ evaluate parse_from_rfc3339 q ctx = Err err /\
    e = FsError.QueryEval (show_eval_error err).

(** One round of the loop, at a snapshot that is current. *)
Lemma select_round q snapshot id ids vs matched (w : W) :
  wf w -> bounded (FsWorld.store w) -> is_Some (objects (FsWorld.store w) !! id) ->
  ensure_snapshot_current snapshot (head_snapshot_id (FsWorld.store w)) = Ok () ->
  exists ctx, object_context (FsWorld.store w) id = Some ctx /\
    select parse_from_rfc3339 q snapshot (id :: ids) vs matched w
    = match evaluate parse_from_rfc3339 q ctx with
      | Ok hit => select parse_from_rfc3339 q snapshot ids
                    (Some (default (head_snapshot_id (FsWorld.store w)) vs))
                    (if hit then matched ++ [id] else matched) w
      | Err e => (Err (FsError.QueryEval (show_eval_error e)), w)
      end.
Proof.
  intros [_ [Hco _]] Hb [o Ho] Hsn.
  destruct (read_current _ _ _ id o snapshot Hco Hb Ho Hsn) as (p & v & cs & Hp & Hv & _ & _ & _ & Hr).
  exists {| ctx_object := o; ctx_version := v; ctx_pointer := p;
            ctx_namespace_class := Some (namespace_class_for_object o) |}. split.
  { unfold object_context. rewrite Ho. simpl. rewrite Hp. simpl. by rewrite Hv. }
  cbn [select]. unfold mbind_ at 1. simpl fs_read_object. unfold read_object, mbind_ at 1, get, lift.
  rewrite Hr. cbn [ObjectReadResult.object ObjectReadResult.version ObjectReadResult.snapshot_id].
  unfold mbind_ at 1. simpl fs_resolve_pointer. unfold resolve_pointer, mbind_ at 1, get, lift.
  rewrite Hp. cbn [ok_or]. unfold mbind_ at 1.
  destruct (evaluate parse_from_rfc3339 q _) as [hit|e]; simpl; [|done]. by destruct vs.
Qed.

Lemma select_post q snapshot ids : forall vs matched (w : W),
  wf w -> bounded (FsWorld.store w) ->
  (forall id, id ∈ ids -> is_Some (objects (FsWorld.store w) !! id)) ->
  ensure_snapshot_current snapshot (head_snapshot_id (FsWorld.store w)) = Ok () ->
  post (select parse_from_rfc3339 q snapshot ids vs matched)
    (fun r w' => w' = w /\
       r.1 = (match ids with [] => vs | _ => Some (default (head_snapshot_id (FsWorld.store w)) vs) end) /\
       exists hits, r.2 = matched ++ hits /\ sublist hits ids /\
         forall id, id ∈ ids -> id ∈ hits <-> satisfies (FsWorld.store w) q id)
    (fun e w' => w' = w /\ eval_failure (FsWorld.store w) q e) w.
Proof.
  induction ids as [|id ids IH]; intros vs matched w Hw Hb Hids Hsn.
  { split; [done|]. split; [done|]. exists []. split; [by rewrite app_nil_r|].
    split; [done|]. by intros id ?%elem_of_nil. }
  destruct (select_round q snapshot id ids vs matched w Hw Hb) as (ctx & Hctx & Hs);
    [apply Hids; by left|done|].
  unfold post. rewrite Hs. destruct (evaluate parse_from_rfc3339 q ctx) as [hit|e] eqn:He;
    [|split; [done|]; by exists id, ctx, e].
  specialize (IH (Some (default (head_snapshot_id (FsWorld.store w)) vs))
                 (if hit then matched ++ [id] else matched) w Hw Hb ltac:(intros; apply Hids; by right) Hsn).
  unfold post in IH. destruct (select _ _ _ ids _ _ w) as [[r|e] w']; [|done].
  destruct IH as (-> & Hr1 & hits & Hr2 & Hsub & Hin). split; [done|]. split; [rewrite Hr1; by destruct ids|].
  assert (satisfies (FsWorld.store w) q id <-> hit = true) as Hid.
  { unfold satisfies. rewrite Hctx. split; [|intros ->; by exists ctx].
    intros (ctx' & [= <-] & He'). congruence. }
  exists (if hit then id :: hits else hits). split_and!.
  - rewrite Hr2. destruct hit; [by rewrite <- (assoc_L (++))|done].
  - destruct hit; by constructor.
  - intros k Hk. destruct (decide (k = id)) as [->|Hne].
    + rewrite Hid. destruct hit; [split; [done|intros _; by left]|]. split; [|done].
      intros Hh. rewrite <- Hid. apply Hin; [|done]. eapply elem_of_submseteq; [done|by apply sublist_submseteq].
    + apply elem_of_cons in Hk as [?|Hk]; [done|]. rewrite <- Hin by done.
      destruct hit; [|done]. rewrite elem_of_cons. tauto.
Qed.

Lemma object_ids_spec (w : W) id :
  id ∈ sort_strings (map_to_list (objects (FsWorld.store w))).*1 <-> is_Some (objects (FsWorld.store w) !! id).
Proof.
  rewrite elem_of_sort_strings, list_elem_of_fmap. split.
  - intros ([k o] & -> & Hl%elem_of_map_to_list). by exists o.
  - intros [o Ho]. exists (id, o). split; [done|]. by apply elem_of_map_to_list.
Qed.

(** A view is exact.  On a well-formed store the view of a query at the
    head snapshot holds, in order and without repetition, just the objects on
    which the query is true; materializing it changes nothing, and fails only
    because the query cannot be hashed or because it is ill typed on an object.
    At any other snapshot it is refused as stale, unless there are no objects
    at all: then the view is empty and bears the snapshot that was asked for. *)
Theorem view_is_exact q snapshot w :
  wf w -> bounded (FsWorld.store w) ->
  let s := FsWorld.store w in
  let current := ensure_snapshot_current snapshot (head_snapshot_id s) = Ok () in
  post (materialize_view parse_from_rfc3339 q snapshot)
    (fun v w' => w' = w /\ hash_query q = Ok (view_query_hash v) /\
       (current \/ objects s = ∅) /\
       view_snapshot_id v = default (head_snapshot_id s) snapshot /\
       StronglySorted String.le (view_matched v) /\ NoDup (view_matched v) /\
       forall id, id ∈ view_matched v <-> satisfies s q id)
    (fun e w' => w' = w /\
       (hash_query q = Err e \/ (current /\ eval_failure s q e) \/
        (objects s <> ∅ /\ ensure_snapshot_current snapshot (head_snapshot_id s) = Err e))) w.
Proof.
  intros Hw Hb s current. unfold materialize_view.
  destruct (hash_query q) as [h|e] eqn:Hh; [|split; [done|by left]].
  unfold mbind_ at 1, lift at 1. unfold mbind_ at 1. simpl fs_object_ids.
  unfold object_ids, mbind_ at 1, get at 1, ret at 1.
  set (ids := sort_strings (map_to_list (objects (FsWorld.store w))).*1).
  match goal with |- post _ ?Q ?E _ =>
    change (post (let! r := select parse_from_rfc3339 q snapshot ids snapshot [] in
                  let! w := get in
                  ret {| view_snapshot_id := default (head_snapshot_id (FsWorld.store w)) r.1;
                         view_matched := sort_strings r.2; view_query_hash := h |}) Q E w) end.
  assert (forall id, satisfies s q id -> id ∈ ids) as Hsat.
  { intros id (ctx & Hc & _). apply object_ids_spec. unfold object_context in Hc. fold s.
    destruct (objects s !! id) as [o|]; [by exists o|done]. }
  destruct (ensure_snapshot_current snapshot (head_snapshot_id s)) as [[]|e] eqn:Hsn.
  - pose proof (select_post q snapshot ids snapshot [] w Hw Hb ltac:(intros; by apply object_ids_spec) Hsn) as Hp.
    eapply post_bind; [eapply post_mono; [exact Hp|intros r w' Hr; exact Hr|]|].
    { intros e w' [-> He]. split; [done|]. right; left. by split. }
    intros r w' (-> & Hr1 & hits & Hr2 & Hsub & Hin). simpl in Hr2.
    split; [done|]. split; [done|]. split; [by left|]. cbn [view_snapshot_id view_matched]. split.
    { rewrite Hr1. simpl fs_head_snapshot_id. by destruct ids, snapshot. }
    split; [apply sort_strings_sorted|]. rewrite Hr2. split.
    { rewrite sort_strings_perm. eapply sublist_NoDup; [|exact Hsub].
      unfold ids. rewrite sort_strings_perm. apply NoDup_fst_map_to_list. }
    intros id. rewrite elem_of_sort_strings. split.
    + intros Hi. apply Hin; [|done]. eapply elem_of_submseteq; [done|by apply sublist_submseteq].
    + intros Hs. apply Hin; [by apply Hsat|done].
  - destruct (decide (objects s = ∅)) as [He|Hne].
    + assert (ids = []) as Hids by (unfold ids; fold s; by rewrite He).
      rewrite Hids. simpl. split; [done|]. split; [done|]. split; [by right|].
      cbn [view_snapshot_id view_matched]. split; [by destruct snapshot|].
      split; [apply sort_strings_sorted|]. split; [apply NoDup_nil_2|].
      intros id. split; [by intros ?%elem_of_nil|]. intros Hs%Hsat. by rewrite Hids in Hs.
    + destruct ids as [|id ids'] eqn:Hids.
      { exfalso. apply Hne, map_empty. intros k. destruct (objects s !! k) as [o|] eqn:Ho; [|done].
        assert (k ∈ ids) as Hk by (apply object_ids_spec; by exists o). rewrite Hids in Hk.
        by apply elem_of_nil in Hk. }
      cbn [select]. unfold post, mbind_ at 1 2. simpl fs_read_object. unfold read_object, mbind_ at 1, get, lift.
      unfold read. fold s. rewrite Hsn. simpl. split; [done|]. right; right. by split.
Qed.
End Views.
End FsViews.
