(* ===== verification/FsDemo.v ===== *)
(** * File system: the theorems at work

    A store with two objects, quarantines, a collection pass and queries, on
    which the theorems of the file system are applied; and runs that show where
    the store falls short. *)
From stdpp Require Import sorting.
From S2P Require Import Prelude Collections Json Ids Conditions CondParser CondSound Records Redaction Receipt ChainSound StateError FsTypes FsStore FsNamespace FsQuery FsQueryParser FsQuerySound FsSound FsMove FsCollect FsProps.

Module FsDemo.
Import Demo InMemoryAiosFs FsInv FsRun FsMove FsCollect FsProps FsViews.

#[local] Existing Instance InMemoryFsEvidenceLog.log.
#[local] Instance demo_fs_texts : FsTexts := {|
  fs_evidence_error_text _ := "evidence error"; canonicalization_error_text e := e |}.
#[local] Existing Instance in_memory_mutable.

Abbreviation L := InMemoryFsEvidenceLog.t.
Abbreviation W := (FsWorld.t InMemoryAiosFs.t L).

Definition fs_start : W :=
  {| FsWorld.store := new 0;
     FsWorld.evidence := InMemoryFsEvidenceLog.new (fun n => "evr_" +:+ pretty n) Z.of_nat;
     FsWorld.clock := Z.of_nat; FsWorld.reads := 0; FsWorld.ulids := pretty; FsWorld.drawn := 0 |}.

Definition fs_emitter : option FsEvidenceEmitter :=
  Some {| fs_emitter_key := 7%Z; fs_emitter_subject := AIOS_FS_SUBJECT |}.

Definition context : FsContext.t :=
  {| FsContext.subject := "family:alice"; FsContext.action_id := None;
     FsContext.expected_snapshot_id := None; FsContext.consistency_class := ConsistencyClass.Linearizable |}.

Definition write_of (object : option string) (parents chunks : list string) : ObjectWriteRequest.t :=
  {| ObjectWriteRequest.object_id := object; ObjectWriteRequest.parent_version_ids := parents;
     ObjectWriteRequest.chunks := chunks;
     ObjectWriteRequest.metadata_delta := JObject [("name", JString "report"); ("kind", JString "project")];
     ObjectWriteRequest.action_id := None; ObjectWriteRequest.subject := "family:alice" |}.

Abbreviation after m w := (m w).2.

(** The object [obj_2] with versions [ver_1] and [ver_5], the second a child of
    the first, and the object [obj_8]. *)
Definition fs_written : W :=
  after (write_object fs_emitter (write_of None [] ["chk_c"]) context)
    (after (write_object fs_emitter (write_of (Some "obj_2") ["ver_1"] ["chk_b"; "chk_a"]) context)
       (after (write_object fs_emitter (write_of None [] ["chk_a"]) context) fs_start)).

Lemma past_unforeseen (w : W) write :
  Inj (=) (=) (FsWorld.ulids w) ->
  Forall (minted (FsWorld.ulids w) (FsWorld.drawn w) FsId.VERSION_PREFIX)
    (ObjectWriteRequest.parent_version_ids write) ->
  unforeseen w write.
Proof.
  intros Hi Hall n Hn Hin. rewrite Forall_forall in Hall.
  apply Hall in Hin. by eapply minted_fresh in Hin.
Qed.

Lemma fs_start_initial : initial fs_start.
Proof. split; [apply _|by exists 0%Z]. Qed.

Lemma reachable_write write ctx (w : W) :
  reachable fs_emitter w -> Inj (=) (=) (FsWorld.ulids w) ->
  Forall (minted (FsWorld.ulids w) (FsWorld.drawn w) FsId.VERSION_PREFIX)
    (ObjectWriteRequest.parent_version_ids write) ->
  reachable fs_emitter (after (write_object fs_emitter write ctx) w).
Proof.
  intros (w0 & Hi & Hr) Hinj Hp. exists w0. split; [done|]. eapply rtc_r; [exact Hr|].
  apply step_write. by apply past_unforeseen.
Qed.

Ltac minted_as n :=
  repeat constructor; exists n; split; [apply Nat.ltb_lt; vm_compute; reflexivity|reflexivity].

Lemma fs_reachable : reachable fs_emitter fs_written.
Proof.
  apply reachable_write; [|apply _|apply Forall_nil_2].
  apply reachable_write; [|apply _|minted_as 1].
  apply reachable_write; [|apply _|apply Forall_nil_2].
  exists fs_start. split; [apply fs_start_initial|apply rtc_refl].
Qed.

Lemma fs_well_formed : wf fs_written.
Proof. apply (reachable_wf fs_emitter), fs_reachable. Qed.

Lemma fs_bounded : bounded (FsWorld.store fs_written).
Proof. apply bounded_by_size. vm_compute. discriminate. Qed.

#[local] Opaque fs_written fs_start.

(** ** Reading and writing *)
Lemma objects_stay_readable_witness : exists o,
  objects (FsWorld.store fs_written) !! "obj_2" = Some o /\
  exists r, read_object "obj_2" (Some (compute_snapshot_id (FsWorld.store fs_written))) fs_written
      = (Ok r, fs_written) /\
    ObjectReadResult.object r = o /\ Version.object_id (ObjectReadResult.version r) = "obj_2" /\
    Version.state (ObjectReadResult.version r) = VersionState.Verified /\
    Chunk.chunk_id <$> ObjectReadResult.chunks r = Version.chunk_refs (ObjectReadResult.version r).
Proof.
  eexists. assert (objects (FsWorld.store fs_written) !! "obj_2" = Some _) as Ho by (vm_compute; reflexivity).
  split; [exact Ho|].
  exact (objects_stay_readable fs_emitter fs_written "obj_2" _ fs_reachable fs_bounded Ho).
Defined.

Definition fs_rewrite : ObjectWriteRequest.t := write_of (Some "obj_2") ["ver_5"] ["chk_b"].

Lemma read_your_writes_witness : exists r w' rd,
  write_object fs_emitter fs_rewrite context fs_written = (Ok r, w') /\
  read_object (ObjectWriteResult.object_id r) (Some (ObjectWriteResult.snapshot_id_after r)) w' = (Ok rd, w') /\
  Version.version_id (ObjectReadResult.version rd) = ObjectWriteResult.version_id r /\
  Chunk.chunk_id <$> ObjectReadResult.chunks rd = ["chk_b"].
Proof.
  assert (unforeseen fs_written fs_rewrite) as Hu by (apply past_unforeseen; [apply _|minted_as 5]).
  assert (is_ok (write_object fs_emitter fs_rewrite context fs_written).1 = true) as Hok by (vm_compute; reflexivity).
  destruct (post_ok _ _ _ _ Hok (read_your_writes fs_emitter fs_rewrite context fs_written fs_well_formed Hu))
    as (r & w' & Hm & _ & Hw).
  assert (bounded (FsWorld.store w')) as Hb.
  { pose proof (f_equal snd Hm) as Hs. cbn [snd] in Hs. rewrite <- Hs.
    apply bounded_by_size. vm_compute. discriminate. }
  destruct (Hw Hb) as [(rd & Hrd & Hv & _ & _ & _ & Hc) _].
  exists r, w', rd. split; [exact Hm|]. split; [exact Hrd|]. split; [exact Hv|exact Hc].
Defined.

(** ** Quarantine and collection *)
(** The object with a stable pointer at [ver_5] and a rollback pointer at [ver_1]. *)
Definition fs_pointed : W :=
  after (force_pointer_for_harness "obj_2" PointerKind.Rollback "ver_1")
    (after (force_pointer_for_harness "obj_2" PointerKind.Stable "ver_5") fs_written).
Lemma fs_pointed_keyed : keyed (FsWorld.store fs_pointed).
Proof.
  assert (bool_decide (map_Forall (fun k p => Pointer.pointer_id p = k) (pointers (FsWorld.store fs_pointed))) = true)
    as Hp by (vm_compute; reflexivity).
  assert (bool_decide (map_Forall (fun k v => Version.version_id v = k) (versions (FsWorld.store fs_pointed))) = true)
    as Hv by (vm_compute; reflexivity).
  apply bool_decide_eq_true in Hp, Hv. split; [exact Hp|exact Hv].
Qed.

Example rollback_target_takes_over :
  Pointer.current_version_id <$> filter (fun p => Pointer.object_id p = "obj_2")
    (map_to_list (pointers (FsWorld.store
       (after (enter fs_emitter "ver_5" QuarantineTrigger.PolicyViolation "bad") fs_pointed)))).*2
  = ["ver_1"; "ver_1"; "ver_1"].
Proof. vm_compute. reflexivity. Qed.

(** A store where [ver_5] was quarantined and given up. *)
Definition fs_retired : W :=
  after (exit fs_emitter "ver_5" QuarantineDisposition.Purged "operator")
    (after (enter fs_emitter "ver_5" QuarantineTrigger.PolicyViolation "bad") fs_written).

Lemma fs_retired_well_formed : wf fs_retired.
Proof.
  unfold fs_retired. apply exit_keeps, enter_wf; [exact fs_well_formed|].
  apply (bool_decide_unpack _). vm_compute. exact I.
Qed.
Lemma fs_retired_bounded : bounded (FsWorld.store fs_retired).
Proof. apply bounded_by_size. vm_compute. discriminate. Qed.
#[local] Opaque fs_retired.

Lemma gc_pass_exact_witness : exists r w' V C,
  run_pass fs_emitter 10 10 fs_retired = (Ok r, w') /\ pass_report V C r /\
  (forall id, view (FsWorld.store w') id = view (FsWorld.store fs_retired) id) /\
  forall c, is_Some (chunks (FsWorld.store w') !! c) <-> 0 < live (FsWorld.store w') c.
Proof.
  assert (is_ok (run_pass fs_emitter 10 10 fs_retired).1 = true) as Hok by (vm_compute; reflexivity).
  pose proof (gc_pass_exact fs_emitter 10 10 fs_retired fs_retired_well_formed fs_retired_bounded) as Hg.
  cbv zeta in Hg. destruct (post_ok _ _ _ _ Hok Hg) as (r & w' & Hm & V & C & Hrep & _ & Hview & Hall).
  destruct Hall as [_ Hall]; [apply Nat.leb_le; vm_compute; reflexivity..|].
  exists r, w', V, C. split; [exact Hm|]. split; [exact Hrep|]. split; [exact Hview|exact Hall].
Defined.

(** ** Name space, bindings and queries *)
Lemma mutations_are_confined_witness :
  can_mutate "/aios/groups/family/projects/" "family:alice" false true = Ok () /\
  exists segments, trim_end_matches "/" "/aios/groups/family/projects/" = "/aios/" +:+ join_with "/" segments /\
    Forall plain segments.
Proof.
  assert (can_mutate "/aios/groups/family/projects/" "family:alice" false true = Ok ()) as Hc by reflexivity.
  split; [exact Hc|].
  destruct (mutations_are_confined _ _ _ _ Hc) as (segments & Ht & Hp & _). by exists segments.
Defined.

Lemma demo_listing_perm m : (map_to_list m).*2 ≡ₚ (map_to_list m : list (ImplSpace.Source.t * list ImplSpace.Binding.t)).*2.
Proof. done. Qed.

Lemma record_binding_exact_witness :
  let m := ImplSpace.with_fixtures "chk_f" 3 in
  let b := hd (ImplSpace.Binding.Build_t "" (ImplSpace.Source.Object "") (ImplSpace.Target.LocalFile "") 0 ""
                 None ImplSpace.IntegrityState.Unknown) (ImplSpace.canonical_bindings "chk_f" 3) in
  ImplSpace.record_binding (fun m => (map_to_list m).*2) m b
    = Err (FsError.ImplSpaceBindingDuplicate "ispb_01HXY8K2JPQ7N3M4R5S6T7V8W9") /\
  is_ok (ImplSpace.verify (fun m => (map_to_list m).*2) m "ispb_01HXY8K2JPQ7N3M4R5S6T7V8W9") = true.
Proof.
  intros m b. pose proof (ImplSpace.record_binding_exact (fun m => (map_to_list m).*2) demo_listing_perm m b
    (ImplSpace.fixtures_well_formed "chk_f" 3)) as Hr.
  assert (ImplSpace.record_binding (fun m => (map_to_list m).*2) m b
    = Err (FsError.ImplSpaceBindingDuplicate "ispb_01HXY8K2JPQ7N3M4R5S6T7V8W9")) as He by (vm_compute; reflexivity).
  rewrite He in Hr. split; [exact He|exact (proj2 Hr)].
Defined.

(** Timestamps that are the digit of the second. *)
Definition demo_rfc3339 (s : string) : option DateTime :=
  match s with String a "" => if is_ascii_digit a then Some (Z.of_nat (nat_of_ascii a) - 48)%Z else None | _ => None end.

Definition demo_predicate (op : QueryOperator.t) (v : QueryValue.t) : QueryPredicate.t :=
  {| QueryPredicate.namespace := QueryNamespace.Object; QueryPredicate.field := QueryField.ObjectKind;
     QueryPredicate.op := op; QueryPredicate.rhs := v |}.

Definition demo_query : Query :=
  QAnd [demo_predicate QueryOperator.Eq (QueryValue.Str "PROJECT");
        {| QueryPredicate.namespace := QueryNamespace.Version;
           QueryPredicate.field := QueryField.VersionCreatedAt; QueryPredicate.op := QueryOperator.In;
           QueryPredicate.rhs := QueryValue.TimeRange "1" "3" |}].

Lemma query_types_are_static_witness : exists ctx,
  resolve_field_value QueryField.ObjectKind ctx <> FAbsent /\
  evaluate_predicate demo_rfc3339 (demo_predicate QueryOperator.Eq (QueryValue.Int 3)) ctx
    = Err (TypeMismatch "object.kind" "=" "string" "int").
Proof.
  assert (exists ctx, object_context (FsWorld.store fs_written) "obj_2" = Some ctx) as [ctx _]
    by (eexists; vm_compute; reflexivity).
  exists ctx. assert (resolve_field_value QueryField.ObjectKind ctx <> FAbsent) as Hp by discriminate.
  split; [exact Hp|].
  exact (query_types_are_static demo_rfc3339 (demo_predicate QueryOperator.Eq (QueryValue.Int 3)) ctx Hp).
Defined.

Lemma query_print_parse_witness :
  parse_query_string demo_rfc3339 (QueryRoundtrip.print_query demo_query) = Ok demo_query.
Proof.
  apply (QueryRoundtrip.query_print_parse demo_rfc3339). split; [done|]. repeat constructor.
Defined.

Lemma view_is_exact_witness : exists v,
  materialize_view (H := demo) (AiosFs0 := in_memory_fs fs_emitter) demo_rfc3339 demo_query None fs_written
    = (Ok v, fs_written) /\
  forall id, id ∈ view_matched v <-> satisfies demo_rfc3339 (FsWorld.store fs_written) demo_query id.
Proof.
  assert (is_ok (materialize_view (AiosFs0 := in_memory_fs fs_emitter) demo_rfc3339 demo_query None fs_written).1
    = true) as Hok by (vm_compute; reflexivity).
  pose proof (view_is_exact demo_rfc3339 fs_emitter demo_query None fs_written fs_well_formed fs_bounded) as Hv.
  cbv zeta in Hv. destruct (post_ok _ _ _ _ Hok Hv) as (v & w' & Hm & Hw & _ & _ & _ & _ & _ & Hin).
  subst w'. exists v. split; [exact Hm|exact Hin].
Defined.
(** ** Where the store falls short *)
Abbreviation FM := (M W FsError.t).

(** A version is purged and its chunk reclaimed; nothing forbids to quarantine
    it again and to release it, which makes it verified; when its child is
    quarantined the object falls back to it, and can no longer be read. *)
Definition resurrect : FM ObjectReadResult.t :=
  let! first := write_object None (write_of None [] ["chk_a"]) context in
  let oid := ObjectWriteResult.object_id first in
  let v1 := ObjectWriteResult.version_id first in
  let! second := write_object None (write_of (Some oid) [v1] ["chk_b"]) context in
  let v2 := ObjectWriteResult.version_id second in
  let! _ := enter None v1 QuarantineTrigger.OperatorManual "obsolete" in
  let! _ := exit None v1 QuarantineDisposition.Purged "operator" in
  let! _ := run_pass None DEFAULT_MAX_CHUNKS_PER_PASS DEFAULT_MAX_VERSIONS_PER_PASS in
  let! _ := enter None v1 QuarantineTrigger.OperatorManual "by mistake" in
  let! _ := exit None v1 QuarantineDisposition.Released "operator" in
  let! _ := enter None v2 QuarantineTrigger.IntegrityFailure "bad" in
  read_object oid None.

(** Purging can be undone, and what comes back has lost its data.  From an
    empty store, eight calls of the public interface that all succeed leave an
    object whose current version is verified and cannot be read. *)
Theorem purged_version_returns :
  (resurrect fs_start).1 = Err (FsError.ChunkUnknown "chk_a") /\
  bounded (FsWorld.store (resurrect fs_start).2).
Proof.
  split; [vm_compute; reflexivity|]. apply bounded_by_size. vm_compute. discriminate.
Qed.

(** Two writers start from the same version; the second write is accepted, and
    the current version does not descend from the first. *)
Definition lost_update : FM (list string * string) :=
  let! base := write_object None (write_of None [] ["chk_a"]) context in
  let oid := ObjectWriteResult.object_id base in
  let v0 := ObjectWriteResult.version_id base in
  let! first := write_object None (write_of (Some oid) [v0] ["chk_b"]) context in
  let! second := write_object None (write_of (Some oid) [v0] ["chk_c"]) context in
  let! seen := read_object oid None in
  ret (Version.parent_version_ids (ObjectReadResult.version seen), v0).

Lemma stale_parent_is_accepted : exists v0, (lost_update fs_start).1 = Ok ([v0], v0).
Proof. eexists. vm_compute. reflexivity. Qed.

(** A transaction stays pending after the write it belongs to. *)
Lemma transactions_stay_pending :
  map_Forall (fun _ tx => Transaction.state tx = TransactionState.PendingTx)
    (transactions (FsWorld.store fs_written)).
Proof. apply (bool_decide_unpack _). vm_compute. exact I. Qed.

(** Quarantine hides a version by who wrote it, not by who reads it: what the
    recovery subject wrote stays readable in quarantine. *)
Definition quarantined_first : FM ObjectReadResult.t :=
  let! first := write_object None
    {| ObjectWriteRequest.object_id := None; ObjectWriteRequest.parent_version_ids := [];
       ObjectWriteRequest.chunks := []; ObjectWriteRequest.metadata_delta := JNull;
       ObjectWriteRequest.action_id := None; ObjectWriteRequest.subject := "family:alice" |}
    {| FsContext.subject := "_system:recovery"; FsContext.action_id := None;
       FsContext.expected_snapshot_id := None; FsContext.consistency_class := ConsistencyClass.Linearizable |} in
  let! _ := force_version_state_for_harness (ObjectWriteResult.version_id first) VersionState.Quarantined None in
  read_object (ObjectWriteResult.object_id first) None.

Lemma quarantine_looks_at_the_writer : is_ok (quarantined_first fs_start).1 = true.
Proof. vm_compute. reflexivity. Qed.
End FsDemo.
