(* ===== verification/VaultTypes.v ===== *)
(** * Vault: data model (crate [aios-vault])

    Capabilities ([capability.rs]), key material ([key_material.rs]), the
    requests, operations and results of the broker ([broker.rs]), subjects and
    sessions ([identity.rs]), overrides ([override_class.rs]) and the errors
    ([error.rs]).  A [Vec<u8>] is the text of its bytes.  Then the state that the
    components share, the environment and the evidence ([evidence_emit.rs]). *)
From S2P Require Import Prelude Json Ids Records Redaction Receipt StateError FsTypes.

Abbreviation bytes := string.

(** ** Capabilities *)
Module CapabilityId.
Definition PREFIX : string := "cap_".

(** [Ulid::from_string]: the error carries the rendered decode error. *)
Definition validate_prefixed_ulid (ulid_from_string : string -> result string ())
    (input expected_prefix : string) : result string string :=
  if str_is_empty input then Err "identifier is empty"
  else match strip_prefix expected_prefix input with
       | None => Err ("expected prefix " +:+ expected_prefix +:+ ", got " +:+ input)
       | Some body =>
           let? _ := map_err (fun err => "invalid ULID body for " +:+ input +:+ ": " +:+ err)
                       (ulid_from_string body) in
           Ok input
       end.

Definition parse (ulid_from_string : string -> result string ()) (input : string)
    : result string string := validate_prefixed_ulid ulid_from_string input PREFIX.
End CapabilityId.

Module CapabilityClass.
Inductive t : Type :=
| KeySign | KeyVerify | KeyEncrypt | KeyDecrypt | MacGenerate | MacVerify | RandomGenerate
| SecretGet | BootstrapKeySign.
#[global] Instance t_eq_dec : EqDecision t.
Proof. solve_decision. Defined.
Definition wire (x : t) : string :=
  match x with
  | KeySign => "KEY_SIGN" | KeyVerify => "KEY_VERIFY" | KeyEncrypt => "KEY_ENCRYPT"
  | KeyDecrypt => "KEY_DECRYPT" | MacGenerate => "MAC_GENERATE" | MacVerify => "MAC_VERIFY"
  | RandomGenerate => "RANDOM_GENERATE" | SecretGet => "SECRET_GET"
  | BootstrapKeySign => "BOOTSTRAP_KEY_SIGN"
  end.
End CapabilityClass.

Module CapabilityState.
Inductive t : Type := Draft | Active | Expired | Revoked | Rotated | Discarded.
#[global] Instance t_eq_dec : EqDecision t.
Proof. solve_decision. Defined.
End CapabilityState.

Module VaultCapability.
Record t : Type := {
  capability_id : string;
  class : CapabilityClass.t;
  issued_to : string;
  issued_at : DateTime;
  expires_at : option DateTime;
  state : CapabilityState.t;
  key_material_handle : string;
}.

Definition set_state (s : CapabilityState.t) (c : t) : t :=
  {| capability_id := capability_id c; class := class c; issued_to := issued_to c;
     issued_at := issued_at c; expires_at := expires_at c; state := s;
     key_material_handle := key_material_handle c |}.
End VaultCapability.

Module KeyAlgorithm.
Inductive t : Type := Aes256Gcm | HmacSha256 | HkdfSha256 | Ed25519 | X25519.
#[global] Instance t_eq_dec : EqDecision t.
Proof. solve_decision. Defined.
End KeyAlgorithm.

(** [material] is the field [bytes]. *)
Module KeyMaterial.
Record t : Type := { algorithm : KeyAlgorithm.t; created_at : DateTime; material : bytes }.
End KeyMaterial.

(** ** Requests, operations and results *)
Module VaultOperation.
Inductive t : Type :=
| Encrypt (plaintext aad : bytes)
| Decrypt (ciphertext aad : bytes)
| MacGenerate (message : bytes)
| MacVerify (message tag : bytes)
| KdfDerive (info : bytes) (length : Z)
| Sign (message : bytes)
| Verify (message signature : bytes)
| RandomGenerate (byte_count : Z)
| SecretGet (co_signer_approval_id : string).

Definition operation_kind (o : t) : string :=
  match o with
  | Encrypt _ _ => "ENCRYPT" | Decrypt _ _ => "DECRYPT" | MacGenerate _ => "MAC_GENERATE"
  | MacVerify _ _ => "MAC_VERIFY" | KdfDerive _ _ => "KDF_DERIVE" | Sign _ => "SIGN"
  | Verify _ _ => "VERIFY" | RandomGenerate _ => "RANDOM_GENERATE" | SecretGet _ => "SECRET_GET"
  end.
End VaultOperation.

Module IssueCapabilityRequest.
Record t : Type := {
  class : CapabilityClass.t;
  issued_to : string;
  expires_at : option DateTime;
  key_algorithm : KeyAlgorithm.t;
  key_material_bytes : option bytes;
}.
End IssueCapabilityRequest.

Module UseCapabilityRequest.
Record t : Type := { capability_id : string; operation : VaultOperation.t }.
End UseCapabilityRequest.

Module UseCapabilityResult.
Inductive t : Type :=
| Encrypted (ciphertext nonce aad : bytes)
| Decrypted (plaintext : bytes)
| MacGenerated (tag : bytes)
| MacVerified (valid : bool)
| KdfDerived (derived_key_handle : string)
| Signed (signature : bytes)
| Verified (valid : bool)
| RandomGenerated (random_bytes : bytes).
End UseCapabilityResult.

Definition operation_matches_class (c : CapabilityClass.t) (o : VaultOperation.t) : bool :=
  match c, o with
  | CapabilityClass.KeySign, VaultOperation.Sign _ => true
  | CapabilityClass.BootstrapKeySign, VaultOperation.Sign _ => true
  | CapabilityClass.KeyVerify, VaultOperation.Verify _ _ => true
  | CapabilityClass.KeyEncrypt, VaultOperation.Encrypt _ _ => true
  | CapabilityClass.KeyDecrypt, VaultOperation.Decrypt _ _ => true
  | CapabilityClass.MacGenerate, VaultOperation.MacGenerate _ => true
  | CapabilityClass.MacVerify, VaultOperation.MacVerify _ _ => true
  | CapabilityClass.RandomGenerate, VaultOperation.RandomGenerate _ => true
  | CapabilityClass.SecretGet, VaultOperation.SecretGet _ => true
  | _, _ => false
  end.

Definition operation_matches_t049_extension (c : CapabilityClass.t) (o : VaultOperation.t) : bool :=
  match c, o with CapabilityClass.KeyEncrypt, VaultOperation.KdfDerive _ _ => true | _, _ => false end.

(** ** Subjects and sessions *)
Module Identity.
Module SubjectType.
Inductive t : Type :=
| Human | Agent | Application | Service | Device | Workflow | RemoteOperator | LocalOperator.
#[global] Instance t_eq_dec : EqDecision t.
Proof. solve_decision. Defined.
End SubjectType.

Module Subject.
Record t : Type := {
  canonical_subject_id : string;
  subject_type : SubjectType.t;
  provisional_name : string;
  groups : list string;
  is_ai : bool;
  created_at : DateTime;
}.

Definition set_groups (gs : list string) (s : t) : t :=
  {| canonical_subject_id := canonical_subject_id s; subject_type := subject_type s;
     provisional_name := provisional_name s; groups := gs; is_ai := is_ai s;
     created_at := created_at s |}.
End Subject.

Module SessionState.
Inductive t : Type := Active | Suspended | Revoked | Expired.
#[global] Instance t_eq_dec : EqDecision t.
Proof. solve_decision. Defined.
End SessionState.

Module Session.
Record t : Type := {
  session_id : string;
  subject_id : string;
  started_at : DateTime;
  expires_at : DateTime;
  state : SessionState.t;
}.

Definition set_state (x : SessionState.t) (s : t) : t :=
  {| session_id := session_id s; subject_id := subject_id s; started_at := started_at s;
     expires_at := expires_at s; state := x |}.
End Session.
End Identity.

(** ** Overrides *)
Module OverrideClass.
Inductive t : Type := StrongSolo | DualHuman | TripleHuman.
#[global] Instance t_eq_dec : EqDecision t.
Proof. solve_decision. Defined.
(** The wire name, which [override_class_token] repeats. *)
Definition wire (x : t) : string :=
  match x with
  | StrongSolo => "STRONG_SOLO" | DualHuman => "DUAL_HUMAN" | TripleHuman => "TRIPLE_HUMAN"
  end.
End OverrideClass.

Module OverrideBindingState.
Inductive t : Type := Granted | Consumed | Revoked | Expired.
#[global] Instance t_eq_dec : EqDecision t.
Proof. solve_decision. Defined.
End OverrideBindingState.

Module OverrideBinding.
Record t : Type := {
  binding_id : string;
  class : OverrideClass.t;
  granted_by : list string;
  granted_at : DateTime;
  expires_at : DateTime;
  target_action_id : option string;
  state : OverrideBindingState.t;
}.

Definition set_state (x : OverrideBindingState.t) (b : t) : t :=
  {| binding_id := binding_id b; class := class b; granted_by := granted_by b;
     granted_at := granted_at b; expires_at := expires_at b;
     target_action_id := target_action_id b; state := x |}.
End OverrideBinding.

Module GrantOverrideRequest.
Record t : Type := {
  class : OverrideClass.t;
  granted_by : list string;
  target_action_id : option string;
  expires_at : DateTime;
  reason : string;
}.
End GrantOverrideRequest.

(** ** Errors *)
Module VaultError.
Inductive t : Type :=
| CapabilityNotFound (id : string)
| CapabilityExpired (id : string)
| CapabilityRevoked (id : string)
| SubjectNotFound (id : string)
| SubjectAlreadyRegistered (id : string)
| SessionExpired (id : string)
| SessionAlreadyActive (subject_id : string)
| GroupMembershipUnchanged
| OverrideBindingNotFound (id : string)
| OverrideAlreadyConsumed
| OverrideRequiresHumanApprovers (class : OverrideClass.t) (found_non_human : list string)
| AiCannotGrantOverride (id : string)
| OverrideClassApproverCountMismatch (class : OverrideClass.t) (expected found : Z)
| OverrideExpired (id : string)
| InvalidTransition (from to : CapabilityState.t)
| OperationClassMismatch (capability_class : CapabilityClass.t) (operation_kind : string)
| OperationUnsupportedInT047 (o : VaultOperation.t)
| OperationUnsupportedInT049 (o : VaultOperation.t)
| KeyAlgorithmMismatch (expected found : KeyAlgorithm.t)
| CryptoError (m : string)
| EvidenceEmitFailed (m : string)
| Internal (m : string)
| KeyMaterialLeak.
End VaultError.

(** * Vault: state, environment and evidence

    [VaultState.t] is what the vault's components share: the identity catalog's
    three maps ([identity_catalog.rs]), the broker's two ([in_memory_broker.rs]),
    the audit log ([audit.rs]) and the overrides ([override_broker.rs]).
    [VaultWorld.t L] adds an evidence log of type [L] and the environment: the
    successive readings of the clock, the fresh ULIDs and the bytes of [OsRng].
    [evidence_emit.rs] and [evidence_payloads.rs]: the trait [VaultEvidenceLog],
    its in-memory implementation and the emitter. *)

(** ** The state *)
Module CapabilityAuditEntry.
Record t : Type := {
  capability_id : string;
  use_count : Z;
  last_used_at : option DateTime;
  last_used_op_kind : option string;
  issued_by : string;
  revoked_by : option string;
  revoked_at : option DateTime;
  expired_at : option DateTime;
}.
End CapabilityAuditEntry.

Module VaultState.
Record t : Type := {
  subjects : gmap string Identity.Subject.t;
  sessions : gmap string Identity.Session.t;
  group_membership : gmap string (list string);
  capabilities : gmap string (VaultCapability.t * KeyMaterial.t);
  derived_key_materials : gmap string KeyMaterial.t;
  audit : gmap string CapabilityAuditEntry.t;
  overrides : gmap string OverrideBinding.t;
}.

Definition empty : t :=
  {| subjects := ∅; sessions := ∅; group_membership := ∅; capabilities := ∅;
     derived_key_materials := ∅; audit := ∅; overrides := ∅ |}.

Definition set_subjects m s :=
  {| subjects := m; sessions := sessions s; group_membership := group_membership s;
     capabilities := capabilities s; derived_key_materials := derived_key_materials s;
     audit := audit s; overrides := overrides s |}.
Definition set_sessions m s :=
  {| subjects := subjects s; sessions := m; group_membership := group_membership s;
     capabilities := capabilities s; derived_key_materials := derived_key_materials s;
     audit := audit s; overrides := overrides s |}.
Definition set_group_membership m s :=
  {| subjects := subjects s; sessions := sessions s; group_membership := m;
     capabilities := capabilities s; derived_key_materials := derived_key_materials s;
     audit := audit s; overrides := overrides s |}.
Definition set_capabilities m s :=
  {| subjects := subjects s; sessions := sessions s; group_membership := group_membership s;
     capabilities := m; derived_key_materials := derived_key_materials s;
     audit := audit s; overrides := overrides s |}.
Definition set_derived_key_materials m s :=
  {| subjects := subjects s; sessions := sessions s; group_membership := group_membership s;
     capabilities := capabilities s; derived_key_materials := m;
     audit := audit s; overrides := overrides s |}.
Definition set_audit m s :=
  {| subjects := subjects s; sessions := sessions s; group_membership := group_membership s;
     capabilities := capabilities s; derived_key_materials := derived_key_materials s;
     audit := m; overrides := overrides s |}.
Definition set_overrides m s :=
  {| subjects := subjects s; sessions := sessions s; group_membership := group_membership s;
     capabilities := capabilities s; derived_key_materials := derived_key_materials s;
     audit := audit s; overrides := m |}.
End VaultState.

(** ** The log interface *)
Class VaultEvidenceLog (L : Type) `{Primitives} := {
  vault_append_signed :
    Receipt.ReceiptBuilder -> SigningKey -> option string -> L -> result EvidenceError Receipt.t * L;
}.

Module InMemoryVaultEvidenceLog.
Section Ops.
Context `{Primitives}.

(** [mint] and [times] are the identifiers and times of the successive seals. *)
Record t : Type := {
  chain : list Receipt.t;
  mint : nat -> string;
  times : nat -> DateTime;
  seals : nat;
}.

Definition new (mint : nat -> string) (times : nat -> DateTime) : t :=
  {| chain := []; mint := mint; times := times; seals := 0 |}.

Definition validate_expected_previous_receipt (previous : option Receipt.t)
    (expected : option string) : result EvidenceError () :=
  match expected with
  | None => Ok ()
  | Some e =>
      match previous with
      | None => Err (EncodingFailed ("expected previous receipt id " +:+ e +:+ ", but chain is empty"))
      | Some p =>
          if String.eqb (Receipt.receipt_id p) e then Ok ()
          else Err (EncodingFailed ("expected previous receipt id " +:+ e +:+ ", but chain tail is "
                                      +:+ Receipt.receipt_id p))
      end
  end.

Definition append_signed (b : Receipt.ReceiptBuilder) (key : SigningKey) (expected : option string)
    (l : t) : result EvidenceError Receipt.t * t :=
  let previous := last (chain l) in
  let next rs := {| chain := rs; mint := mint l; times := times l; seals := S (seals l) |} in
  match (let? _ := validate_expected_previous_receipt previous expected in
         let? r := Receipt.seal_signed (mint l (seals l)) (times l (seals l)) b previous key in
         let? rs := ReceiptChain.append (chain l) r in
         Ok (r, rs)) with
  | Err e => (Err e, next (chain l))
  | Ok (r, rs) => (Ok r, next rs)
  end.

#[export] Instance log : VaultEvidenceLog t := {| vault_append_signed := append_signed |}.
End Ops.
End InMemoryVaultEvidenceLog.

Definition AIOS_VAULT_SUBJECT : string := "_system:service:vault-broker".

(** [Display] of the evidence errors, which only reaches error messages. *)
Class VaultTexts := { vault_evidence_error_text : EvidenceError -> string }.

Record VaultEvidenceEmitter `{Primitives} : Type := {
  vault_emitter_key : SigningKey;
  vault_emitter_subject : string;
}.

Module VaultWorld.
Record t {L : Type} : Type := {
  store : VaultState.t;
  evidence : L;
  clock : nat -> DateTime;
  reads : nat;
  ulids : nat -> string;
  drawn : nat;
  entropy : nat -> Ascii.ascii;
  taken : nat;
}.
Arguments t : clear implicits.
End VaultWorld.

Definition operation_kind_variant_name (operation_kind : string) : string :=
  let among := fun a b => String.eqb operation_kind a || String.eqb operation_kind b in
  if among "ENCRYPT" "Encrypt" then "Encrypt"
  else if among "DECRYPT" "Decrypt" then "Decrypt"
  else if among "MAC_GENERATE" "MacGenerate" then "MacGenerate"
  else if among "MAC_VERIFY" "MacVerify" then "MacVerify"
  else if among "KDF_DERIVE" "KdfDerive" then "KdfDerive"
  else if among "SIGN" "Sign" then "Sign"
  else if among "VERIFY" "Verify" then "Verify"
  else if among "RANDOM_GENERATE" "RandomGenerate" then "RandomGenerate"
  else if among "SECRET_GET" "SecretGet" then "SecretGet"
  else operation_kind.

(** ** The emitter *)
Section Emit.
Context {L : Type} `{VaultEvidenceLog L} `{!VaultTexts}.

Abbreviation W := (VaultWorld.t L).
Abbreviation M := (M (VaultWorld.t L) VaultError.t).

Definition with_store (f : VaultState.t -> VaultState.t) (w : W) : W :=
  {| VaultWorld.store := f (VaultWorld.store w); VaultWorld.evidence := VaultWorld.evidence w;
     VaultWorld.clock := VaultWorld.clock w; VaultWorld.reads := VaultWorld.reads w;
     VaultWorld.ulids := VaultWorld.ulids w; VaultWorld.drawn := VaultWorld.drawn w;
     VaultWorld.entropy := VaultWorld.entropy w; VaultWorld.taken := VaultWorld.taken w |}.
Definition vault_set_evidence (l : L) (w : W) : W :=
  {| VaultWorld.store := VaultWorld.store w; VaultWorld.evidence := l;
     VaultWorld.clock := VaultWorld.clock w; VaultWorld.reads := VaultWorld.reads w;
     VaultWorld.ulids := VaultWorld.ulids w; VaultWorld.drawn := VaultWorld.drawn w;
     VaultWorld.entropy := VaultWorld.entropy w; VaultWorld.taken := VaultWorld.taken w |}.

Definition vault_get : M VaultState.t := fun w => (Ok (VaultWorld.store w), w).
Definition vault_change (f : VaultState.t -> VaultState.t) : M () := modify (with_store f).

(** [Utc::now()]. *)
Definition vault_now : M DateTime := fun w =>
  (Ok (VaultWorld.clock w (VaultWorld.reads w)),
   {| VaultWorld.store := VaultWorld.store w; VaultWorld.evidence := VaultWorld.evidence w;
      VaultWorld.clock := VaultWorld.clock w; VaultWorld.reads := S (VaultWorld.reads w);
      VaultWorld.ulids := VaultWorld.ulids w; VaultWorld.drawn := VaultWorld.drawn w;
      VaultWorld.entropy := VaultWorld.entropy w; VaultWorld.taken := VaultWorld.taken w |}).

(** A prefix and [Ulid::new()]. *)
Definition vault_fresh (prefix : string) : M string := fun w =>
  (Ok (prefix +:+ VaultWorld.ulids w (VaultWorld.drawn w)),
   {| VaultWorld.store := VaultWorld.store w; VaultWorld.evidence := VaultWorld.evidence w;
      VaultWorld.clock := VaultWorld.clock w; VaultWorld.reads := VaultWorld.reads w;
      VaultWorld.ulids := VaultWorld.ulids w; VaultWorld.drawn := S (VaultWorld.drawn w);
      VaultWorld.entropy := VaultWorld.entropy w; VaultWorld.taken := VaultWorld.taken w |}).

(** [OsRng.fill_bytes] of [n] bytes. *)
Definition fill_bytes (n : nat) : M bytes := fun w =>
  (Ok (String.string_of_list_ascii (VaultWorld.entropy w <$> seq (VaultWorld.taken w) n)),
   {| VaultWorld.store := VaultWorld.store w; VaultWorld.evidence := VaultWorld.evidence w;
      VaultWorld.clock := VaultWorld.clock w; VaultWorld.reads := VaultWorld.reads w;
      VaultWorld.ulids := VaultWorld.ulids w; VaultWorld.drawn := VaultWorld.drawn w;
      VaultWorld.entropy := VaultWorld.entropy w; VaultWorld.taken := n + VaultWorld.taken w |}).

Definition vault_emit (em : VaultEvidenceEmitter) (rt : RecordType.t) (payload : json)
    (prev_receipt_id : option string) : M string := fun w =>
  let b := Receipt.with_payload payload
             (Receipt.new rt (RecordType.retention_class_for rt) (vault_emitter_subject em)) in
  match vault_append_signed b (vault_emitter_key em) prev_receipt_id (VaultWorld.evidence w) with
  | (Ok r, l) => (Ok (Receipt.receipt_id r), vault_set_evidence l w)
  | (Err e, l) =>
      (Err (VaultError.EvidenceEmitFailed (vault_evidence_error_text e)), vault_set_evidence l w)
  end.

Definition time_at (k : string) (t : DateTime) : string * json := (k, JString (datetime_to_json t)).
Definition text_at (k v : string) : string * json := (k, JString v).
Definition or_null {A} (f : A -> json) (x : option A) : json := match x with Some a => f a | None => JNull end.

Definition emit_capability_issued (em : VaultEvidenceEmitter) (c : VaultCapability.t)
    (issued_to : string) (prev : option string) : M string :=
  vault_emit em RecordType.VaultCapabilityIssued
    (JObject [text_at "capability_id" (VaultCapability.capability_id c);
              text_at "class" (CapabilityClass.wire (VaultCapability.class c));
              text_at "issued_to" issued_to; time_at "issued_at" (VaultCapability.issued_at c);
              ("expires_at", or_null (fun t => JString (datetime_to_json t))
                               (VaultCapability.expires_at c))]) prev.

Definition emit_capability_used (em : VaultEvidenceEmitter) (id op_kind : string)
    (prev : option string) : M string :=
  let! now := vault_now in
  vault_emit em RecordType.VaultOperation
    (JObject [text_at "capability_id" id;
              text_at "operation_kind" (operation_kind_variant_name op_kind);
              time_at "used_at" now; text_at "subject" (vault_emitter_subject em)]) prev.

Definition emit_capability_revoked (em : VaultEvidenceEmitter) (id revoked_by reason : string)
    (prev : option string) : M string :=
  let! now := vault_now in
  vault_emit em RecordType.VaultCapabilityRevoked
    (JObject [text_at "capability_id" id; text_at "revoked_by" revoked_by; text_at "reason" reason;
              time_at "revoked_at" now]) prev.

Definition emit_capability_expired (em : VaultEvidenceEmitter) (id : string) (expired_at : DateTime)
    (prev : option string) : M string :=
  vault_emit em RecordType.VaultOperation
    (JObject [text_at "capability_id" id; time_at "expired_at" expired_at]) prev.

Definition emit_override_granted (em : VaultEvidenceEmitter) (b : OverrideBinding.t)
    (prev : option string) : M string :=
  vault_emit em RecordType.OverrideGranted
    (JObject [text_at "binding_id" (OverrideBinding.binding_id b);
              text_at "class" (OverrideClass.wire (OverrideBinding.class b));
              ("granted_by", JArray (JString <$> OverrideBinding.granted_by b));
              ("target_action_id", or_null JString (OverrideBinding.target_action_id b));
              time_at "granted_at" (OverrideBinding.granted_at b);
              time_at "expires_at" (OverrideBinding.expires_at b)]) prev.

Definition emit_override_consumed (em : VaultEvidenceEmitter) (id consumer : string)
    (prev : option string) : M string :=
  let! now := vault_now in
  vault_emit em RecordType.OverrideConsumed
    (JObject [text_at "binding_id" id; text_at "consumer" consumer; time_at "consumed_at" now]) prev.

Definition emit_override_revoked (em : VaultEvidenceEmitter) (id revoker : string)
    (prev : option string) : M string :=
  let! now := vault_now in
  vault_emit em RecordType.OverrideRevoked
    (JObject [text_at "binding_id" id; text_at "revoker" revoker; time_at "revoked_at" now]) prev.

(** [if let Some(evidence_emitter) = ..]: a record when an emitter is attached. *)
Definition when_attached (em : option VaultEvidenceEmitter) (f : VaultEvidenceEmitter -> M string)
    : M () :=
  match em with
  | Some em => let! _ := f em in ret ()
  | None => ret ()
  end.

(** ** Evidence never touches the state *)
Definition vault_refused (e : VaultError.t) : Prop := exists m, e = VaultError.EvidenceEmitFailed m.

(** [w'] is [w] but for the evidence and the number of readings of the clock. *)
Definition undisturbed (w w' : W) : Prop :=
  VaultWorld.store w' = VaultWorld.store w /\ VaultWorld.clock w' = VaultWorld.clock w /\
  VaultWorld.ulids w' = VaultWorld.ulids w /\ VaultWorld.drawn w' = VaultWorld.drawn w /\
  VaultWorld.entropy w' = VaultWorld.entropy w /\ VaultWorld.taken w' = VaultWorld.taken w.

#[export] Instance undisturbed_preorder : PreOrder undisturbed.
Proof.
  split; [by intros w|]. intros w1 w2 w3 (? & ? & ? & ? & ? & ?) (? & ? & ? & ? & ? & ?).
  unfold undisturbed. split_and!; congruence.
Qed.

(** [m] only reads the clock and writes evidence. *)
Definition discreet {B} (m : M B) : Prop := forall w,
  post m (fun _ w' => undisturbed w w') (fun e w' => vault_refused e /\ undisturbed w w') w.

Lemma vault_emit_discreet em rt p prev : discreet (vault_emit em rt p prev).
Proof.
  intros w. unfold post, vault_emit. cbv zeta. destruct (vault_append_signed _ _ _ _) as [[r|e] l]; [done|].
  split; [by eexists|done].
Qed.
Lemma now_discreet {B} (f : DateTime -> M B) :
  (forall t, discreet (f t)) -> discreet (let! now := vault_now in f now).
Proof. intros Hf w. exact (Hf (VaultWorld.clock w (VaultWorld.reads w)) (vault_now w).2). Qed.
Lemma when_attached_discreet em f : (forall e, discreet (f e)) -> discreet (when_attached em f).
Proof.
  intros Hf w. destruct em as [e|]; [|done]. specialize (Hf e w). unfold post, when_attached, mbind_ in *.
  by destruct (f e w) as [[b|x] w'].
Qed.

Lemma emit_capability_issued_discreet em c to prev : discreet (emit_capability_issued em c to prev).
Proof. apply vault_emit_discreet. Qed.
Lemma emit_capability_used_discreet em id kind prev : discreet (emit_capability_used em id kind prev).
Proof. apply now_discreet. intros t. apply vault_emit_discreet. Qed.
Lemma emit_capability_revoked_discreet em id by_ why prev :
  discreet (emit_capability_revoked em id by_ why prev).
Proof. apply now_discreet. intros t. apply vault_emit_discreet. Qed.
Lemma emit_capability_expired_discreet em id t prev : discreet (emit_capability_expired em id t prev).
Proof. apply vault_emit_discreet. Qed.
Lemma emit_override_granted_discreet em b prev : discreet (emit_override_granted em b prev).
Proof. apply vault_emit_discreet. Qed.
Lemma emit_override_consumed_discreet em id who prev : discreet (emit_override_consumed em id who prev).
Proof. apply now_discreet. intros t. apply vault_emit_discreet. Qed.
Lemma emit_override_revoked_discreet em id who prev : discreet (emit_override_revoked em id who prev).
Proof. apply now_discreet. intros t. apply vault_emit_discreet. Qed.

(** ** The rules of the other primitives *)
Lemma post_vault_get Q E (w : W) : Q (VaultWorld.store w) w -> post vault_get Q E w.
Proof. done. Qed.
Lemma post_read {B} (f : VaultState.t -> M B) Q E (w : W) :
  post (f (VaultWorld.store w)) Q E w -> post (let! s := vault_get in f s) Q E w.
Proof. done. Qed.
Lemma post_vault_change f Q E (w : W) : Q () (with_store f w) -> post (vault_change f) Q E w.
Proof. done. Qed.
Lemma post_discreet {B} (m : M B) Q E w :
  discreet m -> (forall b w', undisturbed w w' -> Q b w') ->
  (forall e w', vault_refused e -> undisturbed w w' -> E e w') -> post m Q E w.
Proof. intros Hd HQ HE. eapply post_mono; [apply Hd|auto|]. intros e w' [??]. auto. Qed.
Lemma post_vault_now Q E (w : W) :
  (forall w', undisturbed w w' -> Q (VaultWorld.clock w (VaultWorld.reads w)) w') -> post vault_now Q E w.
Proof. intros HQ. by apply HQ. Qed.
End Emit.

Create HintDb discreet.
#[export] Hint Resolve vault_emit_discreet now_discreet when_attached_discreet
  emit_capability_issued_discreet emit_capability_used_discreet emit_capability_revoked_discreet
  emit_capability_expired_discreet emit_override_granted_discreet emit_override_consumed_discreet
  emit_override_revoked_discreet : discreet.
