(* ===== verification/VaultCrypto.v ===== *)
(** * Vault: cryptographic operations ([crypto/])

    The helpers that the broker dispatches to: checks of lengths, framing and
    randomness around primitives of third-party crates, which are the class
    [VaultCrypto]; [VaultCryptoLaws] states what the crate relies on of them. *)
From S2P Require Import Prelude Receipt StateError VaultTypes.

(** AES-256-GCM under a 32-byte key and a 12-byte nonce; HMAC-SHA256, with the
    keys its constructor accepts; HKDF-SHA256 expansion to a length;
    Ed25519 on 32-byte seeds and verifying keys; the static secret of X25519.
    The digest of derived handles is [blake3_to_hex] of [Primitives]. *)
Class VaultCrypto := {
  gcm_encrypt : bytes -> bytes -> bytes -> bytes -> option bytes;
  gcm_decrypt : bytes -> bytes -> bytes -> bytes -> option bytes;
  hmac_accepts : bytes -> bool;
  hmac_sha256 : bytes -> bytes -> bytes;
  hkdf_expand : bytes -> bytes -> nat -> option bytes;
  ed25519_public : bytes -> bytes;
  ed25519_sign : bytes -> bytes -> bytes;
  ed25519_is_key : bytes -> bool;
  ed25519_verify : bytes -> bytes -> bytes -> bool;
  x25519_secret : bytes -> bytes;
}.

(** [gcm_encrypt key nonce message aad], likewise [gcm_decrypt]. *)
Class VaultCryptoLaws `{VaultCrypto} : Prop := {
  gcm_decrypt_encrypt k n m a c : gcm_encrypt k n m a = Some c -> gcm_decrypt k n c a = Some m;
  hmac_length k m : String.length (hmac_sha256 k m) = 32;
  sign_is_64 k m : String.length (ed25519_sign k m) = 64;
  public_is_32 k : String.length (ed25519_public k) = 32;
  public_is_key k : ed25519_is_key (ed25519_public k) = true;
  ed25519_verify_sign k m : ed25519_verify (ed25519_public k) m (ed25519_sign k m) = true;
}.

(** [usize::to_be_bytes] on [n] bytes. *)
Fixpoint be_bytes (n : nat) (x : N) : bytes :=
  match n with
  | O => ""
  | S n => be_bytes n (x / 256)%N +:+ String (Ascii.ascii_of_N (x mod 256)) ""
  end.

Definition crypto_error (m : string) : VaultError.t := VaultError.CryptoError m.

(** A key of another length than the primitive takes. *)
Definition wrong_length (what : string) (expected : nat) (got : bytes) : VaultError.t :=
  crypto_error (what +:+ " must be " +:+ pretty expected +:+ " bytes, got "
                  +:+ pretty (String.length got)).

(** [crypto/aes_gcm.rs] *)
Module AesGcm.
Section Ops.
Context `{Primitives, !VaultCrypto} {L : Type}.
Abbreviation M := (M (VaultWorld.t L) VaultError.t).

Definition KEY_LEN : nat := 32.
Definition NONCE_LEN : nat := 12.

Definition cipher (key : bytes) : result VaultError.t bytes :=
  if (String.length key =? KEY_LEN)%nat then Ok key
  else Err (wrong_length "AES-256-GCM key" KEY_LEN key).

Definition generate_key : M bytes := fill_bytes KEY_LEN.

(** The nonce-prefixed ciphertext, and the nonce. *)
Definition encrypt (key plaintext aad : bytes) : M (bytes * bytes) :=
  let! key := lift (cipher key) in
  let! nonce := fill_bytes NONCE_LEN in
  let! encrypted := lift (ok_or (gcm_encrypt key nonce plaintext aad)
                            (crypto_error "AES-256-GCM encryption failed")) in
  ret (nonce +:+ encrypted, nonce).

Definition decrypt (key nonce_prefixed_ciphertext aad : bytes) : result VaultError.t bytes :=
  if (String.length nonce_prefixed_ciphertext <? NONCE_LEN)%nat
  then Err (crypto_error "AES-256-GCM ciphertext is missing nonce prefix")
  else
    let nonce := String.substring 0 NONCE_LEN nonce_prefixed_ciphertext in
    let ciphertext := String.substring NONCE_LEN
                        (String.length nonce_prefixed_ciphertext - NONCE_LEN)
                        nonce_prefixed_ciphertext in
    let? key := cipher key in
    ok_or (gcm_decrypt key nonce ciphertext aad) (crypto_error "AES-256-GCM decryption failed").
End Ops.
End AesGcm.

(** [crypto/hmac.rs] *)
Module HmacSha256.
Section Ops.
Context `{Primitives, !VaultCrypto} {L : Type}.
Abbreviation M := (M (VaultWorld.t L) VaultError.t).

Definition KEY_LEN : nat := 32.
Definition TAG_LEN : nat := 32.

Definition generate_key : M bytes := fill_bytes KEY_LEN.

Definition mac (key : bytes) : result VaultError.t bytes :=
  if hmac_accepts key then Ok key else Err (crypto_error "HMAC-SHA256 key rejected").

Definition generate (key message : bytes) : result VaultError.t bytes :=
  let? key := mac key in Ok (hmac_sha256 key message).

Definition verify (key message tag : bytes) : result VaultError.t bool :=
  if negb (String.length tag =? TAG_LEN)%nat then Err (wrong_length "HMAC-SHA256 tag" TAG_LEN tag)
  else
    let? key := mac key in Ok (String.eqb (hmac_sha256 key message) tag).
End Ops.
End HmacSha256.

(** [crypto/hkdf.rs] *)
Module HkdfSha256.
Section Ops.
Context `{Primitives, !VaultCrypto} {L : Type}.
Abbreviation M := (M (VaultWorld.t L) VaultError.t).

Definition IKM_LEN : nat := 32.

Definition generate_ikm : M bytes := fill_bytes IKM_LEN.

Definition derived_handle (info : bytes) (length : nat) (derived : bytes) : string :=
  "vault-derived:hkdf-sha256:" +:+
    String.substring 0 32
      (blake3_to_hex ("aios-vault:hkdf-sha256:v1" +:+ be_bytes 8 (N.of_nat length) +:+ info
                        +:+ derived)).

(** The handle and the derived bytes. *)
Definition derive (ikm info : bytes) (length : Z) : result VaultError.t (string * bytes) :=
  if (length =? 0)%Z then Err (crypto_error "HKDF-SHA256 output length must be non-zero")
  else
    let length := Z.to_nat length in
    let? derived := ok_or (hkdf_expand ikm info length)
                      (crypto_error "HKDF-SHA256 expansion failed") in
    Ok (derived_handle info length derived, derived).
End Ops.
End HkdfSha256.

(** [crypto/ed25519.rs] *)
Module Ed25519.
Section Ops.
Context `{Primitives, !VaultCrypto} {L : Type}.
Abbreviation M := (M (VaultWorld.t L) VaultError.t).

Definition KEY_LEN : nat := 32.
Definition SIGNATURE_LEN : nat := 64.

Definition generate_signing_key : M bytes := fill_bytes KEY_LEN.

Definition key_bytes (key : bytes) : result VaultError.t bytes :=
  if (String.length key =? KEY_LEN)%nat then Ok key
  else Err (wrong_length "Ed25519 key material" KEY_LEN key).

Definition sign (key message : bytes) : result VaultError.t bytes :=
  let? seed := key_bytes key in Ok (ed25519_sign seed message).

(** The key is tried as a verifying key first and then as a signing seed. *)
Definition verify (key message signature : bytes) : result VaultError.t bool :=
  if negb (String.length signature =? SIGNATURE_LEN)%nat
  then Err (wrong_length "Ed25519 signature" SIGNATURE_LEN signature)
  else
    let? key := key_bytes key in
    if ed25519_is_key key && ed25519_verify key message signature then Ok true
    else Ok (ed25519_verify (ed25519_public key) message signature).
End Ops.
End Ed25519.

Section Generate.
Context `{Primitives, !VaultCrypto} {L : Type}.
Abbreviation M := (M (VaultWorld.t L) VaultError.t).

Definition generate_x25519_static_secret : M bytes :=
  let! seed := fill_bytes 32 in ret (x25519_secret seed).

Definition generate_key_material (a : KeyAlgorithm.t) : M bytes :=
  match a with
  | KeyAlgorithm.Aes256Gcm => AesGcm.generate_key
  | KeyAlgorithm.HmacSha256 => HmacSha256.generate_key
  | KeyAlgorithm.HkdfSha256 => HkdfSha256.generate_ikm
  | KeyAlgorithm.Ed25519 => Ed25519.generate_signing_key
  | KeyAlgorithm.X25519 => generate_x25519_static_secret
  end.
End Generate.

(** ** Lemmas *)

Lemma substring_prefix (a b : string) : String.substring 0 (String.length a) (a +:+ b) = a.
Proof. induction a as [|c a IH]; [by destruct b|]. rewrite str_app_cons. simpl. by rewrite IH. Qed.
Lemma substring_suffix (a b : string) :
  String.substring (String.length a) (String.length b) (a +:+ b) = b.
Proof.
  induction a as [|c a IH]; [|by rewrite str_app_cons].
  transitivity (String.substring 0 (String.length b) (b +:+ "")); [|apply substring_prefix].
  by rewrite str_app_nil_r.
Qed.

Lemma fill_bytes_length {L} n (w : VaultWorld.t L) b w' :
  fill_bytes n w = (Ok b, w') -> String.length b = n.
Proof.
  intros [= <- _]. generalize (VaultWorld.taken w).
  induction n as [|n IH]; intros k; [done|]. simpl. by rewrite IH.
Qed.

Section Laws.
Context `{Primitives, !VaultCrypto, !VaultCryptoLaws} {L : Type}.

(** What was encrypted is decrypted under the same key and data. *)
Lemma gcm_roundtrip key plaintext aad (w : VaultWorld.t L) c nonce w' :
  AesGcm.encrypt key plaintext aad w = (Ok (c, nonce), w') ->
  AesGcm.decrypt key c aad = Ok plaintext.
Proof.
  unfold AesGcm.encrypt, mbind_, lift. destruct (AesGcm.cipher key) as [k|] eqn:Hk; [|done].
  destruct (fill_bytes _ w) as [[n|] w1] eqn:Hf; [|done]. apply fill_bytes_length in Hf.
  destruct (gcm_encrypt k n plaintext aad) as [e|] eqn:He; [|done]. intros [= <- <- <-].
  unfold AesGcm.decrypt. rewrite Hk. rewrite str_length_app, <- Hf.
  replace (String.length n + String.length e - String.length n) with (String.length e) by lia.
  rewrite substring_prefix, substring_suffix, Hf.
  destruct (Nat.ltb_spec (AesGcm.NONCE_LEN + String.length e) AesGcm.NONCE_LEN); [lia|].
  simpl. by rewrite (gcm_decrypt_encrypt _ _ _ _ _ He).
Qed.

Lemma hmac_roundtrip key message tag :
  HmacSha256.generate key message = Ok tag -> HmacSha256.verify key message tag = Ok true.
Proof.
  unfold HmacSha256.generate, HmacSha256.verify. destruct (HmacSha256.mac key) as [k|]; [|done].
  intros [= <-]. rewrite hmac_length. simpl. by rewrite String.eqb_refl.
Qed.

(** A signature verifies under the seed that made it, and under whatever
    verifies it as a public key. *)
Lemma ed25519_accepts key message signature :
  String.length key = Ed25519.KEY_LEN -> String.length signature = Ed25519.SIGNATURE_LEN ->
  ed25519_verify (ed25519_public key) message signature = true \/
    (ed25519_is_key key = true /\ ed25519_verify key message signature = true) ->
  Ed25519.verify key message signature = Ok true.
Proof.
  intros Hk Hs Hv. unfold Ed25519.verify, Ed25519.key_bytes. rewrite Hs, Hk. simpl.
  destruct Hv as [Hv|[-> ->]]; [|done]. rewrite Hv. by destruct (_ && _).
Qed.

Lemma ed25519_seed_roundtrip key message signature :
  Ed25519.sign key message = Ok signature -> Ed25519.verify key message signature = Ok true.
Proof.
  unfold Ed25519.sign, Ed25519.key_bytes. destruct (Nat.eqb_spec (String.length key) Ed25519.KEY_LEN); [|done].
  intros [= <-]. apply ed25519_accepts; [done|apply sign_is_64|left; apply ed25519_verify_sign].
Qed.

Lemma ed25519_public_roundtrip key message signature :
  Ed25519.sign key message = Ok signature ->
  Ed25519.verify (ed25519_public key) message signature = Ok true.
Proof.
  unfold Ed25519.sign, Ed25519.key_bytes. destruct (Nat.eqb_spec (String.length key) Ed25519.KEY_LEN); [|done].
  intros [= <-]. apply ed25519_accepts; [apply public_is_32|apply sign_is_64|right].
  split; [apply public_is_key|apply ed25519_verify_sign].
Qed.
End Laws.
