(* ===== verification/VaultBroker.v ===== *)
(** * Vault: the capability broker

    The audit log ([audit.rs]), [InMemoryVaultBroker] ([in_memory_broker.rs])
    and [CapabilityLifecycleDriver] ([lifecycle.rs]) over the shared state of
    [VaultState].  [HashOrder] is the order in which a hash map is iterated,
    which depends on its keys alone. *)
From stdpp Require Import sorting.
From S2P Require Import Prelude Receipt StateError VaultTypes VaultCrypto.
Import VaultState.

(** ** The audit log *)
Module CapabilityAuditLog.
Section Ops.
Context {L : Type}.
Abbreviation M := (M (VaultWorld.t L) VaultError.t).
Import CapabilityAuditEntry.

Definition record_issue (id issued_by : string) : M () :=
  vault_change (fun s => set_audit (<[id := {| capability_id := id; use_count := 0;
     last_used_at := None; last_used_op_kind := None; issued_by := issued_by; revoked_by := None;
     revoked_at := None; expired_at := None |}]> (audit s)) s).

Definition put (id : string) (e : t) : M () :=
  vault_change (fun s => set_audit (<[id := e]> (audit s)) s).

Definition record_use (id op_kind : string) : M () :=
  let! s := vault_get in
  match audit s !! id with
  | None => ret ()
  | Some e =>
      let! now := vault_now in
      put id {| capability_id := capability_id e; use_count := Z.min (use_count e + 1) u64_max;
                last_used_at := Some now; last_used_op_kind := Some op_kind;
                issued_by := issued_by e; revoked_by := revoked_by e; revoked_at := revoked_at e;
                expired_at := expired_at e |}
  end.

Definition record_revoke (id revoked_by : string) : M () :=
  let! s := vault_get in
  match audit s !! id with
  | None => ret ()
  | Some e =>
      let! now := vault_now in
      put id {| capability_id := capability_id e; use_count := use_count e;
                last_used_at := last_used_at e; last_used_op_kind := last_used_op_kind e;
                issued_by := issued_by e; CapabilityAuditEntry.revoked_by := Some revoked_by;
                revoked_at := Some now; expired_at := expired_at e |}
  end.

Definition record_expire (id : string) : M () :=
  let! s := vault_get in
  match audit s !! id with
  | None => ret ()
  | Some e =>
      match expired_at e with
      | Some _ => ret ()
      | None =>
          let! now := vault_now in
          put id {| capability_id := capability_id e; use_count := use_count e;
                    last_used_at := last_used_at e; last_used_op_kind := last_used_op_kind e;
                    issued_by := issued_by e; revoked_by := revoked_by e;
                    revoked_at := revoked_at e; expired_at := Some now |}
      end
  end.

Definition lookup_entry (id : string) (s : VaultState.t) : option t := audit s !! id.

Definition entry_le (a b : t) : Prop := String.le (capability_id a) (capability_id b).
#[export] Instance entry_le_dec : RelDecision entry_le.
Proof. intros a b. unfold entry_le. apply _. Defined.
Definition list_all (s : VaultState.t) : list t := merge_sort entry_le (map_to_list (audit s)).*2.
End Ops.
End CapabilityAuditLog.

(** ** The broker *)
Record InMemoryVaultBroker `{Primitives} : Type := {
  audit_log : bool;
  evidence_emitter : option VaultEvidenceEmitter;
}.

Definition expect_algorithm (expected found : KeyAlgorithm.t) : result VaultError.t () :=
  if bool_decide (expected = found) then Ok ()
  else Err (VaultError.KeyAlgorithmMismatch expected found).

Definition validate_key_algorithm_for_class (c : CapabilityClass.t) (found : KeyAlgorithm.t)
    : result VaultError.t () :=
  match c with
  | CapabilityClass.KeySign | CapabilityClass.KeyVerify | CapabilityClass.BootstrapKeySign =>
      expect_algorithm KeyAlgorithm.Ed25519 found
  | CapabilityClass.KeyEncrypt | CapabilityClass.KeyDecrypt =>
      match found with
      | KeyAlgorithm.Aes256Gcm | KeyAlgorithm.HkdfSha256 | KeyAlgorithm.X25519 => Ok ()
      | _ => expect_algorithm KeyAlgorithm.Aes256Gcm found
      end
  | CapabilityClass.MacGenerate | CapabilityClass.MacVerify =>
      expect_algorithm KeyAlgorithm.HmacSha256 found
  | CapabilityClass.RandomGenerate | CapabilityClass.SecretGet => Ok ()
  end.

Section Broker.
Context `{!VaultCrypto, !HashOrder} {L : Type} `{VaultEvidenceLog L} `{!VaultTexts}.
Abbreviation M := (M (VaultWorld.t L) VaultError.t).

Definition when_audited (b : InMemoryVaultBroker) (m : M ()) : M () :=
  if audit_log b then m else ret ().

Definition set_capability (id : string) (c : VaultCapability.t) (k : KeyMaterial.t) : M () :=
  vault_change (fun s => set_capabilities (<[id := (c, k)]> (capabilities s)) s).

Definition issue_capability (b : InMemoryVaultBroker) (request : IssueCapabilityRequest.t)
    : M VaultCapability.t :=
  let class := IssueCapabilityRequest.class request in
  let key_algorithm := IssueCapabilityRequest.key_algorithm request in
  let! _ := lift (validate_key_algorithm_for_class class key_algorithm) in
  let! now := vault_now in
  let! capability_id := vault_fresh CapabilityId.PREFIX in
  let! material := match IssueCapabilityRequest.key_material_bytes request with
                   | Some k => ret k
                   | None => generate_key_material key_algorithm
                   end in
  let key_material := {| KeyMaterial.algorithm := key_algorithm; KeyMaterial.created_at := now;
                         KeyMaterial.material := material |} in
  let capability := {| VaultCapability.capability_id := capability_id;
                       VaultCapability.class := class;
                       VaultCapability.issued_to := IssueCapabilityRequest.issued_to request;
                       VaultCapability.issued_at := now;
                       VaultCapability.expires_at := IssueCapabilityRequest.expires_at request;
                       VaultCapability.state := CapabilityState.Active;
                       VaultCapability.key_material_handle := "vault-internal:" +:+ capability_id |} in
  let! _ := set_capability capability_id capability key_material in
  let! _ := when_audited b (CapabilityAuditLog.record_issue capability_id
                              (VaultCapability.issued_to capability)) in
  let! _ := when_attached (evidence_emitter b) (fun em =>
              emit_capability_issued em capability (VaultCapability.issued_to capability) None) in
  ret capability.

Definition unsupported (o : VaultOperation.t) : VaultError.t := VaultError.OperationUnsupportedInT049 o.

(** The guards of the match on the algorithm: another algorithm than the
    operation takes falls through to the last arm. *)
Definition execute_operation (key_material : KeyMaterial.t) (o : VaultOperation.t)
    : M UseCapabilityResult.t :=
  let key := KeyMaterial.material key_material in
  let under (a : KeyAlgorithm.t) (m : M UseCapabilityResult.t) : M UseCapabilityResult.t :=
    if bool_decide (KeyMaterial.algorithm key_material = a) then m else throw (unsupported o) in
  match o with
  | VaultOperation.Encrypt plaintext aad => under KeyAlgorithm.Aes256Gcm (
      let! encrypted := AesGcm.encrypt key plaintext aad in
      ret (UseCapabilityResult.Encrypted encrypted.1 encrypted.2 aad))
  | VaultOperation.Decrypt ciphertext aad => under KeyAlgorithm.Aes256Gcm (
      let! plaintext := lift (AesGcm.decrypt key ciphertext aad) in
      ret (UseCapabilityResult.Decrypted plaintext))
  | VaultOperation.MacGenerate message => under KeyAlgorithm.HmacSha256 (
      let! tag := lift (HmacSha256.generate key message) in
      ret (UseCapabilityResult.MacGenerated tag))
  | VaultOperation.MacVerify message tag => under KeyAlgorithm.HmacSha256 (
      let! valid := lift (HmacSha256.verify key message tag) in
      ret (UseCapabilityResult.MacVerified valid))
  | VaultOperation.KdfDerive info length =>
      if bool_decide (KeyMaterial.algorithm key_material = KeyAlgorithm.HkdfSha256)
      then
        let! derived := lift (HkdfSha256.derive key info length) in
        let! now := vault_now in
        let! _ := vault_change (fun s => set_derived_key_materials
                    (<[derived.1 := {| KeyMaterial.algorithm := KeyAlgorithm.HkdfSha256;
                                       KeyMaterial.created_at := now;
                                       KeyMaterial.material := derived.2 |}]>
                       (derived_key_materials s)) s) in
        ret (UseCapabilityResult.KdfDerived derived.1)
      else throw (VaultError.KeyAlgorithmMismatch KeyAlgorithm.HkdfSha256
                    (KeyMaterial.algorithm key_material))
  | VaultOperation.Sign message => under KeyAlgorithm.Ed25519 (
      let! signature := lift (Ed25519.sign key message) in
      ret (UseCapabilityResult.Signed signature))
  | VaultOperation.Verify message signature => under KeyAlgorithm.Ed25519 (
      let! valid := lift (Ed25519.verify key message signature) in
      ret (UseCapabilityResult.Verified valid))
  | VaultOperation.RandomGenerate byte_count =>
      let! random_bytes := fill_bytes (Z.to_nat byte_count) in
      ret (UseCapabilityResult.RandomGenerated random_bytes)
  | VaultOperation.SecretGet _ => throw (unsupported o)
  end.

(** [expires_at.is_some_and(|t| t < Utc::now())]: the clock is only read when
    there is an expiry. *)
Definition past_expiry (c : VaultCapability.t) : M bool :=
  match VaultCapability.expires_at c with
  | None => ret false
  | Some t => let! now := vault_now in ret (t <? now)%Z
  end.

(** The part of [use_capability] under the write lock. *)
Definition acquire (b : InMemoryVaultBroker) (id : string) (o : VaultOperation.t)
    : M KeyMaterial.t :=
  let! s := vault_get in
  match capabilities s !! id with
  | None => throw (VaultError.CapabilityNotFound id)
  | Some (c, k) =>
      match VaultCapability.state c with
      | CapabilityState.Active =>
          let! past := past_expiry c in
          if past : bool then
            let! _ := set_capability id (VaultCapability.set_state CapabilityState.Expired c) k in
            let! _ := when_audited b (CapabilityAuditLog.record_expire id) in
            throw (VaultError.CapabilityExpired id)
          else if negb (operation_matches_class (VaultCapability.class c) o)
                  && negb (operation_matches_t049_extension (VaultCapability.class c) o)
          then throw (VaultError.OperationClassMismatch (VaultCapability.class c)
                        (VaultOperation.operation_kind o))
          else ret k
      | CapabilityState.Expired => throw (VaultError.CapabilityExpired id)
      | CapabilityState.Revoked => throw (VaultError.CapabilityRevoked id)
      | x => throw (VaultError.InvalidTransition x CapabilityState.Active)
      end
  end.

Definition use_capability (b : InMemoryVaultBroker) (request : UseCapabilityRequest.t)
    : M UseCapabilityResult.t :=
  let id := UseCapabilityRequest.capability_id request in
  let o := UseCapabilityRequest.operation request in
  let kind := VaultOperation.operation_kind o in
  let! key_material := acquire b id o in
  let! res := execute_operation key_material o in
  let! _ := when_audited b (CapabilityAuditLog.record_use id kind) in
  let! _ := when_attached (evidence_emitter b) (fun em => emit_capability_used em id kind None) in
  ret res.

Definition list_capabilities (subject : string) : M (list VaultCapability.t) :=
  let! s := vault_get in
  ret (filter (fun c => VaultCapability.issued_to c = subject)
         ((hash_iter (capabilities s)).*2).*1).

(** The lookup and the state test that [revoke_capability] and
    [expire_capability] share; [to] is the state to move to. *)
Definition move_active (id : string) (to : CapabilityState.t) : M () :=
  let! s := vault_get in
  match capabilities s !! id with
  | None => throw (VaultError.CapabilityNotFound id)
  | Some (c, k) =>
      if negb (bool_decide (VaultCapability.state c = CapabilityState.Active))
      then throw (VaultError.InvalidTransition (VaultCapability.state c) to)
      else set_capability id (VaultCapability.set_state to c) k
  end.

Definition revoke_capability (b : InMemoryVaultBroker) (id revoked_by : string) : M () :=
  let! _ := move_active id CapabilityState.Revoked in
  let! _ := when_audited b (CapabilityAuditLog.record_revoke id revoked_by) in
  when_attached (evidence_emitter b) (fun em =>
    emit_capability_revoked em id revoked_by "admin_request" None).

(** ** The lifecycle driver, with its optional emitter *)
Definition expire_capability (em : option VaultEvidenceEmitter) (id : string) : M () :=
  let! _ := move_active id CapabilityState.Expired in
  let! _ := CapabilityAuditLog.record_expire id in
  when_attached em (fun em => let! now := vault_now in emit_capability_expired em id now None).

Definition is_due (now : DateTime) (c : VaultCapability.t) : bool :=
  bool_decide (VaultCapability.state c = CapabilityState.Active) &&
  match VaultCapability.expires_at c with Some t => (t <? now)%Z | None => false end.

Definition expire_due (now : DateTime) (e : VaultCapability.t * KeyMaterial.t)
    : VaultCapability.t * KeyMaterial.t :=
  if is_due now e.1 then (VaultCapability.set_state CapabilityState.Expired e.1, e.2) else e.

(** The records of one pass, in the order of the pass. *)
Fixpoint record_expirations (em : option VaultEvidenceEmitter) (now : DateTime) (ids : list string)
    : M () :=
  match ids with
  | [] => ret ()
  | id :: ids =>
      let! _ := CapabilityAuditLog.record_expire id in
      let! _ := when_attached em (fun em => emit_capability_expired em id now None) in
      record_expirations em now ids
  end.

Record ExpirationPassReport : Type := {
  pass_id : string;
  pass_started_at : DateTime;
  pass_completed_at : DateTime;
  capabilities_inspected : Z;
  capabilities_expired : Z;
}.

Definition run_expiration_pass (em : option VaultEvidenceEmitter) (now : DateTime)
    : M ExpirationPassReport :=
  let! started_at := vault_now in
  let! s := vault_get in
  let entries := hash_iter (capabilities s) in
  let expired := (filter (fun e => is_due now e.2.1 = true) entries).*1 in
  let! _ := vault_change (fun s => set_capabilities (expire_due now <$> capabilities s) s) in
  let! _ := record_expirations em now expired in
  let! id := vault_fresh "expp_" in
  let! completed_at := vault_now in
  ret {| pass_id := id; pass_started_at := started_at; pass_completed_at := completed_at;
         capabilities_inspected := Z.of_nat (size (capabilities s));
         capabilities_expired := Z.of_nat (length expired) |}.

(** [active_capability_count] of the service. *)
Definition active_capability_count (s : VaultState.t) : Z :=
  Z.of_nat (length (filter (fun c => VaultCapability.state c = CapabilityState.Active)
                      ((hash_iter (capabilities s)).*2).*1)).
End Broker.
