(* ===== verification/VaultIdentity.v ===== *)
(** * Vault: identity catalog and subject hydration

    [IdentityCatalog] ([identity_catalog.rs]): subjects, sessions and the index
    of group members, and [VaultSubjectHydrator] ([hydrator.rs]).  The catalog
    has a lock per map, so an operation that changes two maps is two atomic
    steps; their composition is the operation run without interference. *)
From S2P Require Import Prelude Collections StateError VaultTypes.
Import VaultState Identity.

Definition transition_expired_session (now : DateTime) (x : Session.t) : Session.t :=
  match Session.state x with
  | SessionState.Active | SessionState.Suspended =>
      if (Session.expires_at x <? now)%Z then Session.set_state SessionState.Expired x else x
  | _ => x
  end.

Definition expire_past_sessions_for_subject (subject_id : string) (now : DateTime)
    (m : gmap string Session.t) : gmap string Session.t :=
  (fun x => if String.eqb (Session.subject_id x) subject_id then transition_expired_session now x
            else x) <$> m.

(** [members.push(subject_id)] unless it is there. *)
Definition push_member (subject_id : string) (members : list string) : list string :=
  if existsb (String.eqb subject_id) members then members else members ++ [subject_id].

(** [entry(group_id).or_default()] followed by the push. *)
Definition index_membership (subject_id group_id : string) (m : gmap string (list string))
    : gmap string (list string) :=
  <[group_id := push_member subject_id (default [] (m !! group_id))]> m.

Fixpoint index_memberships (subject_id : string) (groups : list string)
    (m : gmap string (list string)) : gmap string (list string) :=
  match groups with
  | [] => m
  | g :: groups => index_memberships subject_id groups (index_membership subject_id g m)
  end.

(** [retain(|member| member != subject_id)] on a group that is there. *)
Definition unindex_membership (subject_id group_id : string) (m : gmap string (list string))
    : gmap string (list string) :=
  alter (filter (fun x => x <> subject_id)) group_id m.

(** [Vec::remove] at [position] of the first occurrence. *)
Fixpoint remove_first (x : string) (l : list string) : list string :=
  match l with
  | [] => []
  | y :: l => if String.eqb y x then l else y :: remove_first x l
  end.

Definition fixtures (now : DateTime) : list Subject.t :=
  let fixture id ty name gs ai :=
    {| Subject.canonical_subject_id := id; Subject.subject_type := ty;
       Subject.provisional_name := name; Subject.groups := gs; Subject.is_ai := ai;
       Subject.created_at := now |} in
  [fixture "family:alice" SubjectType.Human "Alice" ["family"] false;
   fixture "agent:dev" SubjectType.Agent "Developer Agent" ["agent"] true;
   fixture "app:browser" SubjectType.Application "Browser" ["app"] false;
   fixture "_system:kwin" SubjectType.Service "KWin" ["_system"] false;
   fixture "operator:root" SubjectType.LocalOperator "Root Operator" ["operator"] false].

Definition add_fixture (s : VaultState.t) (x : Subject.t) : VaultState.t :=
  let id := Subject.canonical_subject_id x in
  set_group_membership (index_memberships id (Subject.groups x) (group_membership s))
    (set_subjects (<[id := x]> (subjects s)) s).

(** [IdentityCatalog::with_fixtures]. *)
Definition with_fixtures (now : DateTime) : VaultState.t :=
  fold_left add_fixture (fixtures now) VaultState.empty.

Section Catalog.
Context {L : Type}.
Abbreviation M := (M (VaultWorld.t L) VaultError.t).

(** ** Subjects *)
Definition register_entry (x : Subject.t) : M () :=
  let! s := vault_get in
  let id := Subject.canonical_subject_id x in
  if bool_decide (is_Some (subjects s !! id)) then throw (VaultError.SubjectAlreadyRegistered id)
  else vault_change (fun s => set_subjects (<[id := x]> (subjects s)) s).

Definition reindex (f : gmap string (list string) -> gmap string (list string)) : M () :=
  vault_change (fun s => set_group_membership (f (group_membership s)) s).

Definition register_subject (x : Subject.t) : M () :=
  let! _ := register_entry x in
  reindex (index_memberships (Subject.canonical_subject_id x) (Subject.groups x)).

Definition lookup_subject (canonical_id : string) : M Subject.t :=
  let! s := vault_get in
  lift (ok_or (subjects s !! canonical_id) (VaultError.SubjectNotFound canonical_id)).

(** ** Sessions *)
Definition put_session (id : string) (x : Session.t) : M () :=
  vault_change (fun s => set_sessions (<[id := x]> (sessions s)) s).

Definition accepts (subject_id : string) (now : DateTime) (x : Session.t) : bool :=
  String.eqb (Session.subject_id x) subject_id &&
  bool_decide (Session.state x = SessionState.Active) && (now <=? Session.expires_at x)%Z.

Definition start_session (subject_id : string) (expires_at : DateTime) : M Session.t :=
  let! s := vault_get in
  if negb (bool_decide (is_Some (subjects s !! subject_id)))
  then throw (VaultError.SubjectNotFound subject_id)
  else
    let! now := vault_now in
    let! _ := vault_change (fun s =>
                set_sessions (expire_past_sessions_for_subject subject_id now (sessions s)) s) in
    let! s := vault_get in
    if existsb (accepts subject_id now) (map_to_list (sessions s)).*2
    then throw (VaultError.SessionAlreadyActive subject_id)
    else
      let! id := vault_fresh "sess_" in
      let x := {| Session.session_id := id; Session.subject_id := subject_id;
                  Session.started_at := now; Session.expires_at := expires_at;
                  Session.state := SessionState.Active |} in
      let! _ := put_session id x in
      ret x.

Definition session_not_found (id : string) : VaultError.t :=
  VaultError.Internal ("session not found: " +:+ id).
Definition session_not_active (id : string) : VaultError.t :=
  VaultError.Internal ("session not active: " +:+ id).

Definition lookup_session (id : string) : M Session.t :=
  let! s := vault_get in
  let! x := lift (ok_or (sessions s !! id) (session_not_found id)) in
  let! now := vault_now in
  let x := transition_expired_session now x in
  let! _ := put_session id x in
  ret x.

Definition suspend_session (id : string) : M () :=
  let! s := vault_get in
  let! x := lift (ok_or (sessions s !! id) (session_not_found id)) in
  let! now := vault_now in
  let x := transition_expired_session now x in
  let! _ := put_session id x in
  if negb (bool_decide (Session.state x = SessionState.Active))
  then throw (session_not_active id)
  else put_session id (Session.set_state SessionState.Suspended x).

Definition revoke_session (id : string) : M () :=
  let! s := vault_get in
  let! x := lift (ok_or (sessions s !! id) (session_not_found id)) in
  put_session id (Session.set_state SessionState.Revoked x).

(** ** Groups *)
Definition put_subject (id : string) (x : Subject.t) : M () :=
  vault_change (fun s => set_subjects (<[id := x]> (subjects s)) s).

Definition add_group_entry (subject_id group_id : string) : M () :=
  let! x := lookup_subject subject_id in
  if existsb (String.eqb group_id) (Subject.groups x) then throw VaultError.GroupMembershipUnchanged
  else put_subject subject_id (Subject.set_groups (Subject.groups x ++ [group_id]) x).

Definition add_to_group (subject_id group_id : string) : M () :=
  let! _ := add_group_entry subject_id group_id in
  reindex (index_membership subject_id group_id).

Definition remove_group_entry (subject_id group_id : string) : M () :=
  let! x := lookup_subject subject_id in
  if negb (existsb (String.eqb group_id) (Subject.groups x))
  then throw VaultError.GroupMembershipUnchanged
  else put_subject subject_id (Subject.set_groups (remove_first group_id (Subject.groups x)) x).

Definition remove_from_group (subject_id group_id : string) : M () :=
  let! _ := remove_group_entry subject_id group_id in
  reindex (unindex_membership subject_id group_id).

Definition groups_of (s : VaultState.t) (subject_id : string) : list string :=
  sort_strings (filter (fun e : string * list string => subject_id ∈ e.2) (map_to_list (group_membership s))).*1.
Definition groups_for_subject (subject_id : string) : M (list string) :=
  let! s := vault_get in ret (groups_of s subject_id).
End Catalog.

(** ** Hydration ([hydrator.rs]) *)
Module HydratedSubjectSnapshot.
Record t : Type := {
  canonical_subject_id : string;
  subject_type : SubjectType.t;
  groups : list string;
  capabilities : list string;
  session_class : string;
  recovery_mode : bool;
  is_ai : bool;
}.
End HydratedSubjectSnapshot.

Definition session_class_for_subject_type (t : SubjectType.t) : string :=
  match t with
  | SubjectType.Human | SubjectType.Device => "INTERACTIVE"
  | SubjectType.Agent | SubjectType.Application | SubjectType.Service | SubjectType.Workflow =>
      "SERVICE"
  | SubjectType.RemoteOperator | SubjectType.LocalOperator => "RECOVERY"
  end.

Definition recovery_mode_for_subject_type (t : SubjectType.t) : bool :=
  match t with SubjectType.RemoteOperator | SubjectType.LocalOperator => true | _ => false end.

Section Hydrate.
Context {L : Type}.
Abbreviation M := (M (VaultWorld.t L) VaultError.t).

Definition snapshot_for_subject (x : Subject.t) : M HydratedSubjectSnapshot.t :=
  let! gs := groups_for_subject (Subject.canonical_subject_id x) in
  ret {| HydratedSubjectSnapshot.canonical_subject_id := Subject.canonical_subject_id x;
         HydratedSubjectSnapshot.subject_type := Subject.subject_type x;
         HydratedSubjectSnapshot.groups := gs;
         HydratedSubjectSnapshot.capabilities := [];
         HydratedSubjectSnapshot.session_class :=
           session_class_for_subject_type (Subject.subject_type x);
         HydratedSubjectSnapshot.recovery_mode :=
           recovery_mode_for_subject_type (Subject.subject_type x);
         HydratedSubjectSnapshot.is_ai := Subject.is_ai x |}.

Definition hydrate_by_canonical_id (canonical_id : string) : M HydratedSubjectSnapshot.t :=
  let! x := lookup_subject canonical_id in
  snapshot_for_subject x.

Definition hydrate_by_session (session_id : string) : M HydratedSubjectSnapshot.t :=
  let! x := lookup_session session_id in
  match Session.state x with
  | SessionState.Active =>
      let! x := lookup_subject (Session.subject_id x) in
      snapshot_for_subject x
  | SessionState.Expired => throw (VaultError.SessionExpired session_id)
  | SessionState.Suspended | SessionState.Revoked => throw (session_not_active session_id)
  end.
End Hydrate.
