(* ===== verification/VaultOverride.v ===== *)
(** * Vault: the emergency override broker ([override_broker.rs])

    [InMemoryOverrideBroker] over the overrides of [VaultState], with the
    identity catalog it looks its granters up in. *)
From stdpp Require Import sorting.
From S2P Require Import Prelude Collections PolicyTypes Override Hydration Receipt StateError VaultTypes VaultIdentity.
Import VaultState Identity.

Definition transition_expired_binding (now : DateTime) (b : OverrideBinding.t) : OverrideBinding.t :=
  if bool_decide (OverrideBinding.state b = OverrideBindingState.Granted) &&
     (OverrideBinding.expires_at b <=? now)%Z
  then OverrideBinding.set_state OverrideBindingState.Expired b else b.

Definition expected_approver_count (c : OverrideClass.t) : Z :=
  match c with
  | OverrideClass.StrongSolo => 1 | OverrideClass.DualHuman => 2 | OverrideClass.TripleHuman => 3
  end.

Definition count_to_u32 (n : nat) : Z := Z.min (Z.of_nat n) u32_max.

Definition validate_approver_count (c : OverrideClass.t) (found : nat) : result VaultError.t () :=
  if (count_to_u32 found =? expected_approver_count c)%Z then Ok ()
  else Err (VaultError.OverrideClassApproverCountMismatch c (expected_approver_count c)
              (count_to_u32 found)).

Definition is_agent_or_application (x : Subject.t) : bool :=
  match Subject.subject_type x with SubjectType.Agent | SubjectType.Application => true | _ => false end.

Definition reject_ai_granting_subjects (subjects : list Subject.t) : result VaultError.t () :=
  match List.find is_agent_or_application subjects with
  | Some x => Err (VaultError.AiCannotGrantOverride (Subject.canonical_subject_id x))
  | None => Ok ()
  end.

Definition validate_human_approvers (c : OverrideClass.t) (subjects : list Subject.t)
    : result VaultError.t () :=
  match Subject.canonical_subject_id <$>
          filter (fun x => Subject.subject_type x <> SubjectType.Human) subjects with
  | [] => Ok ()
  | found_non_human => Err (VaultError.OverrideRequiresHumanApprovers c found_non_human)
  end.

Definition binding_le (a b : OverrideBinding.t) : Prop :=
  String.le (OverrideBinding.binding_id a) (OverrideBinding.binding_id b).
#[export] Instance binding_le_dec : RelDecision binding_le.
Proof. intros a b. unfold binding_le. apply _. Defined.

Section Overrides.
Context {L : Type} `{VaultEvidenceLog L} `{!VaultTexts}.
Abbreviation M := (M (VaultWorld.t L) VaultError.t).

(** [lookup_granting_subjects]: the loop over the granters. *)
Fixpoint lookup_granting_subjects (granted_by : list string) : M (list Subject.t) :=
  match granted_by with
  | [] => ret []
  | g :: granted_by =>
      let! x := lookup_subject g in
      let! xs := lookup_granting_subjects granted_by in
      ret (x :: xs)
  end.

Definition put_override (id : string) (b : OverrideBinding.t) : M () :=
  vault_change (fun s => set_overrides (<[id := b]> (overrides s)) s).

(** The [reason] of the request is dropped. *)
Definition grant_override (em : option VaultEvidenceEmitter) (request : GrantOverrideRequest.t)
    : M OverrideBinding.t :=
  let class := GrantOverrideRequest.class request in
  let granted_by := GrantOverrideRequest.granted_by request in
  let! _ := lift (validate_approver_count class (length granted_by)) in
  let! subjects := lookup_granting_subjects granted_by in
  let! _ := lift (reject_ai_granting_subjects subjects) in
  let! _ := lift (validate_human_approvers class subjects) in
  let! now := vault_now in
  let! id := vault_fresh "ovr_" in
  let binding := {| OverrideBinding.binding_id := id; OverrideBinding.class := class;
                    OverrideBinding.granted_by := granted_by; OverrideBinding.granted_at := now;
                    OverrideBinding.expires_at := GrantOverrideRequest.expires_at request;
                    OverrideBinding.target_action_id := GrantOverrideRequest.target_action_id request;
                    OverrideBinding.state := OverrideBindingState.Granted |} in
  let! _ := put_override id binding in
  let! _ := when_attached em (fun em => emit_override_granted em binding None) in
  ret binding.

Definition find_override (id : string) : M OverrideBinding.t :=
  let! s := vault_get in
  lift (ok_or (overrides s !! id) (VaultError.OverrideBindingNotFound id)).

Definition consume_override (em : option VaultEvidenceEmitter) (id consumer : string)
    : M OverrideBinding.t :=
  let! b := find_override id in
  match OverrideBinding.state b with
  | OverrideBindingState.Consumed => throw VaultError.OverrideAlreadyConsumed
  | OverrideBindingState.Expired => throw (VaultError.OverrideExpired id)
  | OverrideBindingState.Revoked => throw (VaultError.Internal ("override binding revoked: " +:+ id))
  | OverrideBindingState.Granted =>
      let! now := vault_now in
      if (OverrideBinding.expires_at b <=? now)%Z then
        let! _ := put_override id (OverrideBinding.set_state OverrideBindingState.Expired b) in
        throw (VaultError.OverrideExpired id)
      else
        let consumed := OverrideBinding.set_state OverrideBindingState.Consumed b in
        let! _ := put_override id consumed in
        let! _ := when_attached em (fun em =>
                    emit_override_consumed em (OverrideBinding.binding_id consumed) consumer None) in
        ret consumed
  end.

Definition revoke_override (em : option VaultEvidenceEmitter) (id revoker : string) : M () :=
  let! b := find_override id in
  let! _ := put_override id (OverrideBinding.set_state OverrideBindingState.Revoked b) in
  when_attached em (fun em => emit_override_revoked em id revoker None).

Definition lookup_override (id : string) : M OverrideBinding.t :=
  let! b := find_override id in
  let! now := vault_now in
  let b := transition_expired_binding now b in
  let! _ := put_override id b in
  ret b.

(** The loops over [values_mut], which transition every binding. *)
Definition transition_all (now : DateTime) : M () :=
  vault_change (fun s => set_overrides (transition_expired_binding now <$> overrides s) s).

Definition sorted_overrides (s : VaultState.t) : list OverrideBinding.t :=
  merge_sort binding_le (map_to_list (overrides s)).*2.

Definition list_overrides : M (list OverrideBinding.t) :=
  let! now := vault_now in
  let! _ := transition_all now in
  let! s := vault_get in
  ret (sorted_overrides s).

Definition list_overrides_for_subject (subject : string) : M (list OverrideBinding.t) :=
  let! now := vault_now in
  let! _ := transition_all now in
  let! s := vault_get in
  ret (filter (fun b => subject ∈ OverrideBinding.granted_by b) (sorted_overrides s)).
End Overrides.

(** * Vault: the policy kernel's view of the vault ([integration.rs])

    Conversions to the records of [aios-policy], [VaultPolicyHydrator], which
    implements the kernel's [SubjectHydrator] over the identity catalog, and
    [VaultPolicyOverrideBoundary], which looks overrides of the vault up in the
    shape of the policy's boundary. *)
Import VaultState Identity.

Definition policy_subject_type (t : SubjectType.t) : PolicyTypes.SubjectType :=
  match t with
  | SubjectType.Human => Human | SubjectType.Agent => Agent | SubjectType.Application => Application
  | SubjectType.Service => Service | SubjectType.Device => Device
  | SubjectType.Workflow => Workflow
  | SubjectType.RemoteOperator | SubjectType.LocalOperator => RemoteOperator
  end.

(** [From<Subject> for HydratedSubjectSnapshot], which takes the subject's own
    list of groups. *)
Definition snapshot_of_subject (x : Subject.t) : HydratedSubjectSnapshot.t :=
  {| HydratedSubjectSnapshot.canonical_subject_id := Subject.canonical_subject_id x;
     HydratedSubjectSnapshot.subject_type := Subject.subject_type x;
     HydratedSubjectSnapshot.groups := Subject.groups x;
     HydratedSubjectSnapshot.capabilities := [];
     HydratedSubjectSnapshot.session_class := session_class_for_subject_type (Subject.subject_type x);
     HydratedSubjectSnapshot.recovery_mode := recovery_mode_for_subject_type (Subject.subject_type x);
     HydratedSubjectSnapshot.is_ai := Subject.is_ai x |}.

(** [From<HydratedSubjectSnapshot> for HydratedSubject]. *)
Definition to_policy (x : HydratedSubjectSnapshot.t) : HydratedSubject :=
  {| canonical_subject_id := HydratedSubjectSnapshot.canonical_subject_id x;
     subject_type := policy_subject_type (HydratedSubjectSnapshot.subject_type x);
     groups := HydratedSubjectSnapshot.groups x;
     PolicyTypes.capabilities := HydratedSubjectSnapshot.capabilities x;
     session_class := HydratedSubjectSnapshot.session_class x;
     recovery_mode := HydratedSubjectSnapshot.recovery_mode x;
     is_ai := HydratedSubjectSnapshot.is_ai x |}.

(** [From<OverrideBinding> for EmergencyOverride]. *)
Definition emergency_override (b : OverrideBinding.t) : EmergencyOverride :=
  {| override_id := OverrideBinding.binding_id b;
     granted_by_subject_id := join_with "," (OverrideBinding.granted_by b);
     granted_at := OverrideBinding.granted_at b;
     expires_at := OverrideBinding.expires_at b;
     scope := {| scope_rule_id := ""; scope_action := default "" (OverrideBinding.target_action_id b);
                 scope_subjects := [] |};
     reason := "vault override binding class=" +:+ OverrideClass.wire (OverrideBinding.class b);
     revoked := negb (bool_decide (OverrideBinding.state b = OverrideBindingState.Granted)) |}.

Definition should_try_canonical_lookup (e : VaultError.t) : bool :=
  match e with VaultError.Internal m => starts_with "session not found:" m | _ => false end.

Section Hydrator.
Context {L : Type}.

Definition vault_hydrate (provisional : string)
    : M (VaultWorld.t L) PolicyError HydratedSubject := fun w =>
  match hydrate_by_session provisional w with
  | (Ok x, w) => (Ok (to_policy x), w)
  | (Err e, w) =>
      if should_try_canonical_lookup e
      then match hydrate_by_canonical_id provisional w with
           | (Ok x, w) => (Ok (to_policy x), w)
           | (Err _, w) => (Err SubjectUnauthenticated, w)
           end
      else (Err SubjectUnauthenticated, w)
  end.
End Hydrator.

(** The hydrator as the kernel sees it: its answer at an instant.  What a
    hydration leaves behind is a session marked expired, which the next one at a
    later instant would mark anyway. *)
Definition at_instant (s : VaultState.t) (now : DateTime) : VaultWorld.t () :=
  {| VaultWorld.store := s; VaultWorld.evidence := (); VaultWorld.clock := fun _ => now;
     VaultWorld.reads := 0; VaultWorld.ulids := fun _ => ""; VaultWorld.drawn := 0;
     VaultWorld.entropy := fun _ => Ascii.zero; VaultWorld.taken := 0 |}.

#[export] Instance vault_policy_hydrator : SubjectHydrator VaultState.t :=
  {| hydrate s now provisional := (vault_hydrate provisional (at_instant s now)).1 |}.

#[export] Instance vault_policy_hydrator_laws : SubjectHydratorLaws VaultState.t.
Proof.
  split. intros s now p e. simpl. unfold vault_hydrate.
  destruct (hydrate_by_session p _) as [[x|e1] w]; [done|].
  destruct (should_try_canonical_lookup e1); [|by intros [= <-]].
  destruct (hydrate_by_canonical_id p w) as [[x|e2] w2]; [done|]. by intros [= <-].
Qed.

(** ** Overrides *)
Definition binding_matches_action (action : string) (now : DateTime) (b : OverrideBinding.t) : bool :=
  bool_decide (OverrideBinding.state b = OverrideBindingState.Granted) &&
  (now <? OverrideBinding.expires_at b)%Z &&
  match OverrideBinding.target_action_id b with
  | None => true
  | Some target => String.eqb target action
  end.

Section Boundary.
Context {L : Type}.
Abbreviation M := (M (VaultWorld.t L) VaultError.t).

(** The subject is not looked at. *)
Definition vault_is_overridden_at (action subject_canonical_id : string) (now : DateTime)
    : M (option EmergencyOverride) :=
  let! bindings := list_overrides in
  ret (emergency_override <$> List.find (binding_matches_action action now) bindings).

Definition vault_is_overridden (action subject_canonical_id : string) : M (option EmergencyOverride) :=
  let! now := vault_now in
  vault_is_overridden_at action subject_canonical_id now.
End Boundary.
