(* ===== verification/VaultSound.v ===== *)
(** * Vault: the broker refines a life-cycle machine

    The abstract vault is a labelled transition system on the shared state:
    [VaultSpec.step] has one rule for each thing that can happen to a
    capability.  Every request to the broker is a run of it ([serve_refines]).
    [VaultLife] follows single capabilities through the runs. *)
From S2P Require Import Prelude Receipt StateError VaultTypes VaultCrypto VaultBroker.
Import VaultState.

Module VaultSpec.

(** ** Events *)
Inductive event : Type :=
| Issued (id : string)
| Used (id kind : string)
| Revoked (id revoked_by : string)
| Expired (id : string).

Definition subject_of (e : event) : string :=
  match e with Issued id | Used id _ | Revoked id _ | Expired id => id end.

(** ** The audit entries, as updates *)
Import CapabilityAuditEntry.

Definition used_entry (kind : string) (now : DateTime) (e : t) : t :=
  {| capability_id := capability_id e; use_count := Z.min (use_count e + 1) u64_max;
     last_used_at := Some now; last_used_op_kind := Some kind; issued_by := issued_by e;
     revoked_by := revoked_by e; revoked_at := revoked_at e; expired_at := expired_at e |}.
Definition revoked_entry (by_ : string) (now : DateTime) (e : t) : t :=
  {| capability_id := capability_id e; use_count := use_count e; last_used_at := last_used_at e;
     last_used_op_kind := last_used_op_kind e; issued_by := issued_by e; revoked_by := Some by_;
     revoked_at := Some now; expired_at := expired_at e |}.
Definition expired_entry (now : DateTime) (e : t) : t :=
  match expired_at e with
  | Some _ => e
  | None =>
      {| capability_id := capability_id e; use_count := use_count e; last_used_at := last_used_at e;
         last_used_op_kind := last_used_op_kind e; issued_by := issued_by e;
         revoked_by := revoked_by e; revoked_at := revoked_at e; expired_at := Some now |}
  end.
Definition new_entry (id issued_by : string) : t :=
  {| capability_id := id; use_count := 0; last_used_at := None; last_used_op_kind := None;
     issued_by := issued_by; revoked_by := None; revoked_at := None; expired_at := None |}.

Definition on_entry (id : string) (f : t -> t) (s : VaultState.t) : VaultState.t :=
  set_audit (alter f id (audit s)) s.
(** With an audit log attached. *)
Definition if_audited (audited : bool) (f : VaultState.t -> VaultState.t) : VaultState.t -> VaultState.t :=
  if audited then f else id.
Definition move (id : string) (to : CapabilityState.t) (s : VaultState.t) : VaultState.t :=
  set_capabilities (alter (fun e => (VaultCapability.set_state to e.1, e.2)) id (capabilities s)) s.

(** The entries that a pass recorded, each at its own instant. *)
Definition stamp (s : VaultState.t) (r : string * DateTime) : VaultState.t :=
  on_entry r.1 (expired_entry r.2) s.

Definition is_active (s : VaultState.t) (id : string) (c : VaultCapability.t) : Prop :=
  fst <$> capabilities s !! id = Some c /\ VaultCapability.state c = CapabilityState.Active.

(** What issuing leaves of a request. *)
Definition new_capability (id : string) (c : VaultCapability.t) (k : KeyMaterial.t) : Prop :=
  VaultCapability.capability_id c = id /\ VaultCapability.state c = CapabilityState.Active /\
  VaultCapability.key_material_handle c = "vault-internal:" +:+ id /\
  validate_key_algorithm_for_class (VaultCapability.class c) (KeyMaterial.algorithm k) = Ok ().

Definition permits (c : VaultCapability.t) (o : VaultOperation.t) : bool :=
  operation_matches_class (VaultCapability.class c) o ||
  operation_matches_t049_extension (VaultCapability.class c) o.

Definition unexpired (c : VaultCapability.t) (now : DateTime) : Prop :=
  forall t, VaultCapability.expires_at c = Some t -> (now <= t)%Z.

(** ** The machine *)
Section Machine.
Variables (audited : bool) (ulids : nat -> string).

(** A state is the number of identifiers drawn and the vault. *)
Inductive step : nat * VaultState.t -> list event -> nat * VaultState.t -> Prop :=
| step_draw n n' s : n <= n' -> step (n, s) [] (n', s)
| step_issue n s c k :
    let id := CapabilityId.PREFIX +:+ ulids n in
    new_capability id c k ->
    step (n, s) [Issued id]
      (S n, if_audited audited
              (fun s => set_audit (<[id := new_entry id (VaultCapability.issued_to c)]> (audit s)) s)
              (set_capabilities (<[id := (c, k)]> (capabilities s)) s))
| step_use n s id c o now read_at :
    is_active s id c -> permits c o = true -> unexpired c read_at ->
    step (n, s) [Used id (VaultOperation.operation_kind o)]
      (n, if_audited audited (on_entry id (used_entry (VaultOperation.operation_kind o) now)) s)
| step_derive n s h k :
    step (n, s) [] (n, set_derived_key_materials (<[h := k]> (derived_key_materials s)) s)
| step_revoke n s id c by_ now :
    is_active s id c ->
    step (n, s) [Revoked id by_]
      (n, if_audited audited (on_entry id (revoked_entry by_ now)) (move id CapabilityState.Revoked s))
| step_expire n s id c now recorded :
    is_active s id c -> (audited = true -> recorded = true) ->
    step (n, s) [Expired id]
      (n, if_audited recorded (on_entry id (expired_entry now)) (move id CapabilityState.Expired s))
| step_pass n s now ids (records : list (string * DateTime)) :
    NoDup ids ->
    (forall id, id ∈ ids <-> exists e, capabilities s !! id = Some e /\ is_due now e.1 = true) ->
    records.*1 `prefix_of` ids ->
    step (n, s) (Expired <$> ids)
      (n, fold_left stamp records (set_capabilities (expire_due now <$> capabilities s) s)).

Inductive run : nat * VaultState.t -> list event -> nat * VaultState.t -> Prop :=
| run_nil st : run st [] st
| run_step st tr st1 tr' st2 : step st tr st1 -> run st1 tr' st2 -> run st (tr ++ tr') st2.

Lemma run_one st tr st' : step st tr st' -> run st tr st'.
Proof. intros Hs. rewrite <- (app_nil_r tr). econstructor; [done|constructor]. Qed.
Lemma run_app st tr st1 tr' st2 : run st tr st1 -> run st1 tr' st2 -> run st (tr ++ tr') st2.
Proof.
  induction 1 as [st|st tr st1 tr1 st2' Hs Hr IH]; [done|]. intros Hr'.
  rewrite <- app_assoc. econstructor; eauto.
Qed.
Lemma run_draw n n' s tr st : n <= n' -> run (n', s) tr st -> run (n, s) tr st.
Proof. intros Hn Hr. exact (run_step _ _ _ _ _ (step_draw n n' s Hn) Hr). Qed.
End Machine.
End VaultSpec.

(** * Vault: the broker refines its specification

    Every request to the broker and to the lifecycle driver is a run of the
    machine of [VaultSpec], and its response says which ([serve_refines]). *)
Import VaultState.

(** ** Requests and responses *)
Module VaultRequest.
Inductive t : Type :=
| Issue (r : IssueCapabilityRequest.t)
| Use (r : UseCapabilityRequest.t)
| List (subject : string)
| Revoke (id revoked_by : string)
| Expire (id : string)
| Pass (now : DateTime).
End VaultRequest.

Module VaultResponse.
Inductive t : Type :=
| Capability (c : VaultCapability.t)
| Result (r : UseCapabilityResult.t)
| Capabilities (cs : list VaultCapability.t)
| Done
| Report (r : ExpirationPassReport).
End VaultResponse.

Module VaultSound.
Section Serve.
Context `{!VaultCrypto, !HashOrder, !HashOrderLaws} {L : Type} `{VaultEvidenceLog L} `{!VaultTexts}.
Variables (b : InMemoryVaultBroker) (em : option VaultEvidenceEmitter).
Abbreviation W := (VaultWorld.t L).
Abbreviation M := (M (VaultWorld.t L) VaultError.t).

(** A request to the broker [b] or to the driver, whose emitter is [em]. *)
Definition serve (r : VaultRequest.t) : M VaultResponse.t :=
  match r with
  | VaultRequest.Issue r => let! c := issue_capability b r in ret (VaultResponse.Capability c)
  | VaultRequest.Use r => let! x := use_capability b r in ret (VaultResponse.Result x)
  | VaultRequest.List subject => let! cs := list_capabilities subject in
                                 ret (VaultResponse.Capabilities cs)
  | VaultRequest.Revoke id by_ => let! _ := revoke_capability b id by_ in ret VaultResponse.Done
  | VaultRequest.Expire id => let! _ := expire_capability em id in ret VaultResponse.Done
  | VaultRequest.Pass now => let! r := run_expiration_pass em now in ret (VaultResponse.Report r)
  end.

(** ** The rules of the audit log and of the environment *)
Definition at_ (w : W) : nat * VaultState.t := (VaultWorld.drawn w, VaultWorld.store w).

(** [w'] has the environment of [w], later, and the store [s]. *)
Definition after (w : W) (n : nat) (s : VaultState.t) (w' : W) : Prop :=
  at_ w' = (n, s) /\ VaultWorld.ulids w' = VaultWorld.ulids w.

Lemma undisturbed_after w w' : undisturbed w w' -> after w (VaultWorld.drawn w) (VaultWorld.store w) w'.
Proof. intros (Hs & _ & Hu & Hd & _). unfold after, at_. split; congruence. Qed.

Lemma after_trans w1 w2 w3 n s n' s' : after w1 n s w2 -> after w2 n' s' w3 -> after w1 n' s' w3.
Proof. intros [_ Hu] [Ha Hu']. split; congruence. Qed.
Lemma after_undisturbed w1 w2 w3 n s : after w1 n s w2 -> undisturbed w2 w3 -> after w1 n s w3.
Proof.
  intros Ha Hd%undisturbed_after. assert (at_ w2 = (n, s)) as [= Hn Hs] by apply Ha.
  rewrite Hn, Hs in Hd. by eapply after_trans.
Qed.

(** An update of one audit entry. *)
Definition audits (m : M ()) (P : (VaultState.t -> VaultState.t) -> Prop) : Prop := forall w,
  post m (fun _ w' => exists f, P f /\ after w (VaultWorld.drawn w) (f (VaultWorld.store w)) w')
    (fun _ _ => False) w.

Lemma on_entry_same id f s :
  (forall e, audit s !! id = Some e -> f e = e) -> VaultSpec.on_entry id f s = s.
Proof. intros Hf. unfold VaultSpec.on_entry. rewrite (alter_id f (audit s) id Hf). by destruct s. Qed.

(** [m] reads the entry [id] and the clock and replaces the entry by [f]. *)
Lemma audits_entry id (f : DateTime -> CapabilityAuditEntry.t -> CapabilityAuditEntry.t)
    (body : CapabilityAuditEntry.t -> M ()) :
  (forall e w, audit (VaultWorld.store w) !! id = Some e ->
     post (body e) (fun _ w' => exists now,
       after w (VaultWorld.drawn w) (VaultSpec.on_entry id (f now) (VaultWorld.store w)) w')
       (fun _ _ => False) w) ->
  audits (let! s := vault_get in match audit s !! id with None => ret () | Some e => body e end)
    (fun g => exists now, g = VaultSpec.on_entry id (f now)).
Proof.
  intros Hb w. unfold vault_get, mbind_, post. cbv beta iota.
  destruct (audit (VaultWorld.store w) !! id) as [e|] eqn:He.
  - specialize (Hb e w He). unfold post in Hb. destruct (body e w) as [[[]|x] w']; [|done].
    destruct Hb as [now Ha]. exists (VaultSpec.on_entry id (f now)). split; [by eexists|done].
  - exists (VaultSpec.on_entry id (f 0%Z)). split; [by eexists|]. rewrite on_entry_same; [done|]. intros e. congruence.
Qed.

Lemma put_on_entry id e e' f (w : W) :
  audit (VaultWorld.store w) !! id = Some e -> f e = e' ->
  after w (VaultWorld.drawn w) (VaultSpec.on_entry id f (VaultWorld.store w))
    (CapabilityAuditLog.put id e' w).2.
Proof.
  intros He <-. split; [|done]. unfold at_. simpl. f_equal. unfold VaultSpec.on_entry. f_equal.
  apply map_eq. intros i. destruct (decide (i = id)) as [->|Hne].
  - by rewrite lookup_insert_eq, lookup_alter_eq, He.
  - by rewrite lookup_insert_ne, lookup_alter_ne.
Qed.

Lemma record_use_audits id kind :
  audits (CapabilityAuditLog.record_use id kind)
    (fun g => exists now, g = VaultSpec.on_entry id (VaultSpec.used_entry kind now)).
Proof.
  apply audits_entry. intros e w He. exists (VaultWorld.clock w (VaultWorld.reads w)).
  by eapply (put_on_entry id e _ _ (vault_now w).2).
Qed.
Lemma record_revoke_audits id by_ :
  audits (CapabilityAuditLog.record_revoke id by_)
    (fun g => exists now, g = VaultSpec.on_entry id (VaultSpec.revoked_entry by_ now)).
Proof.
  apply audits_entry. intros e w He. exists (VaultWorld.clock w (VaultWorld.reads w)).
  by eapply (put_on_entry id e _ _ (vault_now w).2).
Qed.
Lemma record_expire_audits id :
  audits (CapabilityAuditLog.record_expire id)
    (fun g => exists now, g = VaultSpec.on_entry id (VaultSpec.expired_entry now)).
Proof.
  apply audits_entry. intros e w He. destruct (CapabilityAuditEntry.expired_at e) eqn:Hx.
  - exists 0%Z. rewrite on_entry_same; [done|]. intros e' He'.
    assert (e' = e) as -> by congruence. unfold VaultSpec.expired_entry. by rewrite Hx.
  - exists (VaultWorld.clock w (VaultWorld.reads w)).
    eapply (put_on_entry id e _ _ (vault_now w).2); [done|].
    unfold VaultSpec.expired_entry. by rewrite Hx.
Qed.

(** ** Assertions about where a program is *)
Lemma after_here w : after w (VaultWorld.drawn w) (VaultWorld.store w) w.
Proof. done. Qed.
Lemma after_eq w0 n s w : after w0 n s w ->
  VaultWorld.drawn w = n /\ VaultWorld.store w = s /\ VaultWorld.ulids w = VaultWorld.ulids w0.
Proof. by intros [[= <- <-] ?]. Qed.

Section At.
Variables (w0 : W) (n : nat) (s : VaultState.t) (w : W).
Hypothesis Hw : after w0 n s w.

Lemma get_at Q E : Q s w -> post vault_get Q E w.
Proof. destruct (after_eq _ _ _ _ Hw) as (_ & <- & _). by intros HQ. Qed.
Lemma change_at f Q E : (forall w', after w0 n (f s) w' -> Q () w') -> post (vault_change f) Q E w.
Proof.
  intros HQ. apply post_vault_change, HQ. destruct (after_eq _ _ _ _ Hw) as (<- & <- & Hu). by split.
Qed.
Lemma discreet_at {B} (m : M B) Q E :
  discreet m -> (forall x w', after w0 n s w' -> Q x w') ->
  (forall e w', vault_refused e -> after w0 n s w' -> E e w') -> post m Q E w.
Proof. intros Hd HQ HE. apply post_discreet; [done|..]; intros; eauto using after_undisturbed. Qed.
Lemma now_at Q E : (forall t w', after w0 n s w' -> Q t w') -> post vault_now Q E w.
Proof. intros HQ. apply post_vault_now. intros w' Hd. eapply HQ, after_undisturbed; done. Qed.
Lemma fresh_at p Q E :
  (forall w', after w0 (S n) s w' -> Q (p +:+ VaultWorld.ulids w0 n) w') -> post (vault_fresh p) Q E w.
Proof.
  intros HQ. destruct (after_eq _ _ _ _ Hw) as (<- & <- & Hu). unfold post, vault_fresh.
  rewrite <- Hu in *. by apply HQ.
Qed.
Lemma fill_at k Q E : (forall x w', after w0 n s w' -> Q x w') -> post (fill_bytes k) Q E w.
Proof. intros HQ. apply HQ. destruct (after_eq _ _ _ _ Hw) as (<- & <- & Hu). by split. Qed.
Lemma material_at a Q E :
  (forall x w', after w0 n s w' -> Q x w') -> post (generate_key_material a) Q E w.
Proof.
  intros HQ. destruct a; try by apply fill_at.
  unfold generate_key_material, generate_x25519_static_secret.
  eapply post_bind; [apply (fill_at _ (fun _ => after w0 n s)); auto|]. intros x w' Hw'. by apply HQ.
Qed.
Lemma audits_at m P Q E :
  audits m P -> (forall f w', P f -> after w0 n (f s) w' -> Q () w') -> post m Q E w.
Proof.
  intros Ha HQ. eapply post_mono; [apply Ha| |done]. intros [] w' (f & Hf & Ha').
  eapply HQ; [done|]. destruct (after_eq _ _ _ _ Hw) as (<- & <- & _). by eapply after_trans.
Qed.
Lemma when_audited_at m P Q E :
  audits m P -> (exists f, P f) ->
  (forall f w', P f -> after w0 n (VaultSpec.if_audited (audit_log b) f s) w' -> Q () w') ->
  post (when_audited b m) Q E w.
Proof.
  intros Ha [f Hf] HQ. unfold when_audited. destruct (audit_log b).
  - by eapply audits_at.
  - by apply (HQ f).
Qed.
End At.

(** ** Running the machine *)
Abbreviation run := (VaultSpec.run (audit_log b)).

(** From [w] to [w'] the vault ran, with a trace that [P] describes. *)
Definition did (w w' : W) (P : list VaultSpec.event -> Prop) : Prop :=
  VaultWorld.ulids w' = VaultWorld.ulids w /\
  exists tr, run (VaultWorld.ulids w) (at_ w) tr (at_ w') /\ P tr.

Lemma did_after w n s w' tr (P : list VaultSpec.event -> Prop) :
  after w n s w' -> run (VaultWorld.ulids w) (at_ w) tr (n, s) -> P tr -> did w w' P.
Proof. intros [Ha Hu] Hr HP. split; [done|]. exists tr. by rewrite Ha. Qed.

Definition performs {B} (m : M B) (Q : B -> list VaultSpec.event -> Prop)
    (E : VaultError.t -> list VaultSpec.event -> Prop) (w : W) : Prop :=
  post m (fun x w' => did w w' (Q x)) (fun e w' => did w w' (E e)) w.

Lemma performs_bind {B C} (m : M B) (f : B -> M C) R Q E w :
  performs m R E w ->
  (forall x tr w', R x tr -> VaultWorld.ulids w' = VaultWorld.ulids w ->
     run (VaultWorld.ulids w) (at_ w) tr (at_ w') ->
     performs (f x) (fun y tr' => Q y (tr ++ tr')) (fun e tr' => E e (tr ++ tr')) w') ->
  performs (let! x := m in f x) Q E w.
Proof.
  intros Hm Hf. unfold performs. eapply post_bind; [exact Hm|]. intros x w' (Hu & tr & Hr & HR).
  eapply post_mono; [by eapply Hf| |]; unfold did; rewrite Hu.
  - intros y w2 (Hu2 & tr2 & Hr2 & HQ). split; [done|]. exists (tr ++ tr2).
    split; [by eapply VaultSpec.run_app|done].
  - intros y w2 (Hu2 & tr2 & Hr2 & HQ). split; [done|]. exists (tr ++ tr2).
    split; [by eapply VaultSpec.run_app|done].
Qed.

Lemma performs_ret {B} (x : B) (Q : B -> list VaultSpec.event -> Prop) E w :
  Q x [] -> performs (ret x) Q E w.
Proof. intros HQ. split; [done|]. exists []. split; [constructor|done]. Qed.
Lemma performs_throw {B} e (Q : B -> list VaultSpec.event -> Prop) (E : VaultError.t -> list VaultSpec.event -> Prop) w :
  E e [] -> performs (throw e) Q E w.
Proof. intros HE. split; [done|]. exists []. split; [constructor|done]. Qed.
Lemma performs_lift {B} (r : result VaultError.t B) (Q : B -> list VaultSpec.event -> Prop)
    (E : VaultError.t -> list VaultSpec.event -> Prop) w :
  match r with Ok x => Q x [] | Err e => E e [] end -> performs (lift r) Q E w.
Proof. destruct r; [apply performs_ret|apply performs_throw]. Qed.

Lemma undisturbed_at w w' : undisturbed w w' ->
  at_ w' = at_ w /\ VaultWorld.ulids w' = VaultWorld.ulids w.
Proof. intros Hd%undisturbed_after. exact Hd. Qed.

Lemma performs_discreet {B} (m : M B) (Q : B -> list VaultSpec.event -> Prop)
    (E : VaultError.t -> list VaultSpec.event -> Prop) w :
  discreet m -> (forall x, Q x []) -> (forall e, vault_refused e -> E e []) -> performs m Q E w.
Proof.
  intros Hd HQ HE. apply post_discreet; [done| |].
  - intros x w' [Ha Hu]%undisturbed_at. split; [done|]. exists []. rewrite Ha. split; [constructor|done].
  - intros e w' He [Ha Hu]%undisturbed_at. split; [done|]. exists []. rewrite Ha.
    split; [constructor|auto].
Qed.

Lemma performs_step {B} (m : M B) (Q : B -> list VaultSpec.event -> Prop) E w :
  post m (fun x w' => VaultWorld.ulids w' = VaultWorld.ulids w /\ exists tr,
     VaultSpec.step (audit_log b) (VaultWorld.ulids w) (at_ w) tr (at_ w') /\ Q x tr)
    (fun _ _ => False) w ->
  performs m Q E w.
Proof.
  intros Hp. eapply post_mono; [exact Hp| |done]. intros x w' (Hu & tr & Hs & HQ).
  split; [done|]. exists tr. split; [by apply VaultSpec.run_one|done].
Qed.

Lemma performs_mono {B} (m : M B) (Q Q' : B -> list VaultSpec.event -> Prop)
    (E E' : VaultError.t -> list VaultSpec.event -> Prop) w :
  performs m Q E w -> (forall x tr, Q x tr -> Q' x tr) -> (forall e tr, E e tr -> E' e tr) ->
  performs m Q' E' w.
Proof.
  intros Hp HQ HE. eapply post_mono; [exact Hp| |]; intros x w' (Hu & tr & Hr & HP);
    (split; [done|]; exists tr; auto).
Qed.

(** ** The requests *)
Lemma issue_performs r w :
  performs (issue_capability b r)
    (fun c tr => tr = [VaultSpec.Issued (VaultCapability.capability_id c)])
    (fun e tr => vault_refused e \/ tr = []) w.
Proof.
  unfold issue_capability. cbv zeta. eapply performs_bind with (R := fun _ tr => tr = []
    /\ validate_key_algorithm_for_class (IssueCapabilityRequest.class r)
         (IssueCapabilityRequest.key_algorithm r) = Ok ()).
  { apply performs_lift. destruct (validate_key_algorithm_for_class _ _) as [[]|e]; auto. }
  intros _ tr w1 [-> Hv] _ _. simpl app. clear w.
  eapply (post_bind _ _ (fun _ => after w1 _ _)); [by apply (now_at w1 _ _ w1 (after_here w1))|].
  intros now w2 Hw2. eapply (post_bind _ _ (fun id w => id = _ /\ after w1 _ _ w)).
  { by apply (fresh_at _ _ _ _ Hw2). }
  intros id w3 [Hid Hw3]. eapply (post_bind _ _ (fun _ => after w1 _ _)).
  { destruct (IssueCapabilityRequest.key_material_bytes r); [exact Hw3|by apply (material_at _ _ _ _ Hw3)]. }
  intros k w4 Hw4. eapply (post_bind _ _ (fun _ => after w1 _ _)); [by apply (change_at _ _ _ _ Hw4)|].
  intros [] w5 Hw5.
  set (c := {| VaultCapability.capability_id := id |}) in *.
  eapply (post_bind _ _ (fun _ => after w1 _ (VaultSpec.if_audited (audit_log b) _ _))).
  { apply (when_audited_at _ _ _ _ Hw5 _ (fun f => f = fun s =>
      set_audit (<[id := VaultSpec.new_entry id (VaultCapability.issued_to c)]> (audit s)) s)).
    - intros w. eexists. split; [done|]. done.
    - by eexists.
    - intros f w' -> Ha. exact Ha. }
  intros [] w6 Hw6.
  assert (forall tr, tr = [VaultSpec.Issued id] -> run (VaultWorld.ulids w1) (at_ w1) tr
    (S (VaultWorld.drawn w1), VaultSpec.if_audited (audit_log b) (fun s =>
      set_audit (<[id := VaultSpec.new_entry id (VaultCapability.issued_to c)]> (audit s)) s)
      (set_capabilities (<[id := (c, {| KeyMaterial.algorithm := IssueCapabilityRequest.key_algorithm r;
           KeyMaterial.created_at := now; KeyMaterial.material := k |})]>
         (capabilities (VaultWorld.store w1))) (VaultWorld.store w1)))) as Hrun.
  { intros tr ->. apply VaultSpec.run_one. subst id. apply (VaultSpec.step_issue _ _ _ _ c). by split. }
  eapply (post_bind _ _ (fun _ => after w1 _ _)).
  - apply (discreet_at _ _ _ _ Hw6); [eauto with discreet|done|]. intros e w' He Hw'.
    eapply did_after; [exact Hw'|by apply Hrun|by left].
  - intros [] w7 Hw7. eapply did_after; [exact Hw7|by apply Hrun|done].
Qed.

(** What a use of [id] needs. *)
Definition usable (id : string) (o : VaultOperation.t) (k : KeyMaterial.t) (s : VaultState.t) : Prop :=
  exists c read_at, capabilities s !! id = Some (c, k) /\
    VaultCapability.state c = CapabilityState.Active /\ VaultSpec.permits c o = true /\
    VaultSpec.unexpired c read_at.

Lemma past_expiry_post c (w : W) :
  post (past_expiry c) (fun past w' => undisturbed w w' /\
      exists t, (past = false -> VaultSpec.unexpired c t) /\
        (past = true -> ~ VaultSpec.unexpired c t))
    (fun _ _ => False) w.
Proof.
  unfold past_expiry, VaultSpec.unexpired. destruct (VaultCapability.expires_at c) as [t|].
  - split; [done|]. exists (VaultWorld.clock w (VaultWorld.reads w)). split.
    + intros Hb%Z.ltb_ge t' [= <-]. done.
    + intros Hb%Z.ltb_lt Hu. specialize (Hu t eq_refl). lia.
  - split; [done|]. exists 0%Z. by split.
Qed.

Lemma move_set id to c k s :
  capabilities s !! id = Some (c, k) ->
  set_capabilities (<[id := (VaultCapability.set_state to c, k)]> (capabilities s)) s
    = VaultSpec.move id to s.
Proof.
  intros Hc. unfold VaultSpec.move. f_equal. apply map_eq. intros i.
  destruct (decide (i = id)) as [->|].
  - by rewrite lookup_insert_eq, lookup_alter_eq, Hc.
  - by rewrite lookup_insert_ne, lookup_alter_ne.
Qed.

Lemma acquire_post id o w :
  post (acquire b id o)
    (fun k w' => after w (VaultWorld.drawn w) (VaultWorld.store w) w' /\
       usable id o k (VaultWorld.store w))
    (fun e w' => did w w' (fun tr => tr = [] \/
       tr = [VaultSpec.Expired id] /\ e = VaultError.CapabilityExpired id)) w.
Proof.
  unfold acquire. apply post_read.
  assert (forall e, did w w (fun tr => tr = [] \/
    tr = [VaultSpec.Expired id] /\ e = VaultError.CapabilityExpired id)) as Hno.
  { intros e. eapply (did_after _ _ _ _ []); [apply after_here|constructor|by left]. }
  destruct (capabilities (VaultWorld.store w) !! id) as [[c k]|] eqn:Hc; [|apply Hno].
  destruct (VaultCapability.state c) eqn:Hs; try apply Hno.
  eapply post_seq; [apply past_expiry_post|done|].
  intros past w1 (Hd%undisturbed_after & t & Hf & Ht). destruct past.
  - eapply (post_bind _ _ (fun _ => after w _ _)); [by apply (change_at _ _ _ _ Hd)|].
    intros [] w2 Hw2. rewrite (move_set _ _ _ _ _ Hc) in Hw2.
    eapply (post_bind _ _ (fun _ w' => did w w' (fun tr => tr = [VaultSpec.Expired id]))).
    { apply (when_audited_at _ _ _ _ Hw2 _ _ _ _ (record_expire_audits id)); [by eexists _, 0%Z|].
      intros f w' [now ->] Ha. eapply did_after; [exact Ha| |done].
      apply VaultSpec.run_one. eapply (VaultSpec.step_expire _ _ _ _ id c); [|done].
      split; [by rewrite Hc|done]. }
    intros [] w3 (Hu & tr & Hr & ->). split; [done|]. exists [VaultSpec.Expired id]. auto.
  - destruct (VaultSpec.permits c o) eqn:Hm; pose proof Hm as Hm'; unfold VaultSpec.permits in Hm'.
    + rewrite <- negb_orb, Hm'. split; [done|]. exists c, t. auto.
    + rewrite <- negb_orb, Hm'. simpl. eapply (did_after _ _ _ _ []); [exact Hd|constructor|by left].
Qed.

(** An operation changes nothing but the store of derived keys. *)
Definition derived_later (s s' : VaultState.t) : Prop :=
  s' = s \/ exists h k, s' = set_derived_key_materials (<[h := k]> (derived_key_materials s)) s.

Lemma execute_operation_post k o w n s w1 : after w n s w1 ->
  post (execute_operation k o) (fun _ w' => exists s', after w n s' w' /\ derived_later s s')
    (fun _ w' => after w n s w') w1.
Proof.
  intros Hw1.
  assert (forall A (r : result VaultError.t A) (f : A -> UseCapabilityResult.t),
    post (let! x := lift r in ret (f x)) (fun _ w' => exists s', after w n s' w' /\ derived_later s s')
      (fun _ w' => after w n s w') w1) as Hl.
  { intros A r f. destruct r as [x|e]; [exists s; split; [done|by left]|done]. }
  unfold execute_operation. cbv zeta.
  destruct o; try (destruct (bool_decide _); [|exact Hw1]); try apply Hl; try exact Hw1.
  - eapply (post_bind _ _ (fun _ => after w n s)).
    { unfold AesGcm.encrypt. eapply (post_bind _ _ (fun _ => after w n s)); [by destruct (AesGcm.cipher _)|].
      intros key w2 Hw2. eapply (post_bind _ _ (fun _ => after w n s)); [by apply (fill_at _ _ _ _ Hw2)|].
      intros nonce w3 Hw3. eapply (post_bind _ _ (fun _ => after w n s)); [by destruct (gcm_encrypt _ _ _ _)|].
      by intros. }
    intros x w2 Hw2. exists s. split; [done|by left].
  - eapply (post_bind _ _ (fun _ => after w n s)); [by destruct (HkdfSha256.derive _ _ _)|].
    intros d w2 Hw2. eapply (post_bind _ _ (fun _ => after w n s)); [by apply (now_at _ _ _ _ Hw2)|].
    intros t w3 Hw3. eapply (post_bind _ _ (fun _ => after w n _)); [by apply (change_at _ _ _ _ Hw3)|].
    intros [] w4 Hw4. eexists. split; [exact Hw4|right; by eexists _, _].
  - eapply (post_bind _ _ (fun _ => after w n s)); [by apply (fill_at _ _ _ _ Hw1)|].
    intros x w2 Hw2. exists s. split; [done|by left].
Qed.

Lemma derived_later_run u n s s' : derived_later s s' -> run u (n, s) [] (n, s').
Proof.
  intros [->|(h & k & ->)]; [constructor|]. apply VaultSpec.run_one, VaultSpec.step_derive.
Qed.
Lemma derived_later_usable id o k s s' : derived_later s s' -> usable id o k s -> usable id o k s'.
Proof. by intros [->|(h & k' & ->)]. Qed.

Lemma use_performs r w :
  performs (use_capability b r)
    (fun _ tr => tr = [VaultSpec.Used (UseCapabilityRequest.capability_id r)
                         (VaultOperation.operation_kind (UseCapabilityRequest.operation r))])
    (fun e tr => vault_refused e \/ tr = [] \/
       tr = [VaultSpec.Expired (UseCapabilityRequest.capability_id r)] /\
       e = VaultError.CapabilityExpired (UseCapabilityRequest.capability_id r)) w.
Proof.
  unfold use_capability. cbv zeta.
  set (id := UseCapabilityRequest.capability_id r). set (o := UseCapabilityRequest.operation r).
  eapply post_seq; [apply (acquire_post id o)| |].
  { intros e w' (Hu & tr & Hr & Htr). split; [done|]. exists tr. split; [done|by right]. }
  intros k w1 (Hw1 & Hk). eapply post_seq; [apply (execute_operation_post k o _ _ _ _ Hw1)| |].
  { intros e w' Hw'. eapply (did_after _ _ _ _ []); [exact Hw'|constructor|auto]. }
  intros x w2 (s' & Hw2 & Hd). pose proof (derived_later_usable _ _ _ _ _ Hd Hk) as (c & t & Hc & Hs & Hm & Hun).
  eapply (post_bind _ _ (fun _ w' => exists now, after w (VaultWorld.drawn w)
     (VaultSpec.if_audited (audit_log b)
        (VaultSpec.on_entry id (VaultSpec.used_entry (VaultOperation.operation_kind o) now)) s') w')).
  { apply (when_audited_at _ _ _ _ Hw2 _ _ _ _ (record_use_audits id _)); [by eexists _, 0%Z|].
    intros f w' [now ->] Ha. by exists now. }
  intros [] w3 [now Hw3].
  assert (run (VaultWorld.ulids w) (at_ w) [VaultSpec.Used id (VaultOperation.operation_kind o)]
    (VaultWorld.drawn w, VaultSpec.if_audited (audit_log b)
       (VaultSpec.on_entry id (VaultSpec.used_entry (VaultOperation.operation_kind o) now)) s')) as Hr.
  { eapply (VaultSpec.run_app _ _ _ []); [by eapply derived_later_run|]. apply VaultSpec.run_one.
    eapply (VaultSpec.step_use _ _ _ _ id c); [|done..]. split; [by rewrite Hc|done]. }
  eapply (post_bind _ _ (fun _ => after w _ _)).
  - apply (discreet_at _ _ _ _ Hw3); [eauto with discreet|done|]. intros e w' He Hw'.
    eapply did_after; [exact Hw'|exact Hr|by left].
  - intros [] w4 Hw4. eapply did_after; [exact Hw4|exact Hr|done].
Qed.

Lemma move_active_post id to w :
  post (move_active id to)
    (fun _ w' => after w (VaultWorld.drawn w) (VaultSpec.move id to (VaultWorld.store w)) w' /\
       exists c, VaultSpec.is_active (VaultWorld.store w) id c)
    (fun _ w' => w' = w) w.
Proof.
  unfold move_active. unfold vault_get, mbind_, post.
  destruct (capabilities (VaultWorld.store w) !! id) as [[c k]|] eqn:Hc; [|done].
  case_bool_decide as Ha; simpl; [|done]. split; [|exists c; split; [by rewrite Hc|done]].
  split; [|done]. unfold at_. simpl. by rewrite (move_set _ _ _ _ _ Hc).
Qed.

Lemma no_events w P : P [] -> did w w P.
Proof. intros HP. by eapply (did_after _ _ _ _ []); [apply after_here|constructor|]. Qed.

Lemma revoke_performs id by_ w :
  performs (revoke_capability b id by_) (fun _ tr => tr = [VaultSpec.Revoked id by_])
    (fun e tr => vault_refused e \/ tr = []) w.
Proof.
  unfold revoke_capability. eapply post_seq; [apply move_active_post| |].
  { intros e w' ->. apply no_events. by right. }
  intros [] w1 (Hw1 & c & Hc). eapply (post_bind _ _ (fun _ w' => exists now, after w (VaultWorld.drawn w)
    (VaultSpec.if_audited (audit_log b) (VaultSpec.on_entry id (VaultSpec.revoked_entry by_ now))
       (VaultSpec.move id CapabilityState.Revoked (VaultWorld.store w))) w')).
  { apply (when_audited_at _ _ _ _ Hw1 _ _ _ _ (record_revoke_audits id by_)); [by eexists _, 0%Z|].
    intros f w' [now ->] Ha. by exists now. }
  intros [] w2 [now Hw2].
  pose proof (VaultSpec.run_one _ _ _ _ _ (VaultSpec.step_revoke (audit_log b) (VaultWorld.ulids w)
    (VaultWorld.drawn w) (VaultWorld.store w) id c by_ now Hc)) as Hr.
  apply (discreet_at _ _ _ _ Hw2); [eauto with discreet| |].
  - intros [] w' Hw'. eapply did_after; [exact Hw'|exact Hr|done].
  - intros e w' He Hw'. eapply did_after; [exact Hw'|exact Hr|by left].
Qed.

Lemma expire_performs id w :
  performs (expire_capability em id) (fun _ tr => tr = [VaultSpec.Expired id])
    (fun e tr => vault_refused e \/ tr = []) w.
Proof.
  unfold expire_capability. eapply post_seq; [apply move_active_post| |].
  { intros e w' ->. apply no_events. by right. }
  intros [] w1 (Hw1 & c & Hc). eapply (post_bind _ _ (fun _ w' => exists now, after w (VaultWorld.drawn w)
    (VaultSpec.on_entry id (VaultSpec.expired_entry now)
       (VaultSpec.move id CapabilityState.Expired (VaultWorld.store w))) w')).
  { apply (audits_at _ _ _ _ Hw1 _ _ _ _ (record_expire_audits id)).
    intros f w' [now ->] Ha. by exists now. }
  intros [] w2 [now Hw2].
  pose proof (VaultSpec.run_one _ _ _ _ _ (VaultSpec.step_expire (audit_log b) (VaultWorld.ulids w)
    (VaultWorld.drawn w) (VaultWorld.store w) id c now true Hc (fun _ => eq_refl))) as Hr.
  apply (discreet_at _ _ _ _ Hw2); [eauto with discreet| |].
  - intros [] w' Hw'. eapply did_after; [exact Hw'|exact Hr|done].
  - intros e w' He Hw'. eapply did_after; [exact Hw'|exact Hr|by left].
Qed.

Lemma record_expirations_post w n t ids : forall s w1, after w n s w1 ->
  post (record_expirations em t ids)
    (fun _ w' => exists records, records.*1 = ids /\ after w n (fold_left VaultSpec.stamp records s) w')
    (fun e w' => vault_refused e /\ exists records, records.*1 `prefix_of` ids /\
       after w n (fold_left VaultSpec.stamp records s) w') w1.
Proof.
  induction ids as [|id ids IH]; intros s w1 Hw1.
  { exists []. by split. }
  cbn [record_expirations]. eapply (post_bind _ _ (fun _ w' => exists now, after w n
    (VaultSpec.on_entry id (VaultSpec.expired_entry now) s) w')).
  { apply (audits_at _ _ _ _ Hw1 _ _ _ _ (record_expire_audits id)).
    intros f w' [now ->] Ha. by exists now. }
  intros [] w2 [now Hw2]. eapply (post_bind _ _ (fun _ => after w n _)).
  { apply (discreet_at _ _ _ _ Hw2); [eauto with discreet|by intros []|].
    intros e w' He Hw'. split; [done|]. exists [(id, now)]. split; [|exact Hw'].
    simpl. apply prefix_cons, prefix_nil. }
  intros [] w3 Hw3. eapply post_mono; [apply (IH _ _ Hw3)| |].
  - intros [] w' (records & <- & Hw'). by exists ((id, now) :: records).
  - intros e w' (He & records & Hp & Hw'). split; [done|]. exists ((id, now) :: records).
    split; [by apply prefix_cons|done].
Qed.

(** The capabilities a pass expires. *)
Definition due_ids (now : DateTime) (s : VaultState.t) : list string :=
  (filter (fun e => is_due now e.2.1 = true) (hash_iter (capabilities s))).*1.

Lemma due_ids_nodup now s : NoDup (due_ids now s).
Proof.
  unfold due_ids. eapply sublist_NoDup; [|apply fmap_sublist, sublist_filter].
  assert (hash_iter (capabilities s) ≡ₚ map_to_list (capabilities s)) as -> by apply hash_iter_perm.
  apply NoDup_fst_map_to_list.
Qed.
Lemma elem_of_due_ids now s id :
  id ∈ due_ids now s <-> exists e, capabilities s !! id = Some e /\ is_due now e.1 = true.
Proof.
  unfold due_ids. rewrite list_elem_of_fmap. setoid_rewrite list_elem_of_filter.
  setoid_rewrite hash_iter_perm. split.
  - intros ([i e] & -> & Hd & He%elem_of_map_to_list). by exists e.
  - intros (e & He & Hd). exists (id, e). split_and!; [done..|]. by apply elem_of_map_to_list.
Qed.

Lemma pass_performs now w :
  performs (run_expiration_pass em now)
    (fun r tr => exists ids, tr = VaultSpec.Expired <$> ids /\ capabilities_expired r = Z.of_nat (length ids))
    (fun e tr => vault_refused e) w.
Proof.
  unfold run_expiration_pass.
  eapply (post_bind _ _ (fun _ => after w _ _)); [by apply (now_at _ _ _ _ (after_here w))|].
  intros started w1 Hw1. eapply (post_bind _ _ (fun s w' => s = VaultWorld.store w /\ after w _ _ w')).
  { by apply (get_at _ _ _ _ Hw1). }
  intros s w2 [-> Hw2]. cbv zeta. change ((filter _ (hash_iter (capabilities (VaultWorld.store w)))).*1)
    with (due_ids now (VaultWorld.store w)). set (ids := due_ids now (VaultWorld.store w)).
  eapply (post_bind _ _ (fun _ => after w _ _)); [by apply (change_at _ _ _ _ Hw2)|].
  intros [] w3 Hw3.
  assert (forall records, records.*1 `prefix_of` ids ->
    run (VaultWorld.ulids w) (at_ w) (VaultSpec.Expired <$> ids) (VaultWorld.drawn w,
      fold_left VaultSpec.stamp records (set_capabilities
        (expire_due now <$> capabilities (VaultWorld.store w)) (VaultWorld.store w)))) as Hr.
  { intros records Hp. apply VaultSpec.run_one, VaultSpec.step_pass; [apply due_ids_nodup| |done].
    apply elem_of_due_ids. }
  eapply post_seq; [apply (record_expirations_post _ _ _ _ _ _ Hw3)| |].
  { intros e w' (He & records & Hp & Hw'). eapply did_after; [exact Hw'|by apply Hr|done]. }
  intros [] w4 (records & Hrec & Hw4).
  eapply (post_bind _ _ (fun _ => after w _ _)); [by apply (fresh_at _ _ _ _ Hw4)|].
  intros id w5 Hw5. eapply (post_bind _ _ (fun _ => after w _ _)); [by apply (now_at _ _ _ _ Hw5)|].
  intros done_at w6 Hw6. eapply (did_after _ _ _ _ (VaultSpec.Expired <$> ids)); [exact Hw6| |by exists ids].
  rewrite <- (app_nil_r (_ <$> ids)). eapply VaultSpec.run_app; [apply (Hr records); by rewrite Hrec|].
  apply VaultSpec.run_one, VaultSpec.step_draw. lia.
Qed.

(** ** Refinement *)

(** What a response says has happened. *)
Definition explains (r : VaultRequest.t) (x : VaultResponse.t) (tr : list VaultSpec.event) : Prop :=
  match r, x with
  | VaultRequest.Issue _, VaultResponse.Capability c =>
      tr = [VaultSpec.Issued (VaultCapability.capability_id c)]
  | VaultRequest.Use r, VaultResponse.Result _ =>
      tr = [VaultSpec.Used (UseCapabilityRequest.capability_id r)
              (VaultOperation.operation_kind (UseCapabilityRequest.operation r))]
  | VaultRequest.List _, VaultResponse.Capabilities _ => tr = []
  | VaultRequest.Revoke id by_, VaultResponse.Done => tr = [VaultSpec.Revoked id by_]
  | VaultRequest.Expire id, VaultResponse.Done => tr = [VaultSpec.Expired id]
  | VaultRequest.Pass _, VaultResponse.Report r =>
      exists ids, tr = VaultSpec.Expired <$> ids /\ capabilities_expired r = Z.of_nat (length ids)
  | _, _ => False
  end.

(** What may have happened when a request fails: nothing, but a use may find its
    capability past its expiry. *)
Definition excuses (r : VaultRequest.t) (e : VaultError.t) (tr : list VaultSpec.event) : Prop :=
  tr = [] \/
  exists q, r = VaultRequest.Use q /\ tr = [VaultSpec.Expired (UseCapabilityRequest.capability_id q)] /\
    e = VaultError.CapabilityExpired (UseCapabilityRequest.capability_id q).

Lemma performs_map {B C} (m : M B) (f : B -> C) (Q : C -> list VaultSpec.event -> Prop) E w :
  performs m (fun x tr => Q (f x) tr) E w -> performs (let! x := m in ret (f x)) Q E w.
Proof. intros Hm. by eapply post_bind; [exact Hm|]. Qed.

Lemma serve_performs r w :
  performs (serve r) (fun x tr => explains r x tr) (fun e tr => vault_refused e \/ excuses r e tr) w.
Proof.
  destruct r as [r|r|subject|id by_|id|now]; unfold serve; apply performs_map.
  - eapply performs_mono; [apply issue_performs|done|]. unfold excuses. naive_solver.
  - eapply performs_mono; [apply use_performs|done|]. unfold excuses. naive_solver.
  - eapply performs_discreet; [by intros w'|done|by left].
  - eapply performs_mono; [apply revoke_performs|done|]. unfold excuses. naive_solver.
  - eapply performs_mono; [apply expire_performs|done|]. unfold excuses. naive_solver.
  - eapply performs_mono; [apply pass_performs|done|]. by left.
Qed.

End Serve.
End VaultSound.
