(* ===== verification/VaultLife.v ===== *)
(** * Vault: the life of a capability

    What every run of requests keeps: each capability lives by the machine
    [live], the vault and its audit log tell the same story, and a capability
    that was revoked or has expired is never used again. *)
From S2P Require Import Prelude Receipt StateError VaultTypes VaultCrypto VaultBroker VaultSound.
Import VaultState VaultSpec.

Module VaultLife.

Record life : Type := {
  life_state : CapabilityState.t;
  life_uses : nat;
  life_revoked_by : option string;
}.

Definition is_live (l : life) : bool := bool_decide (life_state l = CapabilityState.Active).

(** The machine of one capability; [None] when the event is not allowed. *)
Definition live (id : string) (e : event) (l : option life) : option (option life) :=
  if negb (String.eqb (subject_of e) id) then Some l
  else match e, l with
       | Issued _, None =>
           Some (Some {| life_state := CapabilityState.Active; life_uses := 0;
                         life_revoked_by := None |})
       | Used _ _, Some l =>
           if is_live l then Some (Some {| life_state := life_state l; life_uses := S (life_uses l);
                                           life_revoked_by := life_revoked_by l |})
           else None
       | Revoked _ by_, Some l =>
           if is_live l then Some (Some {| life_state := CapabilityState.Revoked;
                                           life_uses := life_uses l; life_revoked_by := Some by_ |})
           else None
       | Expired _, Some l =>
           if is_live l then Some (Some {| life_state := CapabilityState.Expired;
                                           life_uses := life_uses l;
                                           life_revoked_by := life_revoked_by l |})
           else None
       | _, _ => None
       end.

Fixpoint lives (id : string) (tr : list event) (l : option life) : option (option life) :=
  match tr with
  | [] => Some l
  | e :: tr => match live id e l with Some l => lives id tr l | None => None end
  end.

(** The vault agrees with the life of [id]. *)
Definition agrees (audited : bool) (id : string) (l : option life) (s : VaultState.t) : Prop :=
  match l with
  | None => capabilities s !! id = None
  | Some l => exists c k, capabilities s !! id = Some (c, k) /\
      VaultCapability.capability_id c = id /\ VaultCapability.state c = life_state l /\
      validate_key_algorithm_for_class (VaultCapability.class c) (KeyMaterial.algorithm k) = Ok () /\
      (audited = true -> exists e, audit s !! id = Some e /\
         CapabilityAuditEntry.use_count e = Z.min (Z.of_nat (life_uses l)) u64_max /\
         CapabilityAuditEntry.revoked_by e = life_revoked_by l /\
         CapabilityAuditEntry.issued_by e = VaultCapability.issued_to c /\
         (CapabilityAuditEntry.expired_at e <> None -> life_state l = CapabilityState.Expired))
  end.

(** Identifiers are drawn before they are used. *)
Definition issued_before (u : nat -> string) (n : nat) (s : VaultState.t) : Prop :=
  forall id, is_Some (capabilities s !! id) -> exists i, i < n /\ id = CapabilityId.PREFIX +:+ u i.

Lemma lives_app id tr tr' l :
  lives id (tr ++ tr') l = match lives id tr l with Some l => lives id tr' l | None => None end.
Proof. revert l. induction tr as [|e tr IH]; intros l; [done|]. simpl. destruct (live id e l); auto. Qed.

Lemma lives_elsewhere id tr l : Forall (fun e => subject_of e <> id) tr -> lives id tr l = Some l.
Proof.
  induction 1 as [|e tr He _ IH]; [done|]. simpl. unfold live.
  by rewrite (proj2 (String.eqb_neq _ _) He).
Qed.

(** What is over stays over. *)
Lemma lives_ended id tr l l' : is_live l = false -> lives id tr (Some l) = Some l' -> l' = Some l.
Proof.
  intros Hl. induction tr as [|e tr IH]; simpl; [by intros [= <-]|]. unfold live.
  destruct (String.eqb (subject_of e) id); simpl; [|done]. rewrite Hl. by destruct e.
Qed.

(** ** Updates of the vault, seen from one capability *)
Lemma agrees_ext audited id l s s' :
  capabilities s' !! id = capabilities s !! id -> audit s' !! id = audit s !! id ->
  agrees audited id l s -> agrees audited id l s'.
Proof. unfold agrees. intros -> ->. done. Qed.

Lemma if_audited_capabilities audited (f : VaultState.t -> VaultState.t) s :
  (forall s, capabilities (f s) = capabilities s) ->
  capabilities (if_audited audited f s) = capabilities s.
Proof. by destruct audited. Qed.
Lemma if_audited_other audited (f : VaultState.t -> VaultState.t) s id :
  (forall s, audit (f s) !! id = audit s !! id) ->
  audit (if_audited audited f s) !! id = audit s !! id.
Proof. by destruct audited. Qed.

Lemma on_entry_other id f s i : i <> id -> audit (on_entry id f s) !! i = audit s !! i.
Proof. intros Hn. unfold on_entry. simpl. by rewrite lookup_alter_ne. Qed.
Lemma on_entry_here id f s : audit (on_entry id f s) !! id = f <$> audit s !! id.
Proof. unfold on_entry. simpl. by rewrite lookup_alter_eq. Qed.

Lemma move_other id to s i : i <> id -> capabilities (move id to s) !! i = capabilities s !! i.
Proof. intros Hn. unfold move. simpl. by rewrite lookup_alter_ne. Qed.
Lemma move_here id to s :
  capabilities (move id to s) !! id =
    (fun e => (VaultCapability.set_state to e.1, e.2)) <$> capabilities s !! id.
Proof. unfold move. simpl. by rewrite lookup_alter_eq. Qed.

(** A change of one capability and of its audit entry, seen from the others. *)
Lemma agrees_other audited recorded id i to f s :
  i <> id -> forall l, agrees audited i l s ->
  agrees audited i l (if_audited recorded (on_entry id f) (move id to s)).
Proof.
  intros Hn l. apply agrees_ext.
  - rewrite if_audited_capabilities by done. by apply move_other.
  - rewrite if_audited_other; [done|]. intros s'. by apply on_entry_other.
Qed.

(** The active capability [id], after a change [f] of its audit entry and of its
    state to [to]. *)
Lemma agrees_moved audited recorded id l to f s c :
  is_active s id c -> (audited = true -> recorded = true) -> agrees audited id l s ->
  exists l0, l = Some l0 /\ is_live l0 = true /\ forall l',
    life_state l' = to ->
    (forall e, CapabilityAuditEntry.use_count e = Z.min (Z.of_nat (life_uses l0)) u64_max ->
       CapabilityAuditEntry.revoked_by e = life_revoked_by l0 ->
       CapabilityAuditEntry.use_count (f e) = Z.min (Z.of_nat (life_uses l')) u64_max /\
       CapabilityAuditEntry.revoked_by (f e) = life_revoked_by l' /\
       CapabilityAuditEntry.issued_by (f e) = CapabilityAuditEntry.issued_by e /\
       (CapabilityAuditEntry.expired_at (f e) <> None ->
          to = CapabilityState.Expired \/ CapabilityAuditEntry.expired_at e <> None)) ->
    agrees audited id (Some l') (if_audited recorded (on_entry id f) (move id to s)).
Proof.
  intros [Hc Ha] Hr Hl. destruct l as [l0|]; simpl in Hl; [|by rewrite Hl in Hc].
  destruct Hl as (c' & k & Hck & Hid & Hst & Hv & Hau). rewrite Hck in Hc. injection Hc as <-.
  exists l0. split; [done|]. rewrite Ha in Hst. split; [unfold is_live; by rewrite <- Hst|].
  intros l' Hto Hf. exists (VaultCapability.set_state to c'), k.
  rewrite if_audited_capabilities by done. rewrite move_here, Hck. simpl. split_and!; [done..|].
  intros Haud. rewrite (Hr Haud). destruct (Hau Haud) as (e & He & Hn & Hrb & Hib & Hex).
  exists (f e). simpl if_audited. rewrite on_entry_here.
  change (audit (move id to s)) with (audit s). rewrite He. simpl.
  destruct (Hf e Hn Hrb) as (Hn' & Hrb' & Hib' & Hex'). split_and!; [done..|congruence|].
  intros Hx. rewrite Hto. destruct (Hex' Hx) as [|Hx']; [done|].
  specialize (Hex Hx'). congruence.
Qed.

Lemma live_other id e l : subject_of e <> id -> live id e l = Some l.
Proof. intros Hn. unfold live. by rewrite (proj2 (String.eqb_neq _ _) Hn). Qed.
Lemma lives_one id e l l' : live id e l = Some l' -> lives id [e] l = Some l'.
Proof. simpl. by intros ->. Qed.

Section Steps.
Variables (audited : bool) (u : nat -> string).
Hypothesis u_inj : Inj (=) (=) u.

(** One step of the machine, for the capability [i]. *)
Definition keeps_step (s : VaultState.t) (tr : list event) (s' : VaultState.t) : Prop :=
  forall i l, agrees audited i l s -> exists l', lives i tr l = Some l' /\ agrees audited i l' s'.

Lemma keeps_same s s' :
  capabilities s' = capabilities s -> audit s' = audit s -> keeps_step s [] s'.
Proof. intros Hc Ha i l Hl. exists l. split; [done|]. eapply agrees_ext; [by rewrite Hc|by rewrite Ha|done]. Qed.

Lemma keeps_one s e s' :
  (forall i l, i <> subject_of e -> agrees audited i l s -> agrees audited i l s') ->
  (forall l, agrees audited (subject_of e) l s -> exists l', live (subject_of e) e l = Some l' /\
     agrees audited (subject_of e) l' s') ->
  keeps_step s [e] s'.
Proof.
  intros Ho Hh i l Hl. destruct (decide (i = subject_of e)) as [->|Hn].
  - destruct (Hh l Hl) as (l' & Hv & Ha). exists l'. split; [by apply lives_one|done].
  - exists l. split; [by apply lives_one, live_other|auto].
Qed.

Lemma keeps_issue n s c k :
  let id := CapabilityId.PREFIX +:+ u n in
  new_capability id c k -> issued_before u n s ->
  keeps_step s [Issued id]
    (if_audited audited
       (fun s => set_audit (<[id := new_entry id (VaultCapability.issued_to c)]> (audit s)) s)
       (set_capabilities (<[id := (c, k)]> (capabilities s)) s)).
Proof.
  intros id (Hid & Hs & _ & Hv) Hb. apply keeps_one; simpl subject_of.
  - intros i l Hn. apply agrees_ext.
    + rewrite if_audited_capabilities by done. simpl. by rewrite lookup_insert_ne.
    + rewrite if_audited_other; [done|]. intros s'. simpl. by rewrite lookup_insert_ne.
  - intros l Hl. assert (l = None) as ->.
    { destruct l as [l|]; [|done]. destruct Hl as (c' & k' & Hc & _).
      destruct (Hb id) as (i & Hi & He); [by eexists|].
      unfold id in He. apply (inj (String.append CapabilityId.PREFIX)) in He.
      apply u_inj in He. lia. }
    unfold live. simpl subject_of. rewrite String.eqb_refl. simpl. eexists. split; [done|].
    exists c, k. rewrite if_audited_capabilities by done. simpl. rewrite lookup_insert_eq.
    split_and!; [done..|]. intros ->. simpl. exists (new_entry id (VaultCapability.issued_to c)).
    by rewrite lookup_insert_eq.
Qed.

Lemma keeps_moved s id c to f e recorded :
  is_active s id c -> (audited = true -> recorded = true) -> subject_of e = id ->
  (forall l, is_live l = true -> exists l', live id e (Some l) = Some (Some l') /\
     life_state l' = to /\
     (forall a, CapabilityAuditEntry.use_count a = Z.min (Z.of_nat (life_uses l)) u64_max ->
        CapabilityAuditEntry.revoked_by a = life_revoked_by l ->
        CapabilityAuditEntry.use_count (f a) = Z.min (Z.of_nat (life_uses l')) u64_max /\
        CapabilityAuditEntry.revoked_by (f a) = life_revoked_by l' /\
        CapabilityAuditEntry.issued_by (f a) = CapabilityAuditEntry.issued_by a /\
        (CapabilityAuditEntry.expired_at (f a) <> None ->
           to = CapabilityState.Expired \/ CapabilityAuditEntry.expired_at a <> None))) ->
  keeps_step s [e] (if_audited recorded (on_entry id f) (move id to s)).
Proof.
  intros Hc Hr He Hf. apply keeps_one; rewrite He.
  - intros i l Hn. by apply agrees_other.
  - intros l Hl. destruct (agrees_moved _ _ _ _ to f _ _ Hc Hr Hl) as (l0 & -> & Hlv & Hag).
    destruct (Hf l0 Hlv) as (l' & Hl' & Hto & Hfa). exists (Some l'). split; [done|]. by apply Hag.
Qed.

(** A use moves no capability. *)
Lemma move_active_same id c s : is_active s id c -> move id CapabilityState.Active s = s.
Proof.
  intros [Hc Ha]. unfold move. rewrite alter_id; [by destruct s|]. intros [c' k] Hck.
  rewrite Hck in Hc. injection Hc as ->. simpl. f_equal. destruct c; simpl in *. by subst.
Qed.

(** ** A pass *)
Lemma stamps_capabilities records s :
  capabilities (fold_left stamp records s) = capabilities s.
Proof. revert s. induction records as [|r records IH]; intros s; [done|]. simpl. by rewrite IH. Qed.

Lemma stamps_audit records s i e : audit s !! i = Some e ->
  exists e', audit (fold_left stamp records s) !! i = Some e' /\
    CapabilityAuditEntry.use_count e' = CapabilityAuditEntry.use_count e /\
    CapabilityAuditEntry.revoked_by e' = CapabilityAuditEntry.revoked_by e /\
    CapabilityAuditEntry.issued_by e' = CapabilityAuditEntry.issued_by e.
Proof.
  revert s e. induction records as [|r records IH]; intros s e He; [by exists e|]. simpl.
  assert (exists e1, audit (stamp s r) !! i = Some e1 /\
    CapabilityAuditEntry.use_count e1 = CapabilityAuditEntry.use_count e /\
    CapabilityAuditEntry.revoked_by e1 = CapabilityAuditEntry.revoked_by e /\
    CapabilityAuditEntry.issued_by e1 = CapabilityAuditEntry.issued_by e) as (e1 & He1 & H1 & H2 & H3).
  { unfold stamp. destruct (decide (i = r.1)) as [->|Hn].
    - rewrite on_entry_here, He. eexists. split; [done|]. unfold expired_entry.
      by destruct (CapabilityAuditEntry.expired_at e).
    - rewrite on_entry_other by done. by exists e. }
  destruct (IH _ _ He1) as (e2 & He2 & ? & ? & ?). exists e2. split_and!; [done|congruence..].
Qed.

Lemma stamps_other records s i : i ∉ records.*1 ->
  audit (fold_left stamp records s) !! i = audit s !! i.
Proof.
  revert s. induction records as [|r records IH]; intros s Hn; [done|]. simpl in *.
  apply not_elem_of_cons in Hn as [Hr Hn]. rewrite IH by done. unfold stamp. by apply on_entry_other.
Qed.

Lemma lives_expired i ids l : i ∉ ids -> lives i (Expired <$> ids) l = Some l.
Proof.
  intros Hn. apply lives_elsewhere, Forall_fmap, Forall_forall. intros j Hj Heq. simpl in Heq. by subst.
Qed.

Lemma keeps_pass s now ids records :
  NoDup ids ->
  (forall id, id ∈ ids <-> exists e, capabilities s !! id = Some e /\ is_due now e.1 = true) ->
  records.*1 `prefix_of` ids ->
  keeps_step s (Expired <$> ids)
    (fold_left stamp records (set_capabilities (expire_due now <$> capabilities s) s)).
Proof.
  intros Hnd Hids Hp i l Hl.
  assert (forall s', capabilities (fold_left stamp records
    (set_capabilities (expire_due now <$> capabilities s') s')) !! i =
    expire_due now <$> capabilities s' !! i) as Hcap.
  { intros s'. rewrite stamps_capabilities. simpl. apply lookup_fmap. }
  destruct (decide (i ∈ ids)) as [Hin|Hout].
  - apply list_elem_of_split in Hin as Hsp. destruct Hsp as (l1 & l2 & ->).
    apply Hids in Hin as ((c & k) & Hc & Hd). pose proof Hd as Hd'. unfold is_due in Hd'. simpl in Hd'.
    apply andb_prop in Hd' as [Ha%bool_decide_eq_true _].
    apply NoDup_app in Hnd as (_ & Hx & [Hy _]%NoDup_cons).
    destruct l as [l|]; simpl in Hl; [|by rewrite Hl in Hc].
    destruct Hl as (c' & k' & Hc' & Hid & Hst & Hv & Hau). rewrite Hc in Hc'. injection Hc' as <- <-.
    exists (Some {| life_state := CapabilityState.Expired; life_uses := life_uses l;
                    life_revoked_by := life_revoked_by l |}). split.
    + rewrite fmap_app, lives_app, lives_expired by (intros Hi; apply (Hx i Hi); by left).
      cbn [lives fmap list_fmap]. unfold live. simpl subject_of. rewrite String.eqb_refl. simpl negb.
      cbv iota. unfold is_live. rewrite <- Hst, Ha. simpl. by apply lives_expired.
    + exists (VaultCapability.set_state CapabilityState.Expired c), k.
      rewrite Hcap, Hc. simpl. unfold expire_due. simpl. simpl in Hd. rewrite Hd.
      split_and!; [done..|]. intros Haud. destruct (Hau Haud) as (e & He & Hn & Hrb & Hib & _).
      destruct (stamps_audit records (set_capabilities (expire_due now <$> capabilities s) s) i e He)
        as (e' & He' & Hn' & Hrb' & Hib').
      exists e'. split_and!; [done|congruence..|done].
  - exists l. split; [by apply lives_expired|].
    eapply (agrees_ext _ _ _ s); [| |exact Hl].
    2: { rewrite stamps_other; [done|]. intros Hi. apply Hout. by eapply elem_of_prefix. }
    rewrite Hcap. destruct (capabilities s !! i) as [[c k]|] eqn:Hc; [|done]. simpl. f_equal.
    unfold expire_due. simpl. destruct (is_due now c) eqn:Hd; [|done]. exfalso. apply Hout, Hids.
    by exists (c, k).
Qed.

Lemma issued_before_mono n n' s s' :
  n <= n' -> (forall id, is_Some (capabilities s' !! id) -> is_Some (capabilities s !! id)) ->
  issued_before u n s -> issued_before u n' s'.
Proof. intros Hn Hs Hb id Hid. destruct (Hb id (Hs id Hid)) as (i & Hi & ->). exists i. split; [lia|done]. Qed.

Lemma step_keeps st tr st' :
  step audited u st tr st' -> issued_before u st.1 st.2 ->
  keeps_step st.2 tr st'.2 /\ issued_before u st'.1 st'.2.
Proof.
  assert (forall id f recorded to s, forall i,
    is_Some (capabilities (if_audited recorded (on_entry id f) (move id to s)) !! i) ->
    is_Some (capabilities s !! i)) as Hmv.
  { intros id f recorded to s i. rewrite if_audited_capabilities by done. unfold move. simpl.
    destruct (decide (i = id)) as [->|]; [rewrite lookup_alter_eq, fmap_is_Some|rewrite lookup_alter_ne]; done. }
  destruct 1 as [n n' s Hn|n s c k id Hnew|n s id c o now read_at Hc Hm Hun|n s h k|n s id c by_ now Hc
    |n s id c now recorded Hc Hr|n s now ids records Hnd Hids Hp]; simpl; intros Hb.
  - split; [by apply keeps_same|]. by eapply issued_before_mono.
  - split; [by apply (keeps_issue n)|]. intros i. rewrite if_audited_capabilities by done. simpl.
    intros [x [[<- _]|[_ Hx]]%lookup_insert_Some]; [by exists n; split; [lia|]|].
    destruct (Hb i) as (j & Hj & ->); [by eexists|]. exists j. split; [lia|done].
  - set (kind := VaultOperation.operation_kind o).
    rewrite <- (move_active_same id c s Hc) at 2 3. split.
    + eapply (keeps_moved _ id c); [exact Hc|done|done|]. intros l Hl.
      exists {| life_state := life_state l; life_uses := S (life_uses l);
                life_revoked_by := life_revoked_by l |}.
      unfold live. simpl subject_of. rewrite String.eqb_refl. simpl. rewrite Hl.
      apply bool_decide_eq_true in Hl. split_and!; [done|done|]. intros a Ha Hrb.
      unfold used_entry. simpl. split_and!; [rewrite Ha; lia|done|done|by right].
    + eapply issued_before_mono; [reflexivity|apply Hmv|done].
  - split; [by apply keeps_same|]. by eapply issued_before_mono.
  - split; [|eapply issued_before_mono; [reflexivity|apply Hmv|done]].
    eapply (keeps_moved _ id c); [exact Hc|done|done|]. intros l Hl.
    exists {| life_state := CapabilityState.Revoked; life_uses := life_uses l;
              life_revoked_by := Some by_ |}.
    unfold live. simpl subject_of. rewrite String.eqb_refl. simpl. rewrite Hl.
    split_and!; [done|done|]. intros a Ha Hrb. unfold revoked_entry. simpl. by split_and!; [..|right].
  - split; [|eapply issued_before_mono; [reflexivity|apply Hmv|done]].
    eapply (keeps_moved _ id c); [exact Hc|done|done|]. intros l Hl.
    exists {| life_state := CapabilityState.Expired; life_uses := life_uses l;
              life_revoked_by := life_revoked_by l |}.
    unfold live. simpl subject_of. rewrite String.eqb_refl. simpl. rewrite Hl.
    split_and!; [done|done|]. intros a Ha Hrb. unfold expired_entry.
    destruct (CapabilityAuditEntry.expired_at a); simpl; by split_and!; [..|left].
  - split; [by apply keeps_pass|]. eapply issued_before_mono; [reflexivity| |done].
    intros i. rewrite stamps_capabilities. simpl. rewrite lookup_fmap, fmap_is_Some. done.
Qed.

Lemma run_keeps st tr st' :
  run audited u st tr st' -> issued_before u st.1 st.2 ->
  keeps_step st.2 tr st'.2 /\ issued_before u st'.1 st'.2.
Proof.
  induction 1 as [st|st tr st1 tr' st2 Hs Hr IH]; intros Hb.
  { split; [|done]. intros i l Hl. by exists l. }
  destruct (step_keeps _ _ _ Hs Hb) as [Hk Hb1]. destruct (IH Hb1) as [Hk' Hb2]. split; [|done].
  intros i l Hl. destruct (Hk i l Hl) as (l1 & Hl1 & Ha1). destruct (Hk' i l1 Ha1) as (l2 & Hl2 & Ha2).
  exists l2. split; [|done]. by rewrite lives_app, Hl1.
Qed.
End Steps.

(** ** Runs of requests *)
Section Served.
Context `{!VaultCrypto, !HashOrder, !HashOrderLaws} {L : Type} `{VaultEvidenceLog L} `{!VaultTexts}.
Variables (b : InMemoryVaultBroker) (em : option VaultEvidenceEmitter).
Abbreviation W := (VaultWorld.t L).

Inductive served : W -> W -> Prop :=
| served_none w : served w w
| served_one w r w' : served (VaultSound.serve b em r w).2 w' -> served w w'.

(** A vault that holds no capability yet, and whose ULIDs are distinct. *)
Definition vacant (w : W) : Prop :=
  Inj (=) (=) (VaultWorld.ulids w) /\ capabilities (VaultWorld.store w) = ∅.

Lemma serve_did r w : VaultSound.did b w (VaultSound.serve b em r w).2 (fun _ => True).
Proof.
  pose proof (VaultSound.serve_performs b em r w) as Hp. unfold VaultSound.performs, post in Hp.
  destruct (VaultSound.serve b em r w) as [[x|e] w']; destruct Hp as (Hu & tr & Hr & _);
    (split; [done|by exists tr]).
Qed.

Lemma served_did w w' : served w w' -> VaultSound.did b w w' (fun _ => True).
Proof.
  induction 1 as [w|w r w' Hs IH]; [by apply VaultSound.no_events|].
  destruct (serve_did r w) as (Hu & tr & Hr & _), IH as (Hu' & tr' & Hr' & _).
  split; [congruence|]. exists (tr ++ tr'). split; [|done]. rewrite Hu in Hr'. by eapply run_app.
Qed.

(** What holds of every vault that was once vacant. *)
Lemma served_lives w0 w : vacant w0 -> served w0 w ->
  issued_before (VaultWorld.ulids w0) (VaultWorld.drawn w) (VaultWorld.store w) /\
  VaultWorld.ulids w = VaultWorld.ulids w0 /\
  exists tr, run (audit_log b) (VaultWorld.ulids w0) (VaultSound.at_ w0) tr (VaultSound.at_ w) /\
    forall id, exists l, lives id tr None = Some l /\ agrees (audit_log b) id l (VaultWorld.store w).
Proof.
  intros [Hi He] (Hu & tr & Hr & _)%served_did.
  destruct (run_keeps (audit_log b) (VaultWorld.ulids w0) Hi _ _ _ Hr) as [Hk Hb].
  { intros id [x Hx]. simpl in Hx. by rewrite He, lookup_empty in Hx. }
  split; [done|]. split; [done|]. exists tr. split; [done|]. intros id.
  apply (Hk id None). simpl. by rewrite He, lookup_empty.
Qed.

(** Once a capability is no longer active it stays as it is. *)
Lemma served_ended w0 w w' id c k : vacant w0 -> served w0 w -> served w w' ->
  capabilities (VaultWorld.store w) !! id = Some (c, k) ->
  VaultCapability.state c <> CapabilityState.Active ->
  exists c' k', capabilities (VaultWorld.store w') !! id = Some (c', k') /\
    VaultCapability.state c' = VaultCapability.state c.
Proof.
  intros Hv Hw Hw' Hc Hs. destruct (served_lives _ _ Hv Hw) as (Hb & Hu & tr & _ & Hl).
  destruct (Hl id) as ([l|] & _ & Ha); simpl in Ha; [|by rewrite Ha in Hc].
  destruct (served_did _ _ Hw') as (Hu' & tr' & Hr' & _). rewrite Hu in Hr'.
  destruct (run_keeps (audit_log b) (VaultWorld.ulids w0) (proj1 Hv) _ _ _ Hr' Hb) as [Hk _].
  destruct (Hk id (Some l) Ha) as (l' & Hl' & Ha').
  assert (VaultCapability.state c = life_state l) as Hst.
  { destruct Ha as (c1 & k1 & Hc1 & _ & Hst & _). simpl in Hc1. rewrite Hc in Hc1. by injection Hc1 as <- <-. }
  apply lives_ended in Hl' as ->; [|apply bool_decide_eq_false; congruence].
  destruct Ha' as (c' & k' & Hc' & _ & Hst' & _). exists c', k'. split; [done|]. congruence.
Qed.

(** The vault and its audit log tell one story.  In every run of requests on
    a vault that starts without capabilities there is a history of events by
    which each capability lives: it is issued once, used and then revoked or
    expired at most once, and after that never used.  The store holds the state
    at which this life has arrived, under the identifier it was issued with and
    with a key that fits its class; and, when an audit log is attached, its
    entry counts the uses (to the limit of its counter), names who revoked it
    and is stamped as expired only if it is. *)
Theorem lives_by_machine w w' : vacant w -> served w w' ->
  exists tr, run (audit_log b) (VaultWorld.ulids w) (VaultSound.at_ w) tr (VaultSound.at_ w') /\
    forall id, exists l, lives id tr None = Some l /\ agrees (audit_log b) id l (VaultWorld.store w').
Proof. intros Hv Hs. by destruct (served_lives _ _ Hv Hs) as (_ & _ & Hl). Qed.

(** What a use of an ended capability answers. *)
Definition ended (id : string) (s : CapabilityState.t) : VaultError.t :=
  match s with
  | CapabilityState.Expired => VaultError.CapabilityExpired id
  | CapabilityState.Revoked => VaultError.CapabilityRevoked id
  | s => VaultError.InvalidTransition s CapabilityState.Active
  end.

(** C11: revocation and expiry are final.  After a capability was revoked or has
    expired, whatever requests follow, every use of it is refused with the
    error of its state and changes nothing, and it can be neither revoked nor
    expired again. *)
Theorem no_use_after_end w0 w w' id c k o by_ : vacant w0 -> served w0 w -> served w w' ->
  capabilities (VaultWorld.store w) !! id = Some (c, k) ->
  VaultCapability.state c <> CapabilityState.Active ->
  use_capability b {| UseCapabilityRequest.capability_id := id; UseCapabilityRequest.operation := o |} w'
    = (Err (ended id (VaultCapability.state c)), w') /\
  revoke_capability b id by_ w'
    = (Err (VaultError.InvalidTransition (VaultCapability.state c) CapabilityState.Revoked), w') /\
  expire_capability em id w'
    = (Err (VaultError.InvalidTransition (VaultCapability.state c) CapabilityState.Expired), w').
Proof.
  intros Hv Hw Hw' Hc Hs. destruct (served_ended _ _ _ _ _ _ Hv Hw Hw' Hc Hs) as (c' & k' & Hc' & Hst).
  unfold use_capability, revoke_capability, expire_capability, acquire, move_active, vault_get, mbind_.
  simpl. rewrite Hc'. simpl. rewrite Hst. rewrite bool_decide_eq_false_2 by done. simpl.
  by destruct (VaultCapability.state c).
Qed.
End Served.
End VaultLife.
