(* ===== verification/VaultKeys.v ===== *)
(** * Vault: what becomes of the keys

    Two keys are [alike] for a capability when no operation that its class
    permits tells them apart, and two vaults are [alike] when they differ in
    such keys only: then no run of requests tells the vaults apart
    ([keys_stay_inside]).  What one capability makes, a capability that holds the
    same key takes back ([vault_roundtrips]); and the check of signatures
    accepts more than it should ([public_key_forges]). *)
From S2P Require Import Prelude Receipt StateError VaultTypes VaultCrypto VaultBroker VaultSound.
Import VaultState.

Module VaultKeys.
Section Alike.
Context `{!VaultCrypto, !HashOrder, !HashOrderLaws} {L : Type} `{VaultEvidenceLog L} `{!VaultTexts}.
Abbreviation W := (VaultWorld.t L).
Abbreviation M := (M (VaultWorld.t L) VaultError.t).

(** ** Indistinguishability *)

(** No operation that [c] permits tells the key materials apart, by its answer
    or by what it takes of the environment. *)
Definition alike_keys (c : VaultCapability.t) (k k' : KeyMaterial.t) : Prop :=
  forall o, VaultSpec.permits c o = true -> forall w : W,
    (execute_operation k o w).1 = (execute_operation k' o w).1 /\
    VaultWorld.taken (execute_operation k o w).2 = VaultWorld.taken (execute_operation k' o w).2 /\
    VaultWorld.reads (execute_operation k o w).2 = VaultWorld.reads (execute_operation k' o w).2.

Definition alike_entries (e e' : VaultCapability.t * KeyMaterial.t) : Prop :=
  e.1 = e'.1 /\ alike_keys e.1 e.2 e'.2.

(** Vaults that differ in keys alone, with the same surroundings. *)
Record alike (w w' : W) : Prop := {
  alike_subjects : subjects (VaultWorld.store w) = subjects (VaultWorld.store w');
  alike_sessions : sessions (VaultWorld.store w) = sessions (VaultWorld.store w');
  alike_groups : group_membership (VaultWorld.store w) = group_membership (VaultWorld.store w');
  alike_audit : audit (VaultWorld.store w) = audit (VaultWorld.store w');
  alike_overrides : overrides (VaultWorld.store w) = overrides (VaultWorld.store w');
  alike_capabilities id :
    option_Forall2 alike_entries (capabilities (VaultWorld.store w) !! id)
      (capabilities (VaultWorld.store w') !! id);
  alike_evidence : VaultWorld.evidence w = VaultWorld.evidence w';
  alike_clock : VaultWorld.clock w = VaultWorld.clock w';
  alike_reads : VaultWorld.reads w = VaultWorld.reads w';
  alike_ulids : VaultWorld.ulids w = VaultWorld.ulids w';
  alike_drawn : VaultWorld.drawn w = VaultWorld.drawn w';
  alike_entropy : VaultWorld.entropy w = VaultWorld.entropy w';
  alike_taken : VaultWorld.taken w = VaultWorld.taken w';
}.

#[export] Instance alike_entries_equiv : Equivalence alike_entries.
Proof.
  split.
  - intros [c k]. by split.
  - intros [c k] [c' k'] [[= ->] Hk]. split; [done|]. intros o Ho w. by destruct (Hk o Ho w) as (-> & -> & ->).
  - intros [c k] [c' k'] [c2 k2] [[= ->] Hk] [[= ->] Hk']. split; [done|]. intros o Ho w.
    destruct (Hk o Ho w) as (-> & -> & ->). by apply Hk'.
Qed.

#[export] Instance alike_equiv : Equivalence alike.
Proof.
  split.
  - intros w. by split.
  - intros w w' Ha. pose proof (alike_capabilities _ _ Ha) as Hc. destruct Ha. split; try congruence.
    intros id. symmetry. apply Hc.
  - intros w1 w2 w3 Ha Hb. pose proof (alike_capabilities _ _ Ha) as Hc.
    pose proof (alike_capabilities _ _ Hb) as Hd. destruct Ha, Hb. split; try congruence.
    intros id. etrans; [apply Hc|apply Hd].
Qed.

(** Programs that alike vaults answer alike. *)
Definition twins {B} (m m' : M B) : Prop := forall w w', alike w w' ->
  (m w).1 = (m' w').1 /\ alike (m w).2 (m' w').2.

Lemma twins_bind {B C} (m m' : M B) (f f' : B -> M C) :
  twins m m' -> (forall x, twins (f x) (f' x)) -> twins (let! x := m in f x) (let! x := m' in f' x).
Proof.
  intros Hm Hf w w' Hw. specialize (Hm w w' Hw). unfold mbind_.
  destruct (m w) as [[x|e] w1], (m' w') as [[x'|e'] w1']; destruct Hm as [[= ->] Ha]; [by apply Hf|done].
Qed.
Lemma twins_ret {B} (x : B) : twins (ret x) (ret x).
Proof. by intros w w' Hw. Qed.
Lemma twins_throw {B} e : twins (throw (B := B) e) (throw e).
Proof. by intros w w' Hw. Qed.
Lemma twins_lift {B} (r : result VaultError.t B) : twins (lift r) (lift r).
Proof. by intros w w' Hw. Qed.

(** A change of the vault that both sides make. *)
Lemma twins_change f f' :
  (forall w w', alike w w' -> alike (with_store f w) (with_store f' w')) ->
  twins (vault_change f) (vault_change f').
Proof. intros Hf w w' Hw. split; [done|]. by apply Hf. Qed.

Lemma twins_now : twins vault_now vault_now.
Proof.
  intros w w' Ha. destruct Ha as [? ? ? ? ? ? ? Hc Hr ? ? ? ?]. unfold vault_now. simpl.
  split; [by rewrite Hc, Hr|]. by split; simpl; try congruence.
Qed.
Lemma twins_fresh p : twins (vault_fresh p) (vault_fresh p).
Proof.
  intros w w' Ha. destruct Ha as [? ? ? ? ? ? ? ? ? Hu Hd ? ?]. unfold vault_fresh. simpl.
  split; [by rewrite Hu, Hd|]. by split; simpl; try congruence.
Qed.
Lemma twins_fill n : twins (fill_bytes n) (fill_bytes n).
Proof.
  intros w w' Ha. destruct Ha as [? ? ? ? ? ? ? ? ? ? ? He Ht]. unfold fill_bytes. simpl.
  split; [by rewrite He, Ht|]. by split; simpl; try congruence.
Qed.
Lemma twins_emit e rt p prev : twins (vault_emit e rt p prev) (vault_emit e rt p prev).
Proof.
  intros w w' Ha. destruct Ha as [? ? ? ? ? ? He ? ? ? ? ? ?]. unfold vault_emit. cbv zeta. rewrite He.
  destruct (vault_append_signed _ _ _ _) as [[r|x] l]; (split; [done|]; by split).
Qed.
Lemma twins_attached e (f : VaultEvidenceEmitter -> M string) :
  (forall x, twins (f x) (f x)) -> twins (when_attached e f) (when_attached e f).
Proof.
  intros Hf. destruct e as [x|]; [|apply twins_ret]. apply twins_bind; [apply Hf|]. intros. apply twins_ret.
Qed.

Lemma twins_now_then {B} (f : DateTime -> M B) :
  (forall t, twins (f t) (f t)) -> twins (let! t := vault_now in f t) (let! t := vault_now in f t).
Proof. intros Hf. apply twins_bind; [apply twins_now|exact Hf]. Qed.

(** ** Updates of alike vaults *)
Lemma with_store_alike f f' w w' :
  alike w w' ->
  (forall s, subjects (f s) = subjects s /\ sessions (f s) = sessions s /\
     group_membership (f s) = group_membership s /\ overrides (f s) = overrides s) ->
  (forall s, subjects (f' s) = subjects s /\ sessions (f' s) = sessions s /\
     group_membership (f' s) = group_membership s /\ overrides (f' s) = overrides s) ->
  audit (f (VaultWorld.store w)) = audit (f' (VaultWorld.store w')) ->
  (forall id, option_Forall2 alike_entries (capabilities (f (VaultWorld.store w)) !! id)
     (capabilities (f' (VaultWorld.store w')) !! id)) ->
  alike (with_store f w) (with_store f' w').
Proof.
  intros Ha Hf Hf' Hau Hc. destruct Ha. destruct (Hf (VaultWorld.store w)) as (E1 & E2 & E3 & E4).
  destruct (Hf' (VaultWorld.store w')) as (F1 & F2 & F3 & F4). split; simpl; try congruence. exact Hc.
Qed.

Lemma twins_put id e : twins (CapabilityAuditLog.put id e) (CapabilityAuditLog.put id e).
Proof.
  apply twins_change. intros w w' Ha. apply with_store_alike; [done|done|done| |].
  - simpl. by rewrite (alike_audit _ _ Ha).
  - apply Ha.
Qed.

(** A program that reads the audit log only. *)
Lemma twins_audit {B} (g : gmap string CapabilityAuditEntry.t -> M B) :
  (forall a, twins (g a) (g a)) ->
  twins (let! s := vault_get in g (audit s)) (let! s := vault_get in g (audit s)).
Proof.
  intros Hg w w' Ha. unfold vault_get, mbind_. rewrite (alike_audit _ _ Ha). by apply Hg.
Qed.

Lemma twins_record_issue id by_ :
  twins (CapabilityAuditLog.record_issue id by_) (CapabilityAuditLog.record_issue id by_).
Proof. apply twins_put. Qed.
Lemma twins_record_use id kind :
  twins (CapabilityAuditLog.record_use id kind) (CapabilityAuditLog.record_use id kind).
Proof.
  apply (twins_audit (fun a => match a !! id with None => ret () | Some e => _ end)). intros a.
  destruct (a !! id); [|apply twins_ret]. apply twins_now_then. intros t. apply twins_put.
Qed.
Lemma twins_record_revoke id by_ :
  twins (CapabilityAuditLog.record_revoke id by_) (CapabilityAuditLog.record_revoke id by_).
Proof.
  apply (twins_audit (fun a => match a !! id with None => ret () | Some e => _ end)). intros a.
  destruct (a !! id); [|apply twins_ret]. apply twins_now_then. intros t. apply twins_put.
Qed.
Lemma twins_record_expire id :
  twins (CapabilityAuditLog.record_expire id) (CapabilityAuditLog.record_expire id).
Proof.
  apply (twins_audit (fun a => match a !! id with None => ret () | Some e => _ end)). intros a.
  destruct (a !! id) as [e|]; [|apply twins_ret]. destruct (CapabilityAuditEntry.expired_at e); [apply twins_ret|].
  apply twins_now_then. intros t. apply twins_put.
Qed.
Lemma twins_audited b m : twins m m -> twins (when_audited b m) (when_audited b m).
Proof. unfold when_audited. destruct (audit_log b); [done|]. intros _. apply twins_ret. Qed.

(** ** Executing an operation *)

(** The execution of an operation touches nothing of [w0] but the derived keys,
    the clock and the randomness. *)
Definition near (w0 w : W) : Prop :=
  (exists d, VaultWorld.store w = set_derived_key_materials d (VaultWorld.store w0)) /\
  VaultWorld.evidence w = VaultWorld.evidence w0 /\ VaultWorld.clock w = VaultWorld.clock w0 /\
  VaultWorld.ulids w = VaultWorld.ulids w0 /\ VaultWorld.drawn w = VaultWorld.drawn w0 /\
  VaultWorld.entropy w = VaultWorld.entropy w0.

Lemma near_refl w : near w w.
Proof. split; [|done]. exists (derived_key_materials (VaultWorld.store w)). by destruct (VaultWorld.store w). Qed.
Lemma now_near w0 : preserves (near w0) vault_now.
Proof. by intros w Hw. Qed.
Lemma fill_near w0 n : preserves (near w0) (fill_bytes n).
Proof. by intros w Hw. Qed.
Lemma derive_near w0 h k : preserves (near w0) (vault_change (fun s =>
  set_derived_key_materials (<[h := k]> (derived_key_materials s)) s)).
Proof.
  apply preserves_modify. intros w ([d Hd] & Hrest). split; [|done]. simpl. rewrite Hd. by eexists.
Qed.
Lemma execute_near k o w : near w (execute_operation k o w).2.
Proof.
  apply preserves_at; [|apply near_refl]. pose proof (now_near w). pose proof (fill_near w).
  pose proof (derive_near w). unfold execute_operation, AesGcm.encrypt. destruct o; frame.
Qed.

(** Executing with alike keys. *)
Lemma execute_alike c k k' o w : VaultSpec.permits c o = true -> alike_keys c k k' ->
  (execute_operation k o w).1 = (execute_operation k' o w).1 /\
  alike (execute_operation k o w).2 (execute_operation k' o w).2.
Proof.
  intros Hp Hk. destruct (Hk o Hp w) as (Hr & Ht & Hre). split; [done|].
  destruct (execute_near k o w) as ([d Hd] & He & Hc & Hu & Hn & Hen).
  destruct (execute_near k' o w) as ([d' Hd'] & He' & Hc' & Hu' & Hn' & Hen').
  split; rewrite ?Hd, ?Hd'; simpl; congruence || done.
Qed.

Lemma twins_derive h k : twins (vault_change (fun s =>
    set_derived_key_materials (<[h := k]> (derived_key_materials s)) s))
  (vault_change (fun s => set_derived_key_materials (<[h := k]> (derived_key_materials s)) s)).
Proof.
  apply twins_change. intros w w' Ha. apply with_store_alike; [done|done|done|apply Ha|apply Ha].
Qed.

Lemma twins_execute k o : twins (execute_operation k o) (execute_operation k o).
Proof.
  unfold execute_operation, AesGcm.encrypt.
  destruct o; repeat first
    [ apply twins_ret | apply twins_throw | apply twins_lift | apply twins_fill | apply twins_derive
    | apply twins_now | apply twins_bind; [|intros ?] | progress cbv zeta
    | destruct (bool_decide _) ].
Qed.

(** ** Requests *)

(** The answers of [m] at [w] and of [m'] at [w'] are related by [R]; an error
    is the same. *)
Definition related {B} (R : B -> B -> Prop) (m m' : M B) (w w' : W) : Prop :=
  match (m w).1, (m' w').1 with
  | Ok x, Ok x' => R x x'
  | Err e, Err e' => e = e'
  | _, _ => False
  end /\ alike (m w).2 (m' w').2.

Lemma related_bind {B C} R R' (m m' : M B) (f f' : B -> M C) w w' :
  related R m m' w w' ->
  (forall x x' w w', R x x' -> alike w w' -> related R' (f x) (f' x') w w') ->
  related R' (let! x := m in f x) (let! x := m' in f' x) w w'.
Proof.
  intros Hm Hf. unfold related in *. unfold mbind_.
  destruct (m w) as [[x|e] w1], (m' w') as [[x'|e'] w1']; destruct Hm as [HR Ha]; try done.
  by apply Hf.
Qed.
Lemma twins_related {B} (m m' : M B) : twins m m' <-> forall w w', alike w w' -> related eq m m' w w'.
Proof.
  unfold twins, related. split; intros Hm w w' Ha; specialize (Hm w w' Ha);
    destruct (m w) as [[x|e] w1], (m' w') as [[x'|e'] w1']; destruct Hm as [HR Ha'];
    simpl in *; try done; try (by subst); try (by injection HR as <-).
Qed.
Lemma related_read {B} (R : B -> B -> Prop) f f' (w w' : W) :
  related R (f (VaultWorld.store w)) (f' (VaultWorld.store w')) w w' ->
  related R (let! s := vault_get in f s) (let! s := vault_get in f' s) w w'.
Proof. done. Qed.
Lemma related_twins {B} (m : M B) w w' : twins m m -> alike w w' -> related eq m m w w'.
Proof. intros Hm. by apply twins_related. Qed.

Lemma alike_entry w w' id : alike w w' ->
  match capabilities (VaultWorld.store w) !! id, capabilities (VaultWorld.store w') !! id with
  | Some (c, k), Some (c', k') => c' = c /\ alike_keys c k k'
  | None, None => True
  | _, _ => False
  end.
Proof.
  intros Ha. destruct (alike_capabilities _ _ Ha id) as [[c k] [c' k'] [Hc Hk]|]; [|done].
  simpl in *. by subst.
Qed.

(** Moving a capability on both sides. *)
Lemma related_set id c k k' w w' : alike w w' -> alike_keys c k k' ->
  related eq (set_capability id c k) (set_capability id c k') w w'.
Proof.
  intros Ha Hk. split; [done|]. apply with_store_alike; [done|done|done|apply Ha|]. intros i. simpl.
  destruct (decide (i = id)) as [->|Hn].
  - rewrite !lookup_insert_eq. apply Some_Forall2. by split.
  - rewrite !lookup_insert_ne by done. apply Ha.
Qed.

Lemma twins_past c : twins (past_expiry (L := L) c) (past_expiry c).
Proof.
  unfold past_expiry. destruct (VaultCapability.expires_at c); [|apply twins_ret].
  apply twins_now_then. intros t'. apply twins_ret.
Qed.

Lemma acquire_related b id o w w' : alike w w' ->
  related (fun k k' => exists c, VaultSpec.permits c o = true /\ alike_keys c k k')
    (acquire b id o) (acquire b id o) w w'.
Proof.
  intros Ha. apply related_read. pose proof (alike_entry _ _ id Ha) as He.
  destruct (capabilities (VaultWorld.store w) !! id) as [[c k]|],
    (capabilities (VaultWorld.store w') !! id) as [[c' k']|]; try done.
  destruct He as [-> Hk]. destruct (VaultCapability.state c); try done.
  eapply related_bind; [apply related_twins; [apply twins_past|done]|].
  intros past _ w1 w1' <- Ha1. destruct past.
  - eapply related_bind; [by apply related_set|]. intros [] _ w2 w2' <- Ha2.
    eapply related_bind; [apply related_twins; [apply twins_audited, twins_record_expire|done]|].
    by intros [] _ w3 w3' <- Ha3.
  - destruct (VaultSpec.permits c o) eqn:Hm; pose proof Hm as Hm'; unfold VaultSpec.permits in Hm';
      rewrite <- negb_orb, Hm'; [|done]. split; [|done]. by exists c.
Qed.

Lemma execute_related c k k' o w w' : VaultSpec.permits c o = true -> alike_keys c k k' ->
  alike w w' -> related eq (execute_operation k o) (execute_operation k' o) w w'.
Proof.
  intros Hp Hk Ha. destruct (execute_alike c k k' o w Hp Hk) as [Hr Hal].
  destruct (related_twins _ w w' (twins_execute k' o) Ha) as [Hr' Hal'].
  split; [by rewrite Hr|]. by transitivity (execute_operation k' o w).2.
Qed.

Lemma twins_use b r : twins (use_capability b r) (use_capability b r).
Proof.
  apply twins_related. intros w w' Ha. unfold use_capability. cbv zeta.
  eapply related_bind; [by apply acquire_related|]. intros k k' w1 w1' (c & Hp & Hk) Ha1.
  eapply related_bind; [by eapply execute_related|]. intros x _ w2 w2' <- Ha2.
  apply related_twins; [|done].
  apply twins_bind; [apply twins_audited, twins_record_use|intros _].
  apply twins_bind; [|intros; apply twins_ret]. apply twins_attached. intros e.
  apply twins_now_then. intros t. apply twins_emit.
Qed.

(** Requests to issue that differ in keys that are alike. *)
Definition alike_issue (r r' : IssueCapabilityRequest.t) : Prop :=
  IssueCapabilityRequest.class r' = IssueCapabilityRequest.class r /\
  IssueCapabilityRequest.issued_to r' = IssueCapabilityRequest.issued_to r /\
  IssueCapabilityRequest.expires_at r' = IssueCapabilityRequest.expires_at r /\
  IssueCapabilityRequest.key_algorithm r' = IssueCapabilityRequest.key_algorithm r /\
  match IssueCapabilityRequest.key_material_bytes r, IssueCapabilityRequest.key_material_bytes r' with
  | None, None => True
  | Some k, Some k' => forall c now, VaultCapability.class c = IssueCapabilityRequest.class r ->
      let material x := {| KeyMaterial.algorithm := IssueCapabilityRequest.key_algorithm r;
                           KeyMaterial.created_at := now; KeyMaterial.material := x |} in
      alike_keys c (material k) (material k')
  | _, _ => False
  end.

Lemma alike_keys_refl c k : alike_keys c k k.
Proof. by intros o Ho w. Qed.

Lemma twins_material a : twins (generate_key_material (L := L) a) (generate_key_material a).
Proof.
  destruct a; try apply twins_fill. apply twins_bind; [apply twins_fill|]. intros. apply twins_ret.
Qed.

Lemma twins_issue b r r' : alike_issue r r' -> twins (issue_capability b r) (issue_capability b r').
Proof.
  intros (Ec & Ei & Ee & Ea & Hk). apply twins_related. intros w w' Ha. unfold issue_capability.
  cbv zeta. rewrite Ec, Ei, Ee, Ea.
  eapply related_bind; [apply related_twins; [apply twins_lift|done]|]. intros _ _ w1 w1' _ Ha1.
  eapply related_bind; [apply related_twins; [apply twins_now|done]|]. intros now _ w2 w2' <- Ha2.
  eapply related_bind; [apply related_twins; [apply twins_fresh|done]|]. intros id _ w3 w3' <- Ha3.
  eapply (related_bind (fun k k' => forall c, VaultCapability.class c = IssueCapabilityRequest.class r ->
    alike_keys c {| KeyMaterial.algorithm := IssueCapabilityRequest.key_algorithm r;
                    KeyMaterial.created_at := now; KeyMaterial.material := k |}
                 {| KeyMaterial.algorithm := IssueCapabilityRequest.key_algorithm r;
                    KeyMaterial.created_at := now; KeyMaterial.material := k' |})).
  { destruct (IssueCapabilityRequest.key_material_bytes r) as [k|],
      (IssueCapabilityRequest.key_material_bytes r') as [k'|]; try done.
    - split; [|done]. intros c Hc. by apply Hk.
    - destruct (related_twins _ _ _ (twins_material (IssueCapabilityRequest.key_algorithm r)) Ha3) as [Hr Ha4].
      split; [|done]. destruct (generate_key_material _ w3) as [[x|e] w4],
        (generate_key_material _ w3') as [[x'|e'] w4']; simpl in *; try done.
      subst. intros c _. apply alike_keys_refl. }
  intros k k' w4 w4' Hkk Ha4.
  eapply related_bind; [apply related_set; [done|by apply Hkk]|]. intros [] _ w5 w5' <- Ha5.
  apply related_twins; [|done].
  apply twins_bind; [apply twins_audited, twins_record_issue|intros _].
  apply twins_bind; [|intros; apply twins_ret]. apply twins_attached. intros e. apply twins_emit.
Qed.

(** The iterations of the capabilities of alike vaults run in step. *)
Lemma alike_iter w w' : alike w w' ->
  Forall2 (fun x y => x.1 = y.1 /\ alike_entries x.2 y.2)
    (hash_iter (capabilities (VaultWorld.store w))) (hash_iter (capabilities (VaultWorld.store w'))).
Proof.
  intros Ha. set (m := capabilities (VaultWorld.store w)). set (m' := capabilities (VaultWorld.store w')).
  assert ((hash_iter m).*1 = (hash_iter m').*1) as Hk.
  { apply hash_iter_keys, set_eq. intros id. rewrite !elem_of_dom.
    unfold m, m'. destruct (alike_capabilities _ _ Ha id); split; intros [? ?]; done || by eexists. }
  assert (forall x, x ∈ hash_iter m -> m !! x.1 = Some x.2) as Hm.
  { intros [i e]. rewrite hash_iter_perm. apply elem_of_map_to_list. }
  assert (forall x, x ∈ hash_iter m' -> m' !! x.1 = Some x.2) as Hm'.
  { intros [i e]. rewrite hash_iter_perm. apply elem_of_map_to_list. }
  revert Hk Hm Hm'. generalize (hash_iter m) (hash_iter m').
  intros l. induction l as [|[i e] l IH]; intros [|[i' e'] l']; try done.
  simpl. intros [= <- Hk] Hm Hm'. constructor.
  - split; [done|]. simpl. pose proof (alike_capabilities _ _ Ha i) as Hi. fold m m' in Hi.
    assert (m !! i = Some e) as He by (apply (Hm (i, e)); by left).
    assert (m' !! i = Some e') as He' by (apply (Hm' (i, e')); by left).
    rewrite He, He' in Hi. by inversion Hi.
  - apply IH; [done|..]; intros x Hx; [apply Hm|apply Hm']; by right.
Qed.

Lemma alike_records (l l' : list (string * (VaultCapability.t * KeyMaterial.t))) :
  Forall2 (fun x y => x.1 = y.1 /\ alike_entries x.2 y.2) l l' -> l.*2.*1 = l'.*2.*1.
Proof. induction 1 as [|x y l l' [_ [He _]] Hl IH]; [done|]. by rewrite !fmap_cons, He, IH. Qed.

Lemma twins_list subject : twins (list_capabilities subject) (list_capabilities subject).
Proof.
  apply twins_related. intros w w' Ha. apply related_read. split; [|done]. simpl.
  by rewrite (alike_records _ _ (alike_iter _ _ Ha)).
Qed.

Lemma twins_move id to : twins (move_active id to) (move_active id to).
Proof.
  apply twins_related. intros w w' Ha. apply related_read. pose proof (alike_entry _ _ id Ha) as He.
  destruct (capabilities (VaultWorld.store w) !! id) as [[c k]|],
    (capabilities (VaultWorld.store w') !! id) as [[c' k']|]; try done.
  destruct He as [-> Hk]. destruct (negb _); [done|]. by apply related_set.
Qed.

Lemma twins_revoke b id by_ : twins (revoke_capability b id by_) (revoke_capability b id by_).
Proof.
  apply twins_bind; [apply twins_move|intros _].
  apply twins_bind; [apply twins_audited, twins_record_revoke|intros _].
  apply twins_attached. intros e. apply twins_now_then. intros t. apply twins_emit.
Qed.

Lemma twins_expire em id : twins (expire_capability em id) (expire_capability em id).
Proof.
  apply twins_bind; [apply twins_move|intros _]. apply twins_bind; [apply twins_record_expire|intros _].
  apply twins_attached. intros e. apply twins_now_then. intros t. apply twins_emit.
Qed.

Lemma twins_expirations em now ids :
  twins (record_expirations em now ids) (record_expirations em now ids).
Proof.
  induction ids as [|id ids IH]; [apply twins_ret|]. simpl.
  apply twins_bind; [apply twins_record_expire|intros _].
  apply twins_bind; [|intros _; exact IH]. apply twins_attached. intros e. apply twins_emit.
Qed.

Lemma alike_due now (l l' : list (string * (VaultCapability.t * KeyMaterial.t))) :
  Forall2 (fun x y => x.1 = y.1 /\ alike_entries x.2 y.2) l l' ->
  (filter (fun e => is_due now e.2.1 = true) l).*1 = (filter (fun e => is_due now e.2.1 = true) l').*1.
Proof.
  induction 1 as [|x y l l' [Hk [He _]] Hl IH]; [done|]. rewrite !filter_cons.
  rewrite <- He. destruct (decide (is_due now x.2.1 = true)); [|exact IH]. rewrite !fmap_cons, Hk. by f_equal.
Qed.

Lemma twins_due now : twins
  (vault_change (fun s => set_capabilities (expire_due now <$> capabilities s) s))
  (vault_change (fun s => set_capabilities (expire_due now <$> capabilities s) s)).
Proof.
  apply twins_change. intros w w' Ha. apply with_store_alike; [done|done|done|apply Ha|].
  intros id. simpl. rewrite !lookup_fmap.
  destruct (alike_capabilities _ _ Ha id) as [[c k] [c' k'] [Hc Hk]|]; [|constructor].
  simpl in Hc. subst c'. simpl. apply Some_Forall2. unfold expire_due. simpl.
  by destruct (is_due now c).
Qed.

Lemma twins_pass em now : twins (run_expiration_pass em now) (run_expiration_pass em now).
Proof.
  apply twins_bind; [apply twins_now|]. intros started. apply twins_related. intros w w' Ha.
  apply related_read. cbv zeta.
  assert (size (capabilities (VaultWorld.store w')) = size (capabilities (VaultWorld.store w))) as ->.
  { rewrite <- !length_map_to_list, <- !hash_iter_perm. symmetry.
    by eapply Forall2_length, alike_iter. }
  rewrite <- (alike_due now _ _ (alike_iter _ _ Ha)). apply related_twins; [|done].
  apply twins_bind; [apply twins_due|intros _]. apply twins_bind; [apply twins_expirations|intros _].
  apply twins_bind; [apply twins_fresh|intros id]. apply twins_now_then. intros t. apply twins_ret.
Qed.

(** ** Runs *)
Inductive alike_request : VaultRequest.t -> VaultRequest.t -> Prop :=
| alike_issued r r' : alike_issue r r' -> alike_request (VaultRequest.Issue r) (VaultRequest.Issue r')
| alike_same r : alike_request r r.

Lemma twins_serve b em r r' : alike_request r r' ->
  twins (VaultSound.serve b em r) (VaultSound.serve b em r').
Proof.
  destruct 1 as [r r' Hr|r].
  - apply twins_bind; [by apply twins_issue|]. intros. apply twins_ret.
  - destruct r as [r|r|subject|id by_|id|now]; (apply twins_bind; [|intros; apply twins_ret]).
    + apply twins_issue. split_and!; try done. destruct (IssueCapabilityRequest.key_material_bytes r); [|done].
      intros. apply alike_keys_refl.
    + apply twins_use.
    + apply twins_list.
    + apply twins_revoke.
    + apply twins_expire.
    + apply twins_pass.
Qed.

(** The answers to a run of requests, and the vault it leaves. *)
Fixpoint answers (b : InMemoryVaultBroker) (em : option VaultEvidenceEmitter)
    (rs : list VaultRequest.t) (w : W) : list (result VaultError.t VaultResponse.t) * W :=
  match rs with
  | [] => ([], w)
  | r :: rs =>
      let '(x, w) := VaultSound.serve b em r w in
      let '(xs, w) := answers b em rs w in (x :: xs, w)
  end.

(** C12: keys stay inside the vault.  Two vaults that differ only in keys, and the
    same only in keys that no operation permitted by their class tells apart,
    give the same answers to any run of requests, even when the keys that the
    requests import differ in that way; and afterwards their audit logs, their
    evidence, and all they hold but keys are still the same. *)
Theorem keys_stay_inside b em rs rs' w w' :
  alike w w' -> Forall2 alike_request rs rs' ->
  (answers b em rs w).1 = (answers b em rs' w').1 /\ alike (answers b em rs w).2 (answers b em rs' w').2.
Proof.
  intros Ha Hrs. revert w w' Ha. induction Hrs as [|r r' rs rs' Hr Hrs IH]; intros w w' Ha; [done|].
  simpl. destruct (twins_serve b em r r' Hr w w' Ha) as [Hx Ha1].
  destruct (VaultSound.serve b em r w) as [x w1], (VaultSound.serve b em r' w') as [x' w1'].
  simpl in Hx, Ha1. subst x'. destruct (IH w1 w1' Ha1) as [Hxs Ha2].
  destruct (answers b em rs w1) as [xs w2], (answers b em rs' w1') as [xs' w2'].
  simpl in *. by subst.
Qed.
End Alike.

(** ** Using a key *)
Section Use.
Context `{!VaultCrypto, !HashOrder} {L : Type} `{VaultEvidenceLog L} `{!VaultTexts}.
Context {CryptoLaws : VaultCryptoLaws}.
Variable b : InMemoryVaultBroker.
Abbreviation W := (VaultWorld.t L).

Definition call (id : string) (o : VaultOperation.t) : M W VaultError.t UseCapabilityResult.t :=
  use_capability b {| UseCapabilityRequest.capability_id := id; UseCapabilityRequest.operation := o |}.

(** The capability [id] holds the key [k] and may be used for [o]. *)
Definition ready (id : string) (o : VaultOperation.t) (k : KeyMaterial.t) (w : W) : Prop :=
  exists c, capabilities (VaultWorld.store w) !! id = Some (c, k) /\
    VaultCapability.state c = CapabilityState.Active /\ VaultSpec.permits c o = true /\
    VaultSpec.unexpired c (VaultWorld.clock w (VaultWorld.reads w)).

Lemma acquire_ready id o k w : ready id o k w ->
  exists w', acquire b id o w = (Ok k, w') /\ undisturbed w w'.
Proof.
  intros (c & Hc & Hs & Hp & Hu). unfold acquire. unfold vault_get, mbind_ at 1. rewrite Hc, Hs.
  unfold mbind_. pose proof Hp as Hp'. unfold VaultSpec.permits in Hp'.
  unfold past_expiry. destruct (VaultCapability.expires_at c) as [t|] eqn:He.
  - unfold mbind_, vault_now, ret. specialize (Hu t He).
    destruct (Z.ltb_spec t (VaultWorld.clock w (VaultWorld.reads w))); [lia|].
    rewrite <- negb_orb, Hp'. simpl. eexists. split; [done|]. done.
  - simpl. rewrite <- negb_orb, Hp'. simpl. exists w. by split.
Qed.

(** The rest of a use, once the operation has an answer. *)
Lemma call_ready id o k x w :
  ready id o k w -> (forall w', undisturbed w w' -> (execute_operation k o w').1 = Ok x) ->
  post (call id o) (fun y _ => y = x) (fun e _ => vault_refused e) w.
Proof.
  intros (w1 & Ha & Hu)%acquire_ready Hx. unfold call, use_capability. simpl.
  apply (post_bind _ _ (fun k' w' => k' = k /\ w' = w1)); [unfold post; by rewrite Ha|].
  intros _ _ [-> ->]. specialize (Hx w1 Hu).
  apply (post_bind _ _ (fun y _ => y = x)).
  { unfold post. destruct (execute_operation k o w1) as [[y|e] w2]; by simplify_eq/=. }
  intros _ w2 ->. apply (post_bind _ _ (fun _ _ => True)).
  { unfold when_audited. destruct (audit_log b); [|done].
    eapply post_mono; [apply VaultSound.record_use_audits|done|done]. }
  intros [] w3 _. apply (post_bind _ _ (fun _ _ => True)); [|by intros].
  apply post_discreet; [eauto with discreet|done|done].
Qed.

(** A use that succeeded executed its operation with the key of the capability. *)
Lemma call_inv id o w x w' : call id o w = (Ok x, w') ->
  exists c k (w1 w2 : W), capabilities (VaultWorld.store w) !! id = Some (c, k) /\
    execute_operation k o w1 = (Ok x, w2).
Proof.
  unfold call, use_capability. simpl. unfold mbind_ at 1.
  pose proof (VaultSound.acquire_post b id o w) as Hp. unfold post in Hp.
  destruct (acquire b id o w) as [[k|e] w1]; [|done].
  destruct Hp as (_ & c & t & Hc & _). unfold mbind_ at 1.
  destruct (execute_operation k o w1) as [[y|e] w2] eqn:He; [|done]. unfold mbind_.
  destruct (when_audited _ _ w2) as [[[]|e] w3]; [|done].
  destruct (when_attached _ _ w3) as [[[]|e] w4]; [|done]. intros [= -> ->].
  by exists c, k, w1, w2.
Qed.

(** [o'] undoes or checks what [o] with the answer [x] made; [x'] says so. *)
Inductive counterpart : VaultOperation.t -> UseCapabilityResult.t -> VaultOperation.t ->
    UseCapabilityResult.t -> Prop :=
| counter_decrypt p a c n a' : counterpart (VaultOperation.Encrypt p a)
    (UseCapabilityResult.Encrypted c n a') (VaultOperation.Decrypt c a) (UseCapabilityResult.Decrypted p)
| counter_mac m t : counterpart (VaultOperation.MacGenerate m) (UseCapabilityResult.MacGenerated t)
    (VaultOperation.MacVerify m t) (UseCapabilityResult.MacVerified true)
| counter_sign m s : counterpart (VaultOperation.Sign m) (UseCapabilityResult.Signed s)
    (VaultOperation.Verify m s) (UseCapabilityResult.Verified true).

(** [under]: the arm of an operation whose algorithm fits. *)
Lemma encrypt_counter k k' p a (w1 w2 w3 : W) c n a' :
  execute_operation k (VaultOperation.Encrypt p a) w1 = (Ok (UseCapabilityResult.Encrypted c n a'), w2) ->
  KeyMaterial.algorithm k' = KeyMaterial.algorithm k -> KeyMaterial.material k' = KeyMaterial.material k ->
  (execute_operation (L := L) k' (VaultOperation.Decrypt c a) w3).1 = Ok (UseCapabilityResult.Decrypted p).
Proof.
  unfold execute_operation. intros He -> Hk. destruct (bool_decide _); [|done]. rewrite Hk.
  unfold mbind_ in He. destruct (AesGcm.encrypt _ p a w1) as [[[x y]|e] w4] eqn:Hx; [|done].
  injection He as -> _ _ _. simpl. unfold mbind_, lift. by rewrite (gcm_roundtrip _ _ _ _ _ _ _ Hx).
Qed.
Lemma mac_counter k k' m t (w1 w2 w3 : W) :
  execute_operation k (VaultOperation.MacGenerate m) w1 = (Ok (UseCapabilityResult.MacGenerated t), w2) ->
  KeyMaterial.algorithm k' = KeyMaterial.algorithm k -> KeyMaterial.material k' = KeyMaterial.material k ->
  (execute_operation (L := L) k' (VaultOperation.MacVerify m t) w3).1 = Ok (UseCapabilityResult.MacVerified true).
Proof.
  unfold execute_operation. intros He -> Hk. destruct (bool_decide _); [|done]. rewrite Hk.
  unfold mbind_, lift in *. destruct (HmacSha256.generate _ m) as [x|e] eqn:Hx; [|done].
  injection He as -> _. by rewrite (hmac_roundtrip _ _ _ Hx).
Qed.
Lemma sign_counter k k' m s (w1 w2 w3 : W) :
  execute_operation k (VaultOperation.Sign m) w1 = (Ok (UseCapabilityResult.Signed s), w2) ->
  KeyMaterial.algorithm k' = KeyMaterial.algorithm k ->
  KeyMaterial.material k' = KeyMaterial.material k \/
    KeyMaterial.material k' = ed25519_public (KeyMaterial.material k) ->
  (execute_operation (L := L) k' (VaultOperation.Verify m s) w3).1 = Ok (UseCapabilityResult.Verified true).
Proof.
  unfold execute_operation. intros He -> Hk. destruct (bool_decide _); [|done].
  unfold mbind_, lift in *. destruct (Ed25519.sign _ m) as [x|e] eqn:Hx; [|done].
  injection He as -> _. destruct Hk as [->| ->].
  - by rewrite (ed25519_seed_roundtrip _ _ _ Hx).
  - by rewrite (ed25519_public_roundtrip _ _ _ Hx).
Qed.

(** The key [k'] checks what [k] makes: it is the same key, or for signatures
    the public key of [k]. *)
Definition checks (o : VaultOperation.t) (k k' : KeyMaterial.t) : Prop :=
  KeyMaterial.algorithm k' = KeyMaterial.algorithm k /\
  (KeyMaterial.material k' = KeyMaterial.material k \/
   (exists m, o = VaultOperation.Sign m) /\
     KeyMaterial.material k' = ed25519_public (KeyMaterial.material k)).

(** C36: what one capability makes another takes back.  What a use encrypted, under
    whatever key and nonce, a capability for decryption that holds the same key
    decrypts to the same text; a code or a signature verifies under a capability
    with the same key, a signature also under one that holds the public key.  The
    second capability has to be usable: active, not expired, and of a class that
    permits the operation ([ready]); then only a refused evidence record can
    withhold the answer.  What the ciphers guarantee are the laws of [VaultLaws]. *)
Theorem vault_roundtrips id o x id' o' x' c k k' w w1 w2 :
  call id o w = (Ok x, w1) -> capabilities (VaultWorld.store w) !! id = Some (c, k) ->
  counterpart o x o' x' -> checks o k k' -> ready id' o' k' w2 ->
  post (call id' o') (fun y _ => y = x') (fun e _ => vault_refused e) w2.
Proof.
  intros (c1 & k1 & w3 & w4 & Hc1 & He)%call_inv Hc Hop [Ha Hk] Hr.
  rewrite Hc in Hc1. injection Hc1 as <- <-. eapply call_ready; [exact Hr|].
  intros w5 _. destruct Hop as [p a ct n a'|m t|m s].
  - destruct Hk as [Hk|[[? [=]] _]]. by eapply encrypt_counter.
  - destruct Hk as [Hk|[[? [=]] _]]. by eapply mac_counter.
  - eapply sign_counter; [exact He|done|]. destruct Hk as [Hk|[_ Hk]]; auto.
Qed.

(** A public key forges.  When a capability for verification holds a public
    key, whoever knows that key can sign any message so that the vault declares
    the signature valid: the key is also tried as a signing seed, of which the
    forger uses the same bytes.  The holder of the private key is not needed. *)
Theorem public_key_forges id k seed m w :
  KeyMaterial.material k = ed25519_public seed -> KeyMaterial.algorithm k = KeyAlgorithm.Ed25519 ->
  let forged := ed25519_sign (ed25519_public seed) m in
  ready id (VaultOperation.Verify m forged) k w ->
  post (call id (VaultOperation.Verify m forged))
    (fun y _ => y = UseCapabilityResult.Verified true) (fun e _ => vault_refused e) w.
Proof.
  intros Hk Ha forged Hr. eapply call_ready; [exact Hr|]. intros w1 _. unfold execute_operation.
  rewrite Ha. unfold mbind_, lift. rewrite Hk.
  unfold forged. rewrite ed25519_accepts; [done|apply public_is_32|apply sign_is_64|].
  left. apply ed25519_verify_sign.
Qed.
End Use.
End VaultKeys.
