(* ===== verification/VaultCatalog.v ===== *)
(** * Vault: theorems about identities

    Sessions through every run of the catalog's operations, the index of group
    members, and what hydration answers. *)
From S2P Require Import Prelude Collections PolicyTypes Hydration StateError VaultTypes VaultIdentity VaultOverride.
Import VaultState Identity.

(** ** Requests *)
Module CatalogRequest.
Inductive t : Type :=
| Register (x : Subject.t)
| Start (subject_id : string) (expires_at : DateTime)
| Lookup (session_id : string)
| Suspend (session_id : string)
| Revoke (session_id : string)
| Add (subject_id group_id : string)
| Remove (subject_id group_id : string).
End CatalogRequest.

Module VaultCatalog.
Section Catalog.
Context {L : Type}.
Abbreviation W := (VaultWorld.t L).
Abbreviation M := (M (VaultWorld.t L) VaultError.t).

Definition serve (r : CatalogRequest.t) : M () :=
  match r with
  | CatalogRequest.Register x => register_subject x
  | CatalogRequest.Start sid e => let! _ := start_session sid e in ret ()
  | CatalogRequest.Lookup id => let! _ := lookup_session id in ret ()
  | CatalogRequest.Suspend id => suspend_session id
  | CatalogRequest.Revoke id => revoke_session id
  | CatalogRequest.Add sid g => add_to_group sid g
  | CatalogRequest.Remove sid g => remove_from_group sid g
  end.

Inductive served : W -> W -> Prop :=
| served_none w : served w w
| served_one w r w' : served (serve r w).2 w' -> served w w'.

(** ** Sessions *)

(** How far a session is from being accepted. *)
Definition rank (s : SessionState.t) : nat :=
  match s with
  | SessionState.Active => 0 | SessionState.Suspended => 1 | SessionState.Expired => 2
  | SessionState.Revoked => 3
  end.

(** [y] is [x] some time later. *)
Definition later_session (x y : Session.t) : Prop :=
  Session.session_id y = Session.session_id x /\ Session.subject_id y = Session.subject_id x /\
  Session.started_at y = Session.started_at x /\ Session.expires_at y = Session.expires_at x /\
  rank (Session.state x) <= rank (Session.state y).

#[export] Instance later_session_preorder : PreOrder later_session.
Proof.
  unfold later_session. split; [by intros x; split_and!|]. intros x y z (?&?&?&?&?) (?&?&?&?&?).
  split_and!; try congruence. lia.
Qed.

Lemma later_session_state x s : rank (Session.state x) <= rank s -> later_session x (Session.set_state s x).
Proof. by unfold later_session. Qed.

Lemma transition_later now x : later_session x (transition_expired_session now x).
Proof.
  unfold transition_expired_session. destruct (Session.state x) eqn:E; try done;
    (destruct (_ <? now)%Z; [|done]; apply later_session_state; rewrite E; simpl; lia).
Qed.
Lemma later_active x y : later_session x y -> Session.state y = SessionState.Active ->
  Session.state x = SessionState.Active.
Proof. intros (_&_&_&_&Hr) Hy. rewrite Hy in Hr. destruct (Session.state x); simpl in *; (done || lia). Qed.

(** The table [m'] is [m] some time later, without new sessions. *)
Definition later_table (m m' : gmap string Session.t) : Prop :=
  forall id, option_Forall2 later_session (m !! id) (m' !! id).

#[export] Instance later_table_preorder : PreOrder later_table.
Proof.
  split; [intros m id; by destruct (m !! id); constructor|].
  intros m1 m2 m3 H1 H2 id. etrans; [apply H1|apply H2].
Qed.

Lemma later_table_insert m id x y :
  m !! id = Some x -> later_session x y -> later_table m (<[id := y]> m).
Proof.
  intros Hx Hl i. destruct (decide (i = id)) as [->|].
  - rewrite lookup_insert_eq, Hx. by constructor.
  - rewrite lookup_insert_ne by done. reflexivity.
Qed.
Lemma later_table_expire m sid now : later_table m (expire_past_sessions_for_subject sid now m).
Proof.
  intros i. unfold expire_past_sessions_for_subject. rewrite lookup_fmap.
  destruct (m !! i) as [x|]; [|constructor]. simpl. constructor.
  destruct (String.eqb _ _); [apply transition_later|done].
Qed.

Definition tables (w : W) : gmap string Session.t := sessions (VaultWorld.store w).

(** One request moves the sessions on, and may start a session [x] for a subject
    that then has no other active session. *)
Inductive session_step (w w' : W) : Prop :=
| session_moves : later_table (tables w) (tables w') -> session_step w w'
| session_starts m x :
    later_table (tables w) m ->
    Session.session_id x = "sess_" +:+ VaultWorld.ulids w (VaultWorld.drawn w) ->
    VaultWorld.drawn w < VaultWorld.drawn w' ->
    tables w' = <[Session.session_id x := x]> m ->
    (forall id y, m !! id = Some y -> Session.subject_id y = Session.subject_id x ->
       Session.state y <> SessionState.Active) ->
    session_step w w'.

Lemma expired_or_accepted sid now x :
  Session.subject_id x = sid -> accepts sid now (transition_expired_session now x) = false ->
  Session.state (transition_expired_session now x) <> SessionState.Active.
Proof.
  intros Hs Ha Hst. unfold accepts in Ha. rewrite Hst in Ha.
  assert (Session.subject_id (transition_expired_session now x) = sid) as Hs'.
  { destruct (transition_later now x) as (_ & -> & _). done. }
  rewrite Hs', String.eqb_refl, bool_decide_eq_true_2 in Ha by done. simpl in Ha.
  apply Z.leb_gt in Ha. unfold transition_expired_session in *.
  destruct (Session.state x) eqn:E; simpl in *; try congruence;
    destruct (Z.ltb_spec (Session.expires_at x) now); simpl in *; try congruence; lia.
Qed.

Lemma start_step sid e (w : W) : session_step w (start_session sid e w).2.
Proof.
  unfold start_session, vault_get, mbind_ at 1. destruct (negb _); [by left|].
  unfold vault_now, vault_change, modify, mbind_. cbn -[existsb].
  set (now := VaultWorld.clock w (VaultWorld.reads w)).
  set (m := expire_past_sessions_for_subject sid now (sessions (VaultWorld.store w))).
  destruct (existsb _ _) eqn:Hex; simpl.
  - left. apply later_table_expire.
  - eapply (session_starts _ _ m {| Session.session_id := _ |});
      [apply later_table_expire|reflexivity|simpl; lia|reflexivity|].
    intros id y Hy Hs Hst. unfold m, expire_past_sessions_for_subject in Hy. rewrite lookup_fmap in Hy.
    destruct (sessions (VaultWorld.store w) !! id) as [x|] eqn:Hx; [|done]. injection Hy as Hy.
    simpl in Hs. assert (accepts sid now y = false) as Hn.
    { apply not_true_iff_false. intros Ht. apply not_true_iff_false in Hex. apply Hex.
      apply existsb_exists. exists y. split; [|done]. apply list_elem_of_In, list_elem_of_fmap.
      exists (id, y). split; [done|]. apply elem_of_map_to_list. unfold m, expire_past_sessions_for_subject.
      by rewrite lookup_fmap, Hx, <- Hy. }
    destruct (String.eqb_spec (Session.subject_id x) sid) as [He|Hne].
    + subst y. by eapply expired_or_accepted.
    + subst y. done.
Qed.

Lemma transition_step id now (w : W) x s : tables w !! id = Some x ->
  rank (Session.state (transition_expired_session now x)) <= rank s ->
  later_table (tables w) (<[id := Session.set_state s (transition_expired_session now x)]>
                            (<[id := transition_expired_session now x]> (tables w))).
Proof.
  intros Hx Hr. rewrite insert_insert_eq. apply (later_table_insert _ _ x); [done|].
  etrans; [apply transition_later|by apply later_session_state].
Qed.

(** No other request starts a session. *)
Lemma serve_session_step r (w : W) : session_step w (serve r w).2.
Proof.
  destruct r as [x|sid e|id|id|id|sid g|sid g]; unfold serve.
  - left. unfold register_subject, register_entry, reindex, vault_change, modify, vault_get, mbind_, throw.
    simpl. by case_bool_decide.
  - pose proof (start_step sid e w) as Hs. unfold mbind_. by destruct (start_session sid e w) as [[x|x] w'].
  - left. unfold lookup_session, vault_get, lift, mbind_. simpl.
    destruct (sessions (VaultWorld.store w) !! id) as [x|] eqn:Hx; simpl; [|done].
    by apply (later_table_insert _ _ x), transition_later.
  - left. unfold suspend_session, vault_get, lift, mbind_. simpl.
    destruct (sessions (VaultWorld.store w) !! id) as [x|] eqn:Hx; simpl; [|done].
    case_bool_decide as Ha; simpl.
    + apply transition_step; [done|]. rewrite Ha. simpl. lia.
    + by apply (later_table_insert _ _ x), transition_later.
  - left. unfold revoke_session, vault_get, lift, mbind_. simpl.
    destruct (sessions (VaultWorld.store w) !! id) as [x|] eqn:Hx; simpl; [|done].
    apply (later_table_insert _ _ x); [done|]. apply later_session_state.
    destruct (Session.state x); simpl; lia.
  - left. unfold add_to_group, add_group_entry, lookup_subject, reindex, put_subject, vault_change, modify,
      vault_get, lift, mbind_, throw. simpl.
    destruct (subjects _ !! sid) as [x|]; simpl; [|done]. by destruct (existsb _ _).
  - left. unfold remove_from_group, remove_group_entry, lookup_subject, reindex, put_subject, vault_change,
      modify, vault_get, lift, mbind_, throw. simpl.
    destruct (subjects _ !! sid) as [x|]; simpl; [|done]. by destruct (existsb _ _).
Qed.

(** Identifiers are only drawn. *)
Definition drawn_on (w0 w : W) : Prop :=
  VaultWorld.ulids w = VaultWorld.ulids w0 /\ VaultWorld.drawn w0 <= VaultWorld.drawn w.

Lemma serve_draws r (w : W) : drawn_on w (serve r w).2.
Proof.
  apply preserves_at; [|by split].
  assert (preserves (drawn_on w) vault_now) by (by intros w' Hw').
  assert (forall p, preserves (drawn_on w) (vault_fresh p))
    by (intros p w' [Hu Hd]; split; simpl; [done|lia]).
  assert (forall f, preserves (drawn_on w) (vault_change f)) by (by intros f w' Hw').
  assert (preserves (drawn_on w) vault_get) by (by intros w' Hw').
  destruct r; unfold serve, register_subject, register_entry, reindex, start_session, put_session,
    lookup_session, suspend_session, revoke_session, add_to_group, add_group_entry, lookup_subject,
    put_subject, remove_from_group, remove_group_entry; frame.
Qed.

(** ** The invariant of the sessions *)
Definition sessions_ok (w : W) : Prop :=
  (forall id x, tables w !! id = Some x -> Session.session_id x = id /\
     exists i, i < VaultWorld.drawn w /\ id = "sess_" +:+ VaultWorld.ulids w i) /\
  (forall id id' x y, tables w !! id = Some x -> tables w !! id' = Some y ->
     Session.state x = SessionState.Active -> Session.state y = SessionState.Active ->
     Session.subject_id x = Session.subject_id y -> id = id').

Lemma later_inv m m' id y : later_table m m' -> m' !! id = Some y ->
  exists x, m !! id = Some x /\ later_session x y.
Proof. intros Hl Hy. specialize (Hl id). rewrite Hy in Hl. inversion Hl; subst. by eexists. Qed.
Lemma later_some m m' id x : later_table m m' -> m !! id = Some x ->
  exists y, m' !! id = Some y /\ later_session x y.
Proof. intros Hl Hx. specialize (Hl id). rewrite Hx in Hl. inversion Hl; subst. by eexists. Qed.

Lemma sessions_ok_step (w w' : W) :
  Inj (=) (=) (VaultWorld.ulids w) -> drawn_on w w' -> session_step w w' -> sessions_ok w ->
  sessions_ok w' /\
  forall id x, tables w !! id = Some x -> exists y, tables w' !! id = Some y /\ later_session x y.
Proof.
  intros Hinj [Hu Hd] Hs [Hid Hone]. destruct Hs as [Hl|m x Hl Hx Hlt Ht Hno].
  - split; [|by intros id x Hx; eapply later_some]. split.
    + intros id y (x & Hx & Hxy)%(later_inv _ _ _ _ Hl). destruct (Hid id x Hx) as (He & i & Hi & ->).
      split; [destruct Hxy as (-> & _); done|]. exists i. rewrite Hu. split; [lia|done].
    + intros id id' y y' (x & Hx & Hxy)%(later_inv _ _ _ _ Hl) (x' & Hx' & Hxy')%(later_inv _ _ _ _ Hl) Ha Ha' Hsub.
      eapply Hone; [exact Hx|exact Hx'|by eapply later_active|by eapply later_active|].
      destruct Hxy as (_ & Hs & _), Hxy' as (_ & Hs' & _). congruence.
  - assert (m !! Session.session_id x = None) as Hfresh.
    { destruct (m !! Session.session_id x) as [y|] eqn:Hy; [|done].
      destruct (later_inv _ _ _ _ Hl Hy) as (z & Hz & _). destruct (Hid _ _ Hz) as (_ & i & Hi & He).
      rewrite Hx in He. apply (inj (String.append "sess_")), Hinj in He. lia. }
    split.
    + split.
      * intros id y Hy. rewrite Ht in Hy. apply lookup_insert_Some in Hy as [[<- <-]|[Hn Hy]].
        { split; [done|]. exists (VaultWorld.drawn w). rewrite Hu. split; [lia|done]. }
        destruct (later_inv _ _ _ _ Hl Hy) as (z & Hz & Hzy). destruct (Hid _ _ Hz) as (He & i & Hi & ->).
        split; [destruct Hzy as (-> & _); done|]. exists i. rewrite Hu. split; [lia|done].
      * intros id id' y y'. rewrite Ht. intros [[<- <-]|[Hn Hy]]%lookup_insert_Some
          [[<- <-]|[Hn' Hy']]%lookup_insert_Some Ha Ha' Hsub; [done|..].
        { exfalso. by eapply (Hno id' y'). }
        { exfalso. by eapply (Hno id y). }
        destruct (later_inv _ _ _ _ Hl Hy) as (z & Hz & Hzy), (later_inv _ _ _ _ Hl Hy') as (z' & Hz' & Hzy').
        eapply Hone; [exact Hz|exact Hz'|by eapply later_active|by eapply later_active|].
        destruct Hzy as (_ & Hs & _), Hzy' as (_ & Hs' & _). congruence.
    + intros id y Hy. destruct (later_some _ _ _ _ Hl Hy) as (z & Hz & Hyz). exists z. split; [|done].
      rewrite Ht, lookup_insert_ne; [done|]. congruence.
Qed.

Lemma served_sessions (w w' : W) :
  served w w' -> Inj (=) (=) (VaultWorld.ulids w) -> sessions_ok w ->
  sessions_ok w' /\ Inj (=) (=) (VaultWorld.ulids w') /\
  forall id x, tables w !! id = Some x -> exists y, tables w' !! id = Some y /\ later_session x y.
Proof.
  induction 1 as [w|w r w' Hs IH]; intros Hi Hok; [by split_and!; [..|intros id x Hx; exists x]|].
  pose proof (serve_draws r w) as Hd.
  destruct (sessions_ok_step w (serve r w).2 Hi Hd (serve_session_step r w) Hok) as [Hok1 Hl1].
  destruct IH as (Hok2 & Hi2 & Hl2); [by rewrite (proj1 Hd)|done|]. split_and!; [done..|].
  intros id x Hx. destruct (Hl1 id x Hx) as (y & Hy & Hxy). destruct (Hl2 id y Hy) as (z & Hz & Hyz).
  exists z. split; [done|]. by etrans.
Qed.

(** A catalog without sessions, whose ULIDs are distinct. *)
Definition no_sessions (w : W) : Prop := Inj (=) (=) (VaultWorld.ulids w) /\ tables w = ∅.

(** Sessions are exclusive and never revive.  In every run of the catalog's
    operations a subject has at most one active session, whatever the clock
    does; and a session keeps its subject, its start and its expiry while its
    state only moves from active over suspended and expired to revoked: what
    was suspended, has expired or was revoked is never active again. *)
Theorem sessions_exact w0 w w' : no_sessions w0 -> served w0 w -> served w w' ->
  (forall id id' x y, tables w' !! id = Some x -> tables w' !! id' = Some y ->
     Session.state x = SessionState.Active -> Session.state y = SessionState.Active ->
     Session.subject_id x = Session.subject_id y -> id = id') /\
  (forall id x, tables w !! id = Some x -> exists y, tables w' !! id = Some y /\ later_session x y).
Proof.
  intros [Hi He] H0 H1. destruct (served_sessions _ _ H0 Hi) as (Hok & Hi' & _).
  { split; intros id; rewrite He; intros; by rewrite lookup_empty in *. }
  destruct (served_sessions _ _ H1 Hi' Hok) as ([_ Hone] & _ & Hl). by split.
Qed.
End Catalog.
End VaultCatalog.

(** * Vault: theorems about groups and hydration

    The index of group members agrees with the subjects when operations do not
    interfere ([membership_exact]), and what happens when two do
    ([removed_member_keeps_group]); what the policy kernel's hydrator answers
    ([hydration_exact]). *)
Import VaultState Identity.

Module VaultMembers.

(** ** The index *)
Definition members (m : gmap string (list string)) (g : string) : list string := default [] (m !! g).

Lemma elem_of_push x y l : x ∈ push_member y l <-> x ∈ l \/ x = y.
Proof.
  unfold push_member. destruct (existsb (String.eqb y) l) eqn:E.
  - apply existsb_exists in E as (z & Hz%list_elem_of_In & ->%String.eqb_eq). split; [auto|].
    by intros [?| ->].
  - by rewrite elem_of_app, list_elem_of_singleton.
Qed.

Lemma members_index x sid g h m :
  x ∈ members (index_membership sid h m) g <-> x ∈ members m g \/ (x = sid /\ g = h).
Proof.
  unfold members, index_membership. destruct (decide (g = h)) as [->|Hn].
  - rewrite lookup_insert_eq. simpl. rewrite elem_of_push. naive_solver.
  - rewrite lookup_insert_ne by done. naive_solver.
Qed.

Lemma members_indexed x sid g gs m :
  x ∈ members (index_memberships sid gs m) g <-> x ∈ members m g \/ (x = sid /\ g ∈ gs).
Proof.
  revert m. induction gs as [|h gs IH]; intros m; simpl.
  - split; [auto|]. intros [|[_ ?%not_elem_of_nil]]; done.
  - rewrite IH, members_index, elem_of_cons. naive_solver.
Qed.

Lemma members_unindex x sid g h m :
  x ∈ members (unindex_membership sid h m) g <-> x ∈ members m g /\ ~ (x = sid /\ g = h).
Proof.
  unfold members, unindex_membership. destruct (decide (g = h)) as [->|Hn].
  - rewrite lookup_alter_eq. destruct (m !! h) as [l|]; simpl.
    + rewrite list_elem_of_filter. naive_solver.
    + split; [by intros ?%not_elem_of_nil|by intros [?%not_elem_of_nil _]].
  - rewrite lookup_alter_ne by done. naive_solver.
Qed.

Lemma elem_of_remove_first x y l : NoDup l -> x ∈ remove_first y l <-> x ∈ l /\ x <> y.
Proof.
  induction 1 as [|z l Hz Hl IH]; simpl; [split; [by intros ?%not_elem_of_nil|by intros [?%not_elem_of_nil _]]|].
  destruct (String.eqb_spec z y) as [->|Hn]; rewrite ?elem_of_cons, ?IH; naive_solver.
Qed.
Lemma remove_first_nodup y l : NoDup l -> NoDup (remove_first y l).
Proof.
  induction 1 as [|z l Hz Hl IH]; simpl; [constructor|]. destruct (String.eqb z y); [done|].
  constructor; [|done]. by rewrite elem_of_remove_first; [intros [? _]|].
Qed.

(** The index agrees with the subjects, and no subject lists a group twice. *)
Record members_ok (s : VaultState.t) : Prop := {
  members_named sid x : subjects s !! sid = Some x ->
    Subject.canonical_subject_id x = sid /\ NoDup (Subject.groups x);
  members_agree sid g :
    sid ∈ members (group_membership s) g <->
    exists x, subjects s !! sid = Some x /\ g ∈ Subject.groups x;
}.

Lemma members_ok_empty s : subjects s = ∅ -> group_membership s = ∅ -> members_ok s.
Proof.
  intros Hs Hg. split; rewrite Hs; [intros sid x; by rewrite lookup_empty|].
  intros sid g. rewrite Hg. unfold members. rewrite lookup_empty. setoid_rewrite lookup_empty.
  split; [by intros ?%not_elem_of_nil|by intros (? & ? & _)].
Qed.

(** Replacing the subject [sid] and the index together. *)
Lemma members_ok_change s s' sid y :
  members_ok s -> subjects s' = <[sid := y]> (subjects s) ->
  Subject.canonical_subject_id y = sid -> NoDup (Subject.groups y) ->
  (forall x g, x ∈ members (group_membership s') g <->
     if decide (x = sid) then g ∈ Subject.groups y else x ∈ members (group_membership s) g) ->
  members_ok s'.
Proof.
  intros [Hn Ha] Hs Hid Hnd Hm. split.
  - intros i x. rewrite Hs. intros [[<- <-]|[_ Hx]]%lookup_insert_Some; [done|by apply Hn].
  - intros i g. rewrite Hm, Hs. destruct (decide (i = sid)) as [->|Hne].
    + setoid_rewrite lookup_insert_eq. naive_solver.
    + rewrite Ha. setoid_rewrite lookup_insert_ne; [done|congruence].
Qed.

(** The groups by the index, sorted, are the subject's own. *)
Lemma groups_of_exact s sid x :
  members_ok s -> subjects s !! sid = Some x -> groups_of s sid = sort_strings (Subject.groups x).
Proof.
  intros [Hn Ha] Hx. unfold groups_of. apply sort_strings_ext, NoDup_Permutation.
  - eapply sublist_NoDup; [apply (NoDup_fst_map_to_list (group_membership s))|apply fmap_sublist, sublist_filter].
  - by eapply Hn.
  - intros g. rewrite list_elem_of_fmap. setoid_rewrite list_elem_of_filter. split.
    + intros ([h l] & -> & Hl & Hh%elem_of_map_to_list). simpl in *.
      destruct (proj1 (Ha sid h)) as (y & Hy & Hg); [unfold members; by rewrite Hh|].
      congruence.
    + intros Hg. assert (sid ∈ members (group_membership s) g) as Hin by (apply Ha; by exists x).
      unfold members in Hin. destruct (group_membership s !! g) as [l|] eqn:Hl; simpl in Hin;
        [|by apply not_elem_of_nil in Hin].
      exists (g, l). split_and!; [done..|]. by apply elem_of_map_to_list.
Qed.

(** ** Runs of tidy requests *)
Section Members.
Context {L : Type}.
Abbreviation W := (VaultWorld.t L).
Abbreviation M := (M (VaultWorld.t L) VaultError.t).
Abbreviation ok w := (members_ok (VaultWorld.store w)).

(** A subject that is registered does not list a group twice. *)
Definition tidy (r : CatalogRequest.t) : Prop :=
  match r with CatalogRequest.Register x => NoDup (Subject.groups x) | _ => True end.

Inductive served : W -> W -> Prop :=
| served_none w : served w w
| served_one w r w' : tidy r -> served (VaultCatalog.serve r w).2 w' -> served w w'.

Lemma register_members x (w : W) : NoDup (Subject.groups x) -> ok w -> ok (register_subject x w).2.
Proof.
  intros Hnd Hok. unfold register_subject, register_entry, reindex, vault_change, modify, vault_get,
    mbind_, throw. simpl. case_bool_decide as Hx; [done|]. simpl.
  eapply (members_ok_change _ _ (Subject.canonical_subject_id x) x Hok); [done..|]. simpl.
  intros i g. rewrite members_indexed. destruct (decide (i = _)) as [->|Hn]; [|naive_solver].
  split; [|auto]. intros [Hi|[_ Hg]]; [|done]. exfalso. apply (members_agree _ Hok) in Hi as (y & Hy & _).
  apply Hx. by eexists.
Qed.

Lemma add_members sid g (w : W) : ok w -> ok (add_to_group sid g w).2.
Proof.
  intros Hok. unfold add_to_group, add_group_entry, lookup_subject, put_subject, reindex, vault_change,
    modify, vault_get, lift, mbind_, throw. simpl.
  destruct (subjects (VaultWorld.store w) !! sid) as [x|] eqn:Hx; simpl; [|done].
  destruct (members_named _ Hok _ _ Hx) as [Hid Hnd].
  destruct (existsb (String.eqb g) (Subject.groups x)) eqn:Hg; [done|]. simpl.
  assert (g ∉ Subject.groups x) as Hng.
  { intros Hi. apply not_true_iff_false in Hg. apply Hg, existsb_exists. exists g.
    split; [by apply list_elem_of_In|apply String.eqb_refl]. }
  eapply (members_ok_change _ _ sid _ Hok); [done|done| |]; simpl.
  - apply NoDup_app. split_and!; [done| |apply NoDup_singleton]. intros h Hh ->%list_elem_of_singleton. done.
  - intros i h. rewrite members_index. destruct (decide (i = sid)) as [->|]; [|naive_solver].
    rewrite elem_of_app, list_elem_of_singleton, (members_agree _ Hok). split; [|naive_solver].
    intros [(y & Hy & Hh)|[_ ->]]; [|auto]. left. congruence.
Qed.

Lemma remove_members sid g (w : W) : ok w -> ok (remove_from_group sid g w).2.
Proof.
  intros Hok. unfold remove_from_group, remove_group_entry, lookup_subject, put_subject, reindex,
    vault_change, modify, vault_get, lift, mbind_, throw. simpl.
  destruct (subjects (VaultWorld.store w) !! sid) as [x|] eqn:Hx; simpl; [|done].
  destruct (members_named _ Hok _ _ Hx) as [Hid Hnd].
  destruct (existsb (String.eqb g) (Subject.groups x)) eqn:Hg; [|done]. simpl.
  eapply (members_ok_change _ _ sid _ Hok); [done|done|by apply remove_first_nodup|]. simpl.
  intros i h. rewrite members_unindex. destruct (decide (i = sid)) as [->|]; [|naive_solver].
  rewrite elem_of_remove_first, (members_agree _ Hok) by done. split; [|naive_solver].
  intros [(y & Hy & Hh) Hn]. split; [congruence|naive_solver].
Qed.

Lemma serve_members r (w : W) : tidy r -> ok w -> ok (VaultCatalog.serve r w).2.
Proof.
  destruct r as [x|sid e|id|id|id|sid g|sid g]; intros Ht Hok; unfold VaultCatalog.serve;
    [by apply register_members|..|by apply add_members|by apply remove_members].
  all: apply preserves_at; [|exact Hok].
  all: assert (preserves (fun w => ok w) (vault_now (L := L))) by (by intros w' Hw').
  all: assert (forall f : gmap string Session.t -> gmap string Session.t, preserves (fun w : W => ok w)
    (vault_change (fun s => set_sessions (f (sessions s)) s))) by (by intros f w' [? ?]).
  all: unfold start_session, lookup_session, suspend_session, revoke_session, put_session, vault_fresh; frame.
Qed.

Lemma served_members (w w' : W) : served w w' -> ok w -> ok w'.
Proof. induction 1 as [|w r w' Ht Hs IH]; [done|]. intros Hok. by apply IH, serve_members. Qed.

(** The index of members is exact.  In every run of the catalog's operations
    from an empty catalog, in which subjects are registered without repeating a
    group, the index lists exactly the groups that the subjects list: the groups
    with which a subject is hydrated are its own, in order. *)
Theorem membership_exact (w w' : W) sid x :
  subjects (VaultWorld.store w) = ∅ -> group_membership (VaultWorld.store w) = ∅ -> served w w' ->
  subjects (VaultWorld.store w') !! sid = Some x ->
  Subject.canonical_subject_id x = sid /\
  groups_of (VaultWorld.store w') sid = sort_strings (Subject.groups x) /\
  forall g, sid ∈ members (group_membership (VaultWorld.store w')) g <-> g ∈ Subject.groups x.
Proof.
  intros Hs Hg Hr Hx. pose proof (served_members _ _ Hr (members_ok_empty _ Hs Hg)) as Hok.
  split; [by eapply members_named|]. split; [by apply groups_of_exact|]. intros g.
  rewrite (members_agree _ Hok). split; [intros (y & Hy & Hh); congruence|by exists x].
Qed.

(** ** Interference *)

(** [add_to_group] and [remove_from_group] of two tasks: the addition has
    changed the subject when the removal runs, and changes the index after it. *)
Definition raced (sid g : string) : M () :=
  let! _ := add_group_entry sid g in
  let! _ := remove_from_group sid g in
  reindex (index_membership sid g).

Lemma existsb_groups g l : existsb (String.eqb g) l = true <-> g ∈ l.
Proof.
  rewrite existsb_exists. setoid_rewrite String.eqb_eq. split.
  - by intros (x & Hx%list_elem_of_In & ->).
  - intros Hg. exists g. split; [by apply list_elem_of_In|done].
Qed.

(** A removed member keeps its group.  When an addition and a removal of the
    same member interleave between the two locks they take, both succeed, the
    subject does not list the group any more, and yet it is hydrated with it
    from then on; and removing it once more is refused as no change. *)
Theorem removed_member_keeps_group (w : W) sid g x :
  subjects (VaultWorld.store w) !! sid = Some x -> g ∉ Subject.groups x -> NoDup (Subject.groups x) ->
  let w' := (raced sid g w).2 in
  (raced sid g w).1 = Ok () /\
  (exists y, subjects (VaultWorld.store w') !! sid = Some y /\ g ∉ Subject.groups y) /\
  (exists gs, (groups_for_subject sid w').1 = Ok gs /\ g ∈ gs) /\
  remove_from_group sid g w' = (Err VaultError.GroupMembershipUnchanged, w').
Proof.
  intros Hx Hg Hnd w'.
  assert (existsb (String.eqb g) (Subject.groups x) = false) as He
    by (apply not_true_iff_false; by rewrite existsb_groups).
  set (y := Subject.set_groups (remove_first g (Subject.groups x ++ [g])) (Subject.set_groups
              (Subject.groups x ++ [g]) x)).
  assert (NoDup (Subject.groups x ++ [g])) as Hnd'.
  { apply NoDup_app. split_and!; [done| |apply NoDup_singleton]. by intros h Hh ->%list_elem_of_singleton. }
  assert (g ∉ Subject.groups y) as Hy by (simpl; rewrite elem_of_remove_first; naive_solver).
  assert (existsb (String.eqb g) (Subject.groups x ++ [g]) = true) as Ha.
  { apply existsb_groups, elem_of_app. right. by apply list_elem_of_singleton. }
  assert (exists s, raced sid g w = (Ok (), with_store (fun _ => s) w) /\
    subjects s !! sid = Some y /\ sid ∈ members (group_membership s) g) as (s & Hr & Hsy & Hm).
  { unfold raced, add_group_entry, remove_from_group, remove_group_entry, lookup_subject, put_subject,
      reindex, vault_change, modify, vault_get, lift, mbind_, throw. simpl. rewrite Hx. simpl.
    rewrite He. simpl. rewrite lookup_insert_eq. simpl. rewrite Ha. simpl. eexists. split; [done|].
    simpl. rewrite lookup_insert_eq. split; [done|]. rewrite members_index. by right. }
  unfold w'. rewrite Hr. simpl. split; [done|]. split; [by exists y|]. split.
  - eexists. split; [done|]. unfold groups_of. rewrite elem_of_sort_strings, list_elem_of_fmap.
    unfold members in Hm. destruct (group_membership s !! g) as [l|] eqn:Hl; simpl in Hm;
      [|by apply not_elem_of_nil in Hm].
    exists (g, l). split; [done|]. apply list_elem_of_filter. split; [done|]. by apply elem_of_map_to_list.
  - unfold remove_from_group, remove_group_entry, lookup_subject, vault_get, lift, mbind_, throw. simpl.
    rewrite Hsy. simpl. assert (existsb (String.eqb g) (remove_first g (Subject.groups x ++ [g])) = false) as ->; [|done].
    apply not_true_iff_false. by rewrite existsb_groups.
Qed.
End Members.

(** ** Hydration *)

(** What the kernel sees of the subject [y]. *)
Definition hydrated_as (s : VaultState.t) (y : Subject.t) (h : HydratedSubject) : Prop :=
  PolicyTypes.canonical_subject_id h = Subject.canonical_subject_id y /\
  PolicyTypes.subject_type h = policy_subject_type (Subject.subject_type y) /\
  PolicyTypes.groups h = groups_of s (Subject.canonical_subject_id y) /\
  PolicyTypes.capabilities h = [] /\
  PolicyTypes.session_class h = session_class_for_subject_type (Subject.subject_type y) /\
  PolicyTypes.recovery_mode h = recovery_mode_for_subject_type (Subject.subject_type y) /\
  PolicyTypes.is_ai h = Subject.is_ai y.

(** The subject that the provisional identifier [p] stands for at [now]. *)
Definition resolves (s : VaultState.t) (now : DateTime) (p : string) (y : Subject.t) : Prop :=
  match sessions s !! p with
  | Some x => Session.state x = SessionState.Active /\ (now <= Session.expires_at x)%Z /\
      subjects s !! Session.subject_id x = Some y
  | None => subjects s !! p = Some y
  end.

Lemma transition_active now x :
  Session.state (transition_expired_session now x) = SessionState.Active <->
  Session.state x = SessionState.Active /\ (now <= Session.expires_at x)%Z.
Proof.
  unfold transition_expired_session. destruct (Session.state x) eqn:E;
    destruct (Z.ltb_spec (Session.expires_at x) now); simpl; rewrite ?E; split; try naive_solver lia.
Qed.

Lemma not_found_is_not_found p : should_try_canonical_lookup (session_not_found p) = true.
Proof. done. Qed.
Lemma not_active_is_final p : should_try_canonical_lookup (session_not_active p) = false.
Proof. done. Qed.

Lemma hydrate_subject {L} (y : Subject.t) (w : VaultWorld.t L) :
  exists x, snapshot_for_subject y w = (Ok x, w) /\ hydrated_as (VaultWorld.store w) y (to_policy x).
Proof. by eexists. Qed.

Lemma hydrate_post s now p :
  match hydrate s now p with
  | Ok h => exists y, resolves s now p y /\ hydrated_as s y h
  | Err e => e = SubjectUnauthenticated /\ forall y, ~ resolves s now p y
  end.
Proof.
  simpl. unfold vault_hydrate, hydrate_by_session, lookup_session, resolves, mbind_ at 1.
  unfold vault_get, lift, mbind_. simpl. destruct (sessions s !! p) as [x|] eqn:Hx; simpl.
  - set (x' := transition_expired_session now x).
    pose proof (transition_active now x) as Ht. fold x' in Ht.
    destruct (VaultCatalog.transition_later now x) as (_ & Hid & _). fold x' in Hid.
    destruct (Session.state x') eqn:Hs; simpl;
      try (split; [done|]; intros y (Ha & He & _); pose proof (proj2 Ht (conj Ha He)); discriminate).
    destruct (proj1 Ht eq_refl) as [Ha He]. unfold lookup_subject, vault_get, lift, mbind_. simpl.
    rewrite Hid. destruct (subjects s !! Session.subject_id x) as [y|] eqn:Hy; simpl.
    + exists y. done.
    + split; [done|]. by intros y (_ & _ & Hy').
  - unfold hydrate_by_canonical_id, lookup_subject, vault_get, lift, mbind_. simpl.
    destruct (subjects s !! p) as [y|] eqn:Hy; simpl; [by exists y|]. split; [done|]. by intros y.
Qed.

(** Hydration is exact.  The vault's hydrator answers exactly when the
    provisional identifier is a session that is active and has not expired, of a
    registered subject, or is no session at all but the canonical identifier of
    a registered subject; the answer is that subject, with its own AI flag and
    its indexed groups. In all other cases the subject is unauthenticated. *)
Theorem hydration_exact s now p :
  match hydrate s now p with
  | Ok h => exists y, resolves s now p y /\ hydrated_as s y h
  | Err e => e = SubjectUnauthenticated /\ forall y, ~ resolves s now p y
  end.
Proof. apply hydrate_post. Qed.
End VaultMembers.
