(* ===== verification/VaultGrants.v ===== *)
(** * Vault: theorems about overrides

    Who can grant an override, that one is consumed at most once, and which one
    the policy's boundary finds. *)
From stdpp Require Import sorting.
From S2P Require Import Prelude Json Action PolicyTypes HardDeny Override Cache Hydration Bundle Pipeline Kernel Records Redaction Receipt ChainSound StateError Lifecycle DispatchQueue Adapters Approvals Rollback Emit RtPipeline RtSound Runtime VaultTypes VaultIdentity VaultOverride VaultCatalog.
Import VaultState Identity.

Module OverrideRequest.
Inductive t : Type :=
| Grant (r : GrantOverrideRequest.t)
| Consume (id consumer : string)
| Revoke (id revoker : string)
| Lookup (id : string)
| List
| ListFor (subject : string).
End OverrideRequest.

Module VaultGrants.
Section Grants.
Context {L : Type} `{VaultEvidenceLog L} `{!VaultTexts}.
Variable em : option VaultEvidenceEmitter.
Abbreviation W := (VaultWorld.t L).
Abbreviation M := (M (VaultWorld.t L) VaultError.t).

(** ** Granting *)

(** Every granter is a registered subject; these are they. *)
Definition granters (s : VaultState.t) (granted_by : list string) (xs : list Subject.t) : Prop :=
  Forall2 (fun g x => subjects s !! g = Some x) granted_by xs.

Lemma lookup_granting_post gs (w : W) :
  post (lookup_granting_subjects gs)
    (fun xs w' => w' = w /\ granters (VaultWorld.store w) gs xs)
    (fun e w' => w' = w /\ exists g, g ∈ gs /\ subjects (VaultWorld.store w) !! g = None /\
       e = VaultError.SubjectNotFound g) w.
Proof.
  induction gs as [|g gs IH]; [by repeat constructor|]. simpl.
  eapply (post_seq _ _ (fun x w' => w' = w /\ subjects (VaultWorld.store w) !! g = Some x)
    (fun e w' => w' = w /\ subjects (VaultWorld.store w) !! g = None /\ e = VaultError.SubjectNotFound g)).
  - unfold lookup_subject, vault_get, lift, mbind_, post.
    destruct (subjects (VaultWorld.store w) !! g) as [x|]; by simpl.
  - intros e w' (-> & Hn & ->). split; [done|]. exists g. split; [by left|done].
  - intros x w' [-> Hx]. eapply post_seq; [exact IH| |].
    + intros e w' (-> & h & Hh & Hn & ->). split; [done|]. exists h. split; [by right|done].
    + intros xs w' [-> Hxs]. split; [done|]. by constructor.
Qed.

(** What a grant asks of its granters. *)
Definition quorum (c : OverrideClass.t) (s : VaultState.t) (gs : list string) : Prop :=
  Z.of_nat (length gs) = expected_approver_count c /\
  Forall (fun g => exists x, subjects s !! g = Some x /\ Subject.subject_type x = SubjectType.Human) gs.

Lemma count_exact c n :
  (count_to_u32 n =? expected_approver_count c)%Z = true <-> Z.of_nat n = expected_approver_count c.
Proof.
  rewrite Z.eqb_eq. unfold count_to_u32, expected_approver_count, u32_max. destruct c; lia.
Qed.

Lemma humans_only xs :
  filter (fun x => Subject.subject_type x <> SubjectType.Human) xs = [] <->
  Forall (fun x => Subject.subject_type x = SubjectType.Human) xs.
Proof.
  induction xs as [|x xs IH]; [done|]. rewrite filter_cons, Forall_cons.
  destruct (decide (Subject.subject_type x <> SubjectType.Human)) as [Hn|Hn]; [naive_solver|].
  rewrite <- IH. split; [|tauto]. intros ?. split; [|done].
  by destruct (decide (Subject.subject_type x = SubjectType.Human)).
Qed.

Lemma granters_human s gs xs : granters s gs xs ->
  Forall (fun x => Subject.subject_type x = SubjectType.Human) xs <->
  Forall (fun g => exists x, subjects s !! g = Some x /\ Subject.subject_type x = SubjectType.Human) gs.
Proof.
  induction 1 as [|g x gs xs Hg Hgs IH]; [by split; constructor|]. rewrite !Forall_cons, IH.
  split; [intros [? ?]; split; [by exists x|done]|]. intros [(y & Hy & Ht) ?]. split; [congruence|done].
Qed.

Lemma human_not_ai xs : Forall (fun x => Subject.subject_type x = SubjectType.Human) xs ->
  List.find is_agent_or_application xs = None.
Proof.
  induction 1 as [|x xs Hx _ IH]; [done|]. simpl. unfold is_agent_or_application at 1. by rewrite Hx.
Qed.

(** The binding a grant leaves under the identifier [id]. *)
Definition granted_binding (r : GrantOverrideRequest.t) (id : string) (now : DateTime)
    : OverrideBinding.t :=
  {| OverrideBinding.binding_id := id; OverrideBinding.class := GrantOverrideRequest.class r;
     OverrideBinding.granted_by := GrantOverrideRequest.granted_by r;
     OverrideBinding.granted_at := now; OverrideBinding.expires_at := GrantOverrideRequest.expires_at r;
     OverrideBinding.target_action_id := GrantOverrideRequest.target_action_id r;
     OverrideBinding.state := OverrideBindingState.Granted |}.

(** The vault after a grant: one new binding. *)
Definition granted_vault (r : GrantOverrideRequest.t) (w : W) (b : OverrideBinding.t) (w' : W) : Prop :=
  let id := "ovr_" +:+ VaultWorld.ulids w (VaultWorld.drawn w) in
  b = granted_binding r id (VaultWorld.clock w (VaultWorld.reads w)) /\
  VaultWorld.store w' = set_overrides (<[id := b]> (overrides (VaultWorld.store w))) (VaultWorld.store w) /\
  VaultWorld.ulids w' = VaultWorld.ulids w /\ VaultWorld.drawn w' = S (VaultWorld.drawn w).

(** The checks, one after the other. *)
Lemma grant_checks c gs (w : W) xs :
  granters (VaultWorld.store w) gs xs -> Z.of_nat (length gs) = expected_approver_count c ->
  (let? _ := reject_ai_granting_subjects xs in validate_human_approvers c xs) = Ok () <->
  quorum c (VaultWorld.store w) gs.
Proof.
  intros Hg Hl. unfold quorum. rewrite <- (granters_human _ _ _ Hg), <- humans_only.
  unfold reject_ai_granting_subjects, validate_human_approvers. split.
  - destruct (List.find _ xs); [done|]. simpl.
    destruct (filter _ xs) as [|y ys]; [done|]. by simpl.
  - intros [_ Hf]. rewrite human_not_ai by (by apply humans_only). simpl. by rewrite Hf.
Qed.

Lemma issue_grant_post r (w : W) :
  post (let! now := vault_now in
        let! id := vault_fresh "ovr_" in
        let binding := granted_binding r id now in
        let! _ := put_override id binding in
        let! _ := when_attached em (fun em => emit_override_granted em binding None) in
        ret binding)
    (fun b w' => granted_vault r w b w')
    (fun e w' => vault_refused e /\ exists b, granted_vault r w b w') w.
Proof.
  eapply (post_bind _ _ (fun now w' => now = VaultWorld.clock w (VaultWorld.reads w) /\ undisturbed w w')).
  { apply post_vault_now. intros w' Hw'. by split. }
  intros now w1 (-> & Hs & Hc & Hu & Hd & He & Ht).
  eapply (post_bind _ _ (fun id w' => id = "ovr_" +:+ VaultWorld.ulids w (VaultWorld.drawn w) /\
    VaultWorld.store w' = VaultWorld.store w /\ VaultWorld.ulids w' = VaultWorld.ulids w /\
    VaultWorld.drawn w' = S (VaultWorld.drawn w))).
  { unfold post, vault_fresh. simpl. rewrite Hu, Hd. by split_and!. }
  intros id w2 (-> & Hs2 & Hu2 & Hd2). cbv zeta.
  eapply (post_bind _ _ (fun _ w' => granted_vault r w _ w')).
  { unfold post, put_override, vault_change, modify. simpl. unfold granted_vault. simpl. rewrite Hs2.
    split_and!; [reflexivity|done..]. }
  intros [] w3 (Hb & Hs3 & Hu3 & Hd3).
  assert (forall w', undisturbed w3 w' -> granted_vault r w (granted_binding r
    ("ovr_" +:+ VaultWorld.ulids w (VaultWorld.drawn w)) (VaultWorld.clock w (VaultWorld.reads w))) w') as Hg.
  { intros w' (Es & _ & Eu & Ed & _). unfold granted_vault. split_and!; try done; congruence. }
  eapply (post_bind _ _ (fun _ w' => undisturbed w3 w')).
  - apply post_discreet; [eauto with discreet|done|]. intros e w' He' Hw'. split; [done|]. eexists. by apply Hg.
  - intros [] w' Hw'. by apply Hg.
Qed.

Lemma grant_override_post r (w : W) :
  let c := GrantOverrideRequest.class r in let gs := GrantOverrideRequest.granted_by r in
  post (grant_override em r)
    (fun b w' => quorum c (VaultWorld.store w) gs /\ granted_vault r w b w')
    (fun e w' => (vault_refused e /\ quorum c (VaultWorld.store w) gs /\ exists b, granted_vault r w b w') \/
       (~ quorum c (VaultWorld.store w) gs /\ w' = w)) w.
Proof.
  intros c gs. unfold grant_override. cbv zeta. fold c gs.
  destruct (decide (Z.of_nat (length gs) = expected_approver_count c)) as [Hl|Hn].
  2: { unfold validate_approver_count. destruct (count_to_u32 _ =? _)%Z eqn:Ec.
       { by apply count_exact in Ec. } right. split; [by intros [? _]|done]. }
  unfold validate_approver_count. rewrite (proj2 (count_exact c (length gs)) Hl).
  eapply (post_bind _ _ (fun _ w' => w' = w)); [done|]. intros _ ? ->.
  eapply post_seq; [apply lookup_granting_post| |].
  { intros e w' (-> & g & Hg & Hn & ->). right. split; [|done]. intros [_ Hq].
    rewrite Forall_forall in Hq. destruct (Hq g Hg) as (x & Hx & _). congruence. }
  intros xs w' [-> Hg]. pose proof (grant_checks c gs w xs Hg Hl) as Hq.
  destruct (reject_ai_granting_subjects xs) as [[]|e] eqn:Hr; simpl in Hq.
  2: { right. split; [|done]. by intros ?%Hq. }
  eapply (post_bind _ _ (fun _ w' => w' = w)); [done|]. intros _ ? ->.
  destruct (validate_human_approvers c xs) as [[]|e] eqn:Hh.
  2: { right. split; [|done]. by intros ?%Hq. }
  eapply (post_bind _ _ (fun _ w' => w' = w)); [done|]. intros _ ? ->.
  eapply post_mono; [apply (issue_grant_post r w)|..].
  - intros b w' Hb. split; [by apply Hq|done].
  - intros e w' [He Hb]. left. split_and!; [done|by apply Hq|done].
Qed.

(** Overrides are granted by a quorum of humans.  A grant succeeds exactly when
    as many granters are named as its class asks for and each of them is
    registered as a human; it then adds one binding, granted by them, that lives
    until the requested time.  A refused evidence record is reported for a
    binding that stands; any other failure changes nothing. *)
Theorem grant_override_exact r (w : W) :
  let c := GrantOverrideRequest.class r in let gs := GrantOverrideRequest.granted_by r in
  post (grant_override em r)
    (fun b w' => quorum c (VaultWorld.store w) gs /\ granted_vault r w b w')
    (fun e w' => (vault_refused e /\ quorum c (VaultWorld.store w) gs /\ exists b, granted_vault r w b w') \/
       (~ quorum c (VaultWorld.store w) gs /\ w' = w)) w.
Proof. apply grant_override_post. Qed.

(** One human makes a quorum.  The granters are counted, not told apart: a single
    registered human, named twice or three times, is granted an override of the
    class that asks for two or three. *)
Theorem one_human_makes_a_quorum (w : W) h x r :
  subjects (VaultWorld.store w) !! h = Some x -> Subject.subject_type x = SubjectType.Human ->
  GrantOverrideRequest.granted_by r =
    replicate (Z.to_nat (expected_approver_count (GrantOverrideRequest.class r))) h ->
  post (grant_override em r) (fun b w' => granted_vault r w b w')
    (fun e w' => vault_refused e /\ exists b, granted_vault r w b w') w.
Proof.
  intros Hh Hx Hg. assert (quorum (GrantOverrideRequest.class r) (VaultWorld.store w)
    (GrantOverrideRequest.granted_by r)) as Hq.
  { rewrite Hg. split; [rewrite length_replicate; by destruct (GrantOverrideRequest.class r)|].
    apply Forall_replicate. by exists x. }
  pose proof (grant_override_post r w) as Hp. eapply post_mono; [exact Hp|naive_solver|].
  intros e w' [(He & _ & Hb)|[Hn _]]; [done|]. by destruct Hn.
Qed.

(** ** Consuming *)

(** Requests, labelled with the override that was consumed, if any. *)
Definition serve (r : OverrideRequest.t) : M (option string) :=
  match r with
  | OverrideRequest.Grant r => let! _ := grant_override em r in ret None
  | OverrideRequest.Consume id consumer =>
      let! b := consume_override em id consumer in ret (Some (OverrideBinding.binding_id b))
  | OverrideRequest.Revoke id revoker => let! _ := revoke_override em id revoker in ret None
  | OverrideRequest.Lookup id => let! _ := lookup_override id in ret None
  | OverrideRequest.List => let! _ := list_overrides in ret None
  | OverrideRequest.ListFor subject => let! _ := list_overrides_for_subject subject in ret None
  end.

Definition label (x : result VaultError.t (option string)) : list string :=
  match x with Ok (Some id) => [id] | _ => [] end.

Inductive served : W -> list string -> W -> Prop :=
| served_none w : served w [] w
| served_one w r ids w' : served (serve r w).2 ids w' -> served w (label (serve r w).1 ++ ids) w'.

(** How far a binding is from being consumable. *)
Definition is_granted (b : OverrideBinding.t) : bool :=
  bool_decide (OverrideBinding.state b = OverrideBindingState.Granted).

(** [b'] is [b] later: nothing but the state has changed, and that only away
    from granted. *)
Definition later_binding (b b' : OverrideBinding.t) : Prop :=
  b' = OverrideBinding.set_state (OverrideBinding.state b') b /\
  (is_granted b' = true -> is_granted b = true).

Lemma later_binding_refl b : later_binding b b.
Proof. split; [by destruct b|done]. Qed.
Lemma later_binding_trans b1 b2 b3 : later_binding b1 b2 -> later_binding b2 b3 -> later_binding b1 b3.
Proof. intros [E1 G1] [E2 G2]. split; [|auto]. rewrite E2, E1. done. Qed.
Lemma later_set x b : x <> OverrideBindingState.Granted -> later_binding b (OverrideBinding.set_state x b).
Proof. intros Hx. split; [done|]. unfold is_granted. simpl. by rewrite bool_decide_eq_false_2. Qed.
Lemma later_transition now b : later_binding b (transition_expired_binding now b).
Proof.
  unfold transition_expired_binding. destruct (_ && _); [by apply later_set|apply later_binding_refl].
Qed.

Definition bindings (w : W) : gmap string OverrideBinding.t := overrides (VaultWorld.store w).

(** Bindings bear the identifiers that were drawn for them. *)
Definition named (w : W) : Prop := forall id b, bindings w !! id = Some b ->
  OverrideBinding.binding_id b = id /\
  exists i, i < VaultWorld.drawn w /\ id = "ovr_" +:+ VaultWorld.ulids w i.

(** A step keeps every binding, later; an identifier it labels was granted and
    is not any more; and what is new was drawn. *)
Definition override_step (w : W) (ids : list string) (w' : W) : Prop :=
  VaultWorld.ulids w' = VaultWorld.ulids w /\ VaultWorld.drawn w <= VaultWorld.drawn w' /\
  (forall id b, bindings w !! id = Some b -> exists b', bindings w' !! id = Some b' /\ later_binding b b') /\
  (forall id b', bindings w' !! id = Some b' -> is_Some (bindings w !! id) \/
     OverrideBinding.binding_id b' = id /\ VaultWorld.drawn w < VaultWorld.drawn w' /\
     id = "ovr_" +:+ VaultWorld.ulids w (VaultWorld.drawn w)) /\
  (ids = [] \/ exists id b b', ids = [id] /\ bindings w !! id = Some b /\ is_granted b = true /\
     bindings w' !! id = Some b' /\ is_granted b' = false).

Lemma override_step_same w w' ids :
  VaultWorld.ulids w' = VaultWorld.ulids w -> VaultWorld.drawn w <= VaultWorld.drawn w' ->
  bindings w' = bindings w -> ids = [] -> override_step w ids w'.
Proof.
  intros Hu Hd Hb Hi. unfold override_step. rewrite Hb. split_and!; [done|done| |by left; eexists|by left].
  intros id b Hl. exists b. split; [done|apply later_binding_refl].
Qed.

(** A binding is replaced by a later one. *)
Lemma override_step_put w w' id b b' ids :
  undisturbed (with_store (fun s => set_overrides (<[id := b']> (overrides s)) s) w) w' ->
  bindings w !! id = Some b -> later_binding b b' ->
  (ids = [] \/ ids = [id] /\ is_granted b = true /\ is_granted b' = false) -> override_step w ids w'.
Proof.
  intros (Hs & _ & Hu & Hd & _) Hb Hl Hi. unfold override_step.
  assert (bindings w' = <[id := b']> (bindings w)) as Hw' by (unfold bindings; by rewrite Hs).
  rewrite Hw'. split_and!; [done|rewrite Hd; simpl; lia| | |].
  - intros i c Hc. destruct (decide (i = id)) as [->|Hn].
    + rewrite lookup_insert_eq. assert (c = b) as -> by congruence. by exists b'.
    + rewrite lookup_insert_ne by done. exists c. split; [done|apply later_binding_refl].
  - intros i c [[<- <-]|[_ Hc]]%lookup_insert_Some; left; by eexists.
  - destruct Hi as [->|(-> & Hg & Hg')]; [by left|right]. exists id, b, b'. by rewrite lookup_insert_eq.
Qed.

(** The readings of the clock and the records change no binding. *)
Lemma override_step_undisturbed w w1 ids w' :
  undisturbed w w1 -> override_step w1 ids w' -> override_step w ids w'.
Proof.
  intros (Hs & _ & Hu & Hd & _). unfold override_step, bindings. by rewrite Hs, Hu, Hd.
Qed.
Lemma override_step_still w w' : undisturbed w w' -> override_step w [] w'.
Proof. intros (Hs & _ & Hu & Hd & _). apply override_step_same; [done|lia|unfold bindings; by rewrite Hs|done]. Qed.

Lemma find_override_post id (w : W) :
  post (find_override id) (fun b w' => w' = w /\ bindings w !! id = Some b) (fun _ w' => w' = w) w.
Proof. unfold post, find_override, vault_get, mbind_, lift, bindings. by destruct (_ !! id). Qed.

(** [put_override] and the record that follows it. *)
Lemma put_override_steps {B} w w1 id b b' (k : () -> M B) (f : B -> list string) :
  undisturbed w w1 -> bindings w !! id = Some b -> later_binding b b' ->
  (forall w2, post (k ()) (fun _ w' => undisturbed w2 w') (fun _ w' => undisturbed w2 w') w2) ->
  (forall w2, post (k ()) (fun x _ => f x = [] \/ f x = [id] /\ is_granted b = true /\ is_granted b' = false)
    (fun _ _ => True) w2) ->
  post (let! u := put_override id b' in k u) (fun x w' => override_step w (f x) w')
    (fun _ w' => override_step w [] w') w1.
Proof.
  intros Hw Hb Hl Hk Hf. eapply (post_bind _ _ (fun _ w' => w' = with_store (fun s =>
    set_overrides (<[id := b']> (overrides s)) s) w1)); [done|].
  intros [] w2 ->. assert (bindings w1 !! id = Some b) as Hb1.
  { destruct Hw as (Hs & _). unfold bindings. by rewrite Hs. }
  eapply post_mono; [exact (post_and _ _ _ _ _ _ (Hk _) (Hf _))|..].
  - intros x w' [Hu Hx]. eapply override_step_undisturbed; [exact Hw|]. by eapply override_step_put.
  - intros e w' [Hu _]. eapply override_step_undisturbed; [exact Hw|].
    eapply override_step_put; eauto.
Qed.

(** Every binding is transitioned. *)
Lemma override_step_all w now :
  override_step w [] (with_store (fun s => set_overrides (transition_expired_binding now <$> overrides s) s) w).
Proof.
  unfold override_step, bindings. simpl. split_and!; [done|lia| | |by left].
  - intros id b Hb. rewrite lookup_fmap, Hb. eexists. split; [done|apply later_transition].
  - intros id b'. rewrite lookup_fmap. destruct (_ !! id); [left; by eexists|done].
Qed.

Lemma consume_steps id consumer (w : W) : named w ->
  post (consume_override em id consumer) (fun b w' => override_step w [OverrideBinding.binding_id b] w')
    (fun _ w' => override_step w [] w') w.
Proof.
  intros Hn. eapply post_seq; [apply find_override_post|by intros _ ? ->; apply override_step_still|].
  intros b w' [-> Hb]. destruct (Hn id b Hb) as [Hid _].
  destruct (OverrideBinding.state b) eqn:Es; try by apply override_step_still.
  eapply (post_bind _ _ (fun _ w' => undisturbed w w')); [by apply post_vault_now|].
  intros now w1 Hw. destruct (_ <=? now)%Z.
  - eapply (put_override_steps w w1 id b _ _ (fun b => [OverrideBinding.binding_id b]));
      [done|done|by apply later_set|done|done].
  - cbv zeta. eapply (put_override_steps w w1 id b _ _ (fun b => [OverrideBinding.binding_id b]));
      [done|done|by apply later_set|..]; intros w2.
    + eapply (post_bind _ _ (fun _ w' => undisturbed w2 w')); [|done].
      apply post_discreet; [eauto with discreet|done|done].
    + eapply (post_bind _ _ (fun _ w' => True)); [by apply post_discreet; [eauto with discreet|..]|].
      intros _ w3 _. right. simpl. rewrite Hid. unfold is_granted. simpl. by rewrite Es.
Qed.

Lemma revoke_steps id revoker (w : W) :
  post (revoke_override em id revoker) (fun _ w' => override_step w [] w')
    (fun _ w' => override_step w [] w') w.
Proof.
  eapply post_seq; [apply find_override_post|by intros _ ? ->; apply override_step_still|].
  intros b w' [-> Hb].
  eapply (put_override_steps w w id b _ _ (fun _ => [])); [done|done|by apply later_set|..]; intros w2.
  - apply post_discreet; [eauto with discreet|done|done].
  - apply post_discreet; [eauto with discreet|by left|done].
Qed.

Lemma lookup_steps id (w : W) :
  post (lookup_override id) (fun _ w' => override_step w [] w') (fun _ w' => override_step w [] w') w.
Proof.
  eapply post_seq; [apply find_override_post|by intros _ ? ->; apply override_step_still|].
  intros b w' [-> Hb]. eapply (post_bind _ _ (fun _ w' => undisturbed w w')); [by apply post_vault_now|].
  intros now w1 Hw. cbv zeta.
  eapply (put_override_steps w w1 id b _ _ (fun _ => [])); [done|done|apply later_transition|done|by left].
Qed.

Lemma list_steps {B} (f : VaultState.t -> B) (w : W) :
  post (let! now := vault_now in
        let! _ := transition_all now in
        let! s := vault_get in
        ret (f s)) (fun _ w' => override_step w [] w') (fun _ w' => override_step w [] w') w.
Proof.
  eapply (post_bind _ _ (fun _ w' => undisturbed w w')); [by apply post_vault_now|].
  intros now w1 Hw. eapply override_step_undisturbed; [exact Hw|]. apply override_step_all.
Qed.

Lemma granted_steps r (w : W) b w' : (forall i j, VaultWorld.ulids w i = VaultWorld.ulids w j -> i = j) ->
  named w -> granted_vault r w b w' -> override_step w [] w'.
Proof.
  intros Hi Hn (-> & Hs & Hu & Hd). unfold override_step.
  set (id := "ovr_" +:+ VaultWorld.ulids w (VaultWorld.drawn w)) in *.
  assert (bindings w !! id = None) as Hf.
  { destruct (bindings w !! id) as [b|] eqn:Hb; [|done].
    destruct (Hn id b Hb) as (_ & i & Hlt & He). unfold id in He. simplify_eq/=.
    assert (VaultWorld.drawn w = i) by (by apply Hi). lia. }
  assert (bindings w' = <[id := granted_binding r id (VaultWorld.clock w (VaultWorld.reads w))]> (bindings w))
    as -> by (unfold bindings; by rewrite Hs).
  split_and!; [done|lia| | |by left].
  - intros i b Hb. exists b. rewrite lookup_insert_ne by (intros <-; congruence).
    split; [done|apply later_binding_refl].
  - intros i b' [[<- <-]|[_ Hb]]%lookup_insert_Some; [right|left; by eexists]. split_and!; [done|lia|done].
Qed.

Lemma serve_steps r (w : W) : (forall i j, VaultWorld.ulids w i = VaultWorld.ulids w j -> i = j) ->
  named w -> override_step w (label (serve r w).1) (serve r w).2.
Proof.
  intros Hi Hn. cut (post (serve r) (fun o w' => override_step w (option_list o) w')
    (fun _ w' => override_step w [] w') w).
  { unfold post. by destruct (serve r w) as [[[id|]|e] w']. }
  destruct r as [r|id consumer|id revoker|id| |subject]; simpl.
  - eapply post_seq; [apply grant_override_post| |].
    + intros e w' [(_ & _ & b & Hb)|[_ ->]]; [by eapply granted_steps|by apply override_step_still].
    + intros b w' [_ Hb]. by eapply granted_steps.
  - by eapply (post_bind _ _ (fun b w' => override_step w [OverrideBinding.binding_id b] w'));
      [apply consume_steps|].
  - eapply (post_bind _ _ (fun _ w' => override_step w [] w')); [apply revoke_steps|done].
  - eapply (post_bind _ _ (fun _ w' => override_step w [] w')); [apply lookup_steps|done].
  - eapply (post_bind _ _ (fun _ w' => override_step w [] w')); [apply list_steps|done].
  - eapply (post_bind _ _ (fun _ w' => override_step w [] w'));
      [apply (list_steps (fun s => filter _ (sorted_overrides s)))|done].
Qed.

Lemma step_named w ids w' : override_step w ids w' -> named w -> named w'.
Proof.
  intros (Hu & Hd & Hk & Hnew & _) Hn id b' Hb. destruct (Hnew id b' Hb) as [[b Hb0]|(He & Hlt & ->)].
  - destruct (Hn id b Hb0) as (He & i & Hi & ->). destruct (Hk _ b Hb0) as (b'' & Hb'' & [El _]).
    assert (b'' = b') as -> by congruence. rewrite El. split; [done|]. exists i. rewrite Hu. split; [lia|done].
  - split; [done|]. eexists. rewrite Hu. by split.
Qed.

(** A binding that can no longer be consumed. *)
Definition spent (id : string) (w : W) : Prop :=
  exists b, bindings w !! id = Some b /\ is_granted b = false.

Lemma override_step_spent id w ids w' : override_step w ids w' -> spent id w -> spent id w' /\ id ∉ ids.
Proof.
  intros (_ & _ & Hk & _ & Hi) (b & Hb & Hg). split.
  - destruct (Hk id b Hb) as (b' & Hb' & [_ Hl]). exists b'. split; [done|].
    destruct (is_granted b') eqn:E; [|done]. rewrite Hl in Hg; done.
  - destruct Hi as [->|(id' & b0 & b' & -> & Hb0 & Hg0 & _)]; [by apply not_elem_of_nil|].
    rewrite list_elem_of_singleton. intros ->. congruence.
Qed.

(** Runs are runs of override steps. *)
Lemma served_ind_steps (P : W -> list string -> W -> Prop) :
  (forall w, P w [] w) ->
  (forall w ids w1 ids' w', override_step w ids w1 -> P w1 ids' w' -> P w (ids ++ ids') w') ->
  forall w ids w', served w ids w' -> (forall i j, VaultWorld.ulids w i = VaultWorld.ulids w j -> i = j) ->
  named w -> P w ids w'.
Proof.
  intros P0 PS. induction 1 as [w|w r ids w' _ IH]; [done|]. intros Hi Hn.
  pose proof (serve_steps r w Hi Hn) as Hs. eapply PS; [exact Hs|]. apply IH.
  - destruct Hs as (-> & _). done.
  - by eapply step_named.
Qed.

(** An override is used once.  Whatever is granted, consumed, revoked, looked up
    and listed, in whatever order and while the clock shows what it shows, and
    whether the records of it are taken or refused, no override is consumed
    twice. *)
Theorem overrides_used_once (w w' : W) ids :
  (forall i j, VaultWorld.ulids w i = VaultWorld.ulids w j -> i = j) ->
  overrides (VaultWorld.store w) = ∅ -> served w ids w' -> NoDup ids.
Proof.
  intros Hi He Hs. enough (NoDup ids /\ forall id, spent id w -> id ∉ ids) by tauto.
  eapply (served_ind_steps (fun w ids _ => NoDup ids /\ forall id, spent id w -> id ∉ ids)).
  - intros v. split; [constructor|]. intros id _. apply not_elem_of_nil.
  - intros v is1 w1 is2 w2 Hv [Hd Hnot]. split.
    + destruct Hv as (_ & _ & _ & _ & [->|(id & b & b' & -> & _ & _ & Hb' & Hg')]); [done|].
      constructor; [|done]. apply Hnot. by exists b'.
    + intros id Hsp. destruct (override_step_spent id v is1 w1 Hv Hsp) as [Hsp' Hni].
      apply not_elem_of_app. split; [done|by apply Hnot].
  - exact Hs.
  - exact Hi.
  - intros id b Hb. unfold bindings in Hb. rewrite He in Hb. done.
Qed.
End Grants.
End VaultGrants.

(** * Vault and policy: the kernel over the vault

    The Policy Kernel hydrates its subjects from the vault's identity catalog and
    the runtime runs under that kernel; and the override boundary that looks the
    vault's bindings up. *)
Import VaultState Identity.

Module VaultGoverned.

(** ** The kernel hydrated by the vault *)
Section Props.
Context {S A : Type} {Lru : LruCache CacheKey PolicyDecision}.
Context `{!Primitives} `{!EvidenceSink S} `{!ApprovalBindingSink A} `{!RtPipeline.Texts}.
Variable order : gmap string Registry.RegisteredAdapter -> list Registry.RegisteredAdapter.
Variable values : OverrideBoundary.t -> list EmergencyOverride.

Abbreviation K := (Governed.GovernedKernel (H := VaultState.t)).
#[local] Instance vault_governed : PolicyKernelT K := Governed.governed values.
Abbreviation submit := (RtPipeline.submit_action (K := K) (S := S) (A := A) order).

(** The instant at which the kernel's next evaluation hydrates its subject. *)
Definition hydrated_at (g : K) : DateTime := hydrate_now (Governed.readings g (Governed.asked g)).

(** C13: only registered subjects are executed for.  When the kernel that governs the
    runtime hydrates from a vault and keeps no decision cache (a cached
    decision is not made for its subject), an action that is queued or executed was
    proposed in the name of a subject that the vault knows, through a session
    that was active and unexpired or by its canonical identifier; the vault's
    record of that subject, not the caller's, is what no hard-deny row fired for
    and what an unrevoked, unexpired grant of at most 24 hours names. *)
Theorem executed_by_registered amb cfg env rc (w : World K S A) g s :
  kernel w = Some g -> Kernel.decision_cache (Governed.inner g) = None ->
  Kernel.subject_hydrator (Governed.inner g) = Some s ->
  OverrideBoundary.values_ok values ->
  (forall b, Kernel.override_boundary (Governed.inner g) = Some b -> OverrideBoundary.reachable b) ->
  queue (submit amb cfg env rc w).2 <> queue w \/ Governed.executed (submit amb cfg env rc w).1 ->
  exists y ctx b,
    VaultMembers.resolves s (hydrated_at g) (subject_canonical_id (Envelope.identity env)) y /\
    VaultMembers.hydrated_as s y (subject ctx) /\
    (forall hd, Kernel.hard_deny_engine (Governed.inner g) = Some hd ->
       HardDenyEngine.check hd env (subject ctx) = None) /\
    DecisionPipeline.live_grant (Governed.next_ambient g) env ctx b.
Proof.
  intros Hk Hc Hs Hv Hr Hex%Governed.executed_verdict.
  destruct (Governed.verdict_granted values env rc w g Hk Hc Hv Hr Hex) as (_ & ctx & b & Hd & _ & He & Hg).
  unfold Governed.decided_for, Kernel.hydrate_context in Hd. rewrite Hs in Hd.
  pose proof (VaultMembers.hydrate_post s (hydrated_at g) (subject_canonical_id (Envelope.identity env))) as Hh.
  unfold hydrated_at in Hh. destruct (hydrate s _ _) as [h|e]; [|by destruct Hh as [-> _]].
  destruct Hh as (y & Hy & Ha). injection Hd as <-. by exists y, (with_subject h (RuntimeContext.policy_context rc)), b.
Qed.
End Props.

(** ** The boundary over the vault's overrides *)
Section Boundary.
Context {L : Type}.
Abbreviation W := (VaultWorld.t L).

(** Bindings that the boundary answers with for [action]: granted, unexpired by
    the clock of the sweep and at [now], and aimed at the action or at any. *)
Definition usable (w : W) (action : string) (now : DateTime) (b : OverrideBinding.t) : Prop :=
  OverrideBinding.state b = OverrideBindingState.Granted /\
  (VaultWorld.clock w (VaultWorld.reads w) < OverrideBinding.expires_at b)%Z /\
  (now < OverrideBinding.expires_at b)%Z /\
  (OverrideBinding.target_action_id b = None \/ OverrideBinding.target_action_id b = Some action).

Lemma find_least {X} (R : X -> X -> Prop) f l (x : X) :
  StronglySorted R l -> List.find f l = Some x ->
  x ∈ l /\ f x = true /\ forall y, y ∈ l -> f y = true -> y = x \/ R x y.
Proof.
  induction 1 as [|y l Hs IH Hf]; [done|]. simpl. destruct (f y) eqn:Ey.
  - intros [= <-]. split_and!; [by left|done|]. intros z [-> |Hz]%elem_of_cons _; [by left|right].
    rewrite Forall_forall in Hf. by apply Hf.
  - intros Hx. destruct (IH Hx) as (Hin & Hx' & Hl). split_and!; [by right|done|].
    intros z [-> |Hz]%elem_of_cons Hfz; [congruence|auto].
Qed.

#[local] Instance binding_le_total : Total binding_le.
Proof. intros a b. apply String.le_total. Qed.
#[local] Instance binding_le_trans : Transitive binding_le.
Proof. intros a b c. unfold binding_le. apply transitivity. Qed.

(** Swept at [t], a binding matches when it was usable. *)
Lemma matches_usable (w : W) action now b :
  let b' := transition_expired_binding (VaultWorld.clock w (VaultWorld.reads w)) b in
  binding_matches_action action now b' = true <-> usable w action now b /\ b' = b.
Proof.
  cbv zeta. unfold binding_matches_action, transition_expired_binding, usable.
  destruct (OverrideBinding.state b) eqn:Es;
    rewrite ?bool_decide_eq_true_2, ?bool_decide_eq_false_2 by done; simpl;
    rewrite ?Es; try (split; [done|naive_solver]).
  destruct (Z.leb_spec (OverrideBinding.expires_at b) (VaultWorld.clock w (VaultWorld.reads w))) as [Hl|Hl];
    simpl; [split; [done|intros [(_ & ? & _) _]; lia]|].
  rewrite Es, bool_decide_eq_true_2 by done. simpl. rewrite andb_true_iff, Z.ltb_lt.
  destruct (OverrideBinding.target_action_id b) as [t|]; [rewrite String.eqb_eq|]; naive_solver congruence.
Qed.

(** The boundary answers with the first usable binding.  The lookup never fails;
    it answers with the least, by identifier, of the bindings that are granted,
    unexpired, and aimed at the action or at every action, and with nothing when
    there is none.  Whom the binding was granted to, and for whom it is asked, is
    not looked at.  Bindings past their expiry are marked. *)
Theorem vault_boundary_exact (w : W) action who now :
  exists x w', vault_is_overridden_at action who now w = (Ok (emergency_override <$> x), w') /\
    overrides (VaultWorld.store w') =
      transition_expired_binding (VaultWorld.clock w (VaultWorld.reads w)) <$> overrides (VaultWorld.store w) /\
    match x with
    | Some b => (exists id, overrides (VaultWorld.store w) !! id = Some b) /\ usable w action now b /\
        forall id c, overrides (VaultWorld.store w) !! id = Some c -> usable w action now c -> binding_le b c
    | None => forall id c, overrides (VaultWorld.store w) !! id = Some c -> ~ usable w action now c
    end.
Proof.
  unfold vault_is_overridden_at, list_overrides, transition_all, vault_change, vault_now, vault_get, modify, ret, mbind_.
  simpl. set (t := VaultWorld.clock w (VaultWorld.reads w)).
  set (s := set_overrides _ _). eexists (List.find (binding_matches_action action now) (sorted_overrides s)), _.
  split; [done|]. simpl. split; [done|].
  assert (forall c, c ∈ sorted_overrides s <->
    exists id c0, overrides (VaultWorld.store w) !! id = Some c0 /\ c = transition_expired_binding t c0) as Hin.
  { intros c. unfold sorted_overrides. rewrite merge_sort_Permutation, list_elem_of_fmap. split.
    - intros ([id c'] & -> & Hc%elem_of_map_to_list). simpl in Hc. rewrite lookup_fmap in Hc.
      destruct (overrides (VaultWorld.store w) !! id) as [c0|] eqn:E; [|done]. injection Hc as <-. by exists id, c0.
    - intros (id & c0 & Hc & ->). exists (id, transition_expired_binding t c0). split; [done|].
      apply elem_of_map_to_list. simpl. by rewrite lookup_fmap, Hc. }
  assert (forall id c, overrides (VaultWorld.store w) !! id = Some c -> usable w action now c ->
    c ∈ sorted_overrides s /\ binding_matches_action action now c = true) as Hu.
  { intros id c Hc Huse.
    assert (transition_expired_binding t c = c) as E.
    { unfold transition_expired_binding. destruct Huse as (Hs & Ht & _). fold t in Ht.
      destruct (Z.leb_spec (OverrideBinding.expires_at c) t); [lia|]. by rewrite andb_false_r. }
    split; [apply Hin; exists id, c; by rewrite E|]. pose proof (matches_usable w action now c) as Hm.
    cbv zeta in Hm. fold t in Hm. rewrite E in Hm. by apply Hm. }
  destruct (List.find _ _) as [b|] eqn:Hf.
  - apply (find_least binding_le) in Hf as (Hb & Hm & Hl); [|apply StronglySorted_merge_sort; apply _].
    apply Hin in Hb as (id & c & Hc & ->). apply matches_usable in Hm as [Huse E]. fold t in E. rewrite E in *.
    split_and!; [by exists id|done|]. intros id' c' Hc' Hu'. destruct (Hu id' c' Hc' Hu') as [Hi Hm'].
    destruct (Hl c' Hi Hm') as [->|?]; [|done]. unfold binding_le. reflexivity.
  - intros id c Hc Huse. destruct (Hu id c Hc Huse) as [Hi Hm].
    apply list_elem_of_In in Hi. eapply List.find_none in Hf; [|exact Hi]. congruence.
Qed.
End Boundary.
End VaultGoverned.
