(* ===== verification/VaultDemo.v ===== *)
(** * Vault: the theorems at work

    Test primitives that satisfy the laws, a vault with capabilities, subjects
    and overrides, and the theorems of the vault applied to it. *)
From stdpp Require Import sorting.
From S2P Require Import Prelude Collections Json Action PolicyTypes HardDeny Override Cache Hydration Bundle Pipeline Kernel Records Redaction Receipt ChainSound StateError Lifecycle DispatchQueue Adapters Approvals Rollback Emit RtPipeline RtSound Runtime RtEvidence RtDemo VaultTypes VaultCrypto VaultBroker VaultIdentity VaultOverride VaultSound VaultLife VaultKeys VaultCatalog VaultGrants.
Import VaultState Identity.

Module VaultDemo.
Import Demo.
#[local] Existing Instance InMemoryVaultEvidenceLog.log.
#[local] Instance demo_vault_texts : VaultTexts := {| vault_evidence_error_text _ := "evidence error" |}.

(** ** Test primitives *)

(** The first [n] bytes, filled up. *)
Fixpoint pad (n : nat) (s : string) : string :=
  match n, s with
  | O, _ => ""
  | S n, EmptyString => String "~" (pad n "")
  | S n, String c s => String c (pad n s)
  end.
Lemma pad_length n s : String.length (pad n s) = n.
Proof. revert s. induction n as [|n IH]; intros [|c s]; simpl; by rewrite ?IH. Qed.

Definition test_public (seed : string) : string := pad 32 ("p" +:+ seed).
Definition test_sign (seed m : string) : string := pad 64 (test_public seed +:+ m).

#[local] Instance test_crypto : VaultCrypto := {
  gcm_encrypt k n m a := Some ((k +:+ n +:+ a) +:+ m);
  gcm_decrypt k n c a := strip_prefix (k +:+ n +:+ a) c;
  hmac_accepts _ := true;
  hmac_sha256 k m := pad 32 (m +:+ k);
  hkdf_expand k info n := Some (pad n (k +:+ info));
  ed25519_public := test_public;
  ed25519_sign := test_sign;
  ed25519_is_key k := Nat.eqb (String.length k) 32;
  ed25519_verify k m s := String.eqb s (pad 64 (k +:+ m));
  x25519_secret s := s;
}.

#[local] Instance test_crypto_laws : VaultCryptoLaws.
Proof.
  split.
  - intros k n m a c [= <-]. by apply strip_prefix_Some.
  - intros k m. apply pad_length.
  - intros k m. apply pad_length.
  - intros k. apply pad_length.
  - intros k. apply Nat.eqb_eq, pad_length.
  - intros k m. apply String.eqb_refl.
Qed.

(** The keys decide the order of an iteration. *)
Definition iter_keys {A} (m : gmap string A) (ks : list string) : list (string * A) :=
  omap (fun k => pair k <$> m !! k) ks.

#[local] Instance test_order : HashOrder := {| hash_iter _ m := iter_keys m (elements (dom m)) |}.

Lemma iter_keys_fst {A} (m : gmap string A) ks :
  (forall k, k ∈ ks -> is_Some (m !! k)) -> (iter_keys m ks).*1 = ks.
Proof.
  unfold iter_keys. induction ks as [|k ks IH]; intros Hk; [done|]. cbn [omap list_omap].
  destruct (Hk k) as [a ->]; [by left|]. cbn [fmap option_fmap option_map]. rewrite fmap_cons. f_equal.
  apply IH. intros j Hj. apply Hk. by right.
Qed.

#[local] Instance test_order_laws : HashOrderLaws.
Proof.
  assert (forall A (m : gmap string A) k, k ∈ elements (dom m) -> is_Some (m !! k)) as Hd.
  { intros A m k. by rewrite elem_of_elements, elem_of_dom. }
  split.
  - intros A m. apply NoDup_Permutation.
    + apply (NoDup_fmap_1 fst). simpl. rewrite iter_keys_fst by apply Hd. apply NoDup_elements.
    + apply NoDup_map_to_list.
    + intros [k a]. rewrite elem_of_map_to_list. simpl. unfold iter_keys. rewrite list_elem_of_omap.
      setoid_rewrite elem_of_elements. setoid_rewrite elem_of_dom. split.
      * intros (j & _ & Hj). destruct (m !! j) eqn:E; [|done]. by injection Hj as -> ->.
      * intros Hk. exists k. rewrite Hk. by split; [eexists|].
  - intros A m m' He. simpl. rewrite !iter_keys_fst by apply Hd. by rewrite He.
Qed.

(** ** A vault at work *)
Abbreviation L := InMemoryVaultEvidenceLog.t.
Abbreviation W := (VaultWorld.t L).
Abbreviation after m w := (m w).2.

Definition vault_start : W :=
  {| VaultWorld.store := VaultState.empty;
     VaultWorld.evidence := InMemoryVaultEvidenceLog.new (fun n => "evr_" +:+ pretty n) Z.of_nat;
     VaultWorld.clock := Z.of_nat; VaultWorld.reads := 0; VaultWorld.ulids := pretty; VaultWorld.drawn := 0;
     VaultWorld.entropy n := Ascii.ascii_of_nat (65 + n mod 26); VaultWorld.taken := 0 |}.

Definition emitter : option VaultEvidenceEmitter :=
  Some {| vault_emitter_key := 7%Z; vault_emitter_subject := AIOS_VAULT_SUBJECT |}.
Definition broker : InMemoryVaultBroker := {| audit_log := true; evidence_emitter := emitter |}.

Definition issue_of (c : CapabilityClass.t) (a : KeyAlgorithm.t) (k : option bytes) : VaultRequest.t :=
  VaultRequest.Issue {| IssueCapabilityRequest.class := c; IssueCapabilityRequest.issued_to := "family:alice";
    IssueCapabilityRequest.expires_at := None; IssueCapabilityRequest.key_algorithm := a;
    IssueCapabilityRequest.key_material_bytes := k |}.
Definition use_of (id : string) (o : VaultOperation.t) : VaultRequest.t :=
  VaultRequest.Use {| UseCapabilityRequest.capability_id := id; UseCapabilityRequest.operation := o |}.

Abbreviation run_all rs w := (VaultKeys.answers broker emitter rs w).2.

Lemma answers_served rs (w : W) : VaultLife.served broker emitter w (run_all rs w).
Proof.
  revert w. induction rs as [|r rs IH]; intros w; [constructor|]. simpl.
  specialize (IH (VaultSound.serve broker emitter r w).2). destruct (VaultSound.serve broker emitter r w) as [x w1] eqn:E.
  simpl in IH. eapply VaultLife.served_one. rewrite E. simpl.
  by destruct (VaultKeys.answers broker emitter rs w1) as [xs w2].
Qed.

Definition AES_KEY : bytes := "0123456789abcdef0123456789abcdef".

(** A signing capability [cap_0], used twice and revoked; [cap_1] and [cap_2] to
    encrypt and decrypt with the same key; [cap_3] to verify with the public key
    of the seed of [cap_4]. *)
Definition vault_requests : list VaultRequest.t :=
  [issue_of CapabilityClass.KeySign KeyAlgorithm.Ed25519 None;
   issue_of CapabilityClass.KeyEncrypt KeyAlgorithm.Aes256Gcm (Some AES_KEY);
   issue_of CapabilityClass.KeyDecrypt KeyAlgorithm.Aes256Gcm (Some AES_KEY);
   issue_of CapabilityClass.KeyVerify KeyAlgorithm.Ed25519 (Some (test_public "seed"));
   use_of "cap_0" (VaultOperation.Sign "message");
   use_of "cap_0" (VaultOperation.Sign "another");
   VaultRequest.Revoke "cap_0" "operator"].
Definition vault_used : W := run_all vault_requests vault_start.

Lemma vault_start_vacant : VaultLife.vacant vault_start.
Proof. split; [apply _|done]. Qed.
Lemma vault_used_served : VaultLife.served broker emitter vault_start vault_used.
Proof. apply answers_served. Qed.

#[local] Existing Instance VaultKeys.alike_equiv.
#[local] Opaque vault_start vault_used.

Lemma lives_by_machine_witness : exists tr,
  VaultSpec.run true pretty (0, VaultState.empty) tr (VaultSound.at_ vault_used) /\
  exists l, VaultLife.lives "cap_0" tr None = Some (Some l) /\
    VaultLife.life_state l = CapabilityState.Revoked /\ VaultLife.life_uses l = 2.
Proof.
  destruct (VaultLife.lives_by_machine broker emitter vault_start vault_used vault_start_vacant vault_used_served)
    as (tr & Hr & Hl).
  exists tr. split; [exact Hr|].
  assert (VaultCapability.state ∘ fst <$> capabilities (VaultWorld.store vault_used) !! "cap_0"
    = Some CapabilityState.Revoked) as Es by (vm_compute; reflexivity).
  assert (CapabilityAuditEntry.use_count <$> audit (VaultWorld.store vault_used) !! "cap_0" = Some 2%Z) as Eu
    by (vm_compute; reflexivity).
  destruct (Hl "cap_0") as ([l|] & Hlife & Ha); simpl in Ha; [|rewrite Ha in Es; discriminate Es].
  exists l. split; [exact Hlife|]. destruct Ha as (c & k & Hc & _ & Hs & _ & He).
  destruct (He eq_refl) as (e & Ha & Hu & _). rewrite Hc in Es. rewrite Ha in Eu. simpl in Es, Eu.
  injection Es as Es. injection Eu as Eu. split; [congruence|]. unfold u64_max in Hu. lia.
Defined.


(** The revoked capability is refused, after whatever else was asked. *)
Lemma no_use_after_end_witness :
  let w := run_all [issue_of CapabilityClass.KeySign KeyAlgorithm.Ed25519 None] vault_used in
  use_capability broker {| UseCapabilityRequest.capability_id := "cap_0";
     UseCapabilityRequest.operation := VaultOperation.Sign "again" |} w
   = (Err (VaultError.CapabilityRevoked "cap_0"), w).
Proof.
  intros w. assert (exists c k, capabilities (VaultWorld.store vault_used) !! "cap_0" = Some (c, k) /\
    VaultCapability.state c = CapabilityState.Revoked) as (c & k & Hc & Hs)
    by (eexists _, _; split; vm_compute; reflexivity).
  destruct (VaultLife.no_use_after_end broker emitter vault_start vault_used w "cap_0" c k
    (VaultOperation.Sign "again") "operator" vault_start_vacant vault_used_served (answers_served _ _) Hc)
    as [Hu _]; [rewrite Hs; discriminate|]. rewrite Hs in Hu. exact Hu.
Defined.

(** Two vaults with different secrets answer alike. *)
Definition secret_requests (secret : bytes) : list VaultRequest.t :=
  [issue_of CapabilityClass.SecretGet KeyAlgorithm.HmacSha256 (Some secret);
   use_of "cap_5" (VaultOperation.SecretGet "apr_1"); VaultRequest.List "family:alice"].

Lemma keys_stay_inside_witness :
  (VaultKeys.answers broker emitter (secret_requests "one") vault_used).1 =
  (VaultKeys.answers broker emitter (secret_requests "two") vault_used).1.
Proof.
  assert (Forall2 (VaultKeys.alike_request (L := L)) (secret_requests "one") (secret_requests "two")) as Hrs.
  2: { exact (proj1 (VaultKeys.keys_stay_inside broker emitter _ _ vault_used vault_used
         (Equivalence_Reflexive vault_used) Hrs)). }
  constructor; [apply VaultKeys.alike_issued|repeat constructor]. unfold VaultKeys.alike_issue. simpl.
  split_and!; [reflexivity..|]. intros c now Hc o Ho w. destruct c as [? cl ? ? ? ? ?]. simpl in Hc. subst cl.
  destruct o; try discriminate Ho. split_and!; reflexivity.
Defined.

Lemma vault_roundtrips_witness : exists x w1 c n,
  VaultKeys.call broker "cap_1" (VaultOperation.Encrypt "secret" "header") vault_used = (Ok x, w1) /\
  x = UseCapabilityResult.Encrypted c n "header" /\
  post (VaultKeys.call broker "cap_2" (VaultOperation.Decrypt c "header"))
    (fun y _ => y = UseCapabilityResult.Decrypted "secret") (fun e _ => vault_refused e) w1.
Proof.
  assert (exists c n w1, VaultKeys.call broker "cap_1" (VaultOperation.Encrypt "secret" "header") vault_used
    = (Ok (UseCapabilityResult.Encrypted c n "header"), w1)) as (c & n & w1 & Hc)
    by (eexists _, _, _; vm_compute; reflexivity).
  exists (UseCapabilityResult.Encrypted c n "header"), w1, c, n. split; [exact Hc|]. split; [reflexivity|].
  assert (exists e k, capabilities (VaultWorld.store vault_used) !! "cap_1" = Some (e, k) /\
    KeyMaterial.algorithm k = KeyAlgorithm.Aes256Gcm /\ KeyMaterial.material k = AES_KEY) as (e & k & He & Ha & Hk)
    by (eexists _, _; split_and!; vm_compute; reflexivity).
  pose proof (f_equal snd Hc) as Hw1. cbn [snd] in Hw1. subst w1.
  assert (exists e' k', capabilities (VaultWorld.store (VaultKeys.call broker "cap_1"
      (VaultOperation.Encrypt "secret" "header") vault_used).2) !! "cap_2" = Some (e', k') /\
    KeyMaterial.algorithm k' = KeyAlgorithm.Aes256Gcm /\ KeyMaterial.material k' = AES_KEY /\
    VaultCapability.state e' = CapabilityState.Active /\ VaultCapability.class e' = CapabilityClass.KeyDecrypt /\
    VaultCapability.expires_at e' = None) as (e' & k' & He' & Ha' & Hk' & Hs & Hcl & Hx)
    by (eexists _, _; split_and!; vm_compute; reflexivity).
  eapply (VaultKeys.vault_roundtrips broker "cap_1" _ _ "cap_2" (VaultOperation.Decrypt c "header")
    (UseCapabilityResult.Decrypted "secret") e k k' vault_used); [exact Hc|exact He|constructor| |].
  - split; [congruence|]. left. congruence.
  - exists e'. split; [exact He'|]. split; [exact Hs|]. split.
    + unfold VaultSpec.permits. rewrite Hcl. reflexivity.
    + intros t Ht. congruence.
Defined.

(** A signature made with the public key of [cap_3] alone verifies under it. *)
Lemma public_key_forges_witness :
  post (VaultKeys.call broker "cap_3" (VaultOperation.Verify "pay" (ed25519_sign (ed25519_public "seed") "pay")))
    (fun y _ => y = UseCapabilityResult.Verified true) (fun e _ => vault_refused e) vault_used.
Proof.
  assert (exists e k, capabilities (VaultWorld.store vault_used) !! "cap_3" = Some (e, k) /\
    KeyMaterial.algorithm k = KeyAlgorithm.Ed25519 /\ KeyMaterial.material k = ed25519_public "seed" /\
    VaultCapability.state e = CapabilityState.Active /\ VaultCapability.class e = CapabilityClass.KeyVerify /\
    VaultCapability.expires_at e = None) as (e & k & He & Ha & Hk & Hs & Hcl & Hx)
    by (eexists _, _; split_and!; vm_compute; reflexivity).
  apply (VaultKeys.public_key_forges broker "cap_3" k "seed" "pay" vault_used Hk Ha).
  exists e. split; [exact He|]. split; [exact Hs|]. split.
  - unfold VaultSpec.permits. rewrite Hcl. reflexivity.
  - intros t Ht. congruence.
Defined.

(** ** The catalog *)
Definition alice : Subject.t :=
  {| Subject.canonical_subject_id := "family:alice"; Subject.subject_type := SubjectType.Human;
     Subject.provisional_name := "Alice"; Subject.groups := ["family"]; Subject.is_ai := false;
     Subject.created_at := 0 |}.

Fixpoint catalog_run (rs : list CatalogRequest.t) (w : W) : W :=
  match rs with [] => w | r :: rs => catalog_run rs (VaultCatalog.serve r w).2 end.
Lemma catalog_served rs (w : W) : VaultCatalog.served w (catalog_run rs w).
Proof. revert w. induction rs as [|r rs IH]; intros w; [constructor|]. eapply VaultCatalog.served_one, IH. Qed.

(** A session that was suspended, and a second one of the same subject. *)
Definition vault_sessions : W :=
  catalog_run [CatalogRequest.Register alice; CatalogRequest.Start "family:alice" 100;
               CatalogRequest.Suspend "sess_0"; CatalogRequest.Start "family:alice" 100] vault_start.

(** The suspended session stays suspended or worse, and the second one is the
    only active one. *)
Lemma sessions_exact_witness :
  let w := catalog_run [CatalogRequest.Lookup "sess_0"; CatalogRequest.Start "family:alice" 200] vault_sessions in
  (exists x, sessions (VaultWorld.store w) !! "sess_0" = Some x /\ Session.state x <> SessionState.Active) /\
  forall id y, sessions (VaultWorld.store w) !! id = Some y -> Session.state y = SessionState.Active ->
    Session.subject_id y = "family:alice" -> id = "sess_1".
Proof.
  intros w. assert (VaultCatalog.no_sessions vault_start) as Hn by (split; [apply _|reflexivity]).
  destruct (VaultCatalog.sessions_exact vault_start vault_sessions w Hn (catalog_served _ _) (catalog_served _ _))
    as [Hone Hlater]. split.
  - assert (exists x, sessions (VaultWorld.store vault_sessions) !! "sess_0" = Some x /\
      Session.state x = SessionState.Suspended) as (x & Hx & Hs) by (eexists; split; vm_compute; reflexivity).
    destruct (Hlater "sess_0" x Hx) as (y & Hy & _ & _ & _ & _ & Hr). exists y. split; [exact Hy|].
    intros Hs'. rewrite Hs, Hs' in Hr. vm_compute in Hr. lia.
  - assert (exists y, sessions (VaultWorld.store w) !! "sess_1" = Some y /\ Session.state y = SessionState.Active /\
      Session.subject_id y = "family:alice") as (y & Hy & Hs & Hi) by (eexists; split_and!; vm_compute; reflexivity).
    intros id z Hz Hsz Hiz. apply (Hone id "sess_1" z y Hz Hy Hsz Hs). congruence.
Defined.

Lemma membership_exact_witness :
  let w := catalog_run [CatalogRequest.Register alice; CatalogRequest.Add "family:alice" "admins";
                        CatalogRequest.Remove "family:alice" "family"] vault_start in
  groups_of (VaultWorld.store w) "family:alice" = ["admins"].
Proof.
  intros w. assert (exists x, subjects (VaultWorld.store w) !! "family:alice" = Some x /\
    Subject.groups x = ["admins"]) as (x & Hx & Hg) by (eexists; split; vm_compute; reflexivity).
  assert (VaultMembers.served vault_start w) as Hs.
  { apply (VaultMembers.served_one _ (CatalogRequest.Register alice)); [apply NoDup_singleton|].
    apply (VaultMembers.served_one _ (CatalogRequest.Add "family:alice" "admins")); [exact I|].
    apply (VaultMembers.served_one _ (CatalogRequest.Remove "family:alice" "family")); [exact I|].
    apply VaultMembers.served_none. }
  destruct (VaultMembers.membership_exact vault_start w "family:alice" x eq_refl eq_refl Hs Hx) as (_ & He & _).
  rewrite He, Hg. vm_compute. reflexivity.
Defined.

Definition vault_alice : W := catalog_run [CatalogRequest.Register alice] vault_start.

Lemma removed_member_keeps_group_witness :
  exists gs, (groups_for_subject "family:alice" (VaultMembers.raced "family:alice" "admins" vault_alice).2).1 = Ok gs
    /\ "admins" ∈ gs.
Proof.
  apply (VaultMembers.removed_member_keeps_group vault_alice "family:alice" "admins" alice).
  - vm_compute. reflexivity.
  - apply (bool_decide_unpack _). vm_compute. exact I.
  - apply NoDup_singleton.
Defined.

(** ** Overrides *)
Definition grant_of (c : OverrideClass.t) (by_ : list string) : GrantOverrideRequest.t :=
  {| GrantOverrideRequest.class := c; GrantOverrideRequest.granted_by := by_;
     GrantOverrideRequest.target_action_id := Some "net.expose_lan"; GrantOverrideRequest.expires_at := 100;
     GrantOverrideRequest.reason := "incident" |}.

(** Alice alone is granted what takes three humans. *)
Lemma one_human_makes_a_quorum_witness :
  is_ok (grant_override emitter (grant_of OverrideClass.TripleHuman ["family:alice"; "family:alice"; "family:alice"])
           vault_alice).1 = true /\
  post (grant_override emitter (grant_of OverrideClass.TripleHuman ["family:alice"; "family:alice"; "family:alice"]))
    (fun b w' => VaultGrants.granted_vault (grant_of OverrideClass.TripleHuman
       ["family:alice"; "family:alice"; "family:alice"]) vault_alice b w')
    (fun e w' => vault_refused e /\ exists b, VaultGrants.granted_vault (grant_of OverrideClass.TripleHuman
       ["family:alice"; "family:alice"; "family:alice"]) vault_alice b w') vault_alice.
Proof.
  split; [vm_compute; reflexivity|].
  apply (VaultGrants.one_human_makes_a_quorum emitter vault_alice "family:alice" alice);
    [vm_compute; reflexivity|reflexivity|reflexivity].
Defined.

Fixpoint override_run (rs : list OverrideRequest.t) (w : W) : list string * W :=
  match rs with
  | [] => ([], w)
  | r :: rs =>
      let '(ids, w') := override_run rs (VaultGrants.serve emitter r w).2 in
      (VaultGrants.label (VaultGrants.serve emitter r w).1 ++ ids, w')
  end.
Lemma override_served rs (w : W) :
  VaultGrants.served emitter w (override_run rs w).1 (override_run rs w).2.
Proof.
  revert w. induction rs as [|r rs IH]; intros w; [constructor|]. simpl.
  specialize (IH (VaultGrants.serve emitter r w).2). destruct (override_run rs _) as [ids w'].
  by apply (VaultGrants.served_one emitter w r).
Qed.

(** Granted and consumed; a second attempt is refused. *)
Definition consumed_twice : list OverrideRequest.t :=
  [OverrideRequest.Grant (grant_of OverrideClass.StrongSolo ["family:alice"]);
   OverrideRequest.Consume "ovr_0" "agent:dev"; OverrideRequest.Consume "ovr_0" "agent:dev"].

Lemma overrides_used_once_witness :
  (override_run consumed_twice vault_alice).1 = ["ovr_0"] /\
  NoDup (override_run consumed_twice vault_alice).1.
Proof.
  split; [vm_compute; reflexivity|].
  apply (VaultGrants.overrides_used_once emitter vault_alice (override_run consumed_twice vault_alice).2).
  - intros i j. apply (inj pretty).
  - vm_compute. reflexivity.
  - apply override_served.
Defined.

(** ** The kernel over the vault *)
#[local] Existing Instance InMemoryEvidenceSink.sink.
#[local] Existing Instance InMemoryApprovalSink.sink.
#[local] Existing Instance RtDemo.demo_texts.
#[local] Instance list_lru : LruCache CacheKey PolicyDecision := ListLru.lru_impl _ _.

Definition lucky : Subject.t :=
  {| Subject.canonical_subject_id := "human:lucky:01"; Subject.subject_type := SubjectType.Human;
     Subject.provisional_name := "Lucky"; Subject.groups := []; Subject.is_ai := false; Subject.created_at := 0 |}.
Definition vault_lucky : VaultState.t :=
  VaultWorld.store (catalog_run [CatalogRequest.Register lucky] vault_start).

Abbreviation K := (Governed.GovernedKernel (H := VaultState.t)).
#[local] Instance vault_kernel : PolicyKernelT K :=
  VaultGoverned.vault_governed OverrideBoundary.values_in_key_order.

Definition vault_governed : K :=
  {| Governed.inner := Kernel.with_override_boundary OverrideBoundary.demo_boundary
       (Kernel.new_with_full_chain vault_lucky HardDenyEngineConfig.spec_defaults);
     Governed.readings _ := Kernel.demo_ambient 5; Governed.asked := 0 |}.
Definition vault_world : World K InMemoryEvidenceSink.t InMemoryApprovalSink.t :=
  {| kernel := Some vault_governed; sink := Some RtDemo.demo_sink; approvals := Some InMemoryApprovalSink.new;
     queue := Some (RtDemo.demo_queue 4); rctx := None; tripwire := Some 0%Z; operator_alerts := Some 0%Z;
     contexts := ∅ |}.
Definition lucky_exposes : Envelope.t :=
  Envelope.new 0 {| subject_canonical_id := "human:lucky:01"; identity_is_ai := false; session_id := None |}
    (Envelope.request DecisionPipeline.demo_expose)
    {| trace_id := "01"; span_id := "02"; parent_span_id := None |}.

Abbreviation lucky_submits := (RtPipeline.submit_action (K := K) (S := InMemoryEvidenceSink.t)
  (A := InMemoryApprovalSink.t) RegistryDemo.key_order (RtDemo.demo_amb "act_1") (RtDemo.demo_cfg None)
  lucky_exposes RtDemo.demo_rc vault_world).

(** What the runtime executes for [lucky] is executed for the vault's subject. *)
Lemma executed_by_registered_witness : exists y ctx,
  VaultMembers.resolves vault_lucky (VaultGoverned.hydrated_at vault_governed) "human:lucky:01" y /\
  VaultMembers.hydrated_as vault_lucky y (subject ctx).
Proof.
  destruct (VaultGoverned.executed_by_registered RegistryDemo.key_order OverrideBoundary.values_in_key_order
    (RtDemo.demo_amb "act_1") (RtDemo.demo_cfg None) lucky_exposes RtDemo.demo_rc vault_world vault_governed vault_lucky)
    as (y & ctx & b & Hy & Ha & _).
  - reflexivity.
  - reflexivity.
  - reflexivity.
  - apply OverrideBoundary.values_in_key_order_ok.
  - intros b [= <-]. apply OverrideBoundary.demo_reachable.
  - left. intros E. apply (f_equal (fun q => match q with Some q => (DispatchQueue.depth QueueClass.AgentProposal q
      + DispatchQueue.depth QueueClass.Interactive q)%Z | None => 0%Z end)) in E. vm_compute in E. discriminate E.
  - exists y, ctx. split; [exact Hy|exact Ha].
Defined.
End VaultDemo.
