(* ===== verification/CapTokens.v ===== *)
(** * Capability tokens of the Capability Runtime ([sel4_cap_model.rs])

    Rights, tokens and the derivation tree: [CapTokenTree] is its three
    collections, over the process-wide counter of identifiers, which a step of
    any tree advances.  Identifiers are [u64] values; the counter wraps around
    ([next_token_id]), and the theorems are about the 2^64 - 1 tokens before. *)
From stdpp Require Import gmap sets.
From S2P Require Import Prelude.

(** ** Rights *)
Module CapRight.
Inductive t : Type := Read | Write | Execute | Grant | Destroy | Transfer.
#[global] Instance t_eq_dec : EqDecision t.
Proof. solve_decision. Defined.
Definition to_nat (x : t) : nat :=
  match x with Read => 0 | Write => 1 | Execute => 2 | Grant => 3 | Destroy => 4 | Transfer => 5 end.
Definition of_nat (n : nat) : t :=
  match n with 0 => Read | 1 => Write | 2 => Execute | 3 => Grant | 4 => Destroy | _ => Transfer end.
#[global] Instance t_countable : Countable t.
Proof. by apply (inj_countable' to_nat of_nat); intros []. Defined.

Definition as_str (x : t) : string :=
  match x with
  | Read => "READ" | Write => "WRITE" | Execute => "EXECUTE" | Grant => "GRANT"
  | Destroy => "DESTROY" | Transfer => "TRANSFER"
  end.
End CapRight.

Module CapRights.
Definition t : Type := gset CapRight.t.

Definition full : t :=
  {[ CapRight.Read; CapRight.Write; CapRight.Execute; CapRight.Grant; CapRight.Destroy;
     CapRight.Transfer ]}.
Definition empty : t := ∅.
Definition has (right : CapRight.t) (r : t) : bool := bool_decide (right ∈ r).
Definition count (r : t) : nat := size r.
Definition attenuate (mask r : t) : option t := if bool_decide (mask ⊆ r) then Some mask else None.
Definition is_superset_of (other r : t) : bool := bool_decide (other ⊆ r).
End CapRights.

(** ** Tokens *)
Module CapToken.
Record t : Type := {
  id : Z;
  rights : CapRights.t;
  parent_id : option Z;
  depth : Z;
  revoked : bool;
  label : string;
}.

Definition MAX_DEPTH : Z := 16.

Definition new_root (fresh : Z) (label : string) : t :=
  {| id := fresh; rights := CapRights.full; parent_id := None; depth := 0; revoked := false;
     label := label |}.

(** The identifier is drawn when every check has passed. *)
Definition derive (fresh : Z) (mask : CapRights.t) (label : string) (tok : t) : option t :=
  if revoked tok then None
  else match CapRights.attenuate mask (rights tok) with
       | None => None
       | Some attenuated =>
           if negb (CapRights.has CapRight.Grant (rights tok)) then None
           else if (MAX_DEPTH <=? depth tok)%Z then None
           else Some {| id := fresh; rights := attenuated; parent_id := Some (id tok);
                        depth := depth tok + 1; revoked := false; label := label |}
       end.

Definition set_revoked (tok : t) : t :=
  {| id := id tok; rights := rights tok; parent_id := parent_id tok; depth := depth tok;
     revoked := true; label := label tok |}.

(** The answer, and the token afterwards. *)
Definition revoke (tok : t) : bool * t :=
  if revoked tok then (false, tok)
  else if negb (CapRights.has CapRight.Destroy (rights tok)) then (false, tok)
  else (true, set_revoked tok).

Definition is_alive (tok : t) : bool := negb (revoked tok).
End CapToken.

(** ** The tree *)
Module CapTokenTree.
Record t : Type := {
  tokens : gmap Z CapToken.t;
  children : gmap Z (list Z);
  roots : list Z;
}.

Definition new : t := {| tokens := ∅; children := ∅; roots := [] |}.

(** [NEXT_TOKEN_ID.fetch_add(1)]. *)
Definition next_token_id (counter : Z) : Z := u64_wrap (counter + 1).

(** A state is the counter and a tree. *)
Definition create_root (label : string) (s : Z * t) : Z * (Z * t) :=
  let '(counter, tr) := s in
  (counter, (next_token_id counter,
    {| tokens := <[counter := CapToken.new_root counter label]> (tokens tr);
       children := children tr; roots := roots tr ++ [counter] |})).

Definition derive (parent_id : Z) (mask : CapRights.t) (label : string) (s : Z * t)
    : option Z * (Z * t) :=
  let '(counter, tr) := s in
  match tokens tr !! parent_id with
  | None => (None, s)
  | Some parent =>
      match CapToken.derive counter mask label parent with
      | None => (None, s)
      | Some child =>
          (Some counter, (next_token_id counter,
            {| tokens := <[counter := child]> (tokens tr);
               children := <[parent_id := default [] (children tr !! parent_id) ++ [counter]]>
                             (children tr);
               roots := roots tr |}))
      end
  end.

Definition children_of (tr : t) (id : Z) : list Z := default [] (children tr !! id).

(** [while let Some(current) = stack.pop()]: the top of the stack is the head of
    the list; [None] when [fuel] rounds were not enough. *)
Fixpoint walk (fuel : nat) (tr : t) (stack acc : list Z) : option (list Z) :=
  match fuel, stack with
  | _, [] => Some acc
  | O, _ => None
  | S fuel, current :: stack => walk fuel tr (rev (children_of tr current) ++ stack) (acc ++ [current])
  end.

(** One round per token. *)
Definition descendants (id : Z) (tr : t) : option (list Z) :=
  walk (size (tokens tr)) tr (rev (children_of tr id)) [].

(** [get_mut] and [revoke], with the count. *)
Definition revoke_one (st : nat * t) (id : Z) : nat * t :=
  let '(count, tr) := st in
  match tokens tr !! id with
  | None => st
  | Some tok =>
      let '(b, tok) := CapToken.revoke tok in
      ((if b : bool then S count else count),
       {| tokens := <[id := tok]> (tokens tr); children := children tr; roots := roots tr |})
  end.

Definition revoke_cascade (id : Z) (tr : t) : option (nat * t) :=
  match descendants id tr with
  | None => None
  | Some to_revoke => Some (revoke_one (fold_left revoke_one to_revoke (0, tr)) id)
  end.

Definition get (id : Z) (tr : t) : option CapToken.t := tokens tr !! id.

(** The walk up the parents. *)
Fixpoint climb (fuel : nat) (tr : t) (current : option Z) : option bool :=
  match fuel, current with
  | _, None => Some false
  | O, _ => None
  | S fuel, Some p =>
      if bool_decide (p ∈ roots tr) then Some true
      else climb fuel tr (tokens tr !! p ≫= CapToken.parent_id)
  end.

(** A token is at most [MAX_DEPTH] derivations deep. *)
Definition is_reachable (id : Z) (tr : t) : option bool :=
  match tokens tr !! id with
  | None => Some false
  | Some tok =>
      if negb (is_some (CapToken.parent_id tok)) && bool_decide (id ∈ roots tr) then Some true
      else climb (Z.to_nat CapToken.MAX_DEPTH) tr (CapToken.parent_id tok)
  end.

Section Iter.
Context `{NumHashOrder}.

Definition violation (tr : t) (e : Z * CapToken.t) : option (Z * Z) :=
  match CapToken.parent_id e.2 with
  | None => None
  | Some p =>
      match tokens tr !! p with
      | None => None
      | Some parent =>
          if negb (CapRights.is_superset_of (CapToken.rights e.2) (CapToken.rights parent))
          then Some (e.1, p) else None
      end
  end.

Definition verify_attenuation (tr : t) : list (Z * Z) := omap (violation tr) (num_iter (tokens tr)).

Definition alive_count (tr : t) : nat :=
  length (filter (fun e => CapToken.revoked e.2 = false) (num_iter (tokens tr))).
End Iter.
End CapTokenTree.

(** ** The forest of derivations *)
Module CapForest.
Import CapToken CapTokenTree.

(** [k] was derived from [p]. *)
Definition derived (tr : t) (p k : Z) : Prop := k ∈ children_of tr p.

(** What every run keeps: registered tokens are drawn, roots are the tokens
    without a parent, a derived token is listed once, under its parent, with no
    more rights and one derivation deeper. *)
Record well_formed (counter : Z) (tr : t) : Prop := {
  wf_id k tok : tokens tr !! k = Some tok -> id tok = k /\ (k < counter)%Z;
  wf_depth k tok : tokens tr !! k = Some tok -> (0 <= depth tok <= MAX_DEPTH)%Z;
  wf_root k : k ∈ roots tr <-> exists tok, tokens tr !! k = Some tok /\ parent_id tok = None;
  wf_parent k tok p : tokens tr !! k = Some tok -> parent_id tok = Some p -> derived tr p k;
  wf_child p k : derived tr p k -> exists tok parent,
    tokens tr !! k = Some tok /\ parent_id tok = Some p /\ tokens tr !! p = Some parent /\
    (p < k)%Z /\ rights tok ⊆ rights parent /\ depth tok = (depth parent + 1)%Z;
  wf_nodup p : NoDup (children_of tr p);
}.

(** The steps of one tree, and of the rest of the process, which only draws
    identifiers; the counter does not wrap. *)
Inductive step : Z * t -> Z * t -> Prop :=
| step_root l n tr : (n < u64_max)%Z -> (0 <= n)%Z ->
    step (n, tr) (create_root l (n, tr)).2
| step_derive p mask l n tr : (n < u64_max)%Z -> (0 <= n)%Z ->
    step (n, tr) (derive p mask l (n, tr)).2
| step_revoke k n tr c tr' : revoke_cascade k tr = Some (c, tr') -> step (n, tr) (n, tr')
| step_elsewhere n n' tr : (n <= n')%Z -> step (n, tr) (n', tr).

Definition reachable (s : Z * t) : Prop := exists n, (0 <= n)%Z /\ rtc step (n, new) s.

Lemma next_id n : (0 <= n < u64_max)%Z -> next_token_id n = (n + 1)%Z.
Proof. intros Hn. unfold next_token_id, u64_wrap, u64_max in *. rewrite Z.mod_small; lia. Qed.

Lemma forest_new_wf n : well_formed n new.
Proof.
  split; unfold derived, children_of; simpl; intros *; rewrite ?lookup_empty; try done.
  - rewrite elem_of_nil. split; [done|]. by intros (tok & ? & _).
  - by rewrite elem_of_nil.
  - constructor.
Qed.

Lemma well_formed_later n n' tr : (n <= n')%Z -> well_formed n tr -> well_formed n' tr.
Proof. intros Hn [Hi Hd Hr Hp Hc Hu]. split; try done. intros k tok Hk. destruct (Hi k tok Hk). split; [done|lia]. Qed.

Lemma fresh_token n tr : well_formed n tr -> tokens tr !! n = None.
Proof.
  intros Hwf. destruct (tokens tr !! n) as [tok|] eqn:E; [|done].
  destruct (wf_id _ _ Hwf n tok E). lia.
Qed.

Lemma derived_drawn n tr p k : well_formed n tr -> derived tr p k -> (p < n)%Z /\ (k < n)%Z.
Proof.
  intros Hwf Hk. destruct (wf_child _ _ Hwf p k Hk) as (tok & parent & Ht & _ & Hp & _).
  destruct (wf_id _ _ Hwf k tok Ht), (wf_id _ _ Hwf p parent Hp). lia.
Qed.

Lemma create_root_wf n tr l : (0 <= n < u64_max)%Z -> well_formed n tr ->
  well_formed (n + 1) (create_root l (n, tr)).2.2.
Proof.
  intros Hn Hwf. pose proof (fresh_token n tr Hwf) as Hf. simpl. split; simpl.
  - intros k tok [[<- <-]|[_ Hk]]%lookup_insert_Some; simpl; [lia|].
    destruct (wf_id _ _ Hwf k tok Hk). lia.
  - intros k tok [[<- <-]|[_ Hk]]%lookup_insert_Some; simpl; [unfold MAX_DEPTH; lia|]. by eapply wf_depth.
  - intros k. rewrite elem_of_app, list_elem_of_singleton, (wf_root _ _ Hwf). split.
    + intros [(tok & Ht & Hp)| ->].
      * exists tok. rewrite lookup_insert_ne by congruence. done.
      * eexists. by rewrite lookup_insert_eq.
    + intros (tok & [[<- <-]|[_ Hk]]%lookup_insert_Some & Hp); [by right|left; by exists tok].
  - intros k tok p [[<- <-]|[_ Hk]]%lookup_insert_Some Hp; [done|]. by eapply wf_parent in Hp; [|exact Hwf|].
  - intros p k Hk. destruct (wf_child _ _ Hwf p k Hk) as (tok & parent & Ht & ? & Hp & ?).
    exists tok, parent. rewrite !lookup_insert_ne by congruence. done.
  - apply (wf_nodup _ _ Hwf).
Qed.

(** What a derivation asks, and what it makes. *)
Lemma token_derive_spec fresh mask l tok :
  match CapToken.derive fresh mask l tok with
  | Some child => revoked tok = false /\ mask ⊆ rights tok /\ CapRight.Grant ∈ rights tok /\
      (depth tok < MAX_DEPTH)%Z /\
      child = {| id := fresh; rights := mask; parent_id := Some (id tok); depth := depth tok + 1;
                 revoked := false; label := l |}
  | None => revoked tok = true \/ ~ mask ⊆ rights tok \/ CapRight.Grant ∉ rights tok \/
      (MAX_DEPTH <= depth tok)%Z
  end.
Proof.
  unfold CapToken.derive, CapRights.attenuate, CapRights.has. destruct (revoked tok); [by left|].
  case_bool_decide; [|by right; left]. case_bool_decide; [|by right; right; left]. simpl.
  destruct (Z.leb_spec MAX_DEPTH (depth tok)); [by right; right; right|done].
Qed.

Lemma children_insert tr p l q ts rs :
  children_of {| tokens := ts; children := <[p := l]> (children tr); roots := rs |} q =
  if decide (p = q) then l else children_of tr q.
Proof. unfold children_of. simpl. destruct (decide (p = q)) as [->|Hn]; [by rewrite lookup_insert_eq|by rewrite lookup_insert_ne]. Qed.

Lemma derive_wf n tr p mask l : (0 <= n < u64_max)%Z -> well_formed n tr ->
  well_formed (derive p mask l (n, tr)).2.1 (derive p mask l (n, tr)).2.2.
Proof.
  intros Hn Hwf. unfold derive. destruct (tokens tr !! p) as [parent|] eqn:Hp; [|done].
  pose proof (token_derive_spec n mask l parent) as Hd.
  destruct (CapToken.derive n mask l parent) as [child|]; [|done]. simpl. rewrite next_id by lia.
  destruct Hd as (_ & Hm & _ & Hdep & ->). destruct (wf_id _ _ Hwf p parent Hp) as [Hid Hlt].
  pose proof (fresh_token n tr Hwf) as Hf. fold (children_of tr p).
  split; unfold derived; simpl.
  - intros k tok [[<- <-]|[_ Hk]]%lookup_insert_Some; simpl; [lia|]. destruct (wf_id _ _ Hwf k tok Hk). lia.
  - intros k tok [[<- <-]|[_ Hk]]%lookup_insert_Some; simpl; [|by eapply wf_depth].
    pose proof (wf_depth _ _ Hwf p parent Hp). lia.
  - intros k. rewrite (wf_root _ _ Hwf). split.
    + intros (tok & Ht & Hpar). exists tok. rewrite lookup_insert_ne by congruence. done.
    + intros (tok & [[<- <-]|[_ Hk]]%lookup_insert_Some & Hpar); [done|by exists tok].
  - intros k tok q [[<- <-]|[_ Hk]]%lookup_insert_Some Hq; rewrite children_insert; simpl in *.
    + injection Hq as <-. rewrite decide_True by done. apply elem_of_app. right. by apply list_elem_of_singleton.
    + pose proof (wf_parent _ _ Hwf k tok q Hk Hq) as Hc. destruct (decide (p = q)) as [->|]; [|done].
      apply elem_of_app. by left.
  - intros q k Hk. rewrite children_insert in Hk.
    assert (k = n /\ q = p \/ derived tr q k) as [[-> ->]|Hc].
    { destruct (decide (p = q)) as [->|]; [|by right]. apply elem_of_app in Hk as [Hk| ->%list_elem_of_singleton];
        [by right|by left]. }
    + eexists _, parent. rewrite lookup_insert_eq, lookup_insert_ne by congruence. simpl.
      by rewrite Hid.
    + destruct (wf_child _ _ Hwf q k Hc) as (tok & par & Ht & ? & Hq & ?). exists tok, par.
      rewrite !lookup_insert_ne by congruence. done.
  - intros q. rewrite children_insert. destruct (decide (p = q)) as [<-|]; [|apply (wf_nodup _ _ Hwf)].
    apply NoDup_app. split_and!; [apply (wf_nodup _ _ Hwf)| |apply NoDup_singleton].
    intros k Hk ->%list_elem_of_singleton. destruct (derived_drawn n tr p n Hwf Hk). lia.
Qed.

(** *** The walk over the descendants *)

(** What a round of the walk from [x] starts with. *)
Record walking (tr : t) (x : Z) (acc stack : list Z) : Prop := {
  wk_nodup : NoDup (acc ++ stack);
  wk_below k : k ∈ acc ++ stack -> tc (derived tr) x k;
  wk_parent k : k ∈ acc ++ stack -> exists p, (p = x \/ p ∈ acc) /\ derived tr p k;
  wk_closed p k : p = x \/ p ∈ acc -> derived tr p k -> k ∈ acc ++ stack;
}.

Section Walk.
Context (n : Z) (tr : t) (Hwf : well_formed n tr).

Lemma derived_unique p q k : derived tr p k -> derived tr q k -> p = q.
Proof using Hwf.
  intros Hp Hq. destruct (wf_child _ _ Hwf p k Hp) as (tok & ? & Ht & Hpar & _).
  destruct (wf_child _ _ Hwf q k Hq) as (tok' & ? & Ht' & Hpar' & _). congruence.
Qed.

Lemma below_later x k : tc (derived tr) x k -> (x < k)%Z.
Proof using Hwf.
  induction 1 as [x k Hk|x y k Hk _ IH].
  - by destruct (wf_child _ _ Hwf x k Hk) as (? & ? & ? & ? & ? & ? & ?).
  - destruct (wf_child _ _ Hwf x y Hk) as (? & ? & ? & ? & ? & ? & ?). lia.
Qed.

Lemma below_registered x k : tc (derived tr) x k -> is_Some (tokens tr !! k).
Proof using Hwf.
  induction 1 as [x k Hk|x y k Hk _ IH]; [|done].
  destruct (wf_child _ _ Hwf x k Hk) as (? & ? & ? & ?). eauto.
Qed.

Lemma walking_start x : walking tr x [] (rev (children_of tr x)).
Proof using Hwf.
  rewrite rev_alt. fold (reverse (children_of tr x)). split; cbn [app].
  - rewrite reverse_Permutation. apply (wf_nodup _ _ Hwf).
  - intros k. rewrite elem_of_reverse. exact (tc_once (derived tr) x k).
  - intros k. rewrite elem_of_reverse. exists x. by split; [left|].
  - intros p k [->|Hp] Hk; [by apply elem_of_reverse|by apply elem_of_nil in Hp].
Qed.

Lemma walking_step x acc stack current :
  walking tr x acc (current :: stack) ->
  walking tr x (acc ++ [current]) (rev (children_of tr current) ++ stack).
Proof using Hwf.
  intros [Hn Hb Hp Hc]. rewrite rev_alt. fold (reverse (children_of tr current)).
  assert (Hcur : current ∈ acc ++ current :: stack) by (apply elem_of_app; right; left).
  assert (Hin : forall k, k ∈ (acc ++ [current]) ++ reverse (children_of tr current) ++ stack <->
    k ∈ acc ++ current :: stack \/ derived tr current k).
  { intros k. unfold derived. rewrite !elem_of_app, elem_of_reverse, !elem_of_cons, elem_of_nil. tauto. }
  split.
  - assert (Hperm : (acc ++ [current]) ++ reverse (children_of tr current) ++ stack ≡ₚ
      reverse (children_of tr current) ++ acc ++ current :: stack) by solve_Permutation.
    rewrite Hperm. apply NoDup_app. split_and!; [rewrite reverse_Permutation; apply (wf_nodup _ _ Hwf)| |done].
    intros k Hk Hk'. rewrite elem_of_reverse in Hk. destruct (Hp k Hk') as (p & Hor & Hd).
    pose proof (derived_unique p current k Hd Hk) as ->. destruct Hor as [->|Hacc].
    + pose proof (below_later x x (Hb x Hcur)). lia.
    + apply NoDup_app in Hn as (_ & Hn & _). apply (Hn current Hacc). left.
  - intros k [Hk|Hk]%Hin; [by apply Hb|]. by eapply tc_r; [apply Hb|].
  - intros k [Hk|Hk]%Hin.
    + destruct (Hp k Hk) as (p & Hor & Hd). exists p. split; [|done]. rewrite elem_of_app. tauto.
    + exists current. split; [|done]. right. apply elem_of_app. right. by apply list_elem_of_singleton.
  - intros p k Hor Hd. apply Hin.
    rewrite elem_of_app, elem_of_cons, elem_of_nil in Hor. destruct Hor as [->|[Hacc|[->|[]]]]; [left; by eapply Hc; [left|]|left; by eapply Hc; [right|]|by right].
Qed.

Lemma walking_small x acc stack : walking tr x acc stack -> length acc + length stack <= size (tokens tr).
Proof using Hwf.
  intros [Hn Hb _ _]. rewrite <- length_app, <- size_dom, <- (size_list_to_set (C := gset Z)) by done.
  apply subseteq_size. intros k Hk%elem_of_list_to_set. apply elem_of_dom, (below_registered x), Hb, Hk.
Qed.

(** [size (tokens tr)] rounds are enough. *)
Lemma walk_ends fuel x acc stack : walking tr x acc stack -> size (tokens tr) <= fuel + length acc ->
  exists l, walk fuel tr stack acc = Some l /\ walking tr x l [].
Proof using Hwf.
  revert acc stack. induction fuel as [|fuel IH]; intros acc stack Hw Hf.
  - pose proof (walking_small _ _ _ Hw). destruct stack as [|c stack]; simpl in *; [by exists acc|lia].
  - destruct stack as [|c stack]; simpl; [by exists acc|].
    apply IH; [by apply walking_step|]. rewrite length_app. simpl. lia.
Qed.

Lemma descendants_spec x : exists l, descendants x tr = Some l /\ NoDup l /\
  forall k, k ∈ l <-> tc (derived tr) x k.
Proof using Hwf.
  destruct (walk_ends (size (tokens tr)) x [] (rev (children_of tr x)) (walking_start x)) as (l & Hl & Hw);
    [simpl; lia|].
  exists l. split; [exact Hl|]. destruct Hw as [Hn Hb _ Hc]. rewrite app_nil_r in Hn, Hb, Hc.
  split; [done|]. intros k. split; [apply Hb|].
  assert (forall y z, tc (derived tr) y z -> y = x \/ y ∈ l -> z ∈ l) as Hin.
  { induction 1 as [y z Hd|y z z' Hd _ IH]; intros Hor; [by eapply Hc|]. apply IH. right. by eapply Hc. }
  intros Hk. by eapply Hin; [|left].
Qed.

(** *** Reaching a root *)

Lemma climb_root fuel k tok p : tokens tr !! k = Some tok -> parent_id tok = Some p ->
  (depth tok <= Z.of_nat fuel)%Z -> climb fuel tr (Some p) = Some true.
Proof using Hwf.
  revert k tok p. induction fuel as [|fuel IH]; intros k tok p Hk Hp Hf;
    pose proof (wf_parent _ _ Hwf k tok p Hk Hp) as Hd;
    destruct (wf_child _ _ Hwf p k Hd) as (tok' & parent & Hk' & _ & Hpar & _ & _ & Hdep);
    pose proof (wf_depth _ _ Hwf p parent Hpar); replace tok' with tok in * by congruence; [lia|].
  simpl. case_bool_decide as Hr; [done|]. rewrite Hpar. simpl.
  destruct (parent_id parent) as [q|] eqn:Hq.
  - apply (IH p parent q Hpar Hq). lia.
  - destruct Hr. apply (wf_root _ _ Hwf). by exists parent.
Qed.

Lemma reachable_registered k : is_reachable k tr = Some (is_some (tokens tr !! k)).
Proof using Hwf.
  unfold is_reachable. destruct (tokens tr !! k) as [tok|] eqn:Hk; [|done]. simpl.
  destruct (parent_id tok) as [p|] eqn:Hp; simpl.
  - apply (climb_root 16 k tok p Hk Hp). pose proof (wf_depth _ _ Hwf k tok Hk). unfold MAX_DEPTH in *. lia.
  - rewrite bool_decide_true; [done|]. apply (wf_root _ _ Hwf). by exists tok.
Qed.

Lemma below_attenuated p k parent tok : rtc (derived tr) p k -> tokens tr !! p = Some parent ->
  tokens tr !! k = Some tok -> rights tok ⊆ rights parent.
Proof using Hwf.
  intros Hr. revert parent. induction Hr as [k|p q k Hd _ IH]; intros parent Hp Hk; [by simplify_eq|].
  destruct (wf_child _ _ Hwf p q Hd) as (tq & tp & Hq & _ & Hp' & _ & Hsub & _). simplify_eq.
  etrans; [by apply IH|done].
Qed.

Lemma attenuation_verified `{NumHashOrder, !NumHashOrderLaws} : verify_attenuation tr = [].
Proof using Hwf.
  unfold verify_attenuation.
  assert (forall e, e ∈ num_iter (tokens tr) -> violation tr e = None) as Hn.
  { intros [k tok] He. rewrite num_iter_perm, elem_of_map_to_list in He. unfold violation. simpl.
    destruct (parent_id tok) as [p|] eqn:Hp; [|done].
    destruct (wf_child _ _ Hwf p k (wf_parent _ _ Hwf k tok p He Hp)) as (? & parent & ? & _ & Hpar & _ & Hsub & _).
    simplify_eq. rewrite Hpar. unfold CapRights.is_superset_of. by rewrite bool_decide_true. }
  induction (num_iter (tokens tr)) as [|e l IH]; [done|]. simpl. rewrite Hn by left.
  apply IH. intros e' He'. apply Hn. by right.
Qed.
End Walk.

(** *** The cascade *)

(** What [revoke] does to the token [k]. *)
Definition revocable (tr : t) (k : Z) : Prop :=
  exists tok, tokens tr !! k = Some tok /\ revoked tok = false /\ CapRight.Destroy ∈ rights tok.
#[global] Instance revocable_dec tr k : Decision (revocable tr k).
Proof.
  destruct (tokens tr !! k) as [tok|] eqn:Hk.
  - destruct (decide (revoked tok = false /\ CapRight.Destroy ∈ rights tok)) as [Hy|Hn];
      [left; by exists tok|right]. intros (tok' & ? & ?). by simplify_eq.
  - right. intros (tok & ? & _). by simplify_eq.
Defined.

Lemma revoke_one_spec c tr k : revoke_one (c, tr) k =
  if decide (revocable tr k)
  then (S c, {| tokens := alter set_revoked k (tokens tr); children := children tr; roots := roots tr |})
  else (c, tr).
Proof.
  unfold revoke_one. destruct (tokens tr !! k) as [tok|] eqn:Hk.
  - unfold revoke, CapRights.has. destruct (revoked tok) eqn:Hr.
    { rewrite decide_False by (intros (tok' & ? & ? & _); congruence). rewrite insert_id by done. by destruct tr. }
    case_bool_decide as Hd; simpl.
    + rewrite decide_True by (by exists tok). do 2 f_equal. apply map_eq. intros j.
      destruct (decide (k = j)) as [<-|Hn]; [by rewrite lookup_insert_eq, lookup_alter_eq, Hk|].
      by rewrite lookup_insert_ne, lookup_alter_ne.
    + rewrite decide_False by (intros (tok' & ? & _ & ?); congruence). rewrite insert_id by done. by destruct tr.
  - rewrite decide_False; [done|]. intros (tok & ? & _). congruence.
Qed.

#[local] Arguments revoke_one : simpl never.

(** [tr'] is [tr] with the tokens of [l] revoked. *)
Definition without (tr : t) (l : list Z) (tr' : t) : Prop :=
  children tr' = children tr /\ roots tr' = roots tr /\
  forall k, tokens tr' !! k = if decide (k ∈ l) then set_revoked <$> tokens tr !! k else tokens tr !! k.

Lemma fold_revoke l c tr : NoDup l -> exists tr',
  fold_left revoke_one l (c, tr) = (c + length (filter (revocable tr) l), tr') /\
  without tr (filter (revocable tr) l) tr'.
Proof.
  revert c tr. induction l as [|k l IH]; intros c tr Hn; simpl.
  { exists tr. rewrite Nat.add_0_r. split; [done|]. split_and!; [done..|]. intros j.
    by rewrite decide_False by apply not_elem_of_nil. }
  apply NoDup_cons in Hn as [Hkl Hn]. rewrite revoke_one_spec, filter_cons.
  destruct (decide (revocable tr k)) as [Hr|Hr]; [|by apply IH].
  set (tr1 := {| tokens := _; children := _; roots := _ |}).
  destruct (IH (S c) tr1 Hn) as (tr' & He & Hc & Hrt & Ht).
  assert (Hf : filter (revocable tr1) l = filter (revocable tr) l).
  { apply filter_iff_in. intros j Hj. unfold revocable, tr1. simpl.
    by rewrite lookup_alter_ne by (intros ->; done). }
  rewrite Hf in He, Ht. exists tr'. rewrite He. split; [f_equal; simpl; lia|].
  split_and!; [done..|]. intros j. rewrite Ht. unfold tr1. simpl. destruct (decide (j = k)) as [->|Hj].
  - rewrite lookup_alter_eq, decide_False, decide_True; [done|by left|].
    rewrite list_elem_of_filter. tauto.
  - rewrite lookup_alter_ne by done. apply decide_ext. rewrite elem_of_cons. tauto.
Qed.

(** What a cascade from [x] revokes. *)
Definition cascaded (tr : t) (x : Z) (l : list Z) : Prop :=
  NoDup l /\ forall k, k ∈ l <-> rtc (derived tr) x k /\ revocable tr k.

Lemma revoke_cascade_spec n tr x : well_formed n tr -> exists l tr',
  revoke_cascade x tr = Some (length l, tr') /\ cascaded tr x l /\ without tr l tr'.
Proof.
  intros Hwf. unfold revoke_cascade. destruct (descendants_spec n tr Hwf x) as (l & -> & Hn & Hl).
  assert (Hx : x ∉ l). { intros Hx%Hl. pose proof (below_later n tr Hwf x x Hx). lia. }
  assert (Hn' : NoDup (l ++ [x])).
  { apply NoDup_app. split_and!; [done| |apply NoDup_singleton]. by intros k Hk ->%list_elem_of_singleton. }
  destruct (fold_revoke (l ++ [x]) 0 tr Hn') as (tr' & He & Hw). rewrite fold_left_app in He. simpl in He.
  exists (filter (revocable tr) (l ++ [x])), tr'. rewrite He. split_and!; [done| |done].
  split; [by apply NoDup_filter|]. intros k.
  rewrite list_elem_of_filter, elem_of_app, list_elem_of_singleton, Hl.
  rewrite rtc_tc. naive_solver.
Qed.

Lemma without_same tr l tr' k tok : without tr l tr' -> tokens tr' !! k = Some tok ->
  exists tok0, tokens tr !! k = Some tok0 /\ id tok = id tok0 /\ rights tok = rights tok0 /\
    parent_id tok = parent_id tok0 /\ depth tok = depth tok0.
Proof.
  intros (_ & _ & Ht) Hk. rewrite Ht in Hk. destruct (decide (k ∈ l)); [|by exists tok].
  destruct (tokens tr !! k) as [tok0|]; [|done]. injection Hk as <-. by exists tok0.
Qed.

Lemma without_kept tr l tr' k tok : without tr l tr' -> tokens tr !! k = Some tok ->
  exists tok', tokens tr' !! k = Some tok' /\ rights tok' = rights tok /\ parent_id tok' = parent_id tok /\
    depth tok' = depth tok.
Proof.
  intros (_ & _ & Ht) Hk. rewrite Ht, Hk. destruct (decide (k ∈ l)); [by exists (set_revoked tok)|by exists tok].
Qed.

Lemma without_wf n tr l tr' : well_formed n tr -> without tr l tr' -> well_formed n tr'.
Proof.
  intros Hwf Hw. pose proof Hw as (Hc & Hr & _).
  assert (Hd : forall p, children_of tr' p = children_of tr p) by (intros p; unfold children_of; by rewrite Hc).
  split; unfold derived.
  - intros k tok Hk. destruct (without_same _ _ _ _ _ Hw Hk) as (tok0 & Hk0 & -> & _). by apply (wf_id _ _ Hwf).
  - intros k tok Hk. destruct (without_same _ _ _ _ _ Hw Hk) as (tok0 & Hk0 & _ & _ & _ & ->).
    by apply (wf_depth _ _ Hwf k).
  - intros k. rewrite Hr, (wf_root _ _ Hwf). split; intros (tok & Hk & Hp).
    + destruct (without_kept _ _ _ _ _ Hw Hk) as (tok' & Hk' & _ & Hp' & _). exists tok'. by rewrite Hp'.
    + destruct (without_same _ _ _ _ _ Hw Hk) as (tok0 & Hk0 & _ & _ & Hp' & _). exists tok0. by rewrite <- Hp'.
  - intros k tok p Hk Hp. destruct (without_same _ _ _ _ _ Hw Hk) as (tok0 & Hk0 & _ & _ & Hp' & _).
    rewrite Hd. apply (wf_parent _ _ Hwf k tok0); congruence.
  - intros p k. rewrite Hd. intros Hk.
    destruct (wf_child _ _ Hwf p k Hk) as (tok & parent & Ht & Hp & Hpar & Hlt & Hsub & Hdep).
    destruct (without_kept _ _ _ _ _ Hw Ht) as (tok' & Ht' & Hr1 & Hp1 & Hd1).
    destruct (without_kept _ _ _ _ _ Hw Hpar) as (parent' & Hpar' & Hr2 & Hp2 & Hd2).
    exists tok', parent'. split_and!; [done|congruence|done|done|by rewrite Hr1, Hr2|congruence].
  - intros p. rewrite Hd. apply (wf_nodup _ _ Hwf).
Qed.

Lemma forest_step_wf s s' : step s s' -> well_formed s.1 s.2 -> well_formed s'.1 s'.2.
Proof.
  intros [l n tr Hn H0|p mask l n tr Hn H0|k n tr c tr' He|n n' tr Hn] Hwf; simpl in *.
  - rewrite next_id by lia. by apply create_root_wf.
  - by apply derive_wf.
  - destruct (revoke_cascade_spec n tr k Hwf) as (l & tr'' & He' & _ & Hw). simplify_eq. by eapply without_wf.
  - by eapply well_formed_later.
Qed.

Lemma forest_reachable_wf s : reachable s -> well_formed s.1 s.2.
Proof.
  intros (n & _ & Hr). apply (rtc_invariant step (fun s => well_formed s.1 s.2) (n, new)); [|apply forest_new_wf|done].
  intros a b Hs. by apply forest_step_wf.
Qed.

(** *** Histories *)

(** What may become of a token. *)
Definition aged (tok tok' : CapToken.t) : Prop :=
  tok' = tok \/ (tok' = set_revoked tok /\ CapRight.Destroy ∈ rights tok).

Lemma step_ages s s' k tok : step s s' -> well_formed s.1 s.2 -> tokens s.2 !! k = Some tok ->
  exists tok', tokens s'.2 !! k = Some tok' /\ aged tok tok'.
Proof.
  intros [l n tr Hn H0|p mask l n tr Hn H0|x n tr c tr' He|n n' tr Hn] Hwf Hk; simpl in *.
  - exists tok. pose proof (fresh_token _ _ Hwf). rewrite lookup_insert_ne by congruence. by split; [|left].
  - destruct (tokens tr !! p) as [parent|]; [|by exists tok; split; [|left]].
    destruct (CapToken.derive n mask l parent); [|by exists tok; split; [|left]].
    pose proof (fresh_token _ _ Hwf). exists tok. simpl. rewrite lookup_insert_ne by congruence. by split; [|left].
  - destruct (revoke_cascade_spec n tr x Hwf) as (l & tr'' & He' & [_ Hl] & _ & _ & Ht). simplify_eq.
    rewrite Ht, Hk. destruct (decide (k ∈ l)) as [Hin|]; [|by exists tok; split; [|left]].
    apply Hl in Hin as [_ (tok' & Hk' & _ & Hd)]. simplify_eq. exists (set_revoked tok). split; [done|by right].
  - exists tok. by split; [|left].
Qed.

Lemma aged_later tok tok' tok'' : aged tok tok' -> aged tok' tok'' -> aged tok tok''.
Proof. unfold aged. intros [->|[-> ?]] [->|[-> ?]]; simpl in *; tauto. Qed.

Lemma history s s' k tok : well_formed s.1 s.2 -> rtc step s s' -> tokens s.2 !! k = Some tok ->
  exists tok', tokens s'.2 !! k = Some tok' /\ aged tok tok'.
Proof.
  intros Hwf Hr. revert tok Hwf. induction Hr as [s|s s1 s' Hs _ IH]; intros tok Hwf Hk; [by exists tok; split; [|left]|].
  destruct (step_ages s s1 k tok Hs Hwf Hk) as (tok1 & Hk1 & Ha).
  destruct (IH tok1 (forest_step_wf _ _ Hs Hwf) Hk1) as (tok' & Hk' & Ha'). exists tok'. split; [done|by eapply aged_later].
Qed.

(** ** Theorems *)

(** C25: no token is forged and no right is gained: at any time every registered token
    is reachable from a root, its rights are within those of every token it was
    derived from, directly or not, the derivation is at most sixteen steps long,
    and the check of the whole tree finds nothing; an unknown identifier is not
    reachable.  The walk up to the root ends within sixteen rounds. *)
Theorem cap_tree_sound `{NumHashOrder, !NumHashOrderLaws} n tr :
  reachable (n, tr) ->
  verify_attenuation tr = [] /\
  (forall k, is_reachable k tr = Some (is_some (tokens tr !! k))) /\
  (forall p k parent tok, rtc (derived tr) p k -> tokens tr !! p = Some parent -> tokens tr !! k = Some tok ->
     rights tok ⊆ rights parent) /\
  (forall k tok, tokens tr !! k = Some tok -> (0 <= depth tok <= MAX_DEPTH)%Z).
Proof.
  intros Hwf%forest_reachable_wf. simpl in Hwf. split_and!.
  - by apply (attenuation_verified n).
  - intros k. by apply (reachable_registered n).
  - intros *. by apply (below_attenuated n).
  - by apply (wf_depth _ _ Hwf).
Qed.

Lemma and_iff_compat_l_pos (P Q R : Prop) : (P -> (Q <-> R)) -> (P /\ Q) <-> (P /\ R).
Proof. tauto. Qed.

(** Among tokens with the [Destroy] right those that can be revoked are the living. *)
Lemma living tr k : (forall tok, tokens tr !! k = Some tok -> CapRight.Destroy ∈ rights tok) ->
  (exists tok, tokens tr !! k = Some tok /\ revoked tok = false /\ CapRight.Destroy ∈ rights tok) <->
  (is_alive <$> tokens tr !! k) = Some true.
Proof.
  intros Hd. destruct (tokens tr !! k) as [tok|]; cbn; [|naive_solver]. unfold is_alive.
  destruct (revoked tok) eqn:E; cbn; split.
  - by intros (x & [= <-] & Hr & _); congruence.
  - done.
  - done.
  - intros _. exists tok. by auto.
Qed.

Lemma below_or_same n tr x k target : well_formed n tr -> tokens tr !! x = Some target ->
  rtc (derived tr) x k -> is_Some (tokens tr !! k).
Proof.
  intros Hwf Hx [<-|Hk]%rtc_tc; [by eexists|]. by apply (below_registered n tr Hwf x k).
Qed.

(** C24: revoking a living token whose descendants, like itself, carry the
    [Destroy] right ends and leaves it and everything derived from it, however
    far, revoked; the answer counts the tokens it revoked, the target among them
    and those already revoked not, and nothing else changes. *)
Theorem revoke_cascade_exact n tr x target :
  reachable (n, tr) -> tokens tr !! x = Some target -> is_alive target = true ->
  (forall k tok, rtc (derived tr) x k -> tokens tr !! k = Some tok -> CapRight.Destroy ∈ rights tok) ->
  exists l tr', revoke_cascade x tr = Some (length l, tr') /\ NoDup l /\ x ∈ l /\
    (forall k, k ∈ l <-> rtc (derived tr) x k /\ (is_alive <$> tokens tr !! k) = Some true) /\
    (forall k, rtc (derived tr) x k -> (is_alive <$> tokens tr' !! k) = Some false) /\
    children tr' = children tr /\ roots tr' = roots tr /\
    forall k, tokens tr' !! k = if decide (k ∈ l) then set_revoked <$> tokens tr !! k else tokens tr !! k.
Proof.
  intros Hwf%forest_reachable_wf Hx Ha Hd.
  destruct (revoke_cascade_spec n tr x Hwf) as (l & tr' & He & [Hn Hl] & (Hc & Hr & Ht)).
  assert (forall k, k ∈ l <-> rtc (derived tr) x k /\ (is_alive <$> tokens tr !! k) = Some true) as Hin.
  { intros k. rewrite Hl. apply and_iff_compat_l_pos. intros Hk.
    apply living. intros tok Htok. by apply (Hd k). }
  exists l, tr'. split_and!; try done.
  - apply Hin. split; [apply rtc_refl|]. by rewrite Hx; cbn; rewrite Ha.
  - intros k Hk. rewrite Ht. destruct (below_or_same n tr x k target Hwf Hx Hk) as [tok Htok].
    pose proof (Hin k) as Hik. rewrite Htok in Hik |- *. unfold is_alive in *.
    case_decide as Hm; [done|]. destruct (revoked tok) eqn:E; cbn; [by rewrite E|]. exfalso.
    apply Hm, Hik. split; [done|]. cbn. by rewrite E.
Qed.

(** Tokens stay: their rights, parent and label never change, a revoked token is
    revoked for good, and a token without the [Destroy] right is never revoked,
    whatever is revoked above it. *)
Theorem token_history s s' k tok :
  reachable s -> rtc step s s' -> tokens s.2 !! k = Some tok ->
  exists tok', tokens s'.2 !! k = Some tok' /\ (tok' = tok \/ tok' = set_revoked tok) /\
    (revoked tok = true -> tok' = tok) /\ (CapRight.Destroy ∉ rights tok -> tok' = tok).
Proof.
  intros Hwf%forest_reachable_wf Hr Hk. destruct (history s s' k tok Hwf Hr Hk) as (tok' & Hk' & Ha).
  exists tok'. split; [done|]. destruct Ha as [->|[-> Hd]]; split_and!; try tauto.
  intros Hrev. destruct tok; simpl in *. by rewrite Hrev.
Qed.
End CapForest.

(** ** The theorems at work *)
Module CapDemo.
Import CapToken CapTokenTree CapForest.

#[local] Instance demo_num_order : NumHashOrder := {| num_iter _ m := map_to_list m |}.
#[local] Instance demo_num_laws : NumHashOrderLaws.
Proof. by split. Qed.

(** The root 1, the token 2 derived from it with every right, and the token 3
    derived from 2 with none. *)
Definition demo_root : Z * CapTokenTree.t := (create_root "root" (1%Z, new)).2.
Definition demo_child : Z * CapTokenTree.t := (CapTokenTree.derive 1 CapRights.full "child" demo_root).2.
Definition demo_tree : Z * CapTokenTree.t := (CapTokenTree.derive 2 CapRights.empty "leaf" demo_child).2.

Lemma cap_demo_reachable : reachable demo_tree.
Proof.
  exists 1%Z. split; [lia|].
  eapply rtc_l; [exact (step_root "root" 1 new ltac:(by vm_compute) ltac:(by vm_compute))|].
  eapply rtc_l; [exact (step_derive 1 CapRights.full "child" demo_root.1 demo_root.2 ltac:(by vm_compute) ltac:(by vm_compute))|].
  eapply rtc_l; [exact (step_derive 2 CapRights.empty "leaf" demo_child.1 demo_child.2 ltac:(by vm_compute) ltac:(by vm_compute))|].
  apply rtc_refl.
Qed.

Definition demo_token (id : Z) : option CapToken.t := tokens demo_tree.2 !! id.

Lemma cap_tree_sound_witness :
  verify_attenuation demo_tree.2 = [] /\ is_reachable 3 demo_tree.2 = Some true /\ is_reachable 4 demo_tree.2 = Some false.
Proof.
  destruct (cap_tree_sound demo_tree.1 demo_tree.2 cap_demo_reachable) as (Hv & Hr & _ & _).
  split; [exact Hv|]. rewrite !Hr. split; vm_compute; reflexivity.
Defined.

(** The same tree with a leaf that carries every right. *)
Definition full_tree : Z * CapTokenTree.t := (CapTokenTree.derive 2 CapRights.full "leaf" demo_child).2.
Lemma full_tree_reachable : reachable full_tree.
Proof.
  exists 1%Z. split; [lia|].
  eapply rtc_l; [exact (step_root "root" 1 new ltac:(by vm_compute) ltac:(by vm_compute))|].
  eapply rtc_l; [exact (step_derive 1 CapRights.full "child" demo_root.1 demo_root.2 ltac:(by vm_compute) ltac:(by vm_compute))|].
  eapply rtc_l; [exact (step_derive 2 CapRights.full "leaf" demo_child.1 demo_child.2 ltac:(by vm_compute) ltac:(by vm_compute))|].
  apply rtc_refl.
Qed.

(** The child and the leaf are revoked, the root is not. *)
Lemma revoke_cascade_exact_witness : exists (l : list Z) tr',
  revoke_cascade 2 full_tree.2 = Some (length l, tr') /\ length l = 2 /\ 2%Z ∈ l /\
  (is_alive <$> tokens tr' !! 3%Z) = Some false /\ (is_alive <$> tokens tr' !! 1%Z) = Some true.
Proof.
  assert (exists target, tokens full_tree.2 !! 2%Z = Some target /\ is_alive target = true) as (target & Ht & Ha)
    by (eexists; split; vm_compute; reflexivity).
  destruct (revoke_cascade_exact full_tree.1 full_tree.2 2 target full_tree_reachable Ht Ha)
    as (l & tr' & He & _ & Hx & _).
  - assert (bool_decide (map_Forall (fun _ tok => CapRight.Destroy ∈ rights tok) (tokens full_tree.2)) = true) as Hf
      by (vm_compute; reflexivity).
    apply bool_decide_eq_true in Hf. intros k tok _ Hk. exact (Hf k tok Hk).
  - exists l, tr'. split; [exact He|].
    assert (exists tr1, revoke_cascade 2 full_tree.2 = Some (2, tr1) /\
      (is_alive <$> tokens tr1 !! 3%Z) = Some false /\ (is_alive <$> tokens tr1 !! 1%Z) = Some true)
      as (tr1 & E & H3 & H1) by (eexists; split; [vm_compute; reflexivity|split; vm_compute; reflexivity]).
    rewrite E in He. injection He as Hlen <-. auto.
Defined.

Lemma token_history_witness : forall s', rtc step demo_tree s' ->
  (revoked <$> tokens s'.2 !! 3%Z) = Some false.
Proof.
  intros s' Hr. assert (exists tok, tokens demo_tree.2 !! 3%Z = Some tok /\ (CapRight.Destroy ∉ rights tok) /\
    revoked tok = false) as (tok & Ht & Hd & Hrev).
  { eexists. split; [vm_compute; reflexivity|].
    split; [apply not_elem_of_empty|reflexivity]. }
  destruct (token_history demo_tree s' 3 tok cap_demo_reachable Hr Ht) as (tok' & -> & _ & _ & Hkeep).
  rewrite (Hkeep Hd). simpl. by rewrite Hrev.
Defined.

(** Revoking a token leaves a token derived from it alive, for good: the leaf
    carries no [Destroy] right. *)
Theorem revocation_spares_the_leaf :
  reachable demo_tree /\ tc (derived demo_tree.2) 1%Z 3%Z /\
  exists tr', revoke_cascade 1 demo_tree.2 = Some (2, tr') /\
    (is_alive <$> tokens tr' !! 3%Z) = Some true.
Proof.
  split; [apply cap_demo_reachable|]. split.
  - eapply tc_l; [|apply tc_once]; unfold derived; [instantiate (1 := 2%Z)|];
      apply (bool_decide_unpack _); vm_compute; exact I.
  - eexists. split; vm_compute; reflexivity.
Qed.
End CapDemo.
