(* ===== verification/CapsuleRollback.v ===== *)
(** * Snapshots and rollback of capsules ([snapshot.rs], [rollback_engine.rs])

    [SnapshotStore] keeps the snapshots of every capsule, oldest first, under
    identifiers of its own; [RollbackEngine] counts failures over a store and
    decides when a capsule goes back to its latest snapshot.  The theorems
    about the engine are about its history: [RollbackLog] computes from the
    events alone what the engine tracks, and when a rollback is due. *)
From stdpp Require Import gmap sorting.
From S2P Require Import Prelude CapTokens.

Abbreviation CapsuleId := Z (only parsing).

(** ** Snapshots *)
Module SnapshotPayload.
Inductive t : Type :=
| CapsuleState (data mime : string)
| Metadata (namespace_bindings : list string) (capability_ids : list Z) (rights_snapshot : option CapRights.t)
| Delta (base_snapshot_id : Z) (delta : string).
End SnapshotPayload.

Module CapsuleSnapshot.
Record t : Type := {
  id : Z;
  capsule_id : CapsuleId;
  label : string;
  frozen_at : Z;
  payload : SnapshotPayload.t;
}.

Definition is_full_state (s : t) : bool :=
  match payload s with SnapshotPayload.CapsuleState _ _ => true | _ => false end.
Definition is_delta (s : t) : bool :=
  match payload s with SnapshotPayload.Delta _ _ => true | _ => false end.
End CapsuleSnapshot.

(** [impl Display for SnapshotId]. *)
Definition snapshot_id_display (id : Z) : string := "snap-" +:+ pretty (Z.to_N id).

(** ** The store *)
Module SnapshotStore.
Import CapsuleSnapshot.

Record t : Type := {
  snapshots : gmap CapsuleId (list CapsuleSnapshot.t);
  next_id : Z;
}.

Definition new : t := {| snapshots := ∅; next_id := 1 |}.

Definition list_ (c : CapsuleId) (st : t) : list CapsuleSnapshot.t := default [] (snapshots st !! c).

Definition freeze (c : CapsuleId) (label : string) (frozen_at : Z) (payload : SnapshotPayload.t) (st : t)
    : CapsuleSnapshot.t * t :=
  let snapshot := {| id := next_id st; capsule_id := c; label := label; frozen_at := frozen_at;
                     payload := payload |} in
  (snapshot, {| snapshots := <[c := list_ c st ++ [snapshot]]> (snapshots st);
                next_id := u64_wrap (next_id st + 1) |}).

Definition latest (c : CapsuleId) (st : t) : option CapsuleSnapshot.t :=
  snapshots st !! c ≫= last.
Definition earliest (c : CapsuleId) (st : t) : option CapsuleSnapshot.t :=
  snapshots st !! c ≫= head.

Definition delete_all_for_capsule (c : CapsuleId) (st : t) : nat * t :=
  (from_option length 0 (snapshots st !! c),
   {| snapshots := delete c (snapshots st); next_id := next_id st |}).

Definition is_empty (st : t) : bool := bool_decide (snapshots st = ∅).
Definition capsule_count (st : t) : nat := size (snapshots st).

Definition has_id (i : Z) (s : CapsuleSnapshot.t) : bool := (id s =? i)%Z.

(** [position] and [remove]: the list without its first snapshot [i]. *)
Fixpoint remove_first (i : Z) (l : list CapsuleSnapshot.t) : option (list CapsuleSnapshot.t) :=
  match l with
  | [] => None
  | s :: l => if has_id i s then Some l else cons s <$> remove_first i l
  end.

Section Iter.
Context `{NumHashOrder}.

Definition get (i : Z) (st : t) : option CapsuleSnapshot.t :=
  iter_find (has_id i) (concat (num_iter (snapshots st)).*2).

(** [for (_, snaps) in self.snapshots.iter_mut()]. *)
Fixpoint delete_in (i : Z) (entries : list (CapsuleId * list CapsuleSnapshot.t)) (st : t) : bool * t :=
  match entries with
  | [] => (false, st)
  | (c, snaps) :: entries =>
      match remove_first i snaps with
      | Some snaps => (true, {| snapshots := <[c := snaps]> (snapshots st); next_id := next_id st |})
      | None => delete_in i entries st
      end
  end.
Definition delete_snapshot (i : Z) (st : t) : bool * t := delete_in i (num_iter (snapshots st)) st.

Definition total_snapshot_count (st : t) : nat := sum_list (length <$> (num_iter (snapshots st)).*2).
End Iter.
End SnapshotStore.

(** ** The engine *)
Module RollbackPolicy.
Record t : Type := {
  failure_threshold : Z;
  cooldown_seconds : Z;
  max_depth : Z;
}.
Definition default : t := {| failure_threshold := 3; cooldown_seconds := 60; max_depth := 5 |}.
Definition permissive : t := {| failure_threshold := 1; cooldown_seconds := 0; max_depth := u32_max |}.
End RollbackPolicy.

Module RollbackDecision.
Inductive t : Type :=
| Rollback (id : Z)
| NoAction
| ThresholdNotReached
| NoSnapshotAvailable.
End RollbackDecision.

Module RollbackResult.
Record t : Type := {
  applied_snapshot_id : Z;
  new_snapshot : CapsuleSnapshot.t;
  timestamp : Z;
}.
End RollbackResult.

Module RollbackEngine.
Import RollbackPolicy(failure_threshold, cooldown_seconds, max_depth).

Record t : Type := {
  snapshot_store : SnapshotStore.t;
  failure_counts : gmap CapsuleId Z;
  last_rollback : gmap CapsuleId Z;
  rollback_depth : gmap CapsuleId Z;
  policy : RollbackPolicy.t;
}.

Definition with_store (store : SnapshotStore.t) : t :=
  {| snapshot_store := store; failure_counts := ∅; last_rollback := ∅; rollback_depth := ∅;
     policy := RollbackPolicy.default |}.
Definition new : t := with_store SnapshotStore.new.

Definition set_policy (p : RollbackPolicy.t) (e : t) : t :=
  {| snapshot_store := snapshot_store e; failure_counts := failure_counts e;
     last_rollback := last_rollback e; rollback_depth := rollback_depth e; policy := p |}.

Definition failure_count (c : CapsuleId) (e : t) : Z := default 0%Z (failure_counts e !! c).
Definition rollback_depth_for (c : CapsuleId) (e : t) : Z := default 0%Z (rollback_depth e !! c).
Definition last_rollback_at (c : CapsuleId) (e : t) : option Z := last_rollback e !! c.

Definition set_failures (c : CapsuleId) (n : Z) (e : t) : t :=
  {| snapshot_store := snapshot_store e; failure_counts := <[c := n]> (failure_counts e);
     last_rollback := last_rollback e; rollback_depth := rollback_depth e; policy := policy e |}.

(** The tests of the cooldown and of the depth have empty branches. *)
Definition should_rollback (c : CapsuleId) (e : t) : RollbackDecision.t :=
  if (failure_count c e <? failure_threshold (policy e))%Z then RollbackDecision.ThresholdNotReached
  else match SnapshotStore.latest c (snapshot_store e) with
       | Some snap => RollbackDecision.Rollback (CapsuleSnapshot.id snap)
       | None => RollbackDecision.NoSnapshotAvailable
       end.

Definition record_failure (c : CapsuleId) (e : t) : RollbackDecision.t * t :=
  let e := set_failures c (u32_saturating_add (failure_count c e) 1) e in
  (should_rollback c e, e).

Definition record_success (c : CapsuleId) (e : t) : t := set_failures c 0 e.

Definition cooling (c : CapsuleId) (now : Z) (e : t) : bool :=
  match last_rollback e !! c with
  | Some last_ts => (now <? u64_saturating_add last_ts (cooldown_seconds (policy e)))%Z
  | None => false
  end.

Definition should_rollback_at (c : CapsuleId) (now : Z) (e : t) : RollbackDecision.t :=
  if (failure_count c e <? failure_threshold (policy e))%Z then RollbackDecision.ThresholdNotReached
  else if cooling c now e then RollbackDecision.NoAction
  else if (max_depth (policy e) <=? rollback_depth_for c e)%Z then RollbackDecision.NoAction
  else match SnapshotStore.latest c (snapshot_store e) with
       | Some snap => RollbackDecision.Rollback (CapsuleSnapshot.id snap)
       | None => RollbackDecision.NoSnapshotAvailable
       end.

Definition trace_payload : SnapshotPayload.t :=
  SnapshotPayload.CapsuleState "" "application/aios-rollback-trace".

Definition execute_rollback (c : CapsuleId) (now : Z) (e : t) : result string RollbackResult.t * t :=
  match SnapshotStore.latest c (snapshot_store e) with
  | None => (Err "no snapshot available for capsule", e)
  | Some latest =>
      let applied_id := CapsuleSnapshot.id latest in
      let '(new_snapshot, store) :=
        SnapshotStore.freeze c ("rollback-from-" +:+ snapshot_id_display applied_id) now trace_payload
          (snapshot_store e) in
      (Ok {| RollbackResult.applied_snapshot_id := applied_id; RollbackResult.new_snapshot := new_snapshot;
             RollbackResult.timestamp := now |},
       {| snapshot_store := store; failure_counts := <[c := 0%Z]> (failure_counts e);
          last_rollback := <[c := now]> (last_rollback e);
          rollback_depth := <[c := u32_saturating_add (rollback_depth_for c e) 1]> (rollback_depth e);
          policy := policy e |})
  end.

Definition reset_capsule (c : CapsuleId) (e : t) : t :=
  {| snapshot_store := snapshot_store e; failure_counts := delete c (failure_counts e);
     last_rollback := delete c (last_rollback e); rollback_depth := delete c (rollback_depth e);
     policy := policy e |}.

Definition degraded_capsule_count `{NumHashOrder} (e : t) : nat :=
  length (filter (fun n => (0 < n)%Z) (num_iter (failure_counts e)).*2).
End RollbackEngine.

(** ** What a store promises *)
Module SnapshotSound.
Import CapsuleSnapshot SnapshotStore.

(** Every snapshot is kept under its capsule, oldest first, and has its own identifier. *)
Record well_formed (st : t) : Prop := {
  wf_next : (0 <= next_id st)%Z;
  wf_stored c s : s ∈ list_ c st -> capsule_id s = c /\ (id s < next_id st)%Z;
  wf_sorted c : StronglySorted (fun a b => id a < id b)%Z (list_ c st);
  wf_unique c c' s s' : s ∈ list_ c st -> s' ∈ list_ c' st -> id s = id s' -> s = s';
}.

(** The operations; identifiers do not wrap around. *)
Inductive step `{NumHashOrder} : t -> t -> Prop :=
| step_freeze c l ts p st : (next_id st < u64_max)%Z -> step st (freeze c l ts p st).2
| step_delete i st : step st (delete_snapshot i st).2
| step_delete_all c st : step st (delete_all_for_capsule c st).2.

Definition reachable `{NumHashOrder} : t -> Prop := rtc step new.

Lemma store_new_wf : well_formed new.
Proof.
  assert (forall c, list_ c new = []) as Hl by done.
  split; [done|..]; intros *; rewrite ?Hl; [by intros ?%elem_of_nil|constructor|by intros ?%elem_of_nil].
Qed.

Lemma next_snapshot_id st : well_formed st -> (next_id st < u64_max)%Z -> u64_wrap (next_id st + 1) = (next_id st + 1)%Z.
Proof. intros Hwf Hn. pose proof (wf_next _ Hwf). unfold u64_wrap, u64_max in *. rewrite Z.mod_small; lia. Qed.

Lemma list_insert c l st n c' :
  list_ c' {| snapshots := <[c := l]> (snapshots st); next_id := n |} = if decide (c = c') then l else list_ c' st.
Proof.
  unfold list_. simpl. destruct (decide (c = c')) as [<-|]; [by rewrite lookup_insert_eq|by rewrite lookup_insert_ne].
Qed.

Lemma StronglySorted_snoc {A} (R : relation A) l x :
  StronglySorted R l -> (forall y, y ∈ l -> R y x) -> StronglySorted R (l ++ [x]).
Proof.
  induction 1 as [|y l Hs IH Hy]; intros Hx; simpl; [repeat constructor|].
  constructor; [apply IH; intros z Hz; apply Hx; by right|].
  apply Forall_app. split; [done|]. constructor; [apply Hx; by left|done].
Qed.

Lemma freeze_wf c l ts p st : well_formed st -> (next_id st < u64_max)%Z -> well_formed (freeze c l ts p st).2.
Proof.
  intros Hwf Hn. unfold freeze. simpl. rewrite next_snapshot_id by done.
  set (s0 := {| id := next_id st; capsule_id := c; label := l; frozen_at := ts; payload := p |}).
  assert (forall c' s, s ∈ (if decide (c = c') then list_ c st ++ [s0] else list_ c' st) ->
    s ∈ list_ c' st \/ (s = s0 /\ c' = c)) as Hin.
  { intros c' s. destruct (decide (c = c')) as [<-|]; [|by left].
    rewrite elem_of_app, list_elem_of_singleton. tauto. }
  split; [pose proof (wf_next _ Hwf); simpl; lia|..]; intros *; rewrite ?list_insert; simpl.
  - intros [Hs|[-> ->]]%Hin; [|split; [done|simpl; lia]].
    destruct (wf_stored _ Hwf _ _ Hs). split; [done|lia].
  - destruct (decide (c = c0)); [|apply (wf_sorted _ Hwf)].
    apply StronglySorted_snoc; [apply (wf_sorted _ Hwf)|].
    intros s Hs. destruct (wf_stored _ Hwf _ _ Hs). simpl. lia.
  - intros [Hs|[-> ->]]%Hin [Hs'|[-> ->]]%Hin He; [by eapply wf_unique| | |done];
      [destruct (wf_stored _ Hwf _ _ Hs)|destruct (wf_stored _ Hwf _ _ Hs')]; simpl in He; lia.
Qed.

(** Every list of [st'] is a sublist of that of [st]. *)
Lemma shrink_wf st st' : well_formed st -> next_id st' = next_id st ->
  (forall c, sublist (list_ c st') (list_ c st)) -> well_formed st'.
Proof.
  intros Hwf Hn Hsub. assert (forall c s, s ∈ list_ c st' -> s ∈ list_ c st) as Hin.
  { intros c s. apply sublist_subseteq, Hsub. }
  split; rewrite ?Hn; [apply (wf_next _ Hwf)|..].
  - intros c s Hs%Hin. by apply (wf_stored _ Hwf).
  - intros c. specialize (Hsub c). pose proof (wf_sorted _ Hwf c) as Hs. revert Hs.
    induction Hsub as [|x l1 l2 Hs IH|x l1 l2 Hs IH]; intros Hst; [constructor| |].
    + apply StronglySorted_inv in Hst as [Hst Hf]. constructor; [by apply IH|].
      rewrite Forall_forall in *. intros y Hy. by eapply Hf, elem_of_sublist.
    + apply StronglySorted_inv in Hst as [Hst _]. by apply IH.
  - intros c c' s s' Hs%Hin Hs'%Hin. by apply (wf_unique _ Hwf c c').
Qed.

Lemma has_id_true i s : has_id i s = true <-> id s = i.
Proof. apply Z.eqb_eq. Qed.

Lemma remove_first_spec i l : StronglySorted (fun a b => id a < id b)%Z l ->
  match remove_first i l with
  | Some l' => (exists s, s ∈ l /\ id s = i) /\ l' = filter (fun s => id s <> i) l
  | None => forall s, s ∈ l -> id s <> i
  end.
Proof.
  induction 1 as [|s l Hs IH Hl]; simpl; [by intros s ?%elem_of_nil|]. rewrite filter_cons.
  destruct (has_id i s) eqn:E.
  - apply has_id_true in E. split; [exists s; split; [by left|done]|]. rewrite decide_False by tauto.
    symmetry. rewrite Forall_forall in Hl. apply filter_all. intros s' Hs'. specialize (Hl s' Hs'). lia.
  - assert (id s <> i) as Hne by (intros ?%has_id_true; congruence). rewrite decide_True by done.
    destruct (remove_first i l) as [l'|]; simpl.
    + destruct IH as [(s' & Hs' & He) ->]. split; [|done]. exists s'. split; [by right|done].
    + intros s' [->|Hs']%elem_of_cons; [done|by apply IH].
Qed.

Section Keyed.
Context `{NumHashOrder, !NumHashOrderLaws}.

Lemma num_iter_lookup {A} (m : gmap Z A) k a : (k, a) ∈ num_iter m <-> m !! k = Some a.
Proof. by rewrite num_iter_perm, elem_of_map_to_list. Qed.

Lemma elem_of_all st s : s ∈ concat (num_iter (snapshots st)).*2 <-> exists c, s ∈ list_ c st.
Proof.
  rewrite list_elem_of_In, in_concat. setoid_rewrite <- list_elem_of_In.
  setoid_rewrite list_elem_of_fmap. unfold list_. split.
  - intros (l & ([c l'] & -> & Hc%num_iter_lookup) & Hs). exists c. by rewrite Hc.
  - intros (c & Hs). destruct (snapshots st !! c) as [l|] eqn:Hc; [|by apply elem_of_nil in Hs].
    exists l. split; [|done]. exists (c, l). split; [done|by apply num_iter_lookup].
Qed.

Lemma get_spec st i s : well_formed st -> get i st = Some s <-> id s = i /\ exists c, s ∈ list_ c st.
Proof.
  intros Hwf. unfold get. split.
  - intros [Hs Hi]%iter_find_Some. by rewrite elem_of_all, has_id_true in *.
  - intros [Hi (c & Hs)]. destruct (iter_find _ _) as [s'|] eqn:E.
    + apply iter_find_Some in E as [Hs' Hi']. apply elem_of_all in Hs' as (c' & Hs').
      apply has_id_true in Hi'. f_equal. apply (wf_unique _ Hwf c' c); congruence.
    + rewrite iter_find_None in E. specialize (E s).
      rewrite (proj2 (has_id_true i s) Hi) in E. discriminate E. apply elem_of_all. by exists c.
Qed.

Lemma get_None st i : well_formed st -> get i st = None <-> forall c s, s ∈ list_ c st -> id s <> i.
Proof.
  intros Hwf. rewrite eq_None_not_Some. unfold is_Some. setoid_rewrite get_spec; [|done]. naive_solver.
Qed.

Lemma delete_in_spec st i entries : well_formed st ->
  (forall c l, (c, l) ∈ entries -> snapshots st !! c = Some l) ->
  let '(b, st') := delete_in i entries st in
  if b : bool
  then exists c s, s ∈ list_ c st /\ id s = i /\ st' =
    {| snapshots := <[c := filter (fun s => id s <> i) (list_ c st)]> (snapshots st); next_id := next_id st |}
  else st' = st /\ forall c l s, (c, l) ∈ entries -> s ∈ l -> id s <> i.
Proof.
  intros Hwf. induction entries as [|[c l] entries IH]; intros He; simpl.
  { split; [done|]. by intros ? ? ? ?%elem_of_nil. }
  pose proof (He c l ltac:(by left)) as Hc. assert (list_ c st = l) as Hl by (unfold list_; by rewrite Hc).
  pose proof (remove_first_spec i l ltac:(rewrite <- Hl; apply (wf_sorted _ Hwf))) as Hr.
  destruct (remove_first i l) as [l'|].
  - destruct Hr as [(s & Hs & Hi) ->]. exists c, s. by rewrite Hl.
  - specialize (IH ltac:(intros; apply He; by right)). destruct (delete_in i entries st) as [[] st']; [done|].
    destruct IH as [-> IH]. split; [done|]. intros c' l' s [[= -> ->]|Hin]%elem_of_cons; [by apply Hr|by eapply IH].
Qed.

Lemma delete_snapshot_spec st i : well_formed st ->
  next_id (delete_snapshot i st).2 = next_id st /\
  ((delete_snapshot i st).1 = true <-> exists c s, s ∈ list_ c st /\ id s = i) /\
  forall c, list_ c (delete_snapshot i st).2 = filter (fun s => id s <> i) (list_ c st).
Proof.
  intros Hwf. pose proof (delete_in_spec st i (num_iter (snapshots st)) Hwf) as Hd. unfold delete_snapshot.
  destruct (delete_in i _ st) as [[] st']; simpl.
  - destruct Hd as (c & s & Hs & Hi & ->); [by intros ? ? ?%num_iter_lookup|].
    split; [done|]. split; [split; [intros _; by exists c, s|done]|]. intros c'. rewrite list_insert.
    destruct (decide (c = c')) as [<-|Hn]; [done|]. symmetry. apply filter_all. intros s' Hs' Hi'.
    pose proof (wf_unique _ Hwf c c' s s' Hs Hs' ltac:(congruence)) as <-.
    destruct (wf_stored _ Hwf _ _ Hs), (wf_stored _ Hwf _ _ Hs'). congruence.
  - destruct Hd as [-> Hd]; [by intros ? ? ?%num_iter_lookup|].
    assert (forall c s, s ∈ list_ c st -> id s <> i) as Hn.
    { intros c s. unfold list_. destruct (snapshots st !! c) as [l|] eqn:Hc; [|by intros ?%elem_of_nil].
      apply (Hd c). by apply num_iter_lookup. }
    split; [done|]. split; [split; [done|intros (c & s & Hs & Hi); by destruct (Hn c s)]|].
    intros c. symmetry. apply filter_all. intros s Hs. by eapply Hn.
Qed.

Lemma list_delete_all c c' st : list_ c' (delete_all_for_capsule c st).2 = if decide (c = c') then [] else list_ c' st.
Proof.
  unfold list_. simpl. destruct (decide (c = c')) as [<-|]; [by rewrite lookup_delete_eq|by rewrite lookup_delete_ne].
Qed.

Lemma store_step_wf st st' : step st st' -> well_formed st -> well_formed st'.
Proof.
  intros [c l ts p st0 Hn|i st0|c st0] Hwf.
  - by apply freeze_wf.
  - destruct (delete_snapshot_spec st0 i Hwf) as (Hn & _ & Hl). apply (shrink_wf st0); [done..|].
    intros c. rewrite Hl. apply sublist_filter.
  - apply (shrink_wf st0); [done..|]. intros c'. rewrite list_delete_all.
    destruct (decide (c = c')); [apply sublist_nil_l|done].
Qed.

Lemma store_reachable_wf st : reachable st -> well_formed st.
Proof. intros Hr. eapply rtc_invariant; [exact store_step_wf|apply store_new_wf|exact Hr]. Qed.

Lemma freeze_inserts st c l ts p : well_formed st -> (next_id st < u64_max)%Z ->
  let '(s, st') := freeze c l ts p st in
  get (id s) st = None /\ get (id s) st' = Some s /\
  (forall i, i <> id s -> get i st' = get i st) /\ latest c st' = Some s.
Proof.
  intros Hwf Hn. pose proof (freeze_wf c l ts p st Hwf Hn) as Hwf'. unfold freeze in *. simpl in *.
  set (s0 := {| id := _; capsule_id := _ |}) in *. set (st' := {| snapshots := _; next_id := _ |}) in *.
  assert (forall s, (exists c', s ∈ list_ c' st') <-> s = s0 \/ exists c', s ∈ list_ c' st) as Hin.
  { intros s. unfold st'. setoid_rewrite list_insert. split.
    - intros (c' & Hs). destruct (decide (c = c')) as [<-|]; [|right; by exists c'].
      apply elem_of_app in Hs as [?| ->%list_elem_of_singleton]; [right; by exists c|by left].
    - intros [->|(c' & Hs)]; [exists c; rewrite decide_True by done; apply elem_of_app; right;
        by apply list_elem_of_singleton|]. exists c'. destruct (decide (c = c')) as [<-|]; [|done].
      apply elem_of_app. by left. }
  split_and!.
  - rewrite get_None by done. intros c' s Hs. destruct (wf_stored _ Hwf c' s Hs). lia.
  - apply get_spec; [done|]. split; [done|]. apply Hin. by left.
  - intros i Hi. apply option_eq. intros s. rewrite !get_spec, Hin by done. split; [|tauto].
    intros [<- [->|Hs]]; [done|tauto].
  - unfold latest, st'. cbn [snapshots]. rewrite lookup_insert_eq. apply last_snoc.
Qed.

Lemma delete_snapshot_deletes st i : well_formed st ->
  let '(b, st') := delete_snapshot i st in
  (b = true <-> is_Some (get i st)) /\ get i st' = None /\ forall j, j <> i -> get j st' = get j st.
Proof.
  intros Hwf. destruct (delete_snapshot_spec st i Hwf) as (Hn & Hb & Hl).
  assert (well_formed (delete_snapshot i st).2) as Hwf' by apply (store_step_wf _ _ (step_delete i st)), Hwf.
  destruct (delete_snapshot i st) as [b st']. simpl in *. split_and!.
  - rewrite Hb. unfold is_Some. setoid_rewrite get_spec; [|done]. naive_solver.
  - rewrite get_None by done. intros c s. rewrite Hl, list_elem_of_filter. tauto.
  - intros j Hj. apply option_eq. intros s. rewrite !get_spec by done. setoid_rewrite Hl.
    setoid_rewrite list_elem_of_filter. naive_solver.
Qed.

Lemma delete_all_deletes st c : well_formed st ->
  let '(n, st') := delete_all_for_capsule c st in
  n = length (list_ c st) /\ forall i s, get i st' = Some s <-> get i st = Some s /\ capsule_id s <> c.
Proof.
  intros Hwf. pose proof (list_delete_all c) as Hl.
  assert (well_formed (delete_all_for_capsule c st).2) as Hwf' by apply (store_step_wf _ _ (step_delete_all c st)), Hwf.
  unfold delete_all_for_capsule in *. simpl in *. split; [unfold list_; by destruct (snapshots st !! c)|].
  intros i s. rewrite !get_spec by done. setoid_rewrite Hl. split.
  - intros [Hi (c' & Hs)]. destruct (decide (c = c')) as [|Hn]; [by apply elem_of_nil in Hs|].
    destruct (wf_stored _ Hwf c' s Hs) as [-> _]. split; [|congruence]. split; [done|by exists c'].
  - intros [[Hi (c' & Hs)] Hn]. destruct (wf_stored _ Hwf c' s Hs) as [Hc _].
    split; [done|]. exists c'. by rewrite decide_False by congruence.
Qed.

(** The store is a map from identifiers to snapshots.  [get] reads it; a freeze
    inserts one snapshot under an unused identifier; a deletion answers whether
    there is one and removes it alone; a teardown removes those of one capsule
    and counts them.  The list of a capsule is the part of the map that is its
    own, in the order of the identifiers, and [latest] is its end. *)
Theorem snapshot_store_is_a_map st :
  reachable st ->
  (forall c s, s ∈ list_ c st <-> get (id s) st = Some s /\ capsule_id s = c) /\
  (forall c, StronglySorted (fun a b => id a < id b)%Z (list_ c st) /\ latest c st = last (list_ c st)) /\
  (forall c l ts p, (next_id st < u64_max)%Z ->
     let '(s, st') := freeze c l ts p st in
     get (id s) st = None /\ get (id s) st' = Some s /\
     (forall i, i <> id s -> get i st' = get i st) /\ latest c st' = Some s) /\
  (forall i, let '(b, st') := delete_snapshot i st in
     (b = true <-> is_Some (get i st)) /\ get i st' = None /\ forall j, j <> i -> get j st' = get j st) /\
  (forall c, let '(n, st') := delete_all_for_capsule c st in
     n = length (list_ c st) /\ forall i s, get i st' = Some s <-> get i st = Some s /\ capsule_id s <> c).
Proof.
  intros Hwf%store_reachable_wf. split_and!.
  - intros c s. rewrite get_spec by done. split.
    + intros Hs. destruct (wf_stored _ Hwf c s Hs). split; [split; [done|by exists c]|done].
    + intros [[_ (c' & Hs)] <-]. by destruct (wf_stored _ Hwf c' s Hs) as [-> _].
  - intros c. split; [apply (wf_sorted _ Hwf)|]. unfold latest, list_. by destruct (snapshots st !! c).
  - intros *. by apply freeze_inserts.
  - intros i. by apply delete_snapshot_deletes.
  - intros c. by apply delete_all_deletes.
Qed.
End Keyed.
End SnapshotSound.

(** ** The engine and its history *)
Module RollbackLog.
Import RollbackPolicy(failure_threshold, cooldown_seconds, max_depth).
Import RollbackEngine.

(** What happens to an engine; a history lists the latest event first. *)
Inductive event : Type :=
| Failed (c : CapsuleId)
| Succeeded (c : CapsuleId)
| RolledBack (c : CapsuleId) (now : Z) (applied : Z)
| Declined (c : CapsuleId) (now : Z) (d : RollbackDecision.t)
| WasReset (c : CapsuleId)
| PolicySet (p : RollbackPolicy.t)
| StoreChanged.

(** The fields of a policy are [u32] values. *)
Definition policy_ok (p : RollbackPolicy.t) : Prop :=
  (failure_threshold p <= u32_max)%Z /\ (max_depth p <= u32_max)%Z.

(** A caller that rolls back when [should_rollback_at] says so.  The store is a
    public field: anything may happen to it in between. *)
Inductive step (e : t) : event -> t -> Prop :=
| step_failure c : step e (Failed c) (record_failure c e).2
| step_success c : step e (Succeeded c) (record_success c e)
| step_rollback c now i r e' : should_rollback_at c now e = RollbackDecision.Rollback i ->
    execute_rollback c now e = (Ok r, e') ->
    step e (RolledBack c now (RollbackResult.applied_snapshot_id r)) e'
| step_decline c now d : should_rollback_at c now e = d -> (forall i, d <> RollbackDecision.Rollback i) ->
    step e (Declined c now d) e
| step_reset c : step e (WasReset c) (reset_capsule c e)
| step_policy p : policy_ok p -> step e (PolicySet p) (set_policy p e)
| step_store st : step e StoreChanged
    {| snapshot_store := st; failure_counts := failure_counts e; last_rollback := last_rollback e;
       rollback_depth := rollback_depth e; policy := policy e |}.

Inductive run (e0 : t) : list event -> t -> Prop :=
| run_nil : run e0 [] e0
| run_cons tr ev e e' : run e0 tr e -> step e ev e' -> run e0 (ev :: tr) e'.

(** *** Reading a history *)

(** Failures of [c] since the last event that cleared them. *)
Fixpoint failures (c : CapsuleId) (tr : list event) : Z :=
  match tr with
  | [] => 0
  | Failed c' :: tr => if (c =? c')%Z then failures c tr + 1 else failures c tr
  | Succeeded c' :: tr | RolledBack c' _ _ :: tr | WasReset c' :: tr => if (c =? c')%Z then 0 else failures c tr
  | _ :: tr => failures c tr
  end.

Fixpoint rolled_at (c : CapsuleId) (tr : list event) : option Z :=
  match tr with
  | [] => None
  | RolledBack c' now _ :: tr => if (c =? c')%Z then Some now else rolled_at c tr
  | WasReset c' :: tr => if (c =? c')%Z then None else rolled_at c tr
  | _ :: tr => rolled_at c tr
  end.

Fixpoint rollbacks (c : CapsuleId) (tr : list event) : Z :=
  match tr with
  | [] => 0
  | RolledBack c' _ _ :: tr => if (c =? c')%Z then rollbacks c tr + 1 else rollbacks c tr
  | WasReset c' :: tr => if (c =? c')%Z then 0 else rollbacks c tr
  | _ :: tr => rollbacks c tr
  end.

Fixpoint policy_in (tr : list event) : RollbackPolicy.t :=
  match tr with
  | [] => RollbackPolicy.default
  | PolicySet p :: _ => p
  | _ :: tr => policy_in tr
  end.

(** [c] has failed often enough, its last rollback is long enough ago, and it has
    not been rolled back too often. *)
Definition failed_enough (c : CapsuleId) (tr : list event) : Prop :=
  (failure_threshold (policy_in tr) <= failures c tr)%Z.
Definition allowed (c : CapsuleId) (now : Z) (tr : list event) : Prop :=
  (forall t, rolled_at c tr = Some t -> u64_saturating_add t (cooldown_seconds (policy_in tr)) <= now)%Z /\
  (rollbacks c tr < max_depth (policy_in tr))%Z.

(** What a decision says about a history whose latest snapshot of [c] is [latest]. *)
Definition judged (c : CapsuleId) (now : Z) (tr : list event) (latest : option Z) (d : RollbackDecision.t) : Prop :=
  match d with
  | RollbackDecision.Rollback i => failed_enough c tr /\ allowed c now tr /\ latest = Some i
  | RollbackDecision.NoSnapshotAvailable => failed_enough c tr /\ allowed c now tr /\ latest = None
  | RollbackDecision.NoAction => failed_enough c tr /\ ~ allowed c now tr
  | RollbackDecision.ThresholdNotReached => ~ failed_enough c tr
  end.

(** *** What the engine tracks *)
Record tracked (e : t) (tr : list event) : Prop := {
  tk_failures c : failure_count c e = Z.min (failures c tr) u32_max;
  tk_last c : last_rollback e !! c = rolled_at c tr;
  tk_depth c : rollback_depth_for c e = Z.min (rollbacks c tr) u32_max;
  tk_policy : policy e = policy_in tr;
}.

Lemma tracked_start st : tracked (with_store st) [].
Proof. split; intros; reflexivity. Qed.

Lemma counts_natural c tr : (0 <= failures c tr)%Z /\ (0 <= rollbacks c tr)%Z.
Proof. induction tr as [|[] tr IH]; simpl; repeat case_match; lia. Qed.

Lemma insert_at {A} (m : gmap Z A) c a c' : <[c := a]> m !! c' = if (c' =? c)%Z then Some a else m !! c'.
Proof. destruct (Z.eqb_spec c' c) as [->|]; [by rewrite lookup_insert_eq|by rewrite lookup_insert_ne]. Qed.
Lemma delete_at {A} (m : gmap Z A) c c' : delete c m !! c' = if (c' =? c)%Z then None else m !! c'.
Proof. destruct (Z.eqb_spec c' c) as [->|]; [by rewrite lookup_delete_eq|by rewrite lookup_delete_ne]. Qed.

Lemma execute_rollback_Ok c now e r e' : execute_rollback c now e = (Ok r, e') ->
  failure_counts e' = <[c := 0%Z]> (failure_counts e) /\ last_rollback e' = <[c := now]> (last_rollback e) /\
  rollback_depth e' = <[c := u32_saturating_add (rollback_depth_for c e) 1]> (rollback_depth e) /\
  policy e' = policy e.
Proof.
  unfold execute_rollback. destruct (SnapshotStore.latest c (snapshot_store e)); [|done]. by intros [= <- <-].
Qed.

Lemma step_tracked e ev e' tr : step e ev e' -> tracked e tr -> tracked e' (ev :: tr).
Proof.
  assert (0 <= u32_max)%Z as Hm by (by unfold u32_max).
  intros Hs [Hf Hl Hd Hp].
  assert (forall c, (0 <= failures c tr)%Z /\ (0 <= rollbacks c tr)%Z) as Hn by (intros; apply counts_natural).
  destruct Hs as [c|c|c now i r e' _ He|c now d _ _|c|p _|st].
  - split; simpl; [|done..]. intros c'. unfold failure_count in *. simpl. rewrite insert_at, Hf.
    destruct (Z.eqb_spec c' c) as [->|]; [|apply Hf]. simpl. unfold u32_saturating_add. lia.
  - split; simpl; [|done..]. intros c'. unfold failure_count in *. simpl. rewrite insert_at.
    destruct (c' =? c)%Z; [simpl; lia|apply Hf].
  - apply execute_rollback_Ok in He as (Ef & El & Ed & Ep).
    split; simpl; [..|congruence]; intros c'; specialize (Hn c');
      unfold failure_count, rollback_depth_for in *; rewrite ?Ef, ?El, ?Ed, insert_at, ?Hd;
      destruct (Z.eqb_spec c' c) as [->|]; auto; simpl; unfold u32_saturating_add; lia.
  - by split.
  - split; simpl; [..|done]; intros c'; unfold failure_count, rollback_depth_for in *; simpl;
      rewrite delete_at; destruct (c' =? c)%Z; auto; simpl; lia.
  - by split.
  - by split.
Qed.

Lemma run_tracked st tr e : run (with_store st) tr e -> tracked e tr.
Proof. induction 1 as [|tr ev e e' _ IH Hs]; [apply tracked_start|by eapply step_tracked]. Qed.

Lemma run_policy st tr e : run (with_store st) tr e -> policy_ok (policy_in tr).
Proof.
  induction 1 as [|tr ev e e' _ IH Hs]; [by split; vm_compute|]. by destruct Hs.
Qed.

(** The decision, from the history. *)
Definition latest_id (c : CapsuleId) (e : t) : option Z :=
  CapsuleSnapshot.id <$> SnapshotStore.latest c (snapshot_store e).
Lemma decision_judged e tr c now : tracked e tr -> policy_ok (policy_in tr) ->
  judged c now tr (latest_id c e) (should_rollback_at c now e).
Proof.
  intros [Hf Hl Hd Hp] [Ht Hm]. unfold should_rollback_at, cooling, latest_id. rewrite Hf, Hl, Hd, Hp.
  unfold judged, failed_enough, allowed.
  destruct (Z.ltb_spec (Z.min (failures c tr) u32_max) (failure_threshold (policy_in tr))); [lia|].
  assert (failure_threshold (policy_in tr) <= failures c tr)%Z by lia.
  destruct (rolled_at c tr) as [t|].
  - destruct (Z.ltb_spec now (u64_saturating_add t (cooldown_seconds (policy_in tr)))) as [Hc|Hc].
    { split; [done|]. intros [Ha _]. specialize (Ha t eq_refl). lia. }
    destruct (Z.leb_spec (max_depth (policy_in tr)) (Z.min (rollbacks c tr) u32_max)); [split; [done|lia]|].
    destruct (SnapshotStore.latest c (snapshot_store e)); split_and!; try done; try lia; by intros t' [= <-].
  - destruct (Z.leb_spec (max_depth (policy_in tr)) (Z.min (rollbacks c tr) u32_max)); [split; [done|lia]|].
    destruct (SnapshotStore.latest c (snapshot_store e)); split_and!; try done; lia.
Qed.

(** A decision is a rollback to one snapshot only, and every other names its cause. *)
Lemma judged_exact c now tr latest d : judged c now tr latest d ->
  (forall i, d = RollbackDecision.Rollback i <-> failed_enough c tr /\ allowed c now tr /\ latest = Some i) /\
  (is_Some latest ->
     (d = RollbackDecision.ThresholdNotReached <-> ~ failed_enough c tr) /\
     (d = RollbackDecision.NoAction <-> failed_enough c tr /\ ~ allowed c now tr)) /\
  (latest = None -> failed_enough c tr -> allowed c now tr -> d = RollbackDecision.NoSnapshotAvailable).
Proof.
  unfold judged, is_Some. destruct d; intros Hj; split_and!; naive_solver.
Qed.

Lemma decided_applies c now i e : should_rollback_at c now e = RollbackDecision.Rollback i ->
  exists r e', execute_rollback c now e = (Ok r, e') /\ RollbackResult.applied_snapshot_id r = i.
Proof.
  unfold should_rollback_at, execute_rollback, SnapshotStore.freeze.
  destruct (SnapshotStore.latest c (snapshot_store e)) as [s|]; intros Hd; repeat case_match; simplify_eq.
  by eexists _, _.
Qed.

(** The rollbacks of a history were decided by the events before them. *)
Lemma rolled_judged st tr e : run (with_store st) tr e ->
  forall later c now i before, tr = later ++ RolledBack c now i :: before ->
    failed_enough c before /\ allowed c now before.
Proof.
  induction 1 as [|tr ev e e' Hr IH Hs]; intros later c now i before Htr; [by destruct later|].
  destruct later as [|x later]; simplify_eq/=; [|by eapply IH].
  pose proof (decision_judged e _ c now (run_tracked st _ e Hr) (run_policy st _ e Hr)) as Hj.
  inversion Hs as [| |? ? j r ? Hd He| | | |]; subst. rewrite Hd in Hj. by destruct Hj as (? & ? & _).
Qed.

(** *** Theorems *)

(** C26: rollbacks are rate-limited.  In every history of a caller that follows
    [should_rollback_at] (under policies whose fields are [u32] values), the
    answer for a capsule is a rollback, to its latest snapshot, exactly when by
    the events so far it has failed as often in a row as the policy in force asks
    for, the cooldown since its last rollback is over, it has been rolled back
    fewer than [max_depth] times since its last reset, and it has a snapshot.
    Where there is a snapshot the answer is that the threshold is not reached
    exactly when that is so, and that there is nothing to do exactly when the
    cooldown or the depth forbids what the failures ask for; where there is none
    and a rollback is due, the answer is that none is available.  A rollback that
    was decided can be executed, with that snapshot, and every rollback of the
    history met these limits.  Counters that saturate do not blur them. *)
Theorem rollbacks_governed st tr e c now :
  run (with_store st) tr e ->
  let d := should_rollback_at c now e in
  (forall i, d = RollbackDecision.Rollback i <->
     failed_enough c tr /\ allowed c now tr /\ latest_id c e = Some i) /\
  (is_Some (latest_id c e) ->
     (d = RollbackDecision.ThresholdNotReached <-> ~ failed_enough c tr) /\
     (d = RollbackDecision.NoAction <-> failed_enough c tr /\ ~ allowed c now tr)) /\
  (latest_id c e = None -> failed_enough c tr -> allowed c now tr -> d = RollbackDecision.NoSnapshotAvailable) /\
  (forall i, d = RollbackDecision.Rollback i -> exists e', step e (RolledBack c now i) e') /\
  (forall later c' now' i before, tr = later ++ RolledBack c' now' i :: before ->
     failed_enough c' before /\ allowed c' now' before).
Proof.
  intros Hr d.
  destruct (judged_exact _ _ _ _ _ (decision_judged e tr c now (run_tracked st _ e Hr) (run_policy st _ e Hr)))
    as (Hb & Hs & Hn).
  split_and!; [exact Hb|exact Hs|exact Hn| |exact (rolled_judged st tr e Hr)].
  intros i Hd. destruct (decided_applies c now i e Hd) as (r & e' & He & <-). exists e'. by eapply step_rollback.
Qed.

(** A rollback that was decided succeeds, applies the snapshot of the decision,
    restarts the count of failures, and adds one snapshot to the store. *)
Theorem rollback_applies_decision c now i e :
  should_rollback_at c now e = RollbackDecision.Rollback i ->
  exists r e', execute_rollback c now e = (Ok r, e') /\
    RollbackResult.applied_snapshot_id r = i /\ failure_count c e' = 0%Z /\
    last_rollback_at c e' = Some now /\
    SnapshotStore.list_ c (snapshot_store e') = SnapshotStore.list_ c (snapshot_store e) ++
      [RollbackResult.new_snapshot r].
Proof.
  unfold should_rollback_at, execute_rollback, SnapshotStore.freeze.
  destruct (SnapshotStore.latest c (snapshot_store e)) as [s|]; intros Hd; repeat case_match; simplify_eq.
  eexists _, _. split; [reflexivity|].
  unfold failure_count, last_rollback_at, SnapshotStore.list_. simpl. by rewrite !lookup_insert_eq.
Qed.

(** A second rollback restores nothing.  The record that a rollback leaves is the
    latest snapshot of the capsule and holds no state; a rollback that follows,
    with no freeze in between, applies it and not the snapshot that was good. *)
Theorem second_rollback_applies_the_record c now now' e r e' :
  execute_rollback c now e = (Ok r, e') ->
  CapsuleSnapshot.payload (RollbackResult.new_snapshot r) =
    SnapshotPayload.CapsuleState "" "application/aios-rollback-trace" /\
  exists r' e'', execute_rollback c now' e' = (Ok r', e'') /\
    RollbackResult.applied_snapshot_id r' = CapsuleSnapshot.id (RollbackResult.new_snapshot r).
Proof.
  unfold execute_rollback. destruct (SnapshotStore.latest c (snapshot_store e)) as [s|]; [|done].
  intros [= <- <-]. split; [done|]. cbn [snapshot_store]. unfold SnapshotStore.latest at 1. cbn [SnapshotStore.snapshots].
  rewrite lookup_insert_eq. simpl. rewrite last_snoc. simpl. by eexists _, _.
Qed.
End RollbackLog.

(** ** The theorems at work *)
Module RollbackDemo.
Import RollbackEngine RollbackLog.

#[local] Instance rollback_order : NumHashOrder := {| num_iter _ m := map_to_list m |}.
#[local] Instance rollback_order_laws : NumHashOrderLaws.
Proof. by split. Qed.

Definition demo_state : SnapshotPayload.t := SnapshotPayload.CapsuleState "state" "application/octet-stream".
Definition demo_store : SnapshotStore.t := (SnapshotStore.freeze 1 "good" 100 demo_state SnapshotStore.new).2.

Lemma demo_store_reachable : SnapshotSound.reachable demo_store.
Proof.
  eapply rtc_l; [|apply rtc_refl].
  exact (SnapshotSound.step_freeze 1 "good" 100 demo_state SnapshotStore.new ltac:(by vm_compute)).
Qed.

Lemma snapshot_store_is_a_map_witness :
  CapsuleSnapshot.label <$> SnapshotStore.get 1 demo_store = Some "good" /\
  (SnapshotStore.delete_snapshot 1 demo_store).1 = true /\
  SnapshotStore.get 1 (SnapshotStore.delete_snapshot 1 demo_store).2 = None.
Proof.
  destruct (SnapshotSound.snapshot_store_is_a_map demo_store demo_store_reachable) as (_ & _ & _ & Hd & _).
  assert (CapsuleSnapshot.label <$> SnapshotStore.get 1 demo_store = Some "good") as Hg by (vm_compute; reflexivity).
  split; [exact Hg|]. specialize (Hd 1%Z).
  destruct (SnapshotStore.delete_snapshot 1 demo_store) as [b st']. destruct Hd as (Hb & Hn & _).
  split; [|exact Hn]. apply Hb. destruct (SnapshotStore.get 1 demo_store) as [s|]; [by exists s|discriminate Hg].
Defined.

(** Three failures, and what follows. *)
Definition demo_failed : RollbackEngine.t :=
  (record_failure 1 (record_failure 1 (record_failure 1 (with_store demo_store)).2).2).2.
Definition demo_rolled : RollbackEngine.t := (execute_rollback 1 1000 demo_failed).2.
Definition demo_history : list event := [RolledBack 1 1000 1; Failed 1; Failed 1; Failed 1].

Lemma rollback_demo_run : run (with_store demo_store) demo_history demo_rolled.
Proof.
  eapply run_cons; [eapply run_cons; [eapply run_cons; [eapply run_cons; [apply run_nil|]|]|]|];
    [apply step_failure..|].
  eassert (execute_rollback 1 1000 demo_failed = (Ok _, demo_rolled)) as He by (vm_compute; reflexivity).
  exact (step_rollback demo_failed 1 1000 1 _ _ ltac:(vm_compute; reflexivity) He).
Qed.

Lemma rollbacks_governed_witness :
  should_rollback_at 1 1000 demo_rolled = RollbackDecision.ThresholdNotReached /\
  failed_enough 1 [Failed 1; Failed 1; Failed 1] /\ allowed 1 1000 [Failed 1; Failed 1; Failed 1].
Proof.
  destruct (rollbacks_governed demo_store demo_history demo_rolled 1 1000 rollback_demo_run) as (_ & Hs & _ & _ & Hj).
  split.
  - apply Hs; [vm_compute; eexists; reflexivity|]. unfold failed_enough. vm_compute. auto.
  - exact (Hj [] 1%Z 1000%Z 1%Z [Failed 1; Failed 1; Failed 1] eq_refl).
Defined.

Lemma rollback_applies_decision_witness : exists r e',
  execute_rollback 1 1000 demo_failed = (Ok r, e') /\ RollbackResult.applied_snapshot_id r = 1%Z.
Proof.
  destruct (rollback_applies_decision 1 1000 1 demo_failed ltac:(vm_compute; reflexivity)) as (r & e' & He & Ha & _).
  exists r, e'. split; [exact He|exact Ha].
Defined.

Lemma second_rollback_applies_the_record_witness : exists r' e'',
  execute_rollback 1 2000 demo_rolled = (Ok r', e'') /\ RollbackResult.applied_snapshot_id r' = 2%Z.
Proof.
  eassert (execute_rollback 1 1000 demo_failed = (Ok _, demo_rolled)) as He by (vm_compute; reflexivity).
  destruct (second_rollback_applies_the_record 1 1000 2000 demo_failed _ _ He) as (_ & r' & e'' & He' & Ha).
  exists r', e''. split; [exact He'|exact Ha].
Defined.

(** [record_failure] recommends a rollback one second after the last, within the
    cooldown, and after the allowed number of rollbacks. *)
Definition fail_thrice (e : RollbackEngine.t) : RollbackDecision.t * RollbackEngine.t :=
  record_failure 1 (record_failure 1 (record_failure 1 e).2).2.
Fixpoint roll_again (n : nat) (now : Z) (e : RollbackEngine.t) : RollbackEngine.t :=
  match n with O => e | S n => roll_again n (now + 60) (execute_rollback 1 now (fail_thrice e).2).2 end.

Theorem record_failure_ignores_the_limits :
  (fail_thrice demo_rolled).1 = RollbackDecision.Rollback 2 /\
  should_rollback_at 1 1001 (fail_thrice demo_rolled).2 = RollbackDecision.NoAction /\
  (fail_thrice (roll_again 5 1000 demo_failed)).1 = RollbackDecision.Rollback 6 /\
  should_rollback_at 1 9000 (fail_thrice (roll_again 5 1000 demo_failed)).2 = RollbackDecision.NoAction.
Proof. split_and!; vm_compute; reflexivity. Qed.
End RollbackDemo.
