(* ===== verification/CapsuleScheduler.v ===== *)
(** * The partition scheduler of the Capability Runtime ([scheduler.rs])

    [PartitionScheduler] keeps the capsules, the partitions and the ready queue,
    a list of capsules for every priority.  [next] looks capsules up with the
    index operator, which panics on a missing key: here it is [None] on a panic,
    and the theorems show that a scheduler built by its operations never does. *)
From stdpp Require Import gmap sets list_numbers sorting.
From S2P Require Import Prelude DispatchQueue.

Abbreviation CapsuleId := Z (only parsing).

(** ** Priorities *)
Module PriorityBand.
Inductive t : Type := RealTime | High | Normal | Low | Idle.
Definition rank (b : t) : nat :=
  match b with RealTime => 0 | High => 1 | Normal => 2 | Low => 3 | Idle => 4 end.
Definition preempts (a b : t) : bool := Nat.ltb (rank a) (rank b).
Definition level_range (b : t) : Z * Z :=
  match b with
  | RealTime => (0, 9) | High => (10, 29) | Normal => (30, 69) | Low => (70, 99) | Idle => (100, 119)
  end%Z.
End PriorityBand.

(** A level is a [u8]; a lower level is a higher priority. *)
Module CapsulePriority.
Abbreviation t := Z (only parsing).
Definition MAX : t := 0%Z.
Definition RT_THRESHOLD : t := 10%Z.
Definition MIN : t := 119%Z.
Definition DEFAULT : t := 60%Z.
Definition new (level : Z) : option t := if (level <=? 119)%Z then Some level else None.
Definition band (p : t) : PriorityBand.t :=
  if (p <=? 9)%Z then PriorityBand.RealTime
  else if (p <=? 29)%Z then PriorityBand.High
  else if (p <=? 69)%Z then PriorityBand.Normal
  else if (p <=? 99)%Z then PriorityBand.Low
  else PriorityBand.Idle.
Definition is_realtime (p : t) : bool := (p <? 10)%Z.
Definition max (p q : t) : t := if (p <=? q)%Z then p else q.
End CapsulePriority.

(** ** Capsules and partitions *)
Module CapsuleSchedulingEntity.
Record t : Type := {
  capsule_id : CapsuleId;
  base_priority : CapsulePriority.t;
  effective_priority : CapsulePriority.t;
  partition_name : string;
  ready : bool;
}.
Definition new (capsule_id : CapsuleId) (base_priority : CapsulePriority.t) (partition_name : string) : t :=
  {| capsule_id := capsule_id; base_priority := base_priority; effective_priority := base_priority;
     partition_name := partition_name; ready := true |}.
Definition is_realtime (e : t) : bool := CapsulePriority.is_realtime (effective_priority e).
Definition set_effective (p : CapsulePriority.t) (e : t) : t :=
  {| capsule_id := capsule_id e; base_priority := base_priority e; effective_priority := p;
     partition_name := partition_name e; ready := ready e |}.
Definition set_ready (b : bool) (e : t) : t :=
  {| capsule_id := capsule_id e; base_priority := base_priority e; effective_priority := effective_priority e;
     partition_name := partition_name e; ready := b |}.
Definition inherit_from (sender : CapsulePriority.t) (e : t) : t :=
  set_effective (CapsulePriority.max (base_priority e) sender) e.
Definition clear_inheritance (e : t) : t := set_effective (base_priority e) e.
End CapsuleSchedulingEntity.

Module AdaptivePartition.
Record t : Type := {
  name : string;
  guarantee_pct : Z;
  max_pct : Z;
  allocated : Z;
  ready_count : Z;
}.
Definition new (name : string) (guarantee_pct max_pct : Z) : option t :=
  if (max_pct <? guarantee_pct)%Z || (100 <? max_pct)%Z then None
  else Some {| name := name; guarantee_pct := guarantee_pct; max_pct := max_pct; allocated := 0; ready_count := 0 |}.

Definition current_pct (total : Z) (p : t) : F64.t :=
  F64.mul (F64.div (F64.of_Z (allocated p)) (F64.of_Z total)) (F64.of_Z 100).
Definition is_budget_exhausted (total : Z) (p : t) : bool :=
  if (total =? 0)%Z then false else F64.ge (current_pct total p) (F64.of_Z (max_pct p)).
Definition is_below_guarantee (total : Z) (p : t) : bool :=
  if (total =? 0)%Z then false else F64.lt (current_pct total p) (F64.of_Z (guarantee_pct p)).
Definition budget_consumed (total : Z) (p : t) : F64.t :=
  if (total =? 0)%Z then F64.zero else F64.div (F64.of_Z (allocated p)) (F64.of_Z total).

Definition set_ready_count (n : Z) (p : t) : t :=
  {| name := name p; guarantee_pct := guarantee_pct p; max_pct := max_pct p; allocated := allocated p;
     ready_count := n |}.
Definition more_ready (p : t) : t := set_ready_count (u64_wrap (ready_count p + 1)) p.
Definition less_ready (p : t) : t := set_ready_count (Z.max 0 (ready_count p - 1)) p.
Definition allocate (p : t) : t :=
  {| name := name p; guarantee_pct := guarantee_pct p; max_pct := max_pct p;
     allocated := u64_wrap (allocated p + 1); ready_count := ready_count p |}.
End AdaptivePartition.

(** ** Decisions *)
Module DecisionReason.
Inductive t : Type := HighestPriority | PartitionGuarantee | PriorityInheritance | OnlyReady | Idle.
End DecisionReason.

Module SchedulingDecision.
Record t : Type := {
  capsule_id : CapsuleId;
  priority : CapsulePriority.t;
  partition_name : string;
  reason : DecisionReason.t;
}.
End SchedulingDecision.

(** ** The scheduler *)
Module PartitionScheduler.
Import CapsuleSchedulingEntity.

Record t : Type := {
  entities : gmap CapsuleId CapsuleSchedulingEntity.t;
  partitions : gmap string AdaptivePartition.t;
  ready_queue : gmap CapsulePriority.t (list CapsuleId);
}.

Definition new : t := {| entities := ∅; partitions := ∅; ready_queue := ∅ |}.

(** [entry(pri).or_default().push_back(id)]. *)
Definition push_back (p : CapsulePriority.t) (id : CapsuleId) (rq : gmap CapsulePriority.t (list CapsuleId)) :=
  <[p := default [] (rq !! p) ++ [id]]> rq.
(** [retain] on the queue of the priority, which goes when it is empty. *)
Definition take_out (p : CapsulePriority.t) (id : CapsuleId) (rq : gmap CapsulePriority.t (list CapsuleId)) :=
  match rq !! p with
  | None => rq
  | Some q => let q := filter (fun x => x <> id) q in if q is [] then delete p rq else <[p := q]> rq
  end.

Definition add_partition (p : AdaptivePartition.t) (s : t) : bool * t :=
  if is_some (partitions s !! AdaptivePartition.name p) then (false, s)
  else (true, {| entities := entities s; partitions := <[AdaptivePartition.name p := p]> (partitions s);
                 ready_queue := ready_queue s |}).

Definition register_capsule (e : CapsuleSchedulingEntity.t) (s : t) : bool * t :=
  if is_some (entities s !! capsule_id e) then (false, s)
  else if negb (is_some (partitions s !! partition_name e)) then (false, s)
  else (true,
    {| entities := <[capsule_id e := e]> (entities s);
       partitions := if ready e then alter AdaptivePartition.more_ready (partition_name e) (partitions s)
                     else partitions s;
       ready_queue := if ready e then push_back (effective_priority e) (capsule_id e) (ready_queue s)
                      else ready_queue s |}).

Definition unregister_capsule (id : CapsuleId) (s : t) : bool * t :=
  match entities s !! id with
  | None => (false, s)
  | Some e => (true,
      {| entities := delete id (entities s);
         partitions := if ready e then alter AdaptivePartition.less_ready (partition_name e) (partitions s)
                       else partitions s;
         ready_queue := if ready e then take_out (effective_priority e) id (ready_queue s) else ready_queue s |})
  end.

Definition set_ready (id : CapsuleId) (b : bool) (s : t) : bool * t :=
  match entities s !! id with
  | None => (false, s)
  | Some e =>
      if Bool.eqb (ready e) b then (true, s)
      else (true,
        {| entities := <[id := CapsuleSchedulingEntity.set_ready b e]> (entities s);
           partitions := alter (if b then AdaptivePartition.more_ready else AdaptivePartition.less_ready)
                           (partition_name e) (partitions s);
           ready_queue := if b then push_back (effective_priority e) id (ready_queue s)
                          else take_out (effective_priority e) id (ready_queue s) |})
  end.

(** What [inherit_priority] and [clear_inheritance] share: [f] changes the
    effective priority, and a ready capsule changes its queue. *)
Definition move_to (id : CapsuleId) (f : CapsuleSchedulingEntity.t -> CapsuleSchedulingEntity.t) (s : t) : bool * t :=
  match entities s !! id with
  | None => (false, s)
  | Some e =>
      let old_pri := effective_priority e in
      let e := f e in
      let new_pri := effective_priority e in
      if (new_pri =? old_pri)%Z
      then (false, {| entities := <[id := e]> (entities s); partitions := partitions s; ready_queue := ready_queue s |})
      else (true,
        {| entities := <[id := e]> (entities s); partitions := partitions s;
           ready_queue := if ready e then push_back new_pri id (take_out old_pri id (ready_queue s))
                          else ready_queue s |})
  end.
Definition inherit_priority (id : CapsuleId) (sender : CapsulePriority.t) : t -> bool * t :=
  move_to id (inherit_from sender).
Definition clear_inheritance (id : CapsuleId) : t -> bool * t :=
  move_to id CapsuleSchedulingEntity.clear_inheritance.

Definition record_allocation (d : SchedulingDecision.t) (s : t) : t :=
  {| entities := entities s;
     partitions := alter AdaptivePartition.allocate (SchedulingDecision.partition_name d) (partitions s);
     ready_queue := ready_queue s |}.

(** The map in the order of its keys, which are [u8] values. *)
Definition in_order (rq : gmap CapsulePriority.t (list CapsuleId)) : list (CapsulePriority.t * list CapsuleId) :=
  omap (fun p => pair p <$> rq !! p) (seqZ 0 256).

Definition decide_for (s : t) (p : CapsulePriority.t) (id : CapsuleId) (r : DecisionReason.t) : option SchedulingDecision.t :=
  e ← entities s !! id;
  Some {| SchedulingDecision.capsule_id := id; SchedulingDecision.priority := p;
          SchedulingDecision.partition_name := partition_name e; SchedulingDecision.reason := r |}.

(** Passes 1 and 3: the front of the first queue that has one.  Pass 1 stops at
    the first priority outside the real-time band. *)
Fixpoint first_front (s : t) (rt : bool) (l : list (CapsulePriority.t * list CapsuleId))
    : option (option SchedulingDecision.t) :=
  match l with
  | [] => Some None
  | (p, q) :: l =>
      if rt && negb (CapsulePriority.is_realtime p) then Some None
      else match q with
           | [] => first_front s rt l
           | id :: _ => d ← decide_for s p id DecisionReason.HighestPriority; Some (Some d)
           end
  end.

(** [values().map(|p| p.allocated).sum()]. *)
Definition total_allocated (s : t) : Z :=
  u64_wrap (map_fold (fun _ p n => AdaptivePartition.allocated p + n)%Z 0%Z (partitions s)).

(** Pass 2: a later capsule takes over when its priority is higher. *)
Definition better (p : CapsulePriority.t) (d : SchedulingDecision.t) (best : option SchedulingDecision.t)
    : option SchedulingDecision.t :=
  match best with
  | None => Some d
  | Some prev => if (p <? SchedulingDecision.priority prev)%Z then Some d else Some prev
  end.
Definition consider (s : t) (total : Z) (p : CapsulePriority.t) (best : option SchedulingDecision.t) (id : CapsuleId)
    : option (option SchedulingDecision.t) :=
  e ← entities s !! id;
  partition ← partitions s !! partition_name e;
  if AdaptivePartition.is_below_guarantee total partition
  then d ← decide_for s p id DecisionReason.PartitionGuarantee; Some (better p d best)
  else Some best.
Fixpoint consider_all (s : t) (total : Z) (l : list (CapsulePriority.t * CapsuleId)) (best : option SchedulingDecision.t)
    : option (option SchedulingDecision.t) :=
  match l with
  | [] => Some best
  | (p, id) :: l => best ← consider s total p best id; consider_all s total l best
  end.

(** The queues, capsule by capsule. *)
Definition labelled (e : CapsulePriority.t * list CapsuleId) : list (CapsulePriority.t * CapsuleId) := pair e.1 <$> e.2.
Definition queued (s : t) : list (CapsulePriority.t * CapsuleId) := in_order (ready_queue s) ≫= labelled.

Definition next (s : t) : option (option SchedulingDecision.t) :=
  rt ← first_front s true (in_order (ready_queue s));
  match rt with
  | Some d => Some (Some d)
  | None =>
      best ← consider_all s (total_allocated s) (queued s) None;
      match best with
      | Some d => Some (Some d)
      | None => first_front s false (in_order (ready_queue s))
      end
  end.

Definition capsule_count (s : t) : nat := size (entities s).
Definition ready_count (s : t) : nat := sum_list (length <$> (in_order (ready_queue s)).*2).
Definition partition_count (s : t) : nat := size (partitions s).
End PartitionScheduler.

(** ** The ready queue *)
Module ReadyQueue.
Import CapsuleSchedulingEntity PartitionScheduler.

Definition queue (rq : gmap CapsulePriority.t (list CapsuleId)) (p : CapsulePriority.t) : list CapsuleId :=
  default [] (rq !! p).

(** The priority at which a capsule is ready. *)
Definition ready_at (es : gmap CapsuleId CapsuleSchedulingEntity.t) (id : CapsuleId) : option CapsulePriority.t :=
  e ← es !! id; if ready e then Some (effective_priority e) else None.

(** A capsule is queued once, at the priority at which it is ready; no queue is empty. *)
Record queues_ok (es : gmap CapsuleId CapsuleSchedulingEntity.t) (rq : gmap CapsulePriority.t (list CapsuleId)) : Prop := {
  qo_ready id p : id ∈ queue rq p <-> ready_at es id = Some p;
  qo_nodup p : NoDup (queue rq p);
  qo_full p q : rq !! p = Some q -> q <> [];
}.

Lemma queue_push p id rq p' : queue (push_back p id rq) p' = if decide (p = p') then queue rq p ++ [id] else queue rq p'.
Proof.
  unfold queue, push_back. destruct (decide (p = p')) as [<-|]; [by rewrite lookup_insert_eq|by rewrite lookup_insert_ne].
Qed.

Lemma queue_take p id rq p' :
  queue (take_out p id rq) p' = if decide (p = p') then filter (fun x => x <> id) (queue rq p) else queue rq p'.
Proof.
  unfold queue, take_out. destruct (rq !! p) as [q|] eqn:Hq; simpl.
  - destruct (filter (fun x => x <> id) q) as [|x l] eqn:Hf; destruct (decide (p = p')) as [<-|];
      by rewrite ?lookup_delete_eq, ?lookup_delete_ne, ?lookup_insert_eq, ?lookup_insert_ne by done.
  - destruct (decide (p = p')) as [<-|]; [by rewrite Hq|done].
Qed.

Lemma full_push p id rq : (forall p q, rq !! p = Some q -> q <> []) ->
  forall p' q, push_back p id rq !! p' = Some q -> q <> [].
Proof.
  intros Hf p' q. unfold push_back. intros [[<- <-]|[_ Hq]]%lookup_insert_Some; [|by eapply Hf].
  by destruct (default [] (rq !! p)).
Qed.

Lemma full_take p id rq : (forall p q, rq !! p = Some q -> q <> []) ->
  forall p' q, take_out p id rq !! p' = Some q -> q <> [].
Proof.
  intros Hf p' q. unfold take_out. destruct (rq !! p) as [q0|]; [|by apply Hf].
  destruct (filter _ q0); [intros [_ Hq]%lookup_delete_Some|intros [[<- <-]|[_ Hq]]%lookup_insert_Some];
    [by eapply Hf|done|by eapply Hf].
Qed.

Section Agree.
Context (es es' : gmap CapsuleId CapsuleSchedulingEntity.t) (id : CapsuleId).
Context (Hother : forall id', id' <> id -> ready_at es' id' = ready_at es id').

Lemma ok_same rq : queues_ok es rq -> ready_at es' id = ready_at es id -> queues_ok es' rq.
Proof using Hother.
  intros [Hr Hn Hf] Hid. split; [|done..]. intros id' p. rewrite Hr.
  destruct (decide (id' = id)) as [->|]; [by rewrite Hid|by rewrite Hother].
Qed.

Lemma ok_push p rq : queues_ok es rq -> ready_at es id = None -> ready_at es' id = Some p ->
  queues_ok es' (push_back p id rq).
Proof using Hother.
  intros [Hr Hn Hf] Hnone Hid. split; [| |by apply full_push].
  - intros id' p'. rewrite queue_push. destruct (decide (id' = id)) as [->|Hne].
    + rewrite Hid. destruct (decide (p = p')) as [<-|]; [|rewrite Hr, Hnone; naive_solver].
      rewrite elem_of_app, list_elem_of_singleton. naive_solver.
    + rewrite Hother, <- Hr by done. destruct (decide (p = p')) as [<-|]; [|done].
      rewrite elem_of_app, list_elem_of_singleton. naive_solver.
  - intros p'. rewrite queue_push. destruct (decide (p = p')); [|done].
    apply NoDup_app. split_and!; [done| |apply NoDup_singleton]. intros x Hx ->%list_elem_of_singleton.
    apply Hr in Hx. congruence.
Qed.

Lemma ok_take p rq : queues_ok es rq -> ready_at es id = Some p -> ready_at es' id = None ->
  queues_ok es' (take_out p id rq).
Proof using Hother.
  intros [Hr Hn Hf] Hsome Hid. split; [| |by apply full_take].
  - intros id' p'. rewrite queue_take. destruct (decide (id' = id)) as [->|Hne].
    + rewrite Hid. destruct (decide (p = p')) as [<-|]; [rewrite list_elem_of_filter; naive_solver|].
      rewrite Hr, Hsome. naive_solver.
    + rewrite Hother, <- Hr by done. destruct (decide (p = p')) as [<-|]; [|done].
      rewrite list_elem_of_filter. naive_solver.
  - intros p'. rewrite queue_take. destruct (decide (p = p')); [by apply NoDup_filter|done].
Qed.
End Agree.

Lemma ready_at_insert es id e id' :
  ready_at (<[id := e]> es) id' =
  if decide (id = id') then (if ready e then Some (effective_priority e) else None) else ready_at es id'.
Proof.
  unfold ready_at. destruct (decide (id = id')) as [<-|]; [by rewrite lookup_insert_eq|by rewrite lookup_insert_ne].
Qed.
Lemma ready_at_delete es id id' :
  ready_at (delete id es) id' = if decide (id = id') then None else ready_at es id'.
Proof.
  unfold ready_at. destruct (decide (id = id')) as [<-|]; [by rewrite lookup_delete_eq|by rewrite lookup_delete_ne].
Qed.

(** ** What the operations keep *)
Definition priority_ok (p : CapsulePriority.t) : Prop := (0 <= p <= 119)%Z.

Record well_formed (s : t) : Prop := {
  wf_entity id e : entities s !! id = Some e ->
    capsule_id e = id /\ priority_ok (base_priority e) /\ priority_ok (effective_priority e) /\
    is_Some (partitions s !! partition_name e);
  wf_queues : queues_ok (entities s) (ready_queue s);
}.

(** The operations; a decision is recorded when [next] made it. *)
Inductive step (s : t) : t -> Prop :=
| step_add p : step s (add_partition p s).2
| step_register e : priority_ok (base_priority e) -> priority_ok (effective_priority e) ->
    step s (register_capsule e s).2
| step_unregister id : step s (unregister_capsule id s).2
| step_ready id b : step s (PartitionScheduler.set_ready id b s).2
| step_inherit id p : priority_ok p -> step s (inherit_priority id p s).2
| step_clear id : step s (PartitionScheduler.clear_inheritance id s).2
| step_record d : step s (record_allocation d s).

Definition reachable : t -> Prop := rtc step new.

Lemma scheduler_new_wf : well_formed new.
Proof.
  split; [done|]. split; [|intros p; constructor|done].
  intros id p. unfold queue, ready_at. simpl. rewrite lookup_empty. by split; [intros ?%elem_of_nil|].
Qed.

(** Partitions are never removed. *)
Lemma partition_alter f n ps m : is_Some (ps !! m) -> is_Some ((alter f n ps : gmap string AdaptivePartition.t) !! m).
Proof. by rewrite lookup_alter_is_Some. Qed.

Lemma max_ok p q : priority_ok p -> priority_ok q -> priority_ok (CapsulePriority.max p q).
Proof. unfold CapsulePriority.max. by destruct (p <=? q)%Z. Qed.

(** What a capsule must satisfy to be kept. *)
Definition entity_ok (ps : gmap string AdaptivePartition.t) (id : CapsuleId) (e : CapsuleSchedulingEntity.t) : Prop :=
  capsule_id e = id /\ priority_ok (base_priority e) /\ priority_ok (effective_priority e) /\
  is_Some (ps !! partition_name e).

Lemma entities_insert s id e ps :
  well_formed s -> (forall n, is_Some (partitions s !! n) -> is_Some (ps !! n)) -> entity_ok ps id e ->
  forall id' e', <[id := e]> (entities s) !! id' = Some e' -> entity_ok ps id' e'.
Proof.
  intros Hwf Hps He id' e' [[<- <-]|[_ H']]%lookup_insert_Some; [done|].
  destruct (wf_entity _ Hwf _ _ H') as (? & ? & ? & ?). split_and!; auto.
Qed.

Lemma ready_at_other es id e id' : id' <> id -> ready_at (<[id := e]> es) id' = ready_at es id'.
Proof. intros Hn. by rewrite ready_at_insert, decide_False. Qed.

Lemma register_wf e s : priority_ok (base_priority e) -> priority_ok (effective_priority e) -> well_formed s ->
  well_formed (register_capsule e s).2.
Proof.
  intros Hb Hp Hwf. unfold register_capsule. destruct (entities s !! capsule_id e) eqn:Hid; [done|].
  destruct (partitions s !! partition_name e) eqn:Hpart; [|done]. simpl.
  assert (ready_at (entities s) (capsule_id e) = None) as Hn by (unfold ready_at; by rewrite Hid).
  split; simpl.
  - apply entities_insert; [done|intros n Hs; destruct (ready e); [by apply partition_alter|done]|].
    split_and!; try done. destruct (ready e); [apply partition_alter|]; by eexists.
  - destruct (ready e) eqn:Hr.
    + eapply ok_push; [intros; by apply ready_at_other|apply (wf_queues _ Hwf)|done|].
      by rewrite ready_at_insert, decide_True, Hr.
    + eapply ok_same; [intros; by apply ready_at_other|apply (wf_queues _ Hwf)|].
      by rewrite ready_at_insert, decide_True, Hr.
Qed.

Lemma unregister_wf id s : well_formed s -> well_formed (unregister_capsule id s).2.
Proof.
  intros Hwf. unfold unregister_capsule. destruct (entities s !! id) as [e|] eqn:Hid; [|done]. simpl.
  assert (ready_at (entities s) id = if ready e then Some (effective_priority e) else None) as Hn
    by (unfold ready_at; by rewrite Hid).
  split; simpl.
  - intros id' e' [_ He]%lookup_delete_Some. destruct (wf_entity _ Hwf _ _ He) as (? & ? & ? & ?).
    split_and!; try done. destruct (ready e); [by apply partition_alter|done].
  - assert (forall id', id' <> id -> ready_at (delete id (entities s)) id' = ready_at (entities s) id') as Ho
      by (intros; by rewrite ready_at_delete, decide_False).
    destruct (ready e).
    + eapply ok_take; [done|apply (wf_queues _ Hwf)|done|by rewrite ready_at_delete, decide_True].
    + eapply ok_same; [done|apply (wf_queues _ Hwf)|]. by rewrite Hn, ready_at_delete, decide_True.
Qed.

Lemma set_ready_wf id b s : well_formed s -> well_formed (PartitionScheduler.set_ready id b s).2.
Proof.
  intros Hwf. unfold PartitionScheduler.set_ready. destruct (entities s !! id) as [e|] eqn:Hid; [|done].
  destruct (Bool.eqb (ready e) b) eqn:Hb; [done|]. apply eqb_false_iff in Hb. simpl.
  destruct (wf_entity _ Hwf _ _ Hid) as (Hk & ? & ? & ?).
  assert (ready_at (entities s) id = if ready e then Some (effective_priority e) else None) as Hn
    by (unfold ready_at; by rewrite Hid).
  split; simpl.
  - apply entities_insert; [done|intros; by apply partition_alter|]. split_and!; try done. by apply partition_alter.
  - assert (ready e = negb b) as He by (destruct (ready e), b; done). rewrite He in Hn. destruct b.
    + eapply ok_push; [intros; by apply ready_at_other|apply (wf_queues _ Hwf)|done|].
      by rewrite ready_at_insert, decide_True.
    + eapply ok_take; [intros; by apply ready_at_other|apply (wf_queues _ Hwf)|done|].
      by rewrite ready_at_insert, decide_True.
Qed.

Lemma move_wf id f s :
  (forall e, capsule_id (f e) = capsule_id e /\ base_priority (f e) = base_priority e /\
     partition_name (f e) = partition_name e /\ ready (f e) = ready e) ->
  (forall e, priority_ok (base_priority e) -> priority_ok (effective_priority (f e))) ->
  well_formed s -> well_formed (move_to id f s).2.
Proof.
  intros Hf Hp Hwf. unfold move_to. destruct (entities s !! id) as [e|] eqn:Hid; [|done].
  destruct (wf_entity _ Hwf _ _ Hid) as (Hk & Hb & _ & Hpart). destruct (Hf e) as (Ek & Eb & Epart & Er).
  assert (ready_at (entities s) id = if ready e then Some (effective_priority e) else None) as Hn
    by (unfold ready_at; by rewrite Hid).
  assert (entity_ok (partitions s) id (f e)) as Hok
    by (split_and!; [congruence|by rewrite Eb|by apply Hp|by rewrite Epart]).
  destruct (Z.eqb_spec (effective_priority (f e)) (effective_priority e)) as [Heq|_];
    (split; simpl; [by apply (entities_insert s id (f e) (partitions s))|]); rewrite ?Er.
  - eapply ok_same; [intros; by apply ready_at_other|apply (wf_queues _ Hwf)|].
    rewrite ready_at_insert, decide_True, Er, Heq by done. done.
  - destruct (ready e) eqn:Hr.
    + eapply (ok_push (delete id (entities s)));
        [| |by rewrite ready_at_delete, decide_True|by rewrite ready_at_insert, decide_True, Er].
      * intros id' Hne. by rewrite ready_at_other, ready_at_delete, decide_False.
      * eapply ok_take; [|apply (wf_queues _ Hwf)|done|by rewrite ready_at_delete, decide_True].
        intros id' Hne. by rewrite ready_at_delete, decide_False.
    + eapply ok_same; [intros; by apply ready_at_other|apply (wf_queues _ Hwf)|].
      rewrite ready_at_insert, decide_True, Er by done. done.
Qed.

Lemma scheduler_step_wf s s' : step s s' -> well_formed s -> well_formed s'.
Proof.
  intros Hs Hwf. destruct Hs as [p|e Hb Hp|id|id b|id p Hp|id|d].
  - unfold add_partition. destruct (is_some _) eqn:Hi; [done|]. split; simpl; [|apply Hwf].
    intros id e He. destruct (wf_entity _ Hwf _ _ He) as (? & ? & ? & ?). split_and!; try done.
    rewrite lookup_insert_is_Some. destruct (decide (AdaptivePartition.name p = partition_name e)); auto.
  - by apply register_wf.
  - by apply unregister_wf.
  - by apply set_ready_wf.
  - apply move_wf; [done| |done]. intros e He. by apply max_ok.
  - by apply move_wf.
  - split; simpl; [|apply Hwf]. intros id e He. destruct (wf_entity _ Hwf _ _ He) as (? & ? & ? & ?).
    split_and!; try done. by apply partition_alter.
Qed.

Lemma scheduler_reachable_wf s : reachable s -> well_formed s.
Proof. intros Hr. eapply rtc_invariant; [exact scheduler_step_wf|apply scheduler_new_wf|exact Hr]. Qed.

(** ** The order of the queue *)
Lemma in_order_spec rq p q : (p, q) ∈ in_order rq <-> (0 <= p < 256)%Z /\ rq !! p = Some q.
Proof.
  unfold in_order. rewrite list_elem_of_omap. setoid_rewrite elem_of_seqZ. split.
  - intros (p' & Hp & Hq). destruct (rq !! p') eqn:E; [|done]. injection Hq as -> ->. split; [lia|done].
  - intros [Hp Hq]. exists p. rewrite Hq. split; [lia|done].
Qed.

Lemma seqZ_sorted m n : StronglySorted Z.lt (seqZ m n).
Proof.
  unfold seqZ. generalize 0, (Z.to_nat n). intros a k. revert a.
  induction k as [|k IH]; intros a; simpl; constructor; [apply IH|].
  apply Forall_forall. intros z (i & -> & Hi)%list_elem_of_fmap. apply elem_of_seq in Hi. lia.
Qed.

Lemma in_order_sorted rq : StronglySorted (fun a b => a.1 < b.1)%Z (in_order rq).
Proof.
  unfold in_order. induction (seqZ_sorted 0 256) as [|p l Hs IH Hl]; [constructor|]. simpl.
  destruct (rq !! p) as [q|]; simpl; [|done]. constructor; [done|].
  apply Forall_forall. intros [p' q'] He. apply list_elem_of_omap in He as (x & Hx & He).
  rewrite Forall_forall in Hl. specialize (Hl x Hx). destruct (rq !! x); [|done]. by injection He as -> ->.
Qed.

Section Queued.
Context (s : t) (Hwf : well_formed s).

Lemma ready_at_priority id p : ready_at (entities s) id = Some p -> priority_ok p.
Proof using Hwf.
  unfold ready_at. destruct (entities s !! id) as [e|] eqn:He; [|done]. simpl.
  destruct (ready e); [|done]. intros [= <-]. by destruct (wf_entity _ Hwf _ _ He) as (_ & _ & ? & _).
Qed.

(** Every ready capsule is listed, at its priority. *)
Lemma elem_of_queued p id : (p, id) ∈ queued s <-> ready_at (entities s) id = Some p.
Proof using Hwf.
  rewrite <- (qo_ready _ _ (wf_queues _ Hwf)). unfold queued, labelled. rewrite list_elem_of_bind. split.
  - intros ([p' q] & Hid & Hin). apply list_elem_of_fmap in Hid as (id' & [= -> ->] & Hid).
    apply in_order_spec in Hin as [_ Hq].
    unfold queue. by rewrite Hq.
  - intros Hid. exists (p, queue (ready_queue s) p). split; [apply list_elem_of_fmap; by exists id|].
    apply in_order_spec. pose proof Hid as Hp. rewrite (qo_ready _ _ (wf_queues _ Hwf)) in Hp.
    apply ready_at_priority in Hp. unfold priority_ok in Hp. split; [lia|]. unfold queue in *.
    destruct (ready_queue s !! p); [done|by apply elem_of_nil in Hid].
Qed.

(** In the order of the priorities. *)
Lemma queued_sorted : StronglySorted (fun a b => a.1 <= b.1)%Z (queued s).
Proof.
  unfold queued. induction (in_order_sorted (ready_queue s)) as [|[p q] l Hs IH Hl]; [constructor|]. simpl.
  unfold labelled at 1. simpl. rewrite Forall_forall in Hl.
  assert (forall e, e ∈ l ≫= labelled -> p <= e.1)%Z as Hle.
  { intros e (x & He & Hx)%list_elem_of_bind. apply list_elem_of_fmap in He as (id & -> & _). simpl.
    specialize (Hl x Hx). simpl in Hl. lia. }
  clear Hl Hs. induction q as [|id q IHq]; [exact IH|]. rewrite fmap_cons. simpl. constructor; [exact IHq|].
  apply Forall_app. split.
  - apply Forall_forall. intros e He. apply list_elem_of_fmap in He as (id' & -> & _). simpl. lia.
  - apply Forall_forall. intros e He. simpl. by apply Hle.
Qed.

Lemma queued_nodup : NoDup (queued s).*2.
Proof using Hwf.
  assert (forall p q, (p, q) ∈ in_order (ready_queue s) -> q = queue (ready_queue s) p) as Hq.
  { intros p q [_ Hq]%in_order_spec. unfold queue. by rewrite Hq. }
  unfold queued. induction (in_order_sorted (ready_queue s)) as [|[p q] l Hs IH Hl]; [constructor|].
  cbn [mbind list_bind]. rewrite fmap_app.
  assert ((labelled (p, q)).*2 = q) as -> by (unfold labelled; simpl; rewrite <- list_fmap_compose; apply list_fmap_id).
  apply NoDup_app. split_and!.
  - rewrite (Hq p q ltac:(by left)). apply (qo_nodup _ _ (wf_queues _ Hwf)).
  - intros id Hid Hin. apply list_elem_of_fmap in Hin as ([p' id'] & -> & Hin). simpl in Hid.
    apply list_elem_of_bind in Hin as ([p2 q2] & Hin & Hx). apply list_elem_of_fmap in Hin as (? & [= -> <-] & Hin).
    rewrite (Hq p q ltac:(by left)) in Hid. rewrite (Hq p2 q2 ltac:(by right)) in Hin.
    apply (qo_ready _ _ (wf_queues _ Hwf)) in Hid, Hin. rewrite Forall_forall in Hl. specialize (Hl _ Hx).
    simpl in Hl. assert (p = p2) by congruence. lia.
  - apply IH. intros p' q' Hin. apply Hq. by right.
Qed.

(** ** The decision *)

Definition decision (r : DecisionReason.t) (x : CapsulePriority.t * CapsuleId) : SchedulingDecision.t :=
  {| SchedulingDecision.capsule_id := x.2; SchedulingDecision.priority := x.1;
     SchedulingDecision.partition_name := from_option partition_name "" (entities s !! x.2);
     SchedulingDecision.reason := r |}.

(** A capsule whose partition is below its guarantee. *)
Definition deficient (x : CapsulePriority.t * CapsuleId) : bool :=
  from_option (AdaptivePartition.is_below_guarantee (total_allocated s)) false
    (entities s !! x.2 ≫= fun e => partitions s !! partition_name e).

(** The reference: the first ready capsule of the real-time band; or the first of
    a partition below its guarantee; or the first. *)
Definition choice : option SchedulingDecision.t :=
  match iter_find (fun x => CapsulePriority.is_realtime x.1) (queued s) with
  | Some x => Some (decision DecisionReason.HighestPriority x)
  | None =>
      match iter_find deficient (queued s) with
      | Some x => Some (decision DecisionReason.PartitionGuarantee x)
      | None => decision DecisionReason.HighestPriority <$> head (queued s)
      end
  end.

(** The same without a real-time pass: partitions below their guarantee first. *)
Definition guaranteed_choice : option SchedulingDecision.t :=
  match iter_find deficient (queued s) with
  | Some x => Some (decision DecisionReason.PartitionGuarantee x)
  | None => decision DecisionReason.HighestPriority <$> head (queued s)
  end.

(** A capsule whose partition is past its maximum. *)
Definition exhausted (x : CapsulePriority.t * CapsuleId) : bool :=
  from_option (AdaptivePartition.is_budget_exhausted (total_allocated s)) false
    (entities s !! x.2 ≫= fun e => partitions s !! partition_name e).

(** The queues on which the band, the guarantees and the maxima do not compete: no
    real-time capsule waits while a partition is below its guarantee, and where
    none is, all that wait are within their maximum or none is. *)
Definition uncontested : Prop :=
  (forall x y, x ∈ queued s -> y ∈ queued s -> CapsulePriority.is_realtime x.1 = true -> deficient y = false) /\
  ((forall x, x ∈ queued s -> deficient x = false) ->
   forall x y, x ∈ queued s -> y ∈ queued s -> exhausted x = exhausted y).

Lemma queued_registered x : x ∈ queued s -> exists e, entities s !! x.2 = Some e.
Proof using Hwf.
  destruct x as [p id]. rewrite elem_of_queued. unfold ready_at. simpl.
  destruct (entities s !! id) as [e|]; [by exists e|done].
Qed.

Lemma decide_for_registered x r : x ∈ queued s -> decide_for s x.1 x.2 r = Some (decision r x).
Proof using Hwf.
  intros (e & He)%queued_registered. unfold decide_for, decision. by rewrite He.
Qed.

(** Passes 1 and 3, on a part [l] of the queue. *)
Lemma first_front_spec rt l :
  (forall p q, (p, q) ∈ l -> q <> []) -> (forall x, x ∈ l ≫= labelled -> x ∈ queued s) ->
  StronglySorted (fun a b => a.1 < b.1)%Z l ->
  first_front s rt l = Some (decision DecisionReason.HighestPriority <$>
    iter_find (fun x => negb rt || CapsulePriority.is_realtime x.1) (l ≫= labelled)).
Proof using Hwf.
  intros Hne Hin Hs. destruct l as [|[p q] l]; [done|]. pose proof (Hne p q ltac:(by left)) as Hq.
  destruct q as [|id q]; [done|]. cbn [first_front]. apply StronglySorted_inv in Hs as [_ Hl].
  assert (forall x, x ∈ ((p, id :: q) :: l) ≫= labelled -> p <= x.1)%Z as Hle.
  { intros x (e & Hx & He)%list_elem_of_bind. apply list_elem_of_fmap in Hx as (id' & -> & _). simpl.
    apply elem_of_cons in He as [->|He]; [done|]. rewrite Forall_forall in Hl. specialize (Hl e He). simpl in Hl. lia. }
  assert (((p, id :: q) :: l) ≫= labelled = (p, id) :: ((pair p <$> q) ++ (l ≫= labelled))) as E by done.
  rewrite E in *. destruct (rt && negb (CapsulePriority.is_realtime p)) eqn:Hrt.
  - apply andb_true_iff in Hrt as [-> Hp%negb_true_iff].
    rewrite (proj2 (iter_find_None _ _)); [done|]. intros x Hx. specialize (Hle x Hx). simpl.
    unfold CapsulePriority.is_realtime in *. apply Z.ltb_ge in Hp. apply Z.ltb_ge. lia.
  - cbn [iter_find fst]. replace (negb rt || CapsulePriority.is_realtime p) with true
      by (destruct rt, (CapsulePriority.is_realtime p); done).
    by rewrite (decide_for_registered (p, id)) by (apply Hin; left).
Qed.

Lemma in_order_front rt :
  first_front s rt (in_order (ready_queue s)) = Some (decision DecisionReason.HighestPriority <$>
    iter_find (fun x => negb rt || CapsulePriority.is_realtime x.1) (queued s)).
Proof using Hwf.
  apply first_front_spec; [|done|apply in_order_sorted].
  intros p q [_ Hq]%in_order_spec. by apply (qo_full _ _ (wf_queues _ Hwf) p).
Qed.

(** Pass 2. *)
Lemma consider_queued x best : x ∈ queued s ->
  consider s (total_allocated s) x.1 best x.2 =
  Some (if deficient x then better x.1 (decision DecisionReason.PartitionGuarantee x) best else best).
Proof using Hwf.
  intros Hx. pose proof (decide_for_registered x DecisionReason.PartitionGuarantee Hx) as Hd.
  apply queued_registered in Hx as (e & He). unfold consider, deficient. rewrite He. simpl.
  destruct (wf_entity _ Hwf _ _ He) as (_ & _ & _ & [part Hpart]). rewrite Hpart. simpl.
  destruct (AdaptivePartition.is_below_guarantee _ part); [by rewrite Hd|done].
Qed.

Lemma consider_all_spec l best : (forall x, x ∈ l -> x ∈ queued s) -> StronglySorted (fun a b => a.1 <= b.1)%Z l ->
  (forall prev x, best = Some prev -> x ∈ l -> SchedulingDecision.priority prev <= x.1)%Z ->
  consider_all s (total_allocated s) l best =
  Some (match best with
        | Some prev => Some prev
        | None => decision DecisionReason.PartitionGuarantee <$> iter_find deficient l
        end).
Proof using Hwf.
  revert best. induction l as [|[p id] l IH]; intros best Hin Hs Hb; [by destruct best|].
  apply StronglySorted_inv in Hs as [Hs Hl]. rewrite Forall_forall in Hl. cbn [consider_all].
  rewrite (consider_queued (p, id)) by (apply Hin; left). simpl.
  assert (forall best', (forall prev x, best' = Some prev -> x ∈ l -> SchedulingDecision.priority prev <= x.1)%Z ->
    consider_all s (total_allocated s) l best' = _) as IH' by (intros best' Hb'; apply IH; [intros; apply Hin; by right|done|done]).
  destruct (deficient (p, id)) eqn:Hd.
  - destruct best as [prev|]; simpl.
    + pose proof (Hb prev (p, id) eq_refl ltac:(by left)) as Hp. simpl in Hp.
      destruct (Z.ltb_spec p (SchedulingDecision.priority prev)); [lia|].
      rewrite IH'; [done|]. intros prev' x [= <-] Hx. apply Hb; [done|by right].
    + rewrite IH'; [done|]. intros prev' x [= <-] Hx. apply (Hl x Hx).
  - rewrite IH'; [by destruct best|]. intros prev' x -> Hx. apply Hb; [done|by right].
Qed.

Lemma head_find {A} (l : list A) : iter_find (fun _ => true) l = head l.
Proof. by destruct l. Qed.

Lemma next_choice : PartitionScheduler.next s = Some choice.
Proof using Hwf.
  unfold PartitionScheduler.next, choice. rewrite (in_order_front true), (in_order_front false). simpl.
  destruct (iter_find _ (queued s)) as [x|]; [done|]. simpl.
  rewrite (consider_all_spec (queued s) None) by (done || apply queued_sorted). simpl.
  destruct (iter_find deficient (queued s)); [done|]. simpl. by rewrite head_find.
Qed.
End Queued.

(** *** Rounds *)

(** A round as the tests of the crate drive it: take the decision, record it, and
    mark the capsule as no longer ready. *)
Definition dispatch (d : SchedulingDecision.t) (s : t) : t :=
  (PartitionScheduler.set_ready (SchedulingDecision.capsule_id d) false (record_allocation d s)).2.

(** [n] rounds, until nothing is ready. *)
Fixpoint rounds (n : nat) (s : t) : option (list SchedulingDecision.t * t) :=
  match n with
  | O => Some ([], s)
  | S n =>
      d ← PartitionScheduler.next s;
      match d with
      | None => Some ([], s)
      | Some d => r ← rounds n (dispatch d s); Some (d :: r.1, r.2)
      end
  end.

Lemma iter_find_head {A} (p : A -> bool) l x : iter_find p l = Some x -> exists y, head l = Some y.
Proof. destruct l as [|y l]; [done|]. by exists y. Qed.

(** Without the competition the real-time pass finds what the last pass would. *)
Lemma choice_uncontested s : well_formed s -> uncontested s -> choice s = guaranteed_choice s.
Proof.
  intros Hwf [Hu _]. unfold choice, guaranteed_choice.
  destruct (iter_find _ (queued s)) as [x|] eqn:E; [|done]. pose proof E as [Hx Hr]%iter_find_Some.
  rewrite (proj2 (iter_find_None (deficient s) (queued s))) by (intros y Hy; by eapply (Hu x)).
  pose proof (queued_sorted s) as Hs. destruct (queued s) as [|y l]; [done|].
  apply StronglySorted_inv in Hs as [_ Hl]. rewrite Forall_forall in Hl. simpl in E |- *.
  assert (CapsulePriority.is_realtime y.1 = true) as Hy.
  { apply elem_of_cons in Hx as [->|Hx]; [done|]. specialize (Hl x Hx). unfold CapsulePriority.is_realtime in *. lia. }
  rewrite Hy in E. by injection E as ->.
Qed.

Lemma choice_queued s d : choice s = Some d -> exists x r, x ∈ queued s /\ d = decision s r x.
Proof.
  unfold choice. destruct (iter_find _ (queued s)) as [x|] eqn:E1.
  { intros [= <-]. apply iter_find_Some in E1 as [Hx _]. by exists x, DecisionReason.HighestPriority. }
  destruct (iter_find (deficient s) (queued s)) as [x|] eqn:E2.
  { intros [= <-]. apply iter_find_Some in E2 as [Hx _]. by exists x, DecisionReason.PartitionGuarantee. }
  destruct (queued s) as [|x l]; [done|]. intros [= <-]. exists x, DecisionReason.HighestPriority. split; [by left|done].
Qed.

Lemma choice_None s : choice s = None <-> queued s = [].
Proof.
  split.
  - unfold choice. intros Hc. repeat case_match; try done. by destruct (queued s).
  - intros Hq. destruct (choice s) as [d|] eqn:E; [|done].
    destruct (choice_queued s d E) as (x & _ & Hx & _). rewrite Hq in Hx. by apply elem_of_nil in Hx.
Qed.

Lemma dispatch_wf d s : well_formed s -> well_formed (dispatch d s).
Proof. intros Hwf. by apply set_ready_wf, (scheduler_step_wf s), Hwf; constructor. Qed.

(** A round takes the capsule of the decision out of the queue. *)
Lemma dispatch_queued s d p id : well_formed s -> choice s = Some d ->
  (p, id) ∈ queued (dispatch d s) <-> (p, id) ∈ queued s /\ id <> SchedulingDecision.capsule_id d.
Proof.
  intros Hwf Hd. destruct (choice_queued s d Hd) as ([p0 id0] & r & Hx & ->). simpl.
  rewrite !elem_of_queued in * by (done || by apply dispatch_wf). unfold ready_at in Hx.
  destruct (entities s !! id0) as [e|] eqn:He; [|done]. simpl in Hx. destruct (ready e) eqn:Hr; [|done].
  unfold dispatch, PartitionScheduler.set_ready. simpl. rewrite He, Hr. simpl. rewrite ready_at_insert. simpl.
  destruct (decide (id0 = id)) as [->|]; naive_solver.
Qed.

Lemma dispatch_perm s d : well_formed s -> choice s = Some d ->
  (queued s).*2 ≡ₚ SchedulingDecision.capsule_id d :: (queued (dispatch d s)).*2.
Proof.
  intros Hwf Hd. pose proof (dispatch_wf d s Hwf) as Hwf'. apply NoDup_Permutation.
  - by apply queued_nodup.
  - constructor; [|by apply queued_nodup]. intros ([p id] & Hid & Hin)%list_elem_of_fmap. simpl in Hid.
    rewrite dispatch_queued in Hin by done. naive_solver.
  - intros id. rewrite elem_of_cons, !list_elem_of_fmap. split.
    + intros ([p id'] & -> & Hin). simpl.
      destruct (decide (id' = SchedulingDecision.capsule_id d)); [by left|right].
      exists (p, id'). split; [done|]. by rewrite dispatch_queued.
    + intros [->|([p id'] & -> & Hin)].
      * destruct (choice_queued s d Hd) as (x & r & Hx & ->). by exists x.
      * rewrite dispatch_queued in Hin by done. exists (p, id'). by destruct Hin.
Qed.

Lemma rounds_spec n s : well_formed s -> length (queued s) <= n ->
  exists ds s', rounds n s = Some (ds, s') /\ (SchedulingDecision.capsule_id <$> ds) ≡ₚ (queued s).*2 /\
    PartitionScheduler.next s' = Some None.
Proof.
  revert s. induction n as [|n IH]; intros s Hwf Hn.
  - assert (queued s = []) as Hq by (destruct (queued s); [done|simpl in Hn; lia]).
    exists [], s. rewrite Hq, next_choice by done. split_and!; [done..|]. f_equal. by apply choice_None.
  - cbn [rounds]. rewrite next_choice by done. simpl. destruct (choice s) as [d|] eqn:Hd.
    + pose proof (dispatch_perm s d Hwf Hd) as Hp.
      assert (length (queued (dispatch d s)) <= n) as Hlen.
      { apply Permutation_length in Hp. simpl in Hp. rewrite !length_fmap in Hp. lia. }
      destruct (IH (dispatch d s) (dispatch_wf d s Hwf) Hlen) as (ds & s' & He & Hds & Hs').
      exists (d :: ds), s'. rewrite He. split_and!; [done| |done]. rewrite fmap_cons, Hds. by rewrite Hp.
    + exists [], s. pose proof (proj1 (choice_None s) Hd) as Hq. rewrite Hq, next_choice, Hd by done. done.
Qed.

Lemma ready_count_queued s : ready_count s = length (queued s).
Proof.
  unfold ready_count, queued. induction (in_order (ready_queue s)) as [|[p q] l IH]; [done|].
  cbn [mbind list_bind]. rewrite !fmap_cons, length_app. cbn [sum_list]. simpl in *. rewrite IH.
  unfold labelled. by rewrite length_fmap.
Qed.

(** *** Starvation *)

(** A capsule that is ready again as soon as it was dispatched. *)
Definition redispatch (d : SchedulingDecision.t) (s : t) : t :=
  (PartitionScheduler.set_ready (SchedulingDecision.capsule_id d) true (dispatch d s)).2.

Lemma first_front_same s s' rt l : entities s' = entities s -> first_front s' rt l = first_front s rt l.
Proof.
  intros He. induction l as [|[p [|id q]] l IH]; simpl; [done|by rewrite IH|]. unfold decide_for. by rewrite He.
Qed.

Lemma first_pass_decides s d : first_front s true (in_order (ready_queue s)) = Some (Some d) ->
  PartitionScheduler.next s = Some (Some d).
Proof. intros Hf. unfold PartitionScheduler.next. by rewrite Hf. Qed.

Lemma redispatch_same s d e : entities s !! SchedulingDecision.capsule_id d = Some e -> ready e = true ->
  ready_queue s !! effective_priority e = Some [SchedulingDecision.capsule_id d] ->
  entities (redispatch d s) = entities s /\ ready_queue (redispatch d s) = ready_queue s.
Proof.
  intros He Hr Hq. unfold redispatch, dispatch, PartitionScheduler.set_ready. simpl. rewrite He, Hr. simpl.
  rewrite lookup_insert_eq. simpl. split.
  - rewrite insert_insert_eq. apply insert_id. rewrite He. f_equal. destruct e; simpl in *. by rewrite Hr.
  - unfold push_back, take_out. rewrite Hq.
    assert (filter (fun x => x <> SchedulingDecision.capsule_id d) [SchedulingDecision.capsule_id d] = []) as ->.
    { by rewrite filter_cons, decide_False by tauto. }
    rewrite lookup_delete_eq. simpl. rewrite insert_delete_eq. by apply insert_id.
Qed.
End ReadyQueue.

(** ** Theorems *)
Module SchedulerSound.
Import CapsuleSchedulingEntity PartitionScheduler ReadyQueue.
#[local] Opaque in_order.

(** C27: the scheduler never panics, and decides as its algorithm says.  The queue of a
    scheduler built by its operations lists every ready capsule once, in the
    order of the effective priorities, and no other; there is always a decision
    when something is ready.  Where the real-time band and the partitions do not
    compete ([uncontested]: no real-time capsule waits while a partition of a ready
    capsule is below its guarantee, and where no such partition is, the ready
    capsules are all within their maximum or none is), the decision is the first
    capsule of a partition below its guarantee, else the first of the queue. *)
Theorem next_exact s : reachable s ->
  (exists d, PartitionScheduler.next s = Some d /\ (d = None <-> queued s = [])) /\
  (uncontested s -> PartitionScheduler.next s = Some (guaranteed_choice s)) /\
  (forall p id, (p, id) ∈ queued s <->
     exists e, entities s !! id = Some e /\ ready e = true /\ effective_priority e = p) /\
  NoDup (queued s).*2 /\ StronglySorted (fun a b => a.1 <= b.1)%Z (queued s).
Proof.
  intros Hwf%scheduler_reachable_wf.
  split_and!; [exists (choice s); split; [by apply next_choice|apply choice_None]| | |by apply queued_nodup|by apply queued_sorted].
  { intros Hu. by rewrite next_choice, choice_uncontested. }
  intros p id. rewrite elem_of_queued by done. unfold ready_at.
  destruct (entities s !! id) as [e|]; simpl; [|split; [done|by intros (? & ? & _)]]. split.
  - destruct (ready e) eqn:Hr; [|done]. intros [= <-]. by exists e.
  - by intros (e' & [= <-] & -> & <-).
Qed.

(** C28: no capsule starves in a round.  Taking decisions, and marking each capsule as
    served, dispatches every capsule that was ready exactly once, in as many
    decisions as there are ready capsules, and ends with nothing ready. *)
Theorem rounds_serve_all s : reachable s ->
  exists ds s', rounds (ready_count s) s = Some (ds, s') /\
    NoDup (SchedulingDecision.capsule_id <$> ds) /\
    (forall id, id ∈ SchedulingDecision.capsule_id <$> ds <->
       exists e, entities s !! id = Some e /\ ready e = true) /\
    PartitionScheduler.next s' = Some None.
Proof.
  intros Hwf%scheduler_reachable_wf. destruct (rounds_spec (ready_count s) s Hwf) as (ds & s' & He & Hp & Hn);
    [by rewrite ready_count_queued|].
  exists ds, s'. split_and!; [done|rewrite Hp; by apply queued_nodup| |done].
  intros id. rewrite Hp, list_elem_of_fmap. split.
  - intros ([p id'] & -> & Hin). rewrite elem_of_queued in Hin by done. unfold ready_at in Hin. simpl.
    destruct (entities s !! id') as [e|]; [|done]. exists e. simpl in Hin. by destruct (ready e).
  - intros (e & He' & Hr). exists (effective_priority e, id). split; [done|].
    rewrite elem_of_queued by done. unfold ready_at. rewrite He'. simpl. by rewrite Hr.
Qed.

(** A capsule of the real-time band that is ready again after each decision, and
    alone at its level, gets every decision: whatever else is ready, and whatever
    the partitions are guaranteed, nothing else is ever dispatched. *)
Theorem realtime_starves s d n :
  reachable s -> PartitionScheduler.next s = Some (Some d) ->
  CapsulePriority.is_realtime (SchedulingDecision.priority d) = true ->
  ready_queue s !! SchedulingDecision.priority d = Some [SchedulingDecision.capsule_id d] ->
  PartitionScheduler.next (Nat.iter n (redispatch d) s) = Some (Some d).
Proof.
  intros Hwf%scheduler_reachable_wf Hn Hrt Hq.
  assert (exists e, entities s !! SchedulingDecision.capsule_id d = Some e /\ ready e = true /\
    effective_priority e = SchedulingDecision.priority d) as (e & He & Hr & Hp).
  { rewrite next_choice in Hn by done. injection Hn as Hc.
    destruct (choice_queued s d Hc) as ([p id] & r & Hx & ->). rewrite elem_of_queued in Hx by done.
    unfold ready_at in Hx. simpl. destruct (entities s !! id) as [e|]; [|done]. exists e. simpl in Hx.
    destruct (ready e); [|done]. by injection Hx. }
  rewrite <- Hp in Hq.
  assert (entities (Nat.iter n (redispatch d) s) = entities s /\
    ready_queue (Nat.iter n (redispatch d) s) = ready_queue s) as [Ee Eq].
  { induction n as [|n [IHe IHq]]; [done|]. simpl. rewrite <- IHe in He. rewrite <- IHq in Hq.
    destruct (redispatch_same _ d e He Hr Hq) as [-> ->]. done. }
  assert (first_front s true (in_order (ready_queue s)) = Some (Some d)) as Hf.
  { rewrite next_choice in Hn by done. injection Hn as Hc. rewrite in_order_front by done. simpl.
    unfold choice in Hc. destruct (iter_find _ (queued s)) as [x|] eqn:E; simpl; [congruence|exfalso].
    rewrite iter_find_None in E. assert ((SchedulingDecision.priority d, SchedulingDecision.capsule_id d) ∈ queued s) as Hin.
    { rewrite elem_of_queued by done. unfold ready_at. rewrite He. simpl. by rewrite Hr, Hp. }
    specialize (E _ Hin). simpl in E. congruence. }
  apply first_pass_decides. rewrite Eq. by rewrite (first_front_same s _ true _ Ee).
Qed.

(** [max_pct] is not consulted: changing it changes no decision. *)
Definition set_max (m : Z) (p : AdaptivePartition.t) : AdaptivePartition.t :=
  {| AdaptivePartition.name := AdaptivePartition.name p;
     AdaptivePartition.guarantee_pct := AdaptivePartition.guarantee_pct p; AdaptivePartition.max_pct := m;
     AdaptivePartition.allocated := AdaptivePartition.allocated p;
     AdaptivePartition.ready_count := AdaptivePartition.ready_count p |}.

Theorem maximum_not_enforced m s :
  PartitionScheduler.next {| entities := entities s; partitions := set_max m <$> partitions s;
                             ready_queue := ready_queue s |} = PartitionScheduler.next s.
Proof.
  set (s' := {| entities := _; partitions := _; ready_queue := _ |}).
  assert (total_allocated s' = total_allocated s) as Ht by (unfold total_allocated; simpl; by rewrite map_fold_fmap).
  assert (forall total l best, consider_all s' total l best = consider_all s total l best) as Hc.
  { intros total l. induction l as [|[p id] l IH]; intros best; [done|]. cbn [consider_all].
    assert (consider s' total p best id = consider s total p best id) as ->.
    { unfold consider. simpl. destruct (entities s !! id) as [e|]; [|done]. simpl. rewrite lookup_fmap.
      by destruct (partitions s !! partition_name e). }
    destruct (consider s total p best id); [apply IH|done]. }
  unfold PartitionScheduler.next. rewrite Ht, Hc. unfold s' at 2 3 4. simpl.
  by rewrite !(first_front_same s s') by done.
Qed.
End SchedulerSound.

(** ** The theorems at work *)
Module SchedulerDemo.
Import CapsuleSchedulingEntity PartitionScheduler ReadyQueue SchedulerSound.

Definition demo_partition (name : string) (guarantee : Z) (allocated : Z) : AdaptivePartition.t :=
  {| AdaptivePartition.name := name; AdaptivePartition.guarantee_pct := guarantee; AdaptivePartition.max_pct := 50;
     AdaptivePartition.allocated := allocated; AdaptivePartition.ready_count := 0 |}.

(** Two partitions: capsule 1 runs in the real-time band, 2 and 3 below it. *)
Definition demo_steps : list (t -> bool * t) :=
  [add_partition (demo_partition "ui" 30 10); add_partition (demo_partition "batch" 20 90);
   register_capsule (CapsuleSchedulingEntity.new 3 60 "batch");
   register_capsule (CapsuleSchedulingEntity.new 2 70 "ui");
   register_capsule (CapsuleSchedulingEntity.new 1 5 "batch")].
Definition demo_scheduler : t := fold_left (fun s f => (f s).2) demo_steps PartitionScheduler.new.

Lemma demo_scheduler_reachable : reachable demo_scheduler.
Proof.
  unfold reachable, demo_scheduler, demo_steps. cbn [fold_left].
  do 3 (eapply rtc_r; [|apply step_register; by vm_compute]).
  do 2 (eapply rtc_r; [|apply step_add]). apply rtc_refl.
Qed.

(** With the real-time capsule served, the partition below its guarantee comes
    before the higher priority. *)
Definition demo_served : t := (PartitionScheduler.set_ready 1 false demo_scheduler).2.
Lemma demo_served_reachable : reachable demo_served.
Proof. eapply rtc_r; [apply demo_scheduler_reachable|]. constructor. Qed.

Lemma next_exact_witness :
  SchedulingDecision.capsule_id <$> guaranteed_choice demo_served = Some 2%Z /\
  PartitionScheduler.next demo_served = Some (guaranteed_choice demo_served) /\
  (queued demo_served).*2 = [3; 2]%Z.
Proof.
  destruct (next_exact demo_served demo_served_reachable) as (_ & Hn & _).
  split; [vm_compute; reflexivity|]. split; [|vm_compute; reflexivity]. apply Hn.
  assert (queued demo_served = [(60, 3); (70, 2)]%Z) as Hq by (vm_compute; reflexivity).
  unfold uncontested. rewrite Hq. split.
  - intros x y Hx _ Hr. exfalso.
    apply elem_of_cons in Hx as [->|[->|[]%elem_of_nil]%elem_of_cons]; vm_compute in Hr; discriminate Hr.
  - intros Hd. exfalso. specialize (Hd (70, 2)%Z ltac:(right; left)). vm_compute in Hd. discriminate Hd.
Defined.

Lemma rounds_serve_all_witness : exists ds s',
  rounds 3 demo_scheduler = Some (ds, s') /\ (SchedulingDecision.capsule_id <$> ds) = [1; 2; 3]%Z /\
  PartitionScheduler.next s' = Some None.
Proof.
  destruct (rounds_serve_all demo_scheduler demo_scheduler_reachable) as (ds & s' & He & _ & _ & Hn).
  exists ds, s'. replace (ready_count demo_scheduler) with 3 in He by (vm_compute; reflexivity).
  split; [exact He|]. split; [|exact Hn].
  assert (match rounds 3 demo_scheduler with
    | Some (ds, _) => SchedulingDecision.capsule_id <$> ds | None => [] end = [1; 2; 3]%Z) as Hd
    by (vm_compute; reflexivity).
  rewrite He in Hd. exact Hd.
Defined.

Lemma realtime_starves_witness : exists d, SchedulingDecision.capsule_id d = 1%Z /\
  forall n, PartitionScheduler.next (Nat.iter n (redispatch d) demo_scheduler) = Some (Some d).
Proof.
  eassert (PartitionScheduler.next demo_scheduler = Some (Some _)) as Hn by (vm_compute; reflexivity).
  eexists. split; [|intros n; apply (realtime_starves demo_scheduler _ n demo_scheduler_reachable Hn); vm_compute; reflexivity].
  reflexivity.
Defined.

(** A partition with exactly its guarantee counts as below it: 29 of 100
    decisions are 28.999... percent in [f64]. *)
Theorem at_guarantee_counts_as_below :
  AdaptivePartition.is_below_guarantee 100 (demo_partition "ui" 29 29) = true.
Proof. vm_compute. reflexivity. Qed.

(** A second sender of lower priority takes away what the first one gave: capsule
    3 is raised to level 5, then lowered to level 50 while the first sender waits. *)
Theorem second_sender_lowers :
  let s1 := inherit_priority 3 5 demo_scheduler in
  let s2 := inherit_priority 3 50 s1.2 in
  s1.1 = true /\ (effective_priority <$> entities s1.2 !! 3%Z) = Some 5%Z /\
  s2.1 = true /\ (effective_priority <$> entities s2.2 !! 3%Z) = Some 50%Z.
Proof. split_and!; vm_compute; reflexivity. Qed.
End SchedulerDemo.
