(* ===== verification/ApprovalGate.v ===== *)
(** * The approval gate ([approval_gate.rs])

    [ApprovalGate] is three locked cells: the policy, the pending requests and
    the audit trail.  Calls run concurrently: a call is a task whose steps are
    its critical sections, and [step] interleaves the steps of all tasks.  The
    wall clock is read freely at every step. *)
From stdpp Require Import gmap.
From S2P Require Import Prelude.

(** ** Policies, requests and decisions *)
Module ApprovalPolicy.
Inductive t : Type :=
| AutoDeny
| HumanRequired
| ClassifiedOnly
| Delegated (delegated_scope_tag : string).
Definition default : t := HumanRequired.
Definition is_auto_deny (p : t) : bool := match p with AutoDeny => true | _ => false end.
Definition is_human_required (p : t) : bool := match p with HumanRequired => true | _ => false end.
End ApprovalPolicy.

Module GateApprovalRequest.
Record t : Type := {
  action_id : string;
  proposed_by_capsule_id : string;
  target_resource : string;
  required_capability : string;
  delegated_scope_tag : option string;
  is_classified : bool;
  submitted_at : DateTime;
}.
#[global] Instance t_eq_dec : EqDecision t.
Proof. solve_decision. Defined.
Definition new (now : DateTime) (action_id proposed_by target capability : string) : t :=
  {| action_id := action_id; proposed_by_capsule_id := proposed_by; target_resource := target;
     required_capability := capability; delegated_scope_tag := None; is_classified := false; submitted_at := now |}.
Definition with_classified (b : bool) (r : t) : t :=
  {| action_id := action_id r; proposed_by_capsule_id := proposed_by_capsule_id r;
     target_resource := target_resource r; required_capability := required_capability r;
     delegated_scope_tag := delegated_scope_tag r; is_classified := b; submitted_at := submitted_at r |}.
Definition with_scope_tag (tag : string) (r : t) : t :=
  {| action_id := action_id r; proposed_by_capsule_id := proposed_by_capsule_id r;
     target_resource := target_resource r; required_capability := required_capability r;
     delegated_scope_tag := Some tag; is_classified := is_classified r; submitted_at := submitted_at r |}.
End GateApprovalRequest.

Module ApprovalDecision.
Inductive t : Type :=
| Approved (approver : string)
| Denied (reason : string)
| Escalated (escalated_to reason : string)
| Pending (deadline : DateTime).
#[global] Instance t_eq_dec : EqDecision t.
Proof. solve_decision. Defined.
Definition is_approved (d : t) : bool := match d with Approved _ => true | _ => false end.
Definition is_denied (d : t) : bool := match d with Denied _ => true | _ => false end.
Definition is_pending (d : t) : bool := match d with Pending _ => true | _ => false end.
End ApprovalDecision.

(** The digest, and the texts that serde and chrono make of what is hashed. *)
Class GateTexts := {
  blake3_hex : string -> string;
  request_json : GateApprovalRequest.t -> string;
  decision_json : ApprovalDecision.t -> string;
  rfc3339 : DateTime -> string;
}.

Module GateAuditEntry.
Record t : Type := {
  request : GateApprovalRequest.t;
  decision : ApprovalDecision.t;
  decided_at : DateTime;
  evidence_hash : string;
}.
Definition compute_evidence_hash `{GateTexts} (r : GateApprovalRequest.t) (d : ApprovalDecision.t) (at_ : DateTime)
    : string :=
  String.substring 0 32 (blake3_hex (request_json r +:+ "|" +:+ decision_json d +:+ "|" +:+ rfc3339 at_)).
Definition entry `{GateTexts} (r : GateApprovalRequest.t) (d : ApprovalDecision.t) (now : DateTime) : t :=
  {| request := r; decision := d; decided_at := now; evidence_hash := compute_evidence_hash r d now |}.
End GateAuditEntry.

(** ** The gate *)
Module ApprovalGate.
Import GateApprovalRequest GateAuditEntry.

Record t : Type := {
  policy : ApprovalPolicy.t;
  pending : gmap string GateApprovalRequest.t;
  audit_trail : list GateAuditEntry.t;
}.

Definition new (p : ApprovalPolicy.t) : t := {| policy := p; pending := ∅; audit_trail := [] |}.
Definition set_policy (p : ApprovalPolicy.t) (g : t) : t :=
  {| policy := p; pending := pending g; audit_trail := audit_trail g |}.
Definition push (e : GateAuditEntry.t) (g : t) : t :=
  {| policy := policy g; pending := pending g; audit_trail := audit_trail g ++ [e] |}.
Definition set_pending (m : gmap string GateApprovalRequest.t) (g : t) : t :=
  {| policy := policy g; pending := m; audit_trail := audit_trail g |}.

Definition is_ai_actor (id : string) : bool := starts_with "ai:" id.

Definition TIMEOUT : Z := seconds 300.

(** The decision of [evaluate]. *)
Definition decide_by (p : ApprovalPolicy.t) (r : GateApprovalRequest.t) (timeout : DateTime) : ApprovalDecision.t :=
  match p with
  | ApprovalPolicy.AutoDeny => ApprovalDecision.Denied "automatic denial policy in effect"
  | ApprovalPolicy.HumanRequired => ApprovalDecision.Pending timeout
  | ApprovalPolicy.ClassifiedOnly =>
      if is_classified r then ApprovalDecision.Pending timeout
      else ApprovalDecision.Approved "system:classified-bypass"
  | ApprovalPolicy.Delegated tag =>
      if bool_decide (delegated_scope_tag r = Some tag) then ApprovalDecision.Approved "system:delegated"
      else ApprovalDecision.Pending timeout
  end.

Definition park (r : GateApprovalRequest.t) (d : ApprovalDecision.t) (g : t) : t :=
  if ApprovalDecision.is_pending d then set_pending (<[action_id r := r]> (pending g)) g else g.

Definition stale (now : DateTime) (e : string * GateApprovalRequest.t) : bool :=
  (submitted_at e.2 + TIMEOUT <=? now)%Z.

Section Calls.
Context `{GateTexts}.

(** The whole call, with nothing in between. *)
Definition evaluate (now : DateTime) (r : GateApprovalRequest.t) (g : t) : ApprovalDecision.t * t :=
  let d := decide_by (policy g) r (now + TIMEOUT)%Z in
  (d, park r d (push (entry r d now) g)).

(** What [approve_manually] and [deny_manually] share. *)
Definition resolve (now : DateTime) (id : string) (d : ApprovalDecision.t) (g : t) : bool * t :=
  match pending g !! id with
  | None => (false, g)
  | Some r => (true, push (entry r d now) (set_pending (delete id (pending g)) g))
  end.
Definition approve_manually (now : DateTime) (id approver : string) (g : t) : bool * t :=
  if is_ai_actor approver then (false, g) else resolve now id (ApprovalDecision.Approved approver) g.
Definition deny_manually (now : DateTime) (id reason denier : string) (g : t) : bool * t :=
  if is_ai_actor denier then (false, g) else resolve now id (ApprovalDecision.Denied reason) g.

Definition escalate (now : DateTime) (id to reason : string) (g : t) : bool * t :=
  match pending g !! id with
  | None => (false, g)
  | Some r => (true, push (entry r (ApprovalDecision.Escalated to reason) now) g)
  end.

(** One turn of the second loop of [expire_stale_pending]. *)
Definition expire_one (now : DateTime) (e : string * GateApprovalRequest.t) (g : t) : t :=
  push (entry e.2 (ApprovalDecision.Denied "pending timeout expired") now) (set_pending (delete e.1 (pending g)) g).

Context `{HashOrder}.
Definition stale_pending (now : DateTime) (g : t) : list (string * GateApprovalRequest.t) :=
  filter (fun e => stale now e = true) (hash_iter (pending g)).
Definition expire_stale_pending (now : DateTime) (g : t) : nat * t :=
  let l := stale_pending now g in (length l, fold_left (fun g e => expire_one now e g) l g).
End Calls.

Definition pending_count (g : t) : nat := size (pending g).
Definition audit_trail_len (g : t) : nat := length (audit_trail g).
End ApprovalGate.

(** ** Concurrent calls *)
Module GateTask.

(** Where a call is.  [ExpireHolding] holds the write lock of the pending map;
    [n] is what it will answer. *)
Inductive t : Type :=
| Evaluate (r : GateApprovalRequest.t)
| EvaluateDecided (r : GateApprovalRequest.t) (d : ApprovalDecision.t) (now : DateTime)
| EvaluatePark (r : GateApprovalRequest.t) (d : ApprovalDecision.t)
| EvaluateDone (r : GateApprovalRequest.t) (d : ApprovalDecision.t)
| Approve (id approver : string)
| ApproveDone (id approver : string) (found : bool)
| Deny (id reason denier : string)
| DenyDone (id reason denier : string) (found : bool)
| Escalate (id to reason : string)
| EscalateDone (id to reason : string) (found : bool)
| Expire
| ExpireScanned (now : DateTime) (l : list (string * GateApprovalRequest.t))
| ExpireHolding (now : DateTime) (l : list (string * GateApprovalRequest.t)) (n : nat)
| ExpireDone (n : nat)
| SetPolicy (p : ApprovalPolicy.t)
| SetPolicyDone.

Definition is_call (x : t) : bool :=
  match x with
  | Evaluate _ | Approve _ _ | Deny _ _ _ | Escalate _ _ _ | Expire | SetPolicy _ => true
  | _ => false
  end.
Definition holds (x : t) : bool := match x with ExpireHolding _ _ _ => true | _ => false end.
(** The next step takes the lock of the pending map. *)
Definition wants (x : t) : bool :=
  match x with
  | EvaluatePark _ d => ApprovalDecision.is_pending d
  | Approve _ by_ | Deny _ _ by_ => negb (ApprovalGate.is_ai_actor by_)
  | Escalate _ _ _ | Expire => true
  | ExpireScanned _ (_ :: _) => true
  | _ => false
  end.
End GateTask.

Module GateRun.
Import GateApprovalRequest GateAuditEntry ApprovalGate GateTask.

Section Run.
Context {texts : GateTexts} {order : HashOrder} (P : list ApprovalPolicy.t).
Context (order_perm : forall A (m : gmap string A), hash_iter m ≡ₚ map_to_list m).

(** One critical section of a call. *)
Inductive tstep (g : ApprovalGate.t) : GateTask.t -> ApprovalGate.t -> GateTask.t -> Prop :=
| ts_decide r now :
    tstep g (Evaluate r) g (EvaluateDecided r (decide_by (policy g) r (now + TIMEOUT)%Z) now)
| ts_record r d now : tstep g (EvaluateDecided r d now) (push (entry r d now) g) (EvaluatePark r d)
| ts_park r d : tstep g (EvaluatePark r d) (park r d g) (EvaluateDone r d)
| ts_approve id by_ now :
    tstep g (Approve id by_) (approve_manually now id by_ g).2 (ApproveDone id by_ (approve_manually now id by_ g).1)
| ts_deny id reason by_ now :
    tstep g (Deny id reason by_) (deny_manually now id reason by_ g).2
      (DenyDone id reason by_ (deny_manually now id reason by_ g).1)
| ts_escalate id to reason now :
    tstep g (Escalate id to reason) (escalate now id to reason g).2
      (EscalateDone id to reason (escalate now id to reason g).1)
| ts_scan now : tstep g Expire g (ExpireScanned now (stale_pending now g))
| ts_none now : tstep g (ExpireScanned now []) g (ExpireDone 0)
| ts_lock now e l : tstep g (ExpireScanned now (e :: l)) g (ExpireHolding now (e :: l) (length (e :: l)))
| ts_expire now e l n : tstep g (ExpireHolding now (e :: l) n) (expire_one now e g) (ExpireHolding now l n)
| ts_unlock now n : tstep g (ExpireHolding now [] n) g (ExpireDone n)
| ts_policy p : tstep g (SetPolicy p) (ApprovalGate.set_policy p g) SetPolicyDone.

(** Calls arrive, with policies of [P]; a task waits while another holds the lock
    that it wants. *)
Inductive step : ApprovalGate.t * list GateTask.t -> ApprovalGate.t * list GateTask.t -> Prop :=
| step_call g ts x : is_call x = true -> (forall p, x = SetPolicy p -> p ∈ P) -> step (g, ts) (g, ts ++ [x])
| step_task g l1 x l2 g' x' :
    (wants x = true -> forall y, y ∈ l1 ++ l2 -> holds y = false) -> tstep g x g' x' ->
    step (g, l1 ++ x :: l2) (g', l1 ++ x' :: l2).

Definition reachable (s : ApprovalGate.t * list GateTask.t) : Prop :=
  exists p, p ∈ P /\ rtc step (ApprovalGate.new p, []) s.

(** *** What a trail shows *)

Definition recorded (tr : list GateAuditEntry.t) (r : GateApprovalRequest.t) (d : ApprovalDecision.t) : Prop :=
  exists e, e ∈ tr /\ request e = r /\ decision e = d.
(** The gate asked for a manual decision on [r]. *)
Definition asked (tr : list GateAuditEntry.t) (r : GateApprovalRequest.t) : Prop :=
  exists d, recorded tr r d /\ ApprovalDecision.is_pending d = true.
(** A policy decided. *)
Definition automatic (r : GateApprovalRequest.t) (d : ApprovalDecision.t) : Prop :=
  exists p t, p ∈ P /\ decide_by p r t = d.

Record entry_ok (before : list GateAuditEntry.t) (e : GateAuditEntry.t) : Prop := {
  eo_sealed : evidence_hash e = compute_evidence_hash (request e) (decision e) (decided_at e);
  eo_decided : automatic (request e) (decision e) \/
    (asked before (request e) /\ ApprovalDecision.is_pending (decision e) = false /\
     forall a, decision e = ApprovalDecision.Approved a -> is_ai_actor a = false);
}.

Definition trail_ok (tr : list GateAuditEntry.t) : Prop :=
  forall before e after, tr = before ++ e :: after -> entry_ok before e.

Lemma recorded_app tr tr' r d : recorded tr r d -> recorded (tr ++ tr') r d.
Proof. intros (e & He & ?). exists e. split; [apply elem_of_app; by left|done]. Qed.
Lemma recorded_last tr e : recorded (tr ++ [e]) (request e) (decision e).
Proof. exists e. split; [|done]. apply elem_of_app. right. by apply list_elem_of_singleton. Qed.
Lemma asked_app tr tr' r : asked tr r -> asked (tr ++ tr') r.
Proof. intros (d & Hr & Hp). exists d. split; [by apply recorded_app|done]. Qed.

Lemma trail_ok_snoc tr e : trail_ok tr -> entry_ok tr e -> trail_ok (tr ++ [e]).
Proof.
  intros Ht He before e' after. destruct after as [|y after _] using rev_ind.
  - by intros [-> ->]%app_inj_tail.
  - rewrite app_comm_cons, app_assoc. intros [-> _]%app_inj_tail. by eapply Ht.
Qed.

(** What is true of a call under way. *)
Definition task_ok (tr : list GateAuditEntry.t) (x : GateTask.t) : Prop :=
  match x with
  | EvaluateDecided r d _ => automatic r d
  | EvaluatePark r d | EvaluateDone r d => recorded tr r d
  | ApproveDone id by_ true => exists r, recorded tr r (ApprovalDecision.Approved by_) /\ action_id r = id
  | DenyDone id reason _ true => exists r, recorded tr r (ApprovalDecision.Denied reason) /\ action_id r = id
  | EscalateDone id to reason true =>
      exists r, recorded tr r (ApprovalDecision.Escalated to reason) /\ action_id r = id
  | ExpireScanned _ l | ExpireHolding _ l _ => forall id r, (id, r) ∈ l -> asked tr r
  | SetPolicy p => p ∈ P
  | _ => True
  end.

Record invariant (s : ApprovalGate.t * list GateTask.t) : Prop := {
  in_policy : policy s.1 ∈ P;
  in_pending id r : pending s.1 !! id = Some r -> action_id r = id /\ asked (audit_trail s.1) r;
  in_trail : trail_ok (audit_trail s.1);
  in_tasks x : x ∈ s.2 -> task_ok (audit_trail s.1) x;
}.

Lemma task_ok_app tr tr' x : task_ok tr x -> task_ok (tr ++ tr') x.
Proof.
  destruct x; simpl; try done; try (destruct found; try done); try apply recorded_app.
  - intros (r & Hr & ?). exists r. split; [by apply recorded_app|done].
  - intros (r & Hr & ?). exists r. split; [by apply recorded_app|done].
  - intros (r & Hr & ?). exists r. split; [by apply recorded_app|done].
  - intros Hl id r Hin. by eapply asked_app, Hl.
  - intros Hl id r Hin. by eapply asked_app, Hl.
Qed.

(** The part of the invariant that is about the gate. *)
Record gate_ok (g : ApprovalGate.t) : Prop := {
  go_policy : policy g ∈ P;
  go_pending id r : pending g !! id = Some r -> action_id r = id /\ asked (audit_trail g) r;
  go_trail : trail_ok (audit_trail g);
}.

(** A record of a request that a policy decided, or that was parked. *)
Lemma push_ok g r d now :
  gate_ok g ->
  automatic r d \/ (asked (audit_trail g) r /\ ApprovalDecision.is_pending d = false /\
    forall a, d = ApprovalDecision.Approved a -> is_ai_actor a = false) ->
  gate_ok (push (entry r d now) g).
Proof using.
  intros [Hp Hpend Ht] Hd. split; simpl; [done| |].
  - intros id r' Hr. destruct (Hpend id r' Hr). split; [done|by apply asked_app].
  - by apply trail_ok_snoc.
Qed.

Lemma remove_ok g id : gate_ok g -> gate_ok (set_pending (delete id (pending g)) g).
Proof using. intros [Hp Hpend Ht]. split; simpl; [done| |done]. intros id' r [_ Hr]%lookup_delete_Some. by apply Hpend. Qed.

Lemma recorded_push g r d now : recorded (audit_trail (push (entry r d now) g)) r d.
Proof using. exact (recorded_last (audit_trail g) (entry r d now)). Qed.

Lemma resolve_ok g now id d : gate_ok g -> ApprovalDecision.is_pending d = false ->
  (forall a, d = ApprovalDecision.Approved a -> is_ai_actor a = false) ->
  gate_ok (resolve now id d g).2 /\
  (exists ext, audit_trail (resolve now id d g).2 = audit_trail g ++ ext) /\
  ((resolve now id d g).1 = true -> exists r, recorded (audit_trail (resolve now id d g).2) r d /\ action_id r = id).
Proof using.
  intros Hg Hp Ha. unfold resolve. destruct (pending g !! id) as [r|] eqn:Hr; simpl.
  - destruct (go_pending g Hg id r Hr) as [Hid Hasked]. split_and!; [|by eexists|].
    + apply push_ok; [by apply remove_ok|]. right. by split_and!.
    + intros _. exists r. split; [exact (recorded_push (set_pending (delete id (pending g)) g) r d now)|done].
  - split_and!; [done|exists []; by rewrite app_nil_r|done].
Qed.

Lemma automatic_decision g r now : gate_ok g -> automatic r (decide_by (policy g) r (now + TIMEOUT)%Z).
Proof using. intros Hg. exists (policy g), (now + TIMEOUT)%Z. split; [apply Hg|done]. Qed.

Lemma stale_asked g now id r : gate_ok g -> (id, r) ∈ stale_pending now g -> asked (audit_trail g) r.
Proof using order_perm.
  intros Hg. unfold stale_pending. rewrite list_elem_of_filter, order_perm, elem_of_map_to_list.
  intros [_ Hr]. by apply (go_pending g Hg id).
Qed.

Lemma tstep_ok g x g' x' : gate_ok g -> task_ok (audit_trail g) x -> tstep g x g' x' ->
  gate_ok g' /\ (exists ext, audit_trail g' = audit_trail g ++ ext) /\ task_ok (audit_trail g') x'.
Proof using order_perm.
  assert (exists ext, audit_trail g = audit_trail g ++ ext) as Hsame by (exists []; by rewrite app_nil_r).
  intros Hg Hx Hs. destruct Hs as [r now|r d now|r d|id by_ now|id reason by_ now|id to reason now|now|now|now e l|now [id r] l n|now n|p];
    simpl in *.
  - split_and!; [done..|]. by apply automatic_decision.
  - split_and!; [apply push_ok; [done|by left]|by eexists|apply recorded_push].
  - unfold park. destruct (ApprovalDecision.is_pending d) eqn:Hd; [|done].
    split_and!; [|done|done]. destruct Hg as [Hp Hpend Ht]. split; simpl; [done| |done].
    intros id r' [[<- <-]|[_ Hr]]%lookup_insert_Some; [|by apply Hpend]. split; [done|by exists d].
  - unfold approve_manually. destruct (is_ai_actor by_) eqn:Hai; [done|].
    destruct (resolve_ok g now id (ApprovalDecision.Approved by_) Hg eq_refl) as (? & ? & Hr); [by intros a [= <-]|].
    split_and!; try done. destruct (resolve now id _ g) as [[] g']; simpl in *; auto.
  - unfold deny_manually. destruct (is_ai_actor by_) eqn:Hai; [done|].
    destruct (resolve_ok g now id (ApprovalDecision.Denied reason) Hg eq_refl) as (? & ? & Hr); [done|].
    split_and!; try done. destruct (resolve now id _ g) as [[] g']; simpl in *; auto.
  - unfold escalate. destruct (pending g !! id) as [r|] eqn:Hr; [|done]. simpl.
    destruct (go_pending g Hg id r Hr) as [Hid Hasked]. split_and!; [|by eexists|].
    + apply push_ok; [done|]. right. by split_and!.
    + exists r. split; [apply recorded_push|done].
  - split_and!; [done..|]. intros id r. by apply stale_asked.
  - done.
  - done.
  - pose proof (Hx id r ltac:(by left)) as Hasked. split_and!; [|by eexists|].
    + apply push_ok; [by apply remove_ok|]. right. by split_and!.
    + intros id' r' Hin. apply asked_app. apply (Hx id' r'). by right.
  - done.
  - split_and!; [|done|done]. by destruct Hg as [_ ? ?].
Qed.

Lemma step_invariant s s' : step s s' -> invariant s -> invariant s'.
Proof using order_perm.
  intros Hs [Hp Hpend Ht Hx]. destruct Hs as [g ts x Hc Hpol|g l1 x l2 g' x' _ Hs]; simpl in *.
  - split; simpl; try done. intros y [Hy| ->%list_elem_of_singleton]%elem_of_app; [by apply Hx|].
    destruct x; try done. by apply Hpol.
  - destruct (tstep_ok g x g' x') as ([? ? ?] & (ext & He) & Hx'); [done|apply Hx; apply elem_of_app; right; left|done|].
    split; simpl; try done. intros y Hy. rewrite elem_of_app, elem_of_cons in Hy.
    destruct Hy as [Hy|[->|Hy]]; [|done|]; rewrite He; apply task_ok_app, Hx; rewrite elem_of_app, elem_of_cons; tauto.
Qed.

Lemma reachable_invariant s : reachable s -> invariant s.
Proof using order_perm.
  intros (p & Hp & Hr). eapply rtc_invariant; [exact step_invariant| |exact Hr].
  split; simpl; [done|done| |by intros x ?%elem_of_nil]. intros before e after Hnil. by destruct before.
Qed.

(** A call with nothing in between does what its handler does. *)
Definition alone (a b : ApprovalGate.t * GateTask.t) : Prop := tstep a.1 a.2 b.1 b.2.

Lemma alone_l g x g' x' b : tstep g x g' x' -> rtc alone (g', x') b -> rtc alone (g, x) b.
Proof using. intros Hs Hr. eapply rtc_l; [|exact Hr]. exact Hs. Qed.

Lemma evaluate_alone now r g :
  rtc alone (g, Evaluate r) ((evaluate now r g).2, EvaluateDone r (evaluate now r g).1).
Proof using.
  eapply alone_l; [apply (ts_decide g r now)|]. eapply alone_l; [apply ts_record|]. eapply alone_l; [apply ts_park|].
  apply rtc_refl.
Qed.

Lemma expire_alone now g :
  rtc alone (g, Expire) ((expire_stale_pending now g).2, ExpireDone (expire_stale_pending now g).1).
Proof using.
  eapply alone_l; [apply (ts_scan g now)|]. unfold expire_stale_pending.
  destruct (stale_pending now g) as [|e l]; [eapply alone_l; [apply ts_none|apply rtc_refl]|].
  eapply alone_l; [apply ts_lock|]. simpl. generalize (S (length l)) as n. intros n.
  eapply alone_l; [apply ts_expire|]. generalize (expire_one now e g) as g1.
  induction l as [|e' l IH]; intros g1; simpl; (eapply alone_l; [constructor|]); [apply rtc_refl|apply IH].
Qed.

(** *** Counting approvals *)

(** An approval that no policy gives. *)
Definition by_hand (d : ApprovalDecision.t) : bool :=
  match d with
  | ApprovalDecision.Approved a => negb (String.eqb a "system:classified-bypass") && negb (String.eqb a "system:delegated")
  | _ => false
  end.
Definition count (p : ApprovalDecision.t -> bool) (r : GateApprovalRequest.t) (tr : list GateAuditEntry.t) : nat :=
  length (filter (fun e => request e = r /\ p (decision e) = true) tr).
Definition approvals : GateApprovalRequest.t -> list GateAuditEntry.t -> nat := count by_hand.
Definition askings : GateApprovalRequest.t -> list GateAuditEntry.t -> nat := count ApprovalDecision.is_pending.

Definition parked (r : GateApprovalRequest.t) (g : ApprovalGate.t) : nat :=
  if decide (pending g !! action_id r = Some r) then 1 else 0.
Definition parks (r : GateApprovalRequest.t) (x : GateTask.t) : bool :=
  match x with EvaluatePark r' d => bool_decide (r' = r) && ApprovalDecision.is_pending d | _ => false end.
Definition parking (r : GateApprovalRequest.t) (ts : list GateTask.t) : nat :=
  length (filter (fun x => parks r x = true) ts).

Lemma count_snoc p r tr e :
  count p r (tr ++ [e]) = count p r tr + (if decide (request e = r /\ p (decision e) = true) then 1 else 0).
Proof using. unfold count. rewrite filter_app, length_app, filter_cons. by destruct (decide _). Qed.

Lemma automatic_not_by_hand r d : automatic r d -> by_hand d = false.
Proof using.
  intros (p & t & _ & <-). destruct p; simpl; [done..|by destruct (is_classified r)|]. by case_bool_decide.
Qed.

Lemma parked_delete r g id : parked r (set_pending (delete id (pending g)) g) <= parked r g.
Proof using.
  unfold parked. simpl. destruct (decide (delete id (pending g) !! _ = _)) as [[_ Hr]%lookup_delete_Some|]; [|lia].
  by rewrite decide_True.
Qed.

(** What a step adds to the approvals and the parked requests, it adds to the
    questions. *)
Definition paid (r : GateApprovalRequest.t) (g : ApprovalGate.t) (x : GateTask.t) (g' : ApprovalGate.t) (x' : GateTask.t) : Prop :=
  approvals r (audit_trail g') + parked r g' + (if parks r x' then 1 else 0) + askings r (audit_trail g) <=
  approvals r (audit_trail g) + parked r g + (if parks r x then 1 else 0) + askings r (audit_trail g').

Lemma paid_same r g x x' : parks r x' = false -> paid r g x g x'.
Proof using. intros Hx. unfold paid. rewrite Hx. lia. Qed.

Lemma paid_resolve r g x now id d x' : gate_ok g -> parks r x' = false -> ApprovalDecision.is_pending d = false ->
  paid r g x (resolve now id d g).2 x'.
Proof using.
  intros Hg Hx Hd. unfold resolve. destruct (pending g !! id) as [r'|] eqn:Hr; [|by apply paid_same]. simpl.
  unfold paid, approvals, askings. simpl. rewrite !count_snoc, Hx. simpl. rewrite Hd.
  rewrite (decide_False (P := r' = r /\ false = true)) by naive_solver.
  pose proof (parked_delete r g id) as Hp. unfold parked in *. simpl in *.
  destruct (decide (r' = r /\ by_hand d = true)) as [[-> _]|_]; [|destruct (parks r x); lia].
  destruct (go_pending g Hg id r Hr) as [<- _]. rewrite (decide_True (P := pending g !! _ = _)) by done.
  rewrite lookup_delete_eq. rewrite decide_False by done. destruct (parks r x); lia.
Qed.

Lemma paid_push r g x r' d now x' : parks r x' = false -> by_hand d = false ->
  paid r g x (push (entry r' d now) g) x'.
Proof using.
  intros Hx Hd. unfold paid, approvals, askings, parked. simpl. rewrite !count_snoc, Hx. simpl. rewrite Hd.
  rewrite (decide_False (P := r' = r /\ false = true)) by naive_solver.
  destruct (decide (r' = r /\ _)), (parks r x); lia.
Qed.

Lemma tstep_paid r g x g' x' : gate_ok g -> task_ok (audit_trail g) x -> tstep g x g' x' -> paid r g x g' x'.
Proof using.
  intros Hg Hx Hs. destruct Hs as [r' now|r' d now|r' d|id by_ now|id reason by_ now|id to reason now|now|now|now e l|now e l n|now n|p];
    try (by apply paid_same).
  - simpl in Hx. pose proof (automatic_not_by_hand r' d Hx) as Hd. unfold paid, approvals, askings, parked. simpl.
    rewrite !count_snoc. simpl. rewrite Hd. rewrite (decide_False (P := r' = r /\ false = true)) by naive_solver.
    case_bool_decide; destruct (ApprovalDecision.is_pending d); simpl;
      repeat destruct (decide _); naive_solver lia.
  - unfold paid, park. simpl. destruct (ApprovalDecision.is_pending d) eqn:Hd; [|destruct (bool_decide _); simpl; lia].
    unfold parked. simpl. case_bool_decide as Hr; simpl; [repeat destruct (decide _); lia|].
    destruct (decide (<[action_id r':=r']> (pending g) !! action_id r = Some r)) as [[[_ ?]|[_ Hp]]%lookup_insert_Some|];
      [done|by rewrite decide_True|lia].
  - unfold approve_manually. destruct (is_ai_actor by_); [by apply paid_same|by apply paid_resolve].
  - unfold deny_manually. destruct (is_ai_actor by_); [by apply paid_same|by apply paid_resolve].
  - unfold escalate. destruct (pending g !! id); [by apply paid_push|by apply paid_same].
  - unfold expire_one. unfold paid. simpl. pose proof (parked_delete r g e.1) as Hp.
    unfold approvals, askings, parked in *. simpl in *. rewrite !count_snoc. simpl.
    rewrite !decide_False by naive_solver. lia.
  - unfold paid, parked. simpl. lia.
Qed.

Lemma step_counts r s s' : step s s' -> invariant s ->
  approvals r (audit_trail s.1) + parked r s.1 + parking r s.2 <= askings r (audit_trail s.1) ->
  approvals r (audit_trail s'.1) + parked r s'.1 + parking r s'.2 <= askings r (audit_trail s'.1).
Proof using.
  intros Hs Hi. destruct Hs as [g ts x Hc _|g l1 x l2 g' x' _ Hs]; simpl.
  - unfold parking. rewrite filter_app, length_app, filter_cons. destruct x; simpl; try done; lia.
  - assert (paid r g x g' x') as Hp.
    { apply tstep_paid; [by destruct Hi|apply (in_tasks _ Hi); simpl; apply elem_of_app; right; left|done]. }
    unfold paid in Hp. unfold parking. rewrite !filter_app, !length_app, !filter_cons.
    destruct (parks r x), (parks r x'); simpl in *; lia.
Qed.

Lemma reachable_counts r s : reachable s ->
  approvals r (audit_trail s.1) + parked r s.1 + parking r s.2 <= askings r (audit_trail s.1).
Proof using order_perm.
  intros (p & Hp & Hr).
  assert (invariant s /\ approvals r (audit_trail s.1) + parked r s.1 + parking r s.2 <= askings r (audit_trail s.1)) as [_ Hc];
    [|exact Hc].
  eapply (rtc_invariant step (fun s => invariant s /\ approvals r (audit_trail s.1) + parked r s.1 + parking r s.2
    <= askings r (audit_trail s.1))); [| |exact Hr].
  - intros a b Hs [Hi Hc]. split; [by eapply step_invariant|by eapply step_counts].
  - split; [|done]. apply reachable_invariant. by exists p.
Qed.

Lemma step_trail s s' : step s s' -> invariant s -> exists ext, audit_trail s'.1 = audit_trail s.1 ++ ext.
Proof using order_perm.
  intros Hs Hi. destruct Hs as [g ts x _ _|g l1 x l2 g' x' _ Hs]; [exists []; by rewrite app_nil_r|].
  destruct (tstep_ok g x g' x') as (_ & He & _); [by destruct Hi|apply (in_tasks _ Hi); simpl; apply elem_of_app; right; left|done..].
Qed.

Lemma run_trail s s' : rtc step s s' -> invariant s -> exists ext, audit_trail s'.1 = audit_trail s.1 ++ ext.
Proof using order_perm.
  induction 1 as [s|s s1 s' Hs _ IH]; intros Hi; [exists []; by rewrite app_nil_r|].
  destruct (step_trail s s1 Hs Hi) as (ext & He), (IH (step_invariant _ _ Hs Hi)) as (ext' & He').
  exists (ext ++ ext'). by rewrite He', He, app_assoc.
Qed.

(** ** Theorems *)

(** C19: a policy or a person decides, never an AI.  Whatever calls run at the same
    time, every entry of the audit trail carries the digest of its content, and
    its decision is either that of a policy in use or the resolution of a request
    that the gate had asked about before; no such approval names an approver that
    is marked as an AI.  Every decision and resolution that a call has answered is
    in the trail, the pending requests are requests that were asked about, and
    the trail only grows. *)
Theorem gate_decides s : reachable s ->
  (forall before e after, audit_trail s.1 = before ++ e :: after ->
     evidence_hash e = compute_evidence_hash (request e) (decision e) (decided_at e) /\
     (automatic (request e) (decision e) \/
      (asked before (request e) /\ ApprovalDecision.is_pending (decision e) = false /\
       forall a, decision e = ApprovalDecision.Approved a -> is_ai_actor a = false))) /\
  (forall x, x ∈ s.2 -> task_ok (audit_trail s.1) x) /\
  (forall id r, pending s.1 !! id = Some r -> action_id r = id /\ asked (audit_trail s.1) r) /\
  (forall s', rtc step s s' -> exists ext, audit_trail s'.1 = audit_trail s.1 ++ ext).
Proof using order_perm.
  intros Hi%reachable_invariant. split_and!.
  - intros before e after He. by destruct (in_trail _ Hi _ _ _ He).
  - apply (in_tasks _ Hi).
  - apply (in_pending _ Hi).
  - intros s' Hr. by apply run_trail.
Qed.

(** C20: one question, one approval.  However the calls interleave, a request is
    approved by hand at most as often as the gate asked about it, and a request
    that still waits is not yet counted. *)
Theorem approvals_are_single_use s r : reachable s ->
  approvals r (audit_trail s.1) + parked r s.1 <= askings r (audit_trail s.1).
Proof using order_perm. intros Hr. pose proof (reachable_counts r s Hr). lia. Qed.

(** Under the policies that never bypass, nothing is approved but by hand; where
    only the automatic denial is used, nothing is approved at all and nothing
    waits. *)
Theorem strict_policies s :
  reachable s -> (forall p, p ∈ P -> p = ApprovalPolicy.AutoDeny \/ p = ApprovalPolicy.HumanRequired) ->
  (forall e a, e ∈ audit_trail s.1 -> decision e = ApprovalDecision.Approved a ->
     is_ai_actor a = false /\ asked (audit_trail s.1) (request e)) /\
  ((forall p, p ∈ P -> p = ApprovalPolicy.AutoDeny) ->
     pending s.1 = ∅ /\ forall e, e ∈ audit_trail s.1 -> ApprovalDecision.is_approved (decision e) = false).
Proof using order_perm.
  intros Hi%reachable_invariant Hp.
  assert (forall e a, e ∈ audit_trail s.1 -> decision e = ApprovalDecision.Approved a ->
    is_ai_actor a = false /\ asked (audit_trail s.1) (request e)) as Hby.
  { intros e a He Hd. apply list_elem_of_split in He as (before & after & Htr).
    destruct (in_trail _ Hi _ _ _ Htr) as [_ [(p & t & Hin & Hdec)|(Ha & _ & Hai)]].
    - rewrite Hd in Hdec. by destruct (Hp p Hin) as [->| ->].
    - split; [by apply Hai|]. rewrite Htr. by apply asked_app. }
  split; [done|]. intros Hdeny.
  assert (forall r, ~ asked (audit_trail s.1) r) as Hnone.
  { intros r (d & (e & He & <- & <-) & Hpend). apply list_elem_of_split in He as (before & after & Htr).
    destruct (in_trail _ Hi _ _ _ Htr) as [_ [(p & t & Hin & Hdec)|(_ & Hn & _)]]; [|congruence].
    rewrite (Hdeny p Hin) in Hdec. by rewrite <- Hdec in Hpend. }
  split.
  - apply map_empty. intros id. destruct (pending s.1 !! id) as [r|] eqn:Hr; [|done].
    destruct (in_pending _ Hi id r Hr) as [_ Ha]. by apply Hnone in Ha.
  - intros e He. destruct (decision e) as [a| | |] eqn:Hd; try done. by destruct (Hby e a He Hd) as [_ []%Hnone].
Qed.
End Run.
End GateRun.

(** ** Schedules

    An interleaving as a list: calls that arrive, and turns of the tasks by their
    number, each at a reading of the clock. *)
Module GateSchedule.
Import GateApprovalRequest GateAuditEntry ApprovalGate GateTask GateRun.

Inductive t : Type :=
| Arrive (x : GateTask.t)
| Turn (i : nat) (now : DateTime).

Section Schedule.
Context {texts : GateTexts} {order : HashOrder} (P : list ApprovalPolicy.t).

Definition advance (now : DateTime) (g : ApprovalGate.t) (x : GateTask.t) : option (ApprovalGate.t * GateTask.t) :=
  match x with
  | Evaluate r => Some (g, EvaluateDecided r (decide_by (policy g) r (now + TIMEOUT)%Z) now)
  | EvaluateDecided r d now => Some (push (entry r d now) g, EvaluatePark r d)
  | EvaluatePark r d => Some (park r d g, EvaluateDone r d)
  | Approve id by_ =>
      Some ((approve_manually now id by_ g).2, ApproveDone id by_ (approve_manually now id by_ g).1)
  | Deny id reason by_ =>
      Some ((deny_manually now id reason by_ g).2, DenyDone id reason by_ (deny_manually now id reason by_ g).1)
  | Escalate id to reason =>
      Some ((escalate now id to reason g).2, EscalateDone id to reason (escalate now id to reason g).1)
  | Expire => Some (g, ExpireScanned now (stale_pending now g))
  | ExpireScanned _ [] => Some (g, ExpireDone 0)
  | ExpireScanned now (e :: l) => Some (g, ExpireHolding now (e :: l) (length (e :: l)))
  | ExpireHolding now (e :: l) n => Some (expire_one now e g, ExpireHolding now l n)
  | ExpireHolding _ [] n => Some (g, ExpireDone n)
  | SetPolicy p => Some (ApprovalGate.set_policy p g, SetPolicyDone)
  | _ => None
  end.

Lemma advance_tstep now g x g' x' : advance now g x = Some (g', x') -> tstep g x g' x'.
Proof using. destruct x; simpl; repeat case_match; intros [= <- <-]; constructor. Qed.

Definition take_turn (c : t) (s : ApprovalGate.t * list GateTask.t) : option (ApprovalGate.t * list GateTask.t) :=
  match c with
  | Arrive (SetPolicy _) => None
  | Arrive x => if is_call x then Some (s.1, s.2 ++ [x]) else None
  | Turn i now =>
      x ← s.2 !! i;
      if wants x && existsb holds (take i s.2 ++ drop (S i) s.2) then None
      else r ← advance now s.1 x; Some (r.1, <[i := r.2]> s.2)
  end.

Fixpoint play (l : list t) (s : ApprovalGate.t * list GateTask.t) : option (ApprovalGate.t * list GateTask.t) :=
  match l with
  | [] => Some s
  | c :: l => s ← take_turn c s; play l s
  end.

Lemma take_turn_step c s s' : take_turn c s = Some s' -> step P s s'.
Proof using.
  destruct s as [g ts], c as [x|i now]; simpl.
  - intros Ht. assert (is_call x = true /\ (forall p, x <> SetPolicy p) /\ s' = (g, ts ++ [x])) as (Hc & Hp & ->).
    { destruct x; simpl in Ht; try done; by injection Ht as <-. }
    constructor; [done|]. intros p ->. by destruct (Hp p).
  - destruct (ts !! i) as [x|] eqn:Hx; [|done]. simpl.
    destruct (wants x && existsb holds (take i ts ++ drop (S i) ts)) eqn:Hw; [done|].
    destruct (advance now g x) as [[g' x']|] eqn:Ha; [|done]. simpl. intros [= <-].
    assert (i < length ts) as Hi by (by eapply lookup_lt_Some).
    rewrite <- (take_drop_middle ts i x Hx) at 1. rewrite insert_take_drop by done.
    apply step_task; [|by eapply advance_tstep]. intros Hwant. rewrite Hwant in Hw. simpl in Hw.
    intros y Hy. destruct (holds y) eqn:Hh; [|done]. rewrite <- Hw. symmetry. apply existsb_elem. by exists y.
Qed.

Lemma play_reachable l p s : p ∈ P -> play l (ApprovalGate.new p, []) = Some s -> reachable P s.
Proof using.
  intros Hp Hl. exists p. split; [done|]. revert Hl. generalize (ApprovalGate.new p, @nil GateTask.t).
  induction l as [|c l IH]; simpl; intros s0 Hl; [injection Hl as <-; apply rtc_refl|].
  destruct (take_turn c s0) as [s1|] eqn:Hc; [|done]. eapply rtc_l; [by eapply take_turn_step|by apply IH].
Qed.
End Schedule.
End GateSchedule.

(** ** The theorems at work *)
Module GateDemo.
Import GateApprovalRequest GateAuditEntry ApprovalGate GateTask GateRun GateSchedule.

#[local] Instance gate_texts : GateTexts :=
  {| blake3_hex s := s; request_json r := action_id r; decision_json _ := "decision"; rfc3339 _ := "time" |}.
#[local] Instance gate_order : HashOrder := {| hash_iter _ m := map_to_list m |}.

Lemma gate_order_perm A (m : gmap string A) : hash_iter m ≡ₚ map_to_list m.
Proof. done. Qed.

Definition human : list ApprovalPolicy.t := [ApprovalPolicy.HumanRequired].
Lemma human_in : ApprovalPolicy.HumanRequired ∈ human.
Proof. by left. Qed.

Definition request_1 : GateApprovalRequest.t := GateApprovalRequest.new 0 "act_1" "capsule-7" "/home/notes" "filesystem:write".
Definition request_2 : GateApprovalRequest.t := GateApprovalRequest.new 0 "act_1" "capsule-7" "/etc/shadow" "filesystem:write".
Definition late : DateTime := seconds 400.

Definition ask (i : nat) (r : GateApprovalRequest.t) : list GateSchedule.t := [Arrive (Evaluate r); Turn i 0; Turn i 0; Turn i 0].

Definition played (l : list GateSchedule.t) : ApprovalGate.t * list GateTask.t :=
  default (ApprovalGate.new ApprovalPolicy.HumanRequired, []) (play l (ApprovalGate.new ApprovalPolicy.HumanRequired, [])).

Lemma played_reachable l : is_some (play l (ApprovalGate.new ApprovalPolicy.HumanRequired, [])) = true ->
  reachable human (played l).
Proof.
  intros Hl. unfold played. destruct (play l _) as [s|] eqn:E; [|done]. simpl.
  exact (play_reachable human l ApprovalPolicy.HumanRequired s human_in E).
Qed.

Definition decisions (s : ApprovalGate.t * list GateTask.t) : list (string * ApprovalDecision.t) :=
  (fun e => (target_resource (request e), decision e)) <$> audit_trail s.1.

Definition approved_in_time : list GateSchedule.t := ask 0 request_1 ++ [Arrive (Approve "act_1" "alice"); Turn 1 5].

(** A request that expires while it is approved is both approved and denied. *)
Definition expired_while_approved : list GateSchedule.t :=
  ask 0 request_1 ++ [Arrive Expire; Turn 1 late; Arrive (Approve "act_1" "alice"); Turn 2 late; Turn 1 late; Turn 1 late; Turn 1 late].

Theorem approved_and_denied :
  reachable human (played expired_while_approved) /\
  decisions (played expired_while_approved) =
    [("/home/notes", ApprovalDecision.Pending TIMEOUT); ("/home/notes", ApprovalDecision.Approved "alice");
     ("/home/notes", ApprovalDecision.Denied "pending timeout expired")].
Proof. split; [apply played_reachable|]; vm_compute; reflexivity. Qed.

(** The deadline is not looked at when a request is resolved: one that should have
    become a denial is approved. *)
Theorem approved_after_the_deadline :
  reachable human (played (ask 0 request_1 ++ [Arrive (Approve "act_1" "alice"); Turn 1 late])) /\
  decisions (played (ask 0 request_1 ++ [Arrive (Approve "act_1" "alice"); Turn 1 late])) =
    [("/home/notes", ApprovalDecision.Pending TIMEOUT); ("/home/notes", ApprovalDecision.Approved "alice")] /\
  (TIMEOUT < late)%Z.
Proof. split; [apply played_reachable|split]; vm_compute; reflexivity. Qed.

(** A second request under the same action identifier takes the place of the
    first: the approval of the identifier approves what was not asked first. *)
Theorem approval_of_a_replaced_request :
  let l := ask 0 request_1 ++ ask 1 request_2 ++ [Arrive (Approve "act_1" "alice"); Turn 2 5] in
  reachable human (played l) /\
  decisions (played l) =
    [("/home/notes", ApprovalDecision.Pending TIMEOUT); ("/etc/shadow", ApprovalDecision.Pending TIMEOUT);
     ("/etc/shadow", ApprovalDecision.Approved "alice")] /\ pending (played l).1 = ∅.
Proof. split; [apply played_reachable|split]; vm_compute; reflexivity. Qed.

(** A capsule approves its own request, when its identifier does not begin with
    the mark that the gate looks for. *)
Theorem capsule_approves_itself :
  let l := ask 0 request_1 ++ [Arrive (Approve "act_1" (proposed_by_capsule_id request_1)); Turn 1 5] in
  reachable human (played l) /\
  decisions (played l) =
    [("/home/notes", ApprovalDecision.Pending TIMEOUT);
     ("/home/notes", ApprovalDecision.Approved (proposed_by_capsule_id request_1))].
Proof. split; [apply played_reachable|]; vm_compute; reflexivity. Qed.

(** A request that is parked while the stale ones are collected is dropped: no
    decision on it is recorded, and it no longer waits. *)
Theorem parked_request_is_dropped :
  let l := ask 0 request_1 ++ [Arrive Expire; Turn 1 late] ++ ask 2 request_2 ++ [Turn 1 late; Turn 1 late; Turn 1 late] in
  reachable human (played l) /\ pending (played l).1 = ∅ /\
  decisions (played l) =
    [("/home/notes", ApprovalDecision.Pending TIMEOUT); ("/etc/shadow", ApprovalDecision.Pending TIMEOUT);
     ("/home/notes", ApprovalDecision.Denied "pending timeout expired")].
Proof. split; [apply played_reachable|split]; vm_compute; reflexivity. Qed.

Lemma in_time_reachable : reachable human (played approved_in_time).
Proof. apply played_reachable. vm_compute. reflexivity. Qed.

Lemma gate_decides_witness : exists before e after,
  audit_trail (played approved_in_time).1 = before ++ e :: after /\
  decision e = ApprovalDecision.Approved "alice" /\
  evidence_hash e = compute_evidence_hash (request e) (decision e) (decided_at e).
Proof.
  assert (exists e, audit_trail (played approved_in_time).1 !! 1 = Some e /\ decision e = ApprovalDecision.Approved "alice")
    as (e & He & Hd) by (eexists; split; vm_compute; reflexivity).
  apply list_elem_of_split_length in He as (before & after & Hs & _).
  exists before, e, after. split; [exact Hs|]. split; [exact Hd|].
  exact (proj1 (proj1 (gate_decides human gate_order_perm _ in_time_reachable) before e after Hs)).
Defined.

Lemma approvals_are_single_use_witness :
  approvals request_1 (audit_trail (played approved_in_time).1) = 1 /\
  askings request_1 (audit_trail (played approved_in_time).1) = 1 /\ parked request_1 (played approved_in_time).1 = 0.
Proof.
  pose proof (approvals_are_single_use human gate_order_perm _ request_1 in_time_reachable) as Hc.
  assert (approvals request_1 (audit_trail (played approved_in_time).1) = 1) as Ha by (vm_compute; reflexivity).
  assert (askings request_1 (audit_trail (played approved_in_time).1) = 1) as Hq by (vm_compute; reflexivity).
  rewrite Ha, Hq in Hc. split; [exact Ha|]. split; [exact Hq|]. clear - Hc. lia.
Defined.

Lemma strict_policies_witness : exists e, e ∈ audit_trail (played approved_in_time).1 /\
  decision e = ApprovalDecision.Approved "alice" /\ is_ai_actor "alice" = false.
Proof.
  assert (exists e, audit_trail (played approved_in_time).1 !! 1 = Some e /\ decision e = ApprovalDecision.Approved "alice")
    as (e & He & Hd) by (eexists; split; vm_compute; reflexivity).
  apply list_elem_of_lookup_2 in He. exists e. split; [exact He|]. split; [exact Hd|].
  assert (forall p, p ∈ human -> p = ApprovalPolicy.AutoDeny \/ p = ApprovalPolicy.HumanRequired) as Hp.
  { intros p Hin. right. by apply list_elem_of_singleton in Hin. }
  exact (proj1 (proj1 (strict_policies human gate_order_perm _ in_time_reachable Hp) e "alice" He Hd)).
Defined.
End GateDemo.
