(* ===== verification/Sandbox.v ===== *)
(** * The sandbox: composition of profiles and their enforcement (crate [aios-sandbox])

    [InMemorySandboxComposer] merges up to six sources into one profile
    ([in_memory_composer.rs]); [ResourceLimitEnforcer] and [GpuPolicyEnforcer]
    test requests against a profile ([resource_enforcer.rs],
    [gpu_enforcer.rs]).  The theorems relate the two: what is composed is the
    greatest lower bound of its sources, so that the composed profile admits
    what all of its sources admit and nothing else.  Fresh ULIDs and the clock
    are arguments; the emitter is what it is given to emit. *)
From stdpp Require Import sorting.
From S2P Require Import Prelude Collections.

(** ** Vocabularies ([isolation.rs], [network.rs], [gpu.rs]) *)
Module IsolationKind.
Inductive t : Type := NamespaceLocal | ProcessContainer | VmGuest | BrowserOriginIsolated | NoIsolation.
End IsolationKind.

Module NetworkPosture.
Inductive t : Type := DenyAll | LoopbackOnly | HostLimited | ExplicitAllowlist | Full.
(** The derived order is that of the declaration. *)
Definition rank (x : t) : nat :=
  match x with DenyAll => 0 | LoopbackOnly => 1 | HostLimited => 2 | ExplicitAllowlist => 3 | Full => 4 end.
Definition min (x y : t) : t := if Nat.leb (rank x) (rank y) then x else y.
End NetworkPosture.

Module GpuCapabilityClass.
Inductive t : Type := GpuPassiveDisplay | GpuBasic2d | GpuRich2d | GpuFull3d | GpuComputeHeavy.
Definition rank (x : t) : nat :=
  match x with GpuPassiveDisplay => 0 | GpuBasic2d => 1 | GpuRich2d => 2 | GpuFull3d => 3 | GpuComputeHeavy => 4 end.
Definition min (x y : t) : t := if Nat.leb (rank x) (rank y) then x else y.
End GpuCapabilityClass.

Module SandboxError.
Inductive t : Type :=
| ProfileNotFound (id : string)
| InvalidProfile (why : string)
| ManifestSignatureInvalid
| ManifestUnknownAuthority (authority : string)
| ResourceLimitsViolation (limit : string) (requested max : Z)
| GpuPolicyViolation (why : string)
| IsolationKindNotSupported (kind : IsolationKind.t) (reason : string)
| SyscallNotAllowed (syscall : string) (isolation_kind : IsolationKind.t)
| Internal (why : string)
| EvidenceEmitFailed (why : string).
End SandboxError.

(** ** Limits and policies ([resources.rs], [gpu.rs]) *)
Module ResourceLimits.
Record t : Type := {
  cpu_quota_percent : Z;
  memory_max_bytes : Z;
  io_max_bytes_per_sec : option Z;
  network_max_bytes_per_sec : option Z;
  process_max_count : option Z;
  file_descriptor_max : option Z;
  expires_at : option DateTime;
}.
Definition default_strict : t :=
  {| cpu_quota_percent := 10; memory_max_bytes := 64 * 1024 * 1024; io_max_bytes_per_sec := Some (1024 * 1024)%Z;
     network_max_bytes_per_sec := Some (1024 * 1024)%Z; process_max_count := Some 4%Z; file_descriptor_max := Some 64%Z;
     expires_at := None |}.
Definition default_permissive : t :=
  {| cpu_quota_percent := 100; memory_max_bytes := 2 * 1024 * 1024 * 1024; io_max_bytes_per_sec := None;
     network_max_bytes_per_sec := None; process_max_count := Some 256%Z; file_descriptor_max := Some 1024%Z;
     expires_at := None |}.
Definition validate (l : t) : result SandboxError.t unit :=
  if (100 <? cpu_quota_percent l)%Z
  then Err (SandboxError.ResourceLimitsViolation "cpu_quota_percent" (cpu_quota_percent l) 100)
  else if (memory_max_bytes l =? 0)%Z then Err (SandboxError.ResourceLimitsViolation "memory_max_bytes" 0 u64_max)
  else Ok tt.
End ResourceLimits.

Module GpuPolicy.
Record t : Type := {
  gpu_capability_class : GpuCapabilityClass.t;
  vk_device_required : bool;
  dmabuf_passthrough_allowed : bool;
  per_group_partitioning : bool;
  iommu_required : bool;
  expires_at : option DateTime;
}.
Definition default_deny_all : t :=
  {| gpu_capability_class := GpuCapabilityClass.GpuPassiveDisplay; vk_device_required := false;
     dmabuf_passthrough_allowed := false; per_group_partitioning := true; iommu_required := true; expires_at := None |}.
Definition default_permissive : t :=
  {| gpu_capability_class := GpuCapabilityClass.GpuFull3d; vk_device_required := true;
     dmabuf_passthrough_allowed := true; per_group_partitioning := true; iommu_required := false; expires_at := None |}.
Definition set_class (c : GpuCapabilityClass.t) (p : t) : t :=
  {| gpu_capability_class := c; vk_device_required := vk_device_required p;
     dmabuf_passthrough_allowed := dmabuf_passthrough_allowed p; per_group_partitioning := per_group_partitioning p;
     iommu_required := iommu_required p; expires_at := expires_at p |}.
End GpuPolicy.

(** ** Profiles and requests ([profile.rs], [composer.rs]) *)
Module SandboxProfile.
Record t : Type := {
  profile_id : string;
  name : string;
  description : string;
  isolation_kind : IsolationKind.t;
  resource_limits : ResourceLimits.t;
  gpu_policy : GpuPolicy.t;
  network_posture : NetworkPosture.t;
  syscall_allowlist : option (list string);
  signing_authority : string;
  signature_ed25519 : string;
}.
Definition new_id (ulid : string) : string := "sbx_" +:+ ulid.
Definition new_strict (ulid name description : string) : t :=
  {| profile_id := new_id ulid; name := name; description := description;
     isolation_kind := IsolationKind.NamespaceLocal; resource_limits := ResourceLimits.default_strict;
     gpu_policy := GpuPolicy.default_deny_all; network_posture := NetworkPosture.DenyAll; syscall_allowlist := None;
     signing_authority := ""; signature_ed25519 := "" |}.

(** What the rules and the composer assign. *)
Definition set_confinement (i : IsolationKind.t) (g : GpuPolicy.t) (n : NetworkPosture.t) (p : t) : t :=
  {| profile_id := profile_id p; name := name p; description := description p; isolation_kind := i;
     resource_limits := resource_limits p; gpu_policy := g; network_posture := n;
     syscall_allowlist := syscall_allowlist p; signing_authority := signing_authority p;
     signature_ed25519 := signature_ed25519 p |}.
Definition set_id (id : string) (p : t) : t :=
  {| profile_id := id; name := name p; description := description p; isolation_kind := isolation_kind p;
     resource_limits := resource_limits p; gpu_policy := gpu_policy p; network_posture := network_posture p;
     syscall_allowlist := syscall_allowlist p; signing_authority := signing_authority p;
     signature_ed25519 := signature_ed25519 p |}.
End SandboxProfile.

Module ComposeRequest.
Record t : Type := {
  subject : string;
  action_kind : string;
  base_profile_id : option string;
  adapter_default : option SandboxProfile.t;
  app_manifest : option SandboxProfile.t;
  user_request : option SandboxProfile.t;
  policy_required : option SandboxProfile.t;
  group_floor : option SandboxProfile.t;
  runtime_safety_floor : option SandboxProfile.t;
  recovery_mode : bool;
  is_ai : bool;
}.
End ComposeRequest.

Module ComposeResult.
Record t : Type := {
  profile : SandboxProfile.t;
  merged_sources : list string;
  recovery_mode_enforced : bool;
  ai_mode_enforced : bool;
}.
End ComposeResult.

Module SandboxComposedPayload.
Record t : Type := {
  profile_id : string;
  isolation_kind : IsolationKind.t;
  network_posture : NetworkPosture.t;
  gpu_capability_class : GpuCapabilityClass.t;
  composed_at : DateTime;
}.
End SandboxComposedPayload.

Module GpuCapabilityBoundPayload.
Record t : Type := {
  binding_id : string;
  group_id : string;
  subject : string;
  gpu_capability_class : GpuCapabilityClass.t;
  degraded_isolation : bool;
  bound_at : DateTime;
}.
End GpuCapabilityBoundPayload.

Module ResourceLimitExceededPayload.
Record t : Type := {
  profile_id : string;
  limit_kind : string;
  requested : Z;
  max : Z;
  exceeded_at : DateTime;
}.
End ResourceLimitExceededPayload.

(** ** The composer *)
Module SandboxComposer.
Import SandboxProfile.

Record t : Type := {
  profiles : gmap string SandboxProfile.t;
  (** whether an evidence emitter is attached *)
  evidence_emitter : bool;
}.

Definition new : t := {| profiles := ∅; evidence_emitter := false |}.
Definition with_evidence_emitter (c : t) : t := {| profiles := profiles c; evidence_emitter := true |}.

Definition isolation_strictness (k : IsolationKind.t) : nat :=
  match k with
  | IsolationKind.NoIsolation => 0
  | IsolationKind.NamespaceLocal => 1
  | IsolationKind.ProcessContainer => 2
  | IsolationKind.VmGuest => 3
  | IsolationKind.BrowserOriginIsolated => 4
  end.

(** [merge_option_u64_min], [merge_option_u32_min] and the match on [expires_at]. *)
Definition merge_option_min (a b : option Z) : option Z :=
  match a, b with
  | None, None => None
  | Some x, None => Some x
  | None, Some y => Some y
  | Some x, Some y => Some (Z.min x y)
  end.

Definition merge_resource_limits (a b : ResourceLimits.t) : ResourceLimits.t :=
  {| ResourceLimits.cpu_quota_percent := Z.min (ResourceLimits.cpu_quota_percent a) (ResourceLimits.cpu_quota_percent b);
     ResourceLimits.memory_max_bytes := Z.min (ResourceLimits.memory_max_bytes a) (ResourceLimits.memory_max_bytes b);
     ResourceLimits.io_max_bytes_per_sec :=
       merge_option_min (ResourceLimits.io_max_bytes_per_sec a) (ResourceLimits.io_max_bytes_per_sec b);
     ResourceLimits.network_max_bytes_per_sec :=
       merge_option_min (ResourceLimits.network_max_bytes_per_sec a) (ResourceLimits.network_max_bytes_per_sec b);
     ResourceLimits.process_max_count :=
       merge_option_min (ResourceLimits.process_max_count a) (ResourceLimits.process_max_count b);
     ResourceLimits.file_descriptor_max :=
       merge_option_min (ResourceLimits.file_descriptor_max a) (ResourceLimits.file_descriptor_max b);
     ResourceLimits.expires_at := merge_option_min (ResourceLimits.expires_at a) (ResourceLimits.expires_at b) |}.

Definition merge_gpu_policy (a b : GpuPolicy.t) : GpuPolicy.t :=
  {| GpuPolicy.gpu_capability_class :=
       GpuCapabilityClass.min (GpuPolicy.gpu_capability_class a) (GpuPolicy.gpu_capability_class b);
     GpuPolicy.vk_device_required := GpuPolicy.vk_device_required a || GpuPolicy.vk_device_required b;
     GpuPolicy.dmabuf_passthrough_allowed :=
       GpuPolicy.dmabuf_passthrough_allowed a && GpuPolicy.dmabuf_passthrough_allowed b;
     GpuPolicy.per_group_partitioning := GpuPolicy.per_group_partitioning a || GpuPolicy.per_group_partitioning b;
     GpuPolicy.iommu_required := GpuPolicy.iommu_required a || GpuPolicy.iommu_required b;
     GpuPolicy.expires_at := merge_option_min (GpuPolicy.expires_at a) (GpuPolicy.expires_at b) |}.

Definition merge_syscall_allowlist (a b : option (list string)) : option (list string) :=
  match a, b with
  | None, None => None
  | Some l, None | None, Some l => Some l
  | Some la, Some lb => Some (sort_strings (filter (fun s => s ∈ lb) la))
  end.

Definition merge_profiles (base other : SandboxProfile.t) : SandboxProfile.t :=
  {| profile_id := profile_id base;
     name := if String.eqb (name other) "" then name base else name other;
     description := if String.eqb (description other) "" then description base else description other;
     isolation_kind :=
       if Nat.leb (isolation_strictness (isolation_kind other)) (isolation_strictness (isolation_kind base))
       then isolation_kind base else isolation_kind other;
     resource_limits := merge_resource_limits (resource_limits base) (resource_limits other);
     gpu_policy := merge_gpu_policy (gpu_policy base) (gpu_policy other);
     network_posture := NetworkPosture.min (network_posture base) (network_posture other);
     syscall_allowlist := merge_syscall_allowlist (syscall_allowlist base) (syscall_allowlist other);
     signing_authority := signing_authority base;
     signature_ed25519 := "" |}.

(** The rules answer whether they tightened a field. *)
Definition above_loopback (p : SandboxProfile.t) : bool :=
  Nat.ltb (NetworkPosture.rank NetworkPosture.LoopbackOnly) (NetworkPosture.rank (network_posture p)).

Definition apply_recovery_rules (p : SandboxProfile.t) : bool * SandboxProfile.t :=
  let net := above_loopback p in
  let iso := Nat.ltb (isolation_strictness (isolation_kind p)) (isolation_strictness IsolationKind.ProcessContainer) in
  (net || iso,
   set_confinement (if iso then IsolationKind.ProcessContainer else isolation_kind p) (gpu_policy p)
     (if net then NetworkPosture.LoopbackOnly else network_posture p) p).

Definition apply_ai_rules (p : SandboxProfile.t) : bool * SandboxProfile.t :=
  let net := above_loopback p in
  let gpu := Nat.ltb (GpuCapabilityClass.rank GpuCapabilityClass.GpuBasic2d)
               (GpuCapabilityClass.rank (GpuPolicy.gpu_capability_class (gpu_policy p))) in
  (net || gpu,
   set_confinement (isolation_kind p)
     (if gpu then GpuPolicy.set_class GpuCapabilityClass.GpuBasic2d (gpu_policy p) else gpu_policy p)
     (if net then NetworkPosture.LoopbackOnly else network_posture p) p).

Definition get_profile (id : string) (c : t) : result SandboxError.t SandboxProfile.t :=
  match profiles c !! id with Some p => Ok p | None => Err (SandboxError.ProfileNotFound id) end.
Definition store_profile (p : SandboxProfile.t) (c : t) : result SandboxError.t string * t :=
  (Ok (profile_id p), {| profiles := <[profile_id p := p]> (profiles c); evidence_emitter := evidence_emitter c |}).

Definition list_profiles `{HashOrder} (c : t) : list SandboxProfile.t := (hash_iter (profiles c)).*2.

(** The fixtures of [with_fixtures]; [ulid] draws their identifiers. *)
Definition fixtures (ulid : nat -> string) : list SandboxProfile.t :=
  [{| profile_id := new_id (ulid 0); name := "restrictive_ai"; description := "AI agent sandbox — maximum restrictions";
      isolation_kind := IsolationKind.NamespaceLocal; resource_limits := ResourceLimits.default_strict;
      gpu_policy := GpuPolicy.default_deny_all; network_posture := NetworkPosture.DenyAll;
      syscall_allowlist := Some ["aios-ai-basic"]; signing_authority := "aios-root"; signature_ed25519 := "" |};
   {| profile_id := new_id (ulid 1); name := "balanced_human"; description := "Human operator sandbox — moderate access";
      isolation_kind := IsolationKind.ProcessContainer;
      resource_limits :=
        {| ResourceLimits.cpu_quota_percent := 75; ResourceLimits.memory_max_bytes := 512 * 1024 * 1024;
           ResourceLimits.io_max_bytes_per_sec := Some (10 * 1024 * 1024)%Z;
           ResourceLimits.network_max_bytes_per_sec := Some (10 * 1024 * 1024)%Z;
           ResourceLimits.process_max_count := Some 64%Z; ResourceLimits.file_descriptor_max := Some 256%Z;
           ResourceLimits.expires_at := None |};
      gpu_policy :=
        {| GpuPolicy.gpu_capability_class := GpuCapabilityClass.GpuRich2d; GpuPolicy.vk_device_required := false;
           GpuPolicy.dmabuf_passthrough_allowed := true; GpuPolicy.per_group_partitioning := false;
           GpuPolicy.iommu_required := false; GpuPolicy.expires_at := None |};
      network_posture := NetworkPosture.HostLimited;
      syscall_allowlist := Some ["aios-human-basic"; "aios-human-net"]; signing_authority := "aios-root";
      signature_ed25519 := "" |};
   {| profile_id := new_id (ulid 2); name := "service_class"; description := "System service sandbox — permissive within policy";
      isolation_kind := IsolationKind.VmGuest; resource_limits := ResourceLimits.default_permissive;
      gpu_policy :=
        {| GpuPolicy.gpu_capability_class := GpuCapabilityClass.GpuFull3d; GpuPolicy.vk_device_required := true;
           GpuPolicy.dmabuf_passthrough_allowed := true; GpuPolicy.per_group_partitioning := true;
           GpuPolicy.iommu_required := true; GpuPolicy.expires_at := None |};
      network_posture := NetworkPosture.ExplicitAllowlist;
      syscall_allowlist := Some ["aios-service"; "aios-service-net"; "aios-service-gpu"];
      signing_authority := "aios-root"; signature_ed25519 := "" |};
   {| profile_id := new_id (ulid 3); name := "recovery_only"; description := "Recovery-mode minimum floor";
      isolation_kind := IsolationKind.ProcessContainer;
      resource_limits :=
        {| ResourceLimits.cpu_quota_percent := 25; ResourceLimits.memory_max_bytes := 128 * 1024 * 1024;
           ResourceLimits.io_max_bytes_per_sec := Some (512 * 1024)%Z;
           ResourceLimits.network_max_bytes_per_sec := Some (512 * 1024)%Z;
           ResourceLimits.process_max_count := Some 8%Z; ResourceLimits.file_descriptor_max := Some 32%Z;
           ResourceLimits.expires_at := None |};
      gpu_policy := GpuPolicy.default_deny_all; network_posture := NetworkPosture.LoopbackOnly;
      syscall_allowlist := Some ["aios-recovery"]; signing_authority := "aios-root"; signature_ed25519 := "" |}].
Definition with_fixtures (ulid : nat -> string) : t :=
  {| profiles := fold_left (fun m p => <[profile_id p := p]> m) (fixtures ulid) ∅; evidence_emitter := false |}.

(** One source of the merge: present or not. *)
Definition merge_source (source : string) (p : option SandboxProfile.t) (acc : SandboxProfile.t * list string)
    : SandboxProfile.t * list string :=
  match p with
  | Some p => (merge_profiles acc.1 p, acc.2 ++ [source])
  | None => acc
  end.

(** The profile that the merge starts from; [ulid] names the default one. *)
Definition starting_profile (ulid : string) (r : ComposeRequest.t) (c : t)
    : result SandboxError.t (SandboxProfile.t * list string) :=
  match ComposeRequest.base_profile_id r with
  | Some base_id =>
      let? base := get_profile base_id c in
      Ok (base, ["base_profile:" +:+ base_id])
  | None =>
      match ComposeRequest.adapter_default r with
      | Some p => Ok (p, ["adapter_default"])
      | None => Ok (new_strict ulid "composer-default" "Default strict composer profile", ["composer_default"])
      end
  end.

(** The rules, the fresh identity and the evidence, after the merge: the answer,
    and what is given to the emitter, whose own answer is ignored. *)
Definition finish (ulid : string) (now : DateTime) (r : ComposeRequest.t) (c : t) (acc : SandboxProfile.t * list string)
    : ComposeResult.t * option SandboxComposedPayload.t :=
  let '(merged, sources) := acc in
  let '(recovery, merged) :=
    if ComposeRequest.recovery_mode r then apply_recovery_rules merged else (false, merged) in
  let '(ai, merged) := if ComposeRequest.is_ai r then apply_ai_rules merged else (false, merged) in
  let merged := set_id (new_id ulid) merged in
  ({| ComposeResult.profile := merged; ComposeResult.merged_sources := sources;
      ComposeResult.recovery_mode_enforced := recovery; ComposeResult.ai_mode_enforced := ai |},
   if evidence_emitter c
   then Some {| SandboxComposedPayload.profile_id := profile_id merged;
                SandboxComposedPayload.isolation_kind := isolation_kind merged;
                SandboxComposedPayload.network_posture := network_posture merged;
                SandboxComposedPayload.gpu_capability_class := GpuPolicy.gpu_capability_class (gpu_policy merged);
                SandboxComposedPayload.composed_at := now |}
   else None).

Definition compose (ulid ulid' : string) (now : DateTime) (r : ComposeRequest.t) (c : t)
    : result SandboxError.t ComposeResult.t * option SandboxComposedPayload.t :=
  match starting_profile ulid r c with
  | Err e => (Err e, None)
  | Ok start =>
      let acc := merge_source "app_manifest" (ComposeRequest.app_manifest r) start in
      let acc := merge_source "user_request" (ComposeRequest.user_request r) acc in
      let acc := merge_source "policy_required" (ComposeRequest.policy_required r) acc in
      let acc := merge_source "group_floor" (ComposeRequest.group_floor r) acc in
      let acc := merge_source "runtime_safety_floor" (ComposeRequest.runtime_safety_floor r) acc in
      let '(res, payload) := finish ulid' now r c acc in
      (Ok res, payload)
  end.
End SandboxComposer.

(** ** Enforcement of resources and system calls ([resource_enforcer.rs]) *)
Module ResourceRequest.
Record t : Type := {
  cpu_pct : Z;
  memory_bytes : Z;
  io_bytes_per_sec : Z;
  network_bytes_per_sec : Z;
  process_count : Z;
  fd_count : Z;
}.
End ResourceRequest.

(** [ResourceUsage] has the fields of a request, [ResourceRemaining] signed ones. *)
Module ResourceRemaining.
Record t : Type := {
  cpu_pct : Z;
  memory_bytes : Z;
  io_bytes_per_sec : Z;
  network_bytes_per_sec : Z;
  process_count : Z;
  fd_count : Z;
}.
End ResourceRemaining.

Module ResourceLimitEnforcer.
Import ResourceLimits ResourceRequest.

(** One of the six tests, and the first that fails: the limit, the request, the cap. *)
Definition over_cap (limit : string) (requested : Z) (cap : option Z) : option (string * Z * Z) :=
  match cap with
  | Some cap => if (cap <? requested)%Z then Some (limit, requested, cap) else None
  | None => None
  end.
Definition or_else {A} (a b : option A) : option A := match a with Some _ => a | None => b end.
Definition first_exceeded (r : ResourceRequest.t) (l : ResourceLimits.t) : option (string * Z * Z) :=
  or_else (over_cap "cpu_quota_percent" (cpu_pct r) (Some (cpu_quota_percent l)))
    (or_else (over_cap "memory_max_bytes" (memory_bytes r) (Some (memory_max_bytes l)))
      (or_else (over_cap "io_max_bytes_per_sec" (io_bytes_per_sec r) (io_max_bytes_per_sec l))
        (or_else (over_cap "network_max_bytes_per_sec" (network_bytes_per_sec r) (network_max_bytes_per_sec l))
          (or_else (over_cap "process_max_count" (process_count r) (process_max_count l))
            (over_cap "file_descriptor_max" (fd_count r) (file_descriptor_max l)))))).

(** The payload names a fresh profile id. *)
Definition emit_resource_limit_exceeded (emitter : bool) (ulid : string) (now : DateTime) (limit_kind : string)
    (requested max : Z) : option ResourceLimitExceededPayload.t :=
  if emitter
  then Some {| ResourceLimitExceededPayload.profile_id := SandboxProfile.new_id ulid;
               ResourceLimitExceededPayload.limit_kind := limit_kind;
               ResourceLimitExceededPayload.requested := requested; ResourceLimitExceededPayload.max := max;
               ResourceLimitExceededPayload.exceeded_at := now |}
  else None.

(** The answer, and what is given to the emitter. *)
Definition check_usage (emitter : bool) (ulid : string) (now : DateTime) (r : ResourceRequest.t) (l : ResourceLimits.t)
    : result SandboxError.t unit * option ResourceLimitExceededPayload.t :=
  match first_exceeded r l with
  | Some (limit, requested, max) =>
      (Err (SandboxError.ResourceLimitsViolation limit requested max),
       emit_resource_limit_exceeded emitter ulid now limit requested max)
  | None => (Ok tt, None)
  end.

Definition i32_max : Z := 2147483647.
(** [i32::try_from(x).unwrap_or(i32::MAX)] and the same for [i64]. *)
Definition to_signed (max x : Z) : Z := if (x <=? max)%Z then x else max.
Definition remaining_of (max : Z) (cap : option Z) (used : Z) : Z :=
  match cap with Some cap => (to_signed max cap - to_signed max used)%Z | None => max end.

Definition compute_remaining (u : ResourceRequest.t) (l : ResourceLimits.t) : ResourceRemaining.t :=
  {| ResourceRemaining.cpu_pct := remaining_of i32_max (Some (cpu_quota_percent l)) (cpu_pct u);
     ResourceRemaining.memory_bytes := remaining_of i64_max (Some (memory_max_bytes l)) (memory_bytes u);
     ResourceRemaining.io_bytes_per_sec := remaining_of i64_max (io_max_bytes_per_sec l) (io_bytes_per_sec u);
     ResourceRemaining.network_bytes_per_sec :=
       remaining_of i64_max (network_max_bytes_per_sec l) (network_bytes_per_sec u);
     ResourceRemaining.process_count := remaining_of i32_max (process_max_count l) (process_count u);
     ResourceRemaining.fd_count := remaining_of i32_max (file_descriptor_max l) (fd_count u) |}.

Definition validate_syscall (syscall : string) (allowlist : option (list string)) : result SandboxError.t unit :=
  match allowlist with
  | None => Ok tt
  | Some l => if existsb (String.eqb syscall) l then Ok tt
              else Err (SandboxError.SyscallNotAllowed syscall IsolationKind.NamespaceLocal)
  end.

Definition enforce_cpu_quota (requested_pct limit : Z) : result SandboxError.t Z :=
  if (requested_pct =? 0)%Z then Err (SandboxError.ResourceLimitsViolation "cpu_quota_percent" 0 limit)
  else if (100 <? requested_pct)%Z
  then Err (SandboxError.ResourceLimitsViolation "cpu_quota_percent" requested_pct 100)
  else Ok (Z.min requested_pct limit).
End ResourceLimitEnforcer.

Module SyscallEnforcement.
Record t : Type := { isolation_kind : IsolationKind.t; allowlist : list string }.

Definition process_container_allowlist : list string :=
  ["read"; "write"; "open"; "close"; "stat"; "fstat"; "lstat"; "poll"; "lseek"; "mmap"; "mprotect";
   "munmap"; "brk"; "rt_sigaction"; "rt_sigprocmask"; "rt_sigreturn"; "ioctl"; "pread64";
   "pwrite64"; "readv"; "writev"; "access"; "pipe"; "select"; "sched_yield"; "mremap"; "msync";
   "madvise"; "mincore"; "dup"; "dup2"; "pause"; "nanosleep"; "getpid"; "socket"; "connect";
   "accept"; "sendto"; "recvfrom"; "sendmsg"; "recvmsg"; "bind"; "listen"; "getsockname";
   "socketpair"; "setsockopt"; "clone"; "fork"; "execve"; "exit"; "wait4"; "kill"; "fcntl";
   "fsync"; "fdatasync"; "truncate"; "ftruncate"; "getdents"; "getcwd"; "chdir"; "rename"; "mkdir";
   "unlink"; "readlink"; "chmod"; "fchmod"; "umask"; "gettimeofday"; "getrlimit"; "getuid";
   "getgid"; "setuid"; "setgid"; "getgroups"; "gettid"; "prctl"; "arch_prctl"; "futex";
   "epoll_create"; "epoll_ctl"; "epoll_wait"; "clock_gettime"; "clock_getres"].

Definition namespace_local_extra : list string :=
  ["msgget"; "msgsnd"; "msgrcv"; "msgctl"; "semget"; "semop"; "semctl"; "shmget"; "shmat"; "shmdt";
   "shmctl"; "ptrace"; "sched_setaffinity"; "sched_getaffinity"; "set_tid_address";
   "set_robust_list"; "get_robust_list"; "timerfd_create"; "timerfd_settime"; "timerfd_gettime";
   "signalfd"; "memfd_create"; "eventfd"; "capget"].
Definition namespace_local_allowlist : list string := process_container_allowlist ++ namespace_local_extra.

Definition vm_guest_extra : list string :=
  ["uname"; "sysinfo"; "times"; "getrusage"; "getrlimit"; "setrlimit"; "getegid"; "geteuid";
   "getgid"; "getgroups"; "getpgid"; "getpgrp"; "getppid"; "getresgid"; "getresuid"; "getsid";
   "getuid"; "setfsgid"; "setfsuid"; "setpgid"; "setregid"; "setresgid"; "setresuid"; "setreuid";
   "setsid"; "setgroups"; "personality"; "sigaltstack"; "statfs"; "fstatfs"; "statx"; "sync";
   "syncfs"; "link"; "symlink"; "lchown"; "fchown"; "chown"; "renameat"; "renameat2"; "mkdirat";
   "mknod"; "mknodat"; "newfstatat"; "openat"; "openat2"; "readlinkat"; "faccessat"; "faccessat2";
   "fchmodat"; "fchownat"; "linkat"; "unlinkat"; "symlinkat"; "mkfifo"; "mkfifoat"; "utimensat";
   "futimesat"; "inotify_init"; "inotify_init1"; "inotify_add_watch"; "inotify_rm_watch";
   "fanotify_init"; "fanotify_mark"; "perf_event_open"; "bpf"; "seccomp"; "rseq"].
Definition vm_guest_allowlist : list string := namespace_local_allowlist ++ vm_guest_extra.

Definition browser_origin_allowlist : list string :=
  ["read"; "write"; "mmap"; "munmap"; "mprotect"; "brk"; "close"; "futex"; "exit"; "rt_sigreturn";
   "sigaltstack"; "getpid"; "gettid"; "sched_yield"; "nanosleep"; "clock_gettime"; "clock_getres";
   "gettimeofday"; "prctl"; "arch_prctl"; "set_robust_list"; "set_tid_address"].

Definition canonical (kind : IsolationKind.t) : option t :=
  match kind with
  | IsolationKind.NoIsolation => None
  | IsolationKind.ProcessContainer => Some {| isolation_kind := kind; allowlist := process_container_allowlist |}
  | IsolationKind.NamespaceLocal => Some {| isolation_kind := kind; allowlist := namespace_local_allowlist |}
  | IsolationKind.VmGuest => Some {| isolation_kind := kind; allowlist := vm_guest_allowlist |}
  | IsolationKind.BrowserOriginIsolated => Some {| isolation_kind := kind; allowlist := browser_origin_allowlist |}
  end.

Definition validate (syscall : string) (e : t) : result SandboxError.t unit :=
  if existsb (String.eqb syscall) (allowlist e) then Ok tt
  else Err (SandboxError.SyscallNotAllowed syscall (isolation_kind e)).
End SyscallEnforcement.

(** ** Enforcement of the GPU policy ([gpu_enforcer.rs]) *)
Module IommuStatus.
Inductive t : Type := Available | Unavailable | Unknown.
Definition is_available (x : t) : bool := match x with Available => true | _ => false end.
End IommuStatus.

Module GpuCapabilityBinding.
Record t : Type := {
  binding_id : string;
  gpu_capability_class : GpuCapabilityClass.t;
  group_id : string;
  subject : string;
  vk_device_required : bool;
  dmabuf_passthrough_allowed : bool;
  iommu_required : bool;
  degraded_isolation : bool;
  issued_at : DateTime;
  expires_at : option DateTime;
}.
End GpuCapabilityBinding.

Module GpuPolicyEnforcer.
Import GpuPolicy.

Record t : Type := {
  trusted_gpu_authority : string;
  iommu_status : IommuStatus.t;
  evidence_emitter : bool;
}.
Definition new (authority : string) (status : IommuStatus.t) : t :=
  {| trusted_gpu_authority := authority; iommu_status := status; evidence_emitter := false |}.
Definition new_with_defaults : t := new "aios-gpu-root" IommuStatus.Unknown.
Definition with_evidence_emitter (e : t) : t :=
  {| trusted_gpu_authority := trusted_gpu_authority e; iommu_status := iommu_status e; evidence_emitter := true |}.

(** [Debug] of a capability class. *)
Definition class_debug (c : GpuCapabilityClass.t) : string :=
  match c with
  | GpuCapabilityClass.GpuPassiveDisplay => "GpuPassiveDisplay"
  | GpuCapabilityClass.GpuBasic2d => "GpuBasic2d"
  | GpuCapabilityClass.GpuRich2d => "GpuRich2d"
  | GpuCapabilityClass.GpuFull3d => "GpuFull3d"
  | GpuCapabilityClass.GpuComputeHeavy => "GpuComputeHeavy"
  end.

Definition exceeds (a b : GpuCapabilityClass.t) : bool := Nat.ltb (GpuCapabilityClass.rank b) (GpuCapabilityClass.rank a).

Definition validate_policy (p : GpuPolicy.t) : result SandboxError.t unit :=
  if dmabuf_passthrough_allowed p && negb (iommu_required p)
  then Err (SandboxError.GpuPolicyViolation
    "dmabuf_passthrough_allowed=true requires iommu_required=true; cross-group dmabuf without IOMMU is a data leak vector per S8.2")
  else if exceeds (gpu_capability_class p) GpuCapabilityClass.GpuPassiveDisplay && negb (vk_device_required p)
  then Err (SandboxError.GpuPolicyViolation ("gpu_capability_class=" +:+ class_debug (gpu_capability_class p) +:+
    " requires vk_device_required=true; 3D/2D shader capability requires a `VkDevice` per S8.2"))
  else Ok tt.

Definition check_capability_allowed (requested : GpuCapabilityClass.t) (p : GpuPolicy.t) : result SandboxError.t unit :=
  if exceeds requested (gpu_capability_class p)
  then Err (SandboxError.GpuPolicyViolation ("requested gpu_capability_class=" +:+ class_debug requested +:+
    " exceeds profile limit=" +:+ class_debug (gpu_capability_class p)))
  else Ok tt.

(** The binding, and what is given to the emitter. *)
Definition compute_capability_binding (e : t) (ulid : string) (now : DateTime) (p : GpuPolicy.t)
    (group_id subject : string)
    : result SandboxError.t GpuCapabilityBinding.t * option GpuCapabilityBoundPayload.t :=
  match validate_policy p with
  | Err err => (Err err, None)
  | Ok _ =>
      let degraded_isolation := iommu_required p && negb (IommuStatus.is_available (iommu_status e)) in
      let binding :=
        {| GpuCapabilityBinding.binding_id := "gcb_" +:+ ulid;
           GpuCapabilityBinding.gpu_capability_class := gpu_capability_class p;
           GpuCapabilityBinding.group_id := group_id; GpuCapabilityBinding.subject := subject;
           GpuCapabilityBinding.vk_device_required := vk_device_required p;
           GpuCapabilityBinding.dmabuf_passthrough_allowed := dmabuf_passthrough_allowed p;
           GpuCapabilityBinding.iommu_required := iommu_required p;
           GpuCapabilityBinding.degraded_isolation := degraded_isolation;
           GpuCapabilityBinding.issued_at := now; GpuCapabilityBinding.expires_at := GpuPolicy.expires_at p |} in
      (Ok binding,
       if evidence_emitter e
       then Some {| GpuCapabilityBoundPayload.binding_id := GpuCapabilityBinding.binding_id binding;
                    GpuCapabilityBoundPayload.group_id := group_id; GpuCapabilityBoundPayload.subject := subject;
                    GpuCapabilityBoundPayload.gpu_capability_class := gpu_capability_class p;
                    GpuCapabilityBoundPayload.degraded_isolation := degraded_isolation;
                    GpuCapabilityBoundPayload.bound_at := now |}
       else None)
  end.
End GpuPolicyEnforcer.

(** ** What one profile permits of another *)
Module SandboxOrder.
Import SandboxProfile SandboxComposer.

(** [None] is no cap. *)
Definition cap_le (a b : option Z) : Prop :=
  match b with None => True | Some y => exists x, a = Some x /\ (x <= y)%Z end.
Definition list_le (a b : option (list string)) : Prop :=
  match b with None => True | Some lb => exists la, a = Some la /\ la ⊆ lb end.

Record limits_le (a b : ResourceLimits.t) : Prop := {
  ll_cpu : (ResourceLimits.cpu_quota_percent a <= ResourceLimits.cpu_quota_percent b)%Z;
  ll_memory : (ResourceLimits.memory_max_bytes a <= ResourceLimits.memory_max_bytes b)%Z;
  ll_io : cap_le (ResourceLimits.io_max_bytes_per_sec a) (ResourceLimits.io_max_bytes_per_sec b);
  ll_network : cap_le (ResourceLimits.network_max_bytes_per_sec a) (ResourceLimits.network_max_bytes_per_sec b);
  ll_process : cap_le (ResourceLimits.process_max_count a) (ResourceLimits.process_max_count b);
  ll_fd : cap_le (ResourceLimits.file_descriptor_max a) (ResourceLimits.file_descriptor_max b);
  ll_expiry : cap_le (ResourceLimits.expires_at a) (ResourceLimits.expires_at b);
}.

Record gpu_le (a b : GpuPolicy.t) : Prop := {
  gl_class : GpuCapabilityClass.rank (GpuPolicy.gpu_capability_class a) <= GpuCapabilityClass.rank (GpuPolicy.gpu_capability_class b);
  gl_vk : implb (GpuPolicy.vk_device_required b) (GpuPolicy.vk_device_required a) = true;
  gl_dmabuf : implb (GpuPolicy.dmabuf_passthrough_allowed a) (GpuPolicy.dmabuf_passthrough_allowed b) = true;
  gl_partitioning : implb (GpuPolicy.per_group_partitioning b) (GpuPolicy.per_group_partitioning a) = true;
  gl_iommu : implb (GpuPolicy.iommu_required b) (GpuPolicy.iommu_required a) = true;
  gl_expiry : cap_le (GpuPolicy.expires_at a) (GpuPolicy.expires_at b);
}.

(** [a] permits nothing that [b] does not. *)
Record tighter (a b : SandboxProfile.t) : Prop := {
  tg_isolation : isolation_strictness (isolation_kind b) <= isolation_strictness (isolation_kind a);
  tg_limits : limits_le (resource_limits a) (resource_limits b);
  tg_gpu : gpu_le (gpu_policy a) (gpu_policy b);
  tg_network : NetworkPosture.rank (network_posture a) <= NetworkPosture.rank (network_posture b);
  tg_syscalls : list_le (syscall_allowlist a) (syscall_allowlist b);
}.

#[export] Instance cap_le_preorder : PreOrder cap_le.
Proof.
  split; [intros [x|]; simpl; [by exists x|done]|]. intros a b [z|]; [|done]. simpl.
  intros Hab (y & -> & Hyz). destruct Hab as (x & -> & Hxy). exists x. split; [done|lia].
Qed.
#[export] Instance list_le_preorder : PreOrder list_le.
Proof.
  split; [intros [l|]; simpl; [by exists l|done]|]. intros a b [l|]; [|done]. simpl.
  intros Hab (lb & -> & Hb). destruct Hab as (la & -> & Ha). exists la. split; [done|set_solver].
Qed.
#[export] Instance limits_le_preorder : PreOrder limits_le.
Proof. split; [intros a; by split|]. intros a b c [] []. split; (lia || (etrans; eassumption)). Qed.
Lemma implb_refl b : implb b b = true.
Proof. by destruct b. Qed.
Lemma implb_trans a b c : implb a b = true -> implb b c = true -> implb a c = true.
Proof. by destruct a, b, c. Qed.
#[export] Instance gpu_le_preorder : PreOrder gpu_le.
Proof.
  split; [intros a; split; auto using implb_refl; reflexivity|].
  intros a b c [] []. split; [lia|..|etrans; eassumption]; eauto using implb_trans.
Qed.
#[export] Instance tighter_preorder : PreOrder tighter.
Proof.
  split; [intros a; split; reflexivity|]. intros a b c [] []. split; (lia || (etrans; eassumption)).
Qed.

(** *** The merges are greatest lower bounds *)
Definition glb {A} (le : relation A) (x a b : A) : Prop :=
  le x a /\ le x b /\ forall c, le c a -> le c b -> le c x.

Lemma merge_cap_glb a b : glb cap_le (merge_option_min a b) a b.
Proof.
  destruct a as [x|], b as [y|]; (split; [|split]); simpl; try done.
  - exists (Z.min x y). split; [done|lia].
  - exists (Z.min x y). split; [done|lia].
  - intros c (z & -> & ?) (z' & ? & ?). simplify_eq. exists z'. split; [done|lia].
  - by exists x.
  - by exists y.
Qed.

Lemma merge_list_glb a b : glb list_le (merge_syscall_allowlist a b) a b.
Proof.
  destruct a as [la|], b as [lb|]; (split; [|split]); simpl; try done; try (by eexists).
  - eexists. split; [done|]. intros s. rewrite sort_strings_perm, list_elem_of_filter. tauto.
  - eexists. split; [done|]. intros s. rewrite sort_strings_perm, list_elem_of_filter. tauto.
  - intros c (l & -> & Ha) (l' & ? & Hb). simplify_eq. eexists. split; [done|].
    intros s Hs. rewrite sort_strings_perm, list_elem_of_filter. auto.
Qed.

Lemma merge_limits_glb a b : glb limits_le (merge_resource_limits a b) a b.
Proof.
  split; [|split].
  - split; simpl; try apply merge_cap_glb; lia.
  - split; simpl; try apply merge_cap_glb; lia.
  - intros c [] []. split; simpl; (lia || (apply merge_cap_glb; assumption)).
Qed.

Lemma merge_gpu_glb a b : glb gpu_le (merge_gpu_policy a b) a b.
Proof.
  assert (forall x y, GpuCapabilityClass.rank (GpuCapabilityClass.min x y) =
    Nat.min (GpuCapabilityClass.rank x) (GpuCapabilityClass.rank y)) as Hm by (intros [] []; reflexivity).
  destruct a as [ca va da pa ia ea], b as [cb vb db pb ib eb]. split; [|split].
  - split; simpl; rewrite ?Hm; try apply merge_cap_glb; [lia|..]; by destruct va, vb, da, db, pa, pb, ia, ib.
  - split; simpl; rewrite ?Hm; try apply merge_cap_glb; [lia|..]; by destruct va, vb, da, db, pa, pb, ia, ib.
  - intros [cc vc dc pc ic ec] [] []. simpl in *. split; simpl; rewrite ?Hm;
      [lia|..|by apply merge_cap_glb].
    + by destruct va, vb, vc.
    + by destruct da, db, dc.
    + by destruct pa, pb, pc.
    + by destruct ia, ib, ic.
Qed.

Lemma merge_profiles_glb a b : glb tighter (merge_profiles a b) a b.
Proof.
  assert (forall x y, NetworkPosture.rank (NetworkPosture.min x y) =
    Nat.min (NetworkPosture.rank x) (NetworkPosture.rank y)) as Hn by (intros [] []; reflexivity).
  assert (isolation_strictness (isolation_kind (merge_profiles a b)) =
    Nat.max (isolation_strictness (isolation_kind a)) (isolation_strictness (isolation_kind b))) as Hi.
  { simpl. destruct (Nat.leb_spec (isolation_strictness (isolation_kind b)) (isolation_strictness (isolation_kind a))); lia. }
  split; [|split].
  - split; rewrite ?Hi; simpl; rewrite ?Hn; [lia|apply merge_limits_glb|apply merge_gpu_glb|lia|apply merge_list_glb].
  - split; rewrite ?Hi; simpl; rewrite ?Hn; [lia|apply merge_limits_glb|apply merge_gpu_glb|lia|apply merge_list_glb].
  - intros c [] []. split; rewrite ?Hi; simpl; rewrite ?Hn;
      [lia|by apply merge_limits_glb|by apply merge_gpu_glb|lia|by apply merge_list_glb].
Qed.
End SandboxOrder.

(** ** What is composed *)
Module SandboxSound.
Import SandboxProfile SandboxComposer SandboxOrder.

(** Who contributes, in the order of the merge: the stored profile that is named,
    or else the adapter's, or else the strict default; then the sources given. *)
Definition first_contributor (ulid : string) (r : ComposeRequest.t) (c : t) : option (string * SandboxProfile.t) :=
  match ComposeRequest.base_profile_id r with
  | Some id => pair ("base_profile:" +:+ id) <$> profiles c !! id
  | None => Some (default ("composer_default", new_strict ulid "composer-default" "Default strict composer profile")
                    (pair "adapter_default" <$> ComposeRequest.adapter_default r))
  end.
Definition sources_of (r : ComposeRequest.t) : list (string * SandboxProfile.t) :=
  omap (fun e : string * option SandboxProfile.t => pair e.1 <$> e.2)
    [("app_manifest", ComposeRequest.app_manifest r); ("user_request", ComposeRequest.user_request r);
     ("policy_required", ComposeRequest.policy_required r); ("group_floor", ComposeRequest.group_floor r);
     ("runtime_safety_floor", ComposeRequest.runtime_safety_floor r)].
Definition contributors (ulid : string) (r : ComposeRequest.t) (c : t) : option (list (string * SandboxProfile.t)) :=
  first ← first_contributor ulid r c; Some (first :: sources_of r).

(** The merge of a list of contributors. *)
Definition merged (l : list (string * SandboxProfile.t)) : option SandboxProfile.t :=
  match l with
  | [] => None
  | first :: rest => Some (fold_left merge_profiles rest.*2 first.2)
  end.

Lemma merge_all first r :
  merge_source "runtime_safety_floor" (ComposeRequest.runtime_safety_floor r)
    (merge_source "group_floor" (ComposeRequest.group_floor r)
      (merge_source "policy_required" (ComposeRequest.policy_required r)
        (merge_source "user_request" (ComposeRequest.user_request r)
          (merge_source "app_manifest" (ComposeRequest.app_manifest r) (first.2, [first.1]))))) =
  let rest := sources_of r in (fold_left merge_profiles rest.*2 first.2, (first :: rest).*1).
Proof.
  unfold sources_of. destruct (ComposeRequest.app_manifest r), (ComposeRequest.user_request r),
    (ComposeRequest.policy_required r), (ComposeRequest.group_floor r), (ComposeRequest.runtime_safety_floor r); reflexivity.
Qed.

(** [compose]: the contributors are merged, and the rest is [finish]. *)
Lemma compose_stages ulid ulid' now r c :
  match contributors ulid r c with
  | None => exists id, ComposeRequest.base_profile_id r = Some id /\ profiles c !! id = None /\
      compose ulid ulid' now r c = (Err (SandboxError.ProfileNotFound id), None)
  | Some l => exists m, merged l = Some m /\
      compose ulid ulid' now r c = (Ok (finish ulid' now r c (m, l.*1)).1, (finish ulid' now r c (m, l.*1)).2)
  end.
Proof.
  unfold compose, contributors, first_contributor, starting_profile, get_profile.
  assert (forall first : string * SandboxProfile.t, exists m, merged (first :: sources_of r) = Some m /\
    (let '(res, payload) := finish ulid' now r c (merge_source "runtime_safety_floor" (ComposeRequest.runtime_safety_floor r)
    (merge_source "group_floor" (ComposeRequest.group_floor r)
      (merge_source "policy_required" (ComposeRequest.policy_required r)
        (merge_source "user_request" (ComposeRequest.user_request r)
          (merge_source "app_manifest" (ComposeRequest.app_manifest r) (first.2, [first.1])))))) in
     (Ok (E := SandboxError.t) res, payload)) = (Ok (finish ulid' now r c (m, (first :: sources_of r).*1)).1,
       (finish ulid' now r c (m, (first :: sources_of r).*1)).2)) as Hm.
  { intros first. rewrite merge_all. eexists. split; [reflexivity|]. by destruct (finish _ _ _ _ _). }
  destruct (ComposeRequest.base_profile_id r) as [id|].
  - destruct (profiles c !! id) as [base|] eqn:Hb; [|by exists id]. exact (Hm ("base_profile:" +:+ id, base)).
  - destruct (ComposeRequest.adapter_default r) as [p|]; [exact (Hm ("adapter_default", p))|].
    exact (Hm ("composer_default", new_strict ulid "composer-default" "Default strict composer profile")).
Qed.

(** *** The rules are greatest lower bounds as well *)
Definition recovery_ok (p : SandboxProfile.t) : Prop :=
  NetworkPosture.rank (network_posture p) <= NetworkPosture.rank NetworkPosture.LoopbackOnly /\
  isolation_strictness IsolationKind.ProcessContainer <= isolation_strictness (isolation_kind p).
Definition ai_ok (p : SandboxProfile.t) : Prop :=
  NetworkPosture.rank (network_posture p) <= NetworkPosture.rank NetworkPosture.LoopbackOnly /\
  GpuCapabilityClass.rank (GpuPolicy.gpu_capability_class (gpu_policy p)) <=
    GpuCapabilityClass.rank GpuCapabilityClass.GpuBasic2d.

(** [q] is the loosest profile below [p] that satisfies [ok]. *)
Definition loosest (ok : SandboxProfile.t -> Prop) (p q : SandboxProfile.t) : Prop :=
  tighter q p /\ ok q /\ forall x, tighter x p -> ok x -> tighter x q.

#[local] Arguments NetworkPosture.rank !x /.
#[local] Arguments GpuCapabilityClass.rank !x /.
#[local] Arguments isolation_strictness !k /.

Lemma set_class_le c g : GpuCapabilityClass.rank c <= GpuCapabilityClass.rank (GpuPolicy.gpu_capability_class g) ->
  gpu_le (GpuPolicy.set_class c g) g.
Proof. intros Hc. split; cbn; auto using implb_refl. reflexivity. Qed.
Lemma set_class_greatest c g x : gpu_le x g ->
  GpuCapabilityClass.rank (GpuPolicy.gpu_capability_class x) <= GpuCapabilityClass.rank c ->
  gpu_le x (GpuPolicy.set_class c g).
Proof. intros [] Hc. by split. Qed.

(** Closes what is left of a rule once its tests are decided. *)
Ltac by_rule :=
  cbn in *; split; [split; [|split]|];
  [split; cbn; first [reflexivity | lia | apply set_class_le; cbn; lia]
  |cbn; lia
  |let x := fresh in intros x [] []; split; cbn in *;
     first [assumption | lia | apply set_class_greatest; [assumption|cbn in *; lia]]
  |split; [intros ?; try discriminate; intros []; lia | intros Hno; try reflexivity; exfalso; apply Hno; lia]].

Lemma recovery_loosest p : loosest recovery_ok p (apply_recovery_rules p).2 /\
  ((apply_recovery_rules p).1 = true <-> ~ recovery_ok p).
Proof.
  unfold apply_recovery_rules, above_loopback, recovery_ok. cbn zeta.
  destruct (Nat.ltb_spec (NetworkPosture.rank NetworkPosture.LoopbackOnly) (NetworkPosture.rank (network_posture p))) as [Hn|Hn],
    (Nat.ltb_spec (isolation_strictness (isolation_kind p)) (isolation_strictness IsolationKind.ProcessContainer)) as [Hi|Hi];
    by_rule.
Qed.

Lemma ai_loosest p : loosest ai_ok p (apply_ai_rules p).2 /\ ((apply_ai_rules p).1 = true <-> ~ ai_ok p).
Proof.
  unfold apply_ai_rules, above_loopback, ai_ok. cbn zeta.
  destruct (Nat.ltb_spec (NetworkPosture.rank NetworkPosture.LoopbackOnly) (NetworkPosture.rank (network_posture p))) as [Hn|Hn],
    (Nat.ltb_spec (GpuCapabilityClass.rank GpuCapabilityClass.GpuBasic2d)
      (GpuCapabilityClass.rank (GpuPolicy.gpu_capability_class (gpu_policy p)))) as [Hg|Hg];
    by_rule.
Qed.

Lemma recovery_kept p : recovery_ok p -> recovery_ok (apply_ai_rules p).2.
Proof.
  intros []. unfold apply_ai_rules, recovery_ok. cbn zeta.
  destruct (Nat.ltb_spec (NetworkPosture.rank NetworkPosture.LoopbackOnly) (NetworkPosture.rank (network_posture p))) as [Hn|Hn];
    unfold above_loopback; cbn in *; repeat case_match; cbn in *; lia.
Qed.

Lemma fold_glb l p :
  (tighter (fold_left merge_profiles l p) p /\ forall x, x ∈ l -> tighter (fold_left merge_profiles l p) x) /\
  forall q, tighter q p -> (forall x, x ∈ l -> tighter q x) -> tighter q (fold_left merge_profiles l p).
Proof.
  revert p. induction l as [|x l IH]; intros p; cbn.
  - split; [|auto]. split; [reflexivity|]. intros x Hx. by apply elem_of_nil in Hx.
  - destruct (merge_profiles_glb p x) as (Hp & Hx & Hg), (IH (merge_profiles p x)) as ((Hm & Hl) & Hq).
    split; [split; [by etrans|]|].
    + intros y [->|Hy]%elem_of_cons; [by etrans|auto].
    + intros q Hqp Hql. apply Hq; [|intros y Hy; apply Hql; by right]. apply Hg; [done|]. apply Hql. by left.
Qed.

Lemma merged_glb l m : merged l = Some m ->
  (forall e, e ∈ l -> tighter m e.2) /\ forall q, (forall e, e ∈ l -> tighter q e.2) -> tighter q m.
Proof.
  destruct l as [|first rest]; [done|]. intros [= <-].
  destruct (fold_glb rest.*2 first.2) as ((Hf & Hr) & Hq). split.
  - intros e [->|He]%elem_of_cons; [done|]. apply Hr. by apply list_elem_of_fmap_2.
  - intros q Hall. apply Hq; [apply Hall; by left|].
    intros x (e & -> & He)%list_elem_of_fmap. apply Hall. by right.
Qed.

Lemma set_id_tighter id p q : (tighter (set_id id p) q <-> tighter p q) /\ (tighter q (set_id id p) <-> tighter q p).
Proof. split; split; intros []; by split. Qed.

(** What a request asks of a profile: to be below every contributor and to keep
    the rules of the modes it sets. *)
Definition answers (r : ComposeRequest.t) (l : list (string * SandboxProfile.t)) (q : SandboxProfile.t) : Prop :=
  (forall e, e ∈ l -> tighter q e.2) /\
  (ComposeRequest.recovery_mode r = true -> recovery_ok q) /\
  (ComposeRequest.is_ai r = true -> ai_ok q).

(** The rules, in the order in which they are applied. *)
Definition ruled (r : ComposeRequest.t) (m : SandboxProfile.t) : SandboxProfile.t :=
  let m := if ComposeRequest.recovery_mode r then (apply_recovery_rules m).2 else m in
  if ComposeRequest.is_ai r then (apply_ai_rules m).2 else m.

Lemma finish_profile ulid now r c m names :
  let res := (finish ulid now r c (m, names)).1 in
  ComposeResult.profile res = set_id (new_id ulid) (ruled r m) /\ ComposeResult.merged_sources res = names /\
  (ComposeResult.recovery_mode_enforced res = true <-> ComposeRequest.recovery_mode r = true /\ ~ recovery_ok m).
Proof.
  unfold finish, ruled. pose proof (proj2 (recovery_loosest m)) as Hf.
  destruct (ComposeRequest.recovery_mode r).
  - destruct (apply_recovery_rules m) as [f1 m1]. cbn [fst snd] in *.
    destruct (apply_ai_rules m1) eqn:Ha, (ComposeRequest.is_ai r); cbn [fst snd ComposeResult.profile]; rewrite ?Ha;
      (split; [reflexivity|]; split; [reflexivity|]); cbn; tauto.
  - destruct (apply_ai_rules m) eqn:Ha, (ComposeRequest.is_ai r); cbn [fst snd ComposeResult.profile]; rewrite ?Ha;
      (split; [reflexivity|]; split; [reflexivity|]); cbn; intuition discriminate.
Qed.

Lemma ruled_answers r l m : merged l = Some m ->
  answers r l (ruled r m) /\ forall q, answers r l q -> tighter q (ruled r m).
Proof.
  intros [Hb Hg]%merged_glb. unfold ruled, answers.
  assert (forall p, p = (if ComposeRequest.recovery_mode r then (apply_recovery_rules m).2 else m) ->
    (tighter p m /\ (ComposeRequest.recovery_mode r = true -> recovery_ok p)) /\
    forall q, tighter q m -> (ComposeRequest.recovery_mode r = true -> recovery_ok q) -> tighter q p) as H1.
  { intros p ->. destruct (recovery_loosest m) as [(Ht & Ho & Hl) _]. destruct (ComposeRequest.recovery_mode r); naive_solver. }
  destruct (H1 _ eq_refl) as ((Ht & Hr) & Hq). generalize dependent (if ComposeRequest.recovery_mode r then (apply_recovery_rules m).2 else m).
  intros p _ Ht Hr Hq. cbn zeta. destruct (ai_loosest p) as [(Hat & Hao & Hal) _].
  destruct (ComposeRequest.is_ai r).
  - split; [split_and!|].
    + intros e He. etrans; [exact Hat|]. etrans; [exact Ht|auto].
    + intros Hm. by apply recovery_kept, Hr.
    + done.
    + intros q (Hqe & Hqr & Hqa). apply Hal; auto.
  - split; [split_and!|]; [|done|done|].
    + intros e He. etrans; [exact Ht|auto].
    + intros q (Hqe & Hqr & _). apply Hq; auto.
Qed.

Lemma compose_answers ulid ulid' now r c l res :
  contributors ulid r c = Some l -> (compose ulid ulid' now r c).1 = Ok res ->
  answers r l (ComposeResult.profile res) /\ forall q, answers r l q -> tighter q (ComposeResult.profile res).
Proof.
  intros Hl. pose proof (compose_stages ulid ulid' now r c) as Hs. rewrite Hl in Hs. destruct Hs as (m & Hm & ->).
  intros <-%ok_inj. destruct (finish_profile ulid' now r c m l.*1) as (-> & _).
  destruct (ruled_answers r l m Hm) as [(He & Hr & Hi) Hg]. split; [split_and!; [|exact Hr|exact Hi]|].
  - intros e Hin. apply (proj2 (proj1 (set_id_tighter (new_id ulid') _ _))), He, Hin.
  - intros q Hq. apply (proj2 (proj2 (set_id_tighter (new_id ulid') _ _))), Hg, Hq.
Qed.

(** C21: composition answers what is asked and takes nothing more away: it fails exactly
    where the profile that is named is not stored; otherwise the contributors are
    listed in the order of the merge, and the profile is the loosest one that is
    below each of them and keeps the rules of recovery and of AI subjects.  The
    recovery flag is set exactly when that rule had something to change. *)
Theorem compose_is_greatest_lower_bound ulid ulid' now r c :
  match contributors ulid r c with
  | None => exists id, ComposeRequest.base_profile_id r = Some id /\ profiles c !! id = None /\
      compose ulid ulid' now r c = (Err (SandboxError.ProfileNotFound id), None)
  | Some l => exists res m, (compose ulid ulid' now r c).1 = Ok res /\
      ComposeResult.merged_sources res = l.*1 /\ profile_id (ComposeResult.profile res) = new_id ulid' /\
      answers r l (ComposeResult.profile res) /\
      (forall q, answers r l q -> tighter q (ComposeResult.profile res)) /\
      merged l = Some m /\
      (ComposeResult.recovery_mode_enforced res = true <-> ComposeRequest.recovery_mode r = true /\ ~ recovery_ok m)
  end.
Proof.
  pose proof (compose_stages ulid ulid' now r c) as Hs. destruct (contributors ulid r c) as [l|] eqn:Hl; [|exact Hs].
  destruct Hs as (m & Hm & Hc). destruct (finish_profile ulid' now r c m l.*1) as (Hp & Hn & Hf).
  exists (finish ulid' now r c (m, l.*1)).1, m. pose proof (f_equal fst Hc) as Hok. cbn [fst] in Hok.
  destruct (compose_answers _ _ _ _ _ _ _ Hl Hok) as [Ha Hg]. split; [exact Hok|]. split; [exact Hn|].
  split; [by rewrite Hp|]. split; [exact Ha|]. split; [exact Hg|]. split; [exact Hm|exact Hf].
Qed.

(** *** What the enforcers admit *)
Definition usage_ok (r : ResourceRequest.t) (p : SandboxProfile.t) : Prop :=
  ResourceLimitEnforcer.first_exceeded r (resource_limits p) = None.
Definition syscall_ok (sys : string) (p : SandboxProfile.t) : Prop :=
  ResourceLimitEnforcer.validate_syscall sys (syscall_allowlist p) = Ok tt.
Definition class_ok (k : GpuCapabilityClass.t) (p : SandboxProfile.t) : Prop :=
  GpuPolicyEnforcer.check_capability_allowed k (gpu_policy p) = Ok tt.

Lemma check_usage_ok em ulid now r p : (ResourceLimitEnforcer.check_usage em ulid now r (resource_limits p)).1 = Ok tt <-> usage_ok r p.
Proof.
  unfold ResourceLimitEnforcer.check_usage, usage_ok.
  destruct (ResourceLimitEnforcer.first_exceeded _ _) as [[[? ?] ?]|]; cbn; split; congruence.
Qed.

Lemma over_cap_min limit v a b :
  ResourceLimitEnforcer.over_cap limit v (merge_option_min a b) = None <->
  ResourceLimitEnforcer.over_cap limit v a = None /\ ResourceLimitEnforcer.over_cap limit v b = None.
Proof.
  destruct a as [x|], b as [y|]; cbn; try tauto.
  destruct (Z.ltb_spec (Z.min x y) v), (Z.ltb_spec x v), (Z.ltb_spec y v); intuition (congruence || lia).
Qed.
Lemma or_else_None {A} (a b : option A) : ResourceLimitEnforcer.or_else a b = None <-> a = None /\ b = None.
Proof. destruct a; cbn; intuition congruence. Qed.

Lemma usage_merged r p q : usage_ok r (merge_profiles p q) <-> usage_ok r p /\ usage_ok r q.
Proof.
  unfold usage_ok, ResourceLimitEnforcer.first_exceeded. rewrite !or_else_None.
  pose proof (fun s v x y => over_cap_min s v (Some x) (Some y)) as Hs. cbn [merge_option_min] in Hs.
  cbn [resource_limits merge_profiles merge_resource_limits ResourceLimits.cpu_quota_percent ResourceLimits.memory_max_bytes
    ResourceLimits.io_max_bytes_per_sec ResourceLimits.network_max_bytes_per_sec ResourceLimits.process_max_count
    ResourceLimits.file_descriptor_max].
  rewrite !Hs, !over_cap_min. tauto.
Qed.

Lemma validate_syscall_ok sys l :
  ResourceLimitEnforcer.validate_syscall sys l = Ok tt <-> match l with None => True | Some l => sys ∈ l end.
Proof.
  destruct l as [l|]; cbn; [|done]. destruct (existsb (String.eqb sys) l) eqn:He.
  - apply existsb_elem in He as (x & Hx & ->%String.eqb_eq). done.
  - split; [done|]. intros Hin. assert (existsb (String.eqb sys) l = true) as Ht; [|congruence].
    apply existsb_elem. exists sys. split; [done|]. apply String.eqb_refl.
Qed.

Lemma syscall_merged sys p q : syscall_ok sys (merge_profiles p q) <-> syscall_ok sys p /\ syscall_ok sys q.
Proof.
  unfold syscall_ok. rewrite !validate_syscall_ok. cbn [syscall_allowlist merge_profiles].
  destruct (syscall_allowlist p) as [lp|], (syscall_allowlist q) as [lq|]; cbn; [|tauto..].
  rewrite sort_strings_perm, list_elem_of_filter. tauto.
Qed.

Lemma class_allowed_ok k g : GpuPolicyEnforcer.check_capability_allowed k g = Ok tt <->
  GpuCapabilityClass.rank k <= GpuCapabilityClass.rank (GpuPolicy.gpu_capability_class g).
Proof.
  unfold GpuPolicyEnforcer.check_capability_allowed, GpuPolicyEnforcer.exceeds.
  destruct (Nat.ltb_spec (GpuCapabilityClass.rank (GpuPolicy.gpu_capability_class g)) (GpuCapabilityClass.rank k));
    split; (discriminate || lia || reflexivity).
Qed.

Lemma class_merged k p q : class_ok k (merge_profiles p q) <-> class_ok k p /\ class_ok k q.
Proof.
  unfold class_ok. rewrite !class_allowed_ok. cbn [gpu_policy merge_profiles merge_gpu_policy GpuPolicy.gpu_capability_class].
  unfold GpuCapabilityClass.min. destruct (Nat.leb_spec
    (GpuCapabilityClass.rank (GpuPolicy.gpu_capability_class (gpu_policy p)))
    (GpuCapabilityClass.rank (GpuPolicy.gpu_capability_class (gpu_policy q)))); lia.
Qed.

(** What distributes over one merge distributes over all of them. *)
Lemma merged_admits (ok : SandboxProfile.t -> Prop) :
  (forall p q, ok (merge_profiles p q) <-> ok p /\ ok q) ->
  forall l m, merged l = Some m -> (ok m <-> forall e, e ∈ l -> ok e.2).
Proof.
  intros Hok [|first rest] m; [done|]. intros [= <-].
  assert (forall l p, ok (fold_left merge_profiles l p) <-> ok p /\ forall x, x ∈ l -> ok x) as Hf.
  { induction l as [|x l IH]; intros p; cbn; [setoid_rewrite elem_of_nil; tauto|].
    rewrite IH, Hok. setoid_rewrite elem_of_cons. naive_solver. }
  rewrite Hf. setoid_rewrite elem_of_cons. setoid_rewrite list_elem_of_fmap. naive_solver.
Qed.

Lemma ruled_limits r m : resource_limits (ruled r m) = resource_limits m /\ syscall_allowlist (ruled r m) = syscall_allowlist m.
Proof. unfold ruled. by destruct (ComposeRequest.recovery_mode r), (ComposeRequest.is_ai r). Qed.
Lemma ruled_class r m : GpuCapabilityClass.rank (GpuPolicy.gpu_capability_class (gpu_policy (ruled r m))) =
  if ComposeRequest.is_ai r then Nat.min 1 (GpuCapabilityClass.rank (GpuPolicy.gpu_capability_class (gpu_policy m)))
  else GpuCapabilityClass.rank (GpuPolicy.gpu_capability_class (gpu_policy m)).
Proof.
  unfold ruled. destruct (ComposeRequest.is_ai r), (ComposeRequest.recovery_mode r); try reflexivity;
    destruct m as [? ? ? ? ? [[] ? ? ? ? ?] ? ? ? ?]; reflexivity.
Qed.

(** C22: enforcement under the composed profile is the conjunction of enforcement under
    its contributors: a usage is within the limits, a system call passes and a
    GPU class is allowed exactly when each contributor lets it, an AI subject
    getting no class above [GpuBasic2d]. *)
Theorem composed_admits_exactly ulid ulid' now r c l res :
  contributors ulid r c = Some l -> (compose ulid ulid' now r c).1 = Ok res ->
  let p := ComposeResult.profile res in
  (forall em u t req, (ResourceLimitEnforcer.check_usage em u t req (resource_limits p)).1 = Ok tt <->
     forall e, e ∈ l -> (ResourceLimitEnforcer.check_usage em u t req (resource_limits e.2)).1 = Ok tt) /\
  (forall sys, ResourceLimitEnforcer.validate_syscall sys (syscall_allowlist p) = Ok tt <->
     forall e, e ∈ l -> ResourceLimitEnforcer.validate_syscall sys (syscall_allowlist e.2) = Ok tt) /\
  (forall k, GpuPolicyEnforcer.check_capability_allowed k (gpu_policy p) = Ok tt <->
     (forall e, e ∈ l -> GpuPolicyEnforcer.check_capability_allowed k (gpu_policy e.2) = Ok tt) /\
     (ComposeRequest.is_ai r = true -> GpuCapabilityClass.rank k <= 1)).
Proof.
  intros Hl. pose proof (compose_stages ulid ulid' now r c) as Hs. rewrite Hl in Hs. destruct Hs as (m & Hm & ->).
  intros <-%ok_inj. destruct (finish_profile ulid' now r c m l.*1) as (Hp & _). cbn zeta. rewrite Hp. destruct (ruled_limits r m) as [Hr Hw].
  cbn [set_id resource_limits syscall_allowlist gpu_policy]. rewrite Hr, Hw. split; [|split].
  - intros em u t req. setoid_rewrite check_usage_ok. apply (merged_admits _ (usage_merged req)), Hm.
  - intros sys. apply (merged_admits _ (syscall_merged sys)), Hm.
  - intros k. rewrite <- (merged_admits _ (class_merged k) l m Hm). unfold class_ok. rewrite !class_allowed_ok, ruled_class.
    destruct (ComposeRequest.is_ai r); [|intuition discriminate]. rewrite Nat.min_glb_iff. tauto.
Qed.

(** *** Validity *)
Definition gpu_valid (p : SandboxProfile.t) : Prop := GpuPolicyEnforcer.validate_policy (gpu_policy p) = Ok tt.
Definition limits_valid (p : SandboxProfile.t) : Prop := ResourceLimits.validate (resource_limits p) = Ok tt.

Lemma gpu_valid_iff g : GpuPolicyEnforcer.validate_policy g = Ok tt <->
  (GpuPolicy.dmabuf_passthrough_allowed g = true -> GpuPolicy.iommu_required g = true) /\
  (1 <= GpuCapabilityClass.rank (GpuPolicy.gpu_capability_class g) -> GpuPolicy.vk_device_required g = true).
Proof.
  unfold GpuPolicyEnforcer.validate_policy, GpuPolicyEnforcer.exceeds.
  destruct g as [[] [] [] ? [] ?]; cbn; (split;
    [intros Hv; (discriminate || (split; intros; (reflexivity || discriminate || lia)))
    |intros [H1 H2]; first [reflexivity | discriminate (H1 eq_refl) | discriminate (H2 ltac:(lia))]]).
Qed.

Lemma gpu_valid_merged p q : gpu_valid p \/ gpu_valid q -> gpu_valid (merge_profiles p q).
Proof.
  unfold gpu_valid. rewrite !gpu_valid_iff. cbn [gpu_policy merge_profiles merge_gpu_policy GpuPolicy.gpu_capability_class
    GpuPolicy.dmabuf_passthrough_allowed GpuPolicy.iommu_required GpuPolicy.vk_device_required].
  unfold GpuCapabilityClass.min. rewrite andb_true_iff, !orb_true_iff. destruct (Nat.leb_spec
    (GpuCapabilityClass.rank (GpuPolicy.gpu_capability_class (gpu_policy p)))
    (GpuCapabilityClass.rank (GpuPolicy.gpu_capability_class (gpu_policy q)))); intros [[H1 H2]|[H1 H2]];
    (split; [intros []; auto|]); intros Hr; (left; apply H2; lia) || (right; apply H2; lia).
Qed.

Lemma gpu_valid_ruled r m : gpu_valid m -> gpu_valid (ruled r m).
Proof.
  unfold gpu_valid, ruled. rewrite !gpu_valid_iff.
  destruct (ComposeRequest.is_ai r), (ComposeRequest.recovery_mode r), m as [? ? ? ? ? [[] ? ? ? ? ?] ? ? ? ?]; cbn;
    intros [H1 H2]; (split; [exact H1|]); intros Hr; apply H2; lia.
Qed.

Lemma limits_valid_iff l : (0 <= ResourceLimits.memory_max_bytes l)%Z ->
  ResourceLimits.validate l = Ok tt <->
  (ResourceLimits.cpu_quota_percent l <= 100)%Z /\ (0 < ResourceLimits.memory_max_bytes l)%Z.
Proof.
  intros Hm. unfold ResourceLimits.validate. destruct (Z.ltb_spec 100 (ResourceLimits.cpu_quota_percent l)),
    (Z.eqb_spec (ResourceLimits.memory_max_bytes l) 0); split; (discriminate || lia || reflexivity).
Qed.

Lemma merged_one (ok : SandboxProfile.t -> Prop) :
  (forall p q, ok p \/ ok q -> ok (merge_profiles p q)) ->
  forall l m e, merged l = Some m -> e ∈ l -> ok e.2 -> ok m.
Proof.
  intros Hok [|first rest] m e; [done|]. intros [= <-] He Hp.
  assert (forall l p, ok p \/ (exists x, x ∈ l /\ ok x) -> ok (fold_left merge_profiles l p)) as Hf.
  { induction l as [|x l IH]; intros p; cbn; [intros [?|(x & Hx & _)]; [done|by apply elem_of_nil in Hx]|].
    intros [Ho|(y & [->|Hy]%elem_of_cons & Ho)]; apply IH; eauto. }
  apply Hf. apply elem_of_cons in He as [->|He]; [by left|]. right. exists e.2. split; [|done]. by apply list_elem_of_fmap_2.
Qed.

(** One valid GPU policy among the contributors makes the composed one valid, so
    that a binding can be issued under it; one contributor with valid limits makes
    the composed limits valid unless another allows no memory at all. *)
Theorem composed_profile_valid ulid ulid' now r c l res :
  contributors ulid r c = Some l -> (compose ulid ulid' now r c).1 = Ok res ->
  let p := ComposeResult.profile res in
  ((exists e, e ∈ l /\ gpu_valid e.2) -> forall en t group subject,
     exists b, (GpuPolicyEnforcer.compute_capability_binding en t now (gpu_policy p) group subject).1 = Ok b /\
       GpuCapabilityBinding.gpu_capability_class b = GpuPolicy.gpu_capability_class (gpu_policy p) /\
       (GpuCapabilityBinding.degraded_isolation b = true <->
        GpuPolicy.iommu_required (gpu_policy p) = true /\ GpuPolicyEnforcer.iommu_status en <> IommuStatus.Available)) /\
  ((exists e, e ∈ l /\ limits_valid e.2) ->
   (forall e, e ∈ l -> (0 < ResourceLimits.memory_max_bytes (resource_limits e.2))%Z) -> limits_valid p).
Proof.
  intros Hl. pose proof (compose_stages ulid ulid' now r c) as Hs. rewrite Hl in Hs. destruct Hs as (m & Hm & ->).
  intros <-%ok_inj. destruct (finish_profile ulid' now r c m l.*1) as (Hp & _). cbn zeta. rewrite Hp. split.
  - intros (e & He & Hv) en t group subject.
    pose proof (gpu_valid_ruled r m (merged_one _ gpu_valid_merged l m e Hm He Hv)) as Hok.
    unfold GpuPolicyEnforcer.compute_capability_binding. cbn [set_id gpu_policy]. rewrite Hok. eexists. split; [reflexivity|].
    split; [reflexivity|]. cbn. rewrite andb_true_iff, negb_true_iff.
    destruct (GpuPolicyEnforcer.iommu_status en); cbn; intuition congruence.
  - intros (e & He & Hv) Hmem. unfold limits_valid in *. cbn [set_id resource_limits]. destruct (ruled_limits r m) as [-> _].
    assert (0 < ResourceLimits.memory_max_bytes (resource_limits m))%Z as Hm0.
    { apply (merged_admits (fun p => (0 < ResourceLimits.memory_max_bytes (resource_limits p))%Z)) with (l := l); [|done..].
      intros p q. cbn. lia. }
    apply limits_valid_iff; [lia|]. split; [|done].
    apply (merged_one (fun p => (ResourceLimits.cpu_quota_percent (resource_limits p) <= 100)%Z)) with (l := l) (e := e);
      [intros p q; cbn; lia|done|done|]. apply limits_valid_iff in Hv; [lia|]. specialize (Hmem e He). lia.
Qed.

(** *** The budget that remains *)
Definition u_bounded (max : Z) (x : Z) : Prop := (0 <= x <= max)%Z.
Definition wf_usage (u : ResourceRequest.t) : Prop :=
  u_bounded u32_max (ResourceRequest.cpu_pct u) /\ u_bounded u64_max (ResourceRequest.memory_bytes u) /\
  u_bounded u64_max (ResourceRequest.io_bytes_per_sec u) /\ u_bounded u64_max (ResourceRequest.network_bytes_per_sec u) /\
  u_bounded u32_max (ResourceRequest.process_count u) /\ u_bounded u32_max (ResourceRequest.fd_count u).
(** Every field of the limits, with the bound of its signed type. *)
Definition caps (l : ResourceLimits.t) : list (Z * option Z) :=
  [(ResourceLimitEnforcer.i32_max, Some (ResourceLimits.cpu_quota_percent l)); (i64_max, Some (ResourceLimits.memory_max_bytes l));
   (i64_max, ResourceLimits.io_max_bytes_per_sec l); (i64_max, ResourceLimits.network_max_bytes_per_sec l);
   (ResourceLimitEnforcer.i32_max, ResourceLimits.process_max_count l);
   (ResourceLimitEnforcer.i32_max, ResourceLimits.file_descriptor_max l)].
Definition remainders (x : ResourceRemaining.t) : list (Z * Z) :=
  [(ResourceLimitEnforcer.i32_max, ResourceRemaining.cpu_pct x); (i64_max, ResourceRemaining.memory_bytes x);
   (i64_max, ResourceRemaining.io_bytes_per_sec x); (i64_max, ResourceRemaining.network_bytes_per_sec x);
   (ResourceLimitEnforcer.i32_max, ResourceRemaining.process_count x); (ResourceLimitEnforcer.i32_max, ResourceRemaining.fd_count x)].

Lemma remaining_bounded max cap used : (0 <= max)%Z -> (0 <= used)%Z -> (forall c, cap = Some c -> 0 <= c)%Z ->
  (- max <= ResourceLimitEnforcer.remaining_of max cap used <= max)%Z.
Proof.
  intros Hm Hu Hc. destruct cap as [c|]; cbn; [|lia]. specialize (Hc c eq_refl). unfold ResourceLimitEnforcer.to_signed.
  destruct (Z.leb_spec c max), (Z.leb_spec used max); lia.
Qed.

Lemma remaining_sign limit max cap used : (0 <= max)%Z -> (forall c, cap = Some c -> c < max)%Z ->
  (0 <= ResourceLimitEnforcer.remaining_of max cap used)%Z <-> ResourceLimitEnforcer.over_cap limit used cap = None.
Proof.
  intros Hm Hc. destruct cap as [c|]; cbn; [|split; [done|lia]]. specialize (Hc c eq_refl). unfold ResourceLimitEnforcer.to_signed.
  destruct (Z.leb_spec c max), (Z.leb_spec used max), (Z.ltb_spec c used); split; (discriminate || lia || reflexivity).
Qed.

(** C29: no subtraction of [compute_remaining] leaves its signed type, so that none
    wraps or panics; and where every cap is below the largest signed value, a
    usage passes [check_usage] exactly when nothing of what remains is negative. *)
Theorem compute_remaining_sound u l : wf_usage u -> Forall (fun e => forall c, e.2 = Some c -> (0 <= c)%Z) (caps l) ->
  let rem := ResourceLimitEnforcer.compute_remaining u l in
  Forall (fun e => (- e.1 <= e.2 <= e.1)%Z) (remainders rem) /\
  (Forall (fun e => forall c, e.2 = Some c -> (c < e.1)%Z) (caps l) ->
   forall em t now, (ResourceLimitEnforcer.check_usage em t now u l).1 = Ok tt <->
     Forall (fun e => (0 <= e.2)%Z) (remainders rem)).
Proof.
  intros (Hu1 & Hu2 & Hu3 & Hu4 & Hu5 & Hu6) Hc. unfold u_bounded in *. unfold caps in Hc.
  rewrite !Forall_cons in Hc. cbn [snd] in Hc. destruct Hc as (H1 & H2 & H3 & H4 & H5 & H6 & _). cbn zeta. split.
  - unfold remainders, ResourceLimitEnforcer.compute_remaining.
    repeat constructor; apply remaining_bounded; try done; try lia.
  - intros Hs em t now. unfold caps in Hs. rewrite !Forall_cons in Hs. cbn [fst snd] in Hs.
    destruct Hs as (S1 & S2 & S3 & S4 & S5 & S6 & _).
    unfold ResourceLimitEnforcer.check_usage.
    transitivity (ResourceLimitEnforcer.first_exceeded u l = None).
    { destruct (ResourceLimitEnforcer.first_exceeded u l) as [[[? ?] ?]|]; cbn; split; congruence. }
    unfold ResourceLimitEnforcer.first_exceeded, remainders, ResourceLimitEnforcer.compute_remaining.
    rewrite !or_else_None, !Forall_cons. cbn [snd ResourceRemaining.cpu_pct ResourceRemaining.memory_bytes
      ResourceRemaining.io_bytes_per_sec ResourceRemaining.network_bytes_per_sec ResourceRemaining.process_count
      ResourceRemaining.fd_count].
    assert (0 <= ResourceLimitEnforcer.i32_max)%Z as Hi by done. assert (0 <= i64_max)%Z as Hj by done.
    rewrite <- (remaining_sign _ _ _ _ Hi S1), <- (remaining_sign _ _ _ _ Hj S2), <- (remaining_sign _ _ _ _ Hj S3),
      <- (remaining_sign _ _ _ _ Hj S4), <- (remaining_sign _ _ _ _ Hi S5), <- (remaining_sign _ _ _ _ Hi S6).
    rewrite Forall_nil. tauto.
Qed.
End SandboxSound.

(** ** On concrete requests *)
Module SandboxDemo.
Import SandboxProfile SandboxComposer SandboxOrder SandboxSound.

Definition demo_composer : t := with_evidence_emitter (with_fixtures pretty).
(** The operator's profile is named, the application asks for the service class and
    a floor is set; the subject is an AI in recovery mode. *)
Definition demo_manifest : SandboxProfile.t := nth 2 (fixtures pretty) (new_strict "" "" "").
Definition demo_floor : SandboxProfile.t :=
  set_confinement IsolationKind.NamespaceLocal GpuPolicy.default_permissive NetworkPosture.Full
    (new_strict "floor" "floor" "").
Definition asking (base : option string) (adapter app floor : option SandboxProfile.t) (recovery ai : bool) : ComposeRequest.t :=
  {| ComposeRequest.subject := "ai:planner"; ComposeRequest.action_kind := "service.restart";
     ComposeRequest.base_profile_id := base; ComposeRequest.adapter_default := adapter;
     ComposeRequest.app_manifest := app; ComposeRequest.user_request := None; ComposeRequest.policy_required := None;
     ComposeRequest.group_floor := floor; ComposeRequest.runtime_safety_floor := None;
     ComposeRequest.recovery_mode := recovery; ComposeRequest.is_ai := ai |}.
Definition demo_request : ComposeRequest.t := asking (Some "sbx_1") None (Some demo_manifest) (Some demo_floor) true true.
Definition composed (r : ComposeRequest.t) : SandboxProfile.t :=
  match (compose "d" "new" 5 r demo_composer).1 with
  | Ok res => ComposeResult.profile res
  | Err _ => new_strict "" "" ""
  end.
Definition demo_contributors : list (string * SandboxProfile.t) :=
  default [] (contributors "d" demo_request demo_composer).
Definition demo_result : ComposeResult.t :=
  match (compose "d" "new" 5 demo_request demo_composer).1 with
  | Ok res => res
  | Err _ => {| ComposeResult.profile := new_strict "" "" ""; ComposeResult.merged_sources := [];
                ComposeResult.recovery_mode_enforced := false; ComposeResult.ai_mode_enforced := false |}
  end.

Example demo_composition :
  isolation_kind (composed demo_request) = IsolationKind.VmGuest /\
  network_posture (composed demo_request) = NetworkPosture.LoopbackOnly /\
  GpuPolicy.gpu_capability_class (gpu_policy (composed demo_request)) = GpuCapabilityClass.GpuBasic2d /\
  syscall_allowlist (composed demo_request) = Some [] /\
  ComposeResult.merged_sources demo_result = ["base_profile:sbx_1"; "app_manifest"; "group_floor"] /\
  SandboxComposedPayload.profile_id <$> (compose "d" "new" 5 demo_request demo_composer).2 = Some "sbx_new".
Proof. by vm_compute. Qed.

Example unknown_base : compose "d" "new" 5 (asking (Some "sbx_9") None None None false false) demo_composer =
  (Err (SandboxError.ProfileNotFound "sbx_9"), None).
Proof. by vm_compute. Qed.

Lemma demo_contributors_eq : contributors "d" demo_request demo_composer = Some demo_contributors.
Proof. vm_compute. reflexivity. Qed.
Lemma demo_result_eq : (compose "d" "new" 5 demo_request demo_composer).1 = Ok demo_result.
Proof. vm_compute. reflexivity. Qed.

Lemma composed_admits_exactly_witness :
  ResourceLimitEnforcer.validate_syscall "read" (syscall_allowlist (ComposeResult.profile demo_result)) <> Ok tt /\
  exists e, e ∈ demo_contributors /\ ResourceLimitEnforcer.validate_syscall "read" (syscall_allowlist e.2) <> Ok tt.
Proof.
  pose proof (composed_admits_exactly "d" "new" 5 demo_request demo_composer _ _ demo_contributors_eq demo_result_eq)
    as (_ & Hs & _).
  assert (ResourceLimitEnforcer.validate_syscall "read" (syscall_allowlist (ComposeResult.profile demo_result)) <> Ok tt) as Hno
    by (vm_compute; discriminate).
  split; [exact Hno|].
  destruct (decide (Exists (fun e : string * SandboxProfile.t =>
    is_ok (ResourceLimitEnforcer.validate_syscall "read" (syscall_allowlist e.2)) = false) demo_contributors)) as [He|He].
  - apply Exists_exists in He as (e & Hin & He). exists e. split; [exact Hin|].
    destruct (ResourceLimitEnforcer.validate_syscall "read" (syscall_allowlist e.2)); [discriminate|congruence].
  - exfalso. apply Hno, Hs. intros e Hin.
    destruct (ResourceLimitEnforcer.validate_syscall "read" (syscall_allowlist e.2)) as [[]|err] eqn:Hv; [done|].
    exfalso. apply He, Exists_exists. exists e. split; [exact Hin|]. by rewrite Hv.
Defined.

Lemma composed_profile_valid_witness : exists b,
  (GpuPolicyEnforcer.compute_capability_binding GpuPolicyEnforcer.new_with_defaults "b" 5
     (gpu_policy (ComposeResult.profile demo_result)) "group" "ai:planner").1 = Ok b /\
  GpuCapabilityBinding.degraded_isolation b = true.
Proof.
  pose proof (composed_profile_valid "d" "new" 5 demo_request demo_composer _ _ demo_contributors_eq demo_result_eq) as [Hg _].
  assert (exists e, e ∈ demo_contributors /\ gpu_valid e.2) as Hv.
  { exists ("app_manifest", demo_manifest). split; [|reflexivity]. vm_compute. apply elem_of_cons. right. apply elem_of_cons. by left. }
  destruct (Hg Hv GpuPolicyEnforcer.new_with_defaults "b" "group" "ai:planner") as (b & Hb & _ & Hd).
  exists b. split; [exact Hb|]. apply Hd. split; [reflexivity|discriminate].
Defined.

Definition demo_usage : ResourceRequest.t :=
  {| ResourceRequest.cpu_pct := 30; ResourceRequest.memory_bytes := 1024; ResourceRequest.io_bytes_per_sec := 0;
     ResourceRequest.network_bytes_per_sec := 0; ResourceRequest.process_count := 1; ResourceRequest.fd_count := 3 |}.
Lemma compute_remaining_sound_witness :
  ResourceRemaining.cpu_pct (ResourceLimitEnforcer.compute_remaining demo_usage ResourceLimits.default_strict) = (-20)%Z /\
  (ResourceLimitEnforcer.check_usage true "u" 5 demo_usage ResourceLimits.default_strict).1 <> Ok tt.
Proof.
  split; [reflexivity|].
  assert (wf_usage demo_usage) as Hu by (unfold wf_usage, u_bounded; cbn; unfold u32_max, u64_max; lia).
  assert (Forall (fun e : Z * option Z => forall c, e.2 = Some c -> (0 <= c)%Z) (caps ResourceLimits.default_strict)) as Hc
    by (repeat constructor; cbn; intros c [= <-]; lia).
  assert (Forall (fun e : Z * option Z => forall c, e.2 = Some c -> (c < e.1)%Z) (caps ResourceLimits.default_strict)) as Hs
    by (repeat constructor; cbn; intros c [= <-]; reflexivity).
  intros Hok%(proj2 (compute_remaining_sound demo_usage ResourceLimits.default_strict Hu Hc) Hs true "u" 5%Z).
  apply Forall_inv in Hok. cbn in Hok. lia.
Defined.

(** *** What the documentation promises and the code does not do *)

(** No floor, no rule: execution without isolation is composed. *)
Example no_isolation_is_composed :
  let p := set_confinement IsolationKind.NoIsolation GpuPolicy.default_permissive NetworkPosture.Full (new_strict "a" "adapter" "") in
  isolation_kind (composed (asking None (Some p) None None false false)) = IsolationKind.NoIsolation /\
  network_posture (composed (asking None (Some p) None None false false)) = NetworkPosture.Full.
Proof. by vm_compute. Qed.

(** A profile whose limits no validation accepts is stored. *)
Example invalid_profile_is_stored :
  let limits := {| ResourceLimits.cpu_quota_percent := 400; ResourceLimits.memory_max_bytes := 0;
    ResourceLimits.io_max_bytes_per_sec := None; ResourceLimits.network_max_bytes_per_sec := None;
    ResourceLimits.process_max_count := None; ResourceLimits.file_descriptor_max := None; ResourceLimits.expires_at := None |} in
  let p := {| profile_id := "sbx_bad"; name := ""; description := ""; isolation_kind := IsolationKind.NoIsolation;
    resource_limits := limits; gpu_policy := GpuPolicy.default_permissive; network_posture := NetworkPosture.Full;
    syscall_allowlist := None; signing_authority := ""; signature_ed25519 := "" |} in
  (store_profile p new).1 = Ok "sbx_bad" /\ ResourceLimits.validate limits <> Ok tt /\
  GpuPolicyEnforcer.validate_policy (gpu_policy p) <> Ok tt.
Proof. cbn zeta. split; [reflexivity|]. split; vm_compute; discriminate. Qed.

(** The fixture for operators carries a GPU policy that the enforcer rejects. *)
Example fixture_is_rejected : exists p e, nth_error (fixtures pretty) 1 = Some p /\
  GpuPolicyEnforcer.validate_policy (gpu_policy p) = Err e.
Proof. eexists _, _. split; vm_compute; reflexivity. Qed.

(** The stricter kind admits system calls that the laxer one refuses. *)
Example stricter_kind_admits_more :
  isolation_strictness IsolationKind.NamespaceLocal < isolation_strictness IsolationKind.VmGuest /\
  (SyscallEnforcement.validate "bpf" <$> SyscallEnforcement.canonical IsolationKind.VmGuest) = Some (Ok tt) /\
  (is_ok <$> (SyscallEnforcement.validate "bpf" <$> SyscallEnforcement.canonical IsolationKind.NamespaceLocal)) = Some false /\
  isolation_strictness IsolationKind.NamespaceLocal < isolation_strictness IsolationKind.ProcessContainer /\
  (SyscallEnforcement.validate "ptrace" <$> SyscallEnforcement.canonical IsolationKind.NamespaceLocal) = Some (Ok tt) /\
  (SyscallEnforcement.validate "sigaltstack" <$> SyscallEnforcement.canonical IsolationKind.BrowserOriginIsolated) = Some (Ok tt).
Proof. by vm_compute; repeat split; lia. Qed.

(** Both sides saturate: a usage beyond an uncappable limit shows nothing over. *)
Example over_budget_shows_zero :
  let limits := {| ResourceLimits.cpu_quota_percent := 10; ResourceLimits.memory_max_bytes := i64_max;
    ResourceLimits.io_max_bytes_per_sec := None; ResourceLimits.network_max_bytes_per_sec := None;
    ResourceLimits.process_max_count := None; ResourceLimits.file_descriptor_max := None; ResourceLimits.expires_at := None |} in
  let usage := {| ResourceRequest.cpu_pct := 1; ResourceRequest.memory_bytes := u64_max; ResourceRequest.io_bytes_per_sec := 0;
    ResourceRequest.network_bytes_per_sec := 0; ResourceRequest.process_count := 1; ResourceRequest.fd_count := 3 |} in
  ResourceRemaining.memory_bytes (ResourceLimitEnforcer.compute_remaining usage limits) = 0%Z /\
  (ResourceLimitEnforcer.check_usage false "" 0 usage limits).1 =
    Err (SandboxError.ResourceLimitsViolation "memory_max_bytes" u64_max i64_max).
Proof. by vm_compute. Qed.

(** The evidence of a violation names a profile id drawn for the occasion. *)
Example violation_names_a_fresh_profile :
  profile_id (composed demo_request) = "sbx_new" /\
  (ResourceLimitExceededPayload.profile_id <$>
    (ResourceLimitEnforcer.check_usage true "u" 5 demo_usage (resource_limits (composed demo_request))).2) = Some "sbx_u".
Proof. by vm_compute. Qed.
End SandboxDemo.
