(* ===== verification/Confinement.v ===== *)
(** * From a sandbox profile to its confinement (crate [aios-sandbox])

    [AppArmorProfileGenerator] ([confinement_generator.rs]) writes the text of an
    AppArmor profile, and [SandboxRuntimeAdapter] ([runtime_adapter.rs]) answers
    the sandbox question of the capability runtime.  The text is what the code
    pushes, line by line; the theorem about it reads the lines back.  Fresh ULIDs
    and the clock are arguments. *)
From S2P Require Import Prelude Collections Ids Sandbox.
From S2P Require RtPipeline.

Definition newline : Ascii.ascii := "010"%char.
(** A sequence of [push_str] calls, each of which ends its line. *)
Fixpoint unlines (l : list string) : string :=
  match l with
  | [] => ""
  | x :: l => x +:+ String newline (unlines l)
  end.

(** [str::to_lowercase], as far as it produces ASCII: the ASCII letters and the
    Kelvin sign.  No other character has a lower case of ASCII characters alone,
    and the names that the result is compared with are ASCII. *)
Fixpoint to_lowercase (s : string) : string :=
  match s with
  | EmptyString => EmptyString
  | String a r =>
      match r with
      | String b (String c r') =>
          if Ascii.eqb a "226" && Ascii.eqb b "132" && Ascii.eqb c "170" then String "k" (to_lowercase r')
          else String (to_ascii_lowercase_char a) (to_lowercase r)
      | _ => String (to_ascii_lowercase_char a) (to_lowercase r)
      end
  end.
(** [replace('-', "_")]. *)
Fixpoint dashes_to_underscores (s : string) : string :=
  match s with
  | EmptyString => EmptyString
  | String a s => String (if Ascii.eqb a "-" then "_"%char else a) (dashes_to_underscores s)
  end.

(** [String::truncate]: it panics inside of a character. *)
Definition is_char_boundary (n : nat) (s : string) : bool :=
  match String.get n s with
  | Some a => Nat.ltb (Ascii.nat_of_ascii a) 128 || Nat.leb 192 (Ascii.nat_of_ascii a)
  | None => Nat.eqb n (String.length s)
  end.
Definition truncate (n : nat) (s : string) : option string :=
  if Nat.leb n (String.length s)
  then if is_char_boundary n s then Some (String.substring 0 n s) else None
  else Some s.

Module ConfinementStrategy.
Inductive t : Type := AppArmorOnly | AppArmorWithSystemd | VmNoHostProfile | AppArmorBrowser | Rejected.
Definition is_browser (x : t) : bool := match x with AppArmorBrowser => true | _ => false end.
End ConfinementStrategy.

Module GeneratedProfile.
Record t : Type := {
  profile_name : string;
  content : string;
  generated : bool;
  strategy : ConfinementStrategy.t;
}.
End GeneratedProfile.

Module AppArmorProfileGenerator.
Import SandboxProfile.

Record t : Type := { max_profile_bytes : Z }.
Definition DEFAULT_MAX_PROFILE_BYTES : Z := 32768.
Definition defaults : t := {| max_profile_bytes := DEFAULT_MAX_PROFILE_BYTES |}.
Definition new (max_profile_bytes : Z) : t := {| max_profile_bytes := max_profile_bytes |}.

Definition strategy_for (kind : IsolationKind.t) : ConfinementStrategy.t :=
  match kind with
  | IsolationKind.NamespaceLocal => ConfinementStrategy.AppArmorOnly
  | IsolationKind.ProcessContainer => ConfinementStrategy.AppArmorWithSystemd
  | IsolationKind.VmGuest => ConfinementStrategy.VmNoHostProfile
  | IsolationKind.BrowserOriginIsolated => ConfinementStrategy.AppArmorBrowser
  | IsolationKind.NoIsolation => ConfinementStrategy.Rejected
  end.

(** [Debug] of an isolation kind. *)
Definition kind_debug (k : IsolationKind.t) : string :=
  match k with
  | IsolationKind.NamespaceLocal => "NamespaceLocal"
  | IsolationKind.ProcessContainer => "ProcessContainer"
  | IsolationKind.VmGuest => "VmGuest"
  | IsolationKind.BrowserOriginIsolated => "BrowserOriginIsolated"
  | IsolationKind.NoIsolation => "NoIsolation"
  end.

(** *** The writers *)
Definition write_header (profile_name : string) (p : SandboxProfile.t) : list string :=
  ["# AI-OS.NET Rev.6 — Auto-generated AppArmor profile";
   "# Generated by aios-sandbox confinement_generator";
   "# Profile: " +:+ name p;
   "# Description: " +:+ description p;
   "# Isolation: " +:+ kind_debug (isolation_kind p);
   "";
   "#include <tunables/global>";
   "";
   "profile " +:+ profile_name +:+ " {"].

Definition write_includes : list string :=
  ["  #include <abstractions/base>"; "  #include <abstractions/fonts>"; ""].

Definition write_flags (s : ConfinementStrategy.t) : list string :=
  if ConfinementStrategy.is_browser s
  then ["  # Browser-origin isolation: attach_disconnected flag."; "  flags=(attach_disconnected)"] else [].

Definition quoted (s : string) : string := String "034" (s +:+ String "034" "").
Definition write_path_rules (profile_name : string) : list string :=
  let capsule_home := "/var/lib/aios/capsules/" +:+ profile_name +:+ "/" in
  [""; "  # ── Capsule home ─────────────────────────";
   "  owner " +:+ capsule_home +:+ " r,";
   "  owner " +:+ capsule_home +:+ "** rwlkmix,";
   ""; "  # ── System shared data (read-only) ──────";
   "  /usr/share/ r,"; "  /usr/share/** r,"; "  /etc/aios/ r,"; "  /etc/aios/** r,";
   ""; "  # ── System libraries ────────────────────";
   "  /usr/lib/ r,"; "  /usr/lib/** mr,";
   ""; "  # ── Wayland socket ──────────────────────";
   "  owner /run/user/[0-9]*/wayland-[0-9]* rw,";
   ""; "  # ── X11 fallback ────────────────────────";
   "  /tmp/.X11-unix/X[0-9]* rw,";
   ""; "  # ── PulseAudio / PipeWire ───────────────";
   "  unix (abstract=" +:+ quoted "pipewire-0" +:+ "),";
   ""; "  # ── Deny dangerous paths ────────────────";
   "  deny /boot/** rwxlkmix,"; "  deny /root/** rwxlkmix,"; "  deny /etc/shadow rwxlkmix,";
   "  deny @{PROC}/sys/** rwxlkmix,"; "  deny /sys/kernel/** rwxlkmix,"].

Definition write_network_rules (posture : NetworkPosture.t) (s : ConfinementStrategy.t) : list string :=
  [""; "  # ── Network ─────────────────────────────"] ++
  match posture with
  | NetworkPosture.DenyAll =>
      ["  deny network inet,"; "  deny network inet6,"; "  deny network raw,"; "  deny network packet,"]
  | NetworkPosture.LoopbackOnly =>
      ["  # Loopback-only: no external connectivity.";
       "  deny network inet,"; "  deny network inet6,"; "  deny network raw,"]
  | NetworkPosture.HostLimited | NetworkPosture.ExplicitAllowlist =>
      ["  # Explicit allow-list (browser-style).";
       "  network inet stream,"; "  network inet6 stream,"; "  network inet dgram,"; "  network inet6 dgram,"]
  | NetworkPosture.Full =>
      ["  # Full network access granted."; "  network inet,"; "  network inet6,"]
  end ++
  (if ConfinementStrategy.is_browser s
   then ["  # Browser: allow DNS over TCP/UDP + ephemeral"; "  network inet dgram,"; "  network inet6 dgram,"] else []).

Definition write_gpu_rules (g : GpuPolicy.t) : list string :=
  [""; "  # ── GPU ─────────────────────────────────"] ++
  match GpuPolicy.gpu_capability_class g with
  | GpuCapabilityClass.GpuPassiveDisplay =>
      ["  # Passive display: X11 only, no DRI."; "  deny /dev/dri/ rw,"; "  deny /dev/dri/** rw,"]
  | GpuCapabilityClass.GpuBasic2d | GpuCapabilityClass.GpuRich2d =>
      ["  # Basic/Rich 2D: DRI render node."; "  /dev/dri/ r,"; "  owner /dev/dri/renderD[0-9]* rw,"]
  | GpuCapabilityClass.GpuFull3d =>
      ["  # Full 3D: DRI card + render nodes."; "  /dev/dri/ r,";
       "  owner /dev/dri/card[0-9]* rw,"; "  owner /dev/dri/renderD[0-9]* rw,"]
  | GpuCapabilityClass.GpuComputeHeavy =>
      ["  # Compute heavy: DRI + Vulkan ICD paths."; "  /dev/dri/ r,";
       "  owner /dev/dri/card[0-9]* rw,"; "  owner /dev/dri/renderD[0-9]* rw,";
       "  /usr/share/vulkan/ r,"; "  /usr/share/vulkan/** r,"; "  /etc/vulkan/ r,"; "  /etc/vulkan/** r,";
       "  # Vulkan ICD loaders"; "  /usr/lib/x86_64-linux-gnu/libvulkan* mr,"]
  end ++
  (if GpuPolicy.vk_device_required g then ["  # vk_device_required: dedicated VkDevice"] else []) ++
  (if GpuPolicy.iommu_required g then ["  # IOMMU required for DMA isolation"] else []).

Definition capability_names : list string :=
  ["net_bind_service"; "net_raw"; "sys_tty_config"; "ipc_lock"; "sys_nice"; "net_admin"].
(** One entry of the allowlist; the arms of the match all push their own name. *)
Definition write_entry (entry : string) : string :=
  let normalized := dashes_to_underscores (to_lowercase entry) in
  if existsb (String.eqb normalized) capability_names
  then "  capability " +:+ normalized +:+ ","
  else "  # unknown syscall allowlist entry: " +:+ entry +:+ " — denied by default".
Definition write_syscall_caps (allowlist : option (list string)) : list string :=
  [""; "  # ── Capabilities ────────────────────────";
   "  deny capability sys_ptrace,"; "  deny capability sys_admin,"; "  deny capability sys_module,"] ++
  match allowlist with
  | None => []
  | Some l => map write_entry l
  end.

Definition write_deny_list (kind : IsolationKind.t) : list string :=
  [""; "  # ── Cross-capsule isolation ─────────────"] ++
  match kind with
  | IsolationKind.BrowserOriginIsolated =>
      ["  # Browser: deny secrets access paths.";
       "  deny @{HOME}/.ssh/** rwxlkmix,"; "  deny @{HOME}/.gnupg/** rwxlkmix,"]
  | _ => []
  end ++
  ["  # ptrace across profiles is always denied."; "  deny ptrace,";
   "  deny /dev/mem rwxlkmix,"; "  deny /dev/kmem rwxlkmix,"; "  deny /dev/port rwxlkmix,"].

Definition write_profile_close : list string := ["}"].

Definition truncation_note : string :=
  unlines [""; ""; "# ⚠ PROFILE TRUNCATED — exceeded max_profile_bytes"].
Definition truncate_if_needed (g : t) (buf : string) : option string :=
  if (max_profile_bytes g <? Z.of_nat (String.length buf))%Z
  then cut ← truncate (Z.to_nat (Z.max 0 (max_profile_bytes g - Z.of_nat (String.length truncation_note)))) buf;
       Some (cut +:+ truncation_note)
  else Some buf.

(** The lines of the profile, before the limit on its size. *)
Definition profile_lines (profile_name : string) (p : SandboxProfile.t) : list string :=
  let s := strategy_for (isolation_kind p) in
  write_header profile_name p ++ write_includes ++ write_flags s ++ write_path_rules profile_name ++
  write_network_rules (network_posture p) s ++ write_gpu_rules (gpu_policy p) ++
  write_syscall_caps (syscall_allowlist p) ++ write_deny_list (isolation_kind p) ++ write_profile_close.

(** The answer, always [Some] in the code; [None] here is the panic. *)
Definition generate_profile (g : t) (p : SandboxProfile.t) : option GeneratedProfile.t :=
  let s := strategy_for (isolation_kind p) in
  match s with
  | ConfinementStrategy.Rejected | ConfinementStrategy.VmNoHostProfile =>
      Some {| GeneratedProfile.profile_name := profile_id p; GeneratedProfile.content := "";
              GeneratedProfile.generated := false; GeneratedProfile.strategy := s |}
  | _ =>
      let profile_name := "aios-" +:+ profile_id p in
      content ← truncate_if_needed g (unlines (profile_lines profile_name p));
      Some {| GeneratedProfile.profile_name := profile_name; GeneratedProfile.content := content;
              GeneratedProfile.generated := true; GeneratedProfile.strategy := s |}
  end.
End AppArmorProfileGenerator.

(** ** The question of the capability runtime ([runtime_adapter.rs]) *)
Module SandboxRuntimeAdapter.
Import SandboxProfile SandboxComposer.

(** [Debug] of a network posture. *)
Definition posture_debug (x : NetworkPosture.t) : string :=
  match x with
  | NetworkPosture.DenyAll => "DenyAll"
  | NetworkPosture.LoopbackOnly => "LoopbackOnly"
  | NetworkPosture.HostLimited => "HostLimited"
  | NetworkPosture.ExplicitAllowlist => "ExplicitAllowlist"
  | NetworkPosture.Full => "Full"
  end.

Definition request_for (action_target subject : string) (is_ai recovery_mode : bool) : ComposeRequest.t :=
  {| ComposeRequest.subject := subject; ComposeRequest.action_kind := action_target;
     ComposeRequest.base_profile_id := None; ComposeRequest.adapter_default := None;
     ComposeRequest.app_manifest := None; ComposeRequest.user_request := None;
     ComposeRequest.policy_required := None; ComposeRequest.group_floor := None;
     ComposeRequest.runtime_safety_floor := None; ComposeRequest.recovery_mode := recovery_mode;
     ComposeRequest.is_ai := is_ai |}.

(** The [Display] of a sandbox error ([error.rs]). *)
Definition error_display (e : SandboxError.t) : string :=
  match e with
  | SandboxError.ProfileNotFound id => "profile not found: " +:+ id
  | SandboxError.InvalidProfile why => "invalid profile: " +:+ why
  | SandboxError.ManifestSignatureInvalid => "manifest signature invalid"
  | SandboxError.ManifestUnknownAuthority a => "manifest signed by unknown authority: " +:+ a
  | SandboxError.ResourceLimitsViolation limit requested max =>
      "resource limit violation: " +:+ limit +:+ " = " +:+ pretty requested +:+ " exceeds max " +:+ pretty max
  | SandboxError.GpuPolicyViolation why => "GPU policy violation: " +:+ why
  | SandboxError.IsolationKindNotSupported kind reason =>
      "isolation kind " +:+ AppArmorProfileGenerator.kind_debug kind +:+ " not supported: " +:+ reason
  | SandboxError.SyscallNotAllowed syscall kind =>
      "syscall `" +:+ syscall +:+ "` not allowed under isolation kind " +:+ AppArmorProfileGenerator.kind_debug kind
  | SandboxError.Internal why => "internal sandbox error: " +:+ why
  | SandboxError.EvidenceEmitFailed why => "evidence emit failed: " +:+ why
  end.

Definition compose_for_action (ulid ulid' : string) (now : DateTime) (c : t)
    (action_target subject : string) (is_ai recovery_mode : bool) : result string RtPipeline.SandboxProfileSummary :=
  match (compose ulid ulid' now (request_for action_target subject is_ai recovery_mode) c).1 with
  | Err e => Err ("sandbox composition failed: " +:+ error_display e)
  | Ok res =>
      let p := ComposeResult.profile res in
      Ok {| RtPipeline.profile_id := profile_id p;
            RtPipeline.isolation_kind := AppArmorProfileGenerator.kind_debug (isolation_kind p);
            RtPipeline.network_posture := posture_debug (network_posture p);
            RtPipeline.gpu_capability_class :=
              GpuPolicyEnforcer.class_debug (GpuPolicy.gpu_capability_class (gpu_policy p)) |}
  end.
End SandboxRuntimeAdapter.

(** ** What the generated text grants *)
Module ConfinementSound.
Import SandboxProfile AppArmorProfileGenerator.

(** The rules of a text that start with [kind]. *)
Definition rules (kind text : string) : list string := List.filter (starts_with kind) (split_on newline text).

(** No text that comes from outside holds a line break. *)
Definition clean (p : SandboxProfile.t) : Prop :=
  free_of newline (profile_id p) = true /\ free_of newline (name p) = true /\ free_of newline (description p) = true /\
  Forall (fun e => free_of newline e = true) (default [] (syscall_allowlist p)).

Definition normalized (entry : string) : string := dashes_to_underscores (to_lowercase entry).
(** The capabilities that the allowlist names. *)
Definition capabilities_of (p : SandboxProfile.t) : list string :=
  List.filter (fun c => existsb (String.eqb c) capability_names) (map normalized (default [] (syscall_allowlist p))).
Definition browser (p : SandboxProfile.t) : bool :=
  match isolation_kind p with IsolationKind.BrowserOriginIsolated => true | _ => false end.
Definition networks_of (p : SandboxProfile.t) : list string :=
  match network_posture p with
  | NetworkPosture.DenyAll | NetworkPosture.LoopbackOnly => []
  | NetworkPosture.HostLimited | NetworkPosture.ExplicitAllowlist => ["inet stream"; "inet6 stream"; "inet dgram"; "inet6 dgram"]
  | NetworkPosture.Full => ["inet"; "inet6"]
  end ++ (if browser p then ["inet dgram"; "inet6 dgram"] else []).
Definition nodes_of (p : SandboxProfile.t) : list string :=
  match GpuPolicy.gpu_capability_class (gpu_policy p) with
  | GpuCapabilityClass.GpuPassiveDisplay => []
  | GpuCapabilityClass.GpuBasic2d | GpuCapabilityClass.GpuRich2d => ["renderD[0-9]*"]
  | GpuCapabilityClass.GpuFull3d | GpuCapabilityClass.GpuComputeHeavy => ["card[0-9]*"; "renderD[0-9]*"]
  end.
Definition denials_of (p : SandboxProfile.t) : list string :=
  ["/boot/** rwxlkmix"; "/root/** rwxlkmix"; "/etc/shadow rwxlkmix"; "@{PROC}/sys/** rwxlkmix"; "/sys/kernel/** rwxlkmix"] ++
  match network_posture p with
  | NetworkPosture.DenyAll => ["network inet"; "network inet6"; "network raw"; "network packet"]
  | NetworkPosture.LoopbackOnly => ["network inet"; "network inet6"; "network raw"]
  | _ => []
  end ++
  match GpuPolicy.gpu_capability_class (gpu_policy p) with
  | GpuCapabilityClass.GpuPassiveDisplay => ["/dev/dri/ rw"; "/dev/dri/** rw"]
  | _ => []
  end ++
  ["capability sys_ptrace"; "capability sys_admin"; "capability sys_module"] ++
  (if browser p then ["@{HOME}/.ssh/** rwxlkmix"; "@{HOME}/.gnupg/** rwxlkmix"] else []) ++
  ["ptrace"; "/dev/mem rwxlkmix"; "/dev/kmem rwxlkmix"; "/dev/port rwxlkmix"].
Definition rule (before : string) (after x : string) : string := before +:+ x +:+ after.

Lemma free_app c a b : free_of c (a +:+ b) = free_of c a && free_of c b.
Proof. apply str_all_app. Qed.

Lemma split_unlines l : Forall (fun x => free_of newline x = true) l -> split_on newline (unlines l) = l ++ [""].
Proof.
  induction 1 as [|x l Hx _ IH]; [reflexivity|]. cbn [unlines app]. by rewrite split_on_app, IH.
Qed.

Lemma write_entry_free e : free_of newline e = true -> free_of newline (write_entry e) = true.
Proof.
  intros He. unfold write_entry. destruct (existsb _ capability_names) eqn:Hx.
  - apply existsb_elem in Hx as (x & Hx & ->%String.eqb_eq). rewrite !free_app.
    unfold capability_names in Hx. repeat (apply elem_of_cons in Hx as [->|Hx]; [reflexivity|]). by apply elem_of_nil in Hx.
  - by rewrite !free_app, He.
Qed.

Lemma forallb_free l : forallb (free_of newline) l = true -> Forall (fun x => free_of newline x = true) l.
Proof. intros Hf. apply Forall_forall. exact (proj1 (forallb_elem _ _) Hf). Qed.

Lemma profile_lines_free p : clean p -> Forall (fun x => free_of newline x = true) (profile_lines ("aios-" +:+ profile_id p) p).
Proof.
  intros (Hi & Hn & Hd & Hl). unfold profile_lines. rewrite !Forall_app. split_and!.
  - apply forallb_free. unfold write_header. cbn [forallb]. rewrite !free_app, Hi, Hn, Hd. by destruct (isolation_kind p).
  - by apply forallb_free.
  - apply forallb_free. by destruct (isolation_kind p).
  - apply forallb_free. unfold write_path_rules. cbn [forallb]. rewrite !free_app, Hi. reflexivity.
  - apply forallb_free. by destruct (network_posture p), (isolation_kind p).
  - apply forallb_free. by destruct (gpu_policy p) as [[] [] ? ? [] ?].
  - unfold write_syscall_caps. apply Forall_app. split; [by apply forallb_free|].
    destruct (syscall_allowlist p) as [l|]; [|done]. cbn in Hl. apply Forall_map. eapply Forall_impl; [exact Hl|apply write_entry_free].
  - apply forallb_free. by destruct (isolation_kind p).
  - by apply forallb_free.
Qed.

(** *** Each writer, read back *)
Lemma filter_rules kind p : clean p ->
  rules kind (unlines (profile_lines ("aios-" +:+ profile_id p) p)) =
  List.filter (starts_with kind) (profile_lines ("aios-" +:+ profile_id p) p ++ [""]).
Proof. intros Hc. unfold rules. by rewrite split_unlines by (by apply profile_lines_free). Qed.

Lemma write_entry_eq e : write_entry e =
  if existsb (String.eqb (normalized e)) capability_names
  then "  capability " +:+ normalized e +:+ ","
  else "  # unknown syscall allowlist entry: " +:+ e +:+ " — denied by default".
Proof. reflexivity. Qed.
Lemma entries_capabilities l :
  List.filter (starts_with "  capability ") (map write_entry l) =
  map (rule "  capability " ",") (List.filter (fun c => existsb (String.eqb c) capability_names) (map normalized l)).
Proof.
  induction l as [|e l IH]; [done|]. cbn [map List.filter]. rewrite (write_entry_eq e).
  destruct (existsb (String.eqb (normalized e)) capability_names) eqn:Hx.
  - change (starts_with "  capability " ("  capability " +:+ normalized e +:+ ",")) with true. cbn [map].
    by rewrite IH.
  - exact IH.
Qed.

(** An entry contributes nothing but a capability. *)
Lemma entries_none kind l :
  (forall r, starts_with kind ("  capability " +:+ r) = false) ->
  (forall r, starts_with kind ("  # unknown syscall allowlist entry: " +:+ r) = false) ->
  List.filter (starts_with kind) (map write_entry l) = [].
Proof.
  intros H1 H2. induction l as [|e l IH]; [done|]. cbn [map List.filter].
  destruct (starts_with kind (write_entry e)) eqn:Hs; [|done]. unfold write_entry in Hs.
  destruct (existsb _ capability_names); by rewrite ?H1, ?H2 in Hs.
Qed.

Lemma filter_parts {A} (f : A -> bool) header incl flags path net gpu caps entries deny close last :
  List.filter f header = [] -> List.filter f (incl ++ flags) = [] -> List.filter f (close ++ last) = [] ->
  List.filter f ((header ++ incl ++ flags ++ path ++ net ++ gpu ++ (caps ++ entries) ++ deny ++ close) ++ last) =
  List.filter f path ++ List.filter f net ++ List.filter f gpu ++ List.filter f caps ++ List.filter f entries ++ List.filter f deny.
Proof.
  rewrite !List.filter_app. intros -> [-> ->]%app_eq_nil [-> ->]%app_eq_nil. by rewrite !app_nil_r, <- !app_assoc.
Qed.

Lemma caps_split l : write_syscall_caps l = write_syscall_caps None ++ map write_entry (default [] l).
Proof. destruct l; reflexivity. Qed.

(** The rules of one kind, writer by writer: those of the header, the includes,
    the flags and the end are none. *)
Lemma filter_writers (kind : string) p n :
  List.filter (starts_with kind) (write_header n p) = [] ->
  List.filter (starts_with kind) (write_includes ++ write_flags (strategy_for (isolation_kind p))) = [] ->
  List.filter (starts_with kind) (write_profile_close ++ [""]) = [] ->
  List.filter (starts_with kind) (profile_lines n p ++ [""]) =
    List.filter (starts_with kind) (write_path_rules n) ++
    List.filter (starts_with kind) (write_network_rules (network_posture p) (strategy_for (isolation_kind p))) ++
    List.filter (starts_with kind) (write_gpu_rules (gpu_policy p)) ++
    List.filter (starts_with kind) (write_syscall_caps None) ++
    List.filter (starts_with kind) (map write_entry (default [] (syscall_allowlist p))) ++
    List.filter (starts_with kind) (write_deny_list (isolation_kind p)).
Proof.
  intros Hh Hi Hc. unfold profile_lines. cbv zeta. rewrite caps_split. exact (filter_parts _ _ _ _ _ _ _ _ _ _ _ _ Hh Hi Hc).
Qed.

Ltac by_writers p :=
  rewrite filter_writers;
  [|reflexivity|by destruct (isolation_kind p)|reflexivity].

Lemma network_rules p : List.filter (starts_with "  network ") (profile_lines ("aios-" +:+ profile_id p) p ++ [""]) =
  map (rule "  network " ",") (networks_of p).
Proof.
  by_writers p. rewrite entries_none by reflexivity. unfold networks_of, browser.
  destruct p as [? ? ? k ? [c v ? ? i ?] net ? ? ?]. cbn [network_posture isolation_kind gpu_policy].
  replace (List.filter (starts_with "  network ") (write_gpu_rules _)) with (@nil string) by by destruct c, v, i.
  by destruct k, net.
Qed.

Lemma node_rules p : List.filter (starts_with "  owner /dev/dri/") (profile_lines ("aios-" +:+ profile_id p) p ++ [""]) =
  map (rule "  owner /dev/dri/" " rw,") (nodes_of p).
Proof.
  by_writers p. rewrite entries_none by reflexivity. unfold nodes_of.
  destruct p as [? ? ? k ? [c v ? ? i ?] net ? ? ?]. cbn [network_posture isolation_kind gpu_policy GpuPolicy.gpu_capability_class].
  replace (List.filter (starts_with "  owner /dev/dri/") (write_network_rules _ _)) with (@nil string) by by destruct k, net.
  replace (List.filter (starts_with "  owner /dev/dri/") (write_deny_list _)) with (@nil string) by by destruct k.
  by destruct c, v, i.
Qed.

Lemma capability_rules p : List.filter (starts_with "  capability ") (profile_lines ("aios-" +:+ profile_id p) p ++ [""]) =
  map (rule "  capability " ",") (capabilities_of p).
Proof.
  by_writers p. rewrite entries_capabilities. unfold capabilities_of.
  destruct p as [? ? ? k ? [c v ? ? i ?] net ? ? ?]. cbn [network_posture isolation_kind gpu_policy syscall_allowlist].
  replace (List.filter (starts_with "  capability ") (write_network_rules _ _)) with (@nil string) by by destruct k, net.
  replace (List.filter (starts_with "  capability ") (write_gpu_rules _)) with (@nil string) by by destruct c, v, i.
  replace (List.filter (starts_with "  capability ") (write_deny_list _)) with (@nil string) by by destruct k.
  cbn [app]. apply app_nil_r.
Qed.

Lemma denial_rules p : List.filter (starts_with "  deny ") (profile_lines ("aios-" +:+ profile_id p) p ++ [""]) =
  map (rule "  deny " ",") (denials_of p).
Proof.
  by_writers p. rewrite entries_none by reflexivity. unfold denials_of, browser.
  destruct p as [? ? ? k ? [c v ? ? i ?] net ? ? ?]. cbn [network_posture isolation_kind gpu_policy GpuPolicy.gpu_capability_class].
  rewrite !map_app. f_equal. f_equal; [by destruct k, net|]. f_equal; [by destruct c, v, i|]. by destruct k.
Qed.

(** C23: the generated text grants what the profile says.  For every isolation kind
    that gets a profile (neither a guest VM nor no isolation, for which the text is
    empty), where the texts that come from outside hold no line break and the size
    is within the limit, generation does not panic, and what the text holds is exact: one capability rule per
    allowlist entry that names one of the six capabilities, in order; the network
    rules of the posture (and the datagram rules of the browser kind); the device
    nodes of the GPU class; and every denial. *)
Theorem generated_rules_exact g p : clean p ->
  isolation_kind p <> IsolationKind.VmGuest -> isolation_kind p <> IsolationKind.NoIsolation ->
  (Z.of_nat (String.length (unlines (profile_lines ("aios-" +:+ profile_id p) p))) <= max_profile_bytes g)%Z ->
  exists gp, generate_profile g p = Some gp /\ GeneratedProfile.generated gp = true /\
    GeneratedProfile.profile_name gp = "aios-" +:+ profile_id p /\
    rules "  capability " (GeneratedProfile.content gp) = map (rule "  capability " ",") (capabilities_of p) /\
    rules "  network " (GeneratedProfile.content gp) = map (rule "  network " ",") (networks_of p) /\
    rules "  owner /dev/dri/" (GeneratedProfile.content gp) = map (rule "  owner /dev/dri/" " rw,") (nodes_of p) /\
    rules "  deny " (GeneratedProfile.content gp) = map (rule "  deny " ",") (denials_of p).
Proof.
  intros Hc Hv Hn Hl. exists {| GeneratedProfile.profile_name := "aios-" +:+ profile_id p;
    GeneratedProfile.content := unlines (profile_lines ("aios-" +:+ profile_id p) p);
    GeneratedProfile.generated := true; GeneratedProfile.strategy := strategy_for (isolation_kind p) |}.
  split; [|split; [reflexivity|]; split; [reflexivity|]].
  { unfold generate_profile, truncate_if_needed. destruct (Z.ltb_spec (max_profile_bytes g)
      (Z.of_nat (String.length (unlines (profile_lines ("aios-" +:+ profile_id p) p))))); [lia|].
    by destruct (isolation_kind p). }
  cbn [GeneratedProfile.content]. rewrite !filter_rules by done.
  split; [apply capability_rules|]. split; [apply network_rules|]. split; [apply node_rules|apply denial_rules].
Qed.

(** *** The confinement of a composed profile *)
Import SandboxComposer SandboxOrder SandboxSound.

Lemma nodes_below p q : GpuCapabilityClass.rank (GpuPolicy.gpu_capability_class (gpu_policy p)) <=
  GpuCapabilityClass.rank (GpuPolicy.gpu_capability_class (gpu_policy q)) -> nodes_of p ⊆ nodes_of q.
Proof.
  unfold nodes_of. destruct (GpuPolicy.gpu_capability_class (gpu_policy p)), (GpuPolicy.gpu_capability_class (gpu_policy q));
    cbn [GpuCapabilityClass.rank]; intros Hr; (set_solver || lia).
Qed.

Lemma elem_of_capabilities x p : x ∈ capabilities_of p <->
  x ∈ capability_names /\ exists e, e ∈ default [] (syscall_allowlist p) /\ normalized e = x.
Proof.
  unfold capabilities_of. rewrite list_elem_of_In, filter_In, in_map_iff, existsb_elem.
  setoid_rewrite <- list_elem_of_In. setoid_rewrite String.eqb_eq. naive_solver.
Qed.

Lemma quiet_networks p : NetworkPosture.rank (network_posture p) <= 1 -> browser p = false -> networks_of p = [].
Proof. unfold networks_of. intros Hr ->. destruct (network_posture p); cbn in Hr; (reflexivity || lia). Qed.

(** Composition carries over to the confinement: a composed profile reaches no
    device node that a contributor may not reach, and grants no capability that
    a contributor with an allowlist does not name; outside of the browser kind, it
    opens no network if one contributor closes it, or for an AI subject, or in
    recovery. *)
Theorem composed_confinement ulid ulid' now r c l res :
  contributors ulid r c = Some l -> (compose ulid ulid' now r c).1 = Ok res ->
  let p := ComposeResult.profile res in
  (forall e, e ∈ l -> nodes_of p ⊆ nodes_of e.2) /\
  (forall e x, e ∈ l -> syscall_allowlist e.2 <> None -> x ∈ capabilities_of p -> x ∈ capabilities_of e.2) /\
  (browser p = false ->
   ComposeRequest.is_ai r = true \/ ComposeRequest.recovery_mode r = true \/
     (exists e, e ∈ l /\ NetworkPosture.rank (network_posture e.2) <= 1) -> networks_of p = []).
Proof.
  intros Hl Hok. destruct (compose_answers _ _ _ _ _ _ _ Hl Hok) as [(He & Hr & Hi) _]. cbn zeta. split; [|split].
  - intros e Hin. destruct (He e Hin) as [_ _ [] _ _]. by apply nodes_below.
  - intros e x Hin Hn. rewrite !elem_of_capabilities. intros (Hx & y & Hy & Hyx). split; [exact Hx|]. exists y. split; [|exact Hyx].
    destruct (He e Hin) as [_ _ _ _ Hs]. destruct (syscall_allowlist e.2) as [le|]; [|done].
    destruct Hs as (lp & Hlp & Hsub). rewrite Hlp in Hy. exact (Hsub y Hy).
  - intros Hb Hq. apply quiet_networks; [|exact Hb]. destruct Hq as [Ha|[Ha|(e & Hin & Ha)]].
    + apply (Hi Ha).
    + apply (Hr Ha).
    + destruct (He e Hin) as [_ _ _ Hn _]. lia.
Qed.

(** *** The runtime's question *)

(** What the runtime is told depends on the recovery flag alone: no stored profile,
    no source and no floor takes part. *)
Lemma runtime_sandbox_is_fixed ulid ulid' now c target subject is_ai recovery :
  SandboxRuntimeAdapter.compose_for_action ulid ulid' now c target subject is_ai recovery =
  Ok {| RtPipeline.profile_id := "sbx_" +:+ ulid';
        RtPipeline.isolation_kind := if recovery then "ProcessContainer" else "NamespaceLocal";
        RtPipeline.network_posture := "DenyAll"; RtPipeline.gpu_capability_class := "GpuPassiveDisplay" |}.
Proof. by destruct is_ai, recovery. Qed.
End ConfinementSound.

(** ** On concrete profiles *)
Module ConfinementDemo.
Import SandboxComposer SandboxSound SandboxProfile AppArmorProfileGenerator ConfinementSound.

Definition demo_profile (description : string) (k : IsolationKind.t) (net : NetworkPosture.t) (allow : option (list string))
    : SandboxProfile.t :=
  {| profile_id := "sbx_1"; name := "demo"; description := description; isolation_kind := k;
     resource_limits := ResourceLimits.default_strict; gpu_policy := GpuPolicy.default_permissive; network_posture := net;
     syscall_allowlist := allow; signing_authority := ""; signature_ed25519 := "" |}.
Definition text_of (g : t) (p : SandboxProfile.t) : string :=
  match generate_profile g p with Some gp => GeneratedProfile.content gp | None => "" end.

Definition office : SandboxProfile.t :=
  demo_profile "office" IsolationKind.ProcessContainer NetworkPosture.HostLimited (Some ["Net-Raw"; "read"; "ipc_lock"]).
Lemma generated_rules_exact_witness : exists gp, generate_profile defaults office = Some gp /\
  rules "  capability " (GeneratedProfile.content gp) = ["  capability net_raw,"; "  capability ipc_lock,"].
Proof.
  destruct (generated_rules_exact defaults office) as (gp & Hg & _ & _ & Hc & _).
  - repeat split; repeat constructor.
  - discriminate.
  - discriminate.
  - vm_compute. discriminate.
  - exists gp. split; [exact Hg|]. etransitivity; [exact Hc|]. vm_compute. reflexivity.
Defined.

Lemma composed_confinement_witness :
  networks_of (ComposeResult.profile SandboxDemo.demo_result) = [] /\
  nodes_of (ComposeResult.profile SandboxDemo.demo_result) = ["renderD[0-9]*"].
Proof.
  split; [|vm_compute; reflexivity].
  apply (composed_confinement "d" "new" 5 SandboxDemo.demo_request SandboxDemo.demo_composer _ _
    SandboxDemo.demo_contributors_eq SandboxDemo.demo_result_eq); [vm_compute; reflexivity|by left].
Defined.

(** *** What the documentation promises and the code does not do *)

(** An entry of the allowlist with a line break writes rules of its own. *)
Example entry_writes_a_rule :
  rules "  capability " (text_of defaults (demo_profile "" IsolationKind.NamespaceLocal NetworkPosture.DenyAll
    (Some ["x" +:+ String newline "  capability dac_override, #"]))) = ["  capability dac_override, # — denied by default"].
Proof. by vm_compute. Qed.

(** So does a description, before the profile begins. *)
Example description_writes_a_profile :
  rules "profile " (text_of defaults (demo_profile ("x" +:+ String newline "profile evil /usr/bin/evil flags=(complain) {}")
    IsolationKind.NamespaceLocal NetworkPosture.DenyAll None)) =
  ["profile evil /usr/bin/evil flags=(complain) {}"; "profile aios-sbx_1 {"].
Proof. by vm_compute. Qed.

(** A limit within a character: the generator panics. *)
Example truncation_panics : generate_profile (new (Z.of_nat (String.length truncation_note) + 19)) office = None /\
  is_some (generate_profile (new (Z.of_nat (String.length truncation_note) + 18)) office) = true.
Proof. by vm_compute. Qed.

(** A truncated profile has lost the denials that end it, and its closing brace. *)
Example truncation_drops_the_denials :
  is_some (generate_profile (new 1800) office) = true /\
  rules "  deny ptrace" (text_of defaults office) = ["  deny ptrace,"] /\
  rules "  deny ptrace" (text_of (new 1800) office) = [] /\ rules "}" (text_of (new 1800) office) = [].
Proof. by vm_compute. Qed.

(** The strictest kind opens the network that the posture closes. *)
Example browser_opens_the_network :
  networks_of (demo_profile "" IsolationKind.BrowserOriginIsolated NetworkPosture.DenyAll None) = ["inet dgram"; "inet6 dgram"] /\
  networks_of (demo_profile "" IsolationKind.NamespaceLocal NetworkPosture.DenyAll None) = [].
Proof. by vm_compute. Qed.

(** The generator reads a missing allowlist as no capability, the composer as no
    restriction: what no contributor grants alone is granted by the one that has a
    list, once both are composed. *)
Example missing_allowlist_is_no_restriction :
  let p := demo_profile "" IsolationKind.NamespaceLocal NetworkPosture.DenyAll None in
  let q := demo_profile "" IsolationKind.NamespaceLocal NetworkPosture.DenyAll (Some ["net_admin"]) in
  capabilities_of p = [] /\ capabilities_of (merge_profiles p q) = ["net_admin"].
Proof. by vm_compute. Qed.

(** The kinds without a host profile are answered with an empty one. *)
Example forbidden_kind_is_answered :
  GeneratedProfile.strategy <$> generate_profile defaults (demo_profile "" IsolationKind.NoIsolation NetworkPosture.Full None) =
  Some ConfinementStrategy.Rejected.
Proof. by vm_compute. Qed.
End ConfinementDemo.
