(* ===== verification/Recovery.v ===== *)
(** * The recovery boundary (crate [aios-recovery])

    The vocabularies and records ([mode.rs], [boot.rs], [bundle.rs],
    [boundary.rs], [error.rs]), the emitter ([evidence_emit.rs],
    [evidence_payloads.rs]), [InMemoryRecoveryBoundary]
    ([in_memory_boundary.rs]) and what asks it for the mode: the guard of the
    name space ([recovery_guard.rs]), the hydrator of the Policy Kernel
    ([policy_adapter.rs]), the hook of the Capability Runtime
    ([runtime_adapter.rs]) and that of the service graph.  The world of an
    operation is its component's state, an evidence log and the environment.
    Each operation decides and writes the state under its lock, so an operation is
    one step; between the release of that lock and the storing of its token an
    entry can be seen by others, a moment that has no step here. *)
From S2P Require Import Prelude Json CondParser Records Redaction Receipt ChainSound StateError PolicyTypes Hydration FsTypes FsNamespace SgrRuntime.

(** ** Modes and scopes ([mode.rs]) *)
Module RecoverySubBoundary.
Inductive t : Type := Network | Storage | Compute | SystemFull.
#[global] Instance eq_dec : EqDecision t.
Proof. solve_decision. Defined.
Definition debug (x : t) : string :=
  match x with Network => "Network" | Storage => "Storage" | Compute => "Compute" | SystemFull => "SystemFull" end.
Definition contains (x y : t) : bool :=
  match x, y with
  | SystemFull, _ | Network, Network | Storage, Storage | Compute, Compute => true
  | _, _ => false
  end.
End RecoverySubBoundary.

Module RecoveryMode.
Inductive t : Type := Normal | Recovery | Degraded | FirstBoot.
#[global] Instance eq_dec : EqDecision t.
Proof. solve_decision. Defined.
Definition wire (m : t) : string :=
  match m with Normal => "NORMAL" | Recovery => "RECOVERY" | Degraded => "DEGRADED" | FirstBoot => "FIRST_BOOT" end.
End RecoveryMode.

Module RecoveryMutableScope.
Inductive t : Type := ProcessLifecycle | NetworkReconfig | FilesystemMutation | SysctlTuning | MeshRouting.
#[global] Instance eq_dec : EqDecision t.
Proof. solve_decision. Defined.
End RecoveryMutableScope.

Definition from_mutable_scope (s : RecoveryMutableScope.t) : option RecoverySubBoundary.t :=
  match s with
  | RecoveryMutableScope.ProcessLifecycle | RecoveryMutableScope.SysctlTuning => Some RecoverySubBoundary.Compute
  | RecoveryMutableScope.NetworkReconfig | RecoveryMutableScope.MeshRouting => Some RecoverySubBoundary.Network
  | RecoveryMutableScope.FilesystemMutation => Some RecoverySubBoundary.Storage
  end.

Module HealingCapability.
Inductive t : Type :=
| CanRestartProcess | CanRestartNetwork | CanReconfigureDNS | CanIsolateMeshNode | CanSnapshotState | CanEscalateToOperator.
Definition required_scope (c : t) : RecoveryMutableScope.t :=
  match c with
  | CanRestartProcess | CanEscalateToOperator => RecoveryMutableScope.ProcessLifecycle
  | CanRestartNetwork | CanReconfigureDNS => RecoveryMutableScope.NetworkReconfig
  | CanIsolateMeshNode => RecoveryMutableScope.MeshRouting
  | CanSnapshotState => RecoveryMutableScope.FilesystemMutation
  end.
Definition is_subset_of (c : t) (s : RecoveryMutableScope.t) : bool :=
  match c, s with
  | CanRestartProcess, RecoveryMutableScope.ProcessLifecycle | CanEscalateToOperator, RecoveryMutableScope.ProcessLifecycle
  | CanRestartNetwork, RecoveryMutableScope.NetworkReconfig | CanReconfigureDNS, RecoveryMutableScope.NetworkReconfig
  | CanIsolateMeshNode, RecoveryMutableScope.MeshRouting | CanSnapshotState, RecoveryMutableScope.FilesystemMutation => true
  | _, _ => false
  end.
End HealingCapability.

Module RecoveryState.
Record t : Type := {
  mode : RecoveryMode.t;
  entered_at : option DateTime;
  exit_planned_at : option DateTime;
  reason : option string;
  operator_grant : option string;
  active_sub_boundaries : list RecoverySubBoundary.t;
}.
Definition set_subs (l : list RecoverySubBoundary.t) (s : t) : t :=
  {| mode := mode s; entered_at := entered_at s; exit_planned_at := exit_planned_at s; reason := reason s;
     operator_grant := operator_grant s; active_sub_boundaries := l |}.
End RecoveryState.

(** ** First boot and kernel candidates ([boot.rs], [kernel.rs]) *)
Module BootPhase.
Inductive t : Type := Cold | Bootstrap | FirstBoot | Normal | Recovery.
#[global] Instance eq_dec : EqDecision t.
Proof. solve_decision. Defined.
End BootPhase.

Module FirstBootPhase.
Inductive t : Type :=
| StageInstallerMediaVerified | StageDiskPartitioned | StageKernelInstalled | StageAiosFsInitialized
| StageVaultRootGenerated | StageInvariantBundleLoaded | StagePolicyBundleLoaded | StageIdentityBundleLoaded
| StageRecoveryOperatorRegistration | StageAiProviderConfiguration | StageFirstGroupRegistration
| StageFirstUserRegistration | StageRuntimeServicesStarted | StageFirstBootComplete | StageFailedRequiresRecovery.
#[global] Instance eq_dec : EqDecision t.
Proof. solve_decision. Defined.
(** [Debug]. *)
Definition debug (p : t) : string :=
  match p with
  | StageInstallerMediaVerified => "StageInstallerMediaVerified" | StageDiskPartitioned => "StageDiskPartitioned"
  | StageKernelInstalled => "StageKernelInstalled" | StageAiosFsInitialized => "StageAiosFsInitialized"
  | StageVaultRootGenerated => "StageVaultRootGenerated" | StageInvariantBundleLoaded => "StageInvariantBundleLoaded"
  | StagePolicyBundleLoaded => "StagePolicyBundleLoaded" | StageIdentityBundleLoaded => "StageIdentityBundleLoaded"
  | StageRecoveryOperatorRegistration => "StageRecoveryOperatorRegistration"
  | StageAiProviderConfiguration => "StageAiProviderConfiguration"
  | StageFirstGroupRegistration => "StageFirstGroupRegistration" | StageFirstUserRegistration => "StageFirstUserRegistration"
  | StageRuntimeServicesStarted => "StageRuntimeServicesStarted" | StageFirstBootComplete => "StageFirstBootComplete"
  | StageFailedRequiresRecovery => "StageFailedRequiresRecovery"
  end.
(** The serialised form. *)
Definition wire (p : t) : string :=
  match p with
  | StageInstallerMediaVerified => "STAGE_INSTALLER_MEDIA_VERIFIED" | StageDiskPartitioned => "STAGE_DISK_PARTITIONED"
  | StageKernelInstalled => "STAGE_KERNEL_INSTALLED" | StageAiosFsInitialized => "STAGE_AIOS_FS_INITIALIZED"
  | StageVaultRootGenerated => "STAGE_VAULT_ROOT_GENERATED" | StageInvariantBundleLoaded => "STAGE_INVARIANT_BUNDLE_LOADED"
  | StagePolicyBundleLoaded => "STAGE_POLICY_BUNDLE_LOADED" | StageIdentityBundleLoaded => "STAGE_IDENTITY_BUNDLE_LOADED"
  | StageRecoveryOperatorRegistration => "STAGE_RECOVERY_OPERATOR_REGISTRATION"
  | StageAiProviderConfiguration => "STAGE_AI_PROVIDER_CONFIGURATION"
  | StageFirstGroupRegistration => "STAGE_FIRST_GROUP_REGISTRATION" | StageFirstUserRegistration => "STAGE_FIRST_USER_REGISTRATION"
  | StageRuntimeServicesStarted => "STAGE_RUNTIME_SERVICES_STARTED" | StageFirstBootComplete => "STAGE_FIRST_BOOT_COMPLETE"
  | StageFailedRequiresRecovery => "STAGE_FAILED_REQUIRES_RECOVERY"
  end.
End FirstBootPhase.

Module CandidateState.
Inductive t : Type :=
| Building | Built | Gating | GatePassed | GateFailed | APromoted | BDemotedToA | Rollback | Retired.
#[global] Instance eq_dec : EqDecision t.
Proof. solve_decision. Defined.
Definition as_wire_str (s : t) : string :=
  match s with
  | Building => "BUILDING" | Built => "BUILT" | Gating => "GATING" | GatePassed => "GATE_PASSED" | GateFailed => "GATE_FAILED"
  | APromoted => "A_PROMOTED" | BDemotedToA => "B_DEMOTED_TO_A" | Rollback => "ROLLBACK" | Retired => "RETIRED"
  end.
End CandidateState.

Module RecoveryError.
Inductive t : Type :=
| RecoveryNotActive
| AlreadyInRecovery
| RecoveryAuthorizationInvalid (why : string)
| RecoveryOnlyPathMutationDenied (path reason : string)
| AiPathMutationDenied (path : string)
| BundleSignatureInvalid
| BundleUnknownAuthority (authority : string)
| FirstBootAlreadyCompleted
| InvalidPhaseTransition (from to : FirstBootPhase.t)
| CandidateNotFound (id : string)
| InvalidCandidateTransition (from to : CandidateState.t)
| KernelSignatureInvalid
| KernelUnknownAuthority (why : string)
| EvidenceEmitFailed (why : string)
| Internal (why : string)
| SelfHealingPolicyInvalid (why : string)
| SelfHealingRecoveryNotActive (component : string)
| SelfHealingComponentUnknown (component : string)
| SelfHealingEscalationRequired (component reason : string).

(** [Display]. *)
Definition display (e : t) : string :=
  match e with
  | RecoveryNotActive => "recovery mode is not active"
  | AlreadyInRecovery => "recovery mode is already active"
  | RecoveryAuthorizationInvalid why => "recovery authorization invalid: " +:+ why
  | RecoveryOnlyPathMutationDenied path why => "recovery-only path mutation denied for " +:+ path +:+ ": " +:+ why
  | AiPathMutationDenied path => "AI path mutation denied for " +:+ path
  | BundleSignatureInvalid => "recovery bundle signature is invalid"
  | BundleUnknownAuthority a => "unknown recovery bundle signing authority: " +:+ a
  | FirstBootAlreadyCompleted => "first-boot has already completed"
  | InvalidPhaseTransition from to =>
      "invalid first-boot phase transition: " +:+ FirstBootPhase.debug from +:+ " -> " +:+ FirstBootPhase.debug to
  | CandidateNotFound id => "kernel candidate not found: " +:+ id
  | InvalidCandidateTransition from to =>
      "invalid kernel candidate transition: " +:+ CandidateState.as_wire_str from +:+ " -> " +:+ CandidateState.as_wire_str to
  | KernelSignatureInvalid => "kernel candidate signature is invalid"
  | KernelUnknownAuthority why => "unknown kernel candidate signing authority: " +:+ why
  | EvidenceEmitFailed why => "evidence emission failed: " +:+ why
  | Internal why => "recovery internal error: " +:+ why
  | SelfHealingPolicyInvalid why => "self-healing policy invalid: " +:+ why
  | SelfHealingRecoveryNotActive c => "self-healing action denied — recovery not active for component: " +:+ c
  | SelfHealingComponentUnknown c => "self-healing component unknown: " +:+ c
  | SelfHealingEscalationRequired c why => "self-healing escalation required for component " +:+ c +:+ ": " +:+ why
  end.
End RecoveryError.

Module RecoveryBundle.
Record t : Type := {
  bundle_id : string;
  loaded_at : DateTime;
  hard_deny_signatures : list string;
  override_signatures : list string;
  signing_authority : string;
}.
End RecoveryBundle.

Module EnterRecoveryRequest.
Record t : Type := {
  reason : string;
  operator_grant : option string;
  expected_phases : list BootPhase.t;
  bundle : option RecoveryBundle.t;
}.
End EnterRecoveryRequest.

(** ** Evidence *)
Class RecoveryEvidenceLog (L : Type) `{Primitives} := {
  recovery_append_signed : Receipt.ReceiptBuilder -> SigningKey -> option string -> L -> result EvidenceError Receipt.t * L;
}.
Module InMemoryRecoveryEvidenceLog.
Section Ops.
Context `{Primitives}.

(** [mint] and [times] are the identifiers and times of the successive seals. *)
Record t : Type := {
  chain : list Receipt.t;
  mint : nat -> string;
  times : nat -> DateTime;
  seals : nat;
}.
Definition new (mint : nat -> string) (times : nat -> DateTime) : t :=
  {| chain := []; mint := mint; times := times; seals := 0 |}.

Definition validate_expected_previous_receipt (previous : option Receipt.t) (expected : option string)
    : result EvidenceError () :=
  match expected, previous with
  | None, _ => Ok ()
  | Some e, None => Err (EncodingFailed ("expected previous receipt id " +:+ e +:+ ", but chain is empty"))
  | Some e, Some p =>
      if String.eqb (Receipt.receipt_id p) e then Ok ()
      else Err (EncodingFailed ("expected previous receipt id " +:+ e +:+ ", but chain tail is " +:+ Receipt.receipt_id p))
  end.

Definition append_signed (b : Receipt.ReceiptBuilder) (key : SigningKey) (expected : option string) (l : t)
    : result EvidenceError Receipt.t * t :=
  let previous := last (chain l) in
  let sealed rs := {| chain := rs; mint := mint l; times := times l; seals := S (seals l) |} in
  match (let? _ := validate_expected_previous_receipt previous expected in
         let? r := Receipt.seal_signed (mint l (seals l)) (times l (seals l)) b previous key in
         let? rs := ReceiptChain.append (chain l) r in
         Ok (r, rs)) with
  | Err e => (Err e, sealed (chain l))
  | Ok (r, rs) => (Ok r, sealed rs)
  end.
#[export] Instance log : RecoveryEvidenceLog t := {| recovery_append_signed := append_signed |}.
End Ops.
End InMemoryRecoveryEvidenceLog.

(** [serde_json::to_vec] and the texts of the errors of other crates. *)
Class RecoveryTexts := {
  serde_json_to_vec : json -> result string string;
  recovery_evidence_error_text : EvidenceError -> string;
  fs_error_text : FsError.t -> string;
}.

Definition AIOS_RECOVERY_SUBJECT : string := "_system:service:recovery-coordinator".
Record RecoveryEvidenceEmitter `{Primitives} : Type := {
  recovery_emitter_key : SigningKey;
  recovery_emitter_subject : string;
}.

Module RecoveryWorld.
Record t {St L : Type} : Type := {
  store : St;
  evidence : L;
  clock : nat -> DateTime;
  reads : nat;
  ulids : nat -> string;
  drawn : nat;
}.
Arguments t : clear implicits.
End RecoveryWorld.
Import RecoveryWorld.

Section Environment.
Context {St L : Type} `{RecoveryEvidenceLog L} `{!RecoveryTexts}.
Abbreviation W := (RecoveryWorld.t St L).
Abbreviation M := (M W RecoveryError.t).

Definition set_store (s : St) (w : W) : W :=
  {| store := s; evidence := evidence w; clock := clock w; reads := reads w; ulids := ulids w; drawn := drawn w |}.
Definition set_log (l : L) (w : W) : W :=
  {| store := store w; evidence := l; clock := clock w; reads := reads w; ulids := ulids w; drawn := drawn w |}.
Definition state_get : M St := fun w => (Ok (store w), w).
Definition state_put (s : St) : M () := modify (set_store s).
(** [Utc::now()]. *)
Definition utc_now : M DateTime := fun w =>
  (Ok (clock w (reads w)),
   {| store := store w; evidence := evidence w; clock := clock w; reads := S (reads w); ulids := ulids w; drawn := drawn w |}).
(** A prefix and [Ulid::new()]. *)
Definition fresh_id (prefix : string) : M string := fun w =>
  (Ok (prefix +:+ ulids w (drawn w)),
   {| store := store w; evidence := evidence w; clock := clock w; reads := reads w; ulids := ulids w; drawn := S (drawn w) |}).

(** [emit]: the identifier of the receipt. *)
Definition emit_receipt (em : RecoveryEvidenceEmitter) (rt : RecordType.t) (payload : json) : M string := fun w =>
  let b := Receipt.with_payload payload
             (Receipt.new rt (RecordType.retention_class_for rt) (recovery_emitter_subject em)) in
  match recovery_append_signed b (recovery_emitter_key em) None (evidence w) with
  | (Ok r, l) => (Ok (Receipt.receipt_id r), set_log l w)
  | (Err e, l) => (Err (RecoveryError.EvidenceEmitFailed (recovery_evidence_error_text e)), set_log l w)
  end.
(** The same where an emitter is attached; the identifier is not used. *)
Definition emit (em : option RecoveryEvidenceEmitter) (rt : RecordType.t) (payload : M json) : M () :=
  match em with
  | None => ret ()
  | Some em => let! payload := payload in let! _ := emit_receipt em rt payload in ret ()
  end.
End Environment.

Definition at_time `{Primitives} (k : string) (t : DateTime) : string * json := (k, JString (datetime_to_json t)).
Definition at_text (k v : string) : string * json := (k, JString v).
Definition or_null_text (x : option string) : json := match x with Some s => JString s | None => JNull end.

(** ** The boundary *)
Module InMemoryRecoveryBoundary.
Section Ops.
Context {L : Type} `{RecoveryEvidenceLog L} `{!RecoveryTexts}.
Variable evidence_emitter : option RecoveryEvidenceEmitter.

Record t : Type := {
  state : RecoveryState.t;
  trusted_authorities : gmap string VerifyingKey;
  active_exit_token : option string;
}.
Abbreviation M := (M (RecoveryWorld.t t L) RecoveryError.t).

Definition normal_state : RecoveryState.t :=
  {| RecoveryState.mode := RecoveryMode.Normal; RecoveryState.entered_at := None; RecoveryState.exit_planned_at := None;
     RecoveryState.reason := None; RecoveryState.operator_grant := None; RecoveryState.active_sub_boundaries := [] |}.
Definition new : t := {| state := normal_state; trusted_authorities := ∅; active_exit_token := None |}.
Definition with_trusted_authority (name : string) (key : VerifyingKey) : t :=
  {| state := normal_state; trusted_authorities := {[name := key]}; active_exit_token := None |}.
Definition set_state (s : RecoveryState.t) (b : t) : t :=
  {| state := s; trusted_authorities := trusted_authorities b; active_exit_token := active_exit_token b |}.
Definition set_token (x : option string) (b : t) : t :=
  {| state := state b; trusted_authorities := trusted_authorities b; active_exit_token := x |}.

(** *** Bundles *)
Definition BUNDLE_SIGNATURE_PREFIX : string := "ed25519:".
Definition hex_value (a : Ascii.ascii) : result RecoveryError.t Z :=
  let c := Z.of_N (Ascii.N_of_ascii a) in
  if ((48 <=? c) && (c <=? 57))%Z then Ok (c - 48)%Z
  else if ((97 <=? c) && (c <=? 102))%Z then Ok (c - 97 + 10)%Z
  else if ((65 <=? c) && (c <=? 70))%Z then Ok (c - 65 + 10)%Z
  else Err RecoveryError.BundleSignatureInvalid.
Fixpoint decode_pairs (s : string) : result RecoveryError.t (list Z) :=
  match s with
  | String a (String b s) =>
      let? hi := hex_value a in
      let? lo := hex_value b in
      let? rest := decode_pairs s in
      Ok (Z.lor (Z.shiftl hi 4) lo :: rest)
  | _ => Ok []
  end.
Definition decode_hex_signature (hex : string) : result RecoveryError.t (list Z) :=
  if negb (Nat.eqb (String.length hex) 128) then Err RecoveryError.BundleSignatureInvalid else decode_pairs hex.

Definition bundle_signature (b : RecoveryBundle.t) : result RecoveryError.t (list Z) :=
  match omap (strip_prefix BUNDLE_SIGNATURE_PREFIX)
          (RecoveryBundle.hard_deny_signatures b ++ RecoveryBundle.override_signatures b) with
  | [signature_hex] => decode_hex_signature signature_hex
  | _ => Err RecoveryError.BundleSignatureInvalid
  end.
Definition signed_material (values : list string) : list string :=
  filter (fun v => starts_with BUNDLE_SIGNATURE_PREFIX v = false) values.
Definition signed_bundle_body (b : RecoveryBundle.t) : json :=
  JObject [at_text "bundle_id" (RecoveryBundle.bundle_id b); at_time "loaded_at" (RecoveryBundle.loaded_at b);
           at_text "signing_authority" (RecoveryBundle.signing_authority b);
           ("hard_deny_signatures", JArray (JString <$> signed_material (RecoveryBundle.hard_deny_signatures b)));
           ("override_signatures", JArray (JString <$> signed_material (RecoveryBundle.override_signatures b)))].
Definition canonical_bundle_body_bytes (b : RecoveryBundle.t) : result RecoveryError.t string :=
  map_err (fun e => RecoveryError.Internal ("recovery bundle serialise: " +:+ e)) (serde_json_to_vec (signed_bundle_body b)).

Definition verify_bundle (b : RecoveryBundle.t) (s : t) : result RecoveryError.t () :=
  let? key := ok_or (trusted_authorities s !! RecoveryBundle.signing_authority b)
                (RecoveryError.BundleUnknownAuthority (RecoveryBundle.signing_authority b)) in
  let? signature := bundle_signature b in
  let? body := canonical_bundle_body_bytes b in
  if verify key body signature then Ok () else Err RecoveryError.BundleSignatureInvalid.

(** *** Entry and exit *)
(** [str::trim]. *)
Definition trim (s : string) : string := trim_end (skip_whitespace s).
Definition is_s91_fallback_reason (reason : string) : bool :=
  existsb (String.eqb (trim reason))
    ["BOOT_FAILURE_AUTO"; "INVARIANT_BUNDLE_SIGNATURE_FAILURE"; "POLICY_BUNDLE_CORRUPTION"; "AIOSFS_ROOT_UNRESOLVABLE";
     "VAULT_ROOT_KEY_UNAVAILABLE"; "IDENTITY_BUNDLE_FAILURE"; "EVIDENCE_LOG_TAMPER_DETECTED";
     "KERNEL_IMAGE_TAMPER_DETECTED"; "FIRMWARE_TAMPER_DETECTED"].
Definition validate_entry_request (r : EnterRecoveryRequest.t) : result RecoveryError.t () :=
  if negb (bool_decide (BootPhase.Recovery ∈ EnterRecoveryRequest.expected_phases r))
  then Err (RecoveryError.RecoveryAuthorizationInvalid "expected phases must include RECOVERY")
  else
    let has_operator_grant :=
      match EnterRecoveryRequest.operator_grant r with Some g => negb (str_is_empty (trim g)) | None => false end in
    if has_operator_grant || is_s91_fallback_reason (EnterRecoveryRequest.reason r) then Ok ()
    else Err (RecoveryError.RecoveryAuthorizationInvalid "operator grant or S9.1 fallback entry reason required").

Definition mode_is_recovery (b : t) : bool := bool_decide (RecoveryState.mode (state b) = RecoveryMode.Recovery).

Definition recovery_entered_payload (s : RecoveryState.t) : M json :=
  let! entered := match RecoveryState.entered_at s with Some t => ret t | None => utc_now end in
  ret (JObject [at_text "from_mode" (RecoveryMode.wire RecoveryMode.Normal); at_text "to_mode" (RecoveryMode.wire (RecoveryState.mode s));
                at_time "entered_at" entered; ("reason", or_null_text (RecoveryState.reason s));
                ("operator_grant", or_null_text (RecoveryState.operator_grant s))]).
Definition hash_exit_token (token : string) : string := "blake3:" +:+ blake3_to_hex token.
Definition recovery_exited_payload (s : RecoveryState.t) (token : string) : M json :=
  let! now := utc_now in
  ret (JObject [at_text "from_mode" (RecoveryMode.wire RecoveryMode.Recovery); at_text "to_mode" (RecoveryMode.wire (RecoveryState.mode s));
                at_time "exited_at" now; at_text "exit_hash" (hash_exit_token token)]).

Definition enter_recovery (r : EnterRecoveryRequest.t) : M RecoveryState.t :=
  let! b := state_get in
  if mode_is_recovery b then throw RecoveryError.AlreadyInRecovery
  else
    let! _ := lift (validate_entry_request r) in
    let! _ := lift (match EnterRecoveryRequest.bundle r with Some x => verify_bundle x b | None => Ok () end) in
    let! exit_token := fresh_id "rexit_" in
    let! now := utc_now in
    let next :=
      {| RecoveryState.mode := RecoveryMode.Recovery; RecoveryState.entered_at := Some now;
         RecoveryState.exit_planned_at := None; RecoveryState.reason := Some (EnterRecoveryRequest.reason r);
         RecoveryState.operator_grant := EnterRecoveryRequest.operator_grant r;
         RecoveryState.active_sub_boundaries := [RecoverySubBoundary.SystemFull] |} in
    let! _ := state_put (set_token (Some exit_token) (set_state next b)) in
    let! _ := emit evidence_emitter RecordType.RecoveryBootEntered (recovery_entered_payload next) in
    ret next.

Definition exit_recovery (exit_token : string) : M RecoveryState.t :=
  let! b := state_get in
  if negb (mode_is_recovery b) then throw RecoveryError.RecoveryNotActive
  else if negb (bool_decide (active_exit_token b = Some exit_token))
  then throw (RecoveryError.RecoveryAuthorizationInvalid "exit token mismatch")
  else
    let! _ := state_put (set_token None (set_state normal_state b)) in
    let! _ := emit evidence_emitter RecordType.RecoveryBootExited (recovery_exited_payload normal_state exit_token) in
    ret normal_state.

Definition is_recovery_active (b : t) : bool := mode_is_recovery b.
Definition current_state (b : t) : RecoveryState.t := state b.
Definition current_exit_token (b : t) : option string := active_exit_token b.

(** *** Sub-boundaries *)
Definition subs (b : t) : list RecoverySubBoundary.t := RecoveryState.active_sub_boundaries (state b).
Definition put_subs (l : list RecoverySubBoundary.t) : M RecoveryState.t :=
  let! b := state_get in
  let next := RecoveryState.set_subs l (state b) in
  let! _ := state_put (set_state next b) in
  ret next.

Definition enter_sub_boundary (sub : RecoverySubBoundary.t) : M RecoveryState.t :=
  let! b := state_get in
  if bool_decide (sub = RecoverySubBoundary.SystemFull)
  then match subs b with
       | [] => put_subs [RecoverySubBoundary.SystemFull]
       | _ => throw RecoveryError.AlreadyInRecovery
       end
  else if bool_decide (RecoverySubBoundary.SystemFull ∈ subs b)
  then throw (RecoveryError.RecoveryAuthorizationInvalid "cannot activate sub-boundary when SystemFull is active")
  else if bool_decide (sub ∈ subs b)
  then throw (RecoveryError.RecoveryAuthorizationInvalid
                ("sub-boundary " +:+ RecoverySubBoundary.debug sub +:+ " is already active"))
  else put_subs (subs b ++ [sub]).

(** [Vec::swap_remove] at [n]: the last element takes the place. *)
Definition swap_remove {A} (n : nat) (l : list A) : list A :=
  match last l with
  | Some x => take (length l - 1) (<[n := x]> l)
  | None => l
  end.

Definition exit_sub_boundary (sub : RecoverySubBoundary.t) : M RecoveryState.t :=
  let! b := state_get in
  if bool_decide (sub = RecoverySubBoundary.SystemFull) then put_subs []
  else if bool_decide (RecoverySubBoundary.SystemFull ∈ subs b)
  then throw (RecoveryError.RecoveryAuthorizationInvalid
                "cannot exit individual sub-boundary when SystemFull is active — exit SystemFull first")
  else match list_find (fun s => s = sub) (subs b) with
       | None => throw (RecoveryError.RecoveryAuthorizationInvalid
                          ("sub-boundary " +:+ RecoverySubBoundary.debug sub +:+ " is not active"))
       | Some (pos, _) => put_subs (swap_remove pos (subs b))
       end.

Definition is_sub_recovery_active (sub : RecoverySubBoundary.t) (b : t) : bool :=
  bool_decide (RecoverySubBoundary.SystemFull ∈ subs b) || bool_decide (sub ∈ subs b).
End Ops.
End InMemoryRecoveryBoundary.

(** ** Who asks for the mode *)
(** The boundary as the trait object that the hooks hold. *)
#[global] Instance in_memory_boundary `{Primitives} : SgrRecoveryHook.RecoveryBoundary InMemoryRecoveryBoundary.t :=
  {| SgrRecoveryHook.is_recovery_active := InMemoryRecoveryBoundary.is_recovery_active |}.
Abbreviation is_active := SgrRecoveryHook.is_recovery_active.

(** [recovery_guard.rs]. *)
Module RecoveryGuard.
Section Ops.
Context {B : Type} `{SgrRecoveryHook.RecoveryBoundary B} `{!RecoveryTexts}.

Definition map_namespace_policy_error (err : FsError.t) (path : string) (class : option NamespaceClass.t)
    (recovery_mode is_ai : bool) : RecoveryError.t :=
  let holds f := match class with Some c => f c | None => false end in
  if holds NamespaceClass.is_recovery_only_mutation && negb recovery_mode
  then RecoveryError.RecoveryOnlyPathMutationDenied path "recovery mode required for this namespace class"
  else if holds NamespaceClass.is_read_only_for_ai && is_ai then RecoveryError.AiPathMutationDenied path
  else RecoveryError.Internal (fs_error_text err).

Definition check_mutation (b : B) (path subject : string) (is_ai : bool) : result RecoveryError.t () :=
  let recovery_mode := is_active b in
  map_err (fun err => map_namespace_policy_error err path (namespace_class path) recovery_mode is_ai)
    (can_mutate path subject recovery_mode is_ai).
End Ops.
End RecoveryGuard.

(** [policy_adapter.rs]. *)
Module RecoveryPolicyHydratorEnhancer.
Record t {H B : Type} : Type := { inner : H; boundary : B }.
Arguments t : clear implicits.
Definition set_recovery_mode (m : bool) (s : HydratedSubject) : HydratedSubject :=
  {| canonical_subject_id := canonical_subject_id s; subject_type := subject_type s; groups := groups s;
     capabilities := capabilities s; session_class := session_class s; recovery_mode := m; is_ai := is_ai s |}.
Definition hydrate_ {H B} `{SubjectHydrator H} `{SgrRecoveryHook.RecoveryBoundary B} (e : t H B) (now : DateTime)
    (provisional : string) : result PolicyError HydratedSubject :=
  let? subject := hydrate (inner e) now provisional in
  Ok (set_recovery_mode (is_active (boundary e)) subject).
#[global] Instance hydrator {H B} `{SubjectHydrator H} `{SgrRecoveryHook.RecoveryBoundary B} : SubjectHydrator (t H B) :=
  {| hydrate := hydrate_ |}.
End RecoveryPolicyHydratorEnhancer.

(** [runtime_adapter.rs]: the answer of the hook is the [recovery_hook] of the
    runtime's pipeline. *)
Module RecoveryRuntimeAdapter.
Definition current_recovery_mode {B} `{SgrRecoveryHook.RecoveryBoundary B} (b : B) : bool := is_active b.
End RecoveryRuntimeAdapter.

(** ** Lemmas *)
Module BoundarySound.
Import InMemoryRecoveryBoundary.

Section Sound.
Context {L : Type} `{RecoveryEvidenceLog L} `{!RecoveryTexts}.
Variable em : option RecoveryEvidenceEmitter.
Abbreviation World := (RecoveryWorld.t InMemoryRecoveryBoundary.t L).

(** Evidence changes the log and the clock. *)
Lemma emit_frame {St} (payload : M (RecoveryWorld.t St L) RecoveryError.t json) rt w :
  (forall w, store (payload w).2 = store w /\ ulids (payload w).2 = ulids w /\ drawn (payload w).2 = drawn w) ->
  store (emit em rt payload w).2 = store w /\ ulids (emit em rt payload w).2 = ulids w /\
  drawn (emit em rt payload w).2 = drawn w.
Proof.
  intros Hp. unfold emit. destruct em as [e|]; [|done]. unfold mbind_, emit_receipt. specialize (Hp w).
  destruct (payload w) as [[v|err] w1]; [|exact Hp]. cbn [snd] in Hp.
  destruct (recovery_append_signed _ _ _ _) as [[r|err] l]; exact Hp.
Qed.

Ltac open_monad :=
  unfold mbind_, state_get, lift, throw, fresh_id, utc_now, state_put, modify, ret; cbv beta iota zeta.
(** Closes what follows a receipt. *)
Ltac by_emit :=
  match goal with |- context [emit em ?rt ?p ?w] =>
    destruct (emit_frame p rt w ltac:(by intros v)) as (Hframe1 & Hframe2 & Hframe3);
    destruct (emit em rt p w) as [[[]|?] ?]; cbn [fst snd] in *; by rewrite Hframe1, Hframe2, Hframe3
  end.

(** What entry asks for. *)
Definition authorised (r : EnterRecoveryRequest.t) (b : InMemoryRecoveryBoundary.t) : Prop :=
  validate_entry_request r = Ok () /\ forall x, EnterRecoveryRequest.bundle r = Some x -> verify_bundle x b = Ok ().
Definition entered (r : EnterRecoveryRequest.t) (w : World) : InMemoryRecoveryBoundary.t :=
  set_token (Some ("rexit_" +:+ ulids w (drawn w)))
    (set_state {| RecoveryState.mode := RecoveryMode.Recovery; RecoveryState.entered_at := Some (clock w (reads w));
       RecoveryState.exit_planned_at := None; RecoveryState.reason := Some (EnterRecoveryRequest.reason r);
       RecoveryState.operator_grant := EnterRecoveryRequest.operator_grant r;
       RecoveryState.active_sub_boundaries := [RecoverySubBoundary.SystemFull] |} (store w)).

Lemma validate_entry_ok r : validate_entry_request r = Ok () <->
  BootPhase.Recovery ∈ EnterRecoveryRequest.expected_phases r /\
  ((exists g, EnterRecoveryRequest.operator_grant r = Some g /\ trim g <> "") \/
   is_s91_fallback_reason (EnterRecoveryRequest.reason r) = true).
Proof.
  unfold validate_entry_request. case_bool_decide as Hp; cbn [negb]; [|split; [done|tauto]].
  assert ((match EnterRecoveryRequest.operator_grant r with Some g => negb (str_is_empty (trim g)) | None => false end) = true
    <-> exists g, EnterRecoveryRequest.operator_grant r = Some g /\ trim g <> "") as Hg.
  { destruct (EnterRecoveryRequest.operator_grant r) as [g|]; [|naive_solver]. rewrite negb_true_iff.
    pose proof (str_is_empty_true (trim g)). destruct (str_is_empty (trim g)); naive_solver. }
  destruct (match EnterRecoveryRequest.operator_grant r with Some g => _ | None => _ end), (is_s91_fallback_reason _);
    cbn [orb]; naive_solver.
Qed.

(** Entry fails and changes nothing, or it is authorised and enters. *)
Lemma enter_cases r (w : World) :
  (exists e, enter_recovery em r w = (Err e, w) /\ (mode_is_recovery (store w) = true \/ ~ authorised r (store w))) \/
  mode_is_recovery (store w) = false /\ authorised r (store w) /\
  store (enter_recovery em r w).2 = entered r w /\ ulids (enter_recovery em r w).2 = ulids w /\
  drawn (enter_recovery em r w).2 = S (drawn w).
Proof.
  unfold enter_recovery, authorised. open_monad.
  destruct (mode_is_recovery (store w)); [left; eexists; split; [reflexivity|by left]|].
  destruct (validate_entry_request r) as [[]|e] eqn:Hv;
    [|left; eexists; split; [reflexivity|right; by intros [? _]]].
  destruct (match EnterRecoveryRequest.bundle r with Some x => _ | None => _ end) as [[]|e] eqn:Hb;
    [|left; eexists; split; [reflexivity|right; intros [_ Hx]];
      destruct (EnterRecoveryRequest.bundle r) as [x|]; [by rewrite (Hx x eq_refl) in Hb|done]].
  right. split; [done|]. split; [split; [done|]; intros x Hx; by rewrite Hx in Hb|].
  by_emit.
Qed.

Lemma exit_cases tok (w : World) :
  (exists e, exit_recovery em tok w = (Err e, w) /\
     (mode_is_recovery (store w) = false \/ active_exit_token (store w) <> Some tok)) \/
  mode_is_recovery (store w) = true /\ active_exit_token (store w) = Some tok /\
  store (exit_recovery em tok w).2 = set_token None (set_state normal_state (store w)) /\
  ulids (exit_recovery em tok w).2 = ulids w /\ drawn (exit_recovery em tok w).2 = drawn w.
Proof.
  unfold exit_recovery. open_monad.
  destruct (mode_is_recovery (store w)); cbn [negb]; [|left; eexists; split; [reflexivity|by left]].
  case_bool_decide as Ht; cbn [negb]; [|left; eexists; split; [reflexivity|by right]].
  right. split; [done|]. split; [done|]. 
  by_emit.
Qed.

(** The operations on sub-boundaries change the sub-boundaries. *)
Lemma put_subs_eq l (w : World) : put_subs l w = (Ok (RecoveryState.set_subs l (state (store w))),
  set_store (set_state (RecoveryState.set_subs l (state (store w))) (store w)) w).
Proof. reflexivity. Qed.
Lemma sub_cases (m : M World RecoveryError.t RecoveryState.t) w :
  (exists s, m = enter_sub_boundary s) \/ (exists s, m = exit_sub_boundary s) ->
  (exists e, m w = (Err e, w)) \/ exists l, m w = put_subs l w.
Proof.
  intros [[s ->]|[s ->]]; unfold enter_sub_boundary, exit_sub_boundary; open_monad.
  - repeat case_bool_decide; try (by left; eexists); [|by right; eexists].
    destruct (subs (store w)); [by right; eexists|by left; eexists].
  - repeat case_bool_decide; [by right; eexists|by left; eexists|].
    destruct (list_find _ _) as [[n x]|]; [by right; eexists|by left; eexists].
Qed.

(** *** Runs *)
Inductive Op : Type :=
| Enter (r : EnterRecoveryRequest.t) | Exit (token : string)
| EnterSub (s : RecoverySubBoundary.t) | ExitSub (s : RecoverySubBoundary.t).
Definition exec (o : Op) (w : World) : World :=
  match o with
  | Enter r => (enter_recovery em r w).2
  | Exit t => (exit_recovery em t w).2
  | EnterSub s => (enter_sub_boundary s w).2
  | ExitSub s => (exit_sub_boundary s w).2
  end.
Definition run (ops : list Op) (w : World) : World := fold_left (fun w o => exec o w) ops w.
(** Construction: normal mode, no token. *)
Definition starts (w : World) : Prop := state (store w) = normal_state /\ active_exit_token (store w) = None.

Lemma run_snoc ops o w : run (ops ++ [o]) w = exec o (run ops w).
Proof. unfold run. by rewrite fold_left_app. Qed.

Lemma exec_sub o w : (exists s, o = EnterSub s) \/ (exists s, o = ExitSub s) ->
  exec o w = w \/ exists l, store (exec o w) = set_state (RecoveryState.set_subs l (state (store w))) (store w) /\
    ulids (exec o w) = ulids w /\ drawn (exec o w) = drawn w.
Proof.
  intros Ho. assert (exists m, exec o w = (m w).2 /\
    ((exists s, m = enter_sub_boundary s) \/ (exists s, m = exit_sub_boundary s))) as (m & -> & Hm).
  { destruct Ho as [[s ->]|[s ->]]; eexists; (split; [reflexivity|]); eauto. }
  destruct (sub_cases m w Hm) as [[e ->]|[l ->]]; [by left|]. right. exists l. by rewrite put_subs_eq.
Qed.

Lemma run_ulids ops w : ulids (run ops w) = ulids w.
Proof.
  induction ops as [|o ops IH] using rev_ind; [done|]. rewrite run_snoc, <- IH.
  destruct o as [r|tok|s|s]; cbn [exec].
  - destruct (enter_cases r (run ops w)) as [(e & -> & _)|(_ & _ & _ & -> & _)]; done.
  - destruct (exit_cases tok (run ops w)) as [(e & -> & _)|(_ & _ & _ & -> & _)]; done.
  - destruct (exec_sub (EnterSub s) (run ops w)) as [Hx|(l & _ & Hx & _)]; [eauto|..]; cbn [exec] in Hx; by rewrite Hx.
  - destruct (exec_sub (ExitSub s) (run ops w)) as [Hx|(l & _ & Hx & _)]; [eauto|..]; cbn [exec] in Hx; by rewrite Hx.
Qed.

(** What a host in recovery can be traced to. *)
Definition traced (ops : list Op) (w : World) : Prop :=
  exists before r after, ops = before ++ Enter r :: after /\
    is_active (store (run before w)) = false /\ authorised r (store (run before w)) /\
    let token := "rexit_" +:+ ulids w (drawn (run before w)) in
    active_exit_token (store (run ops w)) = Some token /\ ~ (Exit token ∈ after) /\
    RecoveryState.reason (state (store (run ops w))) = Some (EnterRecoveryRequest.reason r) /\
    RecoveryState.operator_grant (state (store (run ops w))) = EnterRecoveryRequest.operator_grant r.

Lemma traced_snoc ops o w : traced ops w -> active_exit_token (store (exec o (run ops w))) = active_exit_token (store (run ops w)) ->
  RecoveryState.reason (state (store (exec o (run ops w)))) = RecoveryState.reason (state (store (run ops w))) ->
  RecoveryState.operator_grant (state (store (exec o (run ops w)))) = RecoveryState.operator_grant (state (store (run ops w))) ->
  (forall tok, o = Exit tok -> active_exit_token (store (run ops w)) <> Some tok) -> traced (ops ++ [o]) w.
Proof.
  intros (before & r & after & -> & Ha & Hr & Ht & Hx & Hre & Hg) H1' H2' H3' Ho.
  exists before, r, (after ++ [o]). split; [by rewrite <- app_assoc|]. split; [done|]. split; [done|].
  rewrite run_snoc, H1', H2', H3'. split; [exact Ht|]. split; [|done].
  rewrite elem_of_app, list_elem_of_singleton. intros [?|<-]; [done|]. by apply (Ho _ eq_refl).
Qed.

Lemma run_traced ops w : starts w -> is_active (store (run ops w)) = true -> traced ops w.
Proof.
  intros [Hs Hn]. induction ops as [|o ops IH] using rev_ind.
  { intros Ha. exfalso. cbn in Ha. unfold is_recovery_active, mode_is_recovery in Ha. rewrite Hs in Ha. discriminate. }
  rewrite run_snoc. intros Ha. destruct o as [r|tok|s|s].
  - cbn [exec] in Ha. destruct (enter_cases r (run ops w)) as [(e & He & _)|(Hm & Hau & Hst & _)].
    + rewrite He in Ha. apply traced_snoc; try (cbn [exec]; by rewrite He); [by apply IH|done].
    + exists ops, r, []. split; [done|]. split; [exact Hm|]. split; [exact Hau|]. rewrite run_snoc. cbn [exec]. rewrite Hst.
      rewrite <- (run_ulids ops w). split; [done|]. split; [by apply not_elem_of_nil|done].
  - cbn [exec] in Ha. destruct (exit_cases tok (run ops w)) as [(e & He & Hw)|(_ & _ & Hst & _)].
    + rewrite He in Ha. apply traced_snoc; try (cbn [exec]; by rewrite He); [by apply IH|].
      intros ? [= <-]. destruct Hw as [Hw|Hw]; [|exact Hw]. cbn in Ha. unfold is_recovery_active in Ha. congruence.
    + exfalso. rewrite Hst in Ha. discriminate.
  - destruct (exec_sub (EnterSub s) (run ops w)) as [Hx|(l & Hx & _)]; [eauto|..]; rewrite Hx in Ha;
      (apply traced_snoc; rewrite ?Hx; try done; by apply IH).
  - destruct (exec_sub (ExitSub s) (run ops w)) as [Hx|(l & Hx & _)]; [eauto|..]; rewrite Hx in Ha;
      (apply traced_snoc; rewrite ?Hx; try done; by apply IH).
Qed.

(** *** Sub-boundaries *)
Lemma swap_remove_perm {A} (n : nat) (x : A) l : l !! n = Some x -> x :: swap_remove n l ≡ₚ l.
Proof.
  intros Hn. destruct l as [|y k _] using rev_ind; [done|]. unfold swap_remove. rewrite last_snoc, length_app.
  cbn [length]. replace (length k + 1 - 1) with (length k) by lia. apply lookup_app_Some in Hn as [Hn|[Hl Hn]].
  - pose proof (lookup_lt_Some _ _ _ Hn). rewrite insert_app_l by done. rewrite take_app_length' by (by rewrite length_insert).
    rewrite insert_take_drop by done. rewrite <- (take_drop_middle k n x Hn) at 3. solve_Permutation.
  - assert (n = length k) as -> by (apply lookup_lt_Some in Hn; cbn in Hn; lia). replace (length k - length k) with 0 in Hn by lia.
    injection Hn as ->. rewrite insert_app_r_alt, Nat.sub_diag by lia. cbn [insert list_insert].
    rewrite take_app_length. solve_Permutation.
Qed.

(** The system boundary stands alone. *)
Definition subs_ok (b : InMemoryRecoveryBoundary.t) : Prop :=
  NoDup (subs b) /\ (RecoverySubBoundary.SystemFull ∈ subs b -> subs b = [RecoverySubBoundary.SystemFull]).

(** What activating and deactivating a sub-boundary answers and leaves. *)
Lemma enter_sub_cases s (w : World) : subs_ok (store w) ->
  (exists e, enter_sub_boundary s w = (Err e, w) /\ (is_sub_recovery_active s (store w) = true \/ s = RecoverySubBoundary.SystemFull)) \/
  enter_sub_boundary s w = put_subs (subs (store w) ++ [s]) w /\ ~ (RecoverySubBoundary.SystemFull ∈ subs (store w)) /\
    ~ (s ∈ subs (store w)) /\ (s = RecoverySubBoundary.SystemFull -> subs (store w) = []).
Proof.
  intros [Hd Hf]. unfold enter_sub_boundary, is_sub_recovery_active. open_monad.
  destruct (decide (s = RecoverySubBoundary.SystemFull)) as [->|Hs].
  - rewrite bool_decide_true by done. destruct (subs (store w)); [|left; eexists; split; [reflexivity|by right]].
    right. split; [reflexivity|]. split; [by apply not_elem_of_nil|]. split; [by apply not_elem_of_nil|done].
  - rewrite bool_decide_false by done. case_bool_decide as Hfull; [left; eexists; split; [reflexivity|by left]|].
    case_bool_decide as Hin; [left; eexists; split; [reflexivity|by left]|].
    right. split; [reflexivity|]. by split_and!.
Qed.

Lemma exit_sub_cases s (w : World) : subs_ok (store w) ->
  (exists e, exit_sub_boundary s w = (Err e, w)) \/
  exists l, exit_sub_boundary s w = put_subs l w /\
    if bool_decide (s = RecoverySubBoundary.SystemFull) then l = []
    else s :: l ≡ₚ subs (store w) /\ ~ (RecoverySubBoundary.SystemFull ∈ subs (store w)).
Proof.
  intros [Hd Hf]. unfold exit_sub_boundary. open_monad. case_bool_decide as Hs.
  - right. exists []. done.
  - case_bool_decide as Hfull; [left; by eexists|]. destruct (list_find _ _) as [[n x]|] eqn:Hn; [|left; by eexists].
    right. apply list_find_Some in Hn as (Hn & -> & _). exists (swap_remove n (subs (store w))). split; [done|].
    split; [by apply swap_remove_perm|done].
Qed.

Lemma subs_exec o w : subs_ok (store w) -> subs_ok (store (exec o w)).
Proof.
  intros Hok. destruct o as [r|tok|s|s]; cbn [exec].
  - destruct (enter_cases r w) as [(e & -> & _)|(_ & _ & -> & _)]; [done|]. split; cbn; [apply NoDup_singleton|done].
  - destruct (exit_cases tok w) as [(e & -> & _)|(_ & _ & -> & _)]; [done|]. split; cbn; [apply NoDup_nil_2|intros Hx; by apply elem_of_nil in Hx].
  - destruct (enter_sub_cases s w Hok) as [(e & -> & _)|(-> & Hf & Hs & Hn)]; [done|]. rewrite put_subs_eq. destruct Hok as [Hd _].
    split; cbn.
    + apply NoDup_app. split_and!; [done| |apply NoDup_singleton]. intros x Hx ->%list_elem_of_singleton. done.
    + rewrite elem_of_app, list_elem_of_singleton. intros [?|<-]; [done|]. by rewrite (Hn eq_refl).
  - destruct (exit_sub_cases s w Hok) as [(e & ->)|(l & -> & Hl)]; [done|]. rewrite put_subs_eq. destruct Hok as [Hd _].
    case_bool_decide as Hs; [subst l; split; cbn; [apply NoDup_nil_2|intros Hx; by apply elem_of_nil in Hx]|]. destruct Hl as [Hp Hf].
    split; cbn; [rewrite <- Hp in Hd; by apply NoDup_cons in Hd as [_ Hd]|]. intros Hin. exfalso. apply Hf. rewrite <- Hp. by right.
Qed.

Lemma subs_run ops w : starts w -> subs_ok (store (run ops w)).
Proof.
  intros [Hs _]. induction ops as [|o ops IH] using rev_ind.
  - unfold subs_ok, subs. cbn. rewrite Hs. split; [apply NoDup_nil_2|intros Hx; by apply elem_of_nil in Hx].
  - rewrite run_snoc. by apply subs_exec.
Qed.

Lemma sub_active s b : is_sub_recovery_active s b = true <-> exists x, x ∈ subs b /\ RecoverySubBoundary.contains x s = true.
Proof.
  unfold is_sub_recovery_active. rewrite orb_true_iff, !bool_decide_eq_true. split.
  - intros [Hx|Hx]; eexists; (split; [exact Hx|]); [by destruct s|by destruct s].
  - intros (x & Hx & Hc). destruct x, s; try done; eauto.
Qed.

(** In every run the sub-boundaries are distinct and the system boundary stands
    alone; a sub-boundary is active exactly when one that contains it is.  One
    that is not active can be activated, and what is active afterwards is what
    was and what it contains; deactivating one that is active on its own takes
    away just that, and deactivating the system boundary everything. *)
Theorem sub_boundaries_exact ops w s : starts w ->
  let v := run ops w in
  subs_ok (store v) /\
  (is_sub_recovery_active s (store v) = true <-> exists x, x ∈ subs (store v) /\ RecoverySubBoundary.contains x s = true) /\
  (s <> RecoverySubBoundary.SystemFull -> is_ok (enter_sub_boundary s v).1 = negb (is_sub_recovery_active s (store v))) /\
  (is_ok (enter_sub_boundary s v).1 = true -> forall x,
     is_sub_recovery_active x (store (enter_sub_boundary s v).2) =
     is_sub_recovery_active x (store v) || RecoverySubBoundary.contains s x) /\
  (is_ok (exit_sub_boundary s v).1 = true -> forall x,
     is_sub_recovery_active x (store (exit_sub_boundary s v).2) =
     is_sub_recovery_active x (store v) && negb (RecoverySubBoundary.contains s x)).
Proof.
  intros Hs v. pose proof (subs_run ops w Hs) as Hok. fold v in Hok. split; [done|]. split; [apply sub_active|].
  split; [|split].
  - intros Hne. destruct (enter_sub_cases s v Hok) as [(e & -> & [->|?])|(-> & Hf & Hn & _)]; [done|done|].
    rewrite put_subs_eq. cbn. unfold is_sub_recovery_active. by rewrite !bool_decide_false.
  - intros Hk x. destruct (enter_sub_cases s v Hok) as [(e & Hx & _)|(-> & Hf & Hn & _)]; [by rewrite Hx in Hk|].
    rewrite put_subs_eq. apply eq_true_iff_eq. rewrite orb_true_iff, !sub_active. cbn. setoid_rewrite elem_of_app.
    setoid_rewrite list_elem_of_singleton. naive_solver.
  - intros Hk x. destruct (exit_sub_cases s v Hok) as [(e & Hx)|(l & -> & Hl)]; [by rewrite Hx in Hk|].
    rewrite put_subs_eq. apply eq_true_iff_eq. rewrite andb_true_iff, negb_true_iff, !sub_active. cbn.
    case_bool_decide as Hsf; [subst; split; [by intros (y & ?%elem_of_nil & _)|intros [_ Hx]; by destruct x]|].
    destruct Hl as [Hp Hf]. setoid_rewrite <- Hp. setoid_rewrite elem_of_cons. destruct Hok as [Hd _]. rewrite <- Hp in Hd, Hf.
    apply NoDup_cons in Hd as [Hsl _]. split.
    + intros (y & Hy & Hc). split; [eauto|]. destruct (RecoverySubBoundary.contains s x) eqn:Hcs; [|done]. exfalso.
      assert (y = s) as ->; [|done]. destruct s, x, y; try done; exfalso; apply Hf; by right.
    + intros ((y & [->|Hy] & Hc) & Hcs); [congruence|eauto].
Qed.

(** C14: a host is in recovery only by an authorised entry: in every run of the
    boundary that started in normal mode, recovery is active exactly when an exit
    token is out, and then the run holds an entry with the grant or the fallback
    reason asked for and with its bundle verified, made when recovery was not
    active, whose reason and grant the state carries, whose fresh token is the
    one that is out and was not presented since.  That token ends recovery, and
    outside of recovery an authorised entry begins it. *)
Theorem recovery_is_governed ops w : starts w ->
  let v := run ops w in
  (is_active (store v) = true -> traced ops w) /\
  (is_active (store v) = true <-> is_some (active_exit_token (store v)) = true) /\
  (forall tok, active_exit_token (store v) = Some tok -> is_active (store (exec (Exit tok) v)) = false) /\
  (forall r, is_active (store v) = false -> authorised r (store v) -> is_active (store (exec (Enter r) v)) = true).
Proof.
  intros Hs v.
  assert (is_active (store v) = true <-> is_some (active_exit_token (store v)) = true) as Hiff.
  { unfold v. clear v. induction ops as [|o ops IH] using rev_ind.
    - destruct Hs as [Hs Hn]. cbn. unfold is_recovery_active, mode_is_recovery. by rewrite Hs, Hn.
    - rewrite run_snoc. destruct o as [r|tok|s|s].
      + cbn [exec]. destruct (enter_cases r (run ops w)) as [(e & -> & _)|(_ & _ & -> & _)]; [exact IH|done].
      + cbn [exec]. destruct (exit_cases tok (run ops w)) as [(e & -> & _)|(_ & _ & -> & _)]; [exact IH|done].
      + destruct (exec_sub (EnterSub s) (run ops w)) as [->|(l & -> & _)]; [eauto|exact IH|exact IH].
      + destruct (exec_sub (ExitSub s) (run ops w)) as [->|(l & -> & _)]; [eauto|exact IH|exact IH]. }
  split; [by apply run_traced|]. split; [exact Hiff|]. split.
  - intros tok Ht. cbn [exec]. destruct (exit_cases tok v) as [(e & _ & [Hm|Hm])|(_ & _ & -> & _)]; [|done|done].
    exfalso. pose proof (proj2 Hiff) as Ha. rewrite Ht in Ha. specialize (Ha eq_refl).
    change (mode_is_recovery (store v) = true) in Ha. congruence.
  - intros r Ha Hr. cbn [exec]. destruct (enter_cases r v) as [(e & _ & [Hm|Hm])|(_ & _ & -> & _)]; [|done|done].
    cbn in Ha. unfold is_recovery_active in Ha. congruence.
Qed.

(** *** The guard and the hydrator over the boundary *)
(** The guard lets a mutation through exactly where the name space admits it under
    the live mode, so that in every run what belongs to recovery is only changed
    between an authorised entry and the presentation of its token; and what it
    refuses outside of recovery on a recovery-only path is reported as such. *)
Theorem guarded_mutations ops w path subject ai : starts w ->
  let b := store (run ops w) in
  (RecoveryGuard.check_mutation b path subject ai = Ok () <->
     exists segments class, parse_segments (trim_end_matches "/" path) = Some segments /\
       admissible segments class subject (is_active b) ai) /\
  (forall class, namespace_class path = Some class -> NamespaceClass.is_recovery_only_mutation class = true ->
     (RecoveryGuard.check_mutation b path subject ai = Ok () -> traced ops w) /\
     (is_active b = false -> RecoveryGuard.check_mutation b path subject ai =
        Err (RecoveryError.RecoveryOnlyPathMutationDenied path "recovery mode required for this namespace class"))).
Proof.
  intros Hs b.
  assert (RecoveryGuard.check_mutation b path subject ai = Ok () <-> can_mutate path subject (is_active b) ai = Ok ()) as Hg.
  { unfold RecoveryGuard.check_mutation. destruct (can_mutate _ _ _ _) as [[]|e]; by split. }
  split; [by rewrite Hg, can_mutate_ok|]. intros class Hc Hr.
  assert (can_mutate path subject (is_active b) ai = Ok () -> is_active b = true) as Hm.
  { intros (sg & c & Hp & [Hcl _ _ _ _ Hrec])%can_mutate_ok. apply Hrec. unfold namespace_class in Hc.
    rewrite Hp in Hc. cbn in Hc. rewrite Hcl in Hc. by injection Hc as ->. }
  split; [intros Hk%Hg%Hm; by apply run_traced|]. intros Ha.
  unfold RecoveryGuard.check_mutation. destruct (can_mutate path subject (is_active b) ai) as [[]|e]; [by rewrite Hm in Ha|].
  cbn [map_err]. unfold RecoveryGuard.map_namespace_policy_error. by rewrite Hc, Hr, Ha.
Qed.
End Sound.

(** The mode of a hydrated subject is the live one, whatever the inner hydrator
    says of it; the rest is the inner hydrator's, and so is its contract. *)
#[global] Instance enhancer_laws {H B} `{SubjectHydratorLaws H} `{SgrRecoveryHook.RecoveryBoundary B} :
  SubjectHydratorLaws (RecoveryPolicyHydratorEnhancer.t H B).
Proof.
  split. intros e now p err. unfold hydrate. cbn. unfold RecoveryPolicyHydratorEnhancer.hydrate_.
  destruct (hydrate (RecoveryPolicyHydratorEnhancer.inner e) now p) as [s|err'] eqn:Hh; cbn; [done|].
  intros [= <-]. by eapply hydrate_fails_closed.
Qed.
Lemma hydrated_mode_is_live {H B} `{SubjectHydrator H} `{SgrRecoveryHook.RecoveryBoundary B}
    (e : RecoveryPolicyHydratorEnhancer.t H B) now p s :
  hydrate e now p = Ok s <-> exists s0, hydrate (RecoveryPolicyHydratorEnhancer.inner e) now p = Ok s0 /\
    s = RecoveryPolicyHydratorEnhancer.set_recovery_mode (is_active (RecoveryPolicyHydratorEnhancer.boundary e)) s0.
Proof.
  unfold hydrate at 1. cbn. unfold RecoveryPolicyHydratorEnhancer.hydrate_. rewrite result_bind_ok. naive_solver.
Qed.
Lemma capability_scopes c s : HealingCapability.is_subset_of c s = true <-> s = HealingCapability.required_scope c.
Proof. destruct c, s; cbn; split; congruence. Qed.
End BoundarySound.

(** ** On concrete runs *)
Module RecoveryDemo.
Import BoundarySound InMemoryRecoveryBoundary ChainSound.Demo.
#[local] Existing Instance InMemoryRecoveryEvidenceLog.log.
#[local] Instance demo_texts : RecoveryTexts :=
  {| serde_json_to_vec v := Ok (match v with JObject m => pretty (length m) | _ => "v" end);
     recovery_evidence_error_text _ := "seal"; fs_error_text _ := "fs" |}.

Abbreviation World := (RecoveryWorld.t InMemoryRecoveryBoundary.t InMemoryRecoveryEvidenceLog.t).
Definition world_of {St} (s : St) : RecoveryWorld.t St InMemoryRecoveryEvidenceLog.t :=
  {| store := s; evidence := InMemoryRecoveryEvidenceLog.new (fun n => "evr_" +:+ pretty n) (fun n => Z.of_nat n);
     clock := fun n => Z.of_nat n; reads := 0; ulids := fun n => pretty n; drawn := 0 |}.
Definition emitter (subject : string) : option RecoveryEvidenceEmitter :=
  Some {| recovery_emitter_key := 3%Z : SigningKey; recovery_emitter_subject := subject |}.
Definition coordinator : option RecoveryEvidenceEmitter := emitter AIOS_RECOVERY_SUBJECT.

Definition entry (reason : string) (grant : option string) : EnterRecoveryRequest.t :=
  {| EnterRecoveryRequest.reason := reason; EnterRecoveryRequest.operator_grant := grant;
     EnterRecoveryRequest.expected_phases := [BootPhase.Cold; BootPhase.Recovery]; EnterRecoveryRequest.bundle := None |}.
Definition boundary_world : World := world_of new.
Definition demo_ops : list Op :=
  [EnterSub RecoverySubBoundary.Network; Enter (entry "operator asks" None); Enter (entry "operator asks" (Some "ovr_1"));
   Exit "rexit_7"; Enter (entry "BOOT_FAILURE_AUTO" None)].

Example demo_recovery :
  let v := run coordinator demo_ops boundary_world in
  is_recovery_active (store v) = true /\ active_exit_token (store v) = Some "rexit_0" /\
  subs (store v) = [RecoverySubBoundary.SystemFull] /\
  length (InMemoryRecoveryEvidenceLog.chain (evidence v)) = 1 /\
  is_recovery_active (store (exec coordinator (Exit "rexit_0") v)) = false.
Proof. by vm_compute. Qed.

Lemma boundary_starts : starts boundary_world.
Proof. by split. Defined.

Lemma recovery_is_governed_witness : traced coordinator demo_ops boundary_world.
Proof.
  apply (recovery_is_governed coordinator demo_ops boundary_world boundary_starts). vm_compute. reflexivity.
Defined.

Definition subs_ops : list Op := [EnterSub RecoverySubBoundary.Network; EnterSub RecoverySubBoundary.Storage; EnterSub RecoverySubBoundary.Compute].
Lemma sub_boundaries_exact_witness :
  let v := run coordinator subs_ops boundary_world in
  subs (store (exit_sub_boundary RecoverySubBoundary.Network v).2) = [RecoverySubBoundary.Compute; RecoverySubBoundary.Storage] /\
  is_sub_recovery_active RecoverySubBoundary.Network (store (exit_sub_boundary RecoverySubBoundary.Network v).2) = false.
Proof.
  split; [vm_compute; reflexivity|].
  destruct (sub_boundaries_exact coordinator subs_ops boundary_world RecoverySubBoundary.Network boundary_starts) as (_ & _ & _ & _ & He).
  etransitivity; [apply He; vm_compute; reflexivity|]. vm_compute. reflexivity.
Defined.

Lemma guarded_mutations_witness :
  RecoveryGuard.check_mutation (store boundary_world) "/aios/system/policy/active" "_system:service:x" false =
  Err (RecoveryError.RecoveryOnlyPathMutationDenied "/aios/system/policy/active" "recovery mode required for this namespace class").
Proof.
  destruct (guarded_mutations coordinator [] boundary_world "/aios/system/policy/active" "_system:service:x" false boundary_starts)
    as [_ Hg].
  destruct (namespace_class "/aios/system/policy/active") as [c|] eqn:Hc; [|vm_compute in Hc; discriminate].
  assert (NamespaceClass.is_recovery_only_mutation c = true) as Hr.
  { vm_compute in Hc. injection Hc as <-. reflexivity. }
  exact (proj2 (Hg c eq_refl Hr) eq_refl).
Defined.

(** *** What the documentation promises and the code does not do *)

(** A receipt that fails leaves the host in recovery behind an error. *)
Example entry_fails_in_recovery :
  let '(r, v) := enter_recovery (emitter "") (entry "BOOT_FAILURE_AUTO" None) boundary_world in
  r = Err (RecoveryError.EvidenceEmitFailed "seal") /\ is_recovery_active (store v) = true /\
  InMemoryRecoveryEvidenceLog.chain (evidence v) = [].
Proof. by vm_compute. Qed.

(** The system boundary is activated in normal mode, with no grant and no token. *)
Example system_boundary_without_recovery :
  let v := run coordinator [EnterSub RecoverySubBoundary.SystemFull] boundary_world in
  is_recovery_active (store v) = false /\ active_exit_token (store v) = None /\
  forallb (fun s => is_sub_recovery_active s (store v))
    [RecoverySubBoundary.Network; RecoverySubBoundary.Storage; RecoverySubBoundary.Compute; RecoverySubBoundary.SystemFull] = true.
Proof. by vm_compute. Qed.

(** Leaving the system boundary during recovery leaves recovery without any. *)
Example recovery_without_boundaries :
  let v := run coordinator [Enter (entry "BOOT_FAILURE_AUTO" None); ExitSub RecoverySubBoundary.SystemFull] boundary_world in
  is_recovery_active (store v) = true /\ is_sub_recovery_active RecoverySubBoundary.Network (store v) = false.
Proof. by vm_compute. Qed.

(** Deactivating the system boundary succeeds where it is not active. *)
Example inactive_boundary_is_left :
  is_ok (exit_sub_boundary (L := InMemoryRecoveryEvidenceLog.t) RecoverySubBoundary.SystemFull boundary_world).1 = true /\
  is_sub_recovery_active RecoverySubBoundary.SystemFull (store boundary_world) = false.
Proof. by vm_compute. Qed.

(** A grant is any text. *)
Example any_grant_authorises : authorised (entry "whatever" (Some "x")) new.
Proof. split; [reflexivity|done]. Qed.
End RecoveryDemo.
