(* ===== verification/RecoveryBoot.v ===== *)
(** * First boot and the kernel pipeline (crate [aios-recovery])

    The driver of the first-boot stages ([first_boot.rs], with the context of
    [boot.rs]) and that of the kernel candidates ([kernel_pipeline.rs],
    [kernel.rs]), over the world, the emitter and the boundary of [Recovery].
    The boundary is an argument of each operation: its state at that moment.
    The theorems are about runs of the operations of a driver. *)
From S2P Require Import Prelude Json Records Redaction Receipt ChainSound StateError SgrRuntime Recovery.
Import RecoveryWorld.

(** ** First boot ([boot.rs], [first_boot.rs]) *)
Module FirstBootStatus.
Inductive t : Type := NotStarted | InProgress | Completed | Failed | Skipped.
#[global] Instance eq_dec : EqDecision t.
Proof. solve_decision. Defined.
End FirstBootStatus.

Module FirstBootContext.
Record t : Type := {
  boot_id : string;
  started_at : DateTime;
  completed_at : option DateTime;
  status : FirstBootStatus.t;
  performed_phases : list FirstBootPhase.t;
}.
Definition set_status (s : FirstBootStatus.t) (c : t) : t :=
  {| boot_id := boot_id c; started_at := started_at c; completed_at := completed_at c; status := s;
     performed_phases := performed_phases c |}.
Definition set_completed_at (x : option DateTime) (c : t) : t :=
  {| boot_id := boot_id c; started_at := started_at c; completed_at := x; status := status c;
     performed_phases := performed_phases c |}.
Definition push_phase (p : FirstBootPhase.t) (c : t) : t :=
  {| boot_id := boot_id c; started_at := started_at c; completed_at := completed_at c; status := status c;
     performed_phases := performed_phases c ++ [p] |}.
End FirstBootContext.

Module FirstBootStageStatus.
Inductive t : Type := Success | Skipped | Failed.
#[global] Instance eq_dec : EqDecision t.
Proof. solve_decision. Defined.
End FirstBootStageStatus.

Module FirstBootStageRecord.
Record t : Type := {
  phase : FirstBootPhase.t;
  started_at : DateTime;
  completed_at : DateTime;
  status : FirstBootStageStatus.t;
  reason : option string;
}.
End FirstBootStageRecord.

Module FirstBootDriver.
Import FirstBootPhase FirstBootContext.
Section Ops.
Context {L B : Type} `{RecoveryEvidenceLog L} `{!RecoveryTexts} `{!SgrRecoveryHook.RecoveryBoundary B}.
Variable evidence_emitter : option RecoveryEvidenceEmitter.

Record t : Type := {
  state : FirstBootContext.t;
  stage_records : list FirstBootStageRecord.t;
}.
Abbreviation W := (RecoveryWorld.t t L).
Abbreviation M := (M W RecoveryError.t).

Definition FIRST_BOOT_PROVISIONING_PHASES : list FirstBootPhase.t :=
  [StageInstallerMediaVerified; StageDiskPartitioned; StageKernelInstalled; StageAiosFsInitialized;
   StageVaultRootGenerated; StageInvariantBundleLoaded; StagePolicyBundleLoaded; StageIdentityBundleLoaded;
   StageRecoveryOperatorRegistration; StageAiProviderConfiguration; StageFirstGroupRegistration;
   StageFirstUserRegistration; StageRuntimeServicesStarted; StageFirstBootComplete].

(** [BootId::new] and the time are given. *)
Definition new (boot : string) (now : DateTime) : t :=
  {| state := {| boot_id := "boot_" +:+ boot; FirstBootContext.started_at := now; FirstBootContext.completed_at := None;
                 status := FirstBootStatus.NotStarted; performed_phases := [] |};
     stage_records := [] |}.

Definition current_context (d : t) : FirstBootContext.t := state d.
Definition detect (d : t) : bool := bool_decide (status (state d) = FirstBootStatus.NotStarted).

(** The context behind the lock. *)
Definition context : M FirstBootContext.t := fun w => (Ok (state (store w)), w).
Definition update (f : FirstBootContext.t -> FirstBootContext.t) : M () :=
  modify (fun w => set_store {| state := f (state (store w)); stage_records := stage_records (store w) |} w).

Definition next_phase (c : FirstBootContext.t) : option FirstBootPhase.t :=
  if bool_decide (status c = FirstBootStatus.Failed) then Some StageFailedRequiresRecovery
  else FIRST_BOOT_PROVISIONING_PHASES !! length (performed_phases c).
Definition validate_next_phase (c : FirstBootContext.t) (to : FirstBootPhase.t) : result RecoveryError.t () :=
  match next_phase c with
  | None => Err (RecoveryError.InvalidPhaseTransition StageFirstBootComplete to)
  | Some from => if bool_decide (from = to) then Ok () else Err (RecoveryError.InvalidPhaseTransition from to)
  end.

Definition record_stage (phase : FirstBootPhase.t) (st : FirstBootStageStatus.t) (reason : option string) : M DateTime :=
  let! started := utc_now in
  let! completed := utc_now in
  let! _ := update (push_phase phase) in
  let! _ := modify (fun w => set_store {| state := state (store w);
    stage_records := stage_records (store w) ++
      [{| FirstBootStageRecord.phase := phase; FirstBootStageRecord.started_at := started;
          FirstBootStageRecord.completed_at := completed; FirstBootStageRecord.status := st;
          FirstBootStageRecord.reason := reason |}] |} w) in
  ret completed.
Definition record_success (phase : FirstBootPhase.t) : M DateTime := record_stage phase FirstBootStageStatus.Success None.

Definition skipped_phases (d : t) : list FirstBootPhase.t :=
  FirstBootStageRecord.phase <$> filter (fun r => FirstBootStageRecord.status r = FirstBootStageStatus.Skipped) (stage_records d).

(** The three receipts. *)
Definition phases_json (ps : list FirstBootPhase.t) : json := JArray ((fun p => JString (FirstBootPhase.wire p)) <$> ps).
Definition started_payload (c : FirstBootContext.t) : json :=
  JObject [at_text "boot_id" (boot_id c); at_time "started_at" (started_at c);
           ("expected_phases", phases_json FIRST_BOOT_PROVISIONING_PHASES)].
Definition phase_completed_payload (p : FirstBootPhase.t) (c : FirstBootContext.t) : M json :=
  let! now := utc_now in
  ret (JObject [at_text "boot_id" (boot_id c); at_text "phase" (FirstBootPhase.wire p); at_time "completed_at" now]).
Definition completed_payload (c : FirstBootContext.t) (skipped : list FirstBootPhase.t) : M json :=
  let! at_ := match completed_at c with Some t => ret t | None => utc_now end in
  ret (JObject [at_text "boot_id" (boot_id c); at_time "completed_at" at_;
                ("total_phases", JInt (Z.of_nat (length (performed_phases c)))); ("skipped_phases", phases_json skipped)]).
Definition emit_phase (p : FirstBootPhase.t) : M () :=
  let! c := context in emit evidence_emitter RecordType.FirstBootStageCompleted (phase_completed_payload p c).

(** The last stage: recorded, its receipt, the terminal status and the receipt of
    the completion. *)
Definition complete : M FirstBootContext.t :=
  let! completed := record_success StageFirstBootComplete in
  let! _ := emit_phase StageFirstBootComplete in
  let! _ := update (fun c => set_completed_at (Some completed) (set_status FirstBootStatus.Completed c)) in
  let! w := get in
  let! _ := emit evidence_emitter RecordType.FirstBootComplete (completed_payload (state (store w)) (skipped_phases (store w))) in
  ret (state (store w)).

(** The loop of [run_provisioning]; [fuel] bounds its turns. *)
Fixpoint stages (fuel : nat) : M FirstBootContext.t :=
  match fuel with
  | O => throw (RecoveryError.InvalidPhaseTransition StageFirstBootComplete StageFirstBootComplete)
  | S fuel =>
      let! c := context in
      match next_phase c with
      | None => throw (RecoveryError.InvalidPhaseTransition StageFirstBootComplete StageFirstBootComplete)
      | Some phase =>
          if bool_decide (phase = StageFirstBootComplete) then complete
          else
            let! _ := record_success phase in
            let! _ := emit_phase phase in
            stages fuel
      end
  end.

Definition is_terminal (c : FirstBootContext.t) : bool :=
  bool_decide (status c = FirstBootStatus.Completed) || bool_decide (status c = FirstBootStatus.Failed).
Definition run_provisioning (boundary : B) : M FirstBootContext.t :=
  let! c := context in
  if is_terminal c then ret c
  else if SgrRecoveryHook.is_recovery_active boundary then throw RecoveryError.AlreadyInRecovery
  else
    let! _ := update (set_status FirstBootStatus.InProgress) in
    let! c := context in
    let! _ := emit evidence_emitter RecordType.FirstBootStarted (ret (started_payload c)) in
    stages (S (length FIRST_BOOT_PROVISIONING_PHASES)).

Definition mark_complete (boundary : B) : M () :=
  if SgrRecoveryHook.is_recovery_active boundary then throw RecoveryError.AlreadyInRecovery
  else
    let! c := context in
    if bool_decide (status c = FirstBootStatus.Completed) then ret ()
    else
      let! _ := lift (validate_next_phase c StageFirstBootComplete) in
      let! _ := complete in
      ret ().

Definition skip_stage (phase : FirstBootPhase.t) (reason : string) : M () :=
  let! c := context in
  if bool_decide (phase = StageFirstBootComplete) || bool_decide (phase = StageFailedRequiresRecovery)
  then throw (RecoveryError.InvalidPhaseTransition (default StageFirstBootComplete (next_phase c)) phase)
  else
    let! _ := lift (validate_next_phase c phase) in
    let! _ := update (set_status FirstBootStatus.InProgress) in
    let! _ := record_stage phase FirstBootStageStatus.Skipped (Some reason) in
    emit_phase phase.

Definition fail_stage (phase : FirstBootPhase.t) (reason : string) : M () :=
  let! c := context in
  let! _ := lift (validate_next_phase c phase) in
  let! _ := update (set_status FirstBootStatus.InProgress) in
  let! _ := record_stage phase FirstBootStageStatus.Failed (Some reason) in
  let! completed := record_stage StageFailedRequiresRecovery FirstBootStageStatus.Failed (Some reason) in
  update (fun c => set_completed_at (Some completed) (set_status FirstBootStatus.Failed c)).
End Ops.
Arguments t : clear implicits.
End FirstBootDriver.

(** ** Lemmas *)

(** A payload that only reads, and a receipt that changes the log or fails. *)
Section Receipts.
Context {St L : Type} `{RecoveryEvidenceLog L} `{!RecoveryTexts}.
Abbreviation W := (RecoveryWorld.t St L).

Definition reads_only (payload : M W RecoveryError.t json) : Prop :=
  forall w, exists v, (payload w).1 = Ok v /\ store (payload w).2 = store w /\ ulids (payload w).2 = ulids w /\
    drawn (payload w).2 = drawn w.

(** What the receipt is sealed from leaves the state and the identifiers. *)
Definition same (w v : W) : Prop := store v = store w /\ ulids v = ulids w /\ drawn v = drawn w.
Definition lost (em : option RecoveryEvidenceEmitter) (e : RecoveryError.t) : Prop :=
  is_some em = true /\ exists why, e = RecoveryError.EvidenceEmitFailed why.

Lemma receipt_post em rt payload w : reads_only payload ->
  post (emit em rt payload) (fun _ v => same w v) (fun e v => same w v /\ lost em e) w.
Proof.
  intros Hp. unfold emit, emit_receipt, post. destruct em as [em|]; [|by split]. unfold mbind_.
  destruct (Hp w) as (v & Hv & Hs). destruct (payload w) as [r w1]. cbn in Hv, Hs. subst r.
  destruct (recovery_append_signed _ _ _ _) as [[r|err] l]; [exact Hs|]. split; [exact Hs|]. split; [done|]. by eexists.
Qed.
Lemma receipt_same em rt payload w : reads_only payload -> same w (emit em rt payload w).2.
Proof.
  intros Hp. pose proof (receipt_post em rt payload w Hp) as He. unfold post in He.
  destruct (emit em rt payload w) as [[[]|e] v]; [done|by destruct He].
Qed.
End Receipts.

Module FirstBootSound.
Import FirstBootPhase FirstBootContext FirstBootDriver.
Section Sound.
Context {L B : Type} `{RecoveryEvidenceLog L} `{!RecoveryTexts} `{!SgrRecoveryHook.RecoveryBoundary B}.
Variable em : option RecoveryEvidenceEmitter.
Abbreviation World := (RecoveryWorld.t FirstBootDriver.t L).
Abbreviation PHASES := FIRST_BOOT_PROVISIONING_PHASES.

(** *** Runs *)
Inductive Op : Type :=
| Provision (b : B) | Complete (b : B) | Skip (p : FirstBootPhase.t) (reason : string) | Fail (p : FirstBootPhase.t) (reason : string).
Definition exec (o : Op) (w : World) : World :=
  match o with
  | Provision b => (run_provisioning em b w).2
  | Complete b => (mark_complete em b w).2
  | Skip p r => (skip_stage em p r w).2
  | Fail p r => (fail_stage p r w).2
  end.
Definition run (ops : list Op) (w : World) : World := fold_left (fun w o => exec o w) ops w.
(** Construction. *)
Definition starts (w : World) : Prop := exists boot now, store w = new boot now.

(** The stages performed are a prefix of the sequence, in its order, and every one
    has its record; the status says where the prefix ends. *)
Definition in_order (d : FirstBootDriver.t) : Prop :=
  performed_phases (state d) = FirstBootStageRecord.phase <$> stage_records d /\
  match status (state d) with
  | FirstBootStatus.NotStarted => performed_phases (state d) = []
  | FirstBootStatus.InProgress => exists k, k <= 14 /\ performed_phases (state d) = take k PHASES
  | FirstBootStatus.Completed => performed_phases (state d) = PHASES /\ is_some (completed_at (state d)) = true
  | FirstBootStatus.Failed => exists k m, 0 < k <= 14 /\
      performed_phases (state d) = take k PHASES ++ replicate (S m) StageFailedRequiresRecovery
  | FirstBootStatus.Skipped => False
  end.
Definition running (c : FirstBootContext.t) : Prop := status c = FirstBootStatus.InProgress.

Definition recorded (p : FirstBootPhase.t) (rec : FirstBootStageRecord.t) (d : FirstBootDriver.t) : FirstBootDriver.t :=
  {| state := push_phase p (state d); stage_records := stage_records d ++ [rec] |}.
Definition with_context (f : FirstBootContext.t -> FirstBootContext.t) (d : FirstBootDriver.t) : FirstBootDriver.t :=
  {| state := f (state d); stage_records := stage_records d |}.

(** Reading and writing the context. *)
Lemma post_context {C} (f : FirstBootContext.t -> M World RecoveryError.t C) Q E w :
  post (f (state (store w))) Q E w -> post (mbind_ context f) Q E w.
Proof. done. Qed.
Lemma post_update {C} g (f : () -> M World RecoveryError.t C) Q E w :
  post (f ()) Q E (set_store (with_context g (store w)) w) -> post (mbind_ (update g) f) Q E w.
Proof. done. Qed.

Lemma record_post p s r (w : World) :
  post (record_stage p s r) (fun _ v => exists rec, store v = recorded p rec (store w) /\
    FirstBootStageRecord.phase rec = p /\ FirstBootStageRecord.status rec = s) (fun _ _ => False) w.
Proof. unfold post. cbn. eexists. split; [reflexivity|]. by split. Qed.

Lemma emit_phase_post p (w : World) :
  post (emit_phase em p) (fun _ v => store v = store w) (fun e v => store v = store w /\ lost em e) w.
Proof.
  unfold emit_phase. eapply post_bind; [exact (conj eq_refl eq_refl : post context (fun c v => c = state (store w) /\ v = w) _ w)|].
  intros c v [-> ->]. eapply post_mono; [apply receipt_post|by intros _ v [Hv _]|intros e v [[Hv _] He]; by split].
  intros u. eexists. by split_and!.
Qed.

(** *** What a stage does to the order *)
Lemma next_phase_running c k : running c -> k <= 14 -> performed_phases c = take k PHASES -> next_phase c = PHASES !! k.
Proof.
  intros Hg Hk Hp. unfold next_phase. rewrite bool_decide_false by (by rewrite Hg). rewrite Hp, length_take.
  by replace (k `min` length PHASES) with k by (cbn; lia).
Qed.

Lemma in_order_push d p rec : in_order d -> running (FirstBootDriver.state d) ->
  next_phase (FirstBootDriver.state d) = Some p -> FirstBootStageRecord.phase rec = p -> in_order (recorded p rec d).
Proof.
  intros [Hr Hs] Hg Hn Hp. unfold running in Hg. rewrite Hg in Hs. destruct Hs as (k & Hk & Hs). split.
  - cbn. by rewrite fmap_app, <- Hr, <- Hp.
  - cbn. rewrite Hg. exists (S k). rewrite (next_phase_running _ k Hg Hk Hs) in Hn.
    pose proof (lookup_lt_Some _ _ _ Hn) as Hl. cbn in Hl.
    split; [lia|]. rewrite Hs. by rewrite (take_S_r _ _ _ Hn).
Qed.

(** A stage other than the failure is next only before the end. *)
Lemma next_stage d p : in_order d -> next_phase (state d) = Some p -> p <> StageFailedRequiresRecovery ->
  in_order (with_context (set_status FirstBootStatus.InProgress) d) /\
  (status (state d) = FirstBootStatus.InProgress \/ status (state d) = FirstBootStatus.NotStarted).
Proof.
  intros [Hr Hs] Hn Hp. unfold next_phase in Hn. case_bool_decide as Hf; [congruence|].
  destruct (status (state d)) eqn:Hst; [| |exfalso|done|done].
  - split; [|by right]. split; [done|]. cbn. exists 0. split; [lia|]. by rewrite Hs.
  - split; [|by left]. split; [done|]. exact Hs.
  - destruct Hs as [Hs _]. by rewrite Hs in Hn.
Qed.
Lemma next_phase_begin c p : next_phase c = Some p -> p <> StageFailedRequiresRecovery ->
  next_phase (set_status FirstBootStatus.InProgress c) = Some p.
Proof. unfold next_phase. case_bool_decide; [congruence|]. done. Qed.

Lemma last_stage k : PHASES !! k = Some StageFirstBootComplete -> k = 13.
Proof. do 13 (destruct k as [|k]; [discriminate|]). destruct k; [done|discriminate]. Qed.
Lemma in_order_running d : in_order d -> running (state d) ->
  exists k, k <= 14 /\ performed_phases (state d) = take k PHASES /\ next_phase (state d) = PHASES !! k.
Proof.
  intros [Hr Hs] Hg. pose proof Hg as Hg'. unfold running in Hg. rewrite Hg in Hs. destruct Hs as (k & Hk & Hs).
  exists k. split_and!; [done|done|]. by apply next_phase_running.
Qed.

Lemma complete_post (w : World) : in_order (store w) -> running (state (store w)) ->
  next_phase (state (store w)) = Some StageFirstBootComplete ->
  post (complete em) (fun c v => in_order (store v) /\ c = state (store v) /\ status c = FirstBootStatus.Completed)
    (fun e v => in_order (store v) /\ lost em e) w.
Proof.
  intros Ho Hg Hn. destruct (in_order_running _ Ho Hg) as (k & Hk & Hp & Hk').
  rewrite Hk' in Hn. apply last_stage in Hn as ->. unfold complete.
  eapply post_seq; [apply record_post|done|]. intros x v (rec & Hv & Hrec & _).
  assert (in_order (store v)) as Hov by (rewrite Hv; by apply in_order_push).
  eapply post_seq; [apply emit_phase_post|by intros e u [-> ?]|]. intros [] u Hu.
  apply post_update. set (u' := set_store _ u).
  assert (in_order (store u')) as Hoc.
  { split; cbn; [rewrite Hu; exact (proj1 Hov)|]. split; [|done]. by rewrite Hu, Hv; cbn; rewrite Hp. }
  change (post (let! _ := emit em RecordType.FirstBootComplete (completed_payload (state (store u')) (skipped_phases (store u'))) in
                ret (state (store u')))
    (fun c v => in_order (store v) /\ c = state (store v) /\ status c = FirstBootStatus.Completed)
    (fun e v => in_order (store v) /\ lost em e) u').
  eapply post_seq; [apply receipt_post; intros y; eexists; by split_and!|by intros e y [[-> _] ?]|].
  intros [] y (Hy & _). apply post_ret. by rewrite Hy.
Qed.

(** The loop: as many turns as there are stages left. *)
Lemma stages_post fuel (w : World) : in_order (store w) -> running (state (store w)) ->
  length (performed_phases (state (store w))) < 14 -> 14 - length (performed_phases (state (store w))) <= fuel ->
  post (stages em fuel) (fun c v => in_order (store v) /\ c = state (store v) /\ status c = FirstBootStatus.Completed)
    (fun e v => in_order (store v) /\ lost em e) w.
Proof.
  revert w. induction fuel as [|fuel IH]; intros w Ho Hg Hl Hf; [lia|]. cbn [stages]. apply post_context.
  destruct (in_order_running _ Ho Hg) as (k & Hk & Hp & Hn). rewrite Hn. rewrite Hp, length_take in Hl, Hf.
  change (length PHASES) with 14 in Hl, Hf.
  destruct (lookup_lt_is_Some_2 PHASES k ltac:(cbn; lia)) as [p Hkp]. rewrite Hkp in *.
  case_bool_decide as Hc; [subst p; by apply complete_post|].
  eapply post_seq; [apply record_post|done|]. intros x v (rec & Hv & Hrec & _).
  assert (in_order (store v)) as Hov by (rewrite Hv; by apply in_order_push).
  eapply post_seq; [apply emit_phase_post|by intros e u [-> ?]|]. intros [] u Hu. rewrite <- Hu in Hov.
  assert (k <> 13) by (intros ->; by injection Hkp as <-).
  rewrite Hv in Hu. apply IH; [done| | |]; rewrite ?Hu; [exact Hg|..]; cbn; rewrite length_app, Hp, length_take; cbn; lia.
Qed.

(** *** The operations *)
Abbreviation ordered := (fun v : World => in_order (store v)).

Lemma validate_next_ok c p : validate_next_phase c p = Ok () <-> next_phase c = Some p.
Proof. unfold validate_next_phase. destruct (next_phase c) as [q|]; [case_bool_decide|]; split; congruence. Qed.
Lemma post_validate {C} c p (f : () -> M World RecoveryError.t C) Q (E : RecoveryError.t -> World -> Prop) w :
  (forall e, E e w) -> (next_phase c = Some p -> post (f ()) Q E w) ->
  post (mbind_ (lift (validate_next_phase c p)) f) Q E w.
Proof.
  intros He Hf. destruct (validate_next_phase c p) as [[]|e] eqn:Hv; [|apply He].
  apply Hf. by apply validate_next_ok.
Qed.

Lemma skip_ordered p r : preserves ordered (skip_stage em p r).
Proof.
  intros w Ho. assert (post (skip_stage em p r) (fun _ => ordered) (fun _ => ordered) w) as Hp.
  { unfold skip_stage. apply post_context.
    case_bool_decide as Hc; [exact Ho|]. case_bool_decide as Hf; [exact Ho|]. cbn [orb]. apply post_validate; [done|]. intros Hn.
    destruct (next_stage _ _ Ho Hn Hf) as [Hb _]. apply post_update.
    eapply post_seq; [apply record_post|done|]. intros x v (rec & Hv & Hrec & _).
    assert (in_order (store v)) as Hov by (rewrite Hv; apply in_order_push; [done|done|by apply next_phase_begin|done]).
    eapply post_mono; [apply emit_phase_post|by intros [] u ->|by intros e u [-> _]]. }
  unfold post in Hp. by destruct (skip_stage em p r w) as [[]].
Qed.

(** A failure ends the order, and can only be repeated. *)
Lemma in_order_fail d p rec1 rec2 x : in_order d -> next_phase (state d) = Some p ->
  FirstBootStageRecord.phase rec1 = p -> FirstBootStageRecord.phase rec2 = StageFailedRequiresRecovery ->
  in_order (with_context (fun c => set_completed_at x (set_status FirstBootStatus.Failed c))
    (recorded StageFailedRequiresRecovery rec2 (recorded p rec1 (with_context (set_status FirstBootStatus.InProgress) d)))).
Proof.
  intros Ho Hn H1' H2'. split; cbn; [by rewrite !fmap_app, <- (proj1 Ho); cbn; rewrite H1', H2'|].
  destruct (decide (p = StageFailedRequiresRecovery)) as [->|Hp].
  - destruct Ho as [Hr Hs]. unfold next_phase in Hn. case_bool_decide as Hf.
    + rewrite Hf in Hs. destruct Hs as (k & m & Hk & Hs). exists k, (S (S m)). split; [done|]. rewrite Hs, <- !app_assoc. f_equal.
      rewrite (app_assoc (replicate _ _)), <- (replicate_S_end (S m)). by rewrite <- (replicate_S_end (S (S m))).
    + exfalso. apply list_elem_of_lookup_2 in Hn. apply (bool_decide_eq_true_2 (_ ∈ _)) in Hn. by vm_compute in Hn.
  - destruct (next_stage _ _ Ho Hn Hp) as [Hb _].
    destruct (in_order_running _ Hb eq_refl) as (k & Hk & Hps & Hn').
    cbn [with_context state] in Hn'. rewrite (next_phase_begin _ _ Hn Hp) in Hn'. symmetry in Hn'.
    pose proof (lookup_lt_Some _ _ _ Hn') as Hl. cbn in Hl, Hps. exists (S k), 0. split; [lia|].
    by rewrite Hps, (take_S_r _ _ _ Hn').
Qed.

Lemma fail_ordered p r : preserves ordered (fail_stage (L := L) p r).
Proof.
  intros w Ho. assert (post (fail_stage p r) (fun _ => ordered) (fun _ => ordered) w) as Hp.
  { unfold fail_stage. apply post_context. apply post_validate; [done|]. intros Hn. apply post_update.
    eapply post_seq; [apply record_post|done|]. intros x v (rec & Hv & Hrec & _).
    eapply post_seq; [apply record_post|done|]. intros x2 v2 (rec2 & Hv2 & Hrec2 & _).
    unfold post. cbn. rewrite Hv2, Hv. by apply in_order_fail. }
  unfold post in Hp. by destruct (fail_stage p r w) as [[]].
Qed.

Lemma provision_post b (w : World) : in_order (store w) ->
  post (run_provisioning em b)
    (fun c v => in_order (store v) /\ c = state (store v) /\ is_terminal c = true /\ (c = state (store w) \/ status c = FirstBootStatus.Completed))
    (fun e v => in_order (store v) /\ (SgrRecoveryHook.is_recovery_active b = true \/ lost em e \/
       14 <= length (performed_phases (state (store w))))) w.
Proof.
  intros Ho. unfold run_provisioning. apply post_context.
  destruct (is_terminal (state (store w))) eqn:Ht; [apply post_ret; by split_and!; [..|left]|].
  destruct (SgrRecoveryHook.is_recovery_active b); [by split; [|left]|].
  apply post_update. apply post_context. set (u := set_store _ w).
  unfold is_terminal in Ht. apply orb_false_iff in Ht as [Hc%bool_decide_eq_false Hf%bool_decide_eq_false].
  assert (in_order (store u) /\ length (performed_phases (state (store w))) <= 14) as [Hou Hlen].
  { destruct Ho as [Hr Hs]. unfold u, in_order. cbn. destruct (status (state (store w))); try done.
    - rewrite Hs. cbn. split; [|lia]. split; [by rewrite <- Hr|]. exists 0. split; [lia|done].
    - split; [done|]. destruct Hs as (k & Hk & ->). rewrite length_take. cbn. lia. }
  eapply post_seq; [apply receipt_post; intros y; eexists; by split_and!|intros e y [[-> _] ?]; split; [done|tauto]|].
  intros [] y (Hy & _). destruct (decide (length (performed_phases (state (store w))) < 14)) as [Hl|Hl].
  - eapply post_mono; [apply stages_post; rewrite ?Hy; [done|done|exact Hl|cbn; lia]| |intros e z [? ?]; tauto].
    intros c z (Hz & -> & Hs). split_and!; [done|done| |by right]. unfold is_terminal. by rewrite Hs.
  - cbn [stages]. apply post_context. rewrite Hy. assert (length (performed_phases (state (store w))) = 14) as Hl' by lia.
    unfold next_phase. rewrite bool_decide_false by done. change (performed_phases (state (store u))) with (performed_phases (state (store w))).
    rewrite Hl'. cbn. split; [by rewrite Hy|]. right; right. lia.
Qed.

Lemma mark_complete_ordered b : preserves ordered (mark_complete em b).
Proof.
  intros w Ho. assert (post (mark_complete em b) (fun _ => ordered) (fun _ => ordered) w) as Hp.
  { unfold mark_complete. destruct (SgrRecoveryHook.is_recovery_active b); [exact Ho|]. apply post_context.
    case_bool_decide; [exact Ho|]. apply post_validate; [done|]. intros Hn.
    assert (running (state (store w))) as Hg.
    { destruct (next_stage _ _ Ho Hn ltac:(done)) as [_ [Hs|Hs]]; [exact Hs|]. exfalso.
      destruct Ho as [_ Ho]. rewrite Hs in Ho. unfold next_phase in Hn. by rewrite bool_decide_false, Ho in Hn by (by rewrite Hs). }
    eapply post_seq; [by apply complete_post|by intros e v [? _]|]. intros c v [? _]. by apply post_ret. }
  unfold post in Hp. by destruct (mark_complete em b w) as [[]].
Qed.

Lemma ordered_run ops w : starts w -> in_order (store (run ops w)).
Proof.
  intros (boot & now & Hs). induction ops as [|o ops IH] using rev_ind; [cbn; by rewrite Hs|].
  unfold run. rewrite fold_left_app. cbn [fold_left]. fold (run ops w). destruct o as [b|b|p r|p r]; cbn [exec].
  - pose proof (provision_post b _ IH) as Hp. unfold post in Hp.
    by destruct (run_provisioning em b (run ops w)) as [[c|e] v]; destruct Hp as [Hp _].
  - by apply (mark_complete_ordered b).
  - by apply (skip_ordered p r).
  - by apply (fail_ordered p r).
Qed.

Lemma completed_stays o (w : World) : in_order (store w) -> status (state (store w)) = FirstBootStatus.Completed ->
  store (exec o w) = store w.
Proof.
  intros Ho Hc. assert (next_phase (state (store w)) = None) as Hn.
  { destruct Ho as [_ Ho]. rewrite Hc in Ho. destruct Ho as [Ho _]. unfold next_phase. by rewrite bool_decide_false, Ho by (by rewrite Hc). }
  assert (forall p, exists e, validate_next_phase (state (store w)) p = Err e) as Hv.
  { intros p. unfold validate_next_phase. rewrite Hn. by eexists. }
  destruct o as [b|b|p r|p r]; cbn [exec].
  - unfold run_provisioning, mbind_, context, is_terminal. by rewrite Hc.
  - unfold mark_complete. destruct (SgrRecoveryHook.is_recovery_active b); [done|].
    unfold mbind_, context. by rewrite Hc.
  - unfold skip_stage, mbind_, context. destruct (_ || _); [done|]. unfold lift. by destruct (Hv p) as [e ->].
  - unfold fail_stage, mbind_, context, lift. by destruct (Hv p) as [e ->].
Qed.

(** C16: first boot goes through its stages in order, in every run of the driver:
    what it performed is a prefix of the sequence, each stage with its record,
    all of it when the status is completed, and a failure ends it.  A first boot
    that is not over and has a stage left is completed by [run_provisioning]
    outside of recovery, unless a receipt is lost; no operation changes one that
    is completed; and within recovery provisioning and the completion change
    nothing. *)
Theorem first_boot_sound ops w : starts w ->
  let v := run ops w in
  in_order (store v) /\
  (forall b, is_terminal (state (store v)) = false -> SgrRecoveryHook.is_recovery_active b = false ->
     length (performed_phases (state (store v))) < 14 ->
     match run_provisioning em b v with
     | (Ok c, u) => status c = FirstBootStatus.Completed /\ performed_phases c = PHASES /\ state (store u) = c
     | (Err e, _) => lost em e
     end) /\
  (status (state (store v)) = FirstBootStatus.Completed -> forall o, store (exec o v) = store v) /\
  (forall b, SgrRecoveryHook.is_recovery_active b = true ->
     store (exec (Provision b) v) = store v /\ store (exec (Complete b) v) = store v).
Proof.
  intros Hs v. pose proof (ordered_run ops w Hs) as Ho. fold v in Ho. split; [done|]. split; [|split].
  - intros b Ht Hb Hl. pose proof (provision_post b v Ho) as Hp. unfold post in Hp.
    destruct (run_provisioning em b v) as [[c|e] u].
    + destruct Hp as (Hou & -> & Hterm & [Hc|Hc]); [congruence|]. split; [done|]. split; [|done].
      destruct Hou as [_ Hou]. rewrite Hc in Hou. by destruct Hou.
    + destruct Hp as (_ & [Hb'|[He|Hlen]]); [congruence|done|lia].
  - intros Hc o. by apply completed_stays.
  - intros b Hb. cbn [exec]. split.
    + unfold run_provisioning, mbind_, context. destruct (is_terminal _); [done|]. by rewrite Hb.
    + unfold mark_complete. by rewrite Hb.
Qed.
End Sound.
Arguments Op : clear implicits.
End FirstBootSound.

(** ** Kernel candidates ([kernel.rs], [kernel_pipeline.rs]) *)
Module KernelManifest.
Record t : Type := {
  version : string;
  min_aios_version : string;
  requires_recovery_install : bool;
  verification_intent : option string;
  tags : list string;
}.
End KernelManifest.

Module KernelCandidate.
Record t : Type := {
  candidate_id : string;
  version : string;
  kernel_blake3 : string;
  signature_ed25519 : list Z;
  signing_authority : string;
  registered_at : DateTime;
  state : CandidateState.t;
  manifest : KernelManifest.t;
}.
Definition set_state (s : CandidateState.t) (c : t) : t :=
  {| candidate_id := candidate_id c; version := version c; kernel_blake3 := kernel_blake3 c;
     signature_ed25519 := signature_ed25519 c; signing_authority := signing_authority c;
     registered_at := registered_at c; state := s; manifest := manifest c |}.
End KernelCandidate.

Module KernelPipelineDriver.
Import CandidateState KernelCandidate.
Section Ops.
Context {L B : Type} `{RecoveryEvidenceLog L} `{!RecoveryTexts} `{!SgrRecoveryHook.RecoveryBoundary B}.
Variable evidence_emitter : option RecoveryEvidenceEmitter.
(** The order in which a [HashMap] is walked. *)
Variable walk : gmap string VerifyingKey -> list (string * VerifyingKey).

Record t : Type := {
  candidates : gmap string KernelCandidate.t;
  active_id : option string;
  trusted_authorities : gmap string VerifyingKey;
  rollback_stack : list string;
}.
Abbreviation W := (RecoveryWorld.t t L).
Abbreviation M := (M W RecoveryError.t).

Definition ROLLBACK_STACK_CAPACITY : nat := 8.
Definition new : t := {| candidates := ∅; active_id := None; trusted_authorities := ∅; rollback_stack := [] |}.
Definition with_trusted_authority (name : string) (key : VerifyingKey) (d : t) : t :=
  {| candidates := candidates d; active_id := active_id d; trusted_authorities := <[name := key]> (trusted_authorities d);
     rollback_stack := rollback_stack d |}.
Definition put_candidate (id : string) (c : KernelCandidate.t) (d : t) : t :=
  {| candidates := <[id := c]> (candidates d); active_id := active_id d;
     trusted_authorities := trusted_authorities d; rollback_stack := rollback_stack d |}.
Definition set_slots (active : option string) (stack : list string) (d : t) : t :=
  {| candidates := candidates d; active_id := active; trusted_authorities := trusted_authorities d; rollback_stack := stack |}.

Definition manifest_json (m : KernelManifest.t) : json :=
  JObject [at_text "version" (KernelManifest.version m); at_text "min_aios_version" (KernelManifest.min_aios_version m);
           ("requires_recovery_install", JBool (KernelManifest.requires_recovery_install m));
           ("verification_intent", or_null_text (KernelManifest.verification_intent m));
           ("tags", JArray (JString <$> KernelManifest.tags m))].
Definition canonical_manifest_body_bytes (m : KernelManifest.t) : result RecoveryError.t string :=
  map_err (fun e => RecoveryError.Internal ("kernel manifest serialise: " +:+ e)) (serde_json_to_vec (manifest_json m)).

Definition verify_manifest_signature (d : t) (body : string) (signature : list Z) : result RecoveryError.t string :=
  if bool_decide (trusted_authorities d = ∅)
  then Err (RecoveryError.KernelUnknownAuthority "no trusted kernel authorities configured")
  else if negb (Nat.eqb (length signature) 64) then Err RecoveryError.KernelSignatureInvalid
  else ok_or (fst <$> find (fun a => verify a.2 body signature) (walk (trusted_authorities d)))
         RecoveryError.KernelSignatureInvalid.

Definition transition_allowed (from to : CandidateState.t) : bool :=
  match from, to with
  | Building, Built | Built, Gating | Gating, GatePassed | Gating, GateFailed
  | GatePassed, APromoted | GatePassed, Retired
  | APromoted, BDemotedToA | APromoted, Rollback | APromoted, Retired
  | BDemotedToA, Rollback | BDemotedToA, Retired
  | Rollback, Retired | GateFailed, Retired => true
  | _, _ => false
  end.
Definition ensure_transition (from to : CandidateState.t) : result RecoveryError.t () :=
  if transition_allowed from to then Ok () else Err (RecoveryError.InvalidCandidateTransition from to).
Definition transition_candidate (c : KernelCandidate.t) (to : CandidateState.t) : result RecoveryError.t KernelCandidate.t :=
  let? _ := ensure_transition (KernelCandidate.state c) to in Ok (KernelCandidate.set_state to c).
Definition trim_rollback_stack (stack : list string) : list string :=
  drop (length stack - ROLLBACK_STACK_CAPACITY) stack.

Definition candidate_of (id : string) : M KernelCandidate.t := fun w =>
  (ok_or (candidates (store w) !! id) (RecoveryError.CandidateNotFound id), w).

(** The receipts. *)
Definition candidate_texts (c : KernelCandidate.t) : list (string * json) :=
  [at_text "candidate_id" (candidate_id c); at_text "version" (version c); at_text "kernel_blake3" (kernel_blake3 c)].
Definition registered_payload (c : KernelCandidate.t) : M json :=
  ret (JObject (candidate_texts c ++ [at_text "signing_authority" (signing_authority c); at_time "registered_at" (registered_at c)])).
Definition gate_result_payload (c : KernelCandidate.t) : M json :=
  let! now := utc_now in ret (JObject (candidate_texts c ++ [at_text "result" "GATE_PASSED"; at_time "completed_at" now])).
Definition activated_payload (c : KernelCandidate.t) : M json :=
  let! now := utc_now in
  ret (JObject (candidate_texts c ++ [at_time "activated_at" now;
                ("required_recovery", JBool (KernelManifest.requires_recovery_install (manifest c)))])).
Definition rolled_back_payload (c : KernelCandidate.t) (previous reason : string) : M json :=
  let! now := utc_now in
  ret (JObject [at_text "candidate_id" (candidate_id c); at_text "previous_candidate_id" previous; at_text "reason" reason;
                at_time "rolled_back_at" now]).

Definition register_candidate (m : KernelManifest.t) (signature : list Z) : M KernelCandidate.t :=
  let! d := state_get in
  let! body := lift (canonical_manifest_body_bytes m) in
  let! authority := lift (verify_manifest_signature d body signature) in
  let! id := fresh_id "kc_" in
  let! now := utc_now in
  let c := {| candidate_id := id; version := KernelManifest.version m; kernel_blake3 := blake3_to_hex body;
              signature_ed25519 := signature; signing_authority := authority; registered_at := now;
              state := Built; manifest := m |} in
  let! _ := modify (fun w => set_store (put_candidate id c (store w)) w) in
  let! _ := emit evidence_emitter RecordType.KernelPipelineStarted (registered_payload c) in
  ret c.

Definition verify_candidate (id : string) : M KernelCandidate.t :=
  let! c := candidate_of id in
  let! c := lift (transition_candidate c Gating) in
  let! c := lift (transition_candidate c GatePassed) in
  let! _ := modify (fun w => set_store (put_candidate id c (store w)) w) in
  let! _ := emit evidence_emitter RecordType.KernelGateResult (gate_result_payload c) in
  ret c.

Definition displaced (previous : option string) (id : string) (stack : list string) : list string :=
  match previous with
  | Some p => if String.eqb p id then stack else trim_rollback_stack (stack ++ [p])
  | None => stack
  end.
Definition activate_candidate (boundary : B) (id : string) : M KernelCandidate.t :=
  let! c := candidate_of id in
  if KernelManifest.requires_recovery_install (manifest c) && negb (SgrRecoveryHook.is_recovery_active boundary)
  then throw RecoveryError.RecoveryNotActive
  else
    let! c := candidate_of id in
    let! c := lift (transition_candidate c APromoted) in
    let! _ := modify (fun w =>
      let d := put_candidate id c (store w) in
      set_store (set_slots (Some id) (displaced (active_id d) id (rollback_stack d)) d) w) in
    let! _ := emit evidence_emitter RecordType.KernelPromotedToA (activated_payload c) in
    ret c.

Definition rollback_candidate (id : string) : M KernelCandidate.t :=
  let! c := candidate_of id in
  let! d := state_get in
  if negb (bool_decide (active_id d = Some id))
  then throw (RecoveryError.InvalidCandidateTransition (KernelCandidate.state c) Rollback)
  else
    let! _ := lift (ensure_transition (KernelCandidate.state c) Rollback) in
    let! previous := lift (ok_or (last (rollback_stack d)) (RecoveryError.Internal "rollback requires previous active candidate")) in
    let! _ := modify (fun w => set_store (set_slots (active_id d) (removelast (rollback_stack d)) (store w)) w) in
    match candidates d !! previous with
    | None => throw (RecoveryError.Internal ("rollback stack points to missing candidate " +:+ previous))
    | Some _ =>
        let! c := lift (transition_candidate c Rollback) in
        let! _ := modify (fun w => set_store (set_slots (Some previous) (rollback_stack (store w)) (put_candidate id c (store w))) w) in
        let! _ := emit evidence_emitter RecordType.KernelRollbackPerformed (rolled_back_payload c previous "previous active restored") in
        ret c
    end.

Definition retire_candidate (id reason : string) : M () :=
  let! c := candidate_of id in
  let! d := state_get in
  if bool_decide (active_id d = Some id)
  then throw (RecoveryError.InvalidCandidateTransition (KernelCandidate.state c) Retired)
  else
    let! c := lift (transition_candidate c Retired) in
    modify (fun w => set_store (put_candidate id c (store w)) w).

Definition list_candidates (d : t) : list KernelCandidate.t := (map_to_list (candidates d)).*2.
Definition get_active (d : t) : option KernelCandidate.t := active_id d ≫= fun id => candidates d !! id.
End Ops.
End KernelPipelineDriver.

Module KernelSound.
Import CandidateState KernelCandidate KernelPipelineDriver.
Section Sound.
Context {L B : Type} `{RecoveryEvidenceLog L} `{!RecoveryTexts} `{!SgrRecoveryHook.RecoveryBoundary B}.
Variable em : option RecoveryEvidenceEmitter.
Variable walk : gmap string VerifyingKey -> list (string * VerifyingKey).
Abbreviation World := (RecoveryWorld.t KernelPipelineDriver.t L).
Abbreviation cands w := (candidates (store w)).

(** *** What each operation does *)
Ltac open_monad :=
  unfold mbind_, state_get, candidate_of, lift, throw, fresh_id, utc_now, modify, ret; cbv beta iota zeta.
Ltac by_receipt :=
  match goal with |- context [emit em ?rt ?p ?v] =>
    destruct (receipt_same em rt p v ltac:(intros y; eexists; by split_and!)) as (Hs1 & Hs2 & Hs3);
    destruct (emit em rt p v) as [[[]|?] ?]; cbn [fst snd] in *; rewrite Hs1, Hs2, Hs3
  end.

(** [w'] is [w] with [d] for its state. *)
Definition becomes (d : KernelPipelineDriver.t) (n : nat) (w w' : World) : Prop :=
  store w' = d /\ ulids w' = ulids w /\ drawn w' = n.

Lemma transition_ok c to c' : transition_candidate c to = Ok c' <->
  transition_allowed (KernelCandidate.state c) to = true /\ c' = KernelCandidate.set_state to c.
Proof.
  unfold transition_candidate, ensure_transition. destruct (transition_allowed _ _); cbn; naive_solver.
Qed.

Definition registered (d : KernelPipelineDriver.t) (m : KernelManifest.t) (signature : list Z) (c : KernelCandidate.t) : Prop :=
  manifest c = m /\ signature_ed25519 c = signature /\ KernelCandidate.state c = Built /\
  exists body, canonical_manifest_body_bytes m = Ok body /\ kernel_blake3 c = blake3_to_hex body /\
    verify_manifest_signature walk d body signature = Ok (signing_authority c).

Lemma registration_cases m s (w : World) :
  (exists e, register_candidate em walk m s w = (Err e, w)) \/
  exists c, registered (store w) m s c /\ candidate_id c = "kc_" +:+ ulids w (drawn w) /\
    becomes (put_candidate (candidate_id c) c (store w)) (S (drawn w)) w (register_candidate em walk m s w).2.
Proof.
  unfold register_candidate. open_monad. destruct (canonical_manifest_body_bytes m) as [body|e] eqn:Hb; [|left; by eexists].
  destruct (verify_manifest_signature _ _ _ _) as [a|e] eqn:Hv; [|left; by eexists]. right.
  match goal with |- context [registered_payload ?c] => exists c end.
  split; [split_and!; [done..|]; eexists; by split_and!|]. split; [done|].
  unfold becomes. by_receipt; by split_and!.
Qed.

Lemma verify_cases id (w : World) :
  (exists e, verify_candidate em id w = (Err e, w)) \/
  exists c, cands w !! id = Some c /\ KernelCandidate.state c = Built /\
    becomes (put_candidate id (KernelCandidate.set_state GatePassed c) (store w)) (drawn w) w (verify_candidate em id w).2.
Proof.
  unfold verify_candidate. open_monad. destruct (cands w !! id) as [c|]; [|left; by eexists]. cbn [ok_or].
  destruct (transition_candidate c Gating) as [c1|e] eqn:Hc; [|left; by eexists]. right. exists c.
  apply transition_ok in Hc as [Ha ->]. split; [done|]. split; [by destruct (KernelCandidate.state c)|].
  cbn. unfold becomes. by_receipt; by split_and!.
Qed.

Lemma activate_cases b id (w : World) :
  (exists e, activate_candidate em b id w = (Err e, w)) \/
  exists c, cands w !! id = Some c /\ KernelCandidate.state c = GatePassed /\
    (KernelManifest.requires_recovery_install (manifest c) = true -> SgrRecoveryHook.is_recovery_active b = true) /\
    becomes (set_slots (Some id) (displaced (active_id (store w)) id (rollback_stack (store w)))
       (put_candidate id (KernelCandidate.set_state APromoted c) (store w))) (drawn w) w (activate_candidate em b id w).2.
Proof.
  unfold activate_candidate. open_monad. destruct (cands w !! id) as [c|] eqn:Hl; [|left; by eexists]. cbn [ok_or].
  destruct (KernelManifest.requires_recovery_install (manifest c) && _) eqn:Hr; [left; by eexists|].
  rewrite Hl. cbn [ok_or].
  destruct (transition_candidate c APromoted) as [c1|e] eqn:Hc; [|left; by eexists]. right. exists c.
  apply transition_ok in Hc as [Ha ->]. split; [done|]. split; [by destruct (KernelCandidate.state c)|].
  split; [intros Hq; rewrite Hq in Hr; by apply negb_false_iff in Hr|]. unfold becomes. by_receipt; by split_and!.
Qed.

Lemma rollback_effect id c p (w : World) : cands w !! id = Some c -> active_id (store w) = Some id ->
  last (rollback_stack (store w)) = Some p -> is_some (cands w !! p) = true ->
  transition_allowed (KernelCandidate.state c) Rollback = true ->
  becomes (set_slots (Some p) (removelast (rollback_stack (store w)))
    (put_candidate id (KernelCandidate.set_state Rollback c) (store w))) (drawn w) w (rollback_candidate em id w).2.
Proof.
  intros Hc Ha Hl Hp Ht. unfold rollback_candidate. open_monad. rewrite Hc. cbn [ok_or]. rewrite bool_decide_true by done. cbn [negb].
  unfold transition_candidate, ensure_transition. rewrite Ht, Hl. cbn [ok_or]. destruct (cands w !! p); [|done]. cbn. unfold becomes.
  by_receipt; by split_and!.
Qed.
Lemma rollback_cases id (w : World) : (forall p, last (rollback_stack (store w)) = Some p -> is_some (cands w !! p) = true) ->
  (exists e, rollback_candidate em id w = (Err e, w)) \/
  exists c p, cands w !! id = Some c /\ active_id (store w) = Some id /\ last (rollback_stack (store w)) = Some p /\
    transition_allowed (KernelCandidate.state c) Rollback = true /\
    becomes (set_slots (Some p) (removelast (rollback_stack (store w)))
       (put_candidate id (KernelCandidate.set_state Rollback c) (store w))) (drawn w) w (rollback_candidate em id w).2.
Proof.
  intros Hp. destruct (cands w !! id) as [c|] eqn:Hc, (decide (active_id (store w) = Some id)) as [Ha|Ha];
    [|left; unfold rollback_candidate; open_monad; rewrite Hc; try rewrite (bool_decide_false _ Ha); by eexists..].
  destruct (transition_allowed (KernelCandidate.state c) Rollback) eqn:Ht, (last (rollback_stack (store w))) as [p|] eqn:Hl.
  1: { right. exists c, p. split_and!; [done..|]. apply rollback_effect; auto. }
  all: left; unfold rollback_candidate; open_monad; rewrite Hc; cbn [ok_or]; rewrite (bool_decide_true _ Ha); cbn [negb];
    unfold ensure_transition; rewrite Ht, ?Hl; by eexists.
Qed.

Lemma retire_cases id r (w : World) :
  (exists e, retire_candidate (L := L) id r w = (Err e, w)) \/
  exists c, cands w !! id = Some c /\ active_id (store w) <> Some id /\ transition_allowed (KernelCandidate.state c) Retired = true /\
    becomes (put_candidate id (KernelCandidate.set_state Retired c) (store w)) (drawn w) w (retire_candidate (L := L) id r w).2.
Proof.
  unfold retire_candidate. open_monad. destruct (cands w !! id) as [c|]; [|left; by eexists]. cbn [ok_or].
  case_bool_decide as Ha; [left; by eexists|]. destruct (transition_candidate c Retired) as [c1|e] eqn:Hc; [|left; by eexists].
  right. exists c. apply transition_ok in Hc as [Ht ->]. by split_and!.
Qed.

(** *** Runs *)
Inductive Op : Type :=
| Register (m : KernelManifest.t) (signature : list Z) | Verify (id : string) | Activate (b : B) (id : string)
| RollBack (id : string) | Retire (id reason : string).
Definition exec (o : Op) (w : World) : World :=
  match o with
  | Register m s => (register_candidate em walk m s w).2
  | Verify id => (verify_candidate em id w).2
  | Activate b id => (activate_candidate em b id w).2
  | RollBack id => (rollback_candidate em id w).2
  | Retire id r => (retire_candidate (L := L) id r w).2
  end.
Definition run (ops : list Op) (w : World) : World := fold_left (fun w o => exec o w) ops w.
Definition starts (w : World) : Prop :=
  candidates (store w) = ∅ /\ active_id (store w) = None /\ rollback_stack (store w) = [] /\ Inj eq eq (ulids w).
Lemma kernel_run_snoc ops o w : run (ops ++ [o]) w = exec o (run ops w).
Proof. unfold run. by rewrite fold_left_app. Qed.

(** The slots: the active candidate and those it displaced. *)
Definition slots (d : KernelPipelineDriver.t) : list string := option_list (active_id d) ++ rollback_stack d.
Definition in_slot (s : CandidateState.t) : Prop := s = APromoted \/ s = Retired.
Definition signed (d : KernelPipelineDriver.t) (c : KernelCandidate.t) : Prop :=
  exists body, canonical_manifest_body_bytes (manifest c) = Ok body /\ kernel_blake3 c = blake3_to_hex body /\
    verify_manifest_signature walk d body (signature_ed25519 c) = Ok (signing_authority c).
Record kernel_ok (w : World) : Prop := {
  ko_ids id c : cands w !! id = Some c -> candidate_id c = id /\ exists i, i < drawn w /\ id = "kc_" +:+ ulids w i;
  ko_signed id c : cands w !! id = Some c -> signed (store w) c;
  ko_slots : NoDup (slots (store w));
  ko_held id : id ∈ slots (store w) -> exists c, cands w !! id = Some c /\ in_slot (KernelCandidate.state c);
  ko_bound : length (rollback_stack (store w)) <= ROLLBACK_STACK_CAPACITY;
  ko_active : active_id (store w) = None -> rollback_stack (store w) = [];
}.

(** Changing the state of a candidate. *)
Lemma put_state_ok w w' id c s n : kernel_ok w -> cands w !! id = Some c -> (id ∈ slots (store w) -> in_slot s) ->
  becomes (put_candidate id (KernelCandidate.set_state s c) (store w)) n w w' -> n = drawn w -> kernel_ok w'.
Proof.
  intros [Hi Hsg Hn Hh Hb Ha] Hc Hs (Hw & Hu & Hd) ->. split; rewrite ?Hw, ?Hu, ?Hd; cbn.
  - intros id' c' [[<- <-]|[_ Hc']]%lookup_insert_Some; [|by apply Hi]. by apply (Hi id c).
  - intros id' c' [[<- <-]|[_ Hc']]%lookup_insert_Some; [by apply (Hsg id c)|by apply (Hsg id' c')].
  - exact Hn.
  - intros id' Hin. destruct (decide (id = id')) as [<-|Hne].
    + rewrite lookup_insert_eq. eexists. split; [done|]. by apply Hs.
    + rewrite lookup_insert_ne by done. by apply Hh.
  - exact Hb.
  - exact Ha.
Qed.
Lemma becomes_slots active stack d n w w' : becomes (set_slots active stack d) n w w' ->
  exists v, becomes d n w v /\ becomes (set_slots active stack (store v)) n v w'.
Proof.
  intros (Hw & Hu & Hd). exists {| store := d; evidence := evidence w; clock := clock w; reads := reads w; ulids := ulids w; drawn := n |}.
  by split_and!.
Qed.
(** Moving candidates between the slots. *)
Lemma put_slots_ok v w' active stack n : kernel_ok v -> n = drawn v -> becomes (set_slots active stack (store v)) n v w' ->
  NoDup (option_list active ++ stack) ->
  (forall id, id ∈ option_list active ++ stack -> exists c, cands v !! id = Some c /\ in_slot (KernelCandidate.state c)) ->
  length stack <= ROLLBACK_STACK_CAPACITY -> (active = None -> stack = []) -> kernel_ok w'.
Proof.
  intros [Hi Hsg _ _ _ _] -> (Hw & Hu & Hd) Hn Hh Hb Ha. split; rewrite ?Hw, ?Hu, ?Hd; cbn; try done.
Qed.

Lemma trim_suffix l : exists n, trim_rollback_stack l = drop n l.
Proof. by eexists. Qed.
Lemma displaced_slots d id : ~ (id ∈ slots d) -> NoDup (slots d) ->
  NoDup (id :: displaced (active_id d) id (rollback_stack d)) /\
  (forall x, x ∈ displaced (active_id d) id (rollback_stack d) -> x ∈ slots d) /\
  (length (rollback_stack d) <= ROLLBACK_STACK_CAPACITY ->
   length (displaced (active_id d) id (rollback_stack d)) <= ROLLBACK_STACK_CAPACITY).
Proof.
  unfold slots, displaced. intros Hi Hn. destruct (active_id d) as [p|]; cbn in *.
  - assert (String.eqb p id = false) as -> by (apply String.eqb_neq; intros ->; apply Hi; by left).
    assert (rollback_stack d ++ [p] ≡ₚ p :: rollback_stack d) as Hp by (rewrite Permutation_app_comm; done).
    unfold trim_rollback_stack. set (n := length _ - _). split; [|split].
    + apply NoDup_cons. split.
      2: { rewrite <- Hp, <- (take_drop n (rollback_stack d ++ [p])) in Hn. by apply NoDup_app in Hn as (_ & _ & ?). }
      intros Hx. apply Hi. rewrite <- Hp. by apply (subseteq_drop n).
    + intros x Hx. rewrite <- Hp. by apply (subseteq_drop n).
    + intros Hl. rewrite length_drop. subst n. unfold ROLLBACK_STACK_CAPACITY in *. lia.
  - split_and!; [by apply NoDup_cons|done|done].
Qed.
Lemma last_removelast {A} (l : list A) x : last l = Some x -> l = removelast l ++ [x].
Proof. intros Hl. destruct l as [|y l _] using rev_ind; [done|]. rewrite last_snoc in Hl. injection Hl as ->. by rewrite removelast_last. Qed.

Lemma slots_last w p : kernel_ok w -> last (rollback_stack (store w)) = Some p ->
  exists c, cands w !! p = Some c /\ in_slot (KernelCandidate.state c).
Proof.
  intros Hk Hp. apply (ko_held _ Hk). apply elem_of_app. right. rewrite (last_removelast _ _ Hp). apply elem_of_app. right.
  by apply list_elem_of_singleton.
Qed.
Lemma fresh_candidate w : kernel_ok w -> Inj eq eq (ulids w) -> cands w !! ("kc_" +:+ ulids w (drawn w)) = None.
Proof.
  intros Hk Hi. apply eq_None_not_Some. intros [c Hc]. apply (ko_ids _ Hk) in Hc as (_ & i & Hlt & He).
  cbn in He. injection He as He. apply Hi in He. lia.
Qed.

(** Every operation: what the candidates and the slots become. *)
Lemma kernel_step o (w : World) : kernel_ok w -> Inj eq eq (ulids w) ->
  exec o w = w \/ kernel_ok (exec o w) /\ ulids (exec o w) = ulids w.
Proof.
  intros Hk Hi. destruct o as [m s|id|b id|id|id r]; cbn [exec].
  - destruct (registration_cases m s w) as [(e & ->)|(c & (Hm & Hsg & Hst & body & Hb & Hbl & Hv) & Hid & Hw & Hu & Hd)]; [by left|].
    right. split; [|done]. pose proof (fresh_candidate w Hk Hi) as Hf. rewrite <- Hid in Hf.
    destruct Hk as [Ki Ks Kn Kh Kb Ka]. split; rewrite ?Hw, ?Hu, ?Hd; cbn.
    + intros id' c' [[<- <-]|[_ Hc']]%lookup_insert_Some; [split; [done|]; exists (drawn w); split; [lia|done]|].
      destruct (Ki _ _ Hc') as (? & i & ? & ?). split; [done|]. exists i. split; [lia|done].
    + intros id' c' [[<- <-]|[_ Hc']]%lookup_insert_Some; [|by apply (Ks id' c')]. exists body. by rewrite Hm, Hsg.
    + exact Kn.
    + intros id' Hin. destruct (Kh id' Hin) as (c' & Hc' & Hs'). exists c'. split; [|done].
      rewrite lookup_insert_ne by congruence. done.
    + exact Kb.
    + exact Ka.
  - destruct (verify_cases id w) as [(e & ->)|(c & Hc & Hst & Hb)]; [by left|]. right. split; [|apply Hb].
    eapply put_state_ok; [exact Hk|exact Hc| |exact Hb|done]. intros Hin. apply (ko_held _ Hk) in Hin as (c' & Hc' & [Hx|Hx]); congruence.
  - destruct (activate_cases b id w) as [(e & ->)|(c & Hc & Hst & _ & Hb)]; [by left|]. right. split; [|apply Hb].
    assert (~ (id ∈ slots (store w))) as Hni.
    { intros Hin. apply (ko_held _ Hk) in Hin as (c' & Hc' & [Hx|Hx]); congruence. }
    apply becomes_slots in Hb as (v & Hv & Hb). assert (kernel_ok v) as Kv.
    { eapply put_state_ok; [exact Hk|exact Hc|done|exact Hv|done]. }
    destruct (displaced_slots (store w) id Hni (ko_slots _ Hk)) as (Hn & Hsub & Hlen).
    eapply put_slots_ok; [exact Kv|symmetry; apply Hv|exact Hb|exact Hn| |by apply Hlen, (ko_bound _ Hk)|done].
    intros x [->|Hx]%elem_of_cons.
    + destruct Hv as (-> & _). cbn. rewrite lookup_insert_eq. eexists. split; [done|by left].
    + apply (ko_held _ Kv). apply Hsub in Hx. by destruct Hv as (-> & _).
  - destruct (rollback_cases id w) as [(e & ->)|(c & p & Hc & Ha & Hp & Ht & Hb)].
    { intros p Hp. by destruct (slots_last _ _ Hk Hp) as (c & -> & _). }
    { by left. }
    right. split; [|apply Hb]. pose proof (last_removelast _ _ Hp) as Hl.
    pose proof (ko_slots _ Hk) as Hn. unfold slots in Hn. rewrite Ha in Hn. cbn in Hn. apply NoDup_cons in Hn as [Hni Hn].
    assert (p :: removelast (rollback_stack (store w)) ≡ₚ rollback_stack (store w)) as Hperm.
    { rewrite Hl at 2. by rewrite Permutation_app_comm. }
    destruct Hb as (Hw & Hu & Hd). destruct Hk as [Ki Ks Kn Kh Kb Ka]. split; rewrite ?Hw, ?Hu, ?Hd; cbn.
    + intros id' c' [[<- <-]|[_ Hc']]%lookup_insert_Some; [by apply (Ki id c)|by apply Ki].
    + intros id' c' [[<- <-]|[_ Hc']]%lookup_insert_Some; [by apply (Ks id c)|by apply (Ks id' c')].
    + change (NoDup (p :: removelast (rollback_stack (store w)))). by rewrite Hperm.
    + intros x Hx. change (x ∈ p :: removelast (rollback_stack (store w))) in Hx. rewrite Hperm in Hx.
      rewrite lookup_insert_ne by (intros ->; done). apply Kh. apply elem_of_app. by right.
    + apply Permutation_length in Hperm. cbn in Hperm. lia.
    + done.
  - destruct (retire_cases id r w) as [(e & ->)|(c & Hc & Ha & Ht & Hb)]; [by left|]. right. split; [|apply Hb].
    eapply put_state_ok; [exact Hk|exact Hc|by right|exact Hb|done].
Qed.

Lemma kernel_run ops w : starts w -> kernel_ok (run ops w) /\ ulids (run ops w) = ulids w.
Proof.
  intros (Hc & Ha & Hs & Hi). induction ops as [|o ops [IH Hu]] using rev_ind.
  - split; [|done]. cbn. split; unfold slots; rewrite ?Hc, ?Ha, ?Hs; cbn; try done.
    + apply NoDup_nil_2.
    + intros id Hid. by apply elem_of_nil in Hid.
    + unfold ROLLBACK_STACK_CAPACITY. lia.
  - rewrite kernel_run_snoc. destruct (kernel_step o _ IH) as [->|[? Hu']]; [by rewrite Hu|done|].
    split; [done|]. by rewrite Hu'.
Qed.

(** *** Where a promoted candidate comes from *)
Definition was_promoted (w : World) (id : string) (c : KernelCandidate.t) : Prop :=
  KernelCandidate.state c = APromoted \/ KernelCandidate.state c = Rollback \/ id ∈ slots (store w).
Definition promoted_by (ops : list Op) (w : World) (id : string) (m : KernelManifest.t) : Prop :=
  exists before b after c, ops = before ++ Activate b id :: after /\ cands (run before w) !! id = Some c /\
    KernelCandidate.state c = GatePassed /\ manifest c = m /\
    (KernelManifest.requires_recovery_install m = true -> SgrRecoveryHook.is_recovery_active b = true).

Lemma promoted_snoc ops o w id m : promoted_by ops w id m -> promoted_by (ops ++ [o]) w id m.
Proof.
  intros (before & b & after & c & -> & Hc). exists before, b, (after ++ [o]), c. by rewrite <- app_assoc.
Qed.

(** What is promoted after an operation was before, or is what it activated. *)
Lemma promoted_step o (w : World) id c : kernel_ok w -> Inj eq eq (ulids w) ->
  cands (exec o w) !! id = Some c -> was_promoted (exec o w) id c ->
  (exists c0, cands w !! id = Some c0 /\ manifest c0 = manifest c /\ was_promoted w id c0) \/
  (exists b c0, o = Activate b id /\ cands w !! id = Some c0 /\ KernelCandidate.state c0 = GatePassed /\ manifest c0 = manifest c /\
     (KernelManifest.requires_recovery_install (manifest c) = true -> SgrRecoveryHook.is_recovery_active b = true)).
Proof.
  intros Hk Hi Hc Hp. destruct o as [m s|x|b x|x|x r]; cbn [exec] in *.
  - left. destruct (registration_cases m s w) as [(e & He)|(c1 & (_ & _ & Hst & _) & Hid & Hw & _)]; [rewrite He in *; eauto|].
    unfold was_promoted in Hp. rewrite Hw in Hc, Hp. cbn in Hc. change (slots (put_candidate _ _ _)) with (slots (store w)) in Hp.
    apply lookup_insert_Some in Hc as [[<- <-]|[_ Hc]]; [|by eauto]. exfalso. destruct Hp as [Hp|[Hp|Hp]]; [congruence..|].
    apply (ko_held _ Hk) in Hp as (c0 & Hc0 & _). rewrite Hid, fresh_candidate in Hc0 by done. done.
  - left. destruct (verify_cases x w) as [(e & He)|(c1 & Hc1 & Hst & Hw & _)]; [rewrite He in *; eauto|].
    unfold was_promoted in Hp. rewrite Hw in Hc, Hp. cbn in Hc. change (slots (put_candidate _ _ _)) with (slots (store w)) in Hp.
    apply lookup_insert_Some in Hc as [[<- <-]|[_ Hc]]; [|by eauto]. exists c1. split_and!; [done..|]. right; right.
    by destruct Hp as [Hp|[Hp|Hp]].
  - destruct (activate_cases b x w) as [(e & He)|(c1 & Hc1 & Hst & Hr & Hw & _)]; [rewrite He in *; eauto|].
    unfold was_promoted in Hp. rewrite Hw in Hc, Hp. cbn in Hc.
    apply lookup_insert_Some in Hc as [[<- <-]|[Hne Hc]]; [right; exists b, c1; by split_and!|]. left. exists c. split_and!; [done..|].
    destruct Hp as [Hp|[Hp|Hp]]; [by left|by right; left|]. cbn in Hp. apply elem_of_cons in Hp as [->|Hp]; [done|]. right; right.
    eapply displaced_slots; [|apply (ko_slots _ Hk)|exact Hp]. intros Hin. apply (ko_held _ Hk) in Hin as (c' & Hc' & [Hx|Hx]); congruence.
  - left. destruct (rollback_cases x w) as [(e & He)|(c1 & p & Hc1 & Ha & Hl & Ht & Hw & _)].
    { intros p Hl. by destruct (slots_last _ _ Hk Hl) as (c1 & -> & _). }
    { rewrite He in *; eauto. }
    unfold was_promoted in Hp. rewrite Hw in Hc, Hp. cbn in Hc.
    apply lookup_insert_Some in Hc as [[<- <-]|[Hne Hc]].
    + exists c1. split_and!; [done..|]. right; right. unfold slots. rewrite Ha. by left.
    + exists c. split_and!; [done..|]. destruct Hp as [Hp|[Hp|Hp]]; [by left|by right; left|]. right; right.
      unfold slots. apply elem_of_app. right. rewrite (last_removelast _ _ Hl), elem_of_app, list_elem_of_singleton.
      cbn in Hp. apply elem_of_cons in Hp as [->|Hp]; [by right|by left].
  - left. destruct (retire_cases x r w) as [(e & He)|(c1 & Hc1 & Ha & Ht & Hw & _)]; [rewrite He in *; eauto|].
    unfold was_promoted in Hp. rewrite Hw in Hc, Hp. cbn in Hc. change (slots (put_candidate _ _ _)) with (slots (store w)) in Hp.
    apply lookup_insert_Some in Hc as [[<- <-]|[_ Hc]]; [|by eauto]. exists c1. split_and!; [done..|]. right; right.
    by destruct Hp as [Hp|[Hp|Hp]].
Qed.

Lemma promoted_run ops w id c : starts w -> cands (run ops w) !! id = Some c -> was_promoted (run ops w) id c ->
  promoted_by ops w id (manifest c).
Proof.
  intros Hs. pose proof Hs as (H0' & _ & _ & Hi). revert c. induction ops as [|o ops IH] using rev_ind; intros c Hc Hp.
  - cbn in Hc. by rewrite H0' in Hc.
  - rewrite kernel_run_snoc in Hc, Hp. destruct (kernel_run ops w Hs) as [Hk Hu].
    destruct (promoted_step o _ id c Hk ltac:(by rewrite Hu) Hc Hp) as [(c0 & Hc0 & <- & Hp0)|(b & c0 & -> & Hc0 & Hg & Hm & Hr)].
    + by apply promoted_snoc, IH.
    + exists ops, b, [], c0. by split_and!.
Qed.

(** C15: a kernel is only booted from a candidate that an authority signed: in
    every run from an empty driver whose identifiers are fresh, every candidate
    carries a signature over the canonical bytes of its manifest that the trusted
    authority it names verifies; the active candidate and those it displaced are
    distinct, at most nine, and were each activated by an operation that found
    them past the gate and, where the manifest asks for it, the host in recovery.
    And an activation can be taken back: as long as fewer than eight displaced
    candidates are kept and the active one is promoted (not retired), a rollback
    of what was activated over it restores it, and the stack below it.
    (Trusted authorities are walked in any order.) *)
Theorem kernel_slots_governed ops w : starts w -> (forall m, walk m ≡ₚ map_to_list m) ->
  let v := run ops w in
  (forall id c, cands v !! id = Some c -> exists body key, canonical_manifest_body_bytes (manifest c) = Ok body /\
     trusted_authorities (store v) !! signing_authority c = Some key /\
     verify key body (signature_ed25519 c) = true) /\
  NoDup (slots (store v)) /\ length (slots (store v)) <= S ROLLBACK_STACK_CAPACITY /\
  (forall id, id ∈ slots (store v) -> exists c, cands v !! id = Some c /\ promoted_by ops w id (manifest c)) /\
  (forall b id p, active_id (store v) = Some p ->
     KernelCandidate.state <$> cands v !! p = Some APromoted -> length (rollback_stack (store v)) < ROLLBACK_STACK_CAPACITY ->
     exec (Activate b id) v <> v ->
     let u := exec (RollBack id) (exec (Activate b id) v) in
     active_id (store u) = Some p /\ rollback_stack (store u) = rollback_stack (store v)).
Proof.
  intros Hs Hwalk v. destruct (kernel_run ops w Hs) as [Hk Hu]. fold v in Hk, Hu. split_and!.
  - intros id c Hc. destruct (ko_signed _ Hk _ _ Hc) as (body & Hb & Hd & Hv). exists body.
    unfold verify_manifest_signature in Hv. case_bool_decide; [done|]. destruct (negb _); [done|].
    destruct (find _ _) as [[a key]|] eqn:Hf; [|done]. injection Hv as <-. apply find_some in Hf as [Hin Hver].
    exists key. split_and!; [done| |done]. apply elem_of_map_to_list. rewrite <- Hwalk. by apply list_elem_of_In.
  - apply (ko_slots _ Hk).
  - pose proof (ko_bound _ Hk). unfold slots. rewrite length_app. destruct (active_id _); cbn; lia.
  - intros id Hin. destruct (ko_held _ Hk id Hin) as (c & Hc & _). exists c. split; [done|]. apply promoted_run; [done|done|by right; right].
  - intros b id p Ha _ Hl Hne. cbn [exec] in *. destruct (activate_cases b id v) as [(e & He)|(c & Hc & Hst & _ & Hw & Hu' & _)].
    { exfalso. apply Hne. by rewrite He. }
    assert (String.eqb p id = false) as Hpi.
    { apply String.eqb_neq. intros ->. destruct (ko_held _ Hk id) as (c' & Hc' & [Hx|Hx]); [|congruence..]. unfold slots. rewrite Ha. by left. }
    set (v1 := (activate_candidate em b id v).2) in *.
    assert (rollback_stack (store v1) = rollback_stack (store v) ++ [p]) as Hstack.
    { rewrite Hw. cbn. unfold displaced. rewrite Ha, Hpi. unfold trim_rollback_stack. rewrite length_app. cbn [length].
      unfold ROLLBACK_STACK_CAPACITY in *. by replace (length (rollback_stack (store v)) + 1 - 8) with 0 by lia. }
    destruct (kernel_step (Activate b id) v Hk) as [Hx|[Hk1 _]]; [rewrite Hu; by destruct Hs as (_ & _ & _ & ?)|by destruct Hne|].
    cbn [exec] in Hk1. fold v1 in Hk1.
    assert (active_id (store v1) = Some id /\ cands v1 !! id = Some (KernelCandidate.set_state APromoted c)) as [Ha1 Hc1].
    { rewrite Hw. cbn. by rewrite lookup_insert_eq. }
    destruct (rollback_effect id (KernelCandidate.set_state APromoted c) p v1) as (Hw2 & _); [done|done|by rewrite Hstack, last_snoc| |done|].
    { destruct (slots_last _ p Hk1) as (c' & -> & _); [by rewrite Hstack, last_snoc|done]. }
    rewrite Hw2. cbn. split; [done|]. by rewrite Hstack, removelast_last.
Qed.
End Sound.
End KernelSound.

(** ** On concrete runs *)
Module BootDemo.
Import ChainSound.Demo FirstBootPhase.
#[local] Existing Instance InMemoryRecoveryEvidenceLog.log.
#[local] Instance boot_texts : RecoveryTexts :=
  {| serde_json_to_vec v := Ok (match v with JObject m => pretty (length m) | _ => "v" end);
     recovery_evidence_error_text _ := "seal"; fs_error_text _ := "fs" |}.
(** A boundary that answers what it is. *)
#[local] Instance told : SgrRecoveryHook.RecoveryBoundary bool := {| SgrRecoveryHook.is_recovery_active b := b |}.

Definition world_of {St L} (log : L) (s : St) : RecoveryWorld.t St L :=
  {| store := s; evidence := log; clock := fun n => Z.of_nat n; reads := 0; ulids := fun n => pretty n; drawn := 0 |}.
Definition memory : InMemoryRecoveryEvidenceLog.t :=
  InMemoryRecoveryEvidenceLog.new (fun n => "evr_" +:+ pretty n) (fun n => Z.of_nat n).
Definition emitter : option RecoveryEvidenceEmitter :=
  Some {| recovery_emitter_key := 3%Z : SigningKey; recovery_emitter_subject := AIOS_RECOVERY_SUBJECT |}.

(** *** First boot *)
Import FirstBootDriver FirstBootSound.
Definition boot_world := world_of memory (new "b" 0%Z).
Definition boot_ops : list (Op bool) :=
  [Provision true; Skip StageInstallerMediaVerified "golden image"; Skip StageKernelInstalled "out of order"].

Lemma boot_starts : starts boot_world.
Proof. exists "b", 0%Z. reflexivity. Defined.
Lemma first_boot_sound_witness :
  length (FirstBootContext.performed_phases (state (store (run emitter boot_ops boot_world)))) = 1 /\
  match run_provisioning emitter false (run emitter boot_ops boot_world) with
  | (Ok c, u) => FirstBootContext.performed_phases c = FIRST_BOOT_PROVISIONING_PHASES /\ skipped_phases (store u) = [StageInstallerMediaVerified]
  | (Err e, _) => lost emitter e
  end.
Proof.
  split; [vm_compute; reflexivity|].
  destruct (first_boot_sound emitter boot_ops boot_world boot_starts) as (_ & Hp & _).
  specialize (Hp false ltac:(vm_compute; reflexivity) eq_refl ltac:(vm_compute; repeat constructor)).
  destruct (run_provisioning emitter false _) as [[c|e] u] eqn:Hr; [|exact Hp].
  split; [exact (proj1 (proj2 Hp))|]. vm_compute in Hr. injection Hr as <- <-. vm_compute. reflexivity.
Defined.

(** A log that loses one receipt. *)
#[local] Instance flaky : RecoveryEvidenceLog (nat * nat) :=
  {| recovery_append_signed b key _ l :=
       (if Nat.eqb l.1 l.2 then Err (EncodingFailed "disk") else Receipt.seal_signed "evr" 0%Z b None key, (S l.1, l.2)) |}.
(** The receipt of the last stage is lost: every stage is performed, the status is
    in progress, and neither operation completes it ever after. *)
Example lost_receipt_wedges_first_boot :
  let v := run emitter [Provision false] (world_of (0, 14) (new "b" 0%Z)) in
  FirstBootContext.performed_phases (state (store v)) = FIRST_BOOT_PROVISIONING_PHASES /\
  FirstBootContext.status (state (store v)) = FirstBootStatus.InProgress /\
  (run_provisioning emitter false v).1 = Err (RecoveryError.InvalidPhaseTransition StageFirstBootComplete StageFirstBootComplete) /\
  (mark_complete emitter false v).1 = Err (RecoveryError.InvalidPhaseTransition StageFirstBootComplete StageFirstBootComplete).
Proof. vm_compute. by split_and!. Qed.

(** Every stage is skipped, whatever the recovery boundary says, and the first boot
    is complete. *)
Example skipped_first_boot_completes :
  let v := run emitter (((fun p => Skip p "") <$> take 13 FIRST_BOOT_PROVISIONING_PHASES) ++ [Complete false]) boot_world in
  FirstBootContext.status (state (store v)) = FirstBootStatus.Completed.
Proof. vm_compute. reflexivity. Qed.

(** A failed first boot fails once more. *)
Example failed_boot_fails_again :
  let v := run emitter [Fail StageInstallerMediaVerified "x"; Fail StageFailedRequiresRecovery "y"] boot_world : RecoveryWorld.t FirstBootDriver.t _ in
  FirstBootContext.performed_phases (state (store v)) =
    [StageInstallerMediaVerified; StageFailedRequiresRecovery; StageFailedRequiresRecovery; StageFailedRequiresRecovery].
Proof. vm_compute. reflexivity. Qed.
End BootDemo.

Module KernelDemo.
Import ChainSound.Demo BootDemo KernelPipelineDriver KernelSound.
#[local] Existing Instance InMemoryRecoveryEvidenceLog.log.
#[local] Existing Instance boot_texts.
#[local] Existing Instance told.

Definition kernel_world := world_of memory (with_trusted_authority "release" (3%Z : VerifyingKey) new).
Definition manifest_of (version : string) (recovery : bool) : KernelManifest.t :=
  {| KernelManifest.version := version; KernelManifest.min_aios_version := "1"; KernelManifest.requires_recovery_install := recovery;
     KernelManifest.verification_intent := None; KernelManifest.tags := [] |}.
Abbreviation walk := (map_to_list (M := gmap string VerifyingKey)).

Definition by_release : list Z := sign (3%Z : SigningKey) "5".
Definition installed (n : nat) (recovery : bool) : list (Op (B := bool)) :=
  [Register (manifest_of (pretty n) recovery) by_release; Verify ("kc_" +:+ pretty n); Activate recovery ("kc_" +:+ pretty n)].
Definition kernel_ops : list (Op (B := bool)) :=
  installed 0 false ++ [Register (manifest_of "forged" false) (replicate 64 0%Z)] ++ installed 1 true.

Lemma kernel_starts : starts kernel_world.
Proof. split; [reflexivity|]. split; [reflexivity|]. split; [reflexivity|]. intros i j Hij. by apply (inj pretty) in Hij. Defined.
Example demo_kernels :
  let v := run emitter walk kernel_ops kernel_world in
  active_id (store v) = Some "kc_1" /\ rollback_stack (store v) = ["kc_0"] /\ length (list_candidates (store v)) = 2 /\
  (activate_candidate emitter false "kc_1" (run emitter walk (take 6 kernel_ops) kernel_world)).1 = Err RecoveryError.RecoveryNotActive.
Proof. vm_compute. by split_and!. Qed.

Lemma kernel_slots_governed_witness :
  slots (store (run emitter walk kernel_ops kernel_world)) = ["kc_1"; "kc_0"] /\
  exists c, candidates (store (run emitter walk kernel_ops kernel_world)) !! "kc_1" = Some c /\
    promoted_by emitter walk kernel_ops kernel_world "kc_1" (KernelCandidate.manifest c).
Proof.
  assert (slots (store (run emitter walk kernel_ops kernel_world)) = ["kc_1"; "kc_0"]) as Hs by (vm_compute; reflexivity).
  split; [exact Hs|].
  destruct (kernel_slots_governed emitter walk kernel_ops kernel_world kernel_starts (fun m => Permutation_refl _))
    as (_ & _ & _ & Hp & _).
  apply Hp. rewrite Hs. left.
Defined.

(** A candidate on the rollback stack is retired, and a rollback boots it; it can
    then not be rolled back. *)
Example rollback_restores_retired :
  let v := run emitter walk (kernel_ops ++ [Retire "kc_0" "archived"; RollBack "kc_1"]) kernel_world in
  KernelCandidate.state <$> get_active (store v) = Some CandidateState.Retired /\
  (rollback_candidate emitter "kc_0" v).1 = Err (RecoveryError.InvalidCandidateTransition CandidateState.Retired CandidateState.Rollback).
Proof. vm_compute. by split. Qed.
End KernelDemo.
