(* ===== verification/SelfHealing.v ===== *)
(** * Self-healing (crate [aios-recovery])

    The policies, trackers and panics ([self_healing.rs]), the registry of
    components ([registry.rs]), the watchdog ([watchdog.rs]), the commands
    ([ipc.rs]) and the driver over the recovery boundary
    ([self_healing_driver.rs]).  The boundary, the monotonic clock of the watchdog
    and what a component does with a command are arguments of the operations.  An
    operation can fail, wait for ever on a component, or panic ([Stop]). *)
From S2P Require Import Prelude Json Records Redaction Receipt ChainSound StateError DispatchQueue SgrRuntime Recovery.
Import RecoveryWorld.

(** ** Vocabularies and policies ([self_healing.rs]) *)
Definition SELF_HEALING_SUBJECT : string := "_system:service:self-healing".

Module ComponentIsolationLevel.
Inductive t : Type := Critical | Important | Replaceable.
#[global] Instance eq_dec : EqDecision t.
Proof. solve_decision. Defined.
Definition default_level : t := Replaceable.
Definition rank (l : t) : nat := match l with Replaceable => 0 | Important => 1 | Critical => 2 end.
Definition may_restart (l : t) : bool := match l with Critical => false | _ => true end.
Definition may_kill_and_replace (l : t) : bool := match l with Replaceable => true | _ => false end.
Definition requires_escalation (l : t) : bool := match l with Critical => true | _ => false end.
(** [>=]. *)
Definition ge (x y : t) : bool := Nat.leb (rank y) (rank x).
Definition debug (l : t) : string :=
  match l with Critical => "Critical" | Important => "Important" | Replaceable => "Replaceable" end.
End ComponentIsolationLevel.

Module RestartBoundary.
Inductive t : Type := ProcessLocal | MeshLocal | SystemWide.
Definition default_boundary : t := ProcessLocal.
Definition debug (b : t) : string :=
  match b with ProcessLocal => "ProcessLocal" | MeshLocal => "MeshLocal" | SystemWide => "SystemWide" end.
End RestartBoundary.

Module ComponentHealthState.
Inductive t : Type := Healthy | Degraded | Failed | Unknown.
#[global] Instance eq_dec : EqDecision t.
Proof. solve_decision. Defined.
Definition needs_intervention (s : t) : bool := match s with Degraded | Failed => true | _ => false end.
Definition is_terminal (s : t) : bool := match s with Failed => true | _ => false end.
Definition debug (s : t) : string :=
  match s with Healthy => "Healthy" | Degraded => "Degraded" | Failed => "Failed" | Unknown => "Unknown" end.
Definition wire (s : t) : string :=
  match s with Healthy => "HEALTHY" | Degraded => "DEGRADED" | Failed => "FAILED" | Unknown => "UNKNOWN" end.
End ComponentHealthState.
Import ComponentHealthState(needs_intervention, is_terminal).

Module HealActionKind.
Inductive t : Type := Restart | Failover | Isolate | Escalate.
#[global] Instance eq_dec : EqDecision t.
Proof. solve_decision. Defined.
Definition debug (k : t) : string :=
  match k with Restart => "Restart" | Failover => "Failover" | Isolate => "Isolate" | Escalate => "Escalate" end.
Definition wire (k : t) : string :=
  match k with Restart => "RESTART" | Failover => "FAILOVER" | Isolate => "ISOLATE" | Escalate => "ESCALATE" end.
End HealActionKind.

Definition scope_wire (s : RecoveryMutableScope.t) : string :=
  match s with
  | RecoveryMutableScope.ProcessLifecycle => "PROCESS_LIFECYCLE" | RecoveryMutableScope.NetworkReconfig => "NETWORK_RECONFIG"
  | RecoveryMutableScope.FilesystemMutation => "FILESYSTEM_MUTATION" | RecoveryMutableScope.SysctlTuning => "SYSCTL_TUNING"
  | RecoveryMutableScope.MeshRouting => "MESH_ROUTING"
  end.

Module HealAction.
Record t : Type := {
  component_id : string;
  observed_state : ComponentHealthState.t;
  action_kind : HealActionKind.t;
  required_scope : RecoveryMutableScope.t;
  reason : string;
  decided_at : DateTime;
  sequence : Z;
}.
End HealAction.

Module RestartPolicy.
Record t : Type := {
  max_retries : Z;
  backoff_seconds_base : F64.t;
  backoff_cap_seconds : F64.t;
  reset_on_healthy : bool;
  escalate_after : option ComponentIsolationLevel.t;
}.
Definition default_policy : t :=
  {| max_retries := 3; backoff_seconds_base := F64.of_Z 1; backoff_cap_seconds := F64.of_Z 60;
     reset_on_healthy := true; escalate_after := None |}.
Definition minix_style (n : Z) : t :=
  {| max_retries := n; backoff_seconds_base := F64.zero; backoff_cap_seconds := F64.zero;
     reset_on_healthy := true; escalate_after := None |}.
Definition conservative (n : Z) : t :=
  {| max_retries := n; backoff_seconds_base := F64.of_Z 2; backoff_cap_seconds := F64.of_Z 300;
     reset_on_healthy := true; escalate_after := None |}.
Definition backoff_for_attempt (p : t) (attempt : Z) : option F64.t :=
  if (max_retries p <? attempt)%Z then None
  else if F64.le (backoff_seconds_base p) F64.zero || F64.le (backoff_cap_seconds p) F64.zero then Some F64.zero
  else
    let raw := F64.mul (backoff_seconds_base p) (F64.of_Z (Z.max 0 (2 - attempt))) in
    Some (F64.min raw (backoff_cap_seconds p)).
End RestartPolicy.

Module ComponentHealingConfig.
Record t : Type := {
  display_name : string;
  restart_policy : RestartPolicy.t;
  allowed_scopes : list RecoveryMutableScope.t;
  allowed_capabilities : list HealingCapability.t;
  isolation_level : ComponentIsolationLevel.t;
  restart_boundary : RestartBoundary.t;
  component_type : option string;
}.
Definition capabilities_for_action (k : HealActionKind.t) : list HealingCapability.t :=
  match k with
  | HealActionKind.Restart | HealActionKind.Failover => [HealingCapability.CanRestartProcess]
  | HealActionKind.Isolate => [HealingCapability.CanIsolateMeshNode]
  | HealActionKind.Escalate => [HealingCapability.CanEscalateToOperator]
  end.
End ComponentHealingConfig.

Module SelfHealingPolicy.
Record t : Type := {
  enabled : bool;
  minimum_mode : RecoveryMode.t;
  component_policies : gmap string ComponentHealingConfig.t;
  default_policy : RestartPolicy.t;
}.
Definition default_ : t :=
  {| enabled := false; minimum_mode := RecoveryMode.Recovery; component_policies := ∅;
     default_policy := RestartPolicy.default_policy |}.
Definition config_for_component (p : t) (id : string) : option ComponentHealingConfig.t := component_policies p !! id.
Definition policy_for_component (p : t) (id : string) : RestartPolicy.t :=
  match component_policies p !! id with Some c => ComponentHealingConfig.restart_policy c | None => default_policy p end.
Definition scopes_for_component (p : t) (id : string) : list RecoveryMutableScope.t :=
  match component_policies p !! id with Some c => ComponentHealingConfig.allowed_scopes c | None => [] end.
Definition validate (p : t) : result RecoveryError.t () :=
  if bool_decide (minimum_mode p = RecoveryMode.Normal) && negb (bool_decide (component_policies p = ∅))
  then Err (RecoveryError.Internal "self-healing policy must not permit Normal-mode mutations (INV-012)")
  else Ok ().
End SelfHealingPolicy.

(** ** Trackers, snapshots and panics *)
Module ComponentHealingTracker.
Record t : Type := {
  consecutive_failures : Z;
  total_actions : Z;
  last_action_at : option DateTime;
  last_observed_state : ComponentHealthState.t;
  checkpoint_hash : option string;
  checkpoint_timestamp : option DateTime;
}.
Definition default_ : t :=
  {| consecutive_failures := 0; total_actions := 0; last_action_at := None;
     last_observed_state := ComponentHealthState.Unknown; checkpoint_hash := None; checkpoint_timestamp := None |}.
Definition record_observation (s : ComponentHealthState.t) (k : t) : t :=
  {| consecutive_failures :=
       if needs_intervention s then u32_saturating_add (consecutive_failures k) 1
       else if bool_decide (s = ComponentHealthState.Healthy) then 0 else consecutive_failures k;
     total_actions := total_actions k; last_action_at := last_action_at k; last_observed_state := s;
     checkpoint_hash := checkpoint_hash k; checkpoint_timestamp := checkpoint_timestamp k |}.
Definition record_action (now : DateTime) (k : t) : t :=
  {| consecutive_failures := consecutive_failures k; total_actions := u64_saturating_add (total_actions k) 1;
     last_action_at := Some now; last_observed_state := last_observed_state k;
     checkpoint_hash := checkpoint_hash k; checkpoint_timestamp := checkpoint_timestamp k |}.
Definition record_panic (now : DateTime) (k : t) : t :=
  {| consecutive_failures := u32_saturating_add (consecutive_failures k) 1;
     total_actions := u64_saturating_add (total_actions k) 1; last_action_at := Some now;
     last_observed_state := ComponentHealthState.Failed;
     checkpoint_hash := checkpoint_hash k; checkpoint_timestamp := checkpoint_timestamp k |}.
Definition set_checkpoint (hash : string) (at_ : DateTime) (k : t) : t :=
  {| consecutive_failures := consecutive_failures k; total_actions := total_actions k;
     last_action_at := last_action_at k; last_observed_state := last_observed_state k;
     checkpoint_hash := Some hash; checkpoint_timestamp := Some at_ |}.
End ComponentHealingTracker.

Module ComponentSnapshot.
Record t : Type := {
  component_id : string;
  checkpoint_hash : string;
  config_blob_hex : string;
  captured_at : DateTime;
}.
End ComponentSnapshot.

Module PanicSeverity.
Inductive t : Type := Unwind | Abort | Oom | SigFault | Unknown.
Definition is_recoverable_by_restart (s : t) : bool := match s with Unwind | Abort => true | _ => false end.
Definition requires_escalation (s : t) : bool := match s with Oom | SigFault => true | _ => false end.
Definition wire (s : t) : string :=
  match s with Unwind => "UNWIND" | Abort => "ABORT" | Oom => "OOM" | SigFault => "SIG_FAULT" | Unknown => "UNKNOWN" end.
End PanicSeverity.

Module PanicContext.
Record t : Type := {
  component_id : string;
  severity : PanicSeverity.t;
  message : string;
  file : option string;
  line : option Z;
  backtrace_hash : option string;
  core_dump_ref : option string;
  observed_at : DateTime;
  consecutive_panics : Z;
}.
End PanicContext.

(** ** The registry of components ([registry.rs]) *)
Module RegistryEntry.
Record t : Type := {
  component_id : string;
  display_name : string;
  component_type : option string;
  dependencies : list string;
  expected_initial_state : ComponentHealthState.t;
  isolation_level : ComponentIsolationLevel.t;
}.
Definition new (id name : string) : t :=
  {| component_id := id; display_name := name; component_type := None; dependencies := [];
     expected_initial_state := ComponentHealthState.Healthy; isolation_level := ComponentIsolationLevel.default_level |}.
Definition with_type (ty : string) (e : t) : t :=
  {| component_id := component_id e; display_name := display_name e; component_type := Some ty;
     dependencies := dependencies e; expected_initial_state := expected_initial_state e; isolation_level := isolation_level e |}.
Definition with_expected_initial_state (s : ComponentHealthState.t) (e : t) : t :=
  {| component_id := component_id e; display_name := display_name e; component_type := component_type e;
     dependencies := dependencies e; expected_initial_state := s; isolation_level := isolation_level e |}.
Definition with_isolation_level (l : ComponentIsolationLevel.t) (e : t) : t :=
  {| component_id := component_id e; display_name := display_name e; component_type := component_type e;
     dependencies := dependencies e; expected_initial_state := expected_initial_state e; isolation_level := l |}.
Definition with_dependencies (ds : list string) (e : t) : t :=
  {| component_id := component_id e; display_name := display_name e; component_type := component_type e;
     dependencies := ds; expected_initial_state := expected_initial_state e; isolation_level := isolation_level e |}.
End RegistryEntry.

Module ComponentRegistry.
Definition t : Type := gmap string RegistryEntry.t.
Definition new : t := ∅.
Definition register (e : RegistryEntry.t) (r : t) : t := <[RegistryEntry.component_id e := e]> r.
Definition from_entries (es : list RegistryEntry.t) : t := fold_left (fun r e => register e r) es new.
Definition deregister (id : string) (r : t) : option RegistryEntry.t * t := (r !! id, delete id r).
Definition resolve (r : t) (id : string) : option RegistryEntry.t := r !! id.
Definition dependencies_of (r : t) (id : string) : list string :=
  match resolve r id with Some e => RegistryEntry.dependencies e | None => [] end.
Definition isolation_level_of (r : t) (id : string) : ComponentIsolationLevel.t :=
  match resolve r id with Some e => RegistryEntry.isolation_level e | None => ComponentIsolationLevel.default_level end.
Definition len (r : t) : nat := size r.
Definition is_empty (r : t) : bool := Nat.eqb (len r) 0.
(** [walk] is the order of the [HashMap]. *)
Definition all_entries (walk : t -> list (string * RegistryEntry.t)) (r : t) : list RegistryEntry.t := snd <$> walk r.
Definition dependents_of (walk : t -> list (string * RegistryEntry.t)) (r : t) (id : string) : list string :=
  fst <$> filter (fun e => id ∈ RegistryEntry.dependencies e.2) (walk r).
End ComponentRegistry.

(** ** The watchdog ([watchdog.rs]) *)
Module WatchdogPolicy.
Record t : Type := {
  enabled : bool;
  default_timeout_secs : Z;
  component_timeouts : gmap string Z;
}.
Definition default_ : t := {| enabled := false; default_timeout_secs := 30; component_timeouts := ∅ |}.
(** In seconds. *)
Definition timeout_for (p : t) (id : string) : Z := default (default_timeout_secs p) (component_timeouts p !! id).
End WatchdogPolicy.

(** ** Commands ([ipc.rs]) *)
Module HealCommand.
Inductive t : Type :=
| Shutdown (grace_period_seconds : Z) | RestartInstant | Isolate (redirect_target : option string) | Checkpoint (state_hash : string).
End HealCommand.
Module HealCommandResponse.
Inductive t : Type := Ack (context : string) | Nack (reason : string) | Timeout.
End HealCommandResponse.
(** What a component with a channel does with a command: it answers, drops the
    channel or the command, or does neither. *)
Module Reception.
Inductive t : Type := Answers (r : HealCommandResponse.t) | Drops | Hangs.
End Reception.

Module Stop.
Inductive t : Type := Raised (e : RecoveryError.t) | Waits | Panicked.
End Stop.

(** ** The driver ([self_healing_driver.rs]) *)
Module HealExecutionResult.
Record t : Type := {
  component_id : string;
  action_kind : HealActionKind.t;
  success : bool;
  receipt_id : option string;
  detail : string;
}.
End HealExecutionResult.
Module HealCycleResult.
Record t : Type := {
  components_evaluated : nat;
  actions_decided : nat;
  actions_executed : nat;
  actions_failed : nat;
  started_at : DateTime;
  completed_at : DateTime;
}.
End HealCycleResult.

Module InMemorySelfHealingDriver.
Import HealAction.
Section Ops.
Context {L : Type} `{RecoveryEvidenceLog L} `{!RecoveryTexts}.
Variable evidence_emitter : option RecoveryEvidenceEmitter.
(** The order of a [HashMap], and the last second an [Instant] can be in. *)
Variable walk : forall A, gmap string A -> list (string * A).
Variable last_second : Z.

Record t : Type := {
  policy : SelfHealingPolicy.t;
  health_registry : gmap string ComponentHealthState.t;
  trackers : gmap string ComponentHealingTracker.t;
  command_channels : gset string;
  registry : option ComponentRegistry.t;
  watchdog_policy : WatchdogPolicy.t;
  deadlines : gmap string Z;
  global_sequence : Z;
}.
Abbreviation W := (RecoveryWorld.t t L).
Abbreviation M := (M W Stop.t).
Abbreviation Boundary := InMemoryRecoveryBoundary.t.

Definition new : t :=
  {| policy := SelfHealingPolicy.default_; health_registry := ∅; trackers := ∅; command_channels := ∅; registry := None;
     watchdog_policy := WatchdogPolicy.default_; deadlines := ∅; global_sequence := 0 |}.
Definition put_policy (p : SelfHealingPolicy.t) (d : t) : t :=
  {| policy := p; health_registry := health_registry d; trackers := trackers d; command_channels := command_channels d;
     registry := registry d; watchdog_policy := watchdog_policy d; deadlines := deadlines d; global_sequence := global_sequence d |}.
Definition put_health (id : string) (s : ComponentHealthState.t) (d : t) : t :=
  {| policy := policy d; health_registry := <[id := s]> (health_registry d); trackers := trackers d;
     command_channels := command_channels d; registry := registry d; watchdog_policy := watchdog_policy d;
     deadlines := deadlines d; global_sequence := global_sequence d |}.
Definition put_tracker (id : string) (k : ComponentHealingTracker.t) (d : t) : t :=
  {| policy := policy d; health_registry := health_registry d; trackers := <[id := k]> (trackers d);
     command_channels := command_channels d; registry := registry d; watchdog_policy := watchdog_policy d;
     deadlines := deadlines d; global_sequence := global_sequence d |}.
Definition put_channel (id : string) (d : t) : t :=
  {| policy := policy d; health_registry := health_registry d; trackers := trackers d;
     command_channels := {[id]} ∪ command_channels d; registry := registry d; watchdog_policy := watchdog_policy d;
     deadlines := deadlines d; global_sequence := global_sequence d |}.
Definition put_watchdog_policy (p : WatchdogPolicy.t) (d : t) : t :=
  {| policy := policy d; health_registry := health_registry d; trackers := trackers d; command_channels := command_channels d;
     registry := registry d; watchdog_policy := p; deadlines := deadlines d; global_sequence := global_sequence d |}.
Definition put_deadline (id : string) (at_ : Z) (d : t) : t :=
  {| policy := policy d; health_registry := health_registry d; trackers := trackers d; command_channels := command_channels d;
     registry := registry d; watchdog_policy := watchdog_policy d; deadlines := <[id := at_]> (deadlines d);
     global_sequence := global_sequence d |}.
Definition put_sequence (n : Z) (d : t) : t :=
  {| policy := policy d; health_registry := health_registry d; trackers := trackers d; command_channels := command_channels d;
     registry := registry d; watchdog_policy := watchdog_policy d; deadlines := deadlines d; global_sequence := n |}.
Definition with_registry (r : ComponentRegistry.t) (d : t) : t :=
  {| policy := policy d; health_registry := health_registry d; trackers := trackers d; command_channels := command_channels d;
     registry := Some r; watchdog_policy := watchdog_policy d; deadlines := deadlines d; global_sequence := global_sequence d |}.

Definition with_watchdog_policy (p : WatchdogPolicy.t) (d : t) : t :=
  {| policy := policy d; health_registry := health_registry d; trackers := trackers d; command_channels := command_channels d;
     registry := registry d; watchdog_policy := p; deadlines := ∅; global_sequence := global_sequence d |}.

(** Programs that do not wait or panic, in the monad of those that can. *)
Definition raising {A} (m : StateError.M W RecoveryError.t A) : M A := fun w =>
  match m w with (Ok a, w) => (Ok a, w) | (Err e, w) => (Err (Stop.Raised e), w) end.
Definition driver : M t := raising state_get.
Definition now_utc : M DateTime := raising utc_now.
Definition change (f : t -> t) : M () := modify (fun w => set_store (f (store w)) w).

Definition set_policy (p : SelfHealingPolicy.t) : M () :=
  let! _ := raising (lift (SelfHealingPolicy.validate p)) in
  change (put_policy p).
Definition tracker_for (id : string) (d : t) : ComponentHealingTracker.t :=
  default ComponentHealingTracker.default_ (trackers d !! id).
Definition health_snapshot (d : t) : gmap string ComponentHealthState.t := health_registry d.

(** *** Observations *)
Definition observe_health (id : string) (s : ComponentHealthState.t) : M () :=
  let! _ := change (put_health id s) in
  change (fun d => put_tracker id (ComponentHealingTracker.record_observation s (tracker_for id d)) d).

Definition panic_payload (c : PanicContext.t) : json :=
  JObject [at_text "component_id" (PanicContext.component_id c);
           at_text "severity" (PanicSeverity.wire (PanicContext.severity c)); at_text "message" (PanicContext.message c);
           ("file", or_null_text (PanicContext.file c));
           ("line", match PanicContext.line c with Some n => JInt n | None => JNull end);
           ("backtrace_hash", or_null_text (PanicContext.backtrace_hash c));
           ("core_dump_ref", or_null_text (PanicContext.core_dump_ref c)); at_time "observed_at" (PanicContext.observed_at c);
           ("consecutive_panics", JInt (PanicContext.consecutive_panics c));
           ("recoverable_by_restart", JBool (PanicSeverity.is_recoverable_by_restart (PanicContext.severity c)));
           ("requires_escalation", JBool (PanicSeverity.requires_escalation (PanicContext.severity c)))].
Definition observe_panic (c : PanicContext.t) : M string :=
  let id := PanicContext.component_id c in
  let! _ := change (put_health id ComponentHealthState.Failed) in
  let! now := now_utc in
  let! _ := change (fun d => put_tracker id (ComponentHealingTracker.record_panic now (tracker_for id d)) d) in
  match evidence_emitter with
  | Some em => raising (emit_receipt em RecordType.RecoveryOperationPerformed (panic_payload c))
  | None => ret ("panic-" +:+ id +:+ "-" +:+ pretty (PanicContext.consecutive_panics c))
  end.

(** *** Snapshots *)
Fixpoint hex_encode (s : string) : string :=
  match s with EmptyString => "" | String a s => hex_byte (Z.of_N (Ascii.N_of_ascii a)) +:+ hex_encode s end.
Definition take_snapshot (id config_blob : string) : M ComponentSnapshot.t :=
  let hash := blake3_to_hex config_blob in
  let! captured := now_utc in
  let! now := now_utc in
  let! _ := change (fun d => put_tracker id (ComponentHealingTracker.set_checkpoint hash now (tracker_for id d)) d) in
  ret {| ComponentSnapshot.component_id := id; ComponentSnapshot.checkpoint_hash := hash;
         ComponentSnapshot.config_blob_hex := hex_encode config_blob; ComponentSnapshot.captured_at := captured |}.
Definition restore_snapshot (s : ComponentSnapshot.t) : M bool :=
  let id := ComponentSnapshot.component_id s in
  let! d := driver in
  let! _ := change (fun d => put_tracker id
    (ComponentHealingTracker.set_checkpoint (ComponentSnapshot.checkpoint_hash s) (ComponentSnapshot.captured_at s) (tracker_for id d)) d) in
  ret (is_some (trackers d !! id)).

(** *** The watchdog: [now] is [Instant::now()], in nanoseconds *)
Definition set_watchdog_policy (p : WatchdogPolicy.t) : M () := change (put_watchdog_policy p).
Definition refresh_deadline (now : Z) (id : string) : M () :=
  let! d := driver in
  let at_ := (now + seconds (WatchdogPolicy.timeout_for (watchdog_policy d) id))%Z in
  if (last_second <? at_ / 1000000000)%Z then throw Stop.Panicked else change (put_deadline id at_).
Definition register_watchdog (now : Z) (id : string) : M () := refresh_deadline now id.
Definition ping_watchdog (now : Z) (id : string) : M () := refresh_deadline now id.
Definition check_deadlines (now : Z) (d : t) : list string :=
  if WatchdogPolicy.enabled (watchdog_policy d)
  then fst <$> filter (fun e => (e.2 <=? now)%Z = true) (walk Z (deadlines d))
  else [].
Fixpoint observe_all (ids : list string) (s : ComponentHealthState.t) : M () :=
  match ids with
  | [] => ret ()
  | id :: ids => let! _ := observe_health id s in observe_all ids s
  end.
Definition watchdog_check (now : Z) : M () :=
  let! d := driver in observe_all (check_deadlines now d) ComponentHealthState.Degraded.

(** *** Commands: [reception] is what the components do *)
Definition register_command_channel (id : string) (capacity : Z) : M () :=
  if Z.eqb capacity 0 then throw Stop.Panicked else change (put_channel id).
Definition deliver_heal_command (reception : string -> HealCommand.t -> Reception.t) (id : string) (c : HealCommand.t)
    : M (option HealCommandResponse.t) :=
  let! d := driver in
  if bool_decide (id ∈ command_channels d)
  then match reception id c with
       | Reception.Answers r => ret (Some r)
       | Reception.Drops => ret None
       | Reception.Hangs => throw Stop.Waits
       end
  else ret None.

(** *** Decisions *)
Definition next_sequence : M Z :=
  let! _ := change (fun d => put_sequence (u64_wrap (global_sequence d + 1)) d) in
  let! d := driver in
  ret (global_sequence d).

Definition isolation_of (d : t) (id : string) : ComponentIsolationLevel.t :=
  match registry d with
  | Some r => ComponentRegistry.isolation_level_of r id
  | None =>
      match SelfHealingPolicy.config_for_component (policy d) id with
      | Some c => ComponentHealingConfig.isolation_level c
      | None => ComponentIsolationLevel.default_level
      end
  end.
Definition boundary_of (d : t) (id : string) : RestartBoundary.t :=
  match SelfHealingPolicy.config_for_component (policy d) id with
  | Some c => ComponentHealingConfig.restart_boundary c
  | None => RestartBoundary.default_boundary
  end.
Definition kind_for (rp : RestartPolicy.t) (scopes : list RecoveryMutableScope.t) (isolation : ComponentIsolationLevel.t)
    (s : ComponentHealthState.t) (attempt : Z) : HealActionKind.t :=
  let kind :=
    if (RestartPolicy.max_retries rp <? attempt)%Z then HealActionKind.Escalate
    else if is_terminal s && (RestartPolicy.max_retries rp / 2 <? attempt)%Z
    then if bool_decide (RecoveryMutableScope.MeshRouting ∈ scopes) then HealActionKind.Failover else HealActionKind.Isolate
    else HealActionKind.Restart in
  let kind :=
    if bool_decide (kind = HealActionKind.Restart) && ComponentIsolationLevel.requires_escalation isolation
    then HealActionKind.Escalate else kind in
  match RestartPolicy.escalate_after rp with
  | Some threshold => if ComponentIsolationLevel.ge isolation threshold then HealActionKind.Escalate else kind
  | None => kind
  end.

Definition decide_for_component (id : string) (s : ComponentHealthState.t) (tracker : ComponentHealingTracker.t)
    : M (option HealAction.t) :=
  if negb (needs_intervention s) then ret None
  else
    let! d := driver in
    let rp := SelfHealingPolicy.policy_for_component (policy d) id in
    let scopes := SelfHealingPolicy.scopes_for_component (policy d) id in
    let isolation := isolation_of d id in
    let boundary := RestartBoundary.debug (boundary_of d id) in
    if ComponentIsolationLevel.requires_escalation isolation
    then
      let! n := next_sequence in
      let! now := now_utc in
      ret (Some {| component_id := id; observed_state := s; action_kind := HealActionKind.Escalate;
                   required_scope := RecoveryMutableScope.ProcessLifecycle;
                   reason := "component=" +:+ id +:+ " isolation_level=Critical restart_boundary=" +:+ boundary
                             +:+ " — escalation required";
                   decided_at := now; sequence := n |})
    else
      let scope := match scopes with sc :: _ => sc | [] => RecoveryMutableScope.ProcessLifecycle end in
      let failures := ComponentHealingTracker.consecutive_failures tracker in
      let attempt := u32_saturating_add failures 1 in
      let kind := kind_for rp scopes isolation s attempt in
      let! n := next_sequence in
      let! now := now_utc in
      ret (Some {| component_id := id; observed_state := s; action_kind := kind; required_scope := scope;
                   reason := "component=" +:+ id +:+ " state=" +:+ ComponentHealthState.debug s
                             +:+ " consecutive_failures=" +:+ pretty failures +:+ " attempt=" +:+ pretty attempt +:+ "/"
                             +:+ pretty (RestartPolicy.max_retries rp) +:+ " isolation_level="
                             +:+ ComponentIsolationLevel.debug isolation +:+ " restart_boundary=" +:+ boundary;
                   decided_at := now; sequence := n |}).

(** *** Evaluation *)
Definition sub_active (b : Boundary) (s : RecoverySubBoundary.t) : bool := InMemoryRecoveryBoundary.is_sub_recovery_active s b.
Definition mode_satisfied (minimum current : RecoveryMode.t) : bool :=
  match minimum with
  | RecoveryMode.Normal => true
  | RecoveryMode.Recovery => bool_decide (current = RecoveryMode.Recovery)
  | RecoveryMode.Degraded =>
      match current with RecoveryMode.Degraded | RecoveryMode.Recovery => true | _ => false end
  | RecoveryMode.FirstBoot => bool_decide (current = RecoveryMode.FirstBoot)
  end.
Definition any_sub_active (b : Boundary) : bool :=
  sub_active b RecoverySubBoundary.Network || sub_active b RecoverySubBoundary.Storage ||
  sub_active b RecoverySubBoundary.Compute || sub_active b RecoverySubBoundary.SystemFull.
Definition evaluation_admitted (p : SelfHealingPolicy.t) (b : Boundary) : bool :=
  SelfHealingPolicy.enabled p &&
  (bool_decide (SelfHealingPolicy.minimum_mode p = RecoveryMode.Normal) ||
   mode_satisfied (SelfHealingPolicy.minimum_mode p) (RecoveryState.mode (InMemoryRecoveryBoundary.current_state b)) ||
   any_sub_active b).
Definition scope_granted (p : SelfHealingPolicy.t) (b : Boundary) (id : string) : bool :=
  bool_decide (SelfHealingPolicy.minimum_mode p = RecoveryMode.Normal) ||
  let scopes := SelfHealingPolicy.scopes_for_component p id in
  match scopes with
  | [] => true
  | _ => existsb (fun sc => match from_mutable_scope sc with Some sub => sub_active b sub | None => false end) scopes
  end.

(** The loop over the states that were read, with the trackers read with them. *)
Fixpoint decide_all (b : Boundary) (trackers : gmap string ComponentHealingTracker.t)
    (states : list (string * ComponentHealthState.t)) : M (list HealAction.t) :=
  match states with
  | [] => ret []
  | (id, s) :: states =>
      let! d := driver in
      if negb (scope_granted (policy d) b id) then decide_all b trackers states
      else
        let! a := decide_for_component id s (default ComponentHealingTracker.default_ (trackers !! id)) in
        let! rest := decide_all b trackers states in
        ret (match a with Some a => a :: rest | None => rest end)
  end.
Definition evaluate (b : Boundary) : M (list HealAction.t) :=
  let! d := driver in
  if negb (evaluation_admitted (policy d) b) then ret []
  else decide_all b (trackers d) (walk ComponentHealthState.t (health_registry d)).

(** *** Execution *)
Definition healing_payload (a : HealAction.t) : json :=
  JObject [at_text "component_id" (component_id a); at_text "observed_state" (ComponentHealthState.wire (observed_state a));
           at_text "action_kind" (HealActionKind.wire (action_kind a)); at_text "required_scope" (scope_wire (required_scope a));
           at_text "reason" (reason a); at_time "decided_at" (decided_at a); ("sequence", JInt (sequence a))].
Definition result_of (a : HealAction.t) (success : bool) (receipt : option string) (detail : string) : HealExecutionResult.t :=
  {| HealExecutionResult.component_id := component_id a; HealExecutionResult.action_kind := action_kind a;
     HealExecutionResult.success := success; HealExecutionResult.receipt_id := receipt; HealExecutionResult.detail := detail |}.
Definition required_sub (a : HealAction.t) : RecoverySubBoundary.t :=
  default RecoverySubBoundary.SystemFull (from_mutable_scope (required_scope a)).
Definition denied (p : SelfHealingPolicy.t) (b : Boundary) (a : HealAction.t) : bool :=
  negb (sub_active b (required_sub a)) && negb (InMemoryRecoveryBoundary.is_recovery_active b) &&
  bool_decide (SelfHealingPolicy.minimum_mode p = RecoveryMode.Recovery).
Definition executed (a : HealAction.t) (receipt : option string) : HealExecutionResult.t :=
  result_of a true receipt (HealActionKind.debug (action_kind a) +:+ " executed for " +:+ component_id a
                            +:+ " (seq=" +:+ pretty (sequence a) +:+ ")").

Definition execute_heal (reception : string -> HealCommand.t -> Reception.t) (b : Boundary) (a : HealAction.t)
    : M HealExecutionResult.t :=
  let! d := driver in
  if denied (policy d) b a
  then ret (result_of a false None ("sub-boundary " +:+ RecoverySubBoundary.debug (required_sub a)
                                    +:+ " not active — healing denied (INV-012)"))
  else
    let! _ := (if bool_decide (action_kind a = HealActionKind.Restart)
               then deliver_heal_command reception (component_id a) (HealCommand.Shutdown 5)
               else ret None) in
    let! d := driver in
    let! _ := match trackers d !! component_id a with
              | Some k => let! now := now_utc in change (put_tracker (component_id a) (ComponentHealingTracker.record_action now k))
              | None => ret ()
              end in
    match evidence_emitter with
    | None => ret (executed a None)
    | Some em => fun w =>
        match emit_receipt em RecordType.RecoveryOperationPerformed (healing_payload a) w with
        | (Ok id, w) => (Ok (executed a (Some id)), w)
        | (Err e, w) => (Ok (result_of a false None ("evidence emission failed: " +:+ RecoveryError.display e)), w)
        end
    end.

(** The loop of a cycle: [later n] is the boundary when the [n]-th action is executed. *)
Fixpoint execute_all (reception : string -> HealCommand.t -> Reception.t) (later : nat -> Boundary) (n : nat)
    (actions : list HealAction.t) : M (nat * nat) :=
  match actions with
  | [] => ret (0, 0)
  | a :: actions => fun w =>
      match execute_heal reception (later n) a w with
      | (Err Stop.Waits, w) => (Err Stop.Waits, w)
      | (Err Stop.Panicked, w) => (Err Stop.Panicked, w)
      | (r, w) =>
          let ok := match r with Ok x => HealExecutionResult.success x | Err _ => false end in
          (let! rest := execute_all reception later (S n) actions in
           ret (if ok then (S rest.1, rest.2) else (rest.1, S rest.2))) w
      end
  end.
Definition heal_cycle (reception : string -> HealCommand.t -> Reception.t) (now : Z) (b : Boundary) (later : nat -> Boundary)
    : M HealCycleResult.t :=
  let! started := now_utc in
  let! _ := watchdog_check now in
  let! actions := evaluate b in
  let! counts := execute_all reception later 0 actions in
  let! d := driver in
  let! completed := now_utc in
  ret {| HealCycleResult.components_evaluated := size (health_registry d); HealCycleResult.actions_decided := length actions;
         HealCycleResult.actions_executed := counts.1; HealCycleResult.actions_failed := counts.2;
         HealCycleResult.started_at := started; HealCycleResult.completed_at := completed |}.
End Ops.
End InMemorySelfHealingDriver.

(** ** Lemmas *)
Module HealingSound.
Import InMemorySelfHealingDriver HealAction.

(** *** What was seen of a component *)
Inductive Signal : Type := Saw (s : ComponentHealthState.t) | Crashed.
Definition state_of (x : Signal) : ComponentHealthState.t := match x with Saw s => s | Crashed => ComponentHealthState.Failed end.
(** The failing observations since the last healthy one. *)
Definition failing (l : list Signal) : Z :=
  fold_left (fun n x => if needs_intervention (state_of x) then n + 1
                        else if bool_decide (state_of x = ComponentHealthState.Healthy) then 0 else n)%Z l 0%Z.
Definition about {A} (id : string) (l : list (string * A)) : list A := snd <$> filter (fun e => e.1 = id) l.

Lemma failing_snoc l x : failing (l ++ [x]) =
  (if needs_intervention (state_of x) then failing l + 1
   else if bool_decide (state_of x = ComponentHealthState.Healthy) then 0 else failing l)%Z.
Proof. unfold failing. by rewrite fold_left_app. Qed.
Lemma failing_nonneg l : (0 <= failing l)%Z.
Proof.
  induction l as [|x l IH] using rev_ind; [done|]. rewrite failing_snoc. destruct (needs_intervention _); [lia|].
  case_bool_decide; lia.
Qed.
Lemma about_snoc {A} id (l : list (string * A)) e : about id (l ++ [e]) = about id l ++ (if bool_decide (e.1 = id) then [e.2] else []).
Proof.
  unfold about. rewrite filter_app, fmap_app. f_equal. rewrite filter_cons, filter_nil. by repeat case_decide; case_bool_decide.
Qed.

Lemma NoDup_fmap_filter {A B} (f : A -> B) (P : A -> Prop) `{!forall x, Decision (P x)} l : NoDup (f <$> l) -> NoDup (f <$> filter P l).
Proof.
  induction l as [|x l IH]; [done|]. rewrite fmap_cons, NoDup_cons, filter_cons. intros [Hx Hl].
  case_decide; [|by apply IH]. rewrite fmap_cons, NoDup_cons. split; [|by apply IH].
  intros (y & Hy & Hin)%list_elem_of_fmap. apply Hx. rewrite Hy. apply list_elem_of_fmap_2. by apply list_elem_of_filter in Hin as [_ ?].
Qed.
Lemma bind_step {St Er A B} (m : StateError.M St Er A) (f : A -> StateError.M St Er B) w x v :
  m w = (Ok x, v) -> mbind_ m f w = f x v.
Proof. unfold mbind_. by intros ->. Qed.
Lemma bind_stop {St Er A B} (m : StateError.M St Er A) (f : A -> StateError.M St Er B) w x v :
  m w = (Err x, v) -> mbind_ m f w = (Err x, v).
Proof. unfold mbind_. by intros ->. Qed.

Section Sound.
Context {L : Type} `{RecoveryEvidenceLog L} `{!RecoveryTexts}.
Variable em : option RecoveryEvidenceEmitter.
Variable walk : forall A, gmap string A -> list (string * A).
Variable last_second : Z.
Abbreviation World := (RecoveryWorld.t InMemorySelfHealingDriver.t L).
Abbreviation Reception := (string -> HealCommand.t -> Reception.t).
Abbreviation Boundary := InMemoryRecoveryBoundary.t.

(** *** Runs *)
Inductive Op : Type :=
| SetPolicy (p : SelfHealingPolicy.t) | Observe (id : string) (s : ComponentHealthState.t) | Panic (c : PanicContext.t)
| TakeSnapshot (id blob : string) | Restore (s : ComponentSnapshot.t)
| SetWatchdog (p : WatchdogPolicy.t) | Register (now : Z) (id : string) | Ping (now : Z) (id : string) | Check (now : Z)
| Channel (id : string) (capacity : Z)
| Evaluate (b : Boundary) | Execute (rc : Reception) (b : Boundary) (a : HealAction.t)
| Cycle (rc : Reception) (now : Z) (b : Boundary) (later : nat -> Boundary).
Definition exec (o : Op) (w : World) : World :=
  match o with
  | SetPolicy p => (set_policy p w).2
  | Observe id s => (observe_health id s w).2
  | Panic c => (observe_panic em c w).2
  | TakeSnapshot id blob => (take_snapshot id blob w).2
  | Restore s => (restore_snapshot s w).2
  | SetWatchdog p => (set_watchdog_policy p w).2
  | Register now id => (register_watchdog last_second now id w).2
  | Ping now id => (ping_watchdog last_second now id w).2
  | Check now => (watchdog_check walk now w).2
  | Channel id n => (register_command_channel id n w).2
  | Evaluate b => (evaluate walk b w).2
  | Execute rc b a => (execute_heal em rc b a w).2
  | Cycle rc now b later => (heal_cycle em walk rc now b later w).2
  end.
Definition run (ops : list Op) (w : World) : World := fold_left (fun w o => exec o w) ops w.
(** What an operation sees. *)
Definition expired (now : Z) (w : World) : list (string * Signal) :=
  (fun id => (id, Saw ComponentHealthState.Degraded)) <$> check_deadlines walk now (store w).
Definition signals (o : Op) (w : World) : list (string * Signal) :=
  match o with
  | Observe id s => [(id, Saw s)]
  | Panic c => [(PanicContext.component_id c, Crashed)]
  | Check now | Cycle _ now _ _ => expired now w
  | _ => []
  end.
Fixpoint history (ops : list Op) (w : World) : list (string * Signal) :=
  match ops with
  | [] => []
  | o :: ops => signals o w ++ history ops (exec o w)
  end.

(** *** The driver knows what was seen *)
Definition knows (seen : list (string * Signal)) (d : InMemorySelfHealingDriver.t) : Prop :=
  forall id, ComponentHealingTracker.consecutive_failures (tracker_for id d) = Z.min (failing (about id seen)) u32_max /\
    health_registry d !! id = state_of <$> last (about id seen).
Definition quiet (d d' : InMemorySelfHealingDriver.t) : Prop :=
  health_registry d' = health_registry d /\ policy d' = policy d /\ registry d' = registry d /\
  forall id, ComponentHealingTracker.consecutive_failures (tracker_for id d') =
             ComponentHealingTracker.consecutive_failures (tracker_for id d).

Lemma knows_quiet seen d d' : knows seen d -> health_registry d' = health_registry d ->
  (forall id, ComponentHealingTracker.consecutive_failures (tracker_for id d') =
              ComponentHealingTracker.consecutive_failures (tracker_for id d)) -> knows seen d'.
Proof. intros Hk Hh Hf id. rewrite Hf, Hh. apply Hk. Qed.
Lemma quiet_refl d : quiet d d.
Proof. by split_and!. Qed.
Lemma quiet_trans d1 d2 d3 : quiet d1 d2 -> quiet d2 d3 -> quiet d1 d3.
Proof.
  intros (Ha & Hb & Hc & Hd) (Ha' & Hb' & Hc' & Hd'). split_and!; [congruence..|]. intros id. by rewrite Hd'.
Qed.
Lemma quiet_tracker id k d : ComponentHealingTracker.consecutive_failures k =
  ComponentHealingTracker.consecutive_failures (tracker_for id d) -> quiet d (put_tracker id k d).
Proof.
  intros Hk. split_and!; [done..|]. intros id'. unfold tracker_for. cbn. destruct (decide (id = id')) as [<-|Hne].
  - by rewrite lookup_insert_eq.
  - by rewrite lookup_insert_ne.
Qed.

Lemma tracker_put id id' k d : tracker_for id' (put_tracker id k d) = if bool_decide (id = id') then k else tracker_for id' d.
Proof.
  unfold tracker_for. cbn. case_bool_decide as Hid; [subst; by rewrite lookup_insert_eq|by rewrite lookup_insert_ne].
Qed.
Lemma knows_signal seen d id x k : knows seen d ->
  ComponentHealingTracker.consecutive_failures k =
    (if needs_intervention (state_of x) then u32_saturating_add (ComponentHealingTracker.consecutive_failures (tracker_for id d)) 1
     else if bool_decide (state_of x = ComponentHealthState.Healthy) then 0
     else ComponentHealingTracker.consecutive_failures (tracker_for id d))%Z ->
  knows (seen ++ [(id, x)]) (put_tracker id k (put_health id (state_of x) d)).
Proof.
  intros Hk Hc id'. rewrite tracker_put, about_snoc. cbn [fst snd health_registry put_tracker put_health].
  destruct (decide (id = id')) as [<-|Hid].
  2: { rewrite !(bool_decide_false (id = id')), app_nil_r, lookup_insert_ne by done. apply Hk. }
  rewrite !(bool_decide_true (id = id)), lookup_insert_eq, last_snoc, failing_snoc by done. split; [|done]. rewrite Hc, (proj1 (Hk id)).
  pose proof (failing_nonneg (about id seen)). unfold u32_saturating_add, u32_max.
  destruct (needs_intervention (state_of x)); [lia|]. destruct (bool_decide (state_of x = _)); lia.
Qed.

Lemma knows_observe seen (w : World) id s : knows seen (store w) ->
  exists v, observe_health id s w = (Ok (), v) /\ knows (seen ++ [(id, Saw s)]) (store v) /\
    policy (store v) = policy (store w) /\ registry (store v) = registry (store w) /\ global_sequence (store v) = global_sequence (store w).
Proof.
  intros Hk. eexists. split; [reflexivity|]. split; [|done]. cbn.
  by apply (knows_signal seen (store w) id (Saw s)).
Qed.
Lemma knows_observe_all seen ids s (w : World) : knows seen (store w) ->
  exists v, observe_all ids s w = (Ok (), v) /\ knows (seen ++ ((fun id => (id, Saw s)) <$> ids)) (store v) /\
    policy (store v) = policy (store w) /\ registry (store v) = registry (store w) /\ global_sequence (store v) = global_sequence (store w).
Proof.
  revert seen w. induction ids as [|id ids IH]; intros seen w Hk; cbn [observe_all].
  - exists w. cbn. by rewrite app_nil_r.
  - destruct (knows_observe seen w id s Hk) as (v & Hv & Hkv & Hp & Hr & Hg).
    destruct (IH _ v Hkv) as (u & Hu & Hku & Hp' & Hr' & Hg'). exists u. unfold mbind_. rewrite Hv, Hu.
    rewrite <- app_assoc in Hku. by rewrite Hp', Hr', Hg'.
Qed.
Lemma knows_watchdog seen now (w : World) : knows seen (store w) ->
  exists v, watchdog_check walk now w = (Ok (), v) /\ knows (seen ++ expired now w) (store v) /\
    policy (store v) = policy (store w) /\ registry (store v) = registry (store w) /\ global_sequence (store v) = global_sequence (store w).
Proof. intros Hk. apply knows_observe_all. exact Hk. Qed.

(** *** Decisions *)
Definition failures (d : InMemorySelfHealingDriver.t) (id : string) : Z :=
  ComponentHealingTracker.consecutive_failures (tracker_for id d).
Definition decided_kind (d : InMemorySelfHealingDriver.t) (id : string) (s : ComponentHealthState.t) : HealActionKind.t :=
  if ComponentIsolationLevel.requires_escalation (isolation_of d id) then HealActionKind.Escalate
  else kind_for (SelfHealingPolicy.policy_for_component (policy d) id) (SelfHealingPolicy.scopes_for_component (policy d) id)
         (isolation_of d id) s (u32_saturating_add (failures d id) 1).
Definition due (d : InMemorySelfHealingDriver.t) (b : Boundary) (e : string * ComponentHealthState.t) : bool :=
  scope_granted (policy d) b e.1 && needs_intervention e.2.

Lemma decide_one id s (w : World) :
  if needs_intervention s then
    exists a v, decide_for_component id s (tracker_for id (store w)) w = (Ok (Some a), v) /\
      (component_id a, observed_state a, action_kind a) = (id, s, decided_kind (store w) id s) /\
      sequence a = u64_wrap (global_sequence (store w) + 1) /\
      store v = put_sequence (u64_wrap (global_sequence (store w) + 1)) (store w)
  else decide_for_component id s (tracker_for id (store w)) w = (Ok None, w).
Proof.
  unfold decide_for_component. destruct (needs_intervention s) eqn:Hs; cbn [negb]; [|done].
  unfold mbind_, driver, raising, state_get. cbv beta iota zeta. unfold decided_kind.
  destruct (ComponentIsolationLevel.requires_escalation _); eexists _, _; (split; [reflexivity|]); by split_and!.
Qed.

Lemma decide_all_spec b states (w : World) :
  exists acts v, decide_all b (trackers (store w)) states w = (Ok acts, v) /\
    (exists n, store v = put_sequence n (store w)) /\
    (fun a => (component_id a, observed_state a, action_kind a)) <$> acts =
      (fun e => (e.1, e.2, decided_kind (store w) e.1 e.2)) <$> filter (fun e => due (store w) b e = true) states /\
    (0 <= global_sequence (store w) -> global_sequence (store w) + Z.of_nat (length states) <= u64_max ->
     sequence <$> acts = seqZ (global_sequence (store w) + 1) (Z.of_nat (length acts)) /\
     global_sequence (store v) = global_sequence (store w) + Z.of_nat (length acts))%Z.
Proof.
  revert w. induction states as [|[id s] states IH]; intros w; cbn [decide_all].
  { exists [], w. split; [done|]. split; [exists (global_sequence (store w)); by destruct (store w)|]. split; [done|]. intros _ _. split; [done|]. cbn. lia. }
  unfold mbind_ at 1, driver, raising, state_get. cbv beta iota zeta.
  rewrite filter_cons. pose proof (decide_one id s w) as Hd. unfold tracker_for in Hd.
  destruct (decide (due (store w) b (id, s) = true)) as [Hdue|Hdue].
  - apply andb_true_iff in Hdue as [Hgr Hn]. cbn [fst snd] in Hgr, Hn. rewrite Hgr. rewrite Hn in Hd. cbn [negb].
    destruct Hd as (a & v & Hd & Ha & Hq & Hv). destruct (IH v) as (acts & u & Hr & (n & Hu) & Hm & Hs).
    exists (a :: acts), u. unfold mbind_. rewrite Hd. rewrite Hv in Hr at 1. cbn [trackers put_sequence] in Hr. rewrite Hr. split; [done|].
    split; [exists n; by rewrite Hu, Hv|]. split.
    + rewrite !fmap_cons, Hm, Ha. by rewrite Hv.
    + intros Hg Hl. rewrite Hv in Hs. cbn [global_sequence put_sequence length] in *.
      assert (u64_wrap (global_sequence (store w) + 1) = global_sequence (store w) + 1)%Z as Hw.
      { unfold u64_wrap, u64_max in *. apply Z.mod_small. lia. }
      rewrite Hw in Hs. destruct Hs as [Hs1 Hs2]; [lia|lia|]. rewrite fmap_cons, Hs1, Hs2, Hq, Hw. split; [|lia].
      rewrite (seqZ_cons _ (Z.of_nat (S (length acts)))) by lia. unfold Z.succ. do 2 f_equal; lia.
  - destruct (IH w) as (acts & u & Hr & Hu & Hm & Hs). exists acts, u. split.
    + apply not_true_is_false, andb_false_iff in Hdue as [Hx|Hx]; cbn [fst snd] in Hx.
      * by rewrite Hx.
      * destruct (scope_granted _ _ _); cbn [negb]; [|done]. rewrite Hx in Hd. unfold mbind_. by rewrite Hd, Hr.
    + split; [done|]. split; [done|]. intros Hg Hl. apply Hs; cbn [length] in *; lia.
Qed.

Lemma quiet_sequence n d : quiet d (put_sequence n d).
Proof. by split_and!. Qed.

(** What an evaluation decides: nothing where it is not admitted, else one action
    for each component that is due, in the order of the registry. *)
Definition planned (b : Boundary) (d : InMemorySelfHealingDriver.t) : list (string * ComponentHealthState.t) :=
  if evaluation_admitted (policy d) b then filter (fun e => due d b e = true) (walk _ (health_registry d)) else [].
Lemma evaluate_spec b (w : World) :
  exists acts v, evaluate walk b w = (Ok acts, v) /\ quiet (store w) (store v) /\
    (fun a => (component_id a, observed_state a, action_kind a)) <$> acts =
      (fun e => (e.1, e.2, decided_kind (store w) e.1 e.2)) <$> planned b (store w) /\
    (0 <= global_sequence (store w) ->
     global_sequence (store w) + Z.of_nat (length (walk _ (health_registry (store w)))) <= u64_max ->
     sequence <$> acts = seqZ (global_sequence (store w) + 1) (Z.of_nat (length acts)))%Z.
Proof.
  unfold evaluate, planned. unfold mbind_ at 1, driver, raising, state_get. cbv beta iota zeta.
  destruct (evaluation_admitted _ _); cbn [negb].
  - destruct (decide_all_spec b (walk _ (health_registry (store w))) w) as (acts & v & Hr & (n & Hv) & Hm & Hs).
    exists acts, v. split; [done|]. split; [rewrite Hv; apply quiet_sequence|]. split; [done|]. intros Hg Hl. by apply Hs.
  - exists [], w. split; [done|]. split; [apply quiet_refl|]. by split.
Qed.

(** *** Executions *)
Definition hangs (rc : Reception) (d : InMemorySelfHealingDriver.t) (a : HealAction.t) : Prop :=
  action_kind a = HealActionKind.Restart /\ component_id a ∈ command_channels d /\
  rc (component_id a) (HealCommand.Shutdown 5) = Reception.Hangs.
(** The receipt that an execution leaves, and its answer. *)
Definition receipted (a : HealAction.t) (w : World) : HealExecutionResult.t * L :=
  match em with
  | None => (executed a None, evidence w)
  | Some e =>
      match recovery_append_signed
              (Receipt.with_payload (healing_payload a)
                 (Receipt.new RecordType.RecoveryOperationPerformed
                    (RecordType.retention_class_for RecordType.RecoveryOperationPerformed) (recovery_emitter_subject e)))
              (recovery_emitter_key e) None (evidence w) with
      | (Ok r, l) => (executed a (Some (Receipt.receipt_id r)), l)
      | (Err x, l) => (result_of a false None ("evidence emission failed: evidence emission failed: "
                         +:+ recovery_evidence_error_text x), l)
      end
  end.
Lemma execute_cases rc b a (w : World) :
  (denied (policy (store w)) b a = true /\ exists why, execute_heal em rc b a w = (Ok (result_of a false None why), w)) \/
  (denied (policy (store w)) b a = false /\ hangs rc (store w) a /\ execute_heal em rc b a w = (Err Stop.Waits, w)) \/
  (denied (policy (store w)) b a = false /\ ~ hangs rc (store w) a /\
   exists v, execute_heal em rc b a w = (Ok (receipted a w).1, v) /\ quiet (store w) (store v) /\ evidence v = (receipted a w).2 /\
     command_channels (store v) = command_channels (store w)).
Proof.
  unfold execute_heal. rewrite (bind_step driver _ w (store w) w eq_refl).
  destruct (denied _ _ _); [left; split; [done|]; by eexists|]. right.
  assert (hangs rc (store w) a /\
    (if bool_decide (action_kind a = HealActionKind.Restart)
     then deliver_heal_command rc (component_id a) (HealCommand.Shutdown 5) else ret None) w = (Err Stop.Waits, w) \/
    ~ hangs rc (store w) a /\ exists x,
    (if bool_decide (action_kind a = HealActionKind.Restart)
     then deliver_heal_command rc (component_id a) (HealCommand.Shutdown 5) else ret None) w = (Ok x, w)) as Hd.
  { unfold hangs. case_bool_decide as Hk; [|right; split; [tauto|by eexists]].
    unfold deliver_heal_command, mbind_, driver, raising, state_get. cbv beta iota zeta.
    case_bool_decide as Hc; [|right; split; [tauto|by eexists]].
    destruct (rc _ _) eqn:Hr; [right; split; [naive_solver|by eexists]..|left; done]. }
  destruct Hd as [[Hh Hx]|[Hh [x Hx]]]; [left; split; [done|]; split; [done|]; by rewrite (bind_stop _ _ _ _ _ Hx)|].
  right. split; [done|]. split; [done|]. rewrite (bind_step _ _ _ _ _ Hx).
  rewrite (bind_step driver _ w (store w) w eq_refl).
  set (m := match trackers (store w) !! component_id a with Some k => _ | None => _ end).
  assert (exists v, m w = (Ok (), v) /\ quiet (store w) (store v) /\ evidence v = evidence w /\
    command_channels (store v) = command_channels (store w)) as (v & Hv & Hq & He & Hc).
  { unfold m. destruct (trackers (store w) !! component_id a) as [k|] eqn:Hk.
    - eexists. split; [reflexivity|]. split; [|done]. cbn. apply quiet_tracker. unfold tracker_for. by rewrite Hk.
    - exists w. split; [done|]. split; [apply quiet_refl|done]. }
  rewrite (bind_step _ _ _ _ _ Hv). unfold receipted. destruct em as [e|].
  - unfold emit_receipt. rewrite He. destruct (recovery_append_signed _ _ _ _) as [[r|err] l]; eexists; (split; [reflexivity|done]).
  - exists v. by split_and!.
Qed.

Lemma execute_all_spec rc later n acts (w : World) :
  (exists v k, execute_all em rc later n acts w = (Ok (k, length acts - k), v) /\ k <= length acts /\ quiet (store w) (store v)) \/
  (exists v a, execute_all em rc later n acts w = (Err Stop.Waits, v) /\ a ∈ acts /\ quiet (store w) (store v) /\
     hangs rc (store w) a).
Proof.
  revert n w. induction acts as [|a acts IH]; intros n w; cbn [execute_all].
  { left. exists w, 0. split; [done|]. split; [done|apply quiet_refl]. }
  destruct (execute_cases rc (later n) a w) as [[_ [why ->]]|[(_ & Hh & ->)|(_ & _ & v & Hv & Hq & _ & Hc)]].
  - destruct (IH (S n) w) as [(v & k & Hv & Hk & Hq)|(v & x & Hv & Hx & Hq & Hh)].
    + left. exists v, k. unfold mbind_. rewrite Hv. cbn [HealExecutionResult.success result_of fst snd].
      split; [|split; [cbn; lia|done]]. unfold ret. cbn [length]. do 3 f_equal. lia.
    + right. exists v, x. unfold mbind_. rewrite Hv. split; [done|]. split; [by right|done].
  - right. exists w, a. split; [done|]. split; [by left|]. split; [apply quiet_refl|done].
  - rewrite Hv. destruct (IH (S n) v) as [(u & k & Hu & Hk & Hq')|(u & x & Hu & Hx & Hq' & Hh)].
    + left. destruct (HealExecutionResult.success _).
      * exists u, (S k). unfold mbind_. rewrite Hu. split; [done|]. split; [cbn; lia|by eapply quiet_trans].
      * exists u, k. unfold mbind_. rewrite Hu. cbn [length fst snd]. unfold ret. split; [do 3 f_equal; lia|].
        split; [lia|by eapply quiet_trans].
    + right. exists u, x. unfold mbind_. rewrite Hu. split; [done|]. split; [by right|]. split; [by eapply quiet_trans|].
      unfold hangs in *. by rewrite <- Hc.
Qed.

(** *** Cycles *)
Lemma cycle_spec rc now b later seen (w : World) : knows seen (store w) ->
  knows (seen ++ expired now w) (store (heal_cycle em walk rc now b later w).2) /\
  policy (store (heal_cycle em walk rc now b later w).2) = policy (store w) /\
  match (heal_cycle em walk rc now b later w).1 with
  | Ok c => HealCycleResult.actions_decided c = HealCycleResult.actions_executed c + HealCycleResult.actions_failed c /\
      HealCycleResult.components_evaluated c = size (health_registry (store (heal_cycle em walk rc now b later w).2))
  | Err e => e = Stop.Waits /\ exists id, rc id (HealCommand.Shutdown 5) = Reception.Hangs
  end.
Proof.
  intros Hk. unfold heal_cycle.
  rewrite (bind_step now_utc _ w _ _ eq_refl). 
  match goal with |- context [mbind_ (watchdog_check walk now) _ ?x] => set (w1 := x) end.
  destruct (knows_watchdog seen now w1 Hk) as (v & Hv & Hkv & Hp & _ & _). rewrite !(bind_step _ _ _ _ _ Hv).
  destruct (evaluate_spec b v) as (acts & u & Hu & Hq & _ & _). rewrite !(bind_step _ _ _ _ _ Hu).
  assert (knows (seen ++ expired now w) (store u)) as Hku by (destruct Hq as (? & _ & _ & ?); by eapply knows_quiet).
  destruct (execute_all_spec rc later 0 acts u) as [(x & k & Hx & Hle & Hq')|(x & a & Hx & _ & Hq' & Hh)].
  - rewrite !(bind_step _ _ _ _ _ Hx). cbn. split; [destruct Hq' as (? & _ & _ & ?); by eapply knows_quiet|].
    split; [by rewrite (proj1 (proj2 Hq')), (proj1 (proj2 Hq))|]. split; [lia|done].
  - rewrite !(bind_stop _ _ _ _ _ Hx). cbn. split; [destruct Hq' as (? & _ & _ & ?); by eapply knows_quiet|].
    split; [by rewrite (proj1 (proj2 Hq')), (proj1 (proj2 Hq))|]. split; [done|]. exists (component_id a). by destruct Hh as (_ & _ & ?).
Qed.

(** *** What a run knows *)
Lemma knows_exec o seen (w : World) : knows seen (store w) ->
  knows (seen ++ signals o w) (store (exec o w)).
Proof.
  intros Hk. destruct o as [p|id s|c|id blob|s|p|now id|now id|now|id n|b|rc b a|rc now b later]; cbn [exec signals];
    rewrite ?app_nil_r.
  - unfold set_policy, mbind_, raising, lift. by destruct (SelfHealingPolicy.validate p).
  - destruct (knows_observe seen w id s Hk) as (v & -> & Hv & _). exact Hv.
  - unfold observe_panic, change, now_utc, raising, utc_now, mbind_, modify, ret. cbv beta iota zeta.
    set (d := put_tracker _ _ _).
    assert (knows (seen ++ [(PanicContext.component_id c, Crashed)]) d) as Hd by (by apply (knows_signal seen (store w) _ Crashed)).
    destruct em as [e|]; [|exact Hd]. unfold emit_receipt. by destruct (recovery_append_signed _ _ _ _) as [[r|x] l].
  - cbn. eapply knows_quiet; [exact Hk|done|]. apply quiet_tracker. done.
  - cbn. eapply knows_quiet; [exact Hk|done|]. apply quiet_tracker. done.
  - exact Hk.
  - unfold register_watchdog, refresh_deadline, mbind_, driver, raising, state_get, throw. cbv beta iota zeta. by destruct (_ <? _)%Z.
  - unfold ping_watchdog, refresh_deadline, mbind_, driver, raising, state_get, throw. cbv beta iota zeta. by destruct (_ <? _)%Z.
  - destruct (knows_watchdog seen now w Hk) as (v & -> & Hv & _). exact Hv.
  - unfold register_command_channel, throw. by destruct (n =? 0)%Z.
  - destruct (evaluate_spec b w) as (acts & v & -> & (? & _ & _ & ?) & _). by eapply knows_quiet.
  - destruct (execute_cases rc b a w) as [(_ & why & ->)|[(_ & _ & ->)|(_ & _ & v & -> & (? & _ & _ & ?) & _)]];
      [done|done|by eapply knows_quiet].
  - apply cycle_spec. exact Hk.
Qed.

Definition starts (w : World) : Prop := trackers (store w) = ∅ /\ health_registry (store w) = ∅.
Lemma knows_run ops (w : World) : starts w ->
  knows (history ops w) (store (run ops w)).
Proof.
  intros [Ht Hh]. assert (forall seen w, knows seen (store w) ->
    knows (seen ++ history ops w) (store (run ops w))) as Hx.
  { induction ops as [|o ops IH]; intros seen u Hu; cbn [history]; [by rewrite app_nil_r|].
    rewrite app_assoc. apply IH. by apply knows_exec. }
  apply (Hx []). intros id. unfold tracker_for. rewrite Ht, Hh. done.
Qed.

(** *** What a run leaves in force *)
Lemma policy_exec o seen (w : World) : knows seen (store w) ->
  policy (store (exec o w)) = policy (store w) \/ o = SetPolicy (policy (store (exec o w))).
Proof.
  intros Hk. destruct o as [p|id s|c|id blob|s|p|now id|now id|now|id n|b|rc b a|rc now b later]; cbn [exec]; try (by left).
  - unfold set_policy, mbind_, raising, lift. destruct (SelfHealingPolicy.validate p); [by right|by left].
  - left. unfold observe_panic, change, now_utc, raising, utc_now, mbind_, modify, ret. cbv beta iota zeta.
    destruct em as [e|]; [|done]. unfold emit_receipt. by destruct (recovery_append_signed _ _ _ _) as [[r|x] l].
  - left. unfold register_watchdog, refresh_deadline, mbind_, driver, raising, state_get, throw. cbv beta iota zeta.
    by destruct (_ <? _)%Z.
  - left. unfold ping_watchdog, refresh_deadline, mbind_, driver, raising, state_get, throw. cbv beta iota zeta.
    by destruct (_ <? _)%Z.
  - left. by destruct (knows_watchdog seen now w Hk) as (v & -> & _ & ? & _).
  - left. unfold register_command_channel, throw. by destruct (n =? 0)%Z.
  - left. by destruct (evaluate_spec b w) as (acts & v & -> & (_ & ? & _) & _).
  - left. by destruct (execute_cases rc b a w) as [(_ & why & ->)|[(_ & _ & ->)|(_ & _ & v & -> & (_ & ? & _) & _)]].
  - left. by destruct (cycle_spec rc now b later seen w Hk) as (_ & ? & _).
Qed.
Lemma policy_run ops (w : World) : starts w ->
  policy (store (run ops w)) = policy (store w) \/ SetPolicy (policy (store (run ops w))) ∈ ops.
Proof.
  intros Hs. induction ops as [|o ops IH] using rev_ind; [by left|].
  pose proof (knows_run ops w Hs) as Hk. unfold run in *. rewrite fold_left_app. cbn [fold_left].
  destruct (policy_exec o _ _ Hk) as [->|Ho]; [destruct IH as [->|IH]; [by left|right; set_solver]|].
  right. rewrite <- Ho. set_solver.
Qed.

(** *** What an evaluation decides, in terms of what was planned *)
Lemma planned_ids b (v : World) acts :
  (fun a => (component_id a, observed_state a, action_kind a)) <$> acts =
    (fun e => (e.1, e.2, decided_kind (store v) e.1 e.2)) <$> planned b (store v) ->
  component_id <$> acts = fst <$> planned b (store v).
Proof.
  intros Hm. trans (fst <$> (fst <$> ((fun a => (component_id a, observed_state a, action_kind a)) <$> acts))).
  - by rewrite <- !list_fmap_compose.
  - rewrite Hm, <- !list_fmap_compose. done.
Qed.
Lemma planned_iff b d : (forall A m, walk A m ≡ₚ map_to_list m) -> forall id s,
  (id, s) ∈ planned b d <-> evaluation_admitted (policy d) b = true /\
    due d b (id, s) = true /\ health_registry d !! id = Some s.
Proof.
  intros Hw id s. unfold planned. destruct (evaluation_admitted _ _).
  - rewrite list_elem_of_filter, Hw, elem_of_map_to_list. naive_solver.
  - rewrite elem_of_nil. naive_solver.
Qed.
Lemma planned_nodup b d : (forall A m, walk A m ≡ₚ map_to_list m) -> NoDup (fst <$> planned b d).
Proof.
  intros Hw. unfold planned. destruct (evaluation_admitted _ _); [|apply NoDup_nil_2].
  apply NoDup_fmap_filter. rewrite Hw. apply NoDup_fst_map_to_list.
Qed.

(** The runs that the documentation speaks for: no policy heals in normal mode
    (INV-012), every policy resets its counters on a healthy observation, and a
    component is registered with the watchdog before its first ping. *)
Definition documented_policy (p : SelfHealingPolicy.t) : Prop :=
  SelfHealingPolicy.minimum_mode p <> RecoveryMode.Normal /\
  RestartPolicy.reset_on_healthy (SelfHealingPolicy.default_policy p) = true /\
  map_Forall (fun _ c => RestartPolicy.reset_on_healthy (ComponentHealingConfig.restart_policy c) = true)
    (SelfHealingPolicy.component_policies p).
Definition documented (ops : list Op) (w : World) : Prop :=
  documented_policy (policy (store w)) /\ (forall p, SetPolicy p ∈ ops -> documented_policy p) /\
  forall before now id after, ops = before ++ Ping now id :: after -> exists earlier, Register earlier id ∈ before.
(** The level in force is the one the policy declares, also under a registry. *)
Definition levels_agree (d : InMemorySelfHealingDriver.t) : Prop :=
  forall id c, SelfHealingPolicy.config_for_component (policy d) id = Some c ->
    isolation_of d id = ComponentHealingConfig.isolation_level c.

Lemma documented_run ops (w : World) : starts w -> documented ops w -> documented_policy (policy (store (run ops w))).
Proof. intros Hs (H0' & Hp & _). destruct (policy_run ops w Hs) as [->|Hin]; [done|by apply Hp]. Qed.
Lemma admitted_mode p b : documented_policy p -> evaluation_admitted p b = true ->
  RecoveryState.mode (InMemoryRecoveryBoundary.current_state b) <> RecoveryMode.Normal \/ any_sub_active b = true.
Proof.
  intros (Hn & _) Ha. unfold evaluation_admitted in Ha. rewrite (bool_decide_false _ Hn) in Ha.
  destruct (any_sub_active b); [by right|]. left. intros Hm. rewrite Hm in Ha.
  destruct (SelfHealingPolicy.enabled p); [|done]. by destruct (SelfHealingPolicy.minimum_mode p).
Qed.

(** What may be decided for a component of isolation level [l] under a restart
    policy, after so many failures: a critical component, or one at the threshold
    of its policy, is escalated, and a restart stays within the retries. *)
Definition permitted (rp : RestartPolicy.t) (l : ComponentIsolationLevel.t) (failures : Z) (k : HealActionKind.t) : Prop :=
  (l = ComponentIsolationLevel.Critical -> k = HealActionKind.Escalate) /\
  (forall threshold, RestartPolicy.escalate_after rp = Some threshold ->
     ComponentIsolationLevel.rank threshold <= ComponentIsolationLevel.rank l -> k = HealActionKind.Escalate) /\
  (k = HealActionKind.Restart -> failures < RestartPolicy.max_retries rp)%Z.
Lemma decided_permitted d id s : (0 <= failures d id)%Z ->
  (RestartPolicy.max_retries (SelfHealingPolicy.policy_for_component (policy d) id) < u32_max)%Z ->
  permitted (SelfHealingPolicy.policy_for_component (policy d) id) (isolation_of d id) (failures d id) (decided_kind d id s).
Proof.
  intros Hf Hm. unfold permitted, decided_kind, kind_for. destruct (isolation_of d id) eqn:Hl; cbn [ComponentIsolationLevel.requires_escalation];
    [by split_and!|..]; (split; [done|]); rewrite andb_false_r;
    unfold ComponentIsolationLevel.ge, u32_saturating_add;
    (destruct (RestartPolicy.escalate_after _) as [th|]; [destruct (Nat.leb _ _) eqn:Hle|]).
  all: split; [|].
  all: try (intros threshold [= <-] Hr; first [done|apply Nat.leb_gt in Hle; lia]).
  all: try done.
  all: destruct (_ <? _)%Z eqn:Hlt; [done|]; apply Z.ltb_ge in Hlt; intros _; lia.
Qed.


(** C18: healing is governed by the mode, operations one after another.  Under a
    policy whose minimum mode is recovery, an action succeeds only where its
    sub-boundary or recovery is active, and otherwise changes nothing.  With an
    evidence emitter attached an action that succeeds has left its receipt, which
    names it, and an execution changes neither what was observed nor how often
    anything failed.  A cycle in which no component is silent completes and
    accounts for every action it decided. *)
Theorem healing_governed ops w rc : starts w ->
  let v := run ops w in
  (forall b a, SelfHealingPolicy.minimum_mode (policy (store v)) = RecoveryMode.Recovery ->
     sub_active b (required_sub a) = false -> InMemoryRecoveryBoundary.is_recovery_active b = false ->
     (execute_heal em rc b a v).2 = v /\
     forall r, (execute_heal em rc b a v).1 = Ok r -> HealExecutionResult.success r = false) /\
  (forall b a r u e, em = Some e -> execute_heal em rc b a v = (Ok r, u) -> HealExecutionResult.success r = true ->
     exists receipt, recovery_append_signed
         (Receipt.with_payload (healing_payload a)
            (Receipt.new RecordType.RecoveryOperationPerformed
               (RecordType.retention_class_for RecordType.RecoveryOperationPerformed) (recovery_emitter_subject e)))
         (recovery_emitter_key e) None (evidence v) = (Ok receipt, evidence u) /\
       HealExecutionResult.receipt_id r = Some (Receipt.receipt_id receipt) /\
       HealExecutionResult.component_id r = component_id a /\ HealExecutionResult.action_kind r = action_kind a /\
       health_registry (store u) = health_registry (store v) /\ forall id, failures (store u) id = failures (store v) id) /\
  (forall now b later, (forall id c, rc id c <> Reception.Hangs) ->
     exists c, (heal_cycle em walk rc now b later v).1 = Ok c /\
       HealCycleResult.actions_decided c = HealCycleResult.actions_executed c + HealCycleResult.actions_failed c).
Proof.
  intros Hs v. split_and!.
  - intros b a Hm Hsub Hr. destruct (execute_cases rc b a v) as [(_ & why & ->)|[(Hd & _)|(Hd & _)]].
    1: split; [done|]; by intros r [= <-].
    all: unfold denied in Hd; by rewrite Hsub, Hr, Hm in Hd.
  - intros b a r u e He Hx Hok. destruct (execute_cases rc b a v) as [(_ & why & Hex)|[(_ & _ & Hex)|(_ & _ & u' & Hex & Hq & Hev & _)]];
      rewrite Hex in Hx; [injection Hx as <- <-; done|done|]. injection Hx as <- <-.
    rewrite Hev. unfold receipted in *. rewrite He in *.
    destruct (recovery_append_signed _ _ _ _) as [[receipt|x] l]; [|done]. exists receipt.
    destruct Hq as (? & _ & _ & ?). by split_and!.
  - intros now b later Hrc. destruct (cycle_spec rc now b later _ v (knows_run ops w Hs)) as (_ & _ & Hc).
    destruct (heal_cycle _ _ _ _ _ _ _).1 as [c|x]; [exists c; by destruct Hc|]. destruct Hc as (_ & id & Hh).
    by destruct (Hrc _ _ Hh).
Qed.
End Sound.
End HealingSound.

(** ** On concrete runs *)
Module HealingDemo.
Import ChainSound.Demo InMemorySelfHealingDriver HealingSound.
#[local] Existing Instance InMemoryRecoveryEvidenceLog.log.
#[local] Instance healing_texts : RecoveryTexts :=
  {| serde_json_to_vec _ := Ok ""; recovery_evidence_error_text _ := "seal"; fs_error_text _ := "fs" |}.
Definition walk A : gmap string A -> list (string * A) := map_to_list.
Definition last_second : Z := i64_max.
Definition world_of (d : InMemorySelfHealingDriver.t) : RecoveryWorld.t InMemorySelfHealingDriver.t InMemoryRecoveryEvidenceLog.t :=
  {| store := d; evidence := InMemoryRecoveryEvidenceLog.new (fun n => "evr_" +:+ pretty n) (fun n => Z.of_nat n);
     clock := fun n => Z.of_nat n; reads := 0; ulids := fun n => pretty n; drawn := 0 |}.
Definition healer (subject : string) : option RecoveryEvidenceEmitter :=
  Some {| recovery_emitter_key := 3%Z : SigningKey; recovery_emitter_subject := subject |}.
Definition em := healer SELF_HEALING_SUBJECT.

Definition with_subs (m : RecoveryMode.t) (l : list RecoverySubBoundary.t) : InMemoryRecoveryBoundary.t :=
  InMemoryRecoveryBoundary.set_state
    {| RecoveryState.mode := m; RecoveryState.entered_at := None; RecoveryState.exit_planned_at := None;
       RecoveryState.reason := None; RecoveryState.operator_grant := None; RecoveryState.active_sub_boundaries := l |}
    InMemoryRecoveryBoundary.new.
Definition in_recovery := with_subs RecoveryMode.Recovery [RecoverySubBoundary.SystemFull].
Definition in_normal := with_subs RecoveryMode.Normal [].

Definition config (scopes : list RecoveryMutableScope.t) (retries : Z) (level : ComponentIsolationLevel.t) : ComponentHealingConfig.t :=
  {| ComponentHealingConfig.display_name := "c"; ComponentHealingConfig.restart_policy := RestartPolicy.minix_style retries;
     ComponentHealingConfig.allowed_scopes := scopes; ComponentHealingConfig.allowed_capabilities := [HealingCapability.CanEscalateToOperator];
     ComponentHealingConfig.isolation_level := level; ComponentHealingConfig.restart_boundary := RestartBoundary.ProcessLocal;
     ComponentHealingConfig.component_type := None |}.
Definition policy_of (m : RecoveryMode.t) (cs : list (string * ComponentHealingConfig.t)) : SelfHealingPolicy.t :=
  {| SelfHealingPolicy.enabled := true; SelfHealingPolicy.minimum_mode := m;
     SelfHealingPolicy.component_policies := list_to_map cs; SelfHealingPolicy.default_policy := RestartPolicy.default_policy |}.
Definition demo_policy := policy_of RecoveryMode.Recovery
  [("net", config [RecoveryMutableScope.NetworkReconfig] 9 ComponentIsolationLevel.Replaceable);
   ("core", config [] 9 ComponentIsolationLevel.Critical)].
Definition obedient : string -> HealCommand.t -> Reception.t := fun _ _ => Reception.Answers (HealCommandResponse.Ack "").
Definition demo_ops : list Op :=
  [SetPolicy demo_policy; Observe "net" ComponentHealthState.Degraded; Observe "net" ComponentHealthState.Healthy;
   Observe "net" ComponentHealthState.Failed; Observe "core" ComponentHealthState.Degraded;
   Observe "fs" ComponentHealthState.Healthy; Register 0 "net"; Channel "net" 1].

Definition decisions (ops : list Op) (b : InMemoryRecoveryBoundary.t) : list (string * HealActionKind.t) :=
  match (evaluate walk b (run em walk last_second ops (world_of new))).1 with
  | Ok acts => (fun a => (HealAction.component_id a, HealAction.action_kind a)) <$> acts
  | Err _ => []
  end.
Example demo_healing :
  decisions demo_ops in_recovery = [("core", HealActionKind.Escalate); ("net", HealActionKind.Restart)] /\
  decisions demo_ops in_normal = [] /\
  failures (store (run em walk last_second demo_ops (world_of new))) "net" = 1%Z /\
  let '(r, v) := heal_cycle em walk obedient 0 in_recovery (fun n => if Nat.eqb n 0 then in_recovery else in_normal)
                   (run em walk last_second demo_ops (world_of new)) in
  match r with Ok c => (HealCycleResult.actions_executed c, HealCycleResult.actions_failed c) | Err _ => (9, 9) end = (1, 1) /\
  length (InMemoryRecoveryEvidenceLog.chain (evidence v)) = 1.
Proof. vm_compute. by split_and!. Qed.

Lemma demo_starts : starts (world_of new).
Proof. by split. Defined.
Lemma demo_documented : documented demo_ops (world_of new).
Proof.
  assert (documented_policy demo_policy) as Hp.
  { split; [vm_compute; discriminate|]. split; [reflexivity|].
    apply (bool_decide_eq_true_1 _). vm_compute. reflexivity. }
  split; [split; [vm_compute; discriminate|]; split; [reflexivity|apply map_Forall_empty]|]. split.
  - intros p Hin. apply elem_of_cons in Hin as [[= ->]|Hin]; [exact Hp|].
    repeat (apply elem_of_cons in Hin as [Hx|Hin]; [discriminate Hx|]). by apply elem_of_nil in Hin.
  - intros before now id after Heq.
    assert (Ping now id ∈ demo_ops) as Hin by (rewrite Heq; apply elem_of_app; right; left).
    repeat (apply elem_of_cons in Hin as [Hx|Hin]; [discriminate Hx|]). by apply elem_of_nil in Hin.
Qed.

Definition action (id : string) (k : HealActionKind.t) (scope : RecoveryMutableScope.t) : HealAction.t :=
  {| HealAction.component_id := id; HealAction.observed_state := ComponentHealthState.Failed; HealAction.action_kind := k;
     HealAction.required_scope := scope; HealAction.reason := ""; HealAction.decided_at := 0%Z; HealAction.sequence := 1 |}.
Lemma healing_governed_witness :
  let v := run em walk last_second demo_ops (world_of new) in
  (execute_heal em obedient in_normal (action "net" HealActionKind.Isolate RecoveryMutableScope.MeshRouting) v).2 = v /\
  exists c, (heal_cycle em walk obedient 0 in_recovery (fun _ => in_recovery) v).1 = Ok c.
Proof.
  destruct (healing_governed em walk last_second demo_ops (world_of new) obedient demo_starts) as (Hd & _ & Hc).
  split; [apply Hd; vm_compute; reflexivity|].
  destruct (Hc 0%Z in_recovery (fun _ => in_recovery)) as (c & Hr & _); [intros id x; discriminate|]. exists c. exact Hr.
Defined.

(** *** What the documentation promises and the code does not do *)

(** The delay is said to be exponential, bounded by its cap: it is the base for
    the first attempt and zero for every later one. *)
Example backoff_vanishes :
  RestartPolicy.backoff_for_attempt (RestartPolicy.conservative 9) 1 = Some (F64.of_Z 2) /\
  RestartPolicy.backoff_for_attempt (RestartPolicy.conservative 9) 2 = Some F64.zero /\
  RestartPolicy.backoff_for_attempt (RestartPolicy.conservative 9) 9 = Some F64.zero.
Proof. vm_compute. by split_and!. Qed.

(** A restart is promised before the escalation: with one retry the first failing
    observation escalates. *)
Example first_failure_escalates :
  decisions [SetPolicy (policy_of RecoveryMode.Recovery [("c", config [] 1 ComponentIsolationLevel.Replaceable)]);
             Observe "c" ComponentHealthState.Degraded] in_recovery = [("c", HealActionKind.Escalate)].
Proof. vm_compute. reflexivity. Qed.
(** The retries count observations: three reports and no restart escalate. *)
Example reports_exhaust_retries :
  decisions [SetPolicy (policy_of RecoveryMode.Recovery [("c", config [] 3 ComponentIsolationLevel.Replaceable)]);
             Observe "c" ComponentHealthState.Degraded; Observe "c" ComponentHealthState.Degraded;
             Observe "c" ComponentHealthState.Degraded] in_recovery = [("c", HealActionKind.Escalate)].
Proof. vm_compute. reflexivity. Qed.

(** A policy for normal mode is accepted if it names no component, and heals every
    component in normal mode. *)
Example normal_mode_heals :
  decisions [SetPolicy (policy_of RecoveryMode.Normal []); Observe "c" ComponentHealthState.Degraded] in_normal =
    [("c", HealActionKind.Restart)].
Proof. vm_compute. reflexivity. Qed.
(** Under a policy for degraded mode an action is executed in normal mode. *)
Example degraded_policy_executes :
  let v := run em walk last_second [SetPolicy (policy_of RecoveryMode.Degraded [])] (world_of new) in
  match (execute_heal em obedient in_normal (action "c" HealActionKind.Failover RecoveryMutableScope.MeshRouting) v).1 with
  | Ok r => HealExecutionResult.success r
  | Err _ => false
  end = true.
Proof. vm_compute. reflexivity. Qed.

(** A policy that keeps the counter over a healthy observation loses it. *)
Example counter_is_reset_regardless :
  let keep := {| RestartPolicy.max_retries := 2; RestartPolicy.backoff_seconds_base := F64.zero;
                 RestartPolicy.backoff_cap_seconds := F64.zero; RestartPolicy.reset_on_healthy := false;
                 RestartPolicy.escalate_after := None |} in
  let p := {| SelfHealingPolicy.enabled := true; SelfHealingPolicy.minimum_mode := RecoveryMode.Recovery;
              SelfHealingPolicy.component_policies := ∅; SelfHealingPolicy.default_policy := keep |} in
  failures (store (run em walk last_second
    [SetPolicy p; Observe "c" ComponentHealthState.Failed; Observe "c" ComponentHealthState.Failed;
     Observe "c" ComponentHealthState.Healthy] (world_of new))) "c" = 0%Z.
Proof. vm_compute. reflexivity. Qed.

(** A segmentation fault is restarted, for which the component has no capability. *)
Definition fault : PanicContext.t :=
  {| PanicContext.component_id := "c"; PanicContext.severity := PanicSeverity.SigFault; PanicContext.message := "";
     PanicContext.file := None; PanicContext.line := None; PanicContext.backtrace_hash := None; PanicContext.core_dump_ref := None;
     PanicContext.observed_at := 0%Z; PanicContext.consecutive_panics := 1 |}.
Example fatal_panic_restarts :
  PanicSeverity.requires_escalation (PanicContext.severity fault) = true /\
  decisions [SetPolicy (policy_of RecoveryMode.Recovery [("c", config [] 9 ComponentIsolationLevel.Replaceable)]); Panic fault]
    in_recovery = [("c", HealActionKind.Restart)].
Proof. vm_compute. by split. Qed.

(** A registry that does not list a critical component has it restarted. *)
Example registry_hides_critical :
  let d := with_registry ComponentRegistry.new new in
  match (evaluate walk in_recovery (run em walk last_second
           [SetPolicy (policy_of RecoveryMode.Recovery [("c", config [] 9 ComponentIsolationLevel.Critical)]);
            Observe "c" ComponentHealthState.Degraded] (world_of d))).1 with
  | Ok acts => HealAction.action_kind <$> acts
  | Err _ => []
  end = [HealActionKind.Restart].
Proof. vm_compute. reflexivity. Qed.

(** An action is decided for any active scope and needs the first one: with the
    second alone it is decided and denied in every cycle. *)
Example decided_and_denied :
  let b := with_subs RecoveryMode.Normal [RecoverySubBoundary.Network] in
  let v := run em walk last_second
    [SetPolicy (policy_of RecoveryMode.Recovery
       [("c", config [RecoveryMutableScope.FilesystemMutation; RecoveryMutableScope.NetworkReconfig] 9 ComponentIsolationLevel.Replaceable)]);
     Observe "c" ComponentHealthState.Degraded] (world_of new) in
  match (heal_cycle em walk obedient 0 b (fun _ => b) v).1 with
  | Ok c => (HealCycleResult.actions_decided c, HealCycleResult.actions_failed c)
  | Err _ => (9, 9)
  end = (1, 1).
Proof. vm_compute. reflexivity. Qed.

(** A component that does not answer stops the cycle for all. *)
Example silent_component_stops_the_cycle :
  (heal_cycle em walk (fun _ _ => Reception.Hangs) 0 in_recovery (fun _ => in_recovery)
     (run em walk last_second demo_ops (world_of new))).1 = Err Stop.Waits.
Proof. vm_compute. reflexivity. Qed.

(** A ping registers a component that was never registered, and a missed deadline
    makes a failed component degraded. *)
Example watchdog_registers_and_lowers :
  let v := run em walk last_second
    [SetWatchdog {| WatchdogPolicy.enabled := true; WatchdogPolicy.default_timeout_secs := 0; WatchdogPolicy.component_timeouts := ∅ |};
     Observe "c" ComponentHealthState.Failed; Ping 0 "c"; Check 0] (world_of new) in
  health_registry (store v) !! "c" = Some ComponentHealthState.Degraded.
Proof. vm_compute. reflexivity. Qed.
End HealingDemo.
